(* ===== verification/_CoqProject ===== *)
-Q . S2P
Prelude.v
PyValue.v
RuntimeValues.v
Names.v
AgentModels.v
Layout.v
ProviderProtocol.v
LayoutTheorems.v
ProjectConfig.v
ConfigLoader.v
ConfigTheorems.v
AgentRuntimes.v
Topology.v
ReloadPlan.v
ReloadTheorems.v
DrainQueue.v
Jsonl.v
MailboxModels.v
MailboxKernel.v
AgentRegistry.v
RuntimeAttach.v
RuntimeService.v
MailboxQueue.v
MailboxSpec.v
MailboxRefinement.v
MailboxSystem.v
MailboxTheorems.v
CompletionModels.v
Supervision.v
Lease.v
Lifecycle.v
Ownership.v
Daemon.v
Keeper.v
DaemonSystem.v
DaemonTheorems.v
KeeperTheorems.v
RuntimeTheorems.v
SupervisionTheorems.v
ExecutionModels.v
Detectors.v
Tracker.v
TextArtifacts.v
JobModels.v
Heartbeat.v
BureauModels.v
Bureau.v
BureauTheorems.v
FaultInjection.v
ActivePoll.v
ExecutionService.v
FakeProvider.v
CodexLog.v
CodexExecution.v
CodexTheorems.v
CodexLogTheorems.v
ExecutionTheorems.v
RetryPolicy.v
DispatcherState.v
JobQueues.v
Dispatcher.v
Callbacks.v
Submission.v
ReplyDelivery.v
Finalization.v
Scheduling.v
Polling.v
CommsRecover.v
DispatcherFrame.v
ExecutionLaws.v
DispatcherQuiet.v
DispatcherInvariant.v
DispatcherOps.v
DispatcherTermination.v
DispatcherStart.v
DispatcherCancel.v
DispatcherRecover.v
DispatcherTheorems.v
RecoverTheorems.v
