(* ===== verification/Prelude.v ===== *)
(** * Verification library for CCB (claude_codex_bridge)

    CCB lets several command-line agents (Claude, Codex, Gemini, ...) of one
    project work side by side. A daemon per project, [ccbd], accepts requests,
    queues them per agent, hands them to the provider of the agent, watches for
    the end of the turn, stores the reply and delivers it to whoever asked. A
    keeper process restarts the daemon when it is gone. Everything the daemon
    knows is in files under [.ccb]: append-only logs and small JSON records.

    This library models the Python code under [src/lib] as executable
    definitions and proves what the parts promise. It is read beside the code:
    every definition keeps the name of the function it translates, a class is a
    record with one definition per method, and the comment at the top of a file
    names the Python files it follows.

    ** How code becomes definitions

    - A function that may raise returns [result]: [Ok] or [Err] of an exception
      with the message the code formats. A method on shared stores is a
      computation in [ST S], state passing with exceptions; as in Python the
      changes made before an exception stay, [st_try] is [try]/[except].
    - Values from JSON are [pyval] ([PyValue]); a [dict] keeps its order. Strings
      are sequences of code points up to U+00FF. Numbers are [Z]; Python's do
      not overflow. Times of timers are rational numbers where the code has
      floats, instants are microseconds. [IllTyped] marks a value of a wrong
      JSON type stored in an unchecked field, which the model does not follow.
    - A log file is the list of its rows, a JSON file an optional value, a
      directory a finite map. [Jsonl] goes down to bytes for the log itself.
    - Every reading of a clock and every new identifier is one step of a stream
      given by a class ([Clock], [Ids], ...), so runs are reproducible and the
      theorems hold for every clock.
    - What is not under [src] or talks to the world outside is a parameter: SHA-256,
      [datetime.fromisoformat], TOML, tmux, providers, processes. Laws about such
      a parameter are hypotheses, each is discharged by a concrete instance in
      the witness of the theorem that uses it.

    ** The parts, and the files that model them

    Foundations. [Prelude] (results, state, Python strings, automation),
    [PyValue] (JSON values), [RuntimeValues] (tagged runtime state and base64),
    [Names] ([agents/models_runtime/names.py], [mailbox_runtime/targets.py]).

    Configuration. [AgentModels], [Layout], [ProjectConfig] and [ConfigLoader]
    follow [agents/models_runtime], [agents/config_loader_runtime] and the layout
    language; [LayoutTheorems] and [ConfigTheorems] show that layouts are read
    back as they are rendered, that every configuration the loader accepts fits
    together, and that a start shows exactly its agents. [Topology] and
    [ReloadPlan] follow [ccbd/reload_*.py] and the checks of
    [services/project_namespace_runtime]; [ReloadTheorems] shows that a plan
    which may be applied changes exactly the panes in which two configurations
    differ. [DrainQueue] is [ccbd/reload_drain.py].

    Mailboxes. [Jsonl] is [storage/jsonl_store.py]; [MailboxModels] and
    [MailboxKernel] are [mailbox_kernel]: each agent has an inbox log, a lease
    and a summary that is maintained incrementally. [MailboxSpec] is the abstract
    first-in first-out inbox; [MailboxQueue] and [MailboxRefinement] prove that
    the kernel implements it, [MailboxSystem] and [MailboxTheorems] what holds in
    every reachable state.

    Completion. [CompletionModels], [Detectors] and [Tracker] are [completion]:
    five families of state machines that decide when a turn is over, the
    selectors of the reply and the orchestrator.

    Execution. [ExecutionModels] and [ExecutionService] are
    [provider_execution]: starting, polling, persistence, timeouts and replays;
    [FaultInjection] and [FakeProvider] the drills and the scripted provider;
    [ExecutionTheorems] what survives a restart and when a silent job ends.

    Bureau. [BureauModels], [Bureau] and [BureauTheorems] are [message_bureau]:
    messages, attempts, replies and callback edges, recorded on top of the
    mailbox kernel. [TextArtifacts] is [storage/text_artifacts.py].

    Dispatcher. [JobModels] and [Heartbeat] are [jobs], [ccbd/api_models_runtime]
    and [heartbeat]; [RetryPolicy], [DispatcherState], [Dispatcher], [Callbacks],
    [Submission], [ReplyDelivery], [Finalization], [Scheduling] and [Polling] are
    [ccbd/services/dispatcher_runtime]. [JobQueues] says what the queues should
    be, read off the job logs; [DispatcherFrame], [DispatcherQuiet],
    [DispatcherInvariant], [DispatcherOps], [DispatcherStart], [DispatcherCancel]
    and [DispatcherTermination] show that every operation keeps them so, and
    [DispatcherTheorems] what holds of every run of daemons. The dispatcher is
    verified against [ServiceLaws], a class that states what it needs of the
    execution service; [ExecutionLaws] shows that the real service obeys it.

    Daemon and keeper. [Lease], [Lifecycle], [Ownership], [Daemon] and [Keeper]
    follow [ccbd/services/mount.py], [ownership.py], [lifecycle.py],
    [app_runtime/lifecycle.py], [keeper.py] and [keeper_runtime]; [DaemonSystem]
    is the machine on which daemons of one project come, hang, crash and lose
    their process ids. [DaemonTheorems]: at most one daemon holds the project
    and a well holder is never displaced. [KeeperTheorems]: a stopped project
    stays stopped, a lost daemon is replaced.

    ** Recursion and fuel

    Recursion that is not structural carries fuel that is proved enough: the
    layout parser takes the length of the text, [complete] as many levels as
    there are running jobs ([DispatcherTermination]), the orchestrator as many
    turns as the timeout allows, the chunked readers of [Jsonl] the size of the
    file. A theorem that a function returns is stated as such.

    ** What the theorems do not say

    - After an operation of the dispatcher raised, the queues in memory may
      disagree with the logs until the daemon restarts; the theorems then speak
      of the logs and of the state after the restart. Places where this is
      visible: [start_running_job] takes a job off the queue before its row is
      written, [submit_continuation_job] enqueues before the retry attempt is
      recorded, [complete_job] on a job that is still queued leaves it queued.
    - Operations on files are atomic steps. The code guards mounting with a file
      lock; heartbeats and unmounting read, check and write the lease without it.
    - The stores of the mailbox kernel and of the bureau are used by one process,
      the daemon that holds the lease.
    - Strings beyond U+00FF and the rounding of floats are not modelled.

    ** Not modelled

    - Provider backends ([provider_backends]), their profiles, hooks and sessions:
      they read logs, databases and panes of external programs whose formats the
      repository does not define, and materialise home directories.
    - Sockets, threads and tmux: [ccbd/socket_server_runtime], [terminal_runtime],
      [pane_registry_runtime], [project_namespace_runtime] beyond planning,
      [start_runtime], [start_flow_runtime], [supervision] and health checks, which
      act on what processes and panes report.
    - The command line ([cli]) and the views ([project_view], message bureau
      control views): parsing of arguments and rendering of what the modelled
      stores hold.
    - [memory], [project_memory], [workspace], [project]: text formatting, git and
      file-system lookups. *)
From stdpp Require Export base tactics option list strings gmap fin_maps numbers.
From Stdlib Require Export Ascii Lia.
From stdpp Require Export list.

(** ** Exceptions and results

    A Python function that may raise is a function into [result].  The
    constructor of [exn] is the exception class, the string the message the
    source formats; [IllTyped f] marks the one thing the model does not
    follow: a JSON value of the wrong type stored in the field [f] of an
    unchecked dataclass. *)
Inductive exn : Type :=
  | ValueError (msg : string)
  | AgentValidationError (msg : string)
  | CompletionValidationError (msg : string)
  | LayoutParseError (msg : string)
  | ConfigValidationError (msg : string)
  | KeyError (key : string)
  | TypeError (msg : string)
  | AttributeError (msg : string)
  | RuntimeError (msg : string)
  | DispatchError (msg : string)
  | DispatchRejectedError (msg : string)
  | CcbdModelError (msg : string)
  | OwnershipConflictError (msg : string)
  | OSError (msg : string)
  | TmuxTransientServerUnavailable (msg : string)
  | IllTyped (field : string).

#[export] Instance exn_eq_dec : EqDecision exn.
Proof. solve_decision. Defined.

Inductive result (A : Type) : Type :=
  | Ok (a : A)
  | Err (e : exn).
Arguments Ok {A} a.
Arguments Err {A} e.

#[export] Instance result_eq_dec `{EqDecision A} : EqDecision (result A).
Proof. solve_decision. Defined.

#[export] Instance result_ret : MRet result := λ A a, Ok a.
#[export] Instance result_bind : MBind result := λ A B f m,
  match m with Ok a => f a | Err e => Err e end.

(** [raise_if b e]: the guard [if b: raise e]. *)
Definition raise_if (b : bool) (e : exn) : result unit :=
  if b then Err e else Ok tt.

Definition is_ok {A} (r : result A) : bool :=
  match r with Ok _ => true | Err _ => false end.

Lemma result_bind_ok {A B} (f : A → result B) a : (Ok a ≫= f) = f a.
Proof. reflexivity. Qed.

Lemma result_bind_Ok_inv {A B} (m : result A) (f : A → result B) b :
  (m ≫= f) = Ok b → ∃ a, m = Ok a ∧ f a = Ok b.
Proof. destruct m as [a|e]; cbn; [by eauto | discriminate]. Qed.

Lemma raise_if_Ok b e u : raise_if b e = Ok u → b = false.
Proof. by destruct b. Qed.

(** ** State with exceptions

    A method that mutates shared stores is a computation in [ST S].  As in
    Python, the changes made before an exception stay. *)
Definition ST (S A : Type) : Type := S → result A * S.

#[export] Instance st_ret {S} : MRet (ST S) := λ A a s, (Ok a, s).
#[export] Instance st_bind {S} : MBind (ST S) := λ A B f m s,
  match m s with
  | (Ok a, s') => f a s'
  | (Err e, s') => (Err e, s')
  end.

Definition st_lift {S A} (r : result A) : ST S A := λ s, (r, s).
Definition st_gets {S A} (f : S → A) : ST S A := λ s, (Ok (f s), s).
Definition st_modify {S} (f : S → S) : ST S unit := λ s, (Ok tt, f s).
Definition st_raise {S A} (e : exn) : ST S A := λ s, (Err e, s).

(** [except Exception] around [m]. *)
Definition st_try {S A} (m : ST S A) (handler : exn → ST S A) : ST S A := λ s,
  match m s with
  | (Ok a, s') => (Ok a, s')
  | (Err e, s') => handler e s'
  end.

(** The state a computation leaves, whatever it returns. *)
Definition st_exec {S A} (m : ST S A) (s : S) : S := (m s).2.

Section st_lemmas.
Context {S : Type}.

Lemma st_bind_eq {A B} (m : ST S A) (f : A → ST S B) s r s' :
  m s = (r, s') →
  (m ≫= f) s = match r with Ok a => f a s' | Err e => (Err e, s') end.
Proof. intros H. unfold mbind, st_bind. rewrite H. by destruct r. Qed.

Lemma st_bind_ok {A B} (m : ST S A) (f : A → ST S B) s a s' :
  m s = (Ok a, s') → (m ≫= f) s = f a s'.
Proof. intros H. by rewrite (st_bind_eq _ _ _ _ _ H). Qed.

Lemma st_bind_err {A B} (m : ST S A) (f : A → ST S B) s e s' :
  m s = (Err e, s') → (m ≫= f) s = (Err e, s').
Proof. intros H. by rewrite (st_bind_eq _ _ _ _ _ H). Qed.

Lemma st_ret_eq {A} (a : A) (s : S) : (mret a : ST S A) s = (Ok a, s).
Proof. reflexivity. Qed.

Lemma st_gets_bind {A B} (f : S → A) (k : A → ST S B) s :
  (st_gets f ≫= k) s = k (f s) s.
Proof. reflexivity. Qed.

Lemma st_modify_bind {B} (f : S → S) (k : unit → ST S B) s :
  (st_modify f ≫= k) s = k tt (f s).
Proof. reflexivity. Qed.

Lemma st_lift_bind {A B} (r : result A) (k : A → ST S B) s a :
  r = Ok a → (st_lift r ≫= k) s = k a s.
Proof. by intros ->. Qed.
End st_lemmas.

(** [m] keeps [P], whether it returns or raises; and what it returns when it
    does satisfies [Q]. *)
Definition st_ensures {S A} (P : S → Prop) (m : ST S A) (Q : A → Prop) : Prop :=
  ∀ s, P s → P (st_exec m s) ∧ ∀ a, (m s).1 = Ok a → Q a.
Definition preserves {S A} (P : S → Prop) (m : ST S A) : Prop := ∀ s, P s → P (st_exec m s).

Section preserves.
Context {S : Type}.

Lemma preserves_ensures {A} (P : S → Prop) (m : ST S A) : preserves P m → st_ensures P m (λ _, True).
Proof. intros Hm s Hs. by split; [apply Hm|]. Qed.

Lemma ensures_preserves {A} (P : S → Prop) (m : ST S A) Q : st_ensures P m Q → preserves P m.
Proof. intros Hm s Hs. by apply Hm. Qed.

Lemma ensures_bind {A B} (P : S → Prop) Q R (m : ST S A) (f : A → ST S B) :
  st_ensures P m Q → (∀ a, Q a → st_ensures P (f a) R) → st_ensures P (m ≫= f) R.
Proof.
  intros Hm Hf s Hs. unfold st_exec, mbind, st_bind.
  destruct (Hm s Hs) as [H1 H2]. unfold st_exec in H1. destruct (m s) as [[a|e] s']; [|done].
  by apply Hf; [apply H2|].
Qed.

Lemma preserves_bind {A B} (P : S → Prop) (m : ST S A) (f : A → ST S B) :
  preserves P m → (∀ a, preserves P (f a)) → preserves P (m ≫= f).
Proof.
  intros Hm Hf. eapply ensures_preserves, ensures_bind; [by apply preserves_ensures|].
  intros a _. by apply preserves_ensures.
Qed.

Lemma preserves_same {A} (P : S → Prop) (m : ST S A) : (∀ s, st_exec m s = s) → preserves P m.
Proof. intros Hm s Hs. by rewrite Hm. Qed.

Lemma ensures_lift {A} (P : S → Prop) (r : result A) (Q : A → Prop) :
  (∀ a, r = Ok a → Q a) → st_ensures P (st_lift r) Q.
Proof. by intros HQ s Hs; split; [|intros a E; apply HQ]. Qed.

Lemma ensures_ret {A} (P : S → Prop) (a : A) (Q : A → Prop) : Q a → st_ensures P (mret a) Q.
Proof. intros HQ s Hs. split; [done|]. by intros ? [= <-]. Qed.

Lemma ensures_gets {A} (P : S → Prop) (f : S → A) (Q : A → Prop) :
  (∀ s, P s → Q (f s)) → st_ensures P (st_gets f) Q.
Proof. intros HQ s Hs. split; [done|]. intros ? [= <-]. by apply HQ. Qed.
End preserves.

Create HintDb ccb discriminated.

(** ** Python strings

    A string is a sequence of code points U+0000 to U+00FF ([ascii]); the
    tables of [str.strip], [str.lower] and [repr] are Python's on that range. *)
Open Scope string_scope.
Open Scope list_scope.
Open Scope bool_scope.
Open Scope nat_scope.
Notation "a =ˢ b" := (bool_decide (a = b)) (at level 70, no associativity).
Notation "a ≠ˢ b" := (negb (bool_decide (a = b))) (at level 70, no associativity).

Definition code (c : ascii) : nat := nat_of_ascii c.

(** [str.isspace] on one code point. *)
Definition is_space (c : ascii) : bool :=
  let n := code c in
  (9 <=? n) && (n <=? 13) || (28 <=? n) && (n <=? 32) || (n =? 133) || (n =? 160).

(** [str.lower] on one code point: A-Z and the Latin-1 capitals. *)
Definition lower_char (c : ascii) : ascii :=
  let n := code c in
  if (65 <=? n) && (n <=? 90) || (192 <=? n) && (n <=? 222) && negb (n =? 215)
  then ascii_of_nat (n + 32) else c.

Fixpoint string_map (f : ascii → ascii) (s : string) : string :=
  match s with "" => "" | String c s' => String (f c) (string_map f s') end.

Fixpoint string_forallb (f : ascii → bool) (s : string) : bool :=
  match s with "" => true | String c s' => f c && string_forallb f s' end.

Definition lower (s : string) : string := string_map lower_char s.

Fixpoint lstrip (s : string) : string :=
  match s with
  | "" => ""
  | String c s' => if is_space c then lstrip s' else s
  end.

Fixpoint rstrip (s : string) : string :=
  match s with
  | "" => ""
  | String c s' =>
      match rstrip s' with
      | "" => if is_space c then "" else String c ""
      | t => String c t
      end
  end.

Definition strip (s : string) : string := rstrip (lstrip s).

(** [s > t] on Python strings: lexicographic on code points. *)
Definition str_gtb (s t : string) : bool := String.ltb t s.

(** [x or y] for an optional string: [None] and [''] are falsy. *)
Definition truthy (s : option string) : bool :=
  match s with Some t => t ≠ˢ "" | None => false end.
Definition str_or (x : option string) (y : string) : string :=
  match x with Some s => if s =ˢ "" then y else s | None => y end.
(** [x or None]. *)
Definition or_none (s : string) : option string :=
  if s =ˢ "" then None else Some s.

Arguments strip : simpl never.
Arguments lower : simpl never.

(** Case analysis on a character of a finite table: 256 cases. *)
Ltac by_char c :=
  destruct c as [[] [] [] [] [] [] [] []]; vm_compute; try reflexivity; try congruence.

Lemma is_space_lower c : is_space (lower_char c) = is_space c.
Proof. by_char c. Qed.

Lemma lower_char_idem c : lower_char (lower_char c) = lower_char c.
Proof. by_char c. Qed.

Lemma string_map_idem f s :
  (∀ c, f (f c) = f c) → string_map f (string_map f s) = string_map f s.
Proof. intros Hf. induction s as [|c s IH]; cbn; [done|]. by rewrite Hf, IH. Qed.

Lemma lower_idem s : lower (lower s) = lower s.
Proof. apply string_map_idem, lower_char_idem. Qed.

Lemma lower_nonempty s : lower s = "" ↔ s = "".
Proof. by destruct s. Qed.

Lemma length_lower s : String.length (lower s) = String.length s.
Proof. unfold lower. induction s as [|c s IH]; cbn; congruence. Qed.

Lemma lstrip_idem s : lstrip (lstrip s) = lstrip s.
Proof. induction s as [|c s IH]; cbn; [done|]. destruct (is_space c) eqn:E; [done|]. cbn. by rewrite E. Qed.

Lemma rstrip_cons c s :
  rstrip (String c s) =
  match rstrip s with "" => if is_space c then "" else String c "" | t => String c t end.
Proof. reflexivity. Qed.

Lemma rstrip_idem s : rstrip (rstrip s) = rstrip s.
Proof.
  induction s as [|c s IH]; [done|]. rewrite rstrip_cons.
  destruct (rstrip s) as [|c' t] eqn:E.
  - destruct (is_space c) eqn:Ec; [done|]. rewrite rstrip_cons. cbn. by rewrite Ec.
  - rewrite rstrip_cons, IH. done.
Qed.

(** The first character of [lstrip s] is not a space; [rstrip] keeps it. *)
Lemma lstrip_rstrip s : lstrip (rstrip (lstrip s)) = rstrip (lstrip s).
Proof.
  induction s as [|c s IH]; [done|]. cbn [lstrip].
  destruct (is_space c) eqn:Ec; [done|]. rewrite rstrip_cons, Ec.
  destruct (rstrip s); cbn; by rewrite Ec.
Qed.

Lemma strip_idem s : strip (strip s) = strip s.
Proof. unfold strip. rewrite lstrip_rstrip. apply rstrip_idem. Qed.

Lemma lower_lstrip s : lower (lstrip s) = lstrip (lower s).
Proof.
  unfold lower. induction s as [|c s IH]; [done|]. cbn. rewrite is_space_lower.
  by destruct (is_space c).
Qed.

Lemma lower_rstrip s : lower (rstrip s) = rstrip (lower s).
Proof.
  unfold lower. induction s as [|c s IH]; [done|]. cbn -[rstrip].
  rewrite !rstrip_cons, <- IH. destruct (rstrip s); cbn; [|done].
  rewrite is_space_lower. by destruct (is_space c).
Qed.

Lemma lower_strip s : lower (strip s) = strip (lower s).
Proof. unfold strip. by rewrite lower_rstrip, lower_lstrip. Qed.

(** A string without white space is its own [strip]. *)
Lemma strip_no_space s : string_forallb (λ c, negb (is_space c)) s = true → strip s = s.
Proof.
  intros H. unfold strip.
  assert (lstrip s = s) as ->.
  { destruct s as [|c s]; [done|]. cbn in *. by destruct (is_space c). }
  induction s as [|c s IH]; [done|]. cbn in H. apply andb_prop in H as [Hc Hs].
  rewrite rstrip_cons, (IH Hs). destruct s; [|done]. by destruct (is_space c).
Qed.

Lemma string_forallb_map f g s :
  string_forallb f (string_map g s) = string_forallb (λ c, f (g c)) s.
Proof. induction s as [|c s IH]; cbn; congruence. Qed.

Lemma string_forallb_impl (f g : ascii → bool) s :
  (∀ c, f c = true → g c = true) → string_forallb f s = true → string_forallb g s = true.
Proof.
  intros Hfg. induction s as [|c s IH]; cbn; [done|].
  intros [??]%andb_prop. apply andb_true_intro. auto.
Qed.

Lemma string_app_cons c (s t : string) : String c s +:+ t = String c (s +:+ t).
Proof. reflexivity. Qed.
Lemma string_prefix_app p s : String.prefix p (p +:+ s) = true.
Proof.
  induction p as [|c p IH]; [by destruct s|]. rewrite string_app_cons. cbn.
  by destruct (ascii_dec c c).
Qed.
Lemma string_app_assoc (s t u : string) : (s +:+ t) +:+ u = s +:+ (t +:+ u).
Proof. induction s as [|c s IH]; [done|]. by rewrite !string_app_cons, IH. Qed.
Lemma string_app_nil (s : string) : s +:+ "" = s.
Proof. induction s as [|c s IH]; [done|]. by rewrite string_app_cons, IH. Qed.
Lemma string_app_nonempty (s t : string) : s ≠ "" → s +:+ t ≠ "".
Proof. by destruct s. Qed.
Lemma rstrip_app s t : rstrip t = t → t ≠ "" → rstrip (s +:+ t) = s +:+ t.
Proof.
  intros Ht Hne. induction s as [|c s IH]; [done|]. rewrite string_app_cons, rstrip_cons, IH.
  destruct (s +:+ t) eqn:E; [|done]. exfalso. by destruct s.
Qed.
Lemma lstrip_app s t : lstrip s = s → s ≠ "" → lstrip (s +:+ t) = s +:+ t.
Proof.
  destruct s as [|c s]; [done|]. intros Hs _. rewrite string_app_cons. cbn [lstrip] in *.
  destruct (is_space c); [|done]. exfalso. assert (String.length (lstrip s) <= String.length s) as Hl.
  { clear. induction s as [|d s IH]; cbn; [done|]. destruct (is_space d); cbn; lia. }
  rewrite Hs in Hl. cbn in Hl. lia.
Qed.

(** ** [repr] of a string *)
Fixpoint string_existsb (f : ascii → bool) (s : string) : bool :=
  match s with "" => false | String c s' => f c || string_existsb f s' end.

Definition hex_digit (n : nat) : ascii :=
  ascii_of_nat (if n <? 10 then 48 + n else 87 + n).

Definition repr_char (quote : ascii) (c : ascii) : string :=
  let n := code c in
  if (n =? 92) || bool_decide (c = quote) then String "092" (String c "")
  else if n =? 10 then "\n"
  else if n =? 13 then "\r"
  else if n =? 9 then "\t"
  else if (n <? 32) || (127 <=? n) && (n <=? 160) || (n =? 173)
  then "\x" +:+ String (hex_digit (n / 16)) (String (hex_digit (n mod 16)) "")
  else String c "".

Fixpoint repr_body (quote : ascii) (s : string) : string :=
  match s with "" => "" | String c s' => repr_char quote c +:+ repr_body quote s' end.

Definition repr_str (s : string) : string :=
  let quote : ascii :=
    if string_existsb (λ c, code c =? 39) s && negb (string_existsb (λ c, code c =? 34) s)
    then ascii_of_nat 34 else ascii_of_nat 39 in
  String quote (repr_body quote s) +:+ String quote "".

(** ** Search from the end of a list

    [find_last p l]: the last element of [l] that satisfies [p]. *)
Definition find_last {A} (p : A → bool) (l : list A) : option A := List.find p (reverse l).

Section find_last.
Context {A : Type} (p : A → bool).

Lemma find_last_snoc l x : find_last p (l ++ [x]) = if p x then Some x else find_last p l.
Proof. unfold find_last. by rewrite reverse_app. Qed.

Lemma find_last_Some l x : find_last p l = Some x → x ∈ l ∧ p x = true.
Proof.
  intros [H1 H2]%List.find_some. split; [|done].
  by rewrite <- elem_of_reverse, list_elem_of_In.
Qed.

Lemma find_last_None l : find_last p l = None ↔ ∀ x, x ∈ l → p x = false.
Proof.
  split.
  - intros H x Hx. apply (List.find_none _ _ H). by rewrite <- list_elem_of_In, elem_of_reverse.
  - intros H. destruct (find_last p l) as [x|] eqn:E; [|done].
    apply find_last_Some in E as [Hx Hp]. rewrite (H x Hx) in Hp. done.
Qed.
End find_last.

(** ** Inversion of a computation that returned

    [inv_result] takes every hypothesis [m ≫= f = Ok b] apart: the values of
    the binds, the guards that did not raise, the value returned. *)
Ltac inv_result :=
  repeat match goal with
  | H : (_ ≫= _) = Ok _ |- _ => apply result_bind_Ok_inv in H as (? & ? & H)
  | H : raise_if _ _ = Ok _ |- _ => apply raise_if_Ok in H
  | H : mret _ = Ok _ |- _ => unfold mret, result_ret in H
  | H : Ok _ = Ok _ |- _ => injection H as H
  | H : Err _ = Ok _ |- _ => discriminate H
  end.

Lemma bool_decide_ne {P : Prop} `{Decision P} : ¬ P → bool_decide P = false.
Proof. apply bool_decide_eq_false_2. Qed.

(** Replay the guards of a constructor on its own result. *)
Ltac replay_guards :=
  repeat match goal with
  | H : ?b = false |- context [ raise_if ?b _ ] => rewrite H; cbn [raise_if]; rewrite result_bind_ok
  end.

Lemma elem_of_filter_bool {A} (p : A → bool) (x : A) l : x ∈ List.filter p l ↔ x ∈ l ∧ p x = true.
Proof. by rewrite !list_elem_of_In, List.filter_In. Qed.

(** [str(exc)]. *)
Definition exn_text (e : exn) : string :=
  match e with
  | ValueError m | AgentValidationError m | CompletionValidationError m | LayoutParseError m
  | ConfigValidationError m | TypeError m | AttributeError m | RuntimeError m | DispatchError m | DispatchRejectedError m
  | CcbdModelError m | OwnershipConflictError m | OSError m | TmuxTransientServerUnavailable m => m
  | KeyError k => repr_str k
  | IllTyped f => f
  end.

(** [type(exc).__name__]. *)
Definition exn_type (e : exn) : string :=
  match e with
  | ValueError _ => "ValueError" | AgentValidationError _ => "AgentValidationError"
  | CompletionValidationError _ => "CompletionValidationError" | LayoutParseError _ => "LayoutParseError"
  | ConfigValidationError _ => "ConfigValidationError" | KeyError _ => "KeyError" | TypeError _ => "TypeError"
  | AttributeError _ => "AttributeError"
  | RuntimeError _ => "RuntimeError" | DispatchError _ => "DispatchError" | DispatchRejectedError _ => "DispatchRejectedError"
  | CcbdModelError _ => "CcbdModelError" | OwnershipConflictError _ => "OwnershipConflictError" | OSError _ => "OSError"
  | TmuxTransientServerUnavailable _ => "TmuxTransientServerUnavailable"
  | IllTyped _ => "TypeError"
  end.

(** [sorted] on strings. *)
Fixpoint sort_insert (x : string) (l : list string) : list string :=
  match l with
  | [] => [x]
  | y :: l' => if String.leb x y then x :: y :: l' else y :: sort_insert x l'
  end.
Definition sorted_strings (l : list string) : list string := foldr sort_insert [] l.

(** ** Dictionaries in insertion order

    An association list with one entry per key. *)
Fixpoint od_lookup {A} (k : string) (d : list (string * A)) : option A :=
  match d with
  | [] => None
  | (k', v) :: d' => if String.eqb k k' then Some v else od_lookup k d'
  end.
(** [d[k] = v]: in place when the key is there, at the end when it is new. *)
Fixpoint od_set {A} (k : string) (v : A) (d : list (string * A)) : list (string * A) :=
  match d with
  | [] => [(k, v)]
  | (k', v') :: d' => if String.eqb k k' then (k, v) :: d' else (k', v') :: od_set k v d'
  end.
(** [d.pop(k, None)]. *)
Definition od_pop {A} (k : string) (d : list (string * A)) : list (string * A) :=
  List.filter (λ kv, negb (String.eqb kv.1 k)) d.
(** [{**d, **other}]. *)
Definition od_update {A} (other d : list (string * A)) : list (string * A) :=
  foldl (λ d kv, od_set kv.1 kv.2 d) d other.

Lemma od_lookup_pop {A} k (d : list (string * A)) : od_lookup k (od_pop k d) = None.
Proof.
  induction d as [|[k' v] d IH]; [done|]. unfold od_pop. cbn. destruct (String.eqb k' k) eqn:Hk; cbn; [done|].
  rewrite String.eqb_sym, Hk. exact IH.
Qed.
Lemma od_lookup_pop_ne {A} k k' (d : list (string * A)) : k ≠ k' → od_lookup k (od_pop k' d) = od_lookup k d.
Proof.
  intros Hk. induction d as [|[k2 v] d IH]; [done|]. unfold od_pop. cbn.
  destruct (String.eqb_spec k2 k') as [->|]; cbn.
  - by apply String.eqb_neq in Hk as ->.
  - fold (od_pop k' d). by rewrite IH.
Qed.
Lemma od_pop_absent {A} k (d : list (string * A)) : od_lookup k d = None → od_pop k d = d.
Proof.
  induction d as [|[k' v] d IH]; [done|]. unfold od_pop. cbn. rewrite (String.eqb_sym k' k).
  destruct (String.eqb k k'); cbn; [done|]. intros Hd. f_equal. by apply IH.
Qed.
Lemma od_lookup_set {A} k (v : A) d : od_lookup k (od_set k v d) = Some v.
Proof.
  induction d as [|[k' v'] d IH]; cbn; [by rewrite String.eqb_refl|].
  destruct (String.eqb k k') eqn:Hk; cbn; [by rewrite String.eqb_refl|]. by rewrite Hk.
Qed.
Lemma od_lookup_set_ne {A} k k' (v : A) d : k ≠ k' → od_lookup k (od_set k' v d) = od_lookup k d.
Proof.
  intros Hk. induction d as [|[k2 v2] d IH]; cbn; [by apply String.eqb_neq in Hk as ->|].
  destruct (String.eqb_spec k' k2) as [<-|]; cbn; [by apply String.eqb_neq in Hk as ->|]. by rewrite IH.
Qed.
Lemma od_set_set {A} k (v w : A) d : od_set k v (od_set k w d) = od_set k v d.
Proof.
  induction d as [|[k' v'] d IH]; cbn; [by rewrite String.eqb_refl|].
  destruct (String.eqb k k') eqn:Hk; cbn; [by rewrite String.eqb_refl|]. by rewrite Hk, IH.
Qed.
(** A key that is there stays where it is. *)
Lemma od_set_swap {A} k k' (v w : A) d : k ≠ k' → is_Some (od_lookup k d) →
  od_set k v (od_set k' w d) = od_set k' w (od_set k v d).
Proof.
  intros Hne. apply String.eqb_neq in Hne as Hkk. induction d as [|[k2 v2] d IH]; cbn; [by intros []|].
  destruct (String.eqb k k2) eqn:Hk.
  - apply String.eqb_eq in Hk as <-. intros _. destruct (String.eqb k' k) eqn:Hk'.
    + apply String.eqb_eq in Hk' as ->. by rewrite String.eqb_refl in Hkk.
    + cbn. by rewrite String.eqb_refl, Hk'.
  - intros Hd. destruct (String.eqb k' k2) eqn:Hk'; cbn; rewrite ?Hkk, ?Hk, ?Hk'; [done|]. by rewrite IH.
Qed.
