(* ===== verification/PyValue.v ===== *)
(** * Python values that pass through JSON

    The values [json.loads] returns, [dict] access on them, and the built-ins
    [str], [int] and [bool] the codecs apply to them.  A [dict] is an
    association list in insertion order with one entry per key. *)
From S2P Require Import Prelude.
From stdpp Require Import pretty.
From Stdlib Require Import QArith.
Open Scope string_scope.
Open Scope list_scope.
Open Scope nat_scope.

#[warnings="-register-all"]
Inductive pyval : Type :=
  | PNone
  | PBool (b : bool)
  | PInt (z : Z)
  | PFloat (q : Q)
  | PStr (s : string)
  | PList (l : list pyval)
  | PDict (kvs : list (string * pyval)).

Definition pydict : Type := list (string * pyval).

(** ** Dictionaries *)

(** [d.get(k)] without its default. *)
Fixpoint dict_lookup (k : string) (d : pydict) : option pyval :=
  match d with
  | [] => None
  | (k', v) :: d' => if String.eqb k k' then Some v else dict_lookup k d'
  end.

Definition dget (k : string) (d : pydict) : pyval := default PNone (dict_lookup k d).
Definition dget_or (k : string) (dflt : pyval) (d : pydict) : pyval :=
  default dflt (dict_lookup k d).
(** [d[k]]. *)
Definition dindex (k : string) (d : pydict) : result pyval :=
  match dict_lookup k d with Some v => Ok v | None => Err (KeyError k) end.
(** [d[k] = v]: in place when the key is there, at the end when it is new. *)
Fixpoint dset (k : string) (v : pyval) (d : pydict) : pydict :=
  match d with
  | [] => [(k, v)]
  | (k', v') :: d' => if String.eqb k k' then (k, v) :: d' else (k', v') :: dset k v d'
  end.
(** [d.pop(k, None)]. *)
Definition dpop (k : string) (d : pydict) : pydict :=
  List.filter (λ kv, negb (String.eqb kv.1 k)) d.
(** [d.setdefault(k, v)]. *)
Definition dsetdefault (k : string) (v : pyval) (d : pydict) : pydict :=
  match dict_lookup k d with Some _ => d | None => d ++ [(k, v)] end.

(** ** [bool], [str], [int] *)
Definition py_bool (v : pyval) : bool :=
  match v with
  | PNone => false
  | PBool b => b
  | PInt z => negb (z =? 0)%Z
  | PFloat q => negb (Qeq_bool q 0)
  | PStr s => s ≠ˢ ""
  | PList l => match l with [] => false | _ => true end
  | PDict d => match d with [] => false | _ => true end
  end.

Definition py_or (v w : pyval) : pyval := if py_bool v then v else w.

Fixpoint join (sep : string) (l : list string) : string :=
  match l with
  | [] => ""
  | [s] => s
  | s :: l' => s +:+ sep +:+ join sep l'
  end.

(** [repr]; the text Python gives a [float] is not modelled. *)
Fixpoint py_repr (v : pyval) : result string :=
  match v with
  | PNone => Ok "None"
  | PBool b => Ok (if b then "True" else "False")
  | PInt z => Ok (pretty z)
  | PFloat _ => Err (IllTyped "repr of a float")
  | PStr s => Ok (repr_str s)
  | PList l =>
      parts ← (fix go l := match l with
                           | [] => Ok []
                           | v :: l' => s ← py_repr v; rest ← go l'; Ok (s :: rest)
                           end) l;
      Ok ("[" +:+ join ", " parts +:+ "]")
  | PDict d =>
      parts ← (fix go d := match d with
                           | [] => Ok []
                           | (k, v) :: d' =>
                               s ← py_repr v; rest ← go d';
                               Ok ((repr_str k +:+ ": " +:+ s) :: rest)
                           end) d;
      Ok ("{" +:+ join ", " parts +:+ "}")
  end.

Definition py_str (v : pyval) : result string :=
  match v with PStr s => Ok s | _ => py_repr v end.

(** [str(d[k])]. *)
Definition str_at (k : string) (d : pydict) : result string := dindex k d ≫= py_str.

(** [str(v or '')]. *)
Definition py_str_or_empty (v : pyval) : result string :=
  if py_bool v then py_str v else Ok "".

Definition digit_value (c : ascii) : option Z :=
  let n := code c in if (48 <=? n) && (n <=? 57) then Some (Z.of_nat (n - 48)) else None.

(** Decimal digits with single underscores between digits. *)
Fixpoint parse_digits (acc : Z) (after_digit : bool) (s : string) : option Z :=
  match s with
  | "" => if after_digit then Some acc else None
  | String c s' =>
      match digit_value c with
      | Some d => parse_digits (acc * 10 + d)%Z true s'
      | None => if after_digit && (code c =? 95) then parse_digits acc false s' else None
      end
  end.

Definition parse_int (s : string) : option Z :=
  match strip s with
  | String c s' =>
      if code c =? 45 then Z.opp <$> parse_digits 0 false s'
      else if code c =? 43 then parse_digits 0 false s'
      else parse_digits 0 false (String c s')
  | "" => None
  end.

Definition py_int (v : pyval) : result Z :=
  match v with
  | PBool b => Ok (if b then 1 else 0)%Z
  | PInt z => Ok z
  | PFloat q => Ok (Z.quot (Qnum q) (Zpos (Qden q)))
  | PStr s =>
      match parse_int s with
      | Some z => Ok z
      | None => Err (ValueError ("invalid literal for int() with base 10: " +:+ repr_str s))
      end
  | PNone | PList _ | PDict _ =>
      Err (TypeError "int() argument must be a string, a bytes-like object or a real number")
  end.

(** [v == n] for an integer constant: [True == 1] and [1.0 == 1]. *)
Definition py_eq_int (v : pyval) (n : Z) : bool :=
  match v with
  | PInt z => (z =? n)%Z
  | PBool b => ((if b then 1 else 0) =? n)%Z
  | PFloat q => Qeq_bool q (inject_Z n)
  | _ => false
  end.

(** [v == s] for a string constant. *)
Definition py_eq_str (v : pyval) (s : string) : bool :=
  match v with PStr t => t =ˢ s | _ => false end.

(** [v == w]: numbers compare by value, dictionaries without regard to order. *)
Definition py_number (v : pyval) : option Q :=
  match v with
  | PBool b => Some (inject_Z (if b then 1 else 0))
  | PInt z => Some (inject_Z z)
  | PFloat q => Some q
  | _ => None
  end.
Fixpoint py_eqb (v w : pyval) {struct v} : bool :=
  match py_number v, py_number w with
  | Some p, Some q => Qeq_bool p q
  | _, _ =>
      match v, w with
      | PNone, PNone => true
      | PStr s, PStr t => s =ˢ t
      | PList l, PList m =>
          (fix go l m := match l, m with
                         | [], [] => true
                         | a :: l', b :: m' => py_eqb a b && go l' m'
                         | _, _ => false
                         end) l m
      | PDict d, PDict e =>
          (length d =? length e)
          && (fix go d := match d with
                          | [] => true
                          | (k, a) :: d' =>
                              match dict_lookup k e with
                              | Some b => py_eqb a b && go d'
                              | None => false
                              end
                          end) d
      | _, _ => false
      end
  end.

(** A field annotated [str | None] that the code copies without checking. *)
Definition opt_str (field : string) (v : pyval) : result (option string) :=
  match v with
  | PNone => Ok None
  | PStr s => Ok (Some s)
  | _ => Err (IllTyped field)
  end.

Definition of_opt_str (o : option string) : pyval :=
  match o with Some s => PStr s | None => PNone end.

(** [Enum(value)]: the member with this value. *)
Definition enum_of {A} (cls : string) (value : A → string) (members : list A) (s : string)
    : result A :=
  match List.find (λ a, value a =ˢ s) members with
  | Some a => Ok a
  | None => Err (ValueError (repr_str s +:+ " is not a valid " +:+ cls))
  end.

(** The header every stored record carries. *)
Definition validate_record (version : Z) (expected_type : string) (d : pydict) : result unit :=
  _ ← raise_if (negb (py_eq_int (dget "schema_version" d) version))
        (ValueError ("schema_version must be " +:+ pretty version));
  raise_if (negb (py_eq_str (dget "record_type" d) expected_type))
    (ValueError ("record_type must be " +:+ repr_str expected_type)).

(** ** Records that are stored as JSON objects

    [post_init] is the dataclass's [__post_init__]: it raises, or returns the
    instance with its fields normalised.  A value is [valid] when it is what
    its own constructor builds. *)
Class Codec (A : Type) := {
  post_init : A → result A;
  to_record : A → pydict;
  from_record : pydict → result A
}.

Definition valid {A} `{Codec A} (a : A) : Prop := post_init a = Ok a.

Class CodecLaws (A : Type) `{Codec A} := {
  post_init_valid : ∀ a b, post_init a = Ok b → valid b;
  from_record_valid : ∀ d a, from_record d = Ok a → valid a;
  from_to_record : ∀ a, valid a → from_record (to_record a) = Ok a
}.

(** What was loaded is valid and survives being stored and loaded again. *)
Definition reloads {A} `{Codec A} : Prop :=
  ∀ d a, from_record d = Ok a → valid a ∧ from_record (to_record a) = Ok a.
Arguments reloads A {_}.

Lemma codec_reloads `{CodecLaws A} : reloads A.
Proof. intros d a Hd. apply from_record_valid in Hd. split; [done|]. by apply from_to_record. Qed.

(** ** Lemmas *)
Lemma opt_str_of f o : opt_str f (of_opt_str o) = Ok o.
Proof. by destruct o. Qed.

Lemma py_str_or_empty_str s : py_str_or_empty (PStr s) = Ok s.
Proof. unfold py_str_or_empty. cbn. case_bool_decide; by subst. Qed.

Lemma enum_of_value {A} cls (value : A → string) members a :
  a ∈ members → Inj (=) (=) value → enum_of cls value members (value a) = Ok a.
Proof.
  intros Ha Hinj. unfold enum_of. destruct (List.find _ members) as [b|] eqn:E.
  - apply List.find_some in E as [_ E%bool_decide_eq_true]. by rewrite (Hinj _ _ E).
  - apply list_elem_of_In in Ha. pose proof (List.find_none _ _ E _ Ha) as Hn.
    cbn in Hn. by rewrite bool_decide_eq_true_2 in Hn.
Qed.

Lemma py_or_str s v : s ≠ "" → py_or (PStr s) v = PStr s.
Proof. intros. unfold py_or. cbn. by rewrite bool_decide_eq_false_2. Qed.

Lemma py_str_or_str s : py_str (py_or (PStr s) (PStr "")) = Ok s.
Proof. unfold py_or. cbn. case_bool_decide; by subst. Qed.

Lemma dict_lookup_dset k k' v d :
  dict_lookup k (dset k' v d) = if decide (k = k') then Some v else dict_lookup k d.
Proof.
  induction d as [|[k0 v0] d IH]; cbn.
  - destruct (String.eqb_spec k k'); by case_decide.
  - destruct (String.eqb_spec k' k0) as [->|]; cbn.
    + destruct (String.eqb_spec k k0); by case_decide.
    + destruct (String.eqb_spec k k0); [case_decide; [congruence|done]|done].
Qed.

Lemma dict_lookup_dpop k k' d :
  dict_lookup k (dpop k' d) = if decide (k = k') then None else dict_lookup k d.
Proof.
  unfold dpop. induction d as [|[k0 v0] d IH]; cbn; [by case_decide|].
  destruct (String.eqb_spec k0 k') as [->|]; cbn; rewrite IH.
  - case_decide; [done|]. by destruct (String.eqb_spec k k').
  - destruct (String.eqb_spec k k0) as [->|]; [by case_decide|done].
Qed.

Lemma dict_lookup_dsetdefault_ne k k' v d :
  k ≠ k' → dict_lookup k (dsetdefault k' v d) = dict_lookup k d.
Proof.
  intros Hk. apply String.eqb_neq in Hk. unfold dsetdefault. destruct (dict_lookup k' d); [done|].
  induction d as [|[k2 v2] d IH]; cbn; [by rewrite Hk|]. by rewrite IH.
Qed.

Lemma dget_dset k v d : dget k (dset k v d) = v.
Proof. unfold dget. by rewrite dict_lookup_dset, decide_True. Qed.
Lemma dget_dset_ne k k' v d : k ≠ k' → dget k (dset k' v d) = dget k d.
Proof. intros. unfold dget. by rewrite dict_lookup_dset, decide_False. Qed.
Lemma dget_dsetdefault_ne k k' v d : k ≠ k' → dget k (dsetdefault k' v d) = dget k d.
Proof. intros. unfold dget. by rewrite dict_lookup_dsetdefault_ne. Qed.

(** Read a key of an updated dictionary: one goal at a time. *)
Ltac dget_simpl :=
  repeat first [ rewrite dget_dset | rewrite dget_dset_ne by done
               | rewrite dget_dsetdefault_ne by done ].

(** The header [to_record] writes passes. *)
Lemma validate_record_ok version ty d :
  dict_lookup "schema_version" d = Some (PInt version) →
  dict_lookup "record_type" d = Some (PStr ty) →
  validate_record version ty d = Ok tt.
Proof.
  intros H1 H2. unfold validate_record, dget. rewrite H1, H2. cbn.
  by rewrite Z.eqb_refl, bool_decide_eq_true_2.
Qed.

(** Look the constant keys of a concrete record up. *)
Ltac dict_simpl :=
  unfold dget, dget_or, str_at, dindex;
  cbn [dict_lookup String.eqb Ascii.eqb Bool.eqb default from_option id];
  rewrite ?opt_str_of, ?py_str_or_empty_str, ?py_str_or_str.

(** ** Values of other shapes *)

(** [Enum(value)] for a value of any type. *)
Definition enum_of_val {A} (cls : string) (value : A → string) (members : list A) (v : pyval)
    : result A :=
  match v with
  | PStr s => enum_of cls value members s
  | _ => (r ← py_repr v; Err (ValueError (r +:+ " is not a valid " +:+ cls)))
  end.

(** Fields annotated [int | None], [str] and [dict] that are copied unchecked. *)
Definition opt_int (field : string) (v : pyval) : result (option Z) :=
  match v with PNone => Ok None | PInt z => Ok (Some z) | _ => Err (IllTyped field) end.
Definition of_opt_int (o : option Z) : pyval :=
  match o with Some z => PInt z | None => PNone end.
Definition as_str (field : string) (v : pyval) : result string :=
  match v with PStr s => Ok s | _ => Err (IllTyped field) end.
Definition as_dict (field : string) (v : pyval) : result pydict :=
  match v with PDict d => Ok d | _ => Err (IllTyped field) end.

(** [d | None] handed to a loader. *)
Definition opt_record {A} (field : string) (loader : pydict → result A) (v : pyval)
    : result (option A) :=
  match v with
  | PNone => Ok None
  | PDict d => (a ← loader d; Ok (Some a))
  | _ => Err (IllTyped field)
  end.
Definition of_opt_record {A} (to : A → pydict) (o : option A) : pyval :=
  match o with Some a => PDict (to a) | None => PNone end.

Lemma opt_int_of f o : opt_int f (of_opt_int o) = Ok o.
Proof. by destruct o. Qed.

Lemma opt_record_of {A} f (loader : pydict → result A) (to : A → pydict) o :
  (∀ a, o = Some a → loader (to a) = Ok a) → opt_record f loader (of_opt_record to o) = Ok o.
Proof. destruct o as [a|]; [|done]. intros Ha. cbn. by rewrite (Ha a eq_refl). Qed.

(** Fields annotated [dict | None] that are copied unchecked. *)
Definition opt_dict (field : string) (v : pyval) : result (option pydict) :=
  match v with PNone => Ok None | PDict d => Ok (Some d) | _ => Err (IllTyped field) end.
Definition of_opt_dict (o : option pydict) : pyval :=
  match o with Some d => PDict d | None => PNone end.
(** [dict(v or {})]. *)
Definition dict_or_empty (field : string) (v : pyval) : result pydict :=
  if py_bool v then as_dict field v else Ok [].
(** [v if isinstance(v, dict) else None]. *)
Definition dict_if_dict (v : pyval) : option pydict :=
  match v with PDict d => Some d | _ => None end.
(** A list of strings, the elements of which are not checked. *)
Fixpoint str_elements (field : string) (l : list pyval) : result (list string) :=
  match l with
  | [] => Ok []
  | v :: l' => (s ← as_str field v; rest ← str_elements field l'; Ok (s :: rest))
  end.
Definition str_list (field : string) (v : pyval) : result (list string) :=
  match v with PList l => str_elements field l | _ => Err (IllTyped field) end.

Lemma opt_dict_of f o : opt_dict f (of_opt_dict o) = Ok o.
Proof. by destruct o. Qed.
Lemma dict_or_empty_of f d : dict_or_empty f (PDict d) = Ok d.
Proof. by destruct d. Qed.
Lemma str_list_of f l : str_list f (PList (PStr <$> l)) = Ok l.
Proof. cbn. induction l as [|s l IH]; [done|]. cbn. by rewrite IH. Qed.
