(* ===== verification/RuntimeValues.v ===== *)
(** * Values in the runtime state of a provider submission

    [provider_execution/common_runtime/serialization_runtime]: a submission
    carries Python values that are not JSON (paths, bytes, tuples and live
    objects); they are written as tagged JSON values and read back.  With the
    base64 codec of the standard library. *)
From stdpp Require Import pretty.
From Stdlib Require Import QArith.
From S2P Require Import Prelude PyValue.
Open Scope string_scope.
Open Scope list_scope.
Open Scope nat_scope.

(** ** base64 *)
Definition b64_alphabet : string := "ABCDEFGHIJKLMNOPQRSTUVWXYZabcdefghijklmnopqrstuvwxyz0123456789+/".
Definition b64_char (n : nat) : ascii := default "A"%char (String.get n b64_alphabet).
Definition b64_value (c : ascii) : option nat :=
  let n := code c in
  if (65 <=? n) && (n <=? 90) then Some (n - 65)
  else if (97 <=? n) && (n <=? 122) then Some (n - 71)
  else if (48 <=? n) && (n <=? 57) then Some (n + 4)
  else if n =? 43 then Some 62
  else if n =? 47 then Some 63
  else None.

Definition b64_text (l : list nat) (rest : string) : string :=
  foldr (λ n s, String (b64_char n) s) rest l.
(** [base64.b64encode(value).decode('ascii')]. *)
Fixpoint b64encode (bs : list ascii) : string :=
  match bs with
  | [] => ""
  | [a] => b64_text [code a / 4; code a mod 4 * 16] "=="
  | [a; b] =>
      b64_text [code a / 4; code a mod 4 * 16 + code b / 16; code b mod 16 * 4] "="
  | a :: b :: c :: rest =>
      b64_text [code a / 4; code a mod 4 * 16 + code b / 16; code b mod 16 * 4 + code c / 64;
                code c mod 64] (b64encode rest)
  end.

(** [binascii.a2b_base64], not strict: characters outside the alphabet are
    skipped, a complete padding ends the input.  The state is the position in
    the group of four, the bits left over and the padding seen. *)
Fixpoint a2b_base64 (quad leftover pads : nat) (s : string) : result (list ascii) :=
  let finish :=
    if quad =? 0 then Ok []
    else if quad =? 1
    then Err (ValueError "Invalid base64-encoded string: number of data characters cannot be 1 more than a multiple of 4")
    else Err (ValueError "Incorrect padding") in
  match s with
  | "" => finish
  | String c s' =>
      if code c =? 61 then
        if 2 <=? quad
        then if 4 <=? quad + S pads then Ok [] else a2b_base64 quad leftover (S pads) s'
        else a2b_base64 quad leftover pads s'
      else
        match b64_value c with
        | None => a2b_base64 quad leftover pads s'
        | Some v =>
            match quad with
            | 0 => a2b_base64 1 v 0 s'
            | 1 => bs ← a2b_base64 2 (v mod 16) 0 s'; Ok (ascii_of_nat (leftover * 4 + v / 16) :: bs)
            | 2 => bs ← a2b_base64 3 (v mod 4) 0 s'; Ok (ascii_of_nat (leftover * 16 + v / 4) :: bs)
            | _ => bs ← a2b_base64 0 0 0 s'; Ok (ascii_of_nat (leftover * 64 + v) :: bs)
            end
        end
  end.
(** [base64.b64decode(s.encode('ascii'))]. *)
Definition b64decode (s : string) : result (list ascii) :=
  if string_forallb (λ c, code c <? 128) s then a2b_base64 0 0 0 s
  else Err (ValueError "'ascii' codec can't encode character").

(** ** Values *)

(** An object of any other kind is the text [str] gives it. *)
#[warnings="-register-all"]
Inductive rtval : Type :=
  | RNone
  | RBool (b : bool)
  | RInt (z : Z)
  | RFloat (q : Q)
  | RStr (s : string)
  | RPath (path : string)
  | RBytes (bs : list ascii)
  | RTuple (l : list rtval)
  | RList (l : list rtval)
  | RDict (kvs : list (string * rtval))
  | RObject (text : string).
Definition rtdict : Type := list (string * rtval).

(** [str(Path(text).expanduser())], for which the home directories are read. *)
Class PathLib := expanded : string → result string.

Section serialization.
Context `{PathLib}.

(** [path.expanduser()] in [serialize] may raise. *)
Fixpoint serialize_runtime_state (v : rtval) : result pyval :=
  let values := fix values l := match l with
    | [] => Ok []
    | x :: l' => (y ← serialize_runtime_state x; ys ← values l'; Ok (y :: ys))
    end in
  match v with
  | RNone => Ok PNone
  | RBool b => Ok (PBool b)
  | RInt z => Ok (PInt z)
  | RFloat q => Ok (PFloat q)
  | RStr s => Ok (PStr s)
  | RPath p => text ← expanded p; Ok (PDict [("__ccb_type__", PStr "path"); ("value", PStr text)])
  | RBytes bs => Ok (PDict [("__ccb_type__", PStr "bytes"); ("value", PStr (b64encode bs))])
  | RTuple l => items ← values l; Ok (PDict [("__ccb_type__", PStr "tuple"); ("items", PList items)])
  | RList l => items ← values l; Ok (PList items)
  | RDict kvs =>
      items ← (fix entries kvs := match kvs with
        | [] => Ok []
        | (k, x) :: kvs' => (y ← serialize_runtime_state x; ys ← entries kvs'; Ok ((k, y) :: ys))
        end) kvs;
      Ok (PDict items)
  | RObject text => Ok (PStr text)
  end.

Fixpoint deserialize_runtime_state (v : pyval) : result rtval :=
  let values := fix values l := match l with
    | [] => Ok []
    | x :: l' => (y ← deserialize_runtime_state x; ys ← values l'; Ok (y :: ys))
    end in
  match v with
  | PNone => Ok RNone
  | PBool b => Ok (RBool b)
  | PInt z => Ok (RInt z)
  | PFloat q => Ok (RFloat q)
  | PStr s => Ok (RStr s)
  | PList l => items ← values l; Ok (RList items)
  | PDict kvs =>
      let marker := dget "__ccb_type__" kvs in
      if py_eq_str marker "path"
      then text ← py_str_or_empty (dget "value" kvs); path ← expanded text; Ok (RPath path)
      else if py_eq_str marker "bytes"
      then
        encoded ← py_str_or_empty (dget "value" kvs);
        bs ← (if encoded ≠ˢ "" then b64decode encoded else Ok []); Ok (RBytes bs)
      else if py_eq_str marker "tuple"
      then
        items ← (fix items kvs := match kvs with
          | [] => Ok []
          | (k, x) :: kvs' =>
              if String.eqb "items" k
              then match x with PList l => values l | _ => Err (IllTyped "items") end
              else items kvs'
          end) kvs;
        Ok (RTuple items)
      else
        items ← (fix entries kvs := match kvs with
          | [] => Ok []
          | (k, x) :: kvs' => (y ← deserialize_runtime_state x; ys ← entries kvs'; Ok ((k, y) :: ys))
          end) kvs;
        Ok (RDict items)
  end.
End serialization.

(** ** The round trip *)

(** What comes back as it was: no live objects, paths that [expanduser] leaves
    alone, and no dictionary that looks like a tagged value. *)
Fixpoint storable `{PathLib} (v : rtval) : bool :=
  match v with
  | RPath p => match expanded p with Ok text => text =ˢ p | Err _ => false end
  | RTuple l | RList l => forallb storable l
  | RDict kvs =>
      (fix all kvs := match kvs with
        | [] => true
        | (k, x) :: kvs' => negb (String.eqb k "__ccb_type__") && storable x && all kvs'
        end) kvs
  | RObject _ => false
  | _ => true
  end.

Lemma b64_value_char n : n < 64 → b64_value (b64_char n) = Some n ∧ code (b64_char n) < 128 ∧ code (b64_char n) ≠ 61.
Proof.
  assert (forallb (λ n, bool_decide (b64_value (b64_char n) = Some n) && (code (b64_char n) <? 128)
    && negb (code (b64_char n) =? 61)) (List.seq 0 64) = true) as Hall by (vm_compute; reflexivity).
  intros Hn. rewrite forallb_forall in Hall. specialize (Hall n). rewrite in_seq in Hall.
  specialize (Hall ltac:(lia)). rewrite !andb_true_iff, bool_decide_eq_true, negb_true_iff in Hall.
  destruct Hall as [[K1 K2%Nat.ltb_lt] K3%Nat.eqb_neq]. done.
Qed.

(** Reading one character of the alphabet. *)
Lemma a2b_char n quad leftover pads s : n < 64 →
  a2b_base64 quad leftover pads (String (b64_char n) s) =
    match quad with
    | 0 => a2b_base64 1 n 0 s
    | 1 => bs ← a2b_base64 2 (n mod 16) 0 s; Ok (ascii_of_nat (leftover * 4 + n / 16) :: bs)
    | 2 => bs ← a2b_base64 3 (n mod 4) 0 s; Ok (ascii_of_nat (leftover * 16 + n / 4) :: bs)
    | _ => bs ← a2b_base64 0 0 0 s; Ok (ascii_of_nat (leftover * 64 + n) :: bs)
    end.
Proof.
  intros (K1 & _ & K3%Nat.eqb_neq)%b64_value_char. cbn [a2b_base64]. by rewrite K3, K1.
Qed.

Lemma code_bound c : code c < 256.
Proof. apply nat_ascii_bounded. Qed.
Lemma ascii_code n c : n = code c → ascii_of_nat n = c.
Proof. intros ->. apply ascii_nat_embedding. Qed.

Lemma three_induction {A} (P : list A → Prop) :
  P [] → (∀ a, P [a]) → (∀ a b, P [a; b]) → (∀ a b c l, P l → P (a :: b :: c :: l)) → ∀ l, P l.
Proof.
  intros K1 K2 K3 K4 l. assert (∀ n l, length l < n → P l) as Hlen; [|apply (Hlen (S (length l))); lia].
  induction n as [|n IH]; intros [|a [|b [|c l']]] Hl; cbn in Hl; try lia; auto.
  apply K4, IH. lia.
Qed.

(** Arithmetic with divisions by constants. *)
Ltac div_fact x n :=
  lazymatch goal with
  | _ : x = n * (x / n) + x mod n |- _ => fail
  | _ => pose proof (Nat.div_mod_eq x n); pose proof (Nat.mod_upper_bound x n ltac:(discriminate))
  end.
Ltac div_lia :=
  repeat match goal with
    | |- context [?x / ?n] => div_fact x n
    | |- context [?x mod ?n] => div_fact x n
    | _ : context [?x / ?n] |- _ => div_fact x n
    | _ : context [?x mod ?n] |- _ => div_fact x n
    end; lia.

Lemma a2b_b64encode bs : a2b_base64 0 0 0 (b64encode bs) = Ok bs.
Proof.
  induction bs as [|a|a b|a b c l IH] using three_induction; [done|..];
    cbn [b64encode b64_text foldr];
    repeat match goal with x : ascii |- _ =>
      lazymatch goal with K : code x < 256 |- _ => fail | _ => pose proof (code_bound x) end end;
    rewrite !a2b_char by div_lia; cbn [a2b_base64]; change (code "="%char) with 61; cbn -[Nat.div Nat.modulo Nat.mul code]; rewrite ?IH; cbn -[Nat.div Nat.modulo Nat.mul code];
    repeat f_equal; apply ascii_code; div_lia.
Qed.

Lemma b64encode_ascii bs : string_forallb (λ c, code c <? 128) (b64encode bs) = true.
Proof.
  induction bs as [|a|a b|a b c l IH] using three_induction; [done|..];
    cbn [b64encode b64_text foldr string_forallb];
    repeat match goal with x : ascii |- _ =>
      lazymatch goal with K : code x < 256 |- _ => fail | _ => pose proof (code_bound x) end end;
    repeat (apply andb_true_intro; split);
    first [exact IH | reflexivity | apply Nat.ltb_lt, b64_value_char; div_lia].
Qed.

Lemma b64_roundtrip bs : b64decode (b64encode bs) = Ok bs.
Proof. unfold b64decode. by rewrite b64encode_ascii, a2b_b64encode. Qed.

Section roundtrip.
Context `{PathLib}.

Definition stored_value (v : rtval) : Prop :=
  ∃ j, serialize_runtime_state v = Ok j ∧ deserialize_runtime_state j = Ok v.

Definition serialize_values := fix values l : result (list pyval) := match l with
  | [] => Ok []
  | x :: l' => (y ← serialize_runtime_state x; ys ← values l'; Ok (y :: ys))
  end.
Definition deserialize_values := fix values l : result (list rtval) := match l with
  | [] => Ok []
  | x :: l' => (y ← deserialize_runtime_state x; ys ← values l'; Ok (y :: ys))
  end.
Definition serialize_entries := fix entries kvs : result pydict := match kvs with
  | [] => Ok []
  | (k, x) :: kvs' => (y ← serialize_runtime_state x; ys ← entries kvs'; Ok ((k, y) :: ys))
  end.
Definition deserialize_entries := fix entries kvs : result rtdict := match kvs with
  | [] => Ok []
  | (k, x) :: kvs' => (y ← deserialize_runtime_state x; ys ← entries kvs'; Ok ((k, y) :: ys))
  end.
Definition storable_entries := fix all (kvs : rtdict) : bool := match kvs with
  | [] => true
  | (k, x) :: kvs' => negb (String.eqb k "__ccb_type__") && storable x && all kvs'
  end.

Lemma stored_values l : Forall stored_value l →
  ∃ js, serialize_values l = Ok js ∧ deserialize_values js = Ok l.
Proof.
  induction 1 as [|x l (j & Hj & Hx) _ (js & Hjs & Hl)]; [by exists []|].
  exists (j :: js). cbn. rewrite Hj, Hx. cbn.
  fold serialize_values deserialize_values. by rewrite Hjs, Hl.
Qed.

Lemma stored_entries kvs : Forall (λ kv, kv.1 ≠ "__ccb_type__" ∧ stored_value kv.2) kvs →
  ∃ js, serialize_entries kvs = Ok js ∧ deserialize_entries js = Ok kvs ∧ dict_lookup "__ccb_type__" js = None.
Proof.
  induction 1 as [|[k x] l [Hk (j & Hj & Hx)] _ (js & Hjs & Hl & Hm)]; [by exists []|].
  exists ((k, j) :: js). cbn [snd fst] in *. apply String.eqb_neq in Hk. split_and!.
  - cbn. rewrite Hj. cbn. fold serialize_entries. by rewrite Hjs.
  - cbn. rewrite Hx. cbn. fold deserialize_entries. by rewrite Hl.
  - cbn [dict_lookup]. rewrite String.eqb_sym. by rewrite Hk.
Qed.

Lemma serialize_dict kvs :
  serialize_runtime_state (RDict kvs) = (items ← serialize_entries kvs; Ok (PDict items)).
Proof. reflexivity. Qed.
Lemma deserialize_dict kvs : dict_lookup "__ccb_type__" kvs = None →
  deserialize_runtime_state (PDict kvs) = (items ← deserialize_entries kvs; Ok (RDict items)).
Proof.
  intros K1. cbn [deserialize_runtime_state]. unfold dget. rewrite K1. reflexivity.
Qed.
(** The tagged values. *)
Lemma deserialize_path v :
  deserialize_runtime_state (PDict [("__ccb_type__", PStr "path"); ("value", v)]) =
    (text ← py_str_or_empty v; path ← expanded text; Ok (RPath path)).
Proof. reflexivity. Qed.
Lemma deserialize_bytes v :
  deserialize_runtime_state (PDict [("__ccb_type__", PStr "bytes"); ("value", v)]) =
    (encoded ← py_str_or_empty v;
     bs ← (if encoded ≠ˢ "" then b64decode encoded else Ok []); Ok (RBytes bs)).
Proof. reflexivity. Qed.
Lemma deserialize_tuple l :
  deserialize_runtime_state (PDict [("__ccb_type__", PStr "tuple"); ("items", PList l)]) =
    (items ← deserialize_values l; Ok (RTuple items)).
Proof. reflexivity. Qed.

Lemma serialize_roundtrip : ∀ v, storable v = true → stored_value v.
Proof.
  fix IH 1. assert (∀ l, forallb storable l = true → Forall stored_value l) as IHl.
  { fix IHl 1. intros [|x l] Hl; constructor; cbn in Hl; apply andb_true_iff in Hl as [Hx Hl];
      [by apply IH|by apply IHl]. }
  assert (∀ l, storable_entries l = true → Forall (λ kv, kv.1 ≠ "__ccb_type__" ∧ stored_value kv.2) l) as IHd.
  { fix IHd 1. intros [|[k x] l] Hl; constructor; cbn in Hl; apply andb_true_iff in Hl as [Hx Hl].
    - apply andb_true_iff in Hx as [Hk Hx]. apply negb_true_iff, String.eqb_neq in Hk.
      split; [exact Hk|by apply IH].
    - by apply IHd. }
  intros [| | | | |p|bs|l|l|kvs|] Hv; cbn in Hv; try (eexists; split; [reflexivity|reflexivity]).
  - destruct (expanded p) as [text|] eqn:Hp; [|done]. apply bool_decide_eq_true in Hv as ->.
    eexists. split; [cbn; by rewrite Hp|]. rewrite deserialize_path, py_str_or_empty_str.
    cbn [mbind result_bind]. by rewrite Hp.
  - eexists. split; [reflexivity|]. rewrite deserialize_bytes, py_str_or_empty_str. cbn [mbind result_bind].
    case_bool_decide as K1; cbn [negb]; [|by rewrite b64_roundtrip].
    pose proof (b64_roundtrip bs) as Hb. rewrite K1 in Hb. by injection Hb as <-.
  - destruct (stored_values l (IHl l Hv)) as (js & K1 & K2).
    eexists. split; [cbn; fold serialize_values; by rewrite K1|]. by rewrite deserialize_tuple, K2.
  - destruct (stored_values l (IHl l Hv)) as (js & K1 & K2).
    eexists. split; [cbn; fold serialize_values; by rewrite K1|]. cbn. fold deserialize_values. by rewrite K2.
  - fold storable_entries in Hv. destruct (stored_entries kvs (IHd kvs Hv)) as (js & K1 & K2 & K3).
    exists (PDict js). rewrite serialize_dict, deserialize_dict, K1, K2 by done. done.
  - done.
Qed.
End roundtrip.
