(* ===== verification/Names.v ===== *)
(** * Agent names and mailbox owners

    [agents/models_runtime/names.py] and [mailbox_runtime/targets.py]. *)
From S2P Require Import Prelude.
Open Scope string_scope.
Open Scope list_scope.
Open Scope nat_scope.

Definition is_alpha (c : ascii) : bool :=
  let n := code c in (65 <=? n) && (n <=? 90) || (97 <=? n) && (n <=? 122).

Definition is_name_char (c : ascii) : bool :=
  let n := code c in
  is_alpha c || (48 <=? n) && (n <=? 57) || (n =? 95) || (n =? 45).

(** [AGENT_NAME_PATTERN.fullmatch]: a letter, then at most 31 name characters. *)
Definition agent_name_pattern (s : string) : bool :=
  match s with
  | "" => false
  | String c s' => is_alpha c && string_forallb is_name_char s' && (String.length s' <=? 31)
  end.

Definition reserved_agent_names : list string :=
  ["all"; "from"; "user"; "system"; "ask"; "cancel"; "clear"; "pend"; "ping"; "watch";
   "kill"; "ps"; "logs"; "doctor"; "config"; "cmd"; "version"; "update"; "help"].

Definition normalize_agent_name (name : string) : result string :=
  let value := strip name in
  _ ← raise_if (value =ˢ "") (AgentValidationError "agent name cannot be empty");
  _ ← raise_if (negb (agent_name_pattern value))
        (AgentValidationError "agent name must match ^[a-zA-Z][a-zA-Z0-9_-]{0,31}$");
  let normalized := lower value in
  _ ← raise_if (bool_decide (normalized ∈ reserved_agent_names))
        (AgentValidationError ("agent name " +:+ repr_str normalized +:+ " is reserved"));
  mret normalized.

Definition cmd_actor : string := "cmd".
Definition non_mailbox_actors : list string := ["user"; "system"; "manual"; "email"].
Definition non_agent_actors : list string := cmd_actor :: non_mailbox_actors.

Definition normalize_actor_name (actor : option string) : result string :=
  let normalized := lower (strip (default "" actor)) in
  _ ← raise_if (normalized =ˢ "") (AgentValidationError "actor cannot be empty");
  if (normalized =ˢ cmd_actor) || bool_decide (normalized ∈ non_mailbox_actors)
  then mret normalized
  else normalize_agent_name normalized.

Definition normalize_mailbox_owner_name (actor : option string) : result string :=
  normalized ← normalize_actor_name actor;
  _ ← raise_if (bool_decide (normalized ∈ non_agent_actors))
        (AgentValidationError
           ("actor " +:+ repr_str normalized +:+ " does not own a mailbox"));
  mret normalized.

(** [normalize_mailbox_target]: an [AgentValidationError] becomes [None]; it is
    the only class [normalize_mailbox_owner_name] raises. *)
Definition normalize_mailbox_target (actor : option string) (known_targets : gset string)
    : option string :=
  let normalized := lower (strip (default "" actor)) in
  if normalized =ˢ "" then None
  else match normalize_mailbox_owner_name (Some normalized) with
       | Err _ => None
       | Ok mailbox_name =>
           if bool_decide (mailbox_name ∈ known_targets) then Some mailbox_name else None
       end.

(** [known_mailbox_targets]: the normalised names of the configured agents. *)
Fixpoint known_mailbox_targets (agents : list string) : result (gset string) :=
  match agents with
  | [] => mret ∅
  | name :: rest =>
      n ← normalize_agent_name name;
      s ← known_mailbox_targets rest;
      mret ({[ n ]} ∪ s)
  end.

Arguments normalize_agent_name : simpl never.
Arguments normalize_actor_name : simpl never.
Arguments normalize_mailbox_owner_name : simpl never.

(** ** The shape of a normalised name *)
Lemma is_alpha_lower c : is_alpha (lower_char c) = is_alpha c.
Proof. by_char c. Qed.
Lemma is_name_char_lower c : is_name_char c = true → is_name_char (lower_char c) = true.
Proof. by_char c. Qed.
Lemma is_name_char_not_space c : is_name_char c = true → negb (is_space c) = true.
Proof. by_char c. Qed.
Lemma is_alpha_name_char c : is_alpha c = true → is_name_char c = true.
Proof. by_char c. Qed.

Lemma agent_name_pattern_chars s :
  agent_name_pattern s = true → s ≠ "" ∧ string_forallb is_name_char s = true.
Proof.
  destruct s as [|c s]; cbn; [done|]. intros [[??]%andb_prop ?]%andb_prop.
  split; [done|]. apply andb_true_intro. auto using is_alpha_name_char.
Qed.

Lemma agent_name_pattern_lower s :
  agent_name_pattern s = true → agent_name_pattern (lower s) = true.
Proof.
  unfold lower. destruct s as [|c s]; cbn; [done|]. intros [[Hc Hs]%andb_prop Hl]%andb_prop.
  rewrite is_alpha_lower, Hc, string_forallb_map.
  change (string_map lower_char s) with (lower s). rewrite length_lower, Hl, andb_true_r.
  by apply (string_forallb_impl is_name_char); [exact is_name_char_lower|].
Qed.

Lemma agent_name_pattern_strip s : agent_name_pattern s = true → strip s = s.
Proof.
  intros [_ H]%agent_name_pattern_chars. apply strip_no_space.
  by apply (string_forallb_impl is_name_char); [exact is_name_char_not_space|].
Qed.

(** The value of [normalize_agent_name], read off its guards. *)
Lemma normalize_agent_name_inv name n :
  normalize_agent_name name = Ok n →
  n = lower (strip name) ∧ n ≠ "" ∧ agent_name_pattern n = true ∧ n ∉ reserved_agent_names.
Proof.
  intros H. unfold normalize_agent_name in H. inv_result. subst n.
  apply bool_decide_eq_false in H0, H2. apply negb_false_iff in H1.
  rewrite lower_nonempty. auto using agent_name_pattern_lower.
Qed.

Lemma normalize_agent_name_intro n :
  agent_name_pattern n = true → lower n = n → n ∉ reserved_agent_names →
  normalize_agent_name n = Ok n.
Proof.
  intros Hp Hl Hr. unfold normalize_agent_name. rewrite (agent_name_pattern_strip _ Hp).
  destruct (agent_name_pattern_chars _ Hp) as [Hne _].
  rewrite Hp, Hl, !bool_decide_eq_false_2 by done. done.
Qed.

Lemma normalize_agent_name_idem' name n :
  normalize_agent_name name = Ok n → normalize_agent_name n = Ok n.
Proof.
  intros (-> & _ & Hp & Hr)%normalize_agent_name_inv.
  apply normalize_agent_name_intro; auto using lower_idem.
Qed.

Lemma normalize_agent_name_fixed n : normalize_agent_name n = Ok n → lower (strip n) = n.
Proof. by intros (<- & _)%normalize_agent_name_inv. Qed.

(** Normalising the trimmed, lowered name gives the same result. *)
Lemma normalize_agent_name_lower_strip s n :
  normalize_agent_name (lower (strip s)) = Ok n → n = lower (strip s).
Proof.
  intros (-> & _)%normalize_agent_name_inv. by rewrite <- lower_strip, lower_idem, strip_idem.
Qed.

Lemma owner_inv actor n :
  normalize_mailbox_owner_name actor = Ok n →
  n = lower (strip (default "" actor)) ∧ normalize_agent_name n = Ok n ∧ n ∉ non_agent_actors.
Proof.
  unfold normalize_mailbox_owner_name, normalize_actor_name. intros H. inv_result. subst.
  apply bool_decide_eq_false in H1.
  destruct (_ || _) eqn:E in H0; inv_result.
  - exfalso. apply H1. subst n. unfold non_agent_actors.
    apply orb_prop in E as [E%bool_decide_eq_true|E%bool_decide_eq_true].
    + rewrite E. by left.
    + by right.
  - pose proof (normalize_agent_name_lower_strip _ _ H0) as Hn. rewrite <- Hn in H0. auto.
Qed.

Lemma owner_intro n :
  normalize_agent_name n = Ok n → n ∉ non_agent_actors →
  normalize_mailbox_owner_name (Some n) = Ok n.
Proof.
  intros Hn Hna. unfold normalize_mailbox_owner_name, normalize_actor_name. cbn [default from_option id].
  rewrite (normalize_agent_name_fixed _ Hn).
  pose proof (normalize_agent_name_inv _ _ Hn) as (_ & Hne & _).
  rewrite (bool_decide_eq_false_2 (n = "")) by done. cbn.
  unfold non_agent_actors in *. apply not_elem_of_cons in Hna as [Hc Hm].
  rewrite (bool_decide_eq_false_2 (n = cmd_actor)), (bool_decide_eq_false_2 (n ∈ _)) by done.
  cbn. rewrite Hn. cbn. rewrite bool_decide_eq_false_2; [done|]. by apply not_elem_of_cons.
Qed.

Lemma owner_idem actor n :
  normalize_mailbox_owner_name actor = Ok n → normalize_mailbox_owner_name (Some n) = Ok n.
Proof. intros (_ & ? & ?)%owner_inv. by apply owner_intro. Qed.

Lemma lower_strip_idem s : lower (strip (lower (strip s))) = lower (strip s).
Proof. rewrite (lower_strip s) at 1. by rewrite strip_idem, lower_strip, lower_idem, lower_strip. Qed.

Lemma actor_idem actor n :
  normalize_actor_name actor = Ok n → normalize_actor_name (Some n) = Ok n.
Proof.
  intros H. assert (n = lower (strip (default "" actor))) as Hn.
  { unfold normalize_actor_name in H. inv_result.
    destruct (_ || _) in H; [by inv_result|by apply normalize_agent_name_lower_strip]. }
  unfold normalize_actor_name in *. rewrite <- Hn in H. cbn [default from_option id].
  by rewrite Hn, lower_strip_idem, <- Hn.
Qed.

Lemma actor_nonempty actor n : normalize_actor_name actor = Ok n → n ≠ "".
Proof.
  intros H ->. apply actor_idem in H. unfold normalize_actor_name in H. by cbn in H.
Qed.

Lemma owner_nonempty actor n : normalize_mailbox_owner_name actor = Ok n → n ≠ "".
Proof. intros (_ & H & _)%owner_inv. by apply normalize_agent_name_inv in H as (_ & ? & _). Qed.

#[export] Hint Resolve owner_idem owner_nonempty : ccb.

(** ** The properties *)

(** what [normalize_agent_name] accepts, it returns in normal form:
    lower case, matching the name pattern, not reserved, and a fixed point of
    the normalisation. *)
Theorem normalize_agent_name_normal_form name n :
  normalize_agent_name name = Ok n →
  normalize_agent_name n = Ok n ∧ agent_name_pattern n = true ∧
  (n ∉ reserved_agent_names) ∧ lower n = n.
Proof.
  intros Hn. pose proof (normalize_agent_name_idem' _ _ Hn) as Hi.
  destruct (normalize_agent_name_inv _ _ Hi) as (E & _ & Hp & Hr).
  split_and!; [done|done|done|]. rewrite E at 1. rewrite lower_idem. by rewrite <- E.
Qed.

(** the mailbox owners are exactly the normal agent names that are not
    special actors; the two normalisations agree on them. *)
Theorem mailbox_owner_iff n :
  normalize_mailbox_owner_name (Some n) = Ok n ↔
  normalize_agent_name n = Ok n ∧ n ∉ non_agent_actors.
Proof.
  split; [|by intros [? ?]; apply owner_intro]. intros H. by apply owner_inv in H as (_ & ? & ?).
Qed.

(** a delivery target is a known mailbox, and its name is an owner name
    in normal form, whatever the caller wrote. *)
Theorem mailbox_target_known actor known n :
  normalize_mailbox_target actor known = Some n →
  n ∈ known ∧ normalize_mailbox_owner_name (Some n) = Ok n.
Proof.
  unfold normalize_mailbox_target. intros H.
  destruct (_ =ˢ ""); [done|]. destruct (normalize_mailbox_owner_name _) as [m|] eqn:Hm; [|done].
  case_bool_decide; [|done]. injection H as <-. split; [done|]. by apply owner_idem in Hm.
Qed.

(** the reserved names do not cover the special actors: [manual] and
    [email] are accepted as agent names, yet such an agent can never own a
    mailbox nor be a delivery target. *)
Theorem special_actor_agents_have_no_mailbox :
  Forall (λ n, normalize_agent_name n = Ok n ∧
               is_ok (normalize_mailbox_owner_name (Some n)) = false ∧
               normalize_mailbox_target (Some n) {[ n ]} = None) ["manual"; "email"].
Proof. by repeat constructor. Qed.

Lemma normalize_agent_name_normal_form_witness :
  normalize_agent_name " Agent-1 " = Ok "agent-1" ∧ agent_name_pattern "agent-1" = true.
Proof.
  split; [reflexivity|].
  exact (proj1 (proj2 (normalize_agent_name_normal_form " Agent-1 " "agent-1" eq_refl))).
Defined.

Lemma mailbox_target_known_witness :
  normalize_mailbox_owner_name (Some "codex") = Ok "codex".
Proof. exact (proj2 (mailbox_target_known (Some "CODEX ") {[ "codex" ]} "codex" eq_refl)). Defined.
