(* ===== verification/AgentModels.v ===== *)
(** * Agent specifications

    [agents/models_runtime/enums.py], [config_runtime/spec.py], [api.py],
    [provider_profiles/models.py], [provider_model_shortcuts.py] and the
    specification store of [agents/store.py]: what the configuration says of one
    agent, and its record. *)
From S2P Require Import Prelude PyValue Names.
Open Scope string_scope.
Open Scope list_scope.
Open Scope Z_scope.

(** ** Enumerations *)
Inductive WorkspaceMode := WM_git_worktree | WM_copy | WM_inplace.
Inductive RuntimeMode := RM_pane_backed | RM_pty_backed | RM_headless.
Inductive RuntimeBindingSource := RB_provider_session | RB_external_attach.
Inductive RestoreMode := RS_fresh | RS_provider | RS_auto.
Inductive PermissionMode := PM_manual | PM_auto | PM_readonly.
Inductive QueuePolicy := QP_serial_per_agent | QP_reject_when_busy.
Inductive AgentState :=
  | AG_starting | AG_idle | AG_busy | AG_stopping | AG_stopped | AG_degraded | AG_failed.
#[export] Instance WorkspaceMode_eq_dec : EqDecision WorkspaceMode.
Proof. solve_decision. Defined.
#[export] Instance RuntimeMode_eq_dec : EqDecision RuntimeMode.
Proof. solve_decision. Defined.
#[export] Instance RuntimeBindingSource_eq_dec : EqDecision RuntimeBindingSource.
Proof. solve_decision. Defined.
#[export] Instance RestoreMode_eq_dec : EqDecision RestoreMode.
Proof. solve_decision. Defined.
#[export] Instance PermissionMode_eq_dec : EqDecision PermissionMode.
Proof. solve_decision. Defined.
#[export] Instance QueuePolicy_eq_dec : EqDecision QueuePolicy.
Proof. solve_decision. Defined.
#[export] Instance AgentState_eq_dec : EqDecision AgentState.
Proof. solve_decision. Defined.

Definition workspace_mode_value (m : WorkspaceMode) : string :=
  match m with WM_git_worktree => "git-worktree" | WM_copy => "copy" | WM_inplace => "inplace" end.
Definition runtime_mode_value (m : RuntimeMode) : string :=
  match m with
  | RM_pane_backed => "pane-backed" | RM_pty_backed => "pty-backed" | RM_headless => "headless"
  end.
Definition binding_source_value (b : RuntimeBindingSource) : string :=
  match b with RB_provider_session => "provider-session" | RB_external_attach => "external-attach" end.
Definition restore_mode_value (m : RestoreMode) : string :=
  match m with RS_fresh => "fresh" | RS_provider => "provider" | RS_auto => "auto" end.
Definition permission_mode_value (m : PermissionMode) : string :=
  match m with PM_manual => "manual" | PM_auto => "auto" | PM_readonly => "readonly" end.
Definition queue_policy_value (p : QueuePolicy) : string :=
  match p with QP_serial_per_agent => "serial-per-agent" | QP_reject_when_busy => "reject-when-busy" end.
Definition agent_state_value (s : AgentState) : string :=
  match s with
  | AG_starting => "starting" | AG_idle => "idle" | AG_busy => "busy" | AG_stopping => "stopping"
  | AG_stopped => "stopped" | AG_degraded => "degraded" | AG_failed => "failed"
  end.
Definition workspace_modes : list WorkspaceMode := [WM_git_worktree; WM_copy; WM_inplace].
Definition runtime_modes : list RuntimeMode := [RM_pane_backed; RM_pty_backed; RM_headless].
Definition restore_modes : list RestoreMode := [RS_fresh; RS_provider; RS_auto].
Definition permission_modes : list PermissionMode := [PM_manual; PM_auto; PM_readonly].
Definition queue_policies : list QueuePolicy := [QP_serial_per_agent; QP_reject_when_busy].
Definition agent_states : list AgentState :=
  [AG_starting; AG_idle; AG_busy; AG_stopping; AG_stopped; AG_degraded; AG_failed].

Definition normalize_runtime_mode (value : string) : result RuntimeMode :=
  let raw := lower (strip value) in
  if bool_decide (raw ∈ ["pane"; "pane-backed"]) then mret RM_pane_backed
  else if bool_decide (raw ∈ ["pty"; "pty-backed"]) then mret RM_pty_backed
  else if raw =ˢ "headless" then mret RM_headless
  else Err (AgentValidationError "runtime_mode must be one of: pane-backed, pty-backed, headless").
Definition normalize_runtime_binding_source (value : string) : result RuntimeBindingSource :=
  let raw := lower (strip value) in
  if bool_decide (raw ∈ ["provider"; "provider-session"]) then mret RB_provider_session
  else if bool_decide (raw ∈ ["external"; "external-attach"]) then mret RB_external_attach
  else Err (AgentValidationError
         "runtime binding source must be one of: provider-session, external-attach").

(** ** Model shortcuts *)
Definition PROVIDER_MODEL_FLAGS : list (string * list string) :=
  [("codex", ["-m"; "--model"]); ("claude", ["--model"]); ("gemini", ["-m"; "--model"]);
   ("opencode", ["-m"; "--model"])].
Definition PROVIDER_MODEL_STARTUP_FLAGS : list (string * string) :=
  [("codex", "-m"); ("claude", "--model"); ("gemini", "-m"); ("opencode", "-m")].
Definition supported_provider_model_shortcuts : list string := ["claude"; "codex"; "gemini"; "opencode"].
Definition provider_model_flag_tokens (provider : string) : list string :=
  default [] (od_lookup (lower (strip provider)) PROVIDER_MODEL_FLAGS).
Definition provider_model_startup_args (provider model : string) : result (list string) :=
  match od_lookup (lower (strip provider)) PROVIDER_MODEL_STARTUP_FLAGS with
  | None => Err (ValueError ("model shortcut is supported only for providers: "
                  +:+ join ", " supported_provider_model_shortcuts))
  | Some flag =>
      _ ← raise_if (strip model =ˢ "") (ValueError "model cannot be empty");
      mret [flag; strip model]
  end.
Definition startup_args_contain_model_flag (provider : string) (startup_args : list string) : bool :=
  match provider_model_flag_tokens provider with
  | [] => false
  | flags => existsb (λ arg, bool_decide (arg ∈ flags) || String.prefix "--model=" arg) startup_args
  end.
Definition strip_provider_model_startup_args (provider : string) (startup_args : list string) (model : string)
    : result (list string) :=
  compiled ← provider_model_startup_args provider model;
  mret (if bool_decide (take (length compiled) startup_args = compiled)
        then drop (length compiled) startup_args else startup_args).

(** ** Parts of a specification *)
Abbreviation strdict := (list (string * string)).
Record AgentApiSpec := mkApi { api_key : option string; api_url : option string }.
#[export] Instance AgentApiSpec_eq_dec : EqDecision AgentApiSpec.
Proof. solve_decision. Defined.
Definition no_api : AgentApiSpec := mkApi None None.
Definition api_post_init (a : AgentApiSpec) : AgentApiSpec :=
  mkApi (api_key a ≫= λ s, or_none (strip s)) (api_url a ≫= λ s, or_none (strip s)).
Definition api_to_record (a : AgentApiSpec) : pydict :=
  (match api_key a with Some k => [("key", PStr k)] | None => [] end) ++
  (match api_url a with Some u => [("url", PStr u)] | None => [] end).

Definition VALID_PROFILE_MODES : list string := ["inherit"; "isolated"; "overlay"].
Record ProviderProfileSpec := mkProfile {
  pf_mode : string;
  pf_home : option string;
  pf_env : strdict;
  pf_inherit_api : bool;
  pf_inherit_auth : bool;
  pf_inherit_config : bool;
  pf_inherit_skills : bool;
  pf_inherit_commands : bool;
  pf_inherit_memory : bool
}.
#[export] Instance ProviderProfileSpec_eq_dec : EqDecision ProviderProfileSpec.
Proof. solve_decision. Defined.
Definition default_provider_profile : ProviderProfileSpec :=
  mkProfile "inherit" None [] true true true true true true.
Definition provider_profile_post_init (p : ProviderProfileSpec) : result ProviderProfileSpec :=
  let mode := str_or (Some (lower (strip (str_or (Some (pf_mode p)) "inherit")))) "inherit" in
  _ ← raise_if (negb (bool_decide (mode ∈ VALID_PROFILE_MODES)))
        (ValueError ("provider_profile.mode must be one of: " +:+ join ", " VALID_PROFILE_MODES));
  mret (mkProfile mode (pf_home p ≫= λ s, or_none (strip s)) (pf_env p) (pf_inherit_api p) (pf_inherit_auth p)
          (pf_inherit_config p) (pf_inherit_skills p) (pf_inherit_commands p) (pf_inherit_memory p)).
Definition strdict_record (d : strdict) : pydict := (λ kv, (kv.1, PStr kv.2)) <$> d.
Definition provider_profile_to_record (p : ProviderProfileSpec) : pydict :=
  [ ("mode", PStr (pf_mode p));
    ("home", of_opt_str (pf_home p));
    ("env", PDict (strdict_record (pf_env p)));
    ("inherit_api", PBool (pf_inherit_api p));
    ("inherit_auth", PBool (pf_inherit_auth p));
    ("inherit_config", PBool (pf_inherit_config p));
    ("inherit_skills", PBool (pf_inherit_skills p));
    ("inherit_commands", PBool (pf_inherit_commands p));
    ("inherit_memory", PBool (pf_inherit_memory p)) ].

(** ** [AgentSpec] *)
Record AgentSpec := mkSpec {
  as_name : string;
  as_provider : string;
  as_target : string;
  as_workspace_mode : WorkspaceMode;
  as_workspace_root : option string;
  as_runtime_mode : RuntimeMode;
  as_restore_default : RestoreMode;
  as_permission_default : PermissionMode;
  as_queue_policy : QueuePolicy;
  as_model : option string;
  as_startup_args : list string;
  as_env : strdict;
  as_api : AgentApiSpec;
  as_provider_profile : ProviderProfileSpec;
  as_branch_template : option string;
  as_labels : list string;
  as_description : option string;
  as_watch_paths : list string
}.
#[export] Instance AgentSpec_eq_dec : EqDecision AgentSpec.
Proof. solve_decision. Defined.

Definition normalize_model (model : option string) : result (option string) :=
  match model with
  | None => mret None
  | Some m => _ ← raise_if (strip m =ˢ "") (AgentValidationError "model cannot be empty"); mret (Some (strip m))
  end.
Definition model_flag_conflict (provider : string) : exn :=
  AgentValidationError ("model cannot be combined with startup_args model flags for provider " +:+ provider).
Definition normalize_startup_args (provider : string) (model : option string) (startup_args : list string)
    : result (list string) :=
  match model with
  | None => mret startup_args
  | Some m =>
      match provider_model_startup_args provider m with
      | Err (ValueError msg) => Err (AgentValidationError msg)
      | Err e => Err e
      | Ok compiled =>
          if bool_decide (take (length compiled) startup_args = compiled)
          then _ ← raise_if (startup_args_contain_model_flag provider (drop (length compiled) startup_args))
                     (model_flag_conflict provider);
               mret startup_args
          else _ ← raise_if (startup_args_contain_model_flag provider startup_args)
                     (model_flag_conflict provider);
               mret (compiled ++ startup_args)
      end
  end.
Definition spec_post_init (s : AgentSpec) : result AgentSpec :=
  name ← normalize_agent_name (as_name s);
  let provider := lower (strip (as_provider s)) in
  _ ← raise_if (provider =ˢ "") (AgentValidationError "provider cannot be empty");
  let target := strip (as_target s) in
  _ ← raise_if (target =ˢ "") (AgentValidationError "target cannot be empty");
  model ← normalize_model (as_model s);
  startup_args ← normalize_startup_args provider model (as_startup_args s);
  mret (mkSpec name provider target (as_workspace_mode s) (as_workspace_root s) (as_runtime_mode s)
          (as_restore_default s) (as_permission_default s) (as_queue_policy s) model startup_args (as_env s)
          (as_api s) (as_provider_profile s) (as_branch_template s) (as_labels s) (as_description s)
          (as_watch_paths s)).

(** *** Records *)
Definition agent_schema_version : Z := 2.
Definition spec_to_record (s : AgentSpec) : pydict :=
  [ ("schema_version", PInt agent_schema_version);
    ("record_type", PStr "agent_spec");
    ("name", PStr (as_name s));
    ("provider", PStr (as_provider s));
    ("target", PStr (as_target s));
    ("workspace_mode", PStr (workspace_mode_value (as_workspace_mode s)));
    ("workspace_root", of_opt_str (as_workspace_root s));
    ("runtime_mode", PStr (runtime_mode_value (as_runtime_mode s)));
    ("restore_default", PStr (restore_mode_value (as_restore_default s)));
    ("permission_default", PStr (permission_mode_value (as_permission_default s)));
    ("queue_policy", PStr (queue_policy_value (as_queue_policy s)));
    ("model", of_opt_str (as_model s));
    ("startup_args", PList (PStr <$> as_startup_args s));
    ("env", PDict (strdict_record (as_env s)));
    ("api", PDict (api_to_record (as_api s)));
    ("provider_profile", PDict (provider_profile_to_record (as_provider_profile s)));
    ("branch_template", of_opt_str (as_branch_template s));
    ("labels", PList (PStr <$> as_labels s));
    ("description", of_opt_str (as_description s));
    ("watch_paths", PList (PStr <$> as_watch_paths s)) ].

(** [dict(v)] of strings. *)
Fixpoint str_entries (field : string) (d : pydict) : result strdict :=
  match d with
  | [] => mret []
  | (k, v) :: d' => s ← as_str field v; rest ← str_entries field d'; mret ((k, s) :: rest)
  end.
Definition strdict_of (field : string) (v : pyval) : result strdict := as_dict field v ≫= str_entries field.
(** [C] called with the entries of a dict as keyword arguments: an unknown name
    raises. *)
Definition keywords (cls : string) (names : list string) (d : pydict) : result unit :=
  match List.find (λ kv, negb (bool_decide (kv.1 ∈ names))) d with
  | Some (k, _) => Err (TypeError (cls +:+ ".__init__() got an unexpected keyword argument " +:+ repr_str k))
  | None => mret tt
  end.
Definition as_bool (field : string) (v : pyval) : result bool :=
  match v with PBool b => mret b | _ => Err (IllTyped field) end.
Definition api_from_record (d : pydict) : result AgentApiSpec :=
  _ ← keywords "AgentApiSpec" ["key"; "url"] d;
  key ← opt_str "key" (dget "key" d);
  url ← opt_str "url" (dget "url" d);
  mret (api_post_init (mkApi key url)).
Definition provider_profile_from_record (d : pydict) : result ProviderProfileSpec :=
  _ ← keywords "ProviderProfileSpec"
        ["mode"; "home"; "env"; "inherit_api"; "inherit_auth"; "inherit_config"; "inherit_skills";
         "inherit_commands"; "inherit_memory"] d;
  mode ← as_str "mode" (dget_or "mode" (PStr "inherit") d);
  home ← opt_str "home" (dget "home" d);
  env ← strdict_of "env" (dget_or "env" (PDict []) d);
  inherit_api ← as_bool "inherit_api" (dget_or "inherit_api" (PBool true) d);
  inherit_auth ← as_bool "inherit_auth" (dget_or "inherit_auth" (PBool true) d);
  inherit_config ← as_bool "inherit_config" (dget_or "inherit_config" (PBool true) d);
  inherit_skills ← as_bool "inherit_skills" (dget_or "inherit_skills" (PBool true) d);
  inherit_commands ← as_bool "inherit_commands" (dget_or "inherit_commands" (PBool true) d);
  inherit_memory ← as_bool "inherit_memory" (dget_or "inherit_memory" (PBool true) d);
  provider_profile_post_init (mkProfile mode home env inherit_api inherit_auth inherit_config inherit_skills
                       inherit_commands inherit_memory).

Definition spec_from_record (d : pydict) : result AgentSpec :=
  _ ← validate_record agent_schema_version "agent_spec" d;
  name ← (dindex "name" d ≫= as_str "name");
  provider ← (dindex "provider" d ≫= as_str "provider");
  target ← (dindex "target" d ≫= as_str "target");
  workspace_mode ← (dindex "workspace_mode" d ≫= enum_of_val "WorkspaceMode" workspace_mode_value workspace_modes);
  workspace_root ← opt_str "workspace_root" (dget "workspace_root" d);
  runtime_mode ← (dindex "runtime_mode" d ≫= enum_of_val "RuntimeMode" runtime_mode_value runtime_modes);
  restore_default ← (dindex "restore_default" d ≫= enum_of_val "RestoreMode" restore_mode_value restore_modes);
  permission_default ← (dindex "permission_default" d ≫=
                          enum_of_val "PermissionMode" permission_mode_value permission_modes);
  queue_policy ← (dindex "queue_policy" d ≫= enum_of_val "QueuePolicy" queue_policy_value queue_policies);
  model ← opt_str "model" (dget "model" d);
  startup_args ← str_list "startup_args" (dget_or "startup_args" (PList []) d);
  env ← strdict_of "env" (dget_or "env" (PDict []) d);
  api ← (dict_or_empty "api" (dget "api" d) ≫= api_from_record);
  profile ← (dict_or_empty "provider_profile" (dget "provider_profile" d) ≫= provider_profile_from_record);
  branch_template ← opt_str "branch_template" (dget "branch_template" d);
  labels ← str_list "labels" (dget_or "labels" (PList []) d);
  description ← opt_str "description" (dget "description" d);
  watch_paths ← str_list "watch_paths" (dget_or "watch_paths" (PList []) d);
  spec_post_init (mkSpec name provider target workspace_mode workspace_root runtime_mode restore_default
                    permission_default queue_policy model startup_args env api profile branch_template labels
                    description watch_paths).

(** A specification its constructor and those of its parts built. *)
Record spec_ok (s : AgentSpec) : Prop := {
  so_spec : spec_post_init s = Ok s;
  so_api : api_post_init (as_api s) = as_api s;
  so_profile : provider_profile_post_init (as_provider_profile s) = Ok (as_provider_profile s)
}.

(** ** Specifications survive being stored *)
Lemma or_none_strip s t : or_none (strip s) = Some t → or_none (strip t) = Some t.
Proof.
  unfold or_none. case_bool_decide as H1; [done|]. intros [= <-]. rewrite strip_idem. by case_bool_decide.
Qed.
Lemma api_post_init_idem a : api_post_init (api_post_init a) = api_post_init a.
Proof.
  unfold api_post_init. cbn. f_equal.
  - destruct (api_key a ≫= _) as [t|] eqn:E; [|done]. cbn. destruct (api_key a); [|done]. by eapply or_none_strip.
  - destruct (api_url a ≫= _) as [t|] eqn:E; [|done]. cbn. destruct (api_url a); [|done]. by eapply or_none_strip.
Qed.
Lemma provider_profile_post_init_idem p p' : provider_profile_post_init p = Ok p' → provider_profile_post_init p' = Ok p'.
Proof.
  unfold provider_profile_post_init at 1.
  set (mode := str_or (Some (lower (strip (str_or (Some (pf_mode p)) "inherit")))) "inherit"). clearbody mode.
  intros (u & Hu & Hp)%result_bind_Ok_inv. apply raise_if_Ok in Hu. injection Hp as <-.
  unfold provider_profile_post_init. cbn [pf_mode pf_home pf_env pf_inherit_api pf_inherit_auth pf_inherit_config
    pf_inherit_skills pf_inherit_commands pf_inherit_memory].
  apply negb_false_iff, bool_decide_eq_true in Hu.
  assert (str_or (Some (lower (strip (str_or (Some mode) "inherit")))) "inherit" = mode) as Hm.
  { unfold VALID_PROFILE_MODES in Hu. rewrite !elem_of_cons in Hu.
    destruct Hu as [-> |[-> |[-> |[]%elem_of_nil]]]; reflexivity. }
  rewrite Hm, bool_decide_eq_true_2 by done. cbn [negb raise_if]. rewrite result_bind_ok.
  destruct (pf_home p ≫= _) as [t|] eqn:E; [|done]. cbn [mbind option_bind].
  destruct (pf_home p) as [h|]; [|done]. cbn in E. by rewrite (or_none_strip _ _ E).
Qed.

Lemma take_app_length' {A} (l1 l2 : list A) : take (length l1) (l1 ++ l2) = l1.
Proof. by rewrite take_app_length. Qed.
Lemma startup_args_idem provider model args args' :
  normalize_startup_args provider model args = Ok args' → normalize_startup_args provider model args' = Ok args'.
Proof.
  unfold normalize_startup_args. destruct model as [m|]; [|done].
  destruct (provider_model_startup_args provider m) as [compiled|[]]; try done.
  case_bool_decide as Ht.
  - intros (u & Hu & [= <-])%result_bind_Ok_inv. rewrite bool_decide_eq_true_2 by done. by rewrite Hu.
  - intros (u & Hu & [= <-])%result_bind_Ok_inv. rewrite take_app_length, bool_decide_eq_true_2 by done.
    rewrite drop_app_length. by rewrite Hu.
Qed.
Lemma spec_post_init_idem s s' : spec_post_init s = Ok s' → spec_post_init s' = Ok s'.
Proof.
  unfold spec_post_init. intros (n & Hn & Hs)%result_bind_Ok_inv.
  apply result_bind_Ok_inv in Hs as (u & Hu & (v & Hv & (m & Hm & (a & Ha & [= <-])%result_bind_Ok_inv)
    %result_bind_Ok_inv)%result_bind_Ok_inv).
  cbn [as_name as_provider as_target as_model as_startup_args as_workspace_mode as_workspace_root as_runtime_mode
    as_restore_default as_permission_default as_queue_policy as_env as_api as_provider_profile as_branch_template
    as_labels as_description as_watch_paths].
  rewrite (normalize_agent_name_idem' _ _ Hn), result_bind_ok, lower_strip_idem, Hu, result_bind_ok, strip_idem, Hv,
    result_bind_ok.
  assert (normalize_model m = Ok m) as ->.
  { unfold normalize_model in Hm. destruct (as_model s) as [t|]; [|by injection Hm as <-].
    apply result_bind_Ok_inv in Hm as (w & Hw & [= <-]). cbn. rewrite strip_idem. by rewrite Hw. }
  rewrite result_bind_ok, (startup_args_idem _ _ _ _ Ha). done.
Qed.

Lemma str_entries_of f e : str_entries f (strdict_record e) = Ok e.
Proof. induction e as [|[k v] e IH]; [done|]. change (strdict_record ((k, v) :: e)) with ((k, PStr v) :: strdict_record e).
  cbn [str_entries as_str mbind result_bind]. by rewrite IH. Qed.
Lemma strdict_of_record f e : strdict_of f (PDict (strdict_record e)) = Ok e.
Proof. apply str_entries_of. Qed.
Lemma api_reload a : api_post_init a = a → api_from_record (api_to_record a) = Ok a.
Proof.
  intros Ha. destruct a as [k u]. unfold api_from_record, api_to_record. cbn [api_key api_url].
  destruct k as [k|], u as [u|]; cbn -[api_post_init]; by rewrite Ha.
Qed.
Lemma provider_profile_reload p : provider_profile_post_init p = Ok p → provider_profile_from_record (provider_profile_to_record p) = Ok p.
Proof.
  intros Hp. unfold provider_profile_from_record. change (keywords _ _ (provider_profile_to_record p)) with (Ok tt). rewrite result_bind_ok.
  unfold provider_profile_to_record. dict_simpl. cbn [as_str as_bool mbind result_bind]. rewrite ?result_bind_ok.
  rewrite strdict_of_record, ?result_bind_ok. cbn [mbind result_bind as_bool mret result_ret]. by destruct p.
Qed.

Lemma workspace_mode_of m : enum_of_val "WorkspaceMode" workspace_mode_value workspace_modes (PStr (workspace_mode_value m)) = Ok m.
Proof. by destruct m. Qed.
Lemma runtime_mode_of m : enum_of_val "RuntimeMode" runtime_mode_value runtime_modes (PStr (runtime_mode_value m)) = Ok m.
Proof. by destruct m. Qed.
Lemma restore_mode_of m : enum_of_val "RestoreMode" restore_mode_value restore_modes (PStr (restore_mode_value m)) = Ok m.
Proof. by destruct m. Qed.
Lemma permission_mode_of m :
  enum_of_val "PermissionMode" permission_mode_value permission_modes (PStr (permission_mode_value m)) = Ok m.
Proof. by destruct m. Qed.
Lemma queue_policy_of m : enum_of_val "QueuePolicy" queue_policy_value queue_policies (PStr (queue_policy_value m)) = Ok m.
Proof. by destruct m. Qed.

Lemma spec_reload s : spec_ok s → spec_from_record (spec_to_record s) = Ok s.
Proof.
  intros [H1 H2 H3]. unfold spec_from_record, spec_to_record. rewrite validate_record_ok by reflexivity.
  rewrite result_bind_ok. dict_simpl. cbn [mbind result_bind as_str].
  rewrite workspace_mode_of, result_bind_ok, ?opt_str_of, ?result_bind_ok, runtime_mode_of, result_bind_ok,
    restore_mode_of, result_bind_ok, permission_mode_of, result_bind_ok, queue_policy_of, result_bind_ok.
  cbn [default]. rewrite !str_list_of, !result_bind_ok, strdict_of_record, result_bind_ok, !dict_or_empty_of.
  cbn [mbind result_bind]. rewrite (api_reload _ H2). cbn [mbind result_bind].
  rewrite (provider_profile_reload _ H3). cbn [mbind result_bind]. by destruct s.
Qed.
