(* ===== verification/Layout.v ===== *)
(** * Pane layouts

    [agents/models_runtime/layout_runtime/parser.py], [nodes.py] and [ops.py]:
    the language in which a project writes how the panes of its agents are
    arranged, [a:codex, b:claude; c:gemini(worktree)], and what is done with the
    trees it denotes. *)
From S2P Require Import Prelude Names.
Open Scope string_scope.
Open Scope list_scope.
Open Scope nat_scope.

(** ** Trees *)
Record LayoutLeaf := mkLeaf {
  lf_name : string;
  lf_provider : option string;
  lf_workspace_mode : option string
}.
Inductive branch_kind := horizontal | vertical.
#[export] Instance branch_kind_eq_dec : EqDecision branch_kind.
Proof. solve_decision. Defined.
#[export] Instance LayoutLeaf_eq_dec : EqDecision LayoutLeaf.
Proof. solve_decision. Defined.

(** The three kinds of [LayoutNode], with the fields its constructor demands. *)
Inductive LayoutNode :=
  | Leaf (leaf : LayoutLeaf)
  | Branch (kind : branch_kind) (left right : LayoutNode).
#[export] Instance LayoutNode_eq_dec : EqDecision LayoutNode.
Proof. solve_decision. Defined.

Fixpoint leaf_count (n : LayoutNode) : nat :=
  match n with Leaf _ => 1 | Branch _ l r => leaf_count l + leaf_count r end.
Fixpoint iter_leaves (n : LayoutNode) : list LayoutLeaf :=
  match n with Leaf l => [l] | Branch _ l r => iter_leaves l ++ iter_leaves r end.
Definition iter_layout_names (n : LayoutNode) : list string := lf_name <$> iter_leaves n.

Definition precedence (k : branch_kind) : nat := match k with horizontal => 1 | vertical => 2 end.
Definition separator (k : branch_kind) : string := match k with horizontal => ";" | vertical => "," end.
(** [render_child] puts a branch of lower rank into parentheses. *)
Definition needs_parens (parent : branch_kind) (child : LayoutNode) : bool :=
  match child with Leaf _ => false | Branch k _ _ => precedence k <? precedence parent end.
Definition render_leaf (l : LayoutLeaf) : string :=
  match or_none (default "" (lf_provider l)) with
  | Some provider =>
      if strip (default "" (lf_workspace_mode l)) =ˢ "worktree"
      then lf_name l +:+ ":" +:+ provider +:+ "(worktree)"
      else lf_name l +:+ ":" +:+ provider
  | None => lf_name l
  end.
Definition parenthesized (b : bool) (s : string) : string := if b then "(" +:+ s +:+ ")" else s.
Fixpoint render (n : LayoutNode) : string :=
  match n with
  | Leaf l => render_leaf l
  | Branch k l r =>
      parenthesized (needs_parens k l) (render l) +:+ separator k +:+ " " +:+
      parenthesized (needs_parens k r) (render r)
  end.

(** ** Tokens *)

(** [str.splitlines] on code points up to U+00FF. *)
Definition is_line_break (c : ascii) : bool :=
  let n := code c in (10 <=? n) && (n <=? 13) || (28 <=? n) && (n <=? 30) || (n =? 133).
Fixpoint str_splitlines (s : string) : list string :=
  match s with
  | "" => []
  | String c s' =>
      if is_line_break c then
        match s' with
        | String d s'' => if (code c =? 13) && (code d =? 10) then "" :: str_splitlines s''
                          else "" :: str_splitlines s'
        | "" => [""]
        end
      else match str_splitlines s' with
           | [] => [String c ""]
           | l :: ls => String c l :: ls
           end
  end.
(** [s.split(sep, 1)[0]]. *)
Fixpoint before (sep s : string) : string :=
  match s with
  | "" => ""
  | String c s' => if String.prefix sep s then "" else String c (before sep s')
  end.
(** [line.find(c)]. *)
Fixpoint find_char (c : ascii) (s : string) : option nat :=
  match s with
  | "" => None
  | String d s' => if Ascii.eqb c d then Some 0 else S <$> find_char c s'
  end.

Definition is_delimiter (c : ascii) : bool := bool_decide (c ∈ ["("; ")"; ";"; ","]%char).
(** [append_leaf_token]. *)
Definition leaf_token (buf : string) : list string :=
  if strip buf =ˢ "" then [] else [strip buf].
(** One line: [copy] more characters belong to the leaf whatever they are. *)
Fixpoint tokenize_line (copy : nat) (buf line : string) : list string :=
  match line with
  | "" => leaf_token buf
  | String c line' =>
      let append := buf +:+ String c "" in
      match copy with
      | S k => tokenize_line k append line'
      | 0 =>
          match (if Ascii.eqb c "(" && (strip buf ≠ˢ "") then find_char ")" line' else None) with
          | Some k => tokenize_line (S k) append line'
          | None =>
              if is_delimiter c then leaf_token buf ++ [String c ""] ++ tokenize_line 0 "" line'
              else tokenize_line 0 append line'
          end
      end
  end.
Definition tokenize (text : string) : list string :=
  concat (tokenize_line 0 "" <$> ((λ l, before "//" (before "#" l)) <$> str_splitlines text)).

(** ** Leaves *)
Fixpoint span_name (s : string) : string * string :=
  match s with
  | "" => ("", "")
  | String c s' => if is_name_char c then let '(name, rest) := span_name s' in (String c name, rest) else ("", s)
  end.
Definition expect_char (c : ascii) (s : string) : option string :=
  match s with String d s' => if Ascii.eqb c d then Some s' else None | "" => None end.
Definition expect_text (t s : string) : option string :=
  if String.prefix t s then Some (String.substring (String.length t) (String.length s - String.length t) s) else None.
(** [\s*\(\s*worktree\s*\)] and the end. *)
Definition match_workspace_mode (s : string) : option unit :=
  s ← expect_char "(" (lstrip s);
  s ← expect_text "worktree" (lstrip s);
  s ← expect_char ")" (lstrip s);
  if s =ˢ "" then Some tt else None.
(** [_LEAF_TOKEN_RE.fullmatch]. *)
Definition match_leaf (token : string) : option LayoutLeaf :=
  let '(name, rest) := span_name token in
  if negb (agent_name_pattern name) then None
  else if rest =ˢ "" then Some (mkLeaf name None None)
  else
    rest ← expect_char ":" (lstrip rest);
    let '(provider, rest) := span_name (lstrip rest) in
    if provider =ˢ "" then None
    else if rest =ˢ "" then Some (mkLeaf name (Some provider) None)
    else match match_workspace_mode rest with
         | Some _ => Some (mkLeaf name (Some provider) (Some "worktree"))
         | None => None
         end.

(** ** The parser

    [_LayoutParser] on the rest of its tokens.  Each call takes one unit of
    fuel. *)
Definition out_of_fuel : exn := RuntimeError "out of fuel".
Definition parse_leaf (token : string) : result LayoutNode :=
  match match_leaf token with
  | Some l => Ok (Leaf l)
  | None => Err (LayoutParseError ("invalid layout token " +:+ repr_str token +:+
      "; expected 'cmd', 'agent', 'agent:provider', or 'agent:provider(worktree)'"))
  end.
Definition peek (tokens : list string) : string :=
  match tokens with t :: _ => repr_str t | [] => "None" end.

Fixpoint parse_horizontal (fuel : nat) (tokens : list string) : result (LayoutNode * list string) :=
  match fuel with
  | 0 => Err out_of_fuel
  | S f => match parse_vertical f tokens with
           | Ok (node, rest) => horizontal_loop f node rest
           | Err e => Err e
           end
  end
with horizontal_loop (fuel : nat) (node : LayoutNode) (tokens : list string)
    : result (LayoutNode * list string) :=
  match fuel with
  | 0 => Err out_of_fuel
  | S f => match tokens with
           | ";" :: rest =>
               match parse_vertical f rest with
               | Ok (rhs, rest) => horizontal_loop f (Branch horizontal node rhs) rest
               | Err e => Err e
               end
           | _ => Ok (node, tokens)
           end
  end
with parse_vertical (fuel : nat) (tokens : list string) : result (LayoutNode * list string) :=
  match fuel with
  | 0 => Err out_of_fuel
  | S f => match parse_primary f tokens with
           | Ok (node, rest) => vertical_loop f node rest
           | Err e => Err e
           end
  end
with vertical_loop (fuel : nat) (node : LayoutNode) (tokens : list string)
    : result (LayoutNode * list string) :=
  match fuel with
  | 0 => Err out_of_fuel
  | S f => match tokens with
           | "," :: rest =>
               match parse_primary f rest with
               | Ok (rhs, rest) => vertical_loop f (Branch vertical node rhs) rest
               | Err e => Err e
               end
           | _ => Ok (node, tokens)
           end
  end
with parse_primary (fuel : nat) (tokens : list string) : result (LayoutNode * list string) :=
  match fuel with
  | 0 => Err out_of_fuel
  | S f =>
      match tokens with
      | [] => Err (LayoutParseError "unexpected end of layout")
      | token :: rest =>
          if token =ˢ "(" then
            match parse_horizontal f rest with
            | Ok (node, after) =>
                match after with
                | ")" :: rest => Ok (node, rest)
                | _ => Err (LayoutParseError ("expected ')', found " +:+ peek after))
                end
            | Err e => Err e
            end
          else if bool_decide (token ∈ [")"; ";"; ","])
          then Err (LayoutParseError ("unexpected token " +:+ repr_str token))
          else match parse_leaf token with Ok node => Ok (node, rest) | Err e => Err e end
      end
  end.

Definition layout_fuel (tokens : list string) : nat := 4 * length tokens + 4.
Definition parse_layout_spec (text : string) : result LayoutNode :=
  let tokens := tokenize text in
  match tokens with
  | [] => Err (LayoutParseError "layout is empty")
  | _ =>
      match parse_horizontal (layout_fuel tokens) tokens with
      | Ok (node, []) => Ok node
      | Ok (_, rest) => Err (LayoutParseError ("unexpected token " +:+ peek rest))
      | Err e => Err e
      end
  end.

(** ** Operations *)
Definition stripped_names (names : list string) : list string :=
  List.filter (λ n, n ≠ˢ "") (strip <$> names).
Fixpoint prune_node (include : list string) (n : LayoutNode) : option LayoutNode :=
  match n with
  | Leaf l => if bool_decide (lf_name l ∈ include) then Some n else None
  | Branch k l r =>
      match prune_node include l, prune_node include r with
      | None, r' => r'
      | l', None => l'
      | Some l', Some r' => Some (Branch k l' r')
      end
  end.
Definition prune_layout (n : LayoutNode) (include_names : list string) : option LayoutNode :=
  prune_node (stripped_names include_names) n.

Definition stack_vertical (leaves : list LayoutNode) : option LayoutNode :=
  match leaves with [] => None | n :: rest => Some (foldl (Branch vertical) n rest) end.
Definition layout_leaves (agents : list string) (provider workspace_mode : string → option string)
    (cmd_enabled : bool) : list LayoutNode :=
  (if cmd_enabled then [Leaf (mkLeaf "cmd" None None)] else []) ++
  ((λ name, Leaf (mkLeaf name (or_none (default "" (provider name)))
                    (or_none (default "" (workspace_mode name))))) <$> agents).
Definition build_balanced_layout (agent_names : list string) (provider workspace_mode : string → option string)
    (cmd_enabled : bool) : result LayoutNode :=
  let ordered := stripped_names agent_names in
  match ordered with
  | [] => Err (ValueError "at least one agent is required for layout")
  | _ =>
      let leaves := layout_leaves ordered provider workspace_mode cmd_enabled in
      match leaves with
      | [n] => mret n
      | _ =>
          let mid := Nat.div (length leaves + 1) 2 in
          match stack_vertical (take mid leaves), stack_vertical (drop mid leaves) with
          | Some l, Some r => mret (Branch horizontal l r)
          | Some l, None => mret l
          | None, _ => Err (IllTyped "left")
          end
      end
  end.

Example parse_example :
  parse_layout_spec "cmd; (a:codex, b : claude ( worktree )); c # x" =
    Ok (Branch horizontal (Branch horizontal (Leaf (mkLeaf "cmd" None None))
      (Branch vertical (Leaf (mkLeaf "a" (Some "codex") None)) (Leaf (mkLeaf "b" (Some "claude") (Some "worktree")))))
      (Leaf (mkLeaf "c" None None))).
Proof. vm_compute. reflexivity. Qed.
