(* ===== verification/ProviderProtocol.v ===== *)
(** * The text protocol between the daemon and an agent

    [provider_core/protocol_runtime]: the request id a prompt carries, the line
    that ends a reply, and how a reply is cut out of a text.  The regular
    expressions are written as functions on one line. *)
From S2P Require Import Prelude Names Layout.
Open Scope string_scope.
Open Scope list_scope.
Open Scope nat_scope.

(** ** Lines and patterns *)
Definition REQ_ID_PREFIX : string := "CCB_REQ_ID:".
Definition BEGIN_PREFIX : string := "CCB_BEGIN:".
Definition DONE_PREFIX : string := "CCB_DONE:".

Definition is_digit (c : ascii) : bool := (48 <=? code c) && (code c <=? 57).
Definition is_upper (c : ascii) : bool := (65 <=? code c) && (code c <=? 90).
Definition is_lower (c : ascii) : bool := (97 <=? code c) && (code c <=? 122).
Definition is_hex (c : ascii) : bool :=
  is_digit c || (65 <=? code c) && (code c <=? 70) || (97 <=? code c) && (code c <=? 102).
Definition blank (s : string) : bool := string_forallb is_space s.

(** The longest prefix of characters that satisfy [p], and the rest. *)
Fixpoint span (p : ascii → bool) (s : string) : string * string :=
  match s with
  | "" => ("", "")
  | String c s' => if p c then let '(a, b) := span p s' in (String c a, b) else ("", s)
  end.
(** What follows [prefix] in [s]. *)
Fixpoint after_prefix (prefix s : string) : option string :=
  match prefix, s with
  | "", _ => Some s
  | String c prefix', String d s' => if Ascii.eqb c d then after_prefix prefix' s' else None
  | _, "" => None
  end.

(** [\d+] and [\d{n}], then the rest. *)
Definition digits1 (s : string) : option string :=
  match span is_digit s with ("", _) => None | (_, rest) => Some rest end.
Fixpoint digits (n : nat) (s : string) : option string :=
  match n, s with
  | 0, _ => Some s
  | S n', String c s' => if is_digit c then digits n' s' else None
  | _, "" => None
  end.
Definition job_req_id (ignore_case : bool) (s : string) : bool :=
  match after_prefix "job_" (if ignore_case then lower s else s) with
  | Some rest => (rest ≠ˢ "") && string_forallb (λ c, is_lower c || is_digit c) rest
  | None => false
  end.
Definition legacy_hex_req_id (s : string) : bool := (String.length s =? 32) && string_forallb is_hex s.
(** One pattern after the other, to the end of the text. *)
Definition matches_all (patterns : list (string → option string)) (s : string) : bool :=
  match foldl (λ (o : option string) p, o ≫= p) (Some s) patterns with Some rest => rest =ˢ "" | None => false end.
Definition legacy_timestamp_req_id : string → bool :=
  matches_all [digits 8; after_prefix "-"; digits 6; after_prefix "-"; digits 3; after_prefix "-"; digits1;
               after_prefix "-"; digits1].
(** [ANY_REQ_ID_PATTERN] on a whole text. *)
Definition any_req_id (ignore_case : bool) (s : string) : bool :=
  job_req_id ignore_case s || legacy_hex_req_id s || legacy_timestamp_req_id s.

(** [\s*text\s*$]. *)
Fixpoint spaced (text s : string) : bool :=
  match after_prefix text s with Some rest => blank rest | None => false end ||
  match s with "" => false | String c s' => is_space c && spaced text s' end.
(** [ANY_DONE_LINE_RE], without regard to case. *)
Definition any_done_line (line : string) : bool :=
  match after_prefix (lower DONE_PREFIX) (lower (lstrip line)) with
  | Some rest => any_req_id true (strip rest)
  | None => false
  end.
(** [done_line_re(req_id).match(line)]. *)
Definition done_line (req_id line : string) : bool :=
  match after_prefix DONE_PREFIX (lstrip line) with Some rest => spaced req_id rest | None => false end.

(** [_DONE] at the end, after at least one character. *)
Definition ends_done (tag : string) : bool :=
  let n := String.length tag in (5 <? n) && (String.substring (n - 5) 5 tag =ˢ "_DONE").
Definition is_tag_char (c : ascii) : bool := is_upper c || is_digit c || Ascii.eqb c "_".
(** [_TRAILING_DONE_TAG_RE]: a tag that ends in [_DONE], but not [CCB_DONE:],
    perhaps with a request id. *)
Definition trailing_done_tag (line : string) : bool :=
  let text := lstrip line in
  let marker := match after_prefix "CCB_DONE" text with
                | Some rest => String.prefix ":" (lstrip rest)
                | None => false
                end in
  let '(tag, rest) := span is_tag_char text in
  negb marker && ends_done tag && match tag with String c _ => is_upper c | "" => false end &&
  (blank rest || match after_prefix ":" (lstrip rest) with Some id => any_req_id false (strip id) | None => false end).
Definition is_trailing_noise_line (line : string) : bool := (strip line =ˢ "") || trailing_done_tag line.

(** ** Prompts *)
Definition NL : string := String (ascii_of_nat 10) "".
Definition wrap_codex_prompt (message req_id : string) : string :=
  REQ_ID_PREFIX +:+ " " +:+ req_id +:+ NL +:+ NL +:+ rstrip message +:+ NL +:+ NL +:+
  "IMPORTANT:" +:+ NL +:+ "- Reply normally." +:+ NL +:+ "- Reply normally, in English." +:+ NL +:+
  "- End your reply with this exact final line (verbatim, on its own line):" +:+ NL +:+
  DONE_PREFIX +:+ " " +:+ req_id +:+ NL.
Definition wrap_codex_turn_prompt (message req_id : string) : string :=
  REQ_ID_PREFIX +:+ " " +:+ req_id +:+ NL +:+ NL +:+ rstrip message +:+ NL.
Definition request_anchor_for_job (job_id : option string) : result string :=
  let anchor := strip (default "" job_id) in
  _ ← raise_if (anchor =ˢ "") (ValueError "request anchor cannot be empty"); mret anchor.

(** ** Replies *)
Fixpoint join_lines (l : list string) : string :=
  match l with [] => "" | [x] => x | x :: l' => x +:+ NL +:+ join_lines l' end.
(** [while lines and p(lines[-1]): lines.pop()]. *)
Fixpoint pop_while (p : string → bool) (l : list string) : list string :=
  match l with
  | [] => []
  | x :: l' => match pop_while p l' with [] => if p x then [] else [x] | r => x :: r end
  end.
(** [if lines and p(lines[-1]): lines.pop()]. *)
Definition pop_if (p : string → bool) (l : list string) : list string :=
  match last l with Some x => if p x then removelast l else l | None => l end.
Definition strip_trailing_markers (text : string) : string :=
  rstrip (join_lines (pop_while (λ l, is_trailing_noise_line l || any_done_line l) (str_splitlines text))).
Definition is_done_text (text req_id : string) : bool :=
  match last (pop_while is_trailing_noise_line (rstrip <$> str_splitlines text)) with
  | Some line => done_line req_id line
  | None => false
  end.
Definition without_done (req_id : string) (lines : list string) : list string :=
  pop_while is_trailing_noise_line (pop_if (done_line req_id) (pop_while is_trailing_noise_line lines)).
Definition strip_done_text (text req_id : string) : string := rstrip (join_lines (without_done req_id (str_splitlines text))).

Fixpoint drop_blank (l : list string) : list string :=
  match l with [] => [] | x :: l' => if strip x =ˢ "" then drop_blank l' else l end.
Definition trim_blank_edges (l : list string) : list string := pop_while (λ x, strip x =ˢ "") (drop_blank l).
Fixpoint indexes_from (p : string → bool) (i : nat) (l : list string) : list nat :=
  match l with
  | [] => []
  | x :: l' => if p x then i :: indexes_from p (S i) l' else indexes_from p (S i) l'
  end.
Definition done_line_indexes (lines : list string) : list nat := indexes_from any_done_line 0 lines.
(** [done_target_re(req_id).match(line)]: as [done_line], without regard to case. *)
Definition done_target (req_id line : string) : bool :=
  match after_prefix (lower DONE_PREFIX) (lower (lstrip line)) with
  | Some rest => spaced (lower req_id) rest
  | None => false
  end.
Definition target_done_indexes (lines : list string) (req_id : string) (done_indexes : list nat) : list nat :=
  List.filter (λ i, match lines !! i with Some l => done_target req_id l | None => false end) done_indexes.
Definition previous_done_index (done_indexes : list nat) (target : nat) : option nat :=
  last (List.filter (λ i, i <? target) done_indexes).
Definition extract_reply_window (lines : list string) (done_indexes : list nat) (target : nat) (start_index : option nat)
    : string :=
  let start := match start_index with
               | Some i => i
               | None => match previous_done_index done_indexes target with Some i => S i | None => 0 end
               end in
  rstrip (join_lines (trim_blank_edges (drop start (take target lines)))).
Definition extract_reply_for_req (text req_id : string) : string :=
  let lines := str_splitlines text in
  match lines with
  | [] => ""
  | _ =>
      let done_indexes := done_line_indexes lines in
      match last (target_done_indexes lines req_id done_indexes) with
      | None => match done_indexes with [] => strip_done_text text req_id | _ => "" end
      | Some target => extract_reply_window lines done_indexes target None
      end
  end.
