(* ===== verification/LayoutTheorems.v ===== *)
(** * Layouts are read as they are written

    The parser ends on every text with a tree or a [LayoutParseError]; what
    [render] writes is read back; pruning keeps the leaves it is told to. *)
From S2P Require Import Prelude Names Layout.
Open Scope string_scope.
Open Scope list_scope.
Open Scope nat_scope.

(** ** The parser ends *)
Definition ends (r : result (LayoutNode * list string)) (n : nat) : Prop :=
  match r with Ok (_, rest) => length rest < n | Err e => ∃ m, e = LayoutParseError m end.

Lemma parser_ends fuel :
  (∀ ts, 4 * length ts + 3 <= fuel → ends (parse_horizontal fuel ts) (length ts)) ∧
  (∀ n ts, 4 * length ts + 1 <= fuel → ends (horizontal_loop fuel n ts) (S (length ts))) ∧
  (∀ ts, 4 * length ts + 2 <= fuel → ends (parse_vertical fuel ts) (length ts)) ∧
  (∀ n ts, 4 * length ts + 1 <= fuel → ends (vertical_loop fuel n ts) (S (length ts))) ∧
  (∀ ts, 4 * length ts + 1 <= fuel → ends (parse_primary fuel ts) (length ts)).
Proof.
  induction fuel as [|f (IHh & IHhl & IHv & IHvl & IHp)]; [split_and!; intros; lia|].
  split_and!.
  - intros ts Hf. cbn [parse_horizontal]. specialize (IHv ts ltac:(lia)).
    destruct (parse_vertical f ts) as [[n rest]|e]; [|done]. cbn in IHv.
    specialize (IHhl n rest ltac:(lia)). destruct (horizontal_loop f n rest) as [[n' rest']|e]; [|done].
    cbn in *. lia.
  - intros n ts Hf. cbn [horizontal_loop]. destruct ts as [|t ts]; [cbn; lia|].
    destruct (decide (t = ";")) as [->|Ht].
    + cbn [length] in *. specialize (IHv ts ltac:(lia)). destruct (parse_vertical f ts) as [[r rest]|e]; [|done].
      cbn in IHv. specialize (IHhl (Branch horizontal n r) rest ltac:(lia)).
      destruct (horizontal_loop _ _ _) as [[n' rest']|e]; [|done]. cbn in *. lia.
    + assert (∀ A (a b : A), match t with ";" => a | _ => b end = b) as Hm.
      { intros A a b. repeat (case_match; try done). }
      rewrite Hm. cbn. lia.
  - intros ts Hf. cbn [parse_vertical]. specialize (IHp ts ltac:(lia)).
    destruct (parse_primary f ts) as [[n rest]|e]; [|done]. cbn in IHp.
    specialize (IHvl n rest ltac:(lia)). destruct (vertical_loop f n rest) as [[n' rest']|e]; [|done].
    cbn in *. lia.
  - intros n ts Hf. cbn [vertical_loop]. destruct ts as [|t ts]; [cbn; lia|].
    destruct (decide (t = ",")) as [->|Ht].
    + cbn [length] in *. specialize (IHp ts ltac:(lia)). destruct (parse_primary f ts) as [[r rest]|e]; [|done].
      cbn in IHp. specialize (IHvl (Branch vertical n r) rest ltac:(lia)).
      destruct (vertical_loop _ _ _) as [[n' rest']|e]; [|done]. cbn in *. lia.
    + assert (∀ A (a b : A), match t with "," => a | _ => b end = b) as Hm.
      { intros A a b. repeat (case_match; try done). }
      rewrite Hm. cbn. lia.
  - intros ts Hf. cbn [parse_primary]. destruct ts as [|t ts]; [cbn; by eexists|].
    cbn [length] in *. case_bool_decide.
    + specialize (IHh ts ltac:(lia)). destruct (parse_horizontal f ts) as [[n rest]|e]; [|done]. cbn in IHh.
      destruct rest as [|u rest]; [cbn; by eexists|]. cbn in IHh.
      destruct (decide (u = ")")) as [->|Hu]; [cbn; lia|].
      assert (∀ A (a b : A), match u with ")" => a | _ => b end = b) as Hm.
      { intros A a b. repeat (case_match; try done). }
      rewrite Hm. cbn. by eexists.
    + case_bool_decide; [cbn; by eexists|]. unfold parse_leaf. destruct (match_leaf t); cbn; [lia|by eexists].
Qed.

(** More fuel changes nothing. *)
Lemma not_semicolon {A} (t : string) (a b : A) : t ≠ ";" → match t with ";" => a | _ => b end = b.
Proof. intros Ht. repeat (case_match; try done). Qed.
Lemma not_comma {A} (t : string) (a b : A) : t ≠ "," → match t with "," => a | _ => b end = b.
Proof. intros Ht. repeat (case_match; try done). Qed.

Lemma more_fuel fuel :
  (∀ ts, parse_horizontal fuel ts ≠ Err out_of_fuel → parse_horizontal (S fuel) ts = parse_horizontal fuel ts) ∧
  (∀ n ts, horizontal_loop fuel n ts ≠ Err out_of_fuel → horizontal_loop (S fuel) n ts = horizontal_loop fuel n ts) ∧
  (∀ ts, parse_vertical fuel ts ≠ Err out_of_fuel → parse_vertical (S fuel) ts = parse_vertical fuel ts) ∧
  (∀ n ts, vertical_loop fuel n ts ≠ Err out_of_fuel → vertical_loop (S fuel) n ts = vertical_loop fuel n ts) ∧
  (∀ ts, parse_primary fuel ts ≠ Err out_of_fuel → parse_primary (S fuel) ts = parse_primary fuel ts).
Proof.
  induction fuel as [|f (IHh & IHhl & IHv & IHvl & IHp)]; [by split_and!|]. split_and!.
  - intros ts. cbn [parse_horizontal]. specialize (IHv ts).
    destruct (parse_vertical f ts) as [[n rest]|e] eqn:E; intros Hn.
    + rewrite IHv by done. by apply IHhl.
    + rewrite IHv by (intros [= ->]; done). done.
  - intros n ts. cbn [horizontal_loop]. destruct ts as [|t ts]; [done|].
    destruct (decide (t = ";")) as [->|Ht]; [|rewrite !not_semicolon by done; done].
    specialize (IHv ts). destruct (parse_vertical f ts) as [[r rest]|e] eqn:E; intros Hn.
    + rewrite IHv by done. by apply IHhl.
    + rewrite IHv by (intros [= ->]; done). done.
  - intros ts. cbn [parse_vertical]. specialize (IHp ts).
    destruct (parse_primary f ts) as [[n rest]|e] eqn:E; intros Hn.
    + rewrite IHp by done. by apply IHvl.
    + rewrite IHp by (intros [= ->]; done). done.
  - intros n ts. cbn [vertical_loop]. destruct ts as [|t ts]; [done|].
    destruct (decide (t = ",")) as [->|Ht]; [|rewrite !not_comma by done; done].
    specialize (IHp ts). destruct (parse_primary f ts) as [[r rest]|e] eqn:E; intros Hn.
    + rewrite IHp by done. by apply IHvl.
    + rewrite IHp by (intros [= ->]; done). done.
  - intros ts. cbn [parse_primary]. destruct ts as [|t ts]; [done|]. case_bool_decide; [|done].
    specialize (IHh ts). destruct (parse_horizontal f ts) as [[n rest]|e] eqn:E; intros Hn.
    + by rewrite IHh.
    + rewrite IHh by (intros [= ->]; done). done.
Qed.

Lemma enough_fuel f f' ts : layout_fuel ts <= f → f <= f' → parse_horizontal f' ts = parse_horizontal f ts.
Proof.
  intros Hf Hle. induction Hle as [|f' Hle IH]; [done|]. rewrite <- IH. apply more_fuel.
  destruct (parser_ends f') as (Hh & _). specialize (Hh ts). unfold layout_fuel in Hf.
  intros E. rewrite E in Hh. destruct Hh as [m Hm]; [lia|]. discriminate Hm.
Qed.

(** ** What the parser makes of the tokens of a tree *)
Definition reads {A} (p : nat → A) (a : A) : Prop := ∃ f0, ∀ f, f0 <= f → p f = a.

Lemma reads_leaf t l rest : match_leaf t = Some l → t ≠ "(" → t ∉ [")"; ";"; ","] →
  reads (λ f, parse_primary f (t :: rest)) (Ok (Leaf l, rest)).
Proof.
  intros Hl H1 H2. exists 1. intros [|f] Hf; [lia|]. cbn [parse_primary].
  rewrite !bool_decide_eq_false_2 by done. unfold parse_leaf. by rewrite Hl.
Qed.
Lemma reads_parens ts n rest : reads (λ f, parse_horizontal f ts) (Ok (n, ")" :: rest)) →
  reads (λ f, parse_primary f ("(" :: ts)) (Ok (n, rest)).
Proof.
  intros [f0 H0]. exists (S f0). intros [|f] Hf; [lia|]. cbn [parse_primary].
  rewrite bool_decide_eq_true_2 by done. by rewrite (H0 f) by lia.
Qed.
Lemma reads_vertical ts n rest r : reads (λ f, parse_primary f ts) (Ok (n, rest)) →
  reads (λ f, vertical_loop f n rest) r → reads (λ f, parse_vertical f ts) r.
Proof.
  intros [f0 H0] [f1 H1]. exists (S (f0 + f1)). intros [|f] Hf; [lia|]. cbn [parse_vertical].
  rewrite (H0 f) by lia. apply H1. lia.
Qed.
Lemma reads_vertical_more acc ts n rest r : reads (λ f, parse_primary f ts) (Ok (n, rest)) →
  reads (λ f, vertical_loop f (Branch vertical acc n) rest) r → reads (λ f, vertical_loop f acc ("," :: ts)) r.
Proof.
  intros [f0 H0] [f1 H1]. exists (S (f0 + f1)). intros [|f] Hf; [lia|]. cbn [vertical_loop].
  rewrite (H0 f) by lia. apply H1. lia.
Qed.
Lemma reads_vertical_end acc ts : head ts ≠ Some "," → reads (λ f, vertical_loop f acc ts) (Ok (acc, ts)).
Proof.
  intros Ht. exists 1. intros [|f] Hf; [lia|]. cbn [vertical_loop]. destruct ts as [|t ts]; [done|].
  apply not_comma. intros ->. by apply Ht.
Qed.
Lemma reads_horizontal ts n rest r : reads (λ f, parse_vertical f ts) (Ok (n, rest)) →
  reads (λ f, horizontal_loop f n rest) r → reads (λ f, parse_horizontal f ts) r.
Proof.
  intros [f0 H0] [f1 H1]. exists (S (f0 + f1)). intros [|f] Hf; [lia|]. cbn [parse_horizontal].
  rewrite (H0 f) by lia. apply H1. lia.
Qed.
Lemma reads_horizontal_more acc ts n rest r : reads (λ f, parse_vertical f ts) (Ok (n, rest)) →
  reads (λ f, horizontal_loop f (Branch horizontal acc n) rest) r → reads (λ f, horizontal_loop f acc (";" :: ts)) r.
Proof.
  intros [f0 H0] [f1 H1]. exists (S (f0 + f1)). intros [|f] Hf; [lia|]. cbn [horizontal_loop].
  rewrite (H0 f) by lia. apply H1. lia.
Qed.
Lemma reads_horizontal_end acc ts : head ts ≠ Some ";" → reads (λ f, horizontal_loop f acc ts) (Ok (acc, ts)).
Proof.
  intros Ht. exists 1. intros [|f] Hf; [lia|]. cbn [horizontal_loop]. destruct ts as [|t ts]; [done|].
  apply not_semicolon. intros ->. by apply Ht.
Qed.

(** The tokens of a rendered tree, and the tree they stand for: chains of one
    kind lean to the left. *)
Definition grouped (b : bool) (ts : list string) : list string := if b then "(" :: ts ++ [")"] else ts.
Fixpoint tokens_of (n : LayoutNode) : list string :=
  match n with
  | Leaf l => [render_leaf l]
  | Branch k l r =>
      grouped (needs_parens k l) (tokens_of l) ++ separator k :: grouped (needs_parens k r) (tokens_of r)
  end.
Definition chain (k : branch_kind) (ns : list LayoutNode) (n : LayoutNode) : LayoutNode := foldl (Branch k) n ns.
(** The parts of [n] in a chain of kind [k]: the first and the rest. *)
Fixpoint parts (k : branch_kind) (n : LayoutNode) : LayoutNode * list LayoutNode :=
  match n with
  | Leaf _ => (n, [])
  | Branch k' l r =>
      let '(x, xs) := parts k' l in
      let '(y, ys) := parts k' r in
      if decide (k = k') then (x, xs ++ y :: ys) else (chain k' (xs ++ y :: ys) x, [])
  end.
Definition lean_left (n : LayoutNode) : LayoutNode :=
  match n with Leaf _ => n | Branch k _ _ => let '(x, xs) := parts k n in chain k xs x end.

(** The leaves the parser makes. *)
Definition leaf_ok (l : LayoutLeaf) : Prop :=
  agent_name_pattern (lf_name l) = true ∧
  match lf_provider l with
  | None => lf_workspace_mode l = None
  | Some p => p ≠ "" ∧ string_forallb is_name_char p = true ∧
              (lf_workspace_mode l = None ∨ lf_workspace_mode l = Some "worktree")
  end.
Definition layout_ok (n : LayoutNode) : Prop := Forall leaf_ok (iter_leaves n).

(** [n] is read as a chain of kind [k] at the start and in the middle of one. *)
Definition tokens_in (k : branch_kind) (n : LayoutNode) (rest : list string) : list string :=
  grouped (needs_parens k n) (tokens_of n) ++ rest.
Definition loop_of (k : branch_kind) (acc : LayoutNode) (ts : list string) (f : nat) :=
  match k with horizontal => horizontal_loop f acc ts | vertical => vertical_loop f acc ts end.
Definition parser_of (k : branch_kind) (ts : list string) (f : nat) :=
  match k with horizontal => parse_horizontal f ts | vertical => parse_vertical f ts end.
(** What may follow an operand of a chain of this kind. *)
Definition follows (k : branch_kind) (rest : list string) : Prop :=
  match k with horizontal => head rest ≠ Some "," | vertical => True end.
Definition read_in (k : branch_kind) (n : LayoutNode) : Prop :=
  ∀ rest r, follows k rest →
    (reads (loop_of k (chain k (parts k n).2 (parts k n).1) rest) r → reads (parser_of k (tokens_in k n rest)) r) ∧
    ∀ acc, reads (loop_of k (chain k ((parts k n).1 :: (parts k n).2) acc) rest) r →
      reads (loop_of k acc (separator k :: tokens_in k n rest)) r.

Lemma chain_app k ns ns' n : chain k (ns ++ ns') n = chain k ns' (chain k ns n).
Proof. apply foldl_app. Qed.

(** An operand that is no chain of this kind. *)
Lemma read_operand_vertical n : parts vertical n = (lean_left n, []) →
  (∀ rest, reads (λ f, parse_primary f (tokens_in vertical n rest)) (Ok (lean_left n, rest))) → read_in vertical n.
Proof.
  intros Hp Hn rest r _. rewrite Hp. cbn [fst snd chain foldl]. split.
  - intros Hr. eapply reads_vertical; [apply Hn|exact Hr].
  - intros acc Hr. eapply reads_vertical_more; [apply Hn|exact Hr].
Qed.
Lemma read_operand_horizontal n : parts horizontal n = (lean_left n, []) →
  (∀ rest, head rest ≠ Some "," →
     reads (λ f, parse_vertical f (tokens_in horizontal n rest)) (Ok (lean_left n, rest))) → read_in horizontal n.
Proof.
  intros Hp Hn rest r Hrest. rewrite Hp. cbn [fst snd chain foldl]. split.
  - intros Hr. eapply reads_horizontal; [by apply Hn|exact Hr].
  - intros acc Hr. eapply reads_horizontal_more; [by apply Hn|exact Hr].
Qed.
(** A chain of the kind. *)
Lemma tokens_in_branch k l r rest : tokens_in k (Branch k l r) rest = tokens_in k l (separator k :: tokens_in k r rest).
Proof.
  unfold tokens_in. cbn [needs_parens]. rewrite Nat.ltb_irrefl. cbn [grouped tokens_of]. by rewrite <- app_assoc.
Qed.
Lemma parts_branch k l r :
  parts k (Branch k l r) = ((parts k l).1, (parts k l).2 ++ (parts k r).1 :: (parts k r).2).
Proof. cbn [parts]. destruct (parts k l), (parts k r). by rewrite decide_True. Qed.
Lemma read_chain k l r : read_in k l → read_in k r → read_in k (Branch k l r).
Proof.
  intros Hl Hr rest q Hrest. rewrite tokens_in_branch, parts_branch. cbn [fst snd].
  assert (follows k (separator k :: tokens_in k r rest)) as Hs by by destruct k.
  split.
  - intros Hq. apply Hl; [done|]. apply Hr; [done|]. by rewrite chain_app in Hq.
  - intros acc Hq. apply Hl; [done|]. apply Hr; [done|].
    change (?x :: ?xs ++ ?ys) with ((x :: xs) ++ ys) in Hq. by rewrite chain_app in Hq.
Qed.

(** *** Leaves *)
Lemma span_name_app w s : string_forallb is_name_char w = true →
  match s with "" => True | String c _ => is_name_char c = false end → span_name (w +:+ s) = (w, s).
Proof.
  intros Hw Hs. induction w as [|c w IH].
  - destruct s as [|c s]; [done|]. change ("" +:+ String c s) with (String c s). cbn [span_name]. by rewrite Hs.
  - cbn [string_forallb] in Hw. apply andb_prop in Hw as [Hc Hw]. change (String c w +:+ s) with (String c (w +:+ s)). cbn [span_name].
    by rewrite Hc, (IH Hw).
Qed.
Lemma span_name_inv s : string_forallb is_name_char (span_name s).1 = true ∧ (span_name s).1 +:+ (span_name s).2 = s.
Proof.
  induction s as [|c s [IH1 IH2]]; [done|]. cbn [span_name]. destruct (is_name_char c) eqn:Hc; [|done].
  destruct (span_name s) as [a b]. cbn [fst snd string_forallb] in *. rewrite Hc. split; [done|]. change (String c a +:+ b) with (String c (a +:+ b)).
  by rewrite IH2.
Qed.
Lemma name_chars_lstrip w s : w ≠ "" → string_forallb is_name_char w = true → lstrip (w +:+ s) = w +:+ s.
Proof.
  destruct w as [|c w]; [done|]. intros _ [Hc _]%andb_prop. change (String c w +:+ s) with (String c (w +:+ s)).
  cbn. apply is_name_char_not_space in Hc. by destruct (is_space c).
Qed.

Lemma leaf_reads l : leaf_ok l → match_leaf (render_leaf l) = Some l.
Proof.
  destruct l as [name provider mode]. intros [Hn Hp]. cbn in Hn, Hp.
  destruct (agent_name_pattern_chars _ Hn) as [Hne Hnc]. unfold match_leaf, render_leaf. cbn.
  destruct provider as [p|]; cbn.
  - destruct Hp as (Hp1 & Hp2 & Hm). unfold or_none. rewrite bool_decide_eq_false_2 by done.
    assert (∀ t, match t with "" => True | String c _ => is_name_char c = false end →
      span_name (name +:+ String ":" (p +:+ t)) = (name, String ":" (p +:+ t)) ∧
      span_name (lstrip (p +:+ t)) = (p, t)) as Hspan.
    { intros t Ht. split; [by apply span_name_app|]. rewrite name_chars_lstrip by done. by apply span_name_app. }
    destruct Hm as [-> | ->]; cbn [default].
    + change (strip "" =ˢ "worktree") with false. cbv iota. destruct (Hspan "" I) as [S1 S2]. rewrite !string_app_nil in S1, S2. change (":" +:+ p) with (String ":" p). rewrite S1, Hn. cbn [negb].
      rewrite bool_decide_eq_false_2 by done. change (expect_char ":" (lstrip (String ":" p))) with (Some p).
      cbn [mbind option_bind]. by rewrite S2, bool_decide_eq_false_2.
    + change (strip (id "worktree") =ˢ "worktree") with true. cbv iota.
      change (":" +:+ p +:+ "(worktree)") with (String ":" (p +:+ "(worktree)")).
      destruct (Hspan "(worktree)" eq_refl) as [S1 S2]. rewrite S1, Hn. cbn [negb].
      rewrite bool_decide_eq_false_2 by done.
      change (expect_char ":" (lstrip (String ":" (p +:+ "(worktree)")))) with (Some (p +:+ "(worktree)")).
      cbn [mbind option_bind]. by rewrite S2, bool_decide_eq_false_2.
  - subst mode. unfold or_none. rewrite bool_decide_eq_true_2 by done.
    pose proof (span_name_app name "" Hnc I) as S1. rewrite string_app_nil in S1. by rewrite S1, Hn.
Qed.
Lemma match_leaf_ok t l : match_leaf t = Some l → leaf_ok l.
Proof.
  unfold match_leaf. destruct (span_name t) as [name rest] eqn:Hs.
  destruct (agent_name_pattern name) eqn:Hn; [|done]. cbn [negb]. case_bool_decide; [by intros [= <-]|].
  destruct (expect_char ":" (lstrip rest)) as [r|]; [|done]. cbn [mbind option_bind].
  pose proof (span_name_inv (lstrip r)) as [Hp _]. destruct (span_name (lstrip r)) as [p q]. cbn in Hp.
  case_bool_decide; [done|]. case_bool_decide; [intros [= <-]; split; [done|]; cbn; split_and!; [done|done|by left]|].
  destruct (match_workspace_mode q); [|done]. intros [= <-]. split; [done|]. cbn. split_and!; [done|done|by right].
Qed.

Lemma leaf_not_delimiter l : leaf_ok l → render_leaf l ≠ "(" ∧ render_leaf l ∉ [")"; ";"; ","].
Proof.
  intros Hl%leaf_reads. assert (∀ t, match_leaf t = None → render_leaf l ≠ t) as Hn by congruence.
  split; [by apply Hn|]. rewrite !not_elem_of_cons. split_and!; [by apply Hn..|apply not_elem_of_nil].
Qed.

Lemma reads_tree n : layout_ok n → read_in horizontal n ∧ read_in vertical n.
Proof.
  unfold layout_ok. induction n as [l|k l IHl r IHr]; intros Hok.
  - assert (leaf_ok l) as Hl by (by apply Forall_cons in Hok as [Hl _]).
    destruct (leaf_not_delimiter _ Hl) as [H1 H2].
    assert (∀ rest, reads (λ f, parse_primary f (render_leaf l :: rest)) (Ok (Leaf l, rest))) as Hp
      by (intros rest; apply reads_leaf; [by apply leaf_reads|done|done]).
    split; [|by apply read_operand_vertical].
    apply read_operand_horizontal; [done|]. intros rest Hrest.
    eapply reads_vertical; [apply Hp|by apply reads_vertical_end].
  - cbn [iter_leaves] in Hok. apply Forall_app in Hok as [Hl Hr].
    destruct (IHl Hl) as [Lh Lv], (IHr Hr) as [Rh Rv]. destruct k.
    + assert (read_in horizontal (Branch horizontal l r)) as Hh by by apply read_chain.
      split; [exact Hh|]. apply read_operand_vertical.
      { unfold lean_left. cbn [parts]. destruct (parts vertical l), (parts vertical r).
        cbn. destruct (parts horizontal l), (parts horizontal r). done. }
      intros rest. unfold tokens_in. cbn [needs_parens precedence Nat.ltb Nat.leb grouped].
      cbn [app]. apply reads_parens. rewrite <- app_assoc. cbn [app].
      assert (lean_left (Branch horizontal l r) = chain horizontal (parts horizontal (Branch horizontal l r)).2
        (parts horizontal (Branch horizontal l r)).1) as -> by (unfold lean_left; by destruct (parts _ _)).
      destruct (Hh (")" :: rest) (Ok (chain horizontal (parts horizontal (Branch horizontal l r)).2
        (parts horizontal (Branch horizontal l r)).1, ")" :: rest))) as [Hp _]; [done|].
      apply Hp. by apply reads_horizontal_end.
    + assert (read_in vertical (Branch vertical l r)) as Hv by by apply read_chain.
      split; [|exact Hv]. apply read_operand_horizontal.
      { unfold lean_left. cbn [parts]. destruct (parts horizontal l), (parts horizontal r).
        cbn. destruct (parts vertical l), (parts vertical r). done. }
      intros rest Hrest.
      assert (lean_left (Branch vertical l r) = chain vertical (parts vertical (Branch vertical l r)).2
        (parts vertical (Branch vertical l r)).1) as -> by (unfold lean_left; by destruct (parts _ _)).
      destruct (Hv rest (Ok (chain vertical (parts vertical (Branch vertical l r)).2
        (parts vertical (Branch vertical l r)).1, rest))) as [Hp _]; [done|].
      apply Hp. by apply reads_vertical_end.
Qed.

(** ** The tokens of a rendered tree *)
Definition plain (c : ascii) : bool := is_name_char c || Ascii.eqb c ":".
Lemma plain_not_space c : plain c = true → is_space c = false.
Proof. by_char c. Qed.
Lemma plain_not_delimiter c : plain c = true → is_delimiter c = false.
Proof. by_char c. Qed.
Lemma plain_not_paren c : plain c = true → Ascii.eqb c "(" = false.
Proof. by_char c. Qed.

Lemma tokenize_plain buf w s : string_forallb plain w = true →
  tokenize_line 0 buf (w +:+ s) = tokenize_line 0 (buf +:+ w) s.
Proof.
  revert buf. induction w as [|c w IH]; intros buf; [by rewrite string_app_nil|]. cbn [string_forallb].
  intros [Hc Hw]%andb_prop. change (String c w +:+ s) with (String c (w +:+ s)). cbn [tokenize_line].
  rewrite (plain_not_paren c Hc), (plain_not_delimiter c Hc). cbn [andb]. rewrite IH by done.
  by rewrite string_app_assoc.
Qed.

(** What follows an operand in a rendered tree. *)
Definition ends_leaf (s : string) : Prop :=
  match s with "" => True | String c _ => is_delimiter c = true ∧ c ≠ "("%char end.
Lemma tokenize_end buf s : ends_leaf s → tokenize_line 0 buf s = leaf_token buf ++ tokenize_line 0 "" s.
Proof.
  destruct s as [|c s]; [by rewrite app_nil_r|]. intros [Hc Hne]. cbn [tokenize_line].
  assert (Ascii.eqb c "(" = false) as -> by by apply Ascii.eqb_neq. cbn [andb]. by rewrite Hc.
Qed.

Definition blank (buf : string) : Prop := buf = "" ∨ buf = " ".
Lemma strip_blank buf w : blank buf → strip (buf +:+ w) = strip w.
Proof. by intros [-> | ->]. Qed.
Lemma strip_blank_empty buf : blank buf → strip buf = "".
Proof. by intros [-> | ->]. Qed.

Lemma render_leaf_shape l : leaf_ok l →
  string_forallb plain (lf_name l) = true ∧ lf_name l ≠ "" ∧
  ∃ w, string_forallb plain w = true ∧ w ≠ "" ∧
    (render_leaf l = w ∨ render_leaf l = w +:+ "(worktree)").
Proof.
  intros [Hn Hp]. destruct (agent_name_pattern_chars _ Hn) as [Hne Hnc].
  assert (∀ s, string_forallb is_name_char s = true → string_forallb plain s = true) as Hplain.
  { intros s. apply string_forallb_impl. intros c Hc. unfold plain. by rewrite Hc. }
  assert (∀ s t, string_forallb plain (s +:+ t) = string_forallb plain s && string_forallb plain t) as Happ.
  { intros s t. induction s as [|c s IH]; [done|]. change (String c s +:+ t) with (String c (s +:+ t)).
    cbn [string_forallb]. by rewrite IH, andb_assoc. }
  split; [by apply Hplain|]. split; [done|]. unfold render_leaf. destruct (lf_provider l) as [p|]; cbn [default].
  - destruct Hp as (H1 & H2 & _). unfold or_none. rewrite bool_decide_eq_false_2 by done.
    exists (lf_name l +:+ ":" +:+ p). split_and!.
    + by rewrite !Happ, (Hplain _ Hnc), (Hplain _ H2).
    + by apply string_app_nonempty.
    + case_bool_decide; [right|by left]. by rewrite !string_app_assoc.
  - exists (lf_name l). split_and!; [by apply Hplain|done|by left].
Qed.

Lemma no_space_strip w : string_forallb (λ c, negb (is_space c)) w = true → w ≠ "" → leaf_token w = [w].
Proof. intros Hw Hne. unfold leaf_token. rewrite strip_no_space by done. by rewrite bool_decide_eq_false_2. Qed.
Lemma render_leaf_no_space l : leaf_ok l → string_forallb (λ c, negb (is_space c)) (render_leaf l) = true.
Proof.
  intros Hl. destruct (render_leaf_shape l Hl) as (_ & _ & w & Hw & _ & Hr).
  assert (string_forallb (λ c, negb (is_space c)) w = true) as Hw'.
  { apply (string_forallb_impl plain); [|done]. intros c Hc. by rewrite (plain_not_space c Hc). }
  destruct Hr as [-> | ->]; [done|]. clear Hw. induction w as [|c w IH]; [done|].
  cbn [string_forallb] in Hw'. apply andb_prop in Hw' as [Hc Hw']. change (String c w +:+ ?t) with (String c (w +:+ t)).
  cbn [string_forallb]. by rewrite Hc, (IH Hw').
Qed.
Lemma tokenize_leaf l buf s : leaf_ok l → blank buf → ends_leaf s →
  tokenize_line 0 buf (render_leaf l +:+ s) = render_leaf l :: tokenize_line 0 "" s.
Proof.
  intros Hl Hb Hs.
  assert (tokenize_line 0 buf (render_leaf l +:+ s) = tokenize_line 0 (buf +:+ render_leaf l) s) as ->.
  { destruct (render_leaf_shape l Hl) as (_ & _ & w & Hw & Hne & Hr). destruct Hr as [-> | ->].
    - by apply tokenize_plain.
    - rewrite string_app_assoc, tokenize_plain by done.
      change ("(worktree)" +:+ s) with (String "(" ("worktree)" +:+ s)). cbn [tokenize_line].
      assert (strip (buf +:+ w) ≠ "") as Hw'.
      { rewrite strip_blank by done. rewrite strip_no_space; [done|].
        apply (string_forallb_impl plain); [|done]. intros c Hc. by rewrite (plain_not_space c Hc). }
      rewrite bool_decide_eq_false_2 by done.
      change (find_char ")" ("worktree)" +:+ s)) with (Some 8). cbn [Ascii.eqb Bool.eqb andb negb].
      change ("worktree)" +:+ s) with (String "w" (String "o" (String "r" (String "k" (String "t" (String "r"
        (String "e" (String "e" (String ")" s))))))))). cbn [tokenize_line].
      by rewrite !string_app_assoc. }
  rewrite tokenize_end by done.
  assert (leaf_token (buf +:+ render_leaf l) = leaf_token (render_leaf l)) as ->.
  { unfold leaf_token. by rewrite strip_blank. }
  rewrite no_space_strip; [done|by apply render_leaf_no_space|].
  destruct (render_leaf_shape l Hl) as (_ & _ & w & _ & Hne & [-> | ->]); [done|]. by apply string_app_nonempty.
Qed.

Lemma tokenize_delimiter buf c s : blank buf → is_delimiter c = true →
  tokenize_line 0 buf (String c s) = String c "" :: tokenize_line 0 "" s.
Proof.
  intros Hb Hc. cbn [tokenize_line]. rewrite strip_blank_empty by done. rewrite bool_decide_eq_true_2 by done.
  cbn [negb]. rewrite andb_false_r, Hc. unfold leaf_token. by rewrite strip_blank_empty.
Qed.

Lemma tokenize_tree n : layout_ok n → ∀ buf s, blank buf → ends_leaf s →
  tokenize_line 0 buf (render n +:+ s) = tokens_of n ++ tokenize_line 0 "" s.
Proof.
  unfold layout_ok. induction n as [l|k l IHl r IHr]; intros Hok buf s Hb Hs.
  - cbn [render tokens_of app]. apply tokenize_leaf; [|done|done]. by apply Forall_cons in Hok as [Hl _].
  - cbn [iter_leaves] in Hok. apply Forall_app in Hok as [Hl Hr].
    assert (∀ m b, (∀ buf s, blank buf → ends_leaf s →
        tokenize_line 0 buf (render m +:+ s) = tokens_of m ++ tokenize_line 0 "" s) →
      ∀ buf s, blank buf → ends_leaf s →
        tokenize_line 0 buf (parenthesized b (render m) +:+ s) = grouped b (tokens_of m) ++ tokenize_line 0 "" s) as Hgroup.
    { intros m [] Hm buf' s' Hb' Hs'; [|by apply Hm]. cbn [parenthesized grouped]. rewrite !string_app_assoc.
      change ("(" +:+ ?t) with (String "(" t). rewrite tokenize_delimiter by done. change (")" +:+ s') with (String ")" s').
      rewrite Hm by (try done; by left). rewrite tokenize_delimiter by (try done; by left).
      cbn [app]. by rewrite <- app_assoc. }
    cbn [render tokens_of]. rewrite !string_app_assoc.
    rewrite (Hgroup l) by first [done | by apply IHl | by destruct k]. rewrite <- app_assoc. cbn [app]. f_equal.
    assert (∀ t, tokenize_line 0 "" (separator k +:+ " " +:+ t) = separator k :: tokenize_line 0 " " t) as ->.
    { intros t. by destruct k. }
    f_equal. apply Hgroup; [by apply IHr|by right|done].
Qed.

(** ** Text of one line without comments *)
Definition in_layout (c : ascii) : bool := plain c || bool_decide (c ∈ ["("; ")"; ";"; ","; " "]%char).
Lemma string_forallb_app f s t : string_forallb f (s +:+ t) = string_forallb f s && string_forallb f t.
Proof.
  induction s as [|c s IH]; [done|]. change (String c s +:+ t) with (String c (s +:+ t)).
  cbn [string_forallb]. by rewrite IH, andb_assoc.
Qed.
Lemma in_layout_no_break c : in_layout c = true → is_line_break c = false.
Proof. by_char c. Qed.
Lemma in_layout_no_comment c : in_layout c = true → Ascii.eqb c "#" = false ∧ Ascii.eqb c "/" = false.
Proof. split; revert H; by_char c. Qed.
Lemma one_line s : s ≠ "" → string_forallb in_layout s = true → str_splitlines s = [s].
Proof.
  induction s as [|c s IH]; [done|]. intros _ [Hc Hs]%andb_prop. cbn [str_splitlines].
  rewrite (in_layout_no_break c Hc). destruct s as [|d s]; [done|]. by rewrite IH.
Qed.
Lemma before_absent sep s : (∀ c, in_layout c = true → Ascii.eqb c sep = false) → string_forallb in_layout s = true →
  ∀ t, before (String sep t) s = s.
Proof.
  intros Hsep Hs t. induction s as [|c s IH]; [done|]. cbn [string_forallb] in Hs. apply andb_prop in Hs as [Hc Hs].
  cbn [before String.prefix]. destruct (ascii_dec sep c) as [->|].
  - specialize (Hsep c Hc). by rewrite Ascii.eqb_refl in Hsep.
  - by rewrite IH.
Qed.
Lemma render_in_layout n : layout_ok n → string_forallb in_layout (render n) = true ∧ render n ≠ "".
Proof.
  unfold layout_ok. induction n as [l|k l IHl r IHr]; cbn [iter_leaves]; intros Hok.
  - apply Forall_cons in Hok as [Hl _]. destruct (render_leaf_shape l Hl) as (_ & _ & w & Hw & Hne & Hr).
    assert (string_forallb in_layout w = true) as Hw'.
    { apply (string_forallb_impl plain); [|done]. intros c Hc. unfold in_layout. by rewrite Hc. }
    cbn [render]. destruct Hr as [-> | ->]; [done|]. split; [|by apply string_app_nonempty].
    by rewrite string_forallb_app, Hw'.
  - apply Forall_app in Hok as [Hl Hr]. destruct (IHl Hl) as [Ll Ln], (IHr Hr) as [Rl Rn].
    assert (∀ b s, string_forallb in_layout s = true → string_forallb in_layout (parenthesized b s) = true) as Hp.
    { intros [] s Hs; [|done]. unfold parenthesized. by rewrite !string_forallb_app, Hs. }
    cbn [render]. rewrite !string_forallb_app, !Hp by done. split; [by destruct k|].
    intros Hn. destruct (parenthesized _ (render l)) eqn:E; [|done]. by destruct k.
Qed.

Lemma tokenize_render n : layout_ok n → tokenize (render n) = tokens_of n.
Proof.
  intros Hn. destruct (render_in_layout n Hn) as [Hl Hne]. unfold tokenize. rewrite one_line by done. cbn [fmap list_fmap].
  rewrite (before_absent "#" (render n)) by (try done; intros c Hc; by apply in_layout_no_comment).
  rewrite (before_absent "/" (render n)) by (try done; intros c Hc; by apply in_layout_no_comment).
  cbn [concat]. rewrite app_nil_r. rewrite <- (string_app_nil (render n)).
  rewrite (tokenize_tree n Hn) by (try done; by left). cbn [tokenize_line].
  unfold leaf_token. change (strip "") with "". rewrite bool_decide_eq_true_2 by done. by rewrite app_nil_r.
Qed.

(** ** Chains *)
Definition text_in (k : branch_kind) (n : LayoutNode) : string := parenthesized (needs_parens k n) (render n).
Definition joined (k : branch_kind) (ns : list LayoutNode) (s : string) : string :=
  foldl (λ s n, s +:+ separator k +:+ " " +:+ text_in k n) s ns.
Lemma joined_append k ns s t : joined k ns (s +:+ t) = s +:+ joined k ns t.
Proof.
  revert t. induction ns as [|n ns IH]; intros t; [done|]. cbn [joined foldl]. rewrite string_app_assoc. apply IH.
Qed.
Lemma render_chain k ns l r : render (chain k ns (Branch k l r)) = joined k ns (render (Branch k l r)) ∧
  ∃ l' r', chain k ns (Branch k l r) = Branch k l' r'.
Proof.
  revert l r. induction ns as [|n ns IH]; intros l r; [split; [done|by eexists _, _]|].
  cbn [chain foldl]. destruct (IH (Branch k l r) n) as [IH1 IH2]. split; [|exact IH2].
  unfold chain in IH1. rewrite IH1. cbn [joined foldl]. f_equal. cbn [render needs_parens].
  by rewrite Nat.ltb_irrefl.
Qed.
Lemma render_branch k l r : render (Branch k l r) = text_in k l +:+ separator k +:+ " " +:+ text_in k r.
Proof. done. Qed.

Lemma text_of_parts n k : text_in k n = joined k (parts k n).2 (text_in k (parts k n).1) ∧
  ∀ k' l r, n = Branch k' l r → render (lean_left n) = render n ∧ ∃ l' r', lean_left n = Branch k' l' r'.
Proof.
  revert k. induction n as [l|k' l IHl r IHr]; intros k; [done|].
  assert (∀ k'', text_in k'' l = joined k'' (parts k'' l).2 (text_in k'' (parts k'' l).1)) as Hl by (intros; apply IHl).
  assert (∀ k'', text_in k'' r = joined k'' (parts k'' r).2 (text_in k'' (parts k'' r).1)) as Hr by (intros; apply IHr).
  assert (∃ l' r', lean_left (Branch k' l r) = Branch k' l' r' ∧ render (Branch k' l' r') = render (Branch k' l r))
    as (l' & r' & Hlean & Hrender).
  { unfold lean_left. rewrite parts_branch. rewrite render_branch, Hl, Hr.
    destruct (parts k' l) as [x xs], (parts k' r) as [y ys]. cbn [fst snd].
    assert (∃ a b, chain k' (xs ++ y :: ys) x = Branch k' a b ∧
      render (Branch k' a b) = joined k' (xs ++ y :: ys) (text_in k' x)) as (a & b & Hc & Ht).
    { destruct xs as [|x' xs]; cbn [app chain foldl].
      - destruct (render_chain k' ys x y) as [H1 (a & b & H2)]. exists a, b. split; [exact H2|].
        unfold chain in H1, H2. rewrite H2 in H1. exact H1.
      - destruct (render_chain k' (xs ++ y :: ys) x x') as [H1 (a & b & H2)]. exists a, b. split; [exact H2|].
        unfold chain in H1, H2. rewrite H2 in H1. exact H1. }
    exists a, b. split; [exact Hc|]. rewrite Ht. unfold joined at 1. rewrite foldl_app. cbn [foldl].
    fold (joined k' xs (text_in k' x)). fold (joined k' ys).
    change (foldl ?f ?s ys) with (joined k' ys s). rewrite !joined_append. done. }
  split.
  - destruct (decide (k = k')) as [->|Hk].
    + unfold text_in at 1. cbn [needs_parens]. rewrite Nat.ltb_irrefl. cbn [parenthesized].
      rewrite render_branch, Hl, Hr, parts_branch. cbn [fst snd]. unfold joined at 3. rewrite foldl_app. cbn [foldl].
      change (foldl ?f ?s (parts k' l).2) with (joined k' (parts k' l).2 s).
      change (foldl ?f ?s (parts k' r).2) with (joined k' (parts k' r).2 s). by rewrite !joined_append.
    + assert (parts k (Branch k' l r) = (lean_left (Branch k' l r), [])) as ->.
      { unfold lean_left. rewrite parts_branch. cbn [parts]. destruct (parts k l), (parts k r).
        destruct (parts k' l), (parts k' r). by rewrite decide_False. }
      cbn [fst snd joined foldl]. rewrite Hlean. unfold text_in. by rewrite Hrender.
  - intros k'' l'' r'' [= <- <- <-]. rewrite Hlean. split; [exact Hrender|by eexists _, _].
Qed.

Lemma leaves_chain k ns n : iter_leaves (chain k ns n) = iter_leaves n ++ concat (iter_leaves <$> ns).
Proof.
  revert n. induction ns as [|m ns IH]; intros n; cbn; [by rewrite app_nil_r|].
  unfold chain in IH. rewrite IH. cbn [iter_leaves]. by rewrite <- app_assoc.
Qed.
Lemma leaves_parts k n : iter_leaves (parts k n).1 ++ concat (iter_leaves <$> (parts k n).2) = iter_leaves n.
Proof.
  revert k. induction n as [l|k' l IHl r IHr]; intros k; [done|].
  assert (∀ k'', iter_leaves (parts k'' l).1 ++ concat (iter_leaves <$> ((parts k'' l).2 ++ (parts k'' r).1 :: (parts k'' r).2)) =
    iter_leaves l ++ iter_leaves r) as Hk.
  { intros k''. rewrite fmap_app, concat_app, app_assoc, IHl. by rewrite <- (IHr k''). }
  destruct (decide (k = k')) as [->|Hne]; [by rewrite parts_branch; apply Hk|].
  assert (parts k (Branch k' l r) = (chain k' ((parts k' l).2 ++ (parts k' r).1 :: (parts k' r).2) (parts k' l).1, [])) as ->.
  { cbn [parts]. destruct (parts k' l), (parts k' r). by rewrite decide_False. }
  cbn [fst snd fmap list_fmap concat]. rewrite app_nil_r, leaves_chain. apply Hk.
Qed.
Lemma leaves_lean_left n : iter_leaves (lean_left n) = iter_leaves n.
Proof.
  destruct n as [l|k l r]; [done|]. rewrite <- (leaves_parts k (Branch k l r)) at 1. unfold lean_left.
  destruct (parts k (Branch k l r)) as [x xs]. by rewrite leaves_chain.
Qed.

Lemma render_lean_left n : render (lean_left n) = render n.
Proof. destruct n as [l|k l r]; [done|]. by apply (proj2 (text_of_parts (Branch k l r) k) k l r). Qed.

Lemma parse_rendered n : layout_ok n → parse_layout_spec (render n) = Ok (lean_left n).
Proof.
  intros Hn. unfold parse_layout_spec. rewrite tokenize_render by done.
  assert (reads (λ f, parse_horizontal f (tokens_of n)) (Ok (lean_left n, []))) as [f0 H0].
  { destruct (reads_tree n Hn) as [Hh _].
    assert (tokens_in horizontal n [] = tokens_of n) as Ht.
    { unfold tokens_in. rewrite app_nil_r. by destruct n as [|[] ? ?]. }
    destruct (Hh [] (Ok (chain horizontal (parts horizontal n).2 (parts horizontal n).1, []))) as [Hp _]; [done|].
    rewrite Ht in Hp. assert (chain horizontal (parts horizontal n).2 (parts horizontal n).1 = lean_left n) as Hc.
    { destruct n as [l|k l r]; [done|]. unfold lean_left. destruct (decide (k = horizontal)) as [->|Hk].
      - by destruct (parts horizontal (Branch horizontal l r)).
      - destruct k; [done|]. cbn [parts]. destruct (parts vertical l), (parts vertical r). done. }
    rewrite <- Hc. apply Hp. by apply reads_horizontal_end. }
  assert (tokens_of n ≠ []) as Hne by (destruct n; [done|cbn; by destruct (grouped _ _)]).
  rewrite <- (enough_fuel _ (layout_fuel (tokens_of n) + f0) _ (Nat.le_refl _)) by lia.
  rewrite H0 by lia. by destruct (tokens_of n).
Qed.

(** The leaves of what is parsed. *)
Definition all_leaves_ok (r : result (LayoutNode * list string)) : Prop :=
  match r with Ok (n, _) => layout_ok n | Err _ => True end.
Lemma parsed_leaves fuel :
  (∀ ts, all_leaves_ok (parse_horizontal fuel ts)) ∧
  (∀ n ts, layout_ok n → all_leaves_ok (horizontal_loop fuel n ts)) ∧
  (∀ ts, all_leaves_ok (parse_vertical fuel ts)) ∧
  (∀ n ts, layout_ok n → all_leaves_ok (vertical_loop fuel n ts)) ∧
  (∀ ts, all_leaves_ok (parse_primary fuel ts)).
Proof.
  induction fuel as [|f (IHh & IHhl & IHv & IHvl & IHp)]; [by split_and!|]. split_and!.
  - intros ts. cbn [parse_horizontal]. specialize (IHv ts). destruct (parse_vertical f ts) as [[n rest]|e]; [|done].
    by apply IHhl.
  - intros n ts Hn. cbn [horizontal_loop]. destruct ts as [|t ts]; [done|].
    destruct (decide (t = ";")) as [->|Ht]; [|rewrite not_semicolon by done; done].
    specialize (IHv ts). destruct (parse_vertical f ts) as [[r rest]|e]; [|done]. apply IHhl.
    by apply Forall_app.
  - intros ts. cbn [parse_vertical]. specialize (IHp ts). destruct (parse_primary f ts) as [[n rest]|e]; [|done].
    by apply IHvl.
  - intros n ts Hn. cbn [vertical_loop]. destruct ts as [|t ts]; [done|].
    destruct (decide (t = ",")) as [->|Ht]; [|rewrite not_comma by done; done].
    specialize (IHp ts). destruct (parse_primary f ts) as [[r rest]|e]; [|done]. apply IHvl.
    by apply Forall_app.
  - intros ts. cbn [parse_primary]. destruct ts as [|t ts]; [done|]. case_bool_decide.
    + specialize (IHh ts). destruct (parse_horizontal f ts) as [[n rest]|e]; [|done].
      by repeat case_match.
    + case_bool_decide; [done|]. unfold parse_leaf. destruct (match_leaf t) as [l|] eqn:Hl; [|done].
      cbn. constructor; [|constructor]. by eapply match_leaf_ok.
Qed.

Lemma parse_ok text n : parse_layout_spec text = Ok n → layout_ok n.
Proof.
  unfold parse_layout_spec. destruct (tokenize text) as [|t ts]; [done|].
  destruct (parsed_leaves (layout_fuel (t :: ts))) as (Hh & _). specialize (Hh (t :: ts)).
  destruct (parse_horizontal _ _) as [[m [|u rest]]|e]; [|done|done]. by intros [= <-].
Qed.

(** C30: Layouts are read as they are written.  Every text is either a layout
    or rejected with a [LayoutParseError].  The tree of a layout renders to a
    text that is read back as the same tree with its chains of one kind leaning
    to the left: the same leaves in the same order and the same rendering, so
    rendering is a normal form of the texts. *)
Theorem layouts_read_back text :
  match parse_layout_spec text with
  | Ok n =>
      layout_ok n ∧ parse_layout_spec (render n) = Ok (lean_left n) ∧
      iter_leaves (lean_left n) = iter_leaves n ∧ render (lean_left n) = render n
  | Err e => ∃ m, e = LayoutParseError m
  end.
Proof.
  destruct (parse_layout_spec text) as [n|e] eqn:E.
  - pose proof (parse_ok _ _ E) as Hn. split_and!; [done|by apply parse_rendered|apply leaves_lean_left|apply render_lean_left].
  - unfold parse_layout_spec in E. destruct (tokenize text) as [|t ts]; [injection E as <-; by eexists|].
    destruct (parser_ends (layout_fuel (t :: ts))) as (Hh & _). specialize (Hh (t :: ts)).
    destruct (parse_horizontal _ _) as [[n [|u rest]]|e']; [done|injection E as <-; by eexists|].
    injection E as <-. apply Hh. unfold layout_fuel. lia.
Qed.

(** ** Pruning *)
Lemma prune_leaves include n :
  default [] (iter_leaves <$> prune_node include n) =
    List.filter (λ l, bool_decide (lf_name l ∈ include)) (iter_leaves n).
Proof.
  induction n as [l|k l IHl r IHr]; cbn [prune_node iter_leaves].
  - cbn. by case_bool_decide.
  - rewrite List.filter_app, <- IHl, <- IHr.
    destruct (prune_node include l), (prune_node include r); cbn; by rewrite ?app_nil_r.
Qed.
