(* ===== verification/ProjectConfig.v ===== *)
(** * The project configuration

    [agents/models_runtime/config_runtime/topology.py], [validation.py],
    [project.py], [layout_plan.py] and [agents/config_identity.py]: agents,
    their windows and the sidebar, checked against each other, and the panes a
    start shows. *)
From stdpp Require Import pretty.
From S2P Require Import Prelude PyValue Names AgentModels Layout.
Open Scope string_scope.
Open Scope list_scope.
Open Scope Z_scope.

Definition config_error (msg : string) : exn := AgentValidationError msg.
(** [repr] of a list of strings. *)
Definition list_repr (l : list string) : string := "[" +:+ join ", " (repr_str <$> l) +:+ "]".
Definition has_duplicates (l : list string) : bool := negb (bool_decide (NoDup l)).

(** ** Sidebar *)
Definition SIDEBAR_MODE_EVERY_WINDOW : string := "every_window".
Definition SIDEBAR_MODE_OFF : string := "off".
Definition DEFAULT_SIDEBAR_VIEW_TIPS : list string :=
  [ "C-b d  detach"; "C-b h/j/k/l pane"; "C-b H/J/K/L resize"; "C-b o  next pane"; "C-b z  zoom"; "C-b w  tree";
    "C-b n/p next/prev"; "C-b 0-9 jump win"; "C-b [  copy mode"; "copy: PgUp/PgDn"; "copy: v select";
    "copy: y yank"; "copy: q exit"; "C-b ]  paste"; "C-b c  new win"; "C-b ,  rename"; "C-b ?  keys" ].

(** A size: cells, or a percentage as text. *)
Inductive pane_size := Cells (n : Z) | Percent (n : Z).
#[export] Instance pane_size_eq_dec : EqDecision pane_size.
Proof. solve_decision. Defined.
Definition size_record (s : pane_size) : pyval :=
  match s with Cells n => PInt n | Percent n => PStr (pretty n +:+ "%") end.

(** [str.isdigit] on code points up to U+00FF: the superscripts are digits, too. *)
Definition is_digit_char (c : ascii) : bool :=
  let n := code c in ((48 <=? n)%nat && (n <=? 57)%nat) || bool_decide (n ∈ [178; 179; 185]%nat).
Definition isdigit (s : string) : bool := (s ≠ˢ "") && string_forallb is_digit_char s.
(** [int(s)]. *)
Definition int_of_text (s : string) : result Z := py_int (PStr s).
(** [s[:-1]] of a text that ends with [%]. *)
Fixpoint without_percent (s : string) : option string :=
  match s with
  | "" => None
  | String c s' => if (s' =ˢ "") then (if Ascii.eqb c "%" then Some "" else None)
                   else String c <$> without_percent s'
  end.

(** [str(value or '').strip()]; the text of a number or a container never is a
    size. *)
Definition size_text (v : pyval) : string :=
  match v with PStr s => strip s | PNone => "" | _ => if py_bool v then "?" else "" end.
Definition normalize_sidebar_width (v : pyval) : result pane_size :=
  match v with
  | PBool _ => Err (config_error "ui.sidebar.width must be a positive integer or percentage string")
  | PInt n => if n <=? 0 then Err (config_error "ui.sidebar.width must be positive") else mret (Cells n)
  | _ =>
      let text := size_text v in
      match without_percent text with
      | Some number =>
          let number := strip number in
          if negb (isdigit number) then Err (config_error "ui.sidebar.width percentage must be positive")
          else
            n ← int_of_text number;
            if n <=? 0 then Err (config_error "ui.sidebar.width percentage must be positive")
            else mret (Percent n)
      | None =>
          if isdigit text
          then n ← int_of_text text;
               if 0 <? n then mret (Cells n)
               else Err (config_error "ui.sidebar.width must be a positive integer or percentage string")
          else Err (config_error "ui.sidebar.width must be a positive integer or percentage string")
      end
  end.
Definition normalize_sidebar_view_height (v : pyval) (field_name : string) : result pane_size :=
  let bad := config_error (field_name +:+ " must be a positive integer or percentage string") in
  let bad_percentage := config_error (field_name +:+ " percentage must be between 1% and 99%") in
  match v with
  | PBool _ => Err bad
  | PInt n => if n <=? 0 then Err (config_error (field_name +:+ " must be positive")) else mret (Cells n)
  | _ =>
      let text := size_text v in
      match without_percent text with
      | Some number =>
          let number := strip number in
          if negb (isdigit number) then Err bad_percentage
          else
            n ← int_of_text number;
            if (n <=? 0) || (100 <=? n) then Err bad_percentage else mret (Percent n)
      | None =>
          if isdigit text
          then n ← int_of_text text; if 0 <? n then mret (Cells n) else Err bad
          else Err bad
      end
  end.

Record SidebarSpec := mkSidebar {
  sb_mode : string;
  sb_width : pane_size;
  sb_bottom_height : Z
}.
(** The constructor on the values of a document. *)
Definition sidebar_spec (mode width bottom_height : pyval) : result SidebarSpec :=
  text ← py_str_or_empty mode;
  let mode := strip text in
  _ ← raise_if (negb (bool_decide (mode ∈ [SIDEBAR_MODE_EVERY_WINDOW; SIDEBAR_MODE_OFF])))
        (config_error "ui.sidebar.mode must be every_window or off");
  width ← normalize_sidebar_width width;
  bottom_height ← match py_int bottom_height with
                  | Ok n => mret n
                  | Err _ => Err (config_error "ui.sidebar.bottom_height must be a non-negative integer")
                  end;
  _ ← raise_if (bottom_height <? 0)
        (config_error "ui.sidebar.bottom_height must be a non-negative integer");
  mret (mkSidebar mode width bottom_height).
Definition sidebar_to_record (s : SidebarSpec) : pydict :=
  [ ("mode", PStr (sb_mode s)); ("width", size_record (sb_width s)); ("bottom_height", PInt (sb_bottom_height s)) ].
Definition default_sidebar_spec : SidebarSpec := mkSidebar SIDEBAR_MODE_EVERY_WINDOW (Percent 15) 20.

Record SidebarViewSpec := mkSidebarView {
  sv_agents_height : pane_size;
  sv_comms_height : pane_size;
  sv_tips_height : pane_size;
  sv_comms_limit : Z;
  sv_comms_compact : bool;
  sv_tips_enabled : bool;
  sv_tips : list string
}.
Fixpoint normalize_tips (tips : list string) : result (list string) :=
  match tips with
  | [] => mret []
  | t :: rest =>
      _ ← raise_if (strip t =ˢ "") (config_error "ui.sidebar.view.tips cannot contain empty strings");
      rest' ← normalize_tips rest; mret (strip t :: rest')
  end.
Definition sidebar_view_spec (agents_height comms_height tips_height comms_limit : pyval)
    (comms_compact tips_enabled : bool) (tips : list string) : result SidebarViewSpec :=
  agents_height ← normalize_sidebar_view_height agents_height "ui.sidebar.view.agents_height";
  comms_height ← normalize_sidebar_view_height comms_height "ui.sidebar.view.comms_height";
  tips_height ← normalize_sidebar_view_height tips_height "ui.sidebar.view.tips_height";
  comms_limit ← match py_int comms_limit with
                | Ok n => mret n
                | Err _ => Err (config_error "ui.sidebar.view.comms_limit must be a positive integer")
                end;
  _ ← raise_if (comms_limit <=? 0) (config_error "ui.sidebar.view.comms_limit must be a positive integer");
  tips ← normalize_tips tips;
  mret (mkSidebarView agents_height comms_height tips_height comms_limit comms_compact tips_enabled
          (match tips with [] => DEFAULT_SIDEBAR_VIEW_TIPS | _ => tips end)).
Definition sidebar_view_to_record (s : SidebarViewSpec) : pydict :=
  [ ("agents_height", size_record (sv_agents_height s));
    ("comms_height", size_record (sv_comms_height s));
    ("tips_height", size_record (sv_tips_height s));
    ("comms_limit", PInt (sv_comms_limit s));
    ("comms_compact", PBool (sv_comms_compact s));
    ("tips_enabled", PBool (sv_tips_enabled s));
    ("tips", PList (PStr <$> sv_tips s)) ].
Definition default_sidebar_view_spec : SidebarViewSpec :=
  mkSidebarView (Percent 50) (Percent 15) (Percent 35) 5 true true DEFAULT_SIDEBAR_VIEW_TIPS.

(** ** Windows *)
Fixpoint normalize_names (names : list string) : result (list string) :=
  match names with
  | [] => mret []
  | n :: rest => n' ← normalize_agent_name n; rest' ← normalize_names rest; mret (n' :: rest')
  end.

(** [_WINDOW_NAME_RE.fullmatch]. *)
Definition window_name_pattern (s : string) : bool :=
  match s with "" => false | String c s' => is_alpha c && string_forallb is_name_char s' end.
Definition validate_window_name (value : string) : result string :=
  let name := strip value in
  _ ← raise_if (negb (window_name_pattern name))
        (config_error ("invalid window name " +:+ repr_str name +:+ "; expected ^[A-Za-z][A-Za-z0-9_-]*$"));
  mret name.

Record WindowSpec := mkWindow {
  wn_name : string;
  wn_order : Z;
  wn_layout_spec : string;
  wn_agent_names : list string
}.
#[export] Instance WindowSpec_eq_dec : EqDecision WindowSpec.
Proof. solve_decision. Defined.
Definition window_post_init (w : WindowSpec) : result WindowSpec :=
  name ← validate_window_name (wn_name w);
  let layout_spec := strip (wn_layout_spec w) in
  _ ← raise_if (layout_spec =ˢ "") (config_error ("windows." +:+ name +:+ " layout cannot be empty"));
  agent_names ← normalize_names (wn_agent_names w);
  _ ← raise_if (bool_decide (agent_names = []))
        (config_error ("windows." +:+ name +:+ " must contain at least one agent"));
  _ ← raise_if (has_duplicates agent_names)
        (config_error ("windows." +:+ name +:+ " cannot contain duplicate agents"));
  mret (mkWindow name (wn_order w) layout_spec agent_names).
Definition window_to_record (w : WindowSpec) : pydict :=
  [ ("name", PStr (wn_name w)); ("order", PInt (wn_order w)); ("layout_spec", PStr (wn_layout_spec w));
    ("agent_names", PList (PStr <$> wn_agent_names w)) ].

Definition legacy_main_window (layout_spec : string) (default_agents : list string) : result WindowSpec :=
  layout ← parse_layout_spec layout_spec;
  match prune_layout layout default_agents with
  | None => Err (config_error "legacy layout does not contain any configured agents")
  | Some pruned =>
      leaf_names ← normalize_names (iter_layout_names pruned);
      window_post_init (mkWindow "main" 0 (render pruned) leaf_names)
  end.

(** [_validate_windows] from the window [index] on. *)
Fixpoint validate_windows (index : Z) (windows : list WindowSpec) (seen_windows seen_agents : list string)
    : result (list WindowSpec) :=
  match windows with
  | [] => mret []
  | w :: rest =>
      spec ← window_post_init (mkWindow (wn_name w) index (wn_layout_spec w) (wn_agent_names w));
      _ ← raise_if (bool_decide (wn_name spec ∈ seen_windows))
            (config_error ("duplicate window name: " +:+ wn_name spec));
      _ ← match List.filter (λ n, bool_decide (n ∈ seen_agents)) (wn_agent_names spec) with
          | [] => mret tt
          | n :: _ => Err (config_error ("duplicate agent across windows: " +:+ n))
          end;
      rest' ← validate_windows (index + 1) rest (wn_name spec :: seen_windows) (wn_agent_names spec ++ seen_agents);
      mret (spec :: rest')
  end.
Definition normalize_windows (windows : option (list WindowSpec)) (layout_spec : string) (default_agents : list string)
    : result (list WindowSpec) :=
  match windows with
  | Some (w :: rest) => validate_windows 0 (w :: rest) [] []
  | _ => w ← legacy_main_window layout_spec default_agents; mret [w]
  end.

Definition validate_entry_window (entry_window : option string) (windows : list WindowSpec) : result string :=
  match windows with
  | [] => Err (config_error "at least one window must be configured")
  | first :: _ =>
      value ← validate_window_name (str_or (or_none (strip (default "" entry_window))) (wn_name first));
      _ ← raise_if (negb (bool_decide (value ∈ wn_name <$> windows)))
            (config_error ("entry_window references unknown window: " +:+ value));
      mret value
  end.
(** The order of the unused agents in the message is that of the configuration;
    Python lists them in the order of a set. *)
Definition validate_windows_reference_agents (windows : list WindowSpec) (configured : list string) : result unit :=
  let referenced := concat (wn_agent_names <$> windows) in
  let missing := List.filter (λ n, negb (bool_decide (n ∈ configured))) referenced in
  _ ← raise_if (negb (bool_decide (missing = [])))
        (config_error ("windows reference unknown agents: " +:+ list_repr missing));
  let unused := List.filter (λ n, negb (bool_decide (n ∈ referenced))) configured in
  raise_if (negb (bool_decide (unused = [])))
    (config_error ("configured agents missing from windows: " +:+ list_repr unused)).

Definition topology_signature_payload (windows : list WindowSpec) (entry_window : string) (sidebar : SidebarSpec)
    : pydict :=
  [ ("version", PInt 1);
    ("windows", PList ((λ w, PDict [ ("name", PStr (wn_name w)); ("order", PInt (wn_order w));
                                     ("layout", PStr (wn_layout_spec w));
                                     ("agents", PList (PStr <$> wn_agent_names w)) ]) <$> windows));
    ("entry_window", PStr entry_window);
    ("sidebar", PDict (sidebar_to_record sidebar)) ].

(** ** Agents *)
Abbreviation agents_config := (list (string * AgentSpec)).
Fixpoint normalize_agent_specs_from (agents normalized : agents_config) : result agents_config :=
  match agents with
  | [] => mret normalized
  | (key, spec) :: rest =>
      normalized_key ← normalize_agent_name key;
      _ ← raise_if (bool_decide (normalized_key ∈ normalized.*1))
            (config_error ("duplicate agent " +:+ repr_str normalized_key));
      _ ← raise_if (as_name spec ≠ˢ normalized_key)
            (config_error ("agent key " +:+ repr_str normalized_key +:+ " does not match spec name "
               +:+ repr_str (as_name spec)));
      normalize_agent_specs_from rest (normalized ++ [(normalized_key, spec)])
  end.
Definition normalize_agent_specs (agents : agents_config) : result agents_config :=
  normalized ← normalize_agent_specs_from agents [];
  _ ← raise_if (bool_decide (normalized.*1 = [])) (config_error "at least one agent must be configured");
  mret normalized.
Definition normalize_default_agents (default_agents configured : list string) : result (list string) :=
  defaults ← normalize_names default_agents;
  _ ← raise_if (bool_decide (defaults = [])) (config_error "default_agents cannot be empty");
  _ ← raise_if (has_duplicates defaults) (config_error "default_agents cannot contain duplicates");
  let missing := List.filter (λ n, negb (bool_decide (n ∈ configured))) defaults in
  _ ← raise_if (negb (bool_decide (missing = [])))
        (config_error ("default_agents reference unknown agents: " +:+ list_repr missing));
  mret defaults.

(** ** The layout of a configuration without windows *)
Definition default_layout_spec (default_agents : list string) (agents : agents_config) (cmd_enabled : bool)
    : result string :=
  layout ← build_balanced_layout default_agents (λ n, as_provider <$> od_lookup n agents)
    (λ n, spec ← od_lookup n agents;
          if bool_decide (as_workspace_mode spec = WM_git_worktree) then Some (workspace_mode_value WM_git_worktree)
          else None) cmd_enabled;
  mret (render layout).
Definition parse_resolved_layout (rendered : string) : result LayoutNode :=
  match parse_layout_spec rendered with
  | Ok layout => Ok layout
  | Err e => Err (config_error ("invalid layout_spec: " +:+ exn_text e))
  end.
Definition normalize_layout_leaf_name (name : string) : result string :=
  let token := strip name in
  if lower token =ˢ "cmd" then mret "cmd" else normalize_agent_name token.
Fixpoint normalize_layout_tree (node : LayoutNode) : result LayoutNode :=
  match node with
  | Leaf l =>
      name ← normalize_layout_leaf_name (lf_name l);
      mret (Leaf (mkLeaf name (lf_provider l) (lf_workspace_mode l)))
  | Branch k l r => l' ← normalize_layout_tree l; r' ← normalize_layout_tree r; mret (Branch k l' r')
  end.
Definition same_elements (l1 l2 : list string) : bool :=
  forallb (λ x, bool_decide (x ∈ l2)) l1 && forallb (λ x, bool_decide (x ∈ l1)) l2.
Definition validate_layout_names (layout_names default_agents : list string) (cmd_enabled : bool) : result unit :=
  let expected := default_agents ++ (if cmd_enabled then ["cmd"] else []) in
  _ ← raise_if (negb (same_elements layout_names expected))
        (config_error ("layout_spec must include each configured agent exactly once"
           +:+ (if cmd_enabled then " and cmd" else "")));
  _ ← raise_if (has_duplicates layout_names) (config_error "layout_spec cannot contain duplicate leaves");
  raise_if (cmd_enabled && negb (bool_decide (head layout_names = Some "cmd")))
    (config_error "layout_spec must anchor cmd as the first pane when cmd_enabled=true").
Definition resolve_layout_spec (default_agents : list string) (agents : agents_config) (cmd_enabled : bool)
    (layout_spec : option string) : result string :=
  let rendered := strip (default "" layout_spec) in
  rendered ← (if rendered =ˢ "" then default_layout_spec default_agents agents cmd_enabled else mret rendered);
  parsed ← parse_resolved_layout rendered;
  layout ← normalize_layout_tree parsed;
  _ ← validate_layout_names (iter_layout_names layout) default_agents cmd_enabled;
  mret (render layout).

(** ** [ProjectConfig] *)
Record ProjectConfig := mkConfig {
  pc_version : Z;
  pc_default_agents : list string;
  pc_agents : agents_config;
  pc_cmd_enabled : bool;
  pc_layout_spec : string;
  pc_windows : list WindowSpec;
  pc_entry_window : string;
  pc_sidebar : SidebarSpec;
  pc_sidebar_view : SidebarViewSpec;
  pc_source_path : option string;
  pc_windows_explicit : bool
}.
(** The constructor. *)
Definition project_config (version : Z) (default_agents : list string) (agents : agents_config) (cmd_enabled : bool)
    (layout_spec : option string) (windows : option (list WindowSpec)) (entry_window : option string)
    (sidebar : option SidebarSpec) (sidebar_view : option SidebarViewSpec) (source_path : option string)
    (windows_explicit : option bool) : result ProjectConfig :=
  _ ← raise_if (negb (version =? agent_schema_version)) (config_error ("version must be " +:+ pretty agent_schema_version));
  normalized_agents ← normalize_agent_specs agents;
  defaults ← normalize_default_agents default_agents normalized_agents.*1;
  let explicit_windows := match windows_explicit with
                          | Some b => b
                          | None => match windows with Some _ => true | None => false end
                          end in
  rendered_layout ←
    (if explicit_windows then
       let rendered := strip (str_or layout_spec
                         (match windows with Some (w :: _) => wn_layout_spec w | _ => "" end)) in
       _ ← raise_if (rendered =ˢ "") (config_error "layout_spec cannot be empty when windows are configured");
       mret rendered
     else resolve_layout_spec defaults normalized_agents cmd_enabled layout_spec);
  let sidebar := default default_sidebar_spec sidebar in
  let sidebar_view := default default_sidebar_view_spec sidebar_view in
  windows ← normalize_windows windows rendered_layout defaults;
  _ ← validate_windows_reference_agents windows normalized_agents.*1;
  entry_window ← validate_entry_window entry_window windows;
  mret (mkConfig version defaults normalized_agents cmd_enabled rendered_layout windows entry_window sidebar
          sidebar_view source_path explicit_windows).

(** [hashlib.sha256] over [json.dumps(payload, sort_keys=True)]. *)
Class SignatureLib := signature_of : pydict → string.
Definition config_to_record `{SignatureLib} (c : ProjectConfig) : pydict :=
  let payload := topology_signature_payload (pc_windows c) (pc_entry_window c) (pc_sidebar c) in
  [ ("schema_version", PInt agent_schema_version);
    ("record_type", PStr "project_config");
    ("version", PInt (pc_version c));
    ("default_agents", PList (PStr <$> pc_default_agents c));
    ("agents", PDict ((λ ns, (ns.1, PDict (spec_to_record ns.2))) <$> pc_agents c));
    ("cmd_enabled", PBool (pc_cmd_enabled c));
    ("layout_spec", PStr (pc_layout_spec c));
    ("windows", PList ((λ w, PDict (window_to_record w)) <$> pc_windows c));
    ("entry_window", PStr (pc_entry_window c));
    ("sidebar", PDict (sidebar_to_record (pc_sidebar c)));
    ("sidebar_view", PDict (sidebar_view_to_record (pc_sidebar_view c)));
    ("windows_explicit", PBool (pc_windows_explicit c));
    ("topology_signature_payload", PDict payload);
    ("topology_signature", PStr (signature_of payload));
    ("source_path", of_opt_str (pc_source_path c)) ].

(** [config_identity.py]. *)
Definition project_config_identity `{SignatureLib} (c : ProjectConfig) : list string * string :=
  let canonical := foldr dpop (config_to_record c) ["sidebar_view"; "source_path"; "record_type"; "schema_version"] in
  let strip_spec v := match v with
                      | PDict d => PDict (dpop "record_type" (dpop "schema_version" d))
                      | _ => v
                      end in
  let canonical := dset "agents" (match dget "agents" canonical with
                                  | PDict agents => PDict ((λ ns, (ns.1, strip_spec ns.2)) <$> agents)
                                  | v => v
                                  end) canonical in
  (sorted_strings (pc_agents c).*1, signature_of canonical).

(** ** The panes of a start *)
Record ProjectLayoutPlan := mkLayoutPlan {
  lp_target_agent_names : list string;
  lp_visible_leaf_names : list string;
  lp_layout : LayoutNode;
  lp_signature : string;
  lp_cmd_enabled : bool
}.
Fixpoint select_requested (known requested selected : list string) : result (list string) :=
  match requested with
  | [] => mret selected
  | item :: rest =>
      lowered ← normalize_agent_name item;
      _ ← raise_if (negb (bool_decide (lowered ∈ known))) (config_error ("unknown agent: " +:+ item));
      select_requested known rest (if bool_decide (lowered ∈ selected) then selected else selected ++ [lowered])
  end.
Definition select_project_layout_targets (c : ProjectConfig) (requested_agents : list string) : result (list string) :=
  match requested_agents with
  | [] => mret (pc_default_agents c)
  | _ => select_requested (pc_agents c).*1 (strip <$> requested_agents) []
  end.
Definition layout_source (c : ProjectConfig) : string :=
  if pc_windows_explicit c then join "; " (wn_layout_spec <$> pc_windows c) else pc_layout_spec c.
Definition build_project_layout_plan (c : ProjectConfig) (requested_agents : list string)
    (target_agent_names : option (list string)) : result ProjectLayoutPlan :=
  targets ← match target_agent_names with
            | Some names => normalize_names names
            | None => select_project_layout_targets c requested_agents
            end;
  layout ← parse_layout_spec (layout_source c);
  match prune_layout layout ((if pc_cmd_enabled c then ["cmd"] else []) ++ targets) with
  | None => Err (config_error "layout_spec does not include any visible panes for the requested start")
  | Some pruned =>
      let visible := iter_layout_names pruned in
      _ ← raise_if (pc_cmd_enabled c && negb (bool_decide (take 1 visible = ["cmd"])))
            (config_error "pruned layout must retain cmd as the first visible pane");
      mret (mkLayoutPlan targets visible pruned (render pruned) (pc_cmd_enabled c))
  end.
Definition project_layout_signature (c : ProjectConfig) (requested_agents : list string)
    (target_agent_names : option (list string)) : result string :=
  plan ← build_project_layout_plan c requested_agents target_agent_names; mret (lp_signature plan).
