(* ===== verification/ConfigLoader.v ===== *)
(** * Loading a project configuration

    [agents/config_loader_runtime]: the checks of a document
    ([parsing_runtime]), the compact and hybrid notations
    ([io_runtime/documents.py]) and the default configuration. *)
From stdpp Require Import pretty.
From S2P Require Import Prelude PyValue Names AgentModels Layout ProjectConfig.
Open Scope string_scope.
Open Scope list_scope.
Open Scope Z_scope.

Definition invalid (msg : string) : exn := ConfigValidationError msg.
(** [except AgentValidationError as exc: raise ConfigValidationError(str(exc))]. *)
Definition as_config_error {A} (r : result A) : result A :=
  match r with Err (AgentValidationError m) => Err (invalid m) | _ => r end.
(** The subclasses of [ValueError] among the exceptions of the loader. *)
Definition value_error_text (e : exn) : option string :=
  match e with
  | ValueError m | AgentValidationError m | LayoutParseError m | ConfigValidationError m => Some m
  | _ => None
  end.

(** ** Expectations *)
Definition expect_mapping (v : pyval) (field_name : string) : result pydict :=
  match v with PDict d => mret d | _ => Err (invalid (field_name +:+ " must be a table/object")) end.
Definition expect_string (v : pyval) (field_name : string) : result string :=
  match v with
  | PStr s => _ ← raise_if (strip s =ˢ "") (invalid (field_name +:+ " cannot be empty")); mret (strip s)
  | _ => Err (invalid (field_name +:+ " must be a string"))
  end.
Definition expect_bool (v : pyval) (field_name : string) : result bool :=
  match v with PBool b => mret b | _ => Err (invalid (field_name +:+ " must be a boolean")) end.
Fixpoint expect_strings (l : list pyval) (index : Z) (field_name : string) : result (list string) :=
  match l with
  | [] => mret []
  | v :: rest =>
      let item := field_name +:+ "[" +:+ pretty index +:+ "]" in
      s ← match v with PStr s => mret s | _ => Err (invalid (item +:+ " must be a string")) end;
      _ ← raise_if (strip s =ˢ "") (invalid (item +:+ " cannot be empty"));
      rest' ← expect_strings rest (index + 1) field_name; mret (strip s :: rest')
  end.
Definition expect_string_list (v : pyval) (field_name : string) : result (list string) :=
  match v with
  | PList l => expect_strings l 0 field_name
  | _ => Err (invalid (field_name +:+ " must be a list of strings"))
  end.
Fixpoint expect_string_entries (d : pydict) (field_name : string) : result strdict :=
  match d with
  | [] => mret []
  | (k, v) :: rest =>
      s ← match v with PStr s => mret s | _ => Err (invalid (field_name +:+ "." +:+ k +:+ " must be a string")) end;
      rest' ← expect_string_entries rest field_name; mret ((k, s) :: rest')
  end.
Definition expect_string_mapping (v : pyval) (field_name : string) : result strdict :=
  match v with
  | PDict d => expect_string_entries d field_name
  | _ => Err (invalid (field_name +:+ " must be a table of strings"))
  end.
(** [expect(raw[k]) if raw.get(k) is not None else None]. *)
Definition optional_string (raw : pydict) (k field_name : string) : result (option string) :=
  match dget k raw with PNone => mret None | v => s ← expect_string v field_name; mret (Some s) end.

Definition unknown_fields (d : pydict) (allowed : list string) : list string :=
  sorted_strings (List.filter (λ k, negb (bool_decide (k ∈ allowed))) d.*1).
Definition reject_unknown (d : pydict) (allowed : list string) (prefix : string) : result unit :=
  match unknown_fields d allowed with
  | [] => mret tt
  | unknown => Err (invalid (prefix +:+ join ", " unknown))
  end.

Definition ALLOWED_TOP_LEVEL_KEYS : list string :=
  ["version"; "default_agents"; "agents"; "cmd_enabled"; "layout"; "ui"; "windows"; "entry_window"].
Definition ALLOWED_PROVIDER_PROFILE_KEYS : list string :=
  ["mode"; "home"; "env"; "inherit_api"; "inherit_auth"; "inherit_config"; "inherit_skills"; "inherit_commands";
   "inherit_memory"].
Definition ALLOWED_AGENT_KEYS : list string :=
  ["provider"; "target"; "workspace_mode"; "workspace_root"; "runtime_mode"; "restore"; "permission";
   "queue_policy"; "model"; "key"; "url"; "startup_args"; "env"; "api"; "provider_profile"; "branch_template";
   "labels"; "description"; "watch_paths"].

(** ** API keys of an agent *)
Definition ALLOWED_AGENT_API_KEYS : list string := ["key"; "url"].
Definition normalize_agent_api_field (agent_name raw_key : string) : result string :=
  let normalized := lower (strip raw_key) in
  _ ← raise_if (negb (bool_decide (normalized ∈ ALLOWED_AGENT_API_KEYS)))
        (invalid ("agents." +:+ agent_name +:+ ".api contains unknown fields: " +:+ raw_key +:+ "; allowed: key, url"));
  mret normalized.
Fixpoint parse_api_entries (agent_name : string) (raw : pydict) (parsed : strdict) : result strdict :=
  match raw with
  | [] => mret parsed
  | (raw_key, raw_value) :: rest =>
      field_name ← normalize_agent_api_field agent_name raw_key;
      _ ← raise_if (bool_decide (field_name ∈ parsed.*1))
            (invalid ("agents." +:+ agent_name +:+ ".api contains duplicate field: " +:+ field_name));
      value ← expect_string raw_value ("agents." +:+ agent_name +:+ ".api." +:+ field_name);
      parse_api_entries agent_name rest (parsed ++ [(field_name, value)])
  end.
Definition parse_agent_api (agent_name : string) (value : pyval) : result AgentApiSpec :=
  raw ← expect_mapping value ("agents." +:+ agent_name +:+ ".api");
  parsed ← parse_api_entries agent_name raw [];
  let api := api_post_init (mkApi (od_lookup "key" parsed) (od_lookup "url" parsed)) in
  _ ← raise_if (bool_decide (api = no_api))
        (invalid ("agents." +:+ agent_name +:+ ".api must define at least one of: key, url"));
  mret api.
Definition is_none_value (v : pyval) : bool := match v with PNone => true | _ => false end.
Definition parse_agent_api_shortcut (agent_name : string) (raw_agent : pydict) : result AgentApiSpec :=
  let has_nested_api := negb (is_none_value (dget "api" raw_agent)) in
  let has_flat_api := negb (is_none_value (dget "key" raw_agent)) || negb (is_none_value (dget "url" raw_agent)) in
  _ ← raise_if (has_nested_api && has_flat_api)
        (invalid ("agents." +:+ agent_name +:+ ".key/url cannot be combined with agents." +:+ agent_name +:+ ".api"));
  if has_nested_api then parse_agent_api agent_name (dget "api" raw_agent)
  else if negb has_flat_api then mret no_api
  else
    key ← optional_string raw_agent "key" ("agents." +:+ agent_name +:+ ".key");
    url ← optional_string raw_agent "url" ("agents." +:+ agent_name +:+ ".url");
    mret (api_post_init (mkApi key url)).

(** ** Provider profiles *)
Definition profile_flag (raw : pydict) (agent_name k : string) : result bool :=
  match dict_lookup k raw with
  | Some v => expect_bool v ("agents." +:+ agent_name +:+ ".provider_profile." +:+ k)
  | None => mret true
  end.
Definition parse_provider_profile (agent_name : string) (value : pyval) : result ProviderProfileSpec :=
  let field k := "agents." +:+ agent_name +:+ ".provider_profile." +:+ k in
  raw ← expect_mapping value ("agents." +:+ agent_name +:+ ".provider_profile");
  _ ← reject_unknown raw ALLOWED_PROVIDER_PROFILE_KEYS
        ("agents." +:+ agent_name +:+ ".provider_profile contains unknown fields: ");
  match
    (mode ← match dget "mode" raw with PNone => mret "inherit" | v => expect_string v (field "mode") end;
     home ← optional_string raw "home" (field "home");
     env ← expect_string_mapping (dget_or "env" (PDict []) raw) (field "env");
     inherit_api ← profile_flag raw agent_name "inherit_api";
     inherit_auth ← profile_flag raw agent_name "inherit_auth";
     inherit_config ← profile_flag raw agent_name "inherit_config";
     inherit_skills ← profile_flag raw agent_name "inherit_skills";
     inherit_commands ← profile_flag raw agent_name "inherit_commands";
     inherit_memory ← profile_flag raw agent_name "inherit_memory";
     provider_profile_post_init (mkProfile mode home env inherit_api inherit_auth inherit_config inherit_skills
                                   inherit_commands inherit_memory))
  with
  | Ok p => Ok p
  | Err e => match value_error_text e with
             | Some m => Err (invalid ("agents." +:+ agent_name +:+ ".provider_profile: " +:+ m))
             | None => Err e
             end
  end.

(** ** The API shortcut *)
Definition PROVIDER_API_SHORTCUT_ENV : list (string * (string * string)) :=
  [ ("codex", ("OPENAI_API_KEY", "OPENAI_BASE_URL"));
    ("claude", ("ANTHROPIC_API_KEY", "ANTHROPIC_BASE_URL"));
    ("gemini", ("GEMINI_API_KEY", "GOOGLE_GEMINI_BASE_URL")) ].
Definition supported_provider_api_shortcuts : list string := ["claude"; "codex"; "gemini"].
Definition API_ENV_KEYS : list (string * list string) :=
  [ ("codex", ["OPENAI_API_KEY"; "OPENAI_BASE_URL"; "OPENAI_API_BASE"; "OPENAI_ORG_ID"; "OPENAI_ORGANIZATION"]);
    ("claude", ["ANTHROPIC_API_KEY"; "ANTHROPIC_AUTH_TOKEN"; "ANTHROPIC_BASE_URL"]);
    ("gemini", ["GEMINI_API_KEY"; "GEMINI_MODEL"; "GOOGLE_API_KEY"; "GOOGLE_API_BASE"; "GOOGLE_GEMINI_BASE_URL";
                "GOOGLE_VERTEX_BASE_URL"; "GOOGLE_GENAI_USE_VERTEXAI"; "GOOGLE_GENAI_USE_GCA"; "GOOGLE_CLOUD_PROJECT";
                "GOOGLE_CLOUD_LOCATION"; "GOOGLE_APPLICATION_CREDENTIALS"]) ].
Definition provider_api_env_keys (provider : string) : list string :=
  default [] (od_lookup (lower (strip provider)) API_ENV_KEYS).

(** [urllib.parse]: the parts of a URL, when [urlsplit] does not raise. *)
Record url_parts := mkUrl { url_scheme : string; url_netloc : string; url_path : string; url_query : string;
                            url_fragment : string }.
Class UrlLib := { urlsplit : string → option url_parts; urlunsplit : url_parts → string }.

Section api_shortcut.
Context `{UrlLib}.
Definition normalized_shortcut_url (provider url : string) : string :=
  if provider ≠ˢ "codex" then url
  else match urlsplit url with
       | None => url
       | Some p =>
           if (url_scheme p =ˢ "") || (url_netloc p =ˢ "") then url
           else
             let path := if bool_decide (url_path p ∈ [""; "/"; "/v1/"]) then "/v1" else url_path p in
             urlunsplit (mkUrl (url_scheme p) (url_netloc p) path (url_query p) (url_fragment p))
       end.
Definition provider_api_shortcut_env (provider : string) (key url : option string) : result strdict :=
  let normalized_provider := lower (strip provider) in
  match od_lookup normalized_provider PROVIDER_API_SHORTCUT_ENV with
  | None => Err (ValueError ("api shortcut is supported only for providers: "
                  +:+ join ", " supported_provider_api_shortcuts))
  | Some (key_name, url_name) =>
      let key := strip (default "" key) in
      let url := strip (default "" url) in
      mret ((if key =ˢ "" then [] else [(key_name, key)]) ++
            (if url =ˢ "" then [] else [(url_name, normalized_shortcut_url normalized_provider url)]))
  end.

Definition ensure_no_api_env_conflict (agent_name source : string) (env_map : strdict) (api_env_keys : list string)
    : result unit :=
  match sorted_strings (List.filter (λ k, bool_decide (k ∈ api_env_keys)) env_map.*1) with
  | [] => mret tt
  | overlap => Err (invalid ("agents." +:+ agent_name +:+ ".key/url cannot be mixed with provider API env in "
                      +:+ source +:+ ": " +:+ join ", " overlap))
  end.
Definition apply_agent_api_shortcut (agent_name provider : string) (env : strdict) (api : AgentApiSpec)
    (profile : ProviderProfileSpec) (raw_provider_profile : pyval) : result ProviderProfileSpec :=
  let prefix := "agents." +:+ agent_name in
  let api_env_keys := provider_api_env_keys provider in
  _ ← raise_if (bool_decide (api_env_keys = []))
        (invalid (prefix +:+ ".key/url is supported only for providers: "
           +:+ join ", " supported_provider_api_shortcuts));
  _ ← ensure_no_api_env_conflict agent_name (prefix +:+ ".env") env api_env_keys;
  _ ← ensure_no_api_env_conflict agent_name (prefix +:+ ".provider_profile.env") (pf_env profile) api_env_keys;
  raw_profile ← match raw_provider_profile with
                | PNone => mret []
                | v => expect_mapping v (prefix +:+ ".provider_profile")
                end;
  let given k := match dict_lookup k raw_profile with Some _ => true | None => false end in
  let conflict k tail := invalid (prefix +:+ ".key/url cannot be combined with " +:+ prefix
                                    +:+ ".provider_profile." +:+ k +:+ " = true" +:+ tail) in
  _ ← raise_if (given "inherit_api" && pf_inherit_api profile) (conflict "inherit_api" "");
  _ ← raise_if ((provider =ˢ "codex") && given "inherit_config" && pf_inherit_config profile)
        (conflict "inherit_config" " for codex");
  _ ← raise_if ((truthy (api_key api) || truthy (api_url api)) && given "inherit_auth" && pf_inherit_auth profile)
        (conflict "inherit_auth" "");
  api_env ← match provider_api_shortcut_env provider (api_key api) (api_url api) with
            | Ok e => mret e
            | Err e => match value_error_text e with
                       | Some m => Err (invalid (prefix +:+ ".key/url: " +:+ m))
                       | None => Err e
                       end
            end;
  provider_profile_post_init
    (mkProfile (pf_mode profile) (pf_home profile) (od_update api_env (pf_env profile)) false false
       (if provider =ˢ "codex" then false else pf_inherit_config profile) (pf_inherit_skills profile)
       (pf_inherit_commands profile) (pf_inherit_memory profile)).

(** ** Agents *)
Definition validate_provider_profile_runtime_home (agent_name provider : string) (profile : ProviderProfileSpec)
    : result unit :=
  raise_if (negb (lower (strip provider) =ˢ "codex") && match pf_home profile with Some _ => true | None => false end)
    (invalid ("agents." +:+ agent_name
       +:+ ".provider_profile.home is supported only for codex runtime_home overrides")).
Definition enum_field {A} (cls : string) (value : A → string) (members : list A) (raw : pydict) (k field_name : string)
    : result A :=
  s ← expect_string (dget k raw) field_name; enum_of cls value members s.
Definition build_agent_spec (agent_name : string) (raw : pydict) : result AgentSpec :=
  let field k := "agents." +:+ agent_name +:+ "." +:+ k in
  _ ← reject_unknown raw ALLOWED_AGENT_KEYS ("agents." +:+ agent_name +:+ " contains unknown fields: ");
  provider ← expect_string (dget "provider" raw) (field "provider");
  env ← expect_string_mapping (dget_or "env" (PDict []) raw) (field "env");
  api ← parse_agent_api_shortcut agent_name raw;
  profile ← match dget "provider_profile" raw with
            | PNone => mret default_provider_profile
            | v => parse_provider_profile agent_name v
            end;
  _ ← validate_provider_profile_runtime_home agent_name provider profile;
  profile ← (if bool_decide (api = no_api) then mret profile
             else apply_agent_api_shortcut agent_name provider env api profile (dget "provider_profile" raw));
  match
    (target ← expect_string (dget "target" raw) (field "target");
     workspace_mode ← enum_field "WorkspaceMode" workspace_mode_value workspace_modes raw "workspace_mode"
                        (field "workspace_mode");
     workspace_root ← optional_string raw "workspace_root" (field "workspace_root");
     runtime_text ← expect_string (dget_or "runtime_mode" (PStr (runtime_mode_value RM_pane_backed)) raw)
                      (field "runtime_mode");
     runtime_mode ← normalize_runtime_mode runtime_text;
     restore_default ← enum_field "RestoreMode" restore_mode_value restore_modes raw "restore" (field "restore");
     permission_default ← enum_field "PermissionMode" permission_mode_value permission_modes raw "permission"
                            (field "permission");
     queue_text ← py_str (py_or (dget "queue_policy" raw) (PStr (queue_policy_value QP_serial_per_agent)));
     queue_policy ← enum_of "QueuePolicy" queue_policy_value queue_policies queue_text;
     model ← optional_string raw "model" (field "model");
     startup_args ← expect_string_list (dget_or "startup_args" (PList []) raw) (field "startup_args");
     branch_template ← optional_string raw "branch_template" (field "branch_template");
     labels ← expect_string_list (dget_or "labels" (PList []) raw) (field "labels");
     description ← optional_string raw "description" (field "description");
     watch_paths ← expect_string_list (dget_or "watch_paths" (PList []) raw) (field "watch_paths");
     spec_post_init (mkSpec agent_name provider target workspace_mode workspace_root runtime_mode restore_default
                       permission_default queue_policy model startup_args env api profile branch_template labels
                       description watch_paths))
  with
  | Ok s => Ok s
  | Err (AgentValidationError m) => Err (invalid m)
  | Err e => match value_error_text e with
             | Some m => Err (invalid ("agents." +:+ agent_name +:+ ": " +:+ m))
             | None => Err e
             end
  end.
Fixpoint parse_agent_entries (raw : pydict) (parsed : agents_config) : result agents_config :=
  match raw with
  | [] => mret parsed
  | (raw_name, raw_spec) :: rest =>
      name ← as_config_error (normalize_agent_name raw_name);
      _ ← raise_if (bool_decide (name ∈ parsed.*1))
            (invalid ("duplicate agent name after normalization: " +:+ name));
      d ← expect_mapping raw_spec ("agents." +:+ raw_name);
      spec ← build_agent_spec name d;
      parse_agent_entries rest (parsed ++ [(name, spec)])
  end.
Definition parse_agents (raw_agents : pyval) : result agents_config :=
  raw ← expect_mapping raw_agents "agents"; parse_agent_entries raw [].

(** ** Sidebar *)
Definition parse_sidebar (raw_ui : pyval) : result (option SidebarSpec) :=
  match raw_ui with
  | PNone => mret None
  | _ =>
      ui ← expect_mapping raw_ui "ui";
      _ ← reject_unknown ui ["sidebar"] "ui contains unknown fields: ";
      match dget "sidebar" ui with
      | PNone => mret None
      | v =>
          sidebar ← expect_mapping v "ui.sidebar";
          _ ← reject_unknown sidebar ["mode"; "width"; "bottom_height"; "view"]
                "ui.sidebar contains unknown fields: ";
          s ← as_config_error (sidebar_spec (dget_or "mode" (PStr "every_window") sidebar)
                                 (dget_or "width" (PStr "15%") sidebar)
                                 (dget_or "bottom_height" (PInt 20) sidebar));
          mret (Some s)
      end
  end.
Definition parse_sidebar_view (raw_ui : pyval) : result (option SidebarViewSpec) :=
  match raw_ui with
  | PNone => mret None
  | _ =>
      ui ← expect_mapping raw_ui "ui";
      match dget "sidebar" ui with
      | PNone => mret None
      | v =>
          sidebar ← expect_mapping v "ui.sidebar";
          match dget "view" sidebar with
          | PNone => mret None
          | w =>
              view ← expect_mapping w "ui.sidebar.view";
              _ ← reject_unknown view ["agents_height"; "comms_height"; "tips_height"; "comms_limit";
                                       "comms_compact"; "tips_enabled"; "tips"]
                    "ui.sidebar.view contains unknown fields: ";
              s ← as_config_error
                (compact ← expect_bool (dget_or "comms_compact" (PBool true) view) "ui.sidebar.view.comms_compact";
                 enabled ← expect_bool (dget_or "tips_enabled" (PBool true) view) "ui.sidebar.view.tips_enabled";
                 tips ← expect_string_list (dget_or "tips" (PList (PStr <$> DEFAULT_SIDEBAR_VIEW_TIPS)) view)
                          "ui.sidebar.view.tips";
                 sidebar_view_spec (dget_or "agents_height" (PStr "50%") view)
                   (dget_or "comms_height" (PStr "15%") view) (dget_or "tips_height" (PStr "35%") view)
                   (dget_or "comms_limit" (PInt 5) view) compact enabled tips);
              mret (Some s)
          end
      end
  end.

(** ** Windows *)
Fixpoint window_leaf_names (raw_name : string) (leaves : list LayoutLeaf) (seen names : list string)
    : result (list string * list string) :=
  match leaves with
  | [] => mret (names, seen)
  | leaf :: rest =>
      _ ← raise_if (lower (strip (lf_name leaf)) =ˢ "cmd") (invalid "cmd is not supported in windows topology");
      _ ← raise_if (match lf_provider leaf with None => true | Some _ => false end)
            (invalid ("windows." +:+ raw_name +:+ ": agent leaf " +:+ repr_str (lf_name leaf)
               +:+ " must declare a provider"));
      name ← normalize_agent_name (lf_name leaf);
      _ ← raise_if (bool_decide (name ∈ seen)) (invalid ("duplicate agent across windows: " +:+ name));
      window_leaf_names raw_name rest (name :: seen) (names ++ [name])
  end.
(** The window and the agents seen by then. *)
Definition parse_topology_window (raw_name layout_text : string) (index : Z) (seen : list string)
    : result (WindowSpec * list string) :=
  match
    (layout ← parse_layout_spec layout_text;
     names ← window_leaf_names raw_name (iter_leaves layout) seen [];
     w ← window_post_init (mkWindow raw_name index (render layout) names.1);
     mret (w, names.2))
  with
  | Ok r => Ok r
  | Err (ConfigValidationError m) => Err (invalid m)
  | Err (AgentValidationError m) => Err (invalid m)
  | Err e => Err (invalid ("windows." +:+ raw_name +:+ ": invalid layout: " +:+ exn_text e))
  end.
Fixpoint parse_window_entries (raw : pydict) (index : Z) (seen : list string) : result (list WindowSpec) :=
  match raw with
  | [] => mret []
  | (raw_name, raw_layout) :: rest =>
      layout_text ← expect_string raw_layout ("windows." +:+ raw_name);
      w ← parse_topology_window raw_name layout_text index seen;
      rest' ← parse_window_entries rest (index + 1) w.2;
      mret (w.1 :: rest')
  end.
Definition parse_topology_windows (raw_windows : pyval) : result (option (list WindowSpec)) :=
  match raw_windows with
  | PNone => mret None
  | _ =>
      windows_map ← expect_mapping raw_windows "windows";
      _ ← raise_if (match windows_map with [] => true | _ => false end) (invalid "windows cannot be empty");
      windows ← parse_window_entries windows_map 0 [];
      mret (Some windows)
  end.

Fixpoint topology_overlay_entries (raw : pydict) (referenced : list string) (overlays : list (string * pydict))
    : result (list (string * pydict)) :=
  match raw with
  | [] => mret overlays
  | (raw_name, raw_spec) :: rest =>
      name ← as_config_error (normalize_agent_name raw_name);
      if negb (bool_decide (name ∈ referenced)) then topology_overlay_entries rest referenced overlays
      else
        _ ← raise_if (bool_decide (name ∈ overlays.*1))
              (invalid ("duplicate agent name after normalization: " +:+ name));
        d ← expect_mapping raw_spec ("agents." +:+ raw_name);
        topology_overlay_entries rest referenced (overlays ++ [(name, d)])
  end.
Definition topology_agent_overlays (raw_agents : pyval) (referenced : list string) : result (list (string * pydict)) :=
  raw ← expect_mapping (match raw_agents with PNone => PDict [] | v => v end) "agents";
  topology_overlay_entries raw referenced [].
Definition leaf_workspace_mode (leaf : LayoutLeaf) : string :=
  if strip (default "" (lf_workspace_mode leaf)) =ˢ "worktree" then "git-worktree" else "inplace".
Definition topology_leaf_agent_defaults (leaf : LayoutLeaf) : pydict :=
  [ ("provider", of_opt_str (lf_provider leaf)); ("target", PStr ".");
    ("workspace_mode", PStr (leaf_workspace_mode leaf)); ("restore", PStr "auto"); ("permission", PStr "manual") ].

(** [_merge_topology_agent_overlay] and [_deep_merge_dicts]: tables are merged,
    anything else is replaced. *)
Fixpoint merge_value (old new : pyval) {struct new} : pyval :=
  match new with
  | PDict overlay =>
      match old with
      | PDict base =>
          PDict ((fix merge (base overlay : pydict) {struct overlay} : pydict :=
                    match overlay with
                    | [] => base
                    | (k, v) :: rest => merge (dset k (merge_value (dget k base) v) base) rest
                    end) base overlay)
      | _ => new
      end
  | _ => new
  end.
Fixpoint merge_dicts (base overlay : pydict) : pydict :=
  match overlay with
  | [] => base
  | (k, v) :: rest => merge_dicts (dset k (merge_value (dget k base) v) base) rest
  end.

Definition validate_topology_overlay_provider (agent_name : string) (raw_spec : pydict) (leaf_provider : option string)
    : result unit :=
  provider ← expect_string (dget "provider" raw_spec) ("agents." +:+ agent_name +:+ ".provider");
  raise_if (negb (bool_decide (lower (strip provider) = lower (strip (default "" leaf_provider)))))
    (invalid ("agent " +:+ repr_str agent_name +:+ " provider conflicts between windows and agents table")).
Fixpoint topology_leaf_agents (leaves : list LayoutLeaf) (overlays : list (string * pydict)) (agents : agents_config)
    : result agents_config :=
  match leaves with
  | [] => mret agents
  | leaf :: rest =>
      name ← normalize_agent_name (lf_name leaf);
      let raw_spec := merge_dicts (topology_leaf_agent_defaults leaf) (default [] (od_lookup name overlays)) in
      _ ← validate_topology_overlay_provider name raw_spec (lf_provider leaf);
      spec ← build_agent_spec name raw_spec;
      topology_leaf_agents rest overlays (od_set name spec agents)
  end.
Fixpoint topology_window_agents (windows : list WindowSpec) (overlays : list (string * pydict)) (agents : agents_config)
    : result agents_config :=
  match windows with
  | [] => mret agents
  | w :: rest =>
      layout ← parse_layout_spec (wn_layout_spec w);
      agents ← topology_leaf_agents (iter_leaves layout) overlays agents;
      topology_window_agents rest overlays agents
  end.
Definition agents_from_topology_windows (windows : list WindowSpec) (raw_agents : pyval) : result agents_config :=
  overlays ← topology_agent_overlays raw_agents (concat (wn_agent_names <$> windows));
  topology_window_agents windows overlays [].

(** ** Documents *)
Definition validate_document_shape (document : pydict) : result unit :=
  _ ← reject_unknown document ALLOWED_TOP_LEVEL_KEYS "config contains unknown top-level fields: ";
  raise_if (negb (py_eq_int (dget "version" document) 2)) (invalid "version must be 2").
Definition parse_default_agents (document : pydict) : result (list string) :=
  match dget "default_agents" document with
  | PNone => Err (invalid "default_agents is required")
  | v => names ← expect_string_list v "default_agents"; as_config_error (normalize_names names)
  end.
Definition parse_topology_default_agents (document : pydict) (windows : list WindowSpec) : result (list string) :=
  _ ← raise_if (negb (is_none_value (dget "default_agents" document)))
        (invalid "default_agents is not supported with windows topology");
  mret (concat (wn_agent_names <$> windows)).
Definition parse_cmd_enabled (document : pydict) : result bool :=
  match dict_lookup "cmd_enabled" document with
  | None => mret false
  | Some v => expect_bool v "cmd_enabled"
  end.
Definition has_key (k : string) (document : pydict) : bool :=
  match dict_lookup k document with Some _ => true | None => false end.
Definition validate_legacy_and_windows_fields (document : pydict) (windows : option (list WindowSpec)) : result unit :=
  match windows with
  | None =>
      _ ← raise_if (has_key "entry_window" document) (invalid "entry_window requires windows topology");
      raise_if (has_key "ui" document) (invalid "ui.sidebar requires windows topology")
  | Some _ =>
      _ ← raise_if (has_key "layout" document) (invalid "layout is not supported with windows topology");
      raise_if (has_key "cmd_enabled" document) (invalid "cmd_enabled is not supported with windows topology")
  end.
Definition validate_project_config (document : pydict) (source_path : option string) : result ProjectConfig :=
  _ ← validate_document_shape document;
  windows ← parse_topology_windows (dget "windows" document);
  da ← match windows with
       | Some ws =>
           default_agents ← parse_topology_default_agents document ws;
           agents ← agents_from_topology_windows ws (dget_or "agents" (PDict []) document);
           mret (default_agents, agents)
       | None =>
           agents ← parse_agents (dget "agents" document);
           default_agents ← parse_default_agents document;
           mret (default_agents, agents)
       end;
  cmd_enabled ← parse_cmd_enabled document;
  layout_spec ← optional_string document "layout" "layout";
  sidebar ← parse_sidebar (dget "ui" document);
  sidebar_view ← parse_sidebar_view (dget "ui" document);
  entry_window ← optional_string document "entry_window" "entry_window";
  _ ← validate_legacy_and_windows_fields document windows;
  as_config_error
    (project_config 2 da.1 da.2 cmd_enabled layout_spec windows entry_window sidebar sidebar_view source_path
       (Some (match windows with Some _ => true | None => false end))).

(** ** The compact and hybrid notations *)
Definition build_compact_agent_record (provider workspace_mode : string) : pydict :=
  [ ("provider", PStr provider); ("target", PStr "."); ("workspace_mode", PStr workspace_mode);
    ("restore", PStr "auto"); ("permission", PStr "manual") ].
Definition strip_layout_comments (line : string) : string := strip (before "//" (before "#" line)).
Definition newline : string := String (ascii_of_nat 10) "".
Definition normalize_compact_layout_text (text : string) : string :=
  strip (join newline (List.filter (λ l, l ≠ˢ "") (strip_layout_comments <$> str_splitlines text))).

Record compact_state := mkCompact {
  co_default_agents : list string;
  co_agents : list (string * pydict);
  co_cmd_enabled : bool
}.
Definition consume_compact_leaf (path : string) (leaf : LayoutLeaf) (c : compact_state) : result compact_state :=
  let token := strip (lf_name leaf) in
  let normalized_name := lower token in
  if normalized_name =ˢ "cmd" then
    _ ← raise_if (match lf_provider leaf with Some _ => true | None => false end)
          (invalid (path +:+ ": reserved token 'cmd' cannot declare a provider"));
    _ ← raise_if (co_cmd_enabled c) (invalid (path +:+ ": compact config cannot define cmd more than once"));
    mret (mkCompact (co_default_agents c) (co_agents c) true)
  else
    match lf_provider leaf with
    | None => Err (invalid (path +:+ ": invalid token " +:+ repr_str token
                              +:+ "; expected 'agent_name:provider' or 'cmd'"))
    | Some provider =>
        _ ← raise_if (bool_decide (normalized_name ∈ (co_agents c).*1))
              (invalid (path +:+ ": duplicate agent name in compact config: " +:+ token));
        mret (mkCompact (co_default_agents c ++ [token])
                (co_agents c ++ [(normalized_name, build_compact_agent_record provider (leaf_workspace_mode leaf))])
                (co_cmd_enabled c))
    end.
Fixpoint consume_compact_leaves (path : string) (leaves : list LayoutLeaf) (c : compact_state) : result compact_state :=
  match leaves with
  | [] => mret c
  | leaf :: rest => c' ← consume_compact_leaf path leaf c; consume_compact_leaves path rest c'
  end.
Definition parse_compact_config_document (text path : string) : result pydict :=
  let layout_text := normalize_compact_layout_text text in
  _ ← raise_if (layout_text =ˢ "") (invalid (path +:+ ": config is empty"));
  layout ← match parse_layout_spec layout_text with
           | Ok l => mret l
           | Err e => Err (invalid (path +:+ ": invalid compact layout: " +:+ exn_text e))
           end;
  c ← consume_compact_leaves path (iter_leaves layout) (mkCompact [] [] false);
  _ ← raise_if (match co_default_agents c with [] => true | _ => false end)
        (invalid (path +:+ ": compact config must define at least one agent"));
  mret [ ("version", PInt 2);
         ("default_agents", PList (PStr <$> co_default_agents c));
         ("agents", PDict ((λ nd, (nd.1, PDict nd.2)) <$> co_agents c));
         ("cmd_enabled", PBool (co_cmd_enabled c));
         ("layout", PStr (render layout)) ].

Inductive document_kind :=
  | Rich (text : string)
  | Compact (text : string)
  | Hybrid (compact_text overlay_text : string).
Fixpoint occurs (c : ascii) (s : string) : bool :=
  match s with "" => false | String d s' => Ascii.eqb c d || occurs c s' end.
(** [None] for a line without content, else whether it is TOML. *)
Definition line_is_rich (line : string) : option bool :=
  let body := strip (before "#" line) in
  if body =ˢ "" then None else Some (String.prefix "[" body || occurs "=" body).
(** The first kind and the index of the first line of TOML. *)
Fixpoint scan_lines (lines : list string) (index : nat) (first : option bool) : option bool * option nat :=
  match lines with
  | [] => (first, None)
  | l :: rest =>
      match line_is_rich l with
      | None => scan_lines rest (S index) first
      | Some true => (Some (default true first), Some index)
      | Some false => scan_lines rest (S index) (Some (default false first))
      end
  end.
Definition classify_config_document (text : string) : document_kind :=
  let lines := str_splitlines text in
  match scan_lines lines 0 None with
  | (Some true, _) => Rich text
  | (Some false, Some i) => Hybrid (join newline (take i lines)) (join newline (drop i lines))
  | _ => Compact text
  end.

Definition header_owned_agent_keys : list string := ["provider"; "workspace_mode"].
Fixpoint merge_overlay_entries (path : string) (overlay : pydict) (merged : pydict) : result pydict :=
  match overlay with
  | [] => mret merged
  | (raw_name, raw_spec) :: rest =>
      name ← normalize_agent_name raw_name;
      match dict_lookup name merged with
      | None => Err (invalid (path +:+ ": hybrid overlay cannot define agent " +:+ repr_str name
                                +:+ " outside the compact layout"))
      | Some base =>
          match raw_spec with
          | PDict d =>
              _ ← match sorted_strings (List.filter (λ k, bool_decide (k ∈ header_owned_agent_keys)) d.*1) with
                  | [] => mret tt
                  | forbidden =>
                      Err (invalid (path +:+ ": hybrid overlay cannot redefine compact-header fields for agents."
                             +:+ name +:+ ": " +:+ join ", " forbidden))
                  end;
              merge_overlay_entries path rest (dset name (merge_value base raw_spec) merged)
          | _ => Err (invalid (path +:+ ": agents." +:+ raw_name +:+ " must be a table/object"))
          end
      end
  end.
Definition merge_hybrid_overlay (base_document overlay_document : pydict) (path : string) : result pydict :=
  _ ← reject_unknown overlay_document ["agents"]
        (path +:+ ": hybrid overlay contains unsupported top-level fields: ");
  base_agents ← dict_or_empty "agents" (dget "agents" base_document);
  overlay_agents ← match py_or (dget "agents" overlay_document) (PDict []) with
                   | PDict d => mret d
                   | _ => Err (invalid (path +:+ ": hybrid overlay agents must be a table/object"))
                   end;
  merged ← merge_overlay_entries path overlay_agents base_agents;
  mret (dset "agents" (PDict merged) base_document).

(** [tomllib.loads]: the document, or the text of the error. *)
Context (toml_loads : string → pydict + string).
Definition parse_toml_config_document (text path : string) : result pydict :=
  match toml_loads text with
  | inl d => mret d
  | inr m => Err (invalid (path +:+ ": invalid TOML config: " +:+ m))
  end.
Definition load_config_document (text path : string) : result pydict :=
  match classify_config_document text with
  | Rich text => parse_toml_config_document text path
  | Compact text => parse_compact_config_document text path
  | Hybrid compact_text overlay_text =>
      base_document ← parse_compact_config_document compact_text path;
      overlay_document ← parse_toml_config_document overlay_text path;
      merge_hybrid_overlay base_document overlay_document path
  end.

(** ** The default configuration, and which file is read *)
Definition DEFAULT_AGENT_PROVIDERS : list (string * string) :=
  [("agent1", "codex"); ("agent2", "codex"); ("agent3", "claude")].
Definition DEFAULT_WINDOW_LAYOUT : string := "agent1:codex, agent2:codex, agent3:claude".
Definition build_default_agent_spec (name provider : string) : result AgentSpec :=
  spec_post_init (mkSpec name provider "." WM_inplace None RM_pane_backed RS_auto PM_manual QP_serial_per_agent None
                    [] [] no_api default_provider_profile None [] None []).
Fixpoint default_agents_from (l : list (string * string)) : result agents_config :=
  match l with
  | [] => mret []
  | (n, p) :: rest => s ← build_default_agent_spec n p; rest' ← default_agents_from rest; mret ((n, s) :: rest')
  end.
Definition build_default_project_config : result ProjectConfig :=
  agents ← default_agents_from DEFAULT_AGENT_PROVIDERS;
  w ← window_post_init (mkWindow "main" 0 DEFAULT_WINDOW_LAYOUT (DEFAULT_AGENT_PROVIDERS.*1));
  project_config 2 (DEFAULT_AGENT_PROVIDERS.*1) agents false (Some DEFAULT_WINDOW_LAYOUT) (Some [w]) (Some "main")
    None None None (Some true).

Inductive config_source := CS_project_config | CS_user_config | CS_builtin_default.
(** The project's file, the user's file, or neither; each with its path. *)
Definition load_project_config (project_file user_file : option (string * string))
    : result (ProjectConfig * config_source) :=
  match project_file, user_file with
  | Some (path, text), _ =>
      document ← load_config_document text path;
      c ← validate_project_config document (Some path); mret (c, CS_project_config)
  | None, Some (path, text) =>
      document ← load_config_document text path;
      c ← validate_project_config document (Some path); mret (c, CS_user_config)
  | None, None => c ← build_default_project_config; mret (c, CS_builtin_default)
  end.
End api_shortcut.
