(* ===== verification/ConfigTheorems.v ===== *)
(** * What a loaded configuration guarantees

    Every document that is accepted yields a configuration in which names,
    windows, layout and specifications fit together; the panes of a start are
    the layout's, restricted to the agents that are asked for. *)
From S2P Require Import Prelude PyValue Names AgentModels Layout LayoutTheorems ProjectConfig ConfigLoader.
Open Scope string_scope.
Open Scope list_scope.
Open Scope Z_scope.

(** ** Names *)
Definition normal (n : string) : Prop := normalize_agent_name n = Ok n.
Lemma normalize_names_normal l l' : normalize_names l = Ok l' → Forall normal l'.
Proof.
  revert l'. induction l as [|n l IH]; intros l'; cbn [normalize_names]; intros Hl; inv_result; subst; constructor.
  - by eapply normalize_agent_name_idem'.
  - by apply IH.
Qed.
Lemma normalize_names_fixed l : Forall normal l → normalize_names l = Ok l.
Proof. induction 1 as [|n l Hn _ IH]; [done|]. cbn [normalize_names]. by rewrite Hn, result_bind_ok, IH. Qed.
Lemma normal_stripped l : Forall normal l → stripped_names l = l.
Proof.
  unfold stripped_names. induction 1 as [|n l Hn _ IH]; [done|]. cbn [fmap list_fmap].
  apply normalize_agent_name_inv in Hn as (Hn & Hne & Hp & _).
  rewrite (agent_name_pattern_strip _ Hp). cbn [List.filter]. rewrite bool_decide_eq_false_2 by done.
  cbn [negb]. by rewrite IH.
Qed.
Lemma normal_not_cmd : ¬ normal "cmd".
Proof. intros H. vm_compute in H. discriminate H. Qed.

(** ** Windows *)
Definition window_ok (w : WindowSpec) : Prop :=
  window_post_init w = Ok w ∧ Forall normal (wn_agent_names w) ∧ NoDup (wn_agent_names w) ∧ wn_agent_names w ≠ [].
Lemma no_duplicates l : has_duplicates l = false → NoDup l.
Proof. by intros H%negb_false_iff%bool_decide_eq_true. Qed.
Lemma validate_window_name_idem s n : validate_window_name s = Ok n → validate_window_name n = Ok n.
Proof.
  unfold validate_window_name. intros H. inv_result. subst n. by rewrite strip_idem, H0.
Qed.
Lemma window_post_init_ok w w' : window_post_init w = Ok w' → window_ok w' ∧ wn_order w' = wn_order w.
Proof.
  unfold window_post_init at 1. intros H. inv_result. subst w'. cbn in *.
  apply normalize_names_normal in H2 as Hn. pose proof (no_duplicates _ H4) as Hd.
  apply bool_decide_eq_false in H3 as Hne. split; [|done]. split_and!; cbn; [|done..].
  unfold window_post_init. cbn. rewrite (validate_window_name_idem _ _ H0), result_bind_ok, strip_idem, H1.
  cbn [raise_if]. rewrite result_bind_ok, (normalize_names_fixed _ Hn), result_bind_ok, H3. cbn [raise_if].
  by rewrite result_bind_ok, H4.
Qed.

Lemma no_overlap (seen l : list string) :
  List.filter (λ n, bool_decide (n ∈ seen)) l = [] → ∀ n, n ∈ l → n ∉ seen.
Proof.
  intros Hf n Hn Hs. assert (n ∈ List.filter (λ n, bool_decide (n ∈ seen)) l) as H.
  { apply elem_of_filter_bool. split; [done|]. by apply bool_decide_eq_true. }
  rewrite Hf in H. by apply elem_of_nil in H.
Qed.
Lemma all_found (known l : list string) : List.filter (λ n, negb (bool_decide (n ∈ known))) l = [] → l ⊆ known.
Proof.
  intros Hf n Hn. destruct (decide (n ∈ known)) as [|Hk]; [done|].
  assert (n ∈ List.filter (λ n, negb (bool_decide (n ∈ known))) l) as H.
  { apply elem_of_filter_bool. split; [done|]. by rewrite bool_decide_eq_false_2. }
  rewrite Hf in H. by apply elem_of_nil in H.
Qed.

(** The windows of a configuration from the index [i] on. *)
Record windows_ok (i : Z) (ws : list WindowSpec) : Prop := {
  wo_each : Forall window_ok ws;
  wo_order : wn_order <$> ws = seqZ i (Z.of_nat (length ws));
  wo_names : NoDup (wn_name <$> ws);
  wo_agents : NoDup (concat (wn_agent_names <$> ws))
}.
Lemma validate_windows_ok ws : ∀ i seen_windows seen_agents r,
  validate_windows i ws seen_windows seen_agents = Ok r →
  windows_ok i r ∧ length r = length ws ∧ (∀ n, n ∈ wn_name <$> r → n ∉ seen_windows) ∧
  (∀ n, n ∈ concat (wn_agent_names <$> r) → n ∉ seen_agents).
Proof.
  induction ws as [|w ws IH]; intros i sw sa r; cbn [validate_windows]; intros H.
  - injection H as <-. split_and!; [|done|by intros ? ?%elem_of_nil..]. split; [done..|constructor|constructor].
  - inv_result. subst r. apply window_post_init_ok in H0 as [Hw Ho]. cbn in Ho.
    apply bool_decide_eq_false in H1.
    assert (List.filter (λ n, bool_decide (n ∈ sa)) (wn_agent_names x) = []) as Hno by (by destruct (List.filter _ _)).
    destruct (IH _ _ _ _ H3) as ([He Hord Hn Ha] & Hlen & Hsw & Hsa).
    destruct Hw as (Hw1 & Hw2 & Hw3 & Hw4). split_and!.
    + split; cbn [fmap list_fmap length concat].
      * by constructor.
      * rewrite seqZ_cons by lia. rewrite Ho, Hord. f_equal. f_equal; lia.
      * constructor; [|done]. intros Hin. apply (Hsw _ Hin). by left.
      * apply NoDup_app. split_and!; [done| |done]. intros n Hn1 Hn2. apply (Hsa _ Hn2). apply elem_of_app. by left.
    + cbn. by rewrite Hlen.
    + intros n [->|Hin]%elem_of_cons; [done|]. intros Hs. apply (Hsw _ Hin). by right.
    + cbn. intros n [Hin|Hin]%elem_of_app; [by apply (no_overlap _ _ Hno)|].
      intros Hs. apply (Hsa _ Hin). apply elem_of_app. by right.
Qed.
Lemma legacy_main_window_ok s ds w : legacy_main_window s ds = Ok w →
  windows_ok 0 [w] ∧ ∃ layout pruned, parse_layout_spec s = Ok layout ∧ prune_layout layout ds = Some pruned ∧
    normalize_names (iter_layout_names pruned) = Ok (wn_agent_names w).
Proof.
  unfold legacy_main_window. intros (layout & Hl & H)%result_bind_Ok_inv.
  destruct (prune_layout layout ds) as [pruned|] eqn:Hp; [|done]. inv_result.
  assert (wn_agent_names w = x) as Hw.
  { apply normalize_names_normal, normalize_names_fixed in H0. unfold window_post_init in H. cbn in H. inv_result.
    subst w. cbn. congruence. }
  apply window_post_init_ok in H as [Hok Ho]. cbn in Ho. split.
  - split; [constructor; [exact Hok|constructor]|cbn; by rewrite Ho|apply NoDup_singleton|]. cbn. rewrite app_nil_r. apply Hok.
  - exists layout, pruned. split_and!; [done..|]. by rewrite Hw.
Qed.
Lemma normalize_windows_ok windows s ds r : normalize_windows windows s ds = Ok r → windows_ok 0 r ∧ r ≠ [].
Proof.
  unfold normalize_windows. destruct windows as [[|w ws]|]; cbn [mbind result_bind]; intros H.
  1, 3: apply result_bind_Ok_inv in H as (w & Hw & [= <-]); split; [by apply (legacy_main_window_ok _ _ _ Hw)|done].
  apply validate_windows_ok in H as (Hok & Hlen & _). split; [done|]. by intros ->.
Qed.

(** The windows hold each configured agent exactly once. *)
Lemma windows_partition ws configured : validate_windows_reference_agents ws configured = Ok tt →
  NoDup (concat (wn_agent_names <$> ws)) → NoDup configured → concat (wn_agent_names <$> ws) ≡ₚ configured.
Proof.
  unfold validate_windows_reference_agents. intros (u & H1 & H2)%result_bind_Ok_inv Hw Hc.
  apply raise_if_Ok, negb_false_iff, bool_decide_eq_true, all_found in H1.
  apply raise_if_Ok, negb_false_iff, bool_decide_eq_true, all_found in H2.
  apply NoDup_Permutation; [done..|]. intros n. split; [apply H1|apply H2].
Qed.
Lemma entry_window_known e ws w : validate_entry_window e ws = Ok w → w ∈ wn_name <$> ws.
Proof.
  unfold validate_entry_window. destruct ws as [|first rest]; [done|]. intros H. inv_result. subst x.
  by apply negb_false_iff, bool_decide_eq_true in H1.
Qed.

(** ** Agents *)
Definition agents_ok (agents : agents_config) : Prop :=
  NoDup agents.*1 ∧ Forall (λ ns, normal ns.1 ∧ as_name ns.2 = ns.1) agents.
Lemma normalize_agent_specs_from_ok agents : ∀ normalized r,
  normalize_agent_specs_from agents normalized = Ok r → agents_ok normalized →
  agents_ok r ∧ r.*2 = normalized.*2 ++ agents.*2.
Proof.
  induction agents as [|[k s] agents IH]; intros normalized r; cbn [normalize_agent_specs_from]; intros H Hok.
  - injection H as <-. by rewrite app_nil_r.
  - inv_result. apply bool_decide_eq_false in H1. apply negb_false_iff, bool_decide_eq_true in H2.
    destruct Hok as [Hd Hf]. destruct (IH _ _ H) as [Hr Hs].
    + split.
      * rewrite fmap_app. apply NoDup_app. split_and!; [done| |apply NoDup_singleton].
        intros n Hn Hx%list_elem_of_singleton. cbn in Hx. by subst n.
      * apply Forall_app. split; [done|]. constructor; [|constructor]. cbn. split; [|done].
        by eapply normalize_agent_name_idem'.
    + split; [done|]. rewrite Hs, fmap_app. cbn. by rewrite <- app_assoc.
Qed.
Lemma normalize_agent_specs_ok agents r : normalize_agent_specs agents = Ok r →
  agents_ok r ∧ r ≠ [] ∧ r.*2 = agents.*2.
Proof.
  unfold normalize_agent_specs. intros H. inv_result. subst x. apply bool_decide_eq_false in H1.
  destruct (normalize_agent_specs_from_ok _ _ _ H0) as [Hok Hs]; [split; constructor|].
  split_and!; [done| |done]. by intros ->.
Qed.
Lemma agents_normal agents : agents_ok agents → Forall normal agents.*1.
Proof. intros [_ Hf]. apply Forall_fmap. eapply Forall_impl; [exact Hf|]. by intros ns [Hn _]. Qed.
Lemma normalize_default_agents_ok ds configured r : normalize_default_agents ds configured = Ok r →
  NoDup r ∧ r ≠ [] ∧ r ⊆ configured ∧ Forall normal r.
Proof.
  unfold normalize_default_agents. intros H. inv_result. subst x.
  apply bool_decide_eq_false in H1. apply negb_false_iff, bool_decide_eq_true in H3.
  split_and!; [by apply no_duplicates|done|by apply all_found|by eapply normalize_names_normal].
Qed.

(** ** The layout *)
Definition cmd_names (cmd_enabled : bool) : list string := if cmd_enabled then ["cmd"] else [].
(** A layout of these agents, [cmd] first when there is one. *)
Definition layout_of (agents : list string) (cmd_enabled : bool) (layout : LayoutNode) : Prop :=
  layout_ok layout ∧ iter_layout_names layout ≡ₚ agents ++ cmd_names cmd_enabled ∧
  (cmd_enabled = true → head (iter_layout_names layout) = Some "cmd").

Lemma normalize_layout_tree_ok n n' : layout_ok n → normalize_layout_tree n = Ok n' → layout_ok n'.
Proof.
  unfold layout_ok. revert n'. induction n as [[name provider mode]|k l IHl r IHr]; intros n' Hok H; cbn in H; inv_result; subst n'.
  - cbn in *. apply Forall_cons in Hok as [[_ Hp] _]. constructor; [|constructor]. split; [|done]. cbn.
    revert H0. unfold normalize_layout_leaf_name. case_bool_decide.
    + by intros [= <-].
    + by intros (_ & _ & Hn & _)%normalize_agent_name_inv.
  - cbn in *. apply Forall_app in Hok as [Hl Hr]. apply Forall_app. split; eauto.
Qed.
Lemma same_elements_spec l1 l2 : same_elements l1 l2 = true ↔ ∀ x : string, x ∈ l1 ↔ x ∈ l2.
Proof.
  unfold same_elements. rewrite andb_true_iff, !forallb_forall. setoid_rewrite bool_decide_eq_true.
  setoid_rewrite <- list_elem_of_In. split; [intros [H1 H2] x; split; auto|intros H; split; intros x; apply H].
Qed.
Lemma agents_with_cmd ds b : NoDup ds → Forall normal ds → NoDup (ds ++ cmd_names b).
Proof.
  intros Hd Hn. apply NoDup_app. split_and!; [done| |by destruct b; repeat constructor; apply not_elem_of_nil].
  intros n Hin Hc. destruct b; [|by apply elem_of_nil in Hc]. apply list_elem_of_singleton in Hc as ->.
  apply normal_not_cmd. by eapply Forall_forall in Hin.
Qed.
Lemma validate_layout_names_ok names ds b : validate_layout_names names ds b = Ok tt → NoDup ds → Forall normal ds →
  names ≡ₚ ds ++ cmd_names b ∧ (b = true → head names = Some "cmd").
Proof.
  unfold validate_layout_names. intros H Hd Hn. inv_result. apply negb_false_iff in H0.
  pose proof (no_duplicates _ H1) as Hdup. split.
  - apply NoDup_Permutation; [done|by apply agents_with_cmd|]. by apply same_elements_spec.
  - intros ->. by apply negb_false_iff, bool_decide_eq_true in H.
Qed.
Lemma resolve_layout_spec_ok ds agents b spec rendered :
  resolve_layout_spec ds agents b spec = Ok rendered → NoDup ds → Forall normal ds →
  ∃ layout, rendered = render layout ∧ layout_of ds b layout.
Proof.
  unfold resolve_layout_spec. intros H Hd Hn. apply result_bind_Ok_inv in H as (text & _ & H).
  inv_result. subst rendered. destruct x1. exists x0. split; [done|].
  assert (layout_ok x0) as Hok.
  { eapply normalize_layout_tree_ok; [|exact H1]. unfold parse_resolved_layout in H0.
    destruct (parse_layout_spec text) as [l|] eqn:E; [|done]. injection H0 as ->. by eapply parse_ok. }
  destruct (validate_layout_names_ok _ _ _ H2 Hd Hn) as [Hp Hc]. by split_and!.
Qed.

(** ** Configurations *)
Record config_ok (c : ProjectConfig) : Prop := {
  cf_version : pc_version c = agent_schema_version;
  cf_agents : agents_ok (pc_agents c) ∧ pc_agents c ≠ [];
  cf_default_agents : NoDup (pc_default_agents c) ∧ pc_default_agents c ≠ [] ∧
    pc_default_agents c ⊆ (pc_agents c).*1;
  cf_windows : windows_ok 0 (pc_windows c);
  cf_partition : concat (wn_agent_names <$> pc_windows c) ≡ₚ (pc_agents c).*1;
  cf_entry_window : pc_entry_window c ∈ wn_name <$> pc_windows c;
  cf_layout : pc_windows_explicit c = false →
    ∃ layout, pc_layout_spec c = render layout ∧ layout_of (pc_default_agents c) (pc_cmd_enabled c) layout
}.
Lemma project_config_ok v ds agents b spec windows entry sidebar view path explicit c :
  project_config v ds agents b spec windows entry sidebar view path explicit = Ok c →
  config_ok c ∧ (pc_agents c).*2 = agents.*2 ∧ pc_source_path c = path ∧ pc_cmd_enabled c = b ∧
  normalize_windows windows (pc_layout_spec c) (pc_default_agents c) = Ok (pc_windows c) ∧
  normalize_default_agents ds (pc_agents c).*1 = Ok (pc_default_agents c) ∧
  pc_windows_explicit c = match explicit with
                          | Some e => e
                          | None => match windows with Some _ => true | None => false end
                          end.
Proof.
  unfold project_config. intros (u & Hv & H)%result_bind_Ok_inv.
  apply raise_if_Ok, negb_false_iff, Z.eqb_eq in Hv.
  apply result_bind_Ok_inv in H as (na & Ha & H). apply result_bind_Ok_inv in H as (nd & Hd & H).
  apply result_bind_Ok_inv in H as (layout & Hl & H). apply result_bind_Ok_inv in H as (ws & Hw & H).
  apply result_bind_Ok_inv in H as (u' & Hr & H). apply result_bind_Ok_inv in H as (ew & He & [= <-]). destruct u'.
  destruct (normalize_agent_specs_ok _ _ Ha) as (Hok & Hne & Hs).
  destruct (normalize_default_agents_ok _ _ _ Hd) as (Hd1 & Hd2 & Hd3 & Hd4).
  destruct (normalize_windows_ok _ _ _ _ Hw) as [Hwok Hwne].
  split; [|cbn; split_and!; done]. split; cbn; [done..| | |].
  - eapply windows_partition; [done|apply Hwok|apply Hok].
  - by eapply entry_window_known.
  - intros Hx. rewrite Hx in Hl. by eapply resolve_layout_spec_ok.
Qed.

(** ** Windows of a document *)
(** A text that [strip] keeps. *)
Definition solid (s : string) : Prop := s ≠ "" ∧ lstrip s = s ∧ rstrip s = s.
Lemma solid_strip s : solid s → strip s = s.
Proof. intros (_ & Hl & Hr). unfold strip. by rewrite Hl. Qed.
Lemma solid_app s t u : solid s → solid u → solid (s +:+ t +:+ u).
Proof.
  intros (Hs & Hl & _) (Hu & _ & Hr). split_and!; [by apply string_app_nonempty|by apply lstrip_app|].
  rewrite <- string_app_assoc. by apply rstrip_app.
Qed.
Lemma no_space_solid s : s ≠ "" → string_forallb (λ c, negb (is_space c)) s = true → solid s.
Proof.
  intros Hne Hs. pose proof (strip_no_space s Hs) as E. assert (lstrip s = s) as Hl.
  { destruct s as [|c s]; [done|]. cbn in Hs. apply andb_prop in Hs as [Hc%negb_true_iff _]. cbn. by rewrite Hc. }
  split_and!; [done..|]. unfold strip in E. by rewrite Hl in E.
Qed.
Lemma render_solid n : layout_ok n → solid (render n).
Proof.
  unfold layout_ok. induction n as [l|k l IHl r IHr]; cbn [iter_leaves]; intros Hok.
  - apply Forall_cons in Hok as [Hl _]. apply no_space_solid; [|by apply render_leaf_no_space].
    destruct (render_leaf_shape l Hl) as (_ & _ & w & _ & Hne & [E|E]); cbn [render]; rewrite E; [done|].
    by apply string_app_nonempty.
  - apply Forall_app in Hok as [Hl Hr].
    assert (∀ b s, solid s → solid (parenthesized b s)) as Hp.
    { intros [] s Hs; [|done]. apply solid_app; by apply no_space_solid. }
    cbn [render]. specialize (Hp (needs_parens k l) _ (IHl Hl)) as Hpl. specialize (Hp (needs_parens k r) _ (IHr Hr)) as Hpr.
    rewrite <- (string_app_assoc (separator k)). by apply solid_app.
Qed.

(** The text of the window renders a layout of its agents. *)
Definition window_layout (w : WindowSpec) (n : LayoutNode) : Prop :=
  layout_ok n ∧ wn_layout_spec w = render n ∧ normalize_names (iter_layout_names n) = Ok (wn_agent_names w).
Lemma normalize_names_app l1 l2 r1 r2 : normalize_names l1 = Ok r1 → normalize_names l2 = Ok r2 →
  normalize_names (l1 ++ l2) = Ok (r1 ++ r2).
Proof.
  revert r1. induction l1 as [|n l IH]; intros r1; cbn [normalize_names app]; intros H1 H2; inv_result; subst r1; [done|].
  by rewrite H, result_bind_ok, (IH _ H0 H2).
Qed.
Lemma window_leaf_names_ok raw_name leaves : ∀ seen names r,
  window_leaf_names raw_name leaves seen names = Ok r →
  ∃ l, normalize_names (lf_name <$> leaves) = Ok l ∧ r.1 = names ++ l.
Proof.
  induction leaves as [|leaf leaves IH]; intros seen names r; cbn [window_leaf_names]; intros H.
  - injection H as <-. exists []. by rewrite app_nil_r.
  - inv_result. destruct (IH _ _ _ H) as (l & Hl & Hr). exists (x1 :: l). cbn [fmap list_fmap normalize_names].
    rewrite H2, result_bind_ok, Hl. split; [done|]. rewrite Hr, <- app_assoc. done.
Qed.
Lemma parse_topology_window_ok raw_name text i seen r : parse_topology_window raw_name text i seen = Ok r →
  ∃ n, window_layout r.1 n.
Proof.
  unfold parse_topology_window. destruct (_ ≫= _) as [q|[]] eqn:E; try done. intros [= <-]. inv_result. subst q.
  pose proof (parse_ok _ _ H) as Hok. exists x. cbn [fst].
  destruct (window_leaf_names_ok _ _ _ _ _ H0) as (l & Hl & Hx). cbn in Hx. apply normalize_names_normal in Hl as Hn.
  revert H1. rewrite Hx. unfold window_post_init. cbn. rewrite (normalize_names_fixed _ Hn). intros H1. inv_result.
  subst x1. cbn. split_and!; [done|by apply solid_strip, render_solid|]. cbn. by rewrite <- H4.
Qed.
Definition windows_laid_out (ws : list WindowSpec) : Prop := ∃ ns, Forall2 window_layout ws ns.
Lemma parse_topology_windows_ok v ws : parse_topology_windows v = Ok (Some ws) → ws ≠ [] ∧ windows_laid_out ws.
Proof.
  assert (∀ raw i seen r, parse_window_entries raw i seen = Ok r → windows_laid_out r ∧ length r = length raw) as He.
  { induction raw as [|[k l] raw IH]; intros i seen r; cbn [parse_window_entries]; intros H; inv_result; subst r.
    - split; [by exists []; constructor|done].
    - apply IH in H2 as [[ns Hns] Hlen]. apply parse_topology_window_ok in H1 as [n Hn].
      split; [exists (n :: ns); by constructor|cbn; by rewrite Hlen]. }
  unfold parse_topology_windows. intros H. destruct v; try done; inv_result; subst.
  all: apply He in H2 as [Hw Hl]; split; [|done]; intros ->; destruct x; done.
Qed.
Lemma window_post_init_laid_out w n i : window_layout w n → ∀ w',
  window_post_init (mkWindow (wn_name w) i (wn_layout_spec w) (wn_agent_names w)) = Ok w' → window_layout w' n.
Proof.
  intros (Hok & Ht & Hn) w' H. apply normalize_names_normal in Hn as Hnn.
  revert H. unfold window_post_init. cbn. rewrite (normalize_names_fixed _ Hnn). intros H. inv_result. subst w'.
  split_and!; cbn; [done| |congruence]. rewrite Ht. by apply solid_strip, render_solid.
Qed.
Lemma validate_windows_laid_out ws : ∀ i sw sa r, validate_windows i ws sw sa = Ok r →
  windows_laid_out ws → windows_laid_out r.
Proof.
  induction ws as [|w ws IH]; intros i sw sa r; cbn [validate_windows]; intros H [ns Hns]; [by injection H as <-; exists []|].
  inv_result. subst r. inversion Hns as [|? n ? ns' Hw Hws]; subst. apply (window_post_init_laid_out _ _ _ Hw) in H0.
  apply IH in H3 as [ns Hr]; [|by exists ns']. exists (n :: ns). by constructor.
Qed.

(** The layouts of the windows side by side. *)
Lemma join_render n ns :
  join "; " (render <$> n :: ns) = render (chain horizontal ns n) ∧
  iter_leaves (chain horizontal ns n) = concat (iter_leaves <$> n :: ns).
Proof.
  split; [|apply leaves_chain]. revert n. induction ns as [|m ns IH]; intros n; [done|].
  change (chain horizontal (m :: ns) n) with (chain horizontal ns (Branch horizontal n m)). rewrite <- IH.
  assert (render (Branch horizontal n m) = render n +:+ "; " +:+ render m) as Hr.
  { cbn [render]. assert (∀ x, needs_parens horizontal x = false) as Hp by (by intros [|[] ? ?]). by rewrite !Hp. }
  destruct ns as [|k ns]; cbn [fmap list_fmap join]; rewrite Hr; [done|]. by rewrite !string_app_assoc.
Qed.

(** ** Specifications of a document *)
Lemma parse_agent_api_ok name v a : parse_agent_api name v = Ok a → api_post_init a = a.
Proof. unfold parse_agent_api. intros H. inv_result. subst a. apply api_post_init_idem. Qed.
Lemma parse_agent_api_shortcut_ok name raw a : parse_agent_api_shortcut name raw = Ok a → api_post_init a = a.
Proof.
  unfold parse_agent_api_shortcut. intros (u & _ & H)%result_bind_Ok_inv.
  destruct (negb (is_none_value (dget "api" raw))); [by apply parse_agent_api_ok in H|].
  destruct (negb _); [by injection H as <-|]. inv_result. subst a. apply api_post_init_idem.
Qed.
Lemma parse_provider_profile_ok name v p : parse_provider_profile name v = Ok p → provider_profile_post_init p = Ok p.
Proof.
  unfold parse_provider_profile. intros H. apply result_bind_Ok_inv in H as (raw & _ & H).
  apply result_bind_Ok_inv in H as (u & _ & H). destruct (_ ≫= _) as [q|e] eqn:E.
  - injection H as <-. inv_result. by eapply provider_profile_post_init_idem.
  - by destruct (value_error_text e).
Qed.
Section documents.
Context `{UrlLib}.
Lemma apply_agent_api_shortcut_ok name provider env api profile raw p :
  apply_agent_api_shortcut name provider env api profile raw = Ok p → provider_profile_post_init p = Ok p.
Proof.
  unfold apply_agent_api_shortcut. intros E. inv_result. by eapply provider_profile_post_init_idem.
Qed.
Lemma build_agent_spec_ok name raw s : build_agent_spec name raw = Ok s → normal name → spec_ok s ∧ as_name s = name.
Proof.
  unfold build_agent_spec. intros E Hn. apply result_bind_Ok_inv in E as (u & _ & E).
  apply result_bind_Ok_inv in E as (provider & _ & E). apply result_bind_Ok_inv in E as (env & _ & E).
  apply result_bind_Ok_inv in E as (api & Ha & E). apply result_bind_Ok_inv in E as (p0 & Hp0 & E).
  apply result_bind_Ok_inv in E as (u' & _ & E). apply result_bind_Ok_inv in E as (p & Hp & E).
  apply parse_agent_api_shortcut_ok in Ha.
  assert (provider_profile_post_init p = Ok p) as Hpok.
  { destruct (bool_decide (api = no_api)); [|by apply apply_agent_api_shortcut_ok in Hp]. injection Hp as <-.
    destruct (dget "provider_profile" raw);
      first [ by injection Hp0 as <- | exact (parse_provider_profile_ok _ _ _ Hp0) ]. }
  destruct (_ ≫= _) as [s'|e] eqn:F; [|by destruct e]. injection E as <-. clear -F Hn Ha Hpok.
  do 15 apply result_bind_Ok_inv in F as (? & _ & F). apply spec_post_init_idem in F as Hs.
  revert F. unfold spec_post_init. cbn. rewrite Hn. intros F. inv_result. subst s'. split; [|done]. by split.
Qed.

Definition specs_ok (agents : agents_config) : Prop := Forall spec_ok agents.*2.
Lemma specs_ok_set agents name s : specs_ok agents → spec_ok s → specs_ok (od_set name s agents).
Proof.
  unfold specs_ok. intros Ha Hs. induction agents as [|[k t] agents IH]; cbn; [constructor; [exact Hs|constructor]|].
  apply Forall_cons in Ha as [Ht Ha]. destruct (String.eqb name k); cbn; constructor; auto.
Qed.
Lemma topology_leaf_agents_ok leaves overlays : ∀ agents r,
  topology_leaf_agents leaves overlays agents = Ok r → specs_ok agents → specs_ok r.
Proof.
  induction leaves as [|leaf leaves IH]; intros agents r; cbn [topology_leaf_agents]; intros E Ha.
  - by injection E as <-.
  - inv_result. eapply IH; [exact E|]. apply specs_ok_set; [done|].
    by apply build_agent_spec_ok in H2 as [Hs _]; [|eapply normalize_agent_name_idem'].
Qed.
Lemma topology_window_agents_ok ws overlays : ∀ agents r,
  topology_window_agents ws overlays agents = Ok r → specs_ok agents → specs_ok r.
Proof.
  induction ws as [|w ws IH]; intros agents r; cbn [topology_window_agents]; intros E Ha; [by injection E as <-|].
  inv_result. eapply IH; [exact E|]. by eapply topology_leaf_agents_ok.
Qed.
Lemma parse_agent_entries_ok raw : ∀ parsed r, parse_agent_entries raw parsed = Ok r → specs_ok parsed → specs_ok r.
Proof.
  unfold specs_ok. induction raw as [|[k v] raw IH]; intros parsed r; cbn [parse_agent_entries]; intros E Ha; [by injection E as <-|].
  inv_result. eapply IH; [exact E|]. rewrite fmap_app. apply Forall_app. split; [done|]. cbn. constructor; [|constructor].
  eapply build_agent_spec_ok; [exact H3|]. destruct (normalize_agent_name k) as [n|[]] eqn:En; cbn in H0; try done.
  injection H0 as <-. by eapply normalize_agent_name_idem'.
Qed.

(** What an accepted document makes of windows and agents. *)
Lemma validate_project_config_ok document path c : validate_project_config document path = Ok c →
  config_ok c ∧ specs_ok (pc_agents c) ∧ pc_source_path c = path ∧
  if pc_windows_explicit c
  then windows_laid_out (pc_windows c) ∧ pc_cmd_enabled c = false
  else legacy_main_window (pc_layout_spec c) (pc_default_agents c) ≫= (λ w, mret [w]) = Ok (pc_windows c).
Proof.
  unfold validate_project_config. intros E. inv_result.
  assert (∀ A (r : result A) a, as_config_error r = Ok a → r = Ok a) as Has.
  { intros A [a|[]] a'; cbn; try done. }
  apply Has, project_config_ok in E as (Hok & Hs & Hp & Hc & Hw & _ & He).
  unfold specs_ok. rewrite Hs, He, Hp. destruct x0 as [ws|].
  - apply result_bind_Ok_inv in H2 as (ds & _ & H2). apply result_bind_Ok_inv in H2 as (agents & Hagents & H2).
    injection H2 as <-. apply parse_topology_windows_ok in H1 as [Hne Hlaid]. split_and!; [done| |done| |].
    + unfold agents_from_topology_windows in Hagents. inv_result.
      eapply topology_window_agents_ok; [exact Hagents|constructor].
    + unfold normalize_windows in Hw. destruct ws; [done|]. by eapply validate_windows_laid_out.
    + unfold validate_legacy_and_windows_fields in H8. inv_result. unfold parse_cmd_enabled, has_key in *.
      destruct (dict_lookup "cmd_enabled" document); [done|]. injection H3 as <-. by rewrite Hc.
  - apply result_bind_Ok_inv in H2 as (agents & Hagents & H2). apply result_bind_Ok_inv in H2 as (ds & _ & H2).
    injection H2 as <-. split_and!; [done| |done|exact Hw].
    unfold parse_agents in Hagents. inv_result. eapply parse_agent_entries_ok; [exact Hagents|constructor].
Qed.
End documents.

(** ** The layout a start reads *)
Lemma names_lowered n l : layout_ok n → normalize_names (iter_layout_names n) = Ok l → l = lower <$> iter_layout_names n.
Proof.
  unfold layout_ok, iter_layout_names. intros Hok. revert l. induction Hok as [|leaf leaves [Hp _] Hok IH]; intros l;
    cbn [fmap list_fmap normalize_names]; intros H; inv_result; subst l; [done|].
  apply normalize_agent_name_inv in H0 as (-> & _). rewrite (agent_name_pattern_strip _ Hp). f_equal. by apply IH.
Qed.
Definition lower_case (names : list string) : Prop := lower <$> names = names.
Lemma normal_lower_case l : Forall normal l → lower_case l.
Proof.
  unfold lower_case. induction 1 as [|n l Hn _ IH]; [done|]. cbn. rewrite IH. f_equal.
  apply normalize_agent_name_inv in Hn as (Hn & _). rewrite Hn at 1. rewrite lower_idem. by symmetry.
Qed.
(** The layout shows every agent once, and [cmd] first when there is one. *)
Definition shows (c : ProjectConfig) (n : LayoutNode) : Prop :=
  layout_ok n ∧ layout_source c = render n ∧
  lower <$> iter_layout_names n ≡ₚ (pc_agents c).*1 ++ cmd_names (pc_cmd_enabled c) ∧
  (pc_cmd_enabled c = true → head (iter_layout_names n) = Some "cmd").

Lemma explicit_layout c : config_ok c → pc_windows_explicit c = true → pc_cmd_enabled c = false →
  windows_laid_out (pc_windows c) → ∃ n, shows c n.
Proof.
  intros Hok He Hc [ns Hns]. assert (concat (wn_agent_names <$> pc_windows c) = lower <$> concat (iter_layout_names <$> ns)) as Hnames.
  { clear Hok. revert Hns. generalize (pc_windows c) as ws. intros ws. induction 1 as [|w n ws ns (Hn & _ & Hl) _ IH]; [done|].
    cbn [fmap list_fmap concat]. rewrite fmap_app, IH. f_equal. by apply names_lowered. }
  assert (wn_layout_spec <$> pc_windows c = render <$> ns) as Hrender.
  { clear Hok Hnames. induction Hns as [|w n ws ns (_ & Hl & _) _ IH]; [done|]. cbn. by rewrite IH, Hl. }
  assert (Forall layout_ok ns) as Hall.
  { clear Hok Hnames Hrender. induction Hns as [|w n ws ns (Hn & _ & _) _ IH]; by constructor. }
  destruct ns as [|n ns].
  { inversion Hns as [Hw|]. pose proof (cf_entry_window _ Hok) as Hentry. rewrite <- Hw in Hentry. by apply elem_of_nil in Hentry. }
  destruct (join_render n ns) as [Hj Hl]. exists (chain horizontal ns n).
  assert (iter_layout_names (chain horizontal ns n) = concat (iter_layout_names <$> n :: ns)) as Hi.
  { unfold iter_layout_names. rewrite Hl. generalize (n :: ns) as l. induction l as [|m l IH]; [done|].
    cbn [fmap list_fmap concat]. by rewrite fmap_app, IH. }
  split_and!.
  - unfold layout_ok. rewrite Hl. revert Hall. generalize (n :: ns) as l. induction 1 as [|m l Hm _ IH]; [constructor|].
    cbn. by apply Forall_app.
  - unfold layout_source. by rewrite He, Hrender.
  - rewrite Hi, Hc, app_nil_r, <- Hnames. apply cf_partition, Hok.
  - by rewrite Hc.
Qed.
Lemma filter_all {A} (f : A → bool) l : (∀ x, x ∈ l → f x = true) → List.filter f l = l.
Proof.
  induction l as [|x l IH]; intros Hf; [done|]. cbn. rewrite Hf by by left. f_equal. apply IH.
  intros y Hy. apply Hf. by right.
Qed.
Lemma prune_names include n :
  default [] (iter_layout_names <$> prune_node include n) =
    List.filter (λ m, bool_decide (m ∈ include)) (iter_layout_names n).
Proof.
  unfold iter_layout_names. transitivity (lf_name <$> default [] (iter_leaves <$> prune_node include n)).
  { by destruct (prune_node include n). }
  rewrite prune_leaves. generalize (iter_leaves n) as l. induction l as [|x l IH]; [done|]. cbn.
  case_bool_decide; cbn; by rewrite IH.
Qed.
Lemma legacy_layout c : config_ok c → pc_windows_explicit c = false →
  legacy_main_window (pc_layout_spec c) (pc_default_agents c) ≫= (λ w, mret [w]) = Ok (pc_windows c) →
  pc_default_agents c ≡ₚ (pc_agents c).*1 ∧ ∃ n, shows c n ∧ lower_case (iter_layout_names n).
Proof.
  intros Hok He Hw. destruct (cf_layout _ Hok He) as (n & Hn & Hlok & Hperm & Hcmd).
  destruct (cf_default_agents _ Hok) as (Hd1 & Hd2 & Hd3).
  pose proof (agents_normal _ (proj1 (cf_agents _ Hok))) as Hnormal.
  assert (Forall normal (pc_default_agents c)) as Hdn.
  { apply Forall_forall. intros d Hd. eapply Forall_forall in Hnormal; [exact Hnormal|by apply Hd3]. }
  assert (lower_case (pc_default_agents c ++ cmd_names (pc_cmd_enabled c))) as Hlow.
  { unfold lower_case. rewrite fmap_app. rewrite (normal_lower_case _ Hdn). by destruct (pc_cmd_enabled c). }
  apply result_bind_Ok_inv in Hw as (w & Hw & [= Hws]).
  apply legacy_main_window_ok in Hw as (_ & layout & pruned & Hparse & Hprune & Hnames).
  rewrite Hn, parse_rendered in Hparse by done. injection Hparse as <-.
  assert (wn_agent_names w ≡ₚ pc_default_agents c) as Hwd.
  { unfold prune_layout in Hprune. rewrite (normal_stripped _ Hdn) in Hprune.
    pose proof (prune_names (pc_default_agents c) (lean_left n)) as Hp. rewrite Hprune in Hp. cbn in Hp.
    assert (iter_layout_names (lean_left n) = iter_layout_names n) as Hlean by (unfold iter_layout_names; by rewrite leaves_lean_left).
    rewrite Hlean in Hp.
    assert (iter_layout_names pruned ≡ₚ pc_default_agents c) as Hpd.
    { rewrite Hp. clear -Hperm Hd1 Hdn. assert (NoDup (iter_layout_names n)) as Hnd.
      { rewrite Hperm. by apply agents_with_cmd. }
      apply NoDup_Permutation; [by apply NoDup_ListNoDup, List.NoDup_filter, NoDup_ListNoDup|done|].
      intros x. rewrite elem_of_filter_bool, bool_decide_eq_true, Hperm, elem_of_app. tauto. }
    assert (Forall normal (iter_layout_names pruned)) as Hpn by by rewrite Hpd.
    rewrite (normalize_names_fixed _ Hpn) in Hnames. by injection Hnames as <-. }
  assert (pc_default_agents c ≡ₚ (pc_agents c).*1) as Hda.
  { rewrite <- Hwd, <- (cf_partition _ Hok), <- Hws. cbn. by rewrite app_nil_r. }
  split; [done|]. exists n.
  assert (lower_case (iter_layout_names n)) as Hnl.
  { apply list_eq. intros i. rewrite list_lookup_fmap. destruct (iter_layout_names n !! i) as [x|] eqn:E; [|done].
    cbn. f_equal. apply list_elem_of_lookup_2 in E. rewrite Hperm in E. revert E Hlow. clear.
    unfold lower_case. induction (_ ++ _) as [|y l IH]; [by intros ?%elem_of_nil|].
    intros [->|E]%elem_of_cons [= Hy Hl]; auto. }
  split; [|done]. split_and!; [done|by unfold layout_source; rewrite He| |done].
  unfold lower_case in Hnl. by rewrite Hnl, Hperm, Hda.
Qed.

Section loading.
Context `{UrlLib} (toml_loads : string → pydict + string).

Lemma default_config_ok c : build_default_project_config = Ok c →
  config_ok c ∧ specs_ok (pc_agents c) ∧ pc_windows_explicit c = true ∧ pc_cmd_enabled c = false ∧
  windows_laid_out (pc_windows c) ∧ pc_source_path c = None.
Proof.
  intros E. assert (config_ok c) as Hok.
  { unfold build_default_project_config in E. inv_result. by apply project_config_ok in E as [Hok _]. }
  vm_compute in E. injection E as <-. split_and!; [exact Hok|repeat (constructor; [split; reflexivity|]); constructor|done..| |done].
  exists [Branch vertical (Branch vertical (Leaf (mkLeaf "agent1" (Some "codex") None))
    (Leaf (mkLeaf "agent2" (Some "codex") None))) (Leaf (mkLeaf "agent3" (Some "claude") None))].
  constructor; [|constructor]. split_and!; [|reflexivity..].
  repeat constructor; try done; by left.
Qed.

Lemma load_project_config_ok p u c k : load_project_config toml_loads p u = Ok (c, k) →
  config_ok c ∧ specs_ok (pc_agents c) ∧ pc_source_path c = match p, u with
    | Some f, _ | None, Some f => Some f.1
    | None, None => None
    end ∧
  (pc_windows_explicit c = false → pc_default_agents c ≡ₚ (pc_agents c).*1) ∧
  ∃ n, shows c n ∧ (pc_windows_explicit c = false → lower_case (iter_layout_names n)).
Proof.
  assert (∀ document path c, validate_project_config document path = Ok c →
    config_ok c ∧ specs_ok (pc_agents c) ∧ pc_source_path c = path ∧
    (pc_windows_explicit c = false → pc_default_agents c ≡ₚ (pc_agents c).*1) ∧
    ∃ n, shows c n ∧ (pc_windows_explicit c = false → lower_case (iter_layout_names n))) as Hdoc.
  { intros document path c' (Hok & Hs & Hp & Hl)%validate_project_config_ok. split_and!; [done..| |].
    - intros He. rewrite He in Hl. by apply legacy_layout.
    - destruct (pc_windows_explicit c') eqn:He.
      + destruct Hl as [Hw Hc]. destruct (explicit_layout _ Hok He Hc Hw) as [n Hn]. by exists n.
      + destruct (legacy_layout _ Hok He Hl) as (_ & n & Hn & Hlow). by exists n. }
  unfold load_project_config. destruct p as [[path text]|]; [|destruct u as [[path text]|]]; intros E; inv_result.
  1, 2: subst; by apply Hdoc in H1.
  subst. destruct (default_config_ok _ H0) as (Hok & Hs & He & Hc & Hw & Hp).
  split_and!; [done|done|done|by rewrite He|]. destruct (explicit_layout _ Hok He Hc Hw) as [n Hn].
  exists n. split; [done|]. by rewrite He.
Qed.

(** C28: A configuration that is accepted fits together, whichever notation it
    is written in (compact, TOML, both, or none): its agents have distinct
    valid names and valid specifications, its default agents are among them,
    its windows are numbered in order and have distinct names, each agent is in
    exactly one window, the entry window exists, and the layout is a text the
    parser reads in which each agent has exactly one pane, with [cmd] first when
    it is enabled. *)
Theorem configurations_fit_together project_file user_file c kind :
  load_project_config toml_loads project_file user_file = Ok (c, kind) →
  config_ok c ∧ Forall spec_ok (pc_agents c).*2 ∧
  (pc_windows_explicit c = false → pc_default_agents c ≡ₚ (pc_agents c).*1) ∧
  ∃ n, parse_layout_spec (layout_source c) = Ok n ∧
    lower <$> iter_layout_names n ≡ₚ (pc_agents c).*1 ++ cmd_names (pc_cmd_enabled c) ∧
    (pc_cmd_enabled c = true → head (iter_layout_names n) = Some "cmd").
Proof.
  intros (Hok & Hs & _ & Hd & n & (Hn & Ht & Hp & Hc) & _)%load_project_config_ok.
  split_and!; [done..|]. exists (lean_left n). unfold iter_layout_names. rewrite leaves_lean_left.
  split_and!; [|done..]. rewrite Ht. by apply parse_rendered.
Qed.

(** *** The panes of a start *)
Lemma select_requested_ok known requested : ∀ selected,
  (∀ r, r ∈ requested → ∃ n, normalize_agent_name r = Ok n ∧ n ∈ known) → NoDup selected →
  ∃ targets, select_requested known requested selected = Ok targets ∧ NoDup targets ∧
    ∀ n, n ∈ targets ↔ n ∈ selected ∨ ∃ r, r ∈ requested ∧ normalize_agent_name r = Ok n.
Proof.
  induction requested as [|r requested IH]; intros selected Hr Hs.
  - exists selected. split_and!; [done..|]. intros n. split; [by left|]. intros [?|(r & Hin & _)]; [done|].
    by apply elem_of_nil in Hin.
  - destruct (Hr r) as (n & Hn & Hk); [by left|]. cbn [select_requested].
    rewrite Hn, result_bind_ok, (bool_decide_eq_true_2 (n ∈ known)) by done. cbn [negb raise_if]. rewrite result_bind_ok.
    destruct (IH (if bool_decide (n ∈ selected) then selected else selected ++ [n])) as (ts & Ht & Hd & He).
    { intros r' Hr'. apply Hr. by right. }
    { case_bool_decide; [done|]. apply NoDup_app. split_and!; [done| |apply NoDup_singleton].
      by intros m Hm ->%list_elem_of_singleton. }
    exists ts. split_and!; [done..|]. intros m. rewrite He.
    assert (m ∈ (if bool_decide (n ∈ selected) then selected else selected ++ [n]) ↔ m ∈ selected ∨ m = n) as ->.
    { case_bool_decide as Hin; [split; [by left|]; by intros [?| ->]|]. by rewrite elem_of_app, list_elem_of_singleton. }
    setoid_rewrite elem_of_cons. split.
    + intros [[?| ->]|(r' & ? & ?)]; [by left| |]; right; [exists r; auto|exists r'; auto].
    + intros [?|(r' & [->|?] & Hr')]; [by left; left| |right; by exists r'].
      left; right. congruence.
Qed.
(** The agents a start is for. *)
Definition requested (c : ProjectConfig) (names targets : list string) : Prop :=
  if decide (names = []) then targets = pc_default_agents c
  else NoDup targets ∧ ∀ n, n ∈ targets ↔ ∃ r, r ∈ names ∧ normalize_agent_name r = Ok n.
Lemma normalize_agent_name_strip r : normalize_agent_name (strip r) = normalize_agent_name r.
Proof. unfold normalize_agent_name. by rewrite strip_idem. Qed.
Lemma select_project_layout_targets_ok c names : config_ok c →
  (∀ r, r ∈ names → ∃ n, normalize_agent_name r = Ok n ∧ n ∈ (pc_agents c).*1) →
  ∃ targets, select_project_layout_targets c names = Ok targets ∧ requested c names targets ∧
    NoDup targets ∧ targets ≠ [] ∧ targets ⊆ (pc_agents c).*1.
Proof.
  intros Hok Hr. unfold requested. destruct names as [|r0 names].
  - exists (pc_default_agents c). destruct (cf_default_agents _ Hok) as (?&?&?). by split_and!.
  - destruct (select_requested_ok (pc_agents c).*1 (strip <$> r0 :: names) []) as (ts & Ht & Hd & He); [|constructor|].
    { intros r (r' & -> & Hin)%list_elem_of_fmap. rewrite normalize_agent_name_strip. by apply Hr. }
    assert (∀ n, n ∈ ts ↔ ∃ r, r ∈ r0 :: names ∧ normalize_agent_name r = Ok n) as He'.
    { intros n. rewrite He. split.
      - intros [Hn|(r & (r' & -> & Hin)%list_elem_of_fmap & Hr')]; [by apply elem_of_nil in Hn|].
        exists r'. by rewrite normalize_agent_name_strip in Hr'.
      - intros (r & Hin & Hn). right. exists (strip r). rewrite normalize_agent_name_strip. split; [|done].
        by apply list_elem_of_fmap_2. }
    exists ts. split_and!; [done|by rewrite decide_False|done| |].
    + destruct (Hr r0) as (n & Hn & _); [by left|]. intros ->. apply (not_elem_of_nil n), He'. exists r0. split; [by left|done].
    + intros n (r & Hin & Hn)%He'. destruct (Hr r Hin) as (n' & Hn' & Hk). congruence.
Qed.

End loading.

(** ** Concrete documents *)
Definition demo_urls : UrlLib := {| urlsplit := λ _, None; urlunsplit := url_path |}.
Definition windows_document (layout : string) : pydict := [("version", PInt 2); ("windows", PDict [("main", PStr layout)])].
Definition demo_toml (text : string) : pydict + string :=
  if text =ˢ "[lower]" then inl (windows_document "coder:codex; b:claude")
  else if text =ˢ "[mixed]" then inl (windows_document "Coder:codex; b:claude")
  else inr "unsupported".
Definition demo_load (text : string) : result (ProjectConfig * config_source) :=
  load_project_config (H := demo_urls) demo_toml (Some (".ccb/ccb.config", text)) None.

Lemma configurations_fit_together_witness : ∃ c,
  demo_load "cmd; Coder:codex, b:claude(worktree)" = Ok (c, CS_project_config) ∧
  config_ok c ∧ concat (wn_agent_names <$> pc_windows c) = ["coder"; "b"].
Proof.
  eexists. split; [vm_compute; reflexivity|]. split; [|reflexivity].
  eapply (configurations_fit_together (H := demo_urls) demo_toml (Some (".ccb/ccb.config", "cmd; Coder:codex, b:claude(worktree)")) None
    _ CS_project_config). vm_compute. reflexivity.
Defined.

(** With a table of windows the leaves keep the case they are written in, while
    the agents are lowered: a start finds no pane for them. *)
Example mixed_case_windows :
  (match demo_load "[mixed]" with Ok (c, _) => build_project_layout_plan c ["coder"] None | Err e => Err e end) =
    Err (config_error "layout_spec does not include any visible panes for the requested start").
Proof. vm_compute. reflexivity. Qed.
(** The default layout does not mark the agents with a worktree: the mark is
    [worktree], the mode is called [git-worktree]. *)
Example default_layout_without_mark :
  render (Leaf (mkLeaf "a" (Some "codex") (Some (workspace_mode_value WM_git_worktree)))) = "a:codex".
Proof. vm_compute. reflexivity. Qed.
