(* ===== verification/AgentRuntimes.v ===== *)
(** * The runtime record of an agent

    [agents/models_runtime/runtime_runtime], [agents/runtime_binding.py] and the
    runtime loader of [agents/store.py]: what the daemon knows of the process
    and the pane an agent works in. *)
From stdpp Require Import pretty.
From S2P Require Import Prelude PyValue Names AgentModels.
Open Scope string_scope.
Open Scope list_scope.
Open Scope Z_scope.

(** The fields of [AgentRuntime] in the two parts the registry tells apart: the
    state, which anybody may update, and the authority, which says to what the
    agent is bound and in which generation. *)
Record RuntimeState := mkState {
  ag_state : AgentState;
  ag_pid : option Z;
  ag_last_seen_at : option string;
  ag_queue_depth : Z;
  ag_health : string;
  ag_active_pane_id : option string;
  ag_pane_state : option string;
  ag_lifecycle_state : option string;
  ag_desired_state : option string;
  ag_reconcile_state : option string;
  ag_restart_count : Z;
  ag_last_reconcile_at : option string;
  ag_last_failure_reason : option string
}.
#[export] Instance RuntimeState_eq_dec : EqDecision RuntimeState.
Proof. solve_decision. Defined.
Record RuntimeAuthority := mkAuthority {
  ag_agent_name : string;
  ag_started_at : option string;
  ag_runtime_ref : option string;
  ag_session_ref : option string;
  ag_workspace_path : option string;
  ag_project_id : string;
  ag_backend_type : string;
  ag_socket_path : option string;
  ag_provider : option string;
  ag_runtime_root : option string;
  ag_runtime_pid : option Z;
  ag_terminal_backend : option string;
  ag_pane_id : option string;
  ag_pane_title_marker : option string;
  ag_tmux_socket_name : option string;
  ag_tmux_socket_path : option string;
  ag_tmux_window_name : option string;
  ag_tmux_window_id : option string;
  ag_session_file : option string;
  ag_session_id : option string;
  ag_slot_key : option string;
  ag_window_id : option string;
  ag_workspace_epoch : option Z;
  ag_binding_generation : Z;
  ag_managed_by : string;
  ag_binding_source : RuntimeBindingSource;
  ag_daemon_generation : option Z;
  ag_runtime_generation : option Z;
  ag_mount_attempt_id : option string
}.
#[export] Instance RuntimeAuthority_eq_dec : EqDecision RuntimeAuthority.
Proof. solve_decision. Defined.
Record AgentRuntime := mkRuntime { ag_authority : RuntimeAuthority; ag_fields : RuntimeState }.
#[export] Instance AgentRuntime_eq_dec : EqDecision AgentRuntime.
Proof. solve_decision. Defined.
Coercion ag_authority : AgentRuntime >-> RuntimeAuthority.
Coercion ag_fields : AgentRuntime >-> RuntimeState.

(** ** The constructor *)
Definition normalized_text (value : option string) : option string := or_none (strip (default "" value)).
Definition default_desired_state (s : AgentState) : string := match s with AG_stopped => "stopped" | _ => "mounted" end.
Definition default_reconcile_state (s : AgentState) : string :=
  match s with AG_degraded => "degraded" | AG_stopped => "stopped" | AG_failed => "failed" | _ => "steady" end.
Definition require (b : bool) (msg : string) : result unit := raise_if (negb b) (AgentValidationError msg).
Definition positive_if_set (v : option Z) : bool := match v with Some n => 0 <? n | None => true end.
Definition validate_runtime_fields (a : RuntimeAuthority) (s : RuntimeState) : result unit :=
  _ ← require (ag_project_id a ≠ˢ "") "project_id cannot be empty";
  _ ← require (0 <=? ag_queue_depth s) "queue_depth cannot be negative";
  _ ← require (negb (bool_decide (ag_state s ∈ [AG_idle; AG_busy; AG_degraded])) || (default "" (ag_workspace_path a) ≠ˢ ""))
        "workspace_path is required for active runtime states";
  _ ← require (0 <? ag_binding_generation a) "binding_generation must be positive";
  _ ← require (positive_if_set (ag_daemon_generation a)) "daemon_generation must be positive when set";
  _ ← require (positive_if_set (ag_workspace_epoch a)) "workspace_epoch must be positive when set";
  _ ← require (0 <=? ag_restart_count s) "restart_count cannot be negative";
  require (strip (ag_managed_by a) ≠ˢ "") "managed_by cannot be empty".
Definition normalize_runtime_defaults (a : RuntimeAuthority) (s : RuntimeState) : AgentRuntime :=
  mkRuntime
    (mkAuthority (ag_agent_name a) (ag_started_at a) (ag_runtime_ref a) (ag_session_ref a) (ag_workspace_path a) (ag_project_id a)
       (ag_backend_type a) (ag_socket_path a) (ag_provider a) (ag_runtime_root a) (ag_runtime_pid a) (ag_terminal_backend a)
       (ag_pane_id a) (ag_pane_title_marker a) (ag_tmux_socket_name a) (ag_tmux_socket_path a)
       (normalized_text (ag_tmux_window_name a)) (normalized_text (ag_tmux_window_id a)) (ag_session_file a) (ag_session_id a)
       (Some (str_or (normalized_text (ag_slot_key a)) (ag_agent_name a))) (normalized_text (ag_window_id a)) (ag_workspace_epoch a)
       (ag_binding_generation a) (ag_managed_by a) (ag_binding_source a) (ag_daemon_generation a) (ag_runtime_generation a)
       (normalized_text (ag_mount_attempt_id a)))
    (mkState (ag_state s) (ag_pid s) (ag_last_seen_at s) (ag_queue_depth s) (ag_health s) (ag_active_pane_id s) (ag_pane_state s)
       (if strip (default "" (ag_lifecycle_state s)) =ˢ "" then Some (agent_state_value (ag_state s)) else ag_lifecycle_state s)
       (Some (str_or (normalized_text (ag_desired_state s)) (default_desired_state (ag_state s))))
       (Some (str_or (normalized_text (ag_reconcile_state s)) (default_reconcile_state (ag_state s))))
       (ag_restart_count s) (normalized_text (ag_last_reconcile_at s)) (normalized_text (ag_last_failure_reason s))).
Definition with_name (a : RuntimeAuthority) (n : string) : RuntimeAuthority :=
  mkAuthority n (ag_started_at a) (ag_runtime_ref a) (ag_session_ref a) (ag_workspace_path a) (ag_project_id a)
    (ag_backend_type a) (ag_socket_path a) (ag_provider a) (ag_runtime_root a) (ag_runtime_pid a) (ag_terminal_backend a)
    (ag_pane_id a) (ag_pane_title_marker a) (ag_tmux_socket_name a) (ag_tmux_socket_path a) (ag_tmux_window_name a)
    (ag_tmux_window_id a) (ag_session_file a) (ag_session_id a) (ag_slot_key a) (ag_window_id a) (ag_workspace_epoch a)
    (ag_binding_generation a) (ag_managed_by a) (ag_binding_source a) (ag_daemon_generation a) (ag_runtime_generation a)
    (ag_mount_attempt_id a).
Definition runtime_post_init (r : AgentRuntime) : result AgentRuntime :=
  n ← normalize_agent_name (ag_agent_name r);
  _ ← validate_runtime_fields (ag_authority r) (ag_fields r);
  mret (normalize_runtime_defaults (with_name (ag_authority r) n) (ag_fields r)).

(** ** [dataclasses.replace]

    The keyword arguments that are used, in order; the constructor runs again. *)
Inductive RuntimeUpdate :=
  | U_state (s : AgentState)
  | U_pid (n : option Z)
  | U_last_seen_at (t : option string)
  | U_queue_depth (n : Z)
  | U_health (h : string)
  | U_active_pane_id (p : option string)
  | U_pane_state (p : option string)
  | U_lifecycle_state (s : option string)
  | U_desired_state (s : option string)
  | U_reconcile_state (s : option string)
  | U_restart_count (n : Z)
  | U_last_reconcile_at (t : option string)
  | U_last_failure_reason (r : option string)
  | U_workspace_path (p : option string)
  | U_backend_type (b : string)
  | U_provider (p : option string)
  | U_daemon_generation (g : option Z)
  | U_mount_attempt_id (i : option string).
Definition update_state (u : RuntimeUpdate) (s : RuntimeState) : RuntimeState :=
  let 'mkState st pid seen depth health pane ps life des rec count at_ reason := s in
  match u with
  | U_state x => mkState x pid seen depth health pane ps life des rec count at_ reason
  | U_pid x => mkState st x seen depth health pane ps life des rec count at_ reason
  | U_last_seen_at x => mkState st pid x depth health pane ps life des rec count at_ reason
  | U_queue_depth x => mkState st pid seen x health pane ps life des rec count at_ reason
  | U_health x => mkState st pid seen depth x pane ps life des rec count at_ reason
  | U_active_pane_id x => mkState st pid seen depth health x ps life des rec count at_ reason
  | U_pane_state x => mkState st pid seen depth health pane x life des rec count at_ reason
  | U_lifecycle_state x => mkState st pid seen depth health pane ps x des rec count at_ reason
  | U_desired_state x => mkState st pid seen depth health pane ps life x rec count at_ reason
  | U_reconcile_state x => mkState st pid seen depth health pane ps life des x count at_ reason
  | U_restart_count x => mkState st pid seen depth health pane ps life des rec x at_ reason
  | U_last_reconcile_at x => mkState st pid seen depth health pane ps life des rec count x reason
  | U_last_failure_reason x => mkState st pid seen depth health pane ps life des rec count at_ x
  | _ => s
  end.
Definition update_authority (u : RuntimeUpdate) (a : RuntimeAuthority) : RuntimeAuthority :=
  let 'mkAuthority name started rref sref work proj back sock prov root rpid term pane title tname tpath wname wid sfile sid slot win
        epoch bgen man src dgen rgen att := a in
  match u with
  | U_workspace_path x => mkAuthority name started rref sref x proj back sock prov root rpid term pane title tname tpath wname wid
      sfile sid slot win epoch bgen man src dgen rgen att
  | U_backend_type x => mkAuthority name started rref sref work proj x sock prov root rpid term pane title tname tpath wname wid
      sfile sid slot win epoch bgen man src dgen rgen att
  | U_provider x => mkAuthority name started rref sref work proj back sock x root rpid term pane title tname tpath wname wid
      sfile sid slot win epoch bgen man src dgen rgen att
  | U_daemon_generation x => mkAuthority name started rref sref work proj back sock prov root rpid term pane title tname tpath wname
      wid sfile sid slot win epoch bgen man src x rgen att
  | U_mount_attempt_id x => mkAuthority name started rref sref work proj back sock prov root rpid term pane title tname tpath wname
      wid sfile sid slot win epoch bgen man src dgen rgen x
  | _ => a
  end.
Definition apply_update (r : AgentRuntime) (u : RuntimeUpdate) : AgentRuntime :=
  mkRuntime (update_authority u (ag_authority r)) (update_state u (ag_fields r)).
Definition replace (r : AgentRuntime) (updates : list RuntimeUpdate) : result AgentRuntime :=
  runtime_post_init (foldl apply_update r updates).

(** ** The record *)
Definition runtime_to_record (r : AgentRuntime) : pydict :=
  [ ("schema_version", PInt agent_schema_version); ("record_type", PStr "agent_runtime"); ("agent_name", PStr (ag_agent_name r));
    ("state", PStr (agent_state_value (ag_state r))); ("pid", of_opt_int (ag_pid r)); ("started_at", of_opt_str (ag_started_at r));
    ("last_seen_at", of_opt_str (ag_last_seen_at r)); ("runtime_ref", of_opt_str (ag_runtime_ref r));
    ("session_ref", of_opt_str (ag_session_ref r)); ("workspace_path", of_opt_str (ag_workspace_path r));
    ("project_id", PStr (ag_project_id r)); ("backend_type", PStr (ag_backend_type r)); ("queue_depth", PInt (ag_queue_depth r));
    ("socket_path", of_opt_str (ag_socket_path r)); ("health", PStr (ag_health r)); ("provider", of_opt_str (ag_provider r));
    ("runtime_root", of_opt_str (ag_runtime_root r)); ("runtime_pid", of_opt_int (ag_runtime_pid r));
    ("terminal_backend", of_opt_str (ag_terminal_backend r)); ("pane_id", of_opt_str (ag_pane_id r));
    ("active_pane_id", of_opt_str (ag_active_pane_id r)); ("pane_title_marker", of_opt_str (ag_pane_title_marker r));
    ("pane_state", of_opt_str (ag_pane_state r)); ("tmux_socket_name", of_opt_str (ag_tmux_socket_name r));
    ("tmux_socket_path", of_opt_str (ag_tmux_socket_path r)); ("tmux_window_name", of_opt_str (ag_tmux_window_name r));
    ("tmux_window_id", of_opt_str (ag_tmux_window_id r)); ("session_file", of_opt_str (ag_session_file r));
    ("session_id", of_opt_str (ag_session_id r)); ("slot_key", of_opt_str (ag_slot_key r)); ("window_id", of_opt_str (ag_window_id r));
    ("workspace_epoch", of_opt_int (ag_workspace_epoch r)); ("lifecycle_state", of_opt_str (ag_lifecycle_state r));
    ("binding_generation", PInt (ag_binding_generation r)); ("managed_by", PStr (ag_managed_by r));
    ("binding_source", PStr (binding_source_value (ag_binding_source r))); ("daemon_generation", of_opt_int (ag_daemon_generation r));
    ("runtime_generation", of_opt_int (ag_runtime_generation r)); ("desired_state", of_opt_str (ag_desired_state r));
    ("reconcile_state", of_opt_str (ag_reconcile_state r)); ("restart_count", PInt (ag_restart_count r));
    ("last_reconcile_at", of_opt_str (ag_last_reconcile_at r)); ("last_failure_reason", of_opt_str (ag_last_failure_reason r));
    ("mount_attempt_id", of_opt_str (ag_mount_attempt_id r)) ].
(** [int(v) if v is not None else None]. *)
Definition int_or_none (v : pyval) : result (option Z) := match v with PNone => mret None | _ => n ← py_int v; mret (Some n) end.
Definition as_int (field : string) (v : pyval) : result Z := match v with PInt n => mret n | _ => Err (IllTyped field) end.
Definition binding_sources : list RuntimeBindingSource := [RB_provider_session; RB_external_attach].
Definition runtime_from_record (d : pydict) : result AgentRuntime :=
  _ ← validate_record agent_schema_version "agent_runtime" d;
  name ← (dindex "agent_name" d ≫= as_str "agent_name");
  state ← (dindex "state" d ≫= enum_of_val "AgentState" agent_state_value agent_states);
  pid ← opt_int "pid" (dget "pid" d);
  started_at ← opt_str "started_at" (dget "started_at" d);
  last_seen_at ← opt_str "last_seen_at" (dget "last_seen_at" d);
  runtime_ref ← opt_str "runtime_ref" (dget "runtime_ref" d);
  session_ref ← opt_str "session_ref" (dget "session_ref" d);
  workspace_path ← opt_str "workspace_path" (dget "workspace_path" d);
  project_id ← (dindex "project_id" d ≫= as_str "project_id");
  backend_type ← (dindex "backend_type" d ≫= as_str "backend_type");
  queue_depth ← (dindex "queue_depth" d ≫= as_int "queue_depth");
  socket_path ← opt_str "socket_path" (dget "socket_path" d);
  health ← (dindex "health" d ≫= as_str "health");
  provider ← opt_str "provider" (dget "provider" d);
  runtime_root ← opt_str "runtime_root" (dget "runtime_root" d);
  runtime_pid ← opt_int "runtime_pid" (dget "runtime_pid" d);
  terminal_backend ← opt_str "terminal_backend" (dget "terminal_backend" d);
  pane_id ← opt_str "pane_id" (dget "pane_id" d);
  active_pane_id ← opt_str "active_pane_id" (dget "active_pane_id" d);
  pane_title_marker ← opt_str "pane_title_marker" (dget "pane_title_marker" d);
  pane_state ← opt_str "pane_state" (dget "pane_state" d);
  tmux_socket_name ← opt_str "tmux_socket_name" (dget "tmux_socket_name" d);
  tmux_socket_path ← opt_str "tmux_socket_path" (dget "tmux_socket_path" d);
  tmux_window_name ← opt_str "tmux_window_name" (dget "tmux_window_name" d);
  tmux_window_id ← opt_str "tmux_window_id" (dget "tmux_window_id" d);
  session_file ← opt_str "session_file" (dget "session_file" d);
  session_id ← opt_str "session_id" (dget "session_id" d);
  slot_key ← opt_str "slot_key" (dget "slot_key" d);
  window_id ← opt_str "window_id" (dget "window_id" d);
  workspace_epoch ← int_or_none (dget "workspace_epoch" d);
  lifecycle_state ← opt_str "lifecycle_state" (dget "lifecycle_state" d);
  binding_generation ← py_int (dget_or "binding_generation" (PInt 1) d);
  managed_by ← as_str "managed_by" (dget_or "managed_by" (PStr "ccbd") d);
  binding_source ← enum_of_val "RuntimeBindingSource" binding_source_value binding_sources
                     (dget_or "binding_source" (PStr "provider-session") d);
  daemon_generation ← int_or_none (dget "daemon_generation" d);
  runtime_generation ← int_or_none (dget "runtime_generation" d);
  desired_state ← opt_str "desired_state" (dget "desired_state" d);
  reconcile_state ← opt_str "reconcile_state" (dget "reconcile_state" d);
  restart_count ← py_int (dget_or "restart_count" (PInt 0) d);
  last_reconcile_at ← opt_str "last_reconcile_at" (dget "last_reconcile_at" d);
  last_failure_reason ← opt_str "last_failure_reason" (dget "last_failure_reason" d);
  mount_attempt_id ← opt_str "mount_attempt_id" (dget "mount_attempt_id" d);
  runtime_post_init (mkRuntime
    (mkAuthority name started_at runtime_ref session_ref workspace_path project_id backend_type socket_path provider runtime_root
       runtime_pid terminal_backend pane_id pane_title_marker tmux_socket_name tmux_socket_path tmux_window_name tmux_window_id
       session_file session_id slot_key window_id workspace_epoch binding_generation managed_by binding_source daemon_generation
       runtime_generation mount_attempt_id)
    (mkState state pid last_seen_at queue_depth health active_pane_id pane_state lifecycle_state desired_state reconcile_state
       restart_count last_reconcile_at last_failure_reason)).

#[export] Instance runtime_codec : Codec AgentRuntime := {
  post_init := runtime_post_init; to_record := runtime_to_record; from_record := runtime_from_record
}.

(** ** Bindings ([agents/runtime_binding.py]) *)
Record RuntimeBinding := mkBinding { rb_runtime_ref : option string; rb_session_ref : option string; rb_workspace_path : option string }.
Definition build_runtime_binding (runtime_ref session_ref workspace_path : option string) : RuntimeBinding :=
  mkBinding (normalized_text runtime_ref) (normalized_text session_ref) (normalized_text workspace_path).
Definition first_of (a b : option string) : option string := match a with Some _ => a | None => b end.
Definition merge_runtime_binding (existing : RuntimeBinding) (runtime_ref session_ref workspace_path : option string) : RuntimeBinding :=
  build_runtime_binding (first_of runtime_ref (rb_runtime_ref existing)) (first_of session_ref (rb_session_ref existing))
    (first_of workspace_path (rb_workspace_path existing)).
Definition runtime_binding_from_runtime (r : option AgentRuntime) : RuntimeBinding :=
  match r with
  | None => build_runtime_binding None None None
  | Some r => build_runtime_binding (ag_runtime_ref r) (ag_session_ref r) (ag_workspace_path r)
  end.
Definition binding_status (b : RuntimeBinding) : string :=
  let set o := default "" o ≠ˢ "" in
  if set (rb_runtime_ref b) && set (rb_session_ref b) && set (rb_workspace_path b) then "bound"
  else if set (rb_runtime_ref b) || set (rb_session_ref b) || set (rb_workspace_path b) then "partial" else "unbound".

(** ** Records survive *)
Lemma normalized_text_idem v : normalized_text (normalized_text v) = normalized_text v.
Proof.
  unfold normalized_text. destruct (or_none (strip (default "" v))) as [t|] eqn:E; [|done]. cbn.
  by apply or_none_strip in E.
Qed.
Lemma str_or_idem v d : normalized_text (Some d) = Some d → str_or (normalized_text (Some (str_or (normalized_text v) d))) d = str_or (normalized_text v) d.
Proof.
  intros Hd. destruct (normalized_text v) as [t|] eqn:E; cbn [str_or]; [|rewrite Hd; cbn; by destruct (d =ˢ "")].
  case_bool_decide as Ht; [rewrite Hd; cbn; by destruct (d =ˢ "")|].
  assert (normalized_text (Some t) = Some t) as ->; [rewrite <- E; apply normalized_text_idem|]. cbn. by rewrite bool_decide_ne.
Qed.
Lemma state_text s : strip (agent_state_value s) ≠ "".
Proof. by destruct s. Qed.
Lemma agent_name_text name n : normalize_agent_name name = Ok n → normalized_text (Some n) = Some n.
Proof.
  intros (_ & Hne & Hpat & _)%normalize_agent_name_inv. unfold normalized_text. cbn. rewrite (agent_name_pattern_strip n Hpat).
  unfold or_none. by rewrite bool_decide_ne.
Qed.
Lemma defaults_idem a s n : normalized_text (Some n) = Some n →
  let r := normalize_runtime_defaults (with_name a n) s in
  normalize_runtime_defaults (with_name (ag_authority r) n) (ag_fields r) = r.
Proof.
  intros Hn. cbv zeta. unfold normalize_runtime_defaults. cbn. rewrite !normalized_text_idem.
  rewrite !str_or_idem by (done || by destruct (ag_state s)).
  assert (∀ t, (if strip (default "" (if strip (default "" t) =ˢ "" then Some (agent_state_value (ag_state s)) else t)) =ˢ ""
    then Some (agent_state_value (ag_state s)) else if strip (default "" t) =ˢ "" then Some (agent_state_value (ag_state s)) else t) =
    (if strip (default "" t) =ˢ "" then Some (agent_state_value (ag_state s)) else t)) as Hlife; [|by rewrite Hlife].
  intros t. destruct (decide (strip (default "" t) = "")) as [Hl|Hl].
  - rewrite (bool_decide_eq_true_2 _ Hl). cbn. by rewrite bool_decide_ne by apply state_text.
  - by rewrite (bool_decide_ne Hl), (bool_decide_ne Hl).
Qed.
Lemma runtime_post_init_idem r r' : runtime_post_init r = Ok r' → runtime_post_init r' = Ok r'.
Proof.
  unfold runtime_post_init. intros (n & Hn & H)%result_bind_Ok_inv. apply result_bind_Ok_inv in H as ([] & Hv & [= <-]).
  set (d := normalize_runtime_defaults (with_name (ag_authority r) n) (ag_fields r)).
  change (ag_agent_name d) with n. rewrite (normalize_agent_name_idem' _ _ Hn), result_bind_ok.
  assert (validate_runtime_fields (ag_authority d) (ag_fields d) = Ok tt) as -> by exact Hv. rewrite result_bind_ok.
  unfold mret, result_ret. f_equal. apply defaults_idem. by eapply agent_name_text.
Qed.
Lemma agent_state_of s : enum_of_val "AgentState" agent_state_value agent_states (PStr (agent_state_value s)) = Ok s.
Proof. by destruct s. Qed.
Lemma binding_source_of s : enum_of_val "RuntimeBindingSource" binding_source_value binding_sources (PStr (binding_source_value s)) = Ok s.
Proof. by destruct s. Qed.
Lemma int_or_none_of o : int_or_none (of_opt_int o) = Ok o.
Proof. by destruct o. Qed.
#[export] Instance runtime_codec_laws : CodecLaws AgentRuntime.
Proof.
  split.
  - apply runtime_post_init_idem.
  - intros d r H. unfold from_record, runtime_codec, runtime_from_record in H.
    repeat match type of H with (_ ≫= _) = _ => apply result_bind_Ok_inv in H as (? & _ & H) end. by apply runtime_post_init_idem in H.
  - intros r Hr. unfold from_record, to_record, runtime_codec, runtime_from_record, runtime_to_record.
    rewrite validate_record_ok by reflexivity. rewrite result_bind_ok. dict_simpl. cbn [as_str as_int mbind result_bind].
    rewrite agent_state_of, ?result_bind_ok, ?opt_int_of, ?result_bind_ok, ?opt_str_of, ?result_bind_ok.
    cbn [mret result_ret as_str as_int mbind result_bind]. rewrite ?int_or_none_of, ?opt_int_of, ?binding_source_of.
    cbn [mret result_ret as_str as_int py_int mbind result_bind]. rewrite ?binding_source_of, ?int_or_none_of.
    cbn [mret result_ret as_str as_int py_int mbind result_bind].
    destruct r as [[] []]. exact Hr.
Qed.
