(* ===== verification/Topology.v ===== *)
(** * The topology of a project's namespace

    [services/project_namespace_runtime/topology_plan.py]: the windows and panes
    a configuration asks for; [reload_additive_agents.py] and
    [reload_append_layout.py]: how the panes of new agents are appended to a
    window that is already there. *)
From S2P Require Import Prelude PyValue Names AgentModels Layout ProjectConfig.
Open Scope string_scope.
Open Scope list_scope.
Open Scope Z_scope.

(** ** The plan of a topology *)
Record SidebarPanePlan := mkSidebarPane {
  sp_mode : string;
  sp_width : pane_size;
  sp_bottom_height : Z;
  sp_launch_args : list string
}.
Record NamespaceWindowPlan := mkWindowPlan {
  nw_name : string;
  nw_order : Z;
  nw_user_layout : string;
  nw_realized_layout : string;
  nw_agent_names : list string;
  nw_sidebar : option SidebarPanePlan
}.
Record NamespaceTopologyPlan := mkTopology {
  nt_signature : string;
  nt_entry_window : string;
  nt_windows : list NamespaceWindowPlan;
  nt_sidebar_enabled : bool
}.

Definition realized_layout (user_layout : string) (sidebar_enabled : bool) : string :=
  if sidebar_enabled then "sidebar; (" +:+ user_layout +:+ ")" else user_layout.
Definition sidebar_launch_args (ccbd_socket_path project_root : option string) (window_name : string) : list string :=
  ["ccb-agent-sidebar"] ++
  (match or_none (default "" ccbd_socket_path) with Some p => ["--ccbd-socket"; p] | None => [] end) ++
  (match or_none (default "" project_root) with Some p => ["--project-root"; p] | None => [] end) ++
  ["--pane-window"; window_name].
Definition window_plan (w : WindowSpec) (sidebar : option SidebarSpec) (ccbd_socket_path project_root : option string)
    : NamespaceWindowPlan :=
  mkWindowPlan (wn_name w) (wn_order w) (wn_layout_spec w)
    (realized_layout (wn_layout_spec w) (match sidebar with Some _ => true | None => false end)) (wn_agent_names w)
    ((λ s, mkSidebarPane (sb_mode s) (sb_width s) (sb_bottom_height s)
             (sidebar_launch_args ccbd_socket_path project_root (wn_name w))) <$> sidebar).
Definition build_namespace_topology_plan `{SignatureLib} (c : ProjectConfig)
    (ccbd_socket_path project_root : option string) : NamespaceTopologyPlan :=
  let sidebar_enabled := sb_mode (pc_sidebar c) =ˢ "every_window" in
  mkTopology (signature_of (topology_signature_payload (pc_windows c) (pc_entry_window c) (pc_sidebar c)))
    (pc_entry_window c)
    ((λ w, window_plan w (if sidebar_enabled then Some (pc_sidebar c) else None) ccbd_socket_path project_root)
       <$> pc_windows c)
    sidebar_enabled.

(** [{window.name: window for window in topology.windows}]: of windows with one
    name the last counts. *)
Definition window_map (t : NamespaceTopologyPlan) : list (string * NamespaceWindowPlan) :=
  foldl (λ m w, od_set (nw_name w) w m) [] (nt_windows t).
(** [set(windows) - set(others)]. *)
Definition windows_except (windows others : list (string * NamespaceWindowPlan)) : list string :=
  List.filter (λ n, negb (bool_decide (n ∈ others.*1))) windows.*1.
Definition agent_window_pairs (t : NamespaceTopologyPlan) : list (string * string) :=
  concat ((λ w, pair (nw_name w) <$> nw_agent_names w) <$> nt_windows t).
Definition new_agent_targets (old_topology new_topology : NamespaceTopologyPlan) : list (string * string) :=
  List.filter (λ p, negb (bool_decide (p ∈ agent_window_pairs old_topology))) (agent_window_pairs new_topology).
(** [patch_validation_targets.py]. *)
Definition removed_agent_targets (old_topology new_topology : NamespaceTopologyPlan) : list (string * string) :=
  List.filter (λ p, negb (bool_decide (p ∈ agent_window_pairs new_topology))) (agent_window_pairs old_topology).

(** ** Appending agents to a window *)
Inductive split_direction := SD_right | SD_bottom.
#[export] Instance split_direction_eq_dec : EqDecision split_direction.
Proof. solve_decision. Defined.
Definition direction_of (k : branch_kind) : split_direction :=
  match k with horizontal => SD_right | vertical => SD_bottom end.
Record AppendAgentPlan := mkAppend { ap_agent : string; ap_direction : split_direction }.
#[export] Instance AppendAgentPlan_eq_dec : EqDecision AppendAgentPlan.
Proof. solve_decision. Defined.

Fixpoint expanded_leaf_append_plan (anchor : LayoutNode) (new : LayoutNode) : option (list AppendAgentPlan) :=
  match new with
  | Leaf _ => if render new =ˢ render anchor then Some [] else None
  | Branch k l r =>
      left_plan ← expanded_leaf_append_plan anchor l;
      match r with
      | Leaf leaf => Some (left_plan ++ [mkAppend (lf_name leaf) (direction_of k)])
      | Branch _ _ _ => None
      end
  end.
Fixpoint rightmost_leaf_append_plan_for_nodes (old new : LayoutNode) {struct old} : option (list AppendAgentPlan) :=
  match old with
  | Leaf _ => expanded_leaf_append_plan old new
  | Branch k l r =>
      match new with
      | Branch k' l' r' =>
          if negb (bool_decide (k = k')) then None
          else if render l ≠ˢ render l' then None
          else rightmost_leaf_append_plan_for_nodes r r'
      | Leaf _ => None
      end
  end.
Fixpoint all_branch_kinds (kind : branch_kind) (n : LayoutNode) : bool :=
  match n with
  | Leaf _ => true
  | Branch k l r => bool_decide (k = kind) && all_branch_kinds kind l && all_branch_kinds kind r
  end.
Definition sequence_kind (n : LayoutNode) : option branch_kind :=
  match n with
  | Leaf _ => None
  | Branch k _ _ => if all_branch_kinds k n then Some k else None
  end.
Definition trailing_sequence_append_plan (old new : LayoutNode) : option (list AppendAgentPlan) :=
  let old_leaves := iter_layout_names old in
  let new_leaves := iter_layout_names new in
  if bool_decide (old_leaves = []) || negb (bool_decide (take (length old_leaves) new_leaves = old_leaves)) then None
  else match drop (length old_leaves) new_leaves with
       | [] => Some []
       | appended =>
           match sequence_kind old, sequence_kind new with
           | Some k, Some k' =>
               if bool_decide (k = k') then Some ((λ a, mkAppend a (direction_of k)) <$> appended) else None
           | _, _ => None
           end
       end.
Definition rightmost_leaf_append_plan (old_window new_window : NamespaceWindowPlan) : option (list AppendAgentPlan) :=
  match parse_layout_spec (nw_user_layout old_window), parse_layout_spec (nw_user_layout new_window) with
  | Ok old_layout, Ok new_layout =>
      match rightmost_leaf_append_plan_for_nodes old_layout new_layout with
      | Some plan => Some plan
      | None => trailing_sequence_append_plan old_layout new_layout
      end
  | _, _ => None
  end.
(** The panes to append: none, some, or [None] when it cannot be done. *)
Definition append_agent_plan_for_window (old_window new_window : NamespaceWindowPlan) : option (list AppendAgentPlan) :=
  let old_agents := nw_agent_names old_window in
  let new_agents := nw_agent_names new_window in
  if bool_decide (old_agents = new_agents) then Some []
  else if (length new_agents <? length old_agents)%nat then Some []
  else if negb (bool_decide (take (length old_agents) new_agents = old_agents)) then None
  else plan ← rightmost_leaf_append_plan old_window new_window;
       if bool_decide (ap_agent <$> plan = drop (length old_agents) new_agents) then Some plan else None.
Fixpoint append_windows_from (old_windows new_windows : list (string * NamespaceWindowPlan))
    : option (list (string * list AppendAgentPlan)) :=
  match new_windows with
  | [] => Some []
  | (name, new_window) :: rest =>
      match od_lookup name old_windows with
      | None => append_windows_from old_windows rest
      | Some old_window =>
          plan ← append_agent_plan_for_window old_window new_window;
          rest' ← append_windows_from old_windows rest;
          Some (match plan with [] => rest' | _ => (name, plan) :: rest' end)
      end
  end.
Definition append_agent_windows (old_topology new_topology : NamespaceTopologyPlan)
    : option (list (string * list AppendAgentPlan)) :=
  append_windows_from (window_map old_topology) (window_map new_topology).

Arguments append_agent_plan_for_window : simpl never.
