(* ===== verification/ReloadPlan.v ===== *)
(** * Planning a reload

    [ccbd/reload_plan.py]: what differs between the published configuration and
    the one on disk; [reload_patch.py], [reload_patch_additive_agents.py],
    [reload_patch_remove_agents.py]: the steps that would change the panes;
    [reload_apply_plan.py]: whether the plan may be applied;
    [patch_validation_*.py], [additive_patch_validation.py]: the check of the
    plan before panes are touched. *)
From S2P Require Import Prelude PyValue Names AgentModels Layout ProjectConfig Topology.
Open Scope string_scope.
Open Scope list_scope.
Open Scope Z_scope.

(** ** Operations *)
Inductive ReloadOperation :=
  | OpViewOnly
  | OpUnclassified
  | OpAddWindow (window : string) (agents : list string)
  | OpAddAgent (agent : string) (window : option string)
  | OpRemoveAgent (agent : string) (window : option string)
  | OpMoveAgent (agent : string) (from_window to_window : option string)
  | OpReplaceAgent (agent : string) (fields : list string)
  | OpRemoveWindow (window : string)
  | OpWindowLayout (window : string) (fields : list string)
  | OpEntryWindow (old new : string)
  | OpSidebar.
#[export] Instance ReloadOperation_eq_dec : EqDecision ReloadOperation.
Proof. solve_decision. Defined.

(** The keys of the dictionary the code builds. *)
Definition op_name (o : ReloadOperation) : string :=
  match o with
  | OpViewOnly => "view_only_change"
  | OpAddWindow _ _ => "add_window"
  | OpAddAgent _ _ => "add_agent"
  | OpRemoveAgent _ _ => "remove_agent"
  | OpMoveAgent _ _ _ => "move_agent"
  | OpReplaceAgent _ _ => "replace_agent"
  | OpUnclassified | OpRemoveWindow _ | OpWindowLayout _ _ | OpEntryWindow _ _ | OpSidebar => "layout_change"
  end.
Definition op_agent (o : ReloadOperation) : option string :=
  match o with
  | OpAddAgent a _ | OpRemoveAgent a _ | OpMoveAgent a _ _ | OpReplaceAgent a _ => Some a
  | _ => None
  end.
Definition op_window (o : ReloadOperation) : option string :=
  match o with
  | OpAddWindow w _ | OpRemoveWindow w | OpWindowLayout w _ => Some w
  | OpAddAgent _ w | OpRemoveAgent _ w => w
  | _ => None
  end.
Definition op_field (o : ReloadOperation) : option string :=
  match o with
  | OpViewOnly => Some "sidebar_view"
  | OpEntryWindow _ _ => Some "entry_window"
  | OpSidebar => Some "sidebar"
  | _ => None
  end.
Definition op_change (o : ReloadOperation) : option string :=
  match o with
  | OpUnclassified => Some "unclassified_identity_change"
  | OpRemoveWindow _ => Some "remove_window"
  | _ => None
  end.
Definition op_reason (o : ReloadOperation) : string :=
  match o with
  | OpViewOnly => "config identity is unchanged; only presentation fields affect the diff"
  | OpUnclassified => "config identity changed but no narrower Phase 3 operation was detected"
  | OpAddWindow _ _ => "window exists only in new config"
  | OpAddAgent _ _ => "agent exists only in new config"
  | OpRemoveAgent _ _ => "agent exists only in current published config"
  | OpMoveAgent _ _ _ => "existing agent window membership changed"
  | OpReplaceAgent _ _ => "existing agent spec changed"
  | OpRemoveWindow _ => "window exists only in current published config"
  | OpWindowLayout _ _ => "existing window layout changed without adding or removing agents"
  | OpEntryWindow _ _ => "entry window changed"
  | OpSidebar => "sidebar topology changed"
  end.

(** ** Differences *)
Definition agent_window_map (c : ProjectConfig) : list (string * string) :=
  foldl (λ m w, foldl (λ m a, od_set a (wn_name w) m) m (wn_agent_names w)) [] (pc_windows c).
Definition window_record_map (c : ProjectConfig) : list (string * WindowSpec) :=
  foldl (λ m w, od_set (wn_name w) w m) [] (pc_windows c).
(** [sorted(names, key=lambda name: (order.get(name, 999999), name))]. *)
Definition window_order (c : ProjectConfig) (name : string) : Z :=
  default 999999 (wn_order <$> od_lookup name (window_record_map c)).
Definition before_in_order (c : ProjectConfig) (x y : string) : bool :=
  let ox := window_order c x in
  let oy := window_order c y in
  (ox <? oy) || ((ox =? oy) && String.leb x y).
Fixpoint insert_in_order (c : ProjectConfig) (x : string) (l : list string) : list string :=
  match l with
  | [] => [x]
  | y :: l' => if before_in_order c x y then x :: y :: l' else y :: insert_in_order c x l'
  end.
Definition ordered_windows (c : ProjectConfig) (names : list string) : list string :=
  foldr (insert_in_order c) [] names.

(** Set operations on the keys of dictionaries. *)
Definition keys_minus (l1 l2 : list string) : list string := List.filter (λ n, negb (bool_decide (n ∈ l2))) l1.
Definition keys_and (l1 l2 : list string) : list string := List.filter (λ n, bool_decide (n ∈ l2)) l1.

Definition agent_record (s : AgentSpec) : pydict :=
  dpop "record_type" (dpop "schema_version" (spec_to_record s)).
Definition changed_fields (old_record new_record : pydict) : list string :=
  sorted_strings (List.filter (λ k, negb (py_eqb (dget k old_record) (dget k new_record)))
    (old_record.*1 ++ keys_minus new_record.*1 old_record.*1)).
Definition canonical_config_record `{SignatureLib} (c : ProjectConfig) (include_sidebar_view : bool) : pydict :=
  let record := foldr dpop (config_to_record c) ["source_path"; "record_type"; "schema_version"] in
  if include_sidebar_view then record else dpop "sidebar_view" record.

Definition window_layout_changes (old_record new_record : WindowSpec) : list string :=
  (if wn_order old_record =? wn_order new_record then [] else ["order"]) ++
  (if wn_layout_spec old_record =ˢ wn_layout_spec new_record then [] else ["layout_spec"]) ++
  (if bool_decide (wn_agent_names old_record = wn_agent_names new_record) then [] else ["agent_names"]).
Definition same_agents (l1 l2 : list string) : bool :=
  forallb (λ a, bool_decide (a ∈ l2)) l1 && forallb (λ a, bool_decide (a ∈ l1)) l2.
Definition window_layout_operation (old_windows new_windows : list (string * WindowSpec)) (name : string)
    : list ReloadOperation :=
  match od_lookup name old_windows, od_lookup name new_windows with
  | Some old_record, Some new_record =>
      if negb (same_agents (wn_agent_names old_record) (wn_agent_names new_record)) then []
      else match window_layout_changes old_record new_record with
           | [] => []
           | changed => [OpWindowLayout name changed]
           end
  | _, _ => []
  end.
Definition topology_operations (current_config new_config : ProjectConfig) : list ReloadOperation :=
  let old_windows := window_record_map current_config in
  let new_windows := window_record_map new_config in
  (OpRemoveWindow <$> ordered_windows current_config (keys_minus old_windows.*1 new_windows.*1)) ++
  concat (window_layout_operation old_windows new_windows <$>
            ordered_windows new_config (keys_and old_windows.*1 new_windows.*1)) ++
  (if pc_entry_window current_config =ˢ pc_entry_window new_config then []
   else [OpEntryWindow (pc_entry_window current_config) (pc_entry_window new_config)]) ++
  (if py_eqb (PDict (sidebar_to_record (pc_sidebar current_config))) (PDict (sidebar_to_record (pc_sidebar new_config)))
   then [] else [OpSidebar]).

Definition move_operation (current_config new_config : ProjectConfig) (name : string) : list ReloadOperation :=
  let old_window := od_lookup name (agent_window_map current_config) in
  let new_window := od_lookup name (agent_window_map new_config) in
  if bool_decide (old_window = new_window) then [] else [OpMoveAgent name old_window new_window].
Definition replace_operation (current_config new_config : ProjectConfig) (name : string) : list ReloadOperation :=
  match od_lookup name (pc_agents current_config), od_lookup name (pc_agents new_config) with
  | Some old_spec, Some new_spec =>
      if py_eqb (PDict (agent_record old_spec)) (PDict (agent_record new_spec)) then []
      else [OpReplaceAgent name (changed_fields (agent_record old_spec) (agent_record new_spec))]
  | _, _ => []
  end.
Definition build_operations (current_config new_config : ProjectConfig) : list ReloadOperation :=
  let old_agents := (pc_agents current_config).*1 in
  let new_agents := (pc_agents new_config).*1 in
  let new_windows := window_record_map new_config in
  let kept := sorted_strings (keys_and old_agents new_agents) in
  ((λ n, OpAddWindow n (default [] (wn_agent_names <$> od_lookup n new_windows))) <$>
     ordered_windows new_config (keys_minus new_windows.*1 (window_record_map current_config).*1)) ++
  ((λ n, OpAddAgent n (od_lookup n (agent_window_map new_config))) <$> sorted_strings (keys_minus new_agents old_agents)) ++
  ((λ n, OpRemoveAgent n (od_lookup n (agent_window_map current_config))) <$>
     sorted_strings (keys_minus old_agents new_agents)) ++
  concat (move_operation current_config new_config <$> kept) ++
  concat (replace_operation current_config new_config <$> kept) ++
  topology_operations current_config new_config.

(** ** The class of a plan *)
Definition PLAN_PRIORITY : list (string * Z) :=
  [ ("no_change", 0); ("view_only_change", 10); ("add_agent", 40); ("add_window", 50); ("layout_change", 60);
    ("move_agent", 70); ("remove_agent", 80); ("replace_agent", 90) ].
Definition priority_of (op : string) : Z := default 60 (od_lookup op PLAN_PRIORITY).
(** [max(ops, key=priority)]: the first of the greatest. *)
Definition greater_op (best op : string) : string := if priority_of best <? priority_of op then op else best.
Definition select_plan_class (operations : list ReloadOperation) : string :=
  match op_name <$> operations with
  | [] => "no_change"
  | op :: ops => foldl greater_op op ops
  end.
Definition removal_operation (o : ReloadOperation) : bool :=
  (op_name o =ˢ "remove_agent") || (op_name o =ˢ "layout_change") && (default "" (op_change o) =ˢ "remove_window").
Definition remove_agent_operations_are_safe (operations : list ReloadOperation) : bool :=
  negb (bool_decide (operations = [])) && forallb removal_operation operations &&
  existsb (λ o, op_name o =ˢ "remove_agent") operations.
Definition future_safe_to_apply (plan_class : string) (operations : list ReloadOperation) : bool :=
  if bool_decide (plan_class ∈ ["no_change"; "view_only_change"]) then true
  else if plan_class =ˢ "remove_agent" then remove_agent_operations_are_safe operations
  else if existsb (λ o, bool_decide (op_name o ∈ ["replace_agent"; "move_agent"; "layout_change"])) operations then false
  else bool_decide (plan_class ∈ ["add_agent"; "add_window"]).
Definition operation_reason (o : ReloadOperation) : string :=
  match or_none (strip (str_or (op_agent o) (str_or (op_window o) (default "" (op_field o))))) with
  | Some target => op_name o +:+ " " +:+ target +:+ ": " +:+ op_reason o
  | None => op_name o +:+ ": " +:+ op_reason o
  end.

(** ** The steps of a patch *)
Record NamespacePatchStep := mkStep {
  st_action : string;
  st_window : option string;
  st_agent : option string;
  st_role : option string;
  st_slot_key : option string;
  st_managed_by : string;
  st_anchor_agent : option string;
  st_reason : option string
}.
Definition MANAGED_BY : string := "ccbd".
Definition step (action : string) (window : string) (reason : string) : NamespacePatchStep :=
  mkStep action (Some window) None None None MANAGED_BY None (Some reason).
Definition pane_step (action window agent : string) (anchor : option string) (reason : string) : NamespacePatchStep :=
  mkStep action (Some window) (Some agent) (Some "agent") (Some agent) MANAGED_BY anchor (Some reason).
Definition step_to_record (s : NamespacePatchStep) : pydict :=
  ("action", PStr (st_action s)) ::
  concat ((λ kv, match or_none (default "" kv.2) with Some v => [(kv.1, PStr v)] | None => [] end) <$>
    [ ("window", st_window s); ("agent", st_agent s); ("role", st_role s); ("slot_key", st_slot_key s);
      ("managed_by", Some (st_managed_by s)); ("anchor_agent", st_anchor_agent s); ("reason", st_reason s) ]).

(** What stands in the way of a patch. *)
Record BlockedOperation := mkBlocked {
  bl_op : string;
  bl_agent : option string;
  bl_window : option string;
  bl_reason : string
}.
Abbreviation planned := (list NamespacePatchStep * list BlockedOperation)%type.
Definition no_steps : planned := ([], []).
Definition blocked_append (window_name reason : string) : planned :=
  ([], [mkBlocked "add_agent" None (Some window_name) reason]).
Definition blocked_remove (window_name reason : string) : planned :=
  ([], [mkBlocked "remove_agent" None (Some window_name) reason]).
Definition planned_app (p q : planned) : planned := (p.1 ++ q.1, p.2 ++ q.2).
Definition planned_concat (ps : list planned) : planned := foldr planned_app no_steps ps.

(** *** New agents in windows that stay *)
Fixpoint append_steps (window_name : string) (anchor : option string) (append_plan : list AppendAgentPlan)
    : list NamespacePatchStep :=
  match append_plan with
  | [] => []
  | a :: rest =>
      pane_step "create_agent_pane" window_name (ap_agent a) anchor "new agent appended to existing managed window"
      :: append_steps window_name (Some (ap_agent a)) rest
  end.
Definition steps_for_window (window_name : string) (old_window new_window : NamespaceWindowPlan) : planned :=
  let old_agents := nw_agent_names old_window in
  let new_agents := nw_agent_names new_window in
  if bool_decide (old_agents = new_agents) then no_steps
  else if (length new_agents <? length old_agents)%nat then no_steps
  else if negb (bool_decide (take (length old_agents) new_agents = old_agents))
  then blocked_append window_name "Phase 5 additive patch only supports appending new agents after existing panes"
  else match append_agent_plan_for_window old_window new_window with
       | None => blocked_append window_name
                   "Phase 5 additive patch only supports expanding the last existing agent pane"
       | Some append_plan => (append_steps window_name (last old_agents) append_plan, [])
       end.
Definition additive_agent_steps (old_topology new_topology : NamespaceTopologyPlan) : planned :=
  let old_windows := window_map old_topology in
  planned_concat ((λ nw, match od_lookup nw.1 old_windows with
                         | None => no_steps
                         | Some old_window => steps_for_window nw.1 old_window nw.2
                         end) <$> window_map new_topology).

(** *** Agents and windows that go *)
Definition remove_window_steps (window_name : string) (old_window : NamespaceWindowPlan) : planned :=
  match nw_agent_names old_window with
  | [] => blocked_remove window_name "cannot remove an empty managed window"
  | removed_agents =>
      (((λ a, pane_step "kill_agent_pane" window_name a None "agent window exists only in current published config")
          <$> removed_agents) ++
       [step "kill_window" window_name "window exists only in current published config"], [])
  end.
Definition window_remove_agent_steps (window_name : string) (old_window new_window : NamespaceWindowPlan) : planned :=
  let old_agents := nw_agent_names old_window in
  let new_agents := nw_agent_names new_window in
  match keys_minus old_agents new_agents with
  | [] => no_steps
  | removed =>
      if negb (bool_decide (keys_and old_agents new_agents = new_agents))
      then blocked_remove window_name
             "Phase 7 remove_agent only supports deleting agents while preserving remaining order"
      else ((λ a, pane_step "kill_agent_pane" window_name a None "agent exists only in current published config")
              <$> removed, [])
  end.
Definition remove_agent_steps (old_topology new_topology : NamespaceTopologyPlan) : planned :=
  let new_windows := window_map new_topology in
  planned_concat ((λ ow, match od_lookup ow.1 new_windows with
                         | None => remove_window_steps ow.1 ow.2
                         | Some new_window => window_remove_agent_steps ow.1 ow.2 new_window
                         end) <$> window_map old_topology).

(** *** New windows *)
Definition new_window_steps (w : NamespaceWindowPlan) : list NamespacePatchStep :=
  step "create_window" (nw_name w) "window exists only in new config" ::
  (match nw_sidebar w with
   | Some _ => [mkStep "create_sidebar_pane" (Some (nw_name w)) None (Some "sidebar") (Some ("sidebar:" +:+ nw_name w))
                  MANAGED_BY None (Some "new managed window needs a sidebar pane")]
   | None => []
   end) ++
  ((λ a, pane_step "create_agent_pane" (nw_name w) a None "new managed window needs an agent pane") <$> nw_agent_names w).
Definition additive_window_steps (old_topology new_topology : NamespaceTopologyPlan) : list NamespacePatchStep :=
  let old_windows := window_map old_topology in
  concat ((λ w, if bool_decide (nw_name w ∈ old_windows.*1) then [] else new_window_steps w) <$> nt_windows new_topology).

(** *** The plan *)
Definition SUPPORTED_OPS : list string := ["no_change"; "view_only_change"; "add_agent"; "add_window"; "remove_agent"].
Definition MUTATING_OPS : list string := ["add_agent"; "add_window"; "remove_agent"].
Definition blocked_unsupported_operations (operations : list ReloadOperation) : list BlockedOperation :=
  concat ((λ o,
    if (op_name o =ˢ "layout_change") && (default "" (op_change o) =ˢ "remove_window") then []
    else if bool_decide (op_name o ∈ SUPPORTED_OPS) then []
    else [mkBlocked (op_name o) (op_agent o) (op_window o)
            "namespace patch planner supports view-only, additive, and idle remove_agent operations"]) <$> operations).
Definition view_only_steps (operations : list ReloadOperation) : list NamespacePatchStep :=
  if existsb (λ o, op_name o =ˢ "view_only_change") operations
  then [mkStep "refresh_project_view" None None None None MANAGED_BY None
          (Some "presentation-only config changed; no tmux namespace mutation is required")]
  else [].
Definition planned_agents (action : string) (steps : list NamespacePatchStep) : list string :=
  omap (λ s, if st_action s =ˢ action then or_none (default "" (st_agent s)) else None) steps.
Definition operation_agents (op : string) (operations : list ReloadOperation) : list string :=
  omap (λ o, if op_name o =ˢ op then or_none (strip (default "" (op_agent o))) else None) operations.
Definition missing_agent_steps (op action reason : string) (operations : list ReloadOperation)
    (steps : list NamespacePatchStep) : list BlockedOperation :=
  (λ a, mkBlocked op (Some a) None reason) <$>
    sorted_strings (keys_minus (remove_dups (operation_agents op operations)) (planned_agents action steps)).

(** The namespace, as far as the scope of a patch depends on it. *)
Record CurrentNamespace := mkNamespace {
  ns_project_id : string;
  ns_tmux_socket_path : string;
  ns_tmux_session_name : string;
  ns_namespace_epoch : option Z;
  ns_ui_attachable : bool
}.
Definition scope_verified (project_id : option string) (namespace : option CurrentNamespace) : bool :=
  match namespace with
  | None => false
  | Some n =>
      let namespace_project_id := strip (ns_project_id n) in
      (namespace_project_id ≠ˢ "") && (strip (ns_tmux_socket_path n) ≠ˢ "") && (strip (ns_tmux_session_name n) ≠ˢ "") &&
      (match ns_namespace_epoch n with Some _ => true | None => false end) && ns_ui_attachable n &&
      (match or_none (strip (default "" project_id)) with
       | None => true
       | Some expected => expected =ˢ namespace_project_id
       end)
  end.

Inductive PatchStatus := PS_blocked | PS_no_op | PS_planned | PS_not_planned.
#[export] Instance PatchStatus_eq_dec : EqDecision PatchStatus.
Proof. solve_decision. Defined.
Definition patch_status_value (s : PatchStatus) : string :=
  match s with
  | PS_blocked => "blocked" | PS_no_op => "no_op" | PS_planned => "planned" | PS_not_planned => "not_planned"
  end.
Record NamespacePatchPlan := mkPatchPlan {
  pp_status : PatchStatus;
  pp_scope_verified : bool;
  pp_preserved_agents : list string;
  pp_steps : list NamespacePatchStep;
  pp_blocked_operations : list BlockedOperation
}.
Definition topology_agents (t : NamespaceTopologyPlan) : list string := concat (nw_agent_names <$> nt_windows t).
Definition preserved_agents (old_topology new_topology : NamespaceTopologyPlan) : list string :=
  sorted_strings (remove_dups (keys_and (topology_agents old_topology) (topology_agents new_topology))).
Definition build_namespace_patch_plan_for (old_topology new_topology : NamespaceTopologyPlan)
    (operations : list ReloadOperation) (verified : bool) : NamespacePatchPlan :=
  let blocked :=
    blocked_unsupported_operations operations ++
    (if existsb (λ o, bool_decide (op_name o ∈ MUTATING_OPS)) operations && negb verified
     then [mkBlocked "namespace_scope" None None "current project namespace scope is unavailable or mismatched"] else []) in
  let planned :=
    match blocked with
    | [] =>
        let additive := additive_agent_steps old_topology new_topology in
        let removed := remove_agent_steps old_topology new_topology in
        let steps := view_only_steps operations ++ additive_window_steps old_topology new_topology ++ additive.1 ++ removed.1 in
        (steps,
         additive.2 ++ removed.2 ++
         missing_agent_steps "add_agent" "create_agent_pane"
           "add_agent operation was not covered by an additive namespace patch step" operations steps ++
         missing_agent_steps "remove_agent" "kill_agent_pane"
           "remove_agent operation was not covered by a namespace pane removal step" operations steps)
    | _ => ([], blocked)
    end in
  mkPatchPlan
    (match planned.2, planned.1 with _ :: _, _ => PS_blocked | [], [] => PS_no_op | [], _ => PS_planned end)
    verified (preserved_agents old_topology new_topology) planned.1 planned.2.
Definition build_namespace_patch_plan `{SignatureLib} (current_config new_config : ProjectConfig)
    (operations : list ReloadOperation) (project_id : option string) (namespace : option CurrentNamespace)
    : NamespacePatchPlan :=
  build_namespace_patch_plan_for (build_namespace_topology_plan current_config None None)
    (build_namespace_topology_plan new_config None None) operations (scope_verified project_id namespace).

(** ** Drain intents a plan suggests ([reload_drain.py]) *)
Class DrainIds := drain_digest : string → string.
Definition nul : string := String (ascii_of_nat 0) "".
Definition clean_text (s : option string) : option string := or_none (strip (default "" s)).
(** [drain_digest] is the start of the SHA-256 of its text. *)
Definition stable_intent_id `{DrainIds} (intent_kind agent_name : string)
    (old_config_signature new_config_signature reason : option string) : string :=
  "drain_" +:+ drain_digest (join nul [intent_kind; agent_name; default "" old_config_signature;
                                       default "" new_config_signature; default "" reason]).
Record DrainSuggestion := mkSuggestion {
  ds_intent_id : string;
  ds_intent_kind : string;
  ds_agent : string;
  ds_initial_phase : string;
  ds_reason : option string
}.
Definition drain_intent_suggestions_for_reload_operations `{DrainIds} (operations : list ReloadOperation)
    (old_config_signature new_config_signature : option string) : list DrainSuggestion :=
  omap (λ o,
    match (if op_name o =ˢ "remove_agent" then Some ("unload", "pending_unload")
           else if op_name o =ˢ "replace_agent" then Some ("replace", "pending_replace") else None),
          clean_text (op_agent o) with
    | Some (intent_kind, initial_phase), Some agent_name =>
        let reason := clean_text (Some (op_reason o)) in
        Some (mkSuggestion
          (stable_intent_id intent_kind agent_name (clean_text old_config_signature) (clean_text new_config_signature) reason)
          intent_kind agent_name initial_phase reason)
    | _, _ => None
    end) operations.

(** ** The whole plan *)
Record ConfigIdentity := mkIdentity { id_known_agents : list string; id_config_signature : option string }.
Definition project_config_identity_payload `{SignatureLib} (c : ProjectConfig) : ConfigIdentity :=
  mkIdentity (project_config_identity c).1 (Some (project_config_identity c).2).

Record ReloadPlan := mkPlan {
  rp_status : string;
  rp_future_safe_to_apply : bool;
  rp_plan_class : string;
  rp_old_identity : ConfigIdentity;
  rp_new_identity : ConfigIdentity;
  rp_operations : list ReloadOperation;
  rp_drain_intents : list DrainSuggestion;
  rp_namespace_patch_plan : NamespacePatchPlan;
  rp_reasons : list string;
  rp_warnings : list string;
  rp_errors : list string
}.
Definition degraded_warning : string := "Config identity changed; Phase 3 degraded this diff to layout_change.".
Definition replace_warning : string :=
  "Existing agent spec changes are conservatively classified as replace_agent; runtime-only and metadata-only fields are not split in Phase 3.".
Definition view_warning : string :=
  "Config identity is unchanged but non-sidebar presentation fields could not be split more narrowly.".

Section reload_plan.
Context `{SignatureLib} `{DrainIds}.
Definition identity_preserving_plan (current_config new_config : ProjectConfig) (old_identity new_identity : ConfigIdentity)
    (project_id : option string) (namespace : option CurrentNamespace) : ReloadPlan :=
  if py_eqb (PDict (canonical_config_record current_config true)) (PDict (canonical_config_record new_config true)) then
    mkPlan "ok" true "no_change" old_identity new_identity [] []
      (build_namespace_patch_plan current_config new_config [] project_id namespace)
      ["config identity and presentation fields are unchanged"] [] []
  else
    mkPlan "ok" true "view_only_change" old_identity new_identity [OpViewOnly] []
      (build_namespace_patch_plan current_config new_config [OpViewOnly] project_id namespace)
      ["config identity is unchanged; presentation-only fields changed"]
      (if py_eqb (PDict (canonical_config_record current_config false)) (PDict (canonical_config_record new_config false))
       then [] else [view_warning]) [].
Definition build_reload_dry_run_plan (current_config new_config : ProjectConfig) (current_config_identity : option ConfigIdentity)
    (project_id : option string) (namespace : option CurrentNamespace) : ReloadPlan :=
  let old_identity := default (project_config_identity_payload current_config) current_config_identity in
  let new_identity := project_config_identity_payload new_config in
  if bool_decide (id_config_signature old_identity = id_config_signature new_identity)
  then identity_preserving_plan current_config new_config old_identity new_identity project_id namespace
  else
    let found := build_operations current_config new_config in
    let operations := match found with [] => [OpUnclassified] | _ => found end in
    let plan_class := select_plan_class operations in
    mkPlan "ok" (future_safe_to_apply plan_class operations) plan_class old_identity new_identity operations
      (drain_intent_suggestions_for_reload_operations operations (id_config_signature old_identity)
         (id_config_signature new_identity))
      (build_namespace_patch_plan current_config new_config operations project_id namespace)
      (operation_reason <$> operations)
      ((match found with [] => [degraded_warning] | _ => [] end) ++
       (if existsb (λ o, op_name o =ˢ "replace_agent") operations then [replace_warning] else []))
      [].
Definition build_invalid_reload_dry_run_plan (current_config : ProjectConfig) (error : string)
    (current_config_identity : option ConfigIdentity) : ReloadPlan :=
  mkPlan "invalid_config" false "invalid_config"
    (default (project_config_identity_payload current_config) current_config_identity) (mkIdentity [] None) [] []
    (mkPatchPlan PS_not_planned false [] [] [mkBlocked "invalid_config" None None error])
    ["new config could not be loaded or validated"] [] [error].
End reload_plan.

(** ** Whether the plan may be applied ([reload_apply_plan.py]) *)
Definition ALLOWED_PLAN_CLASSES : list string := ["view_only_change"; "add_agent"; "add_window"; "remove_agent"].
Definition ALLOWED_OPERATIONS : list string := ["view_only_change"; "add_agent"; "add_window"; "remove_agent"; "layout_change"].
Abbreviation blocker := (option (string * string)).
Definition unsupported_operations (p : ReloadPlan) : list string :=
  sorted_strings (remove_dups (op_name <$> List.filter (λ o,
    negb ((op_name o =ˢ "layout_change") && (default "" (op_change o) =ˢ "remove_window")) &&
    negb (bool_decide (op_name o ∈ ALLOWED_OPERATIONS))) (rp_operations p))).
Definition operation_blocker (p : ReloadPlan) : blocker :=
  match unsupported_operations p with
  | [] => None
  | unsupported => Some ("unsupported_operations", "additive reload apply rejects operations: " +:+ join "," unsupported)
  end.
Definition namespace_patch_blocker (p : NamespacePatchPlan) : blocker :=
  if negb (bool_decide (pp_status p = PS_planned))
  then Some ("namespace_patch_plan_not_planned", "additive reload apply requires an unblocked namespace patch plan")
  else if match pp_blocked_operations p with [] => false | _ => true end
  then Some ("namespace_patch_plan_blocked", "additive reload apply requires zero blocked namespace operations")
  else if negb (pp_scope_verified p)
  then Some ("namespace_scope_unverified", "additive reload apply requires verified project namespace scope")
  else None.
Definition plan_blocker (p : ReloadPlan) : blocker :=
  if rp_status p ≠ˢ "ok" then Some ("plan_not_ok", "reload apply requires a valid dry-run plan")
  else if negb (bool_decide (rp_plan_class p ∈ ALLOWED_PLAN_CLASSES))
  then Some ("unsupported_plan_class",
         "additive reload apply only accepts view_only_change, add_agent, add_window, and idle remove_agent")
  else match operation_blocker p with
       | Some b => Some b
       | None =>
           if negb (rp_future_safe_to_apply p)
           then Some ("plan_not_future_safe", "dry-run plan is not future-safe for additive apply")
           else if bool_decide (rp_plan_class p ∈ ["add_agent"; "add_window"; "remove_agent"])
           then namespace_patch_blocker (rp_namespace_patch_plan p) else None
       end.

(** ** The check of the steps *)
Definition planned_windows_for_action (steps : list NamespacePatchStep) (action : string) : list string :=
  omap (λ s, if st_action s =ˢ action then Some (default "" (st_window s)) else None) steps.
Definition planned_agent_targets_for_action (steps : list NamespacePatchStep) (action : string) : list (string * string) :=
  omap (λ s, if st_action s =ˢ action then Some (default "" (st_window s), default "" (st_agent s)) else None) steps.
Definition has_view_only_step (steps : list NamespacePatchStep) : bool :=
  existsb (λ s, st_action s =ˢ "refresh_project_view") steps.
(** Equality of the sets of elements. *)
Definition set_eqb {A} `{EqDecision A} (l1 l2 : list A) : bool :=
  forallb (λ a, bool_decide (a ∈ l2)) l1 && forallb (λ a, bool_decide (a ∈ l1)) l2.

Definition SUPPORTED_ACTIONS : list string :=
  ["create_window"; "create_sidebar_pane"; "create_agent_pane"; "kill_agent_pane"; "kill_window"].
Definition step_scope_reason (s : NamespacePatchStep) (added_windows removed_windows : list string)
    (append_windows : list string) (expected_new_agents expected_removed_agents : list (string * string)) : blocker :=
  let action := st_action s in
  let window := default "" (st_window s) in
  let target := (window, default "" (st_agent s)) in
  if bool_decide (action ∈ ["create_window"; "create_sidebar_pane"]) && negb (bool_decide (window ∈ added_windows))
  then Some ("unsupported_patch_step", "window/sidebar patch steps are only supported for newly-added windows")
  else if (action =ˢ "kill_window") && negb (bool_decide (window ∈ removed_windows))
  then Some ("patch_plan_mismatch", "window removal step does not match removed topology window")
  else if action =ˢ "kill_agent_pane" then
    (if negb (bool_decide (target ∈ expected_removed_agents))
     then Some ("patch_plan_mismatch", "agent pane removal step does not match a removed topology agent") else None)
  else if action ≠ˢ "create_agent_pane" then None
  else if negb (bool_decide (window ∈ added_windows)) && negb (bool_decide (window ∈ append_windows))
  then Some ("patch_plan_mismatch", "agent pane patch step window is not an added window or append-only existing window")
  else if negb (bool_decide (target ∈ expected_new_agents))
  then Some ("patch_plan_mismatch", "agent pane patch step does not match a new topology agent") else None.
Definition step_identity_reason (s : NamespacePatchStep) : blocker :=
  let action := st_action s in
  if st_managed_by s ≠ˢ "ccbd"
  then Some ("scope_proof_missing", "namespace patch step is missing managed_by=ccbd proof")
  else if negb (bool_decide (action ∈ ["create_sidebar_pane"; "create_agent_pane"; "kill_agent_pane"])) then None
  else
    let role := default "" (st_role s) in
    if (role =ˢ "") || (default "" (st_slot_key s) =ˢ "")
    then Some ("scope_proof_missing", "namespace patch pane step is missing role or slot_key proof")
    else
      let expected_role := if action =ˢ "create_sidebar_pane" then "sidebar" else "agent" in
      if role ≠ˢ expected_role
      then Some ("scope_proof_mismatch", "namespace patch pane step role must be " +:+ expected_role) else None.
Definition single_step_reason (s : NamespacePatchStep) (added_windows removed_windows append_windows : list string)
    (expected_new_agents expected_removed_agents : list (string * string)) : blocker :=
  if st_action s =ˢ "refresh_project_view" then None
  else if negb (bool_decide (st_action s ∈ SUPPORTED_ACTIONS))
  then Some ("unsupported_patch_step", "unsupported namespace patch step: " +:+ st_action s)
  else match step_scope_reason s added_windows removed_windows append_windows expected_new_agents expected_removed_agents with
       | Some b => Some b
       | None => step_identity_reason s
       end.
Fixpoint step_proof_reason (steps : list NamespacePatchStep) (added_windows removed_windows append_windows : list string)
    (expected_new_agents expected_removed_agents : list (string * string)) : blocker :=
  match steps with
  | [] => None
  | s :: rest =>
      match single_step_reason s added_windows removed_windows append_windows expected_new_agents expected_removed_agents with
      | Some b => Some b
      | None => step_proof_reason rest added_windows removed_windows append_windows expected_new_agents expected_removed_agents
      end
  end.

Definition patch_plan_status_reason (p : NamespacePatchPlan) : blocker :=
  if negb (bool_decide (pp_status p = PS_planned))
  then Some ("patch_plan_not_planned", "namespace patch plan is not planned")
  else match pp_blocked_operations p with
       | [] => None
       | _ => Some ("patch_plan_blocked", "namespace patch plan has blocked operations")
       end.
Definition planned_target_reason (steps : list NamespacePatchStep) (added_windows removed_windows append_windows : list string)
    (expected_new_agents expected_removed_agents : list (string * string)) : blocker :=
  let planned_windows := planned_windows_for_action steps "create_window" in
  let mismatch what := Some ("patch_plan_mismatch", "namespace patch plan " +:+ what) in
  if negb (set_eqb planned_windows added_windows) then mismatch "windows do not match new topology windows"
  else if negb (set_eqb (planned_windows_for_action steps "kill_window") removed_windows)
  then mismatch "removed windows do not match new topology windows"
  else if negb (set_eqb (planned_agent_targets_for_action steps "create_agent_pane") expected_new_agents)
  then mismatch "agent panes do not match new topology agents"
  else if negb (set_eqb (planned_agent_targets_for_action steps "kill_agent_pane") expected_removed_agents)
  then mismatch "removed agent panes do not match new topology agents"
  else if bool_decide (planned_windows = []) && bool_decide (append_windows = []) &&
          bool_decide (expected_removed_agents = []) && negb (has_view_only_step steps)
  then Some ("unsupported_patch_step", "namespace additive patch has no supported namespace mutation steps")
  else None.
Definition unsupported_additive_patch_reason (p : NamespacePatchPlan) (old_topology new_topology : NamespaceTopologyPlan)
    : blocker :=
  match patch_plan_status_reason p with
  | Some b => Some b
  | None =>
      match append_agent_windows old_topology new_topology with
      | None => Some ("non_append_agent_layout",
                  "namespace additive patch only supports appending agents at the end of an existing window")
      | Some append =>
          let old_windows := window_map old_topology in
          let new_windows := window_map new_topology in
          let added_windows := windows_except new_windows old_windows in
          let removed_windows := windows_except old_windows new_windows in
          let expected_new_agents := new_agent_targets old_topology new_topology in
          let expected_removed_agents := removed_agent_targets old_topology new_topology in
          match planned_target_reason (pp_steps p) added_windows removed_windows append.*1 expected_new_agents
                  expected_removed_agents with
          | Some b => Some b
          | None => step_proof_reason (pp_steps p) added_windows removed_windows append.*1 expected_new_agents
                      expected_removed_agents
          end
      end
  end.
