(* ===== verification/ReloadTheorems.v ===== *)
(** * Reloads that may be applied change exactly what differs

    The planner of [reload_patch.py] and the check of [patch_validation_*.py]
    are two programs that work out the same difference of two topologies: a
    plan that the planner does not block passes the check, and its steps create
    and kill exactly the panes in which the two configurations differ. *)
From stdpp Require Import pretty.
From Stdlib Require Import QArith.
From S2P Require Import Prelude PyValue Names AgentModels Layout LayoutTheorems ProjectConfig ConfigLoader ConfigTheorems Topology ReloadPlan.
Open Scope string_scope.
Open Scope list_scope.
Open Scope Z_scope.

(** ** Dictionaries built from lists with distinct keys *)
Lemma od_set_fresh {A} k (v : A) d : k ∉ d.*1 → od_set k v d = d ++ [(k, v)].
Proof.
  induction d as [|[k' v'] d IH]; [done|]. cbn. intros [Hk Hd]%not_elem_of_cons.
  apply String.eqb_neq in Hk as ->. by rewrite IH.
Qed.
Lemma foldl_od_set {A B} (key : B → string) (val : B → A) l : ∀ d,
  NoDup (d.*1 ++ (key <$> l)) →
  foldl (λ m x, od_set (key x) (val x) m) d l = d ++ ((λ x, (key x, val x)) <$> l).
Proof.
  induction l as [|x l IH]; intros d Hd; cbn; [by rewrite app_nil_r|].
  rewrite od_set_fresh, IH.
  - by rewrite <- app_assoc.
  - rewrite fmap_app, <- app_assoc. exact Hd.
  - intros Hin. apply NoDup_app in Hd as (_ & Hd & _). apply (Hd _ Hin). by left.
Qed.
Lemma od_lookup_elem {A} k (v : A) d : NoDup d.*1 → od_lookup k d = Some v ↔ (k, v) ∈ d.
Proof.
  induction d as [|[k' v'] d IH]; cbn; intros Hd; [split; [done|by intros ?%elem_of_nil]|].
  apply NoDup_cons in Hd as [Hk Hd]. rewrite elem_of_cons. destruct (String.eqb_spec k k') as [->|Hne].
  - split; [intros [= ->]; by left|]. intros [[= ->]|Hin]; [done|]. destruct Hk. by apply (list_elem_of_fmap_2 fst) in Hin.
  - rewrite IH by done. split; [by right|]. by intros [[= -> _]|?].
Qed.
Lemma od_lookup_none {A} k (d : list (string * A)) : od_lookup k d = None ↔ k ∉ d.*1.
Proof.
  induction d as [|[k' v] d IH]; cbn; [split; [intros _; apply not_elem_of_nil|done]|].
  rewrite not_elem_of_cons, <- IH. destruct (String.eqb_spec k k') as [->|]; [split; [done|by intros []]|].
  split; [done|by intros []].
Qed.

(** ** Lists *)
Lemma filter_fmap {A B} (p : B → bool) (f : A → B) l : List.filter p (f <$> l) = f <$> List.filter (λ x, p (f x)) l.
Proof. induction l as [|x l IH]; [done|]. cbn. rewrite IH. by destruct (p (f x)). Qed.
Lemma filter_ext_in {A} (p q : A → bool) l : (∀ x, x ∈ l → p x = q x) → List.filter p l = List.filter q l.
Proof.
  induction l as [|x l IH]; [done|]. intros H. cbn. rewrite (H x) by (by left).
  rewrite IH; [done|]. intros y Hy. apply H. by right.
Qed.
Lemma filter_none {A} (p : A → bool) l : (∀ x, x ∈ l → p x = false) → List.filter p l = [].
Proof.
  intros H. rewrite (filter_ext_in p (λ _, false)) by done. clear H. by induction l.
Qed.
Lemma filter_concat {A} (p : A → bool) (ls : list (list A)) : List.filter p (concat ls) = concat (List.filter p <$> ls).
Proof. induction ls as [|l ls IH]; [done|]. cbn. by rewrite List.filter_app, IH. Qed.
Lemma omap_concat {A B} (f : A → option B) (ls : list (list A)) : omap f (concat ls : list A) = concat ((λ l : list A, omap f l : list B) <$> ls).
Proof. induction ls as [|l ls IH]; [done|]. cbn. by rewrite omap_app, IH. Qed.
Lemma concat_ext {A B} (f g : A → list B) l : (∀ x, x ∈ l → f x = g x) → concat (f <$> l) = concat (g <$> l).
Proof. intros H. f_equal. apply list_fmap_ext. intros i x Hx. apply H. by eapply list_elem_of_lookup_2. Qed.
Lemma concat_interleave {A B} (f g : A → list B) l :
  concat (f <$> l) ++ concat (g <$> l) ≡ₚ concat ((λ x, f x ++ g x) <$> l).
Proof.
  induction l as [|x l IH]; [done|]. cbn. rewrite <- IH, <- !app_assoc. apply Permutation_app_head.
  rewrite !app_assoc. apply Permutation_app_tail, Permutation_app_comm.
Qed.
Lemma concat_nil_all {A B} (f : A → list B) l x : concat (f <$> l) = [] → x ∈ l → f x = [].
Proof.
  induction l as [|y l IH]; [by intros _ ?%elem_of_nil|]. cbn. intros [Hy Hl]%app_eq_nil [->|Hx]%elem_of_cons; [done|].
  by apply IH.
Qed.
Lemma elem_of_concat_fmap {A B} (f : A → list B) l y : y ∈ concat (f <$> l) ↔ ∃ x, x ∈ l ∧ y ∈ f x.
Proof.
  induction l as [|x l IH]; cbn; [split; [by intros ?%elem_of_nil|by intros (? & ?%elem_of_nil & _)]|].
  rewrite elem_of_app, IH. split.
  - intros [Hy|(x' & Hx & Hy)]; [exists x; split; [by left|done]|exists x'; split; [by right|done]].
  - intros (x' & [->|Hx]%elem_of_cons & Hy); [by left|right; by exists x'].
Qed.

(** ** Topologies *)
Record topology_ok (t : NamespaceTopologyPlan) : Prop := {
  to_names : NoDup (nw_name <$> nt_windows t);
  to_agents : Forall (λ w, NoDup (nw_agent_names w) ∧ nw_agent_names w ≠ [] ∧ "" ∉ nw_agent_names w) (nt_windows t)
}.
Lemma window_map_ok t : topology_ok t → window_map t = (λ w, (nw_name w, w)) <$> nt_windows t.
Proof. intros H. unfold window_map. by rewrite (foldl_od_set nw_name id) by apply H. Qed.
Lemma window_map_keys t : topology_ok t → (window_map t).*1 = nw_name <$> nt_windows t.
Proof. intros H. rewrite window_map_ok by done. by rewrite <- list_fmap_compose. Qed.
Lemma window_lookup t name w : topology_ok t →
  od_lookup name (window_map t) = Some w ↔ w ∈ nt_windows t ∧ nw_name w = name.
Proof.
  intros H. rewrite od_lookup_elem by (rewrite window_map_keys by done; apply H).
  rewrite window_map_ok, list_elem_of_fmap by done. split.
  - by intros (w' & [= -> ->] & Hw).
  - intros [Hw <-]. by exists w.
Qed.
Lemma window_absent t name : topology_ok t → od_lookup name (window_map t) = None ↔ name ∉ nw_name <$> nt_windows t.
Proof. intros H. by rewrite od_lookup_none, window_map_keys by done. Qed.
Lemma window_unique t w w' : topology_ok t → w ∈ nt_windows t → w' ∈ nt_windows t → nw_name w = nw_name w' → w = w'.
Proof.
  intros H Hw Hw' He. assert (od_lookup (nw_name w) (window_map t) = Some w) as E by (by apply window_lookup).
  assert (od_lookup (nw_name w) (window_map t) = Some w') as E' by (by apply window_lookup). congruence.
Qed.
Lemma pair_in t n a : (n, a) ∈ agent_window_pairs t ↔ ∃ w, w ∈ nt_windows t ∧ nw_name w = n ∧ a ∈ nw_agent_names w.
Proof.
  unfold agent_window_pairs. rewrite elem_of_concat_fmap. split.
  - intros (w & Hw & (a' & [= -> ->] & Ha)%list_elem_of_fmap). by exists w.
  - intros (w & Hw & <- & Ha). exists w. split; [done|]. by apply list_elem_of_fmap_2.
Qed.
Lemma pair_in_window t w a : topology_ok t → w ∈ nt_windows t → (nw_name w, a) ∈ agent_window_pairs t ↔ a ∈ nw_agent_names w.
Proof.
  intros H Hw. rewrite pair_in. split; [|by exists w]. intros (w' & Hw' & He & Ha).
  by rewrite <- (window_unique t w' w H Hw' Hw He).
Qed.
Lemma pair_in_absent t n a : n ∉ nw_name <$> nt_windows t → (n, a) ∉ agent_window_pairs t.
Proof. rewrite pair_in. intros Hn (w & Hw & <- & _). by apply Hn, list_elem_of_fmap_2. Qed.

(** ** Kept windows *)
Lemma keys_minus_nil l1 l2 : keys_minus l1 l2 = [] ↔ l1 ⊆ l2.
Proof.
  unfold keys_minus. split.
  - intros H x Hx. destruct (decide (x ∈ l2)) as [|Hn]; [done|].
    assert (x ∈ List.filter (λ n, negb (bool_decide (n ∈ l2))) l1) as Hin
      by (apply elem_of_filter_bool; split; [done|by rewrite bool_decide_eq_false_2]).
    rewrite H in Hin. by apply elem_of_nil in Hin.
  - intros H. apply filter_none. intros x Hx. rewrite bool_decide_eq_true_2 by (by apply H). done.
Qed.
Lemma keys_minus_prefix old new : NoDup new → take (length old) new = old → keys_minus new old = drop (length old) new.
Proof.
  intros Hd Ht. rewrite <- (take_drop (length old) new) at 1. rewrite Ht. unfold keys_minus. rewrite List.filter_app.
  rewrite <- (take_drop (length old) new), Ht in Hd. apply NoDup_app in Hd as (_ & Hd & _).
  rewrite filter_none, filter_all; [done|..].
  - intros x Hx. rewrite bool_decide_eq_false_2; [done|]. intros Hx'. by apply (Hd _ Hx').
  - intros x Hx. by rewrite bool_decide_eq_true_2.
Qed.
Lemma keys_and_subset l1 l2 : keys_and l1 l2 = l2 → l2 ⊆ l1.
Proof. unfold keys_and. intros H x Hx. rewrite <- H in Hx. by apply elem_of_filter_bool in Hx as [? _]. Qed.

(** A kept window that neither planner blocks keeps its agents in order, and
    either gains agents at the end, which can be appended, or loses some. *)
Definition kill_steps (window_name reason : string) (agents : list string) : list NamespacePatchStep :=
  (λ a, pane_step "kill_agent_pane" window_name a None reason) <$> agents.
Lemma kept_window n ow nw :
  (steps_for_window n ow nw).2 = [] → (window_remove_agent_steps n ow nw).2 = [] →
  NoDup (nw_agent_names ow) → NoDup (nw_agent_names nw) →
  ∃ plan, append_agent_plan_for_window ow nw = Some plan ∧
    (steps_for_window n ow nw).1 = append_steps n (last (nw_agent_names ow)) plan ∧
    ap_agent <$> plan = keys_minus (nw_agent_names nw) (nw_agent_names ow) ∧
    (window_remove_agent_steps n ow nw).1 =
      kill_steps n "agent exists only in current published config" (keys_minus (nw_agent_names ow) (nw_agent_names nw)).
Proof.
  unfold steps_for_window, window_remove_agent_steps, append_agent_plan_for_window.
  set (old := nw_agent_names ow). set (new := nw_agent_names nw). intros Ha Hr Hold Hnew.
  assert ((match keys_minus old new with
           | [] => no_steps
           | removed => if negb (bool_decide (keys_and old new = new))
               then blocked_remove n "Phase 7 remove_agent only supports deleting agents while preserving remaining order"
               else (kill_steps n "agent exists only in current published config" removed, [])
           end).1 = kill_steps n "agent exists only in current published config" (keys_minus old new)) as Hkill.
  { clear Ha. destruct (keys_minus old new); [done|]. by destruct (negb _). }
  destruct (bool_decide (old = new)) eqn:He.
  { apply bool_decide_eq_true in He. exists []. split_and!; [done..| |exact Hkill]. rewrite <- He.
    symmetry. by apply keys_minus_nil. }
  destruct (length new <? length old)%nat eqn:Hl.
  { apply Nat.ltb_lt in Hl. exists []. split_and!; [done..| |exact Hkill]. symmetry. apply keys_minus_nil, keys_and_subset.
    destruct (keys_minus old new) as [|x l] eqn:Hk.
    - apply keys_minus_nil in Hk. pose proof (NoDup_incl_length (l := old) (l' := new)) as Hlen.
      assert (length old ≤ length new)%nat; [|lia]. apply Hlen; [by apply NoDup_ListNoDup|].
      intros x Hx. apply list_elem_of_In. by apply Hk, list_elem_of_In.
    - case_bool_decide; [done|]. discriminate Hr. }
  destruct (negb (bool_decide (take (length old) new = old))) eqn:Ht; [done|].
  apply negb_false_iff, bool_decide_eq_true in Ht.
  destruct (rightmost_leaf_append_plan ow nw) as [plan|]; [|done].
  cbn [mbind option_bind] in *. destruct (bool_decide (ap_agent <$> plan = drop (length old) new)) eqn:Hp; [|done].
  apply bool_decide_eq_true in Hp. exists plan. split_and!; [done|done| |exact Hkill].
  by rewrite Hp, keys_minus_prefix.
Qed.

(** ** The steps of the parts of a plan *)
Lemma planned_concat_steps {A} (f : A → planned) l : (planned_concat (f <$> l)).1 = concat ((λ x, (f x).1) <$> l).
Proof. induction l as [|x l IH]; [done|]. unfold planned_concat in *. cbn in *. by rewrite IH. Qed.
Lemma planned_concat_blocked {A} (f : A → planned) l : (planned_concat (f <$> l)).2 = concat ((λ x, (f x).2) <$> l).
Proof. induction l as [|x l IH]; [done|]. unfold planned_concat in *. cbn in *. by rewrite IH. Qed.

Abbreviation targets := planned_agent_targets_for_action.
Abbreviation windows_of := planned_windows_for_action.
(** An action is not in a list of others. *)
Ltac other_action := refine (bool_decide_eq_true_1 _ _); vm_compute; reflexivity.
(** Steps with these actions only. *)
Definition acts (actions : list string) (steps : list NamespacePatchStep) : Prop :=
  Forall (λ s, st_action s ∈ actions) steps.
Lemma targets_none actions action steps : acts actions steps → action ∉ actions → targets steps action = [].
Proof.
  intros Hs Ha. unfold targets. induction Hs as [|s steps H Hs IH]; [done|]. cbn.
  destruct (bool_decide (st_action s = action)) eqn:E; [|exact IH]. apply bool_decide_eq_true in E. by subst.
Qed.
Lemma windows_none actions action steps : acts actions steps → action ∉ actions → windows_of steps action = [].
Proof.
  intros Hs Ha. unfold windows_of. induction Hs as [|s steps H Hs IH]; [done|]. cbn.
  destruct (bool_decide (st_action s = action)) eqn:E; [|exact IH]. apply bool_decide_eq_true in E. by subst.
Qed.
Lemma targets_concat {A} (f : A → list NamespacePatchStep) l action :
  targets (concat (f <$> l)) action = concat ((λ x, targets (f x) action) <$> l).
Proof. unfold targets. rewrite omap_concat, <- list_fmap_compose. done. Qed.
Lemma windows_concat {A} (f : A → list NamespacePatchStep) l action :
  windows_of (concat (f <$> l)) action = concat ((λ x, windows_of (f x) action) <$> l).
Proof. unfold windows_of. rewrite omap_concat, <- list_fmap_compose. done. Qed.
Lemma targets_app s1 s2 action : targets (s1 ++ s2) action = targets s1 action ++ targets s2 action.
Proof. apply omap_app. Qed.
Lemma windows_app s1 s2 action : windows_of (s1 ++ s2) action = windows_of s1 action ++ windows_of s2 action.
Proof. apply omap_app. Qed.
Lemma acts_concat {A} (f : A → list NamespacePatchStep) actions l :
  (∀ x, x ∈ l → acts actions (f x)) → acts actions (concat (f <$> l)).
Proof. unfold acts. rewrite Forall_concat, Forall_fmap. intros H. by apply Forall_forall. Qed.

Lemma targets_panes action window anchor reason agents :
  targets ((λ a, pane_step action window a anchor reason) <$> agents) action = pair window <$> agents.
Proof.
  unfold targets. induction agents as [|a agents IH]; [done|]. cbn. rewrite bool_decide_eq_true_2 by done. cbn.
  by rewrite IH.
Qed.
Lemma targets_append_steps window anchor plan :
  targets (append_steps window anchor plan) "create_agent_pane" = pair window <$> (ap_agent <$> plan).
Proof. unfold targets. revert anchor. induction plan as [|a plan IH]; intros anchor; [done|]. cbn. by rewrite IH. Qed.
Lemma append_steps_act window anchor plan : acts ["create_agent_pane"] (append_steps window anchor plan).
Proof. revert anchor. induction plan as [|a plan IH]; intros anchor; constructor; [by left|apply IH]. Qed.
Lemma targets_new_window w : targets (new_window_steps w) "create_agent_pane" = pair (nw_name w) <$> nw_agent_names w.
Proof.
  unfold new_window_steps. rewrite app_comm_cons, targets_app, targets_panes. by destruct (nw_sidebar w).
Qed.
Lemma windows_new_window w : windows_of (new_window_steps w) "create_window" = [nw_name w].
Proof.
  unfold new_window_steps. rewrite app_comm_cons, windows_app, (windows_none ["create_agent_pane"] _ (_ <$> _)).
  - by destruct (nw_sidebar w).
  - apply Forall_fmap, Forall_true. intros a. by left.
  - other_action.
Qed.
Lemma new_window_act w : acts ["create_window"; "create_sidebar_pane"; "create_agent_pane"] (new_window_steps w).
Proof.
  unfold new_window_steps. constructor; [by left|]. apply Forall_app. split.
  - destruct (nw_sidebar w); [|constructor]. constructor; [by right; left|constructor].
  - apply Forall_fmap, Forall_true. intros a. by do 2 right; left.
Qed.
Lemma kill_steps_act window reason agents : acts ["kill_agent_pane"; "kill_window"] (kill_steps window reason agents).
Proof. apply Forall_fmap, Forall_true. intros a. by left. Qed.
Lemma view_steps_act ops : acts ["refresh_project_view"] (view_only_steps ops).
Proof. unfold view_only_steps. destruct (existsb _ _); [|constructor]. constructor; [by left|constructor]. Qed.

(** ** The check, step by step *)
Lemma step_proof_reason_all steps added removed append en er :
  (∀ s, s ∈ steps → single_step_reason s added removed append en er = None) →
  step_proof_reason steps added removed append en er = None.
Proof.
  induction steps as [|s steps IH]; [done|]. intros H. cbn [step_proof_reason]. rewrite (H s) by (by left).
  apply IH. intros s' Hs'. apply H. by right.
Qed.
Lemma set_eqb_same {A} `{EqDecision A} (l1 l2 : list A) : (∀ x, x ∈ l1 ↔ x ∈ l2) → set_eqb l1 l2 = true.
Proof.
  intros H. unfold set_eqb. apply andb_true_iff. split; apply forallb_forall; intros x Hx%list_elem_of_In;
    by apply bool_decide_eq_true_2, H.
Qed.
Lemma concat_singletons {A B} (p : A → bool) (f : A → B) l :
  concat ((λ x, if p x then [] else [f x]) <$> l) = f <$> List.filter (λ x, negb (p x)) l.
Proof. induction l as [|x l IH]; [done|]. cbn. rewrite IH. by destruct (p x). Qed.
Section single_steps.
Context (added removed append : list string) (created killed : list (string * string)).
Abbreviation ok s := (single_step_reason s added removed append created killed = None).
Lemma view_only_ok ops s : s ∈ view_only_steps ops → ok s.
Proof. unfold view_only_steps. destruct (existsb _ _); [|by intros ?%elem_of_nil]. by intros ->%list_elem_of_singleton. Qed.
Lemma create_pane_ok w a anchor reason : (w ∈ added ∨ w ∈ append) → (w, a) ∈ created → a ≠ "" →
  ok (pane_step "create_agent_pane" w a anchor reason).
Proof.
  intros Hw Ha Hne. unfold single_step_reason, step_scope_reason, step_identity_reason. cbn.
  rewrite (bool_decide_eq_true_2 ((w, a) ∈ created)), (bool_decide_eq_false_2 (a = "")) by done.
  by destruct Hw as [Hw|Hw]; rewrite (bool_decide_eq_true_2 _ Hw); destruct (bool_decide (w ∈ added)).
Qed.
Lemma kill_pane_ok w a reason : (w, a) ∈ killed → a ≠ "" → ok (pane_step "kill_agent_pane" w a None reason).
Proof.
  intros Ha Hne. unfold single_step_reason, step_scope_reason, step_identity_reason. cbn.
  by rewrite (bool_decide_eq_true_2 ((w, a) ∈ killed)), (bool_decide_eq_false_2 (a = "")) by done.
Qed.
Lemma kill_window_ok w reason : w ∈ removed → ok (step "kill_window" w reason).
Proof.
  intros Hw. unfold single_step_reason, step_scope_reason, step_identity_reason. cbn.
  by rewrite (bool_decide_eq_true_2 (w ∈ removed)) by done.
Qed.
Lemma new_window_ok w : nw_name w ∈ added → "" ∉ nw_agent_names w → (∀ a, a ∈ nw_agent_names w → (nw_name w, a) ∈ created) →
  ∀ s, s ∈ new_window_steps w → ok s.
Proof.
  intros Hw Hne Ha s. unfold new_window_steps. intros [->|[Hs|(a & -> & Hin)%list_elem_of_fmap]%elem_of_app]%elem_of_cons.
  - unfold single_step_reason, step_scope_reason, step_identity_reason. cbn.
    by rewrite (bool_decide_eq_true_2 (nw_name w ∈ added)) by done.
  - destruct (nw_sidebar w); [|by apply elem_of_nil in Hs]. apply list_elem_of_singleton in Hs as ->.
    unfold single_step_reason, step_scope_reason, step_identity_reason. cbn.
    by rewrite (bool_decide_eq_true_2 (nw_name w ∈ added)) by done.
  - apply create_pane_ok; [by left|by apply Ha|by intros ->].
Qed.
Lemma append_ok w anchor plan : w ∈ append → (∀ a, a ∈ ap_agent <$> plan → (w, a) ∈ created ∧ a ≠ "") →
  ∀ s, s ∈ append_steps w anchor plan → ok s.
Proof.
  intros Hw. revert anchor. induction plan as [|p plan IH]; intros anchor Ha s; cbn; [by intros ?%elem_of_nil|].
  intros [->|Hs]%elem_of_cons.
  - destruct (Ha (ap_agent p)) as [H1 H2]; [by left|]. apply create_pane_ok; [by right|done..].
  - eapply IH; [|exact Hs]. intros a Hin. apply Ha. by right.
Qed.
Lemma kill_steps_ok w reason agents : (∀ a, a ∈ agents → (w, a) ∈ killed ∧ a ≠ "") →
  ∀ s, s ∈ kill_steps w reason agents → ok s.
Proof. intros Ha s (a & -> & Hin)%list_elem_of_fmap. apply kill_pane_ok; by apply Ha. Qed.
End single_steps.

(** ** Two topologies *)
(** The agents of a window that are not in the window of that name in [t]. *)
Definition fresh_in (t : NamespaceTopologyPlan) (w : NamespaceWindowPlan) : list string :=
  List.filter (λ a, negb (bool_decide ((nw_name w, a) ∈ agent_window_pairs t))) (nw_agent_names w).
Lemma new_targets_by_window old new :
  new_agent_targets old new = concat ((λ w, pair (nw_name w) <$> fresh_in old w) <$> nt_windows new).
Proof.
  unfold new_agent_targets. set (p := λ p, negb (bool_decide (p ∈ agent_window_pairs old))).
  unfold agent_window_pairs. rewrite filter_concat, <- list_fmap_compose.
  apply concat_ext. intros w _. cbn. by rewrite filter_fmap.
Qed.
Lemma fresh_in_absent t w : nw_name w ∉ nw_name <$> nt_windows t → fresh_in t w = nw_agent_names w.
Proof. intros H. apply filter_all. intros a _. rewrite bool_decide_eq_false_2; [done|]. by apply pair_in_absent. Qed.
Lemma fresh_in_window t w ow : topology_ok t → od_lookup (nw_name w) (window_map t) = Some ow →
  fresh_in t w = keys_minus (nw_agent_names w) (nw_agent_names ow).
Proof.
  intros Ht [How He]%window_lookup; [|done]. apply filter_ext_in. intros a _. f_equal. apply bool_decide_ext.
  rewrite <- He. by apply pair_in_window.
Qed.

Lemma fresh_target t t' w a : topology_ok t' → w ∈ nt_windows t' → a ∈ fresh_in t w →
  (nw_name w, a) ∈ new_agent_targets t t' ∧ a ≠ "".
Proof.
  intros Ht Hw Ha. split.
  - rewrite new_targets_by_window, elem_of_concat_fmap. exists w. split; [done|]. by apply list_elem_of_fmap_2.
  - apply elem_of_filter_bool in Ha as [Ha _]. pose proof (to_agents _ Ht) as H. rewrite Forall_forall in H.
    destruct (H w Hw) as (_ & _ & Hne). by intros ->.
Qed.

Section difference.
Context (old new : NamespaceTopologyPlan).
Hypothesis Hold : topology_ok old.
Hypothesis Hnew : topology_ok new.
Hypothesis Hadd : (additive_agent_steps old new).2 = [].
Hypothesis Hremove : (remove_agent_steps old new).2 = [].

(** What the planners say of one window. *)
Definition opened (w : NamespaceWindowPlan) : list NamespacePatchStep :=
  if bool_decide (nw_name w ∈ (window_map old).*1) then [] else new_window_steps w.
Definition grown (w : NamespaceWindowPlan) : list NamespacePatchStep :=
  match od_lookup (nw_name w) (window_map old) with
  | None => []
  | Some ow => (steps_for_window (nw_name w) ow w).1
  end.
Definition shrunk (w : NamespaceWindowPlan) : list NamespacePatchStep :=
  match od_lookup (nw_name w) (window_map new) with
  | None => (remove_window_steps (nw_name w) w).1
  | Some w' => (window_remove_agent_steps (nw_name w) w w').1
  end.
Lemma additive_by_window : (additive_agent_steps old new).1 = concat (grown <$> nt_windows new).
Proof using Hnew.
  unfold additive_agent_steps. rewrite planned_concat_steps, (window_map_ok new), <- list_fmap_compose by done.
  apply concat_ext. intros w _. unfold grown. cbn. by destruct (od_lookup _ _).
Qed.
Lemma removal_by_window : (remove_agent_steps old new).1 = concat (shrunk <$> nt_windows old).
Proof using Hold.
  unfold remove_agent_steps. rewrite planned_concat_steps, (window_map_ok old), <- list_fmap_compose by done.
  apply concat_ext. intros w _. unfold shrunk. cbn. by destruct (od_lookup _ _).
Qed.
Lemma kept_pair w ow : w ∈ nt_windows new → od_lookup (nw_name w) (window_map old) = Some ow →
  ow ∈ nt_windows old ∧ nw_name ow = nw_name w ∧ od_lookup (nw_name ow) (window_map new) = Some w ∧
  ∃ plan, append_agent_plan_for_window ow w = Some plan ∧
    grown w = append_steps (nw_name w) (last (nw_agent_names ow)) plan ∧
    ap_agent <$> plan = fresh_in old w ∧
    shrunk ow = kill_steps (nw_name ow) "agent exists only in current published config" (fresh_in new ow).
Proof using Hold Hnew Hadd Hremove.
  intros Hw Hl. pose proof Hl as [How He]%window_lookup; [|done].
  assert (od_lookup (nw_name ow) (window_map new) = Some w) as Hl' by (rewrite He; by apply window_lookup).
  split_and!; [done..|].
  unfold additive_agent_steps in Hadd. rewrite planned_concat_blocked in Hadd.
  unfold remove_agent_steps in Hremove. rewrite planned_concat_blocked in Hremove.
  assert ((nw_name w, w) ∈ window_map new) as Hin by (rewrite window_map_ok by done; by apply (list_elem_of_fmap_2 (λ w, (nw_name w, w)))).
  assert ((nw_name ow, ow) ∈ window_map old) as Hin' by (rewrite window_map_ok by done; by apply (list_elem_of_fmap_2 (λ w, (nw_name w, w)))).
  pose proof (concat_nil_all _ _ _ Hadd Hin) as H1. cbn in H1. rewrite Hl in H1.
  pose proof (concat_nil_all _ _ _ Hremove Hin') as H2. cbn in H2. rewrite Hl', He in H2.
  pose proof (to_agents _ Hold) as Ho. rewrite Forall_forall in Ho. destruct (Ho _ How) as [Hd1 _].
  pose proof (to_agents _ Hnew) as Hn. rewrite Forall_forall in Hn. destruct (Hn _ Hw) as [Hd2 _].
  destruct (kept_window _ _ _ H1 H2 Hd1 Hd2) as (plan & Hp & Hs & Hf & Hk). exists plan.
  unfold grown, shrunk. rewrite Hl, Hl', He. split_and!; [done|done| |].
  - by rewrite Hf, (fresh_in_window old w ow).
  - rewrite Hk. f_equal. symmetry. by apply fresh_in_window.
Qed.
(** A window that is only in the old topology goes with all its agents. *)
Lemma gone_window ow : ow ∈ nt_windows old → od_lookup (nw_name ow) (window_map new) = None →
  shrunk ow = kill_steps (nw_name ow) "agent window exists only in current published config" (fresh_in new ow) ++
              [step "kill_window" (nw_name ow) "window exists only in current published config"].
Proof using Hold Hnew.
  intros How Hl. unfold shrunk. rewrite Hl. rewrite fresh_in_absent by (by apply window_absent).
  unfold remove_window_steps, kill_steps. pose proof (to_agents _ Hold) as Ho. rewrite Forall_forall in Ho.
  destruct (Ho _ How) as (_ & Hne & _). by destruct (nw_agent_names ow).
Qed.
Lemma opened_window w : od_lookup (nw_name w) (window_map old) = None →
  opened w = new_window_steps w ∧ grown w = [] ∧ fresh_in old w = nw_agent_names w.
Proof using Hold.
  intros Hl. unfold opened, grown. rewrite Hl. pose proof Hl as Hn%window_absent; [|done].
  rewrite window_map_keys, bool_decide_eq_false_2 by done. split_and!; [done..|]. by apply fresh_in_absent.
Qed.
Lemma not_opened w ow : od_lookup (nw_name w) (window_map old) = Some ow → opened w = [].
Proof using Hold.
  intros Hl. unfold opened. rewrite bool_decide_eq_true_2; [done|].
  destruct (decide (nw_name w ∈ (window_map old).*1)) as [|Hn]; [done|]. apply od_lookup_none in Hn. congruence.
Qed.

(** *** What the steps create and kill *)
Definition patch_steps (ops : list ReloadOperation) : list NamespacePatchStep :=
  view_only_steps ops ++ additive_window_steps old new ++ (additive_agent_steps old new).1 ++ (remove_agent_steps old new).1.
Lemma window_cases w : w ∈ nt_windows new →
  od_lookup (nw_name w) (window_map old) = None ∨ ∃ ow, od_lookup (nw_name w) (window_map old) = Some ow.
Proof. destruct (od_lookup _ _) as [ow|]; [right; by exists ow|by left]. Qed.
Lemma opened_act w : acts ["create_window"; "create_sidebar_pane"; "create_agent_pane"] (opened w).
Proof. unfold opened. destruct (bool_decide _); [constructor|apply new_window_act]. Qed.
Lemma grown_act w : w ∈ nt_windows new → acts ["create_agent_pane"] (grown w).
Proof using Hold Hnew Hadd Hremove.
  intros Hw. destruct (window_cases w Hw) as [Hl|[ow Hl]]; [unfold grown; rewrite Hl; constructor|].
  destruct (kept_pair w ow Hw Hl) as (_ & _ & _ & plan & _ & -> & _). apply append_steps_act.
Qed.
Lemma shrunk_window ow : ow ∈ nt_windows old →
  targets (shrunk ow) "kill_agent_pane" = pair (nw_name ow) <$> fresh_in new ow ∧
  windows_of (shrunk ow) "kill_window" = (if bool_decide (nw_name ow ∈ (window_map new).*1) then [] else [nw_name ow]) ∧
  acts ["kill_agent_pane"; "kill_window"] (shrunk ow).
Proof using Hold Hnew Hadd Hremove.
  intros How. destruct (od_lookup (nw_name ow) (window_map new)) as [w|] eqn:Hl.
  - pose proof Hl as [Hw He]%window_lookup; [|done].
    assert (od_lookup (nw_name w) (window_map old) = Some ow) as Hl' by (rewrite He; by apply window_lookup).
    destruct (kept_pair w ow Hw Hl') as (_ & _ & _ & plan & _ & _ & _ & ->). split_and!.
    + by apply targets_panes.
    + rewrite bool_decide_eq_true_2.
      * apply (windows_none ["kill_agent_pane"]); [apply Forall_fmap, Forall_true; intros a; by left|].
        other_action.
      * destruct (decide (nw_name ow ∈ (window_map new).*1)) as [|Hn]; [done|]. apply od_lookup_none in Hn. congruence.
    + apply kill_steps_act.
  - rewrite (gone_window ow How Hl). rewrite bool_decide_eq_false_2 by (by apply od_lookup_none). split_and!.
    + unfold kill_steps. by rewrite targets_app, targets_panes, app_nil_r.
    + rewrite windows_app, (windows_none ["kill_agent_pane"]); [done| |].
      * apply Forall_fmap, Forall_true; intros a; by left.
      * other_action.
    + apply Forall_app. split; [apply kill_steps_act|]. constructor; [by right; left|constructor].
Qed.

Lemma created_targets ops : targets (patch_steps ops) "create_agent_pane" ≡ₚ new_agent_targets old new.
Proof using Hold Hnew Hadd Hremove.
  unfold patch_steps. rewrite !targets_app, additive_by_window, removal_by_window by done.
  rewrite (targets_none _ _ _ (view_steps_act ops)) by other_action.
  rewrite (targets_none ["kill_agent_pane"; "kill_window"] _ (concat (shrunk <$> _))).
  - rewrite app_nil_r. cbn [app]. change (additive_window_steps old new) with (concat (opened <$> nt_windows new)).
    rewrite !targets_concat, concat_interleave, new_targets_by_window. rewrite (concat_ext _ (λ w, pair (nw_name w) <$> fresh_in old w)); [done|]. intros w Hw.
    destruct (window_cases w Hw) as [Hl|[ow Hl]].
    + destruct (opened_window w Hl) as (-> & -> & ->). by rewrite targets_new_window, app_nil_r.
    + rewrite (not_opened w ow Hl). destruct (kept_pair w ow Hw Hl) as (_ & _ & _ & plan & _ & -> & <- & _).
      cbn [app]. apply targets_append_steps.
  - apply acts_concat. intros ow How. by apply shrunk_window.
  - other_action.
Qed.
Lemma killed_targets ops : targets (patch_steps ops) "kill_agent_pane" = removed_agent_targets old new.
Proof using Hold Hnew Hadd Hremove.
  unfold patch_steps. rewrite !targets_app, additive_by_window, removal_by_window by done.
  rewrite (targets_none _ _ _ (view_steps_act ops)) by other_action.
  rewrite (targets_none ["create_window"; "create_sidebar_pane"; "create_agent_pane"] _ (additive_window_steps _ _)),
    (targets_none ["create_agent_pane"] _ (concat (grown <$> _))).
  - cbn [app]. rewrite targets_concat. change (removed_agent_targets old new) with (new_agent_targets new old).
    rewrite new_targets_by_window. apply concat_ext. intros ow How. by apply shrunk_window.
  - apply acts_concat. intros w Hw. by apply grown_act.
  - other_action.
  - apply acts_concat. intros w _. apply opened_act.
  - other_action.
Qed.

Lemma created_windows ops : windows_of (patch_steps ops) "create_window" = windows_except (window_map new) (window_map old).
Proof using Hold Hnew Hadd Hremove.
  unfold patch_steps. rewrite !windows_app, additive_by_window, removal_by_window by done.
  rewrite (windows_none _ _ _ (view_steps_act ops)) by other_action.
  rewrite (windows_none ["kill_agent_pane"; "kill_window"] _ (concat (shrunk <$> _))),
    (windows_none ["create_agent_pane"] _ (concat (grown <$> _))).
  - change (additive_window_steps old new) with (concat (opened <$> nt_windows new)). cbn [app]. rewrite app_nil_r, windows_concat.
    rewrite (concat_ext _ (λ w, if bool_decide (nw_name w ∈ (window_map old).*1) then [] else [nw_name w])).
    + rewrite concat_singletons. unfold windows_except. by rewrite (window_map_keys new), filter_fmap.
    + intros w _. unfold opened. case_bool_decide; [done|]. apply windows_new_window.
  - apply acts_concat. intros w Hw. by apply grown_act.
  - other_action.
  - apply acts_concat. intros ow How. by apply shrunk_window.
  - other_action.
Qed.
Lemma killed_windows ops : windows_of (patch_steps ops) "kill_window" = windows_except (window_map old) (window_map new).
Proof using Hold Hnew Hadd Hremove.
  unfold patch_steps. rewrite !windows_app, additive_by_window, removal_by_window by done.
  rewrite (windows_none _ _ _ (view_steps_act ops)) by other_action.
  rewrite (windows_none ["create_window"; "create_sidebar_pane"; "create_agent_pane"] _ (additive_window_steps _ _)),
    (windows_none ["create_agent_pane"] _ (concat (grown <$> _))).
  - cbn [app]. rewrite windows_concat.
    rewrite (concat_ext _ (λ w, if bool_decide (nw_name w ∈ (window_map new).*1) then [] else [nw_name w])).
    + rewrite concat_singletons. unfold windows_except. by rewrite (window_map_keys old), filter_fmap.
    + intros ow How. by apply shrunk_window.
  - apply acts_concat. intros w Hw. by apply grown_act.
  - other_action.
  - apply acts_concat. intros w _. apply opened_act.
  - other_action.
Qed.

(** Each kept window that grows is among those panes are appended to. *)
Lemma append_windows : ∃ append, append_agent_windows old new = Some append ∧
  ∀ w, w ∈ nt_windows new → grown w ≠ [] → nw_name w ∈ append.*1.
Proof using Hold Hnew Hadd Hremove.
  unfold append_agent_windows. rewrite (window_map_ok new Hnew).
  assert (∀ ws, (∀ w, w ∈ ws → w ∈ nt_windows new) →
    ∃ append, append_windows_from (window_map old) ((λ w, (nw_name w, w)) <$> ws) = Some append ∧
      ∀ w, w ∈ ws → grown w ≠ [] → nw_name w ∈ append.*1) as H; [|by apply H].
  induction ws as [|w ws IH]; intros Hws; [exists []; split; [done|by intros ? ?%elem_of_nil]|].
  destruct IH as (append & Ha & IH); [intros w' Hw'; apply Hws; by right|]. cbn [fmap list_fmap append_windows_from].
  destruct (window_cases w) as [Hl|[ow Hl]]; [apply Hws; by left| |]; rewrite Hl.
  - exists append. split; [done|]. intros w' [->|Hw']%elem_of_cons Hg; [|by apply IH].
    by destruct (opened_window w Hl) as (_ & ? & _).
  - destruct (kept_pair w ow) as (_ & _ & _ & plan & -> & Hg & _); [apply Hws; by left|done|].
    cbn [mbind option_bind]. rewrite Ha. cbn [mbind option_bind]. destruct plan as [|p plan].
    + exists append. split; [done|]. intros w' [->|Hw']%elem_of_cons Hg'; [by rewrite Hg in Hg'|by apply IH].
    + eexists. split; [done|]. intros w' [->|Hw']%elem_of_cons Hg'; cbn; [by left|right; by apply IH].
Qed.

Lemma steps_pass ops append : append_agent_windows old new = Some append →
  step_proof_reason (patch_steps ops) (windows_except (window_map new) (window_map old))
    (windows_except (window_map old) (window_map new)) append.*1 (new_agent_targets old new) (removed_agent_targets old new) = None.
Proof using Hold Hnew Hadd Hremove.
  intros Happend. destruct append_windows as (append' & Ha & Hgrown). assert (append' = append) as -> by congruence.
  apply step_proof_reason_all. intros s. unfold patch_steps.
  rewrite additive_by_window, removal_by_window, !elem_of_app by done.
  change (additive_window_steps old new) with (concat (opened <$> nt_windows new)). rewrite !elem_of_concat_fmap.
  intros [Hs|[(w & Hw & Hs)|[(w & Hw & Hs)|(ow & How & Hs)]]].
  - by eapply view_only_ok.
  - unfold opened in Hs. case_bool_decide as Hin; [by apply elem_of_nil in Hs|].
    destruct (opened_window w) as (_ & _ & Hf); [by apply od_lookup_none|].
    apply (new_window_ok _ _ _ _ _ w); [| | |done].
    + apply elem_of_filter_bool. rewrite window_map_keys by done. split; [by apply list_elem_of_fmap_2|].
      by rewrite bool_decide_eq_false_2.
    + pose proof (to_agents _ Hnew) as H. rewrite Forall_forall in H. by apply (H w).
    + intros a Hina. apply (fresh_target old new); [done..|by rewrite Hf].
  - assert (nw_name w ∈ append.*1) as Hin by (apply Hgrown; [done|]; intros E; rewrite E in Hs; by apply elem_of_nil in Hs).
    destruct (window_cases w Hw) as [Hl|[ow Hl]]; [by destruct (opened_window w Hl) as (_ & E & _); rewrite E in Hs; apply elem_of_nil in Hs|].
    destruct (kept_pair w ow Hw Hl) as (_ & _ & _ & plan & _ & E & Hf & _). rewrite E in Hs.
    refine (append_ok _ _ _ _ _ _ _ plan Hin _ s Hs). rewrite Hf. intros a. by apply (fresh_target old new).
  - assert (∀ a, a ∈ fresh_in new ow → (nw_name ow, a) ∈ removed_agent_targets old new ∧ a ≠ "") as Hf
      by (intros a; by apply (fresh_target new old)).
    destruct (od_lookup (nw_name ow) (window_map new)) as [w|] eqn:Hl.
    + pose proof Hl as [Hw He]%window_lookup; [|done].
      destruct (kept_pair w ow) as (_ & _ & _ & plan & _ & _ & _ & E); [done|rewrite He; by apply window_lookup|].
      rewrite E in Hs. eapply kill_steps_ok; [exact Hf|exact Hs].
    + rewrite (gone_window ow How Hl) in Hs. apply elem_of_app in Hs as [Hs| ->%list_elem_of_singleton].
      * eapply kill_steps_ok; [exact Hf|exact Hs].
      * apply kill_window_ok, elem_of_filter_bool. rewrite window_map_keys by done. split; [by apply list_elem_of_fmap_2|].
        rewrite bool_decide_eq_false_2; [done|]. by apply od_lookup_none.
Qed.

(** Steps that change nothing are the refresh of the view. *)
Lemma some_step ops append : append_agent_windows old new = Some append → patch_steps ops ≠ [] →
  windows_of (patch_steps ops) "create_window" = [] → append.*1 = [] → removed_agent_targets old new = [] →
  has_view_only_step (patch_steps ops) = true.
Proof using Hold Hnew Hadd Hremove.
  intros Happend Hne Hc Ha Hk. destruct append_windows as (append' & Ha' & Hgrown). assert (append' = append) as -> by congruence.
  assert (∀ w, w ∈ nt_windows new → opened w = [] ∧ grown w = []) as Hnone.
  { intros w Hw. split.
    - rewrite created_windows in Hc. unfold opened. case_bool_decide as Hin; [done|].
      assert (nw_name w ∈ windows_except (window_map new) (window_map old)) as Hx; [|rewrite Hc in Hx; by apply elem_of_nil in Hx].
      apply elem_of_filter_bool. rewrite window_map_keys by done. split; [by apply list_elem_of_fmap_2|].
      by rewrite bool_decide_eq_false_2.
    - destruct (decide (grown w = [])) as [|Hg]; [done|]. specialize (Hgrown w Hw Hg). rewrite Ha in Hgrown.
      by apply elem_of_nil in Hgrown. }
  assert (∀ ow, ow ∈ nt_windows old → fresh_in new ow = []) as Hfresh.
  { intros ow How. destruct (fresh_in new ow) as [|a l] eqn:E; [done|].
    destruct (fresh_target new old ow a Hold How) as [Hin _]; [rewrite E; by left|].
    change (new_agent_targets new old) with (removed_agent_targets old new) in Hin. rewrite Hk in Hin. by apply elem_of_nil in Hin. }
  assert (∀ ow, ow ∈ nt_windows old → shrunk ow = []) as Hshrunk.
  { intros ow How. destruct (od_lookup (nw_name ow) (window_map new)) as [w|] eqn:Hl.
    - pose proof Hl as [Hw He]%window_lookup; [|done].
      destruct (kept_pair w ow) as (_ & _ & _ & plan & _ & _ & _ & ->); [done|rewrite He; by apply window_lookup|].
      by rewrite Hfresh.
    - specialize (Hfresh ow How). rewrite fresh_in_absent in Hfresh by (by apply window_absent).
      pose proof (to_agents _ Hold) as H. rewrite Forall_forall in H. by destruct (H ow How) as (_ & ? & _). }
  assert (∀ {A B} (f : A → list B) l, (∀ x, x ∈ l → f x = []) → concat (f <$> l) = []) as Hnil.
  { intros A B f l Hf. rewrite (concat_ext f (λ _, [])) by done. clear Hf. by induction l. }
  unfold patch_steps in *. rewrite additive_by_window, removal_by_window in Hne |- * by done.
  change (additive_window_steps old new) with (concat (opened <$> nt_windows new)) in Hne |- *.
  rewrite (Hnil _ _ opened), (Hnil _ _ grown), (Hnil _ _ shrunk), !app_nil_r in Hne |- * by (by intros; apply Hnone + apply Hshrunk).
  unfold view_only_steps in *. by destruct (existsb _ ops).
Qed.
End difference.

(** What the planner does not block passes the check, and creates and kills
    exactly the panes that differ. *)
Lemma planned_patch_ok old new ops verified : topology_ok old → topology_ok new →
  let patch := build_namespace_patch_plan_for old new ops verified in
  pp_status patch = PS_planned →
  unsupported_additive_patch_reason patch old new = None ∧
  targets (pp_steps patch) "create_agent_pane" ≡ₚ new_agent_targets old new ∧
  targets (pp_steps patch) "kill_agent_pane" = removed_agent_targets old new.
Proof.
  intros Hold Hnew patch. unfold patch, build_namespace_patch_plan_for. cbn.
  destruct (blocked_unsupported_operations ops ++ _) as [|x l]; cbn; [|done].
  fold (patch_steps old new ops).
  destruct (additive_agent_steps old new).2 as [|? ?] eqn:Hadd; [|done].
  destruct (remove_agent_steps old new).2 as [|? ?] eqn:Hremove; [|done]. cbn [app].
  destruct (missing_agent_steps "add_agent" _ _ _ _ ++ _) as [|? ?] eqn:Hm; [|done].
  destruct (patch_steps old new ops) as [|s rest] eqn:Hsteps; [done|]. rewrite <- Hsteps. intros _.
  split; [|split; [by apply created_targets|by apply killed_targets]].
  destruct (append_windows old new Hold Hnew Hadd Hremove) as (append & Happend & _).
  unfold unsupported_additive_patch_reason, patch_plan_status_reason. cbn. rewrite Happend.
  unfold planned_target_reason. rewrite created_windows, killed_windows, killed_targets by done.
  rewrite !(set_eqb_same (A := string)), !(set_eqb_same (A := string * string)) by (try done; intros x; by rewrite created_targets). cbn.
  destruct (bool_decide (windows_except (window_map new) _ = [])) eqn:H1, (bool_decide (append.*1 = [])) eqn:H2,
    (bool_decide (removed_agent_targets old new = [])) eqn:H3; cbn; try by apply steps_pass.
  apply bool_decide_eq_true in H1, H2, H3.
  rewrite (some_step old new Hold Hnew Hadd Hremove ops append Happend); [cbn; by apply steps_pass|by rewrite Hsteps| |done|done].
  by rewrite created_windows.
Qed.

(** ** The class of a plan *)
Lemma greatest_priority ops : ∀ best o, o ∈ best :: ops → priority_of o ≤ priority_of (foldl greater_op best ops).
Proof.
  induction ops as [|op ops IH]; intros best o; cbn [foldl]; [by intros ->%list_elem_of_singleton|].
  assert (priority_of best ≤ priority_of (greater_op best op) ∧ priority_of op ≤ priority_of (greater_op best op)) as [Hb Hop].
  { unfold greater_op. destruct (Z.ltb_spec (priority_of best) (priority_of op)); lia. }
  assert (priority_of (greater_op best op) ≤ priority_of (foldl greater_op (greater_op best op) ops)) as Hle by (apply IH; by left).
  intros [->|[->|Hin]%elem_of_cons]%elem_of_cons; [lia..|]. apply IH. by right.
Qed.
Lemma class_is_greatest ops o : o ∈ ops → priority_of (op_name o) ≤ priority_of (select_plan_class ops).
Proof.
  intros Hin. unfold select_plan_class. apply (list_elem_of_fmap_2 op_name) in Hin.
  destruct (op_name <$> ops) as [|op names]; [by apply elem_of_nil in Hin|]. by apply greatest_priority.
Qed.
Definition MUTATING_CLASSES : list string := ["add_agent"; "add_window"; "remove_agent"].
Lemma safe_operations ops : future_safe_to_apply (select_plan_class ops) ops = true → select_plan_class ops ∈ MUTATING_CLASSES →
  (∀ o, o ∈ ops → op_name o ∉ ["replace_agent"; "move_agent"]) ∧
  ((∀ o, o ∈ ops → op_name o ≠ "add_agent") ∨ (∀ o, o ∈ ops → op_name o ≠ "remove_agent")).
Proof.
  intros Hsafe Hclass. pose proof (class_is_greatest ops) as Hmax.
  assert (select_plan_class ops = "remove_agent" ∨ priority_of (select_plan_class ops) ≤ 50) as [Hc|Hc].
  { apply elem_of_cons in Hclass as [->|[->|[->|[]%elem_of_nil]%elem_of_cons]%elem_of_cons]; [by right..|by left]. }
  - rewrite Hc in Hsafe. cbn in Hsafe. unfold remove_agent_operations_are_safe in Hsafe.
    apply andb_true_iff in Hsafe as [[_ Hall]%andb_true_iff _]. rewrite forallb_forall in Hall.
    assert (∀ o, o ∈ ops → op_name o = "remove_agent" ∨ op_name o = "layout_change") as Hname.
    { intros o Ho%list_elem_of_In%Hall. by destruct o; cbn in Ho; (try discriminate Ho); [left|right..]. }
    split; [|left]; intros o Ho; destruct (Hname o Ho) as [-> | ->]; first [done|other_action].
  - assert (∀ o, o ∈ ops → op_name o ∉ ["replace_agent"; "move_agent"; "remove_agent"]) as Hname.
    { intros o Ho Hin. specialize (Hmax o Ho). assert (50 < priority_of (op_name o)); [|lia].
      apply elem_of_cons in Hin as [E|[E|[E|[]%elem_of_nil]%elem_of_cons]%elem_of_cons]; by rewrite E. }
    split; [|right]; intros o Ho; specialize (Hname o Ho); [|intros E; rewrite E in Hname; apply Hname; by do 2 right; left].
    intros Hin. apply Hname. apply elem_of_cons in Hin as [->|[->|[]%elem_of_nil]%elem_of_cons]; [by left|by right; left].
Qed.

(** ** Configurations *)
Abbreviation topology c := (build_namespace_topology_plan c None None).
Lemma sorted_strings_elem x l : x ∈ sorted_strings l ↔ x ∈ l.
Proof.
  assert (∀ y k, x ∈ sort_insert y k ↔ x = y ∨ x ∈ k) as Hins.
  { intros y k. induction k as [|z k IH]; cbn; [by rewrite list_elem_of_singleton, elem_of_nil; intuition|].
    destruct (String.leb y z); rewrite !elem_of_cons; [done|]. rewrite IH. intuition. }
  induction l as [|y l IH]; [done|]. cbn [sorted_strings foldr]. rewrite Hins, elem_of_cons. by rewrite <- IH.
Qed.
Section configurations.
Context `{SignatureLib} `{DrainIds}.

Lemma topology_windows c : nt_windows (topology c) =
  (λ w, window_plan w (if sb_mode (pc_sidebar c) =ˢ "every_window" then Some (pc_sidebar c) else None) None None) <$> pc_windows c.
Proof. done. Qed.
Lemma topology_names c : nw_name <$> nt_windows (topology c) = wn_name <$> pc_windows c.
Proof. by rewrite topology_windows, <- list_fmap_compose. Qed.
Lemma config_topology_ok c : config_ok c → topology_ok (topology c).
Proof.
  intros Hok. destruct (cf_windows _ Hok) as [Hw _ Hn _]. split; [by rewrite topology_names|].
  rewrite topology_windows, Forall_fmap. eapply Forall_impl; [exact Hw|]. intros w (_ & Hnorm & Hd & Hne).
  cbn. split_and!; [done..|]. rewrite Forall_forall in Hnorm. intros Hin. apply Hnorm in Hin.
  vm_compute in Hin. discriminate Hin.
Qed.
Lemma config_pairs c : agent_window_pairs (topology c) = concat ((λ w, pair (wn_name w) <$> wn_agent_names w) <$> pc_windows c).
Proof. unfold agent_window_pairs. by rewrite topology_windows, <- list_fmap_compose. Qed.
Lemma config_pairs_nodup c : config_ok c → NoDup (agent_window_pairs (topology c)).
Proof.
  intros Hok. apply (NoDup_fmap_1 snd). rewrite config_pairs.
  assert (snd <$> concat ((λ w, pair (wn_name w) <$> wn_agent_names w) <$> pc_windows c) = concat (wn_agent_names <$> pc_windows c)) as ->.
  { induction (pc_windows c) as [|w ws IH]; [done|]. cbn. rewrite fmap_app, IH, <- list_fmap_compose. f_equal.
    induction (wn_agent_names w) as [|a l IHl]; [done|]. cbn. by f_equal. }
  apply (cf_windows _ Hok).
Qed.

Lemma agent_window_map_eq c : config_ok c →
  agent_window_map c = concat ((λ w, (λ a, (a, wn_name w)) <$> wn_agent_names w) <$> pc_windows c).
Proof.
  intros Hok. pose proof (wo_agents _ _ (cf_windows _ Hok)) as Hd. unfold agent_window_map.
  assert (∀ ws d, NoDup (d.*1 ++ concat (wn_agent_names <$> ws)) →
    foldl (λ m w, foldl (λ m a, od_set a (wn_name w) m) m (wn_agent_names w)) d ws =
    d ++ concat ((λ w, (λ a, (a, wn_name w)) <$> wn_agent_names w) <$> ws)) as Hall; [|by apply (Hall _ [])].
  intros ws. induction ws as [|w ws IH]; intros d Hnd; cbn; [by rewrite app_nil_r|].
  cbn in Hnd. rewrite (foldl_od_set id (λ _, wn_name w)), IH, <- app_assoc; [done| |].
  - rewrite fmap_app, <- list_fmap_compose. cbn. rewrite list_fmap_id, <- app_assoc. exact Hnd.
  - rewrite list_fmap_id. rewrite app_assoc in Hnd. by apply NoDup_app in Hnd as [Hnd _].
Qed.
Lemma window_of_agent c a w : config_ok c → od_lookup a (agent_window_map c) = Some w ↔ (w, a) ∈ agent_window_pairs (topology c).
Proof.
  intros Hok. rewrite od_lookup_elem.
  - rewrite agent_window_map_eq, config_pairs, !elem_of_concat_fmap by done.
    setoid_rewrite list_elem_of_fmap. split; intros (x & Hx & a' & [= -> ->] & Ha); exists x; split; eauto.
  - rewrite agent_window_map_eq by done. pose proof (wo_agents _ _ (cf_windows _ Hok)) as Hd.
    assert ((concat ((λ w, (λ a, (a, wn_name w)) <$> wn_agent_names w) <$> pc_windows c)).*1 =
            concat (wn_agent_names <$> pc_windows c)) as ->; [|done].
    clear. induction (pc_windows c) as [|x ws IH]; [done|]. cbn. rewrite fmap_app, IH, <- list_fmap_compose. f_equal.
    apply list_fmap_id.
Qed.
Lemma agent_has_window c a : config_ok c → a ∈ (pc_agents c).*1 ↔ ∃ w, (w, a) ∈ agent_window_pairs (topology c).
Proof.
  intros Hok. rewrite <- (cf_partition _ Hok), config_pairs. rewrite elem_of_concat_fmap. split.
  - intros (w & Hw & Ha). exists (wn_name w). apply elem_of_concat_fmap. exists w. split; [done|]. by apply list_elem_of_fmap_2.
  - intros (n & (w & Hw & (a' & [= -> ->] & Ha)%list_elem_of_fmap)%elem_of_concat_fmap). by exists w.
Qed.

(** What is new in [l'] and what is gone from [l] take [l] to [l']. *)
Lemma pairs_change {A} `{EqDecision A} (l l' : list A) : NoDup l → NoDup l' →
  let gone := List.filter (λ p, negb (bool_decide (p ∈ l'))) l in
  l' ≡ₚ List.filter (λ p, negb (bool_decide (p ∈ gone))) l ++ List.filter (λ p, negb (bool_decide (p ∈ l))) l'.
Proof.
  intros Hl Hl' gone.
  assert (∀ (p : A → bool) k, NoDup k → NoDup (List.filter p k)) as Hf
    by (intros p k Hk; apply NoDup_ListNoDup, List.NoDup_filter; by apply NoDup_ListNoDup).
  assert (∀ x, x ∈ List.filter (λ p, negb (bool_decide (p ∈ gone))) l ↔ x ∈ l ∧ x ∈ l') as Hkept.
  { intros x. unfold gone. rewrite elem_of_filter_bool, negb_true_iff, bool_decide_eq_false, elem_of_filter_bool, negb_true_iff,
      bool_decide_eq_false. destruct (decide (x ∈ l')); intuition. }
  apply NoDup_Permutation; [done| |].
  - apply NoDup_app. split_and!; [by apply Hf| |by apply Hf]. intros x [Hx _]%Hkept [_ Hx']%elem_of_filter_bool.
    by apply negb_true_iff, bool_decide_eq_false in Hx'.
  - intros x. rewrite elem_of_app, Hkept, elem_of_filter_bool, negb_true_iff, bool_decide_eq_false.
    destruct (decide (x ∈ l)); intuition.
Qed.

(** *** The operations of two configurations *)
Context (current new : ProjectConfig).
Hypothesis Hcurrent : config_ok current.
Hypothesis Hnew : config_ok new.
Abbreviation operations := (build_operations current new).
Lemma added_agent_operation a : a ∈ (pc_agents new).*1 → a ∉ (pc_agents current).*1 →
  ∃ w, OpAddAgent a w ∈ operations.
Proof using.
  intros Hn Ho. eexists. unfold build_operations. rewrite !elem_of_app. right. left. apply list_elem_of_fmap. eexists. split; [done|].
  apply sorted_strings_elem, elem_of_filter_bool. split; [done|]. by rewrite bool_decide_eq_false_2.
Qed.
Lemma removed_agent_operation a : a ∈ (pc_agents current).*1 → a ∉ (pc_agents new).*1 →
  ∃ w, OpRemoveAgent a w ∈ operations.
Proof using.
  intros Hn Ho. eexists. unfold build_operations. rewrite !elem_of_app. do 2 right. left. apply list_elem_of_fmap. eexists. split; [done|].
  apply sorted_strings_elem, elem_of_filter_bool. split; [done|]. by rewrite bool_decide_eq_false_2.
Qed.
Lemma kept_agent_operation a : a ∈ (pc_agents current).*1 → a ∈ (pc_agents new).*1 →
  move_operation current new a ++ replace_operation current new a ⊆ operations.
Proof using.
  intros Ho Hn o. unfold build_operations. rewrite !elem_of_app.
  assert (a ∈ sorted_strings (keys_and (pc_agents current).*1 (pc_agents new).*1)) as Hin.
  { apply sorted_strings_elem, elem_of_filter_bool. split; [done|]. by rewrite bool_decide_eq_true_2. }
  intros [Hx|Hx]; do 3 right; [left|right; left]; apply elem_of_concat_fmap; by exists a.
Qed.
Lemma kept_agents_stay : (∀ o, o ∈ operations → op_name o ∉ ["replace_agent"; "move_agent"]) →
  ∀ w a, (w, a) ∈ agent_window_pairs (topology current) → a ∈ (pc_agents new).*1 → (w, a) ∈ agent_window_pairs (topology new).
Proof using Hcurrent Hnew.
  intros Hno w a Hw Ha. assert (a ∈ (pc_agents current).*1) as Ha' by (apply agent_has_window; [done|by exists w]).
  apply window_of_agent in Hw; [|done]. apply window_of_agent; [done|].
  destruct (decide (od_lookup a (agent_window_map current) = od_lookup a (agent_window_map new))) as [E|Hne]; [congruence|].
  assert (OpMoveAgent a (od_lookup a (agent_window_map current)) (od_lookup a (agent_window_map new)) ∈ operations) as Hin.
  { apply (kept_agent_operation a Ha' Ha), elem_of_app. left. unfold move_operation. rewrite bool_decide_eq_false_2 by done.
    by left. }
  destruct (Hno _ Hin). by right; left.
Qed.
Lemma kept_specs : (∀ o, o ∈ operations → op_name o ∉ ["replace_agent"; "move_agent"]) →
  ∀ a s s', od_lookup a (pc_agents current) = Some s → od_lookup a (pc_agents new) = Some s' →
  py_eqb (PDict (agent_record s)) (PDict (agent_record s')) = true.
Proof using Hcurrent Hnew.
  intros Hno a s s' Hs Hs'. destruct (py_eqb _ _) eqn:E; [done|].
  assert (a ∈ (pc_agents current).*1 ∧ a ∈ (pc_agents new).*1) as [Ho Hn].
  { split.
    - destruct (decide (a ∈ (pc_agents current).*1)) as [|Hx]; [done|]. apply od_lookup_none in Hx. congruence.
    - destruct (decide (a ∈ (pc_agents new).*1)) as [|Hx]; [done|]. apply od_lookup_none in Hx. congruence. }
  assert (OpReplaceAgent a (changed_fields (agent_record s) (agent_record s')) ∈ operations) as Hin.
  { apply (kept_agent_operation a Ho Hn), elem_of_app. right. unfold replace_operation. rewrite Hs, Hs', E. by left. }
  destruct (Hno _ Hin). by left.
Qed.
Lemma nothing_removed : (∀ o, o ∈ operations → op_name o ∉ ["replace_agent"; "move_agent"]) →
  (∀ o, o ∈ operations → op_name o ≠ "remove_agent") → removed_agent_targets (topology current) (topology new) = [].
Proof using Hcurrent Hnew.
  intros Hno Hx. apply filter_none. intros [w a] Hp. apply negb_false_iff, bool_decide_eq_true. apply kept_agents_stay; [done..|].
  destruct (decide (a ∈ (pc_agents new).*1)) as [|Hn]; [done|].
  destruct (removed_agent_operation a) as [w' Hin]; [apply agent_has_window; [done|by exists w]|done|]. by destruct (Hx _ Hin).
Qed.
Lemma nothing_added : (∀ o, o ∈ operations → op_name o ∉ ["replace_agent"; "move_agent"]) →
  (∀ o, o ∈ operations → op_name o ≠ "add_agent") → new_agent_targets (topology current) (topology new) = [].
Proof using Hcurrent Hnew.
  intros Hno Hx. apply filter_none. intros [w a] Hp. apply negb_false_iff, bool_decide_eq_true.
  assert (a ∈ (pc_agents new).*1) as Ha by (apply agent_has_window; [done|by exists w]).
  destruct (decide (a ∈ (pc_agents current).*1)) as [Ho|Hn].
  - apply agent_has_window in Ho as [w' Hw']; [|done]. pose proof (kept_agents_stay Hno _ _ Hw' Ha) as Hp'.
    apply window_of_agent in Hp, Hp'; [|done..]. congruence.
  - destruct (added_agent_operation a Ha Hn) as [w' Hin]. by destruct (Hx _ Hin).
Qed.
Abbreviation created plan := (targets (pp_steps (rp_namespace_patch_plan plan)) "create_agent_pane").
Abbreviation killed plan := (targets (pp_steps (rp_namespace_patch_plan plan)) "kill_agent_pane").

Lemma applicable_plan identity project_id namespace :
  let plan := build_reload_dry_run_plan current new identity project_id namespace in
  plan_blocker plan = None → rp_plan_class plan ∈ MUTATING_CLASSES →
  pp_status (rp_namespace_patch_plan plan) = PS_planned ∧ pp_scope_verified (rp_namespace_patch_plan plan) = true ∧
  (∃ ops, rp_namespace_patch_plan plan = build_namespace_patch_plan current new ops project_id namespace) ∧
  operations = rp_operations plan ∧
  (∀ o, o ∈ operations → op_name o ∉ ["replace_agent"; "move_agent"]) ∧
  ((∀ o, o ∈ operations → op_name o ≠ "add_agent") ∨ (∀ o, o ∈ operations → op_name o ≠ "remove_agent")).
Proof.
  intros plan. unfold plan, build_reload_dry_run_plan.
  destruct (bool_decide (id_config_signature _ = _)).
  { unfold identity_preserving_plan. destruct (py_eqb _ _); cbn; intros _ Hc; exfalso; revert Hc; other_action. }
  set (ops := match operations with [] => [OpUnclassified] | _ => operations end).
  unfold plan_blocker. cbn [rp_status rp_plan_class rp_future_safe_to_apply rp_namespace_patch_plan rp_operations].
  rewrite bool_decide_eq_true_2 by done. cbn [negb]. intros Hb Hclass.
  destruct (negb (bool_decide (select_plan_class ops ∈ ALLOWED_PLAN_CLASSES))); [done|].
  destruct (operation_blocker _); [done|].
  destruct (future_safe_to_apply (select_plan_class ops) ops) eqn:Hsafe; cbn [negb] in Hb; [|done].
  rewrite (bool_decide_eq_true_2 (select_plan_class ops ∈ _)) in Hb by exact Hclass.
  unfold namespace_patch_blocker in Hb. destruct (bool_decide (pp_status _ = PS_planned)) eqn:Hstatus; cbn [negb] in Hb; [|done].
  destruct (match pp_blocked_operations _ with [] => false | _ => true end); [done|].
  destruct (pp_scope_verified _) eqn:Hscope; cbn [negb] in Hb; [|done].
  destruct (safe_operations ops Hsafe Hclass) as [Hno Heither].
  assert (operations = ops) as E.
  { assert (select_plan_class [OpUnclassified] ∉ MUTATING_CLASSES) as Hunclassified by other_action.
    subst ops. destruct operations; [by destruct Hunclassified|done]. }
  rewrite E. split_and!; [by apply bool_decide_eq_true in Hstatus|done|by exists ops|done|done|done].
Qed.

End configurations.

(** ** Concrete configurations *)
(** A signature that shows the whole payload. *)
Fixpoint value_text (v : pyval) : string :=
  match v with
  | PNone => "null"
  | PBool b => if b then "true" else "false"
  | PInt n => pretty n
  | PFloat q => pretty (Qnum q) +:+ "/" +:+ pretty (Zpos (Qden q))
  | PStr s => repr_str s
  | PList l => "[" +:+ join "," (value_text <$> l) +:+ "]"
  | PDict d => "{" +:+ join "," ((λ kv, repr_str kv.1 +:+ ":" +:+ value_text kv.2) <$> d) +:+ "}"
  end.
Definition demo_signature : SignatureLib := λ d, value_text (PDict d).
Definition demo_digest : DrainIds := id.
Definition demo_namespace : option CurrentNamespace := Some (mkNamespace "p1" "/run/tmux.sock" "ccb" (Some 1) true).
Definition demo_plan (current new : ProjectConfig) : ReloadPlan :=
  build_reload_dry_run_plan (H := demo_signature) (H0 := demo_digest) current new None (Some "p1") demo_namespace.
Definition demo_config (text : string) : result ProjectConfig := '(c, _) ← demo_load text; mret c.
Lemma demo_config_ok text c : demo_config text = Ok c → config_ok c.
Proof.
  unfold demo_config, demo_load. intros ([c' k] & Hc & [= <-])%result_bind_Ok_inv.
  by apply (load_project_config_ok (H := demo_urls) demo_toml) in Hc as [Hok _].
Qed.

(** The layout of a window may change together with its agents: the plan is
    allowed, while the panes keep the arrangement they have. *)
Example layout_change_unnoticed :
  (current ← demo_config "a:codex; b:claude; c:codex";
   new ← demo_config "a:codex, c:codex";
   mret (plan_blocker (demo_plan current new), rp_operations (demo_plan current new))) =
  Ok (None, [OpRemoveAgent "b" (Some "main")]).
Proof. vm_compute. reflexivity. Qed.
