(* ===== verification/DrainQueue.v ===== *)
(** * Draining agents before they are unloaded

    [ccbd/reload_drain.py]: intents to unload or replace an agent, the records
    that follow them and the bounded queue of those records. *)
From stdpp Require Import pretty.
From Stdlib Require Import QArith Lqa.
From S2P Require Import Prelude PyValue Names ReloadPlan.
Open Scope string_scope.
Open Scope list_scope.
Open Scope Z_scope.

(** ** Values *)
Inductive DrainIntentKind := DK_unload | DK_replace.
#[export] Instance DrainIntentKind_eq_dec : EqDecision DrainIntentKind.
Proof. solve_decision. Defined.
Inductive DrainPhase := DP_pending_unload | DP_pending_replace | DP_draining | DP_retiring | DP_retired | DP_rejected.
#[export] Instance DrainPhase_eq_dec : EqDecision DrainPhase.
Proof. solve_decision. Defined.
Inductive DrainStatus := DS_pending | DS_waiting | DS_idle_ready | DS_timed_out | DS_rejected_queue_full | DS_retired.
#[export] Instance DrainStatus_eq_dec : EqDecision DrainStatus.
Proof. solve_decision. Defined.
Definition drain_kind_value (k : DrainIntentKind) : string := match k with DK_unload => "unload" | DK_replace => "replace" end.
Definition drain_phase_value (p : DrainPhase) : string :=
  match p with
  | DP_pending_unload => "pending_unload" | DP_pending_replace => "pending_replace" | DP_draining => "draining"
  | DP_retiring => "retiring" | DP_retired => "retired" | DP_rejected => "rejected"
  end.
Definition drain_status_value (s : DrainStatus) : string :=
  match s with
  | DS_pending => "pending" | DS_waiting => "waiting" | DS_idle_ready => "idle_ready" | DS_timed_out => "timed_out"
  | DS_rejected_queue_full => "rejected_queue_full" | DS_retired => "retired"
  end.
Definition INTENT_KINDS : list DrainIntentKind := [DK_unload; DK_replace].
Definition PHASES : list DrainPhase :=
  [DP_pending_unload; DP_pending_replace; DP_draining; DP_retiring; DP_retired; DP_rejected].
Definition STATUSES : list DrainStatus :=
  [DS_pending; DS_waiting; DS_idle_ready; DS_timed_out; DS_rejected_queue_full; DS_retired].
Definition TERMINAL_STATUSES : list DrainStatus := [DS_timed_out; DS_rejected_queue_full; DS_retired].
(** [if value not in members: raise ValueError]. *)
Definition one_of {A} (what : string) (value : A → string) (members : list A) (s : string) : result A :=
  match List.find (λ a, value a =ˢ s) members with
  | Some a => Ok a
  | None => Err (ValueError ("invalid drain " +:+ what +:+ ": " +:+ repr_str s))
  end.
(** [float(v)] of a number; the text of a number is not modelled. *)
Definition float_at (k : string) (v : pyval) : result Q :=
  match py_number v with Some q => Ok q | None => Err (IllTyped k) end.

(** ** Bounds *)
Record DrainBounds := mkDrainBounds { db_max_pending : Z; db_timeout_s : Q; db_max_age_s : Q }.
Definition drain_bounds_post_init (b : DrainBounds) : result DrainBounds :=
  _ ← raise_if (db_max_pending b <=? 0) (ValueError "max_pending must be positive");
  _ ← raise_if (Qle_bool (db_timeout_s b) 0) (ValueError "timeout_s must be positive");
  _ ← raise_if (Qle_bool (db_max_age_s b) 0) (ValueError "max_age_s must be positive");
  mret b.
Definition default_drain_bounds : DrainBounds := mkDrainBounds 16 (inject_Z 300) (inject_Z 900).
Definition drain_bounds_to_record (b : DrainBounds) : pydict :=
  [ ("max_pending", PInt (db_max_pending b)); ("timeout_s", PFloat (db_timeout_s b)); ("max_age_s", PFloat (db_max_age_s b)) ].
Definition drain_bounds_from_record (record : pydict) : result DrainBounds :=
  max_pending ← py_int (dget_or "max_pending" (PInt 16) record);
  timeout_s ← float_at "timeout_s" (dget_or "timeout_s" (PFloat (inject_Z 300)) record);
  max_age_s ← float_at "max_age_s" (dget_or "max_age_s" (PFloat (inject_Z 900)) record);
  drain_bounds_post_init (mkDrainBounds max_pending timeout_s max_age_s).

(** ** Intents *)
Record DrainIntent := mkIntent {
  di_intent_id : string;
  di_intent_kind : DrainIntentKind;
  di_agent_name : string;
  di_created_at_s : Q;
  di_reason : option string;
  di_old_config_signature : option string;
  di_new_config_signature : option string
}.
Definition drain_intent_post_init (i : DrainIntent) : result DrainIntent :=
  _ ← raise_if (strip (di_intent_id i) =ˢ "") (ValueError "intent_id cannot be empty");
  _ ← raise_if (strip (di_agent_name i) =ˢ "") (ValueError "agent_name cannot be empty");
  mret i.
Definition initial_phase (i : DrainIntent) : DrainPhase :=
  match di_intent_kind i with DK_unload => DP_pending_unload | DK_replace => DP_pending_replace end.
Definition drain_intent_to_record (i : DrainIntent) : pydict :=
  [ ("intent_id", PStr (di_intent_id i)); ("intent_kind", PStr (drain_kind_value (di_intent_kind i)));
    ("agent_name", PStr (di_agent_name i)); ("created_at_s", PFloat (di_created_at_s i));
    ("reason", of_opt_str (di_reason i)); ("old_config_signature", of_opt_str (di_old_config_signature i));
    ("new_config_signature", of_opt_str (di_new_config_signature i)) ].
Definition clean_value (v : pyval) : result (option string) := text ← py_str_or_empty v; mret (or_none (strip text)).
Definition drain_intent_from_record (record : pydict) : result DrainIntent :=
  intent_id ← str_at "intent_id" record;
  kind ← str_at "intent_kind" record;
  agent_name ← str_at "agent_name" record;
  created ← dindex "created_at_s" record;
  created_at_s ← float_at "created_at_s" created;
  reason ← clean_value (dget "reason" record);
  old_config_signature ← clean_value (dget "old_config_signature" record);
  new_config_signature ← clean_value (dget "new_config_signature" record);
  _ ← raise_if (strip intent_id =ˢ "") (ValueError "intent_id cannot be empty");
  intent_kind ← one_of "intent kind" drain_kind_value INTENT_KINDS kind;
  drain_intent_post_init (mkIntent intent_id intent_kind agent_name created_at_s reason old_config_signature new_config_signature).

(** ** Records *)
Record DrainRecord := mkDrain {
  dr_intent : DrainIntent;
  dr_phase : DrainPhase;
  dr_status : DrainStatus;
  dr_created_at_s : Q;
  dr_updated_at_s : Q;
  dr_deadline_at_s : Q;
  dr_max_age_deadline_at_s : Q;
  dr_reason : option string;
  dr_busy : option bool;
  dr_transition_count : Z
}.
Definition drain_terminal (r : DrainRecord) : bool := bool_decide (dr_status r ∈ TERMINAL_STATUSES).
Definition with_transition (r : DrainRecord) (phase : DrainPhase) (status : DrainStatus) (now_s : Q) (reason : string)
    (busy : option bool) : DrainRecord :=
  mkDrain (dr_intent r) phase status (dr_created_at_s r) now_s (dr_deadline_at_s r) (dr_max_age_deadline_at_s r)
    (Some reason) busy (dr_transition_count r + 1).
Definition drain_pending (i : DrainIntent) (bounds : DrainBounds) (now_s : Q) : DrainRecord :=
  mkDrain i (initial_phase i) DS_pending now_s now_s (now_s + db_timeout_s bounds)%Q
    (di_created_at_s i + db_max_age_s bounds)%Q (di_reason i) None 0.
Definition rejected_queue_full (i : DrainIntent) (bounds : DrainBounds) (now_s : Q) : DrainRecord :=
  mkDrain i DP_rejected DS_rejected_queue_full now_s now_s (now_s + db_timeout_s bounds)%Q
    (di_created_at_s i + db_max_age_s bounds)%Q (Some "pending drain queue is full") None 0.
Definition drain_record_to_record (r : DrainRecord) : pydict :=
  [ ("intent", PDict (drain_intent_to_record (dr_intent r)));
    ("phase", PStr (drain_phase_value (dr_phase r))); ("status", PStr (drain_status_value (dr_status r)));
    ("created_at_s", PFloat (dr_created_at_s r)); ("updated_at_s", PFloat (dr_updated_at_s r));
    ("deadline_at_s", PFloat (dr_deadline_at_s r)); ("max_age_deadline_at_s", PFloat (dr_max_age_deadline_at_s r));
    ("reason", of_opt_str (dr_reason r)); ("busy", match dr_busy r with Some b => PBool b | None => PNone end);
    ("transition_count", PInt (dr_transition_count r)) ].
Definition clean_bool_or_none (v : pyval) : option bool := match v with PNone => None | _ => Some (py_bool v) end.
Definition drain_record_from_record (record : pydict) : result DrainRecord :=
  intent_value ← dindex "intent" record;
  intent_record ← as_dict "intent" intent_value;
  intent ← drain_intent_from_record intent_record;
  phase ← str_at "phase" record;
  status ← str_at "status" record;
  created_at_s ← dindex "created_at_s" record ≫= float_at "created_at_s";
  updated_at_s ← dindex "updated_at_s" record ≫= float_at "updated_at_s";
  deadline_at_s ← dindex "deadline_at_s" record ≫= float_at "deadline_at_s";
  max_age_deadline_at_s ← dindex "max_age_deadline_at_s" record ≫= float_at "max_age_deadline_at_s";
  reason ← clean_value (dget "reason" record);
  transition_count ← py_int (dget_or "transition_count" (PInt 0) record);
  phase ← one_of "phase" drain_phase_value PHASES phase;
  status ← one_of "status" drain_status_value STATUSES status;
  mret (mkDrain intent phase status created_at_s updated_at_s deadline_at_s max_age_deadline_at_s reason
          (clean_bool_or_none (dget "busy" record)) transition_count).

(** ** The queue *)
Record DrainQueue := mkDrainQueue { dq_bounds : DrainBounds; dq_records : list DrainRecord }.
Definition empty_drain_queue (bounds : option DrainBounds) : DrainQueue :=
  mkDrainQueue (default default_drain_bounds bounds) [].
Definition drain_pending_count (q : DrainQueue) : Z :=
  Z.of_nat (length (List.filter (λ r, negb (drain_terminal r)) (dq_records q))).
Record DrainQueueResult := mkQueueResult { qr_queue : DrainQueue; qr_record : DrainRecord; qr_accepted : bool }.
Definition Qlt_bool (x y : Q) : bool := negb (Qle_bool y x).
Definition drain_enqueue (q : DrainQueue) (intent : DrainIntent) (now_s : Q) : DrainQueueResult :=
  if Qlt_bool (di_created_at_s intent + db_max_age_s (dq_bounds q))%Q now_s
  then mkQueueResult q (with_transition (drain_pending intent (dq_bounds q) now_s) DP_draining DS_timed_out now_s
                          "intent age exceeds max_age_s" None) false
  else if db_max_pending (dq_bounds q) <=? drain_pending_count q
  then mkQueueResult q (rejected_queue_full intent (dq_bounds q) now_s) false
  else
    let record := drain_pending intent (dq_bounds q) now_s in
    mkQueueResult (mkDrainQueue (dq_bounds q) (dq_records q ++ [record])) record true.
Definition record_id (r : DrainRecord) : string := di_intent_id (dr_intent r).
Definition replace_record (q : DrainQueue) (updated : DrainRecord) : DrainQueue :=
  mkDrainQueue (dq_bounds q)
    ((λ r, if record_id r =ˢ record_id updated then updated else r) <$> dq_records q).
Definition active_records_for (q : DrainQueue) (agent_name : string) : list DrainRecord :=
  List.filter (λ r, (di_agent_name (dr_intent r) =ˢ agent_name) && negb (drain_terminal r)) (dq_records q).
Definition blocks_new_work_for (q : DrainQueue) (agent_name : string) : bool :=
  negb (bool_decide (length (active_records_for q agent_name) = 0%nat)).
Definition drain_queue_schema_version : Z := 2.
Definition drain_queue_to_record (q : DrainQueue) : pydict :=
  [ ("schema_version", PInt drain_queue_schema_version); ("record_type", PStr "ccbd_reload_drain_queue");
    ("bounds", PDict (drain_bounds_to_record (dq_bounds q)));
    ("records", PList (PDict ∘ drain_record_to_record <$> dq_records q)) ].
Fixpoint drain_records_of (l : list pyval) : result (list DrainRecord) :=
  match l with
  | [] => mret []
  | v :: l => d ← as_dict "records" v; r ← drain_record_from_record d; rest ← drain_records_of l; mret (r :: rest)
  end.
Definition drain_queue_from_record (record : pydict) : result DrainQueue :=
  _ ← validate_record drain_queue_schema_version "ccbd_reload_drain_queue" record;
  bounds ← drain_bounds_from_record (default [] (dict_if_dict (dget "bounds" record)));
  records ← match dget "records" record with
            | PList l => drain_records_of l
            | v => if py_bool v then Err (IllTyped "records") else mret []
            end;
  mret (mkDrainQueue bounds records).

(** ** Transitions *)
(** [is_busy] is asked only when neither deadline has passed. *)
Definition plan_drain_transition (r : DrainRecord) (now_s : Q) (is_busy : DrainRecord → bool) : DrainRecord :=
  if drain_terminal r then r
  else if bool_decide (dr_status r = DS_idle_ready) then r
  else if Qle_bool (dr_max_age_deadline_at_s r) now_s
  then with_transition r DP_draining DS_timed_out now_s "drain max_age_s exceeded" None
  else if Qle_bool (dr_deadline_at_s r) now_s
  then with_transition r DP_draining DS_timed_out now_s "drain timeout_s exceeded" None
  else if is_busy r
  then with_transition r DP_draining DS_waiting now_s "agent is busy; drain remains bounded and pending" (Some true)
  else with_transition r DP_retiring DS_idle_ready now_s "agent is idle and ready for retire step" (Some false).
Definition retire_record (r : DrainRecord) (now_s : Q) : DrainRecord :=
  if bool_decide (dr_status r = DS_idle_ready)
  then with_transition r DP_retired DS_retired now_s
         "record retired; Phase 4 performs no runtime or tmux mutation" (Some false)
  else r.

(** ** The life of a queue *)
(** Intents are enqueued under ids the queue does not hold; records that are in
    the queue are moved on or retired and put back. *)
Inductive drain_step (q : DrainQueue) : DrainQueue → Prop :=
  | drain_step_enqueue intent now_s :
      di_intent_id intent ∉ record_id <$> dq_records q → drain_step q (qr_queue (drain_enqueue q intent now_s))
  | drain_step_plan r now_s is_busy :
      r ∈ dq_records q → drain_step q (replace_record q (plan_drain_transition r now_s is_busy))
  | drain_step_retire r now_s :
      r ∈ dq_records q → drain_step q (replace_record q (retire_record r now_s)).

(** What is true of each record of a queue. *)
Definition drain_record_ok (bounds : DrainBounds) (r : DrainRecord) : Prop :=
  dr_deadline_at_s r = (dr_created_at_s r + db_timeout_s bounds)%Q ∧
  dr_phase r = match dr_status r with
               | DS_pending => initial_phase (dr_intent r)
               | DS_waiting | DS_timed_out => DP_draining
               | DS_idle_ready => DP_retiring
               | DS_retired => DP_retired
               | DS_rejected_queue_full => DP_rejected
               end ∧
  (dr_status r ∈ [DS_idle_ready; DS_retired] → dr_busy r = Some false).
Record drain_queue_ok (bounds : DrainBounds) (q : DrainQueue) : Prop := {
  do_bounds : dq_bounds q = bounds;
  do_ids : NoDup (record_id <$> dq_records q);
  do_pending : drain_pending_count q ≤ db_max_pending bounds;
  do_records : Forall (drain_record_ok bounds) (dq_records q)
}.

Lemma plan_keeps r now_s is_busy :
  let r' := plan_drain_transition r now_s is_busy in
  dr_intent r' = dr_intent r ∧ (drain_terminal r = true → r' = r) ∧ (∀ b, drain_record_ok b r → drain_record_ok b r').
Proof.
  unfold plan_drain_transition. destruct (drain_terminal r) eqn:Ht; [done|].
  destruct (bool_decide _); [done|].
  assert (∀ phase status reason busy, (phase, status, busy) ∈ [(DP_draining, DS_timed_out, None); (DP_draining, DS_waiting, Some true);
    (DP_retiring, DS_idle_ready, Some false)] → ∀ b, drain_record_ok b r →
    drain_record_ok b (with_transition r phase status now_s reason busy)) as Hok.
  { intros phase status reason busy Hin b (Hd & _). unfold drain_record_ok. cbn.
    apply elem_of_cons in Hin as [[= -> -> ->]|[[= -> -> ->]|[= -> -> ->]%list_elem_of_singleton]%elem_of_cons];
      split_and!; try done; intros [?|?%list_elem_of_singleton]%elem_of_cons; done. }
  repeat destruct (Qle_bool _ _); [..|destruct (is_busy r)]; (split_and!; [done|done|]); apply Hok; set_unfold; tauto.
Qed.
Lemma retire_keeps r now_s :
  let r' := retire_record r now_s in
  dr_intent r' = dr_intent r ∧ (drain_terminal r = true → r' = r) ∧ (∀ b, drain_record_ok b r → drain_record_ok b r').
Proof.
  unfold retire_record. case_bool_decide as Hs; [|done]. split_and!; [done| |].
  - unfold drain_terminal. by rewrite Hs.
  - intros b (Hd & _). unfold drain_record_ok. cbn. by split_and!.
Qed.

(** Putting back a record that does not leave its final status. *)
Lemma replace_ids q u r : r ∈ dq_records q → dr_intent u = dr_intent r →
  record_id <$> dq_records (replace_record q u) = record_id <$> dq_records q.
Proof.
  intros _ _. unfold replace_record. cbn. rewrite <- list_fmap_compose. apply list_fmap_ext. intros i x _. cbn.
  destruct (bool_decide (record_id x = record_id u)) eqn:E; [|done]. by apply bool_decide_eq_true in E.
Qed.
Lemma replaced_elem q u r x : NoDup (record_id <$> dq_records q) → r ∈ dq_records q → record_id u = record_id r →
  x ∈ dq_records (replace_record q u) → x = u ∨ (x ∈ dq_records q ∧ record_id x ≠ record_id r).
Proof.
  intros _ _ Hid (y & -> & Hy)%list_elem_of_fmap.
  destruct (bool_decide (record_id y = record_id u)) eqn:E; [by left|]. apply bool_decide_eq_false in E.
  right. by rewrite <- Hid.
Qed.
Lemma record_unique q r r' : NoDup (record_id <$> dq_records q) → r ∈ dq_records q → r' ∈ dq_records q →
  record_id r = record_id r' → r = r'.
Proof.
  intros Hd Hr Hr' He. apply list_elem_of_lookup in Hr as [i Hi], Hr' as [j Hj].
  assert (i = j) as ->; [|congruence]. apply (NoDup_lookup _ i j (record_id r) Hd); rewrite list_lookup_fmap.
  - by rewrite Hi.
  - by rewrite Hj, He.
Qed.
Lemma replace_pending q u : (∀ x, x ∈ dq_records q → record_id x = record_id u → drain_terminal x = true → drain_terminal u = true) →
  drain_pending_count (replace_record q u) ≤ drain_pending_count q.
Proof.
  unfold drain_pending_count, replace_record. cbn. induction (dq_records q) as [|x l IH]; [done|]. intros H. cbn.
  assert (Z.of_nat (length (List.filter (λ r, negb (drain_terminal r)) ((λ r, if record_id r =ˢ record_id u then u else r) <$> l)))
    ≤ Z.of_nat (length (List.filter (λ r, negb (drain_terminal r)) l))) as Hl.
  { apply IH. intros y Hy. apply H. by right. }
  destruct (bool_decide (record_id x = record_id u)) eqn:E.
  - apply bool_decide_eq_true in E. specialize (H x (list_elem_of_here x l) E).
    destruct (drain_terminal x), (drain_terminal u); cbn; try lia; by discriminate H.
  - destruct (drain_terminal x); cbn; lia.
Qed.
Lemma replace_ok bounds q r u : drain_queue_ok bounds q → r ∈ dq_records q → dr_intent u = dr_intent r →
  (drain_terminal r = true → u = r) → (∀ b, drain_record_ok b r → drain_record_ok b u) → drain_queue_ok bounds (replace_record q u).
Proof.
  intros [Hb Hd Hp Hr] Hin Hi Ht Hok. assert (record_id u = record_id r) as Hid by (unfold record_id; by rewrite Hi). split.
  - done.
  - by rewrite (replace_ids q u r).
  - etrans; [|exact Hp]. apply replace_pending. intros x Hx He Htx. rewrite Hid in He.
    rewrite (record_unique q x r Hd Hx Hin He) in Htx. by rewrite Ht.
  - apply Forall_forall. rewrite Forall_forall in Hr. intros x Hx.
    destruct (replaced_elem q u r x Hd Hin Hid Hx) as [->|[Hx' _]]; [apply Hok|]; by apply Hr.
Qed.
Lemma enqueue_ok bounds q intent now_s : drain_queue_ok bounds q → di_intent_id intent ∉ record_id <$> dq_records q →
  drain_queue_ok bounds (qr_queue (drain_enqueue q intent now_s)).
Proof.
  intros Hq Hi. unfold drain_enqueue. destruct (Qlt_bool _ _); [done|].
  destruct (Z.leb_spec (db_max_pending (dq_bounds q)) (drain_pending_count q)) as [|Hlt]; [done|].
  destruct Hq as [Hb Hd Hp Hr]. split; cbn.
  - done.
  - rewrite fmap_app. apply NoDup_app. split_and!; [done| |apply NoDup_singleton].
    intros x Hx ->%list_elem_of_singleton. by apply Hi.
  - unfold drain_pending_count in *. cbn. rewrite List.filter_app, length_app, Hb in *. cbn. destruct (negb _); cbn; lia.
  - apply Forall_app. split; [done|]. constructor; [|constructor]. unfold drain_record_ok. cbn. rewrite Hb.
    split_and!; [done..|]. by intros [?|?%list_elem_of_singleton]%elem_of_cons.
Qed.
Lemma drain_step_ok bounds q q' : drain_queue_ok bounds q → drain_step q q' → drain_queue_ok bounds q'.
Proof.
  intros Hq [intent now_s Hi|r now_s is_busy Hr|r now_s Hr]; [by apply enqueue_ok|..].
  - destruct (plan_keeps r now_s is_busy) as (?&?&?). by eapply replace_ok.
  - destruct (retire_keeps r now_s) as (?&?&?). by eapply replace_ok.
Qed.
Lemma drain_steps_ok bounds q q' : rtc drain_step q q' → drain_queue_ok bounds q → drain_queue_ok bounds q'.
Proof. induction 1 as [|x y z Hstep _ IH]; [done|]. intros Hx. by apply IH, (drain_step_ok bounds x). Qed.
Lemma empty_queue_ok bounds : 0 < db_max_pending bounds → drain_queue_ok bounds (empty_drain_queue (Some bounds)).
Proof. intros Hb. split; cbn; [done|constructor|unfold drain_pending_count; cbn; lia|constructor]. Qed.
Lemma final_records_stay bounds q q' r r' : drain_queue_ok bounds q → drain_step q q' →
  r ∈ dq_records q → r' ∈ dq_records q' → record_id r = record_id r' → drain_terminal r = true → r' = r.
Proof.
  intros Hq Hstep Hr Hr' Hid Ht. pose proof (do_ids _ _ Hq) as Hd.
  assert (∀ s u, s ∈ dq_records q → dr_intent u = dr_intent s → (drain_terminal s = true → u = s) →
    r' ∈ dq_records (replace_record q u) → r' = r) as Hreplace.
  { intros s u Hs Hi Hu Hin. assert (record_id u = record_id s) as Hus by (unfold record_id; by rewrite Hi).
    destruct (replaced_elem q u s r' Hd Hs Hus Hin) as [->|[Hx Hne]].
    - assert (s = r) as -> by (apply (record_unique q); congruence). by apply Hu.
    - symmetry. by apply (record_unique q). }
  destruct Hstep as [intent now_s Hi|s now_s is_busy Hs|s now_s Hs].
  - unfold drain_enqueue in Hr'. destruct (Qlt_bool _ _); [symmetry; by apply (record_unique q)|].
    destruct (_ <=? _); [symmetry; by apply (record_unique q)|]. cbn in Hr'.
    apply elem_of_app in Hr' as [Hr'| ->%list_elem_of_singleton]; [symmetry; by apply (record_unique q)|].
    destruct Hi. rewrite <- (eq_refl : record_id (drain_pending intent (dq_bounds q) now_s) = di_intent_id intent), <- Hid.
    by apply list_elem_of_fmap_2.
  - destruct (plan_keeps s now_s is_busy) as (Hi & Ht' & _). exact (Hreplace s _ Hs Hi Ht' Hr').
  - destruct (retire_keeps s now_s) as (Hi & Ht' & _). exact (Hreplace s _ Hs Hi Ht' Hr').
Qed.

(** Once a deadline has passed, or the agent is idle, a record is moved out of
    the waiting states. *)
Lemma plan_ends_waiting r now_s is_busy :
  (dr_deadline_at_s r <= now_s)%Q ∨ (dr_max_age_deadline_at_s r <= now_s)%Q ∨ is_busy r = false →
  dr_status (plan_drain_transition r now_s is_busy) ∉ [DS_pending; DS_waiting].
Proof.
  intros Hw. unfold plan_drain_transition. destruct (drain_terminal r) eqn:Ht.
  { unfold drain_terminal in Ht. apply bool_decide_eq_true in Ht. set_unfold. intuition congruence. }
  case_bool_decide as Hs; [rewrite Hs; set_unfold; intuition congruence|].
  destruct (Qle_bool (dr_max_age_deadline_at_s r) now_s) eqn:H1; [cbn; set_unfold; intuition congruence|].
  destruct (Qle_bool (dr_deadline_at_s r) now_s) eqn:H2; [cbn; set_unfold; intuition congruence|].
  destruct Hw as [Hw|[Hw|Hw]]; [by apply Qle_bool_iff in Hw; congruence..|]. rewrite Hw. cbn. set_unfold. intuition congruence.
Qed.


(** The ids are what the bound depends on: the id of an intent is the digest of
    its contents, and [enqueue] accepts one that a finished record has. Then
    [replace_record] writes over the finished record as well. *)
Example reused_id_exceeds_bound :
  let bounds := mkDrainBounds 1 (inject_Z 10) (inject_Z 60) in
  let intent := mkIntent "i1" DK_unload "a" 0 None None None in
  let move q r := replace_record q r in
  let q1 := qr_queue (drain_enqueue (empty_drain_queue (Some bounds)) intent 0) in
  let done := retire_record (plan_drain_transition (drain_pending intent bounds 0) 1 (λ _, false)) 1 in
  let q2 := qr_queue (drain_enqueue (move q1 done) intent 2) in
  let q3 := move q2 (plan_drain_transition (drain_pending intent bounds 2) 3 (λ _, true)) in
  drain_pending_count q2 = 1 ∧ drain_pending_count q3 = 2.
Proof. split; vm_compute; reflexivity. Qed.
