(* ===== verification/Jsonl.v ===== *)
(** * Append-only JSON-lines files

    [storage/jsonl_store.py]: appending a row, reading a file forwards, and the
    two readers that walk it backwards in chunks.  A file is its list of bytes;
    [None] is a file that does not exist. *)
From S2P Require Import Prelude PyValue.
Open Scope string_scope.
Open Scope list_scope.
Open Scope nat_scope.

Abbreviation bytes := (list ascii).
Definition LF : ascii := ascii_of_nat 10.
Definition CR : ascii := ascii_of_nat 13.
Definition is_newline (c : ascii) : bool := bool_decide (c = LF) || bool_decide (c = CR).

(** [bytes.splitlines]: lines end at [\n], [\r] or [\r\n]. *)
Fixpoint splitlines (s : bytes) : list bytes :=
  match s with
  | [] => []
  | c :: s' =>
      if bool_decide (c = LF) then [] :: splitlines s'
      else if bool_decide (c = CR) then
        match s' with
        | d :: s'' => if bool_decide (d = LF) then [] :: splitlines s'' else [] :: splitlines s'
        | [] => [[]]
        end
      else match splitlines s' with
           | [] => [[c]]
           | l :: ls => (c :: l) :: ls
           end
  end.

(** UTF-8 decoding of one line, and [json]: what the store calls. *)
Class TextCodec := {
  utf8_decode : bytes → result string;
  json_loads : string → result pyval;
  json_dumps_line : pydict → bytes;
  utf8_decode_empty : utf8_decode [] = Ok ""
}.

Section jsonl.
Context `{TextCodec} {T : Type} (path : string) (loader : pydict → result T).

(** One line: [None] when it is blank. *)
Definition row_of_line (raw : bytes) : result (option pydict) :=
  text ← utf8_decode raw;
  if strip text =ˢ "" then mret None
  else
    payload ← json_loads (strip text);
    match payload with
    | PDict d => mret (Some d)
    | _ => Err (ValueError (path +:+ ": expected JSON object rows"))
    end.

Definition append (content : option bytes) (row : pydict) : bytes :=
  default [] content ++ json_dumps_line row ++ [LF].

(** The loop of [read_all]. *)
Fixpoint load_lines (lines : list bytes) : result (list T) :=
  match lines with
  | [] => mret []
  | raw :: rest =>
      d ← row_of_line raw;
      match d with
      | None => load_lines rest
      | Some d => (row ← loader d; rows ← load_lines rest; mret (row :: rows))
      end
  end.

Definition read_all (content : option bytes) : result (list T) :=
  match content with None => mret [] | Some s => load_lines (splitlines s) end.

(** The loop of [read_since]; a skipped row is not decoded as JSON. *)
Fixpoint load_since (start_line current : nat) (lines : list bytes) : result (nat * list T) :=
  match lines with
  | [] => mret (current, [])
  | raw :: rest =>
      text ← utf8_decode raw;
      if strip text =ˢ "" then load_since start_line current rest
      else if S current <=? start_line then load_since start_line (S current) rest
      else
        d ← row_of_line raw;
        match d with
        | None => load_since start_line (S current) rest
        | Some d =>
            (row ← loader d;
             '(n, rows) ← load_since start_line (S current) rest;
             mret (n, row :: rows))
        end
  end.

Definition read_since (content : option bytes) (start_line : Z) : result (nat * list T) :=
  _ ← raise_if (start_line <? 0)%Z (ValueError "start_line cannot be negative");
  match content with
  | None => mret (Z.to_nat start_line, [])
  | Some s => load_since (Z.to_nat start_line) 0 (splitlines s)
  end.

(** One chunk read backwards: the position moved down, the bytes there put
    in front of the buffer; the first line is kept back unless it is known to
    start a line. *)
Definition next_chunk (chunk position : nat) (content buffer : bytes)
    : nat * bytes * list bytes :=
  let read_size := min chunk position in
  let position := position - read_size in
  let buffer := take read_size (drop position content) ++ buffer in
  let lines := splitlines buffer in
  if (0 <? position)
     && match buffer with c :: _ => negb (is_newline c) | [] => false end
  then (position, default buffer (head lines), tail lines)
  else (position, [], lines).

Section find_last.
Context (predicate : pydict → bool).

(** The inner loop of [find_last], over lines from the last one back. *)
Fixpoint scan_back (lines : list bytes) : result (option T) :=
  match lines with
  | [] => mret None
  | raw :: rest =>
      d ← row_of_line raw;
      match d with
      | None => scan_back rest
      | Some d => if predicate d then (row ← loader d; mret (Some row)) else scan_back rest
      end
  end.

Fixpoint find_last_loop (fuel chunk position : nat) (content buffer : bytes)
    : result (option T) :=
  if position =? 0 then
    (* the [if buffer:] after the loop *)
    match buffer with [] => mret None | _ => scan_back [buffer] end
  else
    match fuel with
    | O => mret None
    | S fuel' =>
        let '(position', buffer', lines) := next_chunk chunk position content buffer in
        found ← scan_back (reverse lines);
        match found with
        | Some row => mret (Some row)
        | None => find_last_loop fuel' chunk position' content buffer'
        end
    end.

(** [find_last] reads chunks of 4096 = 64 * 64 bytes. *)
Definition find_last_in_chunks (chunk : nat) (content : bytes) : result (option T) :=
  find_last_loop (length content) chunk (length content) content [].

Definition find_last_row (content : option bytes) : result (option T) :=
  match content with None => mret None | Some s => find_last_in_chunks (64 * 64) s end.
End find_last.

(** The inner loop of [read_tail]: rows from the last one back, at most
    [limit] in all, added to those found. *)
Fixpoint collect_back (limit : nat) (rows : list T) (lines : list bytes) : result (list T) :=
  match lines with
  | [] => mret rows
  | raw :: rest =>
      if limit <=? length rows then mret rows
      else
        d ← row_of_line raw;
        match d with
        | None => collect_back limit rows rest
        | Some d => (row ← loader d; collect_back limit (rows ++ [row]) rest)
        end
  end.

Fixpoint read_tail_loop (fuel chunk limit position : nat) (content buffer : bytes)
    (rows : list T) : result (list T) :=
  if (position =? 0) || (limit <=? length rows) then mret rows
  else
    match fuel with
    | O => mret rows
    | S fuel' =>
        let '(position', buffer', lines) := next_chunk chunk position content buffer in
        rows' ← collect_back limit rows (reverse lines);
        read_tail_loop fuel' chunk limit position' content buffer' rows'
    end.

Definition read_tail_in_chunks (chunk limit : nat) (content : bytes) : result (list T) :=
  rows ← read_tail_loop (length content) chunk limit (length content) content [] [];
  mret (reverse rows).

(** [read_tail] reads chunks of 8192 = 128 * 64 bytes. *)
Definition read_tail (content : option bytes) (limit : Z) : result (list T) :=
  _ ← raise_if (limit <? 0)%Z (ValueError "limit cannot be negative");
  if (limit =? 0)%Z then mret []
  else match content with
       | None => mret []
       | Some s => read_tail_in_chunks (128 * 64) (Z.to_nat limit) s
       end.
End jsonl.

(** ** Lines *)
Abbreviation nonblank := (List.filter (λ l : bytes, match l with [] => false | _ => true end)).

Section lines.
Implicit Types (s pre : bytes) (c : ascii).

Lemma splitlines_ordinary c s :
  is_newline c = false →
  splitlines (c :: s) = match splitlines s with [] => [[c]] | l :: ls => (c :: l) :: ls end.
Proof. unfold is_newline. intros [H1 H2]%orb_false_iff. cbn. by rewrite H1, H2. Qed.

(** A newline ends a line: [\r\n] only leaves one blank line less. *)
Lemma splitlines_newline c s :
  is_newline c = true → nonblank (splitlines (c :: s)) = nonblank (splitlines s).
Proof.
  unfold is_newline. cbn. case_bool_decide; [done|].
  case_bool_decide; [|done]. intros _. destruct s as [|d s]; [done|]. cbn.
  by case_bool_decide as E.
Qed.

Lemma splitlines_head_nil s : splitlines s = [] → s = [].
Proof.
  destruct s as [|c s]; [done|]. cbn. repeat case_bool_decide; [done| |].
  - destruct s as [|d s]; [done|]. by case_bool_decide.
  - by destruct (splitlines s).
Qed.

(** The first line of [s], when [s] does not start with a newline. *)
Lemma splitlines_first s c l ls :
  is_newline c = false → splitlines (c :: s) = l :: ls →
  ∃ l' sep rest, l = c :: l' ∧ s = l' ++ sep ++ rest ∧ splitlines l = [l] ∧
    nonblank (splitlines rest) = nonblank ls ∧
    match sep with [] => rest = [] | d :: _ => is_newline d = true ∧ length sep = 1 end.
Proof.
  revert c l ls. induction s as [|d s IH]; intros c l ls Hc.
  - rewrite splitlines_ordinary by done. cbn. intros [= <- <-]. exists [], [], [].
    split_and!; try done. by rewrite splitlines_ordinary.
  - rewrite splitlines_ordinary by done. destruct (is_newline d) eqn:Hd.
    + assert (∃ t, splitlines (d :: s) = [] :: t ∧ nonblank t = nonblank (splitlines s)) as (t & -> & Ht).
      { pose proof (splitlines_newline d s Hd) as Hn.
        destruct (splitlines (d :: s)) as [|x t] eqn:E; [by apply splitlines_head_nil in E|].
        assert (x = []) as ->; [|by eauto].
        revert E. unfold is_newline in Hd. cbn. case_bool_decide; [naive_solver|].
        case_bool_decide; [|done]. destruct s as [|y s']; [naive_solver|].
        case_bool_decide; naive_solver. }
      intros [= <- <-]. exists [], [d], s. split_and!; try done. by rewrite splitlines_ordinary.
    + destruct (splitlines (d :: s)) as [|x t] eqn:E; [by apply splitlines_head_nil in E|].
      intros [= <- <-]. destruct (IH d x t Hd E) as (l' & sep & rest & -> & -> & Hx & Hr & Hsep).
      exists (d :: l'), sep, rest. split_and!; try done.
      rewrite splitlines_ordinary by done. by rewrite Hx.
Qed.

(** Lines up to blank ones: cut at every newline character. *)
Fixpoint cut (s : bytes) : list bytes :=
  match s with
  | [] => []
  | c :: s' =>
      if is_newline c then [] :: cut s'
      else match cut s' with [] => [[c]] | l :: ls => (c :: l) :: ls end
  end.

Lemma splitlines_cut s :
  head (splitlines s) = head (cut s) ∧
  nonblank (tail (splitlines s)) = nonblank (tail (cut s)).
Proof.
  assert (∃ n, length s ≤ n) as [n Hn] by eauto. revert s Hn.
  induction n as [|n IH]; intros [|c s] Hn; cbn in Hn; try done; [lia|].
  assert (∀ s', length s' ≤ n → nonblank (splitlines s') = nonblank (cut s')) as Hw.
  { intros s' Hs. destruct (IH s' Hs) as [H1 H2].
    destruct (splitlines s') as [|x t], (cut s') as [|y u]; cbn in *; try done.
    injection H1 as ->. by rewrite H2. }
  destruct (is_newline c) eqn:Hc.
  - cbn. rewrite Hc. unfold is_newline in Hc. case_bool_decide; [split; [done|]; apply Hw; lia|].
    cbn in Hc. rewrite Hc. destruct s as [|d s]; [by split|]. destruct (bool_decide (d = LF)) eqn:Hd; (split; [done|]).
    + cbn in Hn. cbn [tail cut]. unfold is_newline. rewrite Hd.
      cbn. apply Hw. lia.
    + apply Hw. lia.
  - rewrite splitlines_ordinary by done. cbn [cut]. rewrite Hc.
    destruct (IH s) as [H1 H2]; [lia|].
    destruct (splitlines s) as [|x t], (cut s) as [|y u]; cbn in *; try done.
    by injection H1 as ->.
Qed.

Lemma nonblank_cut s : nonblank (splitlines s) = nonblank (cut s).
Proof.
  destruct (splitlines_cut s) as [H1 H2].
  destruct (splitlines s) as [|x t], (cut s) as [|y u]; cbn in *; try done.
  injection H1 as ->. by rewrite H2.
Qed.

Lemma cut_app pre c s : is_newline c = true → cut (pre ++ c :: s) = cut (pre ++ [c]) ++ cut s.
Proof.
  intros Hc. induction pre as [|d pre IH]; cbn; [by rewrite Hc|].
  destruct (is_newline d); rewrite IH; [done|].
  destruct (cut (pre ++ [c])) as [|l ls] eqn:E; [|done].
  exfalso. destruct pre as [|x pre]; cbn in E; [by rewrite Hc in E|].
  destruct (is_newline x); [done|]. by destruct (cut (pre ++ [c])).
Qed.

Lemma cut_newline pre c :
  is_newline c = true → cut (pre ++ [c]) = cut pre ∨ cut (pre ++ [c]) = cut pre ++ [[]].
Proof.
  intros Hc. induction pre as [|d pre IH]; cbn; [rewrite Hc; by right|].
  destruct (is_newline d); [destruct IH as [->| ->]; by auto|].
  destruct IH as [->| ->]; [by left|]. destruct (cut pre); by auto.
Qed.

(** A newline separates what is before it from what is after it. *)
Lemma nonblank_app pre c s :
  is_newline c = true →
  nonblank (splitlines (pre ++ c :: s)) = nonblank (splitlines pre) ++ nonblank (splitlines s).
Proof.
  intros Hc. rewrite !nonblank_cut, cut_app, List.filter_app by done. f_equal.
  destruct (cut_newline pre c Hc) as [->| ->]; [done|]. by rewrite List.filter_app, app_nil_r.
Qed.

Lemma nonblank_keep_first pre c s l ls :
  is_newline c = false → splitlines (c :: s) = l :: ls →
  nonblank (splitlines (pre ++ c :: s)) = nonblank (splitlines (pre ++ l)) ++ nonblank ls.
Proof.
  intros Hc E. destruct (splitlines_first s c l ls Hc E) as (l' & sep & rest & -> & -> & _ & <- & Hsep).
  destruct sep as [|d sep].
  - subst rest. by rewrite !app_nil_r.
  - destruct Hsep as [Hd Hlen]. destruct sep; [|done].
    change (pre ++ c :: l' ++ [d] ++ rest) with (pre ++ (c :: l') ++ d :: rest).
    by rewrite app_assoc, nonblank_app.
Qed.

(** One chunk: what is still to be read, then the lines to process now. *)
Lemma next_chunk_lines chunk position content buffer p' b' ls :
  next_chunk chunk position content buffer = (p', b', ls) → position ≤ length content →
  p' = position - chunk ∧ (p' = 0 → b' = []) ∧
  nonblank (splitlines (take position content ++ buffer)) =
  nonblank (splitlines (take p' content ++ b')) ++ nonblank ls.
Proof.
  intros E Hpos. unfold next_chunk in E.
  set (p := position - min chunk position) in E. set (r := min chunk position) in E.
  assert (take position content ++ buffer = take p content ++ (take r (drop p content) ++ buffer))
    as ->.
  { rewrite app_assoc. f_equal. unfold r, p. rewrite take_take_drop. f_equal. lia. }
  set (b := take r (drop p content) ++ buffer) in *.
  assert (p = position - chunk) as Hp by (unfold p; lia).
  destruct (0 <? p) eqn:Hpp; cbn [andb] in E.
  - apply Nat.ltb_lt in Hpp. destruct b as [|c b0] eqn:Eb.
    + injection E as <- <- <-. split_and!; [done|done|]. cbn. by rewrite !app_nil_r.
    + destruct (is_newline c) eqn:Hc; cbn [negb] in E.
      * injection E as <- <- <-. split_and!; [done|done|].
        rewrite nonblank_app, app_nil_r by done. f_equal. symmetry. by apply splitlines_newline.
      * destruct (splitlines (c :: b0)) as [|l t] eqn:El; [by apply splitlines_head_nil in El|].
        injection E as <- <- <-. split_and!; [done|lia|]. by apply nonblank_keep_first.
  - apply Nat.ltb_ge in Hpp. injection E as <- <- <-. split_and!; [done|done|].
    replace p with 0 by lia. done.
Qed.
End lines.

(** ** The backward readers *)
Section readers.
Context `{TextCodec} {T : Type} (path : string) (loader : pydict → result T).

Lemma row_of_blank : row_of_line path [] = Ok None.
Proof. unfold row_of_line. by rewrite utf8_decode_empty. Qed.

Section scan.
Context (predicate : pydict → bool).
Abbreviation scan := (scan_back path loader predicate).

Lemma scan_nonblank lines : scan (nonblank lines) = scan lines.
Proof.
  induction lines as [|l lines IH]; [done|].
  assert (nonblank (l :: lines) = match l with [] => nonblank lines | _ => l :: nonblank lines end)
    as -> by by destruct l.
  destruct l; cbn [scan_back]; [by rewrite row_of_blank|].
  destruct (row_of_line path _) as [[d|]|]; cbn; by rewrite ?IH.
Qed.

Lemma scan_app l1 l2 :
  scan (l1 ++ l2) = (found ← scan l1; match found with Some r => mret (Some r) | None => scan l2 end).
Proof.
  induction l1 as [|l l1 IH]; [done|]. cbn.
  destruct (row_of_line path l) as [[d|]|]; cbn; [|done..].
  destruct (predicate d); [|done]. by destruct (loader d).
Qed.

Lemma filter_reverse (p : bytes → bool) l : List.filter p (reverse l) = reverse (List.filter p l).
Proof.
  induction l as [|x l IH]; [done|]. rewrite reverse_cons, List.filter_app, IH. cbn [List.filter].
  destruct (p x); [by rewrite reverse_cons|by rewrite app_nil_r].
Qed.

Lemma find_last_loop_spec fuel chunk position content buffer :
  0 < chunk → position ≤ fuel → position ≤ length content → (position = 0 → buffer = []) →
  find_last_loop path loader predicate fuel chunk position content buffer =
  scan (reverse (splitlines (take position content ++ buffer))).
Proof.
  intros Hchunk. revert position buffer.
  induction fuel as [|fuel IH]; intros position buffer Hf Hl Hb; cbn [find_last_loop];
    destruct (Nat.eqb_spec position 0) as [->|Hne]; try (by rewrite (Hb eq_refl)); [lia|].
  destruct (next_chunk chunk position content buffer) as [[p' b'] ls] eqn:E.
  apply next_chunk_lines in E as (Hp & Hb' & Hlines); [|done].
  rewrite <- (scan_nonblank (reverse (splitlines (take position content ++ buffer)))).
  rewrite filter_reverse, Hlines, reverse_app.
  rewrite scan_app, <- !filter_reverse, !scan_nonblank.
  destruct (scan (reverse ls)) as [[r|]|]; cbn; [done| |done].
  apply IH; [lia..|done].
Qed.

Lemma find_last_in_chunks_spec chunk content :
  0 < chunk →
  find_last_in_chunks path loader predicate chunk content = scan (reverse (splitlines content)).
Proof.
  intros Hc. unfold find_last_in_chunks. rewrite find_last_loop_spec; try done.
  by rewrite firstn_all, app_nil_r.
Qed.
End scan.

(** *** Against [read_all] *)
Lemma load_lines_app l1 l2 :
  load_lines path loader (l1 ++ l2) =
  (r1 ← load_lines path loader l1; r2 ← load_lines path loader l2; mret (r1 ++ r2)).
Proof.
  induction l1 as [|l l1 IH]; cbn; [by destruct (load_lines path loader l2)|].
  destruct (row_of_line path l) as [[d|]|]; cbn; [|done..].
  destruct (loader d); cbn; [|done]. rewrite IH.
  destruct (load_lines path loader l1); cbn; [|done]. by destruct (load_lines path loader l2).
Qed.

Lemma load_lines_nonblank lines :
  load_lines path loader (nonblank lines) = load_lines path loader lines.
Proof.
  induction lines as [|l lines IH]; [done|].
  assert (nonblank (l :: lines) = match l with [] => nonblank lines | _ => l :: nonblank lines end)
    as -> by by destruct l.
  destruct l; cbn [load_lines]; [by rewrite row_of_blank|].
  destruct (row_of_line path _) as [[d|]|]; cbn; by rewrite ?IH.
Qed.

(** The rows a file holds, one by one. *)
Lemma load_lines_cons_inv l lines rows :
  load_lines path loader (l :: lines) = Ok rows →
  (row_of_line path l = Ok None ∧ load_lines path loader lines = Ok rows) ∨
  ∃ d r rows', row_of_line path l = Ok (Some d) ∧ loader d = Ok r ∧
               load_lines path loader lines = Ok rows' ∧ rows = r :: rows'.
Proof.
  cbn. destruct (row_of_line path l) as [[d|]|]; cbn; [|by left|done].
  destruct (loader d) as [r|] eqn:Er; cbn; [|done].
  destruct (load_lines path loader lines); cbn; [|done]. intros [= <-]. right. by eauto 10.
Qed.

Lemma collect_back_spec limit lines rows acc :
  load_lines path loader lines = Ok rows →
  collect_back path loader limit acc (reverse lines) =
  Ok (acc ++ take (limit - length acc) (reverse rows)).
Proof.
  revert rows acc. induction lines as [|l lines IH] using rev_ind; intros rows acc Hl.
  { injection Hl as <-. cbn. by rewrite take_nil, app_nil_r. }
  rewrite load_lines_app in Hl. inv_result. subst rows. rename x into r1, x0 into r2.
  rewrite reverse_app. cbn [reverse rev_append app collect_back].
  destruct (Nat.leb_spec limit (length acc)).
  { replace (limit - length acc) with 0 by lia. cbn. by rewrite app_nil_r. }
  apply load_lines_cons_inv in H1 as [[E Hn]|(d & r & rows' & E & Hr & Hn & ->)];
    injection Hn as <-; rewrite E; cbn.
  - rewrite app_nil_r. by apply IH.
  - rewrite Hr. cbn. rewrite (IH r1) by done. rewrite reverse_app, length_app. cbn.
    replace (limit - length acc) with (S (limit - (length acc + 1))) by lia.
    cbn. by rewrite <- app_assoc.
Qed.

(** *** [read_tail] *)
Section tail.
Context (limit : nat).
Abbreviation collect := (collect_back path loader limit).

Lemma collect_full acc lines : limit ≤ length acc → collect acc lines = Ok acc.
Proof. intros Hl. destruct lines; cbn; [done|]. by rewrite (proj2 (Nat.leb_le _ _)). Qed.

Lemma collect_app acc l1 l2 :
  collect acc (l1 ++ l2) = (acc' ← collect acc l1; collect acc' l2).
Proof.
  revert acc. induction l1 as [|l l1 IH]; intros acc; [done|]. cbn.
  destruct (Nat.leb_spec limit (length acc)); [cbn; by rewrite collect_full|].
  destruct (row_of_line path l) as [[d|]|]; cbn; [|by apply IH|done].
  destruct (loader d); cbn; [by apply IH|done].
Qed.

Lemma collect_nonblank acc lines : collect acc (nonblank lines) = collect acc lines.
Proof.
  revert acc. induction lines as [|l lines IH]; intros acc; [done|].
  assert (nonblank (l :: lines) = match l with [] => nonblank lines | _ => l :: nonblank lines end)
    as -> by by destruct l.
  destruct l; cbn [collect_back]; (destruct (Nat.leb_spec limit (length acc));
    [by rewrite ?collect_full|]); [by rewrite row_of_blank|].
  destruct (row_of_line path _) as [[d|]|]; cbn; [|by apply IH|done].
  destruct (loader d); cbn; [by apply IH|done].
Qed.

Lemma read_tail_loop_spec fuel chunk position content buffer acc :
  0 < chunk → position ≤ fuel → position ≤ length content → (position = 0 → buffer = []) →
  read_tail_loop path loader fuel chunk limit position content buffer acc =
  collect acc (reverse (splitlines (take position content ++ buffer))).
Proof.
  intros Hchunk. revert position buffer acc.
  induction fuel as [|fuel IH]; intros position buffer acc Hf Hl Hb; cbn [read_tail_loop];
    destruct (Nat.eqb_spec position 0) as [->|Hne]; try (by rewrite (Hb eq_refl)); [lia|].
  cbn [orb]. destruct (Nat.leb_spec limit (length acc)); [by rewrite collect_full|].
  destruct (next_chunk chunk position content buffer) as [[p' b'] ls] eqn:E.
  apply next_chunk_lines in E as (Hp & Hb' & Hlines); [|done].
  rewrite <- (collect_nonblank _ (reverse (splitlines (take position content ++ buffer)))).
  rewrite filter_reverse, Hlines, reverse_app.
  rewrite collect_app, <- !filter_reverse, collect_nonblank.
  destruct (collect acc (reverse ls)) as [acc'|]; cbn; [|done].
  rewrite collect_nonblank. apply IH; [lia..|done].
Qed.
End tail.

Lemma read_tail_in_chunks_spec chunk limit content rows :
  0 < chunk → load_lines path loader (splitlines content) = Ok rows →
  read_tail_in_chunks path loader chunk limit content = Ok (reverse (take limit (reverse rows))).
Proof.
  intros Hc Hl. unfold read_tail_in_chunks. rewrite read_tail_loop_spec by done.
  rewrite firstn_all, app_nil_r, (collect_back_spec _ _ _ _ Hl). cbn. by rewrite Nat.sub_0_r.
Qed.

(** *** [find_last] *)
Lemma scan_back_spec predicate lines ds :
  load_lines path Ok lines = Ok ds →
  scan_back path loader predicate (reverse lines) =
  match find_last predicate ds with Some d => (row ← loader d; mret (Some row)) | None => Ok None end.
Proof.
  revert ds. induction lines as [|l lines IH] using rev_ind; intros ds Hl.
  { by injection Hl as <-. }
  assert (∃ d1 d2, load_lines path Ok lines = Ok d1 ∧ load_lines path Ok [l] = Ok d2 ∧ ds = d1 ++ d2)
    as (d1 & d2 & H1 & H2 & ->).
  { clear IH. revert ds Hl. induction lines as [|x lines IH]; intros ds Hl; [by exists [], ds|].
    cbn in Hl |- *. destruct (row_of_line path x) as [[d|]|]; cbn in *; [|by apply IH|done].
    inv_result. subst. destruct (IH _ H0) as (d1 & d2 & E1 & E2 & ->).
    exists (d :: d1), d2. cbn in E2. by rewrite E1. }
  rewrite reverse_app. cbn [reverse rev_append app scan_back]. cbn in H2.
  destruct (row_of_line path l) as [[d|]|]; cbn in *; [| |done]; injection H2 as <-.
  - rewrite find_last_snoc. destruct (predicate d); [done|]. by apply IH.
  - rewrite app_nil_r. by apply IH.
Qed.

(** *** [read_since] *)
Lemma load_since_spec start current lines rows :
  load_lines path loader lines = Ok rows →
  load_since path loader start current lines =
  Ok (current + length rows, drop (start - current) rows).
Proof.
  revert current rows. induction lines as [|l lines IH]; intros current rows Hl.
  { injection Hl as <-. cbn. by rewrite drop_nil, Nat.add_0_r. }
  apply load_lines_cons_inv in Hl as [[E Hl]|(d & r & rows' & E & Hr & Hl & ->)];
    pose proof E as E0; unfold row_of_line in E; inv_result; cbn [load_since]; rewrite H0;
    rewrite result_bind_ok; destruct (strip x =ˢ ""); inv_result; try discriminate.
  - by apply IH.
  - by destruct x0.
  - rewrite E0. destruct (Nat.leb_spec (S current) start).
    + rewrite (IH _ _ Hl). cbn. replace (start - current) with (S (start - S current)) by lia.
      by rewrite <- plus_n_Sm.
    + cbn. rewrite Hr. cbn. rewrite (IH _ _ Hl). cbn.
      replace (start - S current) with 0 by lia. replace (start - current) with 0 by lia.
      cbn. by rewrite <- plus_n_Sm.
Qed.
End readers.

(** *** [append] *)

(** What [append] leaves: every row ends in a newline. *)
Definition complete (s : bytes) : Prop := s = [] ∨ ∃ s', s = s' ++ [LF].

Lemma splitlines_no_newline c s :
  List.forallb (λ c, negb (is_newline c)) (c :: s) = true → splitlines (c :: s) = [c :: s].
Proof.
  revert c. induction s as [|d s IH]; intros c Hs; cbn [List.forallb] in Hs;
    apply andb_true_iff in Hs as [Hc%negb_true_iff Hs]; rewrite splitlines_ordinary by done; [done|].
  by rewrite (IH d Hs).
Qed.

Lemma nonblank_append s line :
  complete s → List.forallb (λ c, negb (is_newline c)) line = true → line ≠ [] →
  nonblank (splitlines (s ++ line ++ [LF])) = nonblank (splitlines s) ++ [line].
Proof.
  intros Hs Hl Hne. destruct line as [|c line]; [done|].
  assert (nonblank (splitlines ((c :: line) ++ [LF])) = [c :: line]) as E.
  { rewrite nonblank_app, splitlines_no_newline by done. done. }
  destruct Hs as [->|[s' ->]]; [by rewrite app_nil_l, E|].
  rewrite <- (app_assoc s' [LF]). change ([LF] ++ ?x) with (LF :: x).
  rewrite (nonblank_app s' LF ((c :: line) ++ [LF])), E, (nonblank_app s' LF []) by done.
  by rewrite app_nil_r.
Qed.

(** ** The properties *)
Section properties.
Context `{TextCodec} {T : Type} (path : string) (loader : pydict → result T).

(** the backward search does not depend on the chunks the file is read
    in: for every chunk size it returns what a scan of the whole file's lines
    from the last one back returns, errors included, even when lines, or a
    [\\r\\n], straddle chunks. *)
Theorem find_last_any_chunk predicate chunk content :
  0 < chunk →
  find_last_in_chunks path loader predicate chunk content =
  scan_back path loader predicate (reverse (splitlines content)).
Proof. apply find_last_in_chunks_spec. Qed.

(** [find_last] returns the last row of the file that satisfies the
    predicate, or nothing when none does. *)
Theorem find_last_is_last predicate content ds :
  read_all path Ok (Some content) = Ok ds →
  find_last_row path loader predicate (Some content) =
  match find_last predicate ds with
  | Some d => (row ← loader d; mret (Some row))
  | None => Ok None
  end.
Proof.
  intros Hr. unfold find_last_row. rewrite find_last_in_chunks_spec by (cbn; lia).
  by apply scan_back_spec.
Qed.

(** [read_tail] returns the last [limit] rows of the file in file order. *)
Theorem read_tail_is_suffix content limit rows :
  read_all path loader (Some content) = Ok rows → (0 <= limit)%Z →
  read_tail path loader (Some content) limit =
  Ok (drop (length rows - Z.to_nat limit) rows).
Proof.
  intros Hr Hl. unfold read_tail. rewrite (proj2 (Z.ltb_ge _ _)) by done. cbn [raise_if].
  rewrite result_bind_ok.
  assert (drop (length rows - Z.to_nat limit) rows = reverse (take (Z.to_nat limit) (reverse rows)))
    as ->.
  { unfold reverse. by rewrite <- !List.rev_alt, List.firstn_rev, List.rev_involutive. }
  destruct (Z.eqb_spec limit 0) as [->|Hne]; [done|].
  apply read_tail_in_chunks_spec; [cbn; lia|done].
Qed.

(** [read_since] returns the rows after the first [start_line] ones and the
    number of rows of the file, the cursor for the next call. *)
Theorem read_since_is_suffix content start rows :
  read_all path loader (Some content) = Ok rows → (0 <= start)%Z →
  read_since path loader (Some content) start =
  Ok (length rows, drop (Z.to_nat start) rows).
Proof.
  intros Hr Hs. unfold read_since. rewrite (proj2 (Z.ltb_ge _ _)) by done. cbn [raise_if].
  rewrite result_bind_ok, (load_since_spec path loader _ _ _ rows) by done.
  by rewrite Nat.sub_0_r.
Qed.

(** a row that is appended is the last one read back, the rows before it
    are unchanged, and the file stays one on which the next append works. *)
Theorem append_then_read content d r rows :
  complete (default [] content) → read_all path loader content = Ok rows →
  json_dumps_line d ≠ [] →
  List.forallb (λ c, negb (is_newline c)) (json_dumps_line d) = true →
  row_of_line path (json_dumps_line d) = Ok (Some d) → loader d = Ok r →
  read_all path loader (Some (append content d)) = Ok (rows ++ [r]) ∧
  complete (append content d).
Proof.
  intros Hc Hr Hne Hnl Hrow Hl. unfold append. split.
  - cbn [read_all]. rewrite <- load_lines_nonblank, nonblank_append by done.
    rewrite load_lines_app, load_lines_nonblank.
    replace (load_lines path loader (splitlines (default [] content))) with (Ok rows)
      by (by destruct content).
    cbn. by rewrite Hrow; cbn; rewrite Hl.
  - right. exists (default [] content ++ json_dumps_line d). by rewrite app_assoc.
Qed.
End properties.

(** ** Witnesses

    Rows [{"text": t}] stored as the bytes of [t]. *)
Definition text_codec : TextCodec := {|
  utf8_decode := λ s, Ok (String.string_of_list_ascii s);
  json_loads := λ t, Ok (PDict [("text", PStr t)]);
  json_dumps_line := λ d, match dget "text" d with PStr t => String.list_ascii_of_string t | _ => [] end;
  utf8_decode_empty := eq_refl
|}.

Definition demo_file : bytes := String.list_ascii_of_string "one" ++ [CR; LF] ++ String.list_ascii_of_string "two" ++ [LF].
Definition demo_row (t : string) : pydict := [("text", PStr t)].

Lemma find_last_any_chunk_witness :
  @find_last_in_chunks text_codec pydict "f" Ok (λ d, true) 2 demo_file = Ok (Some (demo_row "two")).
Proof.
  rewrite (@find_last_any_chunk text_codec pydict "f" Ok (λ d, true) 2 demo_file);
    [by vm_compute|lia].
Defined.

Lemma find_last_is_last_witness :
  @find_last_row text_codec pydict "f" Ok (λ d, bool_decide (length d = 1)) (Some demo_file) =
  Ok (Some (demo_row "two")).
Proof.
  rewrite (@find_last_is_last text_codec pydict "f" Ok _ demo_file [demo_row "one"; demo_row "two"]);
    by vm_compute.
Defined.

Lemma read_tail_is_suffix_witness :
  @read_tail text_codec pydict "f" Ok (Some demo_file) 1 = Ok [demo_row "two"].
Proof.
  rewrite (@read_tail_is_suffix text_codec pydict "f" Ok demo_file 1 [demo_row "one"; demo_row "two"]);
    by vm_compute.
Defined.

Lemma read_since_is_suffix_witness :
  @read_since text_codec pydict "f" Ok (Some demo_file) 1 = Ok (2, [demo_row "two"]).
Proof.
  rewrite (@read_since_is_suffix text_codec pydict "f" Ok demo_file 1 [demo_row "one"; demo_row "two"]);
    by vm_compute.
Defined.

Lemma append_then_read_witness :
  @read_all text_codec pydict "f" Ok (Some (@append text_codec (Some demo_file) (demo_row "three"))) =
  Ok [demo_row "one"; demo_row "two"; demo_row "three"].
Proof.
  refine (proj1 (@append_then_read text_codec pydict "f" Ok (Some demo_file) (demo_row "three")
    (demo_row "three") [demo_row "one"; demo_row "two"] _ _ _ _ _ _)); try by vm_compute.
  right. exists (String.list_ascii_of_string "one" ++ [CR; LF] ++ String.list_ascii_of_string "two"). done.
Defined.
