(* ===== verification/MailboxModels.v ===== *)
(** * Mailbox records and their codecs

    [mailbox_kernel/model_enums.py], [models.py] and [model_codecs.py]: the
    mailbox summary, the inbound event and the delivery lease; the
    [__post_init__] of each and its JSON form. *)
From S2P Require Import Prelude PyValue Names.
Open Scope string_scope.
Open Scope list_scope.
Open Scope Z_scope.

Definition schema_version : Z := 1.

Inductive MailboxState := MS_idle | MS_delivering | MS_blocked | MS_recovering | MS_degraded.
Inductive InboundEventType :=
  | ET_task_request | ET_task_reply | ET_completion_notice
  | ET_retry_signal | ET_system_signal | ET_barrier_release.
Inductive InboundEventStatus :=
  | ES_created | ES_queued | ES_delivering | ES_consumed | ES_superseded | ES_abandoned.
Inductive LeaseState := LS_acquired | LS_released | LS_expired | LS_orphaned.

#[export] Instance MailboxState_eq_dec : EqDecision MailboxState.
Proof. solve_decision. Defined.
#[export] Instance InboundEventType_eq_dec : EqDecision InboundEventType.
Proof. solve_decision. Defined.
#[export] Instance InboundEventStatus_eq_dec : EqDecision InboundEventStatus.
Proof. solve_decision. Defined.
#[export] Instance LeaseState_eq_dec : EqDecision LeaseState.
Proof. solve_decision. Defined.

Definition mailbox_state_value (s : MailboxState) : string :=
  match s with
  | MS_idle => "idle" | MS_delivering => "delivering" | MS_blocked => "blocked"
  | MS_recovering => "recovering" | MS_degraded => "degraded"
  end.
Definition event_type_value (t : InboundEventType) : string :=
  match t with
  | ET_task_request => "task_request" | ET_task_reply => "task_reply"
  | ET_completion_notice => "completion_notice" | ET_retry_signal => "retry_signal"
  | ET_system_signal => "system_signal" | ET_barrier_release => "barrier_release"
  end.
Definition event_status_value (s : InboundEventStatus) : string :=
  match s with
  | ES_created => "created" | ES_queued => "queued" | ES_delivering => "delivering"
  | ES_consumed => "consumed" | ES_superseded => "superseded" | ES_abandoned => "abandoned"
  end.
Definition lease_state_value (s : LeaseState) : string :=
  match s with
  | LS_acquired => "acquired" | LS_released => "released"
  | LS_expired => "expired" | LS_orphaned => "orphaned"
  end.

Definition mailbox_state_of (s : string) : result MailboxState :=
  enum_of "MailboxState" mailbox_state_value
    [MS_idle; MS_delivering; MS_blocked; MS_recovering; MS_degraded] s.
Definition event_type_of (s : string) : result InboundEventType :=
  enum_of "InboundEventType" event_type_value
    [ET_task_request; ET_task_reply; ET_completion_notice;
     ET_retry_signal; ET_system_signal; ET_barrier_release] s.
Definition event_status_of (s : string) : result InboundEventStatus :=
  enum_of "InboundEventStatus" event_status_value
    [ES_created; ES_queued; ES_delivering; ES_consumed; ES_superseded; ES_abandoned] s.
Definition lease_state_of (s : string) : result LeaseState :=
  enum_of "LeaseState" lease_state_value
    [LS_acquired; LS_released; LS_expired; LS_orphaned] s.

(** ** The records *)
Record MailboxRecord := mkMailbox {
  mb_mailbox_id : string;
  mb_agent_name : string;
  mb_summary_version : Z;
  mb_summary_source : string;
  mb_summary_refreshed_at : string;
  mb_active_inbound_event_id : option string;
  mb_queue_depth : Z;
  mb_pending_reply_count : Z;
  mb_head_inbound_event_id : option string;
  mb_head_event_type : option string;
  mb_head_status : option string;
  mb_head_message_id : option string;
  mb_head_attempt_id : option string;
  mb_head_payload_ref : option string;
  mb_last_inbound_started_at : option string;
  mb_last_inbound_finished_at : option string;
  mb_mailbox_state : MailboxState;
  mb_lease_version : Z;
  mb_updated_at : string
}.

Record InboundEventRecord := mkEvent {
  ie_inbound_event_id : string;
  ie_agent_name : string;
  ie_event_type : InboundEventType;
  ie_message_id : string;
  ie_attempt_id : option string;
  ie_payload_ref : option string;
  ie_priority : Z;
  ie_status : InboundEventStatus;
  ie_created_at : string;
  ie_started_at : option string;
  ie_finished_at : option string
}.

Record DeliveryLease := mkLease {
  dl_agent_name : string;
  dl_inbound_event_id : string;
  dl_lease_version : Z;
  dl_acquired_at : string;
  dl_last_progress_at : option string;
  dl_expires_at : option string;
  dl_lease_state : LeaseState
}.

#[export] Instance InboundEventRecord_eq_dec : EqDecision InboundEventRecord.
Proof. solve_decision. Defined.
#[export] Instance DeliveryLease_eq_dec : EqDecision DeliveryLease.
Proof. solve_decision. Defined.

(** ** Constructors: [normalize_mailbox_record] and its siblings *)
Definition with_mb_agent (r : MailboxRecord) (a : string) : MailboxRecord :=
  mkMailbox (mb_mailbox_id r) a (mb_summary_version r) (mb_summary_source r)
    (mb_summary_refreshed_at r) (mb_active_inbound_event_id r) (mb_queue_depth r)
    (mb_pending_reply_count r) (mb_head_inbound_event_id r) (mb_head_event_type r)
    (mb_head_status r) (mb_head_message_id r) (mb_head_attempt_id r) (mb_head_payload_ref r)
    (mb_last_inbound_started_at r) (mb_last_inbound_finished_at r) (mb_mailbox_state r)
    (mb_lease_version r) (mb_updated_at r).

Definition normalize_mailbox_record (r : MailboxRecord) : result MailboxRecord :=
  _ ← raise_if (mb_mailbox_id r =ˢ "") (ValueError "mailbox_id cannot be empty");
  _ ← raise_if (mb_agent_name r =ˢ "") (ValueError "agent_name cannot be empty");
  _ ← raise_if (mb_summary_version r <? 0) (ValueError "summary_version cannot be negative");
  _ ← raise_if (strip (mb_summary_source r) =ˢ "") (ValueError "summary_source cannot be empty");
  _ ← raise_if (strip (mb_summary_refreshed_at r) =ˢ "")
        (ValueError "summary_refreshed_at cannot be empty");
  _ ← raise_if (mb_queue_depth r <? 0) (ValueError "queue_depth cannot be negative");
  _ ← raise_if (mb_pending_reply_count r <? 0)
        (ValueError "pending_reply_count cannot be negative");
  _ ← raise_if (mb_lease_version r <? 0) (ValueError "lease_version cannot be negative");
  a ← normalize_mailbox_owner_name (Some (mb_agent_name r));
  mret (with_mb_agent r a).

Definition with_ie_agent (r : InboundEventRecord) (a : string) : InboundEventRecord :=
  mkEvent (ie_inbound_event_id r) a (ie_event_type r) (ie_message_id r) (ie_attempt_id r)
    (ie_payload_ref r) (ie_priority r) (ie_status r) (ie_created_at r) (ie_started_at r)
    (ie_finished_at r).

Definition normalize_inbound_event_record (r : InboundEventRecord) : result InboundEventRecord :=
  _ ← raise_if (ie_inbound_event_id r =ˢ "") (ValueError "inbound_event_id cannot be empty");
  _ ← raise_if (ie_agent_name r =ˢ "") (ValueError "agent_name cannot be empty");
  _ ← raise_if (ie_message_id r =ˢ "") (ValueError "message_id cannot be empty");
  _ ← raise_if (ie_priority r <? 0) (ValueError "priority cannot be negative");
  a ← normalize_mailbox_owner_name (Some (ie_agent_name r));
  mret (with_ie_agent r a).

Definition with_dl_agent (r : DeliveryLease) (a : string) : DeliveryLease :=
  mkLease a (dl_inbound_event_id r) (dl_lease_version r) (dl_acquired_at r)
    (dl_last_progress_at r) (dl_expires_at r) (dl_lease_state r).

Definition normalize_delivery_lease (r : DeliveryLease) : result DeliveryLease :=
  _ ← raise_if (dl_agent_name r =ˢ "") (ValueError "agent_name cannot be empty");
  _ ← raise_if (dl_inbound_event_id r =ˢ "") (ValueError "inbound_event_id cannot be empty");
  _ ← raise_if (dl_lease_version r <? 0) (ValueError "lease_version cannot be negative");
  a ← normalize_mailbox_owner_name (Some (dl_agent_name r));
  mret (with_dl_agent r a).

(** ** JSON codecs *)
Definition mailbox_to_record (r : MailboxRecord) : pydict :=
  [ ("schema_version", PInt schema_version);
    ("record_type", PStr "mailbox_record");
    ("mailbox_id", PStr (mb_mailbox_id r));
    ("agent_name", PStr (mb_agent_name r));
    ("summary_version", PInt (mb_summary_version r));
    ("summary_source", PStr (mb_summary_source r));
    ("summary_refreshed_at", PStr (mb_summary_refreshed_at r));
    ("active_inbound_event_id", of_opt_str (mb_active_inbound_event_id r));
    ("queue_depth", PInt (mb_queue_depth r));
    ("pending_reply_count", PInt (mb_pending_reply_count r));
    ("head_inbound_event_id", of_opt_str (mb_head_inbound_event_id r));
    ("head_event_type", of_opt_str (mb_head_event_type r));
    ("head_status", of_opt_str (mb_head_status r));
    ("head_message_id", of_opt_str (mb_head_message_id r));
    ("head_attempt_id", of_opt_str (mb_head_attempt_id r));
    ("head_payload_ref", of_opt_str (mb_head_payload_ref r));
    ("last_inbound_started_at", of_opt_str (mb_last_inbound_started_at r));
    ("last_inbound_finished_at", of_opt_str (mb_last_inbound_finished_at r));
    ("mailbox_state", PStr (mailbox_state_value (mb_mailbox_state r)));
    ("lease_version", PInt (mb_lease_version r));
    ("updated_at", PStr (mb_updated_at r)) ].

Definition mailbox_from_record (d : pydict) : result MailboxRecord :=
  _ ← validate_record schema_version "mailbox_record" d;
  mailbox_id ← str_at "mailbox_id" d;
  agent_name ← str_at "agent_name" d;
  summary_version ← py_int (dget_or "summary_version" (PInt 0) d);
  summary_source ← py_str (py_or (dget "summary_source" d) (PStr "legacy-load"));
  refreshed_at ← py_str (py_or (dget "summary_refreshed_at" d)
                           (py_or (dget "updated_at" d) (PStr "")));
  active ← opt_str "active_inbound_event_id" (dget "active_inbound_event_id" d);
  queue_depth ← py_int (dget_or "queue_depth" (PInt 0) d);
  pending ← py_int (dget_or "pending_reply_count" (PInt 0) d);
  head_id ← opt_str "head_inbound_event_id" (dget "head_inbound_event_id" d);
  head_type ← opt_str "head_event_type" (dget "head_event_type" d);
  head_status ← opt_str "head_status" (dget "head_status" d);
  head_msg ← opt_str "head_message_id" (dget "head_message_id" d);
  head_att ← opt_str "head_attempt_id" (dget "head_attempt_id" d);
  head_ref ← opt_str "head_payload_ref" (dget "head_payload_ref" d);
  started ← opt_str "last_inbound_started_at" (dget "last_inbound_started_at" d);
  finished ← opt_str "last_inbound_finished_at" (dget "last_inbound_finished_at" d);
  state ← (py_str (dget_or "mailbox_state" (PStr (mailbox_state_value MS_idle)) d)
             ≫= mailbox_state_of);
  lease_version ← py_int (dget_or "lease_version" (PInt 0) d);
  updated_at ← py_str (py_or (dget "updated_at" d) (PStr ""));
  normalize_mailbox_record
    (mkMailbox mailbox_id agent_name summary_version summary_source refreshed_at active
       queue_depth pending head_id head_type head_status head_msg head_att head_ref
       started finished state lease_version updated_at).

Definition inbound_event_to_record (r : InboundEventRecord) : pydict :=
  [ ("schema_version", PInt schema_version);
    ("record_type", PStr "inbound_event_record");
    ("inbound_event_id", PStr (ie_inbound_event_id r));
    ("agent_name", PStr (ie_agent_name r));
    ("event_type", PStr (event_type_value (ie_event_type r)));
    ("message_id", PStr (ie_message_id r));
    ("attempt_id", of_opt_str (ie_attempt_id r));
    ("payload_ref", of_opt_str (ie_payload_ref r));
    ("priority", PInt (ie_priority r));
    ("status", PStr (event_status_value (ie_status r)));
    ("created_at", PStr (ie_created_at r));
    ("started_at", of_opt_str (ie_started_at r));
    ("finished_at", of_opt_str (ie_finished_at r)) ].

Definition inbound_event_from_record (d : pydict) : result InboundEventRecord :=
  _ ← validate_record schema_version "inbound_event_record" d;
  id ← str_at "inbound_event_id" d;
  agent_name ← str_at "agent_name" d;
  ty ← (str_at "event_type" d ≫= event_type_of);
  message_id ← str_at "message_id" d;
  attempt_id ← opt_str "attempt_id" (dget "attempt_id" d);
  payload_ref ← opt_str "payload_ref" (dget "payload_ref" d);
  priority ← py_int (dget_or "priority" (PInt 0) d);
  status ← (py_str (dget_or "status" (PStr (event_status_value ES_queued)) d)
              ≫= event_status_of);
  created_at ← py_str_or_empty (dget "created_at" d);
  started_at ← opt_str "started_at" (dget "started_at" d);
  finished_at ← opt_str "finished_at" (dget "finished_at" d);
  normalize_inbound_event_record
    (mkEvent id agent_name ty message_id attempt_id payload_ref priority status created_at
       started_at finished_at).

Definition delivery_lease_to_record (r : DeliveryLease) : pydict :=
  [ ("schema_version", PInt schema_version);
    ("record_type", PStr "delivery_lease");
    ("agent_name", PStr (dl_agent_name r));
    ("inbound_event_id", PStr (dl_inbound_event_id r));
    ("lease_version", PInt (dl_lease_version r));
    ("acquired_at", PStr (dl_acquired_at r));
    ("last_progress_at", of_opt_str (dl_last_progress_at r));
    ("expires_at", of_opt_str (dl_expires_at r));
    ("lease_state", PStr (lease_state_value (dl_lease_state r))) ].

Definition delivery_lease_from_record (d : pydict) : result DeliveryLease :=
  _ ← validate_record schema_version "delivery_lease" d;
  agent_name ← str_at "agent_name" d;
  id ← str_at "inbound_event_id" d;
  version ← py_int (dget_or "lease_version" (PInt 0) d);
  acquired_at ← py_str_or_empty (dget "acquired_at" d);
  progress ← opt_str "last_progress_at" (dget "last_progress_at" d);
  expires ← opt_str "expires_at" (dget "expires_at" d);
  state ← (py_str (dget_or "lease_state" (PStr (lease_state_value LS_acquired)) d)
             ≫= lease_state_of);
  normalize_delivery_lease
    (mkLease agent_name id version acquired_at progress expires state).

#[export] Instance mailbox_codec : Codec MailboxRecord :=
  {| post_init := normalize_mailbox_record;
     to_record := mailbox_to_record; from_record := mailbox_from_record |}.
#[export] Instance inbound_event_codec : Codec InboundEventRecord :=
  {| post_init := normalize_inbound_event_record;
     to_record := inbound_event_to_record; from_record := inbound_event_from_record |}.
#[export] Instance delivery_lease_codec : Codec DeliveryLease :=
  {| post_init := normalize_delivery_lease;
     to_record := delivery_lease_to_record; from_record := delivery_lease_from_record |}.

(** ** Enum values *)
#[export] Instance mailbox_state_value_inj : Inj (=) (=) mailbox_state_value.
Proof. by intros [] []. Qed.
#[export] Instance event_type_value_inj : Inj (=) (=) event_type_value.
Proof. by intros [] []. Qed.
#[export] Instance event_status_value_inj : Inj (=) (=) event_status_value.
Proof. by intros [] []. Qed.

Lemma mailbox_state_of_value s : mailbox_state_of (mailbox_state_value s) = Ok s.
Proof. by destruct s. Qed.
Lemma event_type_of_value s : event_type_of (event_type_value s) = Ok s.
Proof. by destruct s. Qed.
Lemma event_status_of_value s : event_status_of (event_status_value s) = Ok s.
Proof. by destruct s. Qed.
Lemma lease_state_of_value s : lease_state_of (lease_state_value s) = Ok s.
Proof. by destruct s. Qed.

(** ** The codec laws *)
(** A constructor is idempotent: its guards do not look at the field it
    normalises, except that the owner must stay non-empty and normal. *)
Ltac solve_post_init_valid :=
  let H := fresh in
  intros H; inv_result;
  match goal with
  | Ho : normalize_mailbox_owner_name _ = Ok _ |- _ =>
      pose proof (owner_idem _ _ Ho); pose proof (owner_nonempty _ _ Ho) as ?%bool_decide_ne
  end;
  subst; cbn -[raise_if normalize_mailbox_owner_name]; replay_guards;
  match goal with
  | Ho : normalize_mailbox_owner_name _ = Ok _ |- context [normalize_mailbox_owner_name _ ≫= _] =>
      rewrite Ho; reflexivity
  end.

Lemma normalize_mailbox_record_valid r r' :
  normalize_mailbox_record r = Ok r' → normalize_mailbox_record r' = Ok r'.
Proof. unfold normalize_mailbox_record. solve_post_init_valid. Qed.

Lemma normalize_inbound_event_record_valid r r' :
  normalize_inbound_event_record r = Ok r' → normalize_inbound_event_record r' = Ok r'.
Proof. unfold normalize_inbound_event_record. solve_post_init_valid. Qed.

Lemma normalize_delivery_lease_valid r r' :
  normalize_delivery_lease r = Ok r' → normalize_delivery_lease r' = Ok r'.
Proof. unfold normalize_delivery_lease. solve_post_init_valid. Qed.

(** The fields a valid record is known to have. *)
Lemma valid_mailbox r :
  normalize_mailbox_record r = Ok r →
  mb_summary_source r ≠ "" ∧ mb_summary_refreshed_at r ≠ "" ∧
  normalize_mailbox_owner_name (Some (mb_agent_name r)) = Ok (mb_agent_name r).
Proof.
  unfold normalize_mailbox_record. intros H. inv_result.
  apply (f_equal mb_agent_name) in H. cbn in H. subst.
  split_and!; [| |congruence]; intros E; rewrite E in *; done.
Qed.

(** Run a [from_record] on the record [to_record] built. *)
Ltac run_from_record :=
  rewrite validate_record_ok by reflexivity; dict_simpl;
  repeat (rewrite ?result_bind_ok, ?mailbox_state_of_value, ?event_type_of_value,
            ?event_status_of_value, ?lease_state_of_value;
          progress cbn [py_str py_int]);
  rewrite ?result_bind_ok, ?mailbox_state_of_value, ?event_type_of_value,
    ?event_status_of_value, ?lease_state_of_value, ?result_bind_ok.

Lemma mailbox_from_to_record' r :
  normalize_mailbox_record r = Ok r → mailbox_from_record (mailbox_to_record r) = Ok r.
Proof.
  intros Hv. pose proof (valid_mailbox r Hv) as (Hs & Hr & _).
  unfold mailbox_from_record, mailbox_to_record. run_from_record.
  rewrite !py_or_str by done. cbn [py_str]. rewrite !result_bind_ok. by destruct r.
Qed.

Lemma inbound_event_from_to_record' r :
  normalize_inbound_event_record r = Ok r →
  inbound_event_from_record (inbound_event_to_record r) = Ok r.
Proof.
  intros Hv. unfold inbound_event_from_record, inbound_event_to_record. run_from_record.
  by destruct r.
Qed.

Lemma delivery_lease_from_to_record' r :
  normalize_delivery_lease r = Ok r →
  delivery_lease_from_record (delivery_lease_to_record r) = Ok r.
Proof.
  intros Hv. unfold delivery_lease_from_record, delivery_lease_to_record. run_from_record.
  by destruct r.
Qed.

(** Every loader ends in the constructor, so what it returns is valid. *)
Ltac solve_from_record_valid lem :=
  let H := fresh in
  intros H;
  repeat match type of H with (_ ≫= _) = Ok _ => apply result_bind_Ok_inv in H as (? & _ & H) end;
  by apply lem in H.

#[export] Instance mailbox_codec_laws : CodecLaws MailboxRecord.
Proof.
  split; [exact normalize_mailbox_record_valid| |exact mailbox_from_to_record'].
  intros d r. unfold from_record, mailbox_codec, mailbox_from_record.
  solve_from_record_valid normalize_mailbox_record_valid.
Qed.

#[export] Instance inbound_event_codec_laws : CodecLaws InboundEventRecord.
Proof.
  split; [exact normalize_inbound_event_record_valid| |exact inbound_event_from_to_record'].
  intros d r. unfold from_record, inbound_event_codec, inbound_event_from_record.
  solve_from_record_valid normalize_inbound_event_record_valid.
Qed.

#[export] Instance delivery_lease_codec_laws : CodecLaws DeliveryLease.
Proof.
  split; [exact normalize_delivery_lease_valid| |exact delivery_lease_from_to_record'].
  intros d r. unfold from_record, delivery_lease_codec, delivery_lease_from_record.
  solve_from_record_valid normalize_delivery_lease_valid.
Qed.
