(* ===== verification/MailboxKernel.v ===== *)
(** * The mailbox kernel

    [mailbox_kernel/store.py], [service.py] and [service_runtime/]: the stores
    of one project, the queue queries, the mailbox summary and the transitions
    [claim], [ack_reply], [mark_terminal] and [rewrite_head].  Definitions only;
    the theorems are in [MailboxQueue] and [MailboxRefinement]. *)
From S2P Require Import Prelude PyValue Names MailboxModels.
Open Scope string_scope.
Open Scope list_scope.
Open Scope Z_scope.

(** ** State

    [service._clock]: the n-th reading of the clock. *)
Class Clock := clock_at : nat → string.

(** The files under [ccbd/mailboxes] and [ccbd/leases], by owner name: the
    inbox log (one JSON row per append, in order), [mailbox.json] and the lease
    file; and how often the clock was read. *)
Record kernel := mkKernel {
  k_inbound : gmap string (list InboundEventRecord);
  k_mailbox : gmap string MailboxRecord;
  k_lease : gmap string DeliveryLease;
  k_ticks : nat
}.

Abbreviation K := (ST kernel).

Definition rows_of (k : kernel) (a : string) : list InboundEventRecord :=
  default [] (k_inbound k !! a).

Definition read_clock `{Clock} : K string := λ k,
  (Ok (clock_at (k_ticks k)), mkKernel (k_inbound k) (k_mailbox k) (k_lease k) (S (k_ticks k))).

(** [t or service._clock()]. *)
Definition or_clock `{Clock} (t : option string) : K string :=
  match or_none (default "" t) with Some s => mret s | None => read_clock end.

Definition owner (a : string) : K string := st_lift (normalize_mailbox_owner_name (Some a)).

(** ** Stores *)
Definition put_rows (k : kernel) (a : string) (rows : list InboundEventRecord) : kernel :=
  mkKernel (<[a := rows]> (k_inbound k)) (k_mailbox k) (k_lease k) (k_ticks k).
Definition put_mailbox (k : kernel) (a : string) (m : MailboxRecord) : kernel :=
  mkKernel (k_inbound k) (<[a := m]> (k_mailbox k)) (k_lease k) (k_ticks k).
Definition put_lease (k : kernel) (a : string) (l : DeliveryLease) : kernel :=
  mkKernel (k_inbound k) (k_mailbox k) (<[a := l]> (k_lease k)) (k_ticks k).
Definition drop_lease (k : kernel) (a : string) : kernel :=
  mkKernel (k_inbound k) (k_mailbox k) (delete a (k_lease k)) (k_ticks k).

Definition mailbox_load (agent_name : string) : K (option MailboxRecord) :=
  a ← owner agent_name; st_gets (λ k, k_mailbox k !! a).
Definition mailbox_save (record : MailboxRecord) : K unit :=
  a ← owner (mb_agent_name record); st_modify (λ k, put_mailbox k a record).
Definition compare_and_save (record : MailboxRecord) (expected_summary_version : option Z)
    : K bool :=
  current ← mailbox_load (mb_agent_name record);
  if bool_decide (mb_summary_version <$> current = expected_summary_version)
  then (_ ← mailbox_save record; mret true)
  else mret false.

Definition inbound_append (record : InboundEventRecord) : K unit :=
  a ← owner (ie_agent_name record);
  st_modify (λ k, put_rows k a (rows_of k a ++ [record])).
Definition list_agent (agent_name : string) : K (list InboundEventRecord) :=
  a ← owner agent_name; st_gets (λ k, rows_of k a).
Definition get_latest (agent_name inbound_event_id : string) : K (option InboundEventRecord) :=
  a ← owner agent_name;
  st_gets (λ k, find_last (λ r, ie_inbound_event_id r =ˢ inbound_event_id) (rows_of k a)).
Definition get_latest_for_attempt (agent_name attempt_id : string)
    : K (option InboundEventRecord) :=
  a ← owner agent_name;
  st_gets (λ k, find_last (λ r, default "" (ie_attempt_id r) =ˢ attempt_id) (rows_of k a)).

Definition lease_load (agent_name : string) : K (option DeliveryLease) :=
  a ← owner agent_name; st_gets (λ k, k_lease k !! a).
Definition lease_save (record : DeliveryLease) : K unit :=
  a ← owner (dl_agent_name record); st_modify (λ k, put_lease k a record).
Definition lease_remove (agent_name : string) : K unit :=
  a ← owner agent_name; st_modify (λ k, drop_lease k a).

(** ** Queries *)
Definition terminal_event_state (s : InboundEventStatus) : bool :=
  bool_decide (s ∈ [ES_consumed; ES_superseded; ES_abandoned]).
Definition claimable_event_state (s : InboundEventStatus) : bool :=
  bool_decide (s ∈ [ES_created; ES_queued]).

(** The loop of [latest_events]: a dict of the last row per event id, and the
    ids in the order in which they first appear. *)
Definition latest_step (acc : gmap string InboundEventRecord * list string)
    (record : InboundEventRecord) : gmap string InboundEventRecord * list string :=
  let '(latest, order) := acc in
  let id := ie_inbound_event_id record in
  (<[id := record]> latest,
   if bool_decide (is_Some (latest !! id)) then order else order ++ [id]).

Definition latest_rows (rows : list InboundEventRecord) : list InboundEventRecord :=
  let '(latest, order) := foldl latest_step (∅, []) rows in
  omap (λ id, latest !! id) order.

Definition latest_events (agent_name : string) : K (list InboundEventRecord) :=
  normalized ← owner agent_name;
  rows ← list_agent normalized;
  mret (latest_rows rows).

Definition has_type (event_type : option InboundEventType) (r : InboundEventRecord) : bool :=
  match event_type with Some t => bool_decide (ie_event_type r = t) | None => true end.

Definition is_pending (r : InboundEventRecord) : bool := negb (terminal_event_state (ie_status r)).

Definition pending_of (event_type : option InboundEventType) (events : list InboundEventRecord)
    : list InboundEventRecord :=
  List.filter (λ r, is_pending r && has_type event_type r) events.

Definition pending_events (agent_name : string) (event_type : option InboundEventType)
    : K (list InboundEventRecord) :=
  events ← latest_events agent_name;
  mret (pending_of event_type events).

Definition head_pending_event (agent_name : string) : K (option InboundEventRecord) :=
  events ← pending_events agent_name None;
  mret (head events).

Definition peek_next (agent_name : string) (event_type : option InboundEventType)
    : K (option InboundEventRecord) :=
  h ← head_pending_event agent_name;
  mret match h with
       | None => None
       | Some e =>
           if negb (has_type event_type e) then None
           else if negb (claimable_event_state (ie_status e)) then None
           else Some e
       end.

(** ** The mailbox summary *)
Record summary_head := mkHead {
  sh_inbound_event_id : option string;
  sh_event_type : option string;
  sh_status : option string;
  sh_message_id : option string;
  sh_attempt_id : option string;
  sh_payload_ref : option string
}.
#[export] Instance summary_head_eq_dec : EqDecision summary_head.
Proof. solve_decision. Defined.

Definition empty_head : summary_head := mkHead None None None None None None.

Definition summary_head_from_event (record : option InboundEventRecord) : summary_head :=
  match record with
  | None => empty_head
  | Some r =>
      mkHead (Some (ie_inbound_event_id r)) (Some (event_type_value (ie_event_type r)))
        (Some (event_status_value (ie_status r))) (Some (ie_message_id r))
        (ie_attempt_id r) (ie_payload_ref r)
  end.

Definition head_of_mailbox (m : MailboxRecord) : summary_head :=
  mkHead (mb_head_inbound_event_id m) (mb_head_event_type m) (mb_head_status m)
    (mb_head_message_id m) (mb_head_attempt_id m) (mb_head_payload_ref m).

Definition derive_mailbox_state (has_active : bool) (queue_depth : Z) : MailboxState :=
  if has_active then MS_delivering
  else if 0 <? queue_depth then MS_blocked
  else MS_idle.

(** [_latest_timestamp]: the later of two ISO timestamps, as strings. *)
Definition latest_timestamp (current candidate : option string) : option string :=
  match candidate with
  | Some c =>
      if (c ≠ˢ "") && match current with None => true | Some t => str_gtb c t end
      then candidate else current
  | None => current
  end.

Definition next_summary_version (prior : option MailboxRecord) : Z :=
  match prior with None => 1 | Some p => mb_summary_version p + 1 end.

Definition summary_version_for_record (prior : option MailboxRecord) (queue_depth pending : Z)
    (active : option string) (h : summary_head) (started finished : option string)
    (state : MailboxState) (lease_version : Z) : Z :=
  match prior with
  | None => 1
  | Some p =>
      if bool_decide (mb_active_inbound_event_id p = active)
         && (mb_queue_depth p =? queue_depth)
         && (mb_pending_reply_count p =? pending)
         && bool_decide (head_of_mailbox p = h)
         && bool_decide (mb_last_inbound_started_at p = started)
         && bool_decide (mb_last_inbound_finished_at p = finished)
         && bool_decide (mb_mailbox_state p = state)
         && (mb_lease_version p =? lease_version)
      then mb_summary_version p
      else next_summary_version prior
  end.

Definition lease_acquired (lease : option DeliveryLease) : bool :=
  match lease with Some l => bool_decide (dl_lease_state l = LS_acquired) | None => false end.

(** The fields of the record [build_mailbox_summary_record] constructs. *)
Definition mailbox_summary (agent_name : string) (prior : option MailboxRecord)
    (lease : option DeliveryLease) (queue_depth pending : Z) (active : option string)
    (started finished : option string) (updated_at summary_source : string) (h : summary_head)
    : MailboxRecord :=
  let mailbox_id :=
    match prior with Some p => mb_mailbox_id p | None => "mbx_" +:+ agent_name end in
  let lease_version :=
    match lease with
    | Some l => dl_lease_version l
    | None => match prior with Some p => mb_lease_version p | None => 0 end
    end in
  let has_active :=
    lease_acquired lease && truthy (dl_inbound_event_id <$> lease) || truthy active in
  let state := derive_mailbox_state has_active queue_depth in
  let version :=
    summary_version_for_record prior queue_depth pending active h started finished state
      lease_version in
  mkMailbox mailbox_id agent_name version summary_source updated_at active queue_depth pending
    (sh_inbound_event_id h) (sh_event_type h) (sh_status h) (sh_message_id h)
    (sh_attempt_id h) (sh_payload_ref h) started finished state lease_version updated_at.

(** [summary_head=Ellipsis] is [None]: the head is looked up. *)
Definition build_mailbox_summary_record (agent_name : string) (prior : option MailboxRecord)
    (lease : option DeliveryLease) (queue_depth pending : Z) (active : option string)
    (started finished : option string) (updated_at summary_source : string)
    (h : option summary_head) : K MailboxRecord :=
  h' ← match h with
       | Some x => mret x
       | None => (e ← head_pending_event agent_name; mret (summary_head_from_event e))
       end;
  st_lift (post_init
    (mailbox_summary agent_name prior lease queue_depth pending active started finished
       updated_at summary_source h')).

Definition save_summary_record (record : MailboxRecord) (expected_summary_version : option Z)
    : K MailboxRecord :=
  saved ← compare_and_save record expected_summary_version;
  if saved : bool then mret record
  else
    current ← mailbox_load (mb_agent_name record);
    match current with
    | Some c => mret c
    | None => (_ ← mailbox_save record; mret record)
    end.

(** [active_inbound_event_id=Ellipsis] is [None]: the prior one is kept. *)
Definition apply_incremental_summary_update `{Clock} (agent_name : string)
    (queue_delta pending_reply_delta : Z) (active : option (option string))
    (last_started_at last_finished_at updated_at : option string) : K MailboxRecord :=
  normalized ← owner agent_name;
  timestamp ← or_clock updated_at;
  prior ← mailbox_load normalized;
  lease ← lease_load normalized;
  let queue_depth :=
    Z.max 0 (match prior with Some p => mb_queue_depth p | None => 0 end + queue_delta) in
  let pending :=
    Z.max 0 (match prior with Some p => mb_pending_reply_count p | None => 0 end
             + pending_reply_delta) in
  let current_active :=
    match active with
    | Some a => a
    | None => match prior with Some p => mb_active_inbound_event_id p | None => None end
    end in
  record ← build_mailbox_summary_record normalized prior lease queue_depth pending current_active
    (latest_timestamp (prior ≫= mb_last_inbound_started_at) last_started_at)
    (latest_timestamp (prior ≫= mb_last_inbound_finished_at) last_finished_at)
    timestamp "incremental-upsert" None;
  save_summary_record record (mb_summary_version <$> prior).

Definition apply_transition_summary_update `{Clock} (agent_name : string)
    (queue_depth pending : Z) (active : option string)
    (last_started_at last_finished_at : option string) (updated_at : string)
    (summary_source : string) (h : option summary_head) : K MailboxRecord :=
  normalized ← owner agent_name;
  timestamp ← or_clock (Some updated_at);
  prior ← mailbox_load normalized;
  lease ← lease_load normalized;
  record ← build_mailbox_summary_record normalized prior lease
    (Z.max 0 queue_depth) (Z.max 0 pending) active last_started_at last_finished_at
    timestamp summary_source h;
  save_summary_record record (mb_summary_version <$> prior).

Definition active_of_lease (lease : option DeliveryLease) : option string :=
  match lease with
  | Some l => if lease_acquired lease then or_none (dl_inbound_event_id l) else None
  | None => None
  end.

Definition latest_activity (prior : option MailboxRecord) (events : list InboundEventRecord)
    : option string * option string :=
  foldl (λ acc e, (latest_timestamp acc.1 (ie_started_at e),
                   latest_timestamp acc.2 (ie_finished_at e)))
    (prior ≫= mb_last_inbound_started_at, prior ≫= mb_last_inbound_finished_at) events.

Definition count_replies (events : list InboundEventRecord) : Z :=
  Z.of_nat (length (List.filter (λ e, bool_decide (ie_event_type e = ET_task_reply)) events)).

(** [prior=Ellipsis] is [None]: the record is loaded. *)
Definition project_mailbox_summary `{Clock} (agent_name : string) (updated_at : option string)
    (prior : option (option MailboxRecord)) (summary_source : string) : K MailboxRecord :=
  normalized ← owner agent_name;
  timestamp ← or_clock updated_at;
  prior' ← match prior with Some p => mret p | None => mailbox_load normalized end;
  lease ← lease_load normalized;
  events ← pending_events normalized None;
  all_events ← latest_events normalized;
  let '(last_started, last_finished) := latest_activity prior' all_events in
  build_mailbox_summary_record normalized prior' lease
    (Z.of_nat (length events)) (count_replies events) (active_of_lease lease)
    last_started last_finished timestamp summary_source None.

Definition rebuild_mailbox_summary `{Clock} (agent_name : string) (updated_at : option string)
    : K MailboxRecord :=
  normalized ← owner agent_name;
  prior ← mailbox_load normalized;
  record ← project_mailbox_summary normalized updated_at (Some prior) "history-refresh";
  save_summary_record record (mb_summary_version <$> prior).

(** [mailbox_head_payload]: the head columns of a summary, when there is a head. *)
Definition mailbox_head_payload (record : option MailboxRecord) : option summary_head :=
  match record with
  | Some m => if truthy (mb_head_inbound_event_id m) then Some (head_of_mailbox m) else None
  | None => None
  end.

(** ** Transitions *)
Definition next_lease_version (agent_name : string) : K Z :=
  normalized ← owner agent_name;
  lease ← lease_load normalized;
  match lease with
  | Some l => mret (dl_lease_version l + 1)
  | None =>
      mailbox ← mailbox_load normalized;
      mret match mailbox with Some m => mb_lease_version m + 1 | None => 1 end
  end.

(** [_refresh_and_return] and its variants: rebuild the summary, return [value]. *)
Definition refresh_and_return `{Clock} {A} (agent_name timestamp : string) (value : A) : K A :=
  _ ← rebuild_mailbox_summary agent_name (Some timestamp);
  mret value.

(** [replace(event, ...)]. *)
Definition set_event (e : InboundEventRecord) (payload_ref : option string)
    (status : InboundEventStatus) (started finished : option string)
    : K InboundEventRecord :=
  st_lift (post_init
    (mkEvent (ie_inbound_event_id e) (ie_agent_name e) (ie_event_type e) (ie_message_id e)
       (ie_attempt_id e) payload_ref (ie_priority e) status (ie_created_at e)
       started finished)).

Definition delivery_record (current : InboundEventRecord) (timestamp : string)
    : K InboundEventRecord :=
  set_event current (ie_payload_ref current) ES_delivering
    (Some (str_or (ie_started_at current) timestamp)) None.

Definition delivery_lease (agent_name inbound_event_id timestamp : string) : K DeliveryLease :=
  version ← next_lease_version agent_name;
  st_lift (post_init
    (mkLease agent_name inbound_event_id version timestamp (Some timestamp) None LS_acquired)).

Definition claim_current `{Clock} (agent_name : string) (current : InboundEventRecord)
    (timestamp : string) : K InboundEventRecord :=
  updated ← delivery_record current timestamp;
  _ ← inbound_append updated;
  lease ← delivery_lease agent_name (ie_inbound_event_id current) timestamp;
  _ ← lease_save lease;
  prior ← mailbox_load agent_name;
  match prior with
  | Some p =>
      if (mb_queue_depth p <=? 0)
         || negb (bool_decide (mb_head_inbound_event_id p = Some (ie_inbound_event_id current)))
      then refresh_and_return agent_name timestamp updated
      else
        _ ← apply_transition_summary_update agent_name (mb_queue_depth p)
          (mb_pending_reply_count p) (Some (ie_inbound_event_id current))
          (latest_timestamp (mb_last_inbound_started_at p) (ie_started_at updated))
          (mb_last_inbound_finished_at p) timestamp "transition-claim"
          (Some (summary_head_from_event (Some updated)));
        mret updated
  | None => refresh_and_return agent_name timestamp updated
  end.

Definition load_claim_candidate (agent_name inbound_event_id : string)
    : K (option InboundEventRecord) :=
  current ← get_latest agent_name inbound_event_id;
  mret match current with
       | Some e => if is_pending e then Some e else None
       | None => None
       end.

Definition has_conflicting_lease (agent_name inbound_event_id : string) : K bool :=
  lease ← lease_load agent_name;
  mret (lease_acquired lease
        && negb (bool_decide (dl_inbound_event_id <$> lease = Some inbound_event_id))).

Definition is_claimable_head (agent_name : string) (current : InboundEventRecord) : K bool :=
  if negb (claimable_event_state (ie_status current)) then mret false
  else
    h ← head_pending_event agent_name;
    mret (bool_decide (ie_inbound_event_id <$> h = Some (ie_inbound_event_id current))).

Definition claim `{Clock} (agent_name inbound_event_id : string) (started_at : option string)
    : K (option InboundEventRecord) :=
  normalized ← owner agent_name;
  timestamp ← or_clock started_at;
  candidate ← load_claim_candidate normalized inbound_event_id;
  match candidate with
  | None => refresh_and_return normalized timestamp None
  | Some current =>
      conflict ← has_conflicting_lease normalized inbound_event_id;
      if conflict : bool then refresh_and_return normalized timestamp None
      else if bool_decide (ie_status current = ES_delivering)
      then refresh_and_return normalized timestamp (Some current)
      else
        claimable ← is_claimable_head normalized current;
        if claimable : bool
        then (updated ← claim_current normalized current timestamp; mret (Some updated))
        else refresh_and_return normalized timestamp None
  end.

Definition claim_next `{Clock} (agent_name : string) (event_type : option InboundEventType)
    (started_at : option string) : K (option InboundEventRecord) :=
  next_event ← peek_next agent_name event_type;
  match next_event with
  | None =>
      timestamp ← or_clock started_at;
      refresh_and_return agent_name timestamp None
  | Some e => claim agent_name (ie_inbound_event_id e) started_at
  end.

Definition release_matching_lease (agent_name inbound_event_id : string) : K unit :=
  lease ← lease_load agent_name;
  if lease_acquired lease && bool_decide (dl_inbound_event_id <$> lease = Some inbound_event_id)
  then lease_remove agent_name
  else mret tt.

(** The head columns after the head became terminal; [None]: rebuild instead. *)
Definition head_after_terminal (agent_name : string) (queue_depth : Z)
    : K (option summary_head) :=
  if queue_depth =? 0 then mret (Some (summary_head_from_event None))
  else if queue_depth =? 1 then
    h ← head_pending_event agent_name;
    mret (Some (summary_head_from_event h))
  else
    next_head ← head_pending_event agent_name;
    mret match next_head with
         | None => None
         | Some h => Some (summary_head_from_event (Some h))
         end.

Definition mark_terminal `{Clock} (agent_name inbound_event_id : string)
    (status : InboundEventStatus) (finished_at : option string)
    : K (option InboundEventRecord) :=
  normalized ← owner agent_name;
  timestamp ← or_clock finished_at;
  candidate ← get_latest normalized inbound_event_id;
  match candidate with
  | None => refresh_and_return normalized timestamp None
  | Some current =>
    if negb (is_pending current) then refresh_and_return normalized timestamp (Some current)
    else
      updated ← set_event current (ie_payload_ref current) status (ie_started_at current)
        (Some timestamp);
      _ ← inbound_append updated;
      _ ← release_matching_lease normalized inbound_event_id;
      prior ← mailbox_load normalized;
      match prior with
      | None => refresh_and_return normalized timestamp (Some updated)
      | Some p =>
        if mb_queue_depth p <=? 0 then refresh_and_return normalized timestamp (Some updated)
        else
          let queue_depth := Z.max 0 (mb_queue_depth p - 1) in
          let pending :=
            Z.max 0 (mb_pending_reply_count p
                     - (if bool_decide (ie_event_type current = ET_task_reply) then 1 else 0)) in
          let id := Some (ie_inbound_event_id current) in
          let active :=
            if bool_decide (mb_active_inbound_event_id p = id) then None
            else mb_active_inbound_event_id p in
          h ← (if bool_decide (mb_head_inbound_event_id p = id)
               then head_after_terminal normalized queue_depth
               else mret (Some (head_of_mailbox p)));
          match h with
          | None => refresh_and_return normalized timestamp (Some updated)
          | Some h' =>
              _ ← apply_transition_summary_update normalized queue_depth pending active
                (mb_last_inbound_started_at p)
                (latest_timestamp (mb_last_inbound_finished_at p) (Some timestamp))
                timestamp "transition-terminal" (Some h');
              mret (Some updated)
          end
      end
  end.

Definition ack_reply `{Clock} (agent_name inbound_event_id : string)
    (started_at finished_at : option string) : K (option InboundEventRecord) :=
  normalized ← owner agent_name;
  h ← head_pending_event normalized;
  timestamp ← or_clock
    (match or_none (default "" finished_at) with Some f => Some f | None => started_at end);
  let matches :=
    match h with
    | Some e => bool_decide (ie_inbound_event_id e = inbound_event_id)
                && bool_decide (ie_event_type e = ET_task_reply)
    | None => false
    end in
  if negb matches then refresh_and_return normalized timestamp None
  else
    candidate ← get_latest normalized inbound_event_id;
    match candidate with
    | None => refresh_and_return normalized timestamp candidate
    | Some current =>
        if negb (is_pending current) then refresh_and_return normalized timestamp candidate
        else if bool_decide (ie_status current = ES_delivering)
        then mark_terminal normalized inbound_event_id ES_consumed
               (Some (str_or finished_at timestamp))
        else
          claimed ← claim normalized inbound_event_id (Some (str_or started_at timestamp));
          match claimed with
          | None => refresh_and_return normalized timestamp None
          | Some _ => mark_terminal normalized inbound_event_id ES_consumed
                        (Some (str_or finished_at timestamp))
          end
    end.

Definition consume `{Clock} (agent_name inbound_event_id : string) (finished_at : option string)
  := mark_terminal agent_name inbound_event_id ES_consumed finished_at.
Definition abandon `{Clock} (agent_name inbound_event_id : string) (finished_at : option string)
  := mark_terminal agent_name inbound_event_id ES_abandoned finished_at.
Definition supersede `{Clock} (agent_name inbound_event_id : string)
    (finished_at : option string)
  := mark_terminal agent_name inbound_event_id ES_superseded finished_at.

Definition rewrite_head `{Clock} (agent_name inbound_event_id : string)
    (payload_ref : option string) (status : InboundEventStatus) (updated_at : option string)
    (clear_progress : bool) : K (option InboundEventRecord) :=
  normalized ← owner agent_name;
  timestamp ← or_clock updated_at;
  candidate ← load_claim_candidate normalized inbound_event_id;
  match candidate with
  | None => refresh_and_return normalized timestamp None
  | Some current =>
      updated ← set_event current payload_ref status
        (if clear_progress then None else ie_started_at current)
        (if clear_progress then None else ie_finished_at current);
      _ ← inbound_append updated;
      _ ← release_matching_lease normalized inbound_event_id;
      prior ← mailbox_load normalized;
      match prior with
      | None => refresh_and_return normalized timestamp (Some updated)
      | Some p =>
          if negb (bool_decide (mb_head_inbound_event_id p = Some inbound_event_id))
             || (mb_queue_depth p <=? 0)
          then refresh_and_return normalized timestamp (Some updated)
          else
            _ ← apply_transition_summary_update normalized (mb_queue_depth p)
              (mb_pending_reply_count p)
              (if bool_decide (mb_active_inbound_event_id p = Some inbound_event_id)
               then None else mb_active_inbound_event_id p)
              (mb_last_inbound_started_at p) (mb_last_inbound_finished_at p)
              timestamp "transition-rewrite-head" (Some (summary_head_from_event (Some updated)));
            mret (Some updated)
      end
  end.
