(* ===== verification/AgentRegistry.v ===== *)
(** * The registry of agents and their runtimes

    [ccbd/services/registry.py]: the runtimes the daemon knows, cached over their
    files; [services/runtime_attach.py] and [runtime_runtime/attach*.py]: binding
    an agent to a process and a pane, and the generations that number the
    bindings. *)
From stdpp Require Import pretty.
From S2P Require Import Prelude PyValue Names AgentModels MailboxKernel AgentRuntimes.
Open Scope string_scope.
Open Scope list_scope.
Open Scope Z_scope.

(** ** State

    The cache and the files [runtime.json] by agent, the log of supervision
    events, how often the clock was read and how many ids were drawn. *)
Record SupervisionEvent := mkEvent {
  se_event_kind : string;
  se_project_id : string;
  se_agent_name : string;
  se_occurred_at : string;
  se_daemon_generation : option Z;
  se_desired_state : option string;
  se_reconcile_state : option string;
  se_prior_health : option string;
  se_result_health : option string;
  se_runtime_state : option string;
  se_runtime_ref : option string;
  se_session_ref : option string;
  se_details : pydict
}.
Record Fleet := mkFleet {
  fl_cache : gmap string AgentRuntime;
  fl_files : gmap string AgentRuntime;
  fl_events : list SupervisionEvent;
  fl_ticks : nat;
  fl_ids : nat
}.
Abbreviation Fl := (ST Fleet).
Definition fl_now `{Clock} : Fl string := λ f,
  (Ok (clock_at (fl_ticks f)), mkFleet (fl_cache f) (fl_files f) (fl_events f) (S (fl_ticks f)) (fl_ids f)).
Definition cache_runtime (name : string) (r : AgentRuntime) : Fl unit :=
  st_modify (λ f, mkFleet (<[name := r]> (fl_cache f)) (fl_files f) (fl_events f) (fl_ticks f) (fl_ids f)).
Definition write_runtime (name : string) (r : AgentRuntime) : Fl unit :=
  st_modify (λ f, mkFleet (fl_cache f) (<[name := r]> (fl_files f)) (fl_events f) (fl_ticks f) (fl_ids f)).
Definition append_event (e : SupervisionEvent) : Fl unit :=
  st_modify (λ f, mkFleet (fl_cache f) (fl_files f) (fl_events f ++ [e]) (fl_ticks f) (fl_ids f)).

Class FleetConfig := {
  fc_agents : list (string * AgentSpec);
  fc_project_id : string;
  (** [layout.workspace_path]. *)
  fc_workspace_path : string → option string → string
}.

(** ** The registry *)
Definition ACTIVE_STATES : list AgentState := [AG_starting; AG_idle; AG_busy; AG_degraded].
(** [_changed_runtime_fields] without the fields of the state, sorted. *)
Definition changed_authority_fields (x y : RuntimeAuthority) : list string :=
  let ne {A} `{EqDecision A} (f : RuntimeAuthority → A) := negb (bool_decide (f x = f y)) in
  fst <$> List.filter snd
    [ ("agent_name", ne ag_agent_name); ("backend_type", ne ag_backend_type); ("binding_generation", ne ag_binding_generation);
      ("binding_source", ne ag_binding_source); ("daemon_generation", ne ag_daemon_generation); ("managed_by", ne ag_managed_by);
      ("mount_attempt_id", ne ag_mount_attempt_id); ("pane_id", ne ag_pane_id); ("pane_title_marker", ne ag_pane_title_marker);
      ("project_id", ne ag_project_id); ("provider", ne ag_provider); ("runtime_generation", ne ag_runtime_generation);
      ("runtime_pid", ne ag_runtime_pid); ("runtime_ref", ne ag_runtime_ref); ("runtime_root", ne ag_runtime_root);
      ("session_file", ne ag_session_file); ("session_id", ne ag_session_id); ("session_ref", ne ag_session_ref);
      ("slot_key", ne ag_slot_key); ("socket_path", ne ag_socket_path); ("started_at", ne ag_started_at);
      ("terminal_backend", ne ag_terminal_backend); ("tmux_socket_name", ne ag_tmux_socket_name);
      ("tmux_socket_path", ne ag_tmux_socket_path); ("tmux_window_id", ne ag_tmux_window_id);
      ("tmux_window_name", ne ag_tmux_window_name); ("window_id", ne ag_window_id); ("workspace_epoch", ne ag_workspace_epoch);
      ("workspace_path", ne ag_workspace_path) ].
Definition positive_generation (value : option Z) : Z := Z.max 0 (default 0 value).
(** A candidate built from an older binding keeps the binding that is there. *)
Definition merge_stale_authority_candidate (existing candidate : AgentRuntime) : result AgentRuntime :=
  let existing_generation := positive_generation (ag_runtime_generation existing) in
  let candidate_generation := positive_generation (ag_runtime_generation candidate) in
  if (existing_generation <=? candidate_generation) || (existing_generation <=? 0) then mret candidate
  else runtime_post_init (mkRuntime (ag_authority existing) (ag_fields candidate)).

Section registry.
Context `{Clock} `{FleetConfig}.

Definition spec_for (agent_name : string) : result AgentSpec :=
  normalized ← normalize_agent_name agent_name;
  match list_find (λ kv, kv.1 = normalized) fc_agents with
  | Some (_, (_, spec)) => mret spec
  | None => Err (KeyError ("unknown agent: " +:+ normalized))
  end.
Definition get_locked (agent_name : string) : Fl (option AgentRuntime) :=
  normalized ← st_lift (normalize_agent_name agent_name);
  cached ← st_gets (λ f, fl_cache f !! normalized);
  match cached with
  | Some r => mret (Some r)
  | None =>
      loaded ← st_gets (λ f, fl_files f !! normalized);
      match loaded with
      | Some r => _ ← cache_runtime normalized r; mret (Some r)
      | None => mret None
      end
  end.
Definition get (agent_name : string) : Fl (option AgentRuntime) := get_locked agent_name.
Definition save_locked (runtime : AgentRuntime) (authority_write : bool) (existing : option AgentRuntime) : Fl AgentRuntime :=
  _ ← st_lift (spec_for (ag_agent_name runtime));
  current ← match existing with Some e => mret (Some e) | None => get_locked (ag_agent_name runtime) end;
  _ ← match current with
      | Some c =>
          let fields := changed_authority_fields (ag_authority c) (ag_authority runtime) in
          st_lift (raise_if (negb authority_write && negb (bool_decide (fields = [])))
            (ValueError ("authority write required for runtime fields: " +:+ join ", " fields)))
      | None => mret tt
      end;
  _ ← write_runtime (ag_agent_name runtime) runtime;
  _ ← cache_runtime (ag_agent_name runtime) runtime;
  mret runtime.
Definition upsert (runtime : AgentRuntime) : Fl AgentRuntime := save_locked runtime false None.
Definition upsert_authority (runtime : AgentRuntime) : Fl AgentRuntime :=
  existing ← get_locked (ag_agent_name runtime);
  runtime ← match existing with Some e => st_lift (merge_stale_authority_candidate e runtime) | None => mret runtime end;
  save_locked runtime true existing.
Definition update (agent_name : string) (update_fn : option AgentRuntime → result (option AgentRuntime)) : Fl (option AgentRuntime) :=
  normalized ← st_lift (normalize_agent_name agent_name);
  current ← get_locked normalized;
  updated ← st_lift (update_fn current);
  match updated with
  | None => mret current
  | Some u => if bool_decide (current = Some u) then mret current else r ← save_locked u false current; mret (Some r)
  end.
(** What [remove] leaves of a runtime. *)
Definition stopped_runtime (r : AgentRuntime) : result AgentRuntime :=
  runtime_post_init (mkRuntime
    (mkAuthority (ag_agent_name r) (ag_started_at r) None None (ag_workspace_path r) (ag_project_id r) (ag_backend_type r) None
       (ag_provider r) (ag_runtime_root r) None (ag_terminal_backend r) None (ag_pane_title_marker r) (ag_tmux_socket_name r)
       (ag_tmux_socket_path r) (ag_tmux_window_name r) (ag_tmux_window_id r) (ag_session_file r) (ag_session_id r) (ag_slot_key r)
       (ag_window_id r) (ag_workspace_epoch r) (ag_binding_generation r) (ag_managed_by r) (ag_binding_source r)
       (ag_daemon_generation r) (ag_runtime_generation r) (ag_mount_attempt_id r))
    (mkState AG_stopped None (ag_last_seen_at r) 0 "stopped" None None (ag_lifecycle_state r) (Some "stopped") (Some "stopped")
       (ag_restart_count r) (ag_last_reconcile_at r) None)).
Definition remove (agent_name : string) : Fl (option AgentRuntime) :=
  runtime ← get_locked agent_name;
  match runtime with
  | None => mret None
  | Some r => stopped ← st_lift (stopped_runtime r); saved ← upsert_authority stopped; mret (Some saved)
  end.
Fixpoint list_all_from (names : list string) : Fl (list AgentRuntime) :=
  match names with
  | [] => mret []
  | n :: rest => r ← get_locked n; rs ← list_all_from rest; mret (match r with Some r => r :: rs | None => rs end)
  end.
End registry.
