(* ===== verification/RuntimeAttach.v ===== *)
(** * Binding an agent to a runtime

    [ccbd/services/runtime_attach.py] and [runtime_runtime/attach*.py]: what an
    attachment makes of the runtime that is there, and when it is a new binding. *)
From stdpp Require Import pretty.
From S2P Require Import Prelude PyValue Names AgentModels MailboxKernel AgentRuntimes AgentRegistry.
Open Scope string_scope.
Open Scope list_scope.
Open Scope Z_scope.

(** The keyword arguments of [attach]; [None] is also a value that is not given. *)
Record AttachArgs := mkAttach {
  at_agent_name : string;
  at_workspace_path : string;
  at_backend_type : string;
  at_pid : option Z;
  at_runtime_ref : option string;
  at_session_ref : option string;
  at_health : option string;
  at_provider : option string;
  at_runtime_root : option string;
  at_runtime_pid : option Z;
  at_terminal_backend : option string;
  at_pane_id : option string;
  at_active_pane_id : option string;
  at_pane_title_marker : option string;
  at_pane_state : option string;
  at_tmux_socket_name : option string;
  at_tmux_socket_path : option string;
  at_tmux_window_name : option string;
  at_tmux_window_id : option string;
  at_session_file : option string;
  at_session_id : option string;
  at_slot_key : option string;
  at_window_id : option string;
  at_workspace_epoch : option Z;
  at_lifecycle_state : option string;
  at_daemon_generation : option Z;
  at_managed_by : option string;
  at_binding_source : option RuntimeBindingSource
}.

(** ** [runtime_attach.py] *)
Definition binding_source_for_attach (existing : option AgentRuntime) (explicit : option RuntimeBindingSource) : RuntimeBindingSource :=
  match explicit, existing with
  | Some b, _ => b
  | None, Some e => ag_binding_source e
  | None, None => RB_provider_session
  end.
Definition health_for_attach (existing : option AgentRuntime) (explicit : option string) (binding_source : RuntimeBindingSource) : string :=
  match normalized_text explicit, existing with
  | Some h, _ => h
  | None, None => "healthy"
  | None, Some e =>
      let current := str_or (normalized_text (Some (ag_health e))) "healthy" in
      if bool_decide (binding_source = RB_external_attach)
      then if current =ˢ "restored" then "restored" else "healthy"
      else current
  end.
Definition state_for_attach (existing_state : option AgentState) (next_health : string) : AgentState :=
  if bool_decide (next_health ∈ ["healthy"; "restored"])
  then match existing_state with
       | None | Some (AG_starting | AG_degraded | AG_stopped | AG_failed) => AG_idle
       | Some s => s
       end
  else AG_degraded.
(** The text before and after the first colon, if there is one. *)
Fixpoint partition_colon (s : string) : option (string * string) :=
  match s with
  | "" => None
  | String c rest =>
      if Ascii.eqb c ":" then Some ("", rest)
      else match partition_colon rest with Some (a, b) => Some (String c a, b) | None => None end
  end.
Definition terminal_backend_from_runtime_ref (runtime_ref : option string) : option string :=
  p ← partition_colon (strip (default "" runtime_ref)); or_none (strip p.1).
Definition pane_id_from_runtime_ref (runtime_ref : option string) : option string :=
  p ← partition_colon (strip (default "" runtime_ref)); or_none (strip p.2).
Fixpoint has_slash (s : string) : bool :=
  match s with "" => false | String c rest => Ascii.eqb c "/" || Ascii.eqb c "\" || has_slash rest end.
Definition looks_like_path (value : option string) : bool :=
  match strip (default "" value) with
  | "" => false
  | String c rest => Ascii.eqb c "~" || has_slash (String c rest)
  end.
Definition session_field_value (existing : option AgentRuntime) (field : AgentRuntime → option string) (explicit_value : option string)
    (explicit : bool) : option string :=
  if explicit then explicit_value else match existing with Some e => field e | None => None end.
Definition is_set {A} (o : option A) : bool := match o with Some _ => true | None => false end.
Definition clear_implicit_session_fields (session_file session_id : option string) (session_ref_explicit : bool)
    (normalized_session_ref : option string) (session_file_explicit session_id_explicit : bool) : option string * option string :=
  if negb session_ref_explicit || is_set normalized_session_ref then (session_file, session_id)
  else (if session_file_explicit then session_file else None, if session_id_explicit then session_id else None).
(** [a or b]. *)
Definition truthy_or (a b : option string) : option string := match a with Some s => if s =ˢ "" then b else a | None => b end.
Definition derived_session_ref (session_ref session_file session_id : option string) : option string :=
  truthy_or session_ref (truthy_or session_file session_id).
Definition derived_session_file (session_file session_ref : option string) : option string :=
  if is_set session_file || negb (looks_like_path session_ref) then session_file else session_ref.
Definition derived_session_id (session_id session_ref : option string) : option string :=
  if is_set session_id || negb (is_set session_ref) || looks_like_path session_ref then session_id else session_ref.
(** File, id and reference of the session. *)
Definition resolve_session_fields (existing : option AgentRuntime) (session_ref session_file session_id : option string)
    (session_ref_explicit session_file_explicit session_id_explicit : bool) : option string * option string * option string :=
  let next_file := session_field_value existing (λ r, ag_session_file r) (normalized_text session_file) session_file_explicit in
  let next_id := session_field_value existing (λ r, ag_session_id r) (normalized_text session_id) session_id_explicit in
  let next_ref := session_field_value existing (λ r, ag_session_ref r) (normalized_text session_ref) session_ref_explicit in
  let cleared := clear_implicit_session_fields next_file next_id session_ref_explicit (normalized_text session_ref)
                   session_file_explicit session_id_explicit in
  let next_ref := derived_session_ref next_ref cleared.1 cleared.2 in
  (derived_session_file cleared.1 next_ref, derived_session_id cleared.2 next_ref, next_ref).

(** ** [attach_values.py] *)
Definition next_provider (existing : option AgentRuntime) (spec_provider : string) (provider : option string) : string :=
  let current := match existing with Some e => ag_provider e | None => Some spec_provider end in
  str_or (or_none (strip (default spec_provider (truthy_or provider (truthy_or current (Some spec_provider)))))) spec_provider.
Definition preferred_text (existing : option AgentRuntime) (field : AgentRuntime → option string) (explicit_value dflt : option string)
    : option string :=
  match normalized_text explicit_value with
  | Some t => Some t
  | None => match existing with Some e => field e | None => dflt end
  end.
Definition existing_field (existing : option AgentRuntime) (field : AgentRuntime → option string) : option string :=
  match existing with Some e => field e | None => None end.
Definition preferred_terminal_backend (existing : option AgentRuntime) (terminal_backend runtime_ref_value : option string) : option string :=
  truthy_or (normalized_text terminal_backend) (truthy_or (terminal_backend_from_runtime_ref runtime_ref_value)
    (existing_field existing (λ r, ag_terminal_backend r))).
Definition preferred_pane_id (existing : option AgentRuntime) (pane_id runtime_ref_value : option string) : option string :=
  truthy_or (normalized_text pane_id) (truthy_or (pane_id_from_runtime_ref runtime_ref_value) (existing_field existing (λ r, ag_pane_id r))).
Definition preferred_active_pane_id (existing : option AgentRuntime) (active_pane_id pane_id_value : option string) : option string :=
  truthy_or (normalized_text active_pane_id) (truthy_or pane_id_value (existing_field existing (λ r, ag_active_pane_id r))).
Definition preferred_slot_key (existing : option AgentRuntime) (spec_name : string) (slot_key : option string) : string :=
  default spec_name (truthy_or (normalized_text slot_key) (truthy_or (existing_field existing (λ r, ag_slot_key r)) (Some spec_name))).
Definition preferred_workspace_epoch (existing : option AgentRuntime) (workspace_epoch : option Z) : option Z :=
  match workspace_epoch, existing with
  | Some n, _ => Some n
  | None, Some e => ag_workspace_epoch e
  | None, None => None
  end.
Definition next_runtime_pid (existing : option AgentRuntime) (runtime_pid pid : option Z) : option Z :=
  match runtime_pid, pid, existing with
  | Some p, _, _ => Some p
  | None, Some p, _ => Some p
  | None, None, Some e => ag_runtime_pid e
  | None, None, None => None
  end.
Definition next_lifecycle_state (existing : option AgentRuntime) (lifecycle_state : option string) (next_state : AgentState) : option string :=
  truthy_or (normalized_text lifecycle_state) (truthy_or (existing_field existing (λ r, ag_lifecycle_state r))
    (Some (agent_state_value next_state))).
(** The generations of binding and runtime. *)
Definition next_authority_epoch_generations (existing : option AgentRuntime) (authority_epoch_changed : bool) : Z * Z :=
  match existing with
  | None => (1, 1)
  | Some e =>
      let current_binding := positive_generation (Some (ag_binding_generation e)) in
      let current_runtime := positive_generation (ag_runtime_generation e) in
      let current_epoch := Z.max current_binding current_runtime in
      if authority_epoch_changed then
        let next_epoch := if 0 <? current_epoch then current_epoch + 1 else 1 in (next_epoch, next_epoch)
      else
        let binding_generation := if 0 <? current_binding then current_binding else 1 in
        (binding_generation, if 0 <? current_runtime then current_runtime else binding_generation)
  end.
Definition next_daemon_generation (existing : option AgentRuntime) (daemon_generation : option Z) : option Z :=
  match daemon_generation, existing with
  | Some g, _ => Some g
  | None, Some e => ag_daemon_generation e
  | None, None => None
  end.
Definition runtime_authority_changed (existing : option AgentRuntime) (runtime_ref session_ref runtime_root : option string)
    (runtime_pid : option Z) (pane_id active_pane_id tmux_socket_name tmux_socket_path tmux_window_name tmux_window_id : option string)
    (daemon_generation : option Z) : bool :=
  match existing with
  | None => true
  | Some e =>
      negb (bool_decide (runtime_ref = ag_runtime_ref e)) || negb (bool_decide (session_ref = ag_session_ref e)) ||
      negb (bool_decide (runtime_root = ag_runtime_root e)) || negb (bool_decide (runtime_pid = ag_runtime_pid e)) ||
      negb (bool_decide (pane_id = ag_pane_id e)) || negb (bool_decide (active_pane_id = ag_active_pane_id e)) ||
      negb (bool_decide (tmux_socket_name = ag_tmux_socket_name e)) || negb (bool_decide (tmux_socket_path = ag_tmux_socket_path e)) ||
      negb (bool_decide (tmux_window_name = ag_tmux_window_name e)) || negb (bool_decide (tmux_window_id = ag_tmux_window_id e)) ||
      negb (bool_decide (daemon_generation = ag_daemon_generation e))
  end.

(** ** The runtime that is attached

    The values of [resolve_attach_runtime_values] as the runtime
    [updated_runtime] makes of them when the agent is active, or [new_runtime]
    when it is not. *)
Definition should_update_existing (existing : option AgentRuntime) : bool :=
  match existing with Some e => bool_decide (ag_state e ∈ ACTIVE_STATES) | None => false end.
Definition attached_runtime (existing : option AgentRuntime) (spec : AgentSpec) (project_id timestamp : string) (a : AttachArgs)
    : AgentRuntime :=
  let merged := merge_runtime_binding (runtime_binding_from_runtime existing) (at_runtime_ref a) (at_session_ref a)
                  (Some (at_workspace_path a)) in
  let '(session_file, session_id, session_ref) :=
    resolve_session_fields existing (rb_session_ref merged) (at_session_file a) (at_session_id a)
      (is_set (at_session_ref a)) (is_set (at_session_file a)) (is_set (at_session_id a)) in
  let runtime_ref := rb_runtime_ref merged in
  let binding_source := binding_source_for_attach existing (at_binding_source a) in
  let next_health := health_for_attach existing (at_health a) binding_source in
  let next_state := state_for_attach (match existing with Some e => Some (ag_state e) | None => None end) next_health in
  let pane_id := preferred_pane_id existing (at_pane_id a) runtime_ref in
  let runtime_root := preferred_text existing (λ r, ag_runtime_root r) (at_runtime_root a) None in
  let runtime_pid := next_runtime_pid existing (at_runtime_pid a) (at_pid a) in
  let terminal_backend := preferred_terminal_backend existing (at_terminal_backend a) runtime_ref in
  let active_pane_id := preferred_active_pane_id existing (at_active_pane_id a) pane_id in
  let tmux_socket_name := preferred_text existing (λ r, ag_tmux_socket_name r) (at_tmux_socket_name a) None in
  let tmux_socket_path := preferred_text existing (λ r, ag_tmux_socket_path r) (at_tmux_socket_path a) None in
  let tmux_window_name := preferred_text existing (λ r, ag_tmux_window_name r) (at_tmux_window_name a) None in
  let tmux_window_id := preferred_text existing (λ r, ag_tmux_window_id r) (at_tmux_window_id a) None in
  let daemon_generation := next_daemon_generation existing (at_daemon_generation a) in
  let changed := runtime_authority_changed existing runtime_ref session_ref runtime_root runtime_pid pane_id active_pane_id
                   tmux_socket_name tmux_socket_path tmux_window_name tmux_window_id daemon_generation in
  let '(binding_generation, runtime_generation) := next_authority_epoch_generations existing changed in
  let pane_title_marker := preferred_text existing (λ r, ag_pane_title_marker r) (at_pane_title_marker a) None in
  let pane_state := preferred_text existing (λ r, ag_pane_state r) (at_pane_state a) None in
  let slot_key := Some (preferred_slot_key existing (as_name spec) (at_slot_key a)) in
  let window_id := preferred_text existing (λ r, ag_window_id r) (at_window_id a) None in
  let workspace_epoch := preferred_workspace_epoch existing (at_workspace_epoch a) in
  let lifecycle_state := next_lifecycle_state existing (at_lifecycle_state a) next_state in
  let managed_by := str_or (preferred_text existing (λ r, Some (ag_managed_by r)) (at_managed_by a) (Some "ccbd")) "ccbd" in
  let provider := Some (next_provider existing (as_provider spec) (at_provider a)) in
  let update := should_update_existing existing in
  let authority name started_at project_id backend_type socket_path mount_attempt_id :=
    mkAuthority name started_at runtime_ref session_ref (rb_workspace_path merged) project_id backend_type socket_path provider
      runtime_root runtime_pid terminal_backend pane_id pane_title_marker tmux_socket_name tmux_socket_path tmux_window_name
      tmux_window_id session_file session_id slot_key window_id workspace_epoch binding_generation managed_by binding_source
      daemon_generation (Some runtime_generation) mount_attempt_id in
  match existing with
  | Some e =>
      if update then
        mkRuntime
          (authority (ag_agent_name e) (if changed then Some timestamp else ag_started_at e) (str_or (Some (ag_project_id e)) project_id)
             (str_or (Some (at_backend_type a)) (ag_backend_type e)) (ag_socket_path e) (ag_mount_attempt_id e))
          (mkState next_state runtime_pid (Some timestamp) (ag_queue_depth e) next_health active_pane_id pane_state lifecycle_state
             (ag_desired_state e) (ag_reconcile_state e) (ag_restart_count e) (ag_last_reconcile_at e) (ag_last_failure_reason e))
      else
        mkRuntime
          (authority (as_name spec) (Some timestamp) (ag_project_id e) (at_backend_type a) (ag_socket_path e) None)
          (mkState next_state runtime_pid (Some timestamp) (ag_queue_depth e) next_health active_pane_id pane_state lifecycle_state
             None None 0 None None)
  | None =>
      mkRuntime (authority (as_name spec) (Some timestamp) project_id (at_backend_type a) None None)
        (mkState next_state runtime_pid (Some timestamp) 0 next_health active_pane_id pane_state lifecycle_state None None 0 None None)
  end.
(** An external attachment ends the mount attempt, any other keeps it. *)
Definition resolved_mount_attempt_runtime (existing : option AgentRuntime) (r : AgentRuntime) : result AgentRuntime :=
  if bool_decide (ag_binding_source r = RB_external_attach) then
    if is_set (ag_mount_attempt_id r) then replace r [U_mount_attempt_id None] else mret r
  else
    match existing with
    | Some e =>
        if is_set (ag_mount_attempt_id e) && negb (bool_decide (ag_mount_attempt_id r = ag_mount_attempt_id e))
        then replace r [U_mount_attempt_id (ag_mount_attempt_id e)] else mret r
    | None => mret r
    end.

Section attach.
Context `{Clock} `{FleetConfig}.
Definition attach_runtime (a : AttachArgs) : Fl AgentRuntime :=
  spec ← st_lift (spec_for (at_agent_name a));
  existing ← get (at_agent_name a);
  timestamp ← fl_now;
  runtime ← st_lift (runtime_post_init (attached_runtime existing spec fc_project_id timestamp a));
  runtime ← st_lift (resolved_mount_attempt_runtime existing runtime);
  upsert_authority runtime.
(** [RuntimeService.attach]; [generation] is the generation of the daemon. *)
Definition with_generation (a : AttachArgs) (generation : option Z) : AttachArgs :=
  mkAttach (at_agent_name a) (at_workspace_path a) (at_backend_type a) (at_pid a) (at_runtime_ref a) (at_session_ref a) (at_health a)
    (at_provider a) (at_runtime_root a) (at_runtime_pid a) (at_terminal_backend a) (at_pane_id a) (at_active_pane_id a)
    (at_pane_title_marker a) (at_pane_state a) (at_tmux_socket_name a) (at_tmux_socket_path a) (at_tmux_window_name a)
    (at_tmux_window_id a) (at_session_file a) (at_session_id a) (at_slot_key a) (at_window_id a) (at_workspace_epoch a)
    (at_lifecycle_state a) (match at_daemon_generation a with Some g => Some g | None => generation end) (at_managed_by a)
    (at_binding_source a).
Definition attach (generation : option Z) (a : AttachArgs) : Fl AgentRuntime := attach_runtime (with_generation a generation).
Definition attempt_of (r : option AgentRuntime) : option string := match r with Some r => ag_mount_attempt_id r | None => None end.
Definition attach_mount_attempt_authority (generation : option Z) (attempt_id : string) (a : AttachArgs)
    : Fl (option AgentRuntime * bool) :=
  current ← get (at_agent_name a);
  if negb (bool_decide ((attempt_of current) = Some attempt_id)) then mret (current, false)
  else
    runtime ← attach generation a;
    refreshed ← get (at_agent_name a);
    if negb (bool_decide ((attempt_of refreshed) = Some attempt_id)) then mret (refreshed, false)
    else mret (Some runtime, true).
End attach.
