(* ===== verification/RuntimeService.v ===== *)
(** * The runtime service

    [ccbd/services/runtime.py] with [runtime_runtime/refresh.py] and
    [restore_runtime]: who changes the runtime of an agent, and how: new
    bindings, patches of its state, attempts to mount it, and restoring it. *)
From stdpp Require Import pretty.
From S2P Require Import Prelude PyValue Names AgentModels MailboxKernel AgentRuntimes AgentRegistry RuntimeAttach.
Open Scope string_scope.
Open Scope list_scope.
Open Scope Z_scope.

(** [uuid4().hex]. *)
Class FullUuids := uuid_hex : nat → string.
Definition draw_id `{FullUuids} : Fl string := λ f,
  (Ok (uuid_hex (fl_ids f)), mkFleet (fl_cache f) (fl_files f) (fl_events f) (fl_ticks f) (S (fl_ids f))).

(** What a session of the provider says of the process behind it. *)
Record ProviderRuntimeFacts := mkFacts {
  pf_runtime_ref : option string;
  pf_session_ref : option string;
  pf_runtime_root : option string;
  pf_runtime_pid : option Z;
  pf_terminal_backend : option string;
  pf_pane_id : option string;
  pf_pane_title_marker : option string;
  pf_pane_state : option string;
  pf_tmux_socket_name : option string;
  pf_tmux_socket_path : option string;
  pf_session_file : option string;
  pf_session_id : option string
}.
(** A session: its pane, the pane after [ensure_pane], its facts when it is
    seen through a pane. *)
Record ProviderSession := mkSession {
  ps_pane_id : option string;
  ps_ensured_pane : option string;
  ps_facts : option string → ProviderRuntimeFacts
}.
(** The slot of the agent in the namespace of the project. *)
Record SlotContext := mkSlot { sc_slot_key : string; sc_window_id : option string; sc_workspace_epoch : Z }.
(** What the providers and the namespace answer: whether a provider has session
    bindings, the session of an agent in a workspace, and its slot. *)
Class ProviderWorld := {
  pw_bound : string → bool;
  pw_session : string → string → option ProviderSession;
  pw_slot : AgentRuntime → string → option SlotContext
}.

Section service.
Context `{Clock} `{FleetConfig} `{FullUuids} (generation : option Z).

(** ** Authority *)
Definition runtime_args (r : AgentRuntime) (workspace_path : string) : AttachArgs :=
  mkAttach (ag_agent_name r) workspace_path (ag_backend_type r) (ag_pid r) (ag_runtime_ref r) (ag_session_ref r) (Some (ag_health r))
    (ag_provider r) (ag_runtime_root r) (ag_runtime_pid r) (ag_terminal_backend r) (ag_pane_id r) (ag_active_pane_id r)
    (ag_pane_title_marker r) (ag_pane_state r) (ag_tmux_socket_name r) (ag_tmux_socket_path r) None None (ag_session_file r)
    (ag_session_id r) (ag_slot_key r) (ag_window_id r) (ag_workspace_epoch r) (ag_lifecycle_state r) (ag_daemon_generation r)
    (Some (ag_managed_by r)) (Some (ag_binding_source r)).
(** [overrides] are the fields that are given; [mount_attempt_id] is never one
    of them. *)
Definition mutate_runtime_authority (r : AgentRuntime) (overrides : AttachArgs → AttachArgs) : Fl AgentRuntime :=
  let workspace_path := str_or (or_none (strip (default "" (ag_workspace_path r)))) (fc_workspace_path (ag_agent_name r) None) in
  updated ← attach generation (overrides (runtime_args r workspace_path));
  if bool_decide (ag_mount_attempt_id (ag_authority updated) = ag_mount_attempt_id r) then mret updated
  else candidate ← st_lift (replace updated [U_mount_attempt_id (ag_mount_attempt_id r)]); upsert_authority candidate.
Definition set_daemon_generation (g : option Z) (a : AttachArgs) : AttachArgs :=
  mkAttach (at_agent_name a) (at_workspace_path a) (at_backend_type a) (at_pid a) (at_runtime_ref a) (at_session_ref a) (at_health a)
    (at_provider a) (at_runtime_root a) (at_runtime_pid a) (at_terminal_backend a) (at_pane_id a) (at_active_pane_id a)
    (at_pane_title_marker a) (at_pane_state a) (at_tmux_socket_name a) (at_tmux_socket_path a) (at_tmux_window_name a)
    (at_tmux_window_id a) (at_session_file a) (at_session_id a) (at_slot_key a) (at_window_id a) (at_workspace_epoch a)
    (at_lifecycle_state a) g (at_managed_by a) (at_binding_source a).
Definition adopt_runtime_authority (r : AgentRuntime) (daemon_generation : option Z) : Fl AgentRuntime :=
  mutate_runtime_authority r (set_daemon_generation daemon_generation).

(** ** State *)
Definition update_field (u : RuntimeUpdate) : string :=
  match u with
  | U_state _ => "state" | U_pid _ => "pid" | U_last_seen_at _ => "last_seen_at" | U_queue_depth _ => "queue_depth"
  | U_health _ => "health" | U_active_pane_id _ => "active_pane_id" | U_pane_state _ => "pane_state"
  | U_lifecycle_state _ => "lifecycle_state" | U_desired_state _ => "desired_state" | U_reconcile_state _ => "reconcile_state"
  | U_restart_count _ => "restart_count" | U_last_reconcile_at _ => "last_reconcile_at"
  | U_last_failure_reason _ => "last_failure_reason" | U_workspace_path _ => "workspace_path" | U_backend_type _ => "backend_type"
  | U_provider _ => "provider" | U_daemon_generation _ => "daemon_generation" | U_mount_attempt_id _ => "mount_attempt_id"
  end.
Definition STATE_PATCH_FIELDS : list string :=
  ["state"; "health"; "queue_depth"; "active_pane_id"; "pane_state"; "desired_state"; "reconcile_state"; "restart_count";
   "last_seen_at"; "last_reconcile_at"; "last_failure_reason"; "lifecycle_state"; "pid"; "mount_attempt_id"].
(** The fields given that may not be patched, sorted. *)
Definition unknown_patch_fields (updates : list RuntimeUpdate) : list string :=
  List.filter (λ f, bool_decide (f ∈ update_field <$> updates) && negb (bool_decide (f ∈ STATE_PATCH_FIELDS)))
    ["backend_type"; "daemon_generation"; "provider"; "workspace_path"].
Definition patch_runtime_state (r : AgentRuntime) (updates : list RuntimeUpdate) : Fl AgentRuntime :=
  let unknown := unknown_patch_fields updates in
  _ ← st_lift (raise_if (negb (bool_decide (unknown = []))) (ValueError ("invalid runtime state patch fields: " +:+ join ", " unknown)));
  existing ← get (ag_agent_name r);
  let current := default r existing in
  candidate ← st_lift (replace current updates);
  if bool_decide (candidate = current) then mret current else upsert candidate.

(** ** Mount attempts *)
Definition begin_mount_attempt (r : AgentRuntime) (attempted_at : string) : Fl (AgentRuntime * string) :=
  hex ← draw_id;
  let attempt_id := "mount-" +:+ hex in
  candidate ← st_lift (replace r [U_mount_attempt_id (Some attempt_id); U_last_reconcile_at (Some attempted_at)]);
  started ← upsert_authority candidate;
  mret (started, attempt_id).
Definition finalize_mount_attempt_success (agent_name : string) (attempt_id : option string) (attempted_at : string) (restart_count : Z)
    : Fl (option AgentRuntime * bool) :=
  current ← get agent_name;
  match current with
  | None => mret (None, false)
  | Some c =>
      if negb (bool_decide (ag_mount_attempt_id (ag_authority c) = attempt_id)) then mret (Some c, false)
      else
        let starting := bool_decide (ag_state c = AG_starting) in
        candidate ← st_lift (replace c
          [U_state (if starting then AG_idle else ag_state c); U_reconcile_state (Some "steady"); U_restart_count restart_count;
           U_last_reconcile_at (Some attempted_at); U_last_failure_reason None;
           U_lifecycle_state (if starting then Some "idle" else ag_lifecycle_state c); U_mount_attempt_id None]);
        updated ← upsert_authority candidate;
        mret (Some updated, true)
  end.
Definition finalize_mount_attempt_failure (agent_name : string) (attempt_id : option string) (attempted_at : string) (state : AgentState)
    (health reconcile_state : string) (restart_count : Z) (reason : string) (lifecycle_state : option string)
    : Fl (option AgentRuntime * bool) :=
  current ← get agent_name;
  match current with
  | None => mret (None, false)
  | Some c =>
      if negb (bool_decide (ag_mount_attempt_id (ag_authority c) = attempt_id)) then mret (Some c, false)
      else
        candidate ← st_lift (replace c
          [U_state state; U_health health; U_reconcile_state (Some reconcile_state); U_restart_count restart_count;
           U_last_reconcile_at (Some attempted_at); U_last_failure_reason (Some reason); U_lifecycle_state lifecycle_state;
           U_mount_attempt_id None]);
        updated ← upsert_authority candidate;
        mret (Some updated, true)
  end.

(** ** Refreshing the binding *)
Definition attach_missing_session (r : AgentRuntime) (agent_name workspace_path : string) : Fl AgentRuntime :=
  attach generation (mkAttach agent_name workspace_path (ag_backend_type r) (ag_pid r) (ag_runtime_ref r) (ag_session_ref r)
    (Some "session-missing") None None None None None None None None None None None None None None
    (truthy_or (ag_slot_key r) (Some agent_name)) (ag_window_id r) (ag_workspace_epoch r) None None None (Some (ag_binding_source r))).
Definition attach_healthy_runtime (r : AgentRuntime) (agent_name workspace_path provider : string) (facts : ProviderRuntimeFacts)
    (active_pane_id slot_key window_id : option string) (workspace_epoch : option Z) : Fl AgentRuntime :=
  attach generation (mkAttach agent_name workspace_path (ag_backend_type r) (ag_pid r) (truthy_or (pf_runtime_ref facts) (ag_runtime_ref r))
    (truthy_or (pf_session_ref facts) (ag_session_ref r)) (Some "healthy") (Some provider) (pf_runtime_root facts) (pf_runtime_pid facts)
    (pf_terminal_backend facts) (pf_pane_id facts) active_pane_id (pf_pane_title_marker facts) (pf_pane_state facts)
    (pf_tmux_socket_name facts) (pf_tmux_socket_path facts) None None (pf_session_file facts) (pf_session_id facts) slot_key window_id
    workspace_epoch None None None (Some (ag_binding_source r))).
Definition resolve_pane_id (session : ProviderSession) (recover : bool) : option string :=
  normalized_text (if recover then ps_ensured_pane session else ps_pane_id session).
Definition refresh_provider_binding `{ProviderWorld} (agent_name : string) (recover : bool) : Fl (option AgentRuntime) :=
  runtime ← get agent_name;
  match runtime with
  | None => mret None
  | Some r =>
      let workspace_path := strip (default "" (ag_workspace_path (ag_authority r))) in
      if bool_decide (ag_binding_source r = RB_external_attach) || (workspace_path =ˢ "") then mret (Some r)
      else
        spec ← st_lift (spec_for agent_name);
        if negb (pw_bound (as_provider spec)) then mret (Some r)
        else
          let slot := if recover then pw_slot r agent_name else None in
          match pw_session workspace_path agent_name with
          | None => r' ← attach_missing_session r agent_name workspace_path; mret (Some r')
          | Some session =>
              let pane_id := resolve_pane_id session recover in
              if recover && negb (is_set pane_id) then mret (Some r)
              else
                r' ← attach_healthy_runtime r agent_name workspace_path (as_provider spec) (ps_facts session pane_id) pane_id
                       (match slot with Some c => Some (sc_slot_key c) | None => truthy_or (ag_slot_key r) (Some agent_name) end)
                       (match slot with Some c => sc_window_id c | None => ag_window_id r end)
                       (match slot with Some c => Some (sc_workspace_epoch c) | None => ag_workspace_epoch r end);
                mret (Some r')
          end
  end.
End service.
