(* ===== verification/MailboxQueue.v ===== *)
(** * The event queue of a mailbox

    Pure facts on [latest_rows] and [pending_of]: what one more row in the
    inbox log does to the list of latest events and to the pending queue. *)
From S2P Require Import Prelude PyValue Names MailboxModels MailboxKernel.
Open Scope string_scope.
Open Scope list_scope.

Abbreviation id_is i := (λ r : InboundEventRecord, ie_inbound_event_id r =ˢ i).
Abbreviation same_id r i := (ie_inbound_event_id r = i).

(** Replace the event with [u]'s id by [u]. *)
Definition upd (u : InboundEventRecord) (l : list InboundEventRecord) : list InboundEventRecord :=
  (λ x, if ie_inbound_event_id x =ˢ ie_inbound_event_id u then u else x) <$> l.

(** Remove the event with id [i]. *)
Definition drop_id (i : string) (l : list InboundEventRecord) : list InboundEventRecord :=
  List.filter (λ x, ie_inbound_event_id x ≠ˢ i) l.

Arguments upd : simpl never.
Arguments drop_id : simpl never.

Definition queue (rows : list InboundEventRecord) : list InboundEventRecord :=
  pending_of None (latest_rows rows).

Section upd.
Implicit Types (l : list InboundEventRecord) (u e : InboundEventRecord).

Lemma drop_id_cons i x l :
  drop_id i (x :: l) = if decide (ie_inbound_event_id x = i) then drop_id i l else x :: drop_id i l.
Proof. unfold drop_id. cbn. case_bool_decide; by case_decide. Qed.

Lemma upd_ids u l : ie_inbound_event_id <$> upd u l = ie_inbound_event_id <$> l.
Proof.
  unfold upd. induction l as [|x l IH]; [done|]. cbn.
  case_bool_decide as E; cbn; [rewrite E|]; by f_equal.
Qed.

Lemma upd_notin u l : ie_inbound_event_id u ∉ ie_inbound_event_id <$> l → upd u l = l.
Proof.
  unfold upd. induction l as [|x l IH]; [done|]. cbn.
  rewrite not_elem_of_cons. intros [Hx Hl].
  rewrite bool_decide_eq_false_2 by congruence. by rewrite IH.
Qed.

Lemma upd_cons u x l :
  upd u (x :: l) = (if ie_inbound_event_id x =ˢ ie_inbound_event_id u then u else x) :: upd u l.
Proof. done. Qed.

Lemma length_upd u l : length (upd u l) = length l.
Proof. apply length_fmap. Qed.

Lemma head_upd u l :
  head (upd u l) =
  (λ x, if ie_inbound_event_id x =ˢ ie_inbound_event_id u then u else x) <$> head l.
Proof. by destruct l. Qed.

Lemma elem_of_upd u l x :
  x ∈ upd u l → x = u ∨ (x ∈ l ∧ ie_inbound_event_id x ≠ ie_inbound_event_id u).
Proof.
  intros (y & -> & Hy)%list_elem_of_fmap. cbn. case_bool_decide; auto.
Qed.

Lemma elem_of_drop_id i l x : x ∈ drop_id i l ↔ x ∈ l ∧ ie_inbound_event_id x ≠ i.
Proof.
  unfold drop_id. rewrite !list_elem_of_In, List.filter_In, negb_true_iff, bool_decide_eq_false.
  done.
Qed.

Lemma drop_id_notin i l : i ∉ ie_inbound_event_id <$> l → drop_id i l = l.
Proof.
  induction l as [|x l IH]; [done|]. cbn.
  rewrite not_elem_of_cons, drop_id_cons. intros [Hx Hl].
  rewrite decide_False by congruence. by rewrite IH.
Qed.

(** Two events with the same id in a list without duplicate ids are equal. *)
Lemma ids_unique l x y :
  NoDup (ie_inbound_event_id <$> l) → x ∈ l → y ∈ l →
  ie_inbound_event_id x = ie_inbound_event_id y → x = y.
Proof.
  induction l as [|z l IH]; [by intros _ ?%elem_of_nil|]. cbn.
  intros [Hz Hl]%NoDup_cons Hx Hy E.
  apply elem_of_cons in Hx as [->|Hx], Hy as [->|Hy]; auto.
  - contradict Hz. rewrite E. by apply list_elem_of_fmap_2.
  - contradict Hz. rewrite <- E. by apply list_elem_of_fmap_2.
Qed.

Lemma filter_ids (p : InboundEventRecord → bool) l :
  NoDup (ie_inbound_event_id <$> l) → NoDup (ie_inbound_event_id <$> List.filter p l).
Proof.
  induction l as [|x l IH]; [done|]. cbn. intros [Hx Hl]%NoDup_cons.
  destruct (p x); [|by apply IH]. cbn. apply NoDup_cons. split; [|by apply IH].
  contradict Hx. apply list_elem_of_fmap in Hx as (y & -> & Hy).
  apply list_elem_of_fmap_2. rewrite list_elem_of_In in *. by apply List.filter_In in Hy as [? _].
Qed.

(** A pending event that becomes [u], still pending: updated in place. *)
Lemma filter_upd_kept (p : InboundEventRecord → bool) u e l :
  NoDup (ie_inbound_event_id <$> l) → e ∈ l →
  ie_inbound_event_id e = ie_inbound_event_id u → p e = true → p u = true →
  List.filter p (upd u l) = upd u (List.filter p l).
Proof.
  intros Hnd He Hid Hpe Hpu.
  assert (∀ x, x ∈ l → ie_inbound_event_id x = ie_inbound_event_id u → p x = true) as Hall.
  { intros x Hx E. by rewrite (ids_unique l x e) by congruence. }
  clear -Hall Hpu. unfold upd. induction l as [|x l IH]; [done|]. cbn.
  assert (∀ y, y ∈ l → ie_inbound_event_id y = ie_inbound_event_id u → p y = true) as Hl
    by (intros; apply Hall; [by right|done]).
  case_bool_decide as E; cbn.
  - rewrite Hpu, (Hall x) by (done || by left). cbn. rewrite bool_decide_eq_true_2 by done.
    f_equal. by apply IH.
  - destruct (p x); cbn; [rewrite bool_decide_eq_false_2 by done; f_equal|]; by apply IH.
Qed.

(** A pending event that becomes [u], no longer pending: dropped. *)
Lemma filter_upd_dropped (p : InboundEventRecord → bool) u l :
  p u = false →
  List.filter p (upd u l) = drop_id (ie_inbound_event_id u) (List.filter p l).
Proof.
  intros Hpu. unfold upd, drop_id. induction l as [|x l IH]; [done|]. cbn.
  case_bool_decide as E; cbn.
  - rewrite Hpu. destruct (p x); cbn; [rewrite bool_decide_eq_true_2 by done; cbn|]; apply IH.
  - destruct (p x); cbn; [rewrite bool_decide_eq_false_2 by done; cbn; f_equal|]; apply IH.
Qed.

Lemma length_drop_id e l :
  NoDup (ie_inbound_event_id <$> l) → e ∈ l →
  length l = S (length (drop_id (ie_inbound_event_id e) l)).
Proof.
  induction l as [|x l IH]; [by intros _ ?%elem_of_nil|]. cbn. rewrite drop_id_cons.
  intros [Hx Hl]%NoDup_cons [->|He]%elem_of_cons.
  - rewrite decide_True by done. by rewrite (drop_id_notin _ l).
  - rewrite decide_False; [cbn; f_equal; by apply IH|].
    contradict Hx. rewrite Hx. by apply list_elem_of_fmap_2.
Qed.

Lemma head_drop_id i l e :
  head l = Some e → ie_inbound_event_id e ≠ i → head (drop_id i l) = Some e.
Proof.
  destruct l as [|x l]; [done|]. intros [= ->] E.
  by rewrite drop_id_cons, decide_False by done.
Qed.
End upd.

(** ** [count_replies] *)
Section count_replies.
Implicit Types (l : list InboundEventRecord) (u e : InboundEventRecord).
Open Scope Z_scope.

Definition reply_weight (e : InboundEventRecord) : Z :=
  if bool_decide (ie_event_type e = ET_task_reply) then 1 else 0.

Lemma count_replies_cons e l : count_replies (e :: l) = reply_weight e + count_replies l.
Proof.
  unfold count_replies, reply_weight. cbn. case_bool_decide; cbn; lia.
Qed.

Lemma count_replies_app l1 l2 : count_replies (l1 ++ l2) = count_replies l1 + count_replies l2.
Proof.
  induction l1 as [|x l1 IH]; [done|]. cbn [app]. rewrite !count_replies_cons, IH. lia.
Qed.

Lemma count_replies_nonneg l : 0 <= count_replies l.
Proof. unfold count_replies. lia. Qed.

Lemma count_replies_upd u l :
  (∀ x, x ∈ l → ie_inbound_event_id x = ie_inbound_event_id u →
        ie_event_type x = ie_event_type u) →
  count_replies (upd u l) = count_replies l.
Proof.
  unfold upd. induction l as [|x l IH]; intros H; [done|]. cbn -[count_replies].
  rewrite !count_replies_cons, IH by (intros; apply H; [by right|done]).
  case_bool_decide as E; [|done]. unfold reply_weight. by rewrite (H x) by (done || by left).
Qed.

Lemma count_replies_drop e l :
  NoDup (ie_inbound_event_id <$> l) → e ∈ l →
  count_replies (drop_id (ie_inbound_event_id e) l) = count_replies l - reply_weight e.
Proof.
  induction l as [|x l IH]; [by intros _ ?%elem_of_nil|].
  rewrite drop_id_cons, fmap_cons.
  intros [Hx Hl]%NoDup_cons [->|He]%elem_of_cons.
  - rewrite decide_True, (drop_id_notin _ l), count_replies_cons by done. lia.
  - rewrite decide_False; [rewrite !count_replies_cons, IH by done; lia|].
    contradict Hx. rewrite Hx. by apply list_elem_of_fmap_2.
Qed.
End count_replies.

(** ** [latest_rows] *)
Section latest_rows.
Implicit Types (rows : list InboundEventRecord) (r e u : InboundEventRecord).

Let acc rows := foldl latest_step (∅, []) rows.

Lemma latest_rows_acc rows : latest_rows rows = omap (λ i, (acc rows).1 !! i) (acc rows).2.
Proof. unfold latest_rows, acc. by destruct (foldl _ _ rows). Qed.

Lemma acc_snoc rows r : acc (rows ++ [r]) = latest_step (acc rows) r.
Proof. unfold acc. by rewrite foldl_app. Qed.

Lemma acc_lookup rows i : (acc rows).1 !! i = find_last (id_is i) rows.
Proof.
  induction rows as [|r rows IH] using rev_ind; [done|].
  rewrite acc_snoc, find_last_snoc. destruct (acc rows) as [latest order]. cbn in *.
  rewrite lookup_insert. case_decide; case_bool_decide; congruence.
Qed.

Lemma acc_order rows :
  NoDup (acc rows).2 ∧ ∀ i, i ∈ (acc rows).2 ↔ is_Some ((acc rows).1 !! i).
Proof.
  induction rows as [|r rows [Hnd Hin]] using rev_ind.
  { split; [constructor|]. intros i. cbn. split; [by intros ?%elem_of_nil|by intros []]. }
  rewrite acc_snoc. destruct (acc rows) as [latest order]. cbn in *.
  split.
  - case_bool_decide as E; [done|]. apply NoDup_app. split_and!; [done| |apply NoDup_singleton].
    intros x Hx ->%list_elem_of_singleton. by apply E, Hin.
  - intros i. rewrite lookup_insert. case_decide as E.
    + subst i. split; [by eauto|]. intros _. case_bool_decide as E; [by apply Hin|].
      apply elem_of_app. right. by apply list_elem_of_singleton.
    + rewrite <- (Hin i). case_bool_decide; [done|].
      rewrite elem_of_app, list_elem_of_singleton. split; [by intros [?| ->]|by left].
Qed.

Lemma latest_rows_ids rows : ie_inbound_event_id <$> latest_rows rows = (acc rows).2.
Proof.
  rewrite latest_rows_acc. destruct (acc_order rows) as [_ Hin].
  assert (∀ i, i ∈ (acc rows).2 → is_Some ((acc rows).1 !! i)) as H by (intros; by apply Hin).
  clear Hin. induction (acc rows).2 as [|i order IH]; [done|]. cbn.
  destruct (H i) as [e He]; [by left|]. rewrite He. cbn. f_equal.
  - rewrite acc_lookup in He. apply find_last_Some in He as [_ ?%bool_decide_eq_true]. done.
  - apply IH. intros. apply H. by right.
Qed.

Lemma latest_rows_NoDup rows : NoDup (ie_inbound_event_id <$> latest_rows rows).
Proof. rewrite latest_rows_ids. apply acc_order. Qed.

(** The latest events are exactly the last rows of their ids. *)
Lemma elem_of_latest_rows rows e :
  e ∈ latest_rows rows ↔ find_last (id_is (ie_inbound_event_id e)) rows = Some e.
Proof.
  rewrite latest_rows_acc, list_elem_of_omap. split.
  - intros (i & _ & H). rewrite acc_lookup in H.
    pose proof (find_last_Some _ _ _ H) as [_ E%bool_decide_eq_true]. by subst i.
  - intros H. exists (ie_inbound_event_id e). rewrite acc_lookup. split; [|done].
    apply acc_order. rewrite acc_lookup, H. eauto.
Qed.

Lemma latest_rows_snoc_new rows r :
  find_last (id_is (ie_inbound_event_id r)) rows = None →
  latest_rows (rows ++ [r]) = latest_rows rows ++ [r].
Proof.
  intros H. rewrite !latest_rows_acc, acc_snoc. pose proof (acc_order rows) as [_ Hin].
  rewrite <- acc_lookup in H. destruct (acc rows) as [latest order]. cbn in *.
  rewrite bool_decide_eq_false_2 by (rewrite H; by intros []).
  rewrite omap_app. cbn. rewrite lookup_insert_eq. f_equal.
  apply list_omap_ext. apply Forall_Forall2_diag, Forall_forall. intros i Hi.
  rewrite lookup_insert_ne; [done|]. intros <-. apply Hin in Hi as [? ?]. congruence.
Qed.

Lemma latest_rows_snoc_old rows r :
  is_Some (find_last (id_is (ie_inbound_event_id r)) rows) →
  latest_rows (rows ++ [r]) = upd r (latest_rows rows).
Proof.
  intros H. rewrite !latest_rows_acc, acc_snoc. rewrite <- acc_lookup in H.
  assert (∀ i e, (acc rows).1 !! i = Some e → ie_inbound_event_id e = i) as Hid.
  { intros i e He. rewrite acc_lookup in He.
    by apply find_last_Some in He as [_ ?%bool_decide_eq_true]. }
  destruct (acc rows) as [latest order]. cbn in *.
  rewrite bool_decide_eq_true_2 by done. unfold upd.
  induction order as [|i order IH]; [done|]. cbn. rewrite lookup_insert. case_decide as E.
  - subst i. destruct (latest !! _) as [e|] eqn:He; [|by destruct H].
    cbn. rewrite (Hid _ _ He), bool_decide_eq_true_2 by done. f_equal. apply IH.
  - destruct (latest !! i) as [e|] eqn:He; [|apply IH].
    cbn. rewrite (Hid _ _ He), bool_decide_eq_false_2 by congruence. f_equal. apply IH.
Qed.
End latest_rows.
