(* ===== verification/MailboxSpec.v ===== *)
(** * The abstract inbox

    What the mailbox kernel promises for one agent: a first-in first-out inbox
    with at most one event in delivery, the head, under a lease whose version
    grows with each claim.  [MailboxRefinement] shows that the kernel, with its
    log, lease file and incrementally maintained summary, implements it. *)
From S2P Require Import Prelude PyValue Names MailboxModels MailboxKernel MailboxQueue.
Open Scope string_scope.
Open Scope list_scope.
Open Scope Z_scope.

(** The latest version of every event in order of arrival; the event whose
    lease is held; the version of the last lease granted. *)
Record inbox := mkInbox {
  ib_events : list InboundEventRecord;
  ib_holder : option string;
  ib_version : Z
}.

Definition ib_queue (ib : inbox) : list InboundEventRecord := pending_of None (ib_events ib).
Definition ib_find (i : string) (ib : inbox) : option InboundEventRecord :=
  List.find (id_is i) (ib_events ib).

Arguments ib_queue : simpl never.
Arguments ib_find : simpl never.

(** The event with a new status and progress. *)
Definition restamp (e : InboundEventRecord) (payload_ref : option string)
    (status : InboundEventStatus) (started finished : option string) : InboundEventRecord :=
  mkEvent (ie_inbound_event_id e) (ie_agent_name e) (ie_event_type e) (ie_message_id e)
    (ie_attempt_id e) payload_ref (ie_priority e) status (ie_created_at e) started finished.

Definition delivered (ts : string) (e : InboundEventRecord) : InboundEventRecord :=
  restamp e (ie_payload_ref e) ES_delivering (Some (str_or (ie_started_at e) ts)) None.
Definition finished (status : InboundEventStatus) (ts : string) (e : InboundEventRecord)
    : InboundEventRecord :=
  restamp e (ie_payload_ref e) status (ie_started_at e) (Some ts).
Definition rewritten (payload_ref : option string) (status : InboundEventStatus)
    (clear_progress : bool) (e : InboundEventRecord) : InboundEventRecord :=
  restamp e payload_ref status (if clear_progress then None else ie_started_at e)
    (if clear_progress then None else ie_finished_at e).

Definition release (i : string) (holder : option string) : option string :=
  if bool_decide (holder = Some i) then None else holder.

(** ** The operations *)
Definition spec_enqueue (e : InboundEventRecord) (ib : inbox) : inbox :=
  mkInbox (ib_events ib ++ [e]) (ib_holder ib) (ib_version ib).

Definition spec_claim (i ts : string) (ib : inbox) : option InboundEventRecord * inbox :=
  match head (ib_queue ib) with
  | Some e =>
      if negb (bool_decide (ie_inbound_event_id e = i)) then (None, ib)
      else if bool_decide (ie_status e = ES_delivering) then (Some e, ib)
      else (Some (delivered ts e),
            mkInbox (upd (delivered ts e) (ib_events ib)) (Some i) (ib_version ib + 1))
  | None => (None, ib)
  end.

Definition spec_claim_next (event_type : option InboundEventType) (ts : string) (ib : inbox)
    : option InboundEventRecord * inbox :=
  match head (ib_queue ib) with
  | Some e =>
      if has_type event_type e && claimable_event_state (ie_status e)
      then spec_claim (ie_inbound_event_id e) ts ib else (None, ib)
  | None => (None, ib)
  end.

Definition spec_finish (i : string) (status : InboundEventStatus) (ts : string) (ib : inbox)
    : option InboundEventRecord * inbox :=
  match ib_find i ib with
  | None => (None, ib)
  | Some e =>
      if is_pending e
      then (Some (finished status ts e),
            mkInbox (upd (finished status ts e) (ib_events ib)) (release i (ib_holder ib))
              (ib_version ib))
      else (Some e, ib)
  end.

Definition spec_ack_reply (i started finished : string) (ib : inbox)
    : option InboundEventRecord * inbox :=
  match head (ib_queue ib) with
  | Some e =>
      if bool_decide (ie_inbound_event_id e = i) && bool_decide (ie_event_type e = ET_task_reply)
      then spec_finish i ES_consumed finished (spec_claim i started ib).2
      else (None, ib)
  | None => (None, ib)
  end.

(** Put an event back in the queue with another payload. *)
Definition spec_requeue (i : string) (payload_ref : option string) (clear_progress : bool)
    (ib : inbox) : option InboundEventRecord * inbox :=
  match ib_find i ib with
  | None => (None, ib)
  | Some e =>
      if is_pending e
      then let u := rewritten payload_ref ES_queued clear_progress e in
           (Some u, mkInbox (upd u (ib_events ib)) (release i (ib_holder ib)) (ib_version ib))
      else (None, ib)
  end.

(** ** Invariant *)
Record inbox_inv (ib : inbox) : Prop := {
  ii_nodup : NoDup (ie_inbound_event_id <$> ib_events ib);
  ii_delivering e : e ∈ ib_queue ib → ie_status e = ES_delivering →
    ib_holder ib = Some (ie_inbound_event_id e);
  ii_holder i : ib_holder ib = Some i →
    ∃ e, head (ib_queue ib) = Some e ∧ ie_inbound_event_id e = i ∧ ie_status e = ES_delivering;
  ii_version : 0 <= ib_version ib
}.

Lemma elem_of_pending e l : e ∈ pending_of None l ↔ e ∈ l ∧ is_pending e = true.
Proof.
  unfold pending_of. rewrite !list_elem_of_In, List.filter_In, andb_true_iff. cbn. tauto.
Qed.

Lemma head_elem {A} (l : list A) x : head l = Some x → x ∈ l.
Proof. destruct l; [done|]. intros [= ->]. by left. Qed.

Lemma terminal_not_pending s : terminal_event_state s = true → ∀ e,
  ie_status e = s → is_pending e = false.
Proof. unfold is_pending. by intros H e ->; rewrite H. Qed.

Lemma pending_status e :
  is_pending e = true ↔ ie_status e = ES_delivering ∨ claimable_event_state (ie_status e) = true.
Proof. unfold is_pending. destruct (ie_status e); vm_compute; intuition congruence. Qed.

Lemma find_id_Some i l e :
  List.find (id_is i) l = Some e → e ∈ l ∧ ie_inbound_event_id e = i.
Proof.
  intros [H1 H2%bool_decide_eq_true]%List.find_some. by rewrite list_elem_of_In.
Qed.

Lemma find_id_In l e :
  NoDup (ie_inbound_event_id <$> l) → e ∈ l →
  List.find (id_is (ie_inbound_event_id e)) l = Some e.
Proof.
  intros Hnd He. destruct (List.find _ l) as [x|] eqn:E.
  - apply find_id_Some in E as [Hx E]. f_equal. by apply (ids_unique l).
  - apply list_elem_of_In, (List.find_none _ _ E) in He as ?%bool_decide_eq_false. done.
Qed.

Section inv.
Implicit Types (ib : inbox) (e u : InboundEventRecord).

Lemma queue_nodup ib : inbox_inv ib → NoDup (ie_inbound_event_id <$> ib_queue ib).
Proof. intros H. apply filter_ids, H. Qed.

Lemma queue_elem ib e : e ∈ ib_queue ib ↔ e ∈ ib_events ib ∧ is_pending e = true.
Proof. apply elem_of_pending. Qed.

Lemma queue_find ib e :
  inbox_inv ib → e ∈ ib_queue ib → ib_find (ie_inbound_event_id e) ib = Some e.
Proof. intros Hi [He _]%queue_elem. apply find_id_In; [apply Hi|done]. Qed.

Lemma find_queue ib i e :
  ib_find i ib = Some e → is_pending e = true → e ∈ ib_queue ib ∧ ie_inbound_event_id e = i.
Proof. intros [He <-]%find_id_Some Hp. split; [by apply queue_elem|done]. Qed.

(** Only the head is ever in delivery. *)
Lemma delivering_is_head ib e :
  inbox_inv ib → e ∈ ib_queue ib → ie_status e = ES_delivering → head (ib_queue ib) = Some e.
Proof.
  intros Hi He Hs. pose proof (ii_delivering _ Hi e He Hs) as Hh.
  apply Hi in Hh as (x & Hx & E & _). rewrite Hx. f_equal.
  apply (ids_unique (ib_queue ib)); auto using queue_nodup, head_elem.
Qed.

Lemma queue_upd_kept events h v u e :
  NoDup (ie_inbound_event_id <$> events) → e ∈ events →
  ie_inbound_event_id u = ie_inbound_event_id e → is_pending e = true → is_pending u = true →
  ib_queue (mkInbox (upd u events) h v) = upd u (pending_of None events).
Proof.
  intros Hnd He Hid Hpe Hpu. unfold ib_queue, pending_of. cbn.
  eapply filter_upd_kept; eauto; cbn; [by rewrite Hpe|by rewrite Hpu].
Qed.

Lemma queue_upd_dropped events h v u :
  is_pending u = false →
  ib_queue (mkInbox (upd u events) h v) =
  drop_id (ie_inbound_event_id u) (pending_of None events).
Proof.
  intros Hpu. unfold ib_queue, pending_of. cbn. apply filter_upd_dropped. by rewrite Hpu.
Qed.

Lemma spec_enqueue_inv e ib :
  inbox_inv ib → ib_find (ie_inbound_event_id e) ib = None → ie_status e = ES_queued →
  inbox_inv (spec_enqueue e ib).
Proof.
  intros Hi Hf Hs.
  assert (ib_queue (spec_enqueue e ib) = ib_queue ib ++ [e]) as Hq.
  { unfold ib_queue, pending_of, spec_enqueue. cbn. rewrite List.filter_app. cbn.
    unfold is_pending. by rewrite Hs. }
  split; rewrite ?Hq; cbn.
  - rewrite fmap_app. apply NoDup_app. split_and!; [apply Hi| |apply NoDup_singleton].
    intros x (y & -> & Hy)%list_elem_of_fmap Hx. apply list_elem_of_singleton in Hx.
    apply list_elem_of_In in Hy.
    apply (List.find_none _ _ Hf) in Hy as ?%bool_decide_eq_false. done.
  - intros x [Hx|Hx]%elem_of_app Hd; [by apply Hi|].
    apply list_elem_of_singleton in Hx as ->. congruence.
  - intros i (x & Hx & ?)%(ii_holder _ Hi). exists x. split; [|done].
    by destruct (ib_queue ib).
  - apply Hi.
Qed.

Lemma spec_claim_inv i ts ib : inbox_inv ib → inbox_inv (spec_claim i ts ib).2.
Proof.
  intros Hi. unfold spec_claim. destruct (head _) as [e|] eqn:Hh; [|done].
  repeat case_bool_decide; cbn; try done. subst i.
  pose proof (head_elem _ _ Hh) as He. pose proof He as [He' Hp]%queue_elem.
  split; cbn.
  - rewrite upd_ids. apply Hi.
  - erewrite queue_upd_kept by (try apply He'; try apply Hi; done). intros x Hx Hd.
    apply elem_of_upd in Hx as [->|[Hx Hne]]; [done|].
    pose proof (delivering_is_head _ _ Hi Hx Hd). congruence.
  - intros i [= <-]. exists (delivered ts e).
    erewrite queue_upd_kept by (try apply He'; try apply Hi; done). rewrite head_upd. unfold ib_queue in Hh. rewrite Hh. cbn.
    by rewrite bool_decide_eq_true_2.
  - pose proof (ii_version _ Hi). lia.
Qed.

(** The head keeps its place when another event is updated or dropped. *)
Lemma holder_kept ib i j :
  inbox_inv ib → release i (ib_holder ib) = Some j → ib_holder ib = Some j ∧ i ≠ j.
Proof. unfold release. case_bool_decide; [done|]. intros _ H'. split; congruence. Qed.

Lemma release_ne i j : j ≠ i → release i (Some j) = Some j.
Proof. intros Hne. unfold release. by rewrite bool_decide_eq_false_2 by congruence. Qed.

Lemma spec_finish_inv i st ts ib :
  inbox_inv ib → terminal_event_state st = true → inbox_inv (spec_finish i st ts ib).2.
Proof.
  intros Hi Hst. unfold spec_finish. destruct (ib_find i ib) as [e|] eqn:Hf; [|done].
  destruct (is_pending e) eqn:Hp; [|done]. cbn.
  pose proof (find_queue _ _ _ Hf Hp) as [He <-].
  assert (is_pending (finished st ts e) = false) as Hp' by by apply (terminal_not_pending st).
  split; cbn.
  - rewrite upd_ids. apply Hi.
  - rewrite queue_upd_dropped by done. intros x [Hx Hne]%elem_of_drop_id Hd.
    rewrite (ii_delivering _ Hi x) by done. by apply release_ne.
  - intros j [Hj Hne]%holder_kept; [|done].
    apply Hi in Hj as (x & Hx & <- & Hd). exists x. split_and!; [|done|done].
    rewrite queue_upd_dropped by done. by apply head_drop_id.
  - apply Hi.
Qed.

Lemma spec_requeue_inv i pr clr ib :
  inbox_inv ib → inbox_inv (spec_requeue i pr clr ib).2.
Proof.
  intros Hi. unfold spec_requeue. destruct (ib_find i ib) as [e|] eqn:Hf; [|done].
  destruct (is_pending e) eqn:Hp; [|done]. cbn.
  pose proof (find_queue _ _ _ Hf Hp) as [He <-]. pose proof He as [He' _]%queue_elem.
  split; cbn.
  - rewrite upd_ids. apply Hi.
  - erewrite queue_upd_kept by (try apply He'; try apply Hi; done).
    intros x [->|[Hx Hne]]%elem_of_upd Hd; [done|].
    rewrite (ii_delivering _ Hi x) by done. by apply release_ne.
  - intros j [Hj Hne]%holder_kept; [|done].
    apply Hi in Hj as (x & Hx & <- & Hd). exists x. split_and!; [|done|done].
    erewrite queue_upd_kept by (try apply He'; try apply Hi; done). rewrite head_upd. unfold ib_queue in Hx. rewrite Hx. cbn.
    by rewrite bool_decide_eq_false_2.
  - apply Hi.
Qed.

Lemma spec_ack_reply_inv i s f ib : inbox_inv ib → inbox_inv (spec_ack_reply i s f ib).2.
Proof.
  intros Hi. unfold spec_ack_reply. destruct (head _); [|done].
  destruct (_ && _); [|done]. apply spec_finish_inv; [by apply spec_claim_inv|done].
Qed.

Lemma spec_claim_next_inv ty ts ib : inbox_inv ib → inbox_inv (spec_claim_next ty ts ib).2.
Proof.
  intros Hi. unfold spec_claim_next. destruct (head _); [|done].
  destruct (_ && _); [by apply spec_claim_inv|done].
Qed.

(** Claiming, then finishing, the head of an idle queue. *)
Lemma spec_claim_next_head ib e q ts :
  inbox_inv ib → ib_queue ib = e :: q → ib_holder ib = None →
  (spec_claim_next None ts ib).1 = Some (delivered ts e) ∧
  ib_queue (spec_claim_next None ts ib).2 = delivered ts e :: q ∧
  ib_holder (spec_claim_next None ts ib).2 = Some (ie_inbound_event_id e).
Proof.
  intros Hi Hq Hh. assert (e ∈ ib_queue ib) as He by (rewrite Hq; by left).
  pose proof He as [Hev Hp]%queue_elem.
  assert (ie_status e ≠ ES_delivering) as Hnd
    by (intros Hd; pose proof (ii_delivering _ Hi e He Hd); congruence).
  assert (claimable_event_state (ie_status e) = true) as Hc by (by apply pending_status in Hp as [|]).
  unfold spec_claim_next, spec_claim. rewrite Hq. cbn [head has_type andb].
  rewrite Hc, bool_decide_eq_true_2, bool_decide_eq_false_2 by done. cbn [fst snd negb ib_holder].
  split_and!; [done| |done].
  erewrite queue_upd_kept by (try apply Hi; try apply Hev; done).
  change (pending_of None (ib_events ib)) with (ib_queue ib). rewrite Hq, upd_cons.
  pose proof (queue_nodup _ Hi) as Hn. rewrite Hq in Hn. apply NoDup_cons in Hn as [Hn _].
  rewrite bool_decide_eq_true_2 by done. by rewrite upd_notin.
Qed.

Lemma spec_finish_head ib e q st ts :
  inbox_inv ib → ib_queue ib = e :: q → ib_holder ib = Some (ie_inbound_event_id e) →
  terminal_event_state st = true →
  ib_queue (spec_finish (ie_inbound_event_id e) st ts ib).2 = q ∧
  ib_holder (spec_finish (ie_inbound_event_id e) st ts ib).2 = None.
Proof.
  intros Hi Hq Hh Hst. assert (e ∈ ib_queue ib) as He by (rewrite Hq; by left).
  pose proof He as [_ Hp]%queue_elem. pose proof (queue_nodup _ Hi) as Hn.
  unfold spec_finish. rewrite (queue_find _ _ Hi He), Hp, Hh. cbn [snd ib_holder]. split.
  - rewrite queue_upd_dropped by by apply (terminal_not_pending st).
    change (pending_of None (ib_events ib)) with (ib_queue ib). rewrite Hq in *.
    apply NoDup_cons in Hn as [Hn _]. cbn [ie_inbound_event_id finished restamp].
    rewrite drop_id_cons, decide_True by done. by apply drop_id_notin.
  - unfold release. by rewrite bool_decide_eq_true_2.
Qed.
End inv.

#[export] Hint Resolve spec_enqueue_inv spec_claim_inv spec_claim_next_inv spec_finish_inv
  spec_requeue_inv spec_ack_reply_inv : ccb.
