(* ===== verification/MailboxRefinement.v ===== *)
(** * The kernel implements the abstract inbox

    For one owner [a]: what each store access does, the invariant that ties the
    inbox log, the lease file and [mailbox.json] together, and for each
    transition of the kernel that it returns what the operation of
    [MailboxSpec] returns, leaves its state, keeps the invariant and leaves
    the other agents alone. *)
From S2P Require Import Prelude PyValue Names MailboxModels MailboxKernel MailboxQueue MailboxSpec.
Open Scope string_scope.
Open Scope list_scope.
Open Scope Z_scope.

(** The abstract inbox of [a] in a kernel state. *)
Definition lease_version_of (m : option MailboxRecord) (l : option DeliveryLease) : Z :=
  match l with
  | Some l => dl_lease_version l
  | None => match m with Some m => mb_lease_version m | None => 0 end
  end.

Definition inbox_of (k : kernel) (a : string) : inbox :=
  mkInbox (latest_rows (rows_of k a)) (dl_inbound_event_id <$> k_lease k !! a)
    (lease_version_of (k_mailbox k !! a) (k_lease k !! a)).

(** What [mailbox.json] must say about an inbox. *)
Record summary_ok (m : MailboxRecord) (ib : inbox) : Prop := {
  so_depth : mb_queue_depth m = Z.of_nat (length (ib_queue ib));
  so_replies : mb_pending_reply_count m = count_replies (ib_queue ib);
  so_head : head_of_mailbox m = summary_head_from_event (head (ib_queue ib));
  so_active : mb_active_inbound_event_id m = ib_holder ib;
  so_state : mb_mailbox_state m =
    derive_mailbox_state (bool_decide (is_Some (ib_holder ib))) (mb_queue_depth m);
  so_version : mb_lease_version m = ib_version ib
}.

(** The files hold valid records of their owner; a lease on file is acquired. *)
Record files_ok (k : kernel) (a : string) : Prop := {
  fo_rows r : r ∈ rows_of k a → normalize_inbound_event_record r = Ok r ∧ ie_agent_name r = a;
  fo_mailbox m : k_mailbox k !! a = Some m →
    normalize_mailbox_record m = Ok m ∧ mb_agent_name m = a;
  fo_lease l : k_lease k !! a = Some l →
    normalize_delivery_lease l = Ok l ∧ dl_agent_name l = a ∧ dl_lease_state l = LS_acquired
}.

Record agent_inv (k : kernel) (a : string) : Prop := {
  ai_files : files_ok k a;
  ai_inbox : inbox_inv (inbox_of k a);
  ai_summary : match k_mailbox k !! a with
               | Some m => summary_ok m (inbox_of k a)
               | None => rows_of k a = [] ∧ k_lease k !! a = None
               end
}.

(** The files of the other agents are untouched. *)
Definition same_but (a : string) (k k' : kernel) : Prop :=
  ∀ b, b ≠ a → k_inbound k' !! b = k_inbound k !! b ∧
               k_mailbox k' !! b = k_mailbox k !! b ∧ k_lease k' !! b = k_lease k !! b.

(** A timestamp argument is absent, empty or not blank. *)
Definition ts_ok (t : option string) : Prop := truthy t = true → strip (default "" t) ≠ "".

Definition set_ticks (k : kernel) (n : nat) : kernel :=
  mkKernel (k_inbound k) (k_mailbox k) (k_lease k) n.

Lemma rows_put_rows k a rows : rows_of (put_rows k a rows) a = rows.
Proof. unfold rows_of. cbn. by rewrite lookup_insert_eq. Qed.
Lemma rows_put_rows_ne k a b rows : b ≠ a → rows_of (put_rows k a rows) b = rows_of k b.
Proof. intros. unfold rows_of. cbn. by rewrite lookup_insert_ne. Qed.

Lemma agent_inv_frame a b k k' : same_but a k k' → b ≠ a → agent_inv k b → agent_inv k' b.
Proof.
  intros Hs Hb [[Hr Hm Hl] Hi Hsum]. destruct (Hs b Hb) as (E1 & E2 & E3).
  assert (rows_of k' b = rows_of k b) as Er by (unfold rows_of; by rewrite E1).
  assert (inbox_of k' b = inbox_of k b) as Ei by (unfold inbox_of; by rewrite Er, E2, E3).
  split; [split|..]; rewrite ?Er, ?E2, ?E3, ?Ei; auto.
Qed.

Lemma same_but_refl a k : same_but a k k.
Proof. by intros b _. Qed.
Lemma same_but_trans a k1 k2 k3 : same_but a k1 k2 → same_but a k2 k3 → same_but a k1 k3.
Proof. intros H1 H2 b Hb. destruct (H1 b Hb) as (?&?&?), (H2 b Hb) as (?&?&?). split_and!; congruence. Qed.
#[export] Hint Resolve same_but_refl : ccb.

(** Computations of the kernel are evaluated step by step. *)
Ltac kstep H := rewrite (st_bind_ok _ _ _ _ _ H).
Ltac kgets := rewrite ?st_gets_bind, ?st_modify_bind; cbv beta.

(** The lookups of a state built by writes at one key. *)
Ltac klook := cbn [k_inbound k_mailbox k_lease k_ticks put_rows put_mailbox put_lease drop_lease
  set_ticks]; rewrite ?lookup_insert_eq, ?lookup_delete_eq.

(** How the bureau delivers an event: the row, then the summary. *)
Definition enqueue_event `{Clock} (agent_name : string) (record : InboundEventRecord)
    (pending_reply_delta : Z) (updated_at : option string) : K MailboxRecord :=
  _ ← inbound_append record;
  apply_incremental_summary_update agent_name 1 pending_reply_delta None None None updated_at.

Section owner.
Context `{Clock} (Hclock : ∀ n, strip (clock_at n) ≠ "").
Context (a : string) (Ha : normalize_mailbox_owner_name (Some a) = Ok a).

Lemma owner_eq k : owner a k = (Ok a, k).
Proof. unfold owner, st_lift. by rewrite Ha. Qed.

Lemma mailbox_load_eq k : mailbox_load a k = (Ok (k_mailbox k !! a), k).
Proof. unfold mailbox_load. kstep (owner_eq k). done. Qed.
Lemma lease_load_eq k : lease_load a k = (Ok (k_lease k !! a), k).
Proof. unfold lease_load. kstep (owner_eq k). done. Qed.
Lemma list_agent_eq k : list_agent a k = (Ok (rows_of k a), k).
Proof. unfold list_agent. kstep (owner_eq k). done. Qed.
Lemma get_latest_eq i k :
  get_latest a i k = (Ok (find_last (id_is i) (rows_of k a)), k).
Proof. unfold get_latest. kstep (owner_eq k). done. Qed.
Lemma latest_events_eq k : latest_events a k = (Ok (latest_rows (rows_of k a)), k).
Proof. unfold latest_events. kstep (owner_eq k). kstep (list_agent_eq k). done. Qed.
Lemma pending_events_eq ty k :
  pending_events a ty k = (Ok (pending_of ty (latest_rows (rows_of k a))), k).
Proof. unfold pending_events. kstep (latest_events_eq k). done. Qed.
Lemma head_pending_event_eq k :
  head_pending_event a k = (Ok (head (ib_queue (inbox_of k a))), k).
Proof. unfold head_pending_event. kstep (pending_events_eq None k). done. Qed.
Lemma lease_remove_eq k : lease_remove a k = (Ok tt, drop_lease k a).
Proof. unfold lease_remove. kstep (owner_eq k). done. Qed.
Lemma inbound_append_eq r k :
  ie_agent_name r = a → inbound_append r k = (Ok tt, put_rows k a (rows_of k a ++ [r])).
Proof. intros E. unfold inbound_append. rewrite E. kstep (owner_eq k). done. Qed.
Lemma mailbox_save_eq r k :
  mb_agent_name r = a → mailbox_save r k = (Ok tt, put_mailbox k a r).
Proof. intros E. unfold mailbox_save. rewrite E. kstep (owner_eq k). done. Qed.
Lemma lease_save_eq r k :
  dl_agent_name r = a → lease_save r k = (Ok tt, put_lease k a r).
Proof. intros E. unfold lease_save. rewrite E. kstep (owner_eq k). done. Qed.

(** No other writer: the compare-and-save succeeds. *)
Lemma save_summary_record_eq m k :
  mb_agent_name m = a →
  save_summary_record m (mb_summary_version <$> k_mailbox k !! a) k = (Ok m, put_mailbox k a m).
Proof.
  intros E. unfold save_summary_record.
  assert (compare_and_save m (mb_summary_version <$> k_mailbox k !! a) k
          = (Ok true, put_mailbox k a m)) as Hc.
  { unfold compare_and_save. rewrite E. kstep (mailbox_load_eq k).
    rewrite bool_decide_eq_true_2 by done. kstep (mailbox_save_eq m k E). done. }
  kstep Hc. done.
Qed.

Lemma or_clock_eq t k :
  ts_ok t → ∃ ts n, or_clock t k = (Ok ts, set_ticks k n) ∧ strip ts ≠ "" ∧
                    (truthy t = true → t = Some ts).
Proof.
  intros Ht. unfold or_clock, or_none, ts_ok in *. destruct t as [s|]; cbn in *.
  - case_bool_decide; cbn in *.
    + eexists _, _. split; [reflexivity|]. split; [apply Hclock|done].
    + exists s, (k_ticks k). split; [by destruct k|]. split; [by apply Ht|done].
  - eexists _, _. split; [reflexivity|]. split; [apply Hclock|done].
Qed.

Lemma or_clock_some ts k : ts ≠ "" → or_clock (Some ts) k = (Ok ts, k).
Proof. intros. unfold or_clock, or_none. cbn. by rewrite bool_decide_eq_false_2. Qed.

Lemma strip_nonempty s : strip s ≠ "" → s ≠ "".
Proof. by intros Hs ->. Qed.

(** ** The summary record *)
Lemma mailbox_valid_intro r :
  mb_mailbox_id r ≠ "" → mb_agent_name r = a → 0 <= mb_summary_version r →
  strip (mb_summary_source r) ≠ "" → strip (mb_summary_refreshed_at r) ≠ "" →
  0 <= mb_queue_depth r → 0 <= mb_pending_reply_count r → 0 <= mb_lease_version r →
  normalize_mailbox_record r = Ok r.
Proof.
  intros Hid Hag Hv Hs Hr Hq Hp Hl. unfold normalize_mailbox_record.
  rewrite Hag, !bool_decide_eq_false_2, !(proj2 (Z.ltb_ge _ _)) by
    (done || by apply (owner_nonempty (Some a))).
  cbn. rewrite Ha. cbn. destruct r. cbn in *. by subst.
Qed.

Lemma valid_mailbox_bounds r :
  normalize_mailbox_record r = Ok r →
  mb_mailbox_id r ≠ "" ∧ 0 <= mb_summary_version r ∧ 0 <= mb_lease_version r.
Proof.
  unfold normalize_mailbox_record. intros Hv. inv_result.
  repeat match goal with
  | Hx : bool_decide _ = false |- _ => apply bool_decide_eq_false in Hx
  | Hx : (_ <? _) = false |- _ => apply Z.ltb_ge in Hx
  end. by split_and!.
Qed.

Lemma valid_lease_bounds l :
  normalize_delivery_lease l = Ok l → dl_inbound_event_id l ≠ "" ∧ 0 <= dl_lease_version l.
Proof.
  unfold normalize_delivery_lease. intros Hv. inv_result.
  repeat match goal with
  | Hx : bool_decide _ = false |- _ => apply bool_decide_eq_false in Hx
  | Hx : (_ <? _) = false |- _ => apply Z.ltb_ge in Hx
  end. by split_and!.
Qed.

Lemma summary_version_nonneg prior qd pend act h st fin state lv :
  (∀ p, prior = Some p → 0 <= mb_summary_version p) →
  0 <= summary_version_for_record prior qd pend act h st fin state lv.
Proof.
  intros Hp. destruct prior as [p|]; [|done]. specialize (Hp p eq_refl). cbn.
  case_match; lia.
Qed.

Section files.
Context (k : kernel) (Hk : files_ok k a).
Abbreviation prior := (k_mailbox k !! a).
Abbreviation lease := (k_lease k !! a).

Lemma lease_version_nonneg : 0 <= lease_version_of prior lease.
Proof.
  unfold lease_version_of. destruct lease as [l|] eqn:El.
  - apply (fo_lease _ _ Hk) in El as (?%valid_lease_bounds & _). lia.
  - destruct prior as [m|] eqn:Em; [|done].
    apply (fo_mailbox _ _ Hk) in Em as (?%valid_mailbox_bounds & _). lia.
Qed.

Lemma mailbox_summary_valid qd pend act st fin ts src h :
  0 <= qd → 0 <= pend → strip ts ≠ "" → strip src ≠ "" →
  post_init (mailbox_summary a prior lease qd pend act st fin ts src h) =
  Ok (mailbox_summary a prior lease qd pend act st fin ts src h).
Proof.
  intros. pose proof lease_version_nonneg as Hlv.
  assert (∀ m, prior = Some m → mb_mailbox_id m ≠ "" ∧ 0 <= mb_summary_version m) as Hm.
  { intros m Em. apply (fo_mailbox _ _ Hk) in Em as ((? & ? & _)%valid_mailbox_bounds & _).
    done. }
  apply mailbox_valid_intro; cbn; try done; destruct prior as [m|]; try done.
  - by apply Hm.
  - apply summary_version_nonneg. intros m' [= <-]. by apply Hm.
Qed.

(** [active_of_lease] and [lease_acquired] see the holder. *)
Lemma active_of_lease_holder : active_of_lease lease = ib_holder (inbox_of k a).
Proof.
  cbn. destruct lease as [l|] eqn:El; [|done]. cbn.
  apply (fo_lease _ _ Hk) in El as (Hv & _ & ->).
  rewrite (bool_decide_eq_true_2 (LS_acquired = _)) by done.
  apply valid_lease_bounds in Hv as [Hne _]. unfold or_none.
  by rewrite bool_decide_eq_false_2.
Qed.

Lemma lease_acquired_holder :
  lease_acquired lease = bool_decide (is_Some (ib_holder (inbox_of k a))).
Proof.
  cbn. destruct lease as [l|] eqn:El; cbn; [|done].
  apply (fo_lease _ _ Hk) in El as (_ & _ & ->). done.
Qed.

Lemma holder_truthy i : ib_holder (inbox_of k a) = Some i → i ≠ "".
Proof.
  cbn. destruct lease as [l|] eqn:El; cbn; [|done]. intros [= <-].
  apply (fo_lease _ _ Hk) in El as (Hv & _). by apply valid_lease_bounds in Hv as [? _].
Qed.

Lemma mailbox_summary_ok st fin ts src :
  let ib := inbox_of k a in
  summary_ok
    (mailbox_summary a prior lease (Z.of_nat (length (ib_queue ib)))
       (count_replies (ib_queue ib)) (ib_holder ib) st fin ts src
       (summary_head_from_event (head (ib_queue ib)))) ib.
Proof.
  intros ib. split; cbn -[ib]; try done.
  - by destruct (head _) as [[]|].
  - f_equal. pose proof lease_acquired_holder as Hla. fold ib in Hla. rewrite Hla.
    destruct (ib_holder ib) as [i|] eqn:Eh; [|done].
    rewrite bool_decide_eq_true_2 by eauto.
    apply orb_true_iff. right. cbn.
    by rewrite bool_decide_eq_false_2 by by apply holder_truthy.
Qed.
End files.

Definition settled (k k' : kernel) : Prop :=
  agent_inv k' a ∧ inbox_of k' a = inbox_of k a ∧ same_but a k k'.

(** Storing the summary that describes the inbox restores the invariant. *)
Lemma put_summary_settled k st fin ts src :
  files_ok k a → inbox_inv (inbox_of k a) → strip ts ≠ "" → strip src ≠ "" →
  let q := ib_queue (inbox_of k a) in
  settled k (put_mailbox k a
    (mailbox_summary a (k_mailbox k !! a) (k_lease k !! a) (Z.of_nat (length q))
       (count_replies q) (ib_holder (inbox_of k a)) st fin ts src
       (summary_head_from_event (head q)))).
Proof.
  intros Hk Hi Hts Hsrc q.
  set (m := mailbox_summary _ _ _ _ _ _ _ _ _ _ _).
  assert (summary_ok m (inbox_of k a)) as Hm by (by apply mailbox_summary_ok).
  assert (inbox_of (put_mailbox k a m) a = inbox_of k a) as E.
  { unfold inbox_of. klook. f_equal. unfold lease_version_of.
    destruct (k_lease k !! a) eqn:El; [done|].
    apply so_version in Hm. cbn in Hm. by rewrite El in Hm. }
  split_and!; [split; [split|..]|..]; rewrite ?E; klook; try done; try apply Hk.
  - intros m' [= <-]. split; [|done]. apply mailbox_summary_valid; auto; unfold q, count_replies; lia.
  - intros b Hb. cbn. by rewrite lookup_insert_ne.
Qed.

Lemma build_summary_eq k qd pend act st fin ts src h :
  files_ok k a → 0 <= qd → 0 <= pend → strip ts ≠ "" → strip src ≠ "" →
  build_mailbox_summary_record a (k_mailbox k !! a) (k_lease k !! a) qd pend act st fin ts src h k
  = (Ok (mailbox_summary a (k_mailbox k !! a) (k_lease k !! a) qd pend act st fin ts src
           (default (summary_head_from_event (head (ib_queue (inbox_of k a)))) h)), k).
Proof.
  intros Hk Hq Hp Hts Hsrc. unfold build_mailbox_summary_record. destruct h as [h|].
  - kstep (st_ret_eq h k). cbn. unfold st_lift. by rewrite mailbox_summary_valid.
  - assert ((e ← head_pending_event a; mret (summary_head_from_event e)) k =
            (Ok (summary_head_from_event (head (ib_queue (inbox_of k a)))), k)) as E.
    { kstep (head_pending_event_eq k). done. }
    kstep E. unfold st_lift. by rewrite mailbox_summary_valid.
Qed.

(** ** The three ways the summary is stored *)
Lemma project_eq k ts src :
  files_ok k a → strip ts ≠ "" → strip src ≠ "" →
  let q := ib_queue (inbox_of k a) in
  let act := latest_activity (k_mailbox k !! a) (latest_rows (rows_of k a)) in
  project_mailbox_summary a (Some ts) (Some (k_mailbox k !! a)) src k =
  (Ok (mailbox_summary a (k_mailbox k !! a) (k_lease k !! a) (Z.of_nat (length q))
         (count_replies q) (ib_holder (inbox_of k a)) act.1 act.2 ts src
         (summary_head_from_event (head q))), k).
Proof.
  intros Hk Hts Hsrc q act. unfold project_mailbox_summary.
  kstep (owner_eq k). kstep (or_clock_some ts k (strip_nonempty ts Hts)).
  kstep (st_ret_eq (k_mailbox k !! a) k). kstep (lease_load_eq k).
  kstep (pending_events_eq None k). kstep (latest_events_eq k). fold act.
  rewrite (surjective_pairing act), (active_of_lease_holder k Hk).
  rewrite build_summary_eq by (done || unfold count_replies; lia). done.
Qed.

Lemma rebuild_eq k ts :
  files_ok k a → strip ts ≠ "" →
  let q := ib_queue (inbox_of k a) in
  let act := latest_activity (k_mailbox k !! a) (latest_rows (rows_of k a)) in
  let m := mailbox_summary a (k_mailbox k !! a) (k_lease k !! a) (Z.of_nat (length q))
         (count_replies q) (ib_holder (inbox_of k a)) act.1 act.2 ts "history-refresh"
         (summary_head_from_event (head q)) in
  rebuild_mailbox_summary a (Some ts) k = (Ok m, put_mailbox k a m).
Proof.
  intros Hk Hts q act m. unfold rebuild_mailbox_summary.
  kstep (owner_eq k). kstep (mailbox_load_eq k).
  kstep (project_eq k ts "history-refresh" Hk Hts ltac:(done)).
  by rewrite save_summary_record_eq.
Qed.

Lemma refresh_settles {A} (v : A) ts k :
  files_ok k a → inbox_inv (inbox_of k a) → strip ts ≠ "" →
  ∃ k', refresh_and_return a ts v k = (Ok v, k') ∧ settled k k'.
Proof.
  intros Hk Hi Hts. unfold refresh_and_return. kstep (rebuild_eq k ts Hk Hts).
  eexists. split; [reflexivity|]. by apply put_summary_settled.
Qed.

Lemma transition_settles k qd pend act st fin ts src h :
  files_ok k a → inbox_inv (inbox_of k a) → strip ts ≠ "" → strip src ≠ "" →
  let q := ib_queue (inbox_of k a) in
  Z.max 0 qd = Z.of_nat (length q) → Z.max 0 pend = count_replies q →
  act = ib_holder (inbox_of k a) → h = summary_head_from_event (head q) →
  ∃ m k', apply_transition_summary_update a qd pend act st fin ts src (Some h) k = (Ok m, k') ∧
          settled k k'.
Proof.
  intros Hk Hi Hts Hsrc q Hqd Hp Hact Hh. unfold apply_transition_summary_update.
  kstep (owner_eq k). kstep (or_clock_some ts k (strip_nonempty ts Hts)).
  kstep (mailbox_load_eq k). kstep (lease_load_eq k). rewrite Hqd, Hp.
  kstep (build_summary_eq k (Z.of_nat (length q)) (count_replies q) act st fin ts src (Some h) Hk
           ltac:(lia) ltac:(apply count_replies_nonneg) Hts Hsrc).
  rewrite save_summary_record_eq by done. eexists _, _. split; [reflexivity|].
  rewrite Hact. cbn [default from_option id]. rewrite Hh. by apply put_summary_settled.
Qed.

(** Run the transition update of the goal in state [k]. *)
Ltac settle k :=
  match goal with
  |- context [apply_transition_summary_update _ ?qd ?pd ?ac ?s ?f ?t ?src (Some ?h)] =>
    let m := fresh "m" in let k' := fresh "k'" in let Ht := fresh in
    let Hinv := fresh "Hinv" in let Hib := fresh "Hib" in let Hsame := fresh "Hsame" in
    edestruct (transition_settles k qd pd ac s f t src h) as (m & k' & Ht & Hinv & Hib & Hsame);
      [try done..|kstep Ht]
  end.

(** The record of an incremental update, when [prior] described the inbox
    before [dq] events, [dp] of them replies, were added. *)
Lemma incremental_settles k dq dp ts ib0 :
  files_ok k a → inbox_inv (inbox_of k a) → ts_ok ts →
  (match k_mailbox k !! a with
   | Some m => summary_ok m ib0
   | None => ib_queue ib0 = [] ∧ ib_holder ib0 = None
   end) →
  0 <= dq → 0 <= dp →
  let q := ib_queue (inbox_of k a) in
  Z.of_nat (length (ib_queue ib0)) + dq = Z.of_nat (length q) →
  count_replies (ib_queue ib0) + dp = count_replies q →
  ib_holder ib0 = ib_holder (inbox_of k a) →
  ∃ m k', apply_incremental_summary_update a dq dp None None None ts k = (Ok m, k') ∧
          settled k k'.
Proof.
  intros Hk Hi Hts Hm Hdq Hdp q Hq Hc Hh. unfold apply_incremental_summary_update.
  kstep (owner_eq k). destruct (or_clock_eq ts k Hts) as (t & n & Ht & Hne & _).
  kstep Ht. set (k0 := set_ticks k n).
  kstep (mailbox_load_eq k0). kstep (lease_load_eq k0).
  assert (files_ok k0 a) as Hk0 by (destruct Hk; by split).
  assert (inbox_of k0 a = inbox_of k a) as E by done.
  set (st := latest_timestamp _ _). set (fin := latest_timestamp _ _).
  set (qd := Z.max 0 _). set (pend := Z.max 0 _). set (act := match _ with Some _ => _ | None => _ end).
  assert (qd = Z.of_nat (length q) ∧ pend = count_replies q ∧ act = ib_holder (inbox_of k a))
    as (-> & -> & ->).
  { unfold qd, pend, act. pose proof (count_replies_nonneg q). cbn [k_mailbox k0 set_ticks].
    destruct (k_mailbox k !! a) as [m|].
    - rewrite (so_depth _ _ Hm), (so_replies _ _ Hm), (so_active _ _ Hm). split_and!; [lia..|done].
    - destruct Hm as [Hm1 Hm2]. rewrite Hm1 in *. unfold count_replies in *. cbn in *.
      split_and!; [lia..|congruence]. }
  kstep (build_summary_eq k0 (Z.of_nat (length q)) (count_replies q) (ib_holder (inbox_of k a))
           st fin t "incremental-upsert" None Hk0
           ltac:(lia) ltac:(apply count_replies_nonneg) Hne ltac:(done)).
  rewrite save_summary_record_eq by done. eexists _, _. split; [reflexivity|].
  rewrite <- E in Hi. by apply (put_summary_settled k0).
Qed.

(** ** Writing an event *)
Lemma ib_find_get_latest k i :
  find_last (id_is i) (rows_of k a) = ib_find i (inbox_of k a).
Proof.
  unfold ib_find. cbn. destruct (List.find _ _) as [e|] eqn:E.
  - apply find_id_Some in E as [He <-]. by apply elem_of_latest_rows.
  - apply find_last_None. intros r Hr. apply bool_decide_eq_false. intros <-.
    destruct (find_last (id_is (ie_inbound_event_id r)) (rows_of k a)) as [e|] eqn:Ee.
    + pose proof (find_last_Some _ _ _ Ee) as [_ Ei%bool_decide_eq_true].
      rewrite <- Ei in Ee. apply elem_of_latest_rows, list_elem_of_In in Ee.
      apply (List.find_none _ _ E) in Ee as ?%bool_decide_eq_false. done.
    + apply (proj1 (find_last_None _ _) Ee) in Hr as ?%bool_decide_eq_false. done.
Qed.

Lemma find_in_rows k i e :
  ib_find i (inbox_of k a) = Some e → e ∈ rows_of k a ∧ ie_inbound_event_id e = i.
Proof.
  rewrite <- ib_find_get_latest. by intros [? ?%bool_decide_eq_true]%find_last_Some.
Qed.

Lemma restamp_valid e pr st s f :
  normalize_inbound_event_record e = Ok e →
  normalize_inbound_event_record (restamp e pr st s f) = Ok (restamp e pr st s f).
Proof.
  unfold normalize_inbound_event_record. intros Hv. inv_result. cbn -[raise_if].
  replay_guards.
  match goal with Ho : normalize_mailbox_owner_name _ = Ok _ |- _ => rewrite Ho end.
  apply (f_equal ie_agent_name) in Hv. cbn in *. by rewrite Hv.
Qed.

Lemma set_event_eq k e pr st s f :
  normalize_inbound_event_record e = Ok e →
  set_event e pr st s f k = (Ok (restamp e pr st s f), k).
Proof. intros Hv. unfold set_event, st_lift. f_equal. by apply restamp_valid. Qed.

(** One more row for an event that exists. *)
Lemma append_old k e pr st s f :
  files_ok k a → ib_find (ie_inbound_event_id e) (inbox_of k a) = Some e →
  let k' := put_rows k a (rows_of k a ++ [restamp e pr st s f]) in
  inbound_append (restamp e pr st s f) k = (Ok tt, k') ∧ files_ok k' a ∧
  inbox_of k' a =
    mkInbox (upd (restamp e pr st s f) (ib_events (inbox_of k a)))
      (ib_holder (inbox_of k a)) (ib_version (inbox_of k a)).
Proof.
  intros Hk Hf k'. pose proof (find_in_rows _ _ _ Hf) as [He _].
  destruct (fo_rows _ _ Hk e He) as [Hv Ho]. split_and!.
  - by apply inbound_append_eq.
  - destruct Hk as [Hr Hm Hl]. unfold k'. split; [|done|done].
    rewrite rows_put_rows. intros r [Hin|Hin]%elem_of_app; [by apply Hr|].
    apply list_elem_of_singleton in Hin as ->. by split; [apply restamp_valid|].
  - unfold inbox_of, k'. rewrite rows_put_rows. cbn. f_equal. apply latest_rows_snoc_old.
    cbn. rewrite ib_find_get_latest, Hf. eauto.
Qed.

Lemma next_lease_version_eq k :
  next_lease_version a k = (Ok (ib_version (inbox_of k a) + 1), k).
Proof.
  unfold next_lease_version. kstep (owner_eq k). kstep (lease_load_eq k).
  cbn [ib_version inbox_of]. unfold lease_version_of.
  destruct (k_lease k !! a); [done|]. kstep (mailbox_load_eq k). by destruct (k_mailbox k !! a).
Qed.

(** [op] returns [r.1], leaves the inbox [r.2], keeps the invariant. *)
Definition does {V} (op : K V) (r : V * inbox) (k : kernel) : Prop :=
  ∃ k', op k = (Ok r.1, k') ∧ inbox_of k' a = r.2 ∧ agent_inv k' a ∧ same_but a k k'.

(** [op], given the timestamp argument [t], does what [spec] says. *)
Definition refines {V} (t : option string) (op : K V) (spec : string → inbox → V * inbox)
    (k : kernel) : Prop :=
  ∃ ts, (truthy t = true → t = Some ts) ∧ strip ts ≠ "" ∧ does op (spec ts (inbox_of k a)) k.

Lemma inv_ticks k n : agent_inv k a → agent_inv (set_ticks k n) a.
Proof. intros [[Hr Hm Hl] Hi Hs]. by split; [split|..]. Qed.

Lemma same_but_ticks k n k' : same_but a (set_ticks k n) k' → same_but a k k'.
Proof. done. Qed.

Lemma prior_of_nonempty k e :
  agent_inv k a → e ∈ ib_events (inbox_of k a) →
  ∃ p, k_mailbox k !! a = Some p ∧ summary_ok p (inbox_of k a).
Proof.
  intros Hk He. pose proof (ai_summary _ _ Hk) as Hs.
  destruct (k_mailbox k !! a) as [p|]; [by eauto|].
  destruct Hs as [Hs _]. cbn in He. rewrite Hs in He. by apply elem_of_nil in He.
Qed.

Lemma put_lease_files k l :
  files_ok k a → normalize_delivery_lease l = Ok l → dl_agent_name l = a →
  dl_lease_state l = LS_acquired → files_ok (put_lease k a l) a.
Proof.
  intros [Hr Hm Hl] ???. split; klook; [done..|]. by intros ? [= <-].
Qed.

Lemma drop_lease_files k : files_ok k a → files_ok (drop_lease k a) a.
Proof. intros [Hr Hm Hl]. by split; klook. Qed.

Lemma same_but_put_rows k rows : same_but a k (put_rows k a rows).
Proof. intros b Hb. cbn. by rewrite lookup_insert_ne. Qed.
Lemma same_but_put_lease k l : same_but a k (put_lease k a l).
Proof. intros b Hb. cbn. by rewrite lookup_insert_ne. Qed.
Lemma same_but_drop_lease k : same_but a k (drop_lease k a).
Proof. intros b Hb. cbn. by rewrite lookup_delete_ne. Qed.

Lemma lease_valid_intro i v ts :
  i ≠ "" → 0 <= v →
  normalize_delivery_lease (mkLease a i v ts (Some ts) None LS_acquired) =
  Ok (mkLease a i v ts (Some ts) None LS_acquired).
Proof.
  intros Hi Hv. unfold normalize_delivery_lease. cbn -[raise_if].
  rewrite !bool_decide_eq_false_2, (proj2 (Z.ltb_ge _ _)) by
    (done || by apply (owner_nonempty (Some a))).
  cbn. by rewrite Ha.
Qed.

Lemma event_id_nonempty e :
  normalize_inbound_event_record e = Ok e → ie_inbound_event_id e ≠ "".
Proof.
  unfold normalize_inbound_event_record. intros Hv E. inv_result. by rewrite E in *.
Qed.

(** ** [claim] *)
Section claimed.
Context (k : kernel) (e : InboundEventRecord) (ts : string).
Context (Hk : agent_inv k a) (Hh : head (ib_queue (inbox_of k a)) = Some e).
Context (Hnd : ie_status e ≠ ES_delivering) (Hts : strip ts ≠ "").

Let l := mkLease a (ie_inbound_event_id e) (ib_version (inbox_of k a) + 1) ts (Some ts) None
           LS_acquired.
Let k1 := put_rows k a (rows_of k a ++ [delivered ts e]).
Let k2 := put_lease k1 a l.

Lemma claimed_event :
  ib_find (ie_inbound_event_id e) (inbox_of k a) = Some e ∧
  normalize_inbound_event_record e = Ok e ∧ e ∈ ib_events (inbox_of k a) ∧
  is_pending e = true.
Proof.
  pose proof (head_elem _ _ Hh) as [He Hp]%queue_elem.
  assert (ib_find (ie_inbound_event_id e) (inbox_of k a) = Some e) as Hf
    by (apply queue_find; [apply Hk|by apply head_elem]).
  pose proof (find_in_rows _ _ _ Hf) as [Hin _].
  apply (fo_rows _ _ (ai_files _ _ Hk)) in Hin as [Hv _]. done.
Qed.

Lemma claimed_lease : normalize_delivery_lease l = Ok l.
Proof.
  destruct claimed_event as (_ & Hv & _). apply lease_valid_intro.
  - by apply event_id_nonempty.
  - pose proof (ii_version _ (ai_inbox _ _ Hk)). lia.
Qed.

Lemma claimed_append :
  inbound_append (delivered ts e) k = (Ok tt, k1) ∧ files_ok k1 a ∧
  inbox_of k1 a = mkInbox (upd (delivered ts e) (ib_events (inbox_of k a)))
    (ib_holder (inbox_of k a)) (ib_version (inbox_of k a)).
Proof. destruct claimed_event as (Hf & _). apply append_old; [apply Hk|done]. Qed.

Lemma claimed_state :
  files_ok k2 a ∧ inbox_inv (inbox_of k2 a) ∧ same_but a k k2 ∧
  inbox_of k2 a = mkInbox (upd (delivered ts e) (ib_events (inbox_of k a)))
    (Some (ie_inbound_event_id e)) (ib_version (inbox_of k a) + 1) ∧
  ib_queue (inbox_of k2 a) = upd (delivered ts e) (ib_queue (inbox_of k a)).
Proof.
  destruct claimed_append as (_ & Hk1 & Hib1), claimed_event as (_ & _ & He & Hp).
  assert (inbox_of k2 a = mkInbox (upd (delivered ts e) (ib_events (inbox_of k a)))
    (Some (ie_inbound_event_id e)) (ib_version (inbox_of k a) + 1)) as Hib2.
  { transitivity (mkInbox (ib_events (inbox_of k1 a)) (Some (ie_inbound_event_id e))
                    (ib_version (inbox_of k a) + 1)); [|by rewrite Hib1].
    unfold inbox_of at 1, k2. klook. done. }
  split_and!; [| | |done|].
  - apply put_lease_files; [done|apply claimed_lease|done|done].
  - pose proof (spec_claim_inv (ie_inbound_event_id e) ts _ (ai_inbox _ _ Hk)) as Hc.
    unfold spec_claim in Hc.
    rewrite Hh, bool_decide_eq_true_2, bool_decide_eq_false_2 in Hc by done.
    by rewrite Hib2.
  - eapply same_but_trans; [apply same_but_put_rows|apply same_but_put_lease].
  - rewrite Hib2. eapply queue_upd_kept; eauto; apply Hk.
Qed.

Lemma claim_writes_eq {B} (f : InboundEventRecord → K B) :
  (updated ← delivery_record e ts; _ ← inbound_append updated;
   lease ← delivery_lease a (ie_inbound_event_id e) ts; _ ← lease_save lease; f updated) k
  = f (delivered ts e) k2.
Proof.
  destruct claimed_event as (_ & Hv & _), claimed_append as (Happ & _ & Hib1).
  kstep (set_event_eq k e (ie_payload_ref e) ES_delivering
    (Some (str_or (ie_started_at e) ts)) None Hv). fold (delivered ts e). kstep Happ.
  assert (delivery_lease a (ie_inbound_event_id e) ts k1 = (Ok l, k1)) as Hdl.
  { unfold delivery_lease. kstep (next_lease_version_eq k1). rewrite Hib1. unfold st_lift.
    f_equal. apply claimed_lease. }
  kstep Hdl. by kstep (lease_save_eq l k1 eq_refl).
Qed.

Lemma claim_current_does :
  does (claim_current a e ts)
    (delivered ts e, mkInbox (upd (delivered ts e) (ib_events (inbox_of k a)))
                       (Some (ie_inbound_event_id e)) (ib_version (inbox_of k a) + 1)) k.
Proof.
  destruct claimed_event as (_ & _ & He & _).
  destruct claimed_state as (Hk2 & Hi2 & Hsame & Hib2 & Hq2).
  destruct (prior_of_nonempty k e Hk He) as (p & Hpk & Hps).
  unfold does, claim_current. rewrite claim_writes_eq. kstep (mailbox_load_eq k2).
  replace (k_mailbox k2 !! a) with (Some p).
  pose proof (so_head _ _ Hps) as Hhead. rewrite Hh in Hhead.
  apply (f_equal sh_inbound_event_id) in Hhead. cbn in Hhead.
  rewrite Hhead, (bool_decide_eq_true_2 (Some _ = Some _)) by done.
  rewrite (so_depth _ _ Hps), (so_replies _ _ Hps).
  assert (∃ q', ib_queue (inbox_of k a) = e :: q') as [q' Hq']
    by (destruct (ib_queue _); simplify_eq/=; eauto).
  rewrite (proj2 (Z.leb_gt _ _)) by (rewrite Hq'; cbn; lia). cbn [orb negb].
  settle k2.
  - rewrite Hq2, length_upd. lia.
  - rewrite Hq2, count_replies_upd;
      [pose proof (count_replies_nonneg (ib_queue (inbox_of k a))); lia|].
    intros x Hx E. pose proof (queue_nodup _ (ai_inbox _ _ Hk)) as Hnodup.
    by rewrite (ids_unique _ x e Hnodup Hx (head_elem _ _ Hh) E).
  - by rewrite Hib2.
  - rewrite Hq2, head_upd, Hh. cbn. by rewrite bool_decide_eq_true_2.
  - eexists. split; [reflexivity|]. rewrite Hib. by eauto using same_but_trans.
Qed.
End claimed.


Lemma refresh_does {A} (v : A) ts k :
  agent_inv k a → strip ts ≠ "" → does (refresh_and_return a ts v) (v, inbox_of k a) k.
Proof.
  intros Hk Hts.
  destruct (refresh_settles v ts k (ai_files _ _ Hk) (ai_inbox _ _ Hk) Hts)
    as (k' & Hr & Hinv & Hib & Hs). by exists k'.
Qed.

(** Operations start by reading the owner and the time. *)
Lemma timed_refines {V} t (op : string → K V) spec k :
  ts_ok t → agent_inv k a →
  (∀ ts k0, strip ts ≠ "" → agent_inv k0 a → inbox_of k0 a = inbox_of k a →
            (truthy t = true → t = Some ts) →
            does (op ts) (spec ts (inbox_of k0 a)) k0) →
  refines t (ts ← or_clock t; op ts) spec k.
Proof.
  intros Ht Hk Hop. destruct (or_clock_eq t k Ht) as (ts & n & Hc & Hts & Hsome).
  exists ts. split_and!; [done..|].
  destruct (Hop ts (set_ticks k n) Hts (inv_ticks k n Hk) eq_refl Hsome) as (k' & H1 & H2).
  exists k'. by kstep Hc.
Qed.

Lemma owner_refines {V} t (op : string → K V) spec k :
  refines t (op a) spec k → refines t (x ← owner a; op x) spec k.
Proof.
  intros (ts & ? & ? & k' & ? & ?). exists ts. split_and!; [done..|].
  exists k'. by kstep (owner_eq k).
Qed.

(** The head decides what [spec_claim] does. *)
Lemma spec_claim_not_head i ts ib :
  (ie_inbound_event_id <$> head (ib_queue ib)) ≠ Some i → spec_claim i ts ib = (None, ib).
Proof.
  intros Hne. unfold spec_claim. destruct (head _); [|done].
  rewrite bool_decide_eq_false_2; [done|]. cbn in Hne. congruence.
Qed.

Lemma head_find k i :
  inbox_inv (inbox_of k a) → ie_inbound_event_id <$> head (ib_queue (inbox_of k a)) = Some i →
  ∃ e, head (ib_queue (inbox_of k a)) = Some e ∧ ie_inbound_event_id e = i ∧
       ib_find i (inbox_of k a) = Some e ∧ is_pending e = true.
Proof.
  intros Hi He. destruct (head _) as [e|] eqn:Hh; [|done]. injection He as <-.
  apply head_elem in Hh. exists e. split_and!; [done..|by apply queue_find|].
  by apply queue_elem in Hh as [_ ?].
Qed.

Lemma has_conflicting_lease_eq k i :
  files_ok k a →
  has_conflicting_lease a i k =
  (Ok (bool_decide (is_Some (ib_holder (inbox_of k a)) ∧ ib_holder (inbox_of k a) ≠ Some i)), k).
Proof.
  intros Hk. unfold has_conflicting_lease. kstep (lease_load_eq k).
  rewrite (lease_acquired_holder k Hk). unfold mret, st_ret. do 2 f_equal.
  apply eq_true_iff_eq.
  rewrite andb_true_iff, negb_true_iff, bool_decide_eq_false, !bool_decide_eq_true. done.
Qed.

Lemma is_claimable_head_eq k e :
  is_claimable_head a e k =
  (Ok (claimable_event_state (ie_status e) &&
       bool_decide (ie_inbound_event_id <$> head (ib_queue (inbox_of k a))
                    = Some (ie_inbound_event_id e))), k).
Proof.
  unfold is_claimable_head. destruct (claimable_event_state _); [|done]. cbn [negb andb].
  by kstep (head_pending_event_eq k).
Qed.

Lemma load_claim_candidate_eq k i :
  load_claim_candidate a i k =
  (Ok (e ← ib_find i (inbox_of k a); if is_pending e then Some e else None), k).
Proof.
  unfold load_claim_candidate. kstep (get_latest_eq i k). rewrite ib_find_get_latest.
  by destruct (ib_find _ _).
Qed.

Lemma claim_refines i t k :
  agent_inv k a → ts_ok t → refines t (claim a i t) (spec_claim i) k.
Proof.
  intros Hk Ht. unfold claim. apply owner_refines, timed_refines; [done..|].
  intros ts k0 Hts Hk0 _ _. clear k Hk. rename k0 into k, Hk0 into Hk. pose proof (ai_inbox _ _ Hk) as Hi.
  assert (∀ v, spec_claim i ts (inbox_of k a) = (v, inbox_of k a) →
    does (refresh_and_return a ts v) (spec_claim i ts (inbox_of k a)) k) as Hrefresh
    by (intros v ->; by apply refresh_does).
  destruct (decide (ie_inbound_event_id <$> head (ib_queue (inbox_of k a)) = Some i)) as [E|E].
  - destruct (head_find k i Hi E) as (e & Hh & <- & Hf & Hp).
    unfold does. kstep (load_claim_candidate_eq k (ie_inbound_event_id e)). rewrite Hf. cbn.
    rewrite Hp. kstep (has_conflicting_lease_eq k (ie_inbound_event_id e) (ai_files _ _ Hk)).
    rewrite bool_decide_eq_false_2.
    2:{ intros [[j Hj] Hne]. destruct (ii_holder _ Hi j Hj) as (x & ? & ? & _). congruence. }
    case_bool_decide as Hd.
    + apply Hrefresh. unfold spec_claim. by rewrite Hh, !bool_decide_eq_true_2.
    + kstep (is_claimable_head_eq k e). rewrite E, (bool_decide_eq_true_2 (Some _ = _)) by done.
      pose proof Hp as [|Hc]%pending_status; [done|]. rewrite Hc. cbn [andb].
      destruct (claim_current_does k e ts Hk Hh Hd Hts) as (k' & Hc' & ?).
      exists k'. kstep Hc'. unfold spec_claim. rewrite Hh, bool_decide_eq_true_2 by done.
      by rewrite bool_decide_eq_false_2.
  - rewrite spec_claim_not_head in * by done.
    unfold does. kstep (load_claim_candidate_eq k i).
    destruct (ib_find i _) as [e|] eqn:Hf; [|by apply Hrefresh]. cbn.
    destruct (is_pending e) eqn:Hp; [|by apply Hrefresh].
    destruct (find_queue _ _ _ Hf Hp) as [He <-].
    kstep (has_conflicting_lease_eq k (ie_inbound_event_id e) (ai_files _ _ Hk)).
    case_bool_decide as Hc; [by apply Hrefresh|].
    rewrite bool_decide_eq_false_2.
    2:{ intros Hd. apply E. by rewrite (delivering_is_head _ _ Hi He Hd). }
    kstep (is_claimable_head_eq k e). rewrite (bool_decide_eq_false_2 (_ = Some _)) by done.
    rewrite andb_false_r. by apply Hrefresh.
Qed.

(** An operation with an explicit, non-blank timestamp. *)
Lemma refines_some {V} s (op : K V) spec k :
  strip s ≠ "" → refines (Some s) op spec k → does op (spec s (inbox_of k a)) k.
Proof.
  intros Hs%strip_nonempty (ts & Ht & _ & Hd). cbn in Ht.
  rewrite bool_decide_eq_false_2 in Ht by done. by injection (Ht eq_refl) as ->.
Qed.

Lemma claim_next_refines ty t k :
  agent_inv k a → ts_ok t → refines t (claim_next a ty t) (spec_claim_next ty) k.
Proof.
  intros Hk Ht. unfold claim_next.
  assert (peek_next a ty k = (Ok (e ← head (ib_queue (inbox_of k a));
    if has_type ty e && claimable_event_state (ie_status e) then Some e else None), k)) as Hp.
  { unfold peek_next. kstep (head_pending_event_eq k). destruct (head _) as [e|]; [|done]. cbn.
    by destruct (has_type ty e), (claimable_event_state _). }
  assert (refines t (ts ← or_clock t; refresh_and_return a ts (@None InboundEventRecord))
            (λ _ ib, (None, ib)) k) as Hr
    by (apply timed_refines; [done..|]; intros; by apply refresh_does).
  unfold refines, does, spec_claim_next in *. rewrite (st_bind_ok _ _ _ _ _ Hp).
  destruct (head (ib_queue (inbox_of k a))) as [e|]; [|exact Hr].
  cbn [mbind option_bind]. destruct (_ && _); [|exact Hr].
  exact (claim_refines (ie_inbound_event_id e) t k Hk Ht).
Qed.

(** ** An existing pending event is rewritten and its lease released *)
Lemma release_matching_lease_eq k i :
  files_ok k a →
  release_matching_lease a i k =
  (Ok tt, if bool_decide (ib_holder (inbox_of k a) = Some i) then drop_lease k a else k).
Proof.
  intros Hk. unfold release_matching_lease. kstep (lease_load_eq k).
  rewrite (lease_acquired_holder k Hk).
  change (dl_inbound_event_id <$> k_lease k !! a) with (ib_holder (inbox_of k a)).
  case_bool_decide as E; cbn [andb].
  - case_bool_decide; [apply lease_remove_eq|done].
  - rewrite bool_decide_eq_false_2; [done|]. intros Hs. apply E. rewrite Hs. eauto.
Qed.

Section updated.
Context (k : kernel) (e : InboundEventRecord) (pr : option string).
Context (st : InboundEventStatus) (s f : option string).
Context (Hk : agent_inv k a) (Hf : ib_find (ie_inbound_event_id e) (inbox_of k a) = Some e).
Let u := restamp e pr st s f.
Let i := ie_inbound_event_id e.
Let k1 := put_rows k a (rows_of k a ++ [u]).
Let k2 := if bool_decide (ib_holder (inbox_of k a) = Some i) then drop_lease k1 a else k1.

Lemma update_writes_eq {B} (g : InboundEventRecord → K B) :
  (updated ← set_event e pr st s f; _ ← inbound_append updated;
   _ ← release_matching_lease a i; g updated) k = g u k2.
Proof.
  pose proof (find_in_rows _ _ _ Hf) as [Hin _].
  apply (fo_rows _ _ (ai_files _ _ Hk)) in Hin as [Hv _].
  destruct (append_old k e pr st s f (ai_files _ _ Hk) Hf) as (Happ & Hk1 & Hib1).
  kstep (set_event_eq k e pr st s f Hv). kstep Happ.
  kstep (release_matching_lease_eq k1 i Hk1). unfold k1 in *. fold u in Hib1. by rewrite Hib1.
Qed.

Lemma updated_state :
  files_ok k2 a ∧ same_but a k k2 ∧ k_mailbox k2 !! a = k_mailbox k !! a ∧
  inbox_of k2 a = mkInbox (upd u (ib_events (inbox_of k a))) (release i (ib_holder (inbox_of k a)))
    (ib_version (inbox_of k a)).
Proof.
  destruct (append_old k e pr st s f (ai_files _ _ Hk) Hf) as (_ & Hk1 & Hib1).
  fold u k1 in Hk1, Hib1. pose proof (same_but_put_rows k (rows_of k a ++ [u])) as Hs1.
  unfold k2. unfold release. case_bool_decide as Hh; [|by rewrite Hib1].
  split_and!.
  - by apply drop_lease_files.
  - eapply same_but_trans; [done|apply same_but_drop_lease].
  - done.
  - apply find_id_Some in Hf as [He _].
    destruct (prior_of_nonempty k e Hk He) as (p & Hp & Hps).
    transitivity (mkInbox (ib_events (inbox_of k1 a)) None (ib_version (inbox_of k a)));
      [|by rewrite Hib1].
    rewrite <- (so_version _ _ Hps). unfold inbox_of at 1. klook. cbn. by rewrite Hp.
Qed.
End updated.

Lemma head_after_terminal_eq k qd :
  qd = Z.of_nat (length (ib_queue (inbox_of k a))) →
  head_after_terminal a qd k =
  (Ok (Some (summary_head_from_event (head (ib_queue (inbox_of k a))))), k).
Proof.
  intros ->. unfold head_after_terminal. destruct (Z.eqb_spec (Z.of_nat (length (ib_queue (inbox_of k a)))) 0).
  { by destruct (ib_queue _). }
  case_match; kstep (head_pending_event_eq k); [done|]. by destruct (ib_queue _).
Qed.

Lemma summary_head_id m ib :
  summary_ok m ib →
  mb_head_inbound_event_id m = ie_inbound_event_id <$> head (ib_queue ib).
Proof.
  intros Hm%so_head%(f_equal sh_inbound_event_id). cbn in Hm. by destruct (head _).
Qed.

(** The head columns [mark_terminal] stores are those of the new queue. *)
Lemma terminal_head_eq k k2 e p :
  summary_ok p (inbox_of k a) →
  ib_queue (inbox_of k2 a) = drop_id (ie_inbound_event_id e) (ib_queue (inbox_of k a)) →
  length (ib_queue (inbox_of k a)) = S (length (ib_queue (inbox_of k2 a))) →
  (if bool_decide (mb_head_inbound_event_id p = Some (ie_inbound_event_id e))
   then head_after_terminal a
          (Z.max 0 (Z.of_nat (length (ib_queue (inbox_of k a))) - 1))
   else mret (Some (head_of_mailbox p))) k2 =
  (Ok (Some (summary_head_from_event (head (ib_queue (inbox_of k2 a))))), k2).
Proof.
  intros Hps Hq2 Hlen. rewrite (summary_head_id _ _ Hps). case_bool_decide as Hid.
  - apply head_after_terminal_eq. lia.
  - rewrite (so_head _ _ Hps), Hq2. unfold mret, st_ret. do 4 f_equal.
    destruct (head (ib_queue (inbox_of k a))) as [x|] eqn:Ex.
    + symmetry. apply head_drop_id; [done|]. cbn in Hid. congruence.
    + by destruct (ib_queue (inbox_of k a)).
Qed.

(** ** [mark_terminal] *)
Lemma mark_terminal_refines i st t k :
  agent_inv k a → ts_ok t → terminal_event_state st = true →
  refines t (mark_terminal a i st t) (spec_finish i st) k.
Proof.
  intros Hk Ht Hst. unfold mark_terminal. apply owner_refines, timed_refines; [done..|].
  intros ts k0 Hts Hk0 _ _. clear k Hk. rename k0 into k, Hk0 into Hk.
  pose proof (spec_finish_inv i st ts _ (ai_inbox _ _ Hk) Hst) as Hi2.
  unfold does. kstep (get_latest_eq i k). rewrite ib_find_get_latest. unfold spec_finish in *.
  destruct (ib_find i (inbox_of k a)) as [e|] eqn:Hf; [|by apply refresh_does].
  destruct (is_pending e) eqn:Hp; cbn [negb]; [|by apply refresh_does].
  pose proof (find_queue _ _ _ Hf Hp) as [He <-]. pose proof (ai_inbox _ _ Hk) as Hi.
  pose proof He as [Hev _]%queue_elem.
  destruct (prior_of_nonempty k e Hk Hev) as (p & Hpk & Hps).
  rewrite update_writes_eq by done. fold (finished st ts e).
  destruct (updated_state k e (ie_payload_ref e) st (ie_started_at e) (Some ts) Hk Hf)
    as (Hk2 & Hsame & Hp2 & Hib2). fold (finished st ts e) in *.
  set (k2 := if bool_decide _ then _ else _) in *.
  cbn [fst snd] in *. rewrite <- Hib2 in *.
  assert (ib_queue (inbox_of k2 a) = drop_id (ie_inbound_event_id e) (ib_queue (inbox_of k a))) as Hq2.
  { rewrite Hib2, queue_upd_dropped; [done|]. by apply (terminal_not_pending st). }
  pose proof (length_drop_id e _ (queue_nodup _ Hi) He) as Hlen.
  pose proof (count_replies_drop e _ (queue_nodup _ Hi) He) as Hcnt.
  kstep (mailbox_load_eq k2). rewrite Hp2, Hpk.
  rewrite (so_depth _ _ Hps), (so_replies _ _ Hps), (so_active _ _ Hps).
  rewrite (proj2 (Z.leb_gt _ _)) by lia.
  kstep (terminal_head_eq k k2 e p Hps Hq2 ltac:(by rewrite Hq2)). settle k2.
  - rewrite Hq2. lia.
  - rewrite Hq2, Hcnt. pose proof (count_replies_nonneg (drop_id (ie_inbound_event_id e) (ib_queue (inbox_of k a)))).
    unfold reply_weight in *. case_bool_decide; lia.
  - by rewrite Hib2.
  - eexists. split; [reflexivity|]. by eauto using same_but_trans.
Qed.

(** ** [ack_reply] *)
Lemma str_or_nonblank x y :
  ts_ok x → strip y ≠ "" → strip (str_or x y) ≠ "".
Proof.
  unfold ts_ok, str_or. destruct x as [s|]; [|done]. cbn. case_bool_decide; [done|]. cbn. auto.
Qed.

Lemma does_finish k i st ts :
  agent_inv k a → strip ts ≠ "" → terminal_event_state st = true →
  does (mark_terminal a i st (Some ts)) (spec_finish i st ts (inbox_of k a)) k.
Proof.
  intros Hk Hts Hst. apply (refines_some ts _ (spec_finish i st)); [done|].
  by apply mark_terminal_refines; [|intros _|].
Qed.

Lemma ack_reply_refines i st fin k :
  agent_inv k a → ts_ok st → ts_ok fin →
  refines (if truthy fin then fin else st) (ack_reply a i st fin)
    (λ ts, spec_ack_reply i (str_or st ts) (str_or fin ts)) k.
Proof.
  intros Hk Hst Hfin. unfold ack_reply. apply owner_refines.
  unfold refines, does. rewrite (st_bind_ok _ _ _ _ _ (head_pending_event_eq k)).
  replace (match or_none (default "" fin) with Some f => Some f | None => st end)
    with (if truthy fin then fin else st)
    by (destruct fin as [x|]; cbn; unfold or_none; by repeat case_bool_decide).
  set (t := if truthy fin then fin else st).
  assert (ts_ok t) as Ht by (unfold t; by destruct (truthy fin)).
  revert Ht. generalize t. clear t. intros t Ht.
  apply (timed_refines t _ (λ ts, spec_ack_reply i (str_or st ts) (str_or fin ts))); [done..|].
  intros ts k0 Hts Hk0 <- _. clear k Hk. rename k0 into k, Hk0 into Hk. cbv beta.
  pose proof (str_or_nonblank st ts Hst Hts) as Hst'.
  pose proof (str_or_nonblank fin ts Hfin Hts) as Hfin'.
  unfold spec_ack_reply.
  destruct (head (ib_queue (inbox_of k a))) as [e|] eqn:Hh; cbn [negb]; [|by apply refresh_does].
  destruct (bool_decide (ie_inbound_event_id e = i) && _) eqn:Em; cbn [negb];
    [|by apply refresh_does].
  apply andb_true_iff in Em as [<-%bool_decide_eq_true _].
  pose proof (head_elem _ _ Hh) as He. pose proof He as [_ Hp]%queue_elem.
  unfold does. kstep (get_latest_eq (ie_inbound_event_id e) k).
  rewrite ib_find_get_latest, (queue_find _ _ (ai_inbox _ _ Hk) He), Hp. cbn [negb].
  assert (is_Some (spec_claim (ie_inbound_event_id e) (str_or st ts) (inbox_of k a)).1) as [v Hv].
  { unfold spec_claim. rewrite Hh, bool_decide_eq_true_2 by done. cbn. case_bool_decide; eauto. }
  case_bool_decide as Hd.
  - replace (spec_claim _ _ _).2 with (inbox_of k a); [by apply does_finish|].
    unfold spec_claim. by rewrite Hh, !bool_decide_eq_true_2.
  - destruct (refines_some (str_or st ts) (claim a (ie_inbound_event_id e) (Some (str_or st ts)))
      (spec_claim (ie_inbound_event_id e)) k Hst') as (k1 & Hc & Hib & Hk1 & Hs1).
    { apply claim_refines; [done|]. by intros _. }
    kstep Hc. rewrite Hv.
    destruct (does_finish k1 (ie_inbound_event_id e) ES_consumed (str_or fin ts) Hk1 Hfin' eq_refl)
      as (k2 & Hm & Hib2 & Hk2 & Hs2).
    rewrite Hib in *. exists k2. by eauto using same_but_trans.
Qed.

(** ** [rewrite_head] *)
Lemma rewrite_head_refines i pr t clr k :
  agent_inv k a → ts_ok t →
  refines t (rewrite_head a i pr ES_queued t clr) (λ _, spec_requeue i pr clr) k.
Proof.
  intros Hk Ht. unfold rewrite_head. apply owner_refines, timed_refines; [done..|].
  intros ts k0 Hts Hk0 _ _. clear k Hk. rename k0 into k, Hk0 into Hk.
  pose proof (ai_inbox _ _ Hk) as Hi. pose proof (spec_requeue_inv i pr clr _ Hi) as Hi2.
  unfold does. kstep (load_claim_candidate_eq k i). unfold spec_requeue in *.
  destruct (ib_find i (inbox_of k a)) as [e|] eqn:Hf; [|by apply refresh_does].
  cbn [mbind option_bind]. destruct (is_pending e) eqn:Hp; [|by apply refresh_does].
  pose proof (find_queue _ _ _ Hf Hp) as [He <-]. pose proof He as [Hev _]%queue_elem.
  destruct (prior_of_nonempty k e Hk Hev) as (p & Hpk & Hps).
  rewrite update_writes_eq by done. fold (rewritten pr ES_queued clr e).
  destruct (updated_state k e pr ES_queued (if clr then None else ie_started_at e)
    (if clr then None else ie_finished_at e) Hk Hf) as (Hk2 & Hsame & Hp2 & Hib2).
  fold (rewritten pr ES_queued clr e) in *. set (k2 := if bool_decide _ then _ else _) in *.
  cbn [fst snd] in *. rewrite <- Hib2 in *.
  assert (ib_queue (inbox_of k2 a) = upd (rewritten pr ES_queued clr e) (ib_queue (inbox_of k a)))
    as Hq2 by (rewrite Hib2; eapply queue_upd_kept; eauto; apply Hi).
  kstep (mailbox_load_eq k2). rewrite Hp2, Hpk, (summary_head_id _ _ Hps).
  case_bool_decide as Hid; cbn [negb orb].
  2:{ destruct (refresh_settles (Some (rewritten pr ES_queued clr e)) ts k2 Hk2 Hi2 Hts)
        as (k' & Hr & Hinv & Hib & Hs). exists k'. by eauto using same_but_trans. }
  destruct (head_find k _ Hi Hid) as (x & Hx & _ & Hfx & _). rewrite Hf in Hfx. injection Hfx as <-.
  rewrite (so_depth _ _ Hps), (so_replies _ _ Hps), (so_active _ _ Hps).
  rewrite (proj2 (Z.leb_gt _ _)) by (destruct (ib_queue (inbox_of k a)); [done|cbn; lia]).
  settle k2.
  - rewrite Hq2, length_upd. lia.
  - rewrite Hq2, count_replies_upd;
      [pose proof (count_replies_nonneg (ib_queue (inbox_of k a))); lia|].
    intros y Hy E. by rewrite (ids_unique _ y e (queue_nodup _ Hi) Hy He E).
  - by rewrite Hib2.
  - rewrite Hq2, head_upd, Hx. cbn. by rewrite bool_decide_eq_true_2.
  - eexists. split; [reflexivity|]. by eauto using same_but_trans.
Qed.

(** ** New events *)
Lemma append_new k e :
  files_ok k a → normalize_inbound_event_record e = Ok e → ie_agent_name e = a →
  ib_find (ie_inbound_event_id e) (inbox_of k a) = None →
  let k' := put_rows k a (rows_of k a ++ [e]) in
  files_ok k' a ∧ inbox_of k' a = spec_enqueue e (inbox_of k a).
Proof.
  intros [Hr Hm Hl] Hv Ho Hf k'. unfold k'. split.
  - split; [|done|done]. rewrite rows_put_rows. intros r [Hin|Hin]%elem_of_app; [by apply Hr|].
    by apply list_elem_of_singleton in Hin as ->.
  - unfold inbox_of, spec_enqueue. rewrite rows_put_rows. cbn. f_equal.
    apply latest_rows_snoc_new. by rewrite ib_find_get_latest.
Qed.

Lemma enqueue_refines e t k :
  agent_inv k a → ts_ok t → normalize_inbound_event_record e = Ok e → ie_agent_name e = a →
  ie_status e = ES_queued → ib_find (ie_inbound_event_id e) (inbox_of k a) = None →
  ∃ m k', enqueue_event a e (reply_weight e) t k = (Ok m, k') ∧
    inbox_of k' a = spec_enqueue e (inbox_of k a) ∧ agent_inv k' a ∧ same_but a k k'.
Proof.
  intros Hk Ht Hv Ho Hs Hf. pose proof (ai_inbox _ _ Hk) as Hi.
  destruct (append_new k e (ai_files _ _ Hk) Hv Ho Hf) as [Hk1 Hib1].
  pose proof (spec_enqueue_inv e _ Hi Hf Hs) as Hi1. rewrite <- Hib1 in Hi1.
  unfold enqueue_event. kstep (inbound_append_eq e k Ho). set (k1 := put_rows _ _ _) in *.
  assert (ib_queue (inbox_of k1 a) = ib_queue (inbox_of k a) ++ [e]) as Hq.
  { rewrite Hib1. unfold ib_queue, pending_of, spec_enqueue. cbn [ib_events].
    rewrite List.filter_app. cbn. unfold is_pending. by rewrite Hs. }
  destruct (incremental_settles k1 1 (reply_weight e) t (inbox_of k a) Hk1 Hi1 Ht)
    as (m & k' & Hr & Hinv & Hib & Hsame).
  - change (k_mailbox k1) with (k_mailbox k). pose proof (ai_summary _ _ Hk) as Hsum.
    destruct (k_mailbox k !! a); [done|]. destruct Hsum as [Hr Hl]. unfold inbox_of. by rewrite Hr, Hl.
  - lia.
  - unfold reply_weight. case_bool_decide; lia.
  - rewrite Hq, length_app. cbn. lia.
  - rewrite Hq, count_replies_app, count_replies_cons. change (count_replies []) with 0. lia.
  - by rewrite Hib1.
  - exists m, k'. rewrite Hib, Hib1. split_and!; [done..|].
    eapply same_but_trans; [apply same_but_put_rows|done].
Qed.
End owner.
