(* ===== verification/MailboxSystem.v ===== *)
(** * The mailbox kernel as a system

    The operations the rest of the program applies to the kernel, as a step
    relation on its files; what holds in every reachable state; and the claims
    of the mailbox components. *)
From S2P Require Import Prelude PyValue Names MailboxModels MailboxKernel MailboxQueue MailboxSpec.
From S2P Require Import MailboxRefinement.
From stdpp Require Import relations.
Open Scope string_scope.
Open Scope list_scope.
Open Scope Z_scope.

Definition owner_name (a : string) : Prop := normalize_mailbox_owner_name (Some a) = Ok a.

Section system.
Context `{Clock} (Hclock : ∀ n, strip (clock_at n) ≠ "").

(** Operations name the agent as their caller wrote it. *)
Section names.
Context (name a : string) (Hname : normalize_mailbox_owner_name (Some name) = Ok a).

Lemma owner_named : owner_name a.
Proof. exact (owner_idem _ _ Hname). Qed.

Lemma owner_bind {V} (f : string → K V) k : (x ← owner name; f x) k = (x ← owner a; f x) k.
Proof.
  unfold mbind, st_bind, owner, st_lift. by rewrite Hname, owner_named.
Qed.

Lemma claim_named i t k : claim name i t k = claim a i t k.
Proof. apply owner_bind. Qed.
Lemma mark_terminal_named i st t k : mark_terminal name i st t k = mark_terminal a i st t k.
Proof. apply owner_bind. Qed.
Lemma ack_reply_named i s f k : ack_reply name i s f k = ack_reply a i s f k.
Proof. apply owner_bind. Qed.
Lemma rewrite_head_named i pr st t clr k :
  rewrite_head name i pr st t clr k = rewrite_head a i pr st t clr k.
Proof. apply owner_bind. Qed.
Lemma rebuild_named t k : rebuild_mailbox_summary name t k = rebuild_mailbox_summary a t k.
Proof. apply owner_bind. Qed.
Lemma peek_next_named ty k : peek_next name ty k = peek_next a ty k.
Proof.
  unfold peek_next, head_pending_event, pending_events, latest_events.
  unfold mbind, st_bind, owner, st_lift. by rewrite Hname, owner_named.
Qed.
Lemma claim_next_named ty t k : claim_next name ty t k = claim_next a ty t k.
Proof.
  unfold claim_next, mbind, st_bind. rewrite peek_next_named.
  destruct (peek_next a ty k) as [[[e|]|] k']; [apply claim_named| |done].
  destruct (or_clock t k') as [[ts|] k'']; [|done].
  unfold refresh_and_return, mbind, st_bind. by rewrite rebuild_named.
Qed.
Lemma enqueue_named e d t k : enqueue_event name e d t k = enqueue_event a e d t k.
Proof.
  unfold enqueue_event, mbind, st_bind. destruct (inbound_append e k) as [[] k']; [|done].
  apply owner_bind.
Qed.
End names.

(** One operation of the bureau, the dispatcher or a command on the files. *)
Inductive kernel_step (k : kernel) : kernel → Prop :=
  | step_enqueue name e t :
      normalize_inbound_event_record e = Ok e → ie_status e = ES_queued → ts_ok t →
      normalize_mailbox_owner_name (Some name) = Ok (ie_agent_name e) →
      ib_find (ie_inbound_event_id e) (inbox_of k (ie_agent_name e)) = None →
      kernel_step k (st_exec (enqueue_event name e (reply_weight e) t) k)
  | step_claim name i t : ts_ok t → kernel_step k (st_exec (claim name i t) k)
  | step_claim_next name ty t : ts_ok t → kernel_step k (st_exec (claim_next name ty t) k)
  | step_finish name i st t :
      ts_ok t → terminal_event_state st = true →
      kernel_step k (st_exec (mark_terminal name i st t) k)
  | step_ack name i s f : ts_ok s → ts_ok f → kernel_step k (st_exec (ack_reply name i s f) k)
  | step_requeue name i pr t clr :
      ts_ok t → kernel_step k (st_exec (rewrite_head name i pr ES_queued t clr) k)
  | step_rebuild name t :
      strip t ≠ "" → kernel_step k (st_exec (rebuild_mailbox_summary name (Some t)) k).

(** The same on the abstract inbox of one agent. *)
Inductive inbox_step (ib : inbox) : inbox → Prop :=
  | istep_enqueue e :
      ie_status e = ES_queued → ib_find (ie_inbound_event_id e) ib = None →
      inbox_step ib (spec_enqueue e ib)
  | istep_claim i ts : inbox_step ib (spec_claim i ts ib).2
  | istep_claim_next ty ts : inbox_step ib (spec_claim_next ty ts ib).2
  | istep_finish i st ts :
      terminal_event_state st = true → inbox_step ib (spec_finish i st ts ib).2
  | istep_ack i s f : inbox_step ib (spec_ack_reply i s f ib).2
  | istep_requeue i pr clr : inbox_step ib (spec_requeue i pr clr ib).2
  | istep_idle : inbox_step ib ib.

(** A step of the kernel is a step of one inbox. *)
Definition simulates (a : string) (k k' : kernel) : Prop :=
  inbox_step (inbox_of k a) (inbox_of k' a) ∧ agent_inv k' a ∧ same_but a k k'.

Lemma refines_simulates {V} a t (op : K V) spec k :
  refines a t op spec k → (∀ ts, inbox_step (inbox_of k a) (spec ts (inbox_of k a)).2) →
  simulates a k (st_exec op k).
Proof.
  intros (ts & _ & _ & k' & Hop & Hib & Hinv & Hs) Hstep.
  unfold simulates, st_exec. rewrite Hop. cbn [snd]. rewrite Hib. by auto.
Qed.

Lemma owner_fails {V} name e (f : string → K V) k :
  normalize_mailbox_owner_name (Some name) = Err e → (x ← owner name; f x) k = (Err e, k).
Proof. intros Hn. unfold mbind, st_bind, owner, st_lift. by rewrite Hn. Qed.

Lemma claim_next_fails name e ty t k :
  normalize_mailbox_owner_name (Some name) = Err e → claim_next name ty t k = (Err e, k).
Proof.
  intros Hn. unfold claim_next, peek_next, head_pending_event, pending_events, latest_events.
  unfold mbind, st_bind, owner, st_lift. by rewrite Hn.
Qed.

Lemma rebuild_simulates a t k :
  owner_name a → agent_inv k a → strip t ≠ "" →
  simulates a k (st_exec (rebuild_mailbox_summary a (Some t)) k).
Proof.
  intros Ha Hk Ht. destruct (refresh_does a Ha tt t k Hk Ht) as (k' & Hr & Hib & Hinv & Hs).
  unfold refresh_and_return, mbind, st_bind in Hr. unfold st_exec.
  destruct (rebuild_mailbox_summary a (Some t) k) as [[m|e] k1]; [|done].
  injection Hr as ->. cbn in *. split_and!; [|done..]. rewrite Hib. constructor.
Qed.

Lemma kernel_step_simulates k k' :
  kernel_step k k' → (∀ a, owner_name a → agent_inv k a) →
  k' = k ∨ ∃ a, owner_name a ∧ simulates a k k'.
Proof.
  intros Hstep Hinv. destruct Hstep as [name e t Hv Hs Ht Hn Hf|name ? ? ?|name ? ? ?|name ? ? ? ? ?|
    name ? ? ? ? ?|name ? ? ? ? ?|name ? ?];
    (destruct (normalize_mailbox_owner_name (Some name)) as [a|err] eqn:Hname;
     [right|left; unfold st_exec; try done;
      by first [by rewrite (claim_next_fails name err) | by setoid_rewrite (owner_fails name err)]]);
    [injection Hn as ->; exists (ie_agent_name e)|exists a..];
    (split; [by eapply owner_named|]);
    pose proof (owner_named _ _ Hname) as Ha; specialize (Hinv _ Ha);
    unfold st_exec.
  - rewrite (enqueue_named _ _ Hname).
    destruct (enqueue_refines Hclock _ Ha e t k) as (m & k' & He & Hib & ?); try done.
    unfold simulates. rewrite He. cbn [snd]. rewrite Hib. split; [by constructor|done].
  - rewrite (claim_named _ _ Hname).
    eapply refines_simulates; [by apply claim_refines|]. constructor.
  - rewrite (claim_next_named _ _ Hname).
    eapply refines_simulates; [by apply claim_next_refines|]. constructor.
  - rewrite (mark_terminal_named _ _ Hname).
    eapply refines_simulates; [by apply mark_terminal_refines|]. by constructor.
  - rewrite (ack_reply_named _ _ Hname).
    eapply refines_simulates; [by apply ack_reply_refines|]. intros ts. constructor.
  - rewrite (rewrite_head_named _ _ Hname).
    eapply refines_simulates; [by apply rewrite_head_refines|]. constructor.
  - rewrite (rebuild_named _ _ Hname). by apply rebuild_simulates.
Qed.

Definition empty_kernel : kernel := mkKernel ∅ ∅ ∅ 0.
Definition reachable (k : kernel) : Prop := rtc kernel_step empty_kernel k.

Lemma empty_inv a : agent_inv empty_kernel a.
Proof.
  split; [split|..]; cbn; try done.
  - by intros r ?%elem_of_nil.
  - split; cbn; try done; [constructor|by intros e ?%elem_of_nil].
Qed.

Lemma step_inv k k' a :
  kernel_step k k' → (∀ b, owner_name b → agent_inv k b) → owner_name a → agent_inv k' a.
Proof.
  intros Hs Hinv Ha. destruct (kernel_step_simulates k k' Hs Hinv) as [->|(b & Hb & _ & Hb' & Hsame)];
    [by apply Hinv|].
  destruct (decide (a = b)) as [->|Hne]; [done|]. eapply agent_inv_frame; eauto.
Qed.

Lemma steps_inv k k' :
  rtc kernel_step k k' → (∀ a, owner_name a → agent_inv k a) → ∀ a, owner_name a → agent_inv k' a.
Proof. induction 1 as [|k k1 k' Hs _ IH]; [done|]. intros Hinv. apply IH. eauto using step_inv. Qed.

Lemma reachable_inv' k a : reachable k → owner_name a → agent_inv k a.
Proof. intros Hr. revert a. apply (steps_inv _ _ Hr). intros; apply empty_inv. Qed.

(** A property of one inbox that every abstract step keeps is kept. *)
Lemma steps_inbox (P : inbox → Prop) k k' a :
  rtc kernel_step k k' → (∀ b, owner_name b → agent_inv k b) → owner_name a →
  (∀ ib ib', inbox_inv ib → inbox_step ib ib' → P ib → P ib') →
  P (inbox_of k a) → P (inbox_of k' a).
Proof.
  intros Hr Hinv Ha HP. induction Hr as [|k k1 k' Hs _ IH]; [done|]. intros HPk.
  apply IH; [eauto using step_inv|].
  destruct (kernel_step_simulates k k1 Hs Hinv) as [->|(b & Hb & Hsim & _ & Hsame)]; [done|].
  destruct (decide (a = b)) as [->|Hne]; [by eapply HP; [apply Hinv| |]|].
  destruct (Hsame a Hne) as (E1 & E2 & E3).
  assert (inbox_of k1 a = inbox_of k a) as -> by (unfold inbox_of, rows_of; by rewrite E1, E2, E3).
  done.
Qed.

(** ** Abstract steps *)
Definition is_new_grant (ib ib' : inbox) : Prop :=
  ib_version ib < ib_version ib' ∨
  (ib_version ib' = ib_version ib ∧ (ib_holder ib' = ib_holder ib ∨ ib_holder ib' = None)).

Lemma spec_claim_grant i ts ib : is_new_grant ib (spec_claim i ts ib).2.
Proof.
  unfold spec_claim, is_new_grant. destruct (head _); [|by auto].
  repeat case_bool_decide; cbn; auto. left. lia.
Qed.

Lemma release_cases i h : release i h = h ∨ release i h = None.
Proof. unfold release. case_bool_decide; auto. Qed.

Lemma spec_finish_grant i st ts ib : is_new_grant ib (spec_finish i st ts ib).2.
Proof.
  unfold spec_finish, is_new_grant. destruct (ib_find _ _) as [e|]; [|by auto].
  destruct (is_pending e); cbn; [|by auto]. right. split; [done|]. apply release_cases.
Qed.

Lemma grant_trans ib1 ib2 ib3 : is_new_grant ib1 ib2 → is_new_grant ib2 ib3 → is_new_grant ib1 ib3.
Proof. unfold is_new_grant. intuition (try lia); right; intuition congruence. Qed.

Lemma inbox_step_grant ib ib' : inbox_step ib ib' → is_new_grant ib ib'.
Proof.
  assert (is_new_grant ib ib) as Hrefl by (unfold is_new_grant; auto).
  intros [e|i ts|ty ts|i st ts|i s f|i pr clr|].
  - unfold is_new_grant. cbn. auto.
  - apply spec_claim_grant.
  - unfold spec_claim_next. destruct (head _); [|done]. case_match; [apply spec_claim_grant|done].
  - apply spec_finish_grant.
  - unfold spec_ack_reply. destruct (head _); [|done]. case_match; [|done].
    eapply grant_trans; [apply spec_claim_grant|apply spec_finish_grant].
  - unfold spec_requeue, is_new_grant. destruct (ib_find _ _) as [e|]; [|by auto].
    destruct (is_pending e); cbn; [|by auto]. right. split; [done|]. apply release_cases.
  - done.
Qed.

(** An event that is finished stays as it is. *)
Lemma upd_keeps u e l :
  ie_inbound_event_id u ≠ ie_inbound_event_id e → e ∈ l → e ∈ upd u l.
Proof.
  intros Hne He. unfold upd. apply list_elem_of_fmap. exists e.
  by rewrite bool_decide_eq_false_2 by congruence.
Qed.

Lemma not_pending_ne ib e x :
  inbox_inv ib → e ∈ ib_events ib → is_pending e = false →
  x ∈ ib_events ib → is_pending x = true → ie_inbound_event_id x ≠ ie_inbound_event_id e.
Proof. intros Hi He Hp Hx Hpx E. rewrite (ids_unique _ x e (ii_nodup _ Hi) Hx He E) in Hpx. congruence. Qed.

Lemma spec_claim_keeps i ts ib e :
  inbox_inv ib → e ∈ ib_events ib → is_pending e = false → e ∈ ib_events (spec_claim i ts ib).2.
Proof.
  intros Hi He Hp. unfold spec_claim. destruct (head (ib_queue ib)) as [x|] eqn:Hh; [|done].
  repeat case_bool_decide; cbn; try done.
  apply head_elem, queue_elem in Hh as [Hx Hpx]. apply upd_keeps; [|done].
  exact (not_pending_ne ib e x Hi He Hp Hx Hpx).
Qed.

Lemma find_upd_keeps i ib e x u :
  inbox_inv ib → e ∈ ib_events ib → is_pending e = false →
  ib_find i ib = Some x → is_pending x = true → ie_inbound_event_id u = ie_inbound_event_id x →
  e ∈ upd u (ib_events ib).
Proof.
  intros Hi He Hp [Hx _]%find_id_Some Hpx Eu. apply upd_keeps; [|done].
  rewrite Eu. by eapply not_pending_ne.
Qed.

Lemma spec_finish_keeps i st ts ib e :
  inbox_inv ib → e ∈ ib_events ib → is_pending e = false →
  e ∈ ib_events (spec_finish i st ts ib).2.
Proof.
  intros Hi He Hp. unfold spec_finish. destruct (ib_find i ib) as [x|] eqn:Hf; [|done].
  destruct (is_pending x) eqn:Hpx; [|done]. by eapply find_upd_keeps.
Qed.

Lemma inbox_step_keeps ib ib' e :
  inbox_inv ib → inbox_step ib ib' → e ∈ ib_events ib → is_pending e = false → e ∈ ib_events ib'.
Proof.
  intros Hi [x|i ts|ty ts|i st ts|i s f|i pr clr|] He Hp; auto using spec_claim_keeps, spec_finish_keeps.
  - apply elem_of_app. by left.
  - unfold spec_claim_next. destruct (head _); [|done]. case_match; [by apply spec_claim_keeps|done].
  - unfold spec_ack_reply. destruct (head _); [|done]. case_match; [|done].
    apply spec_finish_keeps; auto using spec_claim_inv, spec_claim_keeps.
  - unfold spec_requeue. destruct (ib_find i ib) as [x|] eqn:Hf; [|done].
    destruct (is_pending x) eqn:Hpx; [|done]. by eapply find_upd_keeps.
Qed.
End system.
