(* ===== verification/MailboxTheorems.v ===== *)
(** * What the mailbox kernel guarantees

    The properties of the records, the kernel operations and the whole system
    of [MailboxSystem], with concrete instances. *)
From S2P Require Import Prelude PyValue Names MailboxModels MailboxKernel MailboxQueue MailboxSpec.
From S2P Require Import MailboxRefinement MailboxSystem.
From stdpp Require Import relations.
Open Scope string_scope.
Open Scope list_scope.
Open Scope Z_scope.

(** Deliver and consume the events of an inbox until none can be claimed. *)
Fixpoint deliver_all `{Clock} (fuel : nat) (agent_name : string) : K (list string) :=
  match fuel with
  | O => mret []
  | S fuel' =>
      claimed ← claim_next agent_name None None;
      match claimed with
      | None => mret []
      | Some e =>
          _ ← consume agent_name (ie_inbound_event_id e) None;
          rest ← deliver_all fuel' agent_name;
          mret (ie_inbound_event_id e :: rest)
      end
  end.

(** ** Concrete inputs *)
Definition demo_clock : Clock := λ n, "2026-03-30T00:00:00Z".
Lemma demo_clock_ok n : strip (@clock_at demo_clock n) ≠ "".
Proof. by vm_compute. Qed.

Definition demo_event (id : string) (ty : InboundEventType) : InboundEventRecord :=
  mkEvent id "agent1" ty "msg_1" (Some "att_1") (Some "job:job_1") 100 ES_queued
    "2026-03-30T00:00:00Z" None None.

(** Two events in the inbox of [agent1], then the first one claimed. *)
Definition demo_enqueued1 : kernel :=
  st_exec (@enqueue_event demo_clock "agent1" (demo_event "iev_1" ET_task_request) 0 None)
    empty_kernel.
Definition demo_enqueued : kernel :=
  st_exec (@enqueue_event demo_clock "agent1" (demo_event "iev_2" ET_task_reply) 1 None)
    demo_enqueued1.
Definition demo_claimed : kernel :=
  st_exec (@claim demo_clock "agent1" "iev_1" None) demo_enqueued.

Lemma demo_owner : owner_name "agent1".
Proof. reflexivity. Qed.

Lemma demo_step1 : @kernel_step demo_clock empty_kernel demo_enqueued1.
Proof. by apply (@step_enqueue demo_clock _ "agent1" (demo_event "iev_1" ET_task_request) None). Qed.
Lemma demo_step2 : @kernel_step demo_clock demo_enqueued1 demo_enqueued.
Proof. by apply (@step_enqueue demo_clock _ "agent1" (demo_event "iev_2" ET_task_reply) None). Qed.
Lemma demo_step3 : @kernel_step demo_clock demo_enqueued demo_claimed.
Proof. by apply (@step_claim demo_clock). Qed.

Lemma demo_enqueued_reachable : @reachable demo_clock demo_enqueued.
Proof. eapply rtc_l; [apply demo_step1|]. eapply rtc_l; [apply demo_step2|]. reflexivity. Qed.
Lemma demo_claimed_reachable : @reachable demo_clock demo_claimed.
Proof. eapply rtc_r; [apply demo_enqueued_reachable|apply demo_step3]. Qed.

(** ** The records *)

(** C39: Storing what was loaded loses nothing.  Whatever JSON object the loader
    of a mailbox summary, of an inbox event or of a delivery lease accepts, the
    record it returns satisfies its constructor, and the JSON written for that
    record loads to the same record. *)
Theorem mailbox_records_reload :
  (∀ d r, mailbox_from_record d = Ok r →
     normalize_mailbox_record r = Ok r ∧ mailbox_from_record (mailbox_to_record r) = Ok r) ∧
  (∀ d r, inbound_event_from_record d = Ok r →
     normalize_inbound_event_record r = Ok r ∧
     inbound_event_from_record (inbound_event_to_record r) = Ok r) ∧
  (∀ d r, delivery_lease_from_record d = Ok r →
     normalize_delivery_lease r = Ok r ∧
     delivery_lease_from_record (delivery_lease_to_record r) = Ok r).
Proof.
  split_and!; [exact (codec_reloads (A:=MailboxRecord))|exact (codec_reloads (A:=InboundEventRecord))|
    exact (codec_reloads (A:=DeliveryLease))].
Qed.

(** ** The system *)
Section guarantees.
Context `{Clock} (Hclock : ∀ n, strip (clock_at n) ≠ "").

(** C4: in every state the operations reach, the inbox log, the lease file
    and the summary of every mailbox owner are consistent: records are
    valid and belong to the owner, a lease is held exactly when the head of
    the queue is in delivery, and the incrementally maintained summary
    states the queue depth, reply count, head, active event, state and lease
    version of the inbox. *)
Theorem mailbox_invariant k a : reachable k → owner_name a → agent_inv k a.
Proof. by apply reachable_inv'. Qed.

(** C8: delivery is exclusive and in order: in a reachable state an event of
    an agent that is in delivery is the oldest pending one, and it is the one
    the lease is held on; so no two events are in delivery. *)
Theorem delivery_exclusive k a e :
  reachable k → owner_name a → e ∈ ib_events (inbox_of k a) → ie_status e = ES_delivering →
  head (ib_queue (inbox_of k a)) = Some e ∧
  ib_holder (inbox_of k a) = Some (ie_inbound_event_id e) ∧
  ∀ e', e' ∈ ib_events (inbox_of k a) → ie_status e' = ES_delivering → e' = e.
Proof.
  intros Hr Ha He Hs. pose proof (ai_inbox _ _ (reachable_inv' Hclock k a Hr Ha)) as Hi.
  assert (∀ x, x ∈ ib_events (inbox_of k a) → ie_status x = ES_delivering →
               x ∈ ib_queue (inbox_of k a)) as Hq.
  { intros x Hx Hsx. apply queue_elem. split; [done|]. apply pending_status. by left. }
  pose proof (delivering_is_head _ _ Hi (Hq _ He Hs) Hs) as Hh.
  split_and!; [done|by apply Hi; auto|]. intros e' He' Hs'.
  pose proof (delivering_is_head _ _ Hi (Hq _ He' Hs') Hs'). congruence.
Qed.

(** C24: [claim] implements the abstract claim: it grants the oldest pending
    event, with the next lease version, returns an event already in
    delivery unchanged, and otherwise returns [None] and changes nothing
    but the summary's time stamps; other agents are untouched. *)
Theorem claim_implements_spec k a i t :
  reachable k → owner_name a → ts_ok t → refines a t (claim a i t) (spec_claim i) k.
Proof. intros. apply claim_refines; try done. by apply reachable_inv'. Qed.

(** [claim_next] claims the head of the queue when it has the wanted type
    and is not in delivery, and nothing else. *)
Theorem claim_next_implements_spec k a ty t :
  reachable k → owner_name a → ts_ok t →
  refines a t (claim_next a ty t) (spec_claim_next ty) k.
Proof. intros. apply claim_next_refines; try done. by apply reachable_inv'. Qed.

(** C25: [mark_terminal] (consume, abandon, supersede) takes exactly the named
    pending event out of the queue, releases its lease, and leaves a finished
    or unknown event alone. *)
Theorem mark_terminal_implements_spec k a i st t :
  reachable k → owner_name a → ts_ok t → terminal_event_state st = true →
  refines a t (mark_terminal a i st t) (spec_finish i st) k.
Proof. intros. apply mark_terminal_refines; try done. by apply reachable_inv'. Qed.

(** [ack_reply] consumes the head of the queue when it is the named
    reply, claiming it first if need be, and does nothing otherwise. *)
Theorem ack_reply_implements_spec k a i st fin :
  reachable k → owner_name a → ts_ok st → ts_ok fin →
  refines a (if truthy fin then fin else st) (ack_reply a i st fin)
    (λ ts, spec_ack_reply i (str_or st ts) (str_or fin ts)) k.
Proof. intros. apply ack_reply_refines; try done. by apply reachable_inv'. Qed.

(** [rewrite_head] puts a pending event back in the queue, in its place,
    with the new payload, and releases its lease. *)
Theorem rewrite_head_implements_spec k a i pr t clr :
  reachable k → owner_name a → ts_ok t →
  refines a t (rewrite_head a i pr ES_queued t clr) (λ _, spec_requeue i pr clr) k.
Proof. intros. apply rewrite_head_refines; try done. by apply reachable_inv'. Qed.

(** C26: the summary kept incrementally is the one a rebuild from the full
    inbox log computes: rebuilding changes no count, head, active event,
    state or lease version. *)
Theorem incremental_is_rebuilt k a m t :
  reachable k → owner_name a → k_mailbox k !! a = Some m → strip t ≠ "" →
  ∃ m' k', rebuild_mailbox_summary a (Some t) k = (Ok m', k') ∧
    mb_queue_depth m' = mb_queue_depth m ∧
    mb_pending_reply_count m' = mb_pending_reply_count m ∧
    head_of_mailbox m' = head_of_mailbox m ∧
    mb_active_inbound_event_id m' = mb_active_inbound_event_id m ∧
    mb_mailbox_state m' = mb_mailbox_state m ∧ mb_lease_version m' = mb_lease_version m.
Proof.
  intros Hr Ha Hm Ht. pose proof (reachable_inv' Hclock k a Hr Ha) as Hinv.
  pose proof (ai_summary _ _ Hinv) as Hs. rewrite Hm in Hs.
  eexists _, _. rewrite (rebuild_eq a Ha k t (ai_files _ _ Hinv) Ht). split; [reflexivity|].
  match goal with |- mb_queue_depth ?m' = _ ∧ _ =>
    assert (summary_ok m' (inbox_of k a)) as Hs' by (by apply mailbox_summary_ok, Hinv) end.
  destruct Hs as [D1 R1 H1 A1 S1 V1], Hs' as [D2 R2 H2 A2 S2 V2].
  split_and!; congruence.
Qed.

(** a finished event is never touched again. *)
Theorem terminal_events_stay k k' a e :
  reachable k → rtc kernel_step k k' → owner_name a →
  e ∈ ib_events (inbox_of k a) → terminal_event_state (ie_status e) = true →
  e ∈ ib_events (inbox_of k' a).
Proof.
  intros Hr Hs Ha He Ht.
  apply (steps_inbox Hclock (λ ib, e ∈ ib_events ib) k); try done.
  { intros b Hb. by apply reachable_inv'. }
  intros ib ib' Hi Hst Hib. eapply inbox_step_keeps; eauto. unfold is_pending. by rewrite Ht.
Qed.

(** C27: lease versions fence: whatever happens between two states, the later
    lease on the same inbox has the same version only if it is held on the
    same event, and otherwise a greater one. *)
Theorem lease_versions_fence k k' a l l' :
  reachable k → rtc kernel_step k k' → owner_name a →
  k_lease k !! a = Some l → k_lease k' !! a = Some l' →
  dl_lease_version l < dl_lease_version l' ∨
  (dl_lease_version l' = dl_lease_version l ∧ dl_inbound_event_id l' = dl_inbound_event_id l).
Proof.
  intros Hr Hs Ha Hl Hl'.
  assert (is_new_grant (inbox_of k a) (inbox_of k' a)) as Hg.
  { apply (steps_inbox Hclock (is_new_grant (inbox_of k a)) k); try done.
    - intros b Hb. by apply reachable_inv'.
    - intros ib ib' _ Hst Hib. eapply grant_trans; [exact Hib|by apply inbox_step_grant].
    - unfold is_new_grant. auto. }
  unfold is_new_grant, inbox_of in Hg. cbn in Hg. rewrite Hl, Hl' in Hg. cbn in Hg.
  destruct Hg as [?|[? [?|?]]]; [by left|right|done]. split; [done|congruence].
Qed.

(** One round of [deliver_all] takes the head off the queue. *)
Lemma deliver_round k a e q :
  owner_name a → agent_inv k a → ib_holder (inbox_of k a) = None →
  ib_queue (inbox_of k a) = e :: q →
  ∃ e' k1 r k2, claim_next a None None k = (Ok (Some e'), k1) ∧
    ie_inbound_event_id e' = ie_inbound_event_id e ∧
    consume a (ie_inbound_event_id e') None k1 = (Ok r, k2) ∧
    agent_inv k2 a ∧ ib_holder (inbox_of k2 a) = None ∧ ib_queue (inbox_of k2 a) = q.
Proof.
  intros Ha Hk Hh Hq.
  destruct (claim_next_refines Hclock a Ha None None k Hk ltac:(by intros ?))
    as (ts & _ & _ & k1 & Hcl & Hib1 & Hk1 & _).
  destruct (spec_claim_next_head _ e q ts (ai_inbox _ _ Hk) Hq Hh) as (E1 & E2 & E3).
  rewrite E1 in Hcl. rewrite <- Hib1 in E2, E3.
  destruct (mark_terminal_refines Hclock a Ha (ie_inbound_event_id e) ES_consumed None k1 Hk1
    ltac:(by intros ?) eq_refl) as (ts2 & _ & _ & k2 & Hm & Hib2 & Hk2 & _).
  destruct (spec_finish_head _ _ _ ES_consumed ts2 (ai_inbox _ _ Hk1) E2 E3 eq_refl) as [F1 F2].
  cbn [ie_inbound_event_id delivered restamp] in F1, F2. rewrite <- Hib2 in F1, F2.
  exists (delivered ts e), k1. eexists _, k2. by split_and!.
Qed.

(** C7: no event is lost, starved or delivered out of order: from any
    reachable state with no delivery in progress, claiming and consuming
    until nothing can be claimed delivers every pending event once, in the
    order of arrival, and empties the queue; as many rounds as there are
    pending events are enough. *)
Theorem deliver_all_fifo k a fuel :
  reachable k → owner_name a → ib_holder (inbox_of k a) = None →
  (length (ib_queue (inbox_of k a)) ≤ fuel)%nat →
  ∃ k', deliver_all fuel a k = (Ok (ie_inbound_event_id <$> ib_queue (inbox_of k a)), k') ∧
        ib_queue (inbox_of k' a) = [].
Proof.
  intros Hr Ha. pose proof (reachable_inv' Hclock k a Hr Ha) as Hk. clear Hr.
  revert k Hk. induction fuel as [|fuel IH]; intros k Hk Hh Hlen.
  - destruct (ib_queue (inbox_of k a)) as [|e q] eqn:Hq; [|cbn in Hlen; lia]. by exists k.
  - destruct (ib_queue (inbox_of k a)) as [|e q] eqn:Hq.
    + destruct (claim_next_refines Hclock a Ha None None k Hk ltac:(by intros ?))
        as (ts & _ & _ & k1 & Hcl & Hib & _). unfold spec_claim_next in Hcl, Hib.
      rewrite Hq in Hcl, Hib. exists k1. cbn [deliver_all]. kstep Hcl. cbn. rewrite Hib. done.
    + destruct (deliver_round k a e q Ha Hk Hh Hq) as (e' & k1 & r & k2 & Hcl & He & Hco & Hk2 & Hh2 & Hq2).
      destruct (IH k2 Hk2 Hh2) as (k' & Hd & Hq'); [rewrite Hq2; cbn in Hlen; lia|].
      exists k'. cbn [deliver_all]. kstep Hcl. kstep Hco. kstep Hd. rewrite Hq2, He. done.
Qed.
End guarantees.

(** ** Witnesses *)
Definition demo_lease (i : string) (v : Z) : DeliveryLease :=
  mkLease "agent1" i v "2026-03-30T00:00:00Z" (Some "2026-03-30T00:00:00Z") None LS_acquired.

(** A summary written before versions and sources were recorded. *)
Definition demo_legacy_mailbox : pydict :=
  [ ("schema_version", PInt 1); ("record_type", PStr "mailbox_record");
    ("mailbox_id", PStr "mbx_agent1"); ("agent_name", PStr "Agent1"); ("updated_at", PStr "t") ].

Lemma mailbox_records_reload_witness :
  ∃ r, mailbox_from_record demo_legacy_mailbox = Ok r ∧
       mailbox_from_record (mailbox_to_record r) = Ok r.
Proof.
  eexists. split; [vm_compute; reflexivity|].
  apply (proj1 mailbox_records_reload demo_legacy_mailbox). vm_compute. reflexivity.
Defined.

Lemma mailbox_invariant_witness :
  owner_name "agent1" ∧ @reachable demo_clock demo_claimed ∧ agent_inv demo_claimed "agent1".
Proof.
  split_and!; [exact demo_owner|exact demo_claimed_reachable|].
  exact (@mailbox_invariant demo_clock demo_clock_ok _ _ demo_claimed_reachable demo_owner).
Defined.

Definition demo_delivering : InboundEventRecord :=
  delivered "2026-03-30T00:00:00Z" (demo_event "iev_1" ET_task_request).

Lemma delivery_exclusive_witness :
  head (ib_queue (inbox_of demo_claimed "agent1")) = Some demo_delivering.
Proof.
  refine (proj1 (@delivery_exclusive demo_clock demo_clock_ok demo_claimed "agent1" demo_delivering
    demo_claimed_reachable demo_owner _ _)); [|reflexivity].
  by apply (bool_decide_eq_true_1 _); vm_compute.
Defined.

Lemma claim_implements_spec_witness :
  refines "agent1" None (@claim demo_clock "agent1" "iev_1" None) (spec_claim "iev_1") demo_enqueued ∧
  (spec_claim "iev_1" "2026-03-30T00:00:00Z" (inbox_of demo_enqueued "agent1")).1 = Some demo_delivering.
Proof.
  split; [|by vm_compute].
  exact (@claim_implements_spec demo_clock demo_clock_ok _ _ "iev_1" None
    demo_enqueued_reachable demo_owner ltac:(by intros ?)).
Defined.

Lemma claim_next_implements_spec_witness :
  refines "agent1" None (@claim_next demo_clock "agent1" (Some ET_task_request) None)
    (spec_claim_next (Some ET_task_request)) demo_enqueued.
Proof.
  exact (@claim_next_implements_spec demo_clock demo_clock_ok _ _ _ None
    demo_enqueued_reachable demo_owner ltac:(by intros ?)).
Defined.

Lemma mark_terminal_implements_spec_witness :
  refines "agent1" None (@consume demo_clock "agent1" "iev_1" None)
    (spec_finish "iev_1" ES_consumed) demo_claimed ∧
  length (ib_queue (spec_finish "iev_1" ES_consumed "t" (inbox_of demo_claimed "agent1")).2) = 1%nat.
Proof.
  split; [|by vm_compute].
  exact (@mark_terminal_implements_spec demo_clock demo_clock_ok _ _ "iev_1" ES_consumed None
    demo_claimed_reachable demo_owner ltac:(by intros ?) eq_refl).
Defined.

Lemma ack_reply_implements_spec_witness :
  refines "agent1" None (@ack_reply demo_clock "agent1" "iev_2" None None)
    (λ ts, spec_ack_reply "iev_2" ts ts) demo_enqueued.
Proof.
  exact (@ack_reply_implements_spec demo_clock demo_clock_ok _ _ "iev_2" None None
    demo_enqueued_reachable demo_owner ltac:(by intros ?) ltac:(by intros ?)).
Defined.

Lemma rewrite_head_implements_spec_witness :
  refines "agent1" None (@rewrite_head demo_clock "agent1" "iev_1" (Some "x") ES_queued None true)
    (λ _, spec_requeue "iev_1" (Some "x") true) demo_claimed.
Proof.
  exact (@rewrite_head_implements_spec demo_clock demo_clock_ok _ _ "iev_1" (Some "x") None true
    demo_claimed_reachable demo_owner ltac:(by intros ?)).
Defined.

Definition demo_summary : MailboxRecord :=
  match k_mailbox demo_claimed !! "agent1" with
  | Some m => m
  | None => mkMailbox "" "" 0 "" "" None 0 0 None None None None None None None None MS_idle 0 ""
  end.

Lemma incremental_is_rebuilt_witness :
  mb_queue_depth demo_summary = 2 ∧
  ∃ m' k', @rebuild_mailbox_summary demo_clock "agent1" (Some "t") demo_claimed = (Ok m', k') ∧
           mb_queue_depth m' = 2.
Proof.
  split; [by vm_compute|].
  destruct (@incremental_is_rebuilt demo_clock demo_clock_ok demo_claimed "agent1" demo_summary "t"
    demo_claimed_reachable demo_owner ltac:(by vm_compute) ltac:(by vm_compute))
    as (m' & k' & H & Hq & _).
  exists m', k'. split; [exact H|]. rewrite Hq. by vm_compute.
Defined.

Definition demo_consumed : kernel :=
  st_exec (@mark_terminal demo_clock "agent1" "iev_1" ES_consumed None) demo_claimed.
Definition demo_next : kernel :=
  st_exec (@claim demo_clock "agent1" "iev_2" None) demo_consumed.
Lemma demo_steps_consumed : rtc (@kernel_step demo_clock) demo_claimed demo_consumed.
Proof. apply rtc_once. by apply (@step_finish demo_clock). Qed.
Lemma demo_steps_next : rtc (@kernel_step demo_clock) demo_claimed demo_next.
Proof. eapply rtc_r; [apply demo_steps_consumed|]. by apply (@step_claim demo_clock). Qed.
Definition demo_finished : InboundEventRecord :=
  finished ES_consumed "2026-03-30T00:00:00Z" demo_delivering.

Lemma terminal_events_stay_witness :
  demo_finished ∈ ib_events (inbox_of (st_exec (@claim demo_clock "agent1" "iev_2" None) demo_consumed) "agent1").
Proof.
  refine (@terminal_events_stay demo_clock demo_clock_ok demo_consumed _ "agent1" demo_finished
    _ _ demo_owner _ eq_refl).
  - exact (transitivity demo_claimed_reachable demo_steps_consumed).
  - apply rtc_once. by apply (@step_claim demo_clock).
  - by apply (bool_decide_eq_true_1 _); vm_compute.
Defined.

Lemma lease_versions_fence_witness :
  k_lease demo_claimed !! "agent1" = Some (demo_lease "iev_1" 1) ∧
  k_lease demo_next !! "agent1" = Some (demo_lease "iev_2" 2) ∧
  (1 < 2 ∨ (2 = 1 ∧ "iev_2" = "iev_1")).
Proof.
  split_and!; [by vm_compute..|].
  exact (@lease_versions_fence demo_clock demo_clock_ok demo_claimed demo_next "agent1"
    (demo_lease "iev_1" 1) (demo_lease "iev_2" 2) demo_claimed_reachable demo_steps_next demo_owner
    ltac:(by vm_compute) ltac:(by vm_compute)).
Defined.

Lemma deliver_all_fifo_witness :
  ∃ k', @deliver_all demo_clock 2 "agent1" demo_enqueued = (Ok ["iev_1"; "iev_2"], k') ∧
        ib_queue (inbox_of k' "agent1") = [].
Proof.
  exact (@deliver_all_fifo demo_clock demo_clock_ok demo_enqueued "agent1" 2
    demo_enqueued_reachable demo_owner eq_refl ltac:(vm_compute; lia)).
Defined.
