(* ===== verification/CompletionModels.v ===== *)
(** * Completion records

    [completion/models_runtime]: the enums, the records of the completion
    tracking with their constructors, the helpers on item payloads, and the
    snapshot loader of [completion/snapshot_store.py]. *)
From S2P Require Import Prelude PyValue Names.
From Stdlib Require Import QArith.
Open Scope string_scope.
Open Scope list_scope.
Open Scope Z_scope.

Definition completion_schema_version : Z := 2.

Inductive CompletionStatus := CS_completed | CS_cancelled | CS_failed | CS_incomplete.
Inductive CompletionConfidence := CC_exact | CC_observed | CC_degraded.
Inductive CompletionFamily :=
  | CF_protocol_turn | CF_structured_result | CF_session_boundary
  | CF_anchored_session_stability | CF_terminal_text_quiet.
Inductive CompletionSourceKind :=
  | SK_protocol_event_stream | SK_structured_result_stream | SK_session_event_log
  | SK_session_snapshot | SK_terminal_text.
Inductive SelectorFamily := SF_final_message | SF_structured_result | SF_session_reply.
Inductive CompletionItemKind :=
  | IK_anchor_seen | IK_assistant_chunk | IK_assistant_final | IK_tool_call | IK_tool_result
  | IK_result | IK_turn_boundary | IK_turn_aborted | IK_cancel_info | IK_error | IK_pane_dead
  | IK_session_snapshot | IK_session_mutation | IK_session_rotate.
Inductive ReplyCandidateKind :=
  | RK_last_agent_message | RK_final_answer | RK_assistant_final
  | RK_assistant_chunk_merged | RK_session_reply | RK_fallback_text.

#[export] Instance CompletionStatus_eq_dec : EqDecision CompletionStatus.
Proof. solve_decision. Defined.
#[export] Instance CompletionConfidence_eq_dec : EqDecision CompletionConfidence.
Proof. solve_decision. Defined.
#[export] Instance CompletionFamily_eq_dec : EqDecision CompletionFamily.
Proof. solve_decision. Defined.
#[export] Instance CompletionSourceKind_eq_dec : EqDecision CompletionSourceKind.
Proof. solve_decision. Defined.
#[export] Instance CompletionItemKind_eq_dec : EqDecision CompletionItemKind.
Proof. solve_decision. Defined.
#[export] Instance ReplyCandidateKind_eq_dec : EqDecision ReplyCandidateKind.
Proof. solve_decision. Defined.

Definition completion_status_value (s : CompletionStatus) : string :=
  match s with
  | CS_completed => "completed" | CS_cancelled => "cancelled"
  | CS_failed => "failed" | CS_incomplete => "incomplete"
  end.
Definition completion_confidence_value (c : CompletionConfidence) : string :=
  match c with CC_exact => "exact" | CC_observed => "observed" | CC_degraded => "degraded" end.
Definition completion_family_value (f : CompletionFamily) : string :=
  match f with
  | CF_protocol_turn => "protocol_turn" | CF_structured_result => "structured_result"
  | CF_session_boundary => "session_boundary"
  | CF_anchored_session_stability => "anchored_session_stability"
  | CF_terminal_text_quiet => "terminal_text_quiet"
  end.
Definition source_kind_value (k : CompletionSourceKind) : string :=
  match k with
  | SK_protocol_event_stream => "protocol_event_stream"
  | SK_structured_result_stream => "structured_result_stream"
  | SK_session_event_log => "session_event_log"
  | SK_session_snapshot => "session_snapshot"
  | SK_terminal_text => "terminal_text"
  end.

Definition completion_statuses := [CS_completed; CS_cancelled; CS_failed; CS_incomplete].
Definition completion_status_of (s : string) : result CompletionStatus :=
  enum_of "CompletionStatus" completion_status_value completion_statuses s.

Definition REPLY_PRIORITY (k : ReplyCandidateKind) : Z :=
  match k with
  | RK_last_agent_message => 2 | RK_final_answer => 3 | RK_assistant_final => 4
  | RK_assistant_chunk_merged => 5 | RK_session_reply => 6 | RK_fallback_text => 7
  end.

(** ** Records *)
Record CompletionCursor := mkCursor {
  cu_source_kind : CompletionSourceKind;
  cu_opaque_cursor : option string;
  cu_session_path : option string;
  cu_offset : option Z;
  cu_line_no : option Z;
  cu_event_seq : option Z;
  cu_updated_at : option string
}.

Record CompletionItem := mkItem {
  it_kind : CompletionItemKind;
  it_timestamp : string;
  it_cursor : CompletionCursor;
  it_provider : string;
  it_agent_name : string;
  it_req_id : string;
  it_payload : pydict
}.

Record ReplyCandidate := mkCandidate {
  rc_kind : ReplyCandidateKind;
  rc_text : string;
  rc_timestamp : string;
  rc_provider_turn_ref : option string;
  rc_priority : option Z;
  rc_cursor : option CompletionCursor
}.

Record CompletionRequestContext := mkContext {
  cx_req_id : string;
  cx_agent_name : string;
  cx_provider : string;
  cx_timeout_s : Q;
  cx_anchor_text : option string;
  cx_poll_interval_s : Q
}.

Record CompletionState := mkState {
  st_anchor_seen : bool;
  st_reply_started : bool;
  st_reply_stable : bool;
  st_tool_active : bool;
  st_subagent_activity_seen : bool;
  st_last_reply_hash : option string;
  st_last_reply_at : option string;
  st_stable_since : option string;
  st_provider_turn_ref : option string;
  st_latest_cursor : option CompletionCursor;
  st_terminal : bool
}.

Record CompletionDecision := mkDecision {
  cd_terminal : bool;
  cd_status : CompletionStatus;
  cd_reason : option string;
  cd_confidence : option CompletionConfidence;
  cd_reply : string;
  cd_anchor_seen : bool;
  cd_reply_started : bool;
  cd_reply_stable : bool;
  cd_provider_turn_ref : option string;
  cd_source_cursor : option CompletionCursor;
  cd_finished_at : option string;
  cd_diagnostics : pydict
}.

Record CompletionSnapshot := mkSnapshot {
  sn_job_id : string;
  sn_agent_name : string;
  sn_profile_family : CompletionFamily;
  sn_state : CompletionState;
  sn_latest_decision : CompletionDecision;
  sn_latest_reply_preview : string;
  sn_updated_at : string
}.

(** ** Constructors *)
#[export] Instance CompletionCursor_eq_dec : EqDecision CompletionCursor.
Proof. solve_decision. Defined.
#[export] Instance CompletionState_eq_dec : EqDecision CompletionState.
Proof. solve_decision. Defined.

(** [==] on decisions. *)
Definition decision_eqb (d e : CompletionDecision) : bool :=
  bool_decide (cd_terminal d = cd_terminal e) && bool_decide (cd_status d = cd_status e)
  && bool_decide (cd_reason d = cd_reason e) && bool_decide (cd_confidence d = cd_confidence e)
  && bool_decide (cd_reply d = cd_reply e) && bool_decide (cd_anchor_seen d = cd_anchor_seen e)
  && bool_decide (cd_reply_started d = cd_reply_started e)
  && bool_decide (cd_reply_stable d = cd_reply_stable e)
  && bool_decide (cd_provider_turn_ref d = cd_provider_turn_ref e)
  && bool_decide (cd_source_cursor d = cd_source_cursor e)
  && bool_decide (cd_finished_at d = cd_finished_at e)
  && py_eqb (PDict (cd_diagnostics d)) (PDict (cd_diagnostics e)).

Definition negative (z : option Z) : bool := match z with Some z => z <? 0 | None => false end.
Definition is_none {A} (x : option A) : bool := match x with None => true | Some _ => false end.

Definition cursor_post_init (c : CompletionCursor) : result CompletionCursor :=
  _ ← raise_if (negative (cu_offset c)) (CompletionValidationError "offset cannot be negative");
  _ ← raise_if (negative (cu_line_no c)) (CompletionValidationError "line_no cannot be negative");
  _ ← raise_if (negative (cu_event_seq c)) (CompletionValidationError "event_seq cannot be negative");
  mret c.

Definition item_post_init (i : CompletionItem) : result CompletionItem :=
  _ ← raise_if (it_timestamp i =ˢ "") (CompletionValidationError "timestamp cannot be empty");
  let provider := lower (strip (it_provider i)) in
  _ ← raise_if (provider =ˢ "") (CompletionValidationError "provider cannot be empty");
  agent ← normalize_agent_name (it_agent_name i);
  _ ← raise_if (strip (it_req_id i) =ˢ "") (CompletionValidationError "req_id cannot be empty");
  mret (mkItem (it_kind i) (it_timestamp i) (it_cursor i) provider agent (it_req_id i) (it_payload i)).

Definition candidate_post_init (c : ReplyCandidate) : result ReplyCandidate :=
  let text := strip (rc_text c) in
  _ ← raise_if (text =ˢ "") (CompletionValidationError "reply candidate text cannot be empty");
  _ ← raise_if (rc_timestamp c =ˢ "")
        (CompletionValidationError "reply candidate timestamp cannot be empty");
  mret (mkCandidate (rc_kind c) text (rc_timestamp c) (rc_provider_turn_ref c)
          (Some (default (REPLY_PRIORITY (rc_kind c)) (rc_priority c))) (rc_cursor c)).

Definition context_post_init (c : CompletionRequestContext) : result CompletionRequestContext :=
  _ ← raise_if (strip (cx_req_id c) =ˢ "") (CompletionValidationError "req_id cannot be empty");
  agent ← normalize_agent_name (cx_agent_name c);
  let provider := lower (strip (cx_provider c)) in
  _ ← raise_if (provider =ˢ "") (CompletionValidationError "provider cannot be empty");
  _ ← raise_if (Qle_bool (cx_timeout_s c) 0) (CompletionValidationError "timeout_s must be positive");
  _ ← raise_if (Qle_bool (cx_poll_interval_s c) 0)
        (CompletionValidationError "poll_interval_s must be positive");
  mret (mkContext (cx_req_id c) agent provider (cx_timeout_s c) (cx_anchor_text c)
          (cx_poll_interval_s c)).

Definition decision_post_init (d : CompletionDecision) : result CompletionDecision :=
  _ ← (if cd_terminal d then
         _ ← raise_if (is_none (cd_reason d))
               (CompletionValidationError "terminal decisions require reason");
         _ ← raise_if (is_none (cd_confidence d))
               (CompletionValidationError "terminal decisions require confidence");
         raise_if (is_none (cd_finished_at d))
           (CompletionValidationError "terminal decisions require finished_at")
       else
         _ ← raise_if (cd_status d ≠ˢ CS_incomplete)
               (CompletionValidationError "non-terminal decisions must use status=incomplete");
         raise_if (negb (is_none (cd_reason d) && is_none (cd_confidence d)
                         && is_none (cd_finished_at d)))
           (CompletionValidationError
              "non-terminal decisions cannot set reason/confidence/finished_at"));
  mret d.

Definition pending_decision (cursor : option CompletionCursor) : CompletionDecision :=
  mkDecision false CS_incomplete None None "" false false false None cursor None [].

(** [decision.with_reply(reply)]. *)
Definition with_reply (d : CompletionDecision) (reply : string) : result CompletionDecision :=
  decision_post_init
    (mkDecision (cd_terminal d) (cd_status d) (cd_reason d) (cd_confidence d)
       (if reply =ˢ "" then cd_reply d else reply) (cd_anchor_seen d) (cd_reply_started d)
       (cd_reply_stable d) (cd_provider_turn_ref d) (cd_source_cursor d) (cd_finished_at d)
       (cd_diagnostics d)).

Definition snapshot_post_init (s : CompletionSnapshot) : result CompletionSnapshot :=
  _ ← raise_if (strip (sn_job_id s) =ˢ "") (CompletionValidationError "job_id cannot be empty");
  agent ← normalize_agent_name (sn_agent_name s);
  _ ← raise_if (sn_updated_at s =ˢ "") (CompletionValidationError "updated_at cannot be empty");
  mret (mkSnapshot (sn_job_id s) agent (sn_profile_family s) (sn_state s) (sn_latest_decision s)
          (sn_latest_reply_preview s) (sn_updated_at s)).

(** ** JSON *)
Definition cursor_to_record (c : CompletionCursor) : pydict :=
  [ ("schema_version", PInt completion_schema_version);
    ("record_type", PStr "completion_cursor");
    ("source_kind", PStr (source_kind_value (cu_source_kind c)));
    ("opaque_cursor", of_opt_str (cu_opaque_cursor c));
    ("session_path", of_opt_str (cu_session_path c));
    ("offset", of_opt_int (cu_offset c));
    ("line_no", of_opt_int (cu_line_no c));
    ("event_seq", of_opt_int (cu_event_seq c));
    ("updated_at", of_opt_str (cu_updated_at c)) ].

Definition completion_item_kind_value (k : CompletionItemKind) : string :=
  match k with
  | IK_anchor_seen => "anchor_seen" | IK_assistant_chunk => "assistant_chunk"
  | IK_assistant_final => "assistant_final" | IK_tool_call => "tool_call"
  | IK_tool_result => "tool_result" | IK_result => "result"
  | IK_turn_boundary => "turn_boundary" | IK_turn_aborted => "turn_aborted"
  | IK_cancel_info => "cancel_info" | IK_error => "error" | IK_pane_dead => "pane_dead"
  | IK_session_snapshot => "session_snapshot" | IK_session_mutation => "session_mutation"
  | IK_session_rotate => "session_rotate"
  end.
Definition item_to_record (i : CompletionItem) : pydict :=
  [ ("schema_version", PInt completion_schema_version);
    ("record_type", PStr "completion_item");
    ("kind", PStr (completion_item_kind_value (it_kind i)));
    ("timestamp", PStr (it_timestamp i));
    ("cursor", PDict (cursor_to_record (it_cursor i)));
    ("provider", PStr (it_provider i));
    ("agent_name", PStr (it_agent_name i));
    ("req_id", PStr (it_req_id i));
    ("payload", PDict (it_payload i)) ].

Definition state_to_record (s : CompletionState) : pydict :=
  [ ("schema_version", PInt completion_schema_version);
    ("record_type", PStr "completion_state");
    ("anchor_seen", PBool (st_anchor_seen s));
    ("reply_started", PBool (st_reply_started s));
    ("reply_stable", PBool (st_reply_stable s));
    ("tool_active", PBool (st_tool_active s));
    ("subagent_activity_seen", PBool (st_subagent_activity_seen s));
    ("last_reply_hash", of_opt_str (st_last_reply_hash s));
    ("last_reply_at", of_opt_str (st_last_reply_at s));
    ("stable_since", of_opt_str (st_stable_since s));
    ("provider_turn_ref", of_opt_str (st_provider_turn_ref s));
    ("latest_cursor", of_opt_record cursor_to_record (st_latest_cursor s));
    ("terminal", PBool (st_terminal s)) ].

Definition decision_to_record (d : CompletionDecision) : pydict :=
  [ ("schema_version", PInt completion_schema_version);
    ("record_type", PStr "completion_decision");
    ("terminal", PBool (cd_terminal d));
    ("status", PStr (completion_status_value (cd_status d)));
    ("reason", of_opt_str (cd_reason d));
    ("confidence", of_opt_str (completion_confidence_value <$> cd_confidence d));
    ("reply", PStr (cd_reply d));
    ("anchor_seen", PBool (cd_anchor_seen d));
    ("reply_started", PBool (cd_reply_started d));
    ("reply_stable", PBool (cd_reply_stable d));
    ("provider_turn_ref", of_opt_str (cd_provider_turn_ref d));
    ("source_cursor", of_opt_record cursor_to_record (cd_source_cursor d));
    ("finished_at", of_opt_str (cd_finished_at d));
    ("diagnostics", PDict (cd_diagnostics d)) ].

Definition snapshot_to_record (s : CompletionSnapshot) : pydict :=
  [ ("schema_version", PInt completion_schema_version);
    ("record_type", PStr "completion_snapshot");
    ("job_id", PStr (sn_job_id s));
    ("agent_name", PStr (sn_agent_name s));
    ("profile_family", PStr (completion_family_value (sn_profile_family s)));
    ("state", PDict (state_to_record (sn_state s)));
    ("latest_decision", PDict (decision_to_record (sn_latest_decision s)));
    ("latest_reply_preview", PStr (sn_latest_reply_preview s));
    ("updated_at", PStr (sn_updated_at s)) ].

Definition source_kind_of (v : pyval) : result CompletionSourceKind :=
  enum_of_val "CompletionSourceKind" source_kind_value
    [SK_protocol_event_stream; SK_structured_result_stream; SK_session_event_log;
     SK_session_snapshot; SK_terminal_text] v.
Definition confidence_of (v : pyval) : result CompletionConfidence :=
  enum_of_val "CompletionConfidence" completion_confidence_value
    [CC_exact; CC_observed; CC_degraded] v.
Definition family_of (v : pyval) : result CompletionFamily :=
  enum_of_val "CompletionFamily" completion_family_value
    [CF_protocol_turn; CF_structured_result; CF_session_boundary;
     CF_anchored_session_stability; CF_terminal_text_quiet] v.

Definition cursor_from_record (d : pydict) : result CompletionCursor :=
  _ ← validate_record completion_schema_version "completion_cursor" d;
  kind ← (dindex "source_kind" d ≫= source_kind_of);
  opaque ← opt_str "opaque_cursor" (dget "opaque_cursor" d);
  path ← opt_str "session_path" (dget "session_path" d);
  offset ← opt_int "offset" (dget "offset" d);
  line_no ← opt_int "line_no" (dget "line_no" d);
  seq ← opt_int "event_seq" (dget "event_seq" d);
  updated ← opt_str "updated_at" (dget "updated_at" d);
  cursor_post_init (mkCursor kind opaque path offset line_no seq updated).

Definition bool_at (k : string) (d : pydict) : bool := py_bool (dget_or k (PBool false) d).

Definition state_from_record (d : pydict) : result CompletionState :=
  _ ← validate_record completion_schema_version "completion_state" d;
  hash ← opt_str "last_reply_hash" (dget "last_reply_hash" d);
  reply_at ← opt_str "last_reply_at" (dget "last_reply_at" d);
  since ← opt_str "stable_since" (dget "stable_since" d);
  turn ← opt_str "provider_turn_ref" (dget "provider_turn_ref" d);
  cursor ← opt_record "latest_cursor" cursor_from_record (dget "latest_cursor" d);
  mret (mkState (bool_at "anchor_seen" d) (bool_at "reply_started" d) (bool_at "reply_stable" d)
          (bool_at "tool_active" d) (bool_at "subagent_activity_seen" d) hash reply_at since turn
          cursor (bool_at "terminal" d)).

Definition decision_from_record (d : pydict) : result CompletionDecision :=
  _ ← validate_record completion_schema_version "completion_decision" d;
  terminal ← dindex "terminal" d;
  status ← (dindex "status" d ≫=
              enum_of_val "CompletionStatus" completion_status_value completion_statuses);
  reason ← opt_str "reason" (dget "reason" d);
  confidence ← match dget "confidence" d with
               | PNone => mret None
               | v => (c ← confidence_of v; mret (Some c))
               end;
  reply ← opt_str "reply" (dget_or "reply" (PStr "") d);
  turn ← opt_str "provider_turn_ref" (dget "provider_turn_ref" d);
  cursor ← opt_record "source_cursor" cursor_from_record (dget "source_cursor" d);
  finished ← opt_str "finished_at" (dget "finished_at" d);
  diagnostics ← as_dict "diagnostics" (dget_or "diagnostics" (PDict []) d);
  decision_post_init
    (mkDecision (py_bool terminal) status reason confidence (default "" reply)
       (bool_at "anchor_seen" d) (bool_at "reply_started" d) (bool_at "reply_stable" d)
       turn cursor finished diagnostics).

Definition snapshot_from_record (d : pydict) : result CompletionSnapshot :=
  _ ← validate_record completion_schema_version "completion_snapshot" d;
  job_id ← (dindex "job_id" d ≫= as_str "job_id");
  agent ← (dindex "agent_name" d ≫= as_str "agent_name");
  family ← (dindex "profile_family" d ≫= family_of);
  sd ← (dindex "state" d ≫= as_dict "state");
  state ← state_from_record sd;
  dd ← (dindex "latest_decision" d ≫= as_dict "latest_decision");
  decision ← decision_from_record dd;
  preview ← opt_str "latest_reply_preview" (dget_or "latest_reply_preview" (PStr "") d);
  updated ← (dindex "updated_at" d ≫= as_str "updated_at");
  snapshot_post_init
    (mkSnapshot job_id agent family state decision (default "" preview) updated).

(** ** Helpers *)

(** [first_non_empty(payload, key, ...)]. *)
Fixpoint first_non_empty (payload : pydict) (keys : list string) : option string :=
  match keys with
  | [] => None
  | key :: rest =>
      match dget key payload with
      | PStr s => if strip s =ˢ "" then first_non_empty payload rest else Some (strip s)
      | _ => first_non_empty payload rest
      end
  end.

(** UTF-8 of code points below U+0100. *)
Fixpoint utf8_encode (s : string) : list ascii :=
  match s with
  | "" => []
  | String c s' =>
      let n := code c in
      if (n <? 128)%nat then c :: utf8_encode s'
      else ascii_of_nat (192 + n / 64) :: ascii_of_nat (128 + n mod 64) :: utf8_encode s'
  end.

(** [hashlib.sha256(...).hexdigest()] and [datetime.fromisoformat]: whether the
    time has an offset, and its microseconds since the epoch. *)
Class CompletionLib := {
  sha256_hexdigest : list ascii → string;
  fromisoformat : string → option (bool * Z)
}.

Section lib.
Context `{CompletionLib}.

(** [fingerprint_text(part, ...)], of parts that are converted by [str]. *)
Definition fingerprint_text (parts : list pyval) : result string :=
  bytes ← (fix go parts := match parts with
                           | [] => Ok []
                           | p :: rest =>
                               s ← py_str p; bs ← go rest;
                               Ok (utf8_encode s ++ ascii_of_nat 31 :: bs)
                           end) parts;
  mret (sha256_hexdigest bytes).

(** [value.replace('Z', '+00:00')]. *)
Fixpoint replace_z (s : string) : string :=
  match s with
  | "" => ""
  | String c s' => if (code c =? 90)%nat then "+00:00" +:+ replace_z s' else String c (replace_z s')
  end.

Definition parse_timestamp (value : string) : result (bool * Z) :=
  match fromisoformat (replace_z value) with
  | Some t => Ok t
  | None => Err (ValueError ("Invalid isoformat string: " +:+ repr_str (replace_z value)))
  end.

Definition seconds_between (start end_ : string) : result Q :=
  e ← parse_timestamp end_;
  s ← parse_timestamp start;
  _ ← raise_if (negb (Bool.eqb e.1 s.1))
        (TypeError "can't subtract offset-naive and offset-aware datetimes");
  mret ((e.2 - s.2) # 1000000)%Q.
End lib.

(** [parse_utc_timestamp]. *)
Definition strip_z (s : string) : string :=
  let n := String.length s in
  if (0 <? n)%nat && (String.substring (n - 1) 1 s =ˢ "Z")
  then String.substring 0 (n - 1) s +:+ "+00:00" else s.
Definition parse_utc_timestamp `{CompletionLib} (value : string) : option (bool * Z) :=
  fromisoformat (strip_z (strip value)).

(** One candidate of [reply_candidates_from_item]. *)
Definition candidate_of (item : CompletionItem) (kind : ReplyCandidateKind) (applies : bool)
    (keys : list string) : result (list ReplyCandidate) :=
  let turn := first_non_empty (it_payload item)
                ["turn_id"; "provider_turn_ref"; "message_id"; "session_id"] in
  if applies then
    match first_non_empty (it_payload item) keys with
    | Some text =>
        (c ← candidate_post_init
               (mkCandidate kind text (it_timestamp item) turn None (Some (it_cursor item)));
         mret [c])
    | None => mret []
    end
  else mret [].

Definition reply_candidates_from_item (item : CompletionItem) : result (list ReplyCandidate) :=
  let kind := it_kind item in
  c1 ← candidate_of item RK_last_agent_message true ["last_agent_message"];
  c2 ← candidate_of item RK_final_answer (kind =ˢ IK_result)
         ["reply"; "result_text"; "final_answer"; "text"];
  c3 ← candidate_of item RK_assistant_final (kind =ˢ IK_assistant_final) ["text"; "reply"];
  c4 ← candidate_of item RK_assistant_chunk_merged (kind =ˢ IK_assistant_chunk)
         ["merged_text"; "text"; "reply"];
  c5 ← candidate_of item RK_session_reply
         (bool_decide (kind ∈ [IK_session_snapshot; IK_session_mutation]))
         ["reply"; "content"; "text"];
  c6 ← candidate_of item RK_fallback_text true ["fallback_text"];
  mret (c1 ++ c2 ++ c3 ++ c4 ++ c5 ++ c6).

(** ** Round trips *)
#[export] Instance source_kind_value_inj : Inj (=) (=) source_kind_value.
Proof. by intros [] []. Qed.

Lemma source_kind_of_value k : source_kind_of (PStr (source_kind_value k)) = Ok k.
Proof. by destruct k. Qed.
Lemma confidence_of_value c : confidence_of (PStr (completion_confidence_value c)) = Ok c.
Proof. by destruct c. Qed.
Lemma family_of_value f : family_of (PStr (completion_family_value f)) = Ok f.
Proof. by destruct f. Qed.
Lemma completion_status_of_value s :
  enum_of_val "CompletionStatus" completion_status_value completion_statuses
    (PStr (completion_status_value s)) = Ok s.
Proof. by destruct s. Qed.

Lemma cursor_from_to' c : cursor_post_init c = Ok c → cursor_from_record (cursor_to_record c) = Ok c.
Proof.
  intros Hv. unfold cursor_from_record, cursor_to_record.
  rewrite validate_record_ok by reflexivity. dict_simpl.
  rewrite !result_bind_ok, source_kind_of_value, !opt_int_of, !result_bind_ok. by destruct c.
Qed.

(** A record's cursor was built by its constructor. *)
Definition cursor_valid (c : option CompletionCursor) : Prop :=
  ∀ x, c = Some x → cursor_post_init x = Ok x.

Lemma opt_cursor_from_to f c :
  cursor_valid c → opt_record f cursor_from_record (of_opt_record cursor_to_record c) = Ok c.
Proof. intros Hc. apply opt_record_of. intros x Hx. by apply cursor_from_to', Hc. Qed.

Lemma state_from_to' s :
  cursor_valid (st_latest_cursor s) → state_from_record (state_to_record s) = Ok s.
Proof.
  intros Hc. unfold state_from_record, state_to_record, bool_at.
  rewrite validate_record_ok by reflexivity. dict_simpl.
  rewrite !result_bind_ok, opt_cursor_from_to by done. rewrite result_bind_ok. by destruct s.
Qed.

Lemma decision_from_to' d :
  cursor_valid (cd_source_cursor d) → decision_post_init d = Ok d →
  decision_from_record (decision_to_record d) = Ok d.
Proof.
  intros Hc Hv. unfold decision_from_record, decision_to_record, bool_at.
  rewrite validate_record_ok by reflexivity. dict_simpl.
  rewrite !result_bind_ok, completion_status_of_value, !result_bind_ok.
  replace (match of_opt_str _ with PNone => _ | _ => _ end)
    with (Ok (cd_confidence d)) by by destruct d as [? ? ? [[]|]].
  cbn [opt_str as_dict default from_option id py_bool]. rewrite !result_bind_ok.
  rewrite opt_cursor_from_to by done. rewrite !result_bind_ok. by destruct d.
Qed.

Lemma snapshot_from_to' s :
  snapshot_post_init s = Ok s → decision_post_init (sn_latest_decision s) = Ok (sn_latest_decision s) →
  cursor_valid (st_latest_cursor (sn_state s)) →
  cursor_valid (cd_source_cursor (sn_latest_decision s)) →
  snapshot_from_record (snapshot_to_record s) = Ok s.
Proof.
  intros Hv Hd Hc1 Hc2. unfold snapshot_from_record, snapshot_to_record.
  rewrite validate_record_ok by reflexivity. dict_simpl.
  rewrite !result_bind_ok, family_of_value. cbn [as_str as_dict opt_str]. rewrite !result_bind_ok.
  rewrite state_from_to', !result_bind_ok, decision_from_to', !result_bind_ok by done.
  by destruct s.
Qed.

Lemma decision_valid_with_reply d r d' :
  decision_post_init d = Ok d → with_reply d r = Ok d' →
  decision_post_init d' = Ok d' ∧ cd_terminal d' = cd_terminal d ∧ cd_status d' = cd_status d.
Proof.
  unfold with_reply, decision_post_init. intros H1 H2. inv_result. subst d'. cbn in *.
  split_and!; [|done..]. by match goal with E : _ = Ok _ |- _ => rewrite E end.
Qed.

(** A library for the witnesses: times are decimal seconds. *)
Definition demo_lib : CompletionLib := {|
  sha256_hexdigest := String.string_of_list_ascii;
  fromisoformat := λ s, option_map (λ z, (true, z * 1000000)%Z) (parse_int s)
|}.
