(* ===== verification/Supervision.v ===== *)
(** * Supervising the agents

    [ccbd/supervision]: the pass that keeps every configured agent mounted: when
    an agent is mounted or recovered, what an attempt leaves behind, and how
    long a failed one is left alone; [services/runtime_recovery_policy.py]. *)
From stdpp Require Import pretty.
From S2P Require Import Prelude PyValue Names AgentModels MailboxKernel AgentRuntimes AgentRegistry RuntimeAttach RuntimeService CompletionModels.
Open Scope string_scope.
Open Scope list_scope.
Open Scope Z_scope.

(** ** The policy *)
Definition normalized_runtime_health (r : AgentRuntime) : string := lower (strip (ag_health r)).
Definition RECOVERABLE_RUNTIME_HEALTHS : list string := ["pane-dead"; "pane-missing"].
Definition SUCCESS_RUNTIME_HEALTHS : list string := ["healthy"; "restored"].
Definition should_attempt_background_recovery (r : AgentRuntime) : bool :=
  bool_decide (ag_state r = AG_degraded) && negb (bool_decide (ag_binding_source r = RB_external_attach)) &&
  bool_decide (normalized_runtime_health r ∈ RECOVERABLE_RUNTIME_HEALTHS).

(** ** Backing off *)
Definition backoff_delay_seconds (restart_count : Z) : Z :=
  let failures := Z.max 1 restart_count in Z.min (2 ^ (failures - 1)) 30.
(** Texts that are no times end the window; a time with an offset does not
    compare with one without. *)
Definition is_in_backoff_window `{CompletionLib} (r : AgentRuntime) (now : string) : result bool :=
  if (strip (default "" (ag_last_failure_reason r)) =ˢ "") || (strip (default "" (ag_last_reconcile_at r)) =ˢ "") then mret false
  else match parse_utc_timestamp now, parse_utc_timestamp (default "" (ag_last_reconcile_at r)) with
       | Some (aware_n, n), Some (aware_p, p) =>
           if Bool.eqb aware_n aware_p then mret (n <? p + 1000000 * backoff_delay_seconds (ag_restart_count r))
           else Err (TypeError "can't compare offset-naive and offset-aware datetimes")
       | _, _ => mret false
       end.

(** ** The world of the supervisor

    The functions that mount one agent and that build the project's namespace
    anew, whether an agent without a runtime is to be mounted, the options of
    the configuration it looks at, the socket of the project's tmux server,
    [Path(p).expanduser().resolve()], and what is seen at the slot of [cmd]. *)
Inductive CmdProbe :=
  | CP_namespace_unavailable | CP_no_backend | CP_deferred | CP_healthy | CP_replaced | CP_replace_deferred | CP_replace_failed.
Class SupervisionWorld := {
  sw_mount_agent : option (string → Fl unit);
  sw_remount_project : option (string → Fl unit);
  sw_mount_missing : string → bool;
  sw_cmd_enabled : bool;
  sw_windows_explicit : bool;
  sw_tmux_socket_path : string;
  sw_resolve_path : string → option string;
  sw_cmd_probe : CmdProbe
}.
Definition not_callable : exn := TypeError "'NoneType' object is not callable".
Definition call_with (f : option (string → Fl unit)) (arg : string) : Fl unit :=
  match f with Some f => f arg | None => st_raise not_callable end.
Definition same_socket_path `{SupervisionWorld} (left right : string) : bool :=
  let left_text := strip left in
  let right_text := strip right in
  if (left_text =ˢ "") || (right_text =ˢ "") then false
  else match sw_resolve_path left_text, sw_resolve_path right_text with
       | Some l, Some r => l =ˢ r
       | _, _ => left_text =ˢ right_text
       end.

(** ** What a runtime needs *)
Definition runtime_requires_mount (r : AgentRuntime) : bool :=
  let desired := strip (default "" (ag_desired_state r)) in
  let reconcile := strip (default "" (ag_reconcile_state r)) in
  if bool_decide (ag_state r = AG_stopped) && (desired =ˢ "stopped") && (reconcile =ˢ "stopped") then false
  else if desired ≠ˢ "mounted" then false
  else bool_decide (ag_state r ∈ [AG_stopped; AG_failed]).
Definition resolved_reconcile_state (r : AgentRuntime) : option string :=
  let reconcile_state := ag_reconcile_state r in
  match ag_state r with
  | AG_stopped => Some "stopped"
  | AG_failed => Some "failed"
  | AG_degraded => if bool_decide (reconcile_state = Some "steady") then Some "degraded" else reconcile_state
  | AG_starting | AG_idle | AG_busy =>
      if bool_decide (reconcile_state ∈ [None; Some ""; Some "degraded"; Some "recovering"; Some "failed"; Some "stopped"])
      then Some "steady" else reconcile_state
  | AG_stopping => reconcile_state
  end.
Definition authority_adopt_required (r : AgentRuntime) (next_generation : option Z) : bool :=
  match next_generation with
  | None => false
  | Some g =>
      negb (bool_decide (ag_binding_source r = RB_external_attach)) && bool_decide (ag_state r ∈ [AG_idle; AG_busy; AG_degraded]) &&
      negb (bool_decide (ag_daemon_generation r = Some g))
  end.
Definition pane_of_text (v : option string) : option string :=
  let pane_id := strip (default "" v) in if String.prefix "%" pane_id then Some pane_id else None.
Definition runtime_active_pane_id (r : AgentRuntime) : option string :=
  match pane_of_text (ag_active_pane_id r), pane_of_text (ag_pane_id r) with
  | Some p, _ => Some p
  | None, Some p => Some p
  | None, None =>
      let runtime_ref := strip (default "" (ag_runtime_ref r)) in
      if String.prefix "tmux:%" runtime_ref then Some (String.substring 5 (String.length runtime_ref - 5) runtime_ref) else None
  end.
Definition recovered_pane_replaced (r recovered : AgentRuntime) : bool :=
  match runtime_active_pane_id r, runtime_active_pane_id recovered with
  | Some previous, Some current => previous ≠ˢ current
  | _, _ => false
  end.

Section supervision.
Context `{HClock : Clock} `{HLib : CompletionLib} `{HConfig : FleetConfig} `{HIds : FullUuids} `{HProviders : ProviderWorld}
  `{HWorld : SupervisionWorld} (generation : option Z).

Definition upsert_if_changed (r : AgentRuntime) (updates : list RuntimeUpdate) : Fl AgentRuntime :=
  found ← get (ag_agent_name r);
  let current := default r found in
  candidate ← st_lift (replace current updates);
  if bool_decide (candidate = current) then mret current else upsert_authority candidate.
(** The runtime under the generation of this daemon. *)
Definition align_runtime_authority (r : AgentRuntime) : Fl AgentRuntime :=
  aligned ← (if authority_adopt_required r generation then adopt_runtime_authority generation r generation else mret r);
  let daemon_generation := match generation with None => ag_daemon_generation (ag_authority aligned) | Some _ => generation end in
  let desired_state := if bool_decide (ag_state r = AG_stopped) then "stopped" else "mounted" in
  upsert_if_changed aligned
    [U_daemon_generation daemon_generation; U_desired_state (Some desired_state); U_reconcile_state (resolved_reconcile_state aligned)].
Definition resolved_runtime (agent_name : string) : Fl (option AgentRuntime) :=
  runtime ← get agent_name;
  match runtime with
  | None => mret None
  | Some r => aligned ← align_runtime_authority r; mret (Some aligned)
  end.
Definition runtime_belongs_to_project_socket (r : AgentRuntime) : bool :=
  let socket_path := strip (default "" (ag_tmux_socket_path r)) in
  if socket_path =ˢ "" then false else same_socket_path socket_path sw_tmux_socket_path.
Definition explicit_topology_project_socket_foreign_pane (r : AgentRuntime) : bool :=
  sw_windows_explicit && (normalized_runtime_health r =ˢ "pane-foreign") && runtime_belongs_to_project_socket r.
Fixpoint busy_among (skip : option string) (names : list string) : Fl bool :=
  match names with
  | [] => mret false
  | other_name :: rest =>
      other ← get other_name;
      match other with
      | Some o =>
          if negb (bool_decide (Some (ag_agent_name (ag_authority o)) = skip)) && bool_decide (ag_state o = AG_busy) then mret true
          else busy_among skip rest
      | None => busy_among skip rest
      end
  end.
Definition other_project_agent_busy (agent_name : string) : Fl bool := busy_among (Some agent_name) (fc_agents.*1).
Definition runtime_mode_spec (agent_name : string) : option AgentSpec :=
  match spec_for agent_name with Ok spec => Some spec | Err _ => None end.
Definition project_namespace_reflow_safe (agent_name : string) : Fl bool :=
  match sw_remount_project, runtime_mode_spec agent_name with
  | Some _, Some spec =>
      if bool_decide (as_runtime_mode spec = RM_pane_backed)
      then busy ← other_project_agent_busy agent_name; mret (negb busy)
      else mret false
  | _, _ => mret false
  end.
Definition recovered_replacement_requires_workspace_reflow (r recovered : AgentRuntime) : Fl bool :=
  if negb (bool_decide (normalized_runtime_health r ∈ ["pane-dead"; "pane-missing"; "pane-foreign"])) then mret false
  else
    safe ← project_namespace_reflow_safe (ag_agent_name r);
    mret (safe && runtime_belongs_to_project_socket recovered && recovered_pane_replaced r recovered).
Definition should_reflow_project_namespace (r : AgentRuntime) (recovered : option AgentRuntime) : Fl bool :=
  replaced ← match recovered with Some r' => recovered_replacement_requires_workspace_reflow r r' | None => mret false end;
  if (replaced : bool) then mret true
  else if negb (normalized_runtime_health r =ˢ "pane-foreign") || explicit_topology_project_socket_foreign_pane r then mret false
  else
    safe ← project_namespace_reflow_safe (ag_agent_name r);
    mret (safe && runtime_belongs_to_project_socket r).
Definition should_reflow_project_mount (agent_name : string) : Fl bool :=
  if negb sw_cmd_enabled then mret false else project_namespace_reflow_safe agent_name.
Definition runtime_requires_mount_from_foreign_pane (r : AgentRuntime) : Fl bool :=
  if negb (normalized_runtime_health r =ˢ "pane-foreign") || explicit_topology_project_socket_foreign_pane r then mret false
  else reflow ← should_reflow_project_namespace r None; mret (negb reflow).
Definition runtime_requires_recovery (r : AgentRuntime) : Fl bool :=
  reflow ← should_reflow_project_namespace r None;
  mret (reflow || explicit_topology_project_socket_foreign_pane r || should_attempt_background_recovery r).

(** ** Events *)
Definition record_event (event_kind agent_name occurred_at prior_health result_health : string) (r : AgentRuntime) (details : pydict)
    : Fl unit :=
  append_event (mkEvent event_kind fc_project_id agent_name occurred_at (ag_daemon_generation r) (ag_desired_state r)
    (ag_reconcile_state r) (Some prior_health) (Some result_health) (Some (agent_state_value (ag_state r))) (ag_runtime_ref r)
    (ag_session_ref r) details).
Definition record_mount_started (agent_name attempted_at prior_health : string) (r : AgentRuntime) : Fl unit :=
  record_event "mount_started" agent_name attempted_at prior_health (ag_health r) r
    (match truthy_or (ag_mount_attempt_id r) None with Some a => [("mount_attempt_id", PStr a)] | None => [] end).
Definition record_mount_failed (agent_name attempted_at prior_health : string) (r : AgentRuntime) (reason : string) : Fl unit :=
  record_event "mount_failed" agent_name attempted_at prior_health (ag_health r) r [("reason", PStr reason)].
Definition record_mount_superseded (agent_name attempted_at prior_health : string) (r : AgentRuntime) (attempt_id : option string)
    : Fl unit :=
  record_event "mount_superseded" agent_name attempted_at prior_health (ag_health r) r [("mount_attempt_id", of_opt_str attempt_id)].
Definition record_mount_succeeded (agent_name attempted_at prior_health : string) (r : AgentRuntime) : Fl unit :=
  record_event "mount_succeeded" agent_name attempted_at prior_health (ag_health r) r [("restart_count", PInt (ag_restart_count r))].

(** ** Mounting *)
Definition starting_args (spec : AgentSpec) (agent_name workspace_path : string) : AttachArgs :=
  mkAttach agent_name workspace_path (runtime_mode_value (as_runtime_mode spec)) None None None (Some "starting")
    (Some (as_provider spec)) None None None None None None None None None None None None None None None None (Some "starting") None
    (Some "ccbd") (Some RB_provider_session).
Definition build_starting_runtime (agent_name : string) (runtime : option AgentRuntime) (attempted_at : string) : Fl AgentRuntime :=
  spec ← st_lift (spec_for agent_name);
  let workspace_path := fc_workspace_path agent_name (as_workspace_root spec) in
  let mode := runtime_mode_value (as_runtime_mode spec) in
  current ← match runtime with
            | None => attach generation (starting_args spec agent_name workspace_path)
            | Some r =>
                if authority_adopt_required r generation then adopt_runtime_authority generation r generation else mret r
            end;
  candidate ← st_lift (replace current
    [U_state AG_starting; U_health "starting"; U_workspace_path (truthy_or (ag_workspace_path (ag_authority current)) (Some workspace_path));
     U_backend_type (if ag_backend_type current =ˢ "" then mode else ag_backend_type current);
     U_provider (truthy_or (ag_provider current) (Some (as_provider spec))); U_lifecycle_state (Some "starting");
     U_daemon_generation (match runtime with Some _ => ag_daemon_generation current | None => generation end);
     U_desired_state (Some "mounted"); U_reconcile_state (Some "starting"); U_last_reconcile_at (Some attempted_at);
     U_last_failure_reason None]);
  current ← (if bool_decide (candidate = current) then mret current else upsert_authority candidate);
  started ← begin_mount_attempt current attempted_at;
  mret (fst started).
Definition mount_or_reflow (agent_name : string) : Fl unit :=
  reflow ← should_reflow_project_mount agent_name;
  if (reflow : bool) then call_with sw_remount_project ("mount_recovery:" +:+ agent_name)
  else call_with sw_mount_agent agent_name.
Definition persist_mount_failure (r : AgentRuntime) (agent_name attempted_at prior_health : string) (next_restart_count : Z)
    (reason : string) : Fl string :=
  failed ← upsert_if_changed r
    [U_state AG_failed; U_health "start-failed"; U_lifecycle_state (Some "failed"); U_reconcile_state (Some "failed");
     U_restart_count next_restart_count; U_last_reconcile_at (Some attempted_at); U_last_failure_reason (Some reason)];
  _ ← record_mount_failed agent_name attempted_at prior_health failed (str_or (ag_last_failure_reason (ag_fields failed)) reason);
  mret (ag_health (ag_fields failed)).
Definition stabilize_superseded_runtime (r : AgentRuntime) (attempted_at : string) : Fl AgentRuntime :=
  if bool_decide (ag_state r = AG_idle) && bool_decide (ag_reconcile_state r = Some "starting") then
    patch_runtime_state r
      [U_reconcile_state (Some "steady"); U_last_reconcile_at (Some attempted_at); U_last_failure_reason None;
       U_lifecycle_state (Some "idle")]
  else mret r.
(** Another attempt has taken over: its runtime stays as it is. *)
Definition mount_superseded (current : AgentRuntime) (agent_name attempted_at prior_health : string) (attempt_id : option string)
    : Fl string :=
  aligned ← align_runtime_authority current;
  stable ← stabilize_superseded_runtime aligned attempted_at;
  _ ← record_mount_superseded agent_name attempted_at prior_health stable attempt_id;
  mret (ag_health (ag_fields stable)).
Definition failure_text (e : exn) : string := exn_type e +:+ ": " +:+ exn_text e.
(** The two [except] clauses: tmux is not there at the moment, or the mount
    failed. *)
Definition mount_raised (runtime : option AgentRuntime) (starting : AgentRuntime) (agent_name attempted_at prior_health : string)
    (next_restart_count : Z) (e : exn) : Fl string :=
  let attempt_id := ag_mount_attempt_id starting in
  let reason := failure_text e in
  outcome ← match e with
    | TmuxTransientServerUnavailable _ =>
        finalize_mount_attempt_failure agent_name attempt_id attempted_at
          (match runtime with None => AG_failed | Some r => ag_state r end)
          (match runtime with None => "start-deferred" | Some r => str_or (Some (ag_health r)) "start-deferred" end) "deferred"
          next_restart_count reason (match runtime with None => Some "degraded" | Some r => ag_lifecycle_state r end)
    | _ =>
        finalize_mount_attempt_failure agent_name attempt_id attempted_at AG_failed "start-failed" "failed" next_restart_count reason
          (Some "failed")
    end;
  match outcome with
  | (Some finalized, true) =>
      _ ← record_mount_failed agent_name attempted_at prior_health finalized reason;
      mret (ag_health (ag_fields finalized))
  | (finalized, _) =>
      found ← match finalized with Some f => mret (Some f) | None => get agent_name end;
      mount_superseded (default starting found) agent_name attempted_at prior_health attempt_id
  end.
(** A mount that returned without a runtime, or with one that is not well. *)
Definition mount_unhealthy (starting : AgentRuntime) (refreshed : option AgentRuntime) (agent_name attempted_at prior_health : string)
    (next_restart_count : Z) (health reason : string) (lifecycle_state : option string) : Fl string :=
  let attempt_id := ag_mount_attempt_id starting in
  outcome ← finalize_mount_attempt_failure agent_name attempt_id attempted_at AG_failed health "failed" next_restart_count reason
              lifecycle_state;
  match outcome with
  | (Some finalized, true) => persist_mount_failure finalized agent_name attempted_at prior_health next_restart_count reason
  | (finalized, _) =>
      mount_superseded (default (default starting refreshed) finalized) agent_name attempted_at prior_health attempt_id
  end.
Definition mount_returned (starting : AgentRuntime) (agent_name attempted_at prior_health : string) (next_restart_count : Z) : Fl string :=
  let attempt_id := ag_mount_attempt_id starting in
  found ← get agent_name;
  match found with
  | None => mount_unhealthy starting None agent_name attempted_at prior_health next_restart_count "start-failed"
              "runtime-missing-after-mount" (Some "failed")
  | Some r =>
      refreshed ← align_runtime_authority r;
      let refreshed_health := str_or (Some (normalized_runtime_health refreshed)) (ag_health refreshed) in
      if negb (bool_decide (refreshed_health ∈ SUCCESS_RUNTIME_HEALTHS)) then
        mount_unhealthy starting (Some refreshed) agent_name attempted_at prior_health next_restart_count
          (str_or (Some refreshed_health) "start-failed") (str_or (Some refreshed_health) "mount-produced-unhealthy-runtime")
          (ag_lifecycle_state refreshed)
      else
        outcome ← finalize_mount_attempt_success agent_name attempt_id attempted_at next_restart_count;
        match outcome with
        | (Some mounted, true) =>
            _ ← record_mount_succeeded agent_name attempted_at prior_health mounted;
            mret (ag_health (ag_fields mounted))
        | (mounted, _) => mount_superseded (default refreshed mounted) agent_name attempted_at prior_health attempt_id
        end
  end.
Definition mount_attempt (agent_name : string) (runtime : option AgentRuntime) (attempted_at : string) : Fl string :=
  starting ← build_starting_runtime agent_name runtime attempted_at;
  let prior_health := match runtime with Some r => ag_health r | None => "unmounted" end in
  let next_restart_count := ag_restart_count (ag_fields starting) + 1 in
  _ ← record_mount_started agent_name attempted_at prior_health starting;
  failure ← st_try (_ ← mount_or_reflow agent_name; mret None) (λ e, mret (Some e));
  match failure with
  | Some e => mount_raised runtime starting agent_name attempted_at prior_health next_restart_count e
  | None => mount_returned starting agent_name attempted_at prior_health next_restart_count
  end.
Definition ensure_mounted (agent_name : string) (runtime : option AgentRuntime) : Fl string :=
  let health := match runtime with Some r => ag_health r | None => "unmounted" end in
  if negb (is_set sw_mount_agent) && negb (is_set sw_remount_project) then mret health
  else
    attempted_at ← fl_now;
    waiting ← match runtime with Some r => st_lift (is_in_backoff_window r attempted_at) | None => mret false end;
    if (waiting : bool) then mret health else mount_attempt agent_name runtime attempted_at.

(** ** Recovering *)
Definition start_recovery (r : AgentRuntime) (agent_name attempted_at prior_health : string) : Fl AgentRuntime :=
  recovering ← upsert_if_changed r
    [U_reconcile_state (Some "recovering"); U_last_reconcile_at (Some attempted_at); U_lifecycle_state (Some "recovering")];
  _ ← record_event "recover_started" agent_name attempted_at prior_health prior_health recovering [];
  mret recovering.
Definition remount_for_recovery (agent_name : string) : Fl (option AgentRuntime) :=
  _ ← call_with sw_remount_project ("pane_recovery:" +:+ agent_name); get agent_name.
Definition attempt_recovery_action (agent_name : string) (recovering : AgentRuntime) : Fl (option AgentRuntime) :=
  reflow ← should_reflow_project_namespace recovering None;
  if (reflow : bool) then remount_for_recovery agent_name
  else
    refreshed ← refresh_provider_binding generation agent_name true;
    match refreshed with
    | None => mret None
    | Some r =>
        replaced ← should_reflow_project_namespace recovering (Some r);
        if (replaced : bool) then remount_for_recovery agent_name else mret (Some r)
    end.
Definition mark_recovery_missing (recovering : AgentRuntime) (agent_name attempted_at : string) (restart_count : Z) (prior_health : string)
    : Fl string :=
  failed ← upsert_if_changed recovering
    [U_reconcile_state (Some "degraded"); U_restart_count restart_count; U_last_reconcile_at (Some attempted_at);
     U_last_failure_reason (Some "runtime-missing-after-recover"); U_lifecycle_state (Some "degraded")];
  _ ← record_event "recover_failed" agent_name attempted_at prior_health "unmounted" failed
        [("reason", PStr "runtime-missing-after-recover")];
  mret "unmounted".
Definition mark_recovery_succeeded (refreshed : AgentRuntime) (agent_name attempted_at : string) (restart_count : Z)
    (prior_health next_health : string) : Fl string :=
  stabilized ← upsert_if_changed refreshed
    [U_reconcile_state (Some "steady"); U_restart_count restart_count; U_last_reconcile_at (Some attempted_at);
     U_last_failure_reason None; U_lifecycle_state (Some (agent_state_value (ag_state refreshed)))];
  _ ← record_event "recover_succeeded" agent_name attempted_at prior_health next_health stabilized
        [("restart_count", PInt (ag_restart_count stabilized))];
  mret (ag_health (ag_fields stabilized)).
Definition mark_recovery_failed (refreshed : AgentRuntime) (agent_name attempted_at : string) (restart_count : Z)
    (prior_health next_health : string) (failure_reason : option string) : Fl string :=
  failed ← upsert_if_changed refreshed
    [U_reconcile_state (Some "degraded"); U_restart_count restart_count; U_last_reconcile_at (Some attempted_at);
     U_last_failure_reason (truthy_or failure_reason (truthy_or (Some next_health) (truthy_or (Some prior_health) (Some "recover-failed"))));
     U_lifecycle_state (if bool_decide (ag_state refreshed = AG_degraded) then Some "degraded" else ag_lifecycle_state refreshed)];
  _ ← record_event "recover_failed" agent_name attempted_at prior_health next_health failed
        [("reason", PStr (str_or (ag_last_failure_reason (ag_fields failed)) "recover-failed"))];
  mret (ag_health (ag_fields failed)).
Definition recovery_attempt (agent_name : string) (r : AgentRuntime) (attempted_at : string) : Fl string :=
  let prior_health := str_or (Some (normalized_runtime_health r)) (ag_health r) in
  recovering ← start_recovery r agent_name attempted_at prior_health;
  let restart_count := ag_restart_count (ag_fields recovering) + 1 in
  outcome ← st_try (refreshed ← attempt_recovery_action agent_name recovering; mret (refreshed, None))
    (λ e, found ← get agent_name; mret (Some (default recovering found), Some (failure_text e)));
  match outcome with
  | (None, _) => mark_recovery_missing recovering agent_name attempted_at restart_count prior_health
  | (Some refreshed, failure_reason) =>
      refreshed ← align_runtime_authority refreshed;
      let next_health := str_or (Some (normalized_runtime_health refreshed)) (ag_health refreshed) in
      if bool_decide (next_health ∈ SUCCESS_RUNTIME_HEALTHS)
      then mark_recovery_succeeded refreshed agent_name attempted_at restart_count prior_health next_health
      else mark_recovery_failed refreshed agent_name attempted_at restart_count prior_health next_health failure_reason
  end.
Definition recover_runtime (agent_name : string) (r : AgentRuntime) : Fl string :=
  attempted_at ← fl_now;
  waiting ← st_lift (is_in_backoff_window r attempted_at);
  if (waiting : bool) then mret (ag_health r) else recovery_attempt agent_name r attempted_at.

(** ** The pass *)
Definition request_cmd_workspace_reflow : Fl string :=
  match sw_remount_project with
  | None => mret "unhealthy"
  | Some remount =>
      busy ← busy_among None (fc_agents.*1);
      if (busy : bool) then mret "blocked-busy" else _ ← remount "pane_recovery:cmd"; mret "recovering"
  end.
Definition reconcile_cmd_slot : Fl (option string) :=
  if negb sw_cmd_enabled then mret None
  else match sw_cmd_probe with
       | CP_namespace_unavailable => mret (Some "namespace-unavailable")
       | CP_deferred | CP_replace_deferred => mret (Some "deferred")
       | CP_healthy => mret (Some "healthy")
       | CP_replaced => mret (Some "restored-local")
       | CP_no_backend | CP_replace_failed => s ← request_cmd_workspace_reflow; mret (Some s)
       end.
Definition reconcile_agent (agent_name : string) : Fl string :=
  runtime ← resolved_runtime agent_name;
  match runtime with
  | None => if negb (sw_mount_missing agent_name) then mret "unmounted" else ensure_mounted agent_name None
  | Some r =>
      if runtime_requires_mount r then ensure_mounted agent_name (Some r)
      else
        foreign ← runtime_requires_mount_from_foreign_pane r;
        if (foreign : bool) then ensure_mounted agent_name (Some r)
        else
          recovery ← runtime_requires_recovery r;
          if negb recovery then mret (ag_health r) else recover_runtime agent_name r
  end.
Fixpoint reconcile_agents (names : list string) : Fl (list (string * string)) :=
  match names with
  | [] => mret []
  | n :: rest => s ← reconcile_agent n; statuses ← reconcile_agents rest; mret ((n, s) :: statuses)
  end.
(** [suspended] is what the function of that name answers. *)
Definition reconcile_once (suspended : bool) : Fl (list (string * string)) :=
  if suspended then mret ((λ n, (n, "suspended")) <$> fc_agents.*1)
  else _ ← reconcile_cmd_slot; reconcile_agents (fc_agents.*1).
End supervision.
