(* ===== verification/Lease.v ===== *)
(** * The lease of a project's daemon

    [ccbd/models_runtime/mount.py] and the loader of [services/mount.py]: who
    holds a project's daemon, since when, and in which generation. *)
From stdpp Require Import pretty.
From S2P Require Import Prelude PyValue Names.
Open Scope string_scope.
Open Scope list_scope.
Open Scope Z_scope.

Definition API_VERSION : Z := 2.
Definition ccbd_schema_version : Z := 2.

Inductive MountState := MS_mounted | MS_unmounted.
#[export] Instance MountState_eq_dec : EqDecision MountState.
Proof. solve_decision. Defined.
Inductive LeaseHealth := LH_healthy | LH_degraded | LH_stale | LH_unmounted | LH_missing.
#[export] Instance LeaseHealth_eq_dec : EqDecision LeaseHealth.
Proof. solve_decision. Defined.
Definition mount_state_value (s : MountState) : string := match s with MS_mounted => "mounted" | MS_unmounted => "unmounted" end.
Definition lease_health_value (h : LeaseHealth) : string :=
  match h with
  | LH_healthy => "healthy" | LH_degraded => "degraded" | LH_stale => "stale" | LH_unmounted => "unmounted"
  | LH_missing => "missing"
  end.

Record CcbdLease := mkLease {
  ls_project_id : string;
  ls_ccbd_pid : Z;
  ls_socket_path : string;
  ls_owner_uid : Z;
  ls_boot_id : string;
  ls_started_at : string;
  ls_last_heartbeat_at : string;
  ls_mount_state : MountState;
  ls_generation : Z;
  ls_config_signature : option string;
  ls_keeper_pid : option Z;
  ls_daemon_instance_id : option string;
  ls_api_version : Z
}.
#[export] Instance CcbdLease_eq_dec : EqDecision CcbdLease.
Proof. solve_decision. Defined.

Definition require_non_empty_text (value field_name : string) : result unit :=
  raise_if (strip value =ˢ "") (CcbdModelError (field_name +:+ " cannot be empty")).
Definition require_positive_int (value : Z) (field_name : string) : result unit :=
  raise_if (value <=? 0) (CcbdModelError (field_name +:+ " must be positive")).
Definition require_optional_non_empty_text (value : option string) (field_name : string) : result unit :=
  match value with Some v => require_non_empty_text v field_name | None => mret tt end.
Definition require_optional_positive_int (value : option Z) (field_name : string) : result unit :=
  match value with Some v => require_positive_int v field_name | None => mret tt end.
Definition lease_post_init (l : CcbdLease) : result CcbdLease :=
  _ ← raise_if (negb (ls_api_version l =? API_VERSION)) (CcbdModelError ("api_version must be " +:+ pretty API_VERSION));
  _ ← require_non_empty_text (ls_project_id l) "project_id";
  _ ← require_positive_int (ls_ccbd_pid l) "ccbd_pid";
  _ ← require_non_empty_text (ls_socket_path l) "socket_path";
  _ ← require_non_empty_text (ls_boot_id l) "boot_id";
  _ ← require_non_empty_text (ls_started_at l) "started_at";
  _ ← require_non_empty_text (ls_last_heartbeat_at l) "last_heartbeat_at";
  _ ← require_positive_int (ls_generation l) "generation";
  _ ← require_optional_non_empty_text (ls_config_signature l) "config_signature";
  _ ← require_optional_positive_int (ls_keeper_pid l) "keeper_pid";
  _ ← require_optional_non_empty_text (ls_daemon_instance_id l) "daemon_instance_id";
  mret l.

(** [replace] runs the checks again. *)
Definition with_heartbeat (l : CcbdLease) (timestamp : string) : result CcbdLease :=
  lease_post_init (mkLease (ls_project_id l) (ls_ccbd_pid l) (ls_socket_path l) (ls_owner_uid l) (ls_boot_id l)
    (ls_started_at l) timestamp (ls_mount_state l) (ls_generation l) (ls_config_signature l) (ls_keeper_pid l)
    (ls_daemon_instance_id l) (ls_api_version l)).
Definition with_mount_state (l : CcbdLease) (mount_state : MountState) (heartbeat_at : string) : result CcbdLease :=
  lease_post_init (mkLease (ls_project_id l) (ls_ccbd_pid l) (ls_socket_path l) (ls_owner_uid l) (ls_boot_id l)
    (ls_started_at l) heartbeat_at mount_state (ls_generation l) (ls_config_signature l) (ls_keeper_pid l)
    (ls_daemon_instance_id l) (ls_api_version l)).
Definition with_signature (l : CcbdLease) (config_signature heartbeat_at : string) : result CcbdLease :=
  lease_post_init (mkLease (ls_project_id l) (ls_ccbd_pid l) (ls_socket_path l) (ls_owner_uid l) (ls_boot_id l)
    (ls_started_at l) heartbeat_at (ls_mount_state l) (ls_generation l) (Some config_signature) (ls_keeper_pid l)
    (ls_daemon_instance_id l) (ls_api_version l)).

Definition lease_to_record (l : CcbdLease) : pydict :=
  [ ("schema_version", PInt ccbd_schema_version); ("record_type", PStr "ccbd_lease");
    ("api_version", PInt (ls_api_version l)); ("project_id", PStr (ls_project_id l)); ("ccbd_pid", PInt (ls_ccbd_pid l));
    ("socket_path", PStr (ls_socket_path l)); ("owner_uid", PInt (ls_owner_uid l)); ("boot_id", PStr (ls_boot_id l));
    ("started_at", PStr (ls_started_at l)); ("last_heartbeat_at", PStr (ls_last_heartbeat_at l));
    ("mount_state", PStr (mount_state_value (ls_mount_state l))); ("generation", PInt (ls_generation l));
    ("config_signature", of_opt_str (ls_config_signature l)); ("keeper_pid", of_opt_int (ls_keeper_pid l));
    ("daemon_instance_id", of_opt_str (ls_daemon_instance_id l)) ].
(** [str(v or '').strip() or None]. *)
Definition clean_optional_text (v : pyval) : result (option string) := text ← py_str_or_empty v; mret (or_none (strip text)).
(** [int(d[k]) if d.get(k) else None]. *)
Definition truthy_int (v : pyval) : result (option Z) := if py_bool v then n ← py_int v; mret (Some n) else mret None.
Definition lease_from_record (record : pydict) : result CcbdLease :=
  _ ← validate_record ccbd_schema_version "ccbd_lease" record;
  project_id ← dindex "project_id" record ≫= as_str "project_id";
  ccbd_pid ← dindex "ccbd_pid" record ≫= py_int;
  socket_path ← dindex "socket_path" record ≫= as_str "socket_path";
  owner_uid ← dindex "owner_uid" record ≫= py_int;
  boot_id ← dindex "boot_id" record ≫= as_str "boot_id";
  started_at ← dindex "started_at" record ≫= as_str "started_at";
  last_heartbeat_at ← dindex "last_heartbeat_at" record ≫= as_str "last_heartbeat_at";
  mount_state ← dindex "mount_state" record ≫= enum_of_val "MountState" mount_state_value [MS_mounted; MS_unmounted];
  generation ← py_int (dget_or "generation" (PInt 1) record);
  config_signature ← clean_optional_text (dget "config_signature" record);
  keeper_pid ← truthy_int (dget "keeper_pid" record);
  daemon_instance_id ← clean_optional_text (dget "daemon_instance_id" record);
  api_version ← py_int (dget_or "api_version" (PInt 2) record);
  lease_post_init (mkLease project_id ccbd_pid socket_path owner_uid boot_id started_at last_heartbeat_at mount_state
    generation config_signature keeper_pid daemon_instance_id api_version).

(** ** What an observer makes of a lease *)
Record LeaseInspection := mkInspection {
  li_lease : option CcbdLease;
  li_health : LeaseHealth;
  li_pid_alive : bool;
  li_socket_connectable : bool;
  li_heartbeat_fresh : bool;
  li_takeover_allowed : bool;
  li_reason : string
}.
Definition li_generation (i : LeaseInspection) : option Z := ls_generation <$> li_lease i.
