(* ===== verification/Lifecycle.v ===== *)
(** * The lifecycle record of a project

    [ccbd/services/lifecycle.py]: what is wanted of the daemon, in which phase
    it is, and who owns it; [keeper_runtime/records.py]: the state of the keeper
    and the wish to shut down. *)
From stdpp Require Import pretty.
From S2P Require Import Prelude PyValue Names Lease.
Open Scope string_scope.
Open Scope list_scope.
Open Scope Z_scope.

Inductive DesiredState := DSt_running | DSt_stopped.
#[export] Instance DesiredState_eq_dec : EqDecision DesiredState.
Proof. solve_decision. Defined.
Inductive LifecyclePhase := PH_unmounted | PH_starting | PH_mounted | PH_stopping | PH_failed.
#[export] Instance LifecyclePhase_eq_dec : EqDecision LifecyclePhase.
Proof. solve_decision. Defined.
Definition desired_state_value (d : DesiredState) : string := match d with DSt_running => "running" | DSt_stopped => "stopped" end.
Definition lifecycle_phase_value (p : LifecyclePhase) : string :=
  match p with
  | PH_unmounted => "unmounted" | PH_starting => "starting" | PH_mounted => "mounted" | PH_stopping => "stopping"
  | PH_failed => "failed"
  end.
Definition DESIRED_STATES : list DesiredState := [DSt_running; DSt_stopped].
Definition LIFECYCLE_PHASES : list LifecyclePhase := [PH_unmounted; PH_starting; PH_mounted; PH_stopping; PH_failed].

Record CcbdLifecycle := mkLifecycle {
  lc_project_id : string;
  lc_desired_state : DesiredState;
  lc_phase : LifecyclePhase;
  lc_generation : Z;
  lc_phase_started_at : string;
  lc_startup_id : option string;
  lc_startup_stage : option string;
  lc_last_progress_at : option string;
  lc_startup_deadline_at : option string;
  lc_keeper_pid : option Z;
  lc_owner_pid : option Z;
  lc_owner_daemon_instance_id : option string;
  lc_config_signature : option string;
  lc_socket_path : option string;
  lc_socket_inode : option Z;
  lc_namespace_epoch : option Z;
  lc_last_failure_reason : option string;
  lc_shutdown_intent : option string
}.
#[export] Instance CcbdLifecycle_eq_dec : EqDecision CcbdLifecycle.
Proof. solve_decision. Defined.

Definition positive_or_none (v : option Z) (field_name : string) : result unit :=
  match v with Some n => raise_if (n <=? 0) (ValueError (field_name +:+ " must be positive")) | None => mret tt end.
Definition lifecycle_post_init (l : CcbdLifecycle) : result CcbdLifecycle :=
  _ ← raise_if (strip (lc_project_id l) =ˢ "") (ValueError "project_id cannot be empty");
  _ ← raise_if (lc_generation l <? 0) (ValueError "generation cannot be negative");
  _ ← raise_if (strip (lc_phase_started_at l) =ˢ "") (ValueError "phase_started_at cannot be empty");
  _ ← positive_or_none (lc_keeper_pid l) "keeper_pid";
  _ ← positive_or_none (lc_owner_pid l) "owner_pid";
  _ ← positive_or_none (lc_socket_inode l) "socket_inode";
  _ ← match lc_namespace_epoch l with
      | Some n => raise_if (n <? 0) (ValueError "namespace_epoch cannot be negative")
      | None => mret tt
      end;
  mret l.
Definition lifecycle_to_record (l : CcbdLifecycle) : pydict :=
  [ ("schema_version", PInt ccbd_schema_version); ("record_type", PStr "ccbd_lifecycle");
    ("project_id", PStr (lc_project_id l)); ("desired_state", PStr (desired_state_value (lc_desired_state l)));
    ("phase", PStr (lifecycle_phase_value (lc_phase l))); ("generation", PInt (lc_generation l));
    ("phase_started_at", PStr (lc_phase_started_at l)); ("startup_id", of_opt_str (lc_startup_id l));
    ("startup_stage", of_opt_str (lc_startup_stage l)); ("last_progress_at", of_opt_str (lc_last_progress_at l));
    ("startup_deadline_at", of_opt_str (lc_startup_deadline_at l)); ("keeper_pid", of_opt_int (lc_keeper_pid l));
    ("owner_pid", of_opt_int (lc_owner_pid l)); ("owner_daemon_instance_id", of_opt_str (lc_owner_daemon_instance_id l));
    ("config_signature", of_opt_str (lc_config_signature l)); ("socket_path", of_opt_str (lc_socket_path l));
    ("socket_inode", of_opt_int (lc_socket_inode l)); ("namespace_epoch", of_opt_int (lc_namespace_epoch l));
    ("last_failure_reason", of_opt_str (lc_last_failure_reason l)); ("shutdown_intent", of_opt_str (lc_shutdown_intent l)) ].
(** [_clean_positive_int]; [int(str(n)) = n]. *)
Definition clean_positive_int (v : pyval) : result (option Z) :=
  match v with
  | PNone => mret None
  | PInt n =>
      _ ← raise_if (n <=? 0) (ValueError ("expected positive integer, got " +:+ pretty n));
      mret (Some n)
  | _ =>
      text ← py_str v;
      if strip text =ˢ "" then mret None
      else
        n ← py_int (PStr (strip text));
        r ← py_repr v;
        _ ← raise_if (n <=? 0) (ValueError ("expected positive integer, got " +:+ r));
        mret (Some n)
  end.
Definition lifecycle_enum {A} (what : string) (value : A → string) (members : list A) (s : string) : result A :=
  match List.find (λ a, value a =ˢ s) members with
  | Some a => Ok a
  | None => Err (ValueError ("invalid " +:+ what +:+ ": " +:+ repr_str s))
  end.
Definition lifecycle_from_record (payload : pydict) : result CcbdLifecycle :=
  _ ← validate_record ccbd_schema_version "ccbd_lifecycle" payload;
  project_id ← str_at "project_id" payload;
  desired_state ← str_at "desired_state" payload;
  phase ← str_at "phase" payload;
  generation ← py_int (dget_or "generation" (PInt 0) payload);
  phase_started_at ← str_at "phase_started_at" payload;
  startup_id ← clean_optional_text (dget "startup_id" payload);
  startup_stage ← clean_optional_text (dget "startup_stage" payload);
  last_progress_at ← clean_optional_text (dget "last_progress_at" payload);
  startup_deadline_at ← clean_optional_text (dget "startup_deadline_at" payload);
  keeper_pid ← clean_positive_int (dget "keeper_pid" payload);
  owner_pid ← clean_positive_int (dget "owner_pid" payload);
  owner_daemon_instance_id ← clean_optional_text (dget "owner_daemon_instance_id" payload);
  config_signature ← clean_optional_text (dget "config_signature" payload);
  socket_path ← clean_optional_text (dget "socket_path" payload);
  socket_inode ← clean_positive_int (dget "socket_inode" payload);
  namespace_epoch ← match dget "namespace_epoch" payload with PNone => mret None | v => n ← py_int v; mret (Some n) end;
  last_failure_reason ← clean_optional_text (dget "last_failure_reason" payload);
  shutdown_intent ← clean_optional_text (dget "shutdown_intent" payload);
  _ ← raise_if (strip project_id =ˢ "") (ValueError "project_id cannot be empty");
  desired_state ← lifecycle_enum "desired_state" desired_state_value DESIRED_STATES desired_state;
  phase ← lifecycle_enum "phase" lifecycle_phase_value LIFECYCLE_PHASES phase;
  lifecycle_post_init (mkLifecycle project_id desired_state phase generation phase_started_at startup_id startup_stage
    last_progress_at startup_deadline_at keeper_pid owner_pid owner_daemon_instance_id config_signature socket_path
    socket_inode namespace_epoch last_failure_reason shutdown_intent).

(** [str(Path(p))]: repeated slashes and single dots go, two leading slashes
    stay two. *)
Fixpoint path_parts (current s : string) : list string :=
  match s with
  | "" => [current]
  | String c s' => if Ascii.eqb c "/" then current :: path_parts "" s' else path_parts (current +:+ String c "") s'
  end.
Definition posix_path (s : string) : string :=
  let root := match s with
              | String "/" (String "/" (String "/" _)) => "/"
              | String "/" (String "/" _) => "//"
              | String "/" _ => "/"
              | _ => ""
              end in
  str_or (or_none (root +:+ join "/" (List.filter (λ p, (p ≠ˢ "") && (p ≠ˢ ".")) (path_parts "" s)))) ".".
(** [n or None]. *)
Definition or_zero (n : option Z) : option Z := match n with Some n => if n =? 0 then None else Some n | None => None end.

(** [build_lifecycle] on values that are already of the right type. *)
Definition clean_option (s : option string) : option string := or_none (strip (default "" s)).
Definition build_lifecycle (project_id occurred_at : string) (desired_state : DesiredState) (phase : LifecyclePhase)
    (generation : Z) (keeper_pid owner_pid : option Z) (owner_daemon_instance_id config_signature socket_path : option string)
    (socket_inode : option Z) : result CcbdLifecycle :=
  keeper_pid ← clean_positive_int (of_opt_int keeper_pid);
  owner_pid ← clean_positive_int (of_opt_int owner_pid);
  socket_inode ← clean_positive_int (of_opt_int socket_inode);
  lifecycle_post_init (mkLifecycle project_id desired_state phase generation occurred_at None None None None keeper_pid owner_pid
    (clean_option owner_daemon_instance_id) (clean_option config_signature) (posix_path <$> or_none (default "" socket_path))
    socket_inode None None None).
(** [inode path] is the inode of the socket at [path], if there is one. *)
Definition lifecycle_from_inspection (inode : string → option Z) (project_id : string) (inspection : LeaseInspection)
    (occurred_at : string) (config_signature : option string) (keeper_pid : option Z) : result CcbdLifecycle :=
  match li_lease inspection with
  | None => build_lifecycle project_id occurred_at DSt_stopped PH_unmounted 0 keeper_pid None None config_signature None None
  | Some lease =>
      let socket_path := or_none (strip (ls_socket_path lease)) in
      let mounted := bool_decide (ls_mount_state lease = MS_mounted) in
      build_lifecycle project_id occurred_at
        (if mounted then DSt_running else DSt_stopped)
        (if mounted then (if li_socket_connectable inspection then PH_mounted else PH_failed) else PH_unmounted)
        (ls_generation lease)
        (match or_zero keeper_pid with Some k => Some k | None => ls_keeper_pid lease end)
        (or_zero (Some (ls_ccbd_pid lease))) (ls_daemon_instance_id lease)
        (match clean_option (ls_config_signature lease) with Some s => Some s | None => config_signature end)
        socket_path (if mounted then socket_path ≫= inode else None)
  end.

(** ** The keeper's records *)
Record KeeperState := mkKeeper {
  ks_project_id : string;
  ks_keeper_pid : Z;
  ks_started_at : string;
  ks_last_check_at : string;
  ks_state : string;
  ks_restart_count : Z;
  ks_last_restart_at : option string;
  ks_last_failure_reason : option string
}.
Definition keeper_post_init (k : KeeperState) : result KeeperState :=
  _ ← raise_if (ks_keeper_pid k <=? 0) (ValueError "keeper_pid must be positive");
  _ ← raise_if (strip (ks_project_id k) =ˢ "") (ValueError "project_id cannot be empty");
  _ ← raise_if (strip (ks_started_at k) =ˢ "") (ValueError "started_at cannot be empty");
  _ ← raise_if (strip (ks_last_check_at k) =ˢ "") (ValueError "last_check_at cannot be empty");
  _ ← raise_if (strip (ks_state k) =ˢ "") (ValueError "state cannot be empty");
  _ ← raise_if (ks_restart_count k <? 0) (ValueError "restart_count cannot be negative");
  mret k.
Definition with_check (k : KeeperState) (occurred_at : string) : result KeeperState :=
  keeper_post_init (mkKeeper (ks_project_id k) (ks_keeper_pid k) (ks_started_at k) occurred_at (ks_state k)
    (ks_restart_count k) (ks_last_restart_at k) (ks_last_failure_reason k)).
Definition with_state (k : KeeperState) (state occurred_at : string) : result KeeperState :=
  keeper_post_init (mkKeeper (ks_project_id k) (ks_keeper_pid k) (ks_started_at k) occurred_at state
    (ks_restart_count k) (ks_last_restart_at k) (ks_last_failure_reason k)).
Definition with_restart_attempt (k : KeeperState) (occurred_at : string) : result KeeperState :=
  keeper_post_init (mkKeeper (ks_project_id k) (ks_keeper_pid k) (ks_started_at k) occurred_at (ks_state k)
    (ks_restart_count k + 1) (Some occurred_at) (ks_last_failure_reason k)).
Definition with_failure (k : KeeperState) (occurred_at reason : string) : result KeeperState :=
  keeper_post_init (mkKeeper (ks_project_id k) (ks_keeper_pid k) (ks_started_at k) occurred_at (ks_state k)
    (ks_restart_count k) (ks_last_restart_at k) (Some (str_or (or_none (strip reason)) "unknown_failure"))).
Definition with_success (k : KeeperState) (occurred_at : string) : result KeeperState :=
  keeper_post_init (mkKeeper (ks_project_id k) (ks_keeper_pid k) (ks_started_at k) occurred_at (ks_state k)
    (ks_restart_count k) (ks_last_restart_at k) None).
Definition keeper_to_record (k : KeeperState) : pydict :=
  [ ("schema_version", PInt ccbd_schema_version); ("record_type", PStr "ccbd_keeper");
    ("project_id", PStr (ks_project_id k)); ("keeper_pid", PInt (ks_keeper_pid k)); ("started_at", PStr (ks_started_at k));
    ("last_check_at", PStr (ks_last_check_at k)); ("state", PStr (ks_state k)); ("restart_count", PInt (ks_restart_count k));
    ("last_restart_at", of_opt_str (ks_last_restart_at k)); ("last_failure_reason", of_opt_str (ks_last_failure_reason k)) ].
Definition keeper_from_record (payload : pydict) : result KeeperState :=
  _ ← validate_record ccbd_schema_version "ccbd_keeper" payload;
  project_id ← str_at "project_id" payload;
  keeper_pid ← dindex "keeper_pid" payload ≫= py_int;
  started_at ← str_at "started_at" payload;
  last_check_at ← str_at "last_check_at" payload;
  state ← str_at "state" payload;
  restart_count ← py_int (dget_or "restart_count" (PInt 0) payload);
  last_restart_at ← clean_optional_text (dget "last_restart_at" payload);
  last_failure_reason ← clean_optional_text (dget "last_failure_reason" payload);
  keeper_post_init (mkKeeper project_id keeper_pid started_at last_check_at state restart_count last_restart_at last_failure_reason).

Record ShutdownIntent := mkShutdownIntent {
  si_project_id : string;
  si_requested_at : string;
  si_requested_by_pid : Z;
  si_reason : string
}.
Definition shutdown_intent_post_init (i : ShutdownIntent) : result ShutdownIntent :=
  _ ← raise_if (strip (si_project_id i) =ˢ "") (ValueError "project_id cannot be empty");
  _ ← raise_if (strip (si_requested_at i) =ˢ "") (ValueError "requested_at cannot be empty");
  _ ← raise_if (si_requested_by_pid i <=? 0) (ValueError "requested_by_pid must be positive");
  _ ← raise_if (strip (si_reason i) =ˢ "") (ValueError "reason cannot be empty");
  mret i.
Definition shutdown_intent_to_record (i : ShutdownIntent) : pydict :=
  [ ("schema_version", PInt ccbd_schema_version); ("record_type", PStr "ccbd_shutdown_intent");
    ("project_id", PStr (si_project_id i)); ("requested_at", PStr (si_requested_at i));
    ("requested_by_pid", PInt (si_requested_by_pid i)); ("reason", PStr (si_reason i)) ].
Definition shutdown_intent_from_record (payload : pydict) : result ShutdownIntent :=
  _ ← validate_record ccbd_schema_version "ccbd_shutdown_intent" payload;
  project_id ← str_at "project_id" payload;
  requested_at ← str_at "requested_at" payload;
  requested_by_pid ← dindex "requested_by_pid" payload ≫= py_int;
  reason ← str_at "reason" payload;
  shutdown_intent_post_init (mkShutdownIntent project_id requested_at requested_by_pid reason).
