(* ===== verification/Ownership.v ===== *)
(** * Who owns a project's daemon

    [ccbd/services/mount.py] and [services/ownership.py]: the lease file, the
    inspection of its holder and the decision who may mount; the sockets of
    [socket_server_runtime/lifecycle.py]; the machine they run on. *)
From stdpp Require Import pretty.
From Stdlib Require Import QArith.
From S2P Require Import Prelude PyValue Names CompletionModels MailboxKernel Lease Lifecycle.
Open Scope string_scope.
Open Scope list_scope.
Open Scope Z_scope.

(** ** The machine

    A socket file: its inode, the process that bound it, and whether a
    connection to it is accepted (it is not when the process has closed it or
    is gone, or when its backlog is full). *)
Record SocketFile := mkSocket { sf_inode : Z; sf_pid : Z; sf_accepting : bool }.
(** A report a daemon leaves behind, without its snapshots. *)
Record DaemonReport := mkReport {
  dp_kind : string;
  dp_trigger : string;
  dp_status : string;
  dp_actions_taken : list string;
  dp_generation : option Z;
  dp_failure_reason : option string
}.
(** The files of a project, the sockets by path, the processes that exist, the
    boot the machine is in, and how often the clock was read. *)
Record Node := mkNode {
  nd_lease : option CcbdLease;
  nd_lifecycle : option CcbdLifecycle;
  nd_shutdown_intent : option ShutdownIntent;
  nd_reports : list DaemonReport;
  nd_sockets : gmap string SocketFile;
  nd_next_inode : Z;
  nd_pids : gset Z;
  nd_boot_id : string;
  nd_ticks : nat
}.
Abbreviation Nd := (ST Node).
Definition set_lease (l : CcbdLease) (n : Node) : Node :=
  mkNode (Some l) (nd_lifecycle n) (nd_shutdown_intent n) (nd_reports n) (nd_sockets n) (nd_next_inode n) (nd_pids n)
    (nd_boot_id n) (nd_ticks n).
Definition set_lifecycle (l : CcbdLifecycle) (n : Node) : Node :=
  mkNode (nd_lease n) (Some l) (nd_shutdown_intent n) (nd_reports n) (nd_sockets n) (nd_next_inode n) (nd_pids n)
    (nd_boot_id n) (nd_ticks n).
Definition add_report (r : DaemonReport) (n : Node) : Node :=
  mkNode (nd_lease n) (nd_lifecycle n) (nd_shutdown_intent n) (nd_reports n ++ [r]) (nd_sockets n) (nd_next_inode n)
    (nd_pids n) (nd_boot_id n) (nd_ticks n).
Definition set_sockets (s : gmap string SocketFile) (next_inode : Z) (n : Node) : Node :=
  mkNode (nd_lease n) (nd_lifecycle n) (nd_shutdown_intent n) (nd_reports n) s next_inode (nd_pids n) (nd_boot_id n)
    (nd_ticks n).
Definition tick (n : Node) : Node :=
  mkNode (nd_lease n) (nd_lifecycle n) (nd_shutdown_intent n) (nd_reports n) (nd_sockets n) (nd_next_inode n) (nd_pids n)
    (nd_boot_id n) (S (nd_ticks n)).
Definition utc_now `{Clock} : Nd string := λ n, (Ok (clock_at (nd_ticks n)), tick n).

(** [process_exists], [unix_socket_connectable], [current_socket_inode]. *)
Definition process_exists (n : Node) (pid : Z) : bool := (0 <? pid) && bool_decide (pid ∈ nd_pids n).
Definition unix_socket_connectable (n : Node) (path : string) : bool :=
  match nd_sockets n !! path with Some s => sf_accepting s | None => false end.
Definition current_socket_inode (n : Node) (path : string) : option Z := sf_inode <$> nd_sockets n !! path.

(** ** The socket of a server ([listen_server], [shutdown_server]) *)
(** A file that is there is unlinked and a new one bound; [fault] is the error
    of the operating system, if it gives one. *)
Definition listen_server (socket_path : string) (pid : Z) (bound : option Z) (fault : option exn) : Nd (option Z) := λ n,
  match bound, fault with
  | Some i, _ => (Ok (Some i), n)
  | None, Some e => (Err e, n)
  | None, None =>
      (Ok (Some (nd_next_inode n)),
       set_sockets (<[socket_path := mkSocket (nd_next_inode n) pid true]> (nd_sockets n)) (nd_next_inode n + 1) n)
  end.
(** The file is unlinked only if it still is the one the server bound. *)
Definition shutdown_server (socket_path : string) (bound : option Z) : Nd unit := st_modify (λ n,
  match bound with
  | Some inode =>
      match nd_sockets n !! socket_path with
      | Some s => if sf_inode s =? inode then set_sockets (delete socket_path (nd_sockets n)) (nd_next_inode n) n else n
      | None => n
      end
  | None => n
  end).

(** ** The lease file *)
Section mount.
Context `{Clock}.
(** [uid_getter()]. *)
Context (owner_uid : Z).

Definition load_state : Nd (option CcbdLease) := st_gets nd_lease.
Definition save_lease (l : CcbdLease) : Nd unit := st_modify (set_lease l).
Definition clean_signature (s : option string) : option string := s ≫= λ s, or_none (strip s).
Definition mark_mounted (project_id : string) (pid : Z) (socket_path : string) (generation : Z) (config_signature : option string)
    (keeper_pid : option Z) (daemon_instance_id : option string) : Nd CcbdLease :=
  timestamp ← utc_now;
  boot_id ← st_gets nd_boot_id;
  lease ← st_lift (lease_post_init (mkLease project_id pid socket_path owner_uid boot_id timestamp timestamp MS_mounted generation
    (clean_signature config_signature) (or_zero keeper_pid) (clean_signature daemon_instance_id) API_VERSION));
  _ ← save_lease lease;
  mret lease.

Definition assert_expected_holder (lease : CcbdLease) (expected_pid : option Z) (expected_daemon_instance_id : option string)
    : result unit :=
  _ ← match expected_pid with
      | Some pid => raise_if (negb (ls_ccbd_pid lease =? pid))
          (RuntimeError ("ccbd lease holder changed: expected pid=" +:+ pretty pid +:+ ", found pid=" +:+ pretty (ls_ccbd_pid lease)))
      | None => mret tt
      end;
  let expected_instance := strip (default "" expected_daemon_instance_id) in
  let current_instance := strip (default "" (ls_daemon_instance_id lease)) in
  raise_if ((expected_instance ≠ˢ "") && (current_instance ≠ˢ expected_instance))
    (RuntimeError ("ccbd lease holder changed: expected daemon_instance_id=" +:+ expected_instance +:+
       ", found daemon_instance_id=" +:+ str_or (or_none current_instance) "<missing>")).

(** [load_state] that raises when there is no lease. *)
Definition existing_lease : Nd CcbdLease :=
  lease ← load_state;
  match lease with Some l => mret l | None => st_raise (RuntimeError "ccbd lease does not exist") end.
Definition refresh_heartbeat (expected_pid : option Z) (expected_daemon_instance_id : option string) : Nd CcbdLease :=
  lease ← existing_lease;
  if negb (bool_decide (ls_mount_state lease = MS_mounted)) then mret lease
  else
    _ ← st_lift (assert_expected_holder lease expected_pid expected_daemon_instance_id);
    now ← utc_now;
    updated ← st_lift (with_heartbeat lease now);
    _ ← save_lease updated;
    mret updated.
Definition update_config_signature (config_signature : string) (expected_pid : Z) (expected_daemon_instance_id : string)
    (expected_generation : Z) : Nd CcbdLease :=
  lease ← existing_lease;
  _ ← st_lift (raise_if (negb (bool_decide (ls_mount_state lease = MS_mounted))) (RuntimeError "ccbd lease is not mounted"));
  _ ← st_lift (assert_expected_holder lease (Some expected_pid) (Some expected_daemon_instance_id));
  _ ← st_lift (raise_if (negb (ls_generation lease =? expected_generation))
        (RuntimeError ("ccbd lease generation changed: expected generation=" +:+ pretty expected_generation +:+
           ", found generation=" +:+ pretty (ls_generation lease))));
  let signature := strip config_signature in
  _ ← st_lift (raise_if (signature =ˢ "") (RuntimeError "config_signature cannot be empty"));
  now ← utc_now;
  updated ← st_lift (with_signature lease signature now);
  _ ← save_lease updated;
  mret updated.
Definition mark_unmounted (expected_pid : option Z) (expected_daemon_instance_id : option string) : Nd (option CcbdLease) :=
  lease ← load_state;
  match lease with
  | None => mret None
  | Some lease =>
      _ ← st_lift (assert_expected_holder lease expected_pid expected_daemon_instance_id);
      now ← utc_now;
      updated ← st_lift (with_mount_state lease MS_unmounted now);
      _ ← save_lease updated;
      mret (Some updated)
  end.
End mount.

(** ** The guard *)
Section guard.
Context `{Clock} `{CompletionLib}.
Definition heartbeat_grace_seconds : Q := inject_Z 120.

(** A time that cannot be read is not fresh, one in the future is. The
    subtraction is not guarded. *)
Definition heartbeat_is_fresh (now : string) (lease : CcbdLease) : result bool :=
  match parse_utc_timestamp now, parse_utc_timestamp (ls_last_heartbeat_at lease) with
  | Some (aware, current), Some (aware', heartbeat) =>
      _ ← raise_if (negb (bool_decide (aware = aware'))) (TypeError "can't subtract offset-naive and offset-aware datetimes");
      mret (Qle_bool ((current - heartbeat) # 1000000) heartbeat_grace_seconds)
  | _, _ => mret false
  end.
Definition missing_inspection : LeaseInspection := mkInspection None LH_missing false false false true "lease_missing".
Definition takeover_allowed (pid_alive heartbeat_fresh socket_connectable : bool) : bool :=
  negb pid_alive || pid_alive && negb heartbeat_fresh && negb socket_connectable.
Definition inspection_reason (health : LeaseHealth) (pid_alive heartbeat_fresh socket_connectable : bool) : string :=
  str_or (or_none (join "," ((if pid_alive then [] else ["pid_missing"]) ++ (if heartbeat_fresh then [] else ["heartbeat_stale"]) ++
                             (if socket_connectable then [] else ["socket_unreachable"]))))
    (lease_health_value health).
(** The inspection of [inspect], given what the signals say. *)
Definition inspection_of (current : CcbdLease) (pid_alive heartbeat_fresh socket_connectable : bool) : LeaseInspection :=
  if bool_decide (ls_mount_state current = MS_unmounted)
  then mkInspection (Some current) LH_unmounted pid_alive socket_connectable heartbeat_fresh true "lease_unmounted"
  else if pid_alive && heartbeat_fresh && socket_connectable
  then mkInspection (Some current) LH_healthy true true true false "healthy"
  else
    let allowed := takeover_allowed pid_alive heartbeat_fresh socket_connectable in
    let health := if allowed then LH_stale else LH_degraded in
    mkInspection (Some current) health pid_alive socket_connectable heartbeat_fresh allowed
      (inspection_reason health pid_alive heartbeat_fresh socket_connectable).
Definition mounted_socket_connectable (n : Node) (lease : CcbdLease) : bool :=
  bool_decide (ls_mount_state lease = MS_mounted) && unix_socket_connectable n (ls_socket_path lease).
Definition inspect (lease : option CcbdLease) (assume_mounted_socket_connectable : bool) : Nd LeaseInspection :=
  current ← match lease with Some l => mret (Some l) | None => load_state end;
  match current with
  | None => mret missing_inspection
  | Some current =>
      now ← utc_now;
      pid_alive ← st_gets (λ n, process_exists n (ls_ccbd_pid current));
      heartbeat_fresh ← st_lift (heartbeat_is_fresh now current);
      socket_connectable ← st_gets (λ n,
        if assume_mounted_socket_connectable && bool_decide (ls_mount_state current = MS_mounted) then true
        else mounted_socket_connectable n current);
      mret (inspection_of current pid_alive heartbeat_fresh socket_connectable)
  end.

Definition same_holder (lease : CcbdLease) (pid : Z) (socket_path : string) : bool :=
  (ls_ccbd_pid lease =? pid) && (posix_path (ls_socket_path lease) =ˢ posix_path socket_path).
Definition verify_or_takeover (project_id : string) (pid : Z) (socket_path : string) : Nd Z :=
  current ← load_state;
  match current with
  | None => mret 1
  | Some current =>
      _ ← st_lift (raise_if (negb (ls_project_id current =ˢ project_id))
            (OwnershipConflictError ("lease project_id mismatch: expected " +:+ project_id +:+ ", found " +:+ ls_project_id current)));
      if same_holder current pid socket_path then mret (ls_generation current)
      else
        inspection ← inspect (Some current) false;
        if li_takeover_allowed inspection then mret (ls_generation current + 1)
        else st_raise (OwnershipConflictError ("ccbd lease is held by pid=" +:+ pretty (ls_ccbd_pid current) +:+ " generation=" +:+
               pretty (ls_generation current) +:+ ": " +:+ li_reason inspection))
  end.
End guard.
