(* ===== verification/Daemon.v ===== *)
(** * The life of a daemon

    [ccbd/app_runtime/lifecycle.py] and [request_guard.py]: mounting and
    starting, the heartbeat, stopping the project and releasing the lease. *)
From stdpp Require Import pretty.
From S2P Require Import Prelude PyValue Names CompletionModels MailboxKernel Lease Lifecycle Ownership.
Open Scope string_scope.
Open Scope list_scope.
Open Scope Z_scope.

(** ** State

    What a daemon process holds: who it is, the lease it knows, whether a stop
    was asked for, and the inode of the socket it bound. *)
Record CcbdApp := mkApp {
  ap_project_id : string;
  ap_pid : Z;
  ap_daemon_instance_id : string;
  ap_keeper_pid : option Z;
  ap_socket_path : string;
  ap_config_signature : string;
  ap_owner_uid : Z;
  ap_lease : option CcbdLease;
  ap_project_stop_requested : bool;
  ap_bound : option Z
}.
Abbreviation Proc := (Node * CcbdApp)%type.
Abbreviation D := (ST Proc).
Definition on_node {A} (m : Nd A) : D A := λ p, let '(r, n) := m p.1 in (r, (n, p.2)).
Definition app : D CcbdApp := st_gets snd.
Definition set_app_lease (l : option CcbdLease) : D unit := st_modify (λ p, (p.1,
  mkApp (ap_project_id p.2) (ap_pid p.2) (ap_daemon_instance_id p.2) (ap_keeper_pid p.2) (ap_socket_path p.2)
    (ap_config_signature p.2) (ap_owner_uid p.2) l (ap_project_stop_requested p.2) (ap_bound p.2))).
Definition set_app_bound (b : option Z) : D unit := st_modify (λ p, (p.1,
  mkApp (ap_project_id p.2) (ap_pid p.2) (ap_daemon_instance_id p.2) (ap_keeper_pid p.2) (ap_socket_path p.2)
    (ap_config_signature p.2) (ap_owner_uid p.2) (ap_lease p.2) (ap_project_stop_requested p.2) b)).
Definition request_project_stop : D unit := st_modify (λ p, (p.1,
  mkApp (ap_project_id p.2) (ap_pid p.2) (ap_daemon_instance_id p.2) (ap_keeper_pid p.2) (ap_socket_path p.2)
    (ap_config_signature p.2) (ap_owner_uid p.2) (ap_lease p.2) true (ap_bound p.2))).

(** ** Requests while the project is stopping *)
Definition STOPPING_GUARDED_OPS : list string :=
  [ "submit"; "attach"; "start"; "restore"; "cancel"; "ack"; "resubmit"; "retry"; "project_restart_panes";
    "project_clear_context" ].
Definition lifecycle_is_stopping (l : option CcbdLifecycle) : bool :=
  match l with
  | None => false
  | Some l =>
      bool_decide (lc_phase l = PH_stopping) ||
      bool_decide (lc_desired_state l = DSt_stopped) && (strip (default "" (lc_shutdown_intent l)) ≠ˢ "")
  end.
Definition rejection_for_request (l : option CcbdLifecycle) (op : string) : option string :=
  if negb (bool_decide (op ∈ STOPPING_GUARDED_OPS)) then None
  else if lifecycle_is_stopping l then Some "ccbd is unavailable: lifecycle_stopping" else None.

Section daemon.
Context `{Clock} `{CompletionLib}.

(** ** The lifecycle record *)
Definition current_lifecycle : D CcbdLifecycle :=
  a ← app;
  lifecycle ← on_node (st_gets nd_lifecycle);
  match lifecycle with
  | Some l => mret l
  | None =>
      now ← on_node utc_now;
      st_lift (build_lifecycle (ap_project_id a) now DSt_running PH_unmounted (default 0 (ls_generation <$> ap_lease a))
        (ap_keeper_pid a) None None (or_none (strip (ap_config_signature a))) (Some (ap_socket_path a)) None)
  end.
Definition save_lifecycle (l : result CcbdLifecycle) : D unit :=
  l ← st_lift l;
  on_node (st_modify (set_lifecycle l)).
Definition mark_lifecycle_mounted (namespace_epoch : option Z) : D unit :=
  a ← app;
  l ← current_lifecycle;
  occurred_at ← on_node utc_now;
  inode ← on_node (st_gets (λ n, current_socket_inode n (ap_socket_path a)));
  last_progress_at ← on_node utc_now;
  save_lifecycle (lifecycle_post_init (mkLifecycle (lc_project_id l) DSt_running PH_mounted
    (match or_zero (ls_generation <$> ap_lease a) with Some g => g | None => lc_generation l end) occurred_at
    (lc_startup_id l) (Some "mounted") (Some last_progress_at) None (ap_keeper_pid a) (Some (ap_pid a))
    (Some (ap_daemon_instance_id a))
    (match or_none (strip (ap_config_signature a)) with Some s => Some s | None => lc_config_signature l end)
    (Some (ap_socket_path a)) inode namespace_epoch None None)).
Definition mark_lifecycle_stopping (shutdown_intent : string) : D unit :=
  l ← current_lifecycle;
  occurred_at ← on_node utc_now;
  last_progress_at ← on_node utc_now;
  save_lifecycle (lifecycle_post_init (mkLifecycle (lc_project_id l) DSt_stopped PH_stopping (lc_generation l) occurred_at
    (lc_startup_id l) None (Some last_progress_at) None (lc_keeper_pid l) (lc_owner_pid l) (lc_owner_daemon_instance_id l)
    (lc_config_signature l) (lc_socket_path l) (lc_socket_inode l) (lc_namespace_epoch l) None (Some shutdown_intent))).
Definition mark_lifecycle_unmounted (desired_state : option DesiredState) : D unit :=
  a ← app;
  l ← current_lifecycle;
  occurred_at ← on_node utc_now;
  last_progress_at ← on_node utc_now;
  save_lifecycle (lifecycle_post_init (mkLifecycle (lc_project_id l) (default (lc_desired_state l) desired_state) PH_unmounted
    (lc_generation l) occurred_at (lc_startup_id l) None (Some last_progress_at) None (lc_keeper_pid l) None None
    (lc_config_signature l) (Some (ap_socket_path a)) None None None (lc_shutdown_intent l))).
Definition mark_lifecycle_failed (failure_reason : string) : D unit :=
  a ← app;
  l ← current_lifecycle;
  occurred_at ← on_node utc_now;
  last_progress_at ← on_node utc_now;
  save_lifecycle (lifecycle_post_init (mkLifecycle (lc_project_id l) (lc_desired_state l) PH_failed
    (lc_generation l) occurred_at (lc_startup_id l) (Some "failed") (Some last_progress_at) None (lc_keeper_pid l) None None
    (lc_config_signature l) (Some (ap_socket_path a)) None None (Some failure_reason) (lc_shutdown_intent l))).
Definition update_startup_progress (stage : string) : D unit :=
  lifecycle ← on_node (st_gets nd_lifecycle);
  match lifecycle with
  | Some l =>
      if negb (bool_decide (lc_phase l = PH_starting)) then mret tt
      else
        st_try
          (now ← on_node utc_now;
           save_lifecycle (lifecycle_post_init (mkLifecycle (lc_project_id l) (lc_desired_state l) (lc_phase l)
             (lc_generation l) (lc_phase_started_at l) (lc_startup_id l) (or_none (strip stage)) (Some now)
             (lc_startup_deadline_at l) (lc_keeper_pid l) (lc_owner_pid l) (lc_owner_daemon_instance_id l)
             (lc_config_signature l) (lc_socket_path l) (lc_socket_inode l) (lc_namespace_epoch l)
             (lc_last_failure_reason l) (lc_shutdown_intent l))))
          (λ _, mret tt)
  | None => mret tt
  end.

(** ** Reports *)
Definition record_startup_report (status : string) (actions_taken : list string) (failure_reason : option string) : D unit :=
  a ← app;
  inspection ← on_node (inspect None false);
  _ ← on_node utc_now;
  on_node (st_modify (add_report (mkReport "startup" "daemon_boot" status actions_taken
    (match ap_lease a with Some l => Some (ls_generation l) | None => li_generation inspection end) failure_reason))).
Definition record_shutdown_report (trigger status : string) (actions_taken : list string) (failure_reason : option string) : D unit :=
  inspection ← on_node (inspect None false);
  _ ← on_node utc_now;
  on_node (st_modify (add_report (mkReport "shutdown" trigger status actions_taken (li_generation inspection) failure_reason))).

(** ** Releasing the lease *)
Definition mark_current_daemon_unmounted : D (option CcbdLease) :=
  a ← app;
  st_try (on_node (mark_unmounted (Some (ap_pid a)) (Some (ap_daemon_instance_id a))))
    (λ e, match e with
          | RuntimeError _ | OwnershipConflictError _ => on_node load_state
          | _ => st_raise e
          end).
Definition release_backend_ownership (desired_state : option DesiredState) : D (option CcbdLease) :=
  lease ← mark_current_daemon_unmounted;
  a ← app;
  _ ← on_node (shutdown_server (ap_socket_path a) (ap_bound a));
  _ ← set_app_bound None;
  _ ← mark_lifecycle_unmounted desired_state;
  mret lease.
Definition request_shutdown : D unit :=
  lease ← release_backend_ownership (Some DSt_stopped);
  set_app_lease lease.
Definition release_desired_state : D DesiredState :=
  a ← app;
  if ap_project_stop_requested a then mret DSt_stopped
  else
    lifecycle ← on_node (st_gets nd_lifecycle);
    mret (if lifecycle_is_stopping lifecycle then DSt_stopped else DSt_running).
(** How [serve_forever] ends, whatever ended it. *)
Definition leave_service : D unit :=
  desired_state ← release_desired_state;
  lease ← release_backend_ownership (Some desired_state);
  set_app_lease lease.

(** ** Starting *)
(** [listen_fault]: the error of binding the socket, if there is one; [boot]:
    what restoring the jobs and adopting the runtimes gives, the adopted agents
    or an exception. *)
Definition listen (listen_fault : option exn) : D unit :=
  a ← app;
  bound ← on_node (listen_server (ap_socket_path a) (ap_pid a) (ap_bound a) listen_fault);
  set_app_bound bound.
Definition mount_daemon (listen_fault : option exn) : D unit :=
  a ← app;
  generation ← on_node (verify_or_takeover (ap_project_id a) (ap_pid a) (ap_socket_path a));
  lease ← on_node (mark_mounted (ap_owner_uid a) (ap_project_id a) (ap_pid a) (ap_socket_path a) generation
    (Some (ap_config_signature a)) (ap_keeper_pid a) (Some (ap_daemon_instance_id a)));
  _ ← set_app_lease (Some lease);
  st_try (_ ← listen listen_fault; update_startup_progress "socket_listening")
    (λ e,
      lease ← release_backend_ownership (Some DSt_running);
      _ ← set_app_lease lease;
      _ ← mark_lifecycle_failed (exn_text e);
      _ ← record_startup_report "failed" ["mount_backend"; "listen_socket_failed"] (Some (exn_text e));
      st_raise e).
Definition boot_daemon (boot : result (list string)) (namespace_epoch : option Z) : D unit :=
  st_try
    (_ ← update_startup_progress "restoring_state";
     adopted_agents ← st_lift boot;
     _ ← update_startup_progress "publishing_mounted";
     _ ← mark_lifecycle_mounted namespace_epoch;
     record_startup_report "ok"
       (["mount_backend"; "listen_socket"; "restore_running_jobs"] ++
        (match adopted_agents with [] => [] | _ => ["adopt_runtime_authority:" +:+ join "," adopted_agents] end)) None)
    (λ e,
      _ ← release_backend_ownership (Some DSt_running);
      _ ← mark_lifecycle_failed (exn_text e);
      _ ← record_startup_report "failed" ["mount_backend"; "listen_socket"; "restore_running_jobs_failed"] (Some (exn_text e));
      st_raise e).
Definition start (listen_fault : option exn) (boot : result (list string)) (namespace_epoch : option Z) : D (option CcbdLease) :=
  _ ← mount_daemon listen_fault;
  _ ← boot_daemon boot namespace_epoch;
  a ← app;
  mret (ap_lease a).

(** ** The heartbeat *)
(** The steps of a tick, by name, with what each gives; a tick ends early when
    the project is stopping. *)
Fixpoint heartbeat_failures (steps : list (string * result unit)) : D (list string) :=
  match steps with
  | [] => mret []
  | (step_name, outcome) :: rest =>
      lifecycle ← on_node (st_gets nd_lifecycle);
      if lifecycle_is_stopping lifecycle then mret []
      else
        rest' ← heartbeat_failures rest;
        mret (match outcome with
              | Ok _ => rest'
              | Err e => ("heartbeat:" +:+ step_name +:+ ": " +:+ exn_type e +:+ ": " +:+ exn_text e) :: rest'
              end)
  end.
Definition record_heartbeat_failures (failures : list string) : D unit :=
  lifecycle ← on_node (st_gets nd_lifecycle);
  match lifecycle with
  | None => mret tt
  | Some l =>
      if negb (bool_decide (lc_phase l ∈ [PH_starting; PH_mounted])) then mret tt
      else
        let next_reason := match failures with [] => None | _ => Some (join " | " failures) end in
        if bool_decide (lc_last_failure_reason l = next_reason) then mret tt
        else st_try
          (save_lifecycle (lifecycle_post_init (mkLifecycle (lc_project_id l) (lc_desired_state l) (lc_phase l)
             (lc_generation l) (lc_phase_started_at l) (lc_startup_id l) (lc_startup_stage l) (lc_last_progress_at l)
             (lc_startup_deadline_at l) (lc_keeper_pid l) (lc_owner_pid l) (lc_owner_daemon_instance_id l)
             (lc_config_signature l) (lc_socket_path l) (lc_socket_inode l) (lc_namespace_epoch l)
             next_reason (lc_shutdown_intent l))))
          (λ _, mret tt)
  end.
(** [tick_allowed]: the maintenance lock was free. *)
Definition heartbeat (tick_allowed : bool) (steps : list (string * result unit)) : D (option CcbdLease) :=
  a ← app;
  failures ← (if tick_allowed then heartbeat_failures steps else mret []);
  lease ← on_node (refresh_heartbeat (Some (ap_pid a)) (Some (ap_daemon_instance_id a)));
  _ ← set_app_lease (Some lease);
  _ ← record_heartbeat_failures failures;
  mret (Some lease).

(** ** Stopping the project *)
(** [terminated]: the jobs that were ended (none when that raised); [stop_all]:
    what stopping the runtimes gives. *)
Definition prepare_project_stop (trigger reason : string) (terminated : nat) (stop_all : result unit) : D unit :=
  _ ← request_project_stop;
  _ ← mark_lifecycle_stopping reason;
  st_try (st_lift stop_all)
    (λ e,
      _ ← record_shutdown_report trigger "failed" ["terminate_nonterminal_jobs:" +:+ pretty terminated; "stop_all_failed"]
            (Some (exn_text e));
      st_raise e).
Definition finalize_project_stop (trigger : string) (terminated : nat) : D unit :=
  _ ← request_project_stop;
  lease ← release_backend_ownership (Some DSt_stopped);
  _ ← set_app_lease lease;
  record_shutdown_report trigger "ok" ["terminate_nonterminal_jobs:" +:+ pretty terminated; "request_shutdown"] None.
Definition execute_project_stop (trigger reason : string) (terminated : nat) (stop_all : result unit) : D unit :=
  _ ← prepare_project_stop trigger reason terminated stop_all;
  finalize_project_stop trigger terminated.
End daemon.
