(* ===== verification/Keeper.v ===== *)
(** * The keeper

    [ccbd/keeper_runtime/loop.py], [keeper_runtime/state.py] and
    [ccbd/keeper.py]: the process that watches the daemon of a project, starts
    it again when it is gone, and backs off when that fails. *)
From stdpp Require Import pretty.
From Stdlib Require Import QArith Qminmax.
From S2P Require Import Prelude PyValue Names CompletionModels MailboxKernel Lease Lifecycle Ownership.
Open Scope string_scope.
Open Scope list_scope.
Open Scope Z_scope.

(** ** What the keeper asks of others *)
Record KeeperEnv := mkKeeperEnv {
  ke_pid : Z;
  ke_project_id : string;
  ke_socket_path : string;
  (** Whether the directory [.ccb] is there. *)
  ke_project_defined : bool;
  (** The agents and the signature of the configuration on disk. *)
  ke_config : result (list string * string);
  (** The answer of the daemon to [ping]. *)
  ke_ping : result pydict;
  (** Ask the daemon to stop: whether it could be reached. *)
  ke_stop_all : Nd bool;
  ke_terminate_pid_tree : Z → Nd unit;
  (** Start a daemon process and wait until it answers. *)
  ke_spawn : Nd unit;
  ke_startup_id : string;
  ke_namespace_epoch : option Z
}.

(** ** Backing off *)
Definition restart_backoff_seconds (restart_count : Z) : Q :=
  let capped := Z.min (Z.max 1 restart_count) 5 in
  Qmin (inject_Z 8) ((1 # 2) * inject_Z (2 ^ (capped - 1)))%Q.
Definition restart_backoff_active `{CompletionLib} (state : KeeperState) (now : string) : bool :=
  if ks_restart_count state <=? 0 then false
  else match ks_last_failure_reason state, ks_last_restart_at state with
       | Some _, Some last_restart_at =>
           match parse_utc_timestamp now, parse_utc_timestamp last_restart_at with
           | Some (aware, t), Some (aware', t') =>
               bool_decide (aware = aware') &&
               negb (Qle_bool (restart_backoff_seconds (ks_restart_count state)) ((t - t') # 1000000))
           | _, _ => false
           end
       | _, _ => false
       end.

(** [keeper_state_is_running]; [cmdline_matches] is what the command line of the
    process says, if it can be read. *)
Definition keeper_state_is_running (n : Node) (state : option KeeperState) (expected_project_id : option string)
    (cmdline_matches : option bool) : bool :=
  match state with
  | None => false
  | Some s =>
      (ks_state s =ˢ "running") &&
      (match expected_project_id with Some p => ks_project_id s =ˢ p | None => true end) &&
      process_exists n (ks_keeper_pid s) && default true cmdline_matches
  end.

Section keeper.
Context `{Clock} `{CompletionLib}.
(** [(parse_utc_timestamp(t) + timedelta(seconds=s)).isoformat()], or an
    exception; and the time a start may take. *)
Context (iso_plus : string → Q → result string) (start_timeout_s : Q).

Section with_env.
Context (env : KeeperEnv).

Definition initial_keeper_state : Nd KeeperState :=
  now ← utc_now;
  st_lift (keeper_post_init (mkKeeper (ke_project_id env) (ke_pid env) now now "running" 0 None None)).
Definition current_config_signature : option string :=
  match ke_config env with Ok (_, signature) => Some signature | Err _ => None end.

Definition ensure_project_lifecycle (inspection : LeaseInspection) (now : string) : Nd CcbdLifecycle :=
  lifecycle ← st_gets nd_lifecycle;
  match lifecycle with
  | None =>
      inode ← st_gets current_socket_inode;
      l ← st_lift (lifecycle_from_inspection inode (ke_project_id env) inspection now current_config_signature (Some (ke_pid env)));
      _ ← st_modify (set_lifecycle l);
      mret l
  | Some l =>
      if bool_decide (lc_keeper_pid l = Some (ke_pid env)) then mret l
      else
        l' ← st_lift (lifecycle_post_init (mkLifecycle (lc_project_id l) (lc_desired_state l) (lc_phase l) (lc_generation l)
          (lc_phase_started_at l) (lc_startup_id l) (lc_startup_stage l) (lc_last_progress_at l) (lc_startup_deadline_at l)
          (Some (ke_pid env)) (lc_owner_pid l) (lc_owner_daemon_instance_id l) (lc_config_signature l) (lc_socket_path l)
          (lc_socket_inode l) (lc_namespace_epoch l) (lc_last_failure_reason l) (lc_shutdown_intent l)));
        _ ← st_modify (set_lifecycle l');
        mret l'
  end.

(** With a signature in the answer the daemon always matches: a daemon with an
    older configuration still is the daemon of the project, and the record of a
    reload in progress makes no difference. *)
Definition daemon_matches_project_config : result bool :=
  expected ← ke_config env;
  payload ← ke_ping env;
  actual_signature ← py_str_or_empty (dget "config_signature" payload);
  if strip actual_signature ≠ˢ "" then mret true
  else match dget "known_agents" payload with
       | PList l =>
           names ← (fix go l := match l with
                                | [] => mret []
                                | v :: l' => s ← py_str v; rest ← go l';
                                             mret (if strip s =ˢ "" then rest else lower (strip s) :: rest)
                                end) l;
           mret (bool_decide (names = expected.1))
       | _ => mret false
       end.
Definition request_daemon_shutdown : Nd unit :=
  delivered ← ke_stop_all env;
  if (delivered : bool) then mret tt
  else
    inspection ← inspect None false;
    match li_lease inspection with
    | Some lease => if li_pid_alive inspection then ke_terminate_pid_tree env (ls_ccbd_pid lease) else mret tt
    | None => mret tt
    end.

(** What the lifecycle says of a mounted daemon. *)
Definition mounted_lifecycle (n : Node) (l : CcbdLifecycle) (inspection : LeaseInspection) (phase_started_at : string)
    (last_failure_reason : option string) : result CcbdLifecycle :=
  let lease := li_lease inspection in
  let socket_path := match lease with Some s => str_or (Some (ls_socket_path s)) (ke_socket_path env) | None => ke_socket_path env end in
  lifecycle_post_init (mkLifecycle (lc_project_id l) DSt_running PH_mounted
    (match or_zero (ls_generation <$> lease) with Some g => g | None => lc_generation l end) phase_started_at
    (lc_startup_id l) (lc_startup_stage l) (lc_last_progress_at l) (lc_startup_deadline_at l) (Some (ke_pid env))
    (or_zero (ls_ccbd_pid <$> lease)) (clean_option (lease ≫= ls_daemon_instance_id))
    (match clean_option (lease ≫= ls_config_signature) with Some s => Some s | None => lc_config_signature l end)
    (Some socket_path)
    (current_socket_inode n (match lease with Some s => ls_socket_path s | None => ke_socket_path env end))
    (match ke_namespace_epoch env with Some e => Some e | None => lc_namespace_epoch l end)
    last_failure_reason None).
(** A phase that only the lifecycle itself changes. *)
Definition in_phase (l : CcbdLifecycle) (phase : LifecyclePhase) (now : string) (last_failure_reason : option string) : result CcbdLifecycle :=
  lifecycle_post_init (mkLifecycle (lc_project_id l) DSt_running phase (lc_generation l) now (lc_startup_id l)
    (lc_startup_stage l) (lc_last_progress_at l) (lc_startup_deadline_at l) (lc_keeper_pid l) (lc_owner_pid l)
    (lc_owner_daemon_instance_id l) (lc_config_signature l) (lc_socket_path l) (lc_socket_inode l) (lc_namespace_epoch l)
    last_failure_reason (lc_shutdown_intent l)).
Definition save (l : result CcbdLifecycle) : Nd unit := l ← st_lift l; st_modify (set_lifecycle l).
Definition record_connectable_observation_failure (l : CcbdLifecycle) (inspection : LeaseInspection) (now failure_reason : string) : Nd unit :=
  n ← st_gets id;
  match li_lease inspection with
  | Some lease =>
      if negb (li_socket_connectable inspection) then save (in_phase l PH_failed now (Some failure_reason))
      else
        let generation := match or_zero (Some (ls_generation lease)) with Some g => g | None => lc_generation l end in
        if bool_decide (lc_phase l = PH_mounted) && (lc_generation l =? generation)
        then save (mounted_lifecycle n l inspection (lc_phase_started_at l) (Some failure_reason))
        else save (mounted_lifecycle n l inspection now (Some failure_reason))
  | None => save (in_phase l PH_failed now (Some failure_reason))
  end.
Definition reconcile_connectable_daemon (state : KeeperState) (inspection : LeaseInspection) (l : CcbdLifecycle) (now : string)
    : Nd (option KeeperState) :=
  if negb (li_socket_connectable inspection) then mret None
  else
    st_try
      (matches ← st_lift daemon_matches_project_config;
       if (matches : bool) then
         n ← st_gets id;
         _ ← save (mounted_lifecycle n l inspection now None);
         s ← st_lift (with_success state now);
         mret (Some s)
       else
         _ ← request_daemon_shutdown;
         _ ← save (in_phase l PH_stopping now None);
         s ← st_lift (with_restart_attempt state now);
         mret (Some s))
      (λ e,
        let failure_reason := "config_check_failed:" +:+ exn_text e in
        _ ← record_connectable_observation_failure l inspection now failure_reason;
        s ← st_lift (with_failure state now failure_reason);
        mret (Some s)).

Definition stale_restart_state (state : KeeperState) (inspection : LeaseInspection) (occurred_at : string) : Nd (option KeeperState) :=
  match li_lease inspection with
  | Some lease =>
      if negb (bool_decide (li_health inspection = LH_stale)) || negb (li_pid_alive inspection) || li_heartbeat_fresh inspection
      then mret None
      else
        _ ← (if 0 <? ls_ccbd_pid lease then ke_terminate_pid_tree env (ls_ccbd_pid lease) else mret tt);
        s ← st_lift (with_restart_attempt state occurred_at);
        mret (Some s)
  | None => mret None
  end.
Definition restart_state_from_inspection (state : KeeperState) (inspection : LeaseInspection) (occurred_at : string)
    : Nd (option KeeperState) :=
  stale ← stale_restart_state state inspection occurred_at;
  match stale with
  | Some s => mret (Some s)
  | None =>
      if bool_decide (li_health inspection ∈ [LH_missing; LH_unmounted; LH_stale])
      then s ← st_lift (with_restart_attempt state occurred_at); mret (Some s)
      else mret None
  end.

(** ** Starting a daemon ([_spawn_daemon]) *)
Definition starting_lifecycle (l : CcbdLifecycle) (inspection : LeaseInspection) (now deadline_at config_signature : string)
    : result CcbdLifecycle :=
  lifecycle_post_init (mkLifecycle (lc_project_id l) DSt_running PH_starting
    (Z.max (lc_generation l) (default 0 (ls_generation <$> li_lease inspection)) + 1) now
    (Some (ke_startup_id env)) (Some "spawn_requested") (Some now) (Some deadline_at) (Some (ke_pid env)) None None
    (Some config_signature) (Some (ke_socket_path env)) None (lc_namespace_epoch l) None None).
Definition spawned_lifecycle (n : Node) (l : CcbdLifecycle) (lease : option CcbdLease) (config_signature occurred_at last_progress_at : string)
    : result CcbdLifecycle :=
  lifecycle_post_init (mkLifecycle (lc_project_id l) (lc_desired_state l) PH_mounted
    (match or_zero (ls_generation <$> lease) with Some g => g | None => lc_generation l end) occurred_at
    (lc_startup_id l) (Some "mounted") (Some last_progress_at) None (lc_keeper_pid l)
    (or_zero (ls_ccbd_pid <$> lease)) (clean_option (lease ≫= ls_daemon_instance_id))
    (Some (str_or (clean_option (lease ≫= ls_config_signature)) config_signature))
    (Some (match lease with Some s => str_or (Some (ls_socket_path s)) (ke_socket_path env) | None => ke_socket_path env end))
    (current_socket_inode n (match lease with Some s => ls_socket_path s | None => ke_socket_path env end))
    (lc_namespace_epoch l) None None).
Definition spawn_failed_lifecycle (l : CcbdLifecycle) (occurred_at last_progress_at failure_reason : string) : result CcbdLifecycle :=
  lifecycle_post_init (mkLifecycle (lc_project_id l) (lc_desired_state l) PH_failed (lc_generation l) occurred_at
    (lc_startup_id l) (Some "spawn_failed") (Some last_progress_at) None (lc_keeper_pid l) None None
    (lc_config_signature l) (lc_socket_path l) None (lc_namespace_epoch l) (Some failure_reason) (lc_shutdown_intent l)).
(** Before [starting] is assigned an exception leaves the lifecycle as it is. *)
Definition prepare_start (l : CcbdLifecycle) (inspection : LeaseInspection) (now : string) : result (CcbdLifecycle * string) :=
  config ← ke_config env;
  deadline_at ← iso_plus now (Qmax 0 start_timeout_s);
  starting ← starting_lifecycle l inspection now deadline_at config.2;
  mret (starting, config.2).
Definition spawn_daemon (state : KeeperState) : Nd KeeperState :=
  now ← utc_now;
  inspection ← inspect None false;
  lifecycle ← st_gets nd_lifecycle;
  inode ← st_gets current_socket_inode;
  l ← match lifecycle with
      | Some l => mret l
      | None => st_lift (lifecycle_from_inspection inode (ke_project_id env) inspection now None (Some (ke_pid env)))
      end;
  match prepare_start l inspection now with
  | Err e => st_lift (with_failure state now (exn_text e))
  | Ok (starting, config_signature) =>
      st_try
        (_ ← st_modify (set_lifecycle starting);
         _ ← ke_spawn env;
         lease ← load_state;
         occurred_at ← utc_now;
         n ← st_gets id;
         last_progress_at ← utc_now;
         _ ← save (spawned_lifecycle n starting lease config_signature occurred_at last_progress_at);
         st_lift (with_success state now))
        (λ e,
         occurred_at ← utc_now;
         last_progress_at ← utc_now;
         _ ← save (spawn_failed_lifecycle starting occurred_at last_progress_at (exn_text e));
         st_lift (with_failure state now (exn_text e)))
  end.

Definition reconcile_once (state : KeeperState) : Nd KeeperState :=
  now ← utc_now;
  if restart_backoff_active state now then mret state
  else
    inspection ← inspect None false;
    l ← ensure_project_lifecycle inspection now;
    if negb (bool_decide (lc_desired_state l = DSt_running)) then mret state
    else
      connectable_state ← reconcile_connectable_daemon state inspection l now;
      match connectable_state with
      | Some s => mret s
      | None =>
          restart_state ← restart_state_from_inspection state inspection now;
          match restart_state with
          | Some s => spawn_daemon s
          | None => mret state
          end
      end.

Definition shutdown_requested (project_id : string) : Nd bool :=
  intent ← st_gets nd_shutdown_intent;
  mret (match intent with Some i => si_project_id i =ˢ project_id | None => false end).
(** The next state, whether the keeper stops, and whether it then removes its
    files. *)
Definition run_iteration (state : KeeperState) (cleanup_transient : bool) : Nd (KeeperState * bool * bool) :=
  now ← utc_now;
  if negb (ke_project_defined env) then mret (state, true, true)
  else
    requested ← shutdown_requested (ks_project_id state);
    if (requested : bool) then s ← st_lift (with_state state "stopped" now); mret (s, true, cleanup_transient)
    else
      checked ← st_lift (with_check state now);
      s ← reconcile_once checked;
      mret (s, false, cleanup_transient).
End with_env.

(** [run_forever], with what the keeper meets in each iteration; the state is
    what is saved last. *)
Fixpoint run_iterations (envs : list KeeperEnv) (state : KeeperState) (cleanup_transient : bool) : Nd (KeeperState * bool * bool) :=
  match envs with
  | [] => mret (state, false, cleanup_transient)
  | env :: rest =>
      '(s, should_stop, cleanup) ← run_iteration env state cleanup_transient;
      if (should_stop : bool) then mret (s, true, cleanup) else run_iterations rest s cleanup
  end.
End keeper.
