(* ===== verification/DaemonSystem.v ===== *)
(** * Daemons that come, go, hang and crash

    The machine with any number of daemon processes of one project, as a step
    relation whose steps are the operations of [Daemon]; and what those
    operations do to the lease. *)
From stdpp Require Import pretty.
From Stdlib Require Import QArith.
From S2P Require Import Prelude PyValue Names CompletionModels MailboxKernel Lease Lifecycle Ownership Daemon.
Open Scope string_scope.
Open Scope list_scope.
Open Scope Z_scope.

(** Processes come and go. *)
Definition set_pids (pids : gset Z) (n : Node) : Node :=
  mkNode (nd_lease n) (nd_lifecycle n) (nd_shutdown_intent n) (nd_reports n) (nd_sockets n) (nd_next_inode n) pids
    (nd_boot_id n) (nd_ticks n).

(** ** Operations that leave the lease alone *)
(** What an operation on reports, the lifecycle and the socket keeps. *)
Record frame (p p' : Proc) : Prop := {
  fr_lease : nd_lease p'.1 = nd_lease p.1;
  fr_pids : nd_pids p'.1 = nd_pids p.1;
  fr_ticks : (nd_ticks p.1 ≤ nd_ticks p'.1)%nat;
  fr_pid : ap_pid p'.2 = ap_pid p.2;
  fr_instance : ap_daemon_instance_id p'.2 = ap_daemon_instance_id p.2;
  fr_app_lease : ap_lease p'.2 = ap_lease p.2
}.
#[export] Instance frame_preorder : PreOrder frame.
Proof.
  split; [intros p; by split|]. intros p q r [] []. split; (lia || congruence).
Qed.
Definition framed {A} (m : D A) : Prop := ∀ p, frame p (m p).2.

Lemma framed_ret {A} (a : A) : framed (mret a).
Proof. intros p. done. Qed.
Lemma framed_raise {A} e : framed (st_raise e : D A).
Proof. intros p. done. Qed.
Lemma framed_lift {A} (r : result A) : framed (st_lift r).
Proof. intros p. done. Qed.
Lemma framed_gets {A} (f : Proc → A) : framed (st_gets f).
Proof. intros p. done. Qed.
Lemma framed_bind {A B} (m : D A) (f : A → D B) : framed m → (∀ a, framed (f a)) → framed (m ≫= f).
Proof.
  intros Hm Hf p. unfold mbind, st_bind. specialize (Hm p). destruct (m p) as [[a|e] p']; [|done].
  by etrans; [exact Hm|apply Hf].
Qed.
Lemma framed_try {A} (m : D A) h : framed m → (∀ e, framed (h e)) → framed (st_try m h).
Proof.
  intros Hm Hh p. unfold st_try. specialize (Hm p). destruct (m p) as [[a|e] p']; [done|].
  by etrans; [exact Hm|apply Hh].
Qed.
Lemma framed_node {A} (m : Nd A) :
  (∀ n, nd_lease (m n).2 = nd_lease n ∧ nd_pids (m n).2 = nd_pids n ∧ (nd_ticks n ≤ nd_ticks (m n).2)%nat) → framed (on_node m).
Proof.
  intros Hm [n a]. unfold on_node. cbn. destruct (Hm n) as (?&?&?). destruct (m n) as [r n']. by split.
Qed.
Lemma framed_node_gets {A} (f : Node → A) : framed (on_node (st_gets f)).
Proof. apply framed_node. intros n. done. Qed.
Lemma framed_app : framed app.
Proof. apply framed_gets. Qed.
Lemma framed_lifecycle l : framed (on_node (st_modify (set_lifecycle l))).
Proof. apply framed_node. intros n. done. Qed.
Lemma framed_report r : framed (on_node (st_modify (add_report r))).
Proof. apply framed_node. intros n. done. Qed.
Lemma framed_bound b : framed (set_app_bound b).
Proof. intros p. by split. Qed.
Lemma framed_stop : framed request_project_stop.
Proof. intros p. by split. Qed.
Lemma framed_shutdown_server path b : framed (on_node (shutdown_server path b)).
Proof.
  apply framed_node. intros n. unfold shutdown_server, st_modify. cbn.
  destruct b as [i|]; [|done]. destruct (nd_sockets n !! path) as [s|]; [|done]. by destruct (sf_inode s =? i).
Qed.
Lemma framed_listen_server path pid b fault : framed (on_node (listen_server path pid b fault)).
Proof. apply framed_node. intros n. unfold listen_server. by destruct b, fault. Qed.

Create HintDb framed discriminated.
#[export] Hint Constants Opaque : framed.
#[export] Hint Resolve framed_ret framed_raise framed_lift framed_gets framed_node_gets framed_app framed_lifecycle framed_report
  framed_bound framed_stop framed_shutdown_server framed_listen_server : framed.
Ltac framed_step :=
  match goal with
  | |- framed (_ ≫= _) => apply framed_bind; [|intros ?]
  | |- framed (st_try _ _) => apply framed_try; [|intros ?]
  | |- framed (match ?x with _ => _ end) => destruct x
  | |- framed (let _ := _ in _) => cbn zeta
  | |- framed _ => solve [eauto with framed]
  end.
Ltac framed := repeat framed_step.

Section framed.
Context `{Clock} `{CompletionLib}.
Lemma framed_now : framed (on_node utc_now).
Proof. apply framed_node. intros n. cbn. split_and!; [done..|lia]. Qed.
Hint Resolve framed_now : framed.
Lemma framed_inspect lease b : framed (on_node (inspect lease b)).
Proof.
  apply framed_node. intros n. unfold inspect, mbind, st_bind. unfold st_lift. destruct lease as [l|]; cbn.
  - destruct (heartbeat_is_fresh _ l); cbn; split_and!; first [done|lia].
  - destruct (nd_lease n) as [l|] eqn:E; cbn; [destruct (heartbeat_is_fresh _ l)|]; cbn; split_and!; first [done|lia].
Qed.
Hint Resolve framed_inspect : framed.
Lemma framed_save l : framed (save_lifecycle l).
Proof. unfold save_lifecycle. framed. Qed.
Hint Resolve framed_save : framed.
Lemma framed_current_lifecycle : framed current_lifecycle.
Proof. unfold current_lifecycle. framed. Qed.
Hint Resolve framed_current_lifecycle : framed.
Lemma framed_mounted e : framed (mark_lifecycle_mounted e).
Proof. unfold mark_lifecycle_mounted. framed. Qed.
Lemma framed_stopping s : framed (mark_lifecycle_stopping s).
Proof. unfold mark_lifecycle_stopping. framed. Qed.
Lemma framed_unmounted d : framed (mark_lifecycle_unmounted d).
Proof. unfold mark_lifecycle_unmounted. framed. Qed.
Lemma framed_failed r : framed (mark_lifecycle_failed r).
Proof. unfold mark_lifecycle_failed. framed. Qed.
Lemma framed_progress s : framed (update_startup_progress s).
Proof. unfold update_startup_progress. framed. Qed.
Lemma framed_startup_report s acts r : framed (record_startup_report s acts r).
Proof. unfold record_startup_report. framed. Qed.
Lemma framed_shutdown_report t s acts r : framed (record_shutdown_report t s acts r).
Proof. unfold record_shutdown_report. framed. Qed.
Hint Resolve framed_mounted framed_stopping framed_unmounted framed_failed framed_progress framed_startup_report
  framed_shutdown_report : framed.
Lemma framed_listen fault : framed (listen fault).
Proof. unfold listen. framed. Qed.
Lemma framed_failures steps : framed (heartbeat_failures steps).
Proof. induction steps as [|[name r] steps IH]; cbn; framed. Qed.
Lemma framed_record_failures l : framed (record_heartbeat_failures l).
Proof. unfold record_heartbeat_failures. framed. Qed.
Lemma framed_prepare_stop t r k stop_all : framed (prepare_project_stop t r k stop_all).
Proof. unfold prepare_project_stop. framed. Qed.
End framed.
#[export] Hint Resolve framed_now framed_inspect framed_save framed_current_lifecycle framed_mounted framed_stopping
  framed_unmounted framed_failed framed_progress framed_startup_report framed_shutdown_report framed_listen framed_failures
  framed_record_failures framed_prepare_stop : framed.

(** ** Operations of the holder *)
(** What a process may do to the lease: nothing, or, when the lease names it,
    edit it without changing holder, project, path and generation. *)
Definition holder_edit (pid : Z) (L L' : option CcbdLease) : Prop :=
  L' = L ∨ ∃ l l', L = Some l ∧ L' = Some l' ∧ ls_ccbd_pid l = pid ∧ ls_ccbd_pid l' = pid ∧
    ls_generation l' = ls_generation l ∧ ls_project_id l' = ls_project_id l ∧ ls_socket_path l' = ls_socket_path l ∧
    ls_daemon_instance_id l' = ls_daemon_instance_id l.
#[export] Instance holder_edit_preorder pid : PreOrder (holder_edit pid).
Proof.
  split; [intros L; by left|]. intros L1 L2 L3 H12 H23. destruct H12 as [->|(l & l' & E1 & E2 & H12)]; [done|].
  destruct H23 as [->|(m & m' & E3 & E4 & H23)]; [right; by exists l, l'|].
  right. exists l, m'. rewrite E2 in E3. injection E3 as <-. intuition congruence.
Qed.

Lemma st_bind_Ok_inv {S A B} (m : ST S A) (f : A → ST S B) s b s' : (m ≫= f) s = (Ok b, s') →
  ∃ a s1, m s = (Ok a, s1) ∧ f a s1 = (Ok b, s').
Proof. unfold mbind, st_bind. destruct (m s) as [[a|e] s1]; [|done]. intros H. by exists a, s1. Qed.
Lemma on_node_eq {A} (m : Nd A) p r p' : on_node m p = (r, p') → m p.1 = (r, p'.1) ∧ p'.2 = p.2.
Proof. unfold on_node. destruct (m p.1) as [r' n']. by intros [= <- <-]. Qed.

(** What the edited lease is. *)
Lemma with_heartbeat_fields l t l' : with_heartbeat l t = Ok l' →
  l' = mkLease (ls_project_id l) (ls_ccbd_pid l) (ls_socket_path l) (ls_owner_uid l) (ls_boot_id l) (ls_started_at l) t
         (ls_mount_state l) (ls_generation l) (ls_config_signature l) (ls_keeper_pid l) (ls_daemon_instance_id l) (ls_api_version l).
Proof. unfold with_heartbeat, lease_post_init. intros H. by inv_result. Qed.
Lemma with_mount_state_fields l s t l' : with_mount_state l s t = Ok l' →
  l' = mkLease (ls_project_id l) (ls_ccbd_pid l) (ls_socket_path l) (ls_owner_uid l) (ls_boot_id l) (ls_started_at l) t
         s (ls_generation l) (ls_config_signature l) (ls_keeper_pid l) (ls_daemon_instance_id l) (ls_api_version l).
Proof. unfold with_mount_state, lease_post_init. intros H. by inv_result. Qed.
Lemma with_signature_fields l s t l' : with_signature l s t = Ok l' →
  l' = mkLease (ls_project_id l) (ls_ccbd_pid l) (ls_socket_path l) (ls_owner_uid l) (ls_boot_id l) (ls_started_at l) t
         (ls_mount_state l) (ls_generation l) (Some s) (ls_keeper_pid l) (ls_daemon_instance_id l) (ls_api_version l).
Proof. unfold with_signature, lease_post_init. intros H. by inv_result. Qed.
Lemma expected_holder l pid inst : assert_expected_holder l (Some pid) inst = Ok tt → ls_ccbd_pid l = pid.
Proof. unfold assert_expected_holder. intros H. inv_result. by apply negb_false_iff, Z.eqb_eq in H0. Qed.

#[local] Arguments assert_expected_holder : simpl never.
#[local] Arguments raise_if : simpl never.
Section leases.
Context `{Clock} `{CompletionLib}.
(** The parts of a node that only time and leases change. *)
Record only_lease (n n' : Node) : Prop := {
  ol_pids : nd_pids n' = nd_pids n;
  ol_ticks : (nd_ticks n ≤ nd_ticks n')%nat;
  ol_lifecycle : nd_lifecycle n' = nd_lifecycle n;
  ol_sockets : nd_sockets n' = nd_sockets n
}.

Lemma refresh_heartbeat_spec pid inst n r n' : refresh_heartbeat (Some pid) inst n = (r, n') →
  only_lease n n' ∧ holder_edit pid (nd_lease n) (nd_lease n') ∧
  match r with
  | Ok l => nd_lease n' = Some l ∧
      (ls_mount_state l = MS_mounted → ls_ccbd_pid l = pid ∧ ls_last_heartbeat_at l = clock_at (nd_ticks n))
  | Err _ => nd_lease n' = nd_lease n
  end.
Proof.
  unfold refresh_heartbeat, existing_lease, load_state, mbind, st_bind. cbn.
  destruct (nd_lease n) as [l|] eqn:E; cbn; [|intros [= <- <-]; rewrite E; split; [by split|split; [by left|done]]].
  destruct (negb (bool_decide (ls_mount_state l = MS_mounted))) eqn:Hm; cbn.
  { intros [= <- <-]. rewrite E. split; [by split|]. split; [by left|]. split; [done|].
    apply negb_true_iff, bool_decide_eq_false in Hm. by intros ?. }
  apply negb_false_iff, bool_decide_eq_true in Hm.
  unfold st_lift. destruct (assert_expected_holder l (Some pid) inst) as [[]|e] eqn:Hh; cbn.
  2: { intros [= <- <-]. rewrite E. split; [by split|]. by split; [left|]. }
  apply expected_holder in Hh. destruct (with_heartbeat l _) as [l'|e] eqn:Hl; cbn.
  2: { intros [= <- <-]. cbn. rewrite E. split; [split; cbn; done || lia|]. by split; [left|]. }
  intros [= <- <-]. cbn. apply with_heartbeat_fields in Hl. split; [split; cbn; done || lia|]. split.
  - right. exists l, l'. rewrite Hl. by split_and!.
  - split; [done|]. intros _. by rewrite Hl.
Qed.
Lemma update_config_signature_spec s pid inst g n r n' : update_config_signature s pid inst g n = (r, n') →
  only_lease n n' ∧ holder_edit pid (nd_lease n) (nd_lease n') ∧
  match r with
  | Ok l => nd_lease n' = Some l ∧ ls_mount_state l = MS_mounted ∧ ls_ccbd_pid l = pid ∧
      ls_last_heartbeat_at l = clock_at (nd_ticks n)
  | Err _ => nd_lease n' = nd_lease n
  end.
Proof.
  unfold update_config_signature, existing_lease, load_state, mbind, st_bind. cbn.
  destruct (nd_lease n) as [l|] eqn:E; cbn; [|intros [= <- <-]; rewrite E; split; [by split|split; [by left|done]]].
  unfold st_lift. destruct (raise_if (negb (bool_decide (ls_mount_state l = MS_mounted))) _) as [[]|e] eqn:Hm; cbn.
  2: { intros [= <- <-]. rewrite E. split; [by split|]. by split; [left|]. }
  apply raise_if_Ok, negb_false_iff, bool_decide_eq_true in Hm.
  destruct (assert_expected_holder l (Some pid) _) as [[]|e] eqn:Hh; cbn.
  2: { intros [= <- <-]. rewrite E. split; [by split|]. by split; [left|]. }
  apply expected_holder in Hh.
  destruct (raise_if _ _) as [[]|e]; cbn; [|intros [= <- <-]; rewrite E; split; [by split|by split; [left|]]].
  destruct (raise_if _ _) as [[]|e]; cbn; [|intros [= <- <-]; rewrite E; split; [by split|by split; [left|]]].
  destruct (with_signature l _ _) as [l'|e] eqn:Hl; cbn.
  2: { intros [= <- <-]. cbn. rewrite E. split; [split; cbn; done || lia|]. by split; [left|]. }
  intros [= <- <-]. cbn. apply with_signature_fields in Hl. split; [split; cbn; done || lia|]. split.
  - right. exists l, l'. rewrite Hl. by split_and!.
  - rewrite Hl. by split_and!.
Qed.
Lemma mark_unmounted_spec pid inst n r n' : mark_unmounted (Some pid) inst n = (r, n') →
  only_lease n n' ∧ holder_edit pid (nd_lease n) (nd_lease n') ∧
  match r with
  | Ok o => nd_lease n' = o ∧ ∀ l, o = Some l → ls_mount_state l = MS_unmounted
  | Err _ => nd_lease n' = nd_lease n
  end.
Proof.
  unfold mark_unmounted, load_state, mbind, st_bind. cbn.
  destruct (nd_lease n) as [l|] eqn:E; cbn; [|intros [= <- <-]; rewrite E; split; [by split|by split; [left|]]].
  unfold st_lift. destruct (assert_expected_holder l (Some pid) inst) as [[]|e] eqn:Hh; cbn.
  2: { intros [= <- <-]. rewrite E. split; [by split|]. by split; [left|]. }
  apply expected_holder in Hh. destruct (with_mount_state l _ _) as [l'|e] eqn:Hl; cbn.
  2: { intros [= <- <-]. cbn. rewrite E. split; [split; cbn; done || lia|]. by split; [left|]. }
  intros [= <- <-]. cbn. apply with_mount_state_fields in Hl. split; [split; cbn; done || lia|]. split.
  - right. exists l, l'. rewrite Hl. by split_and!.
  - split; [done|]. intros ? [= <-]. by rewrite Hl.
Qed.

(** *** Mounting *)
(** [displaceable n l]: nobody is left who holds [l]. *)
Definition displaceable (n : Node) (l : CcbdLease) : Prop :=
  ls_mount_state l = MS_unmounted ∨ process_exists n (ls_ccbd_pid l) = false ∨
  (heartbeat_is_fresh (clock_at (nd_ticks n)) l = Ok false ∧ mounted_socket_connectable n l = false).
(** Who may mount, and in which generation. *)
Definition may_mount (n : Node) (project_id : string) (pid : Z) (socket_path : string) (g : Z) : Prop :=
  match nd_lease n with
  | None => g = 1
  | Some l => ls_project_id l = project_id ∧
      ((same_holder l pid socket_path = true ∧ g = ls_generation l) ∨
       (same_holder l pid socket_path = false ∧ g = ls_generation l + 1 ∧ displaceable n l))
  end.
Lemma inspection_allows l alive fresh connectable :
  li_takeover_allowed (inspection_of l alive fresh connectable) = true ↔
  ls_mount_state l = MS_unmounted ∨ alive = false ∨ (fresh = false ∧ connectable = false).
Proof.
  unfold inspection_of, takeover_allowed. case_bool_decide as E; cbn [li_takeover_allowed]; [tauto|].
  destruct alive, fresh, connectable; cbn; split; intuition congruence.
Qed.
Lemma verify_or_takeover_spec project_id pid path n r n' : verify_or_takeover project_id pid path n = (r, n') →
  nd_lease n' = nd_lease n ∧ only_lease n n' ∧
  match r with
  | Ok g => may_mount n project_id pid path g
  | Err e => ∃ l m, nd_lease n = Some l ∧
      (e = OwnershipConflictError m ∧ (ls_project_id l ≠ project_id ∨ (same_holder l pid path = false ∧ ¬ displaceable n l)) ∨
       heartbeat_is_fresh (clock_at (nd_ticks n)) l = Err e)
  end.
Proof.
  unfold verify_or_takeover, load_state, mbind, st_bind, may_mount. cbn.
  destruct (nd_lease n) as [l|] eqn:E; cbn; [|intros [= <- <-]; by rewrite E].
  unfold st_lift. destruct (raise_if _ _) as [[]|e] eqn:Hp.
  2: { intros [= <- <-]. rewrite E. split; [done|split; [by split|]]. unfold raise_if in Hp.
       destruct (negb _) eqn:Hn; [|done]. injection Hp as <-. apply negb_true_iff, bool_decide_eq_false in Hn.
       eexists _, _. split; [done|]. left. split; [done|by left]. }
  apply raise_if_Ok, negb_false_iff, bool_decide_eq_true in Hp.
  destruct (same_holder l pid path) eqn:Hs; [intros [= <- <-]; rewrite E; split_and!; [done|by split|done|by left]|].
  unfold inspect, mbind, st_bind. cbn.
  unfold st_lift. destruct (heartbeat_is_fresh _ l) as [fresh|e] eqn:Hfresh; cbn.
  2: { intros [= <- <-]. cbn. rewrite E. split; [done|split; [split; cbn; done || lia|]]. exists l, "". split; [done|]. by right. }
  set (i := inspection_of l _ _ _).
  assert (li_takeover_allowed i = true ↔ displaceable n l) as Hi.
  { unfold i, displaceable. rewrite inspection_allows, Hfresh. unfold process_exists. cbn. destruct fresh; intuition congruence. }
  destruct (li_takeover_allowed i); intros [= <- <-]; cbn; rewrite E; (split; [done|split; [split; cbn; done || lia|]]).
  - split; [done|]. right. split_and!; [done..|by apply Hi].
  - eexists _, _. split; [done|]. left. split; [done|]. right. split; [done|]. intros Hx%Hi. done.
Qed.
Lemma mark_mounted_spec uid project_id pid path g signature keeper_pid inst n r n' :
  mark_mounted uid project_id pid path g signature keeper_pid inst n = (r, n') →
  only_lease n n' ∧
  match r with
  | Ok l => nd_lease n' = Some l ∧ ls_mount_state l = MS_mounted ∧ ls_ccbd_pid l = pid ∧ ls_generation l = g ∧
      ls_project_id l = project_id ∧ ls_socket_path l = path ∧ ls_last_heartbeat_at l = clock_at (nd_ticks n) ∧
      ls_daemon_instance_id l = clean_signature inst
  | Err _ => nd_lease n' = nd_lease n
  end.
Proof.
  unfold mark_mounted, mbind, st_bind. cbn. unfold st_lift. destruct (lease_post_init _) as [l|e] eqn:Hl.
  2: { intros [= <- <-]. split; [split; cbn; done || lia|done]. }
  cbn. intros [= <- <-]. split; [split; cbn; done || lia|]. unfold lease_post_init in Hl. inv_result. subst l. by split_and!.
Qed.

(** *** Processes *)
(** What an operation of a process that may hold the lease does. *)
Record session (p p' : Proc) : Prop := {
  se_edit : holder_edit (ap_pid p.2) (nd_lease p.1) (nd_lease p'.1);
  se_pids : nd_pids p'.1 = nd_pids p.1;
  se_ticks : (nd_ticks p.1 ≤ nd_ticks p'.1)%nat;
  se_pid : ap_pid p'.2 = ap_pid p.2
}.
#[export] Instance session_preorder : PreOrder session.
Proof.
  split; [intros p; by split; [left|..]|]. intros p q r [E1 ? ? Ep] [E2 ? ? ?]. rewrite Ep in E2.
  split; [by etrans|lia || congruence..].
Qed.
Lemma frame_session p p' : frame p p' → session p p'.
Proof. intros []. split; [by left|done..]. Qed.
Definition in_session {A} (m : D A) : Prop := ∀ p, session p (m p).2.
Lemma framed_in_session {A} (m : D A) : framed m → in_session m.
Proof. intros Hm p. apply frame_session, Hm. Qed.
Lemma in_session_bind {A B} (m : D A) (f : A → D B) : in_session m → (∀ a, in_session (f a)) → in_session (m ≫= f).
Proof.
  intros Hm Hf p. unfold mbind, st_bind. specialize (Hm p). destruct (m p) as [[a|e] p']; [|done].
  by etrans; [exact Hm|apply Hf].
Qed.
Lemma in_session_try {A} (m : D A) h : in_session m → (∀ e, in_session (h e)) → in_session (st_try m h).
Proof.
  intros Hm Hh p. unfold st_try. specialize (Hm p). destruct (m p) as [[a|e] p']; [done|].
  by etrans; [exact Hm|apply Hh].
Qed.
Lemma in_session_set_lease l : in_session (set_app_lease l).
Proof. intros p. split; [by left|done..]. Qed.
Lemma mark_current_daemon_unmounted_session : in_session mark_current_daemon_unmounted.
Proof.
  intros p. unfold mark_current_daemon_unmounted, mbind, st_bind, app, st_gets. cbn. unfold st_try, on_node.
  destruct (mark_unmounted (Some (ap_pid p.2)) _ p.1) as [[o|e] n'] eqn:E; apply mark_unmounted_spec in E as ([? ? ? ?] & ? & ?).
  - by split.
  - destruct e; cbn; by split.
Qed.
Lemma release_session d : in_session (release_backend_ownership d).
Proof.
  unfold release_backend_ownership. apply in_session_bind; [apply mark_current_daemon_unmounted_session|intros ?].
  apply framed_in_session. framed.
Qed.
Lemma leave_session : in_session leave_service.
Proof.
  unfold leave_service, release_desired_state. apply in_session_bind; [apply framed_in_session; framed|intros ?].
  apply in_session_bind; [apply release_session|intros ?]. apply in_session_set_lease.
Qed.
Lemma stop_session t r k stop_all : in_session (execute_project_stop t r k stop_all).
Proof.
  unfold execute_project_stop, finalize_project_stop. apply in_session_bind; [apply framed_in_session; framed|intros ?].
  apply in_session_bind; [apply framed_in_session; framed|intros ?].
  apply in_session_bind; [apply release_session|intros ?]. apply in_session_bind; [apply in_session_set_lease|intros ?].
  apply framed_in_session. framed.
Qed.

(** *** A start *)
Definition never_ok {A} (m : D A) : Prop := ∀ s b s', m s ≠ (Ok b, s').
Lemma never_ok_raise {A} e : never_ok (st_raise e : D A).
Proof. intros s b s'. done. Qed.
Lemma never_ok_bind {A B} (m : D A) (f : A → D B) : (∀ a, never_ok (f a)) → never_ok (m ≫= f).
Proof. intros Hf s b s'. unfold mbind, st_bind. destruct (m s) as [[a|e] s1]; [apply Hf|done]. Qed.
Lemma st_try_Ok_inv {A} (m : D A) h s a s' : (∀ e, never_ok (h e)) → st_try m h s = (Ok a, s') → m s = (Ok a, s').
Proof. intros Hh. unfold st_try. destruct (m s) as [[x|e] s1]; [done|]. intros Hx. by destruct (Hh e s1 a s'). Qed.

Lemma boot_daemon_ok boot epoch p u p' : boot_daemon boot epoch p = (Ok u, p') → frame p p'.
Proof.
  intros Hb%st_try_Ok_inv; [|intros e; repeat (apply never_ok_bind; intros ?); apply never_ok_raise].
  match type of Hb with ?m p = _ => assert (framed m) as Hf by framed; specialize (Hf p); by rewrite Hb in Hf end.
Qed.
Lemma boot_daemon_session boot epoch : in_session (boot_daemon boot epoch).
Proof.
  apply in_session_try; [apply framed_in_session; framed|intros e].
  apply in_session_bind; [apply release_session|intros ?]. apply framed_in_session. framed.
Qed.

(** The lease [l] was taken at [p] in generation [g]. *)
Record taken (p : Proc) (g : Z) (l : CcbdLease) : Prop := {
  tk_may : may_mount p.1 (ap_project_id p.2) (ap_pid p.2) (ap_socket_path p.2) g;
  tk_pid : ls_ccbd_pid l = ap_pid p.2;
  tk_generation : ls_generation l = g;
  tk_project : ls_project_id l = ap_project_id p.2;
  tk_path : ls_socket_path l = ap_socket_path p.2;
  tk_instance : ls_daemon_instance_id l = clean_signature (Some (ap_daemon_instance_id p.2))
}.
(** What stays of a process and its machine. *)
Record onward (p p' : Proc) : Prop := {
  on_pids : nd_pids p'.1 = nd_pids p.1;
  on_ticks : (nd_ticks p.1 ≤ nd_ticks p'.1)%nat;
  on_pid : ap_pid p'.2 = ap_pid p.2
}.
#[export] Instance onward_preorder : PreOrder onward.
Proof. split; [by split|]. intros p q r [] []. split; lia || congruence. Qed.
Lemma session_onward p p' : session p p' → onward p p'.
Proof. intros []. by split. Qed.

Lemma taken_edit p g l L' : taken p g l → holder_edit (ap_pid p.2) (Some l) L' → ∃ l', L' = Some l' ∧ taken p g l'.
Proof.
  intros [] [->|(l1 & l' & [= <-] & -> & ? & ? & ? & ? & ? & ?)]; [exists l|exists l']; (split; [done|]); split; congruence.
Qed.
Lemma set_app_lease_bind {B} l (k : unit → D B) p : (set_app_lease l ≫= k) p = k tt (set_app_lease l p).2.
Proof. done. Qed.
Lemma mount_daemon_spec fault p r p' : mount_daemon fault p = (r, p') →
  onward p p' ∧
  match r with
  | Ok _ => ∃ g l j, nd_lease p'.1 = Some l ∧ ap_lease p'.2 = Some l ∧ taken p g l ∧ ls_mount_state l = MS_mounted ∧
      ls_last_heartbeat_at l = clock_at j ∧ (nd_ticks p.1 ≤ j)%nat ∧ (j ≤ nd_ticks p'.1)%nat
  | Err _ => nd_lease p'.1 = nd_lease p.1 ∨ ∃ g l, nd_lease p'.1 = Some l ∧ taken p g l
  end.
Proof.
  unfold mount_daemon, app. rewrite st_gets_bind. intros H1.
  destruct (on_node (verify_or_takeover (ap_project_id p.2) (ap_pid p.2) (ap_socket_path p.2)) p) as [r1 p1] eqn:E1.
  pose proof (on_node_eq _ _ _ _ E1) as [Hv Ha1].
  apply verify_or_takeover_spec in Hv as (Hl1 & [? ? ? ?] & Hr1).
  destruct r1 as [g|e]; [|rewrite (st_bind_err _ _ _ _ _ E1) in H1; injection H1 as <- <-; split; [split; congruence|by left]].
  rewrite (st_bind_ok _ _ _ _ _ E1) in H1.
  match type of H1 with (?m ≫= _) _ = _ => destruct (m p1) as [r2 p2] eqn:E2 end.
  pose proof (on_node_eq _ _ _ _ E2) as [Hm Ha2].
  apply mark_mounted_spec in Hm as ([? ? ? ?] & Hr2).
  destruct r2 as [l|e].
  2: { rewrite (st_bind_err _ _ _ _ _ E2) in H1. injection H1 as <- <-. split; [split; try congruence; lia|]. left. congruence. }
  rewrite (st_bind_ok _ _ _ _ _ E2) in H1. destruct Hr2 as (Hl2 & Hmt & Hpid & Hg & Hproj & Hpath & Hhb & Hinst).
  assert (taken p g l) as Htaken by (split; congruence).
  rewrite set_app_lease_bind in H1.
  match type of H1 with st_try ?m ?h ?q = _ => set (p3 := q) in H1; set (listening := m) in H1; set (handler := h) in H1 end.
  assert (framed listening) as Hf by (unfold listening; framed).
  assert (nd_lease p3.1 = Some l ∧ ap_lease p3.2 = Some l ∧ ap_pid p3.2 = ap_pid p.2 ∧ nd_pids p3.1 = nd_pids p.1 ∧
    nd_ticks p3.1 = nd_ticks p2.1) as (H3 & H4 & H5 & H6 & H7).
  { unfold p3. cbn. rewrite Ha2, Ha1. split_and!; congruence. }
  clearbody p3. destruct r as [u|e].
  - apply st_try_Ok_inv in H1; [|intros e; unfold handler; repeat (apply never_ok_bind; intros ?); apply never_ok_raise].
    specialize (Hf p3). rewrite H1 in Hf. destruct Hf as [F1 F2 F3 F4 F5 F6]. cbn in *.
    split; [split; try congruence; lia|]. exists g, l, (nd_ticks p1.1). split_and!; try congruence; try lia.
  - unfold st_try in H1. specialize (Hf p3). destruct (listening p3) as [[u|e'] p4]; [done|]. cbn in Hf.
    destruct Hf as [F1 F2 F3 F4 F5 F6].
    assert (in_session (handler e')) as Hs.
    { unfold handler. apply in_session_bind; [apply release_session|intros ?].
      apply in_session_bind; [apply in_session_set_lease|intros ?]. apply framed_in_session. framed. }
    specialize (Hs p4). rewrite H1 in Hs. destruct Hs as [S1 S2 S3 S4]. cbn in *.
    split; [split; try congruence; lia|]. right. rewrite F1, H3, F4, H5 in S1.
    destruct (taken_edit _ _ _ _ Htaken S1) as (l' & ? & ?). by exists g, l'.
Qed.
Lemma start_spec fault boot epoch p r p' : start fault boot epoch p = (r, p') →
  onward p p' ∧
  match r with
  | Ok _ => ∃ g l j, nd_lease p'.1 = Some l ∧ ap_lease p'.2 = Some l ∧ taken p g l ∧ ls_mount_state l = MS_mounted ∧
      ls_last_heartbeat_at l = clock_at j ∧ (nd_ticks p.1 ≤ j)%nat ∧ (j ≤ nd_ticks p'.1)%nat
  | Err _ => nd_lease p'.1 = nd_lease p.1 ∨ ∃ g l, nd_lease p'.1 = Some l ∧ taken p g l
  end.
Proof.
  unfold start. intros H1. destruct (mount_daemon fault p) as [[u|e] p1] eqn:E1.
  2: { rewrite (st_bind_err _ _ _ _ _ E1) in H1. injection H1 as <- <-. exact (mount_daemon_spec _ _ _ _ E1). }
  rewrite (st_bind_ok _ _ _ _ _ E1) in H1.
  apply mount_daemon_spec in E1 as (On & g & l & j & Hl & Ha & Ht & Hm & Hhb & Hj & Hj').
  destruct (boot_daemon boot epoch p1) as [[v|e] p2] eqn:E2.
  - rewrite (st_bind_ok _ _ _ _ _ E2) in H1. unfold app in H1. rewrite st_gets_bind in H1. injection H1 as <- <-.
    apply boot_daemon_ok in E2 as [F1 F2 F3 F4 F5 F6]. split; [etrans; [exact On|by split]|].
    exists g, l, j. split_and!; try congruence; try done. lia.
  - rewrite (st_bind_err _ _ _ _ _ E2) in H1. injection H1 as <- <-.
    pose proof (boot_daemon_session boot epoch p1) as Hs. rewrite E2 in Hs. cbn in Hs.
    split; [etrans; [exact On|by apply session_onward]|]. right. destruct Hs as [S1 _ _ _]. rewrite Hl, (on_pid _ _ On) in S1.
    destruct (taken_edit _ _ _ _ Ht S1) as (l' & ? & ?). by exists g, l'.
Qed.
End leases.
