(* ===== verification/DaemonTheorems.v ===== *)
(** * One daemon at a time

    Whatever daemons are started, hang, crash, are killed or lose their process
    id to another process: at most one of them holds a project, a holder that
    is well is never displaced, and every change of the holder goes with a new
    generation. *)
From stdpp Require Import pretty.
From Stdlib Require Import QArith.
From S2P Require Import Prelude PyValue Names CompletionModels MailboxKernel Lease Lifecycle Ownership Daemon DaemonSystem.
Open Scope string_scope.
Open Scope list_scope.
Open Scope Z_scope.

(** ** The system *)
Record System := mkSystem { sy_node : Node; sy_apps : gmap Z CcbdApp }.

Definition close_sockets (p : SocketFile → bool) (n : Node) : Node :=
  set_sockets ((λ s, if p s then mkSocket (sf_inode s) (sf_pid s) false else s) <$> nd_sockets n) (nd_next_inode n) n.
(** A process ends: the system closes its sockets, their files stay. *)
Definition exit_process (pid : Z) (s : System) : System :=
  mkSystem (set_pids (nd_pids (sy_node s) ∖ {[pid]}) (close_sockets (λ f, sf_pid f =? pid) (sy_node s))) (delete pid (sy_apps s)).
Definition with_process (pid : Z) (p : Proc) (s : System) : System := mkSystem p.1 (<[pid := p.2]> (sy_apps s)).
Definition on_sy_node (f : Node → Node) (s : System) : System := mkSystem (f (sy_node s)) (sy_apps s).
Definition reboot (boot_id : string) (s : System) : System :=
  let n := close_sockets (λ _, true) (sy_node s) in
  mkSystem (mkNode (nd_lease n) (nd_lifecycle n) (nd_shutdown_intent n) (nd_reports n) (nd_sockets n) (nd_next_inode n) ∅ boot_id
              (nd_ticks n)) ∅.
(** A serving daemon leaves, whatever made it leave: [serve_forever] releases
    what it holds, and the process ends. *)
Definition leave `{Clock} `{CompletionLib} (pid : Z) (p : Proc) (s : System) : System :=
  exit_process pid (with_process pid (leave_service p).2 s).

Section system.
Context `{HClock : Clock} `{HLib : CompletionLib}.
Abbreviation proc s a := ((sy_node s, a) : Proc).

(** A daemon process whose [start] raises ends; one whose heartbeat raises
    leaves. The lifecycle file, the answers of sockets and other processes are
    the environment's. *)
Inductive system_step (s : System) : System → Prop :=
  | step_time : system_step s (on_sy_node tick s)
  | step_lifecycle l : system_step s (on_sy_node (set_lifecycle l) s)
  | step_answers path f b : nd_sockets (sy_node s) !! path = Some f → sf_pid f ∈ nd_pids (sy_node s) →
      system_step s (on_sy_node (λ n, set_sockets (<[path := mkSocket (sf_inode f) (sf_pid f) b]> (nd_sockets n)) (nd_next_inode n) n) s)
  | step_other_process pid : 0 < pid → pid ∉ nd_pids (sy_node s) →
      system_step s (on_sy_node (λ n, set_pids (nd_pids n ∪ {[pid]}) n) s)
  | step_daemon_process a : 0 < ap_pid a → ap_pid a ∉ nd_pids (sy_node s) → ap_lease a = None → ap_bound a = None →
      system_step s (mkSystem (set_pids (nd_pids (sy_node s) ∪ {[ap_pid a]}) (sy_node s)) (<[ap_pid a := a]> (sy_apps s)))
  | step_exit pid : system_step s (exit_process pid s)
  | step_reboot boot_id : system_step s (reboot boot_id s)
  | step_start pid a fault boot epoch r p' : sy_apps s !! pid = Some a → ap_lease a = None →
      start fault boot epoch (proc s a) = (r, p') →
      system_step s (match r with
                     | Ok _ => with_process pid p' s
                     | Err _ => exit_process pid (with_process pid p' s)
                     end)
  | step_heartbeat pid a allowed steps r p' : sy_apps s !! pid = Some a →
      heartbeat allowed steps (proc s a) = (r, p') →
      system_step s (match r with Ok _ => with_process pid p' s | Err _ => leave pid p' s end)
  | step_reconfigure pid a signature g r n' : sy_apps s !! pid = Some a →
      update_config_signature signature (ap_pid a) (ap_daemon_instance_id a) g (sy_node s) = (r, n') →
      system_step s (mkSystem n' (sy_apps s))
  | step_stop_refused pid a trigger reason k stop_all e p' : sy_apps s !! pid = Some a →
      prepare_project_stop trigger reason k stop_all (proc s a) = (Err e, p') →
      system_step s (with_process pid p' s)
  | step_stop pid a trigger reason k stop_all r p' : sy_apps s !! pid = Some a →
      execute_project_stop trigger reason k stop_all (proc s a) = (r, p') →
      system_step s (leave pid p' s)
  | step_leave pid a : sy_apps s !! pid = Some a → system_step s (leave pid (proc s a) s).

(** ** What holding means *)
(** The daemon [pid] holds the project: the lease it knows is mounted in its
    name, and its last heartbeat is not older than the grace time. *)
Definition fresh_at (k : nat) (l : CcbdLease) : Prop := heartbeat_is_fresh (clock_at k) l = Ok true.
Definition holds (s : System) (pid : Z) : Prop := ∃ a l, sy_apps s !! pid = Some a ∧ ap_lease a = Some l ∧
  ls_ccbd_pid l = pid ∧ ls_mount_state l = MS_mounted ∧ fresh_at (nd_ticks (sy_node s)) l.

(** What the clock reads can be compared and never goes back. *)
Context (time : nat → Z).
Hypothesis clock_reads : ∀ k, parse_utc_timestamp (clock_at k) = Some (true, time k).
Hypothesis clock_forward : ∀ j k, (j ≤ k)%nat → time j ≤ time k.

Lemma fresh_earlier j k l : (j ≤ k)%nat → fresh_at k l → fresh_at j l.
Proof using clock_forward clock_reads.
  intros Hjk. unfold fresh_at, heartbeat_is_fresh. rewrite !clock_reads.
  destruct (parse_utc_timestamp (ls_last_heartbeat_at l)) as [[aware h]|]; [|done].
  unfold raise_if. destruct (negb _); [done|]. cbn. intros [= Hq]. unfold mret, result_ret. f_equal. apply Qle_bool_iff in Hq. apply Qle_bool_iff. eapply Qle_trans; [|exact Hq].
  unfold Qle. cbn. specialize (clock_forward _ _ Hjk). nia.
Qed.
Lemma fresh_of_reading j k l : ls_last_heartbeat_at l = clock_at j →
  fresh_at k l ↔ Qle_bool ((time k - time j) # 1000000) heartbeat_grace_seconds = true.
Proof using clock_reads.
  intros Hl. unfold fresh_at, heartbeat_is_fresh. rewrite Hl, !clock_reads. cbn. split; [by intros [= ->]|by intros ->].
Qed.
Lemma fresh_later_reading i j k l l' : ls_last_heartbeat_at l = clock_at i → ls_last_heartbeat_at l' = clock_at j → (i ≤ j)%nat →
  fresh_at k l → fresh_at k l'.
Proof using clock_forward clock_reads.
  intros Hl Hl' Hij. rewrite (fresh_of_reading i), (fresh_of_reading j) by done. intros Hq.
  apply Qle_bool_iff in Hq. apply Qle_bool_iff. eapply Qle_trans; [|exact Hq]. unfold Qle. cbn. specialize (clock_forward _ _ Hij). nia.
Qed.

(** ** The invariant *)
Definition own_lease (s : System) (pid : Z) (a : CcbdApp) (l : CcbdLease) : Prop :=
  sy_apps s !! pid = Some a ∧ ap_lease a = Some l ∧ ls_ccbd_pid l = pid ∧ ls_mount_state l = MS_mounted.
Definition backed (s : System) (pid : Z) (l : CcbdLease) : Prop :=
  (∃ j, (j ≤ nd_ticks (sy_node s))%nat ∧ ls_last_heartbeat_at l = clock_at j) ∧
  (fresh_at (nd_ticks (sy_node s)) l → ∃ L, nd_lease (sy_node s) = Some L ∧ ls_ccbd_pid L = pid ∧
     ls_mount_state L = MS_mounted ∧ ∀ k, fresh_at k l → fresh_at k L).
Record system_ok (s : System) : Prop := {
  so_alive : ∀ pid a, sy_apps s !! pid = Some a → ap_pid a = pid ∧ 0 < pid ∧ pid ∈ nd_pids (sy_node s);
  so_backed : ∀ pid a l, own_lease s pid a l → backed s pid l
}.
(** The lease of a living holder that was heard of within the grace time. *)
Definition well_held (s : System) (L : CcbdLease) (pid : Z) : Prop :=
  nd_lease (sy_node s) = Some L ∧ ls_ccbd_pid L = pid ∧ 0 < pid ∧ pid ∈ nd_pids (sy_node s) ∧ ls_mount_state L = MS_mounted ∧
  fresh_at (nd_ticks (sy_node s)) L.
Lemma well_held_not_displaceable s L pid : well_held s L pid → ¬ displaceable (sy_node s) L.
Proof.
  intros (_ & Hp & H0 & Hin & Hm & Hf) [Hx|[Hx|[Hx _]]]; [congruence| |].
  - unfold process_exists in Hx. rewrite Hp, bool_decide_eq_true_2, andb_true_r in Hx by done. apply Z.ltb_ge in Hx. lia.
  - unfold fresh_at in Hf. congruence.
Qed.

(** A step of one process, or of none, keeps the invariant if it spares the lease
    of every other holder. *)
Lemma system_ok_step s s' pid : system_ok s →
  (nd_ticks (sy_node s) ≤ nd_ticks (sy_node s'))%nat →
  (∀ q, q ≠ pid → sy_apps s' !! q = sy_apps s !! q ∨ sy_apps s' !! q = None) →
  (∀ q a, sy_apps s' !! q = Some a → ap_pid a = q ∧ 0 < q ∧ q ∈ nd_pids (sy_node s')) →
  (∀ L q, q ≠ pid → well_held s L q → nd_lease (sy_node s') = Some L) →
  (∀ a l, own_lease s' pid a l → backed s' pid l) →
  system_ok s'.
Proof using clock_forward clock_reads.
  intros Hs Hticks Happs Halive Hspare Hown. split; [done|]. intros q a l (Ha & Hl & Hp & Hm).
  destruct (decide (q = pid)) as [->|Hq]; [by eapply Hown|].
  destruct (Happs q Hq) as [E|E]; rewrite E in Ha; [|done].
  destruct (so_backed _ Hs q a l) as [(j & Hj & Hhb) Hb]; [done|]. split; [exists j; split; [lia|done]|].
  intros Hf. apply (fresh_earlier _ _ l Hticks) in Hf as Hf0. destruct (Hb Hf0) as (L & HL & HLp & HLm & Hmono).
  exists L. split_and!; [|done..]. apply (Hspare L q Hq). destruct (so_alive _ Hs q a Ha) as (_ & ? & ?).
  split_and!; [done..|]. by apply Hmono.
Qed.
Lemma edit_spares s L q pid L' : q ≠ pid → well_held s L q → holder_edit pid (nd_lease (sy_node s)) L' → L' = Some L.
Proof. intros Hq (HL & Hp & _) [->|(l & l' & E & _ & Hl & _)]; [done|]. congruence. Qed.

(** *** The steps *)
Lemma system_ok_quiet s s' : system_ok s → (nd_ticks (sy_node s) ≤ nd_ticks (sy_node s'))%nat →
  (∀ q, sy_apps s' !! q = sy_apps s !! q ∨ sy_apps s' !! q = None) →
  (∀ q a, sy_apps s' !! q = Some a → q ∈ nd_pids (sy_node s) → q ∈ nd_pids (sy_node s')) →
  nd_lease (sy_node s') = nd_lease (sy_node s) → system_ok s'.
Proof using clock_forward clock_reads.
  intros Hs Ht Ha Hp Hl.
  assert (∀ q a, sy_apps s' !! q = Some a → ap_pid a = q ∧ 0 < q ∧ q ∈ nd_pids (sy_node s')) as Halive.
  { intros q a Hq. destruct (Ha q) as [E|E]; [|congruence]. destruct (so_alive _ Hs q a) as (?&?&?); [congruence|].
    split_and!; [done..|by eapply Hp]. }
  apply (system_ok_step s s' 0); [done|done|by intros; apply Ha|done| |].
  - intros L q _ (HL & _). congruence.
  - intros a l (Hq & _). apply Halive in Hq. lia.
Qed.
Lemma exit_ok s pid : system_ok s → system_ok (exit_process pid s).
Proof using clock_forward clock_reads.
  intros Hs. apply (system_ok_quiet s); [done|done| | |done]; cbn.
  - intros q. destruct (decide (q = pid)) as [->|]; [right; apply lookup_delete_eq|left; by apply lookup_delete_ne].
  - intros q a Hq Hin. apply elem_of_difference. split; [done|]. intros ->%elem_of_singleton. by rewrite lookup_delete_eq in Hq.
Qed.
(** A process that holds, edits and then is gone. *)
Lemma gone_ok s pid p' : system_ok s → (nd_ticks (sy_node s) ≤ nd_ticks p'.1)%nat → nd_pids p'.1 = nd_pids (sy_node s) →
  (∀ L q, q ≠ pid → well_held s L q → nd_lease p'.1 = Some L) → system_ok (exit_process pid (with_process pid p' s)).
Proof using clock_forward clock_reads.
  intros Hs Ht Hp Hspare. apply (system_ok_step s _ pid); [done|done| |..]; cbn.
  - intros q Hq. left. by rewrite lookup_delete_ne, lookup_insert_ne.
  - intros q a Hq. assert (q ≠ pid) as Hne by (intros ->; by rewrite lookup_delete_eq in Hq).
    rewrite lookup_delete_ne, lookup_insert_ne in Hq by done. destruct (so_alive _ Hs q a Hq) as (?&?&?).
    split_and!; [done..|]. rewrite Hp. apply elem_of_difference. split; [done|]. by intros ?%elem_of_singleton.
  - done.
  - intros a l (Hq & _). cbn in Hq. by rewrite lookup_delete_eq in Hq.
Qed.
(** A process that goes on. *)
Lemma goes_on_ok s pid p' : system_ok s → (nd_ticks (sy_node s) ≤ nd_ticks p'.1)%nat → nd_pids p'.1 = nd_pids (sy_node s) →
  ap_pid p'.2 = pid → 0 < pid → pid ∈ nd_pids (sy_node s) →
  (∀ L q, q ≠ pid → well_held s L q → nd_lease p'.1 = Some L) →
  (∀ l, ap_lease p'.2 = Some l → ls_ccbd_pid l = pid → ls_mount_state l = MS_mounted → backed (with_process pid p' s) pid l) →
  system_ok (with_process pid p' s).
Proof using clock_forward clock_reads.
  intros Hs Ht Hp Hpid H0 Hin Hspare Hown. apply (system_ok_step s _ pid); [done|done| |..]; cbn.
  - intros q Hq. left. by rewrite lookup_insert_ne.
  - intros q a Hq. destruct (decide (q = pid)) as [->|Hne].
    + rewrite lookup_insert_eq in Hq. injection Hq as <-. by rewrite Hp.
    + rewrite lookup_insert_ne in Hq by done. rewrite Hp. by apply so_alive.
  - done.
  - intros a l (Hq & Hl & Hlp & Hm). cbn in Hq. rewrite lookup_insert_eq in Hq. injection Hq as <-. by apply Hown.
Qed.
Lemma taken_spares s a g l' L q : system_ok s → taken (sy_node s, a) g l' → q ≠ ap_pid a → well_held s L q → False.
Proof.
  intros Hs [Hmay _ _ _ _ _] Hq Hheld. pose proof (well_held_not_displaceable _ _ _ Hheld) as Hnd.
  destruct Hheld as (HL & Hp & _). unfold may_mount in Hmay. cbn in Hmay. rewrite HL in Hmay.
  destruct Hmay as [_ [[Hs' _]|(_ & _ & Hd)]]; [|done].
  unfold same_holder in Hs'. apply andb_true_iff in Hs' as [Hx%Z.eqb_eq _]. congruence.
Qed.
Lemma start_step_ok s pid a fault boot epoch r p' : system_ok s → sy_apps s !! pid = Some a →
  start fault boot epoch (proc s a) = (r, p') →
  system_ok (match r with Ok _ => with_process pid p' s | Err _ => exit_process pid (with_process pid p' s) end).
Proof using clock_forward clock_reads.
  intros Hs Ha Hstart. destruct (so_alive _ Hs pid a Ha) as (Hpid & H0 & Hin).
  apply start_spec in Hstart as [[Hp Ht Hpp] Hr]. cbn in Hp, Ht, Hpp. destruct r as [o|e].
  - destruct Hr as (g & l & j & Hl & Hal & Htk & Hm & Hhb & Hj & Hj').
    apply goes_on_ok; [done..|congruence|done|done| |].
    + intros L q Hq Hheld. exfalso. eapply taken_spares; [done|done| |done]. by rewrite Hpid.
    + intros l1 Hl1 Hlp Hlm. assert (l1 = l) as -> by congruence. split; [by exists j|]. intros _. by exists l.
  - apply gone_ok; [done..|]. intros L q Hq Hheld. destruct Hr as [Hr|(g & l & _ & Htk)]; [rewrite Hr; apply Hheld|].
    exfalso. eapply taken_spares; [done|done| |done]. by rewrite Hpid.
Qed.
Lemma leave_ok s pid a p' : system_ok s → sy_apps s !! pid = Some a → session (proc s a) p' → system_ok (leave pid p' s).
Proof using clock_forward clock_reads.
  intros Hs Ha Hse. destruct (so_alive _ Hs pid a Ha) as (Hpid & _ & _).
  assert (session (proc s a) (leave_service p').2) as Hse' by (etrans; [exact Hse|apply leave_session]).
  destruct Hse' as [He Hp Ht _]. cbn in *. unfold leave. apply gone_ok; [done..|].
  intros L q Hq Hheld. eapply edit_spares; [exact Hq|exact Hheld|]. by rewrite <- Hpid.
Qed.

Lemma record_failures_returns failures p : ∃ p', record_heartbeat_failures failures p = (Ok tt, p').
Proof.
  unfold record_heartbeat_failures, mbind, st_bind, on_node, st_gets. cbn.
  destruct (nd_lifecycle p.1) as [l|]; [|by eexists]. destruct (negb _); [by eexists|]. destruct (bool_decide _); [by eexists|].
  unfold st_try. destruct (save_lifecycle _ _) as [[[]|e] q]; by eexists.
Qed.
Lemma heartbeat_spec allowed steps p r p' : heartbeat allowed steps p = (r, p') →
  session p p' ∧
  match r with
  | Ok _ => ∃ l, nd_lease p'.1 = Some l ∧ ap_lease p'.2 = Some l ∧
      (ls_mount_state l = MS_mounted → ∃ j, ls_last_heartbeat_at l = clock_at j ∧ (j ≤ nd_ticks p'.1)%nat)
  | Err _ => nd_lease p'.1 = nd_lease p.1 ∧ ap_lease p'.2 = ap_lease p.2
  end.
Proof.
  unfold heartbeat, app. rewrite st_gets_bind. intros H1.
  assert (framed (if allowed then heartbeat_failures steps else mret [])) as Hf by (destruct allowed; framed).
  specialize (Hf p). destruct ((if allowed then heartbeat_failures steps else mret []) p) as [[failures|e] p1] eqn:E1; cbn in Hf.
  2: { rewrite (st_bind_err _ _ _ _ _ E1) in H1. injection H1 as <- <-. split; [by apply frame_session|]. by destruct Hf. }
  rewrite (st_bind_ok _ _ _ _ _ E1) in H1. destruct Hf as [F1 F2 F3 F4 F5 F6].
  match type of H1 with (?m ≫= _) _ = _ => destruct (m p1) as [r2 p2] eqn:E2 end.
  pose proof (on_node_eq _ _ _ _ E2) as [Hm Ha2]. apply refresh_heartbeat_spec in Hm as ([O1 O2 O3 O4] & He & Hr2).
  rewrite <- F1 in *. assert (session p p2) as Hs2.
  { split; [by rewrite <- F1|congruence|lia|congruence]. }
  destruct r2 as [l|e].
  2: { rewrite (st_bind_err _ _ _ _ _ E2) in H1. injection H1 as <- <-. split; [done|]. split; congruence. }
  rewrite (st_bind_ok _ _ _ _ _ E2), set_app_lease_bind in H1. destruct Hr2 as [Hl Hmounted].
  assert (framed (record_heartbeat_failures failures ≫= λ _, mret (Some l))) as Hf by framed.
  specialize (Hf (set_app_lease (Some l) p2).2). rewrite H1 in Hf. destruct Hf as [G1 G2 G3 G4 G5 G6]. cbn in *.
  split.
  - destruct Hs2 as [S1 S2 S3 S4]. split; [by rewrite G1|congruence|lia|congruence].
  - destruct r as [o|e].
    + exists l. split_and!; [congruence|congruence|]. intros Hm. destruct (Hmounted Hm) as [_ Hhb].
      exists (nd_ticks p1.1). split; [done|lia].
    + exfalso. unfold mbind, st_bind in H1. destruct (record_failures_returns failures (set_app_lease (Some l) p2).2) as [p3 E3]. cbn in E3. by rewrite E3 in H1.
Qed.

Lemma heartbeat_step_ok s pid a allowed steps r p' : system_ok s → sy_apps s !! pid = Some a →
  heartbeat allowed steps (proc s a) = (r, p') →
  system_ok (match r with Ok _ => with_process pid p' s | Err _ => leave pid p' s end).
Proof using clock_forward clock_reads.
  intros Hs Ha [Hse Hr]%heartbeat_spec. destruct r as [o|e]; [|by eapply leave_ok].
  destruct (so_alive _ Hs pid a Ha) as (Hpid & H0 & Hin). destruct Hse as [S1 S2 S3 S4]. cbn in *. rewrite Hpid in S1.
  apply goes_on_ok; [done|done|done|congruence|done|done| |].
  - intros L q Hq Hheld. by eapply edit_spares.
  - intros l Hl Hlp Hm. destruct Hr as (l' & HL & Hl' & Hj). assert (l' = l) as -> by congruence.
    destruct (Hj Hm) as (j & Hhb & Hle). split; [by exists j|]. intros _. by exists l.
Qed.
Lemma reconfigure_step_ok s pid a signature g r n' : system_ok s → sy_apps s !! pid = Some a →
  update_config_signature signature (ap_pid a) (ap_daemon_instance_id a) g (sy_node s) = (r, n') →
  system_ok (mkSystem n' (sy_apps s)).
Proof using clock_forward clock_reads.
  intros Hs Ha ([O1 O2 O3 O4] & He & Hr)%update_config_signature_spec.
  destruct (so_alive _ Hs pid a Ha) as (Hpid & H0 & Hin). rewrite Hpid in *.
  apply (system_ok_step s _ pid); cbn; [done|done|by left| | |].
  - intros q b Hq. rewrite O1. by apply so_alive.
  - intros L q Hq Hheld. by eapply edit_spares.
  - intros b l Hown. destruct Hown as (Hb & Hl & Hlp & Hm). destruct (so_backed _ Hs pid b l) as [(j & Hj & Hhb) Hf]; [done|].
    split; [exists j; split; [cbn; lia|done]|]. cbn. intros Hfr%(fresh_earlier _ _ l O2).
    destruct (Hf Hfr) as (L & HL & HLp & HLm & Hmono). destruct r as [l'|e]; [|exists L; split_and!; [congruence|done..]].
    destruct Hr as (Hl' & Hm' & Hp' & Hhb'). exists l'. split_and!; [done..|]. intros k. by eapply fresh_later_reading.
Qed.
Lemma with_framed_ok s pid a p' : system_ok s → sy_apps s !! pid = Some a → frame (proc s a) p' → system_ok (with_process pid p' s).
Proof using clock_forward clock_reads.
  intros Hs Ha [F1 F2 F3 F4 F5 F6]. destruct (so_alive _ Hs pid a Ha) as (Hpid & H0 & Hin). cbn in *.
  apply goes_on_ok; [done|done|done|congruence|done|done| |].
  - intros L q _ (HL & _). congruence.
  - intros l Hl Hlp Hm. destruct (so_backed _ Hs pid a l) as [(j & Hj & Hhb) Hf]; [split_and!; congruence|].
    split; [exists j; split; [cbn; lia|done]|]. cbn. intros Hfr%(fresh_earlier _ _ l F3).
    destruct (Hf Hfr) as (L & HL & ?). exists L. split; [congruence|done].
Qed.
Lemma system_step_ok s s' : system_ok s → system_step s s' → system_ok s'.
Proof using clock_forward clock_reads.
  intros Hs [ |l|path f b Hf Hp|pid H0 Hp|a H0 Hp Hl Hb|pid|boot_id|pid a fault boot epoch r p' Ha Hl Hrun
            |pid a allowed steps r p' Ha Hrun|pid a signature g r n' Ha Hrun|pid a t rs k sa e p' Ha Hrun
            |pid a t rs k sa r p' Ha Hrun|pid a Ha].
  - apply (system_ok_quiet s); cbn; auto with lia.
  - by apply (system_ok_quiet s); cbn; auto.
  - by apply (system_ok_quiet s); cbn; auto.
  - apply (system_ok_quiet s); cbn; auto. intros q a _ Hq. apply elem_of_union. by left.
  - apply (system_ok_step s _ (ap_pid a)); cbn; [done|done| | | |].
    + intros q Hq. left. by rewrite lookup_insert_ne.
    + intros q b Hq. destruct (decide (q = ap_pid a)) as [->|Hne].
      * rewrite lookup_insert_eq in Hq. injection Hq as <-. split_and!; [done..|]. apply elem_of_union. right. by apply elem_of_singleton.
      * rewrite lookup_insert_ne in Hq by done. destruct (so_alive _ Hs q b Hq) as (?&?&?). split_and!; [done..|].
        apply elem_of_union. by left.
    + intros L q _ (HL & _). done.
    + intros b l (Hq & Hl' & _). cbn in Hq. rewrite lookup_insert_eq in Hq. injection Hq as <-. congruence.
  - by apply exit_ok.
  - apply (system_ok_quiet s); cbn; [done|done|intros q; right; apply lookup_empty| |done].
    intros q a Hq. by rewrite lookup_empty in Hq.
  - by eapply start_step_ok.
  - by eapply heartbeat_step_ok.
  - by eapply reconfigure_step_ok.
  - eapply with_framed_ok; [done|done|]. pose proof (framed_prepare_stop t rs k sa (proc s a)) as Hf. by rewrite Hrun in Hf.
  - eapply leave_ok; [done|done|]. pose proof (stop_session t rs k sa (proc s a)) as Hf. by rewrite Hrun in Hf.
  - by eapply leave_ok.
Qed.
Lemma system_steps_ok s s' : rtc system_step s s' → system_ok s → system_ok s'.
Proof using clock_forward clock_reads. induction 1 as [|x y z Hstep _ IH]; [done|]. intros Hx. by apply IH, (system_step_ok x). Qed.
Lemma no_daemons_ok n : system_ok (mkSystem n ∅).
Proof. split; intros pid a; [|intros l (Ha & _)]; cbn in *; [intros Ha|]; by rewrite lookup_empty in Ha. Qed.
Lemma holder_well_held s pid : system_ok s → holds s pid → ∃ L, well_held s L pid.
Proof using clock_forward clock_reads.
  intros Hs (a & l & Ha & Hl & Hp & Hm & Hf). destruct (so_backed _ Hs pid a l) as [_ Hb]; [done|].
  destruct (Hb Hf) as (L & HL & HLp & HLm & Hmono). destruct (so_alive _ Hs pid a Ha) as (_ & ? & ?).
  exists L. split_and!; [done..|]. by apply Hmono.
Qed.

(** ** The holder changes only when it is gone *)
(** What a step does to the lease [L]. *)
Definition handed_on (n : Node) (L L' : CcbdLease) : Prop :=
  ls_project_id L' = ls_project_id L ∧
  ((ls_ccbd_pid L' = ls_ccbd_pid L ∧ ls_generation L' = ls_generation L) ∨
   (ls_generation L' = ls_generation L + 1 ∧ displaceable n L)).
Lemma handed_on_same n L : handed_on n L L.
Proof. split; [done|by left]. Qed.
Lemma edit_handed_on n pid L L' : holder_edit pid (Some L) L' → ∃ M, L' = Some M ∧ handed_on n L M.
Proof.
  intros [->|(l & l' & [= <-] & -> & Hp & Hp' & Hg & Hpr & _)]; [exists L; by split; [|apply handed_on_same]|].
  exists l'. split; [done|]. split; [done|]. left. split; congruence.
Qed.
Lemma taken_handed_on s a g l L : nd_lease (sy_node s) = Some L → taken (sy_node s, a) g l → handed_on (sy_node s) L l.
Proof.
  intros HL [Hmay Hp Hg Hpr _ _]. unfold may_mount in Hmay. cbn in *. rewrite HL in Hmay. destruct Hmay as [Hproj Hcase].
  split; [congruence|]. destruct Hcase as [[Hs E]|(_ & E & Hd)]; [left|by right; split; [congruence|]].
  unfold same_holder in Hs. apply andb_true_iff in Hs as [Hx%Z.eqb_eq _]. split; congruence.
Qed.
Lemma step_lease s s' L : system_step s s' → nd_lease (sy_node s) = Some L →
  ∃ L', nd_lease (sy_node s') = Some L' ∧ handed_on (sy_node s) L L'.
Proof.
  intros Hstep HL.
  assert (∀ (a : CcbdApp) p', session (sy_node s, a) p' → ∃ L', nd_lease p'.1 = Some L' ∧ handed_on (sy_node s) L L') as Hsession.
  { intros a p' [He _ _ _]. cbn in He. rewrite HL in He. exact (edit_handed_on (sy_node s) _ _ _ He). }
  assert (∀ (a : CcbdApp) p', session (sy_node s, a) p' → ∃ L', nd_lease (leave_service p').2.1 = Some L' ∧ handed_on (sy_node s) L L') as Hleave.
  { intros a p' Hse. apply (Hsession a). by etrans; [exact Hse|apply leave_session]. }
  destruct Hstep as [ |l|path f b Hf Hp|pid H0 Hp|a H0 Hp Hl Hb|pid|boot_id|pid a fault boot epoch r p' Ha Hl Hrun
            |pid a allowed steps r p' Ha Hrun|pid a signature g r n' Ha Hrun|pid a t rs k sa e p' Ha Hrun
            |pid a t rs k sa r p' Ha Hrun|pid a Ha]; cbn; try (exists L; split; [done|apply handed_on_same]).
  - apply start_spec in Hrun as [_ Hr]. destruct r as [o|e]; cbn.
    + destruct Hr as (g & l & _ & -> & _ & Htk & _). exists l. split; [done|by eapply taken_handed_on].
    + destruct Hr as [->|(g & l & -> & Htk)]; [exists L; split; [done|apply handed_on_same]|].
      exists l. split; [done|by eapply taken_handed_on].
  - apply heartbeat_spec in Hrun as [Hse _]. destruct r; cbn; [by eapply Hsession|by eapply Hleave].
  - apply update_config_signature_spec in Hrun as (_ & He & _). rewrite HL in He. exact (edit_handed_on (sy_node s) _ _ _ He).
  - pose proof (framed_prepare_stop t rs k sa (proc s a)) as Hf. rewrite Hrun in Hf. by eapply Hsession, frame_session.
  - pose proof (stop_session t rs k sa (proc s a)) as Hf. rewrite Hrun in Hf. by eapply Hleave.
  - by eapply Hleave.
Qed.
Lemma steps_generation s s' L : rtc system_step s s' → nd_lease (sy_node s) = Some L →
  ∃ L', nd_lease (sy_node s') = Some L' ∧ ls_project_id L' = ls_project_id L ∧ ls_generation L ≤ ls_generation L' ∧
    (ls_generation L' = ls_generation L → ls_ccbd_pid L' = ls_ccbd_pid L).
Proof.
  intros Hsteps. revert L. induction Hsteps as [s|s s1 s' Hstep _ IH]; intros L HL; [by exists L|].
  destruct (step_lease _ _ _ Hstep HL) as (L1 & HL1 & Hp1 & Hcase). destruct (IH L1 HL1) as (L' & HL' & Hp' & Hg & Hsame).
  exists L'. split_and!; [done|congruence|destruct Hcase as [[_ ?]|[? _]]; lia|].
  intros Hge. destruct Hcase as [[Hpid Hg1]|[Hg1 _]]; [|lia]. rewrite <- Hpid. apply Hsame. lia.
Qed.
(** A process the lease does not name cannot touch it. *)
Lemma heartbeat_fenced n a allowed steps r p' L : heartbeat allowed steps (n, a) = (r, p') → nd_lease n = Some L →
  ls_mount_state L = MS_mounted → ls_ccbd_pid L ≠ ap_pid a → (∃ e, r = Err e) ∧ nd_lease p'.1 = Some L.
Proof.
  intros Hrun HL Hm Hne. pose proof (heartbeat_spec _ _ _ _ _ Hrun) as [[He _ _ _] Hr]. cbn in *.
  assert (nd_lease p'.1 = Some L) as HL'.
  { destruct He as [->|(l & l' & E & _ & Hp & _)]; [done|congruence]. }
  split; [|done]. destruct r as [o|e]; [|by exists e]. exfalso.
  unfold heartbeat, app in Hrun. rewrite st_gets_bind in Hrun.
  assert (framed (if allowed then heartbeat_failures steps else mret [])) as Hf by (destruct allowed; framed).
  specialize (Hf (n, a)).
  destruct ((if allowed then heartbeat_failures steps else mret []) (n, a)) as [[fs|e] p1] eqn:E1; cbn in Hf, Hrun.
  2: { by rewrite (st_bind_err _ _ _ _ _ E1) in Hrun. }
  rewrite (st_bind_ok _ _ _ _ _ E1) in Hrun. destruct Hf as [F1 _ _ _ _ _]. cbn in F1.
  apply st_bind_Ok_inv in Hrun as (l & p2 & E2 & _). apply on_node_eq in E2 as [E2 _].
  apply refresh_heartbeat_spec in E2 as (_ & He2 & Hl & Hmm). rewrite F1, HL in He2.
  destruct He2 as [E|(l1 & l2 & [= <-] & _ & Hp & _)]; [|done]. assert (l = L) as -> by congruence.
  by destruct (Hmm Hm) as [Hp _].
Qed.


End system.

(** ** A concrete machine *)
(** The clock shows a stroke for every second. *)
Fixpoint strokes (k : nat) : string := match k with O => "t" | S k => String "x" (strokes k) end.
Definition second_clock : Clock := strokes.
Definition second_lib : CompletionLib := {|
  sha256_hexdigest := String.string_of_list_ascii;
  fromisoformat := λ s, Some (true, 1000000 * (Z.of_nat (String.length s) - 1))
|}.
Lemma strokes_plain k : string_forallb (λ c, negb (is_space c)) (strokes k) = true.
Proof. by induction k. Qed.
Lemma strokes_strip k : strip (strokes k) = strokes k.
Proof. apply strip_no_space, strokes_plain. Qed.
Lemma strokes_length k : String.length (strokes k) = S k.
Proof. induction k as [|k IH]; [done|]. cbn. by rewrite IH. Qed.
Lemma strokes_end k : String.substring k 1 (strokes k) = "t".
Proof. by induction k. Qed.
Lemma second_reads k : @parse_utc_timestamp second_lib (@clock_at second_clock k) = Some (true, 1000000 * Z.of_nat k).
Proof.
  unfold parse_utc_timestamp, clock_at, second_clock, strip_z.
  rewrite strokes_strip, strokes_length. cbn [Nat.ltb Nat.leb]. rewrite Nat.sub_succ, Nat.sub_0_r, strokes_end. cbn [andb].
  rewrite (bool_decide_eq_false_2 ("t" = "Z")) by done. cbn [fromisoformat second_lib]. rewrite strokes_length. do 3 f_equal. lia.
Qed.
Lemma seconds_forward j k : (j ≤ k)%nat → 1000000 * Z.of_nat j ≤ 1000000 * Z.of_nat k.
Proof. lia. Qed.

Definition bare_node : Node := mkNode None None None [] ∅ 1 ∅ "boot1" 0.
Definition demo_daemon (pid : Z) (instance : string) : CcbdApp :=
  mkApp "p1" pid instance (Some 7) "/run/ccbd.sock" "sig" 1000 None false None.
Definition demo_start (p : Proc) : result (option CcbdLease) * Proc :=
  start (H := second_clock) (H0 := second_lib) None (Ok []) None p.
Definition started_system : System :=
  mkSystem (set_pids (nd_pids bare_node ∪ {[10]}) bare_node) (<[10 := demo_daemon 10 "i1"]> ∅).
Definition demo_run : result (option CcbdLease) * Proc := demo_start (sy_node started_system, demo_daemon 10 "i1").
Definition held_system : System := with_process 10 demo_run.2 started_system.
Definition held_lease : CcbdLease :=
  mkLease "p1" 10 "/run/ccbd.sock" 1000 "boot1" "t" "t" MS_mounted 1 (Some "sig") (Some 7) (Some "i1") 2.
Lemma demo_run_ok : demo_run.1 = Ok (Some held_lease) ∧ nd_lease demo_run.2.1 = Some held_lease ∧
  ap_lease demo_run.2.2 = Some held_lease ∧ nd_ticks demo_run.2.1 = 6%nat.
Proof. vm_compute. split_and!; reflexivity. Qed.
Lemma demo_held : rtc (system_step (HClock := second_clock) (HLib := second_lib)) (mkSystem bare_node ∅) held_system ∧
  holds (HClock := second_clock) (HLib := second_lib) held_system 10.
Proof.
  destruct demo_run_ok as (E1 & E2 & E3 & E4). split.
  - eapply rtc_l; [apply (step_daemon_process _ (demo_daemon 10 "i1")); [reflexivity|apply not_elem_of_empty|reflexivity|reflexivity]|].
    apply rtc_once. pose proof (step_start (HClock := second_clock) (HLib := second_lib) started_system 10 (demo_daemon 10 "i1")
      None (Ok []) None demo_run.1 demo_run.2) as Hstep.
    rewrite E1 in Hstep. apply Hstep; [reflexivity|reflexivity|]. rewrite <- E1. apply surjective_pairing.
  - exists demo_run.2.2, held_lease. split_and!; [apply lookup_insert_eq|done..|]. unfold fresh_at. cbn. rewrite E4.
    vm_compute. reflexivity.
Qed.
