(* ===== verification/KeeperTheorems.v ===== *)
(** * The keeper brings the daemon back, and only when it is wanted

    A project that was asked to stop is left alone by the keeper; one that is
    to run gets a daemon again when its daemon is gone, hung or was never
    there. *)
From stdpp Require Import pretty.
From Stdlib Require Import QArith Qminmax.
From S2P Require Import Prelude PyValue Names CompletionModels MailboxKernel Lease Lifecycle Ownership Daemon Keeper DaemonSystem DaemonTheorems.
Open Scope string_scope.
Open Scope list_scope.
Open Scope Z_scope.

(** ** Lifecycles that pass their checks *)
Definition text (s : string) : Prop := strip s ≠ "".
Definition positive (v : option Z) : Prop := ∀ n, v = Some n → 0 < n.
Record lifecycle_ok (l : CcbdLifecycle) : Prop := {
  lo_project : text (lc_project_id l);
  lo_generation : 0 ≤ lc_generation l;
  lo_started : text (lc_phase_started_at l);
  lo_keeper : positive (lc_keeper_pid l);
  lo_owner : positive (lc_owner_pid l);
  lo_inode : positive (lc_socket_inode l);
  lo_epoch : ∀ e, lc_namespace_epoch l = Some e → 0 ≤ e
}.
Lemma positive_or_none_ok v f : positive v → positive_or_none v f = Ok tt.
Proof. intros Hv. destruct v as [n|]; [|done]. specialize (Hv n eq_refl). cbn. unfold raise_if. by replace (n <=? 0) with false by lia. Qed.
Lemma positive_or_none_Ok_inv v f u : positive_or_none v f = Ok u → positive v.
Proof. destruct v as [n|]; [|done]. cbn. intros Hr%raise_if_Ok m [= <-]. lia. Qed.
Lemma raise_if_text s e : text s → raise_if (strip s =ˢ "") e = Ok tt.
Proof. intros Hs. unfold raise_if. by rewrite bool_decide_ne. Qed.
Lemma lifecycle_post_init_ok l : lifecycle_ok l → lifecycle_post_init l = Ok l.
Proof.
  intros []. unfold lifecycle_post_init. rewrite raise_if_text by done. rewrite result_bind_ok.
  replace (lc_generation l <? 0) with false by lia. cbn [raise_if]. rewrite result_bind_ok.
  rewrite raise_if_text by done. rewrite result_bind_ok, !positive_or_none_ok by done. rewrite !result_bind_ok.
  destruct (lc_namespace_epoch l) as [e|]; [|done]. specialize (lo_epoch0 e eq_refl).
  by replace (e <? 0) with false by lia.
Qed.
Lemma lifecycle_post_init_inv l l' : lifecycle_post_init l = Ok l' → l' = l ∧ lifecycle_ok l.
Proof.
  unfold lifecycle_post_init. intros H. inv_result. split; [done|]. subst l'.
  repeat match goal with H : (_ =ˢ _) = false |- _ => apply bool_decide_eq_false in H end.
  repeat match goal with H : positive_or_none _ _ = Ok _ |- _ => apply positive_or_none_Ok_inv in H end.
  split; [done|lia|done..|]. intros e He. rewrite He in *.
  match goal with H : raise_if (e <? 0) _ = _ |- _ => apply raise_if_Ok in H end. lia.
Qed.

(** ** A stop is a promise *)
Definition stopped (n : Node) : Prop := ∃ l, nd_lifecycle n = Some l ∧ lc_desired_state l = DSt_stopped.

Section stop.
Context `{HClock : Clock} `{HLib : CompletionLib}.

Definition stays_stopped {A} (m : D A) : Prop := preserves (λ p : Proc, stopped p.1) m.
Lemma stays_bind {A B} (m : D A) (f : A → D B) : stays_stopped m → (∀ a, stays_stopped (f a)) → stays_stopped (m ≫= f).
Proof. apply preserves_bind. Qed.
(** What does not touch the lifecycle. *)
Lemma stays_node {A} (m : Nd A) : (∀ n, nd_lifecycle (m n).2 = nd_lifecycle n) → stays_stopped (on_node m).
Proof.
  intros Hm p (l & Hl & Hd). unfold st_exec, on_node. specialize (Hm p.1). destruct (m p.1) as [r n]. exists l. cbn in *.
  by rewrite Hm.
Qed.
Lemma stays_same {A} (m : D A) : (∀ p, (m p).2.1 = p.1) → stays_stopped m.
Proof. intros Hm p Hp. unfold st_exec. by rewrite Hm. Qed.
Lemma stays_inspect b : stays_stopped (on_node (inspect None b)).
Proof.
  apply stays_node. intros n. unfold inspect, mbind, st_bind, st_lift. cbn. destruct (nd_lease n) as [L|]; cbn; [|done].
  by destruct (heartbeat_is_fresh _ L).
Qed.
Lemma current_lifecycle_same p l : nd_lifecycle p.1 = Some l → current_lifecycle p = (Ok l, p).
Proof. intros Hl. destruct p as [n a]. unfold current_lifecycle, mbind, st_bind. cbn in *. by rewrite Hl. Qed.
Lemma save_lifecycle_stays l : lc_desired_state l = DSt_stopped → stays_stopped (save_lifecycle (lifecycle_post_init l)).
Proof.
  intros Hd p Hp. unfold save_lifecycle, st_exec, mbind, st_bind, st_lift.
  destruct (lifecycle_post_init l) as [l'|e] eqn:E; [|done]. apply lifecycle_post_init_inv in E as [-> _]. by exists l.
Qed.
Lemma unmounted_stays : stays_stopped (mark_lifecycle_unmounted (Some DSt_stopped)).
Proof.
  intros p (l & Hl & Hd). unfold mark_lifecycle_unmounted. apply stays_bind; [by apply stays_same| |by exists l]. intros a.
  intros p' (l' & Hl' & Hd'). unfold st_exec. rewrite (st_bind_ok _ _ _ _ _ (current_lifecycle_same p' l' Hl')).
  revert Hl' Hd'. generalize p'. clear. intros p Hl Hd.
  refine (stays_bind _ _ _ _ p _); [by apply stays_node| |by exists l']. intros t1.
  apply stays_bind; [by apply stays_node|]. intros t2. by apply save_lifecycle_stays.
Qed.
Lemma stays_lease m r : stays_stopped (on_node (mark_unmounted m r)).
Proof.
  apply stays_node. intros n. unfold mark_unmounted, load_state, mbind, st_bind. cbn. destruct (nd_lease n) as [l|]; [|done].
  unfold st_lift. destruct (assert_expected_holder _ _ _); cbn; [|done]. by destruct (with_mount_state _ _ _).
Qed.
Lemma release_stays : stays_stopped (release_backend_ownership (Some DSt_stopped)).
Proof.
  unfold release_backend_ownership. apply stays_bind.
  { unfold mark_current_daemon_unmounted. apply stays_bind; [by apply stays_same|]. intros a p Hp. unfold st_exec, st_try.
    pose proof (stays_lease (Some (ap_pid a)) (Some (ap_daemon_instance_id a)) p Hp) as Hs. unfold st_exec in Hs.
    destruct (on_node _ p) as [[o|e] p']; [done|]. by destruct e. }
  intros o. apply stays_bind; [by apply stays_same|]. intros a.
  apply stays_bind; [apply stays_node; intros n; unfold shutdown_server, st_modify; cbn; destruct (ap_bound a); [|done];
    destruct (nd_sockets n !! _) as [f|]; [|done]; by destruct (sf_inode f =? z)|]. intros _.
  apply stays_bind; [by apply stays_same|]. intros _. apply stays_bind; [apply unmounted_stays|]. intros _. by apply stays_same.
Qed.
Lemma shutdown_report_stays t s acts r : stays_stopped (record_shutdown_report t s acts r).
Proof.
  unfold record_shutdown_report. apply stays_bind; [apply stays_inspect|]. intros i.
  apply stays_bind; [by apply stays_node|]. intros _. by apply stays_node.
Qed.
Lemma stopping_stops reason p l : nd_lifecycle p.1 = Some l → lifecycle_ok l → (∀ k, text (clock_at k)) →
  ∃ p', mark_lifecycle_stopping reason p = (Ok tt, p') ∧ stopped p'.1.
Proof.
  intros Hl [] Hclock. unfold mark_lifecycle_stopping. rewrite (st_bind_ok _ _ _ _ _ (current_lifecycle_same p l Hl)).
  unfold save_lifecycle, mbind, st_bind, on_node, st_lift. cbn. rewrite lifecycle_post_init_ok by (split; cbn; auto).
  eexists. split; [reflexivity|]. by eexists.
Qed.
Lemma project_stop_stops t reason k stop_all p l : nd_lifecycle p.1 = Some l → lifecycle_ok l → (∀ k, text (clock_at k)) →
  stopped (execute_project_stop t reason k stop_all p).2.1.
Proof.
  intros Hl Hok Hclock. unfold execute_project_stop, prepare_project_stop.
  set (p0 := (p.1, (request_project_stop p).2.2)).
  destruct (stopping_stops reason p0 l) as (p1 & E1 & Hs1); [done..|].
  assert (stays_stopped (st_try (st_lift stop_all) (λ e, _ ← record_shutdown_report t "failed"
    ["terminate_nonterminal_jobs:" +:+ pretty k; "stop_all_failed"] (Some (exn_text e)); st_raise e))) as Htry.
  { intros q Hq. destruct stop_all as [[]|e]; [done|]. unfold st_exec, st_try. cbn.
    apply (stays_bind (record_shutdown_report _ _ _ _)); [apply shutdown_report_stays|intros _; by apply stays_same|done]. }
  assert (stays_stopped (finalize_project_stop t k)) as Hfin.
  { unfold finalize_project_stop. apply stays_bind; [by apply stays_same|]. intros _.
    apply stays_bind; [apply release_stays|]. intros o. apply stays_bind; [by apply stays_same|]. intros _.
    apply shutdown_report_stays. }
  specialize (Htry p1 Hs1). unfold st_exec in Htry.
  unfold mbind at 1 2, st_bind at 1 2. change (request_project_stop p) with (Ok tt, p0). cbn beta iota zeta.
  rewrite (st_bind_ok _ _ _ _ _ E1). destruct (st_try _ _ p1) as [[[]|e] p2]; [|done]. by apply Hfin.
Qed.
End stop.

(** ** The keeper of a stopped project *)
Record left_alone (n n' : Node) : Prop := {
  la_lease : nd_lease n' = nd_lease n;
  la_sockets : nd_sockets n' = nd_sockets n;
  la_pids : nd_pids n' = nd_pids n;
  la_reports : nd_reports n' = nd_reports n;
  la_stopped : stopped n → stopped n'
}.
#[export] Instance left_alone_preorder : PreOrder left_alone.
Proof. split; [by split|]. intros n1 n2 n3 [] []. split; try congruence. auto. Qed.

Section keeper.
Context `{HClock : Clock} `{HLib : CompletionLib}.
Context (iso_plus : string → Q → result string) (start_timeout_s : Q).
Abbreviation run_all := (run_iterations iso_plus start_timeout_s).

Definition leaves_alone {A} (m : Nd A) : Prop := ∀ n, stopped n → left_alone n (m n).2.
Lemma leaves_bind {A B} (m : Nd A) (f : A → Nd B) : leaves_alone m → (∀ a, leaves_alone (f a)) → leaves_alone (m ≫= f).
Proof.
  intros Hm Hf n Hn. unfold mbind, st_bind. specialize (Hm n Hn). destruct (m n) as [[a|e] n1]; [|done]. cbn in Hm.
  etrans; [exact Hm|]. by apply Hf, Hm.
Qed.
Lemma leaves_pure {A} (m : Nd A) : (∀ n, (m n).2 = n) → leaves_alone m.
Proof. intros Hm n Hn. by rewrite Hm. Qed.
Lemma leaves_now : leaves_alone utc_now.
Proof. intros n Hn. by split. Qed.
Lemma leaves_inspect b : leaves_alone (inspect None b).
Proof.
  intros n Hn. unfold inspect, mbind, st_bind, st_lift. cbn. destruct (nd_lease n) as [L|]; cbn; [|done].
  by destruct (heartbeat_is_fresh _ L).
Qed.
(** The lifecycle is given the keeper's pid, and still says that the project is
    stopped. *)
Lemma ensure_stopped env i now n l n' : stopped n → ensure_project_lifecycle env i now n = (Ok l, n') →
  lc_desired_state l = DSt_stopped.
Proof.
  intros (l0 & Hl0 & Hd). unfold ensure_project_lifecycle, mbind, st_bind. cbn. rewrite Hl0.
  case_bool_decide; [by intros [= <- <-]|]. unfold st_lift.
  destruct (lifecycle_post_init _) as [l1|e] eqn:E; [|done]. apply lifecycle_post_init_inv in E as [-> _]. by intros [= <- <-].
Qed.
Lemma leaves_ensure env i now : leaves_alone (ensure_project_lifecycle env i now).
Proof.
  intros n (l0 & Hl0 & Hd). unfold ensure_project_lifecycle, mbind, st_bind. cbn. rewrite Hl0.
  case_bool_decide; [by split|]. unfold st_lift.
  destruct (lifecycle_post_init _) as [l1|e] eqn:E; [|by split]. apply lifecycle_post_init_inv in E as [-> _].
  split; [done..|]. intros _. by eexists.
Qed.
Lemma leaves_reconcile env s : leaves_alone (reconcile_once iso_plus start_timeout_s env s).
Proof.
  unfold reconcile_once. apply leaves_bind; [apply leaves_now|]. intros now.
  destruct (restart_backoff_active s now); [by apply leaves_pure|].
  apply leaves_bind; [apply leaves_inspect|]. intros i n Hn.
  pose proof (leaves_ensure env i now n Hn) as Hle. unfold mbind, st_bind.
  destruct (ensure_project_lifecycle env i now n) as [[l|e] n1] eqn:E; [|done].
  rewrite (ensure_stopped _ _ _ _ _ _ Hn E). exact Hle.
Qed.
Lemma leaves_iteration env s c : leaves_alone (run_iteration iso_plus start_timeout_s env s c).
Proof.
  unfold run_iteration. apply leaves_bind; [apply leaves_now|]. intros now.
  destruct (negb _); [by apply leaves_pure|]. apply leaves_bind; [by apply leaves_pure|]. intros requested.
  destruct requested.
  - apply leaves_bind; [by apply leaves_pure|]. intros s'. by apply leaves_pure.
  - apply leaves_bind; [by apply leaves_pure|]. intros s'.
    apply leaves_bind; [apply leaves_reconcile|]. intros s''. by apply leaves_pure.
Qed.
Lemma leaves_iterations envs s c : leaves_alone (run_all envs s c).
Proof.
  revert s c. induction envs as [|env envs IH]; intros s c; cbn; [by apply leaves_pure|].
  apply leaves_bind; [apply leaves_iteration|]. intros [[s' []] c']; [by apply leaves_pure|apply IH].
Qed.

(** C6: A project that was stopped stays stopped. However [execute_project_stop]
    ends, even when stopping the runtimes or writing the reports fails halfway,
    the lifecycle says that the project is to be stopped; and whatever the
    keeper then meets, in any number of iterations and whatever its calls would
    do, it starts no daemon, ends no process and leaves the lease, the sockets
    and the wish to be stopped as they are. *)
Theorem stopped_projects_stay_stopped t reason k stop_all p l r p' :
  nd_lifecycle p.1 = Some l → lifecycle_ok l → (∀ k, text (clock_at k)) →
  execute_project_stop t reason k stop_all p = (r, p') →
  stopped p'.1 ∧
  ∀ envs s c r' n', run_all envs s c p'.1 = (r', n') →
    stopped n' ∧ nd_lease n' = nd_lease p'.1 ∧ nd_sockets n' = nd_sockets p'.1 ∧ nd_pids n' = nd_pids p'.1 ∧
    nd_reports n' = nd_reports p'.1.
Proof.
  intros Hl Hok Hclock E. pose proof (project_stop_stops t reason k stop_all p l Hl Hok Hclock) as Hs. rewrite E in Hs. cbn in Hs.
  split; [done|]. intros envs s c r' n' Hrun. pose proof (leaves_iterations envs s c p'.1 Hs) as []. rewrite Hrun in *. by split_and!; auto.
Qed.
End keeper.

(** ** A start that nothing stands against *)
Section start.
Context `{HClock : Clock} `{HLib : CompletionLib}.
Context (clock_text : ∀ k, text (clock_at k)).
Context (time : nat → Z).
Hypothesis clock_reads : ∀ k, parse_utc_timestamp (clock_at k) = Some (true, time k).

(** The heartbeats of a lease can be compared with the clock. *)
Definition comparable (n : Node) : Prop :=
  ∀ L aware h, nd_lease n = Some L → parse_utc_timestamp (ls_last_heartbeat_at L) = Some (aware, h) → aware = true.
Lemma fresh_total n L k : comparable n → nd_lease n = Some L → ∃ b, heartbeat_is_fresh (clock_at k) L = Ok b.
Proof using clock_reads.
  intros Hc HL. unfold heartbeat_is_fresh. rewrite clock_reads. destruct (parse_utc_timestamp _) as [[aware h]|] eqn:E; [|by eexists].
  rewrite (Hc L aware h HL E). cbn. by eexists.
Qed.
Lemma inspect_total b n : comparable n → ∃ i n', inspect None b n = (Ok i, n') ∧ (n' = n ∨ n' = tick n) ∧ li_lease i = nd_lease n.
Proof using clock_reads.
  intros Hc. unfold inspect, mbind, st_bind. cbn. destruct (nd_lease n) as [L|] eqn:E; cbn.
  - destruct (fresh_total n L (nd_ticks n) Hc E) as [f ->]. cbn. eexists _, _. split; [reflexivity|]. split; [by right|].
    unfold inspection_of. case_bool_decide; [done|]. by destruct (_ && _).
  - eexists _, _. split; [reflexivity|]. by split; [left|].
Qed.

Record app_ok (a : CcbdApp) : Prop := {
  ao_project : text (ap_project_id a);
  ao_pid : 0 < ap_pid a;
  ao_instance : text (ap_daemon_instance_id a);
  ao_path : text (ap_socket_path a);
  ao_keeper : positive (ap_keeper_pid a);
  ao_unbound : ap_bound a = None
}.
(** Time went on and the lifecycle, still sound, may say something else. *)
Record aside (n n' : Node) : Prop := {
  as_lease : nd_lease n' = nd_lease n;
  as_sockets : nd_sockets n' = nd_sockets n;
  as_next : nd_next_inode n' = nd_next_inode n;
  as_pids : nd_pids n' = nd_pids n;
  as_lifecycle : ∃ l, nd_lifecycle n' = Some l ∧ lifecycle_ok l
}.

Lemma clean_signature_ok s f : require_optional_non_empty_text (clean_signature s) f = Ok tt.
Proof.
  unfold clean_signature. destruct s as [s|]; [|done]. cbn. unfold or_none. case_bool_decide as E; [done|].
  cbn. unfold require_non_empty_text. rewrite raise_if_text; [done|]. unfold text. by rewrite strip_idem.
Qed.
Lemma keeper_pid_ok k f : positive k → require_optional_positive_int (or_zero k) f = Ok tt.
Proof.
  intros Hk. destruct k as [n|]; [|done]. specialize (Hk n eq_refl). cbn. destruct (Z.eqb_spec n 0); [done|].
  cbn. unfold require_positive_int, raise_if. by replace (n <=? 0) with false by lia.
Qed.
#[local] Arguments lease_post_init : simpl never.
#[local] Arguments lifecycle_post_init : simpl never.
Lemma mark_mounted_total a g n : app_ok a → text (nd_boot_id n) → 0 < g →
  ∃ L, mark_mounted (ap_owner_uid a) (ap_project_id a) (ap_pid a) (ap_socket_path a) g (Some (ap_config_signature a))
         (ap_keeper_pid a) (Some (ap_daemon_instance_id a)) n = (Ok L, set_lease L (tick n)).
Proof.
  intros [] Hb Hg. unfold mark_mounted, mbind, st_bind. cbn. unfold st_lift.
  match goal with |- context [ lease_post_init ?l ] => assert (lease_post_init l = Ok l) as -> end; [|by eexists].
  unfold lease_post_init. cbn - [clean_signature]. change (or_none (strip ?s)) with (clean_signature (Some s)).
  unfold require_non_empty_text, require_positive_int. rewrite !raise_if_text, !result_bind_ok by done. unfold raise_if.
  replace (ap_pid a <=? 0) with false by lia. replace (g <=? 0) with false by lia.
  rewrite !result_bind_ok, !clean_signature_ok, keeper_pid_ok by done. reflexivity.
Qed.
Lemma progress_total stage n a l : nd_lifecycle n = Some l → lifecycle_ok l →
  ∃ n', update_startup_progress stage (n, a) = (Ok tt, (n', a)) ∧ aside n n'.
Proof using clock_text.
  intros Hl Hok. unfold update_startup_progress, mbind, st_bind. cbn. rewrite Hl.
  case_bool_decide; cbn; [|eexists; split; [reflexivity|]; split; [done..|by exists l]].
  destruct Hok. unfold st_try, save_lifecycle, mbind, st_bind, on_node, st_lift. cbn.
  rewrite lifecycle_post_init_ok by (split; cbn; auto).
  eexists. split; [reflexivity|]. split; [done..|]. eexists. split; [reflexivity|]. by split.
Qed.
Lemma mounted_total epoch n a l : nd_lifecycle n = Some l → lifecycle_ok l → app_ok (mkApp (ap_project_id a) (ap_pid a)
    (ap_daemon_instance_id a) (ap_keeper_pid a) (ap_socket_path a) (ap_config_signature a) (ap_owner_uid a) (ap_lease a)
    (ap_project_stop_requested a) None) →
  (∀ L, ap_lease a = Some L → 0 < ls_generation L) → (∀ e, epoch = Some e → 0 ≤ e) →
  (∀ path f, nd_sockets n !! path = Some f → 0 < sf_inode f) →
  ∃ n', mark_lifecycle_mounted epoch (n, a) = (Ok tt, (n', a)) ∧ aside n n'.
Proof using clock_text.
  intros Hl [] [] Hg He Hi. cbn in *. unfold mark_lifecycle_mounted, app. rewrite st_gets_bind.
  rewrite (st_bind_ok _ _ _ _ _ (current_lifecycle_same (n, a) l Hl)). unfold save_lifecycle, mbind, st_bind, on_node, st_lift. cbn.
  rewrite lifecycle_post_init_ok; [eexists; split; [reflexivity|]; split; [done..|]; eexists; split; [reflexivity|]|].
  all: split; cbn; auto.
  all: try match goal with |- positive (Some _) => by intros ? [= <-] end.
  all: try (unfold current_socket_inode; cbn; intros i; destruct (nd_sockets n !! ap_socket_path a) as [f|] eqn:Ef; cbn;
    [intros [= <-]; by eapply Hi|done]).
  all: destruct (ap_lease a) as [L|]; cbn; [|done]; specialize (Hg L eq_refl); destruct (Z.eqb_spec (ls_generation L) 0); lia.
Qed.

Definition sockets_numbered (n : Node) : Prop := 0 < nd_next_inode n ∧ ∀ path f, nd_sockets n !! path = Some f → 0 < sf_inode f.
Lemma startup_report_total s acts n a l : nd_lifecycle n = Some l → lifecycle_ok l → comparable n →
  ∃ n', record_startup_report s acts None (n, a) = (Ok tt, (n', a)) ∧ aside n n'.
Proof using clock_reads.
  intros Hl Hok Hc. unfold record_startup_report, app. rewrite st_gets_bind. unfold mbind, st_bind, on_node. cbn [fst snd].
  destruct (inspect_total false n Hc) as (i & n1 & -> & Hn1 & _). cbn. eexists. split; [reflexivity|].
  destruct Hn1 as [->| ->]; by split; [..|exists l].
Qed.
Lemma aside_trans n1 n2 n3 : aside n1 n2 → aside n2 n3 → aside n1 n3.
Proof. intros [] []. split; congruence || done. Qed.
Lemma verify_ticks project_id pid path n r n' : verify_or_takeover project_id pid path n = (r, n') → n' = n ∨ n' = tick n.
Proof.
  unfold verify_or_takeover, load_state, mbind, st_bind. cbn. destruct (nd_lease n) as [L|]; [|intros [= _ <-]; by left].
  unfold st_lift. destruct (raise_if _ _); [|intros [= _ <-]; by left].
  destruct (same_holder _ _ _); [intros [= _ <-]; by left|]. unfold inspect, mbind, st_bind, st_lift. cbn.
  destruct (heartbeat_is_fresh _ L); cbn; [|intros [= _ <-]; by right].
  destruct (li_takeover_allowed _); intros [= _ <-]; by right.
Qed.
Lemma st_try_ok {S A} (m : ST S A) h s a s' : m s = (Ok a, s') → st_try m h s = (Ok a, s').
Proof. unfold st_try. by intros ->. Qed.
(** The socket that is bound. *)
Definition bound_socket (a : CcbdApp) (n : Node) : gmap string SocketFile :=
  <[ap_socket_path a := mkSocket (nd_next_inode n) (ap_pid a) true]> (nd_sockets n).
Definition app_mounted (a : CcbdApp) (L : CcbdLease) (inode : Z) : CcbdApp :=
  mkApp (ap_project_id a) (ap_pid a) (ap_daemon_instance_id a) (ap_keeper_pid a) (ap_socket_path a) (ap_config_signature a)
    (ap_owner_uid a) (Some L) (ap_project_stop_requested a) (Some inode).
Lemma mount_total n a l g n1 : app_ok a → text (nd_boot_id n) → 0 < g → nd_lifecycle n = Some l → lifecycle_ok l →
  verify_or_takeover (ap_project_id a) (ap_pid a) (ap_socket_path a) n = (Ok g, n1) →
  ∃ L n', mount_daemon None (n, a) = (Ok tt, (n', app_mounted a L (nd_next_inode n))) ∧
    nd_lease n' = Some L ∧ ls_generation L = g ∧ nd_sockets n' = bound_socket a n ∧ nd_pids n' = nd_pids n ∧
    ∃ l', nd_lifecycle n' = Some l' ∧ lifecycle_ok l'.
Proof using clock_text.
  intros Happ Hb Hg Hl Hok E. pose proof (verify_ticks _ _ _ _ _ _ E) as Hn1.
  assert (text (nd_boot_id n1) ∧ nd_sockets n1 = nd_sockets n ∧ nd_next_inode n1 = nd_next_inode n ∧ nd_pids n1 = nd_pids n ∧
    nd_lifecycle n1 = Some l) as (Hb1 & Hs1 & Hi1 & Hp1 & Hl1) by (destruct Hn1 as [->| ->]; by split_and!).
  destruct (mark_mounted_total a g n1 Happ Hb1 Hg) as [L EL].
  assert (ls_generation L = g) as HLg by (apply mark_mounted_spec in EL as (_ & _ & _ & _ & ? & _); done).
  unfold mount_daemon, app. rewrite st_gets_bind. cbn [snd].
  assert (on_node (verify_or_takeover (ap_project_id a) (ap_pid a) (ap_socket_path a)) (n, a) = (Ok g, (n1, a))) as E1.
  { unfold on_node. cbn [fst snd]. by rewrite E. }
  rewrite (st_bind_ok _ _ _ _ _ E1).
  match goal with |- ∃ _ _, (on_node ?m ≫= _) _ = _ ∧ _ =>
    assert (on_node m (n1, a) = (Ok L, (set_lease L (tick n1), a))) as E2 by (unfold on_node; cbn [fst snd]; by rewrite EL) end.
  rewrite (st_bind_ok _ _ _ _ _ E2). rewrite set_app_lease_bind.
  set (n2 := set_sockets (<[ap_socket_path a := mkSocket (nd_next_inode n1) (ap_pid a) true]> (nd_sockets n1)) (nd_next_inode n1 + 1)
    (set_lease L (tick n1))).
  destruct (progress_total "socket_listening" n2 (app_mounted a L (nd_next_inode n1)) l) as (n' & Ep & Has); [done..|].
  exists L, n'. split.
  - rewrite <- Hi1. apply st_try_ok.
    assert (listen None (set_app_lease (Some L) (set_lease L (tick n1), a)).2 = (Ok tt, (n2, app_mounted a L (nd_next_inode n1)))) as E3.
    { unfold listen, app, mbind, st_bind, on_node, listen_server. cbn. by rewrite (ao_unbound a Happ). }
    by rewrite (st_bind_ok _ _ _ _ _ E3).
  - destruct Has as [A1 A2 A3 A4 A5]. split_and!; [done..| |by rewrite A4|done]. rewrite A2. unfold n2, bound_socket. cbn. by rewrite Hs1, Hi1.
Qed.
Lemma boot_total names epoch n a l : nd_lifecycle n = Some l → lifecycle_ok l →
  app_ok (mkApp (ap_project_id a) (ap_pid a) (ap_daemon_instance_id a) (ap_keeper_pid a) (ap_socket_path a)
    (ap_config_signature a) (ap_owner_uid a) (ap_lease a) (ap_project_stop_requested a) None) →
  (∀ L, ap_lease a = Some L → 0 < ls_generation L) → (∀ e, epoch = Some e → 0 ≤ e) →
  (∀ path f, nd_sockets n !! path = Some f → 0 < sf_inode f) → comparable n →
  ∃ n', boot_daemon (Ok names) epoch (n, a) = (Ok tt, (n', a)) ∧ aside n n'.
Proof using clock_text clock_reads.
  intros Hl Hok Happ Hg He Hi Hc. unfold boot_daemon.
  destruct (progress_total "restoring_state" n a l) as (n1 & E1 & A1); [done..|].
  destruct (as_lifecycle _ _ A1) as (l1 & Hl1 & Hok1).
  destruct (progress_total "publishing_mounted" n1 a l1) as (n2 & E2 & A2); [done..|].
  destruct (as_lifecycle _ _ A2) as (l2 & Hl2 & Hok2).
  destruct (mounted_total epoch n2 a l2) as (n3 & E3 & A3); [done..| |].
  { intros path f. rewrite (as_sockets _ _ A2), (as_sockets _ _ A1). apply Hi. }
  destruct (as_lifecycle _ _ A3) as (l3 & Hl3 & Hok3).
  destruct (startup_report_total "ok" (["mount_backend"; "listen_socket"; "restore_running_jobs"] ++
        (match names with [] => [] | _ => ["adopt_runtime_authority:" +:+ join "," names] end)) n3 a l3) as (n4 & E4 & A4); [done..| |].
  { unfold comparable. by rewrite (as_lease _ _ A3), (as_lease _ _ A2), (as_lease _ _ A1). }
  exists n4. split; [|exact (aside_trans _ _ _ A1 (aside_trans _ _ _ A2 (aside_trans _ _ _ A3 A4)))]. apply st_try_ok.
  rewrite (st_bind_ok _ _ _ _ _ E1). rewrite (st_lift_bind _ _ _ names) by done.
  rewrite (st_bind_ok _ _ _ _ _ E2), (st_bind_ok _ _ _ _ _ E3). exact E4.
Qed.
Lemma start_total n a l g n1 names epoch : app_ok a → text (nd_boot_id n) → 0 < g → nd_lifecycle n = Some l → lifecycle_ok l →
  sockets_numbered n → (∀ e, epoch = Some e → 0 ≤ e) →
  verify_or_takeover (ap_project_id a) (ap_pid a) (ap_socket_path a) n = (Ok g, n1) →
  ∃ L p', start None (Ok names) epoch (n, a) = (Ok (Some L), p') ∧ nd_lease p'.1 = Some L ∧ ls_generation L = g ∧
    nd_sockets p'.1 = bound_socket a n ∧ nd_pids p'.1 = nd_pids n.
Proof using clock_text clock_reads.
  intros Happ Hb Hg Hl Hok [Hi Hf] He E.
  destruct (mount_total n a l g n1) as (L & n2 & E2 & HL & HLg & Hs & Hp & l2 & Hl2 & Hok2); [done..|].
  destruct (boot_total names epoch n2 (app_mounted a L (nd_next_inode n)) l2) as (n3 & E3 & A3); [done|done| | |done| | |].
  { destruct Happ. by split. }
  { by intros L' [= <-]; rewrite HLg. }
  { intros path f. rewrite Hs. unfold bound_socket. destruct (decide (path = ap_socket_path a)) as [->|Hne].
    - rewrite lookup_insert_eq. by intros [= <-].
    - rewrite lookup_insert_ne by done. apply Hf. }
  { intros L' aware h. rewrite HL. intros [= <-]. pose proof (mount_daemon_spec _ _ _ _ E2) as (_ & _ & L' & j & HL' & _ & _ & _ & Hhb & _).
    cbn in HL'. assert (L' = L) as -> by congruence. rewrite Hhb, clock_reads. by intros [= <- _]. }
  exists L, (n3, app_mounted a L (nd_next_inode n)). unfold start.
  rewrite (st_bind_ok _ _ _ _ _ E2), (st_bind_ok _ _ _ _ _ E3). destruct A3 as [A1 A2 A4 A5 A6]. cbn [fst].
  rewrite A1, A2, A5. by split_and!.
Qed.
End start.

(** ** Recovery *)
(** The process of a new daemon: it comes to be, and starts. *)
Definition launched `{Clock} `{CompletionLib} (a : CcbdApp) (names : list string) (epoch : option Z) : Nd unit := λ n,
  let '(r, p) := start None (Ok names) epoch (set_pids (nd_pids n ∪ {[ap_pid a]}) n, a) in
  ((_ ← r; Ok tt), p.1).

Section recovery.
Context `{HClock : Clock} `{HLib : CompletionLib}.
Context (clock_text : ∀ k, text (clock_at k)).
Context (time : nat → Z).
Hypothesis clock_reads : ∀ k, parse_utc_timestamp (clock_at k) = Some (true, time k).
Hypothesis clock_forward : ∀ j k, (j ≤ k)%nat → time j ≤ time k.
Context (iso_plus : string → Q → result string) (start_timeout_s : Q).
Hypothesis iso_plus_ok : ∀ k s, is_ok (iso_plus (clock_at k) s) = true.
Abbreviation reconcile := (reconcile_once iso_plus start_timeout_s).

(** *** The keeper waits, but not for long *)
Lemma backoff_bounded c : (1 # 2 <= restart_backoff_seconds c <= inject_Z 8)%Q.
Proof.
  unfold restart_backoff_seconds. split; [|apply Q.le_min_l].
  apply Q.min_glb; [done|]. set (k := Z.min (Z.max 1 c) 5 - 1).
  assert (1 <= 2 ^ k) by (assert (0 < 2 ^ k); [apply Z.pow_pos_nonneg; lia|lia]). unfold Qle. cbn. lia.
Qed.
(** Nothing holds a restart back: none failed, or the last was eight seconds ago. *)
Definition rested (s : KeeperState) (k : nat) : Prop :=
  ks_restart_count s ≤ 0 ∨ ks_last_failure_reason s = None ∨ ks_last_restart_at s = None ∨
  ∃ at_ t, ks_last_restart_at s = Some at_ ∧ parse_utc_timestamp at_ = Some (true, t) ∧ t + 8000000 ≤ time k.
Lemma rested_not_backing_off s k : rested s k → restart_backoff_active s (clock_at k) = false.
Proof using clock_reads.
  unfold restart_backoff_active. destruct (ks_restart_count s <=? 0) eqn:Hc; [done|].
  intros [?|[->|[->|(at_ & t & -> & Hp & Ht)]]]; [lia|done|by destruct (ks_last_failure_reason s)|].
  destruct (ks_last_failure_reason s); [|done]. rewrite clock_reads, Hp. rewrite bool_decide_eq_true_2 by done. cbn.
  apply negb_false_iff, Qle_bool_iff. eapply Qle_trans; [apply backoff_bounded|]. unfold Qle. cbn. lia.
Qed.

(** *** What the keeper finds *)
Record keeper_ok (s : KeeperState) : Prop := {
  ko_pid : 0 < ks_keeper_pid s;
  ko_project : text (ks_project_id s);
  ko_started : text (ks_started_at s);
  ko_checked : text (ks_last_check_at s);
  ko_state : text (ks_state s);
  ko_count : 0 ≤ ks_restart_count s
}.
Lemma keeper_post_init_ok s : keeper_ok s → keeper_post_init s = Ok s.
Proof.
  intros []. unfold keeper_post_init, raise_if. replace (ks_keeper_pid s <=? 0) with false by lia.
  replace (ks_restart_count s <? 0) with false by lia. by rewrite !bool_decide_ne.
Qed.
(** The daemon of a lease is gone: unmounted, without a process, or hung. *)
Definition vacant (n : Node) (project_id : string) (pid : Z) (g : Z) : Prop :=
  match nd_lease n with
  | None => g = 1
  | Some L => ls_project_id L = project_id ∧ ls_ccbd_pid L ≠ pid ∧ 0 < ls_generation L ∧ g = ls_generation L + 1 ∧
      (ls_mount_state L = MS_unmounted ∨ process_exists n (ls_ccbd_pid L) = false)
  end.
Definition lost (n : Node) (project_id : string) (pid : Z) (g : Z) : Prop :=
  match nd_lease n with
  | None => g = 1
  | Some L => ls_project_id L = project_id ∧ ls_ccbd_pid L ≠ pid ∧ 0 < ls_generation L ∧ g = ls_generation L + 1 ∧
      mounted_socket_connectable n L = false ∧ displaceable n L
  end.
Record sound (n : Node) : Prop := {
  sd_lifecycle : ∃ l, nd_lifecycle n = Some l ∧ lifecycle_ok l ∧ lc_desired_state l = DSt_running;
  sd_sockets : sockets_numbered n;
  sd_boot : text (nd_boot_id n);
  sd_comparable : comparable n
}.
Lemma sound_tick n : sound n → sound (tick n).
Proof. intros []. by split. Qed.
Lemma sound_set_lifecycle n l : sound n → lifecycle_ok l → lc_desired_state l = DSt_running → sound (set_lifecycle l n).
Proof. intros [] ? ?. split; [by exists l|done..]. Qed.
Lemma sound_set_pids n pids : sound n → sound (set_pids pids n).
Proof. intros []. by split. Qed.
Lemma vacant_verify n project_id pid path g : comparable n → vacant n project_id pid g →
  ∃ n', verify_or_takeover project_id pid path n = (Ok g, n').
Proof using clock_reads.
  intros Hcmp. unfold vacant. destruct (verify_or_takeover project_id pid path n) as [r n'] eqn:E. apply verify_or_takeover_spec in E as (_ & _ & Hr).
  unfold may_mount in Hr. intros Hv. exists n'. f_equal. destruct (nd_lease n) as [L|] eqn:EL.
  - destruct Hv as (Hp & Hne & Hg & -> & Hc). unfold same_holder in Hr. replace (ls_ccbd_pid L =? pid) with false in Hr by lia.
    destruct r as [g'|e]; cbn [andb] in Hr.
    + destruct Hr as (_ & [[? _]|(_ & -> & _)]); [done|done].
    + destruct Hr as (L' & m & [= <-] & [(_ & [?|[_ Hd]])|Hd]); [done|destruct Hd; unfold displaceable; tauto|].
      destruct (fresh_total time clock_reads n L (nd_ticks n) Hcmp EL) as [b Hb]. congruence.
  - destruct r as [g'|e]; [by subst|]. by destruct Hr as (L' & m & ? & _).
Qed.
Record manageable (env : KeeperEnv) (a : CcbdApp) (names : list string) (epoch : option Z) : Prop := {
  me_pid : 0 < ke_pid env;
  me_config : is_ok (ke_config env) = true;
  me_spawn : ke_spawn env = launched a names epoch;
  me_terminate : ∀ pid n, ke_terminate_pid_tree env pid n = (Ok tt, set_pids (nd_pids n ∖ {[pid]}) n);
  me_app : app_ok a;
  me_epoch : ∀ e, epoch = Some e → 0 ≤ e
}.
(** *** The restart that follows *)
Lemma vacant_tick n p pid g : vacant n p pid g → vacant (tick n) p pid g.
Proof. done. Qed.
Lemma vacant_set_lifecycle n l p pid g : vacant n p pid g → vacant (set_lifecycle l n) p pid g.
Proof. done. Qed.
Lemma vacant_launch n p pid g : vacant n p pid g → vacant (set_pids (nd_pids n ∪ {[pid]}) n) p pid g.
Proof.
  unfold vacant. cbn. destruct (nd_lease n) as [L|]; [|done]. intros (? & ? & ? & ? & Hv). split_and!; [done..|].
  destruct Hv as [?|Hv]; [by left|right]. unfold process_exists in *. cbn. apply andb_false_iff in Hv as [->|Hv]; [done|].
  apply andb_false_iff. right. apply bool_decide_eq_false in Hv. apply bool_decide_eq_false. rewrite elem_of_union, elem_of_singleton. by intros [?|?].
Qed.
(** What the inspection of a lost lease says. *)
Definition to_restart (n : Node) (i : LeaseInspection) (p : string) (pid g : Z) : Prop :=
  li_lease i = nd_lease n ∧ li_socket_connectable i = false ∧ li_health i ∈ [LH_missing; LH_unmounted; LH_stale] ∧
  (vacant n p pid g ∧ (li_health i ≠ LH_stale ∨ li_pid_alive i = false) ∨ ∃ L, nd_lease n = Some L ∧ li_health i = LH_stale ∧ li_pid_alive i = true ∧ li_heartbeat_fresh i = false ∧
     0 < ls_ccbd_pid L ∧ vacant (set_pids (nd_pids n ∖ {[ls_ccbd_pid L]}) n) p pid g).
Lemma lost_inspect n p pid g : comparable n → lost n p pid g → ∃ i n', inspect None false n = (Ok i, n') ∧ to_restart n i p pid g ∧ (n' = n ∨ n' = tick n).
Proof using clock_forward clock_reads clock_text iso_plus iso_plus_ok time.
  intros Hcmp. unfold lost, inspect, mbind, st_bind, to_restart. cbn. destruct (nd_lease n) as [L|] eqn:EL; cbn.
  2: { intros ->. eexists _, _. split; [reflexivity|]. split; [|by left]. split_and!; [done..|by left|left]. unfold vacant. rewrite EL. by split; [|left]. }
  intros (Hp & Hne & Hg & -> & Hs & Hd). destruct (fresh_total time clock_reads n L (nd_ticks n) Hcmp EL) as [f Ef].
  rewrite Ef. cbn. eexists _, _. split; [reflexivity|]. split; [|by right].
  change (mounted_socket_connectable (tick n) L) with (mounted_socket_connectable n L). rewrite Hs.
  change (process_exists (tick n) (ls_ccbd_pid L)) with (process_exists n (ls_ccbd_pid L)).
  unfold displaceable in Hd. unfold inspection_of, vacant. cbn. rewrite EL. case_bool_decide as Hm; cbn.
  { split_and!; [done..|set_unfold; tauto|]. left. by split; [split_and!; auto|left]. }
  rewrite andb_false_r. destruct (process_exists n (ls_ccbd_pid L)) eqn:Ha; cbn.
  - destruct Hd as [?|[?|[Hf _]]]; [done..|]. assert (f = false) as -> by congruence. cbn. split_and!; [done..|set_unfold; tauto|].
    right. exists L. unfold process_exists in Ha. apply andb_true_iff in Ha as [Ha _]. split_and!; [done..|lia|done|done|done|done|]. right.
    unfold process_exists. cbn. apply andb_false_iff. right. apply bool_decide_eq_false. set_unfold. tauto.
  - split_and!; [done..|set_unfold; tauto|]. left. by split; [split_and!; auto|right].
Qed.
Definition attempted (s : KeeperState) (now : string) : KeeperState :=
  mkKeeper (ks_project_id s) (ks_keeper_pid s) (ks_started_at s) now (ks_state s) (ks_restart_count s + 1) (Some now)
    (ks_last_failure_reason s).
Lemma restart_total env a names epoch s n i p pid g k : manageable env a names epoch → keeper_ok s → to_restart n i p pid g →
  ∃ pids, restart_state_from_inspection env s i (clock_at k) n = (Ok (Some (attempted s (clock_at k))), set_pids pids n) ∧
    vacant (set_pids pids n) p pid g.
Proof using clock_text.
  intros [] [] (Hl & Hs & Hh & Hv).
  assert (with_restart_attempt s (clock_at k) = Ok (attempted s (clock_at k))) as Hatt.
  { unfold with_restart_attempt. apply keeper_post_init_ok. split; cbn; auto. lia. }
  unfold restart_state_from_inspection. destruct Hv as [[Hv Hq]|(L & HL & Hst & Ha & Hf & Hpos & Hv)].
  - destruct (stale_restart_state env s i (clock_at k) n) as [r n'] eqn:Es. unfold stale_restart_state in Es. rewrite Hl in Es.
    destruct (nd_lease n) as [L|] eqn:EL.
    + destruct (negb _ || negb _ || _) eqn:Hc.
      * injection Es as <- <-. exists (nd_pids n). rewrite (st_bind_ok _ _ _ None n); [|unfold stale_restart_state; by rewrite Hl, Hc].
        rewrite bool_decide_eq_true_2 by done. rewrite Hatt. split; [by destruct n|]. by destruct n.
      * apply orb_false_iff in Hc as [Hc _]. apply orb_false_iff in Hc as [Hst Ha].
        apply negb_false_iff in Ha. apply negb_false_iff, bool_decide_eq_true in Hst. destruct Hq; congruence.
    + exists (nd_pids n). rewrite (st_bind_ok _ _ _ None n); [|unfold stale_restart_state; by rewrite Hl].
      rewrite bool_decide_eq_true_2 by done. rewrite Hatt. split; by destruct n.
  - exists (nd_pids n ∖ {[ls_ccbd_pid L]}). split; [|done].
    rewrite (st_bind_ok _ _ _ (Some (attempted s (clock_at k))) (set_pids (nd_pids n ∖ {[ls_ccbd_pid L]}) n)); [done|].
    unfold stale_restart_state. rewrite Hl, HL, Hst, Ha, Hf. cbn [bool_decide negb orb].
    rewrite bool_decide_eq_true_2 by done. cbn [negb orb]. replace (0 <? ls_ccbd_pid L) with true by lia.
    rewrite (st_bind_ok _ _ _ _ _ (me_terminate0 _ n)), Hatt. done.
Qed.
Lemma utc_now_bind {B} (k : string → Nd B) n : (utc_now ≫= k) n = k (clock_at (nd_ticks n)) (tick n).
Proof. done. Qed.
Definition succeeded (s : KeeperState) (now : string) : KeeperState :=
  mkKeeper (ks_project_id s) (ks_keeper_pid s) (ks_started_at s) now (ks_state s) (ks_restart_count s) (ks_last_restart_at s) None.
(** The daemon [a] serves the project in generation [g]. *)
Definition served (n : Node) (a : CcbdApp) (g : Z) : Prop := ∃ L l,
  (nd_lease n = Some L ∧ ls_ccbd_pid L = ap_pid a ∧ ls_mount_state L = MS_mounted ∧ ls_generation L = g ∧
   ls_socket_path L = ap_socket_path a ∧ process_exists n (ap_pid a) = true ∧ unix_socket_connectable n (ap_socket_path a) = true) ∧
  (nd_lifecycle n = Some l ∧ lc_desired_state l = DSt_running ∧ lc_phase l = PH_mounted ∧ lc_generation l = g ∧
   lc_owner_pid l = Some (ap_pid a) ∧ lc_socket_inode l = current_socket_inode n (ap_socket_path a) ∧
   lc_last_failure_reason l = None).
Lemma prepare_start_ok env l i k : lifecycle_ok l → is_ok (ke_config env) = true → 0 < ke_pid env →
  ∃ starting sig, prepare_start iso_plus start_timeout_s env l i (clock_at k) = Ok (starting, sig) ∧ lifecycle_ok starting ∧
    lc_desired_state starting = DSt_running.
Proof using clock_text iso_plus_ok.
  intros [] Hc Hp. unfold prepare_start. destruct (ke_config env) as [[agents sig]|]; [|done]. rewrite result_bind_ok.
  pose proof (iso_plus_ok k (Qmax 0 start_timeout_s)) as Hi. destruct (iso_plus _ _) as [deadline|]; [|done]. rewrite result_bind_ok.
  unfold starting_lifecycle. set (g := Z.max _ _ + 1). assert (0 <= g) by (unfold g; lia). clearbody g.
  match goal with |- context [ lifecycle_post_init ?x ] => assert (lifecycle_ok x) as Hok end.
  { split; cbn; auto; try done; intros ? [= <-]; lia. }
  rewrite (lifecycle_post_init_ok _ Hok). eexists _, _. by split_and!.
Qed.
Lemma launched_total a names epoch n g : app_ok a → sound n → (∀ e, epoch = Some e → 0 ≤ e) → 0 < g →
  vacant n (ap_project_id a) (ap_pid a) g → ∃ n' L, launched a names epoch n = (Ok tt, n') ∧ nd_lease n' = Some L ∧
    ls_ccbd_pid L = ap_pid a ∧ ls_mount_state L = MS_mounted ∧ ls_generation L = g ∧ ls_socket_path L = ap_socket_path a ∧
    nd_pids n' = nd_pids n ∪ {[ap_pid a]} ∧ nd_sockets n' = bound_socket a n.
Proof using clock_reads clock_text time.
  intros Ha [(l & Hl & Hok & Hd) Hs Hb Hcmp] He Hg Hv. unfold launched. set (n1 := set_pids _ n).
  destruct (vacant_verify n1 (ap_project_id a) (ap_pid a) (ap_socket_path a) g) as [n2 Ev]; [done|by apply vacant_launch|].
  destruct (start_total clock_text time clock_reads n1 a l g n2 names epoch) as (L & p' & E & HL & HLg & Hsk & Hpids); [done..|].
  rewrite E. exists p'.1, L. apply start_spec in E as (_ & g' & L' & j & HL' & _ & [_ ? _ _ ? _] & ? & _).
  assert (L' = L) as -> by congruence. by split_and!.
Qed.
Lemma spawn_total env a names epoch s n g : manageable env a names epoch → keeper_ok s → sound n → 0 < g →
  vacant n (ap_project_id a) (ap_pid a) g →
  ∃ n', spawn_daemon iso_plus start_timeout_s env s n = (Ok (succeeded s (clock_at (nd_ticks n))), n') ∧ served n' a g.
Proof using clock_forward clock_reads clock_text iso_plus_ok time.
  intros [] Hks Hsound Hg Hv. destruct Hks. unfold spawn_daemon. rewrite utc_now_bind.
  destruct (inspect_total time clock_reads false (tick n) (sd_comparable _ Hsound)) as (i & n1 & Ei & Hn1 & Hli). rewrite (st_bind_ok _ _ _ _ _ Ei).
  assert (sound n1 ∧ vacant n1 (ap_project_id a) (ap_pid a) g) as [Hs1 Hv1] by (destruct Hn1 as [->| ->]; by split; repeat apply sound_tick).
  rewrite st_gets_bind, st_gets_bind. destruct (sd_lifecycle _ Hs1) as (l & Hl & Hok & Hd). rewrite Hl.
  unfold mbind at 1, st_bind at 1. cbn beta iota zeta delta [mret st_ret].
  destruct (prepare_start_ok env l i (nd_ticks n)) as (starting & sig & Ep & Hok' & Hd'); [done..|]. rewrite Ep.
  set (n2 := set_lifecycle starting n1).
  destruct (launched_total a names epoch n2 g) as (n3 & L & E3 & HL & HLp & HLm & HLg & HLs & Hpids & Hsk);
    [done|by apply sound_set_lifecycle|done..|].
  assert (current_socket_inode n3 (ap_socket_path a) = Some (nd_next_inode n2)) as Hinode.
  { unfold current_socket_inode. rewrite Hsk. unfold bound_socket. by rewrite lookup_insert_eq. }
  assert (0 < nd_next_inode n2) as Hpos by apply Hs1. destruct me_app0 as [_ Hap _ Hpath _ _].
  assert (with_success s (clock_at (nd_ticks n)) = Ok (succeeded s (clock_at (nd_ticks n)))) as Hsucc.
  { apply keeper_post_init_ok. by split; cbn. }
  set (x := mkLifecycle (lc_project_id starting) DSt_running PH_mounted g (clock_at (nd_ticks n3)) (lc_startup_id starting)
    (Some "mounted") (Some (clock_at (S (nd_ticks n3)))) None (lc_keeper_pid starting) (Some (ap_pid a))
    (clean_option (ls_daemon_instance_id L)) (Some (str_or (clean_option (ls_config_signature L)) sig))
    (Some (ap_socket_path a)) (Some (nd_next_inode n2)) (lc_namespace_epoch starting) None None).
  assert (lifecycle_ok x) as Hx.
  { destruct Hok'. split; cbn; auto; try lia; by intros ? [= <-]. }
  assert (spawned_lifecycle env (tick n3) starting (Some L) sig (clock_at (nd_ticks n3)) (clock_at (S (nd_ticks n3))) = Ok x) as Hsp.
  { unfold spawned_lifecycle. cbn [fmap option_fmap option_map mbind option_bind]. rewrite HLg, HLp, HLs, Hd'.
    unfold or_zero. replace (g =? 0) with false by lia. replace (ap_pid a =? 0) with false by lia.
    change (current_socket_inode (tick n3)) with (current_socket_inode n3). rewrite Hinode.
    assert (str_or (Some (ap_socket_path a)) (ke_socket_path env) = ap_socket_path a) as ->.
    { cbn. rewrite bool_decide_ne; [done|]. intros E. by rewrite E in Hpath. }
    exact (lifecycle_post_init_ok x Hx). }
  eexists. split.
  - apply st_try_ok. rewrite st_modify_bind, me_spawn0, (st_bind_ok _ _ _ _ _ E3).
    unfold load_state. rewrite st_gets_bind, HL, utc_now_bind, st_gets_bind, utc_now_bind. unfold id.
    change (nd_ticks (tick n3)) with (S (nd_ticks n3)). rewrite Hsp.
    rewrite (st_bind_ok (save _) _ _ tt (set_lifecycle x (tick (tick n3)))) by done. unfold st_lift. rewrite Hsucc. reflexivity.
  - exists L, x. split; [|cbn; split_and!; try done].
    split_and!; [done..| |].
    + unfold process_exists. cbn. rewrite Hpids, bool_decide_eq_true_2 by (set_unfold; tauto). by replace (0 <? ap_pid a) with true by lia.
    + unfold unix_socket_connectable. cbn. rewrite Hsk. unfold bound_socket. by rewrite lookup_insert_eq.
Qed.
Lemma ensure_total env i now n : sound n → 0 < ke_pid env →
  ∃ l n', ensure_project_lifecycle env i now n = (Ok l, n') ∧ lc_desired_state l = DSt_running ∧ sound n' ∧
    (n' = n ∨ n' = set_lifecycle l n).
Proof.
  intros Hsound Hp. destruct (sd_lifecycle _ Hsound) as (l & Hl & Hok & Hd). unfold ensure_project_lifecycle.
  rewrite st_gets_bind, Hl. case_bool_decide; [exists l, n; by split_and!; [..|left]|].
  match goal with |- context [ lifecycle_post_init ?x ] => assert (lifecycle_ok x) as Hx end.
  { destruct Hok. split; cbn; auto. by intros ? [= <-]. }
  rewrite (lifecycle_post_init_ok _ Hx). eexists _, _. split; [reflexivity|]. split; [done|]. split; [|by right].
  by apply sound_set_lifecycle.
Qed.
Lemma lost_later n n' p pid g : comparable n → lost n p pid g → nd_lease n' = nd_lease n → nd_sockets n' = nd_sockets n → nd_pids n' = nd_pids n →
  (nd_ticks n ≤ nd_ticks n')%nat → lost n' p pid g.
Proof using clock_forward clock_reads time.
  unfold lost. intros Hcmp Hlost -> Hs Hp Ht. destruct (nd_lease n) as [L|] eqn:EL; [|done]. destruct Hlost as (? & ? & ? & ? & Hc & Hd).
  assert (mounted_socket_connectable n' L = mounted_socket_connectable n L) as Hc'.
  { unfold mounted_socket_connectable, unix_socket_connectable. by rewrite Hs. }
  split_and!; [done..|congruence|]. destruct Hd as [?|[Hd|[Hf _]]]; [by left|right; left; unfold process_exists in *; by rewrite Hp|].
  right. right. split; [|congruence]. destruct (fresh_total time clock_reads n L (nd_ticks n') Hcmp EL) as [[] Hf']; [|done].
  by rewrite (fresh_earlier time clock_reads clock_forward _ _ L Ht Hf') in Hf.
Qed.

(** C2: A project that is to run gets its daemon back. When the daemon of a
    running project is gone (its lease is missing or unmounted, its process is
    dead, or it is hung: silent beyond the grace time and not answering), one
    iteration of the keeper ends the hung process, starts a daemon and leaves
    the project served: the new process holds the lease in the next generation
    (the first, when there was no lease), its socket answers, and the lifecycle
    is mounted with that process, generation and socket. It does so whenever no
    restart failed or the last attempt is eight seconds old, since the pause
    between attempts is never shorter than half a second nor longer than eight. *)
Theorem keeper_restores_service env a names epoch s n g :
  manageable env a names epoch → keeper_ok s → sound n → 0 < g → lost n (ap_project_id a) (ap_pid a) g →
  rested s (nd_ticks n) →
  ∃ n' started_at,
    reconcile env s n = (Ok (succeeded (attempted s (clock_at (nd_ticks n))) started_at), n') ∧ served n' a g.
Proof using clock_forward clock_reads clock_text iso_plus_ok time.
  intros Henv Hks Hsound Hg Hlost Hrest. unfold reconcile_once. rewrite utc_now_bind, (rested_not_backing_off _ _ Hrest).
  assert (lost (tick n) (ap_project_id a) (ap_pid a) g) as Hlost0 by (apply (lost_later n); cbn; [apply Hsound|done..|lia]).
  destruct (lost_inspect (tick n) _ _ _ (sd_comparable _ Hsound) Hlost0) as (i & n1 & Ei & Hto & Hn1). rewrite (st_bind_ok _ _ _ _ _ Ei).
  assert (sound n1 ∧ to_restart n1 i (ap_project_id a) (ap_pid a) g) as [Hs1 Hto1].
  { destruct Hn1 as [->| ->]; split; repeat apply sound_tick; done. }
  destruct (ensure_total env i (clock_at (nd_ticks n)) n1) as (l & n2 & El & Hd & Hs2 & Hn2); [done|apply Henv|].
  rewrite (st_bind_ok _ _ _ _ _ El), Hd. cbn [bool_decide negb].
  assert (to_restart n2 i (ap_project_id a) (ap_pid a) g) as Hto2 by (destruct Hn2 as [->| ->]; done).
  unfold reconcile_connectable_daemon. pose proof Hto2 as (_ & -> & _). cbn [negb].
  destruct (restart_total env a names epoch s n2 i (ap_project_id a) (ap_pid a) g (nd_ticks n)) as (pids & Er & Hv); [done..|].
  rewrite bool_decide_eq_true_2 by done. cbn [negb]. rewrite (st_bind_ok (mret None) _ _ None n2) by done.
  rewrite (st_bind_ok _ _ _ _ _ Er).
  destruct (spawn_total env a names epoch (attempted s (clock_at (nd_ticks n))) (set_pids pids n2) g) as (n' & Es & Hserved);
    [done| |by apply sound_set_pids|done..|].
  { destruct Hks. split; cbn; auto. lia. }
  rewrite Es. by eexists _, _.
Qed.
End recovery.

(** ** A concrete keeper *)
Lemma second_text k : text (@clock_at second_clock k).
Proof. unfold text, clock_at, second_clock. rewrite strokes_strip. by destruct k. Qed.
Definition demo_lifecycle : CcbdLifecycle :=
  mkLifecycle "p1" DSt_running PH_mounted 1 "t" None None None None (Some 7) (Some 10) (Some "i1") (Some "sig")
    (Some "/run/ccbd.sock") (Some 1) None None None.
Definition stale_lease : CcbdLease :=
  mkLease "p1" 10 "/run/ccbd.sock" 1000 "boot1" "t" "t" MS_mounted 1 (Some "sig") (Some 7) (Some "i1") 2.
(** The process of the daemon is gone, its socket file is still there. *)
Definition crashed_node : Node :=
  mkNode (Some stale_lease) (Some demo_lifecycle) None [] {[ "/run/ccbd.sock" := mkSocket 1 10 false ]} 2 ∅ "boot1" 5.
Definition demo_plus (s : string) (_ : Q) : result string := Ok s.
Definition demo_env : KeeperEnv :=
  mkKeeperEnv 7 "p1" "/run/ccbd.sock" true (Ok (["a1"], "sig")) (Err (OSError "no daemon")) (mret false)
    (λ pid n, (Ok tt, set_pids (nd_pids n ∖ {[pid]}) n))
    (launched (H := second_clock) (H0 := second_lib) (demo_daemon 11 "i2") [] None) "start1" None.
Definition demo_keeper : KeeperState := mkKeeper "p1" 7 "t" "t" "running" 0 None None.
Lemma demo_app_ok : app_ok (demo_daemon 11 "i2").
Proof. split; cbn; [done|lia|done|done|by intros ? [= <-]|done]. Qed.
Lemma demo_lifecycle_ok : lifecycle_ok demo_lifecycle.
Proof. split; cbn; [done|lia|done|by intros ? [= <-]..|done]. Qed.
Lemma demo_crashed : sound (HLib := second_lib) crashed_node ∧ lost (HClock := second_clock) (HLib := second_lib) crashed_node "p1" 11 2.
Proof.
  split.
  - split; [exists demo_lifecycle; split_and!; [done|apply demo_lifecycle_ok|done]| |done|].
    2: { intros L aware h [= <-]. vm_compute. by intros [= <- _]. }
    split; [cbn; lia|].
    intros path f. unfold crashed_node. cbn [nd_sockets]. intros [_ <-]%lookup_singleton_Some. cbn. lia.
  - unfold lost. cbn [nd_lease crashed_node]. split_and!; try done. right. left. reflexivity.
Qed.
Lemma keeper_restores_service_witness : ∃ n' s',
  reconcile_once (H := second_clock) (H0 := second_lib) demo_plus 60 demo_env demo_keeper crashed_node = (Ok s', n') ∧
  ks_restart_count s' = 1 ∧ served n' (demo_daemon 11 "i2") 2.
Proof.
  destruct (keeper_restores_service (HClock := second_clock) (HLib := second_lib) second_text (λ k, 1000000 * Z.of_nat k)
    second_reads seconds_forward demo_plus 60 (λ _ _, eq_refl) demo_env (demo_daemon 11 "i2") [] None demo_keeper crashed_node 2)
    as (n' & t & E & Hserved).
  - split; cbn; [lia|done|done|done|apply demo_app_ok|done].
  - split; cbn; done || lia.
  - apply demo_crashed.
  - lia.
  - apply demo_crashed.
  - left. cbn. lia.
  - exists n'. eexists. split; [exact E|]. split; [reflexivity|exact Hserved].
Defined.
Definition running_node : Node :=
  mkNode (Some stale_lease) (Some demo_lifecycle) None [] {[ "/run/ccbd.sock" := mkSocket 1 10 true ]} 2 {[10]} "boot1" 5.
Definition demo_stop : result unit * Proc :=
  execute_project_stop (H := second_clock) (H0 := second_lib) "kill" "kill" 0 (Ok tt) (running_node, demo_daemon 10 "i1").
Lemma demo_stop_run : execute_project_stop (H := second_clock) (H0 := second_lib) "kill" "kill" 0 (Ok tt)
  (running_node, demo_daemon 10 "i1") = (demo_stop.1, demo_stop.2).
Proof. unfold demo_stop. apply surjective_pairing. Qed.
Lemma stopped_projects_stay_stopped_witness : stopped demo_stop.2.1 ∧
  ∀ r' n', run_iterations (H := second_clock) (H0 := second_lib) demo_plus 60 [demo_env; demo_env] demo_keeper false demo_stop.2.1 = (r', n') →
    stopped n' ∧ nd_pids n' = nd_pids demo_stop.2.1.
Proof.
  pose proof (stopped_projects_stay_stopped (HClock := second_clock) (HLib := second_lib) demo_plus 60 "kill" "kill" 0 (Ok tt)
    (running_node, demo_daemon 10 "i1") demo_lifecycle demo_stop.1 demo_stop.2 eq_refl demo_lifecycle_ok second_text demo_stop_run) as [Hs Hrun].
  split; [exact Hs|]. intros r' n' E. destruct (Hrun _ _ _ _ _ E) as (Hs' & _ & _ & Hp & _). exact (conj Hs' Hp).
Defined.
