(* ===== verification/RuntimeTheorems.v ===== *)
(** * A generation names one binding

    Whatever the registry, the service and the supervisor do to the runtime of
    an agent, its generation never falls, and two records of an agent with the
    same generation are bound to the same process and pane. *)
From stdpp Require Import pretty.
From S2P Require Import Prelude PyValue Names AgentModels MailboxKernel AgentRuntimes AgentRegistry RuntimeAttach RuntimeService CompletionModels Supervision.
Open Scope string_scope.
Open Scope list_scope.
Open Scope Z_scope.

(** ** Records *)
Definition valid (r : AgentRuntime) : Prop := runtime_post_init r = Ok r.
Definition gen (r : AgentRuntime) : Z := positive_generation (ag_runtime_generation r).
(** What an agent is bound to. *)
Record Binding := mkBound {
  bd_runtime_ref : option string;
  bd_session_ref : option string;
  bd_runtime_root : option string;
  bd_runtime_pid : option Z;
  bd_pane_id : option string;
  bd_tmux_socket_name : option string;
  bd_tmux_socket_path : option string;
  bd_tmux_window_name : option string;
  bd_tmux_window_id : option string
}.
Definition binding_of (r : AgentRuntime) : Binding :=
  mkBound (ag_runtime_ref r) (ag_session_ref r) (ag_runtime_root r) (ag_runtime_pid r) (ag_pane_id r) (ag_tmux_socket_name r)
    (ag_tmux_socket_path r) (ag_tmux_window_name r) (ag_tmux_window_id r).
(** A removed agent is bound to nothing. *)
Definition unbound (r : AgentRuntime) : Prop :=
  ag_runtime_ref r = None ∧ ag_session_ref r = None ∧ ag_pane_id r = None ∧ ag_runtime_pid r = None.
Definition same_binding (r1 r2 : AgentRuntime) : Prop := binding_of r1 = binding_of r2 ∨ unbound r1 ∨ unbound r2.
(** [c] is [r] with another state. *)
Definition derived (c r : AgentRuntime) : Prop :=
  ag_agent_name c = ag_agent_name r ∧ gen c = gen r ∧ (binding_of c = binding_of r ∨ unbound c) ∧ valid c.

Lemma gen_nonneg r : 0 ≤ gen r.
Proof. unfold gen, positive_generation. lia. Qed.
Lemma post_init_inv r c : runtime_post_init r = Ok c →
  ∃ n, normalize_agent_name (ag_agent_name r) = Ok n ∧ validate_runtime_fields (ag_authority r) (ag_fields r) = Ok tt ∧
       c = normalize_runtime_defaults (with_name (ag_authority r) n) (ag_fields r).
Proof.
  unfold runtime_post_init. intros (n & Hn & H)%result_bind_Ok_inv. apply result_bind_Ok_inv in H as ([] & Hv & [= <-]). by exists n.
Qed.
Lemma post_init_valid r c : runtime_post_init r = Ok c → valid c.
Proof. apply runtime_post_init_idem. Qed.
Lemma valid_name r : valid r → normalize_agent_name (ag_agent_name r) = Ok (ag_agent_name r).
Proof. intros (n & Hn & _ & Hr)%post_init_inv. assert (ag_agent_name r = n) as E by (by rewrite Hr). by rewrite Hn, E. Qed.
Lemma valid_windows r : valid r →
  normalized_text (ag_tmux_window_name r) = ag_tmux_window_name r ∧ normalized_text (ag_tmux_window_id r) = ag_tmux_window_id r.
Proof. intros (n & _ & _ & Hr)%post_init_inv. by rewrite Hr; cbn; rewrite !normalized_text_idem. Qed.
Lemma post_init_binding r c : runtime_post_init r = Ok c → normalize_agent_name (ag_agent_name r) = Ok (ag_agent_name r) →
  normalized_text (ag_tmux_window_name r) = ag_tmux_window_name r → normalized_text (ag_tmux_window_id r) = ag_tmux_window_id r →
  ag_agent_name c = ag_agent_name r ∧ gen c = gen r ∧ binding_of c = binding_of r.
Proof.
  intros (n & Hn & _ & ->)%post_init_inv Hn' H1 H2. rewrite Hn in Hn'. injection Hn' as E. cbn. split_and!; [done..|].
  unfold binding_of. cbn. by rewrite H1, H2.
Qed.
Lemma update_fields us : ∀ r, ag_agent_name (foldl apply_update r us) = ag_agent_name r ∧
  ag_runtime_generation (foldl apply_update r us) = ag_runtime_generation r ∧ binding_of (foldl apply_update r us) = binding_of r.
Proof.
  induction us as [|u us IH]; intros r; [done|]. cbn. destruct (IH (apply_update r u)) as (-> & -> & ->).
  destruct r as [[] []]. by destruct u.
Qed.
Lemma replace_derived r us c : valid r → replace r us = Ok c → derived c r.
Proof.
  intros Hr Hc. pose proof (post_init_valid _ _ Hc) as Hv. destruct (update_fields us r) as (H1 & H2 & H3).
  destruct (valid_windows r Hr) as [W1 W2].
  assert (ag_tmux_window_name (foldl apply_update r us) = ag_tmux_window_name r) as E1 by (by injection H3).
  assert (ag_tmux_window_id (foldl apply_update r us) = ag_tmux_window_id r) as E2 by (by injection H3).
  destruct (post_init_binding _ _ Hc) as (N & G & B); [rewrite H1; by apply valid_name|by rewrite E1|by rewrite E2|].
  split_and!; [by rewrite N|by unfold gen in *; rewrite G, H2|left; by rewrite B|done].
Qed.
Lemma derived_refl r : valid r → derived r r.
Proof. intros Hr. by split_and!; [..|left|]. Qed.
Lemma unbound_binding (c r : AgentRuntime) : binding_of c = binding_of r → unbound r → unbound c.
Proof. unfold binding_of, unbound. intros Hb. by injection Hb as -> -> _ -> -> _ _ _ _. Qed.
Lemma derived_trans (c a r : AgentRuntime) : derived c a → derived a r → derived c r.
Proof.
  intros (N2 & G2 & B2 & V2) (N1 & G1 & B1 & _). split_and!; [by rewrite N2|by rewrite G2| |done].
  destruct B2 as [B2|B2]; [|by right]. destruct B1 as [B1|B1]; [left; by rewrite B2|right; by eapply unbound_binding].
Qed.
Lemma stopped_derived r c : valid r → stopped_runtime r = Ok c → derived c r.
Proof.
  intros Hr Hc. pose proof (post_init_valid _ _ Hc) as Hv. apply post_init_inv in Hc as (n & Hn & _ & ->). cbn in Hn.
  rewrite (valid_name r Hr) in Hn. injection Hn as <-. split_and!; [done|done|right|done]. by split_and!.
Qed.
Lemma changed_nil x y : changed_authority_fields x y = [] → x = y.
Proof.
  unfold changed_authority_fields. intros H. apply fmap_nil_inv in H.
  assert (∀ l : list (string * bool), List.filter snd l = [] → Forall (λ p, p.2 = false) l) as Hf.
  { intros l. induction l as [|[n b] l IH]; [constructor|]. cbn. destruct b; [done|]. intros Hl. constructor; [done|by apply IH]. }
  apply Hf in H. repeat (apply Forall_cons in H as [? H]). cbn in *.
  repeat match goal with Hb : negb (bool_decide _) = false |- _ => apply negb_false_iff in Hb; apply bool_decide_eq_true in Hb end.
  destruct x, y. cbn in *. by subst.
Qed.

(** ** What the registry has known

    [H] are the records that were ever saved. *)
Definition known (H : list AgentRuntime) (f : Fleet) : Prop :=
  (∀ n (r : AgentRuntime), fl_files f !! n = Some r → ag_agent_name r = n ∧ r ∈ H) ∧
  (∀ n r, fl_cache f !! n = Some r → fl_files f !! n = Some r) ∧
  (∀ r : AgentRuntime, r ∈ H → valid r ∧ ∃ c, fl_files f !! ag_agent_name r = Some c ∧ gen r ≤ gen c) ∧
  (∀ r1 r2 : AgentRuntime, r1 ∈ H → r2 ∈ H → ag_agent_name r1 = ag_agent_name r2 → gen r1 = gen r2 → 0 < gen r1 → same_binding r1 r2).
(** [m] saves only records that fit; what it returns satisfies [Q]. *)
Definition fits {A} (H : list AgentRuntime) (m : Fl A) (Q : list AgentRuntime → A → Prop) : Prop :=
  ∀ f, known H f → ∃ H', H ⊆ H' ∧ known H' (m f).2 ∧ ∀ a, (m f).1 = Ok a → Q H' a.
Definition stays {A} (Q : list AgentRuntime → A → Prop) : Prop := ∀ H H' a, H ⊆ H' → Q H a → Q H' a.

Lemma fits_bind {A B} H (m : Fl A) (k : A → Fl B) Q R :
  fits H m Q → (∀ H' a, H ⊆ H' → Q H' a → fits H' (k a) R) → fits H (m ≫= k) R.
Proof.
  intros Hm Hk f Hf. destruct (Hm f Hf) as (H1 & Hs1 & Hf1 & HQ). unfold mbind, st_bind.
  destruct (m f) as [[a|e] f1]; cbn in *; [|by exists H1].
  destruct (Hk H1 a Hs1 (HQ a eq_refl) f1 Hf1) as (H2 & Hs2 & Hf2 & HR). exists H2. split; [by etrans|done].
Qed.
Lemma fits_pure {A} H (m : Fl A) (Q : list AgentRuntime → A → Prop) :
  (∀ f, fl_files (m f).2 = fl_files f ∧ fl_cache (m f).2 = fl_cache f) → (∀ f a, (m f).1 = Ok a → Q H a) → fits H m Q.
Proof.
  intros Hm HQ f (K1 & K2 & K3 & K4). destruct (Hm f) as [E1 E2]. exists H. split; [done|]. split; [|apply HQ].
  unfold known. by rewrite E1, E2.
Qed.
Lemma fits_ret {A} H (a : A) (Q : list AgentRuntime → A → Prop) : Q H a → fits H (mret a) Q.
Proof. intros HQ. apply fits_pure; [done|]. by intros f ? [= <-]. Qed.
Lemma fits_lift {A} H (r : result A) (Q : list AgentRuntime → A → Prop) : (∀ a, r = Ok a → Q H a) → fits H (st_lift r) Q.
Proof. intros HQ. by apply fits_pure; [|intros f; apply HQ]. Qed.
Lemma fits_weaken {A} H (m : Fl A) (Q R : list AgentRuntime → A → Prop) :
  fits H m Q → (∀ H' a, H ⊆ H' → Q H' a → R H' a) → fits H m R.
Proof. intros Hm HQR f Hf. destruct (Hm f Hf) as (H' & Hs & Hk & HQ). exists H'. split_and!; [done..|]. intros a Ha. by apply HQR, HQ. Qed.
Lemma fits_try {A} H (m : Fl A) (h : exn → Fl A) Q :
  fits H m Q → (∀ H' e, H ⊆ H' → fits H' (h e) Q) → fits H (st_try m h) Q.
Proof.
  intros Hm Hh f Hf. destruct (Hm f Hf) as (H1 & Hs1 & Hf1 & HQ). unfold st_try.
  destruct (m f) as [[a|e] f1]; cbn in *; [by exists H1|].
  destruct (Hh H1 e Hs1 f1 Hf1) as (H2 & Hs2 & Hf2 & HR). exists H2. split; [by etrans|done].
Qed.
Lemma fits_raise {A} H e (Q : list AgentRuntime → A → Prop) : fits H (st_raise e) Q.
Proof. by apply fits_pure. Qed.
Lemma fits_gets {A} H (g : Fleet → A) (Q : list AgentRuntime → A → Prop) : (∀ f, Q H (g f)) → fits H (st_gets g) Q.
Proof. intros HQ. apply fits_pure; [done|]. by intros f a [= <-]. Qed.

(** A record that joins the known ones. *)
Definition joins (H : list AgentRuntime) (f : Fleet) (c : AgentRuntime) : Prop :=
  valid c ∧ (∀ e : AgentRuntime, fl_files f !! ag_agent_name c = Some e → gen e ≤ gen c) ∧
  ∀ h : AgentRuntime, h ∈ H → ag_agent_name h = ag_agent_name c → gen h = gen c → 0 < gen c → same_binding h c.
Lemma same_binding_sym r1 r2 : same_binding r1 r2 → same_binding r2 r1.
Proof. unfold same_binding. intros [->|[?|?]]; auto. Qed.
Lemma same_binding_keeps (h r c : AgentRuntime) : same_binding h r → binding_of c = binding_of r ∨ unbound c → same_binding h c.
Proof.
  intros Hhr [Hb|Hb]; [|by right; right]. unfold same_binding, unbound in *.
  destruct Hhr as [Hhr|[Hhr|Hhr]]; [left; by rewrite Hhr|by right; left|]. right; right. by apply (unbound_binding c r).
Qed.
Lemma known_save H f c (Hk : known H f) (Hj : joins H f c) :
  known (c :: H) (mkFleet (<[ag_agent_name c := c]> (fl_cache f)) (<[ag_agent_name c := c]> (fl_files f)) (fl_events f) (fl_ticks f)
                     (fl_ids f)).
Proof.
  destruct Hk as (K1 & K2 & K3 & K4), Hj as (J1 & J2 & J3). split_and!; cbn.
  - intros n r [[<- <-]|[_ Hr]]%lookup_insert_Some; [split; [done|left]|].
    destruct (K1 n r Hr). split; [done|by right].
  - intros n r [[<- <-]|[Hn Hr]]%lookup_insert_Some; [by rewrite lookup_insert_eq|]. rewrite lookup_insert_ne by done. by apply K2.
  - intros r [->|Hr]%elem_of_cons; [split; [done|]; exists c; by rewrite lookup_insert_eq|].
    destruct (K3 r Hr) as (V & e & He & Hg). split; [done|].
    destruct (decide (ag_agent_name c = ag_agent_name r)) as [E|E].
    + exists c. rewrite E, lookup_insert_eq. split; [done|]. etrans; [done|]. apply J2. by rewrite E.
    + exists e. by rewrite lookup_insert_ne.
  - intros r1 r2 [->|H1]%elem_of_cons [->|H2]%elem_of_cons En Eg Hp; [by left| | |by apply K4].
    + apply same_binding_sym, J3; [done..|]. lia.
    + apply J3; [done..|]. lia.
Qed.
Lemma known_cache H f n r (Hk : known H f) (Hr : fl_files f !! n = Some r) :
  known H (mkFleet (<[n := r]> (fl_cache f)) (fl_files f) (fl_events f) (fl_ticks f) (fl_ids f)).
Proof.
  destruct Hk as (K1 & K2 & K3 & K4). split_and!; cbn; [done| |done..].
  intros m x [[<- <-]|[_ Hx]]%lookup_insert_Some; [done|by apply K2].
Qed.
Lemma derived_joins H f (c r e : AgentRuntime) (Hk : known H f) (Hr : r ∈ H) (Hc : derived c r)
  (He : fl_files f !! ag_agent_name c = Some e) (Hg : gen e ≤ gen c) : joins H f c.
Proof.
  destruct Hk as (K1 & K2 & K3 & K4), Hc as (C1 & C2 & C3 & C4). split_and!; [done| |].
  - intros e' He'. rewrite He in He'. by injection He' as <-.
  - intros h Hh En Eg Hp. apply (same_binding_keeps h r c); [|done]. apply K4; [done|done|by rewrite En|lia|lia].
Qed.

(** ** Attaching

    Either everything an agent is bound to stays, or the generation grows. *)
Lemma next_generations e changed b r : next_authority_epoch_generations (Some e) changed = (b, r) →
  if changed then gen e < r else gen e < r ∨ gen e = r.
Proof.
  unfold next_authority_epoch_generations. pose proof (gen_nonneg e) as Hg. fold (gen e).
  set (k := positive_generation (Some (ag_binding_generation e))) in *.
  assert (0 ≤ k) by (unfold k, positive_generation; lia).
  destruct changed; intros [= <- <-].
  - destruct (0 <? Z.max k (gen e)) eqn:E; lia.
  - destruct (0 <? gen e) eqn:E1, (0 <? k) eqn:E2; lia.
Qed.
Lemma authority_unchanged e rref sref root pid pane apane sname spath wname wid dgen :
  runtime_authority_changed (Some e) rref sref root pid pane apane sname spath wname wid dgen = false →
  mkBound rref sref root pid pane sname spath wname wid = binding_of e.
Proof.
  unfold runtime_authority_changed, binding_of. intros Hc.
  repeat (apply orb_false_iff in Hc as [Hc ?]).
  repeat match goal with Hb : negb (bool_decide _) = false |- _ => apply negb_false_iff in Hb; apply bool_decide_eq_true in Hb end.
  by f_equal.
Qed.
Lemma attached_name o spec pid ts a n : as_name spec = n → (∀ e : AgentRuntime, o = Some e → ag_agent_name e = n) →
  ag_agent_name (attached_runtime o spec pid ts a) = n.
Proof.
  intros Hs Ho. unfold attached_runtime.
  destruct (resolve_session_fields _ _ _ _ _ _ _) as [[sf sid] sref]. destruct (next_authority_epoch_generations _ _) as [b r].
  destruct o as [e|]; [|exact Hs]. destruct (should_update_existing _); [exact (Ho e eq_refl)|exact Hs].
Qed.
Lemma attached_generation e spec pid ts a :
  let c := attached_runtime (Some e) spec pid ts a in gen e < gen c ∨ gen c = gen e ∧ binding_of c = binding_of e.
Proof.
  unfold attached_runtime.
  destruct (resolve_session_fields _ _ _ _ _ _ _) as [[sf sid] sref].
  match goal with |- context [runtime_authority_changed (Some e) ?a1 ?a2 ?a3 ?a4 ?a5 ?a6 ?a7 ?a8 ?a9 ?a10 ?a11] =>
    pose proof (authority_unchanged e a1 a2 a3 a4 a5 a6 a7 a8 a9 a10 a11) as Hb;
    generalize dependent (runtime_authority_changed (Some e) a1 a2 a3 a4 a5 a6 a7 a8 a9 a10 a11) end.
  intros changed Hb. destruct (next_authority_epoch_generations (Some e) changed) as [b r] eqn:En.
  pose proof (next_generations _ _ _ _ En) as Hg. pose proof (gen_nonneg e) as H0. clear En.
  assert (∀ y : AgentRuntime, ag_runtime_generation y = Some r → (changed = false → binding_of y = binding_of e) →
    gen e < gen y ∨ gen y = gen e ∧ binding_of y = binding_of e) as Hfin.
  { intros y Hy Hbind. assert (gen y = Z.max 0 r) as Hgen by (unfold gen; by rewrite Hy).
    destruct changed; [left; lia|]. destruct Hg as [Hg|Hg]; [left; lia|right]. split; [lia|by apply Hbind]. }
  destruct (should_update_existing (Some e)); apply Hfin; first [reflexivity|intros Hc; exact (Hb Hc)].
Qed.
Lemma attached_new spec pid ts a : gen (attached_runtime None spec pid ts a) = 1.
Proof.
  unfold attached_runtime. destruct (resolve_session_fields _ _ _ _ _ _ _) as [[sf sid] sref]. reflexivity.
Qed.
(** ** The registry *)
Section registry.
Context `{HClock : Clock} `{HConfig : FleetConfig}.

Definition found (H : list AgentRuntime) (o : option AgentRuntime) : Prop := ∀ r, o = Some r → r ∈ H.
Definition saved (H : list AgentRuntime) (r : AgentRuntime) : Prop := r ∈ H.
Lemma get_at_known H f name n : known H f → normalize_agent_name name = Ok n →
  ∃ f', get_locked name f = (Ok (fl_files f !! n), f') ∧ known H f' ∧ fl_files f' = fl_files f.
Proof.
  intros Hk Hn. unfold get_locked, mbind, st_bind, st_lift, st_gets. rewrite Hn. pose proof Hk as (_ & K2 & _).
  destruct (fl_cache f !! n) as [r|] eqn:Ec; [by exists f; rewrite (K2 _ _ Ec)|].
  destruct (fl_files f !! n) as [r|] eqn:Er; [|by exists f].
  eexists. split; [reflexivity|]. split; [by apply known_cache|done].
Qed.
Lemma fits_get H name : fits H (get name) found.
Proof.
  intros f Hf. exists H. split; [done|]. unfold get. destruct (normalize_agent_name name) as [n|e] eqn:Hn.
  - destruct (get_at_known H f name n Hf Hn) as (f' & -> & Hf' & _). split; [done|]. intros o [= <-] r Hr. destruct Hf as (K1 & _). by apply (K1 n).
  - unfold get_locked, mbind, st_bind, st_lift. by rewrite Hn.
Qed.
(** Saving [c] over [existing], which is read anew when it is not given: it is
    refused, or [c] is written over what was read. *)
Definition with_saved (f : Fleet) (c : AgentRuntime) : Fleet :=
  mkFleet (<[ag_agent_name c := c]> (fl_cache f)) (<[ag_agent_name c := c]> (fl_files f)) (fl_events f) (fl_ticks f) (fl_ids f).
Lemma save_cases H f c authority existing : known H f → valid c →
  ∃ o f1, known H f1 ∧ fl_files f1 = fl_files f ∧ (existing = None → o = fl_files f !! ag_agent_name c) ∧
    ((∃ e, save_locked c authority existing f = (Err e, f) ∨ save_locked c authority existing f = (Err e, f1)) ∨
     (save_locked c authority existing f = (Ok c, with_saved f1 c) ∧
      (authority = false → ∀ x, o = Some x → ag_authority x = ag_authority c))).
Proof.
  intros Hk V.
  assert (∃ o f1, (match existing with Some e => mret (Some e) | None => get_locked (ag_agent_name c) end : Fl _) f = (Ok o, f1) ∧
    known H f1 ∧ fl_files f1 = fl_files f ∧ (existing = None → o = fl_files f !! ag_agent_name c)) as (o & f1 & Eo & Hk1 & Ef & Ho).
  { destruct existing as [e|]; [by exists (Some e), f|].
    destruct (get_at_known H f _ _ Hk (valid_name c V)) as (f1 & E & ? & ?). by exists (fl_files f !! ag_agent_name c), f1. }
  exists o, f1. split_and!; [done..|].
  unfold save_locked. destruct (spec_for (ag_agent_name c)) as [spec|e] eqn:Es; [|left; exists e; by left].
  rewrite (st_lift_bind _ _ _ spec eq_refl), (st_bind_ok _ _ _ _ _ Eo).
  set (guard := (match o with Some x => _ | None => _ end : Fl unit)).
  assert ((∃ e, guard f1 = (Err e, f1)) ∨
          guard f1 = (Ok tt, f1) ∧ (authority = false → ∀ x, o = Some x → ag_authority x = ag_authority c)) as [[e Hg]|[Hg Ha]].
  { unfold guard. destruct o as [x|]; [|by right].
    unfold st_lift, raise_if. destruct (negb authority && negb (bool_decide (changed_authority_fields (ag_authority x) (ag_authority c) = [])))
      eqn:Eb; [left; by eexists|right]. split; [done|]. intros -> y [= <-]. apply andb_false_iff in Eb as [Eb|Eb]; [done|].
    by apply negb_false_iff, bool_decide_eq_true, changed_nil in Eb. }
  - left. exists e. right. by rewrite (st_bind_err _ _ _ _ _ Hg).
  - right. split; [|done]. by rewrite (st_bind_ok _ _ _ _ _ Hg).
Qed.
Lemma save_known H f c authority existing : known H f → joins H f c →
  ∃ H', H ⊆ H' ∧ known H' (save_locked c authority existing f).2 ∧
        ∀ a, (save_locked c authority existing f).1 = Ok a → a = c ∧ c ∈ H'.
Proof.
  intros Hk Hj. pose proof Hj as (V & _).
  destruct (save_cases H f c authority existing Hk V) as (o & f1 & Hk1 & Ef & _ & [(e & [ -> | -> ])|[-> _]]); [by exists H..|].
  exists (c :: H). split; [intros ? ?; by right|]. split.
  - apply known_save; [done|]. destruct Hj as (J1 & J2 & J3). split_and!; rewrite ?Ef; done.
  - intros a [= <-]. by split; [|left].
Qed.
Lemma fits_save H f c authority existing (Hk : known H f) (Hj : joins H f c) (Q : list AgentRuntime → AgentRuntime → Prop) :
  (∀ H', H ⊆ H' → c ∈ H' → Q H' c) →
  ∃ H', H ⊆ H' ∧ known H' (save_locked c authority existing f).2 ∧ ∀ a, (save_locked c authority existing f).1 = Ok a → Q H' a.
Proof.
  intros HQ. destruct (save_known H f c authority existing Hk Hj) as (H' & Hs & Hk' & Ha). exists H'. split_and!; [done..|].
  intros a Hr. destruct (Ha a Hr) as [-> Hin]. by apply HQ.
Qed.
Lemma known_current H f r (Hk : known H f) (Hr : r ∈ H) :
  ∃ e, fl_files f !! ag_agent_name r = Some e ∧ e ∈ H ∧ valid e ∧ ag_agent_name e = ag_agent_name r ∧ gen r ≤ gen e.
Proof.
  destruct Hk as (K1 & K2 & K3 & K4). destruct (K3 r Hr) as (_ & e & He & Hg). destruct (K1 _ _ He) as [N I].
  exists e. split_and!; [done|done|by apply K3|done|done].
Qed.
Lemma merged_derived (e c r m : AgentRuntime) : valid e → ag_agent_name e = ag_agent_name c → derived c r → gen r ≤ gen e →
  merge_stale_authority_candidate e c = Ok m → derived m r ∧ gen e ≤ gen m ∨ derived m e.
Proof.
  intros Ve En (C1 & C2 & C3 & C4) Hge. unfold merge_stale_authority_candidate. fold (gen e) (gen c).
  destruct ((gen e <=? gen c) || (gen e <=? 0)) eqn:Eg.
  - intros [= <-]. left. split; [done|]. pose proof (gen_nonneg c). lia.
  - intros Hm. right. pose proof (post_init_valid _ _ Hm) as Vm. destruct (valid_windows e Ve).
    destruct (post_init_binding _ _ Hm) as (N & G & B); [by apply (valid_name e)|done..|]. split_and!; [done|done|by left|done].
Qed.
Lemma fits_upsert_authority H c r : r ∈ H → derived c r → fits H (upsert_authority c) saved.
Proof.
  intros Hr Hc f Hf. destruct (known_current H f r Hf Hr) as (e & He & Ie & Ve & Ne & Ge). pose proof Hc as (C1 & C2 & C3 & C4).
  destruct (get_at_known H f _ _ Hf (valid_name c C4)) as (f1 & E1 & Hf1 & Ef). unfold upsert_authority.
  rewrite (st_bind_ok _ _ _ _ _ E1), C1, He.
  destruct (merge_stale_authority_candidate e c) as [m|x] eqn:Em; [|by exists H].
  rewrite (st_lift_bind _ _ _ m eq_refl).
  apply merged_derived with (r := r) in Em; [|done|by rewrite Ne|done|done].
  apply fits_save; [done| |by unfold saved].
  destruct Em as [[Dm Gm]|Dm].
  - apply (derived_joins H f1 m r e); [done..|rewrite Ef; destruct Dm as (-> & _); done|done].
  - apply (derived_joins H f1 m e e); [done..|rewrite Ef; destruct Dm as (-> & _); by rewrite Ne|]. destruct Dm as (_ & -> & _). lia.
Qed.
(** What changes no authority. *)
Lemma fits_upsert H c r : r ∈ H → derived c r → fits H (upsert c) saved.
Proof.
  intros Hr Hc f Hf. destruct (known_current H f r Hf Hr) as (e & He & Ie & Ve & Ne & Ge). pose proof Hc as (C1 & C2 & C3 & C4).
  destruct (save_cases H f c false None Hf C4) as (o & f1 & Hf1 & Ef & Ho & Hcases). unfold upsert.
  destruct Hcases as [(x & [ -> | -> ])|[-> Ha]]; [by exists H..|]. rewrite C1, He in Ho.
  specialize (Ha eq_refl e (Ho eq_refl)).
  assert (derived c e) as De.
  { split_and!; [by rewrite <- Ha|unfold gen; by rewrite <- Ha|left; unfold binding_of; by rewrite <- Ha|done]. }
  assert (joins H f1 c) as Hj.
  { apply (derived_joins H f1 c e e); [done..|rewrite Ef, C1; done|]. destruct De as (_ & -> & _). lia. }
  exists (c :: H). split; [intros ? ?; by right|]. split; [by apply known_save|]. intros a [= <-]. by left.
Qed.
Lemma fits_remove H name : fits H (remove name) found.
Proof.
  unfold remove. eapply fits_bind; [apply fits_get|]. intros H1 [r|] _ Hr; [|by apply fits_ret].
  specialize (Hr r eq_refl). eapply (fits_bind _ _ _ (λ H' c, r ∈ H' ∧ derived c r)).
  - intros f Hf. exists H1. split_and!; [done..|]. intros c Hc. split; [done|]. apply stopped_derived; [|done].
    destruct Hf as (_ & _ & K3 & _). by apply K3.
  - intros H2 c Hs [Hr2 Hc]. eapply fits_bind; [by eapply fits_upsert_authority|]. intros H3 s _ Hin. apply fits_ret.
    by intros x [= <-].
Qed.

(** *** Attaching *)
Hypothesis specs_named : ∀ n spec, (n, spec) ∈ fc_agents → as_name spec = n.
Lemma spec_for_name name spec : spec_for name = Ok spec → normalize_agent_name name = Ok (as_name spec).
Proof using specs_named.
  unfold spec_for. intros (n & Hn & H)%result_bind_Ok_inv.
  destruct (list_find _ fc_agents) as [[i [k s]]|] eqn:Ef; [|done]. injection H as ->.
  apply list_find_Some in Ef as (Hi & Hk & _). cbn in Hk. rewrite Hn. f_equal. symmetry. rewrite <- Hk. apply specs_named. by eapply list_elem_of_lookup_2.
Qed.
Lemma resolved_derived o c c' : valid c → resolved_mount_attempt_runtime o c = Ok c' → derived c' c.
Proof.
  intros V. unfold resolved_mount_attempt_runtime. intros H.
  repeat case_bool_decide; repeat case_match; (by injection H as <-; apply derived_refl) || by eapply replace_derived.
Qed.
Lemma joins_derived H f (c r : AgentRuntime) : derived c r → joins H f r → joins H f c.
Proof.
  intros (C1 & C2 & C3 & C4) (J1 & J2 & J3). split_and!; [done|intros e; rewrite C1, C2; apply J2|].
  intros h Hh En Eg Hp. apply (same_binding_keeps h r c); [|done]. apply J3; [done|by rewrite <- C1|lia|lia].
Qed.
Lemma attached_joins H f name spec pid ts a c c' : known H f → normalize_agent_name name = Ok (as_name spec) →
  runtime_post_init (attached_runtime (fl_files f !! as_name spec) spec pid ts a) = Ok c →
  resolved_mount_attempt_runtime (fl_files f !! as_name spec) c = Ok c' →
  joins H f c' ∧ ag_agent_name c' = as_name spec.
Proof.
  intros Hk Hn Hc Hc'. pose proof (post_init_valid _ _ Hc) as V. pose proof (resolved_derived _ _ _ V Hc') as D.
  pose proof D as (D1 & _ & D3 & _). set (o := fl_files f !! as_name spec) in *.
  assert (Ho : ∀ e, o = Some e → ag_agent_name (ag_authority e) = as_name spec ∧ valid e ∧ e ∈ H).
  { intros e He. destruct Hk as (K1 & _ & K3 & _). destruct (K1 _ _ He) as [N I]. by split_and!; [|apply K3|]. }
  assert (ag_agent_name (attached_runtime o spec pid ts a) = as_name spec) as N0 by (apply attached_name; [done|intros e He; by apply Ho]).
  pose proof Hc as (n & Hn1 & _ & Ec)%post_init_inv. rewrite N0, (normalize_agent_name_idem' _ _ Hn) in Hn1. injection Hn1 as <-.
  assert (ag_agent_name c = as_name spec) as N1 by (by rewrite Ec).
  assert (gen c = gen (attached_runtime o spec pid ts a)) as G1 by (by rewrite Ec).
  split; [|by rewrite D1]. apply (joins_derived H f c' c D).
  split_and!; [done| |].
  - rewrite N1. fold o. intros e He. rewrite G1, He. destruct (attached_generation e spec pid ts a) as [?|[? _]]; lia.
  - intros h Hh En Eg Hp. rewrite N1 in En. destruct (known_current H f h Hk Hh) as (e & He & Ie & Ve & _ & Ge).
    rewrite En in He. fold o in He. rewrite He in *. destruct (attached_generation e spec pid ts a) as [?|[G B]]; [lia|].
    assert (same_binding h e) as Hhe.
    { destruct Hk as (_ & _ & _ & K4). apply K4; [done|done| |lia|lia]. rewrite En. symmetry. by apply Ho. }
    destruct (valid_windows e Ve) as [W1 W2].
    set (c0 := attached_runtime (Some e) spec pid ts a) in *.
    assert (ag_tmux_window_name c0 = ag_tmux_window_name e) as B1 by exact (f_equal bd_tmux_window_name B).
    assert (ag_tmux_window_id c0 = ag_tmux_window_id e) as B2 by exact (f_equal bd_tmux_window_id B).
    destruct (post_init_binding _ _ Hc) as (_ & _ & B3); [by rewrite N0, (normalize_agent_name_idem' _ _ Hn)|by rewrite B1|by rewrite B2|].
    apply (same_binding_keeps h e c); [done|]. left. by rewrite B3.
Qed.
Lemma fits_upsert_joins H f c : known H f → joins H f c → ∃ H', H ⊆ H' ∧ known H' (upsert_authority c f).2 ∧
  ∀ a, (upsert_authority c f).1 = Ok a → a = c ∧ c ∈ H'.
Proof.
  intros Hk Hj. pose proof Hj as (V & J2 & J3). destruct (get_at_known H f _ _ Hk (valid_name c V)) as (f1 & E1 & Hf1 & Ef).
  unfold upsert_authority. rewrite (st_bind_ok _ _ _ _ _ E1).
  assert ((match fl_files f !! ag_agent_name c with Some e => st_lift (merge_stale_authority_candidate e c) | None => mret c end : Fl _) f1
    = (Ok c, f1)) as Em.
  { destruct (fl_files f !! ag_agent_name c) as [e|] eqn:He; [|done]. specialize (J2 e eq_refl).
    unfold merge_stale_authority_candidate. fold (gen e) (gen c). by replace (gen e <=? gen c) with true by lia. }
  rewrite (st_bind_ok _ _ _ _ _ Em). apply save_known; [done|]. split_and!; rewrite ?Ef; done.
Qed.
Lemma fits_attach H generation a : fits H (attach generation a) saved.
Proof using specs_named.
  intros f Hf. unfold attach, attach_runtime. set (a' := with_generation a generation).
  destruct (spec_for (at_agent_name a')) as [spec|x] eqn:Es; [|by exists H].
  rewrite (st_lift_bind _ _ _ spec eq_refl). pose proof (spec_for_name _ _ Es) as Hn.
  destruct (get_at_known H f _ _ Hf Hn) as (f1 & E1 & Hf1 & Ef). unfold get. rewrite (st_bind_ok _ _ _ _ _ E1), <- Ef.
  set (f2 := (fl_now f1).2). assert (fl_now f1 = (Ok (clock_at (fl_ticks f1)), f2)) as E2 by done.
  assert (known H f2) as Hf2 by done. rewrite (st_bind_ok _ _ _ _ _ E2). change (fl_files f1) with (fl_files f2).
  match goal with |- context [runtime_post_init ?c0] => destruct (runtime_post_init c0) as [c|x] eqn:Ec end; [|by exists H].
  rewrite (st_lift_bind _ _ _ c eq_refl).
  destruct (resolved_mount_attempt_runtime (fl_files f2 !! as_name spec) c) as [c'|x] eqn:Ec'; [|by exists H].
  rewrite (st_lift_bind _ _ _ c' eq_refl).
  destruct (attached_joins H f2 _ spec _ _ a' c c' Hf2 Hn Ec Ec') as [Hj Nc].
  destruct (fits_upsert_joins H f2 c' Hf2 Hj) as (H' & Hs & Hk' & Ha). exists H'. split_and!; [done..|].
  intros r Hr. by destruct (Ha r Hr) as [-> ?].
Qed.
End registry.

(** ** The service and the supervisor *)
Section supervised.
Context `{HClock : Clock} `{HLib : CompletionLib} `{HConfig : FleetConfig} `{HIds : FullUuids} `{HProviders : ProviderWorld}
  `{HWorld : SupervisionWorld} (generation : option Z).
Hypothesis specs_named : ∀ n spec, (n, spec) ∈ fc_agents → as_name spec = n.

Definition anything {A} (H : list AgentRuntime) (a : A) : Prop := True.
Lemma fits_then {A B} H (m : Fl A) (k : A → Fl B) R :
  fits H m anything → (∀ H' a, H ⊆ H' → fits H' (k a) R) → fits H (m ≫= k) R.
Proof. intros Hm Hk. eapply fits_bind; [exact Hm|]. intros H' a Hs _. by apply Hk. Qed.
Lemma known_valid H f r : known H f → r ∈ H → valid r.
Proof. intros (_ & _ & K3 & _) Hr. by apply K3. Qed.
(** Making a record of [r] with another state. *)
Lemma fits_replace H (r : AgentRuntime) us : r ∈ H → fits H (st_lift (replace r us)) (λ H' c, r ∈ H' ∧ derived c r).
Proof.
  intros Hr f Hf. exists H. split_and!; [done..|]. intros c Hc. split; [done|]. apply (replace_derived r us); [|done].
  by apply (known_valid H f).
Qed.
Lemma fits_replace_save H (r : AgentRuntime) us save :
  r ∈ H → (∀ H' c, r ∈ H' → derived c r → fits H' (save c) saved) →
  fits H (candidate ← st_lift (replace r us); if bool_decide (candidate = r) then mret r else save candidate) saved.
Proof.
  intros Hr Hsave. eapply fits_bind; [by apply fits_replace|]. intros H' c _ [Hr' Hc].
  case_bool_decide; [by apply fits_ret|by apply Hsave].
Qed.
Lemma fits_replace_upsert H (r : AgentRuntime) us : r ∈ H → fits H (candidate ← st_lift (replace r us); upsert_authority candidate) saved.
Proof. intros Hr. eapply fits_bind; [by apply fits_replace|]. intros H' c _ [Hr' Hc]. by eapply fits_upsert_authority. Qed.
Lemma fits_mutate H (r : AgentRuntime) overrides : r ∈ H → fits H (mutate_runtime_authority generation r overrides) saved.
Proof.
  intros Hr. unfold mutate_runtime_authority. eapply fits_bind; [by apply fits_attach|]. intros H' u Hs Hu.
  case_bool_decide; [by apply fits_ret|by apply fits_replace_upsert].
Qed.
Lemma found_default (H : list AgentRuntime) o r : found H o → r ∈ H → default r o ∈ H.
Proof. intros Ho Hr. destruct o as [c|]; [by apply Ho|done]. Qed.
Lemma fits_patch H (r : AgentRuntime) us : r ∈ H → fits H (patch_runtime_state r us) saved.
Proof.
  intros Hr. unfold patch_runtime_state. cbv zeta. eapply fits_then; [by apply fits_lift|]. intros H0 [] Hs0.
  eapply fits_bind; [apply fits_get|]. intros H' o Hs Ho.
  apply fits_replace_save; [apply found_default; [done|by apply Hs, Hs0]|]. intros H2 c Hin Hc. by eapply fits_upsert.
Qed.
Lemma fits_upsert_if_changed H (r : AgentRuntime) us : r ∈ H → fits H (upsert_if_changed r us) saved.
Proof.
  intros Hr. unfold upsert_if_changed. eapply fits_bind; [apply fits_get|]. intros H' o Hs Ho.
  apply fits_replace_save; [apply found_default; [done|by apply Hs]|]. intros H2 c Hin Hc. by eapply fits_upsert_authority.
Qed.
Lemma fits_begin H (r : AgentRuntime) at_ : r ∈ H → fits H (begin_mount_attempt r at_) (λ H' p, p.1 ∈ H').
Proof.
  intros Hr. unfold begin_mount_attempt. eapply (fits_bind _ _ _ anything); [by apply fits_pure|]. intros H1 i Hs _.
  eapply fits_bind; [apply fits_replace, Hs, Hr|]. intros H2 c _ [Hr' Hc].
  eapply fits_bind; [by eapply fits_upsert_authority|]. intros H3 s _ Hin. by apply fits_ret.
Qed.
Definition found_first {B} (H : list AgentRuntime) (p : option AgentRuntime * B) : Prop := found H p.1.
Lemma fits_finalize H name (us : AgentRuntime → list RuntimeUpdate) (attempt : option string) :
  fits H (current ← get name;
          match current with
          | None => mret (None, false)
          | Some c =>
              if negb (bool_decide (ag_mount_attempt_id (ag_authority c) = attempt)) then mret (Some c, false)
              else candidate ← st_lift (replace c (us c)); updated ← upsert_authority candidate; mret (Some updated, true)
          end) found_first.
Proof.
  eapply fits_bind; [apply fits_get|]. intros H1 [c|] _ Hc; [|by apply fits_ret]. specialize (Hc c eq_refl).
  destruct (negb _); [by apply fits_ret; intros x [= <-]|].
  eapply fits_bind; [by apply fits_replace|]. intros H2 d _ [Hr Hd].
  eapply fits_bind; [by eapply fits_upsert_authority|]. intros H3 s _ Hin. apply fits_ret. by intros x [= <-].
Qed.
Lemma fits_success H name attempt at_ count : fits H (finalize_mount_attempt_success name attempt at_ count) found_first.
Proof. apply fits_finalize. Qed.
Lemma fits_failure H name attempt at_ state health rec count reason life :
  fits H (finalize_mount_attempt_failure name attempt at_ state health rec count reason life) found_first.
Proof. apply (fits_finalize H name (λ _, _)). Qed.
Lemma fits_adopt H (r : AgentRuntime) g : r ∈ H → fits H (adopt_runtime_authority generation r g) saved.
Proof. apply fits_mutate. Qed.
Lemma fits_refresh H name recover : fits H (refresh_provider_binding generation name recover) found.
Proof using specs_named.
  unfold refresh_provider_binding. eapply fits_bind; [apply fits_get|]. intros H1 [r|] _ Hr; [|by apply fits_ret].
  specialize (Hr r eq_refl). assert (∀ H', H1 ⊆ H' → found H' (Some r)) as Hf by (intros H' Hs x [= <-]; by apply Hs).
  destruct (_ || _); [by apply fits_ret, Hf|]. eapply fits_then; [by apply fits_lift|]. intros H2 spec Hs2.
  destruct (negb (pw_bound _)); [by apply fits_ret, Hf|]. cbv zeta. destruct (pw_session _ _) as [session|].
  - destruct (_ && _); [by apply fits_ret, Hf|]. eapply fits_bind; [by apply fits_attach|].
    intros H3 s _ Hin. apply fits_ret. by intros x [= <-].
  - eapply fits_bind; [by apply fits_attach|]. intros H3 s _ Hin. apply fits_ret. by intros x [= <-].
Qed.

(** The functions that mount agents go through the registry as well. *)
Definition mounts_fit (m : option (string → Fl unit)) : Prop := ∀ f arg H, m = Some f → fits H (f arg) anything.
Hypothesis mount_fits : mounts_fit sw_mount_agent.
Hypothesis remount_fits : mounts_fit sw_remount_project.

Lemma fits_anything {A} H (m : Fl A) Q : fits H m Q → fits H m anything.
Proof. intros Hm. by eapply fits_weaken. Qed.
Lemma fits_call H m arg : mounts_fit m → fits H (call_with m arg) anything.
Proof. intros Hm. destruct m as [f|]; [by apply Hm|apply fits_raise]. Qed.
Lemma fits_align H (r : AgentRuntime) : r ∈ H → fits H (align_runtime_authority generation r) saved.
Proof using specs_named.
  intros Hr. unfold align_runtime_authority. eapply (fits_bind _ _ _ saved).
  - destruct (authority_adopt_required r generation); [by apply fits_adopt|by apply fits_ret].
  - intros H' a _ Ha. by apply fits_upsert_if_changed.
Qed.
Lemma fits_resolved H name : fits H (resolved_runtime generation name) found.
Proof using specs_named.
  unfold resolved_runtime. eapply fits_bind; [apply fits_get|]. intros H1 [r|] _ Hr; [|by apply fits_ret].
  eapply fits_bind; [by apply fits_align, Hr|]. intros H2 a _ Ha. apply fits_ret. by intros x [= <-].
Qed.
Lemma fits_busy skip names : ∀ H, fits H (busy_among skip names) anything.
Proof.
  induction names as [|n names IH]; intros H; [by apply fits_ret|]. cbn. eapply fits_bind; [apply fits_get|].
  intros H' [o|] _ _; [|apply IH]. destruct (_ && _); [by apply fits_ret|apply IH].
Qed.
Lemma fits_safe H name : fits H (project_namespace_reflow_safe name) anything.
Proof.
  unfold project_namespace_reflow_safe. destruct sw_remount_project; [|by apply fits_ret].
  destruct (runtime_mode_spec name); [|by apply fits_ret]. destruct (bool_decide _); [|by apply fits_ret].
  eapply fits_then; [apply fits_busy|]. intros. by apply fits_ret.
Qed.
Lemma fits_reflow H r recovered : fits H (should_reflow_project_namespace r recovered) anything.
Proof.
  assert (∀ H' : list AgentRuntime, ∀ g : bool → bool, fits H' (safe ← project_namespace_reflow_safe (ag_agent_name r); mret (g safe)) anything) as Hs.
  { intros H' g. eapply fits_then; [apply fits_safe|]. intros. by apply fits_ret. }
  unfold should_reflow_project_namespace. eapply fits_then.
  - destruct recovered as [r'|]; [|by apply fits_ret]. unfold recovered_replacement_requires_workspace_reflow.
    destruct (negb _); [by apply fits_ret|apply (Hs H (λ safe, safe && _ && _))].
  - intros H' [] _; [by apply fits_ret|]. destruct (_ || _); [by apply fits_ret|apply (Hs H' (λ safe, safe && _))].
Qed.
Lemma fits_reflow_mount H name : fits H (should_reflow_project_mount name) anything.
Proof. unfold should_reflow_project_mount. destruct (negb _); [by apply fits_ret|apply fits_safe]. Qed.
Lemma fits_event H kind name at_ prior health r details : fits H (record_event kind name at_ prior health r details) anything.
Proof. by apply fits_pure. Qed.

(** *** Mounting *)
Lemma fits_starting H name o at_ : found H o → fits H (build_starting_runtime generation name o at_) saved.
Proof using specs_named.
  intros Ho. unfold build_starting_runtime. eapply fits_then; [by apply fits_lift|]. intros H1 spec Hs1. cbv zeta.
  eapply (fits_bind _ _ _ saved).
  - destruct o as [r|]; [|by apply fits_attach].
    destruct (authority_adopt_required r generation); [by apply fits_adopt, Hs1, Ho|by apply fits_ret, Hs1, Ho].
  - intros H2 current _ Hc. eapply fits_bind; [by apply fits_replace|]. intros H3 c Hs3 [Hin Hd].
    eapply (fits_bind _ _ _ saved).
    + case_bool_decide; [by apply fits_ret|by eapply fits_upsert_authority].
    + intros H4 u _ Hu. eapply fits_bind; [by apply fits_begin|]. intros H5 p _ Hp. by apply fits_ret.
Qed.
Lemma fits_mount_or_reflow H name : fits H (mount_or_reflow name) anything.
Proof using mount_fits remount_fits.
  unfold mount_or_reflow. eapply fits_then; [apply fits_reflow_mount|]. intros H' [] _; by apply fits_call.
Qed.
Lemma fits_persist H (r : AgentRuntime) name at_ prior count reason : r ∈ H → fits H (persist_mount_failure r name at_ prior count reason) anything.
Proof.
  intros Hr. unfold persist_mount_failure. eapply fits_bind; [by apply fits_upsert_if_changed|]. intros H' c _ _.
  eapply fits_then; [apply fits_event|]. intros. by apply fits_ret.
Qed.
Lemma fits_superseded H (r : AgentRuntime) name at_ prior attempt :
  r ∈ H → fits H (mount_superseded generation r name at_ prior attempt) anything.
Proof using specs_named.
  intros Hr. unfold mount_superseded. eapply fits_bind; [by apply fits_align|]. intros H1 a _ Ha.
  eapply (fits_bind _ _ _ saved).
  - unfold stabilize_superseded_runtime. destruct (_ && _); [by apply fits_patch|by apply fits_ret].
  - intros H2 s _ _. eapply fits_then; [apply fits_event|]. intros. by apply fits_ret.
Qed.
Lemma fits_raised H o (starting : AgentRuntime) name at_ prior count e :
  starting ∈ H → fits H (mount_raised generation o starting name at_ prior count e) anything.
Proof using specs_named.
  intros Hs. unfold mount_raised. eapply (fits_bind _ _ _ found_first); [by destruct e; apply fits_failure|].
  intros H1 [fin applied] Hs1 Hf. unfold found_first in Hf. cbn in Hf. assert (starting ∈ H1) as Hst by (by apply Hs1).
  assert (fits H1 (found ← match fin with Some x => mret (Some x) | None => get name end;
    mount_superseded generation (default starting found) name at_ prior (ag_mount_attempt_id starting)) anything) as Hsup.
  { eapply (fits_bind _ _ _ found); [destruct fin; [by apply fits_ret|apply fits_get]|]. intros H2 o2 Hs2 Ho2.
    apply fits_superseded, found_default; [done|by apply Hs2]. }
  destruct fin as [r|]; [|exact Hsup]. destruct applied; [|exact Hsup].
  eapply fits_then; [apply fits_event|]. intros. by apply fits_ret.
Qed.
Lemma fits_unhealthy H (starting : AgentRuntime) o name at_ prior count health reason life :
  starting ∈ H → found H o → fits H (mount_unhealthy generation starting o name at_ prior count health reason life) anything.
Proof using specs_named.
  intros Hs Ho. unfold mount_unhealthy. cbv zeta. eapply fits_bind; [apply fits_failure|].
  intros H1 [fin applied] Hs1 Hf. unfold found_first in Hf. cbn in Hf.
  assert (fits H1 (mount_superseded generation (default (default starting o) fin) name at_ prior (ag_mount_attempt_id starting)) anything) as Hsup.
  { apply fits_superseded, found_default; [done|]. apply Hs1, found_default; done. }
  destruct fin as [r|]; [|exact Hsup]. destruct applied; [|exact Hsup]. by apply fits_persist, Hf.
Qed.
Lemma fits_returned H (starting : AgentRuntime) name at_ prior count :
  starting ∈ H → fits H (mount_returned generation starting name at_ prior count) anything.
Proof using specs_named.
  intros Hs. unfold mount_returned. cbv zeta. eapply fits_bind; [apply fits_get|]. intros H1 [r|] Hs1 Hr;
    [|by apply fits_unhealthy; [apply Hs1|]].
  eapply fits_bind; [by apply fits_align, Hr|]. intros H2 a Hs2 Ha.
  destruct (negb _); [apply fits_unhealthy; [by apply Hs2, Hs1|by intros x [= <-]]|].
  eapply fits_bind; [apply fits_success|]. intros H3 [fin applied] Hs3 Hf. unfold found_first in Hf. cbn in Hf.
  assert (fits H3 (mount_superseded generation (default a fin) name at_ prior (ag_mount_attempt_id starting)) anything) as Hsup.
  { apply fits_superseded, found_default; [done|by apply Hs3]. }
  destruct fin as [m|]; [|exact Hsup]. destruct applied; [|exact Hsup].
  eapply fits_then; [apply fits_event|]. intros. by apply fits_ret.
Qed.
Lemma fits_ensure H name o : found H o → fits H (ensure_mounted generation name o) anything.
Proof using mount_fits remount_fits specs_named.
  intros Ho. unfold ensure_mounted. cbv zeta. destruct (_ && _); [by apply fits_ret|].
  eapply fits_then; [by apply fits_pure|]. intros H1 now Hs1. eapply fits_then; [by destruct o; [apply fits_lift|apply fits_ret]|].
  intros H2 [] Hs2; [by apply fits_ret|]. unfold mount_attempt.
  eapply fits_bind; [apply fits_starting; intros r Hr; by apply Hs2, Hs1, Ho|]. intros H3 starting Hs3 Hst. cbv zeta.
  eapply fits_then; [apply fits_event|]. intros H4 _ Hs4. eapply fits_then.
  - apply fits_try; [|intros; by apply fits_ret]. eapply fits_then; [apply fits_mount_or_reflow|]. intros. by apply fits_ret.
  - intros H5 [e|] Hs5; [by apply fits_raised, Hs5, Hs4|by apply fits_returned, Hs5, Hs4].
Qed.

(** *** Recovering *)
Lemma fits_remount H name : fits H (remount_for_recovery name) found.
Proof using remount_fits. unfold remount_for_recovery. eapply fits_then; [by apply fits_call|]. intros. apply fits_get. Qed.
Lemma fits_action H name r : fits H (attempt_recovery_action generation name r) found.
Proof using remount_fits specs_named.
  unfold attempt_recovery_action. eapply fits_then; [apply fits_reflow|]. intros H1 [] Hs1; [apply fits_remount|].
  eapply fits_bind; [by apply fits_refresh|]. intros H2 [x|] _ Hx; [|by apply fits_ret].
  eapply fits_then; [apply fits_reflow|]. intros H3 [] Hs3; [apply fits_remount|]. apply fits_ret. intros y [= <-]. by apply Hs3, Hx.
Qed.
Lemma fits_mark H (r : AgentRuntime) us {A} (k : AgentRuntime → Fl A) : r ∈ H → (∀ H' c, fits H' (k c) anything) →
  fits H (c ← upsert_if_changed r us; k c) anything.
Proof. intros Hr Hk. eapply fits_bind; [by apply fits_upsert_if_changed|]. intros. apply Hk. Qed.
Lemma fits_recover H name (r : AgentRuntime) : r ∈ H → fits H (recover_runtime generation name r) anything.
Proof using remount_fits specs_named.
  intros Hr. unfold recover_runtime. eapply fits_then; [by apply fits_pure|]. intros H1 now Hs1.
  eapply fits_then; [by apply fits_lift|]. intros H2 [] Hs2; [by apply fits_ret|]. unfold recovery_attempt. cbv zeta.
  eapply (fits_bind _ _ _ saved).
  { unfold start_recovery. eapply fits_bind; [apply fits_upsert_if_changed, Hs2, Hs1, Hr|]. intros H3 c Hs3 Hc.
    eapply fits_then; [apply fits_event|]. intros H4 _ Hs4. by apply fits_ret, Hs4. }
  intros H3 rec Hs3 Hrec. eapply (fits_bind _ _ _ found_first).
  { apply fits_try.
    - eapply fits_bind; [apply fits_action|]. intros H4 o _ Ho. by apply fits_ret.
    - intros H4 e Hs4. eapply fits_bind; [apply fits_get|]. intros H5 o Hs5 Ho. apply fits_ret. intros x [= <-].
      apply found_default; [done|]. by apply Hs5, Hs4. }
  assert (∀ H' (c : AgentRuntime) (m : Fl unit) (v : AgentRuntime → string), fits H' m anything → fits H' (_ ← m; mret (v c)) anything) as Hend.
  { intros H' c m v Hm. eapply fits_then; [exact Hm|]. intros. by apply fits_ret. }
  intros H4 [[x|] reason] Hs4 Hx; unfold found_first in Hx; cbn in Hx.
  - eapply fits_bind; [by apply fits_align, Hx|]. intros H5 a _ Ha.
    destruct (bool_decide _); (apply fits_mark; [done|]; intros; apply (Hend _ _ _ (λ c, ag_health c)), fits_event).
  - unfold mark_recovery_missing. apply fits_mark; [by apply Hs4|]. intros H5 c. eapply fits_then; [apply fits_event|].
    intros. by apply fits_ret.
Qed.

(** *** The pass *)
Lemma fits_cmd H : fits H reconcile_cmd_slot anything.
Proof using remount_fits.
  assert (fits H request_cmd_workspace_reflow anything) as Hr.
  { unfold request_cmd_workspace_reflow. destruct sw_remount_project as [f|] eqn:Ef; [|by apply fits_ret].
    eapply fits_then; [apply fits_busy|]. intros H1 [] Hs1; [by apply fits_ret|].
    eapply fits_then; [by apply remount_fits|]. intros. by apply fits_ret. }
  unfold reconcile_cmd_slot. destruct (negb _); [by apply fits_ret|].
  destruct sw_cmd_probe; try by apply fits_ret. all: eapply fits_then; [exact Hr|]; intros; by apply fits_ret.
Qed.
Lemma fits_reconcile_agent H name : fits H (reconcile_agent generation name) anything.
Proof using mount_fits remount_fits specs_named.
  unfold reconcile_agent. eapply fits_bind; [by apply fits_resolved|]. intros H1 [r|] Hs1 Hr.
  - specialize (Hr r eq_refl). assert (∀ H', H1 ⊆ H' → found H' (Some r)) as Hf by (intros H' Hs x [= <-]; by apply Hs).
    destruct (runtime_requires_mount r); [by apply fits_ensure, Hf|]. eapply fits_then.
    { unfold runtime_requires_mount_from_foreign_pane. destruct (_ || _); [by apply fits_ret|].
      eapply fits_then; [apply fits_reflow|]. intros. by apply fits_ret. }
    intros H2 [] Hs2; [by apply fits_ensure, Hf|]. eapply fits_then.
    { unfold runtime_requires_recovery. eapply fits_then; [apply fits_reflow|]. intros. by apply fits_ret. }
    intros H3 [] Hs3; cbn [negb]; [by apply fits_recover, Hs3, Hs2|by apply fits_ret].
  - destruct (negb _); [by apply fits_ret|by apply fits_ensure].
Qed.
Lemma fits_reconcile_once H suspended : fits H (reconcile_once generation suspended) anything.
Proof using mount_fits remount_fits specs_named.
  unfold reconcile_once. destruct suspended; [by apply fits_ret|]. eapply fits_then; [apply fits_cmd|]. intros H1 _ _.
  generalize (fc_agents.*1). intros names. revert H1. induction names as [|n names IH]; intros H1; [by apply fits_ret|]. cbn.
  eapply fits_then; [apply fits_reconcile_agent|]. intros H2 s _. eapply fits_then; [apply IH|]. intros. by apply fits_ret.
Qed.
End supervised.

(** ** Whatever happens to the runtimes *)
Section history.
Context `{HClock : Clock} `{HLib : CompletionLib} `{HConfig : FleetConfig} `{HIds : FullUuids} `{HProviders : ProviderWorld}
  `{HWorld : SupervisionWorld} (generation : option Z).

(** What is done to the runtimes: the service's operations, on records that were
    seen before, and passes of the supervisor. *)
Inductive FleetOp :=
  | Op_attach (a : AttachArgs)
  | Op_attach_attempt (attempt_id : string) (a : AttachArgs)
  | Op_adopt (r : AgentRuntime) (g : option Z)
  | Op_patch (r : AgentRuntime) (us : list RuntimeUpdate)
  | Op_begin (r : AgentRuntime) (attempted_at : string)
  | Op_success (name : string) (attempt_id : option string) (attempted_at : string) (restart_count : Z)
  | Op_failure (name : string) (attempt_id : option string) (attempted_at : string) (state : AgentState) (health reconcile : string)
      (restart_count : Z) (reason : string) (lifecycle : option string)
  | Op_refresh (name : string) (recover : bool)
  | Op_remove (name : string).
Definition run_op (op : FleetOp) : Fleet → Fleet :=
  match op with
  | Op_attach a => st_exec (attach generation a)
  | Op_attach_attempt i a => st_exec (attach_mount_attempt_authority generation i a)
  | Op_adopt r g => st_exec (adopt_runtime_authority generation r g)
  | Op_patch r us => st_exec (patch_runtime_state r us)
  | Op_begin r t => st_exec (begin_mount_attempt r t)
  | Op_success n i t c => st_exec (finalize_mount_attempt_success n i t c)
  | Op_failure n i t s h rec c why l => st_exec (finalize_mount_attempt_failure n i t s h rec c why l)
  | Op_refresh n recover => st_exec (refresh_provider_binding generation n recover)
  | Op_remove n => st_exec (remove n)
  end.
(** The record an operation starts from. *)
Definition op_record (op : FleetOp) : option AgentRuntime :=
  match op with Op_adopt r _ | Op_patch r _ | Op_begin r _ => Some r | _ => None end.
Definition recorded (f : Fleet) : list AgentRuntime := (map_to_list (fl_files f)).*2.
(** The records seen so far, and the fleet. *)
Abbreviation History := (list AgentRuntime * Fleet)%type.
Inductive service_step : History → History → Prop :=
  | service_op op H f : found H (op_record op) → service_step (H, f) (recorded (run_op op f) ++ H, run_op op f)
  | service_waits H f f' : fl_files f' = fl_files f → fl_cache f' = fl_cache f → service_step (H, f) (H, f').
(** A function that mounts agents does so with the service. *)
Definition uses_service (m : option (string → Fl unit)) : Prop :=
  ∀ mount arg H f, m = Some mount → ∃ H', rtc service_step (H, f) (H', st_exec (mount arg) f).
Inductive fleet_step : History → History → Prop :=
  | fleet_service h h' : service_step h h' → fleet_step h h'
  | fleet_pass suspended H f :
      fleet_step (H, f) (recorded (st_exec (reconcile_once generation suspended) f) ++ H, st_exec (reconcile_once generation suspended) f).
(** The daemon starts with the files it finds. *)
Definition fresh (f : Fleet) : Prop :=
  fl_cache f = ∅ ∧ ∀ n (r : AgentRuntime), fl_files f !! n = Some r → ag_agent_name r = n ∧ valid r.
Definition seen (f0 : Fleet) (H : list AgentRuntime) (f : Fleet) : Prop := rtc fleet_step (recorded f0, f0) (H, f).

Lemma elem_of_recorded f r : r ∈ recorded f ↔ ∃ n, fl_files f !! n = Some r.
Proof.
  unfold recorded. rewrite list_elem_of_fmap. split.
  - intros ([n x] & -> & Hx%elem_of_map_to_list). by exists n.
  - intros [n Hn]. exists (n, r). by rewrite elem_of_map_to_list.
Qed.
Lemma known_fresh f : fresh f → known (recorded f) f.
Proof.
  intros [Hc Hf]. split_and!.
  - intros n r Hr. split; [by apply Hf|]. apply elem_of_recorded. by exists n.
  - intros n r Hr. by rewrite Hc in Hr.
  - intros r [n Hn]%elem_of_recorded. destruct (Hf n r Hn) as [<- V]. split; [done|]. by exists r.
  - intros r1 r2 [n1 H1]%elem_of_recorded [n2 H2]%elem_of_recorded En _ _. left.
    destruct (Hf _ _ H1) as [E1 _], (Hf _ _ H2) as [E2 _]. rewrite E1, E2 in En. subst n2. rewrite H1 in H2. by injection H2 as ->.
Qed.
Lemma known_shrink H H' f : known H' f → H ⊆ H' → known (recorded f ++ H) f.
Proof.
  intros (K1 & K2 & K3 & K4) Hs.
  assert (∀ r, r ∈ recorded f ++ H → r ∈ H') as Hin.
  { intros r [[n Hn]%elem_of_recorded|Hr]%elem_of_app; [by destruct (K1 n r Hn)|by apply Hs]. }
  split_and!; [|done|intros r Hr; by apply K3, Hin|intros r1 r2 H1 H2; apply K4; by apply Hin].
  intros n r Hr. split; [by apply K1|]. apply elem_of_app. left. apply elem_of_recorded. by exists n.
Qed.
Lemma known_quiet H f f' : fl_files f' = fl_files f → fl_cache f' = fl_cache f → known H f → known H f'.
Proof. intros E1 E2. unfold known. by rewrite E1, E2. Qed.

Hypothesis specs_named : ∀ n spec, (n, spec) ∈ fc_agents → as_name spec = n.
Lemma fits_attach_attempt H i a : fits H (attach_mount_attempt_authority generation i a) anything.
Proof using specs_named.
  unfold attach_mount_attempt_authority. eapply fits_then; [eapply fits_anything, fits_get|]. intros H1 c _.
  destruct (negb _); [by apply fits_ret|]. eapply fits_then; [by eapply fits_anything, fits_attach|]. intros H2 r _.
  eapply fits_then; [eapply fits_anything, fits_get|]. intros H3 x _. by destruct (negb _); apply fits_ret.
Qed.
Lemma fits_exec {A} H (m : Fl A) Q f : fits H m Q → known H f → known (recorded (st_exec m f) ++ H) (st_exec m f).
Proof. intros Hm Hf. destruct (Hm f Hf) as (H' & Hs & Hk & _). by eapply known_shrink. Qed.
Lemma known_op H f op : found H (op_record op) → known H f → known (recorded (run_op op f) ++ H) (run_op op f).
Proof using specs_named.
  intros Ho Hf. destruct op as [a|i a|r g|r us|r t|n i t c|n i t s h rec c why l|n b|n]; cbn in *; (eapply fits_exec; [|exact Hf]).
  - by apply fits_attach.
  - by apply fits_attach_attempt.
  - by apply fits_adopt, Ho.
  - by apply fits_patch, Ho.
  - by apply fits_begin, Ho.
  - apply fits_success.
  - apply fits_failure.
  - by apply fits_refresh.
  - apply fits_remove.
Qed.
Lemma known_service h h' : service_step h h' → known h.1 h.2 → h.1 ⊆ h'.1 ∧ known h'.1 h'.2.
Proof using specs_named.
  intros [op H f Ho|H f f' E1 E2] Hk; cbn in *.
  - split; [by intros r Hr; apply elem_of_app; right|by apply known_op].
  - split; [done|by eapply known_quiet].
Qed.
Lemma known_services h h' : rtc service_step h h' → known h.1 h.2 → h.1 ⊆ h'.1 ∧ known h'.1 h'.2.
Proof using specs_named.
  induction 1 as [h|h h1 h2 Hstep _ IH]; intros Hk; [done|]. destruct (known_service _ _ Hstep Hk) as [S1 K1].
  destruct (IH K1) as [S2 K2]. split; [by etrans|done].
Qed.
Lemma uses_fits m : uses_service m → mounts_fit m.
Proof using specs_named.
  intros Hm f arg H Ef s Hs. destruct (Hm f arg H s Ef) as (H' & Hsteps). destruct (known_services _ _ Hsteps Hs) as [S K].
  by exists H'.
Qed.
Hypothesis mount_uses : uses_service sw_mount_agent.
Hypothesis remount_uses : uses_service sw_remount_project.
Lemma known_seen f0 H f : fresh f0 → seen f0 H f → known H f.
Proof using specs_named mount_uses remount_uses.
  intros H0 Hseen. apply known_fresh in H0. unfold seen in Hseen.
  change (known (H, f).1 (H, f).2). change (known (recorded f0, f0).1 (recorded f0, f0).2) in H0.
  revert H0. induction Hseen as [h|h h1 h2 Hstep _ IH]; intros Hk; [done|]. apply IH. destruct Hstep as [h h' Hs|b K g].
  - by eapply known_service.
  - cbn in *. eapply fits_exec; [|exact Hk]. apply fits_reconcile_once; [done|by apply uses_fits..].
Qed.

(** C9: generations number the bindings of an agent. However attachments,
    patches, mount attempts, refreshes, removals and passes of the supervisor
    follow each other, on records as old as they like, and whatever they raise:
    the generation of an agent's runtime never falls; two records it ever had
    with the same generation are bound to the same process, session and pane,
    unless one of them was left by a removal, which is bound to nothing; and the
    cache agrees with the files. *)
Theorem a_generation_is_one_binding f0 H f : fresh f0 → seen f0 H f →
  (∀ r : AgentRuntime, r ∈ H → ∃ c, fl_files f !! ag_agent_name r = Some c ∧ gen r ≤ gen c) ∧
  (∀ r1 r2 : AgentRuntime, r1 ∈ H → r2 ∈ H → ag_agent_name r1 = ag_agent_name r2 → gen r1 = gen r2 → 0 < gen r1 →
     same_binding r1 r2) ∧
  (∀ n (r : AgentRuntime), fl_cache f !! n = Some r → fl_files f !! n = Some r).
Proof using specs_named mount_uses remount_uses.
  intros H0 Hs. destruct (known_seen f0 H f H0 Hs) as (_ & K2 & K3 & K4). split_and!; [|exact K4|exact K2].
  intros r Hr. by apply K3.
Qed.
End history.

(** ** An agent that moves to another pane *)
Definition one_spec : AgentSpec :=
  mkSpec "alpha" "codex" "." WM_inplace None RM_pane_backed RS_auto PM_manual QP_serial_per_agent None [] [] no_api
    default_provider_profile None [] None [].
Definition one_agent : FleetConfig := {|
  fc_agents := [("alpha", one_spec)]; fc_project_id := "p"; fc_workspace_path := λ name _, "/w/" +:+ name
|}.
Definition still_clock : Clock := λ _, "t".
Definition no_lib : CompletionLib := {| sha256_hexdigest := λ _, ""; fromisoformat := λ _, None |}.
Definition one_uuid : FullUuids := λ _, "u".
Definition no_providers : ProviderWorld := {| pw_bound := λ _, false; pw_session := λ _ _, None; pw_slot := λ _ _, None |}.
Definition no_mounts : SupervisionWorld := {|
  sw_mount_agent := None; sw_remount_project := None; sw_mount_missing := λ _, true; sw_cmd_enabled := false;
  sw_windows_explicit := false; sw_tmux_socket_path := "/s"; sw_resolve_path := Some; sw_cmd_probe := CP_healthy
|}.
Definition pane_args (pane : string) : AttachArgs :=
  mkAttach "alpha" "/w/alpha" "tmux" None (Some ("tmux:" +:+ pane)) None (Some "healthy") None None None None None None None None None
    (Some "/s") None None None None None None None None None None None.
Definition no_fleet : Fleet := mkFleet ∅ ∅ [] 0 0.
Abbreviation one_op := (run_op (HClock := still_clock) (HConfig := one_agent) (HIds := one_uuid) (HProviders := no_providers) (Some 1)).
Definition first_fleet : Fleet := one_op (Op_attach (pane_args "%1")) no_fleet.
Definition second_fleet : Fleet := one_op (Op_attach (pane_args "%2")) first_fleet.
Lemma no_fleet_fresh : fresh no_fleet.
Proof. by split. Qed.
Definition two_bindings : list AgentRuntime := recorded second_fleet ++ recorded first_fleet ++ recorded no_fleet.
Lemma one_named n spec : (n, spec) ∈ @fc_agents one_agent → as_name spec = n.
Proof. intros [[= -> ->]|[]%elem_of_nil]%elem_of_cons. done. Qed.
Lemma two_seen : seen (HClock := still_clock) (HLib := no_lib) (HConfig := one_agent) (HIds := one_uuid) (HProviders := no_providers)
  (HWorld := no_mounts) (Some 1) no_fleet two_bindings second_fleet.
Proof.
  eapply rtc_l; [apply fleet_service, (service_op _ (Op_attach (pane_args "%1"))); done|].
  eapply rtc_l; [apply fleet_service, (service_op _ (Op_attach (pane_args "%2"))); done|]. apply rtc_refl.
Qed.
Lemma a_generation_is_one_binding_witness :
  ((λ r : AgentRuntime, (gen r, ag_pane_id r)) <$> two_bindings) = [(2, Some "%2"); (1, Some "%1")] ∧
  ∀ r : AgentRuntime, r ∈ two_bindings → ∃ c, fl_files second_fleet !! ag_agent_name r = Some c ∧ gen r ≤ gen c.
Proof.
  split; [vm_compute; reflexivity|].
  assert (uses_service (HClock := still_clock) (HConfig := one_agent) (HIds := one_uuid) (HProviders := no_providers) (Some 1) None) as Hno
    by done.
  exact (proj1 (a_generation_is_one_binding (HClock := still_clock) (HLib := no_lib) (HConfig := one_agent) (HIds := one_uuid)
    (HProviders := no_providers) (HWorld := no_mounts) (Some 1) one_named Hno Hno no_fleet two_bindings second_fleet
    no_fleet_fresh two_seen)).
Defined.
