(* ===== verification/SupervisionTheorems.v ===== *)
(** * What a pass of the supervisor does to an agent

    An agent that was stopped on purpose, or whose last attempt is too recent, is
    left alone; a mount that works makes the agent well in one pass; a mount that
    fails is written down and waited for; an attempt that another one has
    overtaken changes nothing. *)
From stdpp Require Import pretty.
From S2P Require Import DaemonTheorems Prelude PyValue Names AgentModels MailboxKernel AgentRuntimes AgentRegistry RuntimeAttach RuntimeService CompletionModels Supervision RuntimeTheorems.
Open Scope string_scope.
Open Scope list_scope.
Open Scope Z_scope.

(** ** Updates that pass the checks *)
Definition good_update (u : RuntimeUpdate) : Prop :=
  match u with
  | U_restart_count n | U_queue_depth n => 0 ≤ n
  | U_daemon_generation g => positive_if_set g = true
  | _ => True
  end.
Definition placed (r : AgentRuntime) : Prop :=
  bool_decide (ag_state r ∈ [AG_idle; AG_busy; AG_degraded]) = true → default "" (ag_workspace_path r) ≠ "".
Definition updated (r : AgentRuntime) (us : list RuntimeUpdate) : AgentRuntime := foldl apply_update r us.
Definition replaced (r : AgentRuntime) (us : list RuntimeUpdate) : AgentRuntime :=
  normalize_runtime_defaults (ag_authority (updated r us)) (ag_fields (updated r us)).
(** The checks but the one of the workspace. *)
Definition numbered (r : AgentRuntime) : Prop :=
  ag_project_id r ≠ "" ∧ 0 ≤ ag_queue_depth r ∧ 0 < ag_binding_generation r ∧ positive_if_set (ag_daemon_generation r) = true ∧
  positive_if_set (ag_workspace_epoch r) = true ∧ 0 ≤ ag_restart_count r ∧ strip (ag_managed_by r) ≠ "".
Lemma require_Ok b msg u : require b msg = Ok u → b = true.
Proof. unfold require. by destruct b. Qed.
Lemma validate_inv r : validate_runtime_fields (ag_authority r) (ag_fields r) = Ok tt → numbered r ∧ placed r.
Proof.
  unfold validate_runtime_fields. intros H.
  repeat (apply result_bind_Ok_inv in H as ([] & ?%require_Ok & H)). apply require_Ok in H.
  repeat match goal with Hx : (_ ≠ˢ _) = true |- _ => apply negb_true_iff, bool_decide_eq_false in Hx end.
  split; [split_and!; done || lia|]. intros Ha. rewrite Ha in *. cbn in *.
  match goal with Hx : negb (bool_decide (_ = _)) = true |- _ => by apply negb_true_iff, bool_decide_eq_false in Hx end.
Qed.
Lemma validate_ok r : numbered r → placed r → validate_runtime_fields (ag_authority r) (ag_fields r) = Ok tt.
Proof.
  intros (H1 & H2 & H3 & H4 & H5 & H6 & H7) Hp. unfold validate_runtime_fields, require.
  rewrite (bool_decide_ne H1), (bool_decide_ne H7), H4, H5.
  replace (0 <=? ag_queue_depth r) with true by lia. replace (0 <? ag_binding_generation r) with true by lia.
  replace (0 <=? ag_restart_count r) with true by lia. unfold placed in Hp.
  destruct (bool_decide (ag_state r ∈ [AG_idle; AG_busy; AG_degraded])); [|done]. by rewrite (bool_decide_ne (Hp eq_refl)).
Qed.
Lemma numbered_update r u : numbered r → good_update u → numbered (apply_update r u).
Proof. destruct r as [[] []]. unfold numbered. cbn. intros Hn Hu. destruct u; cbn in *; (exact Hn || tauto). Qed.
Lemma numbered_updated us : ∀ r, numbered r → Forall good_update us → numbered (updated r us).
Proof.
  induction us as [|u us IH]; intros r Hn Hus; [done|]. apply Forall_cons in Hus as [Hu Hus]. cbn. apply IH; [|done].
  by apply numbered_update.
Qed.
Lemma post_init_ok (r : AgentRuntime) : normalize_agent_name (ag_agent_name r) = Ok (ag_agent_name r) → numbered r → placed r →
  runtime_post_init r = Ok (normalize_runtime_defaults (ag_authority r) (ag_fields r)).
Proof.
  intros Hn Hnum Hp. unfold runtime_post_init. rewrite Hn, result_bind_ok, (validate_ok r Hnum Hp), result_bind_ok.
  unfold with_name. by destruct (ag_authority r).
Qed.
Lemma valid_numbered r : valid r → numbered r ∧ placed r.
Proof. intros (n & _ & Hv & _)%post_init_inv. by apply validate_inv in Hv. Qed.
Lemma replaced_ok r us : valid r → Forall good_update us → placed (updated r us) → replace r us = Ok (replaced r us).
Proof.
  intros V Hus Hp. destruct (update_fields us r) as (En & _). fold (updated r us) in En.
  unfold replace. fold (updated r us). apply post_init_ok; [|by apply numbered_updated; [apply valid_numbered|]|done].
  rewrite En. by apply valid_name.
Qed.
Lemma replaced_same r us : valid r → updated r us = r → replaced r us = r.
Proof.
  intros V E. pose proof V as V'. unfold replaced. rewrite E. destruct (valid_numbered r V).
  unfold valid in V'. rewrite post_init_ok in V' by (done || by apply valid_name). by injection V'.
Qed.
Lemma valid_placed r : valid r → placed r.
Proof. intros (n & _ & Hv & _)%post_init_inv. by apply validate_inv in Hv as []. Qed.
Lemma replaced_derived r us : valid r → Forall good_update us → placed (updated r us) → derived (replaced r us) r.
Proof. intros V Hus Hp. by apply (replace_derived r us), replaced_ok. Qed.

(** ** Runs

    The cache only repeats the files, so a fleet is seen without it. *)
Record View := mkView { vw_files : gmap string AgentRuntime; vw_events : list SupervisionEvent; vw_ticks : nat; vw_ids : nat }.
Definition view (f : Fleet) : View := mkView (fl_files f) (fl_events f) (fl_ticks f) (fl_ids f).
Definition coherent (f : Fleet) : Prop :=
  (∀ n (r : AgentRuntime), fl_files f !! n = Some r → ag_agent_name r = n ∧ valid r) ∧
  (∀ n r, fl_cache f !! n = Some r → fl_files f !! n = Some r).
Definition runs {A} (m : Fl A) (v : View) (a : result A) (v' : View) : Prop :=
  ∀ f, coherent f → view f = v → ∃ f', m f = (a, f') ∧ coherent f' ∧ view f' = v'.
Definition put (v : View) (r : AgentRuntime) : View := mkView (<[ag_agent_name r := r]> (vw_files v)) (vw_events v) (vw_ticks v) (vw_ids v).
Definition log (v : View) (e : SupervisionEvent) : View := mkView (vw_files v) (vw_events v ++ [e]) (vw_ticks v) (vw_ids v).
Definition tick (v : View) : View := mkView (vw_files v) (vw_events v) (S (vw_ticks v)) (vw_ids v).
Definition drawn (v : View) : View := mkView (vw_files v) (vw_events v) (vw_ticks v) (S (vw_ids v)).

Lemma runs_bind {A B} (m : Fl A) (k : A → Fl B) v a v1 b v2 : runs m v (Ok a) v1 → runs (k a) v1 b v2 → runs (m ≫= k) v b v2.
Proof.
  intros Hm Hk f Hf Hv. destruct (Hm f Hf Hv) as (f1 & E1 & Hf1 & Hv1). rewrite (st_bind_ok _ _ _ _ _ E1). by apply Hk.
Qed.
Lemma runs_fails {A B} (m : Fl A) (k : A → Fl B) v e v1 : runs m v (Err e) v1 → runs (m ≫= k) v (Err e) v1.
Proof.
  intros Hm f Hf Hv. destruct (Hm f Hf Hv) as (f1 & E1 & Hf1 & Hv1). rewrite (st_bind_err _ _ _ _ _ E1). by exists f1.
Qed.
Lemma runs_ret {A} (a : A) v : runs (mret a) v (Ok a) v.
Proof. intros f Hf Hv. by exists f. Qed.
Lemma runs_lift {A} (r : result A) a v : r = a → runs (st_lift r) v a v.
Proof. intros -> f Hf Hv. by exists f. Qed.
Lemma runs_lift_bind {A B} (r : result A) (k : A → Fl B) a v b v' : r = Ok a → runs (k a) v b v' → runs (st_lift r ≫= k) v b v'.
Proof. intros Hr Hk. eapply runs_bind; [by apply runs_lift|done]. Qed.
Lemma runs_ret_bind {A B} (a : A) (k : A → Fl B) v b v' : runs (k a) v b v' → runs (mret a ≫= k) v b v'.
Proof. intros Hk. eapply runs_bind; [apply runs_ret|done]. Qed.
Lemma runs_try_ok {A} (m : Fl A) h v a v1 : runs m v (Ok a) v1 → runs (st_try m h) v (Ok a) v1.
Proof. intros Hm f Hf Hv. destruct (Hm f Hf Hv) as (f1 & E & ?). exists f1. unfold st_try. by rewrite E. Qed.
Lemma runs_try_err {A} (m : Fl A) h v e v1 b v2 : runs m v (Err e) v1 → runs (h e) v1 b v2 → runs (st_try m h) v b v2.
Proof. intros Hm Hh f Hf Hv. destruct (Hm f Hf Hv) as (f1 & E & Hf1 & Hv1). unfold st_try. rewrite E. by apply Hh. Qed.

Section rules.
Context `{HClock : Clock} `{HConfig : FleetConfig} `{HIds : FullUuids}.

Lemma runs_now v : runs fl_now v (Ok (clock_at (vw_ticks v))) (tick v).
Proof. intros f Hf <-. eexists. split; [reflexivity|]. by split. Qed.
Lemma runs_draw v : runs draw_id v (Ok (uuid_hex (vw_ids v))) (drawn v).
Proof. intros f Hf <-. eexists. split; [reflexivity|]. by split. Qed.
Lemma runs_append e v : runs (append_event e) v (Ok tt) (log v e).
Proof. intros f Hf <-. eexists. split; [reflexivity|]. by split. Qed.
Lemma runs_get name n v : normalize_agent_name name = Ok n → runs (get name) v (Ok (vw_files v !! n)) v.
Proof.
  intros Hn f Hf <-. unfold get, get_locked. rewrite (st_lift_bind _ _ _ n Hn), st_gets_bind. pose proof Hf as [K1 K2].
  destruct (fl_cache f !! n) as [r|] eqn:Ec; [exists f; rewrite st_ret_eq; cbn; by rewrite (K2 _ _ Ec)|].
  rewrite st_gets_bind. cbn. destruct (fl_files f !! n) as [r|] eqn:Er; [|by exists f].
  eexists. split; [reflexivity|]. split; [|done]. split; [done|]. cbn. intros m x [[<- <-]|[_ Hx]]%lookup_insert_Some; [done|by apply K2].
Qed.
Lemma runs_save c o v : valid c → is_ok (spec_for (ag_agent_name c)) = true → runs (save_locked c true o) v (Ok c) (put v c).
Proof.
  intros V Hspec. unfold save_locked. destruct (spec_for (ag_agent_name c)) as [spec|] eqn:Es; [|done].
  apply (runs_lift_bind _ _ spec); [done|].
  assert (∀ o' : option AgentRuntime, runs (_ ← match o' with
     | Some x => st_lift (raise_if (negb true && negb (bool_decide (changed_authority_fields (ag_authority x) (ag_authority c) = [])))
         (ValueError ("authority write required for runtime fields: " +:+
            join ", " (changed_authority_fields (ag_authority x) (ag_authority c)))))
     | None => mret tt
     end; _ ← write_runtime (ag_agent_name c) c; _ ← cache_runtime (ag_agent_name c) c; mret c) v (Ok c) (put v c)) as Hrest.
  { intros o'. eapply runs_bind; [destruct o'; [by apply runs_lift|apply runs_ret]|].
    intros f [K1 K2] <-. eexists. split; [reflexivity|]. split; [|done]. split; cbn.
    - intros n r [[<- <-]|[_ Hr]]%lookup_insert_Some; [done|by apply K1].
    - intros n r [[<- <-]|[Hn Hr]]%lookup_insert_Some; [by rewrite lookup_insert_eq|]. rewrite lookup_insert_ne by done. by apply K2. }
  destruct o as [e|]; [apply (runs_ret_bind (Some e)), (Hrest (Some e))|]. eapply runs_bind; [by apply runs_get, valid_name|apply Hrest].
Qed.
Definition stores (v : View) (c : AgentRuntime) : Prop :=
  valid c ∧ is_ok (spec_for (ag_agent_name c)) = true ∧ ∀ e : AgentRuntime, vw_files v !! ag_agent_name c = Some e → gen e ≤ gen c.
Lemma runs_upsert c v : stores v c → runs (upsert_authority c) v (Ok c) (put v c).
Proof.
  intros (V & Hs & Hg). unfold upsert_authority. eapply runs_bind; [apply runs_get; by apply valid_name|].
  apply (runs_bind _ _ _ c v); [|by apply runs_save].
  destruct (vw_files v !! ag_agent_name c) as [e|]; [|apply runs_ret]. apply runs_lift. specialize (Hg e eq_refl).
  unfold merge_stale_authority_candidate. fold (gen e) (gen c). by replace (gen e <=? gen c) with true by lia.
Qed.

(** *** Records that are there *)
Definition stored (v : View) (n : string) (r : AgentRuntime) : Prop := vw_files v !! n = Some r ∧ ag_agent_name r = n ∧ valid r.
Lemma stored_put v n r c : stored v n r → derived c r → stored (put v c) n c.
Proof. intros (_ & <- & _) (C1 & _ & _ & C4). split_and!; [|done..]. cbn. by rewrite C1, lookup_insert_eq. Qed.
Lemma stored_stores v n r c : stored v n r → is_ok (spec_for n) = true → derived c r → stores v c.
Proof.
  intros (Hr & En & V) Hs (C1 & C2 & _ & C4). split_and!; [done|by rewrite C1, En|]. intros e. rewrite C1, En, Hr.
  intros [= <-]. lia.
Qed.
Lemma put_same v n r : stored v n r → put v r = v.
Proof. intros (Hr & <- & _). destruct v. unfold put. cbn in *. by rewrite insert_id. Qed.
Lemma runs_get_stored v n r : stored v n r → runs (get n) v (Ok (Some r)) v.
Proof. intros (Hr & <- & V). rewrite <- Hr. by apply runs_get, valid_name. Qed.
Lemma runs_upsert_stored v n r c : stored v n r → is_ok (spec_for n) = true → derived c r → runs (upsert_authority c) v (Ok c) (put v c).
Proof. intros Hr Hs Hc. apply runs_upsert. by apply (stored_stores v n r). Qed.
Lemma runs_keep_or_upsert v n r c : stored v n r → is_ok (spec_for n) = true → derived c r →
  runs (if bool_decide (c = r) then mret r else upsert_authority c) v (Ok c) (put v c).
Proof.
  intros Hr Hs Hc. case_bool_decide as E; [|by apply (runs_upsert_stored v n r)]. subst c. rewrite (put_same v n r Hr). apply runs_ret.
Qed.
Lemma runs_upsert_if_changed v n (r r' : AgentRuntime) us : stored v n r → is_ok (spec_for n) = true → ag_agent_name r' = n →
  Forall good_update us → placed (updated r us) → runs (upsert_if_changed r' us) v (Ok (replaced r us)) (put v (replaced r us)).
Proof.
  intros Hr Hs En Hus Hp. unfold upsert_if_changed. rewrite En. eapply runs_bind; [by apply runs_get_stored|]. cbn [default].
  pose proof Hr as (_ & _ & V). apply (runs_lift_bind _ _ (replaced r us)); [by apply replaced_ok|].
  apply (runs_keep_or_upsert v n r); [done..|by apply replaced_derived].
Qed.
End rules.

(** ** An agent that needs nothing *)
Section pass.
Context `{HClock : Clock} `{HLib : CompletionLib} `{HConfig : FleetConfig} `{HIds : FullUuids} `{HProviders : ProviderWorld}
  `{HWorld : SupervisionWorld} (generation : option Z).
Hypothesis generation_positive : positive_if_set generation = true.
Variable n : string.
Hypothesis configured : is_ok (spec_for n) = true.

(** The runtime under this daemon, when it needs no new binding for that. *)
Definition align_updates (r : AgentRuntime) : list RuntimeUpdate :=
  [U_daemon_generation (match generation with None => ag_daemon_generation r | Some _ => generation end);
   U_desired_state (Some (if bool_decide (ag_state r = AG_stopped) then "stopped" else "mounted"));
   U_reconcile_state (resolved_reconcile_state r)].
Definition aligned (r : AgentRuntime) : AgentRuntime := replaced r (align_updates r).
Lemma updated_keeps_place (r : AgentRuntime) us : valid r → ag_state (updated r us) = ag_state r → ag_workspace_path (updated r us) = ag_workspace_path r →
  placed (updated r us).
Proof. intros V%valid_placed Es Ew. unfold placed in *. by rewrite Es, Ew. Qed.
Lemma align_good r : valid r → Forall good_update (align_updates r) ∧ placed (updated r (align_updates r)).
Proof using generation_positive.
  intros V. split.
  - repeat constructor; cbn. destruct generation; [done|]. apply post_init_inv in V as (k & _ & Hv & _). by apply validate_inv in Hv as [(_ & _ & _ & ? & _) _].
  - apply updated_keeps_place; [done|by destruct r as [[] []]..].
Qed.
Lemma aligned_derived r : valid r → derived (aligned r) r.
Proof using generation_positive. intros V. destruct (align_good r V). by apply replaced_derived. Qed.
Lemma runs_align v r : stored v n r → authority_adopt_required r generation = false →
  runs (align_runtime_authority generation r) v (Ok (aligned r)) (put v (aligned r)).
Proof using generation_positive configured.
  intros Hr Hadopt. pose proof Hr as (_ & En & V). destruct (align_good r V). unfold align_runtime_authority. rewrite Hadopt.
  apply runs_ret_bind. by apply (runs_upsert_if_changed v n r).
Qed.
Lemma runs_resolved v r : stored v n r → authority_adopt_required r generation = false →
  runs (resolved_runtime generation n) v (Ok (Some (aligned r))) (put v (aligned r)).
Proof using generation_positive configured.
  intros Hr Hadopt. unfold resolved_runtime. eapply runs_bind; [by apply runs_get_stored|].
  eapply runs_bind; [by apply runs_align|apply runs_ret].
Qed.
(** What aligning leaves as it is. *)
Lemma aligned_keeps (r : AgentRuntime) : valid r → ag_state (aligned r) = ag_state r ∧ ag_health (aligned r) = ag_health r ∧
  ag_restart_count (aligned r) = ag_restart_count r ∧ ag_mount_attempt_id (aligned r) = ag_mount_attempt_id r ∧
  ag_last_failure_reason (aligned r) = ag_last_failure_reason r ∧ ag_last_reconcile_at (aligned r) = ag_last_reconcile_at r.
Proof.
  intros (k & _ & _ & Hr)%post_init_inv. split_and!; [by destruct r as [[] []]..| | |]; unfold aligned, replaced, align_updates, updated.
  all: rewrite Hr; destruct r as [[] []]; cbn; by rewrite !normalized_text_idem.
Qed.
Lemma calm_health r : normalized_runtime_health r ≠ "pane-foreign" → explicit_topology_project_socket_foreign_pane r = false.
Proof. intros Hh. unfold explicit_topology_project_socket_foreign_pane. rewrite (bool_decide_eq_false_2 _ Hh). by destruct sw_windows_explicit. Qed.
Lemma runs_not_foreign v r : normalized_runtime_health r ≠ "pane-foreign" →
  runs (runtime_requires_mount_from_foreign_pane r) v (Ok false) v ∧
  runs (runtime_requires_recovery r) v (Ok (should_attempt_background_recovery r)) v.
Proof.
  intros Hh. assert (negb (normalized_runtime_health r =ˢ "pane-foreign") = true) as Hn by (by rewrite (bool_decide_eq_false_2 _ Hh)).
  assert (runs (should_reflow_project_namespace r None) v (Ok false) v) as Hreflow.
  { unfold should_reflow_project_namespace. apply runs_ret_bind. rewrite Hn. apply runs_ret. }
  split; [unfold runtime_requires_mount_from_foreign_pane; rewrite Hn; apply runs_ret|].
  unfold runtime_requires_recovery. eapply runs_bind; [exact Hreflow|]. rewrite (calm_health r Hh). apply runs_ret.
Qed.
Lemma runs_settled v r : stored v n r → authority_adopt_required r generation = false → normalized_runtime_health r ≠ "pane-foreign" →
  runtime_requires_mount (aligned r) = false → should_attempt_background_recovery (aligned r) = false →
  runs (reconcile_agent generation n) v (Ok (ag_health r)) (put v (aligned r)).
Proof using generation_positive configured.
  intros Hr Hadopt Hh Hm Hrec. pose proof Hr as (_ & _ & V). destruct (aligned_keeps r V) as (_ & Eh & _).
  assert (normalized_runtime_health (aligned r) ≠ "pane-foreign") as Hh' by (unfold normalized_runtime_health in *; by rewrite Eh).
  unfold reconcile_agent. eapply runs_bind; [by apply runs_resolved|]. cbn beta iota. rewrite Hm.
  destruct (runs_not_foreign (put v (aligned r)) (aligned r) Hh') as [H1 H2].
  eapply runs_bind; [exact H1|]. cbn beta iota. eapply runs_bind; [exact H2|]. rewrite Hrec, <- Eh. apply runs_ret.
Qed.
Lemma stopped_needs_nothing (r : AgentRuntime) : ag_state r = AG_stopped → runtime_requires_mount (aligned r) = false ∧
  should_attempt_background_recovery (aligned r) = false ∧ authority_adopt_required r generation = false.
Proof.
  intros Es. assert (ag_state (aligned r) = AG_stopped) as Ea by (by destruct r as [[] []]).
  assert (strip (default "" (ag_desired_state (aligned r))) = "stopped") as Ed.
  { unfold aligned, replaced, align_updates, updated. rewrite Es. destruct r as [[] []]. cbn in Es. subst. reflexivity. }
  split_and!.
  - unfold runtime_requires_mount. by rewrite Ed, Ea; destruct (_ && _ && _).
  - unfold should_attempt_background_recovery. by rewrite Ea.
  - unfold authority_adopt_required. rewrite Es. destruct generation; [|done]. apply andb_false_iff. left. by rewrite andb_false_r.
Qed.

Lemma valid_reconcile (r : AgentRuntime) : valid r → ∃ t, ag_reconcile_state r = Some t ∧ normalized_text (Some t) = Some t.
Proof.
  intros (k & _ & _ & Hr)%post_init_inv. rewrite Hr. cbn. eexists. split; [done|].
  destruct (normalized_text (ag_reconcile_state r)) as [t|] eqn:E; cbn [str_or]; [|by destruct (ag_state r)].
  case_bool_decide; [by destruct (ag_state r)|]. rewrite <- E. apply normalized_text_idem.
Qed.
(** Aligning twice is aligning once. *)
Lemma aligned_idem (r : AgentRuntime) : valid r → aligned (aligned r) = aligned r.
Proof using generation_positive.
  intros V. pose proof (aligned_derived r V) as (_ & _ & _ & Va). apply replaced_same; [done|].
  destruct (valid_reconcile r V) as (t & Et & Hn).
  assert (∃ u, resolved_reconcile_state r = Some u ∧ normalized_text (Some u) = Some u ∧
    ∀ x : AgentRuntime, ag_state x = ag_state r → ag_reconcile_state x = Some u → resolved_reconcile_state x = Some u) as (u & Eu & Hu & Hres).
  { unfold resolved_reconcile_state. rewrite Et. destruct (ag_state r) eqn:Es; try case_bool_decide as Hc;
      (eexists; split_and!; [reflexivity|try done|intros x Ex Ey; rewrite Ex, ?Ey]); try done; by rewrite ?(bool_decide_eq_false_2 _ Hc). }
  assert (ag_reconcile_state (aligned r) = Some u) as Er.
  { unfold aligned, align_updates. rewrite Eu. destruct r as [[] []]. cbn -[normalized_text]. rewrite Hu. cbn [str_or].
    rewrite bool_decide_ne; [done|]. intros ->. by vm_compute in Hu. }
  assert (ag_state (aligned r) = ag_state r) as Es by (by destruct r as [[] []]).
  unfold align_updates. rewrite Es, (Hres _ Es Er).
  assert (match generation with None => ag_daemon_generation (aligned r) | Some _ => generation end = ag_daemon_generation (aligned r)) as ->.
  { destruct generation as [g|] eqn:Eg; [|done]. unfold aligned, align_updates. rewrite Eg. by destruct r as [[] []]. }
  assert (Some (if bool_decide (ag_state r = AG_stopped) then "stopped" else "mounted") = ag_desired_state (aligned r)) as ->.
  { unfold aligned, align_updates. destruct (bool_decide (ag_state r = AG_stopped)); by destruct r as [[] []]. }
  rewrite <- Er. generalize (aligned r). intros x. by destruct x as [[] []].
Qed.
(** ** Mounting *)
Variable spec : AgentSpec.
Hypothesis spec_is : spec_for n = Ok spec.
Hypothesis spec_named : as_name spec = n.
Hypothesis project_named : fc_project_id ≠ "".
Hypothesis workspace_named : ∀ root, strip (fc_workspace_path n root) ≠ "".
Hypothesis name_normal : normalize_agent_name n = Ok n.

Lemma put_put v (c1 c2 : AgentRuntime) : ag_agent_name c1 = ag_agent_name c2 → put (put v c1) c2 = put v c2.
Proof. intros E. unfold put. cbn. by rewrite E, insert_insert_eq. Qed.
Lemma truthy_set a b : a ≠ "" → truthy_or (Some a) b = Some a.
Proof. intros Ha. cbn. by rewrite bool_decide_ne. Qed.
Lemma normalized_set t : strip t ≠ "" → normalized_text (Some t) = Some (strip t).
Proof. intros Ht. unfold normalized_text, or_none. cbn. by rewrite bool_decide_ne. Qed.
Lemma runs_attach_starting v : vw_files v !! n = None →
  ∃ c : AgentRuntime, runs (attach generation (starting_args spec n (fc_workspace_path n (as_workspace_root spec)))) v (Ok c) (tick (put v c)) ∧
       ag_agent_name c = n ∧ valid c ∧ ag_restart_count c = 0.
Proof using All.
  intros Hv. unfold attach, attach_runtime. set (a := with_generation _ generation).
  set (c0 := attached_runtime None spec fc_project_id (clock_at (vw_ticks v)) a).
  assert (ag_agent_name c0 = n) as En by exact spec_named.
  assert (runtime_post_init c0 = Ok (normalize_runtime_defaults (ag_authority c0) (ag_fields c0))) as Hc.
  { apply post_init_ok; [by rewrite En| |].
    - split_and!; try done; cbn; [lia..|]. by destruct generation.
    - intros _. change (ag_workspace_path c0) with (normalized_text (Some (fc_workspace_path n (as_workspace_root spec)))).
      rewrite normalized_set; apply workspace_named. }
  set (c := normalize_runtime_defaults (ag_authority c0) (ag_fields c0)) in *.
  exists c. split; [|by split_and!; [|eapply post_init_valid|]].
  apply (runs_lift_bind _ _ spec); [exact spec_is|]. eapply runs_bind; [by apply runs_get|]. rewrite Hv.
  eapply runs_bind; [apply runs_now|]. apply (runs_lift_bind _ _ c); [exact Hc|].
  apply (runs_lift_bind _ _ c); [reflexivity|].
  apply (runs_upsert c (tick v)). assert (ag_agent_name c = n) as Ec by exact spec_named. split_and!; [by eapply post_init_valid|by rewrite Ec|].
  intros e. rewrite Ec. cbn. by rewrite Hv.
Qed.
(** A runtime in an attempt of its own. *)
Record started (o : option AgentRuntime) (k : nat) (st : AgentRuntime) : Prop := {
  sd_state : ag_state st = AG_starting;
  sd_count : ag_restart_count st = match o with Some r => ag_restart_count r | None => 0 end;
  sd_attempt : ag_mount_attempt_id st = normalized_text (Some ("mount-" +:+ uuid_hex k));
  sd_desired : ag_desired_state st = Some "mounted";
  sd_generation : o = None → ag_daemon_generation st = generation
}.
Lemma runs_begin v (r : AgentRuntime) now : stored v n r → ag_state r = AG_starting →
  runs (begin_mount_attempt r now) v
    (Ok (replaced r [U_mount_attempt_id (Some ("mount-" +:+ uuid_hex (vw_ids v))); U_last_reconcile_at (Some now)],
         "mount-" +:+ uuid_hex (vw_ids v)))
    (put (drawn v) (replaced r [U_mount_attempt_id (Some ("mount-" +:+ uuid_hex (vw_ids v))); U_last_reconcile_at (Some now)])).
Proof using configured.
  intros Hr Es. pose proof Hr as (_ & En & V). set (us := [_; _]).
  assert (Forall good_update us) as Hus by (by repeat constructor).
  assert (placed (updated r us)) as Hp by (apply updated_keeps_place; [done|by destruct r as [[] []]..]).
  unfold begin_mount_attempt. eapply runs_bind; [apply runs_draw|].
  apply (runs_lift_bind _ _ (replaced r us)); [by apply replaced_ok|].
  eapply runs_bind; [|apply runs_ret]. apply (runs_upsert_stored (drawn v) n r); [done..|by apply replaced_derived].
Qed.
Definition found_in (v : View) (o : option AgentRuntime) : Prop :=
  match o with Some r => stored v n r ∧ authority_adopt_required r generation = false | None => vw_files v !! n = None end.
Lemma runs_starting v o now : found_in v o →
  ∃ (st : AgentRuntime) k, runs (build_starting_runtime generation n o now) v (Ok st)
            (mkView (<[n := st]> (vw_files v)) (vw_events v) (k + vw_ticks v)%nat (S (vw_ids v))) ∧
          ag_agent_name st = n ∧ valid st ∧ started o (vw_ids v) st.
Proof using All.
  intros Ho. set (ws := fc_workspace_path n (as_workspace_root spec)).
  assert (∃ (c : AgentRuntime) k, runs (match o with
       | None => attach generation (starting_args spec n ws)
       | Some r => if authority_adopt_required r generation then adopt_runtime_authority generation r generation else mret r
       end) v (Ok c) (mkView (<[n := c]> (vw_files v)) (vw_events v) (k + vw_ticks v)%nat (vw_ids v)) ∧ ag_agent_name c = n ∧ valid c ∧
    ag_restart_count c = match o with Some r => ag_restart_count r | None => 0 end ∧ ∀ r, o = Some r → c = r) as
    (c & k & Hc & En & V & Ecount & Eo).
  { destruct o as [r|]; cbn in Ho.
    - destruct Ho as [Hr Hadopt]. exists r, 0%nat. rewrite Hadopt. destruct Hr as (Hr & En & V).
      split_and!; [|done..|by intros ? [= <-]]. rewrite (insert_id _ _ _ Hr). destruct v. apply runs_ret.
    - destruct (runs_attach_starting v Ho) as (c & Hc & En & V & Ec). exists c, 1%nat. unfold tick, put in Hc.
      rewrite En in Hc. by split_and!. }
  set (mode := runtime_mode_value (as_runtime_mode spec)).
  set (us := [U_state AG_starting; U_health "starting"; U_workspace_path (truthy_or (ag_workspace_path (ag_authority c)) (Some ws));
     U_backend_type (if ag_backend_type c =ˢ "" then mode else ag_backend_type c);
     U_provider (truthy_or (ag_provider c) (Some (as_provider spec))); U_lifecycle_state (Some "starting");
     U_daemon_generation (match o with Some _ => ag_daemon_generation c | None => generation end);
     U_desired_state (Some "mounted"); U_reconcile_state (Some "starting"); U_last_reconcile_at (Some now); U_last_failure_reason None]).
  destruct (valid_numbered c V) as [Hnum _].
  assert (Forall good_update us) as Hus.
  { repeat constructor; cbn. destruct o; [|exact generation_positive]. by destruct Hnum as (_ & _ & _ & ? & _). }
  assert (placed (updated c us)) as Hp.
  { intros Hst. exfalso. revert Hst. by destruct c as [[] []]. }
  set (v1 := mkView (<[n := c]> (vw_files v)) (vw_events v) (k + vw_ticks v)%nat (vw_ids v)) in *.
  assert (stored v1 n c) as Hs1 by (split_and!; [apply lookup_insert_eq|done|done]).
  pose proof (replaced_derived c us V Hus Hp) as D. pose proof (stored_put v1 n c _ Hs1 D) as Hs2.
  assert (ag_state (replaced c us) = AG_starting) as Est by (by destruct c as [[] []]).
  pose proof (runs_begin _ _ now Hs2 Est) as Hb. cbn [vw_ids put v1] in Hb.
  set (us2 := [U_mount_attempt_id (Some ("mount-" +:+ uuid_hex (vw_ids v))); U_last_reconcile_at (Some now)]) in *.
  set (st := replaced (replaced c us) us2) in *. exists st, k.
  assert (ag_agent_name st = n) as Est' by (by destruct c as [[] []]).
  split_and!; [|done| |].
  - unfold build_starting_runtime. apply (runs_lift_bind _ _ spec); [exact spec_is|]. cbv zeta. fold ws mode.
    eapply runs_bind; [exact Hc|]. apply (runs_lift_bind _ _ (replaced c us)); [by apply replaced_ok|].
    eapply runs_bind; [by apply (runs_keep_or_upsert v1 n c)|]. eapply runs_bind; [exact Hb|].
    match goal with |- runs _ ?w _ ?w' => assert (w = w') as ->; [|apply runs_ret] end.
    unfold put, drawn, v1. cbn [vw_files vw_events vw_ticks vw_ids]. f_equal.
    destruct D as (-> & _). by rewrite Est', En, !insert_insert_eq.
  - assert (Forall good_update us2) as Hus2 by (by repeat constructor).
    assert (placed (updated (replaced c us) us2)) as Hp2.
    { apply updated_keeps_place; [apply D|by destruct c as [[] []]..]. }
    apply (replaced_derived (replaced c us) us2); [apply D|done|done].
  - split; [by destruct c as [[] []]| | |by destruct c as [[] []]|].
    + rewrite <- Ecount. by destruct c as [[] []].
    + by destruct c as [[] []].
    + intros ->. unfold st, us. by destruct c as [[] []].
Qed.

(** *** From the pass to the call that mounts *)
Hypothesis no_cmd : sw_cmd_enabled = false.
Variable mount : string → Fl unit.
Hypothesis mount_is : sw_mount_agent = Some mount.

Lemma backoff_aligned (r : AgentRuntime) now : valid r → is_in_backoff_window (aligned r) now = is_in_backoff_window r now.
Proof.
  intros V. destruct (aligned_keeps r V) as (_ & _ & Ec & _ & Er & El). unfold is_in_backoff_window. by rewrite Ec, Er, El.
Qed.
(** An agent that is to be mounted: it has no runtime, or failed long enough ago. *)
Definition wants_mount (v : View) (o : option AgentRuntime) : Prop :=
  vw_files v !! n = o ∧
  match o with
  | None => sw_mount_missing n = true
  | Some r => stored v n r ∧ ag_state r = AG_failed ∧ is_in_backoff_window r (clock_at (vw_ticks v)) = Ok false
  end.
Definition count_of (o : option AgentRuntime) : Z := match o with Some r => ag_restart_count r | None => 0 end.
Definition after_start (o : option AgentRuntime) (st : AgentRuntime) (attempted_at : string) : Fl string :=
  let prior_health := match o with Some r => ag_health r | None => "unmounted" end in
  failure ← st_try (_ ← mount_or_reflow n; mret None) (λ e, mret (Some e));
  match failure with
  | Some e => mount_raised generation o st n attempted_at prior_health (ag_restart_count st + 1) e
  | None => mount_returned generation st n attempted_at prior_health (ag_restart_count st + 1)
  end.
Lemma failed_unadopted (r : AgentRuntime) : ag_state r = AG_failed → authority_adopt_required r generation = false.
Proof. intros Es. unfold authority_adopt_required. rewrite Es. destruct generation; [|done]. apply andb_false_iff. left. by rewrite andb_false_r. Qed.
Lemma failed_requires_mount (r : AgentRuntime) : ag_state r = AG_failed → runtime_requires_mount (aligned r) = true.
Proof.
  intros Es. assert (ag_state (aligned r) = AG_failed) as Ea by (by destruct r as [[] []]).
  assert (strip (default "" (ag_desired_state (aligned r))) = "mounted") as Ed.
  { unfold aligned, replaced, align_updates, updated. rewrite Es. destruct r as [[] []]. cbn in Es. subst. reflexivity. }
  unfold runtime_requires_mount. by rewrite Ed, Ea.
Qed.
Lemma pass_starts v o : wants_mount v o → ∃ o' (st : AgentRuntime) v1 e1 now,
  stored v1 n st ∧ ag_state st = AG_starting ∧ ag_restart_count st = count_of o ∧ count_of o' = count_of o ∧
  vw_events v1 = vw_events v ++ [e1] ∧ se_event_kind e1 = "mount_started" ∧ now = clock_at (vw_ticks v) ∧
  (∀ x, o' = Some x → ag_state (ag_fields x) = AG_failed) ∧
  ag_mount_attempt_id st = normalized_text (Some ("mount-" +:+ uuid_hex (vw_ids v))) ∧ vw_ids v1 = S (vw_ids v) ∧
  ∀ res v', runs (after_start o' st now) v1 res v' → runs (reconcile_agent generation n) v res v'.
Proof using All.
  intros [Ev Ho].
  assert (∃ o' v0, (∀ res v', runs (ensure_mounted generation n o') v0 res v' → runs (reconcile_agent generation n) v res v') ∧
    found_in v0 o' ∧ count_of o' = count_of o ∧ vw_events v0 = vw_events v ∧ vw_ticks v0 = vw_ticks v ∧ vw_ids v0 = vw_ids v ∧
    (∀ x, o' = Some x → ag_state (ag_fields x) = AG_failed) ∧
    match o' with Some r => is_in_backoff_window r (clock_at (vw_ticks v)) = Ok false | None => True end)
    as (o' & v0 & Hpass & Hfound & Hcount & Hev & Htick & Hid & Ho' & Hback).
  { destruct o as [r|].
    - destruct Ho as (Hr & Es & Hb). pose proof Hr as (_ & _ & V). pose proof (failed_unadopted r Es) as Hadopt.
      destruct (aligned_keeps r V) as (Es' & _ & Ec & _). exists (Some (aligned r)), (put v (aligned r)). split_and!; try done.
      + intros res v' H. unfold reconcile_agent. eapply runs_bind; [by apply runs_resolved|]. cbn beta iota.
        by rewrite failed_requires_mount.
      + split; [|by apply failed_unadopted; rewrite Es']. apply (stored_put v n r); [done|by apply aligned_derived].
      + intros x [= <-]. by rewrite Es'.
      + by rewrite backoff_aligned.
    - exists None, v. split_and!; try done. intros res v' H. unfold reconcile_agent, resolved_runtime.
      eapply runs_bind; [eapply runs_bind; [by apply runs_get|rewrite Ev; apply runs_ret]|]. cbn beta iota. by rewrite Ho. }
  assert (found_in (tick v0) o') as Hfound' by (by destruct o').
  destruct (runs_starting (tick v0) o' (clock_at (vw_ticks v0)) Hfound') as (st & k & Hst & En & V & Hsd).
  set (v1 := mkView _ _ _ _) in Hst.
  set (e1 := mkEvent "mount_started" fc_project_id n (clock_at (vw_ticks v0)) (ag_daemon_generation st) (ag_desired_state st)
    (ag_reconcile_state st) (Some (match o' with Some r => ag_health r | None => "unmounted" end)) (Some (ag_health st))
    (Some (agent_state_value (ag_state st))) (ag_runtime_ref st) (ag_session_ref st)
    (match truthy_or (ag_mount_attempt_id st) None with Some a => [("mount_attempt_id", PStr a)] | None => [] end)).
  exists o', st, (log v1 e1), e1, (clock_at (vw_ticks v)). split_and!; try done.
  - split_and!; [apply lookup_insert_eq|done|done].
  - apply Hsd.
  - rewrite <- Hcount. apply Hsd.
  - unfold log, v1. cbn. by rewrite Hev.
  - rewrite <- Hid. apply Hsd.
  - unfold log, v1. cbn. by rewrite Hid.
  - intros res v' H. apply Hpass. rewrite <- Htick in *. unfold ensure_mounted. rewrite mount_is. cbn [is_set negb andb].
    eapply runs_bind; [apply runs_now|]. apply (runs_bind _ _ _ false (tick v0)).
    { destruct o' as [r|]; [by apply runs_lift|apply runs_ret]. }
    cbn beta iota. unfold mount_attempt. eapply runs_bind; [exact Hst|]. eapply runs_bind; [apply runs_append|]. exact H.
Qed.
Lemma runs_mounting v res v' : runs (mount n) v res v' → runs (mount_or_reflow n) v res v'.
Proof using no_cmd mount_is.
  intros H. unfold mount_or_reflow, should_reflow_project_mount. rewrite no_cmd. apply runs_ret_bind. cbn beta iota. by rewrite mount_is.
Qed.
Lemma after_start_returned (o : option AgentRuntime) (st : AgentRuntime) now v v1 res v' : runs (mount n) v (Ok tt) v1 →
  runs (mount_returned generation st n now (match o with Some r => ag_health r | None => "unmounted" end) (ag_restart_count st + 1)) v1 res v' →
  runs (after_start o st now) v res v'.
Proof using no_cmd mount_is.
  intros Hm Hrest. unfold after_start. apply (runs_bind _ _ _ None v1); [|exact Hrest].
  apply runs_try_ok. eapply runs_bind; [by apply runs_mounting|apply runs_ret].
Qed.
Lemma after_start_raised (o : option AgentRuntime) (st : AgentRuntime) now v v1 e res v' : runs (mount n) v (Err e) v1 →
  runs (mount_raised generation o st n now (match o with Some r => ag_health r | None => "unmounted" end) (ag_restart_count st + 1) e) v1 res v' →
  runs (after_start o st now) v res v'.
Proof using no_cmd mount_is.
  intros Hm Hrest. unfold after_start. apply (runs_bind _ _ _ (Some e) v1); [|exact Hrest].
  eapply runs_try_err; [eapply runs_fails; by apply runs_mounting|apply runs_ret].
Qed.

(** *** An attempt that was overtaken *)
Definition same_runtime (c r : AgentRuntime) : Prop :=
  derived c r ∧ ag_state c = ag_state r ∧ ag_health c = ag_health r ∧ ag_restart_count c = ag_restart_count r ∧
  ag_mount_attempt_id c = ag_mount_attempt_id r.
Lemma same_trans (c a r : AgentRuntime) : same_runtime c a → same_runtime a r → same_runtime c r.
Proof.
  intros (D1 & S1 & H1 & C1 & A1) (D2 & S2 & H2 & C2 & A2). split; [by eapply derived_trans|].
  by rewrite S1, H1, C1, A1.
Qed.
Lemma aligned_same_runtime (r : AgentRuntime) : valid r → same_runtime (aligned r) r.
Proof using generation_positive.
  intros V. destruct (aligned_keeps r V) as (E1 & E2 & E3 & E4 & _). by split; [apply aligned_derived|].
Qed.
Lemma adopt_aligned (r : AgentRuntime) : valid r → authority_adopt_required r generation = false →
  authority_adopt_required (aligned r) generation = false.
Proof.
  intros V. destruct (aligned_keeps r V) as (Es & _). unfold authority_adopt_required. rewrite Es.
  assert (ag_binding_source (aligned r) = ag_binding_source r) as -> by (by destruct r as [[] []]).
  destruct generation as [g|] eqn:Eg; [|done].
  assert (ag_daemon_generation (aligned r) = Some g) as -> by (unfold aligned, align_updates; rewrite Eg; by destruct r as [[] []]).
  intros _. rewrite (bool_decide_eq_true_2 (Some g = Some g)) by done. by rewrite andb_false_r.
Qed.
Lemma changed_same x : changed_authority_fields x x = [].
Proof. unfold changed_authority_fields. by rewrite !bool_decide_eq_true_2 by done. Qed.
Lemma runs_upsert_state v (r c : AgentRuntime) : stored v n r → ag_authority c = ag_authority r → valid c → runs (upsert c) v (Ok c) (put v c).
Proof using configured spec_is.
  intros Hr Ea V. pose proof Hr as (_ & En & _). assert (ag_agent_name c = n) as Ec by (by rewrite Ea).
  unfold upsert, save_locked. rewrite Ec. destruct (spec_for n) as [sp|] eqn:Es; [|done].
  apply (runs_lift_bind _ _ sp); [done|]. eapply runs_bind; [by apply (runs_get_stored v n r)|]. cbv zeta.
  rewrite Ea, changed_same. apply runs_ret_bind. intros f [K1 K2] <-. eexists. split; [reflexivity|].
  split; [|unfold view, put; cbn; by rewrite Ec]. split; cbn.
  - intros m x [[<- <-]|[_ Hx]]%lookup_insert_Some; [done|by apply K1].
  - intros m x [[<- <-]|[Hm Hx]]%lookup_insert_Some; [by rewrite lookup_insert_eq|]. rewrite lookup_insert_ne by done. by apply K2.
Qed.
Lemma runs_superseded v (r : AgentRuntime) now prior attempt : stored v n r → authority_adopt_required r generation = false →
  ∃ c e2, runs (mount_superseded generation r n now prior attempt) v (Ok (ag_health (ag_fields c))) (log (put v c) e2) ∧
    se_event_kind e2 = "mount_superseded" ∧ same_runtime c r.
Proof using generation_positive configured spec_is.
  intros Hr Hadopt. pose proof Hr as (_ & _ & V). pose proof (aligned_same_runtime r V) as Hsame. set (a := aligned r) in *.
  assert (derived a r) as D by apply Hsame. pose proof (stored_put v n r a Hr D) as Ha. assert (valid a) as Va by apply D.
  assert (∃ c, runs (stabilize_superseded_runtime a now) (put v a) (Ok c) (put v c) ∧ same_runtime c a) as (c & Hc & Hca).
  { unfold stabilize_superseded_runtime. destruct (bool_decide (ag_state a = AG_idle) && _) eqn:Eb.
    - set (us := [_; _; _; _]). assert (Forall good_update us) as Hus by (by repeat constructor).
      assert (placed (updated a us)) as Hp by (apply updated_keeps_place; [done|clearbody a; by destruct a as [[] []]..]).
      pose proof (replaced_derived a us Va Hus Hp) as Dc. exists (replaced a us).
      assert (ag_authority (replaced a us) = ag_authority a) as Eauth.
      { assert (updated a us = mkRuntime (ag_authority a) (ag_fields (updated a us))) as Eu by (clearbody a; by destruct a as [[] []]).
        pose proof (replaced_same a [] Va eq_refl) as Eid. unfold replaced in *. rewrite Eu. cbn [ag_authority].
        apply (f_equal ag_authority) in Eid. exact Eid. }
      split; [|split; [done|clearbody a; rewrite Eauth; by destruct a as [[] []]]].
      unfold patch_runtime_state. apply (runs_lift_bind _ _ tt); [done|]. eapply runs_bind; [apply runs_get_stored|].
      { assert (ag_agent_name a = n) as -> by apply Ha. exact Ha. }
      cbn beta iota. apply (runs_lift_bind _ _ (replaced a us)); [by apply replaced_ok|]. cbn [from_option id].
      rewrite <- (put_put v a (replaced a us)) by (symmetry; apply Dc).
      destruct (decide (replaced a us = a)) as [E|E]; [rewrite (bool_decide_eq_true_2 _ E)|rewrite (bool_decide_eq_false_2 _ E)].
      + rewrite E, (put_same _ _ _ Ha). apply runs_ret.
      + by apply (runs_upsert_state _ a); [..|apply Dc].
    - exists a. split; [apply runs_ret|]. by split; [apply derived_refl|]. }
  exists c. eexists. split_and!; [| |by eapply same_trans].
  - unfold mount_superseded. eapply runs_bind; [by apply runs_align|]. eapply runs_bind; [exact Hc|].
    eapply runs_bind; [apply runs_append|apply runs_ret].
  - done.
Qed.

(** *** The end of an attempt *)
Definition success_updates (r : AgentRuntime) (now : string) (count : Z) : list RuntimeUpdate :=
  let starting := bool_decide (ag_state r = AG_starting) in
  [U_state (if starting then AG_idle else ag_state r); U_reconcile_state (Some "steady"); U_restart_count count;
   U_last_reconcile_at (Some now); U_last_failure_reason None;
   U_lifecycle_state (if starting then Some "idle" else ag_lifecycle_state r); U_mount_attempt_id None].
Definition failure_updates (state : AgentState) (health rec : string) (count : Z) (now reason : string) (life : option string)
    : list RuntimeUpdate :=
  [U_state state; U_health health; U_reconcile_state (Some rec); U_restart_count count; U_last_reconcile_at (Some now);
   U_last_failure_reason (Some reason); U_lifecycle_state life; U_mount_attempt_id None].
Lemma runs_success v (r : AgentRuntime) now count : stored v n r → 0 ≤ count → default "" (ag_workspace_path r) ≠ "" →
  runs (finalize_mount_attempt_success n (ag_mount_attempt_id r) now count) v
    (Ok (Some (replaced r (success_updates r now count)), true)) (put v (replaced r (success_updates r now count))).
Proof using configured.
  intros Hr Hc Hw. pose proof Hr as (_ & En & V). set (us := success_updates r now count).
  assert (Forall good_update us) as Hus by (by repeat constructor).
  assert (placed (updated r us)) as Hp by (intros _; by destruct r as [[] []]).
  unfold finalize_mount_attempt_success. eapply runs_bind; [by apply runs_get_stored|]. cbn beta iota.
  rewrite (bool_decide_eq_true_2 (ag_mount_attempt_id r = ag_mount_attempt_id r)) by done. cbn [negb].
  apply (runs_lift_bind _ _ (replaced r us)); [by apply replaced_ok|].
  eapply runs_bind; [|apply runs_ret]. by apply (runs_upsert_stored v n r); [..|apply replaced_derived].
Qed.
Lemma runs_failure v (r : AgentRuntime) now health rec count reason life : stored v n r → 0 ≤ count →
  let c := replaced r (failure_updates AG_failed health rec count now reason life) in
  runs (finalize_mount_attempt_failure n (ag_mount_attempt_id r) now AG_failed health rec count reason life) v
    (Ok (Some c, true)) (put v c).
Proof using configured.
  intros Hr Hc c. pose proof Hr as (_ & En & V). set (us := failure_updates AG_failed health rec count now reason life) in c.
  assert (Forall good_update us) as Hus by (by repeat constructor).
  assert (placed (updated r us)) as Hp by (intros Hf; exfalso; revert Hf; by destruct r as [[] []]).
  unfold finalize_mount_attempt_failure. eapply runs_bind; [by apply runs_get_stored|]. cbn beta iota.
  rewrite (bool_decide_eq_true_2 (ag_mount_attempt_id r = ag_mount_attempt_id r)) by done. cbn [negb].
  apply (runs_lift_bind _ _ c); [by apply replaced_ok|].
  eapply runs_bind; [|apply runs_ret]. by apply (runs_upsert_stored v n r); [..|apply replaced_derived].
Qed.
Lemma runs_other_attempt v (r : AgentRuntime) attempt : stored v n r → ag_mount_attempt_id r ≠ attempt →
  (∀ now count, runs (finalize_mount_attempt_success n attempt now count) v (Ok (Some r, false)) v) ∧
  ∀ now state health rec count reason life,
    runs (finalize_mount_attempt_failure n attempt now state health rec count reason life) v (Ok (Some r, false)) v.
Proof.
  intros Hr Ha. unfold finalize_mount_attempt_success, finalize_mount_attempt_failure.
  split; intros; (eapply runs_bind; [by apply runs_get_stored|]); cbn beta iota;
    rewrite (bool_decide_eq_false_2 (ag_mount_attempt_id r = attempt)) by done; apply runs_ret.
Qed.
Lemma failure_reason (r : AgentRuntime) state health rec count now reason life :
  ag_last_failure_reason (replaced r (failure_updates state health rec count now reason life)) = normalized_text (Some reason) ∧
  ag_last_reconcile_at (replaced r (failure_updates state health rec count now reason life)) = normalized_text (Some now).
Proof. by destruct r as [[] []]. Qed.
Lemma failure_text_set e : strip (failure_text e) ≠ "".
Proof.
  unfold failure_text. assert (∃ c t, exn_type e = String c t ∧ is_space c = false) as (c & t & -> & Hc) by (destruct e; eexists _, _; done).
  change (String c t +:+ (": " +:+ exn_text e)) with (String c (t +:+ (": " +:+ exn_text e))).
  unfold strip. cbn [lstrip]. rewrite Hc. cbn [rstrip]. destruct (rstrip _); [by rewrite Hc|done].
Qed.
Lemma runs_raised v o (st r : AgentRuntime) now prior count e : stored v n r → ag_mount_attempt_id r = ag_mount_attempt_id st → 0 ≤ count →
  (∀ x, o = Some x → ag_state (ag_fields x) = AG_failed) →
  ∃ health rec life e2, let c := replaced r (failure_updates AG_failed health rec count now (failure_text e) life) in
    runs (mount_raised generation o st n now prior count e) v (Ok (ag_health c)) (log (put v c) e2) ∧ se_event_kind e2 = "mount_failed".
Proof using configured.
  intros Hr Ha Hc Ho. unfold mount_raised. rewrite <- Ha.
  set (transient := match e with TmuxTransientServerUnavailable _ => true | _ => false end).
  set (health := if transient then match o with None => "start-deferred" | Some r0 => str_or (Some (ag_health r0)) "start-deferred" end
                 else "start-failed").
  set (rec := if transient then "deferred" else "failed").
  set (life := if transient then match o with None => Some "degraded" | Some r0 => ag_lifecycle_state r0 end else Some "failed").
  exists health, rec, life. set (c := replaced r (failure_updates AG_failed health rec count now (failure_text e) life)).
  eexists. cbv zeta. split; [eapply (runs_bind _ _ _ (Some c, true) (put v c))|].
  - assert (match o with None => AG_failed | Some r0 => ag_state (ag_fields r0) end = AG_failed) as Est by (destruct o; [by apply Ho|done]).
    rewrite Est. destruct e; by apply runs_failure.
  - cbn beta iota. eapply runs_bind; [apply runs_append|apply runs_ret].
  - done.
Qed.

(** ** The claims *)
Variable time : nat → Z.
Hypothesis clock_reads : ∀ k, parse_utc_timestamp (clock_at k) = Some (true, time k).
Hypothesis clock_text : ∀ k, strip (clock_at k) ≠ "".

Lemma reads_stripped k : parse_utc_timestamp (strip (clock_at k)) = Some (true, time k).
Proof using clock_reads. rewrite <- (clock_reads k). unfold parse_utc_timestamp. by rewrite strip_idem. Qed.
Lemma failed_window (r : AgentRuntime) health rec count k reason life j : strip reason ≠ "" →
  is_in_backoff_window (replaced r (failure_updates AG_failed health rec count (clock_at k) reason life)) (clock_at j) =
  Ok (time j <? time k + 1000000 * backoff_delay_seconds count).
Proof using clock_reads clock_text.
  intros Hreason. set (c := replaced r _). destruct (failure_reason r AG_failed health rec count (clock_at k) reason life) as [Er El].
  fold c in Er, El. assert (ag_restart_count c = count) as Ec by (by destruct r as [[] []]).
  unfold is_in_backoff_window. rewrite Er, El, Ec, !normalized_set by done. cbn [from_option id].
  rewrite !strip_idem, (bool_decide_ne Hreason), (bool_decide_ne (clock_text k)). cbn [orb].
  by rewrite clock_reads, reads_stripped.
Qed.
Lemma runs_backoff v (r : AgentRuntime) : stored v n r → ag_state r = AG_failed → is_in_backoff_window r (clock_at (vw_ticks v)) = Ok true →
  runs (reconcile_agent generation n) v (Ok (ag_health r)) (tick (put v (aligned r))).
Proof using generation_positive configured mount_is name_normal spec spec_is spec_named workspace_named.
  intros Hr Es Hb. pose proof Hr as (_ & _ & V). pose proof (failed_unadopted r Es) as Hadopt.
  destruct (aligned_keeps r V) as (_ & <- & _). unfold reconcile_agent. eapply runs_bind; [by apply runs_resolved|]. cbn beta iota.
  rewrite failed_requires_mount by done. unfold ensure_mounted. rewrite mount_is. cbn [is_set negb andb].
  eapply runs_bind; [apply runs_now|]. apply (runs_bind _ _ _ true (tick (put v (aligned r)))); [|apply runs_ret].
  apply runs_lift. cbn [vw_ticks put]. by rewrite backoff_aligned.
Qed.

(** C34: agents that need nothing are left alone. While the project is being
    stopped, the pass does nothing at all. Otherwise an agent that was stopped, or
    that is starting, idle, busy or beyond recovery, and whose pane is not a
    foreign one, keeps its state, health, restarts and binding, whatever the
    functions that mount agents would do: no attempt is made, nothing is logged,
    and at the next pass there is nothing left to write. *)
Theorem agents_at_rest_are_left_alone v (r : AgentRuntime) :
  runs (reconcile_once generation true) v (Ok ((λ m, (m, "suspended")) <$> fc_agents.*1)) v ∧
  (stored v n r → ag_state r ≠ AG_failed → normalized_runtime_health r ≠ "pane-foreign" →
   should_attempt_background_recovery r = false → authority_adopt_required r generation = false →
   ∃ v' c, runs (reconcile_agent generation n) v (Ok (ag_health r)) v' ∧ v' = put v c ∧ same_runtime c r ∧ valid c ∧
     runs (reconcile_agent generation n) v' (Ok (ag_health r)) v').
Proof using generation_positive configured.
  split; [apply runs_ret|]. intros Hr Hs Hh Hrec Hadopt. pose proof Hr as (_ & _ & V).
  pose proof (aligned_same_runtime r V) as Hsame. destruct Hsame as (D & Es & Eh & _).
  assert (∀ x : AgentRuntime, ag_state x = ag_state r → ag_health x = ag_health r → ag_binding_source x = ag_binding_source r →
    should_attempt_background_recovery x = false ∧ normalized_runtime_health x ≠ "pane-foreign") as Hx.
  { intros x E1 E2 E3. unfold should_attempt_background_recovery, normalized_runtime_health in *. by rewrite E1, E2, E3. }
  assert (runtime_requires_mount (aligned r) = false) as Hm.
  { destruct (decide (ag_state r = AG_stopped)) as [E|E]; [by apply stopped_needs_nothing|].
    unfold runtime_requires_mount. rewrite Es. rewrite (bool_decide_eq_false_2 (ag_state r = AG_stopped)) by done.
    rewrite (bool_decide_eq_false_2 (ag_state r ∈ [AG_stopped; AG_failed])); [by destruct (_ ≠ˢ _)|].
    by intros [?|[?|?%elem_of_nil]%elem_of_cons]%elem_of_cons. }
  destruct (Hx (aligned r) Es Eh) as [Hrec' Hh']; [by destruct r as [[] []]|].
  exists (put v (aligned r)), (aligned r). split_and!; [by apply runs_settled|done|by apply aligned_same_runtime|apply D|].
  pose proof (stored_put v n r _ Hr D) as Ha. pose proof (runs_settled _ _ Ha (adopt_aligned r V Hadopt) Hh') as Hset.
  rewrite (aligned_idem r V), (put_same _ _ _ Ha), Eh in Hset. by apply Hset.
Qed.

(** C11: a failed mount is written down and waited for. When the function that
    mounts an agent raises, whatever it did before under the same attempt, the
    pass ends well: it leaves the agent failed, with the text of the exception,
    with one more failure counted and without an attempt, and says so in the
    log. The next attempt is due [min(2^k, 30)] seconds after this one, where
    [k] is the number of earlier restarts: every pass before that leaves the
    agent alone, and in any later one it is to be mounted again. *)
Theorem a_failed_mount_waits v o e :
  wants_mount v o →
  (∀ v1 (st : AgentRuntime), stored v1 n st → ag_state st = AG_starting → ∃ v2 r, runs (mount n) v1 (Err e) v2 ∧
     vw_events v2 = vw_events v1 ∧ stored v2 n r ∧ ag_mount_attempt_id r = ag_mount_attempt_id st) →
  ∃ h v' (c : AgentRuntime) e1 e2,
    runs (reconcile_agent generation n) v (Ok h) v' ∧ stored v' n c ∧ ag_health c = h ∧ ag_state c = AG_failed ∧
    ag_last_failure_reason c = Some (strip (failure_text e)) ∧ ag_restart_count c = count_of o + 1 ∧ ag_mount_attempt_id c = None ∧
    vw_events v' = vw_events v ++ [e1; e2] ∧ se_event_kind e1 = "mount_started" ∧ se_event_kind e2 = "mount_failed" ∧
    ∀ v2, stored v2 n c →
      if decide (time (vw_ticks v2) < time (vw_ticks v) + 1000000 * Z.min (2 ^ count_of o) 30)
      then ∃ v3, runs (reconcile_agent generation n) v2 (Ok h) v3 ∧ vw_events v3 = vw_events v2 ∧ vw_ids v3 = vw_ids v2
      else wants_mount v2 (Some c).
Proof using All.
  intros Hw Hmount. destruct (pass_starts v o Hw) as (o' & st & v1 & e1 & now & Hst & Es & Ec & Ec' & Ev1 & Ee1 & -> & Ho' & Hatt & Hids & Hpass).
  destruct (Hmount v1 st Hst Es) as (v2 & r & Hm & Ev2 & Hr & Ha).
  assert (0 ≤ count_of o) as Hcount.
  { rewrite <- Ec. destruct Hst as (_ & _ & V). by destruct (valid_numbered st V) as [(_ & _ & _ & _ & _ & ? & _) _]. }
  destruct (runs_raised v2 o' st r (clock_at (vw_ticks v)) (match o' with Some r => ag_health r | None => "unmounted" end)
    (ag_restart_count st + 1) e Hr Ha ltac:(lia) Ho') as (health & rec & life & e2 & Hend & Ee2).
  rewrite Ec in Hend.
  set (us := failure_updates AG_failed health rec (count_of o + 1) (clock_at (vw_ticks v)) (failure_text e) life) in *.
  set (c := replaced r us) in *. exists (ag_health c), (log (put v2 c) e2), c, e1, e2.
  assert (derived c r) as D.
  { destruct Hr as (_ & _ & V). apply replaced_derived; [done| |intros Hf; exfalso; revert Hf; by destruct r as [[] []]].
    repeat constructor. cbn. lia. }
  assert (ag_state c = AG_failed) as Estate by (by destruct r as [[] []]).
  destruct (failure_reason r AG_failed health rec (count_of o + 1) (clock_at (vw_ticks v)) (failure_text e) life) as [Er _].
  fold us c in Er. rewrite normalized_set in Er by apply failure_text_set.
  split_and!; try done.
  - apply Hpass. eapply after_start_raised; [exact Hm|]. rewrite Ec. exact Hend.
  - by apply (stored_put v2 n r).
  - by destruct r as [[] []].
  - by destruct r as [[] []].
  - cbn. by rewrite Ev2, Ev1, <- app_assoc.
  - intros v3 Hv3.
    pose proof (failed_window r health rec (count_of o + 1) (vw_ticks v) (failure_text e) life (vw_ticks v3) (failure_text_set e)) as Hwin.
    fold us c in Hwin. replace (backoff_delay_seconds (count_of o + 1)) with (Z.min (2 ^ count_of o) 30) in Hwin;
      [|unfold backoff_delay_seconds; do 2 f_equal; lia].
    case_decide as Ht; [|split; [apply Hv3|split_and!; [done..|]; rewrite Hwin; f_equal; lia]].
    exists (tick (put v3 (aligned c))). split; [|done]. apply runs_backoff; [done..|]. rewrite Hwin. f_equal. lia.
Qed.

(** A runtime that was mounted under the attempt of [st] and is well. *)
Definition mounted_under (st r : AgentRuntime) : Prop :=
  ag_state r ∈ [AG_starting; AG_idle; AG_busy] ∧ ag_health r ∈ ["healthy"; "restored"] ∧
  ag_mount_attempt_id r = ag_mount_attempt_id st ∧ default "" (ag_workspace_path r) ≠ "" ∧ authority_adopt_required r generation = false.
Lemma well_text h : h ∈ ["healthy"; "restored"] → lower (strip h) = h ∧ h ∈ SUCCESS_RUNTIME_HEALTHS ∧ h ≠ "" ∧ h ≠ "pane-foreign".
Proof. intros [->|[->|[]%elem_of_nil]%elem_of_cons]%elem_of_cons; (split_and!; [reflexivity|..|done|done]); [left|right; left]. Qed.
Lemma aligned_same (r : AgentRuntime) : valid r → (∀ g, generation = Some g → ag_daemon_generation r = Some g) →
  ag_desired_state r = Some "mounted" → ag_reconcile_state r = Some "steady" → ag_state r ∈ [AG_idle; AG_busy] → aligned r = r.
Proof.
  intros V Hg Hd Hrec Hs. apply replaced_same; [done|].
  assert (match generation with None => ag_daemon_generation r | Some _ => generation end = ag_daemon_generation r) as Eg.
  { destruct generation as [g|]; [symmetry; by apply Hg|done]. }
  assert ((if bool_decide (ag_state r = AG_stopped) then "stopped" else "mounted") = "mounted" ∧ resolved_reconcile_state r = Some "steady") as [Ed Er].
  { unfold resolved_reconcile_state. rewrite Hrec. by apply elem_of_cons in Hs as [->|[->|[]%elem_of_nil]%elem_of_cons]. }
  unfold align_updates. rewrite Eg, Ed, Er, <- Hd, <- Hrec. by destruct r as [[] []].
Qed.
Lemma aligned_sets (r : AgentRuntime) : ag_state r ≠ AG_stopped → ag_desired_state (aligned r) = Some "mounted" ∧
  ∀ g, generation = Some g → ag_daemon_generation (aligned r) = Some g.
Proof.
  intros Hs. split; [|intros g Hg; unfold aligned, align_updates; rewrite Hg; by destruct r as [[] []]].
  unfold aligned, align_updates. rewrite (bool_decide_eq_false_2 _ Hs). by destruct r as [[] []].
Qed.
Lemma success_fields (r : AgentRuntime) now count : let c := replaced r (success_updates r now count) in
  ag_state c = (if bool_decide (ag_state r = AG_starting) then AG_idle else ag_state r) ∧ ag_health c = ag_health r ∧
  ag_restart_count c = count ∧ ag_last_failure_reason c = None ∧ ag_mount_attempt_id c = None ∧ ag_reconcile_state c = Some "steady" ∧
  ag_desired_state c = Some (str_or (normalized_text (ag_desired_state r)) (default_desired_state (ag_state c))) ∧
  ag_daemon_generation c = ag_daemon_generation r ∧ ag_last_reconcile_at c = normalized_text (Some now).
Proof. by destruct r as [[] []]. Qed.
(** The end of an attempt whose mount went well. *)
Lemma returned_well v (st r : AgentRuntime) now prior count : stored v n r → mounted_under st r → 0 ≤ count →
  let a := aligned r in let c := replaced a (success_updates a now count) in
  ∃ e2, runs (mount_returned generation st n now prior count) v (Ok (ag_health c)) (log (put v c) e2) ∧ se_event_kind e2 = "mount_succeeded" ∧
  derived c r.
Proof using generation_positive configured.
  intros Hr (Hs & Hh & Ha & Hw & Hadopt) Hcount a c. pose proof Hr as (_ & _ & V). pose proof (aligned_derived r V) as D. fold a in D.
  destruct (aligned_keeps r V) as (E1 & E2 & _ & E4 & _). fold a in E1, E2, E4.
  assert (default "" (ag_workspace_path a) ≠ "") as Hwa by (unfold a, aligned; by destruct r as [[] []]).
  pose proof (stored_put v n r a Hr D) as Hsa. destruct (well_text _ Hh) as (W1 & W2 & W3 & _).
  assert (derived c a) as Dc.
  { pose proof (runs_success (put v a) a now count Hsa Hcount Hwa) as _. apply replaced_derived; [by apply D|by repeat constructor|].
    intros _. by destruct a as [[] []]. }
  eexists. split_and!; [| |].
  - unfold mount_returned. cbv zeta. eapply runs_bind; [by apply runs_get_stored|]. cbn beta iota.
    eapply runs_bind; [by apply runs_align|]. fold a.
    assert (str_or (Some (normalized_runtime_health a)) (ag_health a) = ag_health r) as ->.
    { unfold normalized_runtime_health. rewrite E2, W1. cbn. by rewrite bool_decide_ne. }
    rewrite (bool_decide_eq_true_2 _ W2). cbn [negb]. rewrite <- Ha, <- E4.
    eapply runs_bind; [by apply runs_success|]. cbn beta iota. fold c. rewrite put_put by (symmetry; apply Dc).
    eapply runs_bind; [apply runs_append|apply runs_ret].
  - done.
  - by apply (derived_trans c a r).
Qed.

(** C10: a mount that works makes the agent well, in one pass. When the function
    that mounts agents leaves the agent's runtime well under the attempt, an
    agent without a runtime, or one whose last failure is old enough, is healthy
    after the pass: idle or busy, bound, steady, without an attempt and without
    a failure on record, with one more restart counted and the success in the
    log. And that is where it rests: another pass changes nothing at all. *)
Theorem a_working_mount_restores v o :
  wants_mount v o →
  (∀ v1 (st : AgentRuntime), stored v1 n st → ag_state st = AG_starting → ∃ v2 r, runs (mount n) v1 (Ok tt) v2 ∧
     vw_events v2 = vw_events v1 ∧ stored v2 n r ∧ mounted_under st r) →
  ∃ h v' (c : AgentRuntime) e1 e2,
    runs (reconcile_agent generation n) v (Ok h) v' ∧ stored v' n c ∧ ag_health c = h ∧ h ∈ ["healthy"; "restored"] ∧
    ag_state c ∈ [AG_idle; AG_busy] ∧ ag_reconcile_state c = Some "steady" ∧ ag_last_failure_reason c = None ∧
    ag_mount_attempt_id c = None ∧ ag_restart_count c = count_of o + 1 ∧
    vw_events v' = vw_events v ++ [e1; e2] ∧ se_event_kind e1 = "mount_started" ∧ se_event_kind e2 = "mount_succeeded" ∧
    runs (reconcile_agent generation n) v' (Ok h) v'.
Proof using All.
  intros Hw Hmount. destruct (pass_starts v o Hw) as (o' & st & v1 & e1 & now & Hst & Es & Ec & Ec' & Ev1 & Ee1 & -> & Ho' & Hatt & Hids & Hpass).
  destruct (Hmount v1 st Hst Es) as (v2 & r & Hm & Ev2 & Hr & Hwell).
  assert (0 ≤ count_of o) as Hcount.
  { rewrite <- Ec. destruct Hst as (_ & _ & V). by destruct (valid_numbered st V) as [(_ & _ & _ & _ & _ & ? & _) _]. }
  destruct (returned_well v2 st r (clock_at (vw_ticks v)) (match o' with Some r => ag_health r | None => "unmounted" end)
    (ag_restart_count st + 1) Hr Hwell ltac:(lia)) as (e2 & Hend & Ee2 & D).
  set (a := aligned r) in *. rewrite Ec in Hend, D. pose proof Hr as (_ & _ & V).
  destruct (aligned_keeps r V) as (A1 & A2 & _). fold a in A1, A2. destruct Hwell as (Hs & Hh & _ & _ & _).
  assert (ag_state r ≠ AG_stopped) as Hns by (intros E; rewrite E in Hs; by apply (bool_decide_eq_true_2 (AG_stopped ∈ [AG_starting; AG_idle; AG_busy])) in Hs).
  destruct (aligned_sets r Hns) as [A3 A4]. fold a in A3, A4.
  clearbody a. destruct (success_fields a (clock_at (vw_ticks v)) (count_of o + 1)) as (F1 & F2 & F3 & F4 & F5 & F6 & F7 & F8 & _).
  set (c := replaced a (success_updates a (clock_at (vw_ticks v)) (count_of o + 1))) in *. clearbody c.
  rewrite A2 in F2. rewrite A1 in F1. rewrite A3 in F7. change (normalized_text (Some "mounted")) with (Some "mounted") in F7. cbn in F7.
  assert (ag_state c ∈ [AG_idle; AG_busy]) as Hsc.
  { rewrite F1. apply elem_of_cons in Hs as [->|Hs]; [left|]. by apply elem_of_cons in Hs as [->|[->|[]%elem_of_nil]%elem_of_cons]; [left|right; left]. }
  pose proof (stored_put v2 n r c Hr D) as Hsc'.
  assert (stored (log (put v2 c) e2) n c) as Hstored by exact Hsc'.
  assert (aligned c = c) as Eal.
  { apply aligned_same; [apply D| |done|done|done]. intros g Hg. rewrite F8. by apply A4. }
  exists (ag_health c), (log (put v2 c) e2), c, e1, e2. split_and!; try done.
  - apply Hpass. eapply after_start_returned; [exact Hm|]. rewrite Ec. exact Hend.
  - by rewrite F2.
  - cbn. by rewrite Ev2, Ev1, <- app_assoc.
  - destruct (well_text _ Hh) as (W1 & _ & _ & W4).
    pose proof (runs_settled (log (put v2 c) e2) c Hstored) as Hset. rewrite Eal, (put_same _ _ _ Hstored) in Hset. apply Hset.
    + unfold authority_adopt_required. destruct generation as [g|]; [|done].
      rewrite F8, (A4 g eq_refl), (bool_decide_eq_true_2 (Some g = Some g)) by done. by rewrite andb_false_r.
    + unfold normalized_runtime_health. by rewrite F2, W1.
    + unfold runtime_requires_mount. by apply elem_of_cons in Hsc as [->|[->|[]%elem_of_nil]%elem_of_cons]; rewrite F7.
    + unfold should_attempt_background_recovery. by apply elem_of_cons in Hsc as [->|[->|[]%elem_of_nil]%elem_of_cons].
Qed.

(** C12: an attempt that was overtaken changes nothing. When the runtime of the
    agent is under another attempt by the time the function that mounts it
    returns or raises, well or not, the pass neither finishes that attempt nor
    spoils it: state, health, restarts, attempt and binding of the runtime stay
    as the other attempt left them, and the log says that this one was
    superseded. *)
Theorem an_overtaken_attempt_changes_nothing v o (P : AgentRuntime → Prop) :
  wants_mount v o →
  (∀ v1 (st : AgentRuntime), stored v1 n st → ag_state st = AG_starting →
     ag_mount_attempt_id st = normalized_text (Some ("mount-" +:+ uuid_hex (vw_ids v))) → vw_ids v1 = S (vw_ids v) →
     ∃ v2 r res, runs (mount n) v1 res v2 ∧ vw_events v2 = vw_events v1 ∧ stored v2 n r ∧ P r ∧
       ag_mount_attempt_id r ≠ ag_mount_attempt_id st ∧ authority_adopt_required r generation = false) →
  ∃ v' (r c : AgentRuntime) e1 e2,
    runs (reconcile_agent generation n) v (Ok (ag_health r)) v' ∧ P r ∧ stored v' n c ∧ same_runtime c r ∧
    vw_events v' = vw_events v ++ [e1; e2] ∧ se_event_kind e1 = "mount_started" ∧ se_event_kind e2 = "mount_superseded".
Proof using All.
  intros Hw Hmount. destruct (pass_starts v o Hw) as (o' & st & v1 & e1 & now & Hst & Es & Ec & Ec' & Ev1 & Ee1 & -> & Ho' & Hatt & Hids & Hpass).
  destruct (Hmount v1 st Hst Es Hatt Hids) as (v2 & r & res & Hm & Ev2 & Hr & HP & Hne & Hadopt). pose proof Hr as (_ & _ & V).
  set (prior := match o' with Some r => ag_health r | None => "unmounted" end).
  pose proof (aligned_same_runtime r V) as Hsame. set (a := aligned r) in *. assert (derived a r) as D by apply Hsame.
  pose proof (stored_put v2 n r a Hr D) as Ha.
  assert (∃ c e2, runs (after_start o' st (clock_at (vw_ticks v))) v1 (Ok (ag_health (ag_fields c))) (log (put v2 c) e2) ∧
    se_event_kind e2 = "mount_superseded" ∧ same_runtime c r) as (c & e2 & Hend & Ee2 & Hc).
  { destruct res as [[]|e].
    - assert (ag_mount_attempt_id a ≠ ag_mount_attempt_id st) as Hne' by (by destruct Hsame as (_ & _ & _ & _ & ->)).
      destruct (runs_other_attempt (put v2 a) a (ag_mount_attempt_id st) Ha Hne') as [Hsucc Hfail].
      destruct (runs_superseded (put v2 a) a (clock_at (vw_ticks v)) prior (ag_mount_attempt_id st) Ha (adopt_aligned r V Hadopt))
        as (c & e2 & Hsup & Ee2 & Hca).
      exists c, e2. split_and!; [|done|by eapply same_trans].
      assert (put (put v2 a) c = put v2 c) as Eput.
      { apply put_put. destruct Hca as ((-> & _) & _). done. }
      rewrite Eput in Hsup. eapply after_start_returned; [exact Hm|]. unfold mount_returned. cbv zeta.
      eapply runs_bind; [by apply runs_get_stored|]. cbn beta iota. eapply runs_bind; [by apply runs_align|]. fold a.
      destruct (negb _).
      + unfold mount_unhealthy. cbv zeta. eapply runs_bind; [apply Hfail|]. exact Hsup.
      + eapply runs_bind; [apply Hsucc|]. exact Hsup.
    - destruct (runs_other_attempt v2 r (ag_mount_attempt_id st) Hr Hne) as [_ Hfail].
      destruct (runs_superseded v2 r (clock_at (vw_ticks v)) prior (ag_mount_attempt_id st) Hr Hadopt) as (c & e2 & Hsup & Ee2 & Hcr).
      exists c, e2. split_and!; [|done..]. eapply after_start_raised; [exact Hm|]. unfold mount_raised.
      apply (runs_bind _ _ _ (Some r, false) v2); [destruct e; apply Hfail|]. cbn beta iota. apply runs_ret_bind. exact Hsup. }
  exists (log (put v2 c) e2), r, c, e1, e2. split_and!; try done.
  - assert (ag_health c = ag_health r) as <- by apply Hc. by apply Hpass.
  - apply (stored_put v2 n r c Hr). apply Hc.
  - cbn. by rewrite Ev2, Ev1, <- app_assoc.
Qed.

(** *** Attaching is such a mount *)
Lemma attached_fields (e : AgentRuntime) pid ts a : ag_state e = AG_starting → valid e → at_health a = Some "healthy" →
  at_binding_source a = Some RB_provider_session → at_managed_by a = None → at_workspace_epoch a = None →
  let c := attached_runtime (Some e) spec pid ts a in
  ag_agent_name c = ag_agent_name e ∧ ag_state c = AG_idle ∧ ag_health c = "healthy" ∧ ag_mount_attempt_id c = ag_mount_attempt_id e ∧
  ag_binding_source c = RB_provider_session ∧ ag_workspace_path c = normalized_text (Some (at_workspace_path a)) ∧
  ag_daemon_generation c = next_daemon_generation (Some e) (at_daemon_generation a) ∧
  (positive_if_set (ag_daemon_generation c) = true → numbered c).
Proof.
  intros Es V Hh Hb Hm Hw. destruct (valid_numbered e V) as [(N1 & N2 & N3 & N4 & N5 & N6 & N7) _].
  unfold attached_runtime. destruct (resolve_session_fields _ _ _ _ _ _ _) as [[sf sid] sref].
  destruct (next_authority_epoch_generations _ _) as [b r] eqn:En.
  assert (0 < b) as Hbg.
  { revert En. unfold next_authority_epoch_generations. destruct (runtime_authority_changed _ _ _ _ _ _ _ _ _ _ _ _); intros [= <- _];
      match goal with |- context [0 <? ?x] => destruct (0 <? x) eqn:E end; lia. }
  unfold should_update_existing. rewrite Es, (bool_decide_eq_true_2 (AG_starting ∈ ACTIVE_STATES)) by left. cbv zeta. unfold health_for_attach. rewrite Hh, Hb.
  split_and!; [reflexivity..|]. intros Hg. unfold numbered. cbn -[str_or normalized_text strip]. split_and!; try done.
  - cbn. by rewrite (bool_decide_ne N1).
  - unfold preferred_workspace_epoch. by rewrite Hw.
  - unfold preferred_text. rewrite Hm. change (normalized_text None) with (@None string). cbn [str_or].
    assert (ag_managed_by e ≠ "") as N8 by (intros E; rewrite E in N7; by apply N7). by rewrite (bool_decide_ne N8).
Qed.
Lemma attach_mounts a v (st : AgentRuntime) : at_agent_name a = n → at_health a = Some "healthy" → strip (at_workspace_path a) ≠ "" →
  at_binding_source a = Some RB_provider_session → at_managed_by a = None → at_workspace_epoch a = None → at_daemon_generation a = None →
  stored v n st → ag_state st = AG_starting →
  ∃ v2 r, runs (_ ← attach generation a; mret tt) v (Ok tt) v2 ∧ vw_events v2 = vw_events v ∧ stored v2 n r ∧ mounted_under st r.
Proof using All.
  intros Hn Hh Hw Hb Hm He Hg Hst Es. pose proof Hst as (Hs & En & V). set (a' := with_generation a generation).
  set (c0 := attached_runtime (Some st) spec fc_project_id (clock_at (vw_ticks v)) a').
  destruct (attached_fields st fc_project_id (clock_at (vw_ticks v)) a' Es V Hh Hb Hm He) as (F1 & F2 & F3 & F4 & F5 & F6 & F7 & F8).
  fold c0 in F1, F2, F3, F4, F5, F6, F7, F8.
  assert (ag_daemon_generation c0 = match generation with Some g => Some g | None => ag_daemon_generation st end) as Edg.
  { rewrite F7. unfold next_daemon_generation, a', with_generation. cbn. rewrite Hg. by destruct generation. }
  pose proof (attached_generation st spec fc_project_id (clock_at (vw_ticks v)) a') as Hgen. cbv zeta in Hgen. fold c0 in Hgen.
  assert (normalized_text (ag_mount_attempt_id st) = ag_mount_attempt_id st) as Hatt.
  { pose proof V as (k & _ & _ & Hr)%post_init_inv. rewrite Hr. cbn. by rewrite normalized_text_idem. }
  assert (c0 = attached_runtime (Some st) spec fc_project_id (clock_at (vw_ticks v)) a') as E0 by done.
  clearbody c0. destruct (valid_numbered st V) as [(_ & _ & _ & Hdg & _) _].
  assert (runtime_post_init c0 = Ok (normalize_runtime_defaults (ag_authority c0) (ag_fields c0))) as Hc.
  { apply post_init_ok; [rewrite F1, En; exact name_normal|apply F8; rewrite Edg; by destruct generation|].
    intros _. rewrite F6, normalized_set; done. }
  set (c := normalize_runtime_defaults (ag_authority c0) (ag_fields c0)) in *.
  assert (ag_agent_name c = n ∧ gen c = gen c0 ∧ ag_state c = AG_idle ∧ ag_health c = "healthy" ∧
    ag_mount_attempt_id c = ag_mount_attempt_id st ∧ ag_binding_source c = RB_provider_session ∧
    ag_workspace_path c = Some (strip (at_workspace_path a)) ∧
    ag_daemon_generation c = match generation with Some g => Some g | None => ag_daemon_generation st end)
    as (Ec & Gc & C1 & C2 & C3 & C4 & C5 & C6).
  { unfold c. cbn. rewrite F1, F4, Edg. split_and!; try done. by rewrite F6, normalized_set. }
  clearbody c. assert (valid c) as Vc by (by eapply post_init_valid).
  assert (stores (tick v) c) as Hstore.
  { split_and!; [done|by rewrite Ec|]. intros x. rewrite Ec. cbn. rewrite Hs. intros [= <-]. rewrite Gc. lia. }
  exists (tick (put v c)), c. split_and!; [|done| |].
  - unfold attach, attach_runtime. fold a'. assert (at_agent_name a' = n) as -> by done.
    eapply runs_bind; [|apply runs_ret]. apply (runs_lift_bind _ _ spec); [done|]. eapply runs_bind; [by apply runs_get_stored|].
    eapply runs_bind; [apply runs_now|]. apply (runs_lift_bind _ _ c); [by rewrite <- E0|].
    apply (runs_lift_bind _ _ c); [|by apply (runs_upsert c (tick v))].
    unfold resolved_mount_attempt_runtime. rewrite C4, C3. cbn. rewrite (bool_decide_eq_true_2 (ag_mount_attempt_id st = ag_mount_attempt_id st)) by done.
    by rewrite andb_false_r.
  - split_and!; [cbn; by rewrite Ec, lookup_insert_eq|done|done].
  - split_and!; [rewrite C1; right; left|rewrite C2; left|done|by rewrite C5|].
    unfold authority_adopt_required. rewrite C6. destruct generation as [g|]; [|done].
    rewrite (bool_decide_eq_true_2 (Some g = Some g)) by done. by rewrite andb_false_r.
Qed.
End pass.

(** ** One agent, three functions that mount it *)
Definition numbered_uuid : FullUuids := pretty.
Definition world_with (mount : string → Fl unit) : SupervisionWorld := {|
  sw_mount_agent := Some mount; sw_remount_project := None; sw_mount_missing := λ _, true; sw_cmd_enabled := false;
  sw_windows_explicit := false; sw_tmux_socket_path := "/s"; sw_resolve_path := Some; sw_cmd_probe := CP_healthy
|}.
Definition pane_one : AttachArgs :=
  mkAttach "alpha" "/w/alpha" "tmux" None (Some "tmux:%1") None (Some "healthy") None None None None None None None None None
    (Some "/s") None None None None None None None None None None (Some RB_provider_session).
Definition attaching (_ : string) : Fl unit :=
  _ ← attach (H := second_clock) (H0 := one_agent) (Some 1) pane_one; mret tt.
Definition failing (_ : string) : Fl unit := st_raise (RuntimeError "no tmux").
(** Another attempt begins while this one is under way. *)
Definition overtaking (name : string) : Fl unit :=
  found ← get name;
  match found with
  | Some r => _ ← begin_mount_attempt (H0 := one_agent) (H1 := numbered_uuid) r "t"; mret tt
  | None => mret tt
  end.
Definition nothing : View := view no_fleet.
Abbreviation one_pass w := (reconcile_agent (HClock := second_clock) (HLib := second_lib) (HConfig := one_agent) (HIds := numbered_uuid)
  (HProviders := no_providers) (HWorld := w) (Some 1) "alpha").
Lemma one_workspace root : strip (@fc_workspace_path one_agent "alpha" root) ≠ "".
Proof. done. Qed.
Lemma one_project : @fc_project_id one_agent ≠ "".
Proof. done. Qed.
Lemma nothing_wants mount : wants_mount (HClock := second_clock) (HLib := second_lib) (HWorld := world_with mount) "alpha" nothing None.
Proof. done. Qed.
Lemma strokes_text k : strip (@clock_at second_clock k) ≠ "".
Proof. change (strip (strokes k) ≠ ""). rewrite strokes_strip. by destruct k. Qed.
Lemma a_working_mount_restores_witness : ∃ h v' (c : AgentRuntime),
  runs (one_pass (world_with attaching)) nothing (Ok h) v' ∧ stored v' "alpha" c ∧ h ∈ ["healthy"; "restored"] ∧ ag_restart_count c = 1 ∧
  runs (one_pass (world_with attaching)) v' (Ok h) v'.
Proof.
  destruct (a_working_mount_restores (HClock := second_clock) (HLib := second_lib) (HConfig := one_agent) (HIds := numbered_uuid)
    (HProviders := no_providers) (HWorld := world_with attaching) (Some 1) eq_refl "alpha" eq_refl one_spec eq_refl eq_refl one_project
    one_workspace eq_refl eq_refl attaching eq_refl (λ k, 1000000 * Z.of_nat k) second_reads strokes_text nothing None (nothing_wants _))
    as (h & v' & c & e1 & e2 & H1 & H2 & H3 & H4 & _ & _ & _ & _ & H5 & _ & _ & _ & H6).
  - intros v1 st Hst Es. by apply (attach_mounts (HClock := second_clock) (HLib := second_lib) (HConfig := one_agent) (HIds := numbered_uuid)
      (HProviders := no_providers) (HWorld := world_with attaching) (Some 1) eq_refl "alpha" eq_refl one_spec eq_refl eq_refl one_project
      one_workspace eq_refl eq_refl attaching eq_refl (λ k, 1000000 * Z.of_nat k) second_reads strokes_text pane_one).
  - exists h, v', c. exact (conj H1 (conj H2 (conj H4 (conj H5 H6)))).
Defined.
Lemma a_failed_mount_waits_witness : ∃ h v' (c : AgentRuntime),
  runs (one_pass (world_with failing)) nothing (Ok h) v' ∧ stored v' "alpha" c ∧ ag_last_failure_reason c = Some "RuntimeError: no tmux" ∧
  ag_restart_count c = 1 ∧
  ∃ v3, runs (one_pass (world_with failing)) (mkView (vw_files v') (vw_events v') 0 (vw_ids v')) (Ok h) v3 ∧ vw_events v3 = vw_events v'.
Proof.
  destruct (a_failed_mount_waits (HClock := second_clock) (HLib := second_lib) (HConfig := one_agent) (HIds := numbered_uuid)
    (HProviders := no_providers) (HWorld := world_with failing) (Some 1) eq_refl "alpha" eq_refl one_spec eq_refl eq_refl one_project
    one_workspace eq_refl eq_refl failing eq_refl (λ k, 1000000 * Z.of_nat k) second_reads strokes_text nothing None (RuntimeError "no tmux")
    (nothing_wants _)) as (h & v' & c & e1 & e2 & H1 & H2 & H3 & _ & H4 & H5 & _ & _ & _ & _ & H6).
  - intros v1 st Hst Es. exists v1, st. split_and!; [|done..]. intros f Hf Hv. by exists f.
  - exists h, v', c. refine (conj H1 (conj H2 (conj H4 (conj H5 _)))).
    destruct (H6 (mkView (vw_files v') (vw_events v') 0 (vw_ids v')) H2) as (v3 & H7 & H8 & _). exists v3. exact (conj H7 H8).
Defined.
(** The pass in which the attempt was overtaken. *)
Lemma overtaken v1 (st : AgentRuntime) : stored v1 "alpha" st → ag_state st = AG_starting →
  ag_mount_attempt_id st = Some "mount-0" → vw_ids v1 = 1%nat →
  ∃ v2 r, runs (overtaking "alpha") v1 (Ok tt) v2 ∧ vw_events v2 = vw_events v1 ∧ stored v2 "alpha" r ∧
    ag_mount_attempt_id r = Some "mount-1" ∧ ag_state (ag_fields r) = AG_starting.
Proof.
  intros Hst Es Ha Hi. pose proof (runs_begin (HConfig := one_agent) (HIds := numbered_uuid) "alpha" eq_refl v1 st "t" Hst Es) as Hb.
  cbv zeta in Hb. rewrite Hi in Hb. set (us := [_; _]) in Hb.
  eexists _, (replaced st us). split_and!.
  - unfold overtaking. eapply runs_bind; [by apply runs_get_stored|]. cbn beta iota. eapply runs_bind; [exact Hb|apply runs_ret].
  - done.
  - apply (stored_put (drawn v1) "alpha" st); [exact Hst|]. apply replaced_derived; [apply Hst|by repeat constructor|].
    intros Hf; exfalso; revert Hf. destruct st as [[] []]. cbn in Es. by subst.
  - by destruct st as [[] []].
  - rewrite <- Es. by destruct st as [[] []].
Qed.
Lemma an_overtaken_attempt_changes_nothing_witness : ∃ h v' (c : AgentRuntime),
  runs (one_pass (world_with overtaking)) nothing (Ok h) v' ∧ stored v' "alpha" c ∧ ag_mount_attempt_id c = Some "mount-1" ∧
  se_event_kind <$> vw_events v' = ["mount_started"; "mount_superseded"].
Proof.
  destruct (an_overtaken_attempt_changes_nothing (HClock := second_clock) (HLib := second_lib) (HConfig := one_agent)
    (HIds := numbered_uuid) (HProviders := no_providers) (HWorld := world_with overtaking) (Some 1) eq_refl "alpha" eq_refl one_spec
    eq_refl eq_refl one_project one_workspace eq_refl eq_refl overtaking eq_refl (λ k, 1000000 * Z.of_nat k) second_reads strokes_text
    nothing None (λ r, ag_mount_attempt_id r = Some "mount-1") (nothing_wants _))
    as (v' & r & c & e1 & e2 & H1 & H2 & H3 & (_ & _ & _ & _ & H4) & H5 & H6 & H7).
  - intros v1 st Hst Es Ha Hi. destruct (overtaken v1 st Hst Es Ha Hi) as (v2 & r & H1 & H2 & H3 & H4 & H5).
    exists v2, r, (Ok tt). split_and!; [exact H1|exact H2|exact H3|exact H4|by rewrite H4, Ha|].
    unfold authority_adopt_required. rewrite H5. apply andb_false_iff. left. by rewrite andb_false_r.
  - exists (ag_health (ag_fields r)), v', c. rewrite H5. cbn. rewrite H6, H7, <- H2. exact (conj H1 (conj H3 (conj H4 eq_refl))).
Defined.
Definition removed_fleet : Fleet := one_op (Op_remove "alpha") second_fleet.
Definition first_runtime : AgentRuntime := attached_runtime None one_spec "p" "t" (pane_args "%1").
Definition removed_runtime : AgentRuntime := default first_runtime (fl_files removed_fleet !! "alpha").
Lemma agents_at_rest_are_left_alone_witness : ∃ v' c, 
  runs (one_pass (world_with attaching)) (view removed_fleet) (Ok "stopped") v' ∧ v' = put (view removed_fleet) c ∧ ag_state (ag_fields c) = AG_stopped.
Proof.
  destruct (agents_at_rest_are_left_alone (HClock := second_clock) (HLib := second_lib) (HConfig := one_agent)
    (HIds := numbered_uuid) (HProviders := no_providers) (HWorld := world_with attaching) (Some 1) eq_refl "alpha" eq_refl
    (view removed_fleet) removed_runtime) as [_ Hrest].
  destruct Hrest as (v' & c & H1 & H2 & (_ & H3 & _) & _).
  - split_and!; vm_compute; reflexivity.
  - by vm_compute.
  - by vm_compute.
  - by vm_compute.
  - by vm_compute.
  - exists v', c. assert (ag_health removed_runtime = "stopped") as Eh by (vm_compute; reflexivity).
    assert (ag_state removed_runtime = AG_stopped) as Es by (vm_compute; reflexivity). rewrite Eh in H1. rewrite Es in H3.
    exact (conj H1 (conj H2 H3)).
Defined.
