(* ===== verification/ExecutionModels.v ===== *)
(** * Records of the execution service

    [provider_execution/base.py], [state_models.py], [reliability.py] and
    [service_runtime/models.py]: what an adapter is given and returns, and the
    state of an execution as it is stored between runs of the daemon. *)
From stdpp Require Import pretty.
From Stdlib Require Import QArith Sorted.
From S2P Require Import Prelude PyValue RuntimeValues Names CompletionModels.
Open Scope string_scope.
Open Scope list_scope.
Open Scope nat_scope.

(** ** Runtime state *)
Definition rt_get (k : string) (d : rtdict) : rtval := default RNone (od_lookup k d).
Definition rt_bool (v : rtval) : bool :=
  match v with
  | RNone => false
  | RBool b => b
  | RInt z => negb (z =? 0)%Z
  | RFloat q => negb (Qeq_bool q 0)
  | RStr s => s ≠ˢ ""
  | RBytes l => match l with [] => false | _ => true end
  | RTuple l | RList l => match l with [] => false | _ => true end
  | RDict d => match d with [] => false | _ => true end
  | RPath _ | RObject _ => true
  end.
Definition rt_or (v w : rtval) : rtval := if rt_bool v then v else w.

(** A value without paths, bytes, tuples and objects as the JSON value it is. *)
Fixpoint rt_json (v : rtval) : option pyval :=
  match v with
  | RNone => Some PNone
  | RBool b => Some (PBool b)
  | RInt z => Some (PInt z)
  | RFloat q => Some (PFloat q)
  | RStr s => Some (PStr s)
  | RList l => PList <$> (fix go l := match l with
      | [] => Some []
      | x :: l' => match rt_json x, go l' with Some y, Some ys => Some (y :: ys) | _, _ => None end
      end) l
  | RDict d => PDict <$> (fix go d := match d with
      | [] => Some []
      | (k, x) :: d' =>
          match rt_json x, go d' with Some y, Some ys => Some ((k, y) :: ys) | _, _ => None end
      end) d
  | RPath _ | RBytes _ | RTuple _ | RObject _ => None
  end.
(** [str]; not of bytes, tuples and containers that hold them. *)
Definition rt_str (v : rtval) : result string :=
  match v with
  | RPath p => Ok p
  | RObject text => Ok text
  | _ => match rt_json v with Some j => py_str j | None => Err (IllTyped "str of a runtime value") end
  end.
(** [str(v or '')]. *)
Definition rt_text (v : rtval) : result string := rt_str (rt_or v (RStr "")).
Definition rt_text_at (k : string) (d : rtdict) : result string := rt_text (rt_get k d).

(** ** Submissions *)
Record ProviderRuntimeContext := mkRuntimeContext {
  px_agent_name : string;
  px_workspace_path : option string;
  px_backend_type : option string;
  px_runtime_ref : option string;
  px_session_ref : option string;
  px_runtime_pid : option Z;
  px_runtime_health : option string;
  px_runtime_binding_source : option string
}.

Record ProviderSubmission := mkProviderSubmission {
  ps_job_id : string;
  ps_agent_name : string;
  ps_provider : string;
  ps_accepted_at : string;
  ps_ready_at : string;
  ps_source_kind : CompletionSourceKind;
  ps_reply : string;
  ps_status : CompletionStatus;
  ps_reason : string;
  ps_confidence : CompletionConfidence;
  ps_diagnostics : option pydict;
  ps_runtime_state : rtdict
}.
Definition with_runtime_state (state : rtdict) (s : ProviderSubmission) : ProviderSubmission :=
  mkProviderSubmission (ps_job_id s) (ps_agent_name s) (ps_provider s) (ps_accepted_at s) (ps_ready_at s)
    (ps_source_kind s) (ps_reply s) (ps_status s) (ps_reason s) (ps_confidence s) (ps_diagnostics s) state.

Record ProviderPollResult := mkPollResult {
  pr_submission : ProviderSubmission;
  pr_items : list CompletionItem;
  pr_decision : option CompletionDecision
}.
Definition poll_result_post_init (r : ProviderPollResult) : result ProviderPollResult :=
  _ ← raise_if (match pr_decision r with Some d => negb (cd_terminal d) | None => false end)
        (ValueError "provider poll decisions must be terminal");
  mret r.

Record ExecutionUpdate := mkUpdate {
  up_job_id : string;
  up_items : list CompletionItem;
  up_decision : option CompletionDecision
}.

(** [ExecutionRestoreResult]; the provider and the names are the job's own. *)
Record ExecutionRestoreResult := mkRestored {
  er_status : string;
  er_reason : string;
  er_resume_capable : bool;
  er_pending_items_count : Z;
  er_decision : option CompletionDecision
}.

(** ** Reliability policies *)
Record CompletionReliabilityPolicy := mkReliability {
  rp_provider : string;
  rp_no_terminal_timeout_s : Q;
  rp_primary_authority : string;
  rp_backend_type : option string;
  rp_timeout_status : CompletionStatus;
  rp_timeout_reason : string;
  rp_timeout_confidence : CompletionConfidence
}.
(** [max(0.0, q)]. *)
Definition q_max0 (q : Q) : Q := if Qle_bool q 0 then 0%Q else q.
Definition reliability_post_init (p : CompletionReliabilityPolicy) : result CompletionReliabilityPolicy :=
  let provider := lower (strip (rp_provider p)) in
  _ ← raise_if (provider =ˢ "") (ValueError "provider cannot be empty");
  mret (mkReliability provider (q_max0 (rp_no_terminal_timeout_s p)) (rp_primary_authority p)
          (or_none (lower (strip (default "" (rp_backend_type p)))))
          (rp_timeout_status p) (rp_timeout_reason p) (rp_timeout_confidence p)).

Definition upper_char (c : ascii) : ascii :=
  if (97 <=? code c) && (code c <=? 122) then ascii_of_nat (code c - 32) else c.
Definition timeout_env_name (p : CompletionReliabilityPolicy) : string :=
  "CCB_" +:+ string_map (λ c, if (code c =? 45) then "_"%char else upper_char c) (rp_provider p)
    +:+ "_NO_TERMINAL_TIMEOUT_S".

(** [os.environ.get], and [float] of a text that denotes a finite number. *)
Class Environ := { environ : string → option string; float_text : string → option Q }.
Definition effective_no_terminal_timeout_s `{Environ} (p : CompletionReliabilityPolicy) : Q :=
  let raw := strip (default "" (environ (timeout_env_name p))) in
  if raw =ˢ "" then rp_no_terminal_timeout_s p
  else match float_text raw with
       | Some q => q_max0 q
       | None => rp_no_terminal_timeout_s p
       end.

(** ** Persisted executions *)
Definition execution_schema_version : Z := 3.

Record PersistedExecutionState := mkPersisted {
  pe_submission : ProviderSubmission;
  pe_runtime_context : option ProviderRuntimeContext;
  pe_resume_capable : bool;
  pe_persisted_at : string;
  pe_pending_decision : option CompletionDecision;
  pe_pending_items : list CompletionItem;
  pe_applied_event_seqs : list Z
}.
Definition pe_job_id (p : PersistedExecutionState) : string := ps_job_id (pe_submission p).
Definition pe_provider (p : PersistedExecutionState) : string := ps_provider (pe_submission p).

Definition runtime_context_to_record (c : ProviderRuntimeContext) : pydict :=
  [ ("agent_name", PStr (px_agent_name c));
    ("workspace_path", of_opt_str (px_workspace_path c));
    ("backend_type", of_opt_str (px_backend_type c));
    ("runtime_ref", of_opt_str (px_runtime_ref c));
    ("session_ref", of_opt_str (px_session_ref c));
    ("runtime_pid", of_opt_int (px_runtime_pid c));
    ("runtime_health", of_opt_str (px_runtime_health c)) ].
Definition runtime_context_from_record (d : pydict) : result ProviderRuntimeContext :=
  agent ← str_at "agent_name" d;
  workspace ← opt_str "workspace_path" (dget "workspace_path" d);
  backend ← opt_str "backend_type" (dget "backend_type" d);
  ref ← opt_str "runtime_ref" (dget "runtime_ref" d);
  session ← opt_str "session_ref" (dget "session_ref" d);
  pid ← opt_int "runtime_pid" (dget "runtime_pid" d);
  health ← opt_str "runtime_health" (dget "runtime_health" d);
  mret (mkRuntimeContext agent workspace backend ref session pid health None).

(** [Enum(str(value))]. *)
Definition enum_str {A} (cls : string) (value : A → string) (members : list A) (v : pyval) : result A :=
  s ← py_str v; enum_of cls value members s.
Definition source_kinds : list CompletionSourceKind :=
  [SK_protocol_event_stream; SK_structured_result_stream; SK_session_event_log; SK_session_snapshot;
   SK_terminal_text].
Definition confidences : list CompletionConfidence := [CC_exact; CC_observed; CC_degraded].
Definition item_kinds : list CompletionItemKind :=
  [IK_anchor_seen; IK_assistant_chunk; IK_assistant_final; IK_tool_call; IK_tool_result; IK_result;
   IK_turn_boundary; IK_turn_aborted; IK_cancel_info; IK_error; IK_pane_dead; IK_session_snapshot;
   IK_session_mutation; IK_session_rotate].

Section codec.
Context `{PathLib}.

Definition provider_submission_to_record (s : ProviderSubmission) : result pydict :=
  state ← serialize_runtime_state (RDict (ps_runtime_state s));
  mret [ ("job_id", PStr (ps_job_id s));
         ("agent_name", PStr (ps_agent_name s));
         ("provider", PStr (ps_provider s));
         ("accepted_at", PStr (ps_accepted_at s));
         ("ready_at", PStr (ps_ready_at s));
         ("source_kind", PStr (source_kind_value (ps_source_kind s)));
         ("reply", PStr (ps_reply s));
         ("status", PStr (completion_status_value (ps_status s)));
         ("reason", PStr (ps_reason s));
         ("confidence", PStr (completion_confidence_value (ps_confidence s)));
         ("diagnostics", PDict (default [] (ps_diagnostics s)));
         ("runtime_state", state) ].

(** The key of earlier versions is renamed. *)
Definition rename_req_id (state : rtdict) : rtdict :=
  let state :=
    match od_lookup "request_anchor" state with
    | None => if rt_bool (rt_get "req_id" state)
              then od_set "request_anchor" (rt_get "req_id" state) state else state
    | Some _ => state
    end in
  od_pop "req_id" state.

Definition provider_submission_from_record (d : pydict) : result ProviderSubmission :=
  state ← deserialize_runtime_state (py_or (dget "runtime_state" d) (PDict []));
  state ← match state with RDict state => Ok state | _ => Err (IllTyped "runtime_state") end;
  let state := rename_req_id state in
  job_id ← str_at "job_id" d;
  agent ← str_at "agent_name" d;
  provider ← str_at "provider" d;
  accepted ← str_at "accepted_at" d;
  ready ← str_at "ready_at" d;
  kind ← (dindex "source_kind" d ≫= enum_str "CompletionSourceKind" source_kind_value source_kinds);
  reply ← py_str_or_empty (dget "reply" d);
  status ← enum_str "CompletionStatus" completion_status_value completion_statuses
             (py_or (dget "status" d) (PStr (completion_status_value CS_incomplete)));
  reason ← py_str (py_or (dget "reason" d) (PStr "in_progress"));
  confidence ← enum_str "CompletionConfidence" completion_confidence_value confidences
                 (py_or (dget "confidence" d) (PStr (completion_confidence_value CC_observed)));
  diagnostics ← dict_or_empty "diagnostics" (dget "diagnostics" d);
  mret (mkProviderSubmission job_id agent provider accepted ready kind reply status reason confidence
          (Some diagnostics) state).

(** The cursor of a stored item or decision: its header is not checked. *)
Definition stored_cursor (d : pydict) : result CompletionCursor :=
  kind ← (dindex "source_kind" d ≫= enum_str "CompletionSourceKind" source_kind_value source_kinds);
  opaque ← opt_str "opaque_cursor" (dget "opaque_cursor" d);
  path ← opt_str "session_path" (dget "session_path" d);
  offset ← opt_int "offset" (dget "offset" d);
  line_no ← opt_int "line_no" (dget "line_no" d);
  seq ← opt_int "event_seq" (dget "event_seq" d);
  updated ← opt_str "updated_at" (dget "updated_at" d);
  cursor_post_init (mkCursor kind opaque path offset line_no seq updated).

Definition stored_decision (d : pydict) : result CompletionDecision :=
  cursor ← opt_record "source_cursor" stored_cursor (dget "source_cursor" d);
  status ← enum_str "CompletionStatus" completion_status_value completion_statuses
             (py_or (dget "status" d) (PStr (completion_status_value CS_incomplete)));
  reason ← opt_str "reason" (dget "reason" d);
  confidence ← match dget "confidence" d with
               | PNone => mret None
               | v => (c ← enum_str "CompletionConfidence" completion_confidence_value confidences v;
                       mret (Some c))
               end;
  reply ← py_str_or_empty (dget "reply" d);
  turn ← opt_str "provider_turn_ref" (dget "provider_turn_ref" d);
  finished ← opt_str "finished_at" (dget "finished_at" d);
  diagnostics ← dict_or_empty "diagnostics" (dget "diagnostics" d);
  decision_post_init
    (mkDecision (bool_at "terminal" d) status reason confidence reply
       (bool_at "anchor_seen" d) (bool_at "reply_started" d) (bool_at "reply_stable" d)
       turn cursor finished diagnostics).

Definition stored_item (d : pydict) : result CompletionItem :=
  cd ← (dindex "cursor" d ≫= as_dict "cursor");
  cursor ← stored_cursor cd;
  kind ← (dindex "kind" d ≫= enum_str "CompletionItemKind" completion_item_kind_value item_kinds);
  timestamp ← str_at "timestamp" d;
  provider ← str_at "provider" d;
  agent ← str_at "agent_name" d;
  req ← str_at "req_id" d;
  payload ← dict_or_empty "payload" (dget "payload" d);
  item_post_init (mkItem kind timestamp cursor provider agent req payload).

(** [sorted({int(value) for value in values})]. *)
Fixpoint insert_seq (z : Z) (l : list Z) : list Z :=
  match l with
  | [] => [z]
  | y :: l' => if (z <? y)%Z then z :: l else if (z =? y)%Z then l else y :: insert_seq z l'
  end.
Definition sorted_seqs (l : list Z) : list Z := foldr insert_seq [] l.

Fixpoint each_value {A} (f : pyval → result A) (l : list pyval) : result (list A) :=
  match l with [] => mret [] | v :: l' => (a ← f v; rest ← each_value f l'; mret (a :: rest)) end.
Definition list_at (k : string) (d : pydict) : result (list pyval) :=
  match dget_or k (PList []) d with PList l => Ok l | _ => Err (IllTyped k) end.

Definition persisted_to_record (p : PersistedExecutionState) : result pydict :=
  submission ← provider_submission_to_record (pe_submission p);
  mret [ ("schema_version", PInt execution_schema_version);
         ("record_type", PStr "execution_state");
         ("submission", PDict submission);
         ("runtime_context", of_opt_record runtime_context_to_record (pe_runtime_context p));
         ("resume_capable", PBool (pe_resume_capable p));
         ("persisted_at", PStr (pe_persisted_at p));
         ("pending_decision", of_opt_record decision_to_record (pe_pending_decision p));
         ("pending_items", PList ((λ i, PDict (item_to_record i)) <$> pe_pending_items p));
         ("applied_event_seqs", PList (PInt <$> pe_applied_event_seqs p)) ].

Definition persisted_from_record (d : pydict) : result PersistedExecutionState :=
  _ ← validate_record execution_schema_version "execution_state" d;
  sd ← (dindex "submission" d ≫= as_dict "submission");
  submission ← provider_submission_from_record sd;
  context ← opt_record "runtime_context" runtime_context_from_record (dget "runtime_context" d);
  persisted_at ← py_str_or_empty (dget "persisted_at" d);
  decision ← opt_record "pending_decision" stored_decision (dget "pending_decision" d);
  item_values ← list_at "pending_items" d;
  items ← each_value (λ v, as_dict "pending_items" v ≫= stored_item) item_values;
  seq_values ← list_at "applied_event_seqs" d;
  seqs ← each_value py_int seq_values;
  mret (mkPersisted submission context (bool_at "resume_capable" d) persisted_at decision items
          (sorted_seqs seqs)).
End codec.

(** ** What a stored execution comes back as *)
Definition stored_context (c : ProviderRuntimeContext) : ProviderRuntimeContext :=
  mkRuntimeContext (px_agent_name c) (px_workspace_path c) (px_backend_type c) (px_runtime_ref c)
    (px_session_ref c) (px_runtime_pid c) (px_runtime_health c) None.
Definition stored_submission (s : ProviderSubmission) : ProviderSubmission :=
  mkProviderSubmission (ps_job_id s) (ps_agent_name s) (ps_provider s) (ps_accepted_at s) (ps_ready_at s)
    (ps_source_kind s) (ps_reply s) (ps_status s)
    (if ps_reason s =ˢ "" then "in_progress" else ps_reason s) (ps_confidence s)
    (Some (default [] (ps_diagnostics s))) (rename_req_id (ps_runtime_state s)).
Definition stored_form (p : PersistedExecutionState) : PersistedExecutionState :=
  mkPersisted (stored_submission (pe_submission p)) (stored_context <$> pe_runtime_context p)
    (pe_resume_capable p) (pe_persisted_at p) (pe_pending_decision p) (pe_pending_items p)
    (sorted_seqs (pe_applied_event_seqs p)).

Section codec_lemmas.
Context `{PathLib}.

Lemma enum_source_kind k :
  enum_str "CompletionSourceKind" source_kind_value source_kinds (PStr (source_kind_value k)) = Ok k.
Proof. by destruct k. Qed.
Lemma enum_status s v :
  enum_str "CompletionStatus" completion_status_value completion_statuses
    (py_or (PStr (completion_status_value s)) v) = Ok s.
Proof. by destruct s. Qed.
Lemma enum_confidence c v :
  enum_str "CompletionConfidence" completion_confidence_value confidences
    (py_or (PStr (completion_confidence_value c)) v) = Ok c.
Proof. by destruct c. Qed.
Lemma enum_item_kind k :
  enum_str "CompletionItemKind" completion_item_kind_value item_kinds
    (PStr (completion_item_kind_value k)) = Ok k.
Proof. by destruct k. Qed.
Lemma py_str_or_text s t : py_str (py_or (PStr s) (PStr t)) = Ok (if s =ˢ "" then t else s).
Proof. unfold py_or. cbn. by case_bool_decide. Qed.

Lemma runtime_context_from_to c :
  runtime_context_from_record (runtime_context_to_record c) = Ok (stored_context c).
Proof.
  unfold runtime_context_from_record, runtime_context_to_record. dict_simpl.
  by rewrite opt_int_of.
Qed.

Lemma stored_cursor_of c : cursor_post_init c = Ok c → stored_cursor (cursor_to_record c) = Ok c.
Proof.
  intros Hv. unfold stored_cursor, cursor_to_record. dict_simpl.
  rewrite !result_bind_ok, enum_source_kind, !opt_int_of, !result_bind_ok. by destruct c.
Qed.

Lemma stored_decision_of d :
  cursor_valid (cd_source_cursor d) → decision_post_init d = Ok d →
  stored_decision (decision_to_record d) = Ok d.
Proof.
  intros Hc Hv. unfold stored_decision, decision_to_record, bool_at. dict_simpl.
  rewrite opt_record_of by (intros x Hx; by apply stored_cursor_of, Hc).
  rewrite enum_status, !result_bind_ok.
  replace (match of_opt_str _ with PNone => _ | _ => _ end)
    with (Ok (cd_confidence d)) by by destruct d as [? ? ? [[]|]].
  rewrite !result_bind_ok, dict_or_empty_of, !result_bind_ok. cbn [py_bool]. by destruct d.
Qed.

Lemma stored_item_of i :
  cursor_post_init (it_cursor i) = Ok (it_cursor i) → item_post_init i = Ok i →
  stored_item (item_to_record i) = Ok i.
Proof.
  intros Hc Hv. unfold stored_item, item_to_record. dict_simpl.
  cbn [mbind result_bind as_dict py_str]. rewrite stored_cursor_of by done.
  cbn [mbind result_bind]. rewrite enum_item_kind, dict_or_empty_of. by destruct i.
Qed.

Lemma provider_submission_from_to s :
  storable (RDict (ps_runtime_state s)) = true →
  ∃ d, provider_submission_to_record s = Ok d ∧ provider_submission_from_record d = Ok (stored_submission s).
Proof.
  intros (j & Hj & Hd)%serialize_roundtrip. unfold provider_submission_to_record. rewrite Hj.
  eexists. split; [reflexivity|]. unfold provider_submission_from_record. dict_simpl.
  assert (deserialize_runtime_state (py_or j (PDict [])) = Ok (RDict (ps_runtime_state s))) as ->.
  { unfold py_or. destruct (py_bool j) eqn:Hb; [done|]. rewrite <- Hd. destruct j as [| | | | |[]|[]]; try done.
    all: cbn in Hd; try done; by destruct (b : bool). }
  cbn [mbind result_bind]. cbn [py_str]. rewrite !result_bind_ok, enum_source_kind, enum_status, py_str_or_text,
    enum_confidence, dict_or_empty_of. done.
Qed.

Lemma each_value_of {A} (f : pyval → result A) (to : A → pyval) l :
  Forall (λ a, f (to a) = Ok a) l → each_value f (to <$> l) = Ok l.
Proof. induction 1 as [|a l Ha _ IH]; [done|]. cbn. rewrite Ha. cbn. by rewrite IH. Qed.
End codec_lemmas.

(** The values constructors built. *)
Definition decision_ok (d : CompletionDecision) : Prop :=
  cursor_valid (cd_source_cursor d) ∧ decision_post_init d = Ok d.
Definition item_ok (i : CompletionItem) : Prop :=
  cursor_post_init (it_cursor i) = Ok (it_cursor i) ∧ item_post_init i = Ok i.
Lemma item_post_init_idempotent i i' : item_post_init i = Ok i' → it_cursor i' = it_cursor i ∧ item_post_init i' = Ok i'.
Proof.
  unfold item_post_init. intros (u & Hu & Hi)%result_bind_Ok_inv.
  apply result_bind_Ok_inv in Hi as (v & Hv & (n & Hn & Hi)%result_bind_Ok_inv).
  apply result_bind_Ok_inv in Hi as (w & Hw & [= <-]). split; [done|].
  cbn [it_timestamp it_provider it_agent_name it_req_id it_kind it_cursor it_payload].
  rewrite lower_strip_idem, Hu, result_bind_ok, Hv, result_bind_ok, (normalize_agent_name_idem' _ _ Hn), result_bind_ok, Hw.
  done.
Qed.
Record persistable `{PathLib} (p : PersistedExecutionState) : Prop := {
  pp_state : storable (RDict (ps_runtime_state (pe_submission p))) = true;
  pp_decision : ∀ d, pe_pending_decision p = Some d → decision_ok d;
  pp_items : Forall item_ok (pe_pending_items p)
}.

Lemma persisted_from_to `{PathLib} p : persistable p →
  ∃ d, persisted_to_record p = Ok d ∧ persisted_from_record d = Ok (stored_form p).
Proof.
  intros [K1 K2 K3]. destruct (provider_submission_from_to _ K1) as (sd & Hs & Hsd).
  unfold persisted_to_record. rewrite Hs. eexists. split; [reflexivity|].
  unfold persisted_from_record, list_at, bool_at. rewrite validate_record_ok by reflexivity.
  cbn [mbind result_bind]. dict_simpl. cbn [mbind result_bind as_dict].
  rewrite Hsd. cbn [mbind result_bind].
  assert (opt_record "runtime_context" runtime_context_from_record
    (of_opt_record runtime_context_to_record (pe_runtime_context p)) = Ok (stored_context <$> pe_runtime_context p)) as ->.
  { destruct (pe_runtime_context p) as [c|]; [|done]. cbn -[runtime_context_from_record]. by rewrite runtime_context_from_to. }
  cbn [mbind result_bind]. rewrite opt_record_of by (intros x Hx; apply stored_decision_of; by apply (K2 x Hx)).
  cbn [mbind result_bind]. rewrite (each_value_of _ (λ i, PDict (item_to_record i))).
  2: { eapply Forall_impl; [exact K3|]. intros i [Hc Hi]. cbn. by apply stored_item_of. }
  cbn [mbind result_bind]. rewrite each_value_of by (apply Forall_true; by intros z). done.
Qed.

(** [sorted] of a set of integers, and its elements. *)
Lemma insert_seq_elem z x l : x ∈ insert_seq z l ↔ x = z ∨ x ∈ l.
Proof.
  induction l as [|y l IH]; cbn [insert_seq]; [rewrite elem_of_cons; done|].
  destruct (Z.ltb_spec z y), (Z.eqb_spec z y); subst; rewrite ?elem_of_cons, ?IH; firstorder congruence.
Qed.
Lemma sorted_seqs_elem x l : x ∈ sorted_seqs l ↔ x ∈ l.
Proof.
  induction l as [|y l IH]; [done|]. cbn [sorted_seqs foldr]. rewrite insert_seq_elem, elem_of_cons.
  fold (sorted_seqs l). by rewrite IH.
Qed.

Lemma insert_seq_first z l : (∀ x, x ∈ l → (z < x)%Z) → insert_seq z l = z :: l.
Proof.
  destruct l as [|y l]; intros Hz; [done|]. cbn. specialize (Hz y (list_elem_of_here y l)).
  by destruct (Z.ltb_spec z y); [|lia].
Qed.
Lemma insert_seq_sorted z l : StronglySorted Z.lt l → StronglySorted Z.lt (insert_seq z l).
Proof.
  induction 1 as [|y l Hl IH Hy]; cbn [insert_seq]; [repeat constructor|].
  destruct (Z.ltb_spec z y); [constructor; [by constructor|]; constructor; [done|]; eapply Forall_impl; [exact Hy|]; intros; cbn; lia|].
  destruct (Z.eqb_spec z y); [by constructor|]. constructor; [done|].
  apply Forall_forall. intros x [->|Hx]%insert_seq_elem; [lia|]. by apply (proj1 (Forall_forall _ _) Hy).
Qed.
Lemma sorted_seqs_sorted l : StronglySorted Z.lt (sorted_seqs l).
Proof. induction l as [|y l IH]; [constructor|]. by apply insert_seq_sorted. Qed.
Lemma sorted_seqs_id l : StronglySorted Z.lt l → sorted_seqs l = l.
Proof.
  induction 1 as [|y l Hl IH Hy]; [done|]. cbn [sorted_seqs foldr]. fold (sorted_seqs l). rewrite IH.
  apply insert_seq_first. by apply (proj1 (Forall_forall _ _) Hy).
Qed.

Section storable.
Context `{PathLib}.
Lemma storable_dict_all d :
  storable (RDict d) = true ↔ Forall (λ kv, kv.1 ≠ "__ccb_type__" ∧ storable kv.2 = true) d.
Proof.
  change (storable (RDict d)) with (storable_entries d). induction d as [|[k v] d IH]; [done|].
  cbn [storable_entries]. rewrite Forall_cons, <- IH, !andb_true_iff, negb_true_iff, String.eqb_neq. done.
Qed.
Lemma storable_pop k d : storable (RDict d) = true → storable (RDict (od_pop k d)) = true.
Proof.
  rewrite !storable_dict_all, !Forall_forall. intros Hd kv Hkv. apply Hd.
  apply elem_of_filter_bool in Hkv. by destruct Hkv.
Qed.
Lemma storable_set k v d :
  k ≠ "__ccb_type__" → storable v = true → storable (RDict d) = true → storable (RDict (od_set k v d)) = true.
Proof.
  rewrite !storable_dict_all. intros Hk Hv. induction 1 as [|[k' v'] d Hx Hd IH]; cbn; [by repeat constructor|].
  destruct (String.eqb k k'); by constructor.
Qed.
Lemma storable_get k d : storable (RDict d) = true → storable (rt_get k d) = true.
Proof.
  rewrite storable_dict_all. unfold rt_get. induction 1 as [|[k' v] d [_ Hv] _ IH]; [done|]. cbn.
  by destruct (String.eqb k k').
Qed.

Lemma storable_rename d : storable (RDict d) = true → storable (RDict (rename_req_id d)) = true.
Proof.
  intros Hd. unfold rename_req_id. apply storable_pop.
  destruct (od_lookup _ d); [done|]. destruct (rt_bool _); [|done].
  apply storable_set; [done|by apply storable_get|done].
Qed.
Lemma rename_idempotent d : rename_req_id (rename_req_id d) = rename_req_id d.
Proof.
  unfold rename_req_id at 1. assert (od_lookup "req_id" (rename_req_id d) = None) as Hn.
  { unfold rename_req_id. apply od_lookup_pop. }
  unfold rt_get. rewrite Hn. cbn [default from_option rt_bool].
  assert (∀ o : option rtval, (match o with Some _ => rename_req_id d | None => rename_req_id d end) = rename_req_id d)
    as Hm by by intros [].
  rewrite Hm. by apply od_pop_absent.
Qed.

Lemma stored_form_idempotent p : stored_form (stored_form p) = stored_form p.
Proof.
  unfold stored_form, stored_submission. cbn -[rename_req_id sorted_seqs]. rewrite rename_idempotent, sorted_seqs_id by apply sorted_seqs_sorted.
  f_equal; [|by destruct (pe_runtime_context p)]. f_equal. by repeat case_bool_decide.
Qed.
Lemma stored_form_persistable p : persistable p → persistable (stored_form p).
Proof. intros [K1 K2 K3]. split; [by apply storable_rename|exact K2|exact K3]. Qed.

(** Executions survive a restart.  The state of an execution (submission,
    runtime context, undelivered items, pending decision, acknowledged items)
    is written and read back in its stored form: the runtime state with its
    paths, bytes and tuples, the items and the decision as they were, the
    acknowledged event numbers as a sorted set; what is lost is the binding
    source of the runtime context.  What was read is written and read back
    unchanged. *)
Theorem execution_state_roundtrip p (Hp : persistable p) :
  (∃ d, persisted_to_record p = Ok d ∧ persisted_from_record d = Ok (stored_form p)) ∧
  (∃ d, persisted_to_record (stored_form p) = Ok d ∧ persisted_from_record d = Ok (stored_form p)) ∧
  pe_pending_items (stored_form p) = pe_pending_items p ∧
  pe_pending_decision (stored_form p) = pe_pending_decision p ∧
  (∀ z, z ∈ pe_applied_event_seqs (stored_form p) ↔ z ∈ pe_applied_event_seqs p) ∧
  (∀ k, k ≠ "req_id" → k ≠ "request_anchor" →
     od_lookup k (ps_runtime_state (pe_submission (stored_form p))) =
       od_lookup k (ps_runtime_state (pe_submission p))).
Proof.
  split_and!; [by apply persisted_from_to| |done|done|intros z; apply sorted_seqs_elem|].
  - destruct (persisted_from_to (stored_form p)) as (d & K1 & K2); [by apply stored_form_persistable|].
    rewrite stored_form_idempotent in K2. by exists d.
  - intros k K1 K2. cbn. unfold rename_req_id. rewrite od_lookup_pop_ne by done.
    destruct (od_lookup "request_anchor" _); [done|]. destruct (rt_bool _); [|done].
    by apply od_lookup_set_ne.
Qed.
End storable.

(** A stored execution with an undelivered item, a path in its state and a
    [req_id] of an older daemon. *)
#[local] Instance home_paths : PathLib := λ s, Ok s.
Definition stored_example : PersistedExecutionState :=
  mkPersisted
    (mkProviderSubmission "job_1" "agent1" "codex" "t0" "t1" SK_protocol_event_stream "" CS_incomplete "" CC_exact None
       [("req_id", RStr "job_1"); ("log", RPath "/tmp/log"); ("seen", RTuple [RInt 1%Z; RBytes ["a"%char]])])
    None true "t2" None
    [mkItem IK_assistant_chunk "t1" (mkCursor SK_protocol_event_stream None None None None (Some 3%Z) None)
       "codex" "agent1" "job_1" [("text", PStr "hi")]]
    [7; 2; 7]%Z.
Lemma execution_state_roundtrip_witness :
  persistable stored_example ∧
  (∃ d, persisted_to_record stored_example = Ok d ∧ persisted_from_record d = Ok (stored_form stored_example)) ∧
  pe_applied_event_seqs (stored_form stored_example) = [2; 7]%Z.
Proof.
  assert (persistable stored_example) as Hp.
  { split; [vm_compute; reflexivity|intros d Hd; discriminate Hd|].
    constructor; [|constructor]. split; vm_compute; reflexivity. }
  split; [exact Hp|]. split; [|reflexivity]. apply (execution_state_roundtrip stored_example Hp).
Defined.
