(* ===== verification/Detectors.v ===== *)
(** * Completion detectors

    [completion/detectors]: the state machines that decide, item by item, when
    a provider's turn is over.  The five classes share the base class; the
    class of a detector is its completion family. *)
From S2P Require Import Prelude PyValue Names CompletionModels.
From Stdlib Require Import QArith.
Open Scope string_scope.
Open Scope list_scope.
Open Scope Z_scope.

Record detector := mkDetector {
  dt_family : CompletionFamily;
  dt_request_ctx : option CompletionRequestContext;
  dt_settle_window_s : Q;
  dt_state : CompletionState;
  dt_decision : CompletionDecision
}.

Abbreviation D := (ST detector).

Definition initial_state (cursor : option CompletionCursor) : CompletionState :=
  mkState false false false false false None None None None cursor false.

(** [BaseCompletionDetector.__init__] and [bind]. *)
Definition new_detector (family : CompletionFamily) : detector :=
  mkDetector family None 2 (initial_state None) (pending_decision None).

Definition bind_detector (ctx : CompletionRequestContext) (baseline : CompletionCursor)
    (d : detector) : detector :=
  mkDetector (dt_family d) (Some ctx) (dt_settle_window_s d) (initial_state (Some baseline))
    (pending_decision (Some baseline)).

Definition set_state (s : CompletionState) (d : detector) : detector :=
  mkDetector (dt_family d) (dt_request_ctx d) (dt_settle_window_s d) s (dt_decision d).
Definition set_decision (x : CompletionDecision) (d : detector) : detector :=
  mkDetector (dt_family d) (dt_request_ctx d) (dt_settle_window_s d) (dt_state d) x.

Definition upd_state (f : CompletionState → CompletionState) : D unit :=
  st_modify (λ d, set_state (f (dt_state d)) d).

Definition require_bound : D unit := λ d,
  match dt_request_ctx d with
  | Some _ => (Ok tt, d)
  | None => (Err (CompletionValidationError "detector must be bound before use"), d)
  end.

(** ** State changes *)
Definition with_cursor (c : option CompletionCursor) (s : CompletionState) : CompletionState :=
  match c with
  | None => s
  | Some _ =>
      mkState (st_anchor_seen s) (st_reply_started s) (st_reply_stable s) (st_tool_active s)
        (st_subagent_activity_seen s) (st_last_reply_hash s) (st_last_reply_at s)
        (st_stable_since s) (st_provider_turn_ref s) c (st_terminal s)
  end.
Definition with_anchor (s : CompletionState) : CompletionState :=
  mkState true (st_reply_started s) (st_reply_stable s) (st_tool_active s)
    (st_subagent_activity_seen s) (st_last_reply_hash s) (st_last_reply_at s)
    (st_stable_since s) (st_provider_turn_ref s) (st_latest_cursor s) (st_terminal s).
Definition with_tool_active (b : bool) (s : CompletionState) : CompletionState :=
  mkState (st_anchor_seen s) (st_reply_started s) (st_reply_stable s) b
    (st_subagent_activity_seen s) (st_last_reply_hash s) (st_last_reply_at s)
    (st_stable_since s) (st_provider_turn_ref s) (st_latest_cursor s) (st_terminal s).
Definition rotated (s : CompletionState) : CompletionState :=
  mkState false false false false (st_subagent_activity_seen s) None None None
    (st_provider_turn_ref s) (st_latest_cursor s) (st_terminal s).
Definition with_subagent (s : CompletionState) : CompletionState :=
  mkState (st_anchor_seen s) (st_reply_started s) (st_reply_stable s) (st_tool_active s)
    true (st_last_reply_hash s) (st_last_reply_at s) (st_stable_since s)
    (st_provider_turn_ref s) (st_latest_cursor s) (st_terminal s).
Definition with_turn_ref (t : string) (s : CompletionState) : CompletionState :=
  mkState (st_anchor_seen s) (st_reply_started s) (st_reply_stable s) (st_tool_active s)
    (st_subagent_activity_seen s) (st_last_reply_hash s) (st_last_reply_at s)
    (st_stable_since s) (Some t) (st_latest_cursor s) (st_terminal s).
Definition with_reply_seen (hash at_ : string) (stable : bool) (s : CompletionState)
    : CompletionState :=
  mkState (st_anchor_seen s) true stable (st_tool_active s) (st_subagent_activity_seen s)
    (Some hash) (Some at_) (st_stable_since s) (st_provider_turn_ref s) (st_latest_cursor s)
    (st_terminal s).
Definition with_stable_since (t : string) (s : CompletionState) : CompletionState :=
  mkState (st_anchor_seen s) (st_reply_started s) (st_reply_stable s) (st_tool_active s)
    (st_subagent_activity_seen s) (st_last_reply_hash s) (st_last_reply_at s) (Some t)
    (st_provider_turn_ref s) (st_latest_cursor s) (st_terminal s).
Definition with_reply_stable (s : CompletionState) : CompletionState :=
  mkState (st_anchor_seen s) (st_reply_started s) true (st_tool_active s)
    (st_subagent_activity_seen s) (st_last_reply_hash s) (st_last_reply_at s)
    (st_stable_since s) (st_provider_turn_ref s) (st_latest_cursor s) (st_terminal s).
Definition with_terminal (s : CompletionState) : CompletionState :=
  mkState (st_anchor_seen s) (st_reply_started s) (st_reply_stable s) (st_tool_active s)
    (st_subagent_activity_seen s) (st_last_reply_hash s) (st_last_reply_at s)
    (st_stable_since s) (st_provider_turn_ref s) (st_latest_cursor s) true.

Definition consume_common_item (item : CompletionItem) (s : CompletionState) : CompletionState :=
  let s := with_cursor (Some (it_cursor item)) s in
  let s := match it_kind item with
           | IK_anchor_seen => with_anchor s
           | IK_tool_call => with_tool_active true s
           | IK_tool_result => with_tool_active false s
           | IK_session_rotate => rotated s
           | _ => s
           end in
  let s := match first_non_empty (it_payload item) ["subagent_id"; "subagent_name"] with
           | Some _ => with_subagent s
           | None => s
           end in
  match first_non_empty (it_payload item)
          ["turn_id"; "provider_turn_ref"; "message_id"; "provider_session_id"; "session_id"] with
  | Some t => with_turn_ref t s
  | None => s
  end.

Definition terminal_diagnostics_from_item (item : CompletionItem) : pydict :=
  foldl (λ d k, dpop k d) (it_payload item)
    ["reply"; "content"; "final_answer"; "result_text"; "last_agent_message"].

Definition set_terminal (status : CompletionStatus) (reason : string)
    (confidence : CompletionConfidence) (finished_at reply : string) (diagnostics : pydict)
    : D unit :=
  _ ← upd_state with_terminal;
  s ← st_gets dt_state;
  x ← st_lift (decision_post_init
         (mkDecision true status (Some reason) (Some confidence) reply (st_anchor_seen s)
            (st_reply_started s) (st_reply_stable s) (st_provider_turn_ref s)
            (st_latest_cursor s) (Some finished_at) diagnostics));
  st_modify (set_decision x).

Definition set_pending : D unit :=
  s ← st_gets dt_state;
  x ← st_lift (decision_post_init
         (mkDecision false CS_incomplete None None "" (st_anchor_seen s)
            (st_reply_started s) (st_reply_stable s) (st_provider_turn_ref s)
            (st_latest_cursor s) None []));
  st_modify (set_decision x).

(** [sub in s]. *)
Fixpoint str_contains (sub s : string) : bool :=
  String.prefix sub s || match s with "" => false | String _ s' => str_contains sub s' end.

Definition terminal_status_from_abort (item : CompletionItem) : result CompletionStatus :=
  raw ← py_str_or_empty (dget "status" (it_payload item));
  let raw_status := lower (strip raw) in
  if bool_decide (raw_status ∈ ["completed"; "cancelled"; "failed"; "incomplete"])
  then completion_status_of raw_status
  else
    reason ← py_str_or_empty (dget "reason" (it_payload item));
    let reason := lower (strip reason) in
    if str_contains "cancel" reason || str_contains "abort" reason
    then mret CS_cancelled else mret CS_failed.

Section detectors.
Context `{CompletionLib}.

Definition record_reply (item : CompletionItem) (text : string) (stable : bool)
    (fingerprint : option string) : D unit :=
  let message := strip text in
  if message =ˢ "" then mret tt
  else
    hash ← match fingerprint with
           | Some f => if f =ˢ "" then st_lift (fingerprint_text [PStr message]) else mret f
           | None => st_lift (fingerprint_text [PStr message])
           end;
    upd_state (with_reply_seen hash (it_timestamp item) stable).

(** The common cases of [ingest]. *)
Definition first_or (item : CompletionItem) (keys : list string) (dflt : string) : string :=
  default dflt (first_non_empty (it_payload item) keys).

(** A transcript item: the reply is recorded, the turn goes on. *)
Definition stream_reply (item : CompletionItem) (keys : list string) : D unit :=
  match first_non_empty (it_payload item) keys with
  | Some text => record_reply item text false None
  | None => mret tt
  end.

(** A final item: its reply is recorded as stable. *)
Definition final_reply (item : CompletionItem) (keys : list string) : D string :=
  match first_non_empty (it_payload item) keys with
  | Some text => (_ ← record_reply item text true None; mret text)
  | None => mret ""
  end.

Definition protocol_turn_ingest (item : CompletionItem) : D unit :=
  match it_kind item with
  | IK_assistant_chunk | IK_assistant_final | IK_result =>
      _ ← stream_reply item ["last_agent_message"; "final_answer"; "reply"; "result_text"; "text"];
      set_pending
  | IK_turn_boundary =>
      reply ← final_reply item ["last_agent_message"; "final_answer"; "reply"; "text"];
      set_terminal CS_completed (first_or item ["reason"; "completion_reason"] "task_complete")
        CC_exact (it_timestamp item) reply []
  | IK_turn_aborted =>
      reply ← final_reply item ["last_agent_message"; "reply"; "text"];
      status ← st_lift (terminal_status_from_abort item);
      set_terminal status (first_or item ["reason"] "turn_aborted") CC_exact (it_timestamp item)
        reply (terminal_diagnostics_from_item item)
  | IK_error =>
      set_terminal CS_failed (first_or item ["reason"; "error"] "transport_error") CC_degraded
        (it_timestamp item) "" (terminal_diagnostics_from_item item)
  | IK_pane_dead =>
      set_terminal CS_failed (first_or item ["reason"] "pane_dead") CC_degraded
        (it_timestamp item) "" (terminal_diagnostics_from_item item)
  | _ => set_pending
  end.

Definition session_boundary_ingest (item : CompletionItem) : D unit :=
  match it_kind item with
  | IK_assistant_chunk | IK_assistant_final =>
      _ ← stream_reply item ["text"; "reply"; "last_agent_message"];
      set_pending
  | IK_turn_boundary =>
      reply ← final_reply item ["last_agent_message"; "reply"; "text"];
      set_terminal CS_completed (first_or item ["reason"; "completion_reason"] "turn_duration")
        CC_observed (it_timestamp item) reply []
  | IK_error =>
      set_terminal CS_failed (first_or item ["reason"; "error"] "api_error") CC_observed
        (it_timestamp item) "" (terminal_diagnostics_from_item item)
  | IK_pane_dead =>
      set_terminal CS_failed (first_or item ["reason"] "pane_dead") CC_degraded
        (it_timestamp item) "" (terminal_diagnostics_from_item item)
  | _ => set_pending
  end.

Definition structured_result_ingest (item : CompletionItem) : D unit :=
  let from_item status reason confidence :=
    set_terminal status reason confidence (it_timestamp item) ""
      (terminal_diagnostics_from_item item) in
  match it_kind item with
  | IK_assistant_chunk | IK_assistant_final =>
      _ ← stream_reply item ["reply"; "final_answer"; "text"];
      set_pending
  | IK_result =>
      reply ← final_reply item ["reply"; "result_text"; "final_answer"; "text"];
      set_terminal CS_completed (first_or item ["reason"; "completion_reason"] "stream_result")
        CC_exact (it_timestamp item) reply []
  | IK_cancel_info => from_item CS_cancelled (first_or item ["reason"] "cancel_info") CC_exact
  | IK_turn_aborted =>
      status ← st_lift (terminal_status_from_abort item);
      from_item status (first_or item ["reason"] "turn_aborted") CC_exact
  | IK_error => from_item CS_failed (first_or item ["reason"; "error"] "transport_error") CC_exact
  | IK_pane_dead => from_item CS_failed (first_or item ["reason"] "pane_dead") CC_degraded
  | _ => set_pending
  end.

Definition terminal_text_quiet_ingest (item : CompletionItem) : D unit :=
  match it_kind item with
  | IK_assistant_chunk | IK_assistant_final | IK_result =>
      let keys := ["reply"; "result_text"; "final_answer"; "text"] in
      _ ← stream_reply item keys;
      if py_bool (dget "done_marker" (it_payload item)) || py_bool (dget "ccb_done" (it_payload item))
      then set_terminal CS_completed "terminal_done_marker" CC_degraded (it_timestamp item)
             (first_or item keys "") []
      else set_pending
  | IK_cancel_info =>
      set_terminal CS_cancelled (first_or item ["reason"] "cancel_info") CC_degraded
        (it_timestamp item) "" []
  | IK_error =>
      set_terminal CS_failed (first_or item ["reason"; "error"] "transport_error") CC_degraded
        (it_timestamp item) "" []
  | IK_pane_dead =>
      set_terminal CS_failed (first_or item ["reason"] "pane_dead") CC_degraded
        (it_timestamp item) "" []
  | _ => set_pending
  end.

(** The tool activity a session snapshot reports. *)
Definition snapshot_tools (item : CompletionItem) (s : CompletionState) : CompletionState :=
  match dget "tool_call_count" (it_payload item) with
  | PNone => s
  | v => with_tool_active (match py_int v with Ok n => 0 <? n | Err _ => py_bool v end) s
  end.

Definition anchored_ingest (item : CompletionItem) : D unit :=
  let payload := it_payload item in
  match it_kind item with
  | IK_cancel_info =>
      set_terminal CS_cancelled (first_or item ["reason"] "cancel_info") CC_observed
        (it_timestamp item) "" []
  | IK_session_snapshot | IK_session_mutation =>
      _ ← upd_state (snapshot_tools item);
      match first_non_empty payload ["reply"; "content"; "text"] with
      | Some reply =>
          fingerprint ← st_lift (fingerprint_text
            [PStr (first_or item ["message_id"] ""); PStr reply;
             dget "message_count" payload; dget "last_updated" payload]);
          s ← st_gets dt_state;
          _ ← (if bool_decide (Some fingerprint = st_last_reply_hash s) then mret tt
               else
                 _ ← record_reply item reply false (Some fingerprint);
                 upd_state (with_stable_since (it_timestamp item)));
          set_pending
      | None => set_pending
      end
  | IK_error =>
      set_terminal CS_failed (first_or item ["reason"; "error"] "session_corrupt") CC_observed
        (it_timestamp item) "" []
  | IK_pane_dead =>
      set_terminal CS_failed (first_or item ["reason"] "pane_dead") CC_degraded
        (it_timestamp item) "" []
  | _ => set_pending
  end.

(** [detector.ingest(item)]. *)
Definition ingest (item : CompletionItem) : D unit :=
  _ ← require_bound;
  _ ← upd_state (consume_common_item item);
  family ← st_gets dt_family;
  match family with
  | CF_protocol_turn => protocol_turn_ingest item
  | CF_structured_result => structured_result_ingest item
  | CF_session_boundary => session_boundary_ingest item
  | CF_anchored_session_stability => anchored_ingest item
  | CF_terminal_text_quiet => terminal_text_quiet_ingest item
  end.

(** [AnchoredSessionStabilityDetector.tick] after the cursor is synchronised. *)
Definition anchored_tick (now : string) : D unit :=
  d ← st_gets (λ d, d);
  if cd_terminal (dt_decision d) then mret tt
  else if negb (st_reply_started (dt_state d)) then mret tt
  else match st_stable_since (dt_state d) with
       | None => mret tt
       | Some since =>
           if st_tool_active (dt_state d) then set_pending
           else
             elapsed ← st_lift (seconds_between since now);
             if Qle_bool (dt_settle_window_s d) elapsed
             then
               _ ← upd_state with_reply_stable;
               set_terminal CS_completed "session_reply_stable" CC_observed now "" []
             else set_pending
       end.

(** [detector.tick(now, cursor)]. *)
Definition tick (now : string) (cursor : option CompletionCursor) : D unit :=
  _ ← upd_state (with_cursor cursor);
  family ← st_gets dt_family;
  match family with
  | CF_anchored_session_stability => anchored_tick now
  | _ => mret tt
  end.

(** [BaseCompletionDetector.finalize_timeout]. *)
Definition base_finalize_timeout (now : string) (cursor : option CompletionCursor) : D unit :=
  x ← st_gets dt_decision;
  if cd_terminal x then mret tt
  else
    _ ← upd_state (with_cursor cursor);
    set_terminal CS_incomplete "timeout" CC_degraded now "" [].

(** [detector.finalize_timeout(now, cursor)]. *)
Definition finalize_timeout (now : string) (cursor : option CompletionCursor) : D unit :=
  family ← st_gets dt_family;
  match family with
  | CF_anchored_session_stability =>
      _ ← require_bound;
      x ← st_gets dt_decision;
      if cd_terminal x then mret tt
      else (_ ← upd_state (with_cursor cursor); base_finalize_timeout now cursor)
  | CF_terminal_text_quiet =>
      _ ← require_bound;
      x ← st_gets dt_decision;
      if cd_terminal x then mret tt
      else
        _ ← upd_state (with_cursor cursor);
        s ← st_gets dt_state;
        if st_reply_started s
        then set_terminal CS_completed "terminal_quiet" CC_degraded now "" []
        else base_finalize_timeout now cursor
  | _ => base_finalize_timeout now cursor
  end.
End detectors.

(** ** Invariant: every decision is one its constructor accepts *)
Record detector_ok (d : detector) : Prop := {
  do_decision : decision_post_init (dt_decision d) = Ok (dt_decision d);
  do_terminal : cd_terminal (dt_decision d) = true → st_terminal (dt_state d) = true;
  do_cursor : cursor_valid (st_latest_cursor (dt_state d));
  do_source : cursor_valid (cd_source_cursor (dt_decision d))
}.

Lemma preserves_upd f :
  (∀ s, cursor_valid (st_latest_cursor s) → cursor_valid (st_latest_cursor (f s))) →
  (∀ s, st_terminal s = true → st_terminal (f s) = true) →
  preserves detector_ok (upd_state f).
Proof. intros Hc Ht d [H1 H2 H3 H4]. split; cbn; auto. Qed.

Lemma require_bound_same d : st_exec require_bound d = d.
Proof. unfold st_exec, require_bound. by destruct (dt_request_ctx d). Qed.

Lemma set_terminal_preserves s r c f rep dg : preserves detector_ok (set_terminal s r c f rep dg).
Proof. intros d [H1 H2 H3 H4]. by split. Qed.
Lemma set_pending_preserves : preserves detector_ok set_pending.
Proof. intros d [H1 H2 H3 H4]. by split. Qed.

Lemma cursor_valid_with c s :
  cursor_valid c → cursor_valid (st_latest_cursor s) → cursor_valid (st_latest_cursor (with_cursor c s)).
Proof. by destruct c. Qed.

Lemma consume_common_terminal item s : st_terminal (consume_common_item item s) = st_terminal s.
Proof. unfold consume_common_item. by destruct (it_kind item); repeat case_match. Qed.
Lemma consume_common_cursor item s :
  st_latest_cursor (consume_common_item item s) = Some (it_cursor item).
Proof. unfold consume_common_item. by destruct (it_kind item); repeat case_match. Qed.

Create HintDb detector discriminated.
#[export] Hint Resolve set_terminal_preserves set_pending_preserves : detector.

(** Break a computation into its steps. *)
Ltac preserve :=
  repeat first
    [ solve [eauto with detector nocore]
    | apply preserves_bind; [|intros ?]
    | apply preserves_same; reflexivity
    | apply preserves_same; exact require_bound_same
    | progress case_match ].

Section detector_props.
Context `{CompletionLib}.

Lemma record_reply_preserves item text stable fp : preserves detector_ok (record_reply item text stable fp).
Proof.
  unfold record_reply. preserve; try (apply preserves_upd; by intros).
Qed.
#[local] Hint Resolve record_reply_preserves : detector.
Lemma stream_reply_preserves item keys : preserves detector_ok (stream_reply item keys).
Proof. unfold stream_reply. preserve. Qed.
Lemma final_reply_preserves item keys : preserves detector_ok (final_reply item keys).
Proof. unfold final_reply. preserve. Qed.
#[local] Hint Resolve stream_reply_preserves final_reply_preserves : detector.

Lemma snapshot_tools_keeps item s :
  st_latest_cursor (snapshot_tools item s) = st_latest_cursor s ∧
  st_terminal (snapshot_tools item s) = st_terminal s.
Proof. unfold snapshot_tools. by case_match. Qed.

Lemma ingest_preserves item :
  cursor_post_init (it_cursor item) = Ok (it_cursor item) → preserves detector_ok (ingest item).
Proof.
  intros Hc. unfold ingest. preserve.
  { apply preserves_upd; intros s; [|by rewrite consume_common_terminal].
    intros _ x. rewrite consume_common_cursor. by intros [= <-]. }
  all: unfold protocol_turn_ingest, structured_result_ingest, session_boundary_ingest,
    anchored_ingest, terminal_text_quiet_ingest; preserve.
  all: apply preserves_upd; intros x; try done; by destruct (snapshot_tools_keeps item x) as [E1 E2]; rewrite ?E1, ?E2.
Qed.

Lemma with_cursor_preserves c : cursor_valid c → preserves detector_ok (upd_state (with_cursor c)).
Proof.
  intros Hc. apply preserves_upd; intros x.
  - by apply cursor_valid_with.
  - by destruct c.
Qed.
#[local] Hint Resolve with_cursor_preserves : detector.

Lemma base_finalize_preserves now c :
  cursor_valid c → preserves detector_ok (base_finalize_timeout now c).
Proof. intros Hc. unfold base_finalize_timeout. preserve. Qed.
#[local] Hint Resolve base_finalize_preserves : detector.

Lemma finalize_timeout_preserves now c :
  cursor_valid c → preserves detector_ok (finalize_timeout now c).
Proof. intros Hc. unfold finalize_timeout. preserve. Qed.

Lemma tick_preserves now c : cursor_valid c → preserves detector_ok (tick now c).
Proof.
  intros Hc. unfold tick, anchored_tick. preserve. apply preserves_upd; by intros.
Qed.

(** What the tracker does to a detector. *)
Inductive detector_op :=
  | OpBind (ctx : CompletionRequestContext) (baseline : CompletionCursor)
  | OpIngest (item : CompletionItem)
  | OpTick (now : string) (cursor : option CompletionCursor)
  | OpFinalizeTimeout (now : string) (cursor : option CompletionCursor).

Definition op_cursor (op : detector_op) : option CompletionCursor :=
  match op with
  | OpBind _ c => Some c
  | OpIngest i => Some (it_cursor i)
  | OpTick _ c | OpFinalizeTimeout _ c => c
  end.

Definition run_op (d : detector) (op : detector_op) : detector :=
  match op with
  | OpBind ctx c => bind_detector ctx c d
  | OpIngest i => st_exec (ingest i) d
  | OpTick now c => st_exec (tick now c) d
  | OpFinalizeTimeout now c => st_exec (finalize_timeout now c) d
  end.

Lemma run_op_ok d op : cursor_valid (op_cursor op) → detector_ok d → detector_ok (run_op d op).
Proof.
  intros Hc Hd. destruct op; cbn in *.
  - by split.
  - apply ingest_preserves; auto.
  - by apply tick_preserves.
  - by apply finalize_timeout_preserves.
Qed.


(** ** Verdicts *)

(** [m] returns and leaves a decision that is terminal or not. *)
Definition verdict {A} (b : bool) (m : D A) (d : detector) : Prop :=
  ∃ a d', m d = (Ok a, d') ∧ cd_terminal (dt_decision d') = b.

Lemma record_reply_returns item text stable fp d :
  ∃ d', record_reply item text stable fp d = (Ok tt, d') ∧
        dt_decision d' = dt_decision d ∧ dt_request_ctx d' = dt_request_ctx d.
Proof.
  unfold record_reply. destruct (strip text =ˢ ""); [by exists d|].
  destruct fp as [f|]; [destruct (f =ˢ "")|]; by eexists.
Qed.

Lemma stream_reply_returns item keys d :
  ∃ d', stream_reply item keys d = (Ok tt, d').
Proof.
  unfold stream_reply. destruct (first_non_empty _ _); [|by exists d].
  destruct (record_reply_returns item s false None d) as (d' & -> & _). by exists d'.
Qed.

Lemma final_reply_returns item keys d :
  ∃ r d', final_reply item keys d = (Ok r, d').
Proof.
  unfold final_reply. destruct (first_non_empty _ _) as [s|]; [|by exists "", d].
  destruct (record_reply_returns item s true None d) as (d' & Hr & _).
  exists s, d'. by rewrite (st_bind_ok _ _ _ _ _ Hr).
Qed.

Lemma set_terminal_verdict s r c f rep dg d : verdict true (set_terminal s r c f rep dg) d.
Proof. by eexists tt, _. Qed.
Lemma set_pending_verdict d : verdict false set_pending d.
Proof. by eexists tt, _. Qed.

Lemma verdict_bind {A B} b (m : D A) (k : A → D B) d a d' :
  m d = (Ok a, d') → verdict b (k a) d' → verdict b (m ≫= k) d.
Proof. intros Hm (x & d2 & Hk & Hb). exists x, d2. by rewrite (st_bind_ok _ _ _ _ _ Hm). Qed.

Lemma verdict_stream b item keys (k : unit → D unit) d :
  (∀ d', verdict b (k tt) d') → verdict b (stream_reply item keys ≫= k) d.
Proof. intros Hk. destruct (stream_reply_returns item keys d) as [d' Hs]. by eapply verdict_bind. Qed.

Lemma verdict_final b item keys (k : string → D unit) d :
  (∀ r d', verdict b (k r) d') → verdict b (final_reply item keys ≫= k) d.
Proof.
  intros Hk. destruct (final_reply_returns item keys d) as (r & d' & Hs). by eapply verdict_bind.
Qed.

(** The items that end a turn, by detector. *)
Definition ends_turn (family : CompletionFamily) (item : CompletionItem) : bool :=
  match family, it_kind item with
  | CF_protocol_turn, (IK_turn_boundary | IK_turn_aborted | IK_error | IK_pane_dead) => true
  | CF_structured_result,
      (IK_result | IK_cancel_info | IK_turn_aborted | IK_error | IK_pane_dead) => true
  | CF_session_boundary, (IK_turn_boundary | IK_error | IK_pane_dead) => true
  | CF_anchored_session_stability, (IK_cancel_info | IK_error | IK_pane_dead) => true
  | CF_terminal_text_quiet, (IK_cancel_info | IK_error | IK_pane_dead) => true
  | CF_terminal_text_quiet, (IK_assistant_chunk | IK_assistant_final | IK_result) =>
      py_bool (dget "done_marker" (it_payload item)) || py_bool (dget "ccb_done" (it_payload item))
  | _, _ => false
  end.

(** The payload fields the detectors pass to [str]. *)
Definition printable (item : CompletionItem) : Prop :=
  Forall (λ k, is_ok (py_str (dget k (it_payload item))) = true)
    ["status"; "reason"; "message_count"; "last_updated"].

Lemma str_or_empty_ok v : is_ok (py_str v) = true → ∃ s, py_str_or_empty v = Ok s.
Proof.
  intros Hv. unfold py_str_or_empty. destruct (py_bool v); [|by eexists].
  destruct (py_str v); [by eexists|done].
Qed.

Lemma abort_status_ok item :
  printable item → ∃ s, terminal_status_from_abort item = Ok s.
Proof.
  intros [H1 H2]%Forall_cons_1. apply Forall_cons_1 in H2 as [H2 _].
  destruct (str_or_empty_ok _ H1) as [raw Hraw], (str_or_empty_ok _ H2) as [r Hr].
  unfold terminal_status_from_abort. rewrite Hraw, result_bind_ok. case_bool_decide as Hin.
  - repeat (apply elem_of_cons in Hin as [->|Hin]; [by eexists|]). by apply elem_of_nil in Hin.
  - rewrite Hr, result_bind_ok. destruct (_ || _); by eexists.
Qed.

Lemma verdict_lift {A} b (r : result A) (k : A → D unit) a d :
  r = Ok a → verdict b (k a) d → verdict b (st_lift r ≫= k) d.
Proof. intros ->. by apply verdict_bind. Qed.

#[local] Hint Resolve set_terminal_verdict set_pending_verdict verdict_stream verdict_final
  : detector.

Lemma protocol_turn_verdict item d :
  printable item → verdict (ends_turn CF_protocol_turn item) (protocol_turn_ingest item) d.
Proof.
  intros [s Hs]%abort_status_ok. unfold protocol_turn_ingest, ends_turn.
  destruct (it_kind item); auto with detector.
  apply verdict_final. intros r d'. by eapply verdict_lift; [exact Hs|apply set_terminal_verdict].
Qed.

Lemma structured_result_verdict item d :
  printable item → verdict (ends_turn CF_structured_result item) (structured_result_ingest item) d.
Proof.
  intros [s Hs]%abort_status_ok. unfold structured_result_ingest, ends_turn.
  destruct (it_kind item); auto with detector.
  by eapply verdict_lift; [exact Hs|apply set_terminal_verdict].
Qed.

Lemma session_boundary_verdict item d :
  verdict (ends_turn CF_session_boundary item) (session_boundary_ingest item) d.
Proof.
  unfold session_boundary_ingest, ends_turn. destruct (it_kind item); auto with detector.
Qed.

Lemma terminal_text_verdict item d :
  verdict (ends_turn CF_terminal_text_quiet item) (terminal_text_quiet_ingest item) d.
Proof.
  unfold terminal_text_quiet_ingest, ends_turn. destruct (it_kind item); auto with detector;
    apply verdict_stream; intros d'; destruct (_ || _); auto with detector.
Qed.

Lemma anchored_fingerprint item reply :
  printable item →
  ∃ f, fingerprint_text [PStr (first_or item ["message_id"] ""); PStr reply;
         dget "message_count" (it_payload item); dget "last_updated" (it_payload item)] = Ok f.
Proof.
  intros Hp. unfold fingerprint_text. cbn [py_str].
  assert (∀ k, k ∈ ["message_count"; "last_updated"] →
    ∃ s, py_str (dget k (it_payload item)) = Ok s) as Hs.
  { intros k Hk. assert (is_ok (py_str (dget k (it_payload item))) = true) as Hok.
    { apply (proj1 (Forall_forall _ _) Hp). right. by right. }
    destruct (py_str _); [by eauto|done]. }
  destruct (Hs "message_count") as [s1 ->]; [by left|].
  destruct (Hs "last_updated") as [s2 ->]; [by right; left|]. by eexists.
Qed.

Lemma anchored_verdict item d :
  printable item → verdict (ends_turn CF_anchored_session_stability item) (anchored_ingest item) d.
Proof.
  intros Hp. unfold anchored_ingest, ends_turn.
  destruct (it_kind item); auto with detector.
  all: eapply verdict_bind; [reflexivity|].
  all: destruct (first_non_empty _ _) as [reply|]; auto with detector.
  all: destruct (anchored_fingerprint item reply Hp) as [f Hf].
  all: eapply verdict_lift; [exact Hf|]; eapply verdict_bind; [reflexivity|].
  all: case_bool_decide; [by eapply verdict_bind; [reflexivity|apply set_pending_verdict]|].
  all: match goal with |- verdict _ ((record_reply ?i ?t ?s ?fp ≫= _) ≫= _) ?d' =>
         destruct (record_reply_returns i t s fp d') as (d2 & Hr & _) end.
  all: eapply verdict_bind; [rewrite (st_bind_ok _ _ _ _ _ Hr); reflexivity|].
  all: apply set_pending_verdict.
Qed.

Lemma ingest_verdict' item d ctx :
  dt_request_ctx d = Some ctx → printable item →
  ∃ d', ingest item d = (Ok tt, d') ∧
        cd_terminal (dt_decision d') = ends_turn (dt_family d) item.
Proof.
  intros Hb Hp.
  assert (verdict (ends_turn (dt_family d) item) (ingest item) d) as ([] & d' & Hd); [|by exists d'].
  unfold ingest. eapply verdict_bind; [unfold require_bound; rewrite Hb; reflexivity|].
  eapply verdict_bind; [reflexivity|]. eapply verdict_bind; [reflexivity|]. cbn [dt_family set_state].
  destruct (dt_family d);
    auto using protocol_turn_verdict, structured_result_verdict, session_boundary_verdict,
      anchored_verdict, terminal_text_verdict.
Qed.

(** an item ends the turn exactly when its kind says so for the detector's
    family: on a bound detector [ingest] raises nothing and its decision is
    terminal after the items of the family's table [ends_turn], pending after
    every other one. *)
Theorem ingest_verdict item d ctx :
  dt_request_ctx d = Some ctx → printable item →
  ∃ d', ingest item d = (Ok tt, d') ∧
        cd_terminal (dt_decision d') = ends_turn (dt_family d) item.
Proof. apply ingest_verdict'. Qed.

Lemma upd_state_eq f d : upd_state f d = (Ok tt, set_state (f (dt_state d)) d).
Proof. reflexivity. Qed.

Lemma base_finalize_eq now cursor d :
  cd_terminal (dt_decision d) = false →
  ∃ d', base_finalize_timeout now cursor d = (Ok tt, d') ∧ cd_terminal (dt_decision d') = true ∧
        cd_finished_at (dt_decision d') = Some now ∧ cd_status (dt_decision d') = CS_incomplete.
Proof. intros Ht. unfold base_finalize_timeout. rewrite st_gets_bind, Ht. by eexists. Qed.

Lemma finalize_timeout_terminates' now cursor d ctx :
  dt_request_ctx d = Some ctx →
  ∃ d', finalize_timeout now cursor d = (Ok tt, d') ∧
    cd_terminal (dt_decision d') = true ∧
    (cd_terminal (dt_decision d) = true → d' = d) ∧
    (cd_terminal (dt_decision d) = false →
       cd_finished_at (dt_decision d') = Some now ∧
       cd_status (dt_decision d') =
         if bool_decide (dt_family d = CF_terminal_text_quiet) && st_reply_started (dt_state d)
         then CS_completed else CS_incomplete).
Proof.
  intros Hb. assert (require_bound d = (Ok tt, d)) as Hr by (unfold require_bound; by rewrite Hb).
  destruct (cd_terminal (dt_decision d)) eqn:Ht.
  { exists d. split_and!; [|done..]. unfold finalize_timeout, base_finalize_timeout.
    rewrite st_gets_bind. destruct (dt_family d);
      rewrite ?(st_bind_ok _ _ _ _ _ Hr), st_gets_bind, Ht; done. }
  set (d1 := set_state (with_cursor cursor (dt_state d)) d).
  destruct (base_finalize_eq now cursor d Ht) as (d2 & E2 & ? & ? & ?).
  destruct (base_finalize_eq now cursor d1 Ht) as (d3 & E3 & ? & ? & ?).
  unfold finalize_timeout. rewrite st_gets_bind.
  destruct (dt_family d) eqn:Hf; rewrite ?(st_bind_ok _ _ _ _ _ Hr), ?st_gets_bind, ?Ht;
    rewrite ?(st_bind_ok _ _ _ _ _ (upd_state_eq (with_cursor cursor) d)); try fold d1;
    rewrite ?E2, ?E3; try (by eexists).
  rewrite st_gets_bind.
  assert (st_reply_started (dt_state d1) = st_reply_started (dt_state d)) as -> by by destruct cursor.
  destruct (st_reply_started (dt_state d)); [|rewrite E3]; by eexists.
Qed.

(** a timeout always ends the turn: on a bound detector
    [finalize_timeout] raises nothing, keeps a decision that is terminal
    already, and otherwise makes it terminal with the time of the timeout,
    completed only for a quiet terminal that showed a reply. *)
Theorem finalize_timeout_terminates now cursor d ctx :
  dt_request_ctx d = Some ctx →
  ∃ d', finalize_timeout now cursor d = (Ok tt, d') ∧
    cd_terminal (dt_decision d') = true ∧
    (cd_terminal (dt_decision d) = true → d' = d) ∧
    (cd_terminal (dt_decision d) = false →
       cd_finished_at (dt_decision d') = Some now ∧
       cd_status (dt_decision d') =
         if bool_decide (dt_family d = CF_terminal_text_quiet) && st_reply_started (dt_state d)
         then CS_completed else CS_incomplete).
Proof. apply finalize_timeout_terminates'. Qed.

(** [tick] returns when the time of the last reply can be compared with now. *)
Lemma tick_returns now cursor d :
  (∀ since, st_stable_since (dt_state d) = Some since → ∃ e, seconds_between since now = Ok e) →
  ∃ d', tick now cursor d = (Ok tt, d').
Proof.
  intros Hs. unfold tick.
  rewrite (st_bind_ok _ _ _ _ _ (upd_state_eq (with_cursor cursor) d)), st_gets_bind.
  cbn [dt_family set_state]. destruct (dt_family d); try by eexists.
  unfold anchored_tick. rewrite st_gets_bind. cbn [dt_decision dt_state set_state].
  assert (st_stable_since (with_cursor cursor (dt_state d)) = st_stable_since (dt_state d)) as ->
    by by destruct cursor.
  repeat case_match; try by eexists.
  edestruct Hs as [e He]; [done|]. rewrite (st_lift_bind _ _ _ _ He). case_match; by eexists.
Qed.

(** No method unbinds a detector. *)
Definition has_ctx (ctx : CompletionRequestContext) (d : detector) : Prop :=
  dt_request_ctx d = Some ctx.

Lemma set_terminal_ctx ctx s r c f rep dg : preserves (has_ctx ctx) (set_terminal s r c f rep dg).
Proof. by intros d Hd. Qed.
Lemma set_pending_ctx ctx : preserves (has_ctx ctx) set_pending.
Proof. by intros d Hd. Qed.
Lemma upd_state_ctx ctx f : preserves (has_ctx ctx) (upd_state f).
Proof. by intros d Hd. Qed.
#[local] Hint Resolve set_terminal_ctx set_pending_ctx upd_state_ctx : detector.

Lemma ingest_ctx ctx item : preserves (has_ctx ctx) (ingest item).
Proof.
  unfold ingest, protocol_turn_ingest, structured_result_ingest, session_boundary_ingest,
    anchored_ingest, terminal_text_quiet_ingest, stream_reply, final_reply, record_reply.
  preserve.
Qed.
Lemma tick_ctx ctx now cursor : preserves (has_ctx ctx) (tick now cursor).
Proof. unfold tick, anchored_tick. preserve. Qed.

(** The window only ever starts at the time of an item. *)
Definition since_in (P : string → Prop) (d : detector) : Prop :=
  ∀ t, st_stable_since (dt_state d) = Some t → P t.

Lemma set_terminal_since P s r c f rep dg : preserves (since_in P) (set_terminal s r c f rep dg).
Proof. by intros d Hd. Qed.
Lemma set_pending_since P : preserves (since_in P) set_pending.
Proof. by intros d Hd. Qed.
Lemma upd_state_since P f :
  (∀ s, (∀ t, st_stable_since s = Some t → P t) → ∀ t, st_stable_since (f s) = Some t → P t) →
  preserves (since_in P) (upd_state f).
Proof. intros Hf d Hd t. by apply (Hf (dt_state d)). Qed.
#[local] Hint Resolve set_terminal_since set_pending_since : detector.

Lemma record_reply_since P item text stable fp : preserves (since_in P) (record_reply item text stable fp).
Proof. unfold record_reply. preserve; apply upd_state_since; auto. Qed.
#[local] Hint Resolve record_reply_since : detector.

Lemma ingest_since (P : string → Prop) item :
  P (it_timestamp item) → preserves (since_in P) (ingest item).
Proof.
  intros HP. unfold ingest, protocol_turn_ingest, structured_result_ingest, session_boundary_ingest,
    anchored_ingest, terminal_text_quiet_ingest, stream_reply, final_reply.
  preserve; apply upd_state_since; intros x Hx t.
  1: { unfold consume_common_item. destruct (it_kind item); repeat case_match; cbn; auto; done. }
  all: first [ intros [= <-]; exact HP | unfold snapshot_tools; case_match; apply Hx ].
Qed.
Lemma tick_since P now cursor : preserves (since_in P) (tick now cursor).
Proof.
  unfold tick, anchored_tick. preserve; apply upd_state_since; intros x Hx; first [by destruct cursor|done].
Qed.

(** an anchored session is complete when its reply has been stable for the
    settle window: a tick ends the turn exactly when a reply was seen, no tool
    is active, and the last change of the reply is at least the window ago. *)
Theorem anchored_tick_iff now cursor d :
  dt_family d = CF_anchored_session_stability → cd_terminal (dt_decision d) = false →
  (∀ since, st_stable_since (dt_state d) = Some since → ∃ e, seconds_between since now = Ok e) →
  ∃ d', tick now cursor d = (Ok tt, d') ∧
    (cd_terminal (dt_decision d') = true ↔
     st_reply_started (dt_state d) = true ∧ st_tool_active (dt_state d) = false ∧
     ∃ since e, st_stable_since (dt_state d) = Some since ∧ seconds_between since now = Ok e ∧
                Qle_bool (dt_settle_window_s d) e = true).
Proof.
  intros Hf Ht Hs. unfold tick.
  rewrite (st_bind_ok _ _ _ _ _ (upd_state_eq (with_cursor cursor) d)), st_gets_bind.
  cbn [dt_family set_state]. rewrite Hf. unfold anchored_tick. rewrite st_gets_bind.
  cbn [dt_decision dt_state dt_settle_window_s set_state]. rewrite Ht.
  assert (∀ s, st_reply_started (with_cursor cursor s) = st_reply_started s ∧
               st_stable_since (with_cursor cursor s) = st_stable_since s ∧
               st_tool_active (with_cursor cursor s) = st_tool_active s) as Hw by by destruct cursor.
  destruct (Hw (dt_state d)) as (-> & -> & ->).
  destruct (st_reply_started (dt_state d)); cbn [negb].
  2:{ eexists. split; [reflexivity|]. cbn. rewrite Ht. split; [done|by intros [? _]]. }
  destruct (st_stable_since (dt_state d)) as [since|].
  2:{ eexists. split; [reflexivity|]. cbn. rewrite Ht. split; [done|by intros (_ & _ & ? & ? & ? & _)]. }
  destruct (st_tool_active (dt_state d)).
  { eexists. split; [reflexivity|]. cbn. split; [done|by intros (_ & ? & _)]. }
  destruct (Hs since eq_refl) as [e He]. rewrite (st_lift_bind _ _ _ _ He).
  destruct (Qle_bool _ _) eqn:Hle; (eexists; split; [reflexivity|]; cbn).
  - split; [|done]. intros _. by eauto 10.
  - split; [done|]. intros (_ & _ & x & y & [= <-] & Hy & Hq). congruence.
Qed.

(** a reply that changed restarts the window: a session item whose reply
    has another fingerprint than the last one is recorded as the latest,
    unstable reply, and the window starts at its time. *)
Theorem new_reply_restarts_window item reply f d ctx :
  dt_family d = CF_anchored_session_stability → dt_request_ctx d = Some ctx →
  it_kind item = IK_session_snapshot →
  first_non_empty (it_payload item) ["reply"; "content"; "text"] = Some reply →
  strip reply ≠ "" →
  fingerprint_text [PStr (first_or item ["message_id"] ""); PStr reply;
    dget "message_count" (it_payload item); dget "last_updated" (it_payload item)] = Ok f →
  f ≠ "" → st_last_reply_hash (dt_state d) ≠ Some f →
  ∃ d', ingest item d = (Ok tt, d') ∧
    st_stable_since (dt_state d') = Some (it_timestamp item) ∧
    st_last_reply_hash (dt_state d') = Some f ∧ st_reply_stable (dt_state d') = false ∧
    st_reply_started (dt_state d') = true.
Proof.
  intros Hfam Hb Hk Hr Hne Hfp Hf Hh.
  assert (require_bound d = (Ok tt, d)) as Hrb by (unfold require_bound; by rewrite Hb).
  unfold ingest. rewrite (st_bind_ok _ _ _ _ _ Hrb), (st_bind_ok _ _ _ _ _ (upd_state_eq _ d)).
  rewrite st_gets_bind. cbn [dt_family set_state]. rewrite Hfam. unfold anchored_ingest.
  rewrite Hk, (st_bind_ok _ _ _ _ _ (upd_state_eq _ _)), Hr, (st_lift_bind _ _ _ _ Hfp).
  rewrite st_gets_bind. cbn [dt_state set_state].
  assert (st_last_reply_hash (snapshot_tools item (consume_common_item item (dt_state d))) =
          st_last_reply_hash (dt_state d)) as ->.
  { unfold snapshot_tools, consume_common_item. rewrite Hk. by repeat case_match. }
  rewrite (bool_decide_eq_false_2 (Some f = _)) by congruence.
  unfold record_reply. rewrite (bool_decide_eq_false_2 (strip reply = "")) by done.
  rewrite (bool_decide_eq_false_2 (f = "")) by done. eexists. split; [reflexivity|]. done.
Qed.
End detector_props.

(** ** Witnesses *)
Definition demo_cursor : CompletionCursor :=
  mkCursor SK_session_snapshot None None None None (Some 0) None.
Definition demo_ctx : CompletionRequestContext := mkContext "job_1" "agent1" "codex" 60 None (1 # 2).
Definition demo_item (kind : CompletionItemKind) (t : string) (payload : pydict) : CompletionItem :=
  mkItem kind t demo_cursor "codex" "agent1" "job_1" payload.
Definition demo_detector (f : CompletionFamily) : detector :=
  bind_detector demo_ctx demo_cursor (new_detector f).

Lemma demo_cursor_valid c : c = Some demo_cursor ∨ c = None → cursor_valid c.
Proof. by intros [->| ->] x [= <-]. Qed.


Lemma ingest_verdict_witness :
  ∃ d', @ingest demo_lib (demo_item IK_result "5" [("reply", PStr "done")])
          (demo_detector CF_structured_result) = (Ok tt, d') ∧
        cd_terminal (dt_decision d') = true.
Proof.
  apply (@ingest_verdict demo_lib (demo_item IK_result "5" [("reply", PStr "done")])
    (demo_detector CF_structured_result) demo_ctx eq_refl).
  by repeat constructor.
Defined.

Lemma finalize_timeout_terminates_witness :
  ∃ d', @finalize_timeout "60" None (demo_detector CF_terminal_text_quiet) = (Ok tt, d') ∧
        cd_terminal (dt_decision d') = true.
Proof.
  destruct (@finalize_timeout_terminates "60" None
    (demo_detector CF_terminal_text_quiet) demo_ctx eq_refl) as (d' & H1 & H2 & _).
  by exists d'.
Defined.

Definition demo_session_item : CompletionItem :=
  demo_item IK_session_snapshot "5" [("reply", PStr "partial")].
Definition demo_waiting : detector :=
  st_exec (@ingest demo_lib demo_session_item) (demo_detector CF_anchored_session_stability).

Lemma anchored_tick_iff_witness :
  (∃ d', @tick demo_lib "7" None demo_waiting = (Ok tt, d') ∧ cd_terminal (dt_decision d') = true).
Proof.
  destruct (@anchored_tick_iff demo_lib "7" None demo_waiting) as (d' & H1 & H2);
    [by vm_compute..| |].
  - intros since Hs. vm_compute in Hs. injection Hs as <-. by eexists.
  - exists d'. split; [exact H1|]. apply H2. split_and!; [by vm_compute..|].
    exists "5", (2000000 # 1000000)%Q. split_and!; by vm_compute.
Defined.

Lemma new_reply_restarts_window_witness :
  ∃ d', @ingest demo_lib demo_session_item (demo_detector CF_anchored_session_stability) = (Ok tt, d') ∧
        st_stable_since (dt_state d') = Some "5".
Proof.
  destruct (@new_reply_restarts_window demo_lib demo_session_item "partial"
    (@sha256_hexdigest demo_lib (utf8_encode "" ++ ascii_of_nat 31 :: utf8_encode "partial" ++ ascii_of_nat 31
      :: utf8_encode "None" ++ ascii_of_nat 31 :: utf8_encode "None" ++ [ascii_of_nat 31]))
    (demo_detector CF_anchored_session_stability) demo_ctx) as (d' & H1 & H2 & _);
    try by vm_compute.
  by exists d'.
Defined.
