(* ===== verification/Tracker.v ===== *)
(** * Completion tracking

    [completion/selectors], [registry.py], [profiles.py], [tracker.py] and
    [orchestration.py], and what the dispatcher does with a tracker's view
    ([ccbd/services/dispatcher_runtime/completion_runtime]). *)
From S2P Require Import Prelude PyValue Names AgentModels CompletionModels Detectors.
From Stdlib Require Import QArith.
Open Scope string_scope.
Open Scope list_scope.
Open Scope Z_scope.

(** ** Reply selectors *)
Record selector := mkSelector {
  se_candidates : list (Z * ReplyCandidate);
  se_sequence : Z
}.

Definition new_selector : selector := mkSelector [] 0.
Definition ingest_candidate (c : ReplyCandidate) (s : selector) : selector :=
  mkSelector (se_candidates s ++ [(se_sequence s, c)]) (se_sequence s + 1).
Definition reset_selector (s : selector) : selector := mkSelector [] (se_sequence s).

(** [entry[1].priority or 999]. *)
Definition rank (c : ReplyCandidate) : Z :=
  match rc_priority c with Some p => if p =? 0 then 999 else p | None => 999 end.

(** The sort key [(rank, -sequence)] of [a] is below that of [b]. *)
Definition entry_ltb (a b : Z * ReplyCandidate) : bool :=
  (rank a.2 <? rank b.2) || (rank a.2 =? rank b.2) && (b.1 <? a.1).

(** The first of the entries after sorting. *)
Definition best_entry (l : list (Z * ReplyCandidate)) : option (Z * ReplyCandidate) :=
  match l with
  | [] => None
  | x :: l' => Some (foldl (λ best e, if entry_ltb e best then e else best) x l')
  end.

Definition best_candidate (s : selector) : option ReplyCandidate := snd <$> best_entry (se_candidates s).

Definition preview (s : selector) : string :=
  match best_candidate s with Some c => rc_text c | None => "" end.

Definition select (s : selector) (d : CompletionDecision) : result string :=
  _ ← raise_if (negb (cd_terminal d)) (ValueError "cannot select reply before terminal decision");
  if cd_reply d =ˢ "" then mret (preview s) else mret (cd_reply d).

(** ** Profiles and registry *)
Record CompletionManifest := mkManifest {
  mf_provider : string;
  mf_runtime_mode : string;
  mf_completion_family : CompletionFamily;
  mf_completion_source_kind : CompletionSourceKind;
  mf_supports_exact_completion : bool;
  mf_supports_observed_completion : bool;
  mf_supports_anchor_binding : bool;
  mf_supports_reply_stability : bool;
  mf_supports_terminal_reason : bool;
  mf_selector_family : SelectorFamily
}.

Record CompletionProfile := mkProfile {
  pf_provider : string;
  pf_runtime_mode : RuntimeMode;
  pf_completion_family : CompletionFamily;
  pf_completion_source_kind : CompletionSourceKind;
  pf_supports_exact_completion : bool;
  pf_supports_observed_completion : bool;
  pf_supports_anchor_binding : bool;
  pf_supports_reply_stability : bool;
  pf_supports_terminal_reason : bool;
  pf_selector_family : SelectorFamily
}.

Definition profile_post_init (p : CompletionProfile) : result CompletionProfile :=
  let provider := lower (strip (pf_provider p)) in
  _ ← raise_if (provider =ˢ "") (CompletionValidationError "provider cannot be empty");
  mret (mkProfile provider (pf_runtime_mode p) (pf_completion_family p)
          (pf_completion_source_kind p) (pf_supports_exact_completion p)
          (pf_supports_observed_completion p) (pf_supports_anchor_binding p)
          (pf_supports_reply_stability p) (pf_supports_terminal_reason p) (pf_selector_family p)).

(** [agent_spec] is used for its provider and runtime mode only. *)
Definition build_completion_profile (provider : string) (mode : RuntimeMode)
    (m : CompletionManifest) : result CompletionProfile :=
  _ ← raise_if (provider ≠ˢ mf_provider m)
        (CompletionValidationError
           ("agent provider " +:+ repr_str provider +:+ " does not match manifest provider "
            +:+ repr_str (mf_provider m)));
  _ ← raise_if (runtime_mode_value mode ≠ˢ mf_runtime_mode m)
        (CompletionValidationError
           ("agent runtime_mode " +:+ repr_str (runtime_mode_value mode)
            +:+ " does not match manifest runtime_mode " +:+ repr_str (mf_runtime_mode m)));
  profile_post_init
    (mkProfile (mf_provider m) mode (mf_completion_family m) (mf_completion_source_kind m)
       (mf_supports_exact_completion m) (mf_supports_observed_completion m)
       (mf_supports_anchor_binding m) (mf_supports_reply_stability m)
       (mf_supports_terminal_reason m) (mf_selector_family m)).

Definition build_detector (p : CompletionProfile) : detector := new_detector (pf_completion_family p).
(** The three selector classes share all their behaviour. *)
Definition build_selector (p : CompletionProfile) : selector := new_selector.

(** ** The tracker service *)
Record active_tracker := mkTracker {
  tk_agent_name : string;
  tk_detector : detector;
  tk_selector : selector;
  tk_started_at : string;
  tk_timeout_s : Q
}.

Record CompletionTrackerView := mkView {
  vw_job_id : string;
  vw_agent_name : string;
  vw_state : CompletionState;
  vw_decision : CompletionDecision
}.

(** [_trackers], and the job ids in insertion order. *)
Record tracker_service := mkService {
  sv_request_timeout_s : Q;
  sv_trackers : gmap string active_tracker;
  sv_order : list string
}.

Abbreviation TS := (ST tracker_service).

Definition put_tracker (job_id : string) (t : active_tracker) (s : tracker_service)
    : tracker_service :=
  mkService (sv_request_timeout_s s) (<[job_id := t]> (sv_trackers s))
    (if bool_decide (is_Some (sv_trackers s !! job_id)) then sv_order s
     else sv_order s ++ [job_id]).

Definition DISABLED_REQUEST_BINDING_TIMEOUT_S : Q := 315360000.

(** [tracker.current(job_id)] of an active tracker. *)
Definition view_of (job_id : string) (t : active_tracker) : result CompletionTrackerView :=
  let decision := dt_decision (tk_detector t) in
  reply ← (if cd_terminal decision then select (tk_selector t) decision
           else mret (preview (tk_selector t)));
  decision ← (if (reply ≠ˢ "") && (cd_reply decision =ˢ "") then with_reply decision reply
              else mret decision);
  mret (mkView job_id (tk_agent_name t) (dt_state (tk_detector t)) decision).

Definition current (job_id : string) : TS (option CompletionTrackerView) := λ s,
  match sv_trackers s !! job_id with
  | None => (Ok None, s)
  | Some t => ((v ← view_of job_id t; mret (Some v)), s)
  end.

Definition require_tracker (job_id : string) : TS active_tracker := λ s,
  match sv_trackers s !! job_id with
  | Some t => (Ok t, s)
  | None => (Err (KeyError ("unknown completion tracker: " +:+ job_id)), s)
  end.

(** The view a method returns: [assert current is not None]. *)
Definition current_view (job_id : string) : TS CompletionTrackerView :=
  v ← current job_id;
  match v with Some v => mret v | None => st_raise (RuntimeError "AssertionError") end.

(** [start], from the profile of the job's provider and the name it is tracked
    under. *)
Definition start (job_id tracker_name provider : string) (p : CompletionProfile)
    (started_at : string) : TS (option CompletionTrackerView) :=
  s ← st_gets (λ s, s);
  let timeout := sv_request_timeout_s s in
  let binding := if Qle_bool timeout 0 then DISABLED_REQUEST_BINDING_TIMEOUT_S else timeout in
  ctx ← st_lift (context_post_init (mkContext job_id tracker_name provider binding None (1 # 2)));
  cursor ← st_lift (cursor_post_init
    (mkCursor (pf_completion_source_kind p) None None None None (Some 0) (Some started_at)));
  _ ← st_modify (put_tracker job_id
        (mkTracker tracker_name (bind_detector ctx cursor (build_detector p)) (build_selector p)
           started_at timeout));
  current job_id.

(** Run a detector method on the detector of a tracker: what it changed stays
    when it raises. *)
Definition on_detector (job_id : string) (m : ST detector unit) : TS unit :=
  t ← require_tracker job_id;
  let '(r, d) := m (tk_detector t) in
  _ ← st_modify (put_tracker job_id
        (mkTracker (tk_agent_name t) d (tk_selector t) (tk_started_at t) (tk_timeout_s t)));
  st_lift r.

Definition on_selector (job_id : string) (f : selector → selector) : TS unit :=
  t ← require_tracker job_id;
  st_modify (put_tracker job_id
    (mkTracker (tk_agent_name t) (tk_detector t) (f (tk_selector t)) (tk_started_at t)
       (tk_timeout_s t))).

Section tracker.
Context `{CompletionLib}.

Definition tracker_ingest (job_id : string) (item : CompletionItem) : TS CompletionTrackerView :=
  _ ← require_tracker job_id;
  _ ← (if it_kind item =ˢ IK_session_rotate then on_selector job_id reset_selector else mret tt);
  candidates ← st_lift (reply_candidates_from_item item);
  _ ← on_selector job_id (λ s, foldl (λ s c, ingest_candidate c s) s candidates);
  _ ← on_detector job_id (ingest item);
  current_view job_id.

Definition maybe_finalize_timeout (job_id now : string) : TS unit :=
  t ← require_tracker job_id;
  if Qle_bool (tk_timeout_s t) 0 then mret tt
  else if cd_terminal (dt_decision (tk_detector t)) then mret tt
  else match seconds_between (tk_started_at t) now with
       | Err _ => mret tt
       | Ok elapsed =>
           if negb (Qle_bool (tk_timeout_s t) elapsed) then mret tt
           else on_detector job_id
                  (finalize_timeout now (st_latest_cursor (dt_state (tk_detector t))))
       end.

Definition tracker_tick (job_id now : string) : TS CompletionTrackerView :=
  t ← require_tracker job_id;
  _ ← on_detector job_id (tick now (st_latest_cursor (dt_state (tk_detector t))));
  _ ← maybe_finalize_timeout job_id now;
  current_view job_id.

Fixpoint tick_each (now : string) (job_ids : list string) : TS (list CompletionTrackerView) :=
  match job_ids with
  | [] => mret []
  | j :: rest => (v ← tracker_tick j now; vs ← tick_each now rest; mret (v :: vs))
  end.

Definition tick_all (now : string) : TS (list CompletionTrackerView) :=
  ids ← st_gets sv_order;
  tick_each now ids.

Definition finish (job_id : string) : TS unit :=
  st_modify (λ s, mkService (sv_request_timeout_s s) (delete job_id (sv_trackers s))
                    (List.filter (λ j, j ≠ˢ job_id) (sv_order s))).

(** ** The orchestrator

    One request run to its end.  [polls] is what the source returns while time
    remains, with the clock reading used when it returns nothing; the loop
    ends when the deadline has passed. *)
Record orchestrator := mkOrchestrator { or_detector : detector; or_selector : selector }.

Definition finalize (s : selector) (d : CompletionDecision) : result CompletionDecision :=
  if negb (cd_terminal d) then mret d
  else
    reply ← select s d;
    if (reply ≠ˢ "") && (cd_reply d =ˢ "") then with_reply d reply else mret d.

Fixpoint run_loop (polls : list (option CompletionItem * string)) (cursor : CompletionCursor)
    (timeout_now : string) (d : detector) (s : selector) : result CompletionDecision :=
  match polls with
  | [] =>
      let '(r, d) := finalize_timeout timeout_now (Some cursor) d in
      _ ← r;
      finalize s (dt_decision d)
  | (None, now) :: rest =>
      let '(r, d) := tick now (Some cursor) d in
      _ ← r;
      if cd_terminal (dt_decision d) then finalize s (dt_decision d)
      else run_loop rest cursor timeout_now d s
  | (Some item, _) :: rest =>
      candidates ← reply_candidates_from_item item;
      let s := foldl (λ s c, ingest_candidate c s) s candidates in
      let '(r, d) := ingest item d in
      _ ← r;
      if cd_terminal (dt_decision d) then finalize s (dt_decision d)
      else run_loop rest (it_cursor item) timeout_now d s
  end.

Definition run (ctx : CompletionRequestContext) (baseline : CompletionCursor) (d : detector)
    (s : selector) (polls : list (option CompletionItem * string)) (timeout_now : string)
    : result CompletionDecision :=
  run_loop polls baseline timeout_now (bind_detector ctx baseline d) s.
End tracker.

(** ** What the dispatcher records *)
Definition state_flag (f : CompletionState → bool) (s : option CompletionState) : bool :=
  match s with Some s => f s | None => false end.
Definition state_value {A} (f : CompletionState → option A) (s : option CompletionState) : option A :=
  s ≫= f.
(** [a or b] on optional values that are falsy only when absent or empty. *)
Definition opt_str_or (a b : option string) : option string := if truthy a then a else b.
Definition opt_or {A} (a b : option A) : option A := match a with Some _ => a | None => b end.

Definition merge_terminal_decision (d : CompletionDecision) (tracked : option CompletionTrackerView)
    (prior : option CompletionSnapshot) : result CompletionDecision :=
  let ts := vw_state <$> tracked in
  let ps := sn_state <$> prior in
  let reply :=
    if cd_reply d ≠ˢ "" then cd_reply d
    else
      let tracked_reply := default "" ((λ v, cd_reply (vw_decision v)) <$> tracked) in
      if tracked_reply ≠ˢ "" then tracked_reply
      else default "" ((λ s, cd_reply (sn_latest_decision s)) <$> prior) in
  decision_post_init
    (mkDecision (cd_terminal d) (cd_status d) (cd_reason d) (cd_confidence d) reply
       (cd_anchor_seen d || state_flag st_anchor_seen ts || state_flag st_anchor_seen ps)
       (cd_reply_started d || state_flag st_reply_started ts || state_flag st_reply_started ps)
       (cd_reply_stable d || state_flag st_reply_stable ts || state_flag st_reply_stable ps)
       (opt_str_or (cd_provider_turn_ref d)
          (opt_str_or (state_value st_provider_turn_ref ts) (state_value st_provider_turn_ref ps)))
       (opt_or (cd_source_cursor d)
          (opt_or (state_value st_latest_cursor ts) (state_value st_latest_cursor ps)))
       (cd_finished_at d) (cd_diagnostics d)).

Definition build_terminal_state (d : CompletionDecision) (prior : option CompletionState)
    : CompletionState :=
  mkState
    (cd_anchor_seen d || state_flag st_anchor_seen prior)
    (cd_reply_started d || state_flag st_reply_started prior)
    (cd_reply_stable d || state_flag st_reply_stable prior)
    false
    (state_flag st_subagent_activity_seen prior)
    (state_value st_last_reply_hash prior)
    (opt_str_or (cd_finished_at d) (state_value st_last_reply_at prior))
    (state_value st_stable_since prior)
    (opt_str_or (cd_provider_turn_ref d) (state_value st_provider_turn_ref prior))
    (opt_or (cd_source_cursor d) (state_value st_latest_cursor prior))
    true.

(** ** Selection *)
Lemma entry_ltb_spec a b :
  entry_ltb a b = true ↔ rank a.2 < rank b.2 ∨ (rank a.2 = rank b.2 ∧ b.1 < a.1).
Proof.
  unfold entry_ltb. rewrite orb_true_iff, andb_true_iff, Z.eqb_eq, !Z.ltb_lt. done.
Qed.

(** [a] sorts no later than [b]. *)
Definition entry_le (a b : Z * ReplyCandidate) : Prop := entry_ltb b a = false.

Lemma entry_le_iff a b : entry_le a b ↔ rank a.2 < rank b.2 ∨ (rank a.2 = rank b.2 ∧ b.1 <= a.1).
Proof.
  unfold entry_le. rewrite <- not_true_iff_false, entry_ltb_spec. lia.
Qed.

Lemma best_entry_fold l x :
  let b := foldl (λ best e, if entry_ltb e best then e else best) x l in
  b ∈ x :: l ∧ entry_le b x ∧ ∀ e, e ∈ l → entry_le b e.
Proof.
  revert x. induction l as [|y l IH]; intros x; cbn.
  - split_and!; [by left|apply entry_le_iff; lia|by intros e ?%elem_of_nil].
  - set (z := if entry_ltb y x then y else x).
    assert (entry_le z x ∧ entry_le z y ∧ (z = x ∨ z = y)) as (Hx & Hy & Hz).
    { unfold z. destruct (entry_ltb y x) eqn:E; (split_and!; [| |by auto]).
      - apply entry_ltb_spec in E. apply entry_le_iff. lia.
      - apply entry_le_iff. lia.
      - apply entry_le_iff. lia.
      - done. }
    destruct (IH z) as (Hin & Hbz & Hall).
    assert (∀ e, entry_le z e → entry_le (foldl (λ best e, if entry_ltb e best then e else best) z l) e)
      as Htr by (intros e He; apply entry_le_iff; apply entry_le_iff in He, Hbz; lia).
    split_and!.
    + apply elem_of_cons in Hin as [->|Hin]; [|by right; right].
      destruct Hz as [-> | ->]; [by left|by right; left].
    + by apply Htr.
    + intros e [->|He]%elem_of_cons; [by apply Htr|by apply Hall].
Qed.

Lemma best_entry_spec l :
  match best_entry l with
  | None => l = []
  | Some b => b ∈ l ∧ ∀ e, e ∈ l → entry_le b e
  end.
Proof.
  destruct l as [|x l]; [done|]. cbn. destruct (best_entry_fold l x) as (Hin & Hx & Hl).
  split; [done|]. by intros e [->|He]%elem_of_cons; [|apply Hl].
Qed.

(** Sequence numbers grow. *)
Definition selector_ok (s : selector) : Prop :=
  NoDup (se_candidates s).*1 ∧ ∀ e, e ∈ se_candidates s → e.1 < se_sequence s.

Lemma selector_ok_new : selector_ok new_selector.
Proof. split; [constructor|by intros e ?%elem_of_nil]. Qed.
Lemma selector_ok_reset s : selector_ok (reset_selector s).
Proof. split; [constructor|by intros e ?%elem_of_nil]. Qed.
Lemma selector_ok_ingest c s : selector_ok s → selector_ok (ingest_candidate c s).
Proof.
  intros [Hn Hs]. split; cbn.
  - rewrite fmap_app. apply NoDup_app. split_and!; [done| |apply NoDup_singleton].
    intros i (e & -> & He)%list_elem_of_fmap Hi%list_elem_of_singleton.
    specialize (Hs e He). cbn in Hi. lia.
  - intros e [He| ->%list_elem_of_singleton]%elem_of_app; cbn; [specialize (Hs e He)|]; lia.
Qed.

(** The selectors a request goes through. *)
Inductive selector_op := SelIngest (c : ReplyCandidate) | SelReset.
Definition run_selector_op (s : selector) (op : selector_op) : selector :=
  match op with SelIngest c => ingest_candidate c s | SelReset => reset_selector s end.

Lemma selector_ok_ops ops s : selector_ok s → selector_ok (foldl run_selector_op s ops).
Proof.
  revert s. induction ops as [|[] ops IH]; intros s Hs; cbn; auto using selector_ok_ingest, selector_ok_reset.
Qed.

(** the reply a selector gives for a terminal decision without a reply of
    its own is the text of the candidate that comes first by priority and, among
    equal priorities, the one ingested last; there is none only when no
    candidate was ingested since the last reset. *)
Theorem select_best_latest ops d :
  cd_terminal d = true → cd_reply d = "" →
  let s := foldl run_selector_op new_selector ops in
  (se_candidates s = [] ∧ select s d = Ok "") ∨
  ∃ n c, (n, c) ∈ se_candidates s ∧ select s d = Ok (rc_text c) ∧
    ∀ n' c', (n', c') ∈ se_candidates s →
      rank c < rank c' ∨ (rank c = rank c' ∧ (n' < n ∨ (n', c') = (n, c))).
Proof.
  intros Ht Hr s. assert (selector_ok s) as [Hnd _] by apply selector_ok_ops, selector_ok_new.
  unfold select, preview, best_candidate. rewrite Ht, Hr. cbn [negb raise_if].
  rewrite result_bind_ok, bool_decide_eq_true_2 by done.
  pose proof (best_entry_spec (se_candidates s)) as Hb.
  destruct (best_entry (se_candidates s)) as [[n c]|]; [right|by left].
  destruct Hb as [Hin Hall]. exists n, c. split_and!; [done|done|]. intros n' c' Hin'.
  specialize (Hall _ Hin'). apply entry_le_iff in Hall as [?|[? Hle]]; [by left|right]. cbn in *.
  split; [done|]. destruct (decide (n' < n)); [by left|right].
  assert (n' = n) as -> by lia.
  apply list_elem_of_lookup in Hin as [i Hi], Hin' as [j Hj].
  assert (i = j) as ->; [|congruence].
  eapply (NoDup_lookup _ i j n Hnd); rewrite list_lookup_fmap; [by rewrite Hi|by rewrite Hj].
Qed.

(** ** Ends of requests *)
Section ends.
Context `{CompletionLib}.

Lemma first_non_empty_stripped payload keys t :
  first_non_empty payload keys = Some t → strip t = t ∧ t ≠ "".
Proof.
  induction keys as [|k keys IH]; [done|]. cbn. destruct (dget k payload); try done.
  case_bool_decide; [done|]. intros [= <-]. split; [apply strip_idem|done].
Qed.

Lemma candidate_of_ok item kind applies keys :
  it_timestamp item ≠ "" → ∃ l, candidate_of item kind applies keys = Ok l.
Proof.
  intros Ht. unfold candidate_of. destruct applies; [|by eexists].
  destruct (first_non_empty (it_payload item) keys) as [t|] eqn:E; [|by eexists].
  apply first_non_empty_stripped in E as [Hs Hne]. unfold candidate_post_init. cbn -[raise_if].
  rewrite Hs, !bool_decide_eq_false_2 by done. by eexists.
Qed.

Lemma candidates_ok item :
  it_timestamp item ≠ "" → ∃ l, reply_candidates_from_item item = Ok l.
Proof.
  intros Ht. unfold reply_candidates_from_item.
  repeat match goal with |- context [candidate_of ?i ?k ?a ?ks] =>
    let l := fresh "l" in let E := fresh in
    destruct (candidate_of_ok i k a ks Ht) as [l E]; rewrite E, result_bind_ok; clear E end.
  by eexists.
Qed.

Lemma with_reply_ok d r :
  decision_post_init d = Ok d →
  ∃ d', with_reply d r = Ok d' ∧ cd_terminal d' = cd_terminal d ∧
        cd_reply d' = (if r =ˢ "" then cd_reply d else r).
Proof.
  intros Hd. unfold with_reply, decision_post_init in *. inv_result. cbn in *.
  match goal with E : _ = Ok _ |- _ => rewrite E end. by eexists.
Qed.

Lemma select_terminal s d : cd_terminal d = true → ∃ r, select s d = Ok r.
Proof. intros Ht. unfold select. rewrite Ht. cbn. case_match; by eexists. Qed.

Lemma finalize_ok s d :
  cd_terminal d = true → decision_post_init d = Ok d →
  ∃ d', finalize s d = Ok d' ∧ cd_terminal d' = true.
Proof.
  intros Ht Hv. unfold finalize. rewrite Ht. cbn [negb].
  destruct (select_terminal s d Ht) as [r ->]. rewrite result_bind_ok.
  destruct (_ && _); [|by exists d].
  destruct (with_reply_ok d r Hv) as (d' & -> & Hd' & _). exists d'. by rewrite Hd'.
Qed.

(** Times the tracker can compare: they parse and carry an offset. *)
Definition good_time (t : string) : Prop := ∃ z, parse_timestamp t = Ok (true, z).

Lemma good_times_between s e : good_time s → good_time e → ∃ q, seconds_between s e = Ok q.
Proof.
  intros [x Hx] [y Hy]. unfold seconds_between. rewrite Hx, Hy. by eexists.
Qed.

(** What a source may deliver. *)
Definition good_poll (p : option CompletionItem * string) : Prop :=
  match p with
  | (Some item, _) =>
      good_time (it_timestamp item) ∧ it_timestamp item ≠ "" ∧ printable item ∧
      cursor_post_init (it_cursor item) = Ok (it_cursor item)
  | (None, now) => good_time now
  end.

Lemma run_loop_terminates polls cursor timeout_now d s ctx :
  Forall good_poll polls → cursor_valid (Some cursor) → has_ctx ctx d → detector_ok d →
  since_in good_time d →
  ∃ x, run_loop polls cursor timeout_now d s = Ok x ∧ cd_terminal x = true.
Proof.
  intros Hp. revert cursor d s. induction Hp as [|[[item|] now] polls Hpoll _ IH];
    intros cursor d s Hc Hx Hd Hsince; cbn [run_loop].
  - destruct (finalize_timeout_terminates' timeout_now (Some cursor) d ctx Hx) as (d' & E & Ht & _).
    pose proof (finalize_timeout_preserves timeout_now (Some cursor) Hc d Hd) as Hd'.
    unfold st_exec in Hd'. rewrite E in Hd' |- *. rewrite result_bind_ok.
    apply finalize_ok; [done|apply Hd'].
  - destruct Hpoll as (Htime & Hne & Hpr & Hcur).
    destruct (candidates_ok item Hne) as [cs ->]. rewrite result_bind_ok.
    destruct (ingest_verdict' item d ctx Hx Hpr) as (d' & E & Ht).
    pose proof (ingest_preserves item Hcur d Hd) as Hd'.
    pose proof (ingest_ctx ctx item d Hx) as Hx'.
    pose proof (ingest_since good_time item Htime d Hsince) as Hs'.
    unfold st_exec in *. rewrite E in *. cbn [snd] in *. rewrite result_bind_ok.
    destruct (cd_terminal (dt_decision d')) eqn:Hterm; [apply finalize_ok; [done|apply Hd']|].
    apply IH; try done. by intros x [= <-].
  - cbn in Hpoll. destruct (tick_returns now (Some cursor) d) as [d' E].
    { intros since Hs. apply good_times_between; auto. }
    pose proof (tick_preserves now (Some cursor) Hc d Hd) as Hd'.
    pose proof (tick_ctx ctx now (Some cursor) d Hx) as Hx'.
    pose proof (tick_since good_time now (Some cursor) d Hsince) as Hs'.
    unfold st_exec in *. rewrite E in *. cbn [snd] in *. rewrite result_bind_ok.
    destruct (cd_terminal (dt_decision d')) eqn:Hterm; [apply finalize_ok; [done|apply Hd']|].
    by apply IH.
Qed.


Lemma on_detector_eq job_id m s t r d :
  sv_trackers s !! job_id = Some t → m (tk_detector t) = (r, d) →
  on_detector job_id m s =
  (r, put_tracker job_id (mkTracker (tk_agent_name t) d (tk_selector t) (tk_started_at t)
                            (tk_timeout_s t)) s).
Proof.
  intros Ht Hm. unfold on_detector, require_tracker, mbind, st_bind. rewrite Ht, Hm. done.
Qed.

Lemma put_tracker_lookup job_id t s : sv_trackers (put_tracker job_id t s) !! job_id = Some t.
Proof. cbn. by rewrite lookup_insert_eq. Qed.

Lemma require_tracker_eq job_id t s :
  sv_trackers s !! job_id = Some t → require_tracker job_id s = (Ok t, s).
Proof. intros Ht. unfold require_tracker. by rewrite Ht. Qed.

Lemma current_view_terminal job_id t s :
  sv_trackers s !! job_id = Some t → detector_ok (tk_detector t) →
  cd_terminal (dt_decision (tk_detector t)) = true →
  ∃ v, current_view job_id s = (Ok v, s) ∧ cd_terminal (vw_decision v) = true.
Proof.
  intros Ht Hd Hterm. unfold current_view, current, mbind, st_bind. rewrite Ht.
  unfold view_of. rewrite Hterm.
  destruct (select_terminal (tk_selector t) _ Hterm) as [r ->]. rewrite result_bind_ok.
  destruct (_ && _).
  - destruct (with_reply_ok _ r (do_decision _ Hd)) as (d' & -> & Hd' & _).
    eexists. split; [reflexivity|]. cbn. by rewrite Hd'.
  - eexists. split; [reflexivity|]. done.
Qed.

Lemma maybe_finalize_terminates job_id now s t ctx e :
  sv_trackers s !! job_id = Some t → has_ctx ctx (tk_detector t) → detector_ok (tk_detector t) →
  Qle_bool (tk_timeout_s t) 0 = false → seconds_between (tk_started_at t) now = Ok e →
  Qle_bool (tk_timeout_s t) e = true →
  ∃ s' t', maybe_finalize_timeout job_id now s = (Ok tt, s') ∧ sv_trackers s' !! job_id = Some t' ∧
    detector_ok (tk_detector t') ∧ cd_terminal (dt_decision (tk_detector t')) = true.
Proof.
  intros Ht Hx Hd H0 He Hle. unfold maybe_finalize_timeout.
  rewrite (st_bind_ok _ _ _ _ _ (require_tracker_eq _ _ _ Ht)), H0.
  destruct (cd_terminal (dt_decision (tk_detector t))) eqn:Hterm; [by exists s, t|].
  rewrite He, Hle. cbn [negb]. set (c := st_latest_cursor (dt_state (tk_detector t))).
  destruct (finalize_timeout_terminates' now c (tk_detector t) ctx Hx) as (d' & E & Hd' & _).
  pose proof (finalize_timeout_preserves now c (do_cursor _ Hd) _ Hd) as Hok.
  unfold st_exec in Hok. rewrite E in Hok. rewrite (on_detector_eq _ _ _ _ _ _ Ht E).
  eexists _, _. split; [reflexivity|]. split; [apply put_tracker_lookup|]. done.
Qed.

(** a request whose time is up ends at the next tick: when the configured
    timeout has passed since the tracker started, [tick] returns a view with a
    terminal decision. *)
Theorem tick_ends_expired_request job_id now s t ctx e :
  sv_trackers s !! job_id = Some t → has_ctx ctx (tk_detector t) → detector_ok (tk_detector t) →
  since_in good_time (tk_detector t) → good_time now →
  Qle_bool (tk_timeout_s t) 0 = false → seconds_between (tk_started_at t) now = Ok e →
  Qle_bool (tk_timeout_s t) e = true →
  ∃ v s', tracker_tick job_id now s = (Ok v, s') ∧ cd_terminal (vw_decision v) = true.
Proof.
  intros Ht Hx Hd Hsince Hnow H0 He Hle. unfold tracker_tick.
  rewrite (st_bind_ok _ _ _ _ _ (require_tracker_eq _ _ _ Ht)).
  set (c := st_latest_cursor (dt_state (tk_detector t))).
  destruct (tick_returns now c (tk_detector t)) as [d1 E].
  { intros since Hs. apply good_times_between; auto. }
  pose proof (tick_preserves now c (do_cursor _ Hd) _ Hd) as Hd1.
  pose proof (tick_ctx ctx now c _ Hx) as Hx1. unfold st_exec in *. rewrite E in *.
  rewrite (st_bind_ok _ _ _ _ _ (on_detector_eq _ _ _ _ _ _ Ht E)).
  set (t1 := mkTracker _ d1 _ _ _). set (s1 := put_tracker job_id t1 s).
  destruct (maybe_finalize_terminates job_id now s1 t1 ctx e) as (s2 & t2 & Hf & Ht2 & Hd2 & Hterm);
    try done; [apply put_tracker_lookup|].
  rewrite (st_bind_ok _ _ _ _ _ Hf).
  destruct (current_view_terminal job_id t2 s2 Ht2 Hd2 Hterm) as (v & Hv & Hvt).
  by exists v, s2.
Qed.

(** merging a terminal decision with what was tracked keeps its verdict
    (status, reason, confidence, finishing time) and its own reply, falls back
    to the tracked and then the recorded reply, never loses an observation, and
    yields a decision the constructor accepts. *)
Theorem merge_keeps_verdict d tracked prior :
  decision_post_init d = Ok d →
  ∃ d', merge_terminal_decision d tracked prior = Ok d' ∧ decision_post_init d' = Ok d' ∧
    cd_terminal d' = cd_terminal d ∧ cd_status d' = cd_status d ∧ cd_reason d' = cd_reason d ∧
    cd_confidence d' = cd_confidence d ∧ cd_finished_at d' = cd_finished_at d ∧
    (cd_reply d ≠ "" → cd_reply d' = cd_reply d) ∧
    (cd_reply d = "" → ∀ v, tracked = Some v → cd_reply (vw_decision v) ≠ "" →
       cd_reply d' = cd_reply (vw_decision v)) ∧
    (cd_anchor_seen d = true → cd_anchor_seen d' = true) ∧
    (cd_reply_started d = true → cd_reply_started d' = true) ∧
    (cd_reply_stable d = true → cd_reply_stable d' = true).
Proof.
  intros Hv. unfold merge_terminal_decision. unfold decision_post_init in *. inv_result. cbn in *.
  match goal with E : _ = Ok _ |- _ => rewrite E end. eexists. split; [reflexivity|].
  cbn. match goal with E : _ = Ok _ |- _ => rewrite E end. split_and!; try done.
  - intros Hr. by rewrite bool_decide_eq_false_2.
  - intros Hr v -> Hvr. rewrite bool_decide_eq_true_2 by done. cbn. by rewrite bool_decide_eq_false_2.
  - by intros ->.
  - by intros ->.
  - by intros ->.
Qed.
End ends.

(** ** Concrete inputs *)
Definition demo_boundary : CompletionItem := demo_item IK_turn_boundary "5" [("text", PStr "done")].
Definition demo_late : CompletionItem := demo_item IK_assistant_chunk "6" [("text", PStr "more")].

(** an item that arrives after the end of a turn takes the end back: in one
    batch of items the decision is terminal after the turn boundary and pending
    again after a late chunk, while the state stays marked terminal; so a
    caller that looks at the last view of the batch, as
    [_ingest_update_items] does, misses the end of the turn. *)
Theorem late_item_reopens_turn :
  let d1 := st_exec (@ingest demo_lib demo_boundary) (demo_detector CF_protocol_turn) in
  let d2 := st_exec (@ingest demo_lib demo_late) d1 in
  cd_terminal (dt_decision d1) = true ∧ cd_status (dt_decision d1) = CS_completed ∧
  cd_terminal (dt_decision d2) = false ∧ st_terminal (dt_state d2) = true.
Proof. by vm_compute. Qed.

Definition demo_candidate (k : ReplyCandidateKind) (t : string) : ReplyCandidate :=
  mkCandidate k t "5" None (Some (REPLY_PRIORITY k)) None.
Definition demo_ops : list selector_op :=
  [SelIngest (demo_candidate RK_assistant_final "draft"); SelReset;
   SelIngest (demo_candidate RK_assistant_final "a"); SelIngest (demo_candidate RK_fallback_text "b");
   SelIngest (demo_candidate RK_assistant_final "c")].
Definition demo_terminal_decision : CompletionDecision :=
  mkDecision true CS_completed (Some "task_complete") (Some CC_exact) "" true true true None None
    (Some "5") [].

Lemma select_best_latest_witness :
  select (foldl run_selector_op new_selector demo_ops) demo_terminal_decision = Ok "c" ∧
  ∃ n c, (n, c) ∈ se_candidates (foldl run_selector_op new_selector demo_ops) ∧
         select (foldl run_selector_op new_selector demo_ops) demo_terminal_decision = Ok (rc_text c).
Proof.
  split; [by vm_compute|].
  destruct (select_best_latest demo_ops demo_terminal_decision eq_refl eq_refl)
    as [[H _]|(n & c & Hin & Hs & _)]; [discriminate H|]. by exists n, c.
Defined.



Definition demo_service : tracker_service :=
  put_tracker "job_1"
    (mkTracker "agent1" (demo_detector CF_protocol_turn) new_selector "5" 60)
    (mkService 60 ∅ []).

Lemma tick_ends_expired_request_witness :
  ∃ v s', @tracker_tick demo_lib "job_1" "70" demo_service = (Ok v, s') ∧
          cd_terminal (vw_decision v) = true.
Proof.
  refine (@tick_ends_expired_request demo_lib "job_1" "70" demo_service
    (mkTracker "agent1" (demo_detector CF_protocol_turn) new_selector "5" 60) demo_ctx
    (65000000 # 1000000) eq_refl eq_refl _ _ _ eq_refl eq_refl eq_refl).
  - split; try done; by apply demo_cursor_valid; left.
  - by intros t.
  - by eexists.
Defined.

Lemma merge_keeps_verdict_witness :
  ∃ d', merge_terminal_decision demo_terminal_decision None None = Ok d' ∧
        cd_status d' = CS_completed.
Proof.
  destruct (merge_keeps_verdict demo_terminal_decision None None eq_refl)
    as (d' & H & _ & _ & Hs & _). by exists d'.
Defined.
