(* ===== verification/TextArtifacts.v ===== *)
(** * Text artifacts

    [storage/text_artifacts.py]: a text of more than 4 KiB is stored in a file
    of its own and replaced by a stub with a preview; a reference to such a file
    is checked before it is used. *)
From stdpp Require Import pretty.
From S2P Require Import Prelude PyValue CompletionModels.
Open Scope string_scope.
Open Scope list_scope.
Open Scope nat_scope.

Definition TEXT_ARTIFACT_SPILL_BYTES : nat := 4 * 1024.
Definition TEXT_ARTIFACT_PREVIEW_CHARS : nat := 1200.
Definition TEXT_ARTIFACT_TTL_S : Z := 24 * 60 * 60.

(** What the module asks of the platform: the [n]-th [uuid4().hex[:16]]; the
    directory [layout.ccbd_text_artifacts_dir] as text and resolved; the path
    [Path(p).expanduser().resolve(strict=True)], [None] when there is no such
    file; [_utc_now]; and the ISO time some seconds after another one. *)
Class TextLib := {
  uuid_hex16 : nat → string;
  artifacts_dir : string;
  artifacts_root : string;
  resolve_path : string → option string;
  text_utc_now : nat → string;
  iso_after : string → Z → result string
}.

(** The files below the artifact directory, and how many were written. *)
Record text_store := mkTextStore {
  tx_files : gmap string (list ascii);
  tx_written : nat
}.
Abbreviation TX := (ST text_store).

Definition utf8_size (text : string) : nat := length (utf8_encode text).
Definition should_spill_text (text : string) (threshold_bytes : nat) : bool :=
  threshold_bytes <? utf8_size text.

(** [str.isalnum] on one code point. *)
Definition is_alnum (c : ascii) : bool :=
  let n := code c in
  let within a b := (a <=? n) && (n <=? b) in
  within 48 57 || within 65 90 || within 97 122 || (n =? 170) || within 178 179 || (n =? 181)
  || within 185 186 || within 188 190 || within 192 214 || within 216 246 || within 248 255.
Definition is_dash_or_underscore (c : ascii) : bool := (code c =? 45) || (code c =? 95).

(** [s.strip(chars)]. *)
Fixpoint lstrip_of (p : ascii → bool) (s : string) : string :=
  match s with "" => "" | String c s' => if p c then lstrip_of p s' else s end.
Fixpoint rstrip_of (p : ascii → bool) (s : string) : string :=
  match s with
  | "" => ""
  | String c s' =>
      match rstrip_of p s' with
      | "" => if p c then "" else String c ""
      | t => String c t
      end
  end.

Definition safe_segment (value fallback : string) : string :=
  let text := string_map (λ c, if is_alnum c || is_dash_or_underscore c then c else "-"%char)
                (strip value) in
  str_or (Some (lower (rstrip_of is_dash_or_underscore (lstrip_of is_dash_or_underscore text))))
    fallback.

(** [text[:n]]. *)
Fixpoint take_chars (n : nat) (s : string) : string :=
  match n, s with
  | S n', String c s' => String c (take_chars n' s')
  | _, _ => ""
  end.

Definition newline : string := String (ascii_of_nat 10) "".

Definition preview_text (text : string) (max_chars : nat) : string :=
  let body := strip text in
  if String.length body <=? max_chars then body
  else rstrip (take_chars max_chars body) +:+ newline +:+ "...[truncated]".

(** The fields of a freshly written artifact that the stub shows. *)
Definition artifact_stub (prefix path : string) (bytes : nat) (sha256 preview : string) : string :=
  let preview := rstrip preview in
  rstrip (join newline
    ([ str_or (Some (rstrip prefix)) "CCB large text artifact.";
       "Full text: " +:+ path;
       "Bytes: " +:+ pretty (Z.of_nat bytes);
       "SHA256: " +:+ sha256 ]
     ++ (if preview =ˢ "" then [] else [""; "Preview:"; preview])
     ++ [""; "Instruction: read the full text file above before acting when the preview is insufficient."])).

Section artifacts.
Context `{CompletionLib} `{TextLib}.

Definition artifact_path (kind owner_id artifact_id : string) : string :=
  artifacts_dir +:+ "/" +:+ safe_segment kind "text" +:+ "/"
  +:+ safe_segment owner_id "unknown" +:+ "-" +:+ artifact_id +:+ ".txt".

Definition write_text_artifact (text kind owner_id : string) (ttl_seconds : Z)
    (now : option string) : TX pydict := λ s,
  let data := utf8_encode text in
  let digest := sha256_hexdigest data in
  let timestamp := str_or now (text_utc_now (tx_written s)) in
  let artifact_id := "art_" +:+ uuid_hex16 (tx_written s) in
  let path := artifact_path kind owner_id artifact_id in
  let s' := mkTextStore (<[path := data]> (tx_files s)) (S (tx_written s)) in
  (expires_at ← iso_after timestamp (Z.max 0 ttl_seconds);
   mret [ ("schema_version", PInt 1);
          ("kind", PStr (safe_segment kind "text"));
          ("artifact_id", PStr artifact_id);
          ("path", PStr path);
          ("bytes", PInt (Z.of_nat (length data)));
          ("sha256", PStr digest);
          ("encoding", PStr "utf-8");
          ("preview", PStr (preview_text text TEXT_ARTIFACT_PREVIEW_CHARS));
          ("created_at", PStr timestamp);
          ("expires_at", PStr expires_at) ], s').

Definition maybe_spill_text (text kind owner_id prefix : string) (threshold_bytes : nat)
    (ttl_seconds : Z) (now : option string) : TX (string * option pydict) :=
  if negb (should_spill_text text threshold_bytes) then mret (text, None)
  else
    artifact ← write_text_artifact text kind owner_id ttl_seconds now;
    path ← st_lift (str_at "path" artifact);
    preview ← st_lift (str_at "preview" artifact);
    digest ← st_lift (str_at "sha256" artifact);
    mret (artifact_stub prefix path (utf8_size text) digest preview, Some artifact).

(** ** Checking a reference *)
Definition validated_artifact_path (value : pyval) : result string :=
  text ← py_str_or_empty value;
  match resolve_path text with
  | None => Err (ValueError "text artifact path does not exist")
  | Some resolved =>
      if (resolved =ˢ artifacts_root) || String.prefix (artifacts_root +:+ "/") resolved
      then Ok resolved
      else Err (ValueError "text artifact path escapes CCB artifact directory")
  end.

(** A reference compared with its file.  The preview of a reference that has
    none decodes the file again; the argument [decoded] is that decoding. *)
Definition checked_ref (decoded : list ascii → string) (ref : pydict) (s : text_store)
    : result pydict :=
  path ← validated_artifact_path (dget "path" ref);
  data ← match tx_files s !! path with
         | Some data => mret data
         | None => Err (ValueError "text artifact path does not exist")
         end;
  _ ← match dget "bytes" ref with
      | PNone => mret tt
      | v =>
          n ← py_int v;
          raise_if (negb (n =? Z.of_nat (length data))%Z)
            (ValueError "text artifact byte size mismatch")
      end;
  expected_sha ← py_str_or_empty (dget "sha256" ref);
  let actual_sha := sha256_hexdigest data in
  _ ← raise_if ((strip expected_sha ≠ˢ "") && (strip expected_sha ≠ˢ actual_sha))
        (ValueError "text artifact sha256 mismatch");
  let ref := dset "path" (PStr path) ref in
  let ref := dset "bytes" (PInt (Z.of_nat (length data))) ref in
  let ref := dset "sha256" (PStr actual_sha) ref in
  let ref := dsetdefault "encoding" (PStr "utf-8") ref in
  mret (dsetdefault "preview"
          (PStr (preview_text (decoded data) TEXT_ARTIFACT_PREVIEW_CHARS)) ref).

Definition validate_text_artifact_ref (decoded : list ascii → string) (artifact : option pydict)
    (s : text_store) : result (option pydict) :=
  match artifact with
  | None | Some [] => mret None
  | Some ref => ref' ← checked_ref decoded ref s; mret (Some ref')
  end.
End artifacts.

(** ** Sizes *)
Lemma utf8_encode_app s t : utf8_encode (s +:+ t) = utf8_encode s ++ utf8_encode t.
Proof.
  induction s as [|c s IH]; [done|]. rewrite string_app_cons. cbn [utf8_encode].
  by destruct (code c <? 128); cbn; rewrite IH.
Qed.

Lemma utf8_size_app s t : utf8_size (s +:+ t) = utf8_size s + utf8_size t.
Proof. unfold utf8_size. by rewrite utf8_encode_app, length_app. Qed.

Lemma utf8_size_cons c s : utf8_size (String c s) = utf8_size (String c "") + utf8_size s.
Proof. apply (utf8_size_app (String c "") s). Qed.

Lemma utf8_size_char c : utf8_size (String c "") ≤ 2.
Proof. unfold utf8_size. cbn [utf8_encode]. destruct (code c <? 128); cbn [length]; lia. Qed.

Lemma utf8_size_le s : utf8_size s ≤ 2 * String.length s.
Proof.
  induction s as [|c s IH]; [done|]. rewrite utf8_size_cons. pose proof (utf8_size_char c).
  cbn [String.length]. lia.
Qed.

Lemma utf8_size_rstrip s : utf8_size (rstrip s) ≤ utf8_size s.
Proof.
  induction s as [|c s IH]; [done|]. rewrite rstrip_cons, (utf8_size_cons c s).
  destruct (rstrip s) as [|c' t] eqn:E; [destruct (is_space c); cbn; lia|].
  rewrite (utf8_size_cons c). lia.
Qed.

Lemma utf8_size_lstrip s : utf8_size (lstrip s) ≤ utf8_size s.
Proof.
  induction s as [|c s IH]; [done|]. cbn [lstrip]. rewrite (utf8_size_cons c s).
  destruct (is_space c); [lia|]. rewrite utf8_size_cons. lia.
Qed.

Lemma length_take_chars n s : String.length (take_chars n s) ≤ n.
Proof. revert s. induction n as [|n IH]; intros [|c s]; cbn; try lia. specialize (IH s). lia. Qed.

(** A preview has at most its characters and the mark of the cut. *)
Lemma preview_size text max : utf8_size (preview_text text max) ≤ 2 * max + 15.
Proof.
  unfold preview_text. destruct (String.length (strip text) <=? max) eqn:E.
  - apply Nat.leb_le in E. pose proof (utf8_size_le (strip text)). lia.
  - rewrite !utf8_size_app. pose proof (utf8_size_rstrip (take_chars max (strip text))) as H1.
    pose proof (utf8_size_le (take_chars max (strip text))) as H2.
    pose proof (length_take_chars max (strip text)) as H3.
    change (utf8_size newline) with 1. change (utf8_size "...[truncated]") with 14. lia.
Qed.

Lemma pretty_N_size k : ∀ x s, (x < 10 ^ N.of_nat k)%N →
  utf8_size (pretty_N_go x s) ≤ k + utf8_size s.
Proof.
  induction k as [|k IH]; intros x s Hx.
  - assert (x = 0%N) as -> by (cbn in Hx; lia). by rewrite pretty_N_go_0.
  - destruct (decide (x = 0%N)) as [->|Hn]; [rewrite pretty_N_go_0; lia|].
    rewrite pretty_N_go_step by lia.
    assert (x `div` 10 < 10 ^ N.of_nat k)%N as Hd.
    { apply N.Div0.div_lt_upper_bound. rewrite Nat2N.inj_succ, N.pow_succ_r' in Hx. lia. }
    specialize (IH _ (String (pretty_N_char (x `mod` 10)) s) Hd). rewrite utf8_size_cons in IH.
    assert (utf8_size (String (pretty_N_char (x `mod` 10)) "") = 1) as Hc.
    { unfold pretty_N_char. by repeat case_match. }
    lia.
Qed.

Lemma pretty_size k n : (n < 10 ^ N.of_nat k)%N → 0 < k → utf8_size (pretty (Z.of_N n)) ≤ k.
Proof.
  intros Hn Hk. destruct n as [|p].
  { change (utf8_size (pretty (Z.of_N 0))) with 1. lia. }
  change (pretty (Z.of_N (N.pos p))) with (pretty (N.pos p)).
  unfold pretty, pretty_N. rewrite decide_False by done.
  pose proof (pretty_N_size k (N.pos p) "" Hn) as H. change (utf8_size "") with 0 in H. lia.
Qed.

Lemma join_newline_size l :
  utf8_size (join newline l) ≤ list_sum ((λ s, utf8_size s + 1) <$> l).
Proof.
  induction l as [|s l IH]; [reflexivity|]. change (list_sum _) with
    (utf8_size s + 1 + list_sum ((λ s, utf8_size s + 1) <$> l)).
  destruct l as [|t l]; [change (join newline [s]) with s; lia|]. change (join newline (s :: t :: l)) with
    (s +:+ newline +:+ join newline (t :: l)).
  rewrite !utf8_size_app. change (utf8_size newline) with 1. lia.
Qed.

Lemma stub_size prefix path bytes digest preview :
  utf8_size (artifact_stub prefix path bytes digest preview)
  ≤ utf8_size prefix + utf8_size path + utf8_size (pretty (Z.of_nat bytes)) + utf8_size digest
    + utf8_size preview + 170.
Proof.
  unfold artifact_stub. etransitivity; [apply utf8_size_rstrip|].
  etransitivity; [apply join_newline_size|].
  pose proof (utf8_size_rstrip prefix). pose proof (utf8_size_rstrip preview).
  assert (utf8_size (str_or (Some (rstrip prefix)) "CCB large text artifact.")
          ≤ utf8_size prefix + 24) as Hp.
  { unfold str_or. case_bool_decide; [|lia].
    change (utf8_size "CCB large text artifact.") with 24. lia. }
  rewrite !fmap_app, !list_sum_app. cbn [fmap list_fmap list_sum fold_right]. unfold list_sum.
  cbn [fold_right]. rewrite !utf8_size_app.
  change (utf8_size "Full text: ") with 11. change (utf8_size "Bytes: ") with 7.
  change (utf8_size "SHA256: ") with 8.
  case_bool_decide; cbn [fmap list_fmap fold_right];
    change (utf8_size "") with 0; change (utf8_size "Preview:") with 8;
    change (utf8_size "Instruction: read the full text file above before acting when the preview is insufficient.") with 90;
    lia.
Qed.

Section spill.
Context `{CompletionLib} `{TextLib}.

Lemma spill_inv text kind owner_id prefix threshold ttl now s shown artifact s' :
  maybe_spill_text text kind owner_id prefix threshold ttl now s = (Ok (shown, artifact), s') →
  (should_spill_text text threshold = false ∧ shown = text ∧ artifact = None ∧ s' = s) ∨
  (should_spill_text text threshold = true ∧
   ∃ a path, artifact = Some a ∧ path = artifact_path kind owner_id ("art_" +:+ uuid_hex16 (tx_written s)) ∧
     write_text_artifact text kind owner_id ttl now s = (Ok a, s') ∧
     tx_files s' = <[path := utf8_encode text]> (tx_files s) ∧
     dget "path" a = PStr path ∧ dget "bytes" a = PInt (Z.of_nat (utf8_size text)) ∧
     dget "sha256" a = PStr (sha256_hexdigest (utf8_encode text)) ∧
     shown = artifact_stub prefix path (utf8_size text) (sha256_hexdigest (utf8_encode text))
               (preview_text text TEXT_ARTIFACT_PREVIEW_CHARS)).
Proof.
  unfold maybe_spill_text. destruct (should_spill_text text threshold); cbn [negb].
  2: { intros [= <- <- <-]. by left. }
  unfold write_text_artifact, mbind at 1, st_bind at 1.
  destruct (iso_after _ _) as [e|e]; cbn -[artifact_stub artifact_path]; [|discriminate].
  intros [= <- <- <-]. right. split; [done|]. do 2 eexists. by repeat split.
Qed.

(** A text never grows out of its limit.  Whatever [maybe_spill_text]
    returns with the 4 KiB threshold has at most 4 KiB as UTF-8, so it is never
    spilled a second time, and nothing is lost: either it is the text itself and
    no file is written, or the whole text is the content of a new file whose
    path, size and digest the returned artifact records and the stub names.
    (Texts below 10 GB, a digest of 64 bytes, and at most 1400 bytes of path and
    prefix; code points below U+0100.) *)
Theorem spilled_text_fits (text kind owner_id prefix : string) (ttl : Z) (now : option string)
    (s : text_store) (shown : string) (artifact : option pydict) (s' : text_store)
    (Hspill : maybe_spill_text text kind owner_id prefix TEXT_ARTIFACT_SPILL_BYTES ttl now s
              = (Ok (shown, artifact), s'))
    (Hlen : (N.of_nat (utf8_size text) < 10 ^ 10)%N)
    (Hdigest : utf8_size (sha256_hexdigest (utf8_encode text)) ≤ 64)
    (Hnames : utf8_size prefix
              + utf8_size (artifact_path kind owner_id ("art_" +:+ uuid_hex16 (tx_written s))) ≤ 1400) :
  utf8_size shown ≤ TEXT_ARTIFACT_SPILL_BYTES ∧
  should_spill_text shown TEXT_ARTIFACT_SPILL_BYTES = false ∧
  match artifact with
  | None => shown = text ∧ s' = s
  | Some a =>
      TEXT_ARTIFACT_SPILL_BYTES < utf8_size text ∧
      ∃ path, dget "path" a = PStr path ∧ tx_files s' = <[path := utf8_encode text]> (tx_files s) ∧
              dget "bytes" a = PInt (Z.of_nat (utf8_size text)) ∧
              dget "sha256" a = PStr (sha256_hexdigest (utf8_encode text)) ∧
              shown = artifact_stub prefix path (utf8_size text)
                        (sha256_hexdigest (utf8_encode text))
                        (preview_text text TEXT_ARTIFACT_PREVIEW_CHARS)
  end.
Proof.
  assert (utf8_size shown ≤ TEXT_ARTIFACT_SPILL_BYTES →
          should_spill_text shown TEXT_ARTIFACT_SPILL_BYTES = false) as Hfits.
  { intros. by apply Nat.ltb_ge. }
  destruct (spill_inv _ _ _ _ _ _ _ _ _ _ _ Hspill)
    as [(Hsmall & -> & -> & ->)|(Hbig & a & path & -> & Hpath & _ & Hfiles & Hp & Hb & Hd & Hshown)].
  - apply Nat.ltb_ge in Hsmall. by repeat split; [|apply Hfits|..].
  - assert (utf8_size shown ≤ TEXT_ARTIFACT_SPILL_BYTES) as Hle.
    { rewrite Hshown. etransitivity; [apply stub_size|]. rewrite <- nat_N_Z.
      pose proof (pretty_size 10 _ Hlen ltac:(lia)).
      pose proof (preview_size text TEXT_ARTIFACT_PREVIEW_CHARS) as Hprev.
      rewrite <- Hpath in Hnames.
      change TEXT_ARTIFACT_SPILL_BYTES with 4096. change TEXT_ARTIFACT_PREVIEW_CHARS with 1200 in *.
      lia. }
    split; [done|]. split; [by apply Hfits|]. split; [by apply Nat.ltb_lt in Hbig|].
    exists path. by repeat split.
Qed.

Lemma validated_path_inside v path :
  validated_artifact_path v = Ok path →
  path = artifacts_root ∨ String.prefix (artifacts_root +:+ "/") path = true.
Proof.
  unfold validated_artifact_path. intros H1. inv_result. destruct (resolve_path _) as [p|]; [|done].
  destruct ((p =ˢ artifacts_root) || _) eqn:E; [|done]. injection H1 as <-.
  apply orb_prop in E as [E%bool_decide_eq_true|E]; [by left|by right].
Qed.

Lemma checked_ref_inv dec ref s ref' :
  checked_ref dec ref s = Ok ref' →
  ∃ path data, tx_files s !! path = Some data ∧
    (path = artifacts_root ∨ String.prefix (artifacts_root +:+ "/") path = true) ∧
    dget "path" ref' = PStr path ∧ dget "bytes" ref' = PInt (Z.of_nat (length data)) ∧
    dget "sha256" ref' = PStr (sha256_hexdigest data) ∧
    (∀ n, dget "bytes" ref = PInt n → n = Z.of_nat (length data)) ∧
    (∀ d, dget "sha256" ref = PStr d → strip d ≠ "" → strip d = sha256_hexdigest data).
Proof.
  unfold checked_ref. intros H1. inv_result. rename x into path, x0 into data.
  destruct (tx_files s !! path) as [data'|] eqn:Hf; [|discriminate]. inv_result. subst.
  exists path, data. split; [done|]. split; [by eapply validated_path_inside|].
  do 3 (split; [by dget_simpl|]). split.
  - intros n Hn. rewrite Hn in *. cbn [py_int] in *. rewrite result_bind_ok in *. inv_result.
    by apply Z.eqb_eq, negb_false_iff.
  - intros d Hd Hne. rewrite Hd, py_str_or_empty_str in *. inv_result. subst.
    match goal with Hg : _ && _ = false |- _ => rename Hg into Hguard end.
    rewrite (bool_decide_ne Hne) in Hguard. cbn in Hguard.
    by apply negb_false_iff, bool_decide_eq_true in Hguard.
Qed.

Lemma spilled_ref_accepted dec text kind owner_id ttl now s a s' path :
  write_text_artifact text kind owner_id ttl now s = (Ok a, s') →
  tx_files s' = <[path := utf8_encode text]> (tx_files s) →
  dget "path" a = PStr path → resolve_path path = Some path →
  String.prefix (artifacts_root +:+ "/") path = true →
  strip (sha256_hexdigest (utf8_encode text)) = sha256_hexdigest (utf8_encode text) →
  validate_text_artifact_ref dec (Some a) s' = Ok (Some a).
Proof.
  intros Hw Hfiles Hp Hr Hin Hsha.
  assert (validated_artifact_path (PStr path) = Ok path) as Hv.
  { unfold validated_artifact_path. by rewrite py_str_or_empty_str, result_bind_ok, Hr, Hin, orb_true_r. }
  unfold write_text_artifact in Hw. destruct (iso_after _ _) as [e|]; [|discriminate].
  rewrite result_bind_ok in Hw. injection Hw as Ha Hs'. rewrite <- Ha in Hp. injection Hp as Hpath.
  rewrite Hpath in Ha. subst a. unfold validate_text_artifact_ref, checked_ref. dict_simpl.
  rewrite Hv, result_bind_ok, Hfiles, lookup_insert_eq. cbn [py_int]. unfold mret, result_ret.
  rewrite !result_bind_ok, Z.eqb_refl. cbn [negb raise_if]. rewrite result_bind_ok, Hsha.
  rewrite (bool_decide_eq_true_2 (sha256_hexdigest (utf8_encode text) = sha256_hexdigest _)) by done.
  cbn [negb]. rewrite andb_false_r. cbn [raise_if]. by rewrite result_bind_ok.
Qed.

(** A reference is used only for what it describes.  When
    [validate_text_artifact_ref] accepts a reference, the file exists inside the
    artifact directory, and the returned reference carries its resolved path,
    its actual size and its actual digest; a reference that named another size
    or digest is refused.  And what was just spilled is accepted as it is, when
    its path resolves to itself below the directory. *)
Theorem artifact_refs_checked :
  (∀ dec ref s ref', validate_text_artifact_ref dec ref s = Ok (Some ref') →
     ∃ r path data, ref = Some r ∧ tx_files s !! path = Some data ∧
       (path = artifacts_root ∨ String.prefix (artifacts_root +:+ "/") path = true) ∧
       dget "path" ref' = PStr path ∧ dget "bytes" ref' = PInt (Z.of_nat (length data)) ∧
       dget "sha256" ref' = PStr (sha256_hexdigest data) ∧
       (∀ n, dget "bytes" r = PInt n → n = Z.of_nat (length data)) ∧
       (∀ d, dget "sha256" r = PStr d → strip d ≠ "" → strip d = sha256_hexdigest data)) ∧
  (∀ dec text kind owner_id prefix threshold ttl now s shown a s',
     maybe_spill_text text kind owner_id prefix threshold ttl now s = (Ok (shown, Some a), s') →
     (∀ path, dget "path" a = PStr path →
        resolve_path path = Some path ∧ String.prefix (artifacts_root +:+ "/") path = true) →
     strip (sha256_hexdigest (utf8_encode text)) = sha256_hexdigest (utf8_encode text) →
     validate_text_artifact_ref dec (Some a) s' = Ok (Some a)).
Proof.
  split.
  - intros dec ref s ref' Hv. destruct ref as [r|]; [|discriminate].
    assert (checked_ref dec r s = Ok ref') as Hc.
    { destruct r; [discriminate|]. unfold validate_text_artifact_ref in Hv. inv_result. by subst. }
    exists r. destruct (checked_ref_inv _ _ _ _ Hc) as (path & data & ?). by exists path, data.
  - intros dec text kind owner_id prefix threshold ttl now s shown a s' Hspill Hres Hsha.
    destruct (spill_inv _ _ _ _ _ _ _ _ _ _ _ Hspill) as [(_ & _ & [=] & _)|
      (_ & a' & path & [= <-] & Hpath & Hw & Hfiles & Hp & Hb & Hd & _)].
    destruct (Hres path Hp) as [Hr Hin]. by eapply spilled_ref_accepted.
Qed.
End spill.

(** ** A concrete directory *)
Fixpoint ones (n : nat) : string := match n with 0 => "" | S n' => String "1" (ones n') end.
Definition demo_text_lib : TextLib := {|
  uuid_hex16 := ones;
  artifacts_dir := "/p/.ccb/artifacts";
  artifacts_root := "/p/.ccb/artifacts";
  resolve_path := λ p, Some p;
  text_utc_now := λ _, "2026-01-01T00:00:00Z";
  iso_after := λ t _, Ok t
|}.
Definition demo_sha : CompletionLib := {|
  sha256_hexdigest := λ _, "e3b0c44298fc1c149afbf4c8996fb92427ae41e4649b934ca495991b7852b855";
  fromisoformat := λ _, None
|}.
Definition demo_long_text : string := ones (5 * 1000).
Definition demo_spill : result (string * option pydict) * text_store :=
  @maybe_spill_text demo_sha demo_text_lib demo_long_text "completion-reply" "job_1"
    "CCB completion reply is larger than 4 KiB." TEXT_ARTIFACT_SPILL_BYTES TEXT_ARTIFACT_TTL_S
    (Some "2026-01-01T00:00:00Z") (mkTextStore ∅ 0).
Definition demo_shown : string := match demo_spill.1 with Ok (s, _) => s | Err _ => "" end.
Definition demo_artifact : pydict :=
  match demo_spill.1 with Ok (_, Some a) => a | _ => [] end.

Lemma demo_spill_eq : demo_spill = (Ok (demo_shown, Some demo_artifact), demo_spill.2).
Proof. by vm_compute. Qed.

Lemma spilled_text_fits_witness :
  utf8_size demo_long_text = 5000 ∧
  utf8_size demo_shown ≤ TEXT_ARTIFACT_SPILL_BYTES ∧
  should_spill_text demo_shown TEXT_ARTIFACT_SPILL_BYTES = false.
Proof.
  split; [by vm_compute|].
  assert (N.of_nat (utf8_size demo_long_text) < 10 ^ 10)%N as Hlen by (by vm_compute).
  destruct (@spilled_text_fits demo_sha demo_text_lib demo_long_text "completion-reply" "job_1"
    "CCB completion reply is larger than 4 KiB." TEXT_ARTIFACT_TTL_S
    (Some "2026-01-01T00:00:00Z") (mkTextStore ∅ 0) demo_shown (Some demo_artifact) demo_spill.2
    demo_spill_eq Hlen ltac:(by apply Nat.leb_le; vm_compute) ltac:(by apply Nat.leb_le; vm_compute))
    as (H1 & H2 & _).
  by split.
Defined.

Lemma artifact_refs_checked_witness :
  @validate_text_artifact_ref demo_sha demo_text_lib (λ _, "") (Some demo_artifact) demo_spill.2
  = Ok (Some demo_artifact).
Proof.
  destruct (@artifact_refs_checked demo_sha demo_text_lib) as [_ H].
  apply (H (λ _, "") demo_long_text "completion-reply" "job_1"
    "CCB completion reply is larger than 4 KiB." TEXT_ARTIFACT_SPILL_BYTES TEXT_ARTIFACT_TTL_S
    (Some "2026-01-01T00:00:00Z") (mkTextStore ∅ 0) demo_shown demo_artifact demo_spill.2).
  - exact demo_spill_eq.
  - intros path Hp. assert (path = "/p/.ccb/artifacts/completion-reply/job_1-art_.txt") as ->.
    { vm_compute in Hp. congruence. }
    by split.
  - by vm_compute.
Defined.
