(* ===== verification/JobModels.v ===== *)
(** * Requests, jobs and their records

    [ccbd/api_models_runtime/common.py], [messages.py] and [records.py] with
    the loaders of [jobs/store.py]: the message envelope, the job, the
    submission and the job event. *)
From S2P Require Import Prelude PyValue Names.
Open Scope string_scope.
Open Scope list_scope.
Open Scope Z_scope.

Definition job_schema_version : Z := 2.

Inductive JobStatus :=
  | JS_accepted | JS_queued | JS_running | JS_completed | JS_cancelled | JS_failed | JS_incomplete.
Inductive DeliveryScope := DS_single | DS_broadcast.
Inductive TargetKind := TK_agent.

#[export] Instance JobStatus_eq_dec : EqDecision JobStatus.
Proof. solve_decision. Defined.
#[export] Instance DeliveryScope_eq_dec : EqDecision DeliveryScope.
Proof. solve_decision. Defined.

Definition job_status_value (s : JobStatus) : string :=
  match s with
  | JS_accepted => "accepted" | JS_queued => "queued" | JS_running => "running"
  | JS_completed => "completed" | JS_cancelled => "cancelled" | JS_failed => "failed"
  | JS_incomplete => "incomplete"
  end.
Definition delivery_scope_value (s : DeliveryScope) : string :=
  match s with DS_single => "single" | DS_broadcast => "broadcast" end.
Definition target_kind_value (k : TargetKind) : string := match k with TK_agent => "agent" end.

Definition job_status_of (v : pyval) : result JobStatus :=
  enum_of_val "JobStatus" job_status_value
    [JS_accepted; JS_queued; JS_running; JS_completed; JS_cancelled; JS_failed; JS_incomplete] v.
Definition delivery_scope_of (v : pyval) : result DeliveryScope :=
  enum_of_val "DeliveryScope" delivery_scope_value [DS_single; DS_broadcast] v.
Definition target_kind_of (v : pyval) : result TargetKind :=
  enum_of_val "TargetKind" target_kind_value [TK_agent] v.

(** ** Records *)
Record MessageEnvelope := mkEnvelope {
  me_project_id : string;
  me_to_agent : string;
  me_from_actor : string;
  me_body : string;
  me_task_id : option string;
  me_reply_to : option string;
  me_message_type : string;
  me_delivery_scope : DeliveryScope;
  me_silence_on_success : bool;
  me_route_options : pydict;
  me_body_artifact : option pydict
}.

Record JobRecord := mkJob {
  jb_job_id : string;
  jb_submission_id : option string;
  jb_agent_name : string;
  jb_provider : string;
  jb_request : MessageEnvelope;
  jb_status : JobStatus;
  jb_terminal_decision : option pydict;
  jb_cancel_requested_at : option string;
  jb_created_at : string;
  jb_updated_at : string;
  jb_workspace_path : option string;
  jb_target_kind : TargetKind;
  jb_target_name : string;
  jb_provider_instance : option string;
  jb_provider_options : pydict
}.

Record SubmissionRecord := mkSubmission {
  sb_submission_id : string;
  sb_project_id : string;
  sb_from_actor : string;
  sb_target_scope : string;
  sb_task_id : option string;
  sb_job_ids : list string;
  sb_created_at : string;
  sb_updated_at : string
}.

Record JobEvent := mkJobEvent {
  je_event_id : string;
  je_job_id : string;
  je_agent_name : string;
  je_type : string;
  je_payload : pydict;
  je_timestamp : string;
  je_target_kind : TargetKind;
  je_target_name : string
}.

(** ** Constructors *)
Definition envelope_post_init (m : MessageEnvelope) : result MessageEnvelope :=
  _ ← raise_if (me_project_id m =ˢ "") (ValueError "project_id cannot be empty");
  _ ← raise_if (me_to_agent m =ˢ "") (ValueError "to_agent cannot be empty");
  _ ← raise_if (me_from_actor m =ˢ "") (ValueError "from_actor cannot be empty");
  _ ← raise_if (strip (me_body m) =ˢ "") (ValueError "body cannot be empty");
  to_agent ← (if lower (strip (me_to_agent m)) =ˢ "all" then mret "all"
              else normalize_agent_name (me_to_agent m));
  from_actor ← normalize_actor_name (Some (me_from_actor m));
  _ ← raise_if ((to_agent =ˢ "all") && (me_delivery_scope m ≠ˢ DS_broadcast))
        (ValueError "to_agent=all requires delivery_scope=broadcast");
  _ ← raise_if ((to_agent ≠ˢ "all") && (me_delivery_scope m ≠ˢ DS_single))
        (ValueError "single target requires delivery_scope=single");
  mret (mkEnvelope (me_project_id m) to_agent from_actor (me_body m) (me_task_id m)
          (me_reply_to m) (me_message_type m) (me_delivery_scope m) (me_silence_on_success m)
          (me_route_options m) (me_body_artifact m)).

Definition terminal_job_status (s : JobStatus) : bool :=
  bool_decide (s ∈ [JS_completed; JS_cancelled; JS_failed; JS_incomplete]).

(** [self.target_name or self.agent_name]. *)
Definition target_or_agent (target agent : string) : string := if target =ˢ "" then agent else target.

(** The constructor, given the target kind as its caller wrote it. *)
Definition job_post_init (target_kind : pyval) (j : JobRecord) : result JobRecord :=
  _ ← raise_if (jb_job_id j =ˢ "") (ValueError "job_id cannot be empty");
  kind ← target_kind_of target_kind;
  agent ← normalize_agent_name (target_or_agent (jb_target_name j) (jb_agent_name j));
  _ ← raise_if (terminal_job_status (jb_status j) && bool_decide (jb_terminal_decision j = None))
        (ValueError "terminal_decision is required for terminal job states");
  mret (mkJob (jb_job_id j) (jb_submission_id j) agent (jb_provider j) (jb_request j) (jb_status j)
          (jb_terminal_decision j) (jb_cancel_requested_at j) (jb_created_at j) (jb_updated_at j)
          (jb_workspace_path j) kind agent None (jb_provider_options j)).

Definition submission_post_init (s : SubmissionRecord) : result SubmissionRecord :=
  _ ← raise_if (sb_submission_id s =ˢ "") (ValueError "submission_id cannot be empty");
  _ ← raise_if (sb_project_id s =ˢ "") (ValueError "project_id cannot be empty");
  from_actor ← normalize_actor_name (Some (sb_from_actor s));
  mret (mkSubmission (sb_submission_id s) (sb_project_id s) from_actor (sb_target_scope s)
          (sb_task_id s) (sb_job_ids s) (sb_created_at s) (sb_updated_at s)).

Definition job_event_post_init (target_kind : pyval) (e : JobEvent) : result JobEvent :=
  _ ← raise_if (je_event_id e =ˢ "") (ValueError "event_id cannot be empty");
  _ ← raise_if (je_job_id e =ˢ "") (ValueError "job_id cannot be empty");
  _ ← raise_if (je_type e =ˢ "") (ValueError "type cannot be empty");
  kind ← target_kind_of target_kind;
  agent ← normalize_agent_name (target_or_agent (je_target_name e) (je_agent_name e));
  mret (mkJobEvent (je_event_id e) (je_job_id e) agent (je_type e) (je_payload e)
          (je_timestamp e) kind agent).

(** ** JSON *)
Definition envelope_to_record (m : MessageEnvelope) : pydict :=
  [ ("project_id", PStr (me_project_id m));
    ("to_agent", PStr (me_to_agent m));
    ("from_actor", PStr (me_from_actor m));
    ("body", PStr (me_body m));
    ("task_id", of_opt_str (me_task_id m));
    ("reply_to", of_opt_str (me_reply_to m));
    ("message_type", PStr (me_message_type m));
    ("delivery_scope", PStr (delivery_scope_value (me_delivery_scope m)));
    ("silence_on_success", PBool (me_silence_on_success m));
    ("route_options", PDict (me_route_options m));
    ("body_artifact", match me_body_artifact m with
                      | Some ((_ :: _) as d) => PDict d
                      | _ => PNone
                      end) ].

Definition job_to_record (j : JobRecord) : pydict :=
  [ ("schema_version", PInt job_schema_version);
    ("record_type", PStr "job_record");
    ("job_id", PStr (jb_job_id j));
    ("submission_id", of_opt_str (jb_submission_id j));
    ("agent_name", PStr (jb_agent_name j));
    ("target_kind", PStr (target_kind_value (jb_target_kind j)));
    ("target_name", PStr (jb_target_name j));
    ("provider", PStr (jb_provider j));
    ("provider_instance", of_opt_str (jb_provider_instance j));
    ("provider_options", PDict (jb_provider_options j));
    ("request", PDict (envelope_to_record (jb_request j)));
    ("status", PStr (job_status_value (jb_status j)));
    ("terminal_decision", of_opt_dict (jb_terminal_decision j));
    ("cancel_requested_at", of_opt_str (jb_cancel_requested_at j));
    ("created_at", PStr (jb_created_at j));
    ("updated_at", PStr (jb_updated_at j));
    ("workspace_path", of_opt_str (jb_workspace_path j)) ].

Definition submission_to_record (s : SubmissionRecord) : pydict :=
  [ ("schema_version", PInt job_schema_version);
    ("record_type", PStr "submission_record");
    ("submission_id", PStr (sb_submission_id s));
    ("project_id", PStr (sb_project_id s));
    ("from_actor", PStr (sb_from_actor s));
    ("target_scope", PStr (sb_target_scope s));
    ("task_id", of_opt_str (sb_task_id s));
    ("job_ids", PList (PStr <$> sb_job_ids s));
    ("created_at", PStr (sb_created_at s));
    ("updated_at", PStr (sb_updated_at s)) ].

Definition job_event_to_record (e : JobEvent) : pydict :=
  [ ("schema_version", PInt job_schema_version);
    ("record_type", PStr "job_event");
    ("event_id", PStr (je_event_id e));
    ("job_id", PStr (je_job_id e));
    ("agent_name", PStr (je_agent_name e));
    ("target_kind", PStr (target_kind_value (je_target_kind e)));
    ("target_name", PStr (je_target_name e));
    ("type", PStr (je_type e));
    ("payload", PDict (je_payload e));
    ("timestamp", PStr (je_timestamp e)) ].

(** [record['k']] and [record.get('k', d)] for fields that must be strings. *)
Definition index_str (k : string) (d : pydict) : result string := dindex k d ≫= as_str k.
Definition get_str (k : string) (dflt : pyval) (d : pydict) : result string :=
  as_str k (dget_or k dflt d).

Definition envelope_from_record (d : pydict) : result MessageEnvelope :=
  project_id ← index_str "project_id" d;
  to_agent ← index_str "to_agent" d;
  from_actor ← index_str "from_actor" d;
  body ← index_str "body" d;
  task_id ← opt_str "task_id" (dget "task_id" d);
  reply_to ← opt_str "reply_to" (dget "reply_to" d);
  message_type ← index_str "message_type" d;
  scope ← (dindex "delivery_scope" d ≫= delivery_scope_of);
  options ← dict_or_empty "route_options" (dget "route_options" d);
  envelope_post_init
    (mkEnvelope project_id to_agent from_actor body task_id reply_to message_type scope
       (py_bool (dget_or "silence_on_success" (PBool false) d)) options
       (dict_if_dict (dget "body_artifact" d))).

Definition job_from_record (d : pydict) : result JobRecord :=
  _ ← validate_record job_schema_version "job_record" d;
  job_id ← index_str "job_id" d;
  submission_id ← opt_str "submission_id" (dget "submission_id" d);
  agent_name ← get_str "agent_name" (PStr "") d;
  provider ← index_str "provider" d;
  rd ← (dindex "request" d ≫= as_dict "request");
  request ← envelope_from_record rd;
  status ← (dindex "status" d ≫= job_status_of);
  terminal_decision ← opt_dict "terminal_decision" (dget "terminal_decision" d);
  cancel_requested_at ← opt_str "cancel_requested_at" (dget "cancel_requested_at" d);
  created_at ← index_str "created_at" d;
  updated_at ← index_str "updated_at" d;
  workspace_path ← opt_str "workspace_path" (dget "workspace_path" d);
  target_name ← get_str "target_name" (dget_or "agent_name" (PStr "") d) d;
  instance ← opt_str "provider_instance" (dget "provider_instance" d);
  options ← dict_or_empty "provider_options" (dget "provider_options" d);
  job_post_init (dget_or "target_kind" (PStr (target_kind_value TK_agent)) d)
    (mkJob job_id submission_id agent_name provider request status terminal_decision
       cancel_requested_at created_at updated_at workspace_path TK_agent target_name instance
       options).

Definition submission_from_record (d : pydict) : result SubmissionRecord :=
  _ ← validate_record job_schema_version "submission_record" d;
  submission_id ← index_str "submission_id" d;
  project_id ← index_str "project_id" d;
  from_actor ← index_str "from_actor" d;
  target_scope ← index_str "target_scope" d;
  task_id ← opt_str "task_id" (dget "task_id" d);
  job_ids ← str_list "job_ids" (dget_or "job_ids" (PList []) d);
  created_at ← get_str "created_at" (PStr "") d;
  updated_at ← get_str "updated_at" (PStr "") d;
  submission_post_init
    (mkSubmission submission_id project_id from_actor target_scope task_id job_ids created_at
       updated_at).

Definition job_event_from_record (d : pydict) : result JobEvent :=
  _ ← validate_record job_schema_version "job_event" d;
  event_id ← index_str "event_id" d;
  job_id ← index_str "job_id" d;
  agent_name ← get_str "agent_name" (PStr "") d;
  target_name ← get_str "target_name" (dget_or "agent_name" (PStr "") d) d;
  ty ← index_str "type" d;
  payload ← as_dict "payload" (dget_or "payload" (PDict []) d);
  timestamp ← index_str "timestamp" d;
  job_event_post_init (dget_or "target_kind" (PStr (target_kind_value TK_agent)) d)
    (mkJobEvent event_id job_id agent_name ty payload timestamp TK_agent target_name).

(** A valid record is what its constructor builds. *)
Definition job_valid (j : JobRecord) : Prop :=
  job_post_init (PStr (target_kind_value (jb_target_kind j))) j = Ok j ∧
  envelope_post_init (jb_request j) = Ok (jb_request j).

(** ** Round trips *)
Lemma job_status_of_value s : job_status_of (PStr (job_status_value s)) = Ok s.
Proof. by destruct s. Qed.
Lemma delivery_scope_of_value s : delivery_scope_of (PStr (delivery_scope_value s)) = Ok s.
Proof. by destruct s. Qed.

Lemma target_kind_of_value k : target_kind_of (PStr (target_kind_value k)) = Ok k.
Proof. by destruct k. Qed.

(** An empty artifact is written as [null]. *)
Definition without_empty_artifact (m : MessageEnvelope) : MessageEnvelope :=
  mkEnvelope (me_project_id m) (me_to_agent m) (me_from_actor m) (me_body m) (me_task_id m)
    (me_reply_to m) (me_message_type m) (me_delivery_scope m) (me_silence_on_success m)
    (me_route_options m) (match me_body_artifact m with Some [] => None | x => x end).
Definition with_request (m : MessageEnvelope) (j : JobRecord) : JobRecord :=
  mkJob (jb_job_id j) (jb_submission_id j) (jb_agent_name j) (jb_provider j) m (jb_status j)
    (jb_terminal_decision j) (jb_cancel_requested_at j) (jb_created_at j) (jb_updated_at j)
    (jb_workspace_path j) (jb_target_kind j) (jb_target_name j) (jb_provider_instance j)
    (jb_provider_options j).

Ltac run_job_loader :=
  rewrite ?validate_record_ok by reflexivity; unfold index_str, get_str; dict_simpl;
  rewrite ?result_bind_ok, ?job_status_of_value, ?delivery_scope_of_value;
  cbn [as_str as_dict]; rewrite ?result_bind_ok, ?opt_str_of, ?opt_dict_of, ?dict_or_empty_of,
    ?str_list_of, ?result_bind_ok.

Lemma envelope_post_init_artifact m a x :
  envelope_post_init m = Ok x →
  envelope_post_init
    (mkEnvelope (me_project_id m) (me_to_agent m) (me_from_actor m) (me_body m) (me_task_id m)
       (me_reply_to m) (me_message_type m) (me_delivery_scope m) (me_silence_on_success m)
       (me_route_options m) a) =
  Ok (mkEnvelope (me_project_id x) (me_to_agent x) (me_from_actor x) (me_body x) (me_task_id x)
       (me_reply_to x) (me_message_type x) (me_delivery_scope x) (me_silence_on_success x)
       (me_route_options x) a).
Proof.
  unfold envelope_post_init. cbn -[raise_if]. intros H.
  repeat match type of H with
  | (?m ≫= _) = Ok _ => destruct m; [rewrite result_bind_ok in H |- *|discriminate H]
  end. by injection H as <-.
Qed.

Lemma envelope_from_to' m :
  envelope_post_init m = Ok m →
  envelope_from_record (envelope_to_record m) = Ok (without_empty_artifact m).
Proof.
  intros Hv. unfold envelope_from_record, envelope_to_record. run_job_loader.
  replace (dict_if_dict _) with (match me_body_artifact m with Some [] => None | x => x end)
    by by destruct (me_body_artifact m) as [[]|].
  by apply envelope_post_init_artifact.
Qed.

Lemma job_from_to' j :
  job_valid j →
  job_from_record (job_to_record j) = Ok (with_request (without_empty_artifact (jb_request j)) j).
Proof.
  intros [Hj Hr]. unfold job_from_record, job_to_record. run_job_loader.
  rewrite envelope_from_to', !result_bind_ok by done.
  unfold job_post_init in *. cbn -[raise_if target_kind_of] in *.
  repeat match type of Hj with
  | (?m ≫= _) = Ok _ => destruct m; [rewrite result_bind_ok in Hj |- *|discriminate Hj]
  end.
  injection Hj as Hj. apply (f_equal (with_request (without_empty_artifact (jb_request j)))) in Hj.
  exact (f_equal Ok Hj).
Qed.

Lemma submission_from_to' s :
  submission_post_init s = Ok s → submission_from_record (submission_to_record s) = Ok s.
Proof.
  intros Hv. unfold submission_from_record, submission_to_record. run_job_loader. by destruct s.
Qed.

Lemma job_event_from_to' e :
  job_event_post_init (PStr (target_kind_value (je_target_kind e))) e = Ok e →
  job_event_from_record (job_event_to_record e) = Ok e.
Proof.
  intros Hv. unfold job_event_from_record, job_event_to_record. run_job_loader.
  destruct e as [? ? ? ? ? ? [] ?]; exact Hv.
Qed.

(** ** What a loader returns is valid *)

(** The addressee, as the constructor normalises it. *)
Definition normalize_to_agent (to : string) : result string :=
  if lower (strip to) =ˢ "all" then mret "all" else normalize_agent_name to.

Lemma to_agent_idem to n :
  normalize_to_agent to = Ok n → n ≠ "" ∧ normalize_to_agent n = Ok n.
Proof.
  unfold normalize_to_agent. case_bool_decide; [intros [= <-]; by split|].
  intros Hn. pose proof (normalize_agent_name_inv _ _ Hn) as (_ & Hne & _).
  pose proof (normalize_agent_name_idem' _ _ Hn) as Hi. split; [done|].
  rewrite (normalize_agent_name_fixed _ Hi), Hi. case_bool_decide; by subst.
Qed.

Lemma envelope_post_init_valid m m' : envelope_post_init m = Ok m' → envelope_post_init m' = Ok m'.
Proof.
  unfold envelope_post_init. fold (normalize_to_agent (me_to_agent m)).
  fold (normalize_to_agent (me_to_agent m')). intros H. inv_result.
  match goal with
  | Ht : normalize_to_agent _ = Ok _, Ha : normalize_actor_name _ = Ok _ |- _ =>
      pose proof (to_agent_idem _ _ Ht) as [?%bool_decide_ne Ht'];
      pose proof (actor_idem _ _ Ha) as Ha';
      pose proof (actor_nonempty _ _ Ha) as ?%bool_decide_ne
  end.
  subst m'. cbn -[raise_if]. replay_guards.
  rewrite Ht', result_bind_ok, Ha', result_bind_ok. by replay_guards.
Qed.

Lemma target_or_agent_same a : target_or_agent a a = a.
Proof. unfold target_or_agent. by case_bool_decide. Qed.

Lemma job_post_init_valid k j j' :
  job_post_init k j = Ok j' →
  job_post_init (PStr (target_kind_value (jb_target_kind j'))) j' = Ok j'.
Proof.
  unfold job_post_init. intros H. inv_result. subst j'. cbn -[raise_if target_kind_of].
  replay_guards. rewrite target_or_agent_same.
  match goal with Hn : normalize_agent_name _ = Ok _ |- _ => apply normalize_agent_name_idem' in Hn;
    rewrite Hn end.
  rewrite target_kind_of_value, !result_bind_ok. by replay_guards.
Qed.

(** A loader ends in a constructor, so what it returns is valid. *)
Ltac loader_steps H :=
  repeat match type of H with (_ ≫= _) = Ok _ => apply result_bind_Ok_inv in H as (? & ? & H) end.

Lemma envelope_from_record_valid d m : envelope_from_record d = Ok m → envelope_post_init m = Ok m.
Proof. unfold envelope_from_record. intros H. loader_steps H. by apply envelope_post_init_valid in H. Qed.

Lemma job_post_init_request k j j' : job_post_init k j = Ok j' → jb_request j' = jb_request j.
Proof. unfold job_post_init. intros H. inv_result. by subst j'. Qed.

Lemma job_from_record_valid d j : job_from_record d = Ok j → job_valid j.
Proof.
  unfold job_from_record. intros H. loader_steps H.
  split; [by eapply job_post_init_valid|]. rewrite (job_post_init_request _ _ _ H). cbn.
  by eapply envelope_from_record_valid.
Qed.

(** Storing a job that was loaded loses nothing.  Whatever JSON object the
    job loader accepts, the job it returns satisfies its constructor (its agent
    and target name are the same normal name, a finished job carries a
    decision, its request is a valid envelope), and the record the store writes
    for it loads again to the same job, an empty body artifact being read back
    as no artifact. *)
Theorem job_records_reload (d : pydict) (j : JobRecord) (Hload : job_from_record d = Ok j) :
  job_valid j ∧ jb_target_name j = jb_agent_name j ∧
  (terminal_job_status (jb_status j) = true → jb_terminal_decision j ≠ None) ∧
  job_from_record (job_to_record j) = Ok (with_request (without_empty_artifact (jb_request j)) j).
Proof.
  pose proof (job_from_record_valid _ _ Hload) as Hv.
  split_and!; [done| | |by apply job_from_to'];
    destruct Hv as [Hj _]; unfold job_post_init in Hj; inv_result.
  - by rewrite <- Hj.
  - intros Ht Hd. by rewrite Ht, Hd in *.
Qed.

Definition demo_job_dict : pydict :=
  [ ("schema_version", PInt 2); ("record_type", PStr "job_record"); ("job_id", PStr "job_1");
    ("agent_name", PStr "Agent1"); ("provider", PStr "codex");
    ("request", PDict [ ("project_id", PStr "p"); ("to_agent", PStr "AGENT1");
                        ("from_actor", PStr "user"); ("body", PStr "hi");
                        ("message_type", PStr "ask"); ("delivery_scope", PStr "single");
                        ("body_artifact", PDict []) ]);
    ("status", PStr "completed"); ("terminal_decision", PDict [("terminal", PBool true)]);
    ("created_at", PStr "t0"); ("updated_at", PStr "t1") ].
Definition demo_loaded_job : JobRecord :=
  Eval vm_compute in
  match job_from_record demo_job_dict with
  | Ok j => j
  | Err _ => mkJob "" None "" "" (mkEnvelope "" "" "" "" None None "" DS_single false [] None)
               JS_queued None None "" "" None TK_agent "" None []
  end.

Lemma job_records_reload_witness :
  jb_agent_name demo_loaded_job = "agent1" ∧
  job_from_record (job_to_record demo_loaded_job) =
    Ok (with_request (without_empty_artifact (jb_request demo_loaded_job)) demo_loaded_job).
Proof.
  split; [reflexivity|].
  exact (proj2 (proj2 (proj2 (job_records_reload demo_job_dict demo_loaded_job
                                ltac:(vm_compute; reflexivity))))).
Defined.
