(* ===== verification/Heartbeat.v ===== *)
(** * Heartbeats

    [heartbeat/models.py], [engine_runtime.py] and [store.py]: how long a
    subject has been silent, when a notice is due, and the state that is kept
    between two evaluations; [ccbd/services/job_heartbeat_runtime]: one tick of
    the heartbeat of a running job, which ends the job after a number of
    notices. *)
From S2P Require Import Prelude PyValue Names CompletionModels JobModels.
From stdpp Require Import pretty.
From Stdlib Require Import QArith Lqa Sorted.
Open Scope string_scope.
Open Scope list_scope.
Open Scope Z_scope.

Definition heartbeat_schema_version : Z := 1.

Inductive HeartbeatAction := HA_idle | HA_reset | HA_enter | HA_repeat.
#[export] Instance HeartbeatAction_eq_dec : EqDecision HeartbeatAction.
Proof. solve_decision. Defined.

Definition heartbeat_action_value (a : HeartbeatAction) : string :=
  match a with
  | HA_idle => "idle" | HA_reset => "reset" | HA_enter => "enter" | HA_repeat => "repeat"
  end.

(** ** Records *)
Record HeartbeatPolicy := mkPolicy {
  hp_silence_start_after_s : Q;
  hp_repeat_interval_s : Q;
  hp_max_notice_count : option Z
}.

Record HeartbeatState := mkHeartbeat {
  hb_subject_kind : string;
  hb_subject_id : string;
  hb_owner : string;
  hb_last_progress_at : string;
  hb_last_notice_at : option string;
  hb_heartbeat_started_at : option string;
  hb_notice_count : Z;
  hb_updated_at : string
}.

Record HeartbeatDecision := mkHbDecision {
  hd_action : HeartbeatAction;
  hd_subject_kind : string;
  hd_subject_id : string;
  hd_owner : string;
  hd_last_progress_at : string;
  hd_last_notice_at : option string;
  hd_silence_seconds : Q;
  hd_notice_count : Z
}.

Definition notice_due (d : HeartbeatDecision) : bool :=
  bool_decide (hd_action d ∈ [HA_enter; HA_repeat]).

Definition heartbeat_policy_post_init (p : HeartbeatPolicy) : result HeartbeatPolicy :=
  _ ← raise_if (negb (Qle_bool 0 (hp_silence_start_after_s p)))
        (ValueError "silence_start_after_s cannot be negative");
  _ ← raise_if (Qle_bool (hp_repeat_interval_s p) 0)
        (ValueError "repeat_interval_s must be positive");
  _ ← raise_if (match hp_max_notice_count p with Some n => n <=? 0 | None => false end)
        (ValueError "max_notice_count must be positive when set");
  mret p.

Definition heartbeat_state_post_init (s : HeartbeatState) : result HeartbeatState :=
  _ ← raise_if (strip (hb_subject_kind s) =ˢ "") (ValueError "subject_kind cannot be empty");
  _ ← raise_if (strip (hb_subject_id s) =ˢ "") (ValueError "subject_id cannot be empty");
  _ ← raise_if (strip (hb_owner s) =ˢ "") (ValueError "owner cannot be empty");
  _ ← raise_if (strip (hb_last_progress_at s) =ˢ "") (ValueError "last_progress_at cannot be empty");
  _ ← raise_if (hb_notice_count s <? 0) (ValueError "notice_count cannot be negative");
  _ ← raise_if (strip (hb_updated_at s) =ˢ "") (ValueError "updated_at cannot be empty");
  mret s.

Definition heartbeat_state_to_record (s : HeartbeatState) : pydict :=
  [ ("schema_version", PInt heartbeat_schema_version);
    ("record_type", PStr "heartbeat_state");
    ("subject_kind", PStr (hb_subject_kind s));
    ("subject_id", PStr (hb_subject_id s));
    ("owner", PStr (hb_owner s));
    ("last_progress_at", PStr (hb_last_progress_at s));
    ("last_notice_at", of_opt_str (hb_last_notice_at s));
    ("heartbeat_started_at", of_opt_str (hb_heartbeat_started_at s));
    ("notice_count", PInt (hb_notice_count s));
    ("updated_at", PStr (hb_updated_at s)) ].

(** [str(v or '').strip() or None]. *)
Definition stripped_or_none (v : pyval) : result (option string) :=
  s ← py_str_or_empty v; mret (or_none (strip s)).

Definition heartbeat_state_from_record (d : pydict) : result HeartbeatState :=
  _ ← validate_record heartbeat_schema_version "heartbeat_state" d;
  kind ← str_at "subject_kind" d;
  id ← str_at "subject_id" d;
  owner ← str_at "owner" d;
  progress ← str_at "last_progress_at" d;
  notice ← stripped_or_none (dget "last_notice_at" d);
  started ← stripped_or_none (dget "heartbeat_started_at" d);
  count ← py_int (dget_or "notice_count" (PInt 0) d);
  updated ← str_at "updated_at" d;
  heartbeat_state_post_init (mkHeartbeat kind id owner progress notice started count updated).

(** ** The engine *)
Definition heartbeat_active (s : HeartbeatState) : bool :=
  (0 <? hb_notice_count s) || negb (is_none (hb_last_notice_at s)).
Definition should_enter_heartbeat (s : HeartbeatState) : bool :=
  is_none (hb_last_notice_at s) || (hb_notice_count s <=? 0).
Definition notice_limit_reached (s : HeartbeatState) (p : HeartbeatPolicy) : bool :=
  match hp_max_notice_count p with None => false | Some m => m <=? hb_notice_count s end.

Definition progress_timestamp (observed now : string) : result string :=
  let progress_at := if strip observed =ˢ "" then strip now else strip observed in
  _ ← raise_if (progress_at =ˢ "") (ValueError "observed_last_progress_at cannot be empty");
  mret progress_at.

(** [dataclasses.replace] runs the constructor again. *)
Definition state_with_subject (s : HeartbeatState) (kind id owner : string) : result HeartbeatState :=
  heartbeat_state_post_init
    (mkHeartbeat kind id owner (hb_last_progress_at s) (hb_last_notice_at s)
       (hb_heartbeat_started_at s) (hb_notice_count s) (hb_updated_at s)).
Definition with_progress (progress_at : string) (s : HeartbeatState) : result HeartbeatState :=
  heartbeat_state_post_init
    (mkHeartbeat (hb_subject_kind s) (hb_subject_id s) (hb_owner s) progress_at
       (hb_last_notice_at s) (hb_heartbeat_started_at s) (hb_notice_count s) (hb_updated_at s)).
Definition reset_state (s : HeartbeatState) (progress_at now : string) : result HeartbeatState :=
  heartbeat_state_post_init
    (mkHeartbeat (hb_subject_kind s) (hb_subject_id s) (hb_owner s) progress_at None None 0 now).
Definition notify_state (count : Z) (s : HeartbeatState) (now : string) : result HeartbeatState :=
  heartbeat_state_post_init
    (mkHeartbeat (hb_subject_kind s) (hb_subject_id s) (hb_owner s) (hb_last_progress_at s)
       (Some now) (Some (str_or (hb_heartbeat_started_at s) now)) count now).
Definition enter_state (s : HeartbeatState) (now : string) : result HeartbeatState :=
  notify_state 1 s now.
Definition repeat_state (s : HeartbeatState) (now : string) : result HeartbeatState :=
  notify_state (hb_notice_count s + 1) s now.

Definition decision_for (action : HeartbeatAction) (s : HeartbeatState) (silence : Q)
    : HeartbeatDecision :=
  mkHbDecision action (hb_subject_kind s) (hb_subject_id s) (hb_owner s) (hb_last_progress_at s)
    (hb_last_notice_at s) silence (hb_notice_count s).

(** [x < y] on floats, and [max(0.0, x)]. *)
Definition q_ltb (x y : Q) : bool := negb (Qle_bool y x).
Definition q_max0 (x : Q) : Q := if Qle_bool x 0 then 0%Q else x.

Section engine.
Context `{CompletionLib}.

Definition silence_seconds (progress_at now : string) : Q :=
  match seconds_between progress_at now with Ok x => q_max0 x | Err _ => 0%Q end.
Definition since_last_notice_seconds (s : HeartbeatState) (now : string) : Q :=
  match hb_last_notice_at s with
  | None => 0%Q
  | Some t => match seconds_between t now with Ok x => q_max0 x | Err _ => 0%Q end
  end.
Definition repeat_interval_not_elapsed (s : HeartbeatState) (p : HeartbeatPolicy) (now : string)
    : bool := q_ltb (since_last_notice_seconds s now) (hp_repeat_interval_s p).
Definition progress_advanced (observed recorded : string) : bool :=
  if observed =ˢ recorded then false
  else match seconds_between recorded observed with Ok x => q_ltb 0 x | Err _ => true end.

Definition current_state (s : option HeartbeatState) (kind id owner progress_at now : string)
    : result HeartbeatState :=
  match s with
  | Some s => mret s
  | None => heartbeat_state_post_init (mkHeartbeat kind id owner progress_at None None 0 now)
  end.

Definition evaluate_heartbeat (p : HeartbeatPolicy) (kind id owner observed now : string)
    (s : option HeartbeatState) : result (HeartbeatState * HeartbeatDecision) :=
  progress_at ← progress_timestamp observed now;
  current ← current_state s kind id owner progress_at now;
  base ← state_with_subject current kind id owner;
  if progress_advanced progress_at (hb_last_progress_at current) && heartbeat_active current then
    next ← reset_state base progress_at now;
    mret (next, decision_for HA_reset next 0)
  else
    base ← with_progress progress_at base;
    let silence := silence_seconds progress_at now in
    if q_ltb silence (hp_silence_start_after_s p) then mret (base, decision_for HA_idle base silence)
    else if should_enter_heartbeat base then
      next ← enter_state base now;
      mret (next, decision_for HA_enter next silence)
    else if notice_limit_reached base p then mret (base, decision_for HA_idle base silence)
    else if repeat_interval_not_elapsed base p now then
      mret (base, decision_for HA_idle base silence)
    else
      next ← repeat_state base now;
      mret (next, decision_for HA_repeat next silence).
End engine.

(** ** The heartbeat of a job

    The heartbeat files by path, holding the JSON that was saved, and the calls
    the service makes to the dispatcher, in order. *)
Inductive dispatcher_call :=
  | AppendEvent (job : JobRecord) (event_type : string) (payload : pydict) (timestamp : string)
  | Complete (job_id : string) (decision : CompletionDecision).

Record heartbeat_world := mkWorld {
  hw_files : gmap (string * string) pydict;
  hw_calls : list dispatcher_call
}.
Abbreviation H := (ST heartbeat_world).

Record heartbeat_service := mkHbService {
  hs_policy : HeartbeatPolicy;
  hs_subject_kind : string;
  hs_terminal_notice_count : option Z;
  hs_known_targets : gset string
}.

(** [normalized_segment]: characters outside [a-z0-9._-] become one dash per run. *)
Definition is_segment_char (c : ascii) : bool :=
  let n := code c in
  ((97 <=? n) && (n <=? 122) || (48 <=? n) && (n <=? 57) || (n =? 46) || (n =? 95) || (n =? 45))%nat.
Fixpoint sub_segment (in_run : bool) (s : string) : string :=
  match s with
  | "" => ""
  | String c s' =>
      if is_segment_char c then String c (sub_segment false s')
      else if in_run then sub_segment true s' else String "-" (sub_segment true s')
  end.
Definition is_dash_or_dot (c : ascii) : bool := ((code c =? 45) || (code c =? 46))%nat.
Fixpoint lstrip_seg (s : string) : string :=
  match s with
  | "" => ""
  | String c s' => if is_dash_or_dot c then lstrip_seg s' else s
  end.
Fixpoint rstrip_seg (s : string) : string :=
  match s with
  | "" => ""
  | String c s' =>
      match rstrip_seg s' with
      | "" => if is_dash_or_dot c then "" else String c ""
      | t => String c t
      end
  end.
Definition normalized_segment (label value : string) : result string :=
  let normalized := rstrip_seg (lstrip_seg (sub_segment false (lower (strip value)))) in
  _ ← raise_if (normalized =ˢ "") (ValueError (label +:+ " cannot be empty"));
  mret normalized.

Definition heartbeat_subject_path (kind id : string) : result (string * string) :=
  id ← normalized_segment "subject_id" id;
  kind ← normalized_segment "subject_kind" kind;
  mret (kind, id).

Definition heartbeat_load (kind id : string) : H (option HeartbeatState) :=
  path ← st_lift (heartbeat_subject_path kind id);
  file ← st_gets (λ w, hw_files w !! path);
  match file with
  | None => mret None
  | Some d => (s ← st_lift (heartbeat_state_from_record d); mret (Some s))
  end.
Definition heartbeat_save (s : HeartbeatState) : H unit :=
  path ← st_lift (heartbeat_subject_path (hb_subject_kind s) (hb_subject_id s));
  st_modify (λ w, mkWorld (<[path := heartbeat_state_to_record s]> (hw_files w)) (hw_calls w)).
Definition heartbeat_remove (kind id : string) : H unit :=
  path ← st_lift (heartbeat_subject_path kind id);
  st_modify (λ w, mkWorld (delete path (hw_files w)) (hw_calls w)).
Definition call (c : dispatcher_call) : H unit :=
  st_modify (λ w, mkWorld (hw_files w) (hw_calls w ++ [c])).

(** [round(x, 3)], on exact seconds: to the nearest, ties to even. *)
Definition round_half_even (q : Q) : Z :=
  let n := Qnum q in let d := Zpos (Qden q) in
  let f := n / d in let r := n mod d in
  if 2 * r <? d then f else if d <? 2 * r then f + 1 else if Z.even f then f else f + 1.
Definition round3 (q : Q) : Q := (round_half_even (q * 1000) # 1000)%Q.

Definition snapshot_preview (s : option CompletionSnapshot) : string :=
  match s with None => "" | Some s => strip (sn_latest_reply_preview s) end.
Definition snapshot_is_terminal (s : option CompletionSnapshot) : bool :=
  match s with
  | None => false
  | Some s => st_terminal (sn_state s) || cd_terminal (sn_latest_decision s)
  end.

Definition heartbeat_timeout_body (job : JobRecord) (d : HeartbeatDecision) : string :=
  "Task stopped after " +:+ pretty (hd_notice_count d) +:+ " no-progress heartbeat intervals for "
  +:+ jb_agent_name job +:+ " (job=" +:+ jb_job_id job
  +:+ "). The target agent accepted the task but "
  +:+ "produced no reliable progress or completion signal. Before sending another "
  +:+ "large task, send a small communication test to this agent first.".

Definition heartbeat_timeout_decision (job : JobRecord) (d : HeartbeatDecision)
    (snapshot : option CompletionSnapshot) (finished_at : string) : result CompletionDecision :=
  let prior := sn_state <$> snapshot in
  decision_post_init
    (mkDecision true CS_incomplete (Some "heartbeat_timeout") (Some CC_degraded)
       (heartbeat_timeout_body job d)
       (default false (st_anchor_seen <$> prior)) (default false (st_reply_started <$> prior))
       (default false (st_reply_stable <$> prior))
       (Some (str_or (prior ≫= st_provider_turn_ref) (jb_job_id job)))
       (prior ≫= st_latest_cursor) (Some finished_at)
       [ ("heartbeat_timeout", PBool true);
         ("heartbeat_notice_count", PInt (hd_notice_count d));
         ("heartbeat_silence_seconds", PFloat (round3 (hd_silence_seconds d)));
         ("last_progress_at", PStr (hd_last_progress_at d)) ]).

Definition heartbeat_diagnostics (job : JobRecord) (d : HeartbeatDecision)
    (snapshot : option CompletionSnapshot) (mailbox_target : option string) (kind : string) : pydict :=
  [ ("notice", PBool true);
    ("notice_kind", PStr "heartbeat");
    ("heartbeat_subject_kind", PStr kind);
    ("heartbeat_action", PStr (heartbeat_action_value (hd_action d)));
    ("heartbeat_notice_count", PInt (hd_notice_count d));
    ("heartbeat_silence_seconds", PFloat (round3 (hd_silence_seconds d)));
    ("last_progress_at", PStr (hd_last_progress_at d));
    ("job_id", PStr (jb_job_id job));
    ("task_id", of_opt_str (or_none (strip (default "" (me_task_id (jb_request job))))));
    ("caller_actor", PStr (me_from_actor (jb_request job)));
    ("caller_mailbox", of_opt_str mailbox_target) ]
  ++ (if snapshot_preview snapshot =ˢ "" then []
      else [("reply_preview", PStr (snapshot_preview snapshot))]).

Record HeartbeatTickContext := mkTickContext {
  tc_snapshot : option CompletionSnapshot;
  tc_observed_last_progress_at : string;
  tc_now : string;
  tc_next_state : HeartbeatState;
  tc_decision : HeartbeatDecision
}.

Definition should_track_heartbeat_job (tracked_message_types : list string) (job : option JobRecord)
    : bool :=
  match job with
  | None => false
  | Some job =>
      (jb_status job =ˢ JS_running) &&
      bool_decide (lower (strip (me_message_type (jb_request job))) ∈ tracked_message_types)
  end.

(** [observed_last_progress_at]: the snapshot's update, else the job's. *)
Definition observed_progress (job : JobRecord) (snapshot : option CompletionSnapshot) : string :=
  match snapshot with
  | Some s => if strip (sn_updated_at s) =ˢ "" then strip (jb_updated_at job)
              else strip (sn_updated_at s)
  | None => strip (jb_updated_at job)
  end.

Section tick.
Context `{CompletionLib} (service : heartbeat_service).

(** [snapshot] is [dispatcher.get_snapshot(job.job_id)], [now] the clock. *)
Definition build_heartbeat_tick_context (job : JobRecord) (snapshot : option CompletionSnapshot)
    (now : string) : H (option HeartbeatTickContext) :=
  if snapshot_is_terminal snapshot then
    _ ← heartbeat_remove (hs_subject_kind service) (jb_job_id job);
    mret None
  else
    let observed := observed_progress job snapshot in
    if observed =ˢ "" then mret None
    else
      prior ← heartbeat_load (hs_subject_kind service) (jb_job_id job);
      r ← st_lift (evaluate_heartbeat (hs_policy service) (hs_subject_kind service) (jb_job_id job)
                     (jb_agent_name job) observed now prior);
      mret (Some (mkTickContext snapshot observed now r.1 r.2)).

Definition handle_reset_heartbeat (job : JobRecord) (c : HeartbeatTickContext) : H bool :=
  _ ← heartbeat_save (tc_next_state c);
  _ ← call (AppendEvent job "job_heartbeat_reset"
              [ ("subject_kind", PStr (hs_subject_kind service));
                ("action", PStr (heartbeat_action_value (hd_action (tc_decision c))));
                ("notice_count", PInt (hd_notice_count (tc_decision c)));
                ("last_progress_at", PStr (hd_last_progress_at (tc_decision c))) ] (tc_now c));
  mret true.

Definition heartbeat_timeout_due (c : HeartbeatTickContext) : bool :=
  match hs_terminal_notice_count service with
  | None => false
  | Some limit => limit <=? hd_notice_count (tc_decision c)
  end.

Definition tick_diagnostics (job : JobRecord) (c : HeartbeatTickContext) : pydict :=
  heartbeat_diagnostics job (tc_decision c) (tc_snapshot c)
    (normalize_mailbox_target (Some (me_from_actor (jb_request job))) (hs_known_targets service))
    (hs_subject_kind service).

Definition record_internal_heartbeat (job : JobRecord) (c : HeartbeatTickContext) : H bool :=
  _ ← heartbeat_save (tc_next_state c);
  _ ← call (AppendEvent job "job_heartbeat_observed" (tick_diagnostics job c) (tc_now c));
  mret true.

Definition terminalize_heartbeat_timeout (job : JobRecord) (c : HeartbeatTickContext) : H bool :=
  _ ← heartbeat_save (tc_next_state c);
  _ ← call (AppendEvent job "job_heartbeat_timeout" (tick_diagnostics job c) (tc_now c));
  decision ← st_lift (heartbeat_timeout_decision job (tc_decision c) (tc_snapshot c) (tc_now c));
  _ ← call (Complete (jb_job_id job) decision);
  _ ← heartbeat_remove (hs_subject_kind service) (jb_job_id job);
  mret false.

Definition tick_job_heartbeat (job : JobRecord) (snapshot : option CompletionSnapshot) (now : string)
    : H bool :=
  context ← build_heartbeat_tick_context job snapshot now;
  match context with
  | None => mret false
  | Some c =>
      if hd_action (tc_decision c) =ˢ HA_reset then handle_reset_heartbeat job c
      else if negb (notice_due (tc_decision c)) then mret true
      else if heartbeat_timeout_due c then terminalize_heartbeat_timeout job c
      else record_internal_heartbeat job c
  end.
End tick.

(** ** Time *)
Lemma q_ltb_false x y : q_ltb x y = false → (y <= x)%Q.
Proof. unfold q_ltb. intros ?%negb_false_iff. by apply Qle_bool_iff. Qed.
Lemma q_ltb_ge x y : (y <= x)%Q → q_ltb x y = false.
Proof. unfold q_ltb. intros ?%Qle_bool_iff. by apply negb_false_iff. Qed.

Section time.
Context `{CompletionLib}.

Lemma seconds_inv a b x :
  seconds_between a b = Ok x →
  ∃ aware za zb, parse_timestamp a = Ok (aware, za) ∧ parse_timestamp b = Ok (aware, zb) ∧
                 x = ((zb - za) # 1000000)%Q.
Proof.
  unfold seconds_between. intros E. inv_result.
  destruct x0 as [w1 zb], x1 as [w2 za].
  match goal with Hw : negb (Bool.eqb _ _) = false |- _ => apply negb_false_iff, eqb_prop in Hw;
    cbn in Hw; subst w2 end.
  by exists w1, za, zb.
Qed.

Lemma seconds_intro a b w za zb :
  parse_timestamp a = Ok (w, za) → parse_timestamp b = Ok (w, zb) →
  seconds_between a b = Ok ((zb - za) # 1000000)%Q.
Proof. intros Ha Hb. unfold seconds_between. rewrite Ha, Hb. cbn. by rewrite eqb_reflx. Qed.

Lemma seconds_trans a b c x y :
  seconds_between a b = Ok x → seconds_between b c = Ok y →
  ∃ z, seconds_between a c = Ok z ∧ (z == x + y)%Q.
Proof.
  intros (w & za & zb & Ha & Hb & ->)%seconds_inv (w' & zb' & zc & Hb' & Hc & ->)%seconds_inv.
  rewrite Hb in Hb'. injection Hb' as <- <-. eexists. split; [by eapply seconds_intro|].
  unfold Qeq, Qplus. cbn. lia.
Qed.

Lemma seconds_back a b x :
  seconds_between a b = Ok x → ∃ y, seconds_between b a = Ok y ∧ (y == - x)%Q.
Proof.
  intros (w & za & zb & Ha & Hb & ->)%seconds_inv. eexists. split; [by eapply seconds_intro|].
  unfold Qeq, Qopp. cbn. lia.
Qed.

(** A positive bound on a clipped duration is one on the duration. *)
Lemma q_max0_ge bound r :
  (0 < bound)%Q → (bound <= match r with Ok x => q_max0 x | Err _ => 0 end)%Q →
  ∃ x, r = Ok x ∧ (bound <= x)%Q.
Proof.
  intros Hb Hle. destruct r as [x|e]; [|by apply Qle_not_lt in Hle].
  exists x. split; [done|]. unfold q_max0 in Hle.
  destruct (Qle_bool x 0); [by apply Qle_not_lt in Hle|done].
Qed.
End time.

(** ** Stored states *)
Record heartbeat_valid (s : HeartbeatState) : Prop := {
  hv_kind : strip (hb_subject_kind s) ≠ "";
  hv_id : strip (hb_subject_id s) ≠ "";
  hv_owner : strip (hb_owner s) ≠ "";
  hv_progress : strip (hb_last_progress_at s) ≠ "";
  hv_count : 0 <= hb_notice_count s;
  hv_updated : strip (hb_updated_at s) ≠ ""
}.

Lemma heartbeat_post_init_inv s s' :
  heartbeat_state_post_init s = Ok s' → s' = s ∧ heartbeat_valid s.
Proof.
  unfold heartbeat_state_post_init. intros E. inv_result. split; [done|].
  repeat match goal with
  | Hb : bool_decide _ = false |- _ => apply bool_decide_eq_false in Hb
  | Hb : (_ <? _) = false |- _ => apply Z.ltb_ge in Hb
  end. by split.
Qed.

Lemma heartbeat_post_init_ok s : heartbeat_valid s → heartbeat_state_post_init s = Ok s.
Proof.
  intros [?%bool_decide_ne ?%bool_decide_ne ?%bool_decide_ne ?%bool_decide_ne ?%Z.ltb_ge
    ?%bool_decide_ne]. unfold heartbeat_state_post_init. by replay_guards.
Qed.

Definition stripped (o : option string) : Prop := ∀ t, o = Some t → strip t = t ∧ t ≠ "".

Lemma stripped_or_none_of o : stripped o → stripped_or_none (of_opt_str o) = Ok o.
Proof.
  unfold stripped_or_none. destruct o as [t|]; [|done]. intros Ho. destruct (Ho t eq_refl) as [E ?].
  cbn [of_opt_str]. rewrite py_str_or_empty_str, result_bind_ok, E. unfold or_none.
  by rewrite bool_decide_ne.
Qed.

Lemma heartbeat_from_to' s :
  heartbeat_valid s → stripped (hb_last_notice_at s) → stripped (hb_heartbeat_started_at s) →
  heartbeat_state_from_record (heartbeat_state_to_record s) = Ok s.
Proof.
  intros Hv Hn Hs. unfold heartbeat_state_from_record, heartbeat_state_to_record.
  rewrite validate_record_ok by reflexivity. dict_simpl. rewrite !result_bind_ok.
  cbn [py_str py_int]. rewrite ?result_bind_ok, stripped_or_none_of, ?result_bind_ok by done.
  rewrite stripped_or_none_of, ?result_bind_ok by done. cbn [py_str py_int].
  rewrite ?result_bind_ok. rewrite heartbeat_post_init_ok by by destruct s, Hv. by destruct s.
Qed.

(** ** Silence

    What a stored state says: its [n] notices took at least the start delay
    and [n - 1] repeat intervals since the progress it records. *)
Definition silence_bound (p : HeartbeatPolicy) (n : Z) : Q :=
  (hp_silence_start_after_s p + inject_Z (n - 1) * hp_repeat_interval_s p)%Q.

Section silence.
Context `{CompletionLib} (p : HeartbeatPolicy).
Context (Hstart : (0 < hp_silence_start_after_s p)%Q) (Hrepeat : (0 < hp_repeat_interval_s p)%Q).

Definition silent_since (n : Z) (progress t : string) : Prop :=
  ∃ q, seconds_between progress t = Ok q ∧ (silence_bound p n <= q)%Q.

Record state_ok (s : HeartbeatState) : Prop := {
  so_valid : heartbeat_valid s;
  so_notice : stripped (hb_last_notice_at s);
  so_started : stripped (hb_heartbeat_started_at s);
  so_silent : 0 < hb_notice_count s →
    ∃ t, hb_last_notice_at s = Some t ∧ silent_since (hb_notice_count s) (hb_last_progress_at s) t
}.

Lemma silent_first progress now :
  q_ltb (silence_seconds progress now) (hp_silence_start_after_s p) = false →
  silent_since 1 progress now.
Proof.
  intros Hq%q_ltb_false. apply (q_max0_ge _ _ Hstart) in Hq as (x & Hx & Hle).
  exists x. split; [done|]. unfold silence_bound.
  change (inject_Z (1 - 1)) with 0%Q. lra.
Qed.

Lemma progress_not_advanced p1 p0 :
  progress_advanced p1 p0 = false → p1 = p0 ∨ ∃ x, seconds_between p0 p1 = Ok x ∧ (x <= 0)%Q.
Proof.
  unfold progress_advanced. case_bool_decide; [by left|].
  destruct (seconds_between p0 p1) as [x|]; [|done]. intros Hq%q_ltb_false. right. by exists x.
Qed.

Lemma silent_next n p0 p1 t now :
  silent_since n p0 t → progress_advanced p1 p0 = false →
  (hp_repeat_interval_s p <= match seconds_between t now with Ok x => q_max0 x | Err _ => 0 end)%Q →
  silent_since (n + 1) p1 now.
Proof.
  intros (q & Hq & Hle) Hp Hr. apply (q_max0_ge _ _ Hrepeat) in Hr as (x & Hx & Hxle).
  destruct (seconds_trans _ _ _ _ _ Hq Hx) as (z & Hz & Ez).
  assert (∃ y, seconds_between p1 now = Ok y ∧ (z <= y)%Q) as (y & Hy & Hzy).
  { apply progress_not_advanced in Hp as [->|(w & Hw & Hw0)]; [exists z; split; [done|lra]|].
    destruct (seconds_back _ _ _ Hw) as (w' & Hw' & Ew).
    destruct (seconds_trans _ _ _ _ _ Hw' Hz) as (y & Hy & Ey). exists y. split; [done|]. lra. }
  exists y. split; [done|]. unfold silence_bound in *.
  replace (n + 1 - 1) with (n - 1 + 1) by lia. rewrite inject_Z_plus.
  change (inject_Z 1) with 1%Q. lra.
Qed.

Lemma stripped_str_or o now : stripped o → strip now = now → now ≠ "" → stripped (Some (str_or o now)).
Proof.
  intros Ho Hnow Hne t [= <-]. unfold str_or. destruct o as [x|]; [|done].
  destruct (Ho x eq_refl). by rewrite bool_decide_ne.
Qed.

(** The state a notice leaves. *)
Lemma notify_ok n s now s' :
  notify_state n s now = Ok s' → stripped (hb_heartbeat_started_at s) → strip now = now →
  (silent_since n (hb_last_progress_at s) now) →
  state_ok s' ∧ hb_notice_count s' = n ∧ hb_last_notice_at s' = Some now ∧
  hb_last_progress_at s' = hb_last_progress_at s.
Proof.
  unfold notify_state. intros [-> Hv]%heartbeat_post_init_inv Hs Hnow Hsil. cbn.
  assert (now ≠ "") as Hne by (pose proof (hv_updated _ Hv) as Hu; cbn in Hu; congruence).
  split_and!; [|done..]. split; cbn; [done| |by apply stripped_str_or|by eauto].
  by intros t [= <-].
Qed.

(** A state that is saved is sound. *)
Lemma evaluate_ok kind id owner observed now prior s' d :
  evaluate_heartbeat p kind id owner observed now prior = Ok (s', d) →
  (∀ s, prior = Some s → state_ok s) → strip now = now → hd_action d ≠ HA_idle →
  state_ok s' ∧
  (notice_due d = true → hd_notice_count d = hb_notice_count s' ∧ 0 < hb_notice_count s' ∧
     hd_last_progress_at d = hb_last_progress_at s' ∧ hb_last_notice_at s' = Some now).
Proof.
  unfold evaluate_heartbeat. intros E Hprior Hnow Hact.
  apply result_bind_Ok_inv in E as (progress & _ & E).
  apply result_bind_Ok_inv in E as (current & Hcur & E).
  apply result_bind_Ok_inv in E as (base0 & Hbase0 & E).
  apply heartbeat_post_init_inv in Hbase0 as [-> Hv0].
  assert (state_ok current) as [Hv Hn Hs Hsil].
  { destruct prior as [s|]; cbn in Hcur; [injection Hcur as <-; by apply Hprior|].
    apply heartbeat_post_init_inv in Hcur as [-> Hv]. by split. }
  destruct (progress_advanced progress (hb_last_progress_at current) && heartbeat_active current)
    eqn:Hreset.
  { apply result_bind_Ok_inv in E as (next & Hnext & [= <- <-]).
    apply heartbeat_post_init_inv in Hnext as [-> Hvn]. split; [by split|done]. }
  apply result_bind_Ok_inv in E as (base & Hbase & E).
  apply heartbeat_post_init_inv in Hbase as [-> Hvb]. cbn [hb_last_progress_at] in E.
  destruct (q_ltb (silence_seconds progress now) _) eqn:Hq; [by injection E as <- <-|].
  destruct (should_enter_heartbeat _) eqn:Henter.
  { apply result_bind_Ok_inv in E as (next & Hnext & [= <- <-]).
    apply notify_ok in Hnext as (Hok & Hc & Hl & Hp); [|done..|by apply silent_first].
    split; [done|]. cbn. rewrite Hc, Hp. intros _. split_and!; [done|lia|done..]. }
  destruct (notice_limit_reached _ p); [by injection E as <- <-|].
  destruct (repeat_interval_not_elapsed _ p now) eqn:Hrep; [by injection E as <- <-|].
  apply result_bind_Ok_inv in E as (next & Hnext & [= <- <-]).
  unfold should_enter_heartbeat in Henter. cbn in Henter. apply orb_false_iff in Henter as [_ Hpos%Z.leb_gt].
  destruct (Hsil Hpos) as (t & Ht & Hsince).
  assert (progress_advanced progress (hb_last_progress_at current) = false) as Hadv.
  { unfold heartbeat_active in Hreset. rewrite (proj2 (Z.ltb_lt _ _) Hpos) in Hreset. cbn in Hreset.
    by rewrite andb_true_r in Hreset. }
  unfold repeat_interval_not_elapsed, since_last_notice_seconds in Hrep. cbn in Hrep. rewrite Ht in Hrep.
  apply q_ltb_false in Hrep.
  apply notify_ok in Hnext as (Hok & Hc & Hl & Hp); [|done..|by eapply silent_next].
  split; [done|]. cbn in *. rewrite Hc, Hp. intros _. split_and!; [done|lia|done..].
Qed.
End silence.

(** ** Ticks *)
Section ticks.
Context `{CompletionLib} (service : heartbeat_service).
Local Abbreviation p := (hs_policy service).
Context (Hstart : (0 < hp_silence_start_after_s p)%Q) (Hrepeat : (0 < hp_repeat_interval_s p)%Q).

(** What a completion of a job by its heartbeat must satisfy. *)
Definition completion_justified (limit : Z) (d : CompletionDecision) : Prop :=
  ∃ progress now,
    dict_lookup "last_progress_at" (cd_diagnostics d) = Some (PStr progress) ∧
    cd_finished_at d = Some now ∧ silent_since p limit progress now.

Definition call_ok (c : dispatcher_call) : Prop :=
  match c with
  | AppendEvent _ _ _ _ => True
  | Complete _ d =>
      cd_status d = CS_incomplete ∧ cd_reason d = Some "heartbeat_timeout" ∧
      ∃ limit, hs_terminal_notice_count service = Some limit ∧ completion_justified limit d
  end.

Record world_ok (w : heartbeat_world) : Prop := {
  wo_files path f : hw_files w !! path = Some f →
    ∃ s, f = heartbeat_state_to_record s ∧ state_ok p s;
  wo_calls : Forall call_ok (hw_calls w)
}.

Lemma silence_bound_mono m n : m <= n → (silence_bound p m <= silence_bound p n)%Q.
Proof.
  intros Hmn. unfold silence_bound. apply Qplus_le_r.
  apply Qmult_le_compat_r; [|by apply Qlt_le_weak]. rewrite <- Zle_Qle. lia.
Qed.

Lemma load_ensures kind id :
  st_ensures world_ok (heartbeat_load kind id) (λ r, ∀ s, r = Some s → state_ok p s).
Proof.
  unfold heartbeat_load. apply (ensures_bind _ (λ _, True)); [by apply ensures_lift|intros path _].
  apply (ensures_bind _ (λ file, ∀ f, file = Some f →
    ∃ s, f = heartbeat_state_to_record s ∧ state_ok p s)).
  { apply ensures_gets. intros w Hw f. apply (wo_files _ Hw). }
  intros [f|] Hf; [|by apply ensures_ret].
  destruct (Hf f eq_refl) as (s & -> & Hs).
  apply (ensures_bind _ (λ r, r = s)).
  { apply ensures_lift. intros r. rewrite heartbeat_from_to' by apply Hs. by intros [= <-]. }
  intros ? ->. apply ensures_ret. by intros ? [= <-].
Qed.

Lemma save_preserves s : state_ok p s → preserves world_ok (heartbeat_save s).
Proof.
  intros Hs. unfold heartbeat_save. apply preserves_bind; [by apply preserves_same|intros path].
  intros w [Hf Hc]. split; cbn; [|done]. intros path' f.
  rewrite lookup_insert. case_decide; [|apply Hf]. intros [= <-]. eauto.
Qed.
Lemma remove_preserves kind id : preserves world_ok (heartbeat_remove kind id).
Proof.
  unfold heartbeat_remove. apply preserves_bind; [by apply preserves_same|intros path].
  intros w [Hf Hc]. split; cbn; [|done]. intros path' f.
  rewrite lookup_delete. case_decide; [done|apply Hf].
Qed.
Lemma call_preserves c : call_ok c → preserves world_ok (call c).
Proof. intros Hok w [Hf Hc]. split; cbn; [done|]. by apply Forall_app_2; [|apply Forall_singleton]. Qed.

(** What a tick context that was built says. *)
Definition context_ok (now : string) (c : HeartbeatTickContext) : Prop :=
  tc_now c = now ∧
  (hd_action (tc_decision c) ≠ HA_idle →
   state_ok p (tc_next_state c) ∧
   (notice_due (tc_decision c) = true →
    silent_since p (hd_notice_count (tc_decision c)) (hd_last_progress_at (tc_decision c)) now)).

Lemma build_context_ensures job snapshot now :
  strip now = now →
  st_ensures world_ok (build_heartbeat_tick_context service job snapshot now)
    (λ r, ∀ c, r = Some c → context_ok now c).
Proof.
  intros Hnow. unfold build_heartbeat_tick_context. case_match.
  { eapply ensures_bind; [apply preserves_ensures, remove_preserves|]. intros. by apply ensures_ret. }
  cbv zeta. case_bool_decide; [by apply ensures_ret|].
  eapply ensures_bind; [apply load_ensures|]. intros prior Hprior.
  eapply ensures_bind; [by apply ensures_lift, (λ r E, E)|]. intros [s' d] E.
  apply ensures_ret. intros c [= <-]. split; [done|]. cbn. intros Hact.
  destruct (evaluate_ok _ Hstart Hrepeat _ _ _ _ _ _ _ _ E Hprior Hnow Hact) as [Hok Hd].
  split; [done|]. intros (-> & Hpos & -> & Hl)%Hd.
  destruct (so_silent _ _ Hok Hpos) as (t & Ht & Hsil). rewrite Hl in Ht. by injection Ht as <-.
Qed.

Lemma timeout_decision_ok job c now x :
  heartbeat_timeout_decision job (tc_decision c) (tc_snapshot c) (tc_now c) = Ok x →
  context_ok now c → hd_action (tc_decision c) ≠ HA_idle → notice_due (tc_decision c) = true →
  heartbeat_timeout_due service c = true → call_ok (Complete (jb_job_id job) x).
Proof.
  unfold heartbeat_timeout_decision, decision_post_init. intros [= <-] [Hnow Hc] Hact Hdue Hlim.
  destruct (Hc Hact) as [_ Hsil]. destruct (Hsil Hdue) as (q & Hq & Hle). cbn.
  split_and!; [done..|]. unfold heartbeat_timeout_due in Hlim.
  destruct (hs_terminal_notice_count service) as [limit|]; [|done]. apply Z.leb_le in Hlim.
  exists limit. split; [done|]. exists (hd_last_progress_at (tc_decision c)), now.
  split_and!; [done|cbn; congruence|]. exists q. split; [done|].
  eapply Qle_trans; [by apply silence_bound_mono|done].
Qed.

Lemma heartbeat_tick_preserves job snapshot now :
  strip now = now → preserves world_ok (tick_job_heartbeat service job snapshot now).
Proof.
  intros Hnow. unfold tick_job_heartbeat.
  eapply (ensures_preserves _ _ (λ _, True)), ensures_bind; [by apply build_context_ensures|].
  intros [c|] Hc; [|by apply ensures_ret]. specialize (Hc c eq_refl).
  apply preserves_ensures.
  case_bool_decide as Ereset.
  { unfold handle_reset_heartbeat. destruct Hc as [_ Hc].
    destruct (Hc ltac:(congruence)) as [Hok _].
    apply preserves_bind; [by apply save_preserves|intros _].
    apply preserves_bind; [by apply call_preserves|intros _]. by apply preserves_same. }
  destruct (notice_due (tc_decision c)) eqn:Hdue; cbn [negb]; [|by apply preserves_same].
  assert (hd_action (tc_decision c) ≠ HA_idle) as Hact by (intros E; unfold notice_due in Hdue; by rewrite E in Hdue).
  pose proof Hc as [_ Hc']. destruct (Hc' Hact) as [Hok _].
  destruct (heartbeat_timeout_due service c) eqn:Hlim.
  - unfold terminalize_heartbeat_timeout.
    apply preserves_bind; [by apply save_preserves|intros _].
    apply preserves_bind; [by apply call_preserves|intros _].
    eapply (ensures_preserves _ _ (λ _, True)), ensures_bind; [by apply ensures_lift, (λ r E, E)|].
    intros d Hd. apply preserves_ensures.
    apply preserves_bind; [apply call_preserves, (timeout_decision_ok _ _ _ _ Hd Hc Hact Hdue Hlim)|intros _].
    apply preserves_bind; [apply remove_preserves|intros _]. by apply preserves_same.
  - unfold record_internal_heartbeat.
    apply preserves_bind; [by apply save_preserves|intros _].
    apply preserves_bind; [by apply call_preserves|intros _]. by apply preserves_same.
Qed.

(** Ticks of any jobs, one after the other; a tick that raises is followed by
    the next one. *)
Definition tick_input : Type := JobRecord * option CompletionSnapshot * string.
Definition run_ticks (l : list tick_input) (w : heartbeat_world) : heartbeat_world :=
  foldl (λ w '(job, snapshot, now), st_exec (tick_job_heartbeat service job snapshot now) w) w l.

Definition empty_world : heartbeat_world := mkWorld ∅ [].

Lemma run_ticks_ok l w : Forall (λ i : tick_input, strip i.2 = i.2) l → world_ok w → world_ok (run_ticks l w).
Proof.
  intros Hl. revert w. induction Hl as [|[[job snapshot] now] l Hnow _ IH]; [done|].
  intros w Hw. apply IH. by apply heartbeat_tick_preserves.
Qed.

(** C37: A heartbeat never gives up on a job too early.  Whatever ticks happened
    to whatever jobs (their snapshots and times are arbitrary, a tick may also
    raise), every job the heartbeat service completed was completed as
    incomplete with reason [heartbeat_timeout], and the last progress its
    decision reports was, when it was completed, at least the start delay plus
    [limit - 1] repeat intervals old, where [limit] is the configured number of
    notices. *)
Theorem heartbeat_timeout_justified (l : list tick_input)
    (Htimes : Forall (λ i : tick_input, strip i.2 = i.2) l)
    (job_id : string) (d : CompletionDecision)
    (Hcall : Complete job_id d ∈ hw_calls (run_ticks l empty_world)) :
  cd_status d = CS_incomplete ∧ cd_reason d = Some "heartbeat_timeout" ∧
  ∃ limit progress now silence,
    hs_terminal_notice_count service = Some limit ∧
    dict_lookup "last_progress_at" (cd_diagnostics d) = Some (PStr progress) ∧
    cd_finished_at d = Some now ∧ seconds_between progress now = Ok silence ∧
    (silence_bound p limit <= silence)%Q.
Proof.
  assert (world_ok (run_ticks l empty_world)) as Hw.
  { apply run_ticks_ok; [done|]. by split. }
  pose proof (proj1 (Forall_forall _ _) (wo_calls _ Hw) _ Hcall)
    as (? & ? & limit & ? & progress & now & ? & ? & q & ? & ?).
  split_and!; [done..|]. by exists limit, progress, now, q.
Qed.
End ticks.

(** ** A silent job is given up *)
Section silent.
Context `{CompletionLib} (service : heartbeat_service).
Local Abbreviation p := (hs_policy service).
Context (job : JobRecord) (snapshot : option CompletionSnapshot).
Local Abbreviation kind := (hs_subject_kind service).
Local Abbreviation id := (jb_job_id job).
Local Abbreviation owner := (jb_agent_name job).
Local Abbreviation progress := (observed_progress job snapshot).
Context (Hkind : strip kind ≠ "") (Hid : strip id ≠ "") (Howner : strip owner ≠ "").
Context (Hprogress : progress ≠ "") (Hrunning : snapshot_is_terminal snapshot = false).
Context (path : string * string) (Hpath : heartbeat_subject_path kind id = Ok path).

(** The state after [n] notices, the first at [first], the last at [t]. *)
Definition noticed (first : string) (n : Z) (t : string) : HeartbeatState :=
  mkHeartbeat kind id owner progress (Some t) (Some first) n t.

Definition proper_time (t : string) : Prop := strip t = t ∧ t ≠ "".
Definition elapsed (a b : string) (bound : Q) : Prop :=
  ∃ q, seconds_between a b = Ok q ∧ (bound <= q)%Q.

Lemma progress_strip : strip progress = progress.
Proof. unfold observed_progress. repeat case_match; apply strip_idem. Qed.

Lemma proper_nonblank t : proper_time t → strip t ≠ "".
Proof. by intros [-> ?]. Qed.

Lemma subject_valid notice started n updated :
  0 <= n → strip updated ≠ "" →
  heartbeat_state_post_init (mkHeartbeat kind id owner progress notice started n updated) =
  Ok (mkHeartbeat kind id owner progress notice started n updated).
Proof. intros. apply heartbeat_post_init_ok. split; cbn; try done. by rewrite progress_strip. Qed.

Lemma elapsed_clipped a b bound :
  (0 < bound)%Q → elapsed a b bound →
  q_ltb (match seconds_between a b with Ok x => q_max0 x | Err _ => 0%Q end) bound = false.
Proof.
  intros Hb (q & -> & Hq). apply q_ltb_ge. unfold q_max0.
  destruct (Qle_bool q 0) eqn:E; [apply Qle_bool_iff in E; lra|done].
Qed.

Context (Hstart : (0 < hp_silence_start_after_s p)%Q) (Hrepeat : (0 < hp_repeat_interval_s p)%Q).

Lemma progress_timestamp_eq now : progress_timestamp progress now = Ok progress.
Proof. unfold progress_timestamp. by rewrite progress_strip, !bool_decide_ne. Qed.

Lemma evaluate_first now :
  proper_time now → elapsed progress now (hp_silence_start_after_s p) →
  evaluate_heartbeat p kind id owner progress now None =
  Ok (noticed now 1 now, decision_for HA_enter (noticed now 1 now) (silence_seconds progress now)).
Proof.
  intros Hnow Hel. pose proof (proper_nonblank _ Hnow). unfold evaluate_heartbeat, current_state.
  rewrite progress_timestamp_eq, result_bind_ok, subject_valid, result_bind_ok by done.
  unfold state_with_subject. cbn [hb_last_progress_at hb_last_notice_at hb_heartbeat_started_at
    hb_notice_count hb_updated_at]. rewrite subject_valid, result_bind_ok by done.
  unfold progress_advanced. rewrite bool_decide_eq_true_2 by done. cbn [andb].
  unfold with_progress. cbn [hb_subject_kind hb_subject_id hb_owner hb_last_notice_at
    hb_heartbeat_started_at hb_notice_count hb_updated_at].
  rewrite subject_valid, result_bind_ok by done. unfold silence_seconds.
  rewrite (elapsed_clipped _ _ _ Hstart Hel). cbn -[enter_state decision_for].
  unfold enter_state, notify_state. cbn [hb_subject_kind hb_subject_id hb_owner
    hb_last_progress_at hb_heartbeat_started_at str_or]. by rewrite subject_valid.
Qed.

Lemma evaluate_next first n t now :
  proper_time first → proper_time t → proper_time now → 1 <= n →
  match hp_max_notice_count p with None => True | Some m => n < m end →
  elapsed progress now (hp_silence_start_after_s p) → elapsed t now (hp_repeat_interval_s p) →
  evaluate_heartbeat p kind id owner progress now (Some (noticed first n t)) =
  Ok (noticed first (n + 1) now,
      decision_for HA_repeat (noticed first (n + 1) now) (silence_seconds progress now)).
Proof.
  intros Hf Ht Hnow Hn Hmax Hel Hrep.
  pose proof (proper_nonblank _ Hnow). pose proof (proper_nonblank _ Ht).
  unfold evaluate_heartbeat, current_state. rewrite progress_timestamp_eq, !result_bind_ok.
  unfold state_with_subject. cbn [noticed hb_last_progress_at hb_last_notice_at
    hb_heartbeat_started_at hb_notice_count hb_updated_at].
  rewrite subject_valid, result_bind_ok by (done || lia).
  unfold progress_advanced. rewrite bool_decide_eq_true_2 by done. cbn [andb].
  unfold with_progress. cbn [hb_subject_kind hb_subject_id hb_owner hb_last_notice_at
    hb_heartbeat_started_at hb_notice_count hb_updated_at].
  rewrite subject_valid, result_bind_ok by (done || lia). unfold silence_seconds.
  rewrite (elapsed_clipped _ _ _ Hstart Hel). unfold should_enter_heartbeat.
  cbn [hb_last_notice_at hb_notice_count is_none orb]. rewrite (proj2 (Z.leb_gt _ _)) by lia.
  unfold notice_limit_reached. cbn [hb_notice_count].
  replace (match hp_max_notice_count p with Some m => _ | None => _ end) with false
    by (destruct (hp_max_notice_count p); [symmetry; apply Z.leb_gt; lia|done]).
  unfold repeat_interval_not_elapsed, since_last_notice_seconds. cbn [hb_last_notice_at].
  rewrite (elapsed_clipped _ _ _ Hrepeat Hrep).
  unfold repeat_state, notify_state. cbn [hb_subject_kind hb_subject_id hb_owner hb_notice_count
    hb_last_progress_at hb_heartbeat_started_at].
  replace (str_or (Some first) now) with first by (unfold str_or; by rewrite bool_decide_ne by apply Hf).
  rewrite subject_valid by (done || lia). done.
Qed.
(** Loading what a notice saved. *)
Lemma load_none w :
  hw_files w !! path = None → heartbeat_load kind id w = (Ok None, w).
Proof.
  intros Hw. unfold heartbeat_load. rewrite (st_lift_bind _ _ _ _ Hpath), st_gets_bind. by rewrite Hw.
Qed.

Lemma load_noticed w first n t :
  proper_time first → proper_time t → 0 <= n →
  hw_files w !! path = Some (heartbeat_state_to_record (noticed first n t)) →
  heartbeat_load kind id w = (Ok (Some (noticed first n t)), w).
Proof.
  intros Hf Ht Hn Hw. unfold heartbeat_load. rewrite (st_lift_bind _ _ _ _ Hpath), st_gets_bind, Hw.
  rewrite (st_lift_bind _ _ _ (noticed first n t)); [done|].
  apply heartbeat_from_to'; [|by intros ? [= <-]..].
  split; cbn; try done; [by rewrite progress_strip|by apply proper_nonblank].
Qed.

(** One tick that gives a notice. *)
Lemma tick_notice now prior first n action w :
  heartbeat_load kind id w = (Ok prior, w) →
  evaluate_heartbeat p kind id owner progress now prior =
    Ok (noticed first n now, decision_for action (noticed first n now) (silence_seconds progress now)) →
  action ∈ [HA_enter; HA_repeat] →
  ∃ limit_due c,
    limit_due = match hs_terminal_notice_count service with Some l => l <=? n | None => false end ∧
    tc_next_state c = noticed first n now ∧ tc_now c = now ∧
    hd_notice_count (tc_decision c) = n ∧
    tick_job_heartbeat service job snapshot now w =
      (if limit_due then terminalize_heartbeat_timeout service job c
       else record_internal_heartbeat service job c) w.
Proof.
  intros Hload Hev Hact. eexists _, (mkTickContext snapshot progress now (noticed first n now)
    (decision_for action (noticed first n now) (silence_seconds progress now))).
  split_and!; [reflexivity|reflexivity|reflexivity|reflexivity|].
  unfold tick_job_heartbeat, build_heartbeat_tick_context. rewrite Hrunning.
  cbv zeta. rewrite (bool_decide_eq_false_2 (progress = "")) by done.
  match goal with |- (?m ≫= _) w = _ => assert (m w = (Ok (Some (mkTickContext snapshot progress now
    (noticed first n now) (decision_for action (noticed first n now) (silence_seconds progress now)))), w))
    as Hctx end.
  { rewrite (st_bind_ok _ _ _ _ _ Hload), (st_lift_bind _ _ _ _ Hev). done. }
  rewrite (st_bind_ok _ _ _ _ _ Hctx). cbn [tc_decision decision_for hd_action].
  rewrite bool_decide_eq_false_2 by (intros ->; by apply elem_of_cons in Hact as [|[|[]%elem_of_nil]%elem_of_cons]).
  unfold notice_due. cbn [hd_action]. rewrite bool_decide_eq_true_2 by done. cbn [negb].
  unfold heartbeat_timeout_due. cbn [tc_decision hd_notice_count decision_for noticed hb_notice_count].
  done.
Qed.

Lemma save_eq s w :
  hb_subject_kind s = kind → hb_subject_id s = id →
  heartbeat_save s w =
    (Ok tt, mkWorld (<[path := heartbeat_state_to_record s]> (hw_files w)) (hw_calls w)).
Proof. intros Hk Hi. unfold heartbeat_save. rewrite Hk, Hi. by rewrite (st_lift_bind _ _ _ _ Hpath). Qed.

Lemma remove_eq w :
  heartbeat_remove kind id w = (Ok tt, mkWorld (delete path (hw_files w)) (hw_calls w)).
Proof. unfold heartbeat_remove. by rewrite (st_lift_bind _ _ _ _ Hpath). Qed.

Lemma record_eq c first n w :
  tc_next_state c = noticed first n (tc_now c) →
  ∃ payload, record_internal_heartbeat service job c w =
    (Ok true, mkWorld (<[path := heartbeat_state_to_record (noticed first n (tc_now c))]> (hw_files w))
                (hw_calls w ++ [AppendEvent job "job_heartbeat_observed" payload (tc_now c)])).
Proof.
  intros Hs. exists (tick_diagnostics service job c). unfold record_internal_heartbeat. rewrite Hs.
  by rewrite (st_bind_ok _ _ _ _ _ (save_eq (noticed first n (tc_now c)) w eq_refl eq_refl)).
Qed.

Lemma terminalize_eq c first n w :
  tc_next_state c = noticed first n (tc_now c) →
  ∃ payload d, terminalize_heartbeat_timeout service job c w =
    (Ok false, mkWorld (delete path (hw_files w))
       (hw_calls w ++ [AppendEvent job "job_heartbeat_timeout" payload (tc_now c); Complete id d])) ∧
    cd_status d = CS_incomplete ∧ cd_reason d = Some "heartbeat_timeout".
Proof.
  intros Hs. eexists (tick_diagnostics service job c), _. split.
  - unfold terminalize_heartbeat_timeout. rewrite Hs.
    rewrite (st_bind_ok _ _ _ _ _ (save_eq (noticed first n (tc_now c)) w eq_refl eq_refl)).
    unfold call. rewrite st_modify_bind.
    rewrite (st_lift_bind (heartbeat_timeout_decision _ _ _ _) _ _ _ eq_refl), st_modify_bind.
    rewrite (st_bind_ok _ _ _ _ _ (remove_eq _)). cbn [hw_files hw_calls].
    rewrite delete_insert_eq, <- app_assoc. reflexivity.
  - done.
Qed.

(** Notices of a silent job at the times [nows]: silent long enough at each,
    and each a repeat interval after the one before. *)
Definition silent_times (nows : list string) : Prop :=
  Forall (λ now, proper_time now ∧ elapsed progress now (hp_silence_start_after_s p)) nows ∧
  Sorted (λ a b, elapsed a b (hp_repeat_interval_s p)) nows.

Definition same_job (nows : list string) : list tick_input :=
  (λ now, (job, snapshot, now)) <$> nows.

Definition observed_call (c : dispatcher_call) : Prop :=
  ∃ payload now, c = AppendEvent job "job_heartbeat_observed" payload now.

(** The calls that end the job. *)
Definition gave_up (calls : list dispatcher_call) : Prop :=
  ∃ payload now d, calls = [AppendEvent job "job_heartbeat_timeout" payload now; Complete id d] ∧
    cd_status d = CS_incomplete ∧ cd_reason d = Some "heartbeat_timeout".

Lemma notice_tick limit now prior first n action w :
  hs_terminal_notice_count service = Some limit →
  heartbeat_load kind id w = (Ok prior, w) →
  evaluate_heartbeat p kind id owner progress now prior =
    Ok (noticed first n now, decision_for action (noticed first n now) (silence_seconds progress now)) →
  action ∈ [HA_enter; HA_repeat] →
  let w' := st_exec (tick_job_heartbeat service job snapshot now) w in
  (limit <= n ∧ hw_files w' = delete path (hw_files w) ∧
   ∃ calls, hw_calls w' = hw_calls w ++ calls ∧ gave_up calls) ∨
  (n < limit ∧ hw_files w' = <[path := heartbeat_state_to_record (noticed first n now)]> (hw_files w) ∧
   ∃ c, hw_calls w' = hw_calls w ++ [c] ∧ observed_call c).
Proof.
  intros Hlimit Hload Hev Hact.
  destruct (tick_notice now prior first n action w Hload Hev Hact) as (due & c & Hdue & Hs & Hnow & _ & Heq).
  rewrite Hlimit in Hdue. cbv zeta. unfold st_exec. rewrite Heq. rewrite <- Hnow in Hs.
  destruct due.
  - left. destruct (terminalize_eq c first n w Hs) as (payload & d & -> & Hd).
    split_and!; [by apply Z.leb_le|done|]. eexists. split; [reflexivity|]. by exists payload, (tc_now c), d.
  - right. destruct (record_eq c first n w Hs) as (payload & ->). rewrite Hnow.
    split_and!; [by apply Z.leb_gt|done|]. eexists. split; [reflexivity|]. by exists payload, now.
Qed.

Context (Hmax : ∀ m limit, hp_max_notice_count p = Some m →
                           hs_terminal_notice_count service = Some limit → limit <= m).

Lemma rest_ticks limit nows n first t w :
  hs_terminal_notice_count service = Some limit → limit = n + Z.of_nat (length nows) →
  1 <= n → nows ≠ [] → proper_time first → proper_time t → silent_times nows →
  HdRel (λ a b, elapsed a b (hp_repeat_interval_s p)) t nows →
  hw_files w !! path = Some (heartbeat_state_to_record (noticed first n t)) →
  ∃ events calls,
    hw_calls (run_ticks service (same_job nows) w) = hw_calls w ++ events ++ calls ∧
    Forall observed_call events ∧ S (length events) = length nows ∧ gave_up calls ∧
    hw_files (run_ticks service (same_job nows) w) !! path = None.
Proof.
  intros Hlimit. revert n t w. induction nows as [|now nows IH]; intros n t w Hl Hn Hne Hf Ht [Hall Hsorted] Hhd Hw;
    [done|].
  apply Forall_cons in Hall as [[Hnow Hel] Hall]. apply Sorted_inv in Hsorted as [Hsorted Hhd'].
  apply HdRel_inv in Hhd. cbn [length] in Hl.
  assert (match hp_max_notice_count p with None => True | Some m => n < m end) as Hm.
  { destruct (hp_max_notice_count p) as [m|] eqn:E; [|done]. specialize (Hmax m limit eq_refl Hlimit). lia. }
  pose proof (evaluate_next first n t now Hf Ht Hnow Hn Hm Hel Hhd) as Hev.
  pose proof (load_noticed w first n t Hf Ht ltac:(lia) Hw) as Hload.
  cbn [same_job fmap list_fmap run_ticks foldl].
  destruct (notice_tick limit now _ first (n + 1) HA_repeat w Hlimit Hload Hev ltac:(by right; left))
    as [(Hle & Hfiles & calls & Hcalls & Hg)|(Hlt & Hfiles & c & Hcalls & Hc)].
  - destruct nows as [|now' nows]; [|cbn [length] in Hl; lia]. cbn. exists [], calls.
    split_and!; [done|constructor|done|done|]. by rewrite Hfiles, lookup_delete_eq.
  - set (w1 := st_exec _ w) in *.
    destruct (IH (n + 1) now w1) as (events & calls & Hcs & He & Hlen & Hg & Hnone);
      [lia|lia|by intros ->; cbn in Hl; lia|done|done|by split|done|by rewrite Hfiles, lookup_insert_eq|].
    exists (c :: events), calls. unfold run_ticks, same_job in Hcs, Hnone.
    rewrite Hcs, Hcalls, <- app_assoc. split_and!; [done|by constructor|cbn; congruence|done|done].
Qed.

Lemma silent_job_times_out' limit nows w :
  hs_terminal_notice_count service = Some limit → limit = Z.of_nat (length nows) → nows ≠ [] →
  silent_times nows → hw_files w !! path = None →
  ∃ events calls,
    hw_calls (run_ticks service (same_job nows) w) = hw_calls w ++ events ++ calls ∧
    Forall observed_call events ∧ S (length events) = length nows ∧ gave_up calls ∧
    hw_files (run_ticks service (same_job nows) w) !! path = None.
Proof.
  intros Hlimit Hl Hne [Hall Hsorted] Hw. destruct nows as [|now nows]; [done|].
  apply Forall_cons in Hall as [[Hnow Hel] Hall]. apply Sorted_inv in Hsorted as [Hsorted Hhd].
  cbn [length] in Hl. cbn [same_job fmap list_fmap run_ticks foldl].
  destruct (notice_tick limit now None now 1 HA_enter w Hlimit (load_none w Hw)
              (evaluate_first now Hnow Hel) ltac:(by left))
    as [(Hle & Hfiles & calls & Hcalls & Hg)|(Hlt & Hfiles & c & Hcalls & Hc)].
  - destruct nows as [|now' nows]; [|cbn [length] in Hl; lia]. cbn. exists [], calls.
    split_and!; [done|constructor|done|done|]. by rewrite Hfiles, lookup_delete_eq.
  - set (w1 := st_exec _ w) in *.
    destruct (rest_ticks limit nows 1 now now w1) as (events & calls & Hcs & He & Hlen & Hg & Hnone);
      [done|lia|lia|by intros ->; cbn in Hl; lia|done|done|by split|done|by rewrite Hfiles, lookup_insert_eq|].
    exists (c :: events), calls. unfold run_ticks, same_job in Hcs, Hnone.
    rewrite Hcs, Hcalls, <- app_assoc. split_and!; [done|by constructor|cbn; congruence|done|done].
Qed.
End silent.

(** A silent job is given up.  Let a running job have no heartbeat file and
    make no progress, and let the service tick it at times each of which is
    the start delay after that progress and a repeat interval after the time
    before.  Then each tick but the last records one observed heartbeat, and the
    tick that reaches the configured number of notices records the timeout,
    completes the job as incomplete with reason [heartbeat_timeout] and removes
    its heartbeat file. *)
Theorem silent_job_times_out `{CompletionLib} (service : heartbeat_service) (job : JobRecord)
    (snapshot : option CompletionSnapshot) (path : string * string) (nows : list string)
    (w : heartbeat_world)
    (Hkind : strip (hs_subject_kind service) ≠ "") (Hid : strip (jb_job_id job) ≠ "")
    (Howner : strip (jb_agent_name job) ≠ "") (Hprogress : observed_progress job snapshot ≠ "")
    (Hrunning : snapshot_is_terminal snapshot = false)
    (Hpath : heartbeat_subject_path (hs_subject_kind service) (jb_job_id job) = Ok path)
    (Hstart : (0 < hp_silence_start_after_s (hs_policy service))%Q)
    (Hrepeat : (0 < hp_repeat_interval_s (hs_policy service))%Q)
    (Hlimit : hs_terminal_notice_count service = Some (Z.of_nat (length nows)))
    (Hmax : ∀ m, hp_max_notice_count (hs_policy service) = Some m → Z.of_nat (length nows) <= m)
    (Hne : nows ≠ []) (Hsilent : silent_times service job snapshot nows)
    (Hw : hw_files w !! path = None) :
  let w' := run_ticks service (same_job job snapshot nows) w in
  ∃ events calls,
    hw_calls w' = hw_calls w ++ events ++ calls ∧ Forall (observed_call job) events ∧
    S (length events) = length nows ∧ gave_up job calls ∧ hw_files w' !! path = None.
Proof.
  apply (silent_job_times_out' service job snapshot Hkind Hid Howner Hprogress Hrunning path Hpath
    Hstart Hrepeat) with (limit := Z.of_nat (length nows)); try done.
  intros m limit Hm Hl. rewrite Hlimit in Hl. injection Hl as <-. by apply Hmax.
Qed.

(** ** Witnesses *)
Definition demo_request : MessageEnvelope :=
  mkEnvelope "p" "agent1" "user" "hi" None None "ask" DS_single false [] None.
Definition demo_running_job : JobRecord :=
  mkJob "job_1" None "agent1" "codex" demo_request JS_running None None "0" "0" None TK_agent
    "agent1" None [].
Definition demo_heartbeats : heartbeat_service :=
  mkHbService (mkPolicy 10 10 None) "job_progress" (Some 2) ∅.
Definition demo_ticks : list tick_input :=
  same_job demo_running_job None ["10"; "20"].
Definition demo_timeout : CompletionDecision :=
  Eval vm_compute in
  match hw_calls (@run_ticks demo_lib demo_heartbeats demo_ticks empty_world) with
  | [_; _; Complete _ d] => d
  | _ => pending_decision None
  end.

Lemma heartbeat_timeout_justified_witness :
  ∃ limit progress now silence,
    hs_terminal_notice_count demo_heartbeats = Some limit ∧
    dict_lookup "last_progress_at" (cd_diagnostics demo_timeout) = Some (PStr progress) ∧
    cd_finished_at demo_timeout = Some now ∧
    @seconds_between demo_lib progress now = Ok silence ∧
    (silence_bound (hs_policy demo_heartbeats) limit <= silence)%Q.
Proof.
  refine (proj2 (proj2 (@heartbeat_timeout_justified demo_lib demo_heartbeats eq_refl eq_refl
    demo_ticks _ "job_1" demo_timeout _))).
  - by repeat constructor.
  - vm_compute. right; right; left.
Defined.

Lemma demo_silent : @silent_times demo_lib demo_heartbeats demo_running_job None ["10"; "20"].
Proof.
  split.
  - repeat constructor; try done; eexists; (split; [vm_compute; reflexivity|by vm_compute]).
  - repeat constructor; eexists; (split; [vm_compute; reflexivity|by vm_compute]).
Qed.

Lemma silent_job_times_out_witness :
  let w' := @run_ticks demo_lib demo_heartbeats (same_job demo_running_job None ["10"; "20"]) empty_world in
  ∃ events calls,
    hw_calls w' = hw_calls empty_world ++ events ++ calls ∧
    Forall (observed_call demo_running_job) events ∧
    S (length events) = length ["10"; "20"] ∧ gave_up demo_running_job calls ∧
    hw_files w' !! ("job_progress", "job_1") = None.
Proof.
  apply (@silent_job_times_out demo_lib demo_heartbeats demo_running_job None
    ("job_progress", "job_1") ["10"; "20"] empty_world); try done. apply demo_silent.
Defined.
