(* ===== verification/BureauModels.v ===== *)
(** * Records of the message bureau

    [message_bureau/model_enums.py], [models.py], [model_codecs.py] and the
    record of [callback_edges.py]: messages, attempts, replies and callback
    edges, what their constructors accept and their JSON form. *)
From S2P Require Import Prelude PyValue Names.
Open Scope string_scope.
Open Scope list_scope.
Open Scope Z_scope.

Definition bureau_schema_version : Z := 1.

Inductive MessageState :=
  | MSt_created | MSt_queued | MSt_dispatching | MSt_running | MSt_partially_replied
  | MSt_completed | MSt_incomplete | MSt_failed | MSt_cancelled | MSt_dead_letter.
Inductive AttemptState :=
  | AS_pending | AS_delivering | AS_running | AS_waiting_completion | AS_reply_ready | AS_stalled
  | AS_runtime_dead | AS_failed | AS_incomplete | AS_cancelled | AS_superseded | AS_dead_letter
  | AS_completed.
Inductive ReplyTerminalStatus := RT_completed | RT_incomplete | RT_failed | RT_cancelled.
Inductive CallbackEdgeState :=
  | CE_pending | CE_child_completed | CE_continuation_submitted | CE_done | CE_failed | CE_timed_out.

#[export] Instance MessageState_eq_dec : EqDecision MessageState.
Proof. solve_decision. Defined.
#[export] Instance AttemptState_eq_dec : EqDecision AttemptState.
Proof. solve_decision. Defined.
#[export] Instance ReplyTerminalStatus_eq_dec : EqDecision ReplyTerminalStatus.
Proof. solve_decision. Defined.
#[export] Instance CallbackEdgeState_eq_dec : EqDecision CallbackEdgeState.
Proof. solve_decision. Defined.

Definition message_state_value (s : MessageState) : string :=
  match s with
  | MSt_created => "created" | MSt_queued => "queued" | MSt_dispatching => "dispatching"
  | MSt_running => "running" | MSt_partially_replied => "partially_replied"
  | MSt_completed => "completed" | MSt_incomplete => "incomplete" | MSt_failed => "failed"
  | MSt_cancelled => "cancelled" | MSt_dead_letter => "dead_letter"
  end.
Definition attempt_state_value (s : AttemptState) : string :=
  match s with
  | AS_pending => "pending" | AS_delivering => "delivering" | AS_running => "running"
  | AS_waiting_completion => "waiting_completion" | AS_reply_ready => "reply_ready"
  | AS_stalled => "stalled" | AS_runtime_dead => "runtime_dead" | AS_failed => "failed"
  | AS_incomplete => "incomplete" | AS_cancelled => "cancelled" | AS_superseded => "superseded"
  | AS_dead_letter => "dead_letter" | AS_completed => "completed"
  end.
Definition reply_status_value (s : ReplyTerminalStatus) : string :=
  match s with
  | RT_completed => "completed" | RT_incomplete => "incomplete" | RT_failed => "failed"
  | RT_cancelled => "cancelled"
  end.
Definition edge_state_value (s : CallbackEdgeState) : string :=
  match s with
  | CE_pending => "pending" | CE_child_completed => "child_completed"
  | CE_continuation_submitted => "continuation_submitted" | CE_done => "done"
  | CE_failed => "failed" | CE_timed_out => "timed_out"
  end.

Definition message_state_of (s : string) : result MessageState :=
  enum_of "MessageState" message_state_value
    [MSt_created; MSt_queued; MSt_dispatching; MSt_running; MSt_partially_replied; MSt_completed;
     MSt_incomplete; MSt_failed; MSt_cancelled; MSt_dead_letter] s.
Definition attempt_state_of (s : string) : result AttemptState :=
  enum_of "AttemptState" attempt_state_value
    [AS_pending; AS_delivering; AS_running; AS_waiting_completion; AS_reply_ready; AS_stalled;
     AS_runtime_dead; AS_failed; AS_incomplete; AS_cancelled; AS_superseded; AS_dead_letter;
     AS_completed] s.
Definition reply_status_of (s : string) : result ReplyTerminalStatus :=
  enum_of "ReplyTerminalStatus" reply_status_value
    [RT_completed; RT_incomplete; RT_failed; RT_cancelled] s.
Definition edge_state_of (v : pyval) : result CallbackEdgeState :=
  enum_of_val "CallbackEdgeState" edge_state_value
    [CE_pending; CE_child_completed; CE_continuation_submitted; CE_done; CE_failed; CE_timed_out] v.

(** ** Records *)
Record MessageRecord := mkMessage {
  mr_message_id : string;
  mr_origin_message_id : option string;
  mr_from_actor : string;
  mr_target_scope : string;
  mr_target_agents : list string;
  mr_message_class : string;
  mr_reply_policy : pydict;
  mr_retry_policy : pydict;
  mr_priority : Z;
  mr_payload_ref : option string;
  mr_submission_id : option string;
  mr_created_at : string;
  mr_updated_at : string;
  mr_message_state : MessageState
}.

Record AttemptRecord := mkAttempt {
  at_attempt_id : string;
  at_message_id : string;
  at_agent_name : string;
  at_provider : string;
  at_job_id : string;
  at_retry_index : Z;
  at_health_snapshot_ref : option string;
  at_started_at : string;
  at_updated_at : string;
  at_attempt_state : AttemptState
}.

Record ReplyRecord := mkReply {
  rr_reply_id : string;
  rr_message_id : string;
  rr_attempt_id : string;
  rr_agent_name : string;
  rr_terminal_status : ReplyTerminalStatus;
  rr_reply : string;
  rr_reply_artifact : option pydict;
  rr_diagnostics : pydict;
  rr_finished_at : string
}.

Record CallbackEdgeRecord := mkEdge {
  ce_edge_id : string;
  ce_parent_job_id : string;
  ce_parent_message_id : string;
  ce_parent_agent : string;
  ce_child_job_id : string;
  ce_child_message_id : string;
  ce_callback_target_agent : string;
  ce_original_caller : string;
  ce_original_task_id : option string;
  ce_state : CallbackEdgeState;
  ce_child_reply_id : option string;
  ce_child_status : option string;
  ce_continuation_job_id : option string;
  ce_continuation_message_id : option string;
  ce_timeout_at : option string;
  ce_created_at : string;
  ce_updated_at : string;
  ce_diagnostics : pydict
}.

(** ** Constructors *)
Definition require_value (field value : string) : result unit :=
  raise_if (value =ˢ "") (ValueError (field +:+ " cannot be empty")).

Definition normalize_message_record (m : MessageRecord) : result MessageRecord :=
  _ ← require_value "message_id" (mr_message_id m);
  _ ← require_value "from_actor" (mr_from_actor m);
  _ ← require_value "target_scope" (mr_target_scope m);
  _ ← raise_if (bool_decide (mr_target_agents m = []))
        (ValueError "target_agents cannot be empty");
  _ ← require_value "message_class" (mr_message_class m);
  _ ← raise_if (mr_priority m <? 0) (ValueError "priority cannot be negative");
  from_actor ← normalize_actor_name (Some (mr_from_actor m));
  agents ← mapM normalize_agent_name (mr_target_agents m);
  mret (mkMessage (mr_message_id m) (mr_origin_message_id m) from_actor (mr_target_scope m) agents
          (mr_message_class m) (mr_reply_policy m) (mr_retry_policy m) (mr_priority m)
          (mr_payload_ref m) (mr_submission_id m) (mr_created_at m) (mr_updated_at m)
          (mr_message_state m)).

Definition normalize_attempt_record (a : AttemptRecord) : result AttemptRecord :=
  _ ← require_value "attempt_id" (at_attempt_id a);
  _ ← require_value "message_id" (at_message_id a);
  _ ← require_value "agent_name" (at_agent_name a);
  _ ← require_value "provider" (at_provider a);
  _ ← require_value "job_id" (at_job_id a);
  _ ← raise_if (at_retry_index a <? 0) (ValueError "retry_index cannot be negative");
  agent ← normalize_agent_name (at_agent_name a);
  mret (mkAttempt (at_attempt_id a) (at_message_id a) agent (at_provider a) (at_job_id a)
          (at_retry_index a) (at_health_snapshot_ref a) (at_started_at a) (at_updated_at a)
          (at_attempt_state a)).

Definition normalize_reply_record (r : ReplyRecord) : result ReplyRecord :=
  _ ← require_value "reply_id" (rr_reply_id r);
  _ ← require_value "message_id" (rr_message_id r);
  _ ← require_value "attempt_id" (rr_attempt_id r);
  _ ← require_value "agent_name" (rr_agent_name r);
  agent ← normalize_agent_name (rr_agent_name r);
  mret (mkReply (rr_reply_id r) (rr_message_id r) (rr_attempt_id r) agent (rr_terminal_status r)
          (rr_reply r) (rr_reply_artifact r) (rr_diagnostics r) (rr_finished_at r)).

Definition edge_post_init (e : CallbackEdgeRecord) : result CallbackEdgeRecord :=
  _ ← require_value "edge_id" (ce_edge_id e);
  _ ← require_value "parent_job_id" (ce_parent_job_id e);
  _ ← require_value "parent_message_id" (ce_parent_message_id e);
  _ ← require_value "child_job_id" (ce_child_job_id e);
  _ ← require_value "child_message_id" (ce_child_message_id e);
  mret e.

(** ** JSON *)
Definition message_to_record (m : MessageRecord) : pydict :=
  [ ("schema_version", PInt bureau_schema_version);
    ("record_type", PStr "message_record");
    ("message_id", PStr (mr_message_id m));
    ("origin_message_id", of_opt_str (mr_origin_message_id m));
    ("from_actor", PStr (mr_from_actor m));
    ("target_scope", PStr (mr_target_scope m));
    ("target_agents", PList (PStr <$> mr_target_agents m));
    ("message_class", PStr (mr_message_class m));
    ("reply_policy", PDict (mr_reply_policy m));
    ("retry_policy", PDict (mr_retry_policy m));
    ("priority", PInt (mr_priority m));
    ("payload_ref", of_opt_str (mr_payload_ref m));
    ("submission_id", of_opt_str (mr_submission_id m));
    ("created_at", PStr (mr_created_at m));
    ("updated_at", PStr (mr_updated_at m));
    ("message_state", PStr (message_state_value (mr_message_state m))) ].

Definition message_from_record (d : pydict) : result MessageRecord :=
  _ ← validate_record bureau_schema_version "message_record" d;
  message_id ← str_at "message_id" d;
  origin ← opt_str "origin_message_id" (dget "origin_message_id" d);
  from_actor ← str_at "from_actor" d;
  target_scope ← str_at "target_scope" d;
  agents ← str_list "target_agents" (py_or (dget "target_agents" d) (PList []));
  message_class ← py_str (py_or (dget "message_class" d) (PStr "task_request"));
  reply_policy ← dict_or_empty "reply_policy" (dget "reply_policy" d);
  retry_policy ← dict_or_empty "retry_policy" (dget "retry_policy" d);
  priority ← py_int (dget_or "priority" (PInt 100) d);
  payload_ref ← opt_str "payload_ref" (dget "payload_ref" d);
  submission_id ← opt_str "submission_id" (dget "submission_id" d);
  created_at ← py_str_or_empty (dget "created_at" d);
  updated_at ← py_str_or_empty (dget "updated_at" d);
  state ← (py_str (dget_or "message_state" (PStr (message_state_value MSt_created)) d)
             ≫= message_state_of);
  normalize_message_record
    (mkMessage message_id origin from_actor target_scope agents message_class reply_policy
       retry_policy priority payload_ref submission_id created_at updated_at state).

Definition attempt_to_record (a : AttemptRecord) : pydict :=
  [ ("schema_version", PInt bureau_schema_version);
    ("record_type", PStr "attempt_record");
    ("attempt_id", PStr (at_attempt_id a));
    ("message_id", PStr (at_message_id a));
    ("agent_name", PStr (at_agent_name a));
    ("provider", PStr (at_provider a));
    ("job_id", PStr (at_job_id a));
    ("retry_index", PInt (at_retry_index a));
    ("health_snapshot_ref", of_opt_str (at_health_snapshot_ref a));
    ("started_at", PStr (at_started_at a));
    ("updated_at", PStr (at_updated_at a));
    ("attempt_state", PStr (attempt_state_value (at_attempt_state a))) ].

Definition attempt_from_record (d : pydict) : result AttemptRecord :=
  _ ← validate_record bureau_schema_version "attempt_record" d;
  attempt_id ← str_at "attempt_id" d;
  message_id ← str_at "message_id" d;
  agent_name ← str_at "agent_name" d;
  provider ← str_at "provider" d;
  job_id ← str_at "job_id" d;
  retry_index ← py_int (dget_or "retry_index" (PInt 0) d);
  health ← opt_str "health_snapshot_ref" (dget "health_snapshot_ref" d);
  started_at ← py_str_or_empty (dget "started_at" d);
  updated_at ← py_str_or_empty (dget "updated_at" d);
  state ← (py_str (dget_or "attempt_state" (PStr (attempt_state_value AS_pending)) d)
             ≫= attempt_state_of);
  normalize_attempt_record
    (mkAttempt attempt_id message_id agent_name provider job_id retry_index health started_at
       updated_at state).

Definition reply_to_record (r : ReplyRecord) : pydict :=
  [ ("schema_version", PInt bureau_schema_version);
    ("record_type", PStr "reply_record");
    ("reply_id", PStr (rr_reply_id r));
    ("message_id", PStr (rr_message_id r));
    ("attempt_id", PStr (rr_attempt_id r));
    ("agent_name", PStr (rr_agent_name r));
    ("terminal_status", PStr (reply_status_value (rr_terminal_status r)));
    ("reply", PStr (rr_reply r));
    ("reply_artifact", match rr_reply_artifact r with
                       | Some ((_ :: _) as d) => PDict d
                       | _ => PNone
                       end);
    ("diagnostics", PDict (rr_diagnostics r));
    ("finished_at", PStr (rr_finished_at r)) ].

Definition reply_from_record (d : pydict) : result ReplyRecord :=
  _ ← validate_record bureau_schema_version "reply_record" d;
  reply_id ← str_at "reply_id" d;
  message_id ← str_at "message_id" d;
  attempt_id ← str_at "attempt_id" d;
  agent_name ← str_at "agent_name" d;
  status ← (py_str (dget_or "terminal_status" (PStr (reply_status_value RT_completed)) d)
              ≫= reply_status_of);
  reply ← py_str_or_empty (dget "reply" d);
  diagnostics ← dict_or_empty "diagnostics" (dget "diagnostics" d);
  finished_at ← py_str_or_empty (dget "finished_at" d);
  normalize_reply_record
    (mkReply reply_id message_id attempt_id agent_name status reply
       (dict_if_dict (dget "reply_artifact" d)) diagnostics finished_at).

Definition edge_to_record (e : CallbackEdgeRecord) : pydict :=
  [ ("schema_version", PInt bureau_schema_version);
    ("record_type", PStr "callback_edge");
    ("edge_id", PStr (ce_edge_id e));
    ("parent_job_id", PStr (ce_parent_job_id e));
    ("parent_message_id", PStr (ce_parent_message_id e));
    ("parent_agent", PStr (ce_parent_agent e));
    ("child_job_id", PStr (ce_child_job_id e));
    ("child_message_id", PStr (ce_child_message_id e));
    ("callback_target_agent", PStr (ce_callback_target_agent e));
    ("original_caller", PStr (ce_original_caller e));
    ("original_task_id", of_opt_str (ce_original_task_id e));
    ("state", PStr (edge_state_value (ce_state e)));
    ("child_reply_id", of_opt_str (ce_child_reply_id e));
    ("child_status", of_opt_str (ce_child_status e));
    ("continuation_job_id", of_opt_str (ce_continuation_job_id e));
    ("continuation_message_id", of_opt_str (ce_continuation_message_id e));
    ("timeout_at", of_opt_str (ce_timeout_at e));
    ("created_at", PStr (ce_created_at e));
    ("updated_at", PStr (ce_updated_at e));
    ("diagnostics", PDict (ce_diagnostics e)) ].

Definition edge_from_record (d : pydict) : result CallbackEdgeRecord :=
  version ← py_int (py_or (dget "schema_version" d) (PInt 0));
  _ ← raise_if (negb (version =? bureau_schema_version)) (ValueError "schema_version must be 1");
  _ ← raise_if (negb (py_eq_str (dget "record_type" d) "callback_edge"))
        (ValueError "record_type must be 'callback_edge'");
  edge_id ← str_at "edge_id" d;
  parent_job_id ← str_at "parent_job_id" d;
  parent_message_id ← str_at "parent_message_id" d;
  parent_agent ← str_at "parent_agent" d;
  child_job_id ← str_at "child_job_id" d;
  child_message_id ← str_at "child_message_id" d;
  target ← str_at "callback_target_agent" d;
  caller ← str_at "original_caller" d;
  task_id ← opt_str "original_task_id" (dget "original_task_id" d);
  state ← edge_state_of (dget_or "state" (PStr (edge_state_value CE_pending)) d);
  child_reply_id ← opt_str "child_reply_id" (dget "child_reply_id" d);
  child_status ← opt_str "child_status" (dget "child_status" d);
  continuation_job_id ← opt_str "continuation_job_id" (dget "continuation_job_id" d);
  continuation_message_id ← opt_str "continuation_message_id" (dget "continuation_message_id" d);
  timeout_at ← opt_str "timeout_at" (dget "timeout_at" d);
  created_at ← py_str_or_empty (dget "created_at" d);
  updated_at ← py_str_or_empty (dget "updated_at" d);
  diagnostics ← dict_or_empty "diagnostics" (dget "diagnostics" d);
  edge_post_init
    (mkEdge edge_id parent_job_id parent_message_id parent_agent child_job_id child_message_id
       target caller task_id state child_reply_id child_status continuation_job_id
       continuation_message_id timeout_at created_at updated_at diagnostics).

#[export] Instance message_codec : Codec MessageRecord :=
  {| post_init := normalize_message_record;
     to_record := message_to_record; from_record := message_from_record |}.
#[export] Instance attempt_codec : Codec AttemptRecord :=
  {| post_init := normalize_attempt_record;
     to_record := attempt_to_record; from_record := attempt_from_record |}.
#[export] Instance reply_codec : Codec ReplyRecord :=
  {| post_init := normalize_reply_record;
     to_record := reply_to_record; from_record := reply_from_record |}.
#[export] Instance edge_codec : Codec CallbackEdgeRecord :=
  {| post_init := edge_post_init; to_record := edge_to_record; from_record := edge_from_record |}.

(** ** The codec laws *)
Lemma message_state_of_value s : message_state_of (message_state_value s) = Ok s.
Proof. by destruct s. Qed.
Lemma attempt_state_of_value s : attempt_state_of (attempt_state_value s) = Ok s.
Proof. by destruct s. Qed.
Lemma reply_status_of_value s : reply_status_of (reply_status_value s) = Ok s.
Proof. by destruct s. Qed.
Lemma edge_state_of_value s : edge_state_of (PStr (edge_state_value s)) = Ok s.
Proof. by destruct s. Qed.

Lemma agents_idem l l' :
  mapM normalize_agent_name l = Ok l' → mapM normalize_agent_name l' = Ok l'.
Proof.
  revert l'. induction l as [|x l IH]; cbn; intros l' H; inv_result; [by subst|].
  subst l'. cbn. by rewrite (normalize_agent_name_idem' _ _ H0), (IH _ H1).
Qed.
Lemma agents_nonempty l l' :
  mapM normalize_agent_name l = Ok l' → l ≠ [] → l' ≠ [].
Proof. destruct l; cbn; [done|]. intros H _. inv_result. by subst. Qed.

Lemma agent_nonempty x n : normalize_agent_name x = Ok n → n ≠ "".
Proof. by intros (_ & ? & _)%normalize_agent_name_inv. Qed.

Ltac replay_values := unfold require_value in *; replay_guards.

Lemma normalize_message_valid m m' :
  normalize_message_record m = Ok m' → normalize_message_record m' = Ok m'.
Proof.
  unfold normalize_message_record, require_value. intros H. inv_result.
  match goal with Ha : normalize_actor_name _ = Ok _, Hl : mapM _ _ = Ok _,
    Hne : (_ =ˢ []) = false |- _ =>
    pose proof (actor_idem _ _ Ha) as Ha';
    pose proof (actor_nonempty _ _ Ha) as ?%bool_decide_ne;
    apply bool_decide_eq_false in Hne;
    pose proof (agents_nonempty _ _ Hl Hne) as ?%bool_decide_ne;
    pose proof (agents_idem _ _ Hl) as Hl'
  end.
  subst m'. cbn -[raise_if normalize_actor_name mapM]. replay_guards.
  by rewrite Ha', result_bind_ok, Hl', result_bind_ok.
Qed.

Lemma normalize_attempt_valid a a' :
  normalize_attempt_record a = Ok a' → normalize_attempt_record a' = Ok a'.
Proof.
  unfold normalize_attempt_record, require_value. intros H. inv_result.
  match goal with Ha : normalize_agent_name _ = Ok _ |- _ =>
    pose proof (normalize_agent_name_idem' _ _ Ha) as Ha';
    pose proof (agent_nonempty _ _ Ha) as ?%bool_decide_ne end.
  subst a'. cbn -[raise_if normalize_agent_name]. replay_guards. by rewrite Ha', result_bind_ok.
Qed.

Lemma normalize_reply_valid r r' :
  normalize_reply_record r = Ok r' → normalize_reply_record r' = Ok r'.
Proof.
  unfold normalize_reply_record, require_value. intros H. inv_result.
  match goal with Ha : normalize_agent_name _ = Ok _ |- _ =>
    pose proof (normalize_agent_name_idem' _ _ Ha) as Ha';
    pose proof (agent_nonempty _ _ Ha) as ?%bool_decide_ne end.
  subst r'. cbn -[raise_if normalize_agent_name]. replay_guards. by rewrite Ha', result_bind_ok.
Qed.

Lemma edge_post_init_valid e e' : edge_post_init e = Ok e' → edge_post_init e' = Ok e'.
Proof. unfold edge_post_init, require_value. intros H. inv_result. subst e'. by replay_guards. Qed.

Ltac run_bureau_loader :=
  rewrite ?validate_record_ok by reflexivity; dict_simpl;
  repeat first
    [ progress rewrite ?result_bind_ok, ?message_state_of_value, ?attempt_state_of_value,
        ?reply_status_of_value, ?edge_state_of_value, ?dict_or_empty_of, ?py_str_or_empty_str,
        ?opt_str_of
    | progress cbn [py_str py_int] ].

Lemma message_from_to' m :
  normalize_message_record m = Ok m → message_from_record (message_to_record m) = Ok m.
Proof.
  intros Hv. assert (mr_target_agents m ≠ [] ∧ mr_message_class m ≠ "") as [Hne Hc].
  { unfold normalize_message_record, require_value in Hv. inv_result.
    by repeat match goal with E : bool_decide _ = false |- _ => apply bool_decide_eq_false in E end. }
  unfold message_from_record, message_to_record. run_bureau_loader.
  replace (py_or (PList (PStr <$> mr_target_agents m)) (PList []))
    with (PList (PStr <$> mr_target_agents m)) by (by destruct (mr_target_agents m)).
  rewrite str_list_of. run_bureau_loader. rewrite py_or_str by done. run_bureau_loader.
  by destruct m.
Qed.

Lemma attempt_from_to' a :
  normalize_attempt_record a = Ok a → attempt_from_record (attempt_to_record a) = Ok a.
Proof.
  intros Hv. unfold attempt_from_record, attempt_to_record. run_bureau_loader. by destruct a.
Qed.

Definition reply_without_empty_artifact (r : ReplyRecord) : ReplyRecord :=
  mkReply (rr_reply_id r) (rr_message_id r) (rr_attempt_id r) (rr_agent_name r)
    (rr_terminal_status r) (rr_reply r)
    (match rr_reply_artifact r with Some [] => None | x => x end) (rr_diagnostics r)
    (rr_finished_at r).

Lemma reply_from_to' r :
  normalize_reply_record r = Ok r →
  reply_from_record (reply_to_record r) = Ok (reply_without_empty_artifact r).
Proof.
  intros Hv. unfold reply_from_record, reply_to_record. run_bureau_loader.
  replace (dict_if_dict _) with (match rr_reply_artifact r with Some [] => None | x => x end)
    by by destruct (rr_reply_artifact r) as [[]|].
  unfold normalize_reply_record, require_value in *. cbn -[raise_if normalize_agent_name] in *.
  inv_result. replay_guards.
  match goal with Ha : normalize_agent_name _ = Ok _ |- _ => rewrite Ha end. cbn.
  apply (f_equal rr_agent_name) in Hv. cbn in Hv. unfold reply_without_empty_artifact. by rewrite Hv.
Qed.

Lemma edge_from_to' e :
  edge_post_init e = Ok e → edge_from_record (edge_to_record e) = Ok e.
Proof. intros Hv. unfold edge_from_record, edge_to_record. run_bureau_loader. cbn [py_or]. by destruct e. Qed.

Ltac bureau_loader_valid lem :=
  let H := fresh in
  intros H; unfold from_record in H; cbn in H;
  repeat match type of H with (_ ≫= _) = Ok _ => apply result_bind_Ok_inv in H as (? & _ & H) end;
  by apply lem in H.

#[export] Instance message_codec_laws : CodecLaws MessageRecord.
Proof.
  split; [exact normalize_message_valid| |exact message_from_to'].
  intros d m. unfold from_record, message_codec, message_from_record. bureau_loader_valid normalize_message_valid.
Qed.
#[export] Instance attempt_codec_laws : CodecLaws AttemptRecord.
Proof.
  split; [exact normalize_attempt_valid| |exact attempt_from_to'].
  intros d m. unfold from_record, attempt_codec, attempt_from_record. bureau_loader_valid normalize_attempt_valid.
Qed.
#[export] Instance edge_codec_laws : CodecLaws CallbackEdgeRecord.
Proof.
  split; [exact edge_post_init_valid| |exact edge_from_to'].
  intros d m. unfold from_record, edge_codec, edge_from_record. bureau_loader_valid edge_post_init_valid.
Qed.

(** Storing what was loaded loses nothing.  Whatever JSON object the loader
    of a message, an attempt, a callback edge or a reply accepts, the record it
    returns satisfies its constructor (normal agent names, no empty id, no
    negative priority or retry index), and the JSON written for that record
    loads to the same record; a reply's empty artifact is read back as none. *)
Theorem bureau_records_reload :
  (∀ d r, message_from_record d = Ok r →
     normalize_message_record r = Ok r ∧ message_from_record (message_to_record r) = Ok r) ∧
  (∀ d r, attempt_from_record d = Ok r →
     normalize_attempt_record r = Ok r ∧ attempt_from_record (attempt_to_record r) = Ok r) ∧
  (∀ d r, edge_from_record d = Ok r →
     edge_post_init r = Ok r ∧ edge_from_record (edge_to_record r) = Ok r) ∧
  (∀ d r, reply_from_record d = Ok r →
     normalize_reply_record r = Ok r ∧
     reply_from_record (reply_to_record r) = Ok (reply_without_empty_artifact r)).
Proof.
  split_and!; [exact (codec_reloads (A:=MessageRecord))|exact (codec_reloads (A:=AttemptRecord))|
    exact (codec_reloads (A:=CallbackEdgeRecord))|].
  intros d r Hd.
  assert (normalize_reply_record r = Ok r) as Hv.
  { revert Hd. unfold reply_from_record. bureau_loader_valid normalize_reply_valid. }
  split; [done|]. by apply reply_from_to'.
Qed.

Definition demo_message_dict : pydict :=
  [ ("schema_version", PInt 1); ("record_type", PStr "message_record");
    ("message_id", PStr "msg_1"); ("from_actor", PStr "User"); ("target_scope", PStr "single");
    ("target_agents", PList [PStr "Agent1"]); ("priority", PStr "10") ].

Lemma bureau_records_reload_witness :
  ∃ r, message_from_record demo_message_dict = Ok r ∧ mr_target_agents r = ["agent1"] ∧
       message_from_record (message_to_record r) = Ok r.
Proof.
  eexists. split; [vm_compute; reflexivity|]. split; [reflexivity|].
  apply (proj1 bureau_records_reload demo_message_dict). vm_compute. reflexivity.
Defined.
