(* ===== verification/Bureau.v ===== *)
(** * The message bureau

    [message_bureau/store.py], [reply_payloads.py], [facade.py],
    [facade_state.py] and [facade_recording_*.py]: the logs of messages,
    attempts, replies and callback edges, and what the bureau records when a
    request is submitted, retried, started, finished and answered.  It delivers
    through the mailbox kernel.  Definitions only; the theorems are in
    [BureauTheorems]. *)
From S2P Require Import Prelude PyValue Names MailboxModels MailboxKernel MailboxRefinement.
From S2P Require Import CompletionModels JobModels BureauModels.
Open Scope string_scope.
Open Scope list_scope.
Open Scope Z_scope.

(** ** Payload references *)
Fixpoint drop_chars (n : nat) (s : string) : string :=
  match n, s with
  | O, _ => s
  | S n, String _ s' => drop_chars n s'
  | S _, "" => ""
  end.

(** [s.replace(';', ' ')]. *)
Definition semicolons_to_spaces (s : string) : string :=
  string_map (λ c, if (code c =? 59)%nat then ascii_of_nat 32 else c) s.

(** [s.split()]: [token] is the token being read. *)
Fixpoint split_words (token s : string) : list string :=
  let done := if token =ˢ "" then [] else [token] in
  match s with
  | "" => done
  | String c s' =>
      if is_space c then done ++ split_words "" s' else split_words (token +:+ String c "") s'
  end.

Definition reply_prefix : string := "reply:".
Definition delivery_prefix : string := "delivery:".

Definition compose_reply_payload (reply_id : string) (delivery_job_id : option string)
    : result string :=
  let normalized_reply_id := strip reply_id in
  _ ← raise_if (normalized_reply_id =ˢ "") (ValueError "reply_id cannot be empty");
  let parts := [reply_prefix +:+ normalized_reply_id] in
  let normalized_delivery_job_id := strip (default "" delivery_job_id) in
  mret (join " " (if normalized_delivery_job_id =ˢ "" then parts
                  else parts ++ [delivery_prefix +:+ normalized_delivery_job_id])).

Definition value_for_prefix (payload_ref : option string) (prefix : string) : option string :=
  let text := strip (default "" payload_ref) in
  if text =ˢ "" then None
  else match List.find (String.prefix prefix) (split_words "" (semicolons_to_spaces text)) with
       | Some token => or_none (strip (drop_chars (String.length prefix) token))
       | None => None
       end.
Definition reply_id_from_payload (payload_ref : option string) : option string :=
  value_for_prefix payload_ref reply_prefix.
Definition delivery_job_id_from_payload (payload_ref : option string) : option string :=
  value_for_prefix payload_ref delivery_prefix.

Definition job_id_from_payload_ref (payload_ref : option string) : option string :=
  let text := strip (default "" payload_ref) in
  if negb (String.prefix "job:" text) then None
  else or_none (strip (drop_chars 4 text)).

(** ** State

    The mailbox files, the logs of the bureau, and how many identifiers were
    drawn.  [uuid_hex12 n] is the [n]-th [uuid4().hex[:12]]. *)
Class Uuids := uuid_hex12 : nat → string.

Record bureau := mkBureau {
  br_kernel : kernel;
  br_messages : list MessageRecord;
  br_attempts : list AttemptRecord;
  br_replies : list ReplyRecord;
  br_edges : list CallbackEdgeRecord;
  br_uuids : nat
}.
Abbreviation B := (ST bureau).

Definition with_kernel (k : kernel) (b : bureau) : bureau :=
  mkBureau k (br_messages b) (br_attempts b) (br_replies b) (br_edges b) (br_uuids b).
Definition in_kernel {A} (m : K A) : B A := λ b,
  let '(r, k) := m (br_kernel b) in (r, with_kernel k b).

Definition new_id `{Uuids} (prefix : string) : B string := λ b,
  (Ok (prefix +:+ "_" +:+ uuid_hex12 (br_uuids b)),
   mkBureau (br_kernel b) (br_messages b) (br_attempts b) (br_replies b) (br_edges b)
     (S (br_uuids b))).

(** ** Stores

    [append] runs the constructor of the record that is written; a row is read
    back as [BureauModels] shows. *)
Definition message_append (m : MessageRecord) : B unit :=
  m ← st_lift (normalize_message_record m);
  st_modify (λ b, mkBureau (br_kernel b) (br_messages b ++ [m]) (br_attempts b) (br_replies b)
                    (br_edges b) (br_uuids b)).
Definition attempt_append (a : AttemptRecord) : B unit :=
  a ← st_lift (normalize_attempt_record a);
  st_modify (λ b, mkBureau (br_kernel b) (br_messages b) (br_attempts b ++ [a]) (br_replies b)
                    (br_edges b) (br_uuids b)).
Definition reply_append (r : ReplyRecord) : B unit :=
  r ← st_lift (normalize_reply_record r);
  st_modify (λ b, mkBureau (br_kernel b) (br_messages b) (br_attempts b)
                    (br_replies b ++ [reply_without_empty_artifact r]) (br_edges b) (br_uuids b)).
Definition edge_append (e : CallbackEdgeRecord) : B unit :=
  e ← st_lift (edge_post_init e);
  st_modify (λ b, mkBureau (br_kernel b) (br_messages b) (br_attempts b) (br_replies b)
                    (br_edges b ++ [e]) (br_uuids b)).

Definition message_latest (b : bureau) (message_id : string) : option MessageRecord :=
  find_last (λ m, mr_message_id m =ˢ message_id) (br_messages b).
Definition attempt_latest (b : bureau) (attempt_id : string) : option AttemptRecord :=
  find_last (λ a, at_attempt_id a =ˢ attempt_id) (br_attempts b).
Definition attempt_latest_by_job (b : bureau) (job_id : string) : option AttemptRecord :=
  find_last (λ a, at_job_id a =ˢ job_id) (br_attempts b).
Definition attempts_of_message (b : bureau) (message_id : string) : list AttemptRecord :=
  List.filter (λ a, at_message_id a =ˢ message_id) (br_attempts b).
Definition reply_latest (b : bureau) (reply_id : string) : option ReplyRecord :=
  find_last (λ r, rr_reply_id r =ˢ reply_id) (br_replies b).
Definition replies_of_message (b : bureau) (message_id : string) : list ReplyRecord :=
  List.filter (λ r, rr_message_id r =ˢ message_id) (br_replies b).
Definition edge_get_latest (b : bureau) (edge_id : string) : option CallbackEdgeRecord :=
  find_last (λ e, ce_edge_id e =ˢ edge_id) (br_edges b).
Definition edge_for_child_job (b : bureau) (child_job_id : string) : option CallbackEdgeRecord :=
  find_last (λ e, ce_child_job_id e =ˢ child_job_id) (br_edges b).
Definition edge_for_child_message (b : bureau) (child_message_id : string)
    : option CallbackEdgeRecord :=
  find_last (λ e, ce_child_message_id e =ˢ child_message_id) (br_edges b).
Definition edge_for_parent_job (b : bureau) (parent_job_id : string) : option CallbackEdgeRecord :=
  find_last (λ e, ce_parent_job_id e =ˢ parent_job_id) (br_edges b).
Definition edge_continuation (b : bureau) (edge_id : string) : option CallbackEdgeRecord :=
  find_last (λ e, (ce_edge_id e =ˢ edge_id)
                  && negb (strip (default "" (ce_continuation_job_id e)) =ˢ "")) (br_edges b).

(** A dict of the last row per key, in the order of the first. *)
Fixpoint put_last {A} (key : A → string) (x : A) (l : list A) : list A :=
  match l with
  | [] => [x]
  | y :: l' => if key y =ˢ key x then x :: l' else y :: put_last key x l'
  end.
Definition last_by {A} (key : A → string) (l : list A) : list A :=
  foldl (λ acc x, put_last key x acc) [] l.

Definition latest_attempts_for_message (b : bureau) (message_id : string) : list AttemptRecord :=
  last_by at_attempt_id (attempts_of_message b message_id).

(** ** The state of a message *)
Definition terminal_attempt_state (s : AttemptState) : bool :=
  bool_decide (s ∈ [AS_completed; AS_incomplete; AS_failed; AS_cancelled; AS_superseded;
                    AS_dead_letter]).
Definition active_attempts (attempts : list AttemptRecord) : list AttemptRecord :=
  List.filter (λ a, negb (terminal_attempt_state (at_attempt_state a))) attempts.

Definition is_notice (r : ReplyRecord) : bool := py_bool (dget "notice" (rr_diagnostics r)).
Definition terminal_replies (replies : list ReplyRecord) : list ReplyRecord :=
  let terminal := List.filter (λ r, negb (is_notice r)) replies in
  match terminal with [] => replies | _ => terminal end.

(** [mapping.get(frozenset(statuses), INCOMPLETE)], where the keys of [mapping]
    are singletons: every status is the first one and it is mapped. *)
Definition singleton_state {S} `{EqDecision S} (mapping : S → option MessageState)
    (statuses : list S) : MessageState :=
  match statuses with
  | [] => MSt_incomplete
  | s :: rest =>
      if List.forallb (λ x, bool_decide (x = s)) rest then default MSt_incomplete (mapping s)
      else MSt_incomplete
  end.
Definition reply_state_mapping (s : ReplyTerminalStatus) : option MessageState :=
  Some (match s with
        | RT_completed => MSt_completed | RT_cancelled => MSt_cancelled
        | RT_failed => MSt_failed | RT_incomplete => MSt_incomplete
        end).
Definition attempt_state_mapping (s : AttemptState) : option MessageState :=
  match s with
  | AS_completed => Some MSt_completed | AS_cancelled => Some MSt_cancelled
  | AS_failed => Some MSt_failed | AS_incomplete => Some MSt_incomplete
  | _ => None
  end.
Definition reply_terminal_state (statuses : list ReplyTerminalStatus) : MessageState :=
  singleton_state reply_state_mapping statuses.
Definition attempt_terminal_state (statuses : list AttemptState) : MessageState :=
  singleton_state attempt_state_mapping statuses.

Definition next_message_state (active attempts : list AttemptRecord) (replies : list ReplyRecord)
    : MessageState :=
  match active with
  | _ :: _ => match replies with [] => MSt_running | _ => MSt_partially_replied end
  | [] =>
      match terminal_replies replies with
      | [] => attempt_terminal_state (at_attempt_state <$> attempts)
      | terminal => reply_terminal_state (rr_terminal_status <$> terminal)
      end
  end.

Definition set_message_state (message_id : string) (next_state : MessageState)
    (updated_at : string) : B unit :=
  current ← st_gets (λ b, message_latest b message_id);
  match current with
  | None => mret tt
  | Some m =>
      if bool_decide (mr_message_state m = next_state) then mret tt
      else message_append
             (mkMessage (mr_message_id m) (mr_origin_message_id m) (mr_from_actor m)
                (mr_target_scope m) (mr_target_agents m) (mr_message_class m) (mr_reply_policy m)
                (mr_retry_policy m) (mr_priority m) (mr_payload_ref m) (mr_submission_id m)
                (mr_created_at m) updated_at next_state)
  end.

Definition refresh_message_state (message_id updated_at : string) : B unit :=
  message ← st_gets (λ b, message_latest b message_id);
  match message with
  | None => mret tt
  | Some _ =>
      attempts ← st_gets (λ b, latest_attempts_for_message b message_id);
      match attempts with
      | [] => mret tt
      | _ =>
          replies ← st_gets (λ b, replies_of_message b message_id);
          set_message_state message_id
            (next_message_state (active_attempts attempts) attempts replies) updated_at
      end
  end.

Definition next_retry_index (message_id agent_name : string) : B Z :=
  normalized ← st_lift (normalize_agent_name agent_name);
  records ← st_gets (λ b, attempts_of_message b message_id);
  mret (foldl (λ latest a, if at_agent_name a =ˢ normalized then Z.max latest (at_retry_index a)
                           else latest) (-1) records + 1).

Definition resolve_origin_message_id (reply_to : option string) : B (option string) :=
  let key := strip (default "" reply_to) in
  if key =ˢ "" then mret None
  else
    b ← st_gets (λ b, b);
    mret match attempt_latest b key with
         | Some a => Some (at_message_id a)
         | None =>
             match attempt_latest_by_job b key with
             | Some a => Some (at_message_id a)
             | None => mr_message_id <$> message_latest b key
             end
         end.

(** ** Recording *)
Definition attempt_state_for_status (s : JobStatus) : AttemptState :=
  match s with
  | JS_completed => AS_completed | JS_failed => AS_failed | JS_incomplete => AS_incomplete
  | JS_cancelled => AS_cancelled | _ => AS_incomplete
  end.
Definition reply_status_for_job (s : JobStatus) : ReplyTerminalStatus :=
  match s with
  | JS_completed => RT_completed | JS_failed => RT_failed | JS_incomplete => RT_incomplete
  | JS_cancelled => RT_cancelled | _ => RT_incomplete
  end.

Definition delivered_reply_text (job : JobRecord) (decision : CompletionDecision) : string :=
  if negb (bool_decide (jb_status job = JS_completed)) then cd_reply decision
  else if negb (me_silence_on_success (jb_request job)) then cd_reply decision
  else
    let task_id := strip (default "" (me_task_id (jb_request job))) in
    join " "
      (["CCB_COMPLETE"; "from=" +:+ jb_agent_name job;
        "status=" +:+ job_status_value (jb_status job); "job=" +:+ jb_job_id job]
       ++ (if task_id =ˢ "" then [] else ["task=" +:+ task_id]) ++ ["result=hidden"]).

Definition with_attempt_state (started updated : string) (s : AttemptState) (a : AttemptRecord)
    : AttemptRecord :=
  mkAttempt (at_attempt_id a) (at_message_id a) (at_agent_name a) (at_provider a) (at_job_id a)
    (at_retry_index a) (at_health_snapshot_ref a) started updated s.

Definition terminal_inbound_status (s : InboundEventStatus) : bool :=
  bool_decide (s ∈ [ES_consumed; ES_superseded; ES_abandoned]).

Section recording.
Context `{Clock} `{Uuids} (known_mailboxes : gset string).

(** The event that is delivered, then the mailbox summary: the two statements
    at each place where the bureau delivers. *)
Definition queue_event (agent_name : string) (ty : InboundEventType) (message_id attempt_id : string)
    (payload_ref : result string) (priority pending_reply_delta : Z) (at_ : string) : B unit :=
  event_id ← new_id "iev";
  payload ← st_lift payload_ref;
  event ← st_lift (normalize_inbound_event_record
    (mkEvent event_id agent_name ty message_id (Some attempt_id) (Some payload) priority
       ES_queued at_ None None));
  _ ← in_kernel (enqueue_event agent_name event pending_reply_delta (Some at_));
  mret tt.

Definition reply_policy_of (request : MessageEnvelope) (jobs : list JobRecord) : pydict :=
  [ ("mode", PStr (if (1 <? length jobs)%nat then "all" else "single"));
    ("expected_reply_count", PInt (Z.of_nat (length jobs)));
    ("silence_on_success", PBool (me_silence_on_success request)) ].
Definition default_retry_policy : pydict :=
  [ ("mode", PStr "auto");
    ("max_attempts", PInt 3);
    ("retryable_reasons", PList [PStr "api_error"; PStr "transport_error"]);
    ("retry_runtime_when_resume_supported", PBool true);
    ("retryable_runtime_reasons", PList [PStr "pane_dead"; PStr "pane_unavailable"]) ].

(** One attempt of a message at an agent: its record and its request event. *)
Definition record_attempt (message_id : string) (retry_index : Z) (accepted_at : string)
    (job : JobRecord) : B string :=
  attempt_id ← new_id "att";
  _ ← attempt_append
    (mkAttempt attempt_id message_id (jb_agent_name job) (jb_provider job) (jb_job_id job)
       retry_index None accepted_at accepted_at AS_pending);
  _ ← queue_event (jb_agent_name job) ET_task_request message_id attempt_id
    (Ok ("job:" +:+ jb_job_id job)) 100 0 accepted_at;
  mret attempt_id.

Fixpoint record_attempts (message_id accepted_at : string) (jobs : list JobRecord) : B unit :=
  match jobs with
  | [] => mret tt
  | job :: rest =>
      _ ← record_attempt message_id 0 accepted_at job;
      record_attempts message_id accepted_at rest
  end.

Definition record_submission (request : MessageEnvelope) (jobs : list JobRecord)
    (submission_id : option string) (accepted_at : string) (origin_message_id : option string)
    : B (option string) :=
  match jobs with
  | [] => mret None
  | _ =>
      message_id ← new_id "msg";
      origin ← (if truthy origin_message_id then mret origin_message_id
                else resolve_origin_message_id (me_reply_to request));
      _ ← message_append
        (mkMessage message_id origin (me_from_actor request)
           (delivery_scope_value (me_delivery_scope request)) (jb_agent_name <$> jobs)
           (me_message_type request) (reply_policy_of request jobs) default_retry_policy 100 None
           submission_id accepted_at accepted_at MSt_queued);
      _ ← record_attempts message_id accepted_at jobs;
      mret (Some message_id)
  end.

Definition claimable_request_job_ids (agent_name : string) : B (list string) :=
  event ← in_kernel (peek_next agent_name (Some ET_task_request));
  match event with
  | None => mret []
  | Some e =>
      match job_id_from_payload_ref (ie_payload_ref e) with
      | Some job_id => if job_id =ˢ "" then mret [] else mret [job_id]
      | None => mret []
      end
  end.

Definition record_retry_attempt (message_id : string) (job : JobRecord) (accepted_at : string)
    : B string :=
  message ← st_gets (λ b, message_latest b message_id);
  _ ← st_lift (raise_if (bool_decide (message = None))
                 (ValueError ("message not found: " +:+ message_id)));
  retry_index ← next_retry_index message_id (jb_agent_name job);
  attempt_id ← record_attempt message_id retry_index accepted_at job;
  _ ← set_message_state message_id MSt_queued accepted_at;
  mret attempt_id.

Definition resolve_inbound_for_attempt_start (job : JobRecord) (attempt_id : string)
    : B (option InboundEventRecord) :=
  let by_attempt := in_kernel (get_latest_for_attempt (jb_agent_name job) attempt_id) in
  if (lower (strip (me_message_type (jb_request job))) =ˢ "reply_delivery")
     || py_bool (dget "reply_delivery" (jb_provider_options job))
  then
    raw ← st_lift (py_str_or_empty
                     (dget "reply_delivery_inbound_event_id" (jb_provider_options job)));
    if strip raw =ˢ "" then by_attempt
    else
      inbound ← in_kernel (get_latest (jb_agent_name job) (strip raw));
      match inbound with Some e => mret (Some e) | None => by_attempt end
  else by_attempt.

Definition rebuild_summary (agent_name updated_at : string) : B unit :=
  _ ← in_kernel (rebuild_mailbox_summary agent_name (Some updated_at)); mret tt.

Definition mark_attempt_started (job : JobRecord) (started_at : string) : B unit :=
  attempt ← st_gets (λ b, attempt_latest_by_job b (jb_job_id job));
  match attempt with
  | None => mret tt
  | Some a =>
      _ ← attempt_append
        (with_attempt_state (str_or (Some (at_started_at a)) started_at) started_at AS_running a);
      inbound ← resolve_inbound_for_attempt_start job (at_attempt_id a);
      mailbox_updated ←
        match inbound with
        | Some e =>
            if terminal_inbound_status (ie_status e) then mret false
            else if bool_decide (ie_status e = ES_delivering) then mret true
            else (_ ← in_kernel (claim (jb_agent_name job) (ie_inbound_event_id e) (Some started_at));
                  mret true)
        | None => mret false
        end;
      _ ← set_message_state (at_message_id a) MSt_running started_at;
      if mailbox_updated : bool then mret tt
      else rebuild_summary (jb_agent_name job) started_at
  end.

Definition record_attempt_terminal (job : JobRecord) (finished_at : string) : B unit :=
  attempt ← st_gets (λ b, attempt_latest_by_job b (jb_job_id job));
  match attempt with
  | None => mret tt
  | Some a =>
      _ ← attempt_append
        (with_attempt_state (at_started_at a) finished_at (attempt_state_for_status (jb_status job)) a);
      inbound ← in_kernel (get_latest_for_attempt (jb_agent_name job) (at_attempt_id a));
      _ ←
        match inbound with
        | Some e =>
            if terminal_inbound_status (ie_status e)
            then rebuild_summary (jb_agent_name job) finished_at
            else if bool_decide (ie_status e ∈ [ES_created; ES_queued])
                    && bool_decide (jb_status job = JS_cancelled)
            then (_ ← in_kernel (abandon (jb_agent_name job) (ie_inbound_event_id e) (Some finished_at));
                  mret tt)
            else (_ ← in_kernel (consume (jb_agent_name job) (ie_inbound_event_id e) (Some finished_at));
                  mret tt)
        | None => rebuild_summary (jb_agent_name job) finished_at
        end;
      refresh_message_state (at_message_id a) finished_at
  end.

Definition queue_reply_delivery (caller_mailbox message_id attempt_id reply_id finished_at : string)
    : B unit :=
  queue_event caller_mailbox ET_task_reply message_id attempt_id
    (compose_reply_payload reply_id None) 10 1 finished_at.

Definition mailbox_actor (actor : string) : option string :=
  normalize_mailbox_target (Some actor) known_mailboxes.

Definition reply_diagnostics (job : JobRecord) (decision : CompletionDecision) : pydict :=
  [ ("reason", of_opt_str (cd_reason decision));
    ("status", PStr (job_status_value (jb_status job)));
    ("provider_turn_ref", of_opt_str (cd_provider_turn_ref decision));
    ("decision_diagnostics", PDict (cd_diagnostics decision));
    ("silence_on_success", PBool (me_silence_on_success (jb_request job))) ].

Definition record_reply (job : JobRecord) (decision : CompletionDecision) (finished_at : string)
    (deliver_to_caller : bool) : B (option string) :=
  attempt ← st_gets (λ b, attempt_latest_by_job b (jb_job_id job));
  match attempt with
  | None => mret None
  | Some a =>
      reply_id ← new_id "rep";
      _ ← reply_append
        (mkReply reply_id (at_message_id a) (at_attempt_id a) (jb_agent_name job)
           (reply_status_for_job (jb_status job)) (delivered_reply_text job decision)
           (dict_if_dict (dget "reply_artifact" (cd_diagnostics decision)))
           (reply_diagnostics job decision) finished_at);
      _ ← match (if deliver_to_caller then mailbox_actor (me_from_actor (jb_request job)) else None) with
          | Some caller => queue_reply_delivery caller (at_message_id a) (at_attempt_id a) reply_id
                             finished_at
          | None => mret tt
          end;
      _ ← refresh_message_state (at_message_id a) finished_at;
      mret (Some reply_id)
  end.

Definition record_terminal (job : JobRecord) (decision : CompletionDecision) (finished_at : string)
    (deliver_to_caller record_reply_enabled : bool) : B (option string) :=
  _ ← record_attempt_terminal job finished_at;
  if negb record_reply_enabled then mret None
  else record_reply job decision finished_at deliver_to_caller.

(** Callback edges: the log and what is still pending. *)
Definition record_callback_edge (e : CallbackEdgeRecord) : B unit := edge_append e.
Definition pending_callback_edges (b : bureau) : list CallbackEdgeRecord :=
  List.filter (λ e, bool_decide (ce_state e ∈ [CE_pending; CE_child_completed]))
    (last_by ce_edge_id (br_edges b)).
End recording.
