(* ===== verification/BureauTheorems.v ===== *)
(** * The message bureau: theorems

    The bureau drives the mailbox kernel only through the steps of
    [MailboxSystem], with event ids that are fresh, so what holds of the
    mailboxes holds whatever the bureau does; what it records when a request is
    submitted and when it is answered; the state it gives a message. *)
From S2P Require Import Prelude PyValue Names MailboxModels MailboxKernel MailboxQueue MailboxSpec.
From S2P Require Import MailboxRefinement MailboxSystem CompletionModels JobModels BureauModels Bureau.
From stdpp Require Import relations.
Open Scope string_scope.
Open Scope list_scope.
Open Scope Z_scope.

(** ** The ids of the events of an inbox *)
Abbreviation event_ids ib := (ie_inbound_event_id <$> ib_events ib).

Lemma spec_claim_ids i ts ib : event_ids (spec_claim i ts ib).2 = event_ids ib.
Proof. unfold spec_claim. repeat case_match; cbn; by rewrite ?upd_ids. Qed.
Lemma spec_finish_ids i st ts ib : event_ids (spec_finish i st ts ib).2 = event_ids ib.
Proof. unfold spec_finish. repeat case_match; cbn; by rewrite ?upd_ids. Qed.

Create HintDb bureau discriminated.

Section soundness.
Context `{Clock} (Hclock : ∀ n, strip (clock_at n) ≠ "").
Context `{Uuids} (Huuid : Inj (=) (=) uuid_hex12).

(** The event ids in the inboxes were drawn by the bureau. *)
Definition drawn (n : nat) (i : string) : Prop := ∃ m, (m < n)%nat ∧ i = "iev_" +:+ uuid_hex12 m.

(** The logs hold what the constructors build. *)
Definition logs_ok (b : bureau) : Prop :=
  Forall (λ m, normalize_message_record m = Ok m) (br_messages b) ∧
  Forall (λ a, normalize_attempt_record a = Ok a) (br_attempts b).

Record sound (b : bureau) : Prop := {
  sd_logs : logs_ok b;
  sd_reachable : reachable (br_kernel b);
  sd_drawn a i : owner_name a → i ∈ event_ids (inbox_of (br_kernel b) a) → drawn (br_uuids b) i
}.

Lemma sound_inv b a : sound b → owner_name a → agent_inv (br_kernel b) a.
Proof. intros [_ Hr _]. by apply (reachable_inv' Hclock). Qed.

Lemma drawn_mono m n i : (m <= n)%nat → drawn m i → drawn n i.
Proof. intros Hmn (k & ? & ->). exists k. split; [lia|done]. Qed.

(** The kernel files are the same, the logs may have grown. *)
Lemma sound_same b b' :
  br_kernel b' = br_kernel b → (br_uuids b <= br_uuids b')%nat → (logs_ok b → logs_ok b') →
  sound b → sound b'.
Proof.
  intros Hk Hu Hlogs [Hl Hr Hd]. split; rewrite ?Hk; [by apply Hlogs|done|].
  intros a i Ha Hi. eapply drawn_mono; [done|by eapply Hd].
Qed.

Lemma same_but_inbox a k k' b : same_but a k k' → b ≠ a → inbox_of k' b = inbox_of k b.
Proof. intros Hs Hb. destruct (Hs b Hb) as (E1 & E2 & E3). unfold inbox_of, rows_of. by rewrite E1, E2, E3. Qed.

(** A kernel operation that is a step and brings no new event. *)
Lemma step_sound {A} (m : K A) b :
  sound b →
  (kernel_step (br_kernel b) (st_exec m (br_kernel b)) ∨ st_exec m (br_kernel b) = br_kernel b) →
  (∀ a, owner_name a → event_ids (inbox_of (st_exec m (br_kernel b)) a) =
                       event_ids (inbox_of (br_kernel b) a)) →
  sound (with_kernel (st_exec m (br_kernel b)) b).
Proof.
  intros [Hl Hr Hd] Hstep Hids. split; cbn [br_kernel with_kernel br_uuids]; [done|..].
  - destruct Hstep as [Hstep| ->]; [|done]. by eapply rtc_r.
  - intros a i Ha. rewrite Hids by done. by apply Hd.
Qed.

Lemma in_kernel_exec {A} (m : K A) b :
  st_exec (in_kernel m) b = with_kernel (st_exec m (br_kernel b)) b.
Proof. unfold st_exec, in_kernel. by destruct (m (br_kernel b)). Qed.

Lemma read_preserves {A} (m : K A) : (∀ k, st_exec m k = k) → preserves sound (in_kernel m).
Proof.
  intros Hm b Hb. rewrite in_kernel_exec, Hm. by apply (sound_same b).
Qed.

(** The kernel operations that refine an operation on one inbox. *)
Lemma refined_preserves {A} (op : string → K A) spec t name :
  (∀ k, kernel_step k (st_exec (op name) k)) →
  (∀ e k, normalize_mailbox_owner_name (Some name) = Err e → st_exec (op name) k = k) →
  (∀ a k, normalize_mailbox_owner_name (Some name) = Ok a → op name k = op a k) →
  (∀ a k, owner_name a → agent_inv k a → refines a t (op a) spec k) →
  (∀ ts ib, event_ids (spec ts ib).2 = event_ids ib) →
  preserves sound (in_kernel (op name)).
Proof.
  intros Hstep Hfail Hnamed Href Hids b Hb. rewrite in_kernel_exec.
  apply step_sound; [done|by left|]. intros a' Ha'.
  destruct (normalize_mailbox_owner_name (Some name)) as [a|err] eqn:Hname; [|by rewrite (Hfail err)].
  pose proof (owner_named _ _ Hname) as Ha.
  destruct (Href a (br_kernel b) Ha (sound_inv _ _ Hb Ha)) as (ts & _ & _ & k' & Hop & Hib & _ & Hs).
  unfold st_exec. rewrite (Hnamed a _ eq_refl), Hop. cbn [snd].
  destruct (decide (a' = a)) as [->|Hne]; [by rewrite Hib, Hids|by rewrite (same_but_inbox _ _ _ _ Hs Hne)].
Qed.

Lemma ts_ok_some t : strip t ≠ "" → ts_ok (Some t).
Proof. by intros ? ?. Qed.

Lemma claim_preserves name i t : strip t ≠ "" → preserves sound (in_kernel (claim name i (Some t))).
Proof.
  intros Ht. apply (refined_preserves (λ a, claim a i (Some t)) (spec_claim i) (Some t) name).
  - intros k. by apply step_claim, ts_ok_some.
  - intros e k He. unfold st_exec, claim. by rewrite (owner_fails _ _ _ _ He).
  - intros a k Hn. by apply claim_named.
  - intros a k Ha Hk. by apply claim_refines; [..|apply ts_ok_some].
  - intros. apply spec_claim_ids.
Qed.

Lemma mark_terminal_preserves name i st t :
  strip t ≠ "" → terminal_event_state st = true →
  preserves sound (in_kernel (mark_terminal name i st (Some t))).
Proof.
  intros Ht Hst.
  apply (refined_preserves (λ a, mark_terminal a i st (Some t)) (spec_finish i st) (Some t) name).
  - intros k. by apply step_finish; [apply ts_ok_some|].
  - intros e k He. unfold st_exec, mark_terminal. by rewrite (owner_fails _ _ _ _ He).
  - intros a k Hn. by apply mark_terminal_named.
  - intros a k Ha Hk. by apply mark_terminal_refines; [..|apply ts_ok_some|].
  - intros. apply spec_finish_ids.
Qed.

Lemma rebuild_preserves name t :
  strip t ≠ "" → preserves sound (in_kernel (rebuild_mailbox_summary name (Some t))).
Proof.
  intros Ht b Hb. rewrite in_kernel_exec. apply step_sound; [done|left; by apply step_rebuild|].
  intros a' Ha'. destruct (normalize_mailbox_owner_name (Some name)) as [a|err] eqn:Hname.
  2:{ unfold st_exec, rebuild_mailbox_summary. by rewrite (owner_fails _ _ _ _ Hname). }
  pose proof (owner_named _ _ Hname) as Ha.
  destruct (refresh_does a Ha tt t (br_kernel b) (sound_inv _ _ Hb Ha) Ht) as (k' & Hr & Hib & _ & Hs).
  unfold refresh_and_return, mbind, st_bind in Hr. unfold st_exec.
  rewrite (rebuild_named _ _ Hname).
  destruct (rebuild_mailbox_summary a (Some t) (br_kernel b)) as [[m|e] k1]; [|done].
  injection Hr as ->. cbn [snd].
  destruct (decide (a' = a)) as [->|Hne]; [by rewrite Hib|by rewrite (same_but_inbox _ _ _ _ Hs Hne)].
Qed.
(** ** Delivery *)
Lemma fresh_event b a :
  sound b → owner_name a →
  ib_find ("iev_" +:+ uuid_hex12 (br_uuids b)) (inbox_of (br_kernel b) a) = None.
Proof.
  intros Hb Ha. destruct (ib_find _ _) as [e|] eqn:Hf; [|done].
  unfold ib_find in Hf. apply List.find_some in Hf as [Hin Hid%bool_decide_eq_true].
  destruct (sd_drawn _ Hb a (ie_inbound_event_id e) Ha) as (m & Hm & E).
  { apply list_elem_of_fmap_2. by apply list_elem_of_In. }
  rewrite Hid in E. cbn in E. injection E as E%Huuid. lia.
Qed.

(** The state after a delivery: one more event for [a], one more id drawn. *)
Definition bumped (k : kernel) (b : bureau) : bureau :=
  mkBureau k (br_messages b) (br_attempts b) (br_replies b) (br_edges b) (S (br_uuids b)).

Definition queued_event (n : nat) (a : string) (ty : InboundEventType) (mid aid pr : string)
    (prio : Z) (t : string) : InboundEventRecord :=
  mkEvent ("iev_" +:+ uuid_hex12 n) a ty mid (Some aid) (Some pr) prio ES_queued t None None.

Lemma queued_event_valid n name a ty mid aid pr prio t :
  normalize_mailbox_owner_name (Some name) = Ok a → mid ≠ "" → 0 <= prio →
  normalize_inbound_event_record (queued_event n name ty mid aid pr prio t) =
  Ok (queued_event n a ty mid aid pr prio t).
Proof.
  intros Hn Hm Hp. unfold normalize_inbound_event_record. cbn -[raise_if].
  assert (name ≠ "") as Hne.
  { intros ->. by unfold normalize_mailbox_owner_name, normalize_actor_name in Hn. }
  apply bool_decide_ne in Hne, Hm. apply Z.ltb_ge in Hp. replay_guards. cbn. by rewrite Hn.
Qed.

Lemma queue_event_does b name a ty mid aid pr prio delta t :
  sound b → normalize_mailbox_owner_name (Some name) = Ok a → mid ≠ "" → 0 <= prio →
  strip t ≠ "" → delta = (if bool_decide (ty = ET_task_reply) then 1 else 0) →
  let e := queued_event (br_uuids b) a ty mid aid pr prio t in
  ∃ k, queue_event name ty mid aid (Ok pr) prio delta t b = (Ok tt, bumped k b) ∧
       inbox_of k a = spec_enqueue e (inbox_of (br_kernel b) a) ∧
       same_but a (br_kernel b) k ∧ sound (bumped k b).
Proof.
  intros Hb Hn Hm Hp Ht -> e. pose proof (owner_named _ _ Hn) as Ha.
  pose proof (queued_event_valid (br_uuids b) a a ty mid aid pr prio t Ha Hm Hp) as Hv.
  pose proof (fresh_event b a Hb Ha) as Hf.
  destruct (enqueue_refines Hclock a Ha e (Some t) (br_kernel b) (sound_inv _ _ Hb Ha)
              (ts_ok_some _ Ht) Hv eq_refl eq_refl Hf) as (r & k & He & Hib & _ & Hs).
  exists k. split_and!; [|done|done|].
  - unfold queue_event, new_id. unfold mbind at 1, st_bind at 1.
    rewrite (st_lift_bind (Ok pr) _ _ pr eq_refl).
    rewrite (st_lift_bind _ _ _ e) by (by apply queued_event_valid).
    unfold mbind, st_bind, in_kernel. cbn [br_kernel].
    rewrite (enqueue_named _ _ Hn). change (reply_weight e) with (if bool_decide (ty = ET_task_reply) then 1 else 0) in He.
    rewrite He. done.
  - split; cbn [bumped br_kernel br_uuids]; [apply Hb|..].
    + eapply rtc_r; [apply Hb|].
      replace k with (st_exec (enqueue_event name e (reply_weight e) (Some t)) (br_kernel b))
        by (unfold st_exec; by rewrite (enqueue_named _ _ Hn), He).
      by apply step_enqueue; [..|apply ts_ok_some| |].
    + intros a' i Ha' Hi. destruct (decide (a' = a)) as [->|Hne].
      * rewrite Hib in Hi. cbn in Hi. rewrite fmap_app in Hi.
        apply elem_of_app in Hi as [Hi|Hi%list_elem_of_singleton].
        -- eapply drawn_mono; [|by eapply sd_drawn]. lia.
        -- subst i. exists (br_uuids b). split; [lia|done].
      * rewrite (same_but_inbox _ _ _ _ Hs Hne) in Hi. eapply drawn_mono; [|by eapply sd_drawn]. lia.
Qed.

Lemma queue_event_preserves name ty mid aid pr prio delta t :
  strip t ≠ "" → delta = (if bool_decide (ty = ET_task_reply) then 1 else 0) →
  preserves sound (queue_event name ty mid aid pr prio delta t).
Proof.
  intros Ht Hd b Hb.
  assert (sound (bumped (br_kernel b) b)) as Hbump by (apply (sound_same b); cbn; [done|lia|done|done]).
  destruct pr as [pr|err]; [|done].
  destruct (normalize_inbound_event_record
    (queued_event (br_uuids b) name ty mid aid pr prio t)) as [e|err] eqn:Hv.
  - pose proof Hv as Hv'. unfold normalize_inbound_event_record in Hv'. inv_result.
    match goal with Ho : normalize_mailbox_owner_name _ = Ok ?x |- _ =>
      destruct (queue_event_does b name x ty mid aid pr prio delta t) as (k & Hk & _ & _ & Hs);
        try done end.
    + by match goal with Hb : (ie_message_id _ =ˢ _) = false |- _ =>
        apply bool_decide_eq_false_1 in Hb end.
    + by match goal with Hb : (_ <? 0) = false |- _ => apply Z.ltb_ge in Hb end.
    + unfold st_exec. by rewrite Hk.
  - unfold st_exec, queue_event, new_id, mbind, st_bind, st_lift.
    change (mkEvent _ _ _ _ _ _ _ _ _ _ _) with (queued_event (br_uuids b) name ty mid aid pr prio t).
    by rewrite Hv.
Qed.

(** ** Every operation *)
Lemma log_preserves f :
  (∀ b, br_kernel (f b) = br_kernel b ∧ br_uuids (f b) = br_uuids b ∧ (logs_ok b → logs_ok (f b))) →
  preserves sound (st_modify f : B unit).
Proof. intros Hf b Hb. destruct (Hf b) as (H1 & H2 & H3). apply (sound_same b); cbn; by rewrite ?H2. Qed.
Lemma new_id_preserves prefix : preserves sound (new_id prefix).
Proof. intros b Hb. apply (sound_same b); cbn; [done|lia|done|done]. Qed.

Lemma lift_preserves {A C} (r : result A) (f : A → B C) :
  (∀ a, r = Ok a → preserves sound (f a)) → preserves sound (st_lift r ≫= f).
Proof.
  intros Hf. eapply (ensures_preserves _ _ (λ _, True)), (ensures_bind _ (λ a, r = Ok a)).
  - by apply ensures_lift.
  - intros a Ha. by apply preserves_ensures, Hf.
Qed.

Lemma message_append_preserves m : preserves sound (message_append m).
Proof.
  apply lift_preserves. intros m' Hm. apply log_preserves. intros b. split_and!; [done..|].
  intros [H1 H2]. split; cbn; [|done]. apply Forall_app_2; [done|].
  apply Forall_singleton. by eapply normalize_message_valid.
Qed.
Lemma attempt_append_preserves a : preserves sound (attempt_append a).
Proof.
  apply lift_preserves. intros a' Ha. apply log_preserves. intros b. split_and!; [done..|].
  intros [H1 H2]. split; cbn; [done|]. apply Forall_app_2; [done|].
  apply Forall_singleton. by eapply normalize_attempt_valid.
Qed.
Lemma reply_append_preserves m : preserves sound (reply_append m).
Proof. apply lift_preserves. intros. by apply log_preserves. Qed.

Lemma queue_request_preserves name mid aid pr prio t :
  strip t ≠ "" → preserves sound (queue_event name ET_task_request mid aid pr prio 0 t).
Proof. intros. by apply queue_event_preserves. Qed.
Lemma queue_reply_preserves name mid aid pr prio t :
  strip t ≠ "" → preserves sound (queue_event name ET_task_reply mid aid pr prio 1 t).
Proof. intros. by apply queue_event_preserves. Qed.

#[local] Hint Resolve new_id_preserves message_append_preserves attempt_append_preserves
  reply_append_preserves claim_preserves rebuild_preserves queue_request_preserves
  queue_reply_preserves : bureau.

Ltac bureau_step :=
  repeat first
    [ solve [eauto with bureau nocore]
    | apply preserves_bind; [|intros ?]
    | apply preserves_same; reflexivity
    | progress case_match ].

Lemma set_message_state_preserves mid st t : preserves sound (set_message_state mid st t).
Proof. unfold set_message_state. bureau_step. Qed.
#[local] Hint Resolve set_message_state_preserves : bureau.
Lemma refresh_message_state_preserves mid t : preserves sound (refresh_message_state mid t).
Proof.
  unfold refresh_message_state. apply preserves_bind; [by apply preserves_same|intros [m|]];
    [|by apply preserves_same].
  apply preserves_bind; [by apply preserves_same|intros [|x l]]; [by apply preserves_same|].
  apply preserves_bind; [by apply preserves_same|intros]. apply set_message_state_preserves.
Qed.
#[local] Hint Resolve refresh_message_state_preserves : bureau.

Lemma record_attempt_preserves mid idx t job :
  strip t ≠ "" → preserves sound (record_attempt mid idx t job).
Proof.
  intros Ht. unfold record_attempt. apply preserves_bind; [apply new_id_preserves|intros aid].
  apply preserves_bind; [apply attempt_append_preserves|intros _].
  apply preserves_bind; [by apply queue_request_preserves|intros _]. by apply preserves_same.
Qed.
#[local] Hint Resolve record_attempt_preserves : bureau.
Lemma record_attempts_preserves mid t jobs :
  strip t ≠ "" → preserves sound (record_attempts mid t jobs).
Proof. intros Ht. induction jobs; cbn [record_attempts]; bureau_step. Qed.
#[local] Hint Resolve record_attempts_preserves : bureau.

Lemma record_submission_preserves req jobs sid t origin :
  strip t ≠ "" → preserves sound (record_submission req jobs sid t origin).
Proof. intros Ht. unfold record_submission, resolve_origin_message_id. bureau_step. Qed.
Lemma record_retry_preserves mid job t :
  strip t ≠ "" → preserves sound (record_retry_attempt mid job t).
Proof. intros Ht. unfold record_retry_attempt, next_retry_index. bureau_step. Qed.

Lemma get_latest_same name i k : st_exec (get_latest name i) k = k.
Proof. unfold get_latest, st_exec, mbind, st_bind, owner, st_lift. by case_match. Qed.
Lemma get_latest_for_attempt_same name i k : st_exec (get_latest_for_attempt name i) k = k.
Proof. unfold get_latest_for_attempt, st_exec, mbind, st_bind, owner, st_lift. by case_match. Qed.
Lemma get_latest_preserves name i : preserves sound (in_kernel (get_latest name i)).
Proof. apply read_preserves, get_latest_same. Qed.
Lemma get_for_attempt_preserves name i : preserves sound (in_kernel (get_latest_for_attempt name i)).
Proof. apply read_preserves, get_latest_for_attempt_same. Qed.
#[local] Hint Resolve get_latest_preserves get_for_attempt_preserves : bureau.

Lemma mark_attempt_started_preserves job t :
  strip t ≠ "" → preserves sound (mark_attempt_started job t).
Proof.
  intros Ht. unfold mark_attempt_started, resolve_inbound_for_attempt_start, rebuild_summary.
  bureau_step.
Qed.

Lemma consume_preserves name i t : strip t ≠ "" → preserves sound (in_kernel (consume name i (Some t))).
Proof. intros. by apply mark_terminal_preserves. Qed.
Lemma abandon_preserves name i t : strip t ≠ "" → preserves sound (in_kernel (abandon name i (Some t))).
Proof. intros. by apply mark_terminal_preserves. Qed.
#[local] Hint Resolve consume_preserves abandon_preserves : bureau.

Lemma record_attempt_terminal_preserves job t :
  strip t ≠ "" → preserves sound (record_attempt_terminal job t).
Proof. intros Ht. unfold record_attempt_terminal, rebuild_summary. bureau_step. Qed.
#[local] Hint Resolve record_attempt_terminal_preserves : bureau.

Lemma bureau_reply_preserves known job d t deliver :
  strip t ≠ "" → preserves sound (record_reply known job d t deliver).
Proof.
  intros Ht. unfold record_reply, queue_reply_delivery. bureau_step.
Qed.
#[local] Hint Resolve bureau_reply_preserves : bureau.
Lemma record_terminal_preserves known job d t deliver enabled :
  strip t ≠ "" → preserves sound (record_terminal known job d t deliver enabled).
Proof. intros Ht. unfold record_terminal. bureau_step. Qed.
End soundness.

(** ** The bureau as a client of the kernel *)
Inductive bureau_op :=
  | OpSubmit (request : MessageEnvelope) (jobs : list JobRecord) (submission_id : option string)
      (at_ : string) (origin : option string)
  | OpRetry (message_id : string) (job : JobRecord) (at_ : string)
  | OpStart (job : JobRecord) (at_ : string)
  | OpTerminal (job : JobRecord) (decision : CompletionDecision) (at_ : string)
      (deliver record_reply_enabled : bool)
  | OpReply (job : JobRecord) (decision : CompletionDecision) (at_ : string) (deliver : bool)
  | OpSetState (message_id : string) (next_state : MessageState) (at_ : string).

Definition op_time (op : bureau_op) : string :=
  match op with
  | OpSubmit _ _ _ t _ | OpRetry _ _ t | OpStart _ t | OpTerminal _ _ t _ _ | OpReply _ _ t _
  | OpSetState _ _ t => t
  end.

Definition run_bureau_op `{Clock} `{Uuids} (known : gset string) (b : bureau) (op : bureau_op)
    : bureau :=
  match op with
  | OpSubmit req jobs sid t origin => st_exec (record_submission req jobs sid t origin) b
  | OpRetry mid job t => st_exec (record_retry_attempt mid job t) b
  | OpStart job t => st_exec (mark_attempt_started job t) b
  | OpTerminal job d t deliver enabled =>
      st_exec (record_terminal known job d t deliver enabled) b
  | OpReply job d t deliver => st_exec (record_reply known job d t deliver) b
  | OpSetState mid s t => st_exec (set_message_state mid s t) b
  end.

Definition empty_bureau : bureau := mkBureau empty_kernel [] [] [] [] 0.

Lemma empty_sound `{Clock} `{Uuids} : sound empty_bureau.
Proof. split; [by split; constructor|constructor|]. intros a i _ Hi. by apply elem_of_nil in Hi. Qed.

Lemma run_bureau_sound `{Clock} (Hclock : ∀ n, strip (clock_at n) ≠ "") `{Uuids}
    (Huuid : Inj (=) (=) uuid_hex12) known ops b :
  Forall (λ op, strip (op_time op) ≠ "") ops → sound b →
  sound (foldl (run_bureau_op known) b ops).
Proof.
  intros Hops. revert b. induction Hops as [|op ops Ht _ IH]; [done|]. intros b Hb. apply IH.
  destruct op; cbn in *.
  - by apply record_submission_preserves.
  - by apply record_retry_preserves.
  - by apply mark_attempt_started_preserves.
  - by apply record_terminal_preserves.
  - by apply bureau_reply_preserves.
  - by apply set_message_state_preserves.
Qed.

(** C21: The bureau is a correct client of the mailbox kernel.  Start with no
    files and record any submissions, retries, starts, ends and replies, in any
    order, for any jobs (operations may raise halfway).  As long as identifiers
    are not drawn twice and timestamps are not blank, the mailbox files are in a
    state that the kernel's own steps reach, so every mailbox is consistent:
    one event in delivery at most, under the lease, and a summary that agrees
    with the log. *)
Theorem bureau_keeps_mailboxes `{Clock} `{Uuids} (known : gset string) (ops : list bureau_op)
    (Hclock : ∀ n, strip (clock_at n) ≠ "") (Huuid : Inj (=) (=) uuid_hex12)
    (Htimes : Forall (λ op, strip (op_time op) ≠ "") ops) :
  let k := br_kernel (foldl (run_bureau_op known) empty_bureau ops) in
  reachable k ∧ ∀ a, owner_name a → agent_inv k a.
Proof.
  pose proof (run_bureau_sound Hclock Huuid known ops _ Htimes empty_sound) as Hs.
  split; [apply Hs|]. intros a Ha. by apply (sound_inv Hclock).
Qed.

(** ** Submission *)
Section submission.
Context `{Clock} (Hclock : ∀ n, strip (clock_at n) ≠ "").
Context `{Uuids} (Huuid : Inj (=) (=) uuid_hex12).

(** What one job of a submission adds. *)
Definition attempt_for (message_id t : string) (job : JobRecord) (idx : Z) (a : AttemptRecord) : Prop :=
  at_message_id a = message_id ∧ at_agent_name a = jb_agent_name job ∧
  at_provider a = jb_provider job ∧ at_job_id a = jb_job_id job ∧ at_retry_index a = idx ∧
  at_attempt_state a = AS_pending ∧ at_started_at a = t ∧ at_updated_at a = t.
Definition request_for (message_id t : string) (job : JobRecord) (e : InboundEventRecord) : Prop :=
  ie_agent_name e = jb_agent_name job ∧ ie_event_type e = ET_task_request ∧
  ie_message_id e = message_id ∧ ie_payload_ref e = Some ("job:" +:+ jb_job_id job) ∧
  ie_status e = ES_queued ∧ ie_created_at e = t.

(** A job the bureau can deliver: its agent owns a mailbox. *)
Definition deliverable (job : JobRecord) : Prop :=
  owner_name (jb_agent_name job) ∧ jb_provider job ≠ "" ∧ jb_job_id job ≠ "".

(** The queue of [a] in a bureau state. *)
Definition queue_of (b : bureau) (a : string) : list InboundEventRecord :=
  ib_queue (inbox_of (br_kernel b) a).

Lemma queue_enqueue e ib : ie_status e = ES_queued → ib_queue (spec_enqueue e ib) = ib_queue ib ++ [e].
Proof.
  intros Hs. unfold ib_queue, pending_of, spec_enqueue. cbn. rewrite List.filter_app. cbn.
  unfold is_pending. by rewrite Hs.
Qed.

Lemma record_attempt_does b mid idx t job :
  sound b → deliverable job → mid ≠ "" → 0 <= idx → strip t ≠ "" →
  ∃ aid att e b', record_attempt mid idx t job b = (Ok aid, b') ∧ sound b' ∧
    at_attempt_id att = aid ∧ ie_attempt_id e = Some aid ∧
    attempt_for mid t job idx att ∧ request_for mid t job e ∧
    br_attempts b' = br_attempts b ++ [att] ∧ br_messages b' = br_messages b ∧
    br_replies b' = br_replies b ∧
    ∀ a, queue_of b' a = queue_of b a ++ (if decide (a = jb_agent_name job) then [e] else []).
Proof.
  intros Hb (Howner & Hprov & Hjob) Hmid Hidx Ht.
  set (aid := "att_" +:+ uuid_hex12 (br_uuids b)).
  set (att := mkAttempt aid mid (jb_agent_name job) (jb_provider job) (jb_job_id job) idx None t t AS_pending).
  assert (normalize_attempt_record att = Ok att) as Hatt.
  { pose proof (owner_inv _ _ Howner) as (_ & Hn & _).
    pose proof (agent_nonempty _ _ Hn) as ?%bool_decide_ne.
    apply bool_decide_ne in Hmid, Hprov, Hjob. apply Z.ltb_ge in Hidx.
    unfold normalize_attempt_record, require_value. cbn -[raise_if normalize_agent_name].
    replay_guards. cbn -[normalize_agent_name]. by rewrite Hn. }
  set (b1 := mkBureau (br_kernel b) (br_messages b) (br_attempts b ++ [att]) (br_replies b)
               (br_edges b) (S (br_uuids b))).
  assert (sound b1) as Hb1.
  { apply (sound_same b); cbn; [done|lia| |done]. intros [H1 H2]. split; cbn; [done|].
    by apply Forall_app_2; [|apply Forall_singleton]. }
  destruct (queue_event_does Hclock Huuid b1 (jb_agent_name job) (jb_agent_name job) ET_task_request
    mid aid ("job:" +:+ jb_job_id job) 100 0 t Hb1 Howner Hmid ltac:(lia) Ht eq_refl)
    as (k & Hq & Hib & Hs & Hb').
  set (e := queued_event _ _ _ _ _ _ _ _) in *.
  exists aid, att, e, (bumped k b1). split_and!; try done.
  - unfold record_attempt, new_id. unfold mbind at 1, st_bind at 1.
    unfold attempt_append, mbind at 1, st_bind at 1.
    rewrite (st_lift_bind _ _ _ _ Hatt). unfold st_modify. cbn beta iota.
    change (mkBureau _ _ _ _ _ _) with b1. by rewrite (st_bind_ok _ _ _ _ _ Hq).
  - intros a. unfold queue_of. cbn [bumped br_kernel]. case_decide as E.
    + subst a. rewrite Hib. by rewrite queue_enqueue.
    + rewrite (same_but_inbox _ _ _ _ Hs E). by rewrite app_nil_r.
Qed.

(** The events of [a] among the events of a submission. *)
Definition events_for (a : string) (evs : list InboundEventRecord) : list InboundEventRecord :=
  List.filter (λ e, ie_agent_name e =ˢ a) evs.

Lemma record_attempts_do jobs mid t b :
  sound b → Forall deliverable jobs → mid ≠ "" → strip t ≠ "" →
  ∃ atts evs b', record_attempts mid t jobs b = (Ok tt, b') ∧ sound b' ∧
    Forall2 (λ j a, attempt_for mid t j 0 a) jobs atts ∧
    Forall2 (request_for mid t) jobs evs ∧
    Forall2 (λ a e, ie_attempt_id e = Some (at_attempt_id a)) atts evs ∧
    br_attempts b' = br_attempts b ++ atts ∧ br_messages b' = br_messages b ∧
    ∀ a, queue_of b' a = queue_of b a ++ events_for a evs.
Proof.
  intros Hb Hjobs Hmid Ht. revert b Hb. induction Hjobs as [|job jobs Hjob _ IH]; intros b Hb.
  { exists [], [], b. split_and!; try done; try apply Forall2_nil_2; intros; by rewrite app_nil_r. }
  destruct (record_attempt_does b mid 0 t job Hb Hjob Hmid ltac:(lia) Ht)
    as (aid & att & e & b1 & Hrun & Hb1 & Haid & Heid & Hatt & Hreq & Ha & Hm & _ & Hq).
  destruct (IH b1 Hb1) as (atts & evs & b2 & Hrun2 & Hb2 & H1 & H2 & H3 & Ha2 & Hm2 & Hq2).
  exists (att :: atts), (e :: evs), b2. split_and!; try done; try by constructor.
  - cbn [record_attempts]. by rewrite (st_bind_ok _ _ _ _ _ Hrun).
  - constructor; [by rewrite Haid|done].
  - by rewrite Ha2, Ha, <- app_assoc.
  - congruence.
  - intros a. rewrite Hq2, Hq, <- app_assoc. f_equal. unfold events_for. cbn.
    destruct Hreq as (-> & _). case_decide; case_bool_decide; congruence || done.
Qed.

Lemma owners_normal jobs :
  Forall deliverable jobs → mapM normalize_agent_name (jb_agent_name <$> jobs) = Ok (jb_agent_name <$> jobs).
Proof.
  induction 1 as [|job jobs (Ho & _) _ IH]; [done|]. cbn.
  pose proof (owner_inv _ _ Ho) as (_ & -> & _). cbn. by rewrite IH.
Qed.

(** The message a submission records. *)
Definition submitted_message (mid : string) (req : MessageEnvelope) (jobs : list JobRecord)
    (t : string) (m : MessageRecord) : Prop :=
  mr_message_id m = mid ∧ mr_from_actor m = me_from_actor req ∧
  mr_target_agents m = jb_agent_name <$> jobs ∧ mr_message_state m = MSt_queued ∧
  mr_message_class m = me_message_type req ∧ mr_reply_policy m = reply_policy_of req jobs ∧
  mr_created_at m = t.

Lemma resolve_origin_eq reply_to b :
  ∃ o, resolve_origin_message_id reply_to b = (Ok o, b).
Proof. unfold resolve_origin_message_id. case_bool_decide; by eexists. Qed.

Lemma submission_delivers' b req jobs sid t origin :
  sound b → envelope_post_init req = Ok req → me_message_type req ≠ "" → jobs ≠ [] →
  Forall deliverable jobs → strip t ≠ "" →
  ∃ mid m atts evs b', record_submission req jobs sid t origin b = (Ok (Some mid), b') ∧ sound b' ∧
    br_messages b' = br_messages b ++ [m] ∧ submitted_message mid req jobs t m ∧
    br_attempts b' = br_attempts b ++ atts ∧
    Forall2 (λ j a, attempt_for mid t j 0 a) jobs atts ∧
    Forall2 (request_for mid t) jobs evs ∧
    Forall2 (λ a e, ie_attempt_id e = Some (at_attempt_id a)) atts evs ∧
    ∀ a, queue_of b' a = queue_of b a ++ events_for a evs.
Proof.
  intros Hb Hreq Hclass Hne Hjobs Ht. set (mid := "msg_" +:+ uuid_hex12 (br_uuids b)).
  set (b1 := mkBureau (br_kernel b) (br_messages b) (br_attempts b) (br_replies b) (br_edges b)
               (S (br_uuids b))).
  assert (∃ o, (if truthy origin then mret origin
                else resolve_origin_message_id (me_reply_to req)) b1 = (Ok o, b1)) as [o Ho].
  { destruct (truthy origin); [by eexists|apply resolve_origin_eq]. }
  set (m := mkMessage mid o (me_from_actor req) (delivery_scope_value (me_delivery_scope req))
    (jb_agent_name <$> jobs) (me_message_type req) (reply_policy_of req jobs) default_retry_policy
    100 None sid t t MSt_queued).
  assert (normalize_message_record m = Ok m) as Hm.
  { unfold envelope_post_init in Hreq. inv_result.
    match goal with Ha : normalize_actor_name _ = Ok _ |- _ =>
      pose proof (actor_idem _ _ Ha) as Ha'; pose proof (actor_nonempty _ _ Ha) as Hfne;
      apply (f_equal me_from_actor) in Hreq; cbn in Hreq; rewrite Hreq in Ha', Hfne end.
    apply bool_decide_ne in Hfne, Hclass.
    assert (jb_agent_name <$> jobs ≠ []) as ?%bool_decide_ne by by destruct jobs.
    assert (delivery_scope_value (me_delivery_scope req) ≠ "") as ?%bool_decide_ne
      by by destruct (me_delivery_scope req).
    unfold normalize_message_record, require_value. cbn -[raise_if normalize_actor_name mapM fmap].
    replay_guards. cbn -[normalize_actor_name mapM fmap]. rewrite Ha'. cbn -[mapM fmap].
    by rewrite owners_normal. }
  set (b2 := mkBureau (br_kernel b) (br_messages b ++ [m]) (br_attempts b) (br_replies b)
               (br_edges b) (S (br_uuids b))).
  assert (sound b2) as Hb2.
  { apply (sound_same b); cbn; [done|lia| |done]. intros [H1 H2]. split; cbn; [|done].
    by apply Forall_app_2; [|apply Forall_singleton]. }
  destruct (record_attempts_do jobs mid t b2 Hb2 Hjobs ltac:(done) Ht)
    as (atts & evs & b' & Hrun & Hb' & H1 & H2 & H3 & Ha & Hms & Hq).
  exists mid, m, atts, evs, b'. split_and!; try done.
  unfold record_submission. destruct jobs as [|j js]; [done|].
  unfold new_id, mbind at 1, st_bind at 1. change (mkBureau _ _ _ _ _ _) with b1.
  rewrite (st_bind_ok _ _ _ _ _ Ho).
  assert (message_append m b1 = (Ok tt, b2)) as Happ.
  { unfold message_append. by rewrite (st_lift_bind _ _ _ _ Hm). }
  rewrite (st_bind_ok _ _ _ _ _ Happ). by rewrite (st_bind_ok _ _ _ _ _ Hrun).
Qed.
End submission.

(** ** Payload references *)
Definition is_word (s : string) : Prop :=
  s ≠ "" ∧ string_forallb (λ c, negb (is_space c) && negb (code c =? 59)%nat) s = true.

Lemma is_word_no_space s : is_word s → string_forallb (λ c, negb (is_space c)) s = true.
Proof.
  intros [_ Hs]. eapply string_forallb_impl; [|exact Hs]. by intros c [? _]%andb_prop.
Qed.
Lemma is_word_strip s : is_word s → strip s = s.
Proof. intros. by apply strip_no_space, is_word_no_space. Qed.

Lemma forallb_app f s t : string_forallb f (s +:+ t) = string_forallb f s && string_forallb f t.
Proof. induction s as [|c s IH]; [done|]. rewrite string_app_cons. cbn. by rewrite IH, andb_assoc. Qed.

Lemma word_app s t : is_word s → is_word t → is_word (s +:+ t).
Proof.
  intros [Hs Hs'] [_ Ht]. split; [by apply string_app_nonempty|]. by rewrite forallb_app, Hs', Ht.
Qed.

Lemma semicolons_app s t :
  semicolons_to_spaces (s +:+ t) = semicolons_to_spaces s +:+ semicolons_to_spaces t.
Proof.
  unfold semicolons_to_spaces. induction s as [|c s IH]; [done|]. rewrite !string_app_cons. cbn.
  by rewrite IH.
Qed.
Lemma semicolons_word s : is_word s → semicolons_to_spaces s = s.
Proof.
  intros [_ Hs]. unfold semicolons_to_spaces. induction s as [|c s IH]; [done|]. cbn in *.
  apply andb_prop in Hs as [[_ ->%negb_true_iff]%andb_prop Hs]. by rewrite IH.
Qed.

Lemma split_words_word tok w s :
  string_forallb (λ c, negb (is_space c)) w = true →
  split_words tok (w +:+ s) = split_words (tok +:+ w) s.
Proof.
  revert tok. induction w as [|c w IH]; intros tok Hw; [by rewrite string_app_nil|].
  apply andb_prop in Hw as [Hc%negb_true_iff Hw]. rewrite string_app_cons. cbn. rewrite Hc, IH by done.
  by rewrite string_app_assoc.
Qed.

Lemma strip_words s t : is_word s → is_word t → strip (s +:+ " " +:+ t) = s +:+ " " +:+ t.
Proof.
  intros Hs Ht. unfold strip.
  assert (lstrip (s +:+ " " +:+ t) = s +:+ " " +:+ t) as ->.
  { destruct Hs as [Hne Hs]. destruct s as [|c s]; [done|]. cbn in Hs.
    apply andb_prop in Hs as [[Hc%negb_true_iff _]%andb_prop _]. rewrite string_app_cons.
    cbn [lstrip]. by rewrite Hc. }
  rewrite <- string_app_assoc. apply rstrip_app; [|by destruct Ht].
  pose proof (is_word_strip _ Ht) as E. unfold strip in E.
  destruct Ht as [Hne Ht]. destruct t as [|c t]; [done|]. cbn in Ht.
  apply andb_prop in Ht as [[Hc%negb_true_iff _]%andb_prop _]. cbn [lstrip] in E. by rewrite Hc in E.
Qed.

Lemma drop_prefix p s : drop_chars (String.length p) (p +:+ s) = s.
Proof. induction p as [|c p IH]; [by destruct s|done]. Qed.

Lemma word_or_none s : is_word s → or_none (strip s) = Some s.
Proof. intros Hs. rewrite is_word_strip by done. unfold or_none. rewrite bool_decide_ne; [done|by destruct Hs]. Qed.

Lemma reply_prefix_word : is_word reply_prefix.
Proof. by split. Qed.
Lemma delivery_prefix_word : is_word delivery_prefix.
Proof. by split. Qed.

(** The tokens of a payload reference. *)
Lemma payload_tokens rid did p :
  is_word rid → (∀ d, did = Some d → is_word d) → compose_reply_payload rid did = Ok p →
  strip p = p ∧ p ≠ "" ∧
  split_words "" (semicolons_to_spaces p) =
    (reply_prefix +:+ rid) :: match did with Some d => [delivery_prefix +:+ d] | None => [] end.
Proof.
  intros Hr Hd. unfold compose_reply_payload. rewrite (is_word_strip rid) by done.
  rewrite (bool_decide_ne (P := rid = "")) by by destruct Hr.
  pose proof (word_app _ _ reply_prefix_word Hr) as Hrw. cbn [raise_if]. rewrite result_bind_ok.
  assert (∀ w : string, is_word w → split_words "" w = [w]) as Hsingle.
  { intros w Hw. rewrite <- (string_app_nil w) at 1.
    rewrite split_words_word by by apply is_word_no_space. cbn.
    by rewrite bool_decide_ne by by destruct Hw. }
  destruct did as [d|]; cbn [default from_option id].
  - specialize (Hd d eq_refl). rewrite (is_word_strip d), bool_decide_ne by (done || by destruct Hd).
    pose proof (word_app _ _ delivery_prefix_word Hd) as Hdw. cbn [app join]. intros [= <-].
    split_and!; [by apply strip_words|by apply string_app_nonempty; destruct Hrw|].
    rewrite semicolons_app, (semicolons_word (reply_prefix +:+ rid)), semicolons_app,
      (semicolons_word (delivery_prefix +:+ d)) by done.
    rewrite split_words_word by by apply is_word_no_space.
    change (semicolons_to_spaces " " +:+ ?x) with (String " " x).
    cbn [split_words]. change (is_space " ") with true. cbn iota.
    rewrite Hsingle by done. change ("" +:+ ?x) with x.
    by rewrite bool_decide_ne by by destruct Hrw.
  - change (strip "") with "". cbn. intros [= <-]. change (String "r" _) with (reply_prefix +:+ rid).
    split_and!; [by apply is_word_strip|done|]. rewrite semicolons_word by done. by apply Hsingle.
Qed.

Lemma payload_roundtrip' rid did :
  is_word rid → (∀ d, did = Some d → is_word d) →
  ∃ p, compose_reply_payload rid did = Ok p ∧
       reply_id_from_payload (Some p) = Some rid ∧ delivery_job_id_from_payload (Some p) = did.
Proof.
  intros Hrid Hdid.
  assert (∃ p, compose_reply_payload rid did = Ok p) as [p Hp].
  { unfold compose_reply_payload. rewrite (is_word_strip rid) by done.
    rewrite (bool_decide_ne (P := rid = "")) by by destruct Hrid. by eexists. }
  exists p. split; [done|].
  destruct (payload_tokens rid did p Hrid Hdid Hp) as (Hs & Hne & Htok).
  unfold reply_id_from_payload, delivery_job_id_from_payload, value_for_prefix.
  cbn [default from_option id]. rewrite Hs, bool_decide_ne, Htok by done. cbn [List.find].
  rewrite string_prefix_app, drop_prefix, word_or_none by done. split; [done|].
  change (String.prefix delivery_prefix (reply_prefix +:+ rid)) with false. cbn [List.find].
  destruct did as [d|]; [|done]. cbn [List.find]. rewrite string_prefix_app, drop_prefix. by apply word_or_none, Hdid.
Qed.

(** Reading a reply payload gives back what was composed.  For ids without
    white space or semicolons, the reference composed of a reply id and an
    optional delivery job id is accepted, and decoding it yields exactly that
    reply id and that delivery job id. *)
Theorem reply_payload_roundtrip (rid : string) (did : option string) (Hrid : is_word rid)
    (Hdid : ∀ d, did = Some d → is_word d) :
  ∃ p, compose_reply_payload rid did = Ok p ∧
       reply_id_from_payload (Some p) = Some rid ∧ delivery_job_id_from_payload (Some p) = did.
Proof. by apply payload_roundtrip'. Qed.

(** ** The state of a message *)
Definition with_message_state (m : MessageRecord) (s : MessageState) (t : string) : MessageRecord :=
  mkMessage (mr_message_id m) (mr_origin_message_id m) (mr_from_actor m) (mr_target_scope m)
    (mr_target_agents m) (mr_message_class m) (mr_reply_policy m) (mr_retry_policy m) (mr_priority m)
    (mr_payload_ref m) (mr_submission_id m) (mr_created_at m) t s.

Lemma with_message_state_valid m s t :
  normalize_message_record m = Ok m →
  normalize_message_record (with_message_state m s t) = Ok (with_message_state m s t).
Proof.
  unfold normalize_message_record. cbn -[raise_if normalize_actor_name mapM]. intros Hv.
  repeat match type of Hv with
  | (?m ≫= _) = Ok _ => destruct m; [rewrite result_bind_ok in Hv |- *|discriminate Hv]
  end.
  injection Hv as Hv. apply (f_equal (λ m, with_message_state m s t)) in Hv. exact (f_equal Ok Hv).
Qed.

(** Writing the state of a message. *)
Lemma set_message_state_does mid s t b :
  logs_ok b →
  ∃ b', set_message_state mid s t b = (Ok tt, b') ∧ br_kernel b' = br_kernel b ∧
    br_attempts b' = br_attempts b ∧ br_replies b' = br_replies b ∧ logs_ok b' ∧
    ∀ m, message_latest b mid = Some m →
      ∃ m', message_latest b' mid = Some m' ∧ mr_message_state m' = s ∧
            (m' = m ∨ m' = with_message_state m s t).
Proof.
  intros [Hm Ha]. unfold set_message_state. rewrite st_gets_bind.
  destruct (message_latest b mid) as [m|] eqn:Hlast.
  2:{ exists b. split_and!; [done..|by split|done]. }
  case_bool_decide as Hs.
  { exists b. split_and!; [done..|by split|]. intros ? [= <-]. exists m. auto. }
  pose proof (find_last_Some _ _ _ Hlast) as [Hin Hid%bool_decide_eq_true].
  pose proof (with_message_state_valid m s t (proj1 (Forall_forall _ _) Hm m Hin)) as Hv.
  eexists. split.
  { unfold message_append. change (mkMessage _ _ _ _ _ _ _ _ _ _ _ _ _ _) with (with_message_state m s t).
    by rewrite (st_lift_bind _ _ _ _ Hv). }
  split_and!; [done..| |].
  - split; cbn; [|done]. by apply Forall_app_2; [|apply Forall_singleton].
  - intros ? [= <-]. exists (with_message_state m s t). split_and!; [|done|by right].
    unfold message_latest. cbn [br_messages]. rewrite find_last_snoc. cbn. by rewrite bool_decide_eq_true_2.
Qed.

Lemma refresh_does_message mid t b :
  logs_ok b →
  ∃ b', refresh_message_state mid t b = (Ok tt, b') ∧ br_kernel b' = br_kernel b ∧
    br_attempts b' = br_attempts b ∧ br_replies b' = br_replies b ∧ logs_ok b' ∧
    ∀ m, message_latest b mid = Some m → latest_attempts_for_message b mid ≠ [] →
      let attempts := latest_attempts_for_message b mid in
      let s := next_message_state (active_attempts attempts) attempts (replies_of_message b mid) in
      ∃ m', message_latest b' mid = Some m' ∧ mr_message_state m' = s ∧
            (m' = m ∨ m' = with_message_state m s t).
Proof.
  intros Hb. unfold refresh_message_state. rewrite st_gets_bind.
  destruct (message_latest b mid) as [m|] eqn:Hlast; [|by exists b].
  rewrite st_gets_bind. destruct (latest_attempts_for_message b mid) as [|x l] eqn:Hatt; [by exists b|].
  rewrite st_gets_bind.
  destruct (set_message_state_does mid (next_message_state (active_attempts (x :: l)) (x :: l)
    (replies_of_message b mid)) t b Hb) as (b' & H1 & H2 & H3 & H4 & H5 & H6).
  exists b'. split_and!; try done; try apply H5. intros m0 [= <-] _. by apply H6.
Qed.

Lemma forallb_eq {S} `{EqDecision S} (s : S) l :
  List.forallb (λ x, bool_decide (x = s)) l = true ↔ ∀ x, x ∈ l → x = s.
Proof.
  rewrite List.forallb_forall. split; intros Hl x Hx.
  - by apply (bool_decide_eq_true (x = s)), Hl, list_elem_of_In.
  - apply bool_decide_eq_true, Hl. by apply list_elem_of_In.
Qed.

(** A set of statuses maps to completed exactly when it is [{completed}]. *)
Lemma singleton_completed {S} `{EqDecision S} (mapping : S → option MessageState) (c : S) l :
  (∀ s, mapping s = Some MSt_completed ↔ s = c) →
  singleton_state mapping l = MSt_completed ↔ l ≠ [] ∧ ∀ x, x ∈ l → x = c.
Proof.
  intros Hmap. unfold singleton_state. destruct l as [|s l]; [by split; [|intros []]|].
  destruct (List.forallb _ l) eqn:E.
  - pose proof (proj1 (forallb_eq s l) E) as Hall. split.
    + intros Hd. assert (s = c) as ->.
      { apply Hmap. destruct (mapping s); cbn in Hd; congruence. }
      split; [done|]. intros x [->|Hx]%elem_of_cons; [done|by apply Hall].
    + intros [_ Hc]. rewrite (Hc s) by by left. by rewrite (proj2 (Hmap c) eq_refl).
  - split; [done|]. intros [_ Hc]. exfalso.
    assert (List.forallb (λ x, bool_decide (x = s)) l = true); [|congruence].
    apply forallb_eq. intros x Hx. rewrite (Hc x), (Hc s); [done|by left|by right].
Qed.

Lemma active_nil attempts :
  active_attempts attempts = [] ↔
  ∀ a, a ∈ attempts → terminal_attempt_state (at_attempt_state a) = true.
Proof.
  unfold active_attempts. split.
  - intros Hn a Ha. destruct (terminal_attempt_state (at_attempt_state a)) eqn:E; [done|].
    assert (a ∈ List.filter (λ a, negb (terminal_attempt_state (at_attempt_state a))) attempts) as Hin.
    { apply list_elem_of_In, List.filter_In. rewrite <- list_elem_of_In. by rewrite E. }
    rewrite Hn in Hin. by apply elem_of_nil in Hin.
  - intros Hall. destruct (List.filter _ attempts) as [|a l] eqn:E; [done|].
    assert (In a (a :: l)) as Hin by by left. rewrite <- E in Hin.
    apply List.filter_In in Hin as [Hin%list_elem_of_In Hneg]. by rewrite (Hall a Hin) in Hneg.
Qed.

Lemma all_status {A S} (f : A → S) (l : list A) (c : S) : (∀ x, x ∈ f <$> l → x = c) ↔ ∀ a, a ∈ l → f a = c.
Proof.
  split.
  - intros Hl a Ha. apply Hl. by apply list_elem_of_fmap_2.
  - intros Hl x (a & -> & Ha)%list_elem_of_fmap. by apply Hl.
Qed.

(** All of the replies that count, or all attempts when nobody replied. *)
Definition answered_completed (attempts : list AttemptRecord) (replies : list ReplyRecord) : Prop :=
  match terminal_replies replies with
  | [] => attempts ≠ [] ∧ ∀ a, a ∈ attempts → at_attempt_state a = AS_completed
  | counted => ∀ r, r ∈ counted → rr_terminal_status r = RT_completed
  end.

Lemma next_completed attempts replies :
  next_message_state (active_attempts attempts) attempts replies = MSt_completed ↔
  (∀ a, a ∈ attempts → terminal_attempt_state (at_attempt_state a) = true) ∧
  answered_completed attempts replies.
Proof.
  rewrite <- active_nil. unfold next_message_state, answered_completed.
  destruct (active_attempts attempts) as [|a l]; [|by split; [destruct replies|intros [? _]]].
  destruct (terminal_replies replies) as [|r rs].
  - unfold attempt_terminal_state. rewrite (singleton_completed _ AS_completed) by by intros [].
    rewrite all_status. assert (at_attempt_state <$> attempts ≠ [] ↔ attempts ≠ []) as ->
      by by destruct attempts. by split; [|intros [_ ?]].
  - unfold reply_terminal_state. rewrite (singleton_completed _ RT_completed) by by intros [].
    rewrite all_status. split; [by intros [_ ?]|by intros [_ ?]].
Qed.

Lemma singleton_value {S} `{EqDecision S} (f : S → option MessageState) l :
  singleton_state f l = MSt_incomplete ∨ ∃ s, f s = Some (singleton_state f l).
Proof.
  unfold singleton_state. destruct l as [|s l]; [by left|].
  destruct (List.forallb _ l); [|by left]. destruct (f s) as [x|] eqn:E; [|by left].
  right. by exists s.
Qed.

Lemma next_active attempts replies :
  (next_message_state (active_attempts attempts) attempts replies = MSt_running ∨
   next_message_state (active_attempts attempts) attempts replies = MSt_partially_replied)
  ↔ ∃ a, a ∈ attempts ∧ terminal_attempt_state (at_attempt_state a) = false.
Proof.
  assert ((∃ a, a ∈ attempts ∧ terminal_attempt_state (at_attempt_state a) = false) ↔
          active_attempts attempts ≠ []) as ->.
  { rewrite active_nil. split.
    - intros (a & Ha & E) Hall. by rewrite (Hall a Ha) in E.
    - intros Hn. destruct (active_attempts attempts) as [|a l] eqn:E.
      { exfalso. by apply Hn, active_nil. }
      exists a. assert (In a (a :: l)) as Hin by by left. rewrite <- E in Hin.
      apply List.filter_In in Hin as [Hin%list_elem_of_In Hneg]. split; [done|by apply negb_true_iff]. }
  unfold next_message_state. destruct (active_attempts attempts) as [|a l].
  - split; [|done]. intros Hin. exfalso.
    destruct (terminal_replies replies) as [|r rs];
      [destruct (singleton_value attempt_state_mapping (at_attempt_state <$> attempts)) as [E|[s E]]
      |destruct (singleton_value reply_state_mapping (rr_terminal_status <$> r :: rs)) as [E|[s E]]];
      unfold attempt_terminal_state, reply_terminal_state in Hin;
      destruct Hin as [Hin|Hin]; rewrite Hin in E; by try destruct s.
  - split; [done|]. intros _. destruct replies; [by left|by right].
Qed.

(** The state a message is given says what became of it.  Refreshing a
    message that has attempts succeeds and leaves the message with some state:
    it is running or partially replied exactly while some attempt is not
    finished; it is completed exactly when every attempt is finished and all
    replies that count are completed (the replies that are not notices, all
    replies when there are only notices, the attempts when nobody replied). *)
Theorem message_state_meaning (mid t : string) (b : bureau) (m : MessageRecord)
    (Hlogs : logs_ok b) (Hm : message_latest b mid = Some m)
    (Hattempts : latest_attempts_for_message b mid ≠ []) :
  ∃ b' m', refresh_message_state mid t b = (Ok tt, b') ∧ message_latest b' mid = Some m' ∧
    (m' = m ∨ m' = with_message_state m (mr_message_state m') t) ∧
    ((mr_message_state m' = MSt_running ∨ mr_message_state m' = MSt_partially_replied) ↔
     ∃ a, a ∈ latest_attempts_for_message b mid ∧
          terminal_attempt_state (at_attempt_state a) = false) ∧
    (mr_message_state m' = MSt_completed ↔
     (∀ a, a ∈ latest_attempts_for_message b mid →
           terminal_attempt_state (at_attempt_state a) = true) ∧
     answered_completed (latest_attempts_for_message b mid) (replies_of_message b mid)).
Proof.
  destruct (refresh_does_message mid t b Hlogs) as (b' & Hr & _ & _ & _ & _ & Hm').
  destruct (Hm' m Hm Hattempts) as (m' & Hlast & Hs & Hor).
  exists b', m'. rewrite Hs. split_and!; [done|done|done|apply next_active|apply next_completed].
Qed.

(** ** Submissions and replies *)
Section delivery.
Context `{Clock} `{Uuids} (known : gset string).

(** The states the bureau reaches from no files. *)
Definition bureau_reached (b : bureau) : Prop :=
  ∃ ops, Forall (λ op, strip (op_time op) ≠ "") ops ∧
         b = foldl (run_bureau_op known) empty_bureau ops.

Context (Hclock : ∀ n, strip (clock_at n) ≠ "") (Huuid : Inj (=) (=) uuid_hex12).

Lemma reached_sound b : bureau_reached b → sound b.
Proof. intros (ops & Ht & ->). apply run_bureau_sound; [done..|apply empty_sound]. Qed.

(** C31: A submission reaches every agent it names.  When a valid request is
    submitted for jobs whose agents own mailboxes, recording it succeeds: one
    message is logged, queued, for exactly those agents; each job gets one
    pending first attempt of that message; and each agent's queue grows by
    exactly one task request per job of that agent, in the order of the jobs,
    that names the job and its attempt, behind everything that was queued. *)
Theorem submission_delivers (b : bureau) (req : MessageEnvelope) (jobs : list JobRecord)
    (sid : option string) (t : string) (origin : option string)
    (Hb : bureau_reached b) (Hreq : envelope_post_init req = Ok req)
    (Hclass : me_message_type req ≠ "") (Hne : jobs ≠ []) (Hjobs : Forall deliverable jobs)
    (Ht : strip t ≠ "") :
  ∃ mid m atts evs b', record_submission req jobs sid t origin b = (Ok (Some mid), b') ∧
    br_messages b' = br_messages b ++ [m] ∧ submitted_message mid req jobs t m ∧
    br_attempts b' = br_attempts b ++ atts ∧
    Forall2 (λ j a, attempt_for mid t j 0 a) jobs atts ∧
    Forall2 (request_for mid t) jobs evs ∧
    Forall2 (λ a e, ie_attempt_id e = Some (at_attempt_id a)) atts evs ∧
    ∀ a, queue_of b' a = queue_of b a ++ events_for a evs.
Proof.
  destruct (submission_delivers' Hclock Huuid b req jobs sid t origin (reached_sound b Hb) Hreq Hclass
    Hne Hjobs Ht) as (mid & m & atts & evs & b' & ? & _ & ? & ? & ? & ? & ? & ? & ?).
  by exists mid, m, atts, evs, b'.
Qed.

Lemma mailbox_target_owner actor caller :
  normalize_mailbox_target actor known = Some caller → owner_name caller.
Proof.
  unfold normalize_mailbox_target, owner_name. case_bool_decide; [done|].
  destruct (normalize_mailbox_owner_name _) as [n|] eqn:Hn; [|done].
  case_bool_decide; [|done]. intros [= <-]. by eapply owner_idem.
Qed.

Lemma attempt_ids_nonempty a :
  normalize_attempt_record a = Ok a → at_attempt_id a ≠ "" ∧ at_message_id a ≠ "".
Proof.
  unfold normalize_attempt_record, require_value. intros Hv. inv_result.
  by repeat match goal with E : bool_decide _ = false |- _ => apply bool_decide_eq_false_1 in E end.
Qed.

Lemma reply_valid r :
  rr_reply_id r ≠ "" → rr_message_id r ≠ "" → rr_attempt_id r ≠ "" →
  normalize_agent_name (rr_agent_name r) = Ok (rr_agent_name r) → normalize_reply_record r = Ok r.
Proof.
  intros ?%bool_decide_ne ?%bool_decide_ne ?%bool_decide_ne Ha.
  pose proof (agent_nonempty _ _ Ha) as ?%bool_decide_ne.
  unfold normalize_reply_record, require_value. replay_guards. rewrite Ha. by destruct r.
Qed.

Lemma reply_reaches_caller' b job d a caller t :
  bureau_reached b → (∀ n, is_word (uuid_hex12 n)) →
  attempt_latest_by_job b (jb_job_id job) = Some a →
  normalize_agent_name (jb_agent_name job) = Ok (jb_agent_name job) →
  mailbox_actor known (me_from_actor (jb_request job)) = Some caller → strip t ≠ "" →
  ∃ rid r e b', record_reply known job d t true b = (Ok (Some rid), b') ∧
    reply_latest b' rid = Some r ∧ rr_message_id r = at_message_id a ∧
    rr_attempt_id r = at_attempt_id a ∧ rr_agent_name r = jb_agent_name job ∧
    rr_terminal_status r = reply_status_for_job (jb_status job) ∧
    rr_reply r = delivered_reply_text job d ∧
    ie_event_type e = ET_task_reply ∧ ie_message_id e = at_message_id a ∧
    ie_attempt_id e = Some (at_attempt_id a) ∧ reply_id_from_payload (ie_payload_ref e) = Some rid ∧
    ∀ x, queue_of b' x = queue_of b x ++ (if decide (x = caller) then [e] else []).
Proof.
  intros Hb%reached_sound Hword Ha Hagent Hcaller Ht.
  pose proof (find_last_Some _ _ _ Ha) as [Hin _].
  destruct (attempt_ids_nonempty a (proj1 (Forall_forall _ _) (proj2 (sd_logs _ Hb)) a Hin)) as [Haid Hmid].
  set (rid := "rep_" +:+ uuid_hex12 (br_uuids b)).
  assert (is_word rid) as Hrid by by apply word_app.
  destruct (payload_roundtrip' rid None Hrid ltac:(done)) as (p & Hp & Hdec & _).
  set (r := mkReply rid (at_message_id a) (at_attempt_id a) (jb_agent_name job)
    (reply_status_for_job (jb_status job)) (delivered_reply_text job d)
    (dict_if_dict (dget "reply_artifact" (cd_diagnostics d))) (reply_diagnostics job d) t).
  assert (normalize_reply_record r = Ok r) as Hr by by apply reply_valid; [destruct Hrid|..].
  set (b2 := mkBureau (br_kernel b) (br_messages b) (br_attempts b)
               (br_replies b ++ [reply_without_empty_artifact r]) (br_edges b) (S (br_uuids b))).
  assert (sound b2) as Hb2 by (apply (sound_same b); cbn; [done|lia|done|done]).
  destruct (queue_event_does Hclock Huuid b2 caller caller ET_task_reply (at_message_id a)
    (at_attempt_id a) p 10 1 t Hb2 (mailbox_target_owner _ _ Hcaller) Hmid ltac:(lia) Ht eq_refl)
    as (k & Hq & Hib & Hsame & Hb3).
  destruct (refresh_does_message (at_message_id a) t (bumped k b2) (sd_logs _ Hb3))
    as (b' & Href & Hk & _ & Hreplies & _).
  set (e := queued_event _ _ _ _ _ _ _ _) in *.
  exists rid, (reply_without_empty_artifact r), e, b'. split_and!; try done.
  - unfold record_reply. rewrite st_gets_bind, Ha.
    unfold new_id, mbind at 1, st_bind at 1.
    change ("rep" +:+ "_" +:+ uuid_hex12 (br_uuids b)) with rid.
    assert (∀ b0, reply_append r b0 = (Ok tt, mkBureau (br_kernel b0) (br_messages b0) (br_attempts b0)
      (br_replies b0 ++ [reply_without_empty_artifact r]) (br_edges b0) (br_uuids b0))) as Happ.
    { intros b0. unfold reply_append. by rewrite (st_lift_bind _ _ _ _ Hr). }
    rewrite (st_bind_ok _ _ _ _ _ (Happ _)), Hcaller. cbn [br_kernel br_messages br_attempts br_replies
      br_edges br_uuids]. change (mkBureau _ _ _ _ _ _) with b2.
    unfold queue_reply_delivery. rewrite Hp. rewrite (st_bind_ok _ _ _ _ _ Hq).
    by rewrite (st_bind_ok _ _ _ _ _ Href).
  - unfold reply_latest. rewrite Hreplies. cbn [bumped br_replies b2]. rewrite find_last_snoc. cbn [rr_reply_id reply_without_empty_artifact r].
    by rewrite bool_decide_eq_true_2.
  - intros x. unfold queue_of. rewrite Hk. cbn [bumped br_kernel]. case_decide as E.
    + subst x. by rewrite Hib, queue_enqueue.
    + rewrite (same_but_inbox _ _ _ _ Hsame E). by rewrite app_nil_r.
Qed.

(** C32: A reply reaches the caller's mailbox, once.  When a job that has an
    attempt is answered and the actor that asked owns a known mailbox, recording
    the reply succeeds: the reply is logged under a new id with the job's status
    and the text to deliver, and the caller's queue, and no other, grows by one
    reply event for that message and attempt whose payload decodes to exactly
    that id. *)
Theorem reply_reaches_caller (b : bureau) (job : JobRecord) (d : CompletionDecision)
    (a : AttemptRecord) (caller t : string)
    (Hb : bureau_reached b) (Hword : ∀ n, is_word (uuid_hex12 n))
    (Ha : attempt_latest_by_job b (jb_job_id job) = Some a)
    (Hagent : normalize_agent_name (jb_agent_name job) = Ok (jb_agent_name job))
    (Hcaller : mailbox_actor known (me_from_actor (jb_request job)) = Some caller)
    (Ht : strip t ≠ "") :
  ∃ rid r e b', record_reply known job d t true b = (Ok (Some rid), b') ∧
    reply_latest b' rid = Some r ∧ rr_message_id r = at_message_id a ∧
    rr_attempt_id r = at_attempt_id a ∧ rr_agent_name r = jb_agent_name job ∧
    rr_terminal_status r = reply_status_for_job (jb_status job) ∧
    rr_reply r = delivered_reply_text job d ∧
    ie_event_type e = ET_task_reply ∧ ie_message_id e = at_message_id a ∧
    ie_attempt_id e = Some (at_attempt_id a) ∧ reply_id_from_payload (ie_payload_ref e) = Some rid ∧
    ∀ x, queue_of b' x = queue_of b x ++ (if decide (x = caller) then [e] else []).
Proof.
  by apply reply_reaches_caller'.
Qed.
End delivery.

(** ** Witnesses *)
Fixpoint unary (n : nat) : string :=
  match n with O => "a" | S n => String "a" (unary n) end.
Definition demo_uuids : Uuids := unary.
Definition demo_bureau_clock : Clock := λ _, "t0".

Lemma demo_uuids_inj : Inj (=) (=) (@uuid_hex12 demo_uuids).
Proof.
  change (Inj (=) (=) unary). intros m. induction m as [|m IH]; intros [|n]; cbn; [done|by destruct n|by destruct m|].
  intros [= E]. f_equal. by apply IH.
Qed.
Lemma demo_uuids_word n : is_word (@uuid_hex12 demo_uuids n).
Proof. change (is_word (unary n)). split; [by destruct n|]. by induction n. Qed.
Lemma demo_bureau_clock_ok n : strip (@clock_at demo_bureau_clock n) ≠ "".
Proof. done. Qed.

Definition demo_ask : MessageEnvelope :=
  mkEnvelope "p" "agent1" "agent2" "hi" None None "ask" DS_single false [] None.
Definition demo_job (status : JobStatus) : JobRecord :=
  mkJob "job_1" None "agent1" "codex" demo_ask status None None "0" "0" None TK_agent "agent1" None [].
Definition demo_submit : bureau_op := OpSubmit demo_ask [demo_job JS_queued] None "t1" None.
Definition demo_answer : CompletionDecision :=
  mkDecision true CS_completed (Some "r") (Some CC_exact) "done" true true true None None (Some "t2") [].
Definition demo_finish : bureau_op := OpTerminal (demo_job JS_completed) demo_answer "t2" true false.
Definition demo_known : gset string := {["agent1"; "agent2"]}.
Definition demo_run (ops : list bureau_op) : bureau :=
  foldl (@run_bureau_op demo_bureau_clock demo_uuids demo_known) empty_bureau ops.

Lemma bureau_keeps_mailboxes_witness :
  length (@queue_of (demo_run [demo_submit]) "agent1") = 1%nat ∧
  @reachable demo_bureau_clock (br_kernel (demo_run [demo_submit; demo_finish])) ∧
  ∀ a, owner_name a → agent_inv (br_kernel (demo_run [demo_submit; demo_finish])) a.
Proof.
  split; [vm_compute; reflexivity|].
  exact (@bureau_keeps_mailboxes demo_bureau_clock demo_uuids demo_known [demo_submit; demo_finish]
    demo_bureau_clock_ok demo_uuids_inj ltac:(by repeat constructor)).
Defined.

Lemma reply_payload_roundtrip_witness :
  ∃ p, compose_reply_payload "rep_1" (Some "job_2") = Ok p ∧
       reply_id_from_payload (Some p) = Some "rep_1" ∧
       delivery_job_id_from_payload (Some p) = Some "job_2".
Proof. apply reply_payload_roundtrip; [by split|]. intros d [= <-]. by split. Defined.

Lemma demo_reached ops :
  Forall (λ op, strip (op_time op) ≠ "") ops →
  @bureau_reached demo_bureau_clock demo_uuids demo_known (demo_run ops).
Proof. intros Ht. by exists ops. Qed.

Lemma submission_delivers_witness :
  ∃ mid m atts evs b',
    @record_submission demo_bureau_clock demo_uuids demo_ask [demo_job JS_queued] None "t3" None
      (demo_run [demo_submit]) = (Ok (Some mid), b') ∧
    br_messages b' = br_messages (demo_run [demo_submit]) ++ [m] ∧
    submitted_message mid demo_ask [demo_job JS_queued] "t3" m ∧
    br_attempts b' = br_attempts (demo_run [demo_submit]) ++ atts ∧
    Forall2 (λ j a, attempt_for mid "t3" j 0 a) [demo_job JS_queued] atts ∧
    Forall2 (request_for mid "t3") [demo_job JS_queued] evs ∧
    Forall2 (λ a e, ie_attempt_id e = Some (at_attempt_id a)) atts evs ∧
    ∀ a, queue_of b' a = queue_of (demo_run [demo_submit]) a ++ events_for a evs.
Proof.
  apply (@submission_delivers demo_bureau_clock demo_uuids demo_known demo_bureau_clock_ok
    demo_uuids_inj); try done.
  - by apply demo_reached; repeat constructor.
  - by repeat constructor.
Defined.

Definition demo_attempt : AttemptRecord :=
  Eval vm_compute in
  default (mkAttempt "" "" "" "" "" 0 None "" "" AS_pending)
    (head (br_attempts (demo_run [demo_submit]))).

Lemma reply_reaches_caller_witness :
  ∃ rid r e b',
    @record_reply demo_bureau_clock demo_uuids demo_known (demo_job JS_completed) demo_answer "t2" true
      (demo_run [demo_submit]) = (Ok (Some rid), b') ∧
    reply_latest b' rid = Some r ∧ rr_message_id r = at_message_id demo_attempt ∧
    rr_attempt_id r = at_attempt_id demo_attempt ∧ rr_agent_name r = "agent1" ∧
    rr_terminal_status r = RT_completed ∧ rr_reply r = "done" ∧
    ie_event_type e = ET_task_reply ∧ ie_message_id e = at_message_id demo_attempt ∧
    ie_attempt_id e = Some (at_attempt_id demo_attempt) ∧
    reply_id_from_payload (ie_payload_ref e) = Some rid ∧
    ∀ x, queue_of b' x = queue_of (demo_run [demo_submit]) x ++ (if decide (x = "agent2") then [e] else []).
Proof.
  apply (@reply_reaches_caller demo_bureau_clock demo_uuids demo_known demo_bureau_clock_ok
    demo_uuids_inj (demo_run [demo_submit]) (demo_job JS_completed) demo_answer demo_attempt "agent2" "t2").
  - by apply demo_reached; repeat constructor.
  - exact demo_uuids_word.
  - vm_compute. reflexivity.
  - reflexivity.
  - vm_compute. reflexivity.
  - done.
Defined.

Lemma demo_times : Forall (λ op, strip (op_time op) ≠ "") [demo_submit; demo_finish].
Proof. by repeat constructor. Qed.

Definition demo_message : MessageRecord :=
  Eval vm_compute in
  default (mkMessage "" None "" "" [] "" [] [] 0 None None "" "" MSt_created)
    (head (br_messages (demo_run [demo_submit]))).

Lemma message_state_meaning_witness :
  ∃ b' m', refresh_message_state (mr_message_id demo_message) "t2"
             (demo_run [demo_submit; demo_finish]) = (Ok tt, b') ∧
    message_latest b' (mr_message_id demo_message) = Some m'.
Proof.
  destruct (message_state_meaning (mr_message_id demo_message) "t2" (demo_run [demo_submit; demo_finish])
    (with_message_state demo_message MSt_completed "t2")) as (b' & m' & Hr & Hl & _).
  - pose proof demo_times as Ht.
    exact (sd_logs _ (@run_bureau_sound demo_bureau_clock demo_bureau_clock_ok demo_uuids
      demo_uuids_inj demo_known [demo_submit; demo_finish] empty_bureau
      Ht (@empty_sound demo_bureau_clock demo_uuids))).
  - vm_compute. reflexivity.
  - by vm_compute.
  - exact (ex_intro _ b' (ex_intro _ m' (conj Hr Hl))).
Defined.
