(* ===== verification/FaultInjection.v ===== *)
(** * Fault injection

    [fault_injection/models.py], [service.py] and [store.py]: rules that make the
    next jobs of an agent fail, for drills.  The rules live in one JSON file,
    which is removed when the last rule is used up. *)
From stdpp Require Import pretty.
From S2P Require Import Prelude PyValue Names CompletionModels JobModels.
From S2P Require Import MailboxKernel Bureau.
Open Scope string_scope.
Open Scope list_scope.
Open Scope Z_scope.

Definition fault_schema_version : Z := 1.
Definition VALID_FAILURE_REASONS : list string := ["api_error"; "transport_error"].
Definition DEFAULT_ERROR_MESSAGE : string := "fault injection drill".

Record FaultRule := mkRule {
  fr_rule_id : string;
  fr_agent_name : string;
  fr_task_id : string;
  fr_reason : string;
  fr_remaining_count : Z;
  fr_error_message : string;
  fr_created_at : string;
  fr_updated_at : string
}.

Definition rule_post_init (r : FaultRule) : result FaultRule :=
  _ ← raise_if (strip (fr_rule_id r) =ˢ "") (ValueError "rule_id cannot be empty");
  _ ← raise_if (strip (fr_task_id r) =ˢ "") (ValueError "task_id cannot be empty");
  _ ← raise_if (fr_remaining_count r <=? 0) (ValueError "remaining_count must be positive");
  agent ← normalize_agent_name (fr_agent_name r);
  let reason := lower (strip (fr_reason r)) in
  _ ← raise_if (negb (bool_decide (reason ∈ VALID_FAILURE_REASONS)))
        (ValueError ("unsupported fault reason: " +:+ fr_reason r));
  mret (mkRule (fr_rule_id r) agent (strip (fr_task_id r)) reason (fr_remaining_count r)
          (strip (fr_error_message r)) (fr_created_at r) (fr_updated_at r)).

Definition rule_to_record (r : FaultRule) : pydict :=
  [ ("rule_id", PStr (fr_rule_id r));
    ("agent_name", PStr (fr_agent_name r));
    ("task_id", PStr (fr_task_id r));
    ("reason", PStr (fr_reason r));
    ("remaining_count", PInt (fr_remaining_count r));
    ("error_message", PStr (fr_error_message r));
    ("created_at", PStr (fr_created_at r));
    ("updated_at", PStr (fr_updated_at r)) ].
Definition rule_from_record (d : pydict) : result FaultRule :=
  rule_id ← py_str_or_empty (dget "rule_id" d);
  agent ← py_str_or_empty (dget "agent_name" d);
  task ← py_str_or_empty (dget "task_id" d);
  reason ← py_str_or_empty (dget "reason" d);
  count ← py_int (py_or (dget "remaining_count" d) (PInt 0));
  message ← py_str_or_empty (dget "error_message" d);
  created ← py_str_or_empty (dget "created_at" d);
  updated ← py_str_or_empty (dget "updated_at" d);
  rule_post_init (mkRule rule_id agent task reason count message created updated).

#[export] Instance FaultRule_codec : Codec FaultRule :=
  {| post_init := rule_post_init; to_record := rule_to_record; from_record := rule_from_record |}.

(** ** The rules file

    The file, or [None] when it does not exist; how often the clock was read
    and an identifier drawn. *)
Record fault_store := mkFaultStore {
  fs_file : option pydict;
  fs_ticks : nat;
  fs_uuids : nat
}.
Abbreviation F := (ST fault_store).

Fixpoint rules_of (l : list pyval) : result (list FaultRule) :=
  match l with
  | [] => mret []
  | PDict d :: l' => (r ← rule_from_record d; rest ← rules_of l'; mret (r :: rest))
  | _ :: l' => rules_of l'
  end.
Definition rules_in (file : option pydict) : result (list FaultRule) :=
  match file with
  | None => mret []
  | Some payload =>
      version ← py_int (py_or (dget "schema_version" payload) (PInt 0));
      _ ← raise_if (negb (version =? fault_schema_version)) (ValueError "unsupported schema_version");
      match dget "rules" payload with
      | PList l => rules_of l
      | v => if py_bool v
             then match v with
                  | PStr _ | PDict _ => mret []
                  | _ => Err (TypeError "object is not iterable")
                  end
             else mret []
      end
  end.
Definition load_rules : F (list FaultRule) := λ s, (rules_in (fs_file s), s).
Definition rules_file (rules : list FaultRule) : option pydict :=
  match rules with
  | [] => None
  | _ => Some [ ("schema_version", PInt fault_schema_version);
                ("record_type", PStr "fault_rule_set");
                ("rules", PList ((λ r, PDict (rule_to_record r)) <$> rules)) ]
  end.
Definition save_rules (rules : list FaultRule) : F unit :=
  st_modify (λ s, mkFaultStore (rules_file rules) (fs_ticks s) (fs_uuids s)).

(** ** The service *)
Record ConsumedFault := mkFault {
  fa_rule_id : string;
  fa_agent_name : string;
  fa_task_id : string;
  fa_reason : string;
  fa_error_message : string;
  fa_remaining_count : Z;
  fa_injected_at : string
}.

(** [sorted(rules, key=lambda r: (r.created_at, r.rule_id))]. *)
Definition rule_before (r s : FaultRule) : bool :=
  String.ltb (fr_created_at r) (fr_created_at s)
  || ((fr_created_at r =ˢ fr_created_at s) && String.leb (fr_rule_id r) (fr_rule_id s)).
Fixpoint insert_rule (r : FaultRule) (l : list FaultRule) : list FaultRule :=
  match l with
  | [] => [r]
  | s :: l' => if rule_before r s then r :: l else s :: insert_rule r l'
  end.
Definition list_rules : F (list FaultRule) :=
  rules ← load_rules; mret (foldr insert_rule [] rules).

(** The first rule for the agent and the task is used up by one. *)
Fixpoint consume_rule (agent task timestamp : string) (rules : list FaultRule)
    : result (option (ConsumedFault * list FaultRule)) :=
  match rules with
  | [] => mret None
  | rule :: rest =>
      if (fr_agent_name rule ≠ˢ agent) || (fr_task_id rule ≠ˢ task) then
        found ← consume_rule agent task timestamp rest;
        mret (match found with Some (consumed, rest') => Some (consumed, rule :: rest') | None => None end)
      else
        let remaining := fr_remaining_count rule - 1 in
        let consumed := mkFault (fr_rule_id rule) (fr_agent_name rule) (fr_task_id rule) (fr_reason rule)
                          (str_or (Some (fr_error_message rule)) DEFAULT_ERROR_MESSAGE)
                          (Z.max remaining 0) timestamp in
        if 0 <? remaining then
          rule' ← rule_post_init (mkRule (fr_rule_id rule) (fr_agent_name rule) (fr_task_id rule)
                    (fr_reason rule) remaining (fr_error_message rule) (fr_created_at rule) timestamp);
          mret (Some (consumed, rule' :: rest))
        else mret (Some (consumed, rest))
  end.

Section service.
Context `{Clock} `{Uuids}.

Definition fault_clock : F string :=
  λ s, (Ok (clock_at (fs_ticks s)), mkFaultStore (fs_file s) (S (fs_ticks s)) (fs_uuids s)).
Definition new_fault_id : F string :=
  λ s, (Ok ("flt_" +:+ uuid_hex12 (fs_uuids s)), mkFaultStore (fs_file s) (fs_ticks s) (S (fs_uuids s))).

Definition arm_rule (agent_name task_id reason : string) (count : Z) (error_message : option string)
    : F FaultRule :=
  now ← fault_clock;
  rule_id ← new_fault_id;
  rule ← st_lift (rule_post_init (mkRule rule_id agent_name task_id reason count
           (strip (str_or error_message DEFAULT_ERROR_MESSAGE)) now now));
  rules ← load_rules;
  _ ← save_rules (rules ++ [rule]);
  mret rule.

Definition clear_rule (target : string) : F (list FaultRule) :=
  let key := strip target in
  _ ← st_lift (raise_if (key =ˢ "") (ValueError "fault clear requires <rule_id|all>"));
  rules ← load_rules;
  if key =ˢ "all" then (_ ← save_rules []; mret rules)
  else
    let cleared := List.filter (λ r, fr_rule_id r =ˢ key) rules in
    _ ← st_lift (raise_if (bool_decide (length cleared = 0%nat)) (ValueError ("fault rule not found: " +:+ key)));
    _ ← save_rules (List.filter (λ r, fr_rule_id r ≠ˢ key) rules);
    mret cleared.

Definition consume_for_job (job : JobRecord) (now : option string) : F (option ConsumedFault) :=
  let task_id := strip (default "" (me_task_id (jb_request job))) in
  if task_id =ˢ "" then mret None
  else
    timestamp ← match now ≫= or_none with Some t => mret t | None => fault_clock end;
    rules ← load_rules;
    found ← st_lift (consume_rule (jb_agent_name job) task_id timestamp rules);
    match found with
    | Some (consumed, rules') => _ ← save_rules rules'; mret (Some consumed)
    | None => mret None
    end.
End service.

Definition build_terminal_replay (job : JobRecord) (fault : ConsumedFault)
    : result (list CompletionItem * CompletionDecision) :=
  let payload :=
    [ ("reason", PStr (fa_reason fault));
      ("error", PStr (str_or (Some (fa_error_message fault)) DEFAULT_ERROR_MESSAGE));
      ("error_type", PStr "fault_injection");
      ("fault_rule_id", PStr (fa_rule_id fault));
      ("fault_task_id", PStr (fa_task_id fault));
      ("fault_remaining_count", PInt (fa_remaining_count fault));
      ("fault_injected", PBool true) ] in
  cursor ← cursor_post_init (mkCursor SK_structured_result_stream None None None None (Some 1)
             (Some (fa_injected_at fault)));
  item ← item_post_init (mkItem IK_error (fa_injected_at fault) cursor (jb_provider job)
           (jb_agent_name job) (jb_job_id job) payload);
  decision ← decision_post_init (mkDecision true CS_failed (Some (fa_reason fault)) (Some CC_exact) ""
               false false false (Some (fa_rule_id fault)) (Some cursor) (Some (fa_injected_at fault)) payload);
  mret ([item], decision).

(** ** Rules and their file *)
Record rule_valid (r : FaultRule) : Prop := {
  rv_id : strip (fr_rule_id r) ≠ "";
  rv_task : fr_task_id r ≠ "" ∧ strip (fr_task_id r) = fr_task_id r;
  rv_count : 0 < fr_remaining_count r;
  rv_agent : normalize_agent_name (fr_agent_name r) = Ok (fr_agent_name r);
  rv_reason : fr_reason r ∈ VALID_FAILURE_REASONS;
  rv_message : strip (fr_error_message r) = fr_error_message r
}.

Lemma rule_post_init_ok r r' : rule_post_init r = Ok r' →
  rule_valid r' ∧ fr_remaining_count r' = fr_remaining_count r ∧ fr_task_id r' = strip (fr_task_id r) ∧
  normalize_agent_name (fr_agent_name r) = Ok (fr_agent_name r').
Proof.
  unfold rule_post_init. intros H. inv_result. subst. cbn. split; [|done].
  repeat match goal with K : bool_decide _ = false |- _ => apply bool_decide_eq_false in K end.
  split; cbn; [done| | | | |by rewrite strip_idem].
  - by rewrite strip_idem.
  - lia.
  - by eapply normalize_agent_name_idem'.
  - match goal with K : negb (bool_decide _) = false |- _ => by apply negb_false_iff, bool_decide_eq_true in K end.
Qed.

Lemma rule_post_init_valid r : rule_valid r → rule_post_init r = Ok r.
Proof.
  intros [K1 [K2 K2'] K3 K4 K5 K6]. unfold rule_post_init.
  rewrite K2', K4, K6, (bool_decide_eq_false_2 (strip _ = "")), (bool_decide_eq_false_2 (fr_task_id r = "")) by done.
  cbn [raise_if mbind result_bind].
  replace (fr_remaining_count r <=? 0) with false by lia. cbn [raise_if mbind result_bind].
  assert (lower (strip (fr_reason r)) = fr_reason r) as ->.
  { revert K5. generalize (fr_reason r). intros s Hs.
    repeat (apply elem_of_cons in Hs as [->|Hs]; [reflexivity|]). by apply elem_of_nil in Hs. }
  rewrite bool_decide_eq_true_2 by done. by destruct r.
Qed.

Lemma rule_from_to r : rule_valid r → rule_from_record (rule_to_record r) = Ok r.
Proof.
  intros Hr. unfold rule_from_record, rule_to_record. dict_simpl. cbn [mbind result_bind].
  assert (py_int (py_or (PInt (fr_remaining_count r)) (PInt 0)) = Ok (fr_remaining_count r)) as ->.
  { unfold py_or. cbn. destruct (Z.eqb_spec (fr_remaining_count r) 0) as [E0|]; [by rewrite E0|done]. }
  cbn [mbind result_bind]. refine (eq_trans _ (rule_post_init_valid r Hr)). by destruct r.
Qed.

Lemma rules_of_to rules : Forall rule_valid rules → rules_of ((λ r, PDict (rule_to_record r)) <$> rules) = Ok rules.
Proof.
  induction 1 as [|r l Hr _ IH]; [done|]. rewrite fmap_cons. cbn [rules_of].
  rewrite rule_from_to by done. cbn [mbind result_bind]. by rewrite IH.
Qed.
Lemma rules_in_file rules : Forall rule_valid rules → rules_in (rules_file rules) = Ok rules.
Proof.
  intros Hr. destruct rules as [|r l]; [done|]. unfold rules_in, rules_file. dict_simpl.
  cbn [mbind result_bind py_or py_bool py_int Z.eqb negb raise_if fault_schema_version Pos.eqb].
  by apply rules_of_to.
Qed.

Lemma rules_of_valid l rules : rules_of l = Ok rules → Forall rule_valid rules.
Proof.
  revert rules. induction l as [|v l IH]; intros rules; [by intros [= <-]|].
  destruct v; cbn [rules_of]; try apply IH.
  intros (r & Hr & (rest & Hl & [= <-])%result_bind_Ok_inv)%result_bind_Ok_inv. constructor; [|by apply IH].
  unfold rule_from_record in Hr.
  repeat match type of Hr with (_ ≫= _) = Ok _ => apply result_bind_Ok_inv in Hr as (? & _ & Hr) end.
  by apply rule_post_init_ok in Hr as [Hr _].
Qed.
Lemma rules_in_valid file rules : rules_in file = Ok rules → Forall rule_valid rules.
Proof.
  destruct file as [payload|]; [|by intros [= <-]]. cbn [rules_in].
  intros (v & _ & (u & _ & Hr)%result_bind_Ok_inv)%result_bind_Ok_inv.
  destruct (dget "rules" payload); try (by eapply rules_of_valid); revert Hr; case_match; try done; by intros [= <-].
Qed.

(** ** How many jobs a drill hits *)
Definition rule_for (agent task : string) (r : FaultRule) : bool :=
  (fr_agent_name r =ˢ agent) && (fr_task_id r =ˢ task).
(** What is left of all the rules for an agent and a task. *)
Fixpoint budget (agent task : string) (rules : list FaultRule) : Z :=
  match rules with
  | [] => 0
  | r :: rest => (if rule_for agent task r then fr_remaining_count r else 0) + budget agent task rest
  end.

Lemma budget_nonneg agent task rules : Forall rule_valid rules → 0 <= budget agent task rules.
Proof.
  induction 1 as [|r l [_ _ K3 _ _ _] _ IH]; cbn [budget]; [done|]. destruct (rule_for _ _ _); lia.
Qed.

Lemma rule_for_ne agent task agent' task' r :
  (agent', task') ≠ (agent, task) → rule_for agent task r = true → rule_for agent' task' r = false.
Proof.
  unfold rule_for. intros Hne [<-%bool_decide_eq_true <-%bool_decide_eq_true]%andb_true_iff.
  apply andb_false_iff. destruct (decide (fr_agent_name r = agent')) as [<-|Ha].
  - right. apply bool_decide_eq_false. intros <-. by apply Hne.
  - left. by apply bool_decide_eq_false.
Qed.

Lemma consume_rule_does agent task t rules : Forall rule_valid rules →
  match consume_rule agent task t rules with
  | Ok (Some (f, rules')) =>
      Forall rule_valid rules' ∧ 0 < budget agent task rules ∧
      (∀ a' t', budget a' t' rules' =
         budget a' t' rules - if bool_decide ((a', t') = (agent, task)) then 1 else 0) ∧
      fa_agent_name f = agent ∧ fa_task_id f = task ∧ fa_reason f ∈ VALID_FAILURE_REASONS
  | Ok None => budget agent task rules = 0
  | Err _ => False
  end.
Proof.
  induction 1 as [|r l Hr Hl IH]; [done|]. cbn [consume_rule budget].
  replace ((fr_agent_name r ≠ˢ agent) || (fr_task_id r ≠ˢ task)) with (negb (rule_for agent task r))
    by apply negb_andb.
  destruct (rule_for agent task r) eqn:Hf; cbn [negb].
  - pose proof Hr as [K1 [K2 K2'] K3 K4 K5 K6]. pose proof (budget_nonneg agent task l Hl) as Hb.
    assert (fr_agent_name r = agent ∧ fr_task_id r = task) as [<- <-].
    { by apply andb_true_iff in Hf as [?%bool_decide_eq_true ?%bool_decide_eq_true]. }
    destruct (Z.ltb_spec 0 (fr_remaining_count r - 1)).
    + rewrite rule_post_init_valid by (split; cbn; auto). cbn [mbind result_bind].
      split_and!; [constructor; [split; cbn; auto|done]|lia| |done|done|done].
      intros a' t'. cbn [budget]. change (rule_for a' t' (mkRule _ _ _ _ _ _ _ _)) with (rule_for a' t' r).
      case_bool_decide as K7; [injection K7 as -> ->; rewrite Hf; cbn; lia|].
      rewrite (rule_for_ne _ _ _ _ _ K7 Hf). lia.
    + split_and!; [done|lia| |done|done|done]. intros a' t'.
      case_bool_decide as K7; [injection K7 as -> ->; rewrite Hf; lia|].
      rewrite (rule_for_ne _ _ _ _ _ K7 Hf). lia.
  - destruct (consume_rule agent task t l) as [[[f rules']|]|e]; cbn [mbind result_bind]; [|done|done].
    destruct IH as (K1 & K2 & K3 & K4). split_and!; [by constructor|lia| |apply K4..].
    intros a' t'. cbn [budget]. rewrite K3. lia.
Qed.

Section drill.
Context `{Clock} `{Uuids}.

Definition job_task (job : JobRecord) : string := strip (default "" (me_task_id (jb_request job))).

Lemma consume_for_job_does job now s rules : rules_in (fs_file s) = Ok rules →
  ∃ r s' rules', consume_for_job job now s = (Ok r, s') ∧ rules_in (fs_file s') = Ok rules' ∧
    (bool_decide (is_Some r) = true ↔ 0 < budget (jb_agent_name job) (job_task job) rules) ∧
    (∀ a t, budget a t rules' =
       budget a t rules - if bool_decide (is_Some r ∧ (a, t) = (jb_agent_name job, job_task job)) then 1 else 0).
Proof.
  intros Hl. pose proof (rules_in_valid _ _ Hl) as Hv. unfold consume_for_job. fold (job_task job).
  case_bool_decide as Ht.
  { exists None, s, rules. split_and!; [done|done| |intros a t; rewrite bool_decide_eq_false_2 by (intros [[]]; done); lia].
    rewrite Ht. split; [by intros K1%bool_decide_eq_true%is_Some_None|]. intros Hb. exfalso. clear -Hb Hv.
    induction Hv as [|r l [_ [K2 _] _ _ _ _] _ IH]; cbn [budget] in Hb; [done|]. apply IH. unfold rule_for in Hb.
    rewrite (bool_decide_eq_false_2 _ K2), andb_false_r in Hb. lia. }
  assert (∃ t s1, (match now ≫= or_none with Some t => mret t | None => fault_clock end : F string) s = (Ok t, s1) ∧
    fs_file s1 = fs_file s) as (t & s1 & Hc & Hs1).
  { destruct (now ≫= or_none) as [t|]; [by exists t, s|]. eexists _, _. by split. }
  rewrite (st_bind_ok _ _ _ _ _ Hc), (st_bind_ok load_rules _ s1 rules s1) by (unfold load_rules; by rewrite Hs1, Hl).
  pose proof (consume_rule_does (jb_agent_name job) (job_task job) t rules Hv) as Hd.
  destruct (consume_rule _ _ _ _) as [[[f rules']|]|e]; [| |done]; rewrite (st_lift_bind (Ok _) _ _ _ eq_refl).
  - destruct Hd as (K1 & K2 & K3 & _). eexists (Some f), _, rules'. split; [reflexivity|]. cbn [fs_file].
    split_and!; [by apply rules_in_file|by rewrite bool_decide_eq_true_2 by eauto|].
    intros a t'. rewrite K3. by rewrite (bool_decide_ext (is_Some (Some f) ∧ _) _ (conj (@proj2 _ _) (conj (mk_is_Some _ _ eq_refl)))).
  - exists None, s1, rules. rewrite Hs1. split_and!; [done|done| |].
    + rewrite Hd. split; [by intros K1%bool_decide_eq_true%is_Some_None|lia].
    + intros a t'. rewrite bool_decide_eq_false_2 by (intros [[]]; done). lia.
Qed.

(** The jobs start one after the other; which of them are hit. *)
Fixpoint drill (jobs : list JobRecord) : F (list bool) :=
  match jobs with
  | [] => mret []
  | job :: rest =>
      fault ← consume_for_job job None;
      hits ← drill rest;
      mret (bool_decide (is_Some fault) :: hits)
  end.
Definition starts_task (agent task : string) (job : JobRecord) : bool :=
  (jb_agent_name job =ˢ agent) && (job_task job =ˢ task).
(** The outcomes for the jobs of one agent and task. *)
Definition outcomes (agent task : string) (jobs : list JobRecord) (hits : list bool) : list bool :=
  snd <$> List.filter (λ jh, starts_task agent task jh.1) (zip jobs hits).
(** The first [k] of [n]. *)
Definition first_hits (k n : nat) : list bool := replicate (Nat.min k n) true ++ replicate (n - k) false.

Lemma starts_task_pair agent task job :
  starts_task agent task job = bool_decide ((agent, task) = (jb_agent_name job, job_task job)).
Proof.
  unfold starts_task. rewrite <- bool_decide_and. apply bool_decide_ext. split; [by intros [-> ->]|by intros [= -> ->]].
Qed.

(** A drill hits the jobs it was armed for.  When the rules for an agent and
    a task are armed for [k] failures in all, then among any jobs that start, in
    any order, exactly the first [k] of that agent with that task are made to
    fail, the others are not, and what is left for every agent and task is what
    was armed less the jobs that were hit. *)
Theorem drill_hits_first_jobs jobs s rules (Hl : rules_in (fs_file s) = Ok rules) :
  ∃ hits s' rules', drill jobs s = (Ok hits, s') ∧ rules_in (fs_file s') = Ok rules' ∧
    ∀ agent task,
      let n := length (List.filter (starts_task agent task) jobs) in
      let k := Z.to_nat (budget agent task rules) in
      outcomes agent task jobs hits = first_hits k n ∧
      budget agent task rules' = budget agent task rules - Z.of_nat (Nat.min k n).
Proof.
  revert s rules Hl. induction jobs as [|job jobs IH]; intros s rules Hl.
  { exists [], s, rules. split_and!; [done|done|]. intros agent task. cbn. unfold first_hits. rewrite Nat.min_0_r. cbn.
    by split; [|lia]. }
  destruct (consume_for_job_does job None s rules Hl) as (r & s1 & rules1 & Hc & Hl1 & Hr & Hb).
  destruct (IH s1 rules1 Hl1) as (hits & s2 & rules2 & Hd & Hl2 & Ha).
  eexists _, s2, rules2. split; [cbn [drill]; rewrite (st_bind_ok _ _ _ _ _ Hc), (st_bind_ok _ _ _ _ _ Hd); reflexivity|].
  split; [done|]. intros agent task. specialize (Ha agent task) as [Ho Hb2]. specialize (Hb agent task).
  pose proof (budget_nonneg agent task rules (rules_in_valid _ _ Hl)) as Hp.
  unfold outcomes in *. cbn [zip_with List.filter fst]. rewrite starts_task_pair.
  destruct (decide ((agent, task) = (jb_agent_name job, job_task job))) as [Hk|Hk];
    [rewrite bool_decide_eq_true_2 by done|rewrite bool_decide_eq_false_2 by done].
  - injection Hk as -> ->. rewrite fmap_cons, Ho. cbn [snd length].
    destruct (decide (0 < budget (jb_agent_name job) (job_task job) rules)) as [Hpos|Hz].
    + apply Hr in Hpos as Hs. apply bool_decide_eq_true in Hs as Hs'. rewrite Hs in *.
      rewrite bool_decide_eq_true_2 in Hb by done. rewrite Hb2, Hb. unfold first_hits.
      replace (Z.to_nat (budget _ _ rules)) with (S (Z.to_nat (budget (jb_agent_name job) (job_task job) rules - 1))) by lia.
      split; [done|]. lia.
    + assert (bool_decide (is_Some r) = false) as Hs by (destruct (bool_decide (is_Some r)); [by destruct Hz; apply Hr|done]).
      rewrite Hs. apply bool_decide_eq_false in Hs. rewrite bool_decide_eq_false_2 in Hb by (intros [? _]; done).
      rewrite Hb2, Hb. unfold first_hits. replace (Z.to_nat (budget _ _ rules)) with 0%nat by lia.
      replace (Z.to_nat (budget _ _ rules - 0)) with 0%nat by lia. rewrite !Nat.min_0_l, !Nat.sub_0_r. split; [done|]. lia.
  - rewrite bool_decide_eq_false_2 in Hb by (intros [_ ?]; done). rewrite Ho, Hb2, Hb, Z.sub_0_r. done.
Qed.
End drill.

(** ** A drill *)
Definition drill_job (agent task : string) : JobRecord :=
  mkJob "job_1" None agent "codex"
    (mkEnvelope "p" agent "user" "body" (Some task) None "ask" DS_single false [] None)
    JS_running None None "0" "0" None TK_agent agent None [].
Definition drill_clock : Clock := λ _, "t0".
Definition drill_uuids : Uuids := λ _, "0".
Definition armed_store : fault_store :=
  (@arm_rule drill_clock drill_uuids "agent1" "night" "api_error" 1 None (mkFaultStore None 0 0)).2.
Lemma drill_hits_first_jobs_witness :
  ∃ hits s' rules',
    @drill drill_clock [drill_job "agent2" "night"; drill_job "agent1" "night"; drill_job "agent1" " night"] armed_store
      = (Ok hits, s') ∧ rules_in (fs_file s') = Ok rules' ∧ budget "agent1" "night" rules' = 0.
Proof.
  assert (∃ rules, rules_in (fs_file armed_store) = Ok rules ∧ budget "agent1" "night" rules = 1) as (rules & Hl & Hb).
  { eexists. split; vm_compute; reflexivity. }
  destruct (@drill_hits_first_jobs drill_clock
    [drill_job "agent2" "night"; drill_job "agent1" "night"; drill_job "agent1" " night"] armed_store rules Hl)
    as (hits & s' & rules' & K1 & K2 & K3).
  exists hits, s', rules'. split; [exact K1|]. split; [exact K2|]. rewrite (proj2 (K3 "agent1" "night")), Hb.
  vm_compute. reflexivity.
Defined.
