(* ===== verification/ActivePoll.v ===== *)
(** * What the adapters of external programs share

    [provider_execution/active_runtime] and [common_runtime]: a submission that
    runs in a pane, how it is started, resumed and made ready for a poll, and
    the results of a poll when its runtime is gone. *)
From stdpp Require Import pretty.
From Stdlib Require Import QArith.
From S2P Require Import Prelude PyValue RuntimeValues Names CompletionModels ExecutionModels JobModels.
Open Scope string_scope.
Open Scope list_scope.
Open Scope Z_scope.

(** ** Values of a runtime state *)
(** [int(state.get(k, default))]. *)
Definition rt_int_at (k : string) (dflt : Z) (state : rtdict) : result Z :=
  match od_lookup k state with
  | None => mret dflt
  | Some v => match rt_json v with Some j => py_int j | None => Err (TypeError "int() argument must be a string or a real number") end
  end.
(** [str(state.get(k) or default)]. *)
Definition rt_text_or (k dflt : string) (state : rtdict) : result string := rt_str (rt_or (rt_get k state) (RStr dflt)).
Definition rt_is_none (v : rtval) : bool := match v with RNone => true | _ => false end.

(** [build_item]: the header of the item is that of the submission. *)
Definition build_item (p : ProviderSubmission) (kind : CompletionItemKind) (timestamp : string) (seq : Z) (payload : pydict)
    : result CompletionItem :=
  cursor ← cursor_post_init (mkCursor (ps_source_kind p) None None None None (Some seq) (Some timestamp));
  item_post_init (mkItem kind timestamp cursor (ps_provider p) (ps_agent_name p) (ps_job_id p) payload).

(** ** Submissions that cannot run *)
Definition new_submission (job : JobRecord) (provider now : string) (kind : CompletionSourceKind) (diagnostics : pydict)
    (state : rtdict) : ProviderSubmission :=
  mkProviderSubmission (jb_job_id job) (jb_agent_name job) provider now now kind "" CS_incomplete "in_progress" CC_observed
    (Some diagnostics) state.
Definition passive_submission (job : JobRecord) (provider now : string) (kind : CompletionSourceKind) (reason : string)
    : ProviderSubmission :=
  new_submission job provider now kind
    [("provider", PStr provider); ("mode", PStr "passive"); ("reason", PStr reason)]
    [("mode", RStr "passive"); ("reason", RStr reason)].
Definition error_submission (job : JobRecord) (provider now : string) (kind : CompletionSourceKind) (reason error : string)
    : ProviderSubmission :=
  new_submission job provider now kind
    [("provider", PStr provider); ("mode", PStr "error"); ("reason", PStr reason); ("error", PStr error)]
    [("mode", RStr "error"); ("reason", RStr reason); ("error", RStr error); ("next_seq", RInt 1)].
Definition no_wrap_requested (provider_options : pydict) : bool := py_bool (dget "no_wrap" provider_options).

(** ** Results of a poll without a runtime *)
Definition gone_state (seq : Z) (state : rtdict) : rtdict :=
  od_set "next_seq" (RInt (seq + 1)) (od_set "mode" (RStr "passive") state).
Definition failed_poll (p : ProviderSubmission) (now : string) (kind : CompletionItemKind) (reason : string)
    (payload diagnostics : pydict) : result ProviderPollResult :=
  seq ← rt_int_at "next_seq" 1 (ps_runtime_state p);
  item ← build_item p kind now seq payload;
  decision ← decision_post_init (mkDecision true CS_failed (Some reason) (Some CC_degraded) "" false false false None
               (Some (it_cursor item)) (Some now) diagnostics);
  poll_result_post_init (mkPollResult (with_runtime_state (gone_state seq (ps_runtime_state p)) p) [item] (Some decision)).
Definition pane_dead_result (p : ProviderSubmission) (now reason : string) : result ProviderPollResult :=
  failed_poll p now IK_pane_dead reason [("reason", PStr reason)] [("reason", PStr reason)].
Definition runtime_error_result (p : ProviderSubmission) (now reason error : string) : result ProviderPollResult :=
  let reason := str_or (Some reason) "transport_error" in
  failed_poll p now IK_error reason [("reason", PStr reason); ("error", PStr error)]
    ([("reason", PStr reason)] ++
     if error =ˢ "" then [] else [("error", PStr error); ("error_message", PStr error)]).
Definition runtime_mode_error (p : ProviderSubmission) (now : string) : result (option ProviderPollResult) :=
  let state := ps_runtime_state p in
  mode ← rt_text_or "mode" "passive" state;
  let failed := λ dflt,
    reason ← rt_text_or "reason" dflt state; error ← rt_text_at "error" state;
    r ← runtime_error_result p now reason error; mret (Some r) in
  if mode =ˢ "passive" then failed "runtime_unavailable"
  else if mode =ˢ "error" then failed "transport_error"
  else mret None.

(** ** Sessions and panes

    A session object of a provider, with what the adapters read of it.  Panes
    are reached through a backend object; a method that it may not have is an
    option. *)
Record ProviderSession := mkSession {
  se_work_dir : string; se_path : string; se_id : string; se_root : option string; se_follows : bool; se_data : pydict
}.
Class PaneEnv (X : Type) := {
  pn_ensure_pane : ProviderSession → X → result (bool * string) * X;
  pn_backend_for_session : ProviderSession → X → result (option rtval) * X;
  pn_is_tmux_pane_alive : rtval → option (string → X → result bool * X);
  pn_is_alive : rtval → option (string → X → result bool * X);
  pn_send_text_to_pane : rtval → option (string → string → X → result unit * X);
  pn_send_text : rtval → option (string → string → X → result unit * X)
}.

Inductive PreparedPoll :=
  | PollDone (r : ProviderPollResult)
  | PollReady (reader backend : rtval) (pane_id : string).
Inductive PreparedStart :=
  | StartFailed (p : ProviderSubmission)
  | StartReady (work_dir : string) (session : ProviderSession) (pane_id : string) (backend : rtval).

Section panes.
Context {X : Type} `{PaneEnv X} `{PathLib}.
Context (load_session : string → string → ST X (option ProviderSession)).
Abbreviation M := (ST X).

Definition send_prompt_to_runtime_target (backend : rtval) (pane_id text : string) : M unit :=
  match pn_send_text_to_pane backend, pn_send_text backend with
  | Some send, _ | None, Some send => send pane_id text
  | None, None => st_raise (RuntimeError "terminal backend does not support text submission")
  end.
Definition is_runtime_target_alive (backend : rtval) (pane_id : string) : M bool :=
  match pn_is_tmux_pane_alive backend, pn_is_alive backend with
  | Some check, _ | None, Some check => check pane_id
  | None, None => mret false
  end.

Definition ensure_active_pane_alive (p : ProviderSubmission) (backend : rtval) (pane_id now : string)
    : M (option ProviderPollResult) :=
  alive ← st_try (is_runtime_target_alive backend pane_id) (λ _, mret false);
  if (alive : bool) then mret None else r ← st_lift (pane_dead_result p now "pane_dead"); mret (Some r).
Definition prepare_poll (check_pane_alive : bool) (p : ProviderSubmission) (now : string) : M PreparedPoll :=
  error ← st_lift (runtime_mode_error p now);
  match error with
  | Some r => mret (PollDone r)
  | None =>
      let reader := rt_get "reader" (ps_runtime_state p) in
      let backend := rt_get "backend" (ps_runtime_state p) in
      pane_id ← st_lift (rt_text_at "pane_id" (ps_runtime_state p));
      if rt_is_none reader || rt_is_none backend || (pane_id =ˢ "") then
        r ← st_lift (runtime_error_result p now "runtime_state_corrupt" ""); mret (PollDone r)
      else
        dead ← (if check_pane_alive then ensure_active_pane_alive p backend pane_id now else mret None);
        mret match dead with Some r => PollDone r | None => PollReady reader backend pane_id end
  end.
Definition prepare_active_poll : ProviderSubmission → string → M PreparedPoll := prepare_poll true.
Definition prepare_active_poll_without_liveness : ProviderSubmission → string → M PreparedPoll := prepare_poll false.

Definition session_selector_name (job : JobRecord) : string :=
  if truthy (jb_provider_instance job) then default "" (jb_provider_instance job)
  else if strip (jb_agent_name job) ≠ˢ "" then jb_agent_name job
  else jb_provider job.
Definition context_workspace (context : option ProviderRuntimeContext) : option string :=
  match context ≫= px_workspace_path with Some w => or_none w | None => None end.
Definition prepare_active_start (job : JobRecord) (context : option ProviderRuntimeContext) (provider : string)
    (kind : CompletionSourceKind) (now missing_session_reason : string) : M PreparedStart :=
  let failed := λ reason error, mret (StartFailed (error_submission job provider now kind reason error)) in
  match context_workspace context with
  | None => failed "runtime_unavailable" "missing_runtime_context"
  | Some workspace =>
      work_dir ← st_lift (expanded workspace);
      session ← load_session work_dir (session_selector_name job);
      match session with
      | None => failed "runtime_unavailable" missing_session_reason
      | Some s =>
          pane ← pn_ensure_pane s;
          if negb pane.1 then failed "pane_unavailable" pane.2
          else
            backend ← pn_backend_for_session s;
            match backend with
            | None => failed "backend_unavailable" "terminal backend not available"
            | Some b => mret (StartReady work_dir s pane.2 b)
            end
      end
  end.

(** The session, pane and backend a stored submission goes on with. *)
Definition active_work_dir (context : option ProviderRuntimeContext) (state : rtdict) : M (option string) :=
  match context_workspace context with
  | None => mret None
  | Some workspace =>
      mode ← st_lift (rt_text_or "mode" "passive" state);
      if mode ≠ˢ "active" then mret None else work_dir ← st_lift (expanded workspace); mret (Some work_dir)
  end.
Definition resume_prepared_session (selector work_dir : string) : M (option (ProviderSession * string * rtval)) :=
  session ← load_session work_dir selector;
  match session with
  | None => mret None
  | Some s =>
      pane ← pn_ensure_pane s;
      if negb pane.1 then mret None
      else
        backend ← pn_backend_for_session s;
        mret match backend with Some b => Some (s, pane.2, b) | None => None end
  end.
Definition resume_active_submission (job : JobRecord) (p : ProviderSubmission) (context : option ProviderRuntimeContext)
    (reader_factory : ProviderSession → M rtval)
    (configure_reader : option (rtval → rtdict → M unit)) (completion_dir : option (ProviderSession → M string))
    : M (option ProviderSubmission) :=
  let state := ps_runtime_state p in
  work_dir ← active_work_dir context state;
  match work_dir with
  | None => mret None
  | Some dir =>
      prepared ← resume_prepared_session (session_selector_name job) dir;
      match prepared with
      | None => mret None
      | Some (session, pane_id, backend) =>
          reader ← reader_factory session;
          _ ← match configure_reader with Some f => f reader state | None => mret tt end;
          let resumed := od_update
            [("reader", reader); ("backend", backend); ("pane_id", RStr pane_id); ("mode", RStr "active");
             ("session_path", rt_or (rt_get "session_path" state) (RStr ""))] state in
          resumed ← match completion_dir with
                    | Some f =>
                        if rt_bool (rt_get "completion_dir" state)
                        then mret (od_set "completion_dir" (rt_get "completion_dir" state) resumed)
                        else dir ← f session; mret (od_set "completion_dir" (RStr dir) resumed)
                    | None => mret resumed
                    end;
          mret (Some (with_runtime_state resumed p))
      end
  end.
End panes.
