(* ===== verification/ExecutionService.v ===== *)
(** * The execution service

    [provider_execution/service.py] with [registry.py], [capabilities.py],
    [service_runtime/*], [common_runtime/items.py], [terminal.py] and
    [state_store.py]: it starts jobs with the adapter of their provider, polls
    the adapters, ends jobs that make no progress, replays what a stopped daemon
    had not handed over, and keeps one file per execution.

    The service is modelled as [ccbd/app_runtime/bootstrap.py] builds it, with a
    state store and fault injection.  The adapters, which drive external
    programs, act on a state [X] of their own. *)
From stdpp Require Import pretty.
From Stdlib Require Import QArith.
From S2P Require Import Prelude PyValue RuntimeValues CompletionModels ExecutionModels JobModels.
From S2P Require Import FaultInjection.
Open Scope string_scope.
Open Scope list_scope.
Open Scope Z_scope.

(** ** Adapters

    An attribute of the adapter object that may be missing is an option. *)
Record Adapter (X : Type) := mkAdapter {
  ad_provider : string;
  ad_start : JobRecord → option ProviderRuntimeContext → string → X → result ProviderSubmission * X;
  ad_poll : ProviderSubmission → string → X → result (option ProviderPollResult) * X;
  ad_export_runtime_state : option (ProviderSubmission → X → result (option rtdict) * X);
  ad_resume : option (JobRecord → ProviderSubmission → option ProviderRuntimeContext →
                        PersistedExecutionState → string → X → result (option ProviderSubmission) * X);
  ad_restore_diagnostics : option (X → result (option pydict) * X);
  ad_reliability_policy : option CompletionReliabilityPolicy
}.
Arguments mkAdapter {X}.
Arguments ad_provider {X}.
Arguments ad_start {X}.
Arguments ad_poll {X}.
Arguments ad_export_runtime_state {X}.
Arguments ad_resume {X}.
Arguments ad_restore_diagnostics {X}.
Arguments ad_reliability_policy {X}.

(** [ProviderExecutionRegistry]. *)
Definition registry (X : Type) : Type := list (string * Adapter X).
Definition register {X} (adapter : Adapter X) (r : registry X) : result (registry X) :=
  let provider := lower (strip (ad_provider adapter)) in
  match od_lookup provider r with
  | Some _ => Err (ValueError ("duplicate execution adapter: " +:+ provider))
  | None => mret (od_set provider adapter r)
  end.
Fixpoint build_registry {X} (adapters : list (Adapter X)) (r : registry X) : result (registry X) :=
  match adapters with
  | [] => mret r
  | a :: rest => r' ← register a r; build_registry rest r'
  end.
Definition registry_get {X} (r : registry X) (provider : string) : option (Adapter X) :=
  od_lookup (lower (strip provider)) r.

(** ** State

    Active submissions, runtime contexts and pending replays by job, the files
    [executions/<job id>.json], the fault rules, how often the clock was read,
    and the state of the adapters. *)
Abbreviation replay := (list CompletionItem * option CompletionDecision)%type.
Record execution (X : Type) := mkExecution {
  xs_active : list (string * ProviderSubmission);
  xs_contexts : gmap string (option ProviderRuntimeContext);
  xs_replays : list (string * replay);
  xs_files : gmap string pydict;
  xs_faults : fault_store;
  xs_ticks : nat;
  xs_world : X
}.
Arguments mkExecution {X}.
Arguments xs_active {X}.
Arguments xs_contexts {X}.
Arguments xs_replays {X}.
Arguments xs_files {X}.
Arguments xs_faults {X}.
Arguments xs_ticks {X}.
Arguments xs_world {X}.
Abbreviation XM X := (ST (execution X)).

(** The environment of the service: its clock, the adapters, the terminal
    backends ([send_key] of a backend object, when it has one) and
    [(parse_utc_timestamp(t) + timedelta(seconds=s)).isoformat()]. *)
Class ExecutionEnv (X : Type) := {
  exec_clock_at : nat → string;
  exec_registry : registry X;
  exec_send_key : rtval → option (string → string → X → result unit * X);
  exec_iso_plus : string → Q → result string
}.

Section state.
Context {X : Type}.
Definition with_active v (s : execution X) : execution X :=
  mkExecution v (xs_contexts s) (xs_replays s) (xs_files s) (xs_faults s) (xs_ticks s) (xs_world s).
Definition with_contexts v (s : execution X) : execution X :=
  mkExecution (xs_active s) v (xs_replays s) (xs_files s) (xs_faults s) (xs_ticks s) (xs_world s).
Definition with_replays v (s : execution X) : execution X :=
  mkExecution (xs_active s) (xs_contexts s) v (xs_files s) (xs_faults s) (xs_ticks s) (xs_world s).
Definition with_files v (s : execution X) : execution X :=
  mkExecution (xs_active s) (xs_contexts s) (xs_replays s) v (xs_faults s) (xs_ticks s) (xs_world s).
Definition with_faults v (s : execution X) : execution X :=
  mkExecution (xs_active s) (xs_contexts s) (xs_replays s) (xs_files s) v (xs_ticks s) (xs_world s).
Definition with_ticks v (s : execution X) : execution X :=
  mkExecution (xs_active s) (xs_contexts s) (xs_replays s) (xs_files s) (xs_faults s) v (xs_world s).
Definition with_world v (s : execution X) : execution X :=
  mkExecution (xs_active s) (xs_contexts s) (xs_replays s) (xs_files s) (xs_faults s) (xs_ticks s) v.

Definition in_world {A} (f : X → result A * X) : XM X A :=
  λ s, let '(r, x) := f (xs_world s) in (r, with_world x s).
Definition in_faults {A} (f : ST fault_store A) : XM X A :=
  λ s, let '(r, x) := f (xs_faults s) in (r, with_faults x s).

Definition set_active (job_id : string) (p : ProviderSubmission) : XM X unit :=
  st_modify (λ s, with_active (od_set job_id p (xs_active s)) s).
Definition pop_active (job_id : string) : XM X unit :=
  st_modify (λ s, with_active (od_pop job_id (xs_active s)) s).
Definition set_context (job_id : string) (c : option ProviderRuntimeContext) : XM X unit :=
  st_modify (λ s, with_contexts (<[job_id := c]> (xs_contexts s)) s).
Definition pop_context (job_id : string) : XM X unit :=
  st_modify (λ s, with_contexts (delete job_id (xs_contexts s)) s).
Definition set_replay (job_id : string) (r : replay) : XM X unit :=
  st_modify (λ s, with_replays (od_set job_id r (xs_replays s)) s).
Definition pop_replay (job_id : string) : XM X unit :=
  st_modify (λ s, with_replays (od_pop job_id (xs_replays s)) s).
Definition runtime_context_of (job_id : string) (s : execution X) : option ProviderRuntimeContext :=
  mjoin (xs_contexts s !! job_id).
End state.

(** ** [ExecutionStateStore] *)
Section store.
Context {X : Type} `{PathLib}.
Definition store_load (job_id : string) : XM X (option PersistedExecutionState) := λ s,
  match xs_files s !! job_id with
  | None => (Ok None, s)
  | Some d => match persisted_from_record d with Ok p => (Ok (Some p), s) | Err e => (Err e, s) end
  end.
Definition store_save (p : PersistedExecutionState) : XM X unit :=
  record ← st_lift (persisted_to_record p);
  st_modify (λ s, with_files (<[pe_job_id p := record]> (xs_files s)) s).
Definition store_remove (job_id : string) : XM X unit :=
  st_modify (λ s, with_files (delete job_id (xs_files s)) s).

(** [sorted(directory.glob('*.json'))]: files that do not load are left out. *)
Fixpoint insert_name (suffix n : string) (l : list string) : list string :=
  match l with
  | [] => [n]
  | m :: l' => if String.leb (n +:+ suffix) (m +:+ suffix) then n :: l else m :: insert_name suffix n l'
  end.
Definition store_list_all (s : execution X) : list PersistedExecutionState :=
  omap (λ n, match persisted_from_record <$> xs_files s !! n with Some (Ok p) => Some p | _ => None end)
    (foldr (insert_name ".json") [] (elements (dom (xs_files s)))).

(** [summary]. *)
Record ExecutionSummary := mkSummary {
  es_active : Z;
  es_recoverable : Z;
  es_nonrecoverable : Z;
  es_pending_items : Z;
  es_terminal_pending : Z;
  es_recoverable_providers : list string;
  es_nonrecoverable_providers : list string
}.
Definition sorted_names (l : list string) : list string := foldr (insert_name "") [] (remove_dups l).
Definition count_of {A} (p : A → bool) (l : list A) : Z := Z.of_nat (length (List.filter p l)).
Definition summary_from_states (states : list PersistedExecutionState) : ExecutionSummary :=
  let recoverable := List.filter pe_resume_capable states in
  let nonrecoverable := List.filter (λ p, negb (pe_resume_capable p)) states in
  mkSummary (Z.of_nat (length states)) (Z.of_nat (length recoverable)) (Z.of_nat (length nonrecoverable))
    (count_of (λ p, match pe_pending_items p with [] => false | _ => true end) states)
    (count_of (λ p, match pe_pending_decision p with Some _ => true | None => false end) states)
    (sorted_names (pe_provider <$> recoverable)) (sorted_names (pe_provider <$> nonrecoverable)).
End store.

(** ** [capabilities.py] *)
Section capability.
Context {X : Type}.
Definition is_some {A} (o : option A) : bool := match o with Some _ => true | None => false end.
Definition execution_restore_capability (adapter : option (Adapter X)) (provider : string) : XM X pydict :=
  match adapter with
  | None =>
      mret [ ("resume_supported", PBool false);
             ("restore_mode", PStr "resubmit_required");
             ("restore_reason", PStr "adapter_missing");
             ("restore_detail",
               PStr ("provider " +:+ provider +:+ " has no registered execution adapter")) ]
  | Some a =>
      diagnostics ← match ad_restore_diagnostics a with
                    | Some custom => d ← in_world custom; mret (default [] d)
                    | None => mret []
                    end;
      let resumable := is_some (ad_export_runtime_state a) && is_some (ad_resume a) in
      let resume_supported := py_bool (dget_or "resume_supported" (PBool resumable) diagnostics) in
      restore_mode ← st_lift (py_str (dget_or "restore_mode"
        (PStr (if resume_supported then "provider_resume" else "resubmit_required")) diagnostics));
      mret [ ("resume_supported", PBool resume_supported);
             ("restore_mode", PStr restore_mode);
             ("restore_reason", dget_or "restore_reason"
               (if resume_supported then PNone else PStr "provider_resume_unsupported") diagnostics);
             ("restore_detail", dget_or "restore_detail"
               (PStr (if resume_supported then "provider execution can be resumed after ccbd restart"
                      else "provider execution cannot be resumed after ccbd restart and requires resubmission"))
               diagnostics) ]
  end.
End capability.

(** ** [service_runtime/persistence.py] *)
Definition with_reliability_state (runtime_state source_state : rtdict) : rtdict :=
  let reliability := List.filter (λ kv, String.prefix "reliability_" kv.1) source_state in
  match reliability with [] => runtime_state | _ => od_update reliability runtime_state end.

Definition filter_pending_items (p : PersistedExecutionState) : list CompletionItem :=
  match pe_pending_items p, pe_applied_event_seqs p with
  | [], _ | _, [] => pe_pending_items p
  | items, applied =>
      List.filter (λ i, negb (bool_decide
        ((match cu_event_seq (it_cursor i) with Some z => if z =? 0 then -1 else z | None => -1 end) ∈ applied)))
        items
  end.

Section persistence.
Context {X : Type} `{PathLib} `{ExecutionEnv X}.
Abbreviation M := (XM X).

Definition exec_clock : M string := λ s, (Ok (exec_clock_at (xs_ticks s)), with_ticks (S (xs_ticks s)) s).

Definition acknowledge (job_id : string) : M unit :=
  _ ← pop_replay job_id;
  persisted ← store_load job_id;
  match persisted with
  | None => mret tt
  | Some p =>
      at_ ← exec_clock;
      store_save (mkPersisted (pe_submission p) (pe_runtime_context p) (pe_resume_capable p) at_
                    (pe_pending_decision p) [] [])
  end.

Definition acknowledge_item (job_id : string) (event_seq : option Z) : M unit :=
  match event_seq with
  | None => mret tt
  | Some seq =>
      persisted ← store_load job_id;
      match persisted with
      | None => mret tt
      | Some p =>
          match pe_pending_items p with
          | [] => mret tt
          | _ =>
              at_ ← exec_clock;
              store_save (mkPersisted (pe_submission p) (pe_runtime_context p) (pe_resume_capable p) at_
                            (pe_pending_decision p) (pe_pending_items p)
                            (sorted_seqs (seq :: pe_applied_event_seqs p)))
          end
      end
  end.

(** What the adapter exports, and whether it can resume from it. *)
Definition exported_state (adapter : option (Adapter X)) (submission : ProviderSubmission)
    : M (rtdict * bool) :=
  match adapter ≫= ad_export_runtime_state with
  | None => mret ([], false)
  | Some exporter =>
      exported ← in_world (exporter submission);
      match exported with
      | None => mret ([], false)
      | Some state => mret (state, is_some (adapter ≫= ad_resume))
      end
  end.

Definition persist_submission (job_id : string) (pending_decision : option CompletionDecision)
    (pending_items : list CompletionItem) (applied_event_seqs : list Z) : M unit :=
  active ← st_gets (λ s, od_lookup job_id (xs_active s));
  match active with
  | None => mret tt
  | Some submission =>
      let adapter := registry_get exec_registry (ps_provider submission) in
      capability ← execution_restore_capability adapter (ps_provider submission);
      exported ← exported_state adapter submission;
      let state := with_reliability_state exported.1 (ps_runtime_state submission) in
      context ← st_gets (runtime_context_of job_id);
      at_ ← exec_clock;
      store_save (mkPersisted
        (mkProviderSubmission (ps_job_id submission) (ps_agent_name submission) (ps_provider submission)
           (ps_accepted_at submission) (ps_ready_at submission) (ps_source_kind submission)
           (ps_reply submission) (ps_status submission) (ps_reason submission) (ps_confidence submission)
           (Some (od_update capability (default [] (ps_diagnostics submission)))) state)
        context exported.2 at_ pending_decision pending_items (sorted_seqs applied_event_seqs))
  end.

(** ** [service.py] *)

(** [interrupt_and_clear_runtime_target]: what [send_key] raises is dropped. *)
Fixpoint send_keys (send : string → string → X → result unit * X) (pane_id : string) (keys : list string)
    : M unit :=
  match keys with
  | [] => mret tt
  | key :: rest => λ s, send_keys send pane_id rest (in_world (send pane_id key) s).2
  end.
Definition interrupt_and_clear_runtime_target (backend : rtval) (pane_id : string) : M unit :=
  match exec_send_key backend with
  | None => mret tt
  | Some send => send_keys send pane_id ["C-c"; "Escape"; "C-u"]
  end.
Definition interrupt_active_submission (submission : ProviderSubmission) : M unit :=
  let backend := rt_get "backend" (ps_runtime_state submission) in
  pane_id ← st_lift (rt_text_at "pane_id" (ps_runtime_state submission));
  match backend with
  | RNone => mret tt
  | _ => if strip pane_id =ˢ "" then mret tt
         else interrupt_and_clear_runtime_target backend (strip pane_id)
  end.

Definition start (job : JobRecord) (runtime_context : option ProviderRuntimeContext)
    : M (option ProviderSubmission) :=
  now ← exec_clock;
  injected ← in_faults (@consume_for_job (λ n, exec_clock_at n) job (Some now));
  match injected with
  | Some fault =>
      r ← st_lift (build_terminal_replay job fault);
      _ ← set_context (jb_job_id job) runtime_context;
      _ ← set_replay (jb_job_id job) (r.1, Some r.2);
      mret None
  | None =>
      match registry_get exec_registry (jb_provider job) with
      | None => mret None
      | Some adapter =>
          submission ← in_world (ad_start adapter job runtime_context now);
          _ ← set_active (jb_job_id job) submission;
          _ ← set_context (jb_job_id job) runtime_context;
          _ ← persist_submission (jb_job_id job) None [] [];
          mret (Some submission)
      end
  end.

Definition forget (job_id : string) : M unit :=
  _ ← pop_context job_id;
  _ ← pop_replay job_id;
  store_remove job_id.
Definition cancel (job_id : string) : M unit :=
  submission ← st_gets (λ s, od_lookup job_id (xs_active s));
  _ ← pop_active job_id;
  _ ← match submission with Some p => interrupt_active_submission p | None => mret tt end;
  forget job_id.
Definition finish (job_id : string) : M unit :=
  _ ← pop_active job_id;
  forget job_id.
End persistence.

(** ** [service_runtime/reliability.py] *)
Definition SEMANTIC_PROGRESS_ITEM_KINDS : list CompletionItemKind :=
  [IK_anchor_seen; IK_assistant_chunk; IK_assistant_final; IK_tool_call; IK_tool_result; IK_result;
   IK_turn_boundary; IK_turn_aborted; IK_cancel_info; IK_error; IK_pane_dead].
Definition has_semantic_progress_item (items : list CompletionItem) : bool :=
  existsb (λ i, bool_decide (it_kind i ∈ SEMANTIC_PROGRESS_ITEM_KINDS)) items.

Definition marker_keys : list string :=
  ["bound_turn_id"; "bound_task_id"; "reply_buffer"; "last_agent_message"; "last_final_answer";
   "last_assistant_message"; "last_assistant_signature"; "session_path"].
Fixpoint texts_at (keys : list string) (state : rtdict) : result (list string) :=
  match keys with
  | [] => mret []
  | k :: rest => s ← rt_text_at k state; l ← texts_at rest state; mret (s :: l)
  end.
Definition anchor_in_state (state : rtdict) : bool :=
  rt_bool (rt_get "anchor_seen" state) || rt_bool (rt_get "anchor_emitted" state).
Abbreviation progress_marker :=
  (string * CompletionStatus * string * CompletionConfidence * bool * list string)%type.
Definition semantic_progress_marker (p : ProviderSubmission) : result progress_marker :=
  texts ← texts_at marker_keys (ps_runtime_state p);
  mret (ps_reply p, ps_status p, ps_reason p, ps_confidence p, anchor_in_state (ps_runtime_state p), texts).

Definition has_reliability_progress (r : ProviderPollResult) (previous : ProviderSubmission) : result bool :=
  if has_semantic_progress_item (pr_items r) || is_some (pr_decision r) then mret true
  else
    m ← semantic_progress_marker (pr_submission r);
    m' ← semantic_progress_marker previous;
    mret (negb (bool_decide (m = m'))).

Definition last_progress_key : string := "reliability_last_progress_at".
(** [None]: the submission is returned as it is. *)
Definition with_last_progress_at (p : ProviderSubmission) (at_ : string) : result (option ProviderSubmission) :=
  current ← rt_text_at last_progress_key (ps_runtime_state p);
  if strip current =ˢ at_ then mret None
  else mret (Some (with_runtime_state (od_set last_progress_key (RStr at_) (ps_runtime_state p)) p)).
Definition apply_reliability_progress (r : ProviderPollResult) (previous : ProviderSubmission) (now : string)
    : result ProviderPollResult :=
  progress ← has_reliability_progress r previous;
  if negb progress then mret r
  else
    updated ← with_last_progress_at (pr_submission r) now;
    match updated with
    | None => mret r
    | Some p => poll_result_post_init (mkPollResult p (pr_items r) (pr_decision r))
    end.

Definition last_progress_timestamp (p : ProviderSubmission) : result string :=
  value ← rt_text_at last_progress_key (ps_runtime_state p);
  mret (if strip value =ˢ "" then strip (str_or (Some (ps_ready_at p)) (ps_accepted_at p)) else strip value).

(** Binary64: the number nearest to [q], with ties to even.  The quotient of two
    integers and the product of two numbers are rounded like this; numbers
    beyond the range of the type do not occur here. *)
Definition round_quotient (n d : Z) : Z :=
  let low := n / d in
  match 2 * (n - low * d) ?= d with
  | Lt => low
  | Gt => low + 1
  | Eq => if Z.even low then low else low + 1
  end.
Definition float64 (q : Q) : Q :=
  let n := Z.abs (Qnum q) in
  let d := Zpos (Qden q) in
  if n =? 0 then 0%Q
  else
    let e := Z.log2 n - Z.log2 d - 52 in
    let scaled e := round_quotient (n * 2 ^ Z.max 0 (- e)) (d * 2 ^ Z.max 0 e) in
    let e := if n * 2 ^ Z.max 0 (- e) <? 2 ^ 52 * (d * 2 ^ Z.max 0 e) then e - 1 else e in
    Qred (Z.sgn (Qnum q) * scaled e * 2 ^ Z.max 0 e # Z.to_pos (2 ^ Z.max 0 (- e))).

Section reliability.
Context {X : Type} `{PathLib} `{ExecutionEnv X} `{CompletionLib} `{Environ}.
Abbreviation M := (XM X).

(** [total_seconds] of the difference of two times. *)
Definition timeout_elapsed (started_at now : string) (timeout_s : Q) : bool :=
  if started_at =ˢ "" then false
  else match parse_utc_timestamp now, parse_utc_timestamp started_at with
       | Some (aware, t), Some (aware', t') =>
           bool_decide (aware = aware') && Qle_bool (q_max0 timeout_s) (float64 (Z.sub t t' # 1000000))
       | _, _ => false
       end.

(** [text.replace('+00:00', 'Z')]. *)
Fixpoint replace_offset (skip : nat) (s : string) : string :=
  match s with
  | "" => ""
  | String c s' =>
      match skip with
      | S skip => replace_offset skip s'
      | O => if String.prefix "+00:00" s then String "Z" (replace_offset 5 s')
             else String c (replace_offset 0 s')
      end
  end.
Definition deadline_at (started_at : string) (timeout_s : Q) : option string :=
  if started_at =ˢ "" then None
  else match exec_iso_plus started_at (q_max0 timeout_s) with
       | Ok text => Some (replace_offset 0 text)
       | Err _ => None
       end.

Definition request_anchor_from_runtime_state (state : rtdict) (fallback : string) : result string :=
  text ← rt_text (rt_or (rt_get "request_anchor" state) (rt_or (rt_get "req_id" state) (RStr fallback)));
  mret (strip text).

Definition timeout_policy_for (job_id : string) (adapter : Adapter X) (s : execution X)
    : option CompletionReliabilityPolicy :=
  policy ← ad_reliability_policy adapter;
  let backend := or_none (lower (strip (default "" (runtime_context_of job_id s ≫= px_backend_type)))) in
  if truthy (rp_backend_type policy) && negb (bool_decide (backend = rp_backend_type policy)) then None
  else Some policy.

Definition build_timeout_result (p : ProviderSubmission) (now : string) (timeout_s : Q)
    (last_progress_at : string) (policy : CompletionReliabilityPolicy) : result ProviderPollResult :=
  anchor ← request_anchor_from_runtime_state (ps_runtime_state p) (ps_job_id p);
  let deadline := deadline_at last_progress_at timeout_s in
  let diagnostics := od_update
    [ ("completion_primary_authority", PStr (rp_primary_authority policy));
      ("completion_last_progress_at", PStr last_progress_at);
      ("completion_timeout_s", PFloat timeout_s);
      ("completion_timeout_deadline_at", of_opt_str deadline);
      ("completion_reliability_reason", PStr (rp_timeout_reason policy));
      ("completion_fallback_source", PStr "execution_reliability_monitor") ] (default [] (ps_diagnostics p)) in
  let state := od_update
    [ (last_progress_key, RStr last_progress_at);
      ("reliability_timeout_s", RFloat timeout_s);
      ("reliability_timeout_deadline_at", RStr (default "" deadline));
      ("reliability_terminalized_at", RStr now) ] (ps_runtime_state p) in
  let updated := mkProviderSubmission (ps_job_id p) (ps_agent_name p) (ps_provider p) (ps_accepted_at p)
    (ps_ready_at p) (ps_source_kind p) (ps_reply p) (rp_timeout_status policy) (rp_timeout_reason policy)
    (rp_timeout_confidence policy) (Some diagnostics) state in
  decision ← decision_post_init (mkDecision true (rp_timeout_status policy) (Some (rp_timeout_reason policy))
    (Some (rp_timeout_confidence policy)) (ps_reply p) (anchor_in_state (ps_runtime_state p))
    (ps_reply p ≠ˢ "") (ps_reply p ≠ˢ "") (Some (str_or (Some anchor) (ps_job_id p))) None (Some now)
    diagnostics);
  poll_result_post_init (mkPollResult updated [] (Some decision)).

Definition timeout_poll_result (job_id : string) (p : ProviderSubmission) (adapter : Adapter X) (now : string)
    : M (option ProviderPollResult) :=
  policy ← st_gets (timeout_policy_for job_id adapter);
  match policy with
  | None => mret None
  | Some policy =>
      let timeout_s := effective_no_terminal_timeout_s policy in
      if Qle_bool timeout_s 0 then mret None
      else
        last ← st_lift (last_progress_timestamp p);
        if negb (timeout_elapsed last now timeout_s) then mret None
        else r ← st_lift (build_timeout_result p now timeout_s last policy); mret (Some r)
  end.
End reliability.

(** ** [service_runtime/polling.py] *)
Definition terminal_pending_decision (decision : option CompletionDecision) : option CompletionDecision :=
  match decision with Some d => if cd_terminal d then Some d else None | None => None end.
Definition should_emit_update (r : ProviderPollResult) : bool :=
  match pr_items r with [] => is_some (pr_decision r) | _ => true end.

Section polling.
Context {X : Type} `{PathLib} `{ExecutionEnv X} `{CompletionLib} `{Environ}.
Abbreviation M := (XM X).

Definition should_keep_pending_replay (job_id : string) (decision : option CompletionDecision)
    (s : execution X) : bool :=
  is_some (terminal_pending_decision decision) && negb (is_some (od_lookup job_id (xs_active s))).

(** The updates so far are handed along in order. *)
Fixpoint drain_replays (pending : list (string * replay)) (updates : list ExecutionUpdate)
    : M (list ExecutionUpdate) :=
  match pending with
  | [] => mret updates
  | (job_id, (items, decision)) :: rest =>
      keep ← st_gets (should_keep_pending_replay job_id decision);
      _ ← (if keep : bool then mret tt else pop_replay job_id);
      drain_replays rest (updates ++ [mkUpdate job_id items decision])
  end.

(** What became of a submission: nothing, or the result to record. *)
Definition poll_outcome (job_id : string) (submission : ProviderSubmission) (adapter : Adapter X) (now : string)
    : M (option ProviderPollResult) :=
  polled ← in_world (ad_poll adapter submission now);
  match polled with
  | None => timeout_poll_result job_id submission adapter now
  | Some r =>
      r ← st_lift (apply_reliability_progress r submission now);
      match pr_decision r with
      | Some _ => mret (Some r)
      | None =>
          timeout ← timeout_poll_result job_id (pr_submission r) adapter now;
          mret (Some (default r timeout))
      end
  end.

Definition process_active_job (job_id : string) (submission : ProviderSubmission) (now : string)
    : M (option ExecutionUpdate) :=
  match registry_get exec_registry (ps_provider submission) with
  | None => _ ← pop_active job_id; mret None
  | Some adapter =>
      outcome ← poll_outcome job_id submission adapter now;
      match outcome with
      | None => mret None
      | Some r =>
          _ ← set_active job_id (pr_submission r);
          _ ← persist_submission job_id (terminal_pending_decision (pr_decision r)) (pr_items r) [];
          if negb (should_emit_update r) then mret None
          else
            _ ← (if is_some (terminal_pending_decision (pr_decision r))
                 then _ ← pop_active job_id; pop_context job_id
                 else mret tt);
            mret (Some (mkUpdate job_id (pr_items r) (pr_decision r)))
      end
  end.

Fixpoint process_active_jobs (jobs : list (string * ProviderSubmission)) (replayed : list string) (now : string)
    (updates : list ExecutionUpdate) : M (list ExecutionUpdate) :=
  match jobs with
  | [] => mret updates
  | (job_id, submission) :: rest =>
      if bool_decide (job_id ∈ replayed) then process_active_jobs rest replayed now updates
      else
        update ← process_active_job job_id submission now;
        process_active_jobs rest replayed now (updates ++ option_list update)
  end.

Definition poll_updates : M (list ExecutionUpdate) :=
  now ← exec_clock;
  pending ← st_gets xs_replays;
  updates ← drain_replays pending [];
  active ← st_gets xs_active;
  process_active_jobs active pending.*1 now updates.

(** ** [service_runtime/restore.py], [restore_helpers.py] *)
Definition abandon_restore (job : JobRecord) (reason : string) (resume_capable : bool) (count : nat)
    : M ExecutionRestoreResult :=
  _ ← store_remove (jb_job_id job);
  mret (mkRestored "abandoned" reason resume_capable (Z.of_nat count) None).

Definition restore_submission (job : JobRecord) (runtime_context : option ProviderRuntimeContext)
    : M ExecutionRestoreResult :=
  active ← st_gets (λ s, od_lookup (jb_job_id job) (xs_active s));
  match active with
  | Some _ => mret (mkRestored "restored" "already_active" true 0 None)
  | None =>
      match registry_get exec_registry (jb_provider job) with
      | None => abandon_restore job "adapter_missing" false 0
      | Some adapter =>
          persisted ← store_load (jb_job_id job);
          match persisted with
          | None => mret (mkRestored "missing" "state_missing" false 0 None)
          | Some p =>
              if pe_provider p ≠ˢ jb_provider job
              then abandon_restore job "provider_mismatch" (pe_resume_capable p) (length (pe_pending_items p))
              else
                let pending := filter_pending_items p in
                _ ← (match pending with
                     | [] => mret tt
                     | _ => set_replay (jb_job_id job) (pending, pe_pending_decision p)
                     end);
                match pe_pending_decision p, pending with
                | Some decision, [] =>
                    mret (mkRestored "terminal_pending" "terminal_decision_recovered" (pe_resume_capable p) 0
                            (Some decision))
                | _, _ =>
                    let context := match runtime_context with Some c => Some c | None => pe_runtime_context p end in
                    match (if pe_resume_capable p then ad_resume adapter else None) with
                    | None =>
                        abandon_restore job "provider_resume_unsupported" (pe_resume_capable p) (length pending)
                    | Some resume =>
                        now ← exec_clock;
                        submission ← in_world (resume job (pe_submission p) context p now);
                        match submission with
                        | None =>
                            abandon_restore job "provider_resume_rejected" (pe_resume_capable p) (length pending)
                        | Some submission =>
                            _ ← set_active (jb_job_id job) submission;
                            _ ← set_context (jb_job_id job) context;
                            _ ← persist_submission (jb_job_id job) (pe_pending_decision p) pending
                                  (pe_applied_event_seqs p);
                            mret (mkRestored (match pending with [] => "restored" | _ => "replay_pending" end)
                                    (match pending with [] => "provider_resumed" | _ => "pending_items_recovered" end)
                                    true (Z.of_nat (length pending)) None)
                        end
                    end
                end
          end
      end
  end.
End polling.
