(* ===== verification/FakeProvider.v ===== *)
(** * The scripted provider

    [provider_execution/fake.py] and [fake_runtime/*]: the adapter of the test
    providers.  A job's task id may hold a script; the adapter emits the events
    of the script when their time has come. *)
From stdpp Require Import pretty.
From Stdlib Require Import QArith.
From S2P Require Import Prelude PyValue RuntimeValues CompletionModels ExecutionModels JobModels.
From S2P Require Import ExecutionService.
Open Scope string_scope.
Open Scope list_scope.
Open Scope Z_scope.

(** ** Directives *)
Definition DEFAULT_LATENCY_SECONDS : Q := float64 (2 # 10).
Definition TERMINAL_KIND_BY_STATUS (s : CompletionStatus) : CompletionItemKind :=
  match s with
  | CS_completed => IK_result | CS_cancelled => IK_cancel_info
  | CS_failed => IK_error | CS_incomplete => IK_turn_aborted
  end.
(** [sleep] has no kind. *)
Definition EVENT_KIND_BY_NAME : list (string * option CompletionItemKind) :=
  [ ("anchor_seen", Some IK_anchor_seen); ("assistant_chunk", Some IK_assistant_chunk);
    ("assistant_final", Some IK_assistant_final); ("tool_call", Some IK_tool_call);
    ("tool_result", Some IK_tool_result); ("result", Some IK_result);
    ("turn_boundary", Some IK_turn_boundary); ("turn_aborted", Some IK_turn_aborted);
    ("cancel_info", Some IK_cancel_info); ("error", Some IK_error); ("pane_dead", Some IK_pane_dead);
    ("session_snapshot", Some IK_session_snapshot); ("session_mutation", Some IK_session_mutation);
    ("session_rotate", Some IK_session_rotate); ("sleep", None) ].
Definition TERMINAL_KINDS : list CompletionItemKind :=
  [IK_result; IK_turn_boundary; IK_turn_aborted; IK_cancel_info; IK_error; IK_pane_dead].

Record FakeDirective := mkDirective {
  fd_status : CompletionStatus;
  fd_reason : string;
  fd_confidence : CompletionConfidence;
  fd_latency_seconds : Q;
  fd_script : list pydict
}.
Record FakeScriptEvent := mkScriptEvent {
  fe_at_ms : Z;
  fe_kind : option CompletionItemKind;
  fe_payload : pydict
}.

Definition normalize_script_event (raw : pydict) : result FakeScriptEvent :=
  type_text ← py_str_or_empty (dget "type" raw);
  let event_type := lower (strip type_text) in
  _ ← raise_if (event_type =ˢ "") (ValueError "fake script events require type");
  kind ← match od_lookup event_type EVENT_KIND_BY_NAME with
         | Some kind => mret kind
         | None => Err (ValueError ("unsupported fake script event type: " +:+ repr_str event_type))
         end;
  at_ms ← py_int (dget_or "t" (PInt 0) raw);
  _ ← raise_if (at_ms <? 0) (ValueError "fake script event t must be >= 0");
  mret (mkScriptEvent at_ms kind (List.filter (λ kv, negb (bool_decide (kv.1 ∈ ["t"; "type"]))) raw)).

Definition DEFAULT_REASON_BY_STATUS (s : CompletionStatus) : string :=
  match s with
  | CS_completed => "result_message" | CS_cancelled => "cancel_info"
  | CS_failed => "api_error" | CS_incomplete => "timeout"
  end.

(** [s.split(sep)], and [s.split(sep, 1)] when the separator occurs. *)
Fixpoint split_on (sep : ascii) (s : string) : list string :=
  match s with
  | "" => [""]
  | String c s' =>
      if Ascii.eqb c sep then "" :: split_on sep s'
      else match split_on sep s' with
           | [] => [String c ""]
           | h :: t => String c h :: t
           end
  end.
Fixpoint split_once (sep : ascii) (s : string) : option (string * string) :=
  match s with
  | "" => None
  | String c s' =>
      if Ascii.eqb c sep then Some ("", s')
      else match split_once sep s' with Some (k, v) => Some (String c k, v) | None => None end
  end.
Fixpoint parse_options (parts : list string) (options : list (string * string))
    : result (list (string * string)) :=
  match parts with
  | [] => mret options
  | part :: rest =>
      let item := strip part in
      if item =ˢ "" then parse_options rest options
      else match split_once "=" item with
           | None => Err (ValueError ("invalid fake task_id directive segment: " +:+ repr_str item))
           | Some (key, value) => parse_options rest (od_set (lower (strip key)) (strip value) options)
           end
  end.
Definition parse_directive_options (task_id : string) : result (list (string * string)) :=
  parse_options (tl (split_on ";" task_id)) [].

Definition parse_latency_seconds (latency_ms : option string) (default_latency : Q) : result Q :=
  match latency_ms with
  | None => mret default_latency
  | Some raw => n ← py_int (PStr raw); mret (q_max0 (float64 (n # 1000)))
  end.

(** [json.loads]. *)
Class JsonLib := json_loads : string → option pyval.
Fixpoint script_items (l : list pyval) : result (list pydict) :=
  match l with
  | [] => mret []
  | v :: rest => d ← as_dict "fake script" v; ds ← script_items rest; mret (d :: ds)
  end.
Definition parse_script `{JsonLib} (script : option string) : result (list pydict) :=
  match script with
  | None => mret []
  | Some raw =>
      match json_loads raw with
      | None => Err (ValueError "invalid fake script JSON")
      | Some (PList l) => script_items l
      | Some _ => Err (ValueError "fake script must be a JSON list")
      end
  end.

Definition default_directive (latency : Q) : FakeDirective :=
  mkDirective CS_completed "result_message" CC_exact latency [].
Definition parse_directive `{JsonLib} (task_id : option string) (default_latency : Q) : result FakeDirective :=
  match task_id with
  | None => mret (default_directive default_latency)
  | Some task =>
      if negb (String.prefix "fake;" task) then mret (default_directive default_latency)
      else
        options ← parse_directive_options task;
        status ← completion_status_of (default (completion_status_value CS_completed) (od_lookup "status" options));
        confidence ← enum_of "CompletionConfidence" completion_confidence_value confidences
                       (default (completion_confidence_value CC_exact) (od_lookup "confidence" options));
        let reason := default (DEFAULT_REASON_BY_STATUS status) (od_lookup "reason" options) in
        latency ← parse_latency_seconds (od_lookup "latency_ms" options) default_latency;
        script ← parse_script (od_lookup "script" options);
        mret (mkDirective status reason confidence latency script)
  end.

(** ** Default scripts *)
Definition event (timestamp_ms : Z) (kind : CompletionItemKind) (payload : pydict) : pydict :=
  ("t", PInt timestamp_ms) :: ("type", PStr (completion_item_kind_value kind)) :: payload.
Definition terminal_reason_event (latency_ms : Z) (kind : CompletionItemKind) (d : FakeDirective) : pydict :=
  event latency_ms kind [("reason", PStr (fd_reason d))].
Definition aborted_event (latency_ms : Z) (d : FakeDirective) : pydict :=
  event latency_ms IK_turn_aborted
    [("reason", PStr (fd_reason d)); ("status", PStr (completion_status_value (fd_status d)))].

Definition protocol_turn_script (d : FakeDirective) (latency_ms chunk_ms : Z) : list pydict :=
  match fd_status d with
  | CS_completed =>
      [event 0 IK_anchor_seen []; event chunk_ms IK_assistant_chunk [];
       event latency_ms IK_turn_boundary [("reason", PStr "task_complete")]]
  | CS_cancelled => [event 0 IK_anchor_seen []; aborted_event latency_ms d]
  | CS_failed => [event 0 IK_anchor_seen []; terminal_reason_event latency_ms IK_error d]
  | CS_incomplete => [event 0 IK_anchor_seen []; aborted_event latency_ms d]
  end.
Definition session_boundary_script (d : FakeDirective) (latency_ms chunk_ms : Z) : list pydict :=
  match fd_status d with
  | CS_completed =>
      [event chunk_ms IK_assistant_chunk [];
       event latency_ms IK_turn_boundary [("reason", PStr "turn_duration")]]
  | CS_cancelled => [terminal_reason_event latency_ms IK_cancel_info d]
  | _ => [terminal_reason_event latency_ms IK_error d]
  end.
Definition anchored_session_script (d : FakeDirective) (latency_ms : Z) : list pydict :=
  match fd_status d with
  | CS_cancelled => [event 0 IK_anchor_seen []; terminal_reason_event latency_ms IK_cancel_info d]
  | CS_failed => [event 0 IK_anchor_seen []; terminal_reason_event latency_ms IK_error d]
  | _ => [event 0 IK_anchor_seen []; event latency_ms IK_session_snapshot [("reply", PNone)]]
  end.
Definition legacy_text_script (d : FakeDirective) (latency_ms : Z) : list pydict :=
  match fd_status d with
  | CS_completed => [event latency_ms IK_assistant_final [("done_marker", PBool true)]]
  | CS_cancelled => [terminal_reason_event latency_ms IK_cancel_info d]
  | _ => [terminal_reason_event latency_ms IK_error d]
  end.
Definition default_terminal_script (d : FakeDirective) (latency_ms chunk_ms : Z) : list pydict :=
  let kind := TERMINAL_KIND_BY_STATUS (fd_status d) in
  let terminal := event latency_ms kind [] in
  [event 0 IK_anchor_seen []; event chunk_ms IK_assistant_chunk [];
   if bool_decide (kind = IK_turn_aborted)
   then dset "status" (PStr (completion_status_value (fd_status d))) terminal else terminal].

Definition truncated (q : Q) : Z := Z.quot (Qnum q) (Zpos (Qden q)).
Definition script_timings (d : FakeDirective) : Z * Z :=
  let latency_ms := Z.max 0 (truncated (float64 (fd_latency_seconds d * 1000))) in
  (latency_ms, if latency_ms =? 0 then 0 else Z.max 1 (latency_ms / 2)).
Definition default_script (d : FakeDirective) (mode : string) : list pydict :=
  let '(latency_ms, chunk_ms) := script_timings d in
  if mode =ˢ "protocol_turn" then protocol_turn_script d latency_ms chunk_ms
  else if mode =ˢ "session_boundary" then session_boundary_script d latency_ms chunk_ms
  else if mode =ˢ "anchored_session_stability" then anchored_session_script d latency_ms
  else if mode =ˢ "legacy_text" then legacy_text_script d latency_ms
  else default_terminal_script d latency_ms chunk_ms.

(** ** Payloads *)
Fixpoint first_text (payload : pydict) (keys : list string) : option string :=
  match keys with
  | [] => None
  | k :: rest =>
      match dget k payload with
      | PStr s => if strip s ≠ˢ "" then Some s else first_text payload rest
      | _ => first_text payload rest
      end
  end.
(** [first_text(...) or reply_buffer or default_reply]. *)
Definition text_or (text : option string) (reply_buffer default_reply : string) : string :=
  str_or text (str_or (Some reply_buffer) default_reply).

Definition materialize_chunk_payload (payload : pydict) (reply_buffer default_reply : string)
    : pydict * string :=
  let chunk := str_or (first_text payload ["text"; "reply"]) default_reply in
  let payload := dsetdefault "text" (PStr chunk) payload in
  match first_text payload ["merged_text"] with
  | Some merged => (payload, merged)
  | None => (dset "merged_text" (PStr (reply_buffer +:+ chunk)) payload, reply_buffer +:+ chunk)
  end.
Definition materialize_payload (kind : CompletionItemKind) (payload : pydict)
    (reply_buffer default_reply turn_ref terminal_reason : string) : pydict * string :=
  let resolved := dsetdefault "turn_id" (PStr turn_ref) payload in
  match kind with
  | IK_assistant_chunk => materialize_chunk_payload resolved reply_buffer default_reply
  | IK_assistant_final =>
      let text := text_or (first_text resolved ["text"; "reply"]) reply_buffer default_reply in
      (dsetdefault "text" (PStr text) resolved, text)
  | IK_result | IK_turn_boundary =>
      let reply := text_or (first_text resolved ["reply"; "result_text"; "final_answer"; "text"])
                     reply_buffer default_reply in
      (dsetdefault "reason" (PStr terminal_reason) (dsetdefault "reply" (PStr reply) resolved), reply)
  | IK_cancel_info | IK_error | IK_turn_aborted | IK_pane_dead =>
      let resolved := dsetdefault "reason" (PStr terminal_reason) resolved in
      let resolved := if bool_decide (kind = IK_turn_aborted)
                      then dsetdefault "status" (PStr (completion_status_value CS_incomplete)) resolved
                      else resolved in
      (if reply_buffer ≠ˢ "" then dsetdefault "reply" (PStr reply_buffer) resolved else resolved, reply_buffer)
  | IK_session_snapshot | IK_session_mutation =>
      let reply := text_or (first_text resolved ["reply"; "content"; "text"]) reply_buffer default_reply in
      (dsetdefault "reply" (PStr reply) resolved, reply)
  | _ => (resolved, reply_buffer)
  end.

Definition terminal_diagnostics (p : ProviderSubmission) (payload : pydict) : result pydict :=
  kind ← py_str_or_empty (dget "kind" payload);
  mret (dset "fake_terminal_kind" (PStr kind) (default [] (ps_diagnostics p))).
Definition build_terminal_decision (p : ProviderSubmission) (payload : pydict) (cursor : CompletionCursor)
    (finished_at reply : string) : result CompletionDecision :=
  status ← enum_str "CompletionStatus" completion_status_value completion_statuses
             (py_or (dget "status" payload) (PStr (completion_status_value (ps_status p))));
  confidence ← enum_str "CompletionConfidence" completion_confidence_value confidences
                 (py_or (dget "confidence" payload) (PStr (completion_confidence_value (ps_confidence p))));
  reason ← py_str (py_or (dget "reason" payload) (PStr (ps_reason p)));
  diagnostics ← terminal_diagnostics p payload;
  turn ← py_str (py_or (dget "turn_id" payload) (PStr (ps_job_id p)));
  decision_post_init (mkDecision true status (Some reason) (Some confidence) reply false false false
    (Some turn) (Some cursor) (Some finished_at) diagnostics).

(** ** The adapter *)
Fixpoint rt_of (v : pyval) : rtval :=
  match v with
  | PNone => RNone
  | PBool b => RBool b
  | PInt z => RInt z
  | PFloat q => RFloat q
  | PStr s => RStr s
  | PList l => RList (map rt_of l)
  | PDict d => RDict (map (λ kv, (kv.1, rt_of kv.2)) d)
  end.
(** The JSON value under a key of the runtime state. *)
Definition state_json (k : string) (dflt : pyval) (state : rtdict) : result pyval :=
  match od_lookup k state with
  | None => mret dflt
  | Some v => match rt_json v with Some j => mret j | None => Err (IllTyped k) end
  end.

Record FakeProviderAdapter := mkFakeAdapter {
  fk_provider : string;
  fk_source_kind : CompletionSourceKind;
  fk_script_mode : string;
  fk_latency_seconds : Q
}.

Fixpoint script_events (l : list pydict) : result (list FakeScriptEvent) :=
  match l with
  | [] => mret []
  | raw :: rest => e ← normalize_script_event raw; es ← script_events rest; mret (e :: es)
  end.
Definition event_record (e : FakeScriptEvent) : pydict :=
  [ ("at_ms", PInt (fe_at_ms e));
    ("kind", of_opt_str (completion_item_kind_value <$> fe_kind e));
    ("payload", PDict (fe_payload e)) ].
Definition max_delay_ms (events : list FakeScriptEvent) : Z :=
  match events with [] => 0 | e :: rest => foldl Z.max (fe_at_ms e) (fe_at_ms <$> rest) end.

Section adapter.
Context `{CompletionLib} `{JsonLib}.
(** [(parse_utc_timestamp(t) + timedelta(seconds=s)).isoformat()]. *)
Context (iso_plus : string → Q → result string).

(** [(parse_utc_timestamp(t) + timedelta(milliseconds=ms)).isoformat().replace('+00:00', 'Z')]. *)
Definition time_after (t : string) (ms : Z) : result string :=
  text ← iso_plus t (ms # 1000); mret (replace_offset 0 text).

Definition fake_start (a : FakeProviderAdapter) (job : JobRecord) (now : string) : result ProviderSubmission :=
  directive ← parse_directive (me_task_id (jb_request job)) (fk_latency_seconds a);
  events ← script_events (match fd_script directive with
                          | [] => default_script directive (fk_script_mode a)
                          | script => script
                          end);
  ready_at ← time_after now (max_delay_ms events);
  mret (mkProviderSubmission (jb_job_id job) (jb_agent_name job) (fk_provider a) now ready_at
    (fk_source_kind a)
    ("FAKE[" +:+ jb_agent_name job +:+ "] " +:+ me_body (jb_request job))
    (fd_status directive) (fd_reason directive) (fd_confidence directive)
    (Some [("provider", PStr (fk_provider a)); ("task_id", of_opt_str (me_task_id (jb_request job)))])
    [ ("events", rt_of (PList ((λ e, PDict (event_record e)) <$> events)));
      ("next_index", RInt 0); ("next_seq", RInt 1); ("reply_buffer", RStr "") ]).

(** [int((parse_utc_timestamp(now) - parse_utc_timestamp(start)).total_seconds() * 1000)],
    and not below 0. *)
Definition elapsed_ms (start now : string) : result Z :=
  match parse_utc_timestamp now, parse_utc_timestamp start with
  | Some (aware, t), Some (aware', t') =>
      _ ← raise_if (negb (Bool.eqb aware aware'))
            (TypeError "can't subtract offset-naive and offset-aware datetimes");
      mret (Z.max 0 (truncated (float64 (float64 (Z.sub t t' # 1000000) * 1000))))
  | _, _ => Err (ValueError "Invalid isoformat string")
  end.

(** Where the loop of [poll] is. *)
Record cursor_state := mkLoop {
  lp_index : Z;
  lp_seq : Z;
  lp_buffer : string;
  lp_items : list CompletionItem;
  lp_decision : option CompletionDecision
}.
Definition skip_event (l : cursor_state) : cursor_state :=
  mkLoop (lp_index l + 1) (lp_seq l) (lp_buffer l) (lp_items l) (lp_decision l).

(** One event that is due. *)
Definition emit_event (p : ProviderSubmission) (at_ms : Z) (kind : CompletionItemKind) (payload : pydict)
    (l : cursor_state) : result cursor_state :=
  timestamp ← time_after (ps_accepted_at p) at_ms;
  let '(payload, buffer) := materialize_payload kind payload (lp_buffer l) (ps_reply p) (ps_job_id p)
                              (ps_reason p) in
  cursor ← cursor_post_init (mkCursor (ps_source_kind p) None None None None (Some (lp_seq l)) (Some timestamp));
  item ← item_post_init (mkItem kind timestamp cursor (ps_provider p) (ps_agent_name p) (ps_job_id p) payload);
  decision ← (if bool_decide (kind ∈ TERMINAL_KINDS)
              then d ← build_terminal_decision p payload cursor timestamp (str_or (Some buffer) (ps_reply p));
                   mret (Some d)
              else mret (lp_decision l));
  mret (mkLoop (lp_index l + 1) (lp_seq l + 1) buffer (lp_items l ++ [item]) decision).

(** From the event at [lp_index] on. *)
Fixpoint emit_events (p : ProviderSubmission) (elapsed : Z) (events : list pyval) (l : cursor_state)
    : result cursor_state :=
  match events with
  | [] => mret l
  | raw :: rest =>
      raw_event ← as_dict "events" raw;
      at_ms ← (dindex "at_ms" raw_event ≫= py_int);
      if elapsed <? at_ms then mret l
      else
        payload ← dict_or_empty "payload" (dget "payload" raw_event);
        match dget "kind" raw_event with
        | PNone => emit_events p elapsed rest (skip_event l)
        | kind_name =>
            kind ← enum_str "CompletionItemKind" completion_item_kind_value item_kinds kind_name;
            l' ← emit_event p at_ms kind payload l;
            if bool_decide (kind ∈ TERMINAL_KINDS) then mret l' else emit_events p elapsed rest l'
        end
  end.

Definition fake_poll (p : ProviderSubmission) (now : string) : result (option ProviderPollResult) :=
  let state := ps_runtime_state p in
  events ← (state_json "events" (PList []) state ≫= λ v,
              match v with PList l => mret l | _ => Err (IllTyped "events") end);
  next_index ← (state_json "next_index" (PInt 0) state ≫= py_int);
  next_seq ← (state_json "next_seq" (PInt 1) state ≫= py_int);
  buffer ← (state_json "reply_buffer" (PStr "") state ≫= py_str);
  elapsed ← elapsed_ms (ps_accepted_at p) now;
  _ ← raise_if (next_index <? 0) (IllTyped "next_index");
  l ← emit_events p elapsed (drop (Z.to_nat next_index) events) (mkLoop next_index next_seq buffer [] None);
  if bool_decide (lp_items l = []) && negb (is_some (lp_decision l)) then mret None
  else
    let state := od_set "reply_buffer" (RStr (lp_buffer l))
                   (od_set "next_seq" (RInt (lp_seq l)) (od_set "next_index" (RInt (lp_index l)) state)) in
    r ← poll_result_post_init (mkPollResult (with_runtime_state state p) (lp_items l) (lp_decision l));
    mret (Some r).

Definition fake_resume (job : JobRecord) (p : ProviderSubmission) : option ProviderSubmission :=
  if (ps_job_id p ≠ˢ jb_job_id job) || (ps_provider p ≠ˢ jb_provider job) then None else Some p.

Definition fake_adapter {X} (a : FakeProviderAdapter) : Adapter X := {|
  ad_provider := fk_provider a;
  ad_start job _ now x := (fake_start a job now, x);
  ad_poll p now x := (fake_poll p now, x);
  ad_export_runtime_state := Some (λ p x, (Ok (Some (ps_runtime_state p)), x));
  ad_resume := Some (λ job p _ _ _ x, (Ok (fake_resume job p), x));
  ad_restore_diagnostics := None;
  ad_reliability_policy := None
|}.
End adapter.

(** ** Polling in steps *)
Section polling_in_steps.
Context `{CompletionLib} `{JsonLib} (iso_plus : string → Q → result string).

(** Items emitted before do not matter. *)
Definition prepend (items : list CompletionItem) (l : cursor_state) : cursor_state :=
  mkLoop (lp_index l) (lp_seq l) (lp_buffer l) (items ++ lp_items l) (lp_decision l).
Definition prepend_result (items : list CompletionItem) (r : result cursor_state) : result cursor_state :=
  match r with Ok l => Ok (prepend items l) | Err e => Err e end.

Lemma emit_event_prepend items p at_ms kind payload l :
  emit_event iso_plus p at_ms kind payload (prepend items l) =
    prepend_result items (emit_event iso_plus p at_ms kind payload l).
Proof.
  unfold emit_event. destruct (time_after _ _ _) as [t|]; [|done]. cbn [mbind result_bind prepend lp_buffer lp_seq].
  destruct (materialize_payload _ _ _ _ _ _) as [pl b].
  destruct (cursor_post_init _) as [c|]; [|done]. cbn [mbind result_bind].
  destruct (item_post_init _) as [i|]; [|done]. cbn [mbind result_bind].
  case_bool_decide; [destruct (build_terminal_decision _ _ _ _ _); [|done]|];
    unfold prepend; cbn; by rewrite <- app_assoc.
Qed.

Lemma emit_events_prepend items p elapsed events l :
  emit_events iso_plus p elapsed events (prepend items l) =
    prepend_result items (emit_events iso_plus p elapsed events l).
Proof.
  revert l. induction events as [|raw events IH]; intros l; [done|]. cbn [emit_events].
  destruct (as_dict _ raw) as [d|]; [|done]. cbn [mbind result_bind].
  destruct (dindex _ d ≫= py_int) as [t|]; [|done]. cbn [mbind result_bind].
  destruct (elapsed <? t); [done|]. destruct (dict_or_empty _ _) as [pl|]; [|done]. cbn [mbind result_bind].
  destruct (dget "kind" d); try apply (IH (skip_event l));
    (destruct (enum_str _ _ _ _) as [k|]; [|done]; cbn [mbind result_bind]; rewrite emit_event_prepend;
     destruct (emit_event _ _ _ _ _ l) as [l'|]; [|done]; cbn [prepend_result mbind result_bind];
     case_bool_decide; [done|apply IH]).
Qed.

(** What one event does. *)
Lemma emit_event_does p at_ms kind payload l l' :
  emit_event iso_plus p at_ms kind payload l = Ok l' →
  lp_index l' = lp_index l + 1 ∧ lp_seq l' = lp_seq l + 1 ∧
  (∃ i, lp_items l' = lp_items l ++ [i] ∧ cu_event_seq (it_cursor i) = Some (lp_seq l) ∧
        it_req_id i = ps_job_id p) ∧
  (if bool_decide (kind ∈ TERMINAL_KINDS) then is_Some (lp_decision l') else lp_decision l' = lp_decision l).
Proof.
  unfold emit_event. intros (t & _ & He)%result_bind_Ok_inv.
  destruct (materialize_payload _ _ _ _ _ _) as [pl b].
  apply result_bind_Ok_inv in He as (c & Hc & (i & Hi & He)%result_bind_Ok_inv).
  apply result_bind_Ok_inv in He as (d & Hd & [= <-]). cbn.
  unfold cursor_post_init in Hc. inv_result. subst c. unfold item_post_init in Hi. inv_result. subst i.
  split_and!; [done|done|by eexists|].
  case_bool_decide; [|by injection Hd as <-]. apply result_bind_Ok_inv in Hd as (y & _ & [= <-]). by eexists.
Qed.

(** A first run that met no terminal event stops where a longer one continues. *)
Lemma emit_events_split p e1 e2 events l l1 : e1 <= e2 → lp_decision l = None →
  emit_events iso_plus p e1 events l = Ok l1 → lp_decision l1 = None →
  ∃ n, lp_index l1 = lp_index l + Z.of_nat n ∧
    emit_events iso_plus p e2 events l = emit_events iso_plus p e2 (drop n events) l1.
Proof.
  intros He. revert l. induction events as [|raw events IH]; intros l Hl Hr Hd.
  { exists 0%nat. cbn in Hr |- *. injection Hr as <-. rewrite Z.add_0_r. done. }
  cbn [emit_events] in Hr. apply result_bind_Ok_inv in Hr as (d & Hraw & Hr).
  apply result_bind_Ok_inv in Hr as (t & Ht & Hr).
  destruct (Z.ltb_spec e1 t) as [Hlt|Hge].
  { injection Hr as <-. exists 0%nat. rewrite Z.add_0_r. split; [done|]. by rewrite drop_0. }
  apply result_bind_Ok_inv in Hr as (pl & Hpl & Hr).
  assert (∀ l' m, lp_index l' = lp_index l + 1 → lp_decision l' = None → emit_events iso_plus p e1 events l' = Ok l1 →
    m = emit_events iso_plus p e2 events l' →
    ∃ n, lp_index l1 = lp_index l + Z.of_nat n ∧ m = emit_events iso_plus p e2 (drop n (raw :: events)) l1) as Hstep.
  { intros l' m Hi' Hd' Hr' ->. destruct (IH l' Hd' Hr' Hd) as (n & Hn & Hm). exists (S n). cbn [drop].
    split; [lia|done]. }
  cbn [emit_events]. rewrite Hraw, result_bind_ok, Ht, result_bind_ok.
  destruct (Z.ltb_spec e2 t); [lia|]. rewrite Hpl, result_bind_ok.
  destruct (dget "kind" d) eqn:Hkind; try (by eapply (Hstep (skip_event l)));
    (apply result_bind_Ok_inv in Hr as (k & -> & Hr); cbn [mbind result_bind];
     apply result_bind_Ok_inv in Hr as (l' & Hl' & Hr); rewrite Hl'; cbn [mbind result_bind];
     destruct (emit_event_does _ _ _ _ _ _ Hl') as (K1 & _ & _ & K3);
     case_bool_decide; [injection Hr as <-; by destruct K3; congruence|]; eapply Hstep; [done|congruence|done|done]).
Qed.

(** The items of a run are numbered on from [lp_seq]. *)
Definition numbered (n : Z) (items : list CompletionItem) : Prop :=
  ∀ k i, items !! k = Some i → cu_event_seq (it_cursor i) = Some (n + Z.of_nat k).
Lemma emit_events_numbered p elapsed events l l' :
  emit_events iso_plus p elapsed events l = Ok l' →
  ∃ items, lp_items l' = lp_items l ++ items ∧ numbered (lp_seq l) items ∧
    lp_seq l' = lp_seq l + Z.of_nat (length items) ∧ Forall (λ i, it_req_id i = ps_job_id p) items.
Proof.
  revert l. induction events as [|raw events IH]; intros l Hr.
  { injection Hr as <-. exists []. rewrite app_nil_r. split_and!; [done|by intros [] ? ?|cbn; lia|constructor]. }
  cbn [emit_events] in Hr. apply result_bind_Ok_inv in Hr as (d & _ & Hr).
  apply result_bind_Ok_inv in Hr as (t & _ & Hr). destruct (elapsed <? t).
  { injection Hr as <-. exists []. rewrite app_nil_r. split_and!; [done|by intros [] ? ?|cbn; lia|constructor]. }
  apply result_bind_Ok_inv in Hr as (pl & _ & Hr).
  destruct (dget "kind" d); try exact (IH (skip_event l) Hr);
    (apply result_bind_Ok_inv in Hr as (k & _ & Hr); apply result_bind_Ok_inv in Hr as (l1 & Hl1 & Hr);
     destruct (emit_event_does _ _ _ _ _ _ Hl1) as (_ & Hs & (i & Hi & Hq & Hj) & _);
     assert (∃ items, lp_items l' = lp_items l1 ++ items ∧ numbered (lp_seq l1) items ∧
       lp_seq l' = lp_seq l1 + Z.of_nat (length items) ∧ Forall (λ i, it_req_id i = ps_job_id p) items)
       as (items & K1 & K2 & K3 & K4);
     [case_bool_decide; [injection Hr as <-; exists []; rewrite app_nil_r;
        split_and!; [done|by intros [] ? ?|cbn; lia|constructor]|by apply IH]|];
     exists (i :: items); rewrite K1, Hi, <- app_assoc; split_and!;
       [done| |cbn [length]; lia|by constructor];
     intros [|n] x; [intros [= <-]; rewrite Hq; f_equal; lia|];
     intros Hx; rewrite (K2 n x Hx), Hs; f_equal; lia).
Qed.

(** What [poll] reads of the runtime state, and what it writes. *)
Definition loop_start (p : ProviderSubmission) : result (list pyval * cursor_state) :=
  let state := ps_runtime_state p in
  events ← (state_json "events" (PList []) state ≫= λ v,
              match v with PList l => mret l | _ => Err (IllTyped "events") end);
  next_index ← (state_json "next_index" (PInt 0) state ≫= py_int);
  next_seq ← (state_json "next_seq" (PInt 1) state ≫= py_int);
  buffer ← (state_json "reply_buffer" (PStr "") state ≫= py_str);
  mret (events, mkLoop next_index next_seq buffer [] None).
Definition loop_state (l : cursor_state) (state : rtdict) : rtdict :=
  od_set "reply_buffer" (RStr (lp_buffer l))
    (od_set "next_seq" (RInt (lp_seq l)) (od_set "next_index" (RInt (lp_index l)) state)).
Definition loop_result (p : ProviderSubmission) (l : cursor_state) : result (option ProviderPollResult) :=
  if bool_decide (lp_items l = []) && negb (is_some (lp_decision l)) then mret None
  else
    r ← poll_result_post_init
          (mkPollResult (with_runtime_state (loop_state l (ps_runtime_state p)) p) (lp_items l) (lp_decision l));
    mret (Some r).
Lemma fake_poll_eq p now events l elapsed :
  loop_start p = Ok (events, l) → elapsed_ms (ps_accepted_at p) now = Ok elapsed → 0 <= lp_index l →
  fake_poll iso_plus p now =
    (emit_events iso_plus p elapsed (drop (Z.to_nat (lp_index l)) events) l ≫= loop_result p).
Proof.
  unfold loop_start, fake_poll. intros (ev & Hev & (i & Hi & (s & Hs & (b & Hb & Hl)%result_bind_Ok_inv)
    %result_bind_Ok_inv)%result_bind_Ok_inv)%result_bind_Ok_inv He Hn. injection Hl as <- <-.
  rewrite Hev, result_bind_ok, Hi, result_bind_ok, Hs, result_bind_ok, Hb, result_bind_ok, He, result_bind_ok.
  cbn [lp_index] in *. replace (i <? 0) with false by lia. done.
Qed.
Lemma fake_poll_inv p now r : fake_poll iso_plus p now = Ok (Some r) →
  ∃ events l elapsed l', loop_start p = Ok (events, l) ∧ lp_items l = [] ∧ lp_decision l = None ∧ 0 <= lp_index l ∧
    elapsed_ms (ps_accepted_at p) now = Ok elapsed ∧
    emit_events iso_plus p elapsed (drop (Z.to_nat (lp_index l)) events) l = Ok l' ∧
    r = mkPollResult (with_runtime_state (loop_state l' (ps_runtime_state p)) p) (lp_items l') (lp_decision l').
Proof.
  unfold fake_poll, loop_start.
  intros (ev & Hev & (i & Hi & (s & Hs & (b & Hb & (e & He & (u & Hu & (l' & Hl & Hr)%result_bind_Ok_inv)
    %result_bind_Ok_inv)%result_bind_Ok_inv)%result_bind_Ok_inv)%result_bind_Ok_inv)%result_bind_Ok_inv)%result_bind_Ok_inv.
  apply raise_if_Ok in Hu. exists ev, (mkLoop i s b [] None), e, l'.
  rewrite Hev, result_bind_ok, Hi, result_bind_ok, Hs, result_bind_ok, Hb. cbn [lp_index lp_items lp_decision].
  split_and!; [done|done|done|lia|done|done|].
  destruct (_ && _); [done|]. apply result_bind_Ok_inv in Hr as (r' & Hp & Hr).
  unfold poll_result_post_init in Hp. inv_result. by subst.
Qed.

Lemma state_json_set k k' v dflt state : k ≠ k' → state_json k dflt (od_set k' v state) = state_json k dflt state.
Proof. intros Hk. unfold state_json. by rewrite od_lookup_set_ne. Qed.
Lemma state_json_get k v j dflt state : rt_json v = Some j → state_json k dflt (od_set k v state) = Ok j.
Proof. intros Hv. unfold state_json. by rewrite od_lookup_set, Hv. Qed.

Lemma loop_start_again p events l l1 : loop_start p = Ok (events, l) →
  loop_start (with_runtime_state (loop_state l1 (ps_runtime_state p)) p) =
    Ok (events, mkLoop (lp_index l1) (lp_seq l1) (lp_buffer l1) [] None).
Proof.
  unfold loop_start. intros (ev & Hev & (i & _ & (s & _ & (b & _ & Hl)%result_bind_Ok_inv)
    %result_bind_Ok_inv)%result_bind_Ok_inv)%result_bind_Ok_inv. injection Hl as <- <-.
  cbn [with_runtime_state ps_runtime_state]. unfold loop_state.
  rewrite !(state_json_set "events") by done. rewrite Hev, result_bind_ok.
  rewrite (state_json_set "next_index" "reply_buffer"), (state_json_set "next_index" "next_seq") by done.
  rewrite (state_json_get "next_index" _ (PInt (lp_index l1))) by done. cbn [mbind result_bind py_int].
  rewrite (state_json_set "next_seq" "reply_buffer") by done.
  rewrite (state_json_get "next_seq" _ (PInt (lp_seq l1))) by done. cbn [mbind result_bind py_int].
  by rewrite (state_json_get "reply_buffer" _ (PStr (lp_buffer l1))).
Qed.
Lemma loop_state_again l1 l2 state : loop_state l2 (loop_state l1 state) = loop_state l2 state.
Proof.
  unfold loop_state.
  rewrite (od_set_swap "next_index" "reply_buffer"), (od_set_swap "next_index" "next_seq"), od_set_set;
    [|done|rewrite od_lookup_set; by eexists|done|rewrite od_lookup_set_ne, od_lookup_set by done; by eexists].
  rewrite (od_set_swap "next_seq" "reply_buffer"), od_set_set, od_set_set;
    [done|done|rewrite od_lookup_set; by eexists].
Qed.
Lemma emit_ignores_state p state elapsed events l :
  emit_events iso_plus (with_runtime_state state p) elapsed events l = emit_events iso_plus p elapsed events l.
Proof.
  revert l. induction events as [|raw events IH]; intros l; [done|]. cbn [emit_events].
  destruct (as_dict _ raw) as [d|]; [|done]. cbn [mbind result_bind].
  destruct (dindex _ d ≫= py_int) as [t|]; [|done]. cbn [mbind result_bind].
  destruct (elapsed <? t); [done|]. destruct (dict_or_empty _ _) as [pl|]; [|done]. cbn [mbind result_bind].
  destruct (dget "kind" d); try apply IH;
    (destruct (enum_str _ _ _ _) as [k|]; [|done]; cbn [mbind result_bind];
     change (emit_event iso_plus (with_runtime_state state p) t k pl l) with (emit_event iso_plus p t k pl l);
     destruct (emit_event _ _ _ _ _ l) as [l'|]; [|done]; cbn [mbind result_bind]; case_bool_decide; [done|apply IH]).
Qed.

(** Polling often is polling once.  When a poll of a scripted job returned
    items and no decision, then a later poll of the submission it returned gives
    exactly the rest: the items of both polls, in order, and the decision and
    the state of the second are what one poll at the later time would have given
    (up to pauses at the end of the script that were skipped), and when it
    raises, so does the one poll.  The items of a poll carry consecutive event
    numbers. *)
Theorem fake_polls_add_up p t1 t2 e1 e2 r1 (H1 : fake_poll iso_plus p t1 = Ok (Some r1))
    (Hd : pr_decision r1 = None) (He1 : elapsed_ms (ps_accepted_at p) t1 = Ok e1)
    (He2 : elapsed_ms (ps_accepted_at p) t2 = Ok e2) (He : e1 <= e2) :
  (∃ n, numbered n (pr_items r1)) ∧
  match fake_poll iso_plus (pr_submission r1) t2 with
  | Ok (Some r2) =>
      fake_poll iso_plus p t2 =
        Ok (Some (mkPollResult (pr_submission r2) (pr_items r1 ++ pr_items r2) (pr_decision r2)))
  | Ok None =>
      ∃ r, fake_poll iso_plus p t2 = Ok (Some r) ∧ pr_items r = pr_items r1 ∧ pr_decision r = None
  | Err e => fake_poll iso_plus p t2 = Err e
  end.
Proof.
  destruct (fake_poll_inv _ _ _ H1) as (events & l & e & l1 & Hs & Hi & Hdl & Hn & He1' & Hl1 & ->).
  rewrite He1 in He1'. injection He1' as <-. cbn [pr_decision pr_items pr_submission] in *.
  destruct (emit_events_numbered _ _ _ _ _ Hl1) as (items & Hitems & Hnum & _ & _). rewrite Hi in Hitems.
  split; [exists (lp_seq l); rewrite Hitems; exact Hnum|].
  destruct (emit_events_split _ _ _ _ _ _ He Hdl Hl1 Hd) as (n & Hidx & Hsplit). rewrite drop_drop in Hsplit.
  pose proof (loop_start_again _ _ _ l1 Hs) as Hs1.
  rewrite (fake_poll_eq p t2 _ _ _ Hs He2 Hn), Hsplit.
  rewrite (fake_poll_eq _ t2 _ _ _ Hs1 He2) by (cbn; lia). cbn [lp_index]. rewrite emit_ignores_state.
  replace (Z.to_nat (lp_index l1)) with (Z.to_nat (lp_index l) + n)%nat by lia.
  set (l0 := mkLoop (lp_index l1) (lp_seq l1) (lp_buffer l1) [] None).
  assert (l1 = prepend (lp_items l1) l0) as Hl0.
  { unfold prepend, l0. cbn. rewrite app_nil_r. destruct l1; cbn in *. by subst. }
  assert (lp_items l1 ≠ []) as Hne.
  { intros Hnil. rewrite (fake_poll_eq p t1 _ _ _ Hs He1 Hn), Hl1 in H1. cbn in H1.
    unfold loop_result in H1. by rewrite Hnil, Hd in H1. }
  assert (∀ evs, emit_events iso_plus p e2 evs l1 = prepend_result (lp_items l1) (emit_events iso_plus p e2 evs l0)) as Hpre.
  { intros evs. rewrite <- emit_events_prepend. by rewrite <- Hl0. }
  rewrite Hpre.
  destruct (emit_events iso_plus p e2 _ l0) as [l2|x]; [|done]. cbn [prepend_result mbind result_bind].
  unfold loop_result. cbn [prepend lp_items lp_decision with_runtime_state ps_runtime_state].
  rewrite (bool_decide_eq_false_2 (lp_items l1 ++ lp_items l2 = [])) by (by intros [? _]%app_eq_nil). cbn [andb].
  rewrite loop_state_again. destruct (bool_decide (lp_items l2 = []) && _) eqn:Hnone.
  - apply andb_true_iff in Hnone as [Hnil%bool_decide_eq_true Hdec].
    destruct (lp_decision l2) as [d|]; [done|]. cbn. eexists. split; [reflexivity|]. cbn. by rewrite Hnil, app_nil_r.
  - unfold poll_result_post_init. cbn [pr_decision]. destruct (raise_if _ _); done.
Qed.
End polling_in_steps.


(** ** A scripted job

    Times are microseconds. *)
Definition script_lib : CompletionLib := {|
  sha256_hexdigest := λ _, "";
  fromisoformat := λ s, match parse_int s with Some z => Some (true, z) | None => None end
|}.
Definition script_json : JsonLib := λ _, None.
Definition script_plus : string → Q → result string := λ t _, Ok t.
Definition fake_provider : FakeProviderAdapter :=
  mkFakeAdapter "fake" SK_structured_result_stream "structured_result" DEFAULT_LATENCY_SECONDS.
Definition scripted_job : JobRecord :=
  mkJob "job_1" None "agent1" "fake"
    (mkEnvelope "p" "agent1" "user" "hello" None None "ask" DS_single false [] None)
    JS_running None None "0" "0" None TK_agent "agent1" None [].
Definition scripted_submission : ProviderSubmission :=
  match @fake_start script_json script_plus fake_provider scripted_job "0" with
  | Ok p => p
  | Err _ => mkProviderSubmission "" "" "" "" "" SK_terminal_text "" CS_failed "" CC_exact None []
  end.

(** After 100 ms the anchor and a chunk; after 300 ms the rest, the answer. *)
Lemma fake_polls_add_up_witness :
  ∃ r1 r2,
    @fake_poll script_lib script_plus scripted_submission "100000" = Ok (Some r1) ∧ length (pr_items r1) = 2%nat ∧
    @fake_poll script_lib script_plus (pr_submission r1) "300000" = Ok (Some r2) ∧
    @fake_poll script_lib script_plus scripted_submission "300000" =
      Ok (Some (mkPollResult (pr_submission r2) (pr_items r1 ++ pr_items r2) (pr_decision r2))) ∧
    cd_reply <$> pr_decision r2 = Some "FAKE[agent1] hello".
Proof.
  eexists _, _. split; [vm_compute; reflexivity|]. split; [reflexivity|]. split; [vm_compute; reflexivity|].
  split; [|reflexivity].
  match goal with |- _ = Ok (Some (mkPollResult _ (pr_items ?r1 ++ pr_items ?r2) _)) =>
    assert (@fake_poll script_lib script_plus (pr_submission r1) "300000" = Ok (Some r2)) as Hr2
      by (vm_compute; reflexivity);
    pose proof (@fake_polls_add_up script_lib script_plus scripted_submission "100000" "300000" 100 300 r1) as Hp
  end.
  rewrite Hr2 in Hp. apply Hp; [vm_compute; reflexivity..|vm_compute; discriminate].
Defined.
