(* ===== verification/CodexLog.v ===== *)
(** * The session logs of codex

    [provider_backends/codex/comm_runtime]: what a line of a log says
    ([log_entries_runtime]), and the reader that follows a log from an offset
    and changes to a newer one ([polling_runtime], [session_selection_runtime],
    [state.py], [log_reader_facade.py]), as [try_get_entries] uses it: without
    blocking. *)
From stdpp Require Import pretty.
From Stdlib Require Import QArith.
From S2P Require Import Prelude PyValue RuntimeValues ExecutionModels Jsonl Detectors ExecutionService FakeProvider ProviderProtocol.
Open Scope string_scope.
Open Scope list_scope.
Open Scope Z_scope.

(** ** Messages *)
Definition as_text (v : pyval) : option string := match v with PStr s => Some s | _ => None end.
Fixpoint first_nonempty_text (values : list pyval) : option string :=
  match values with
  | [] => None
  | v :: rest =>
      match v with
      | PStr s => if strip s =ˢ "" then first_nonempty_text rest else Some (strip s)
      | _ => first_nonempty_text rest
      end
  end.
(** [d.get('payload', {})] when it is an object. *)
Definition payload_dict (entry : pydict) : pydict := match dget "payload" entry with PDict d => d | _ => [] end.
Definition is_any (texts : list string) (v : pyval) : bool := existsb (py_eq_str v) texts.

Fixpoint item_texts (kinds : list string) (content : list pyval) : list string :=
  match content with
  | [] => []
  | PDict item :: rest =>
      if is_any kinds (dget "type" item) then
        match first_nonempty_text [dget "text" item] with Some t => t :: item_texts kinds rest | None => item_texts kinds rest end
      else item_texts kinds rest
  | _ :: rest => item_texts kinds rest
  end.
Definition joined_texts (texts : list string) : option string :=
  match texts with [] => None | _ => Some (strip (join_lines texts)) end.
Definition join_response_item_assistant_text (content : list pyval) : option string :=
  joined_texts (item_texts ["output_text"; "text"] content).
Definition join_response_item_user_text (content : pyval) : option string :=
  match content with PList l => joined_texts (item_texts ["input_text"] l) | _ => None end.

Definition AGENT_MESSAGE_TYPES : list string :=
  ["agent_message"; "assistant_message"; "assistant"; "assistant_response"; "message"].
Definition response_item_message (payload : pydict) : option string :=
  if negb (py_eq_str (dget "type" payload) "message") || py_eq_str (dget "role" payload) "user" then None
  else
    let fallback := first_nonempty_text [dget "message" payload] in
    match py_or (dget "content" payload) (PList []) with
    | PList content =>
        match join_response_item_assistant_text content with
        | Some text => if text =ˢ "" then fallback else Some text
        | None => fallback
        end
    | PStr s => if strip s =ˢ "" then fallback else Some (strip s)
    | _ => fallback
    end.
Definition message_texts (payload : pydict) : option string :=
  first_nonempty_text [dget "message" payload; dget "content" payload; dget "text" payload].
Definition event_message (payload : pydict) : option string :=
  if negb (is_any AGENT_MESSAGE_TYPES (dget "type" payload)) || py_eq_str (dget "role" payload) "user" then None
  else message_texts payload.
Definition extract_message (entry : pydict) : option string :=
  let payload := payload_dict entry in
  if py_eq_str (dget "type" entry) "response_item" then response_item_message payload
  else if py_eq_str (dget "type" entry) "event_msg" then event_message payload
  else if py_eq_str (dget "role" payload) "assistant" then message_texts payload
  else None.
Definition extract_user_message (entry : pydict) : option string :=
  let payload := payload_dict entry in
  if py_eq_str (dget "type" entry) "event_msg" && py_eq_str (dget "type" payload) "user_message"
  then first_nonempty_text [dget "message" payload]
  else if py_eq_str (dget "type" entry) "response_item" && py_eq_str (dget "type" payload) "message"
          && py_eq_str (dget "role" payload) "user"
  then join_response_item_user_text (py_or (dget "content" payload) (PList []))
  else None.

(** ** Entries *)
Definition stripped_at (k : string) (d : pydict) : result string := text ← py_str_or_empty (dget k d); mret (strip text).
Definition base_entry (entry payload : pydict) : result pydict :=
  entry_type ← stripped_at "type" entry;
  payload_type ← stripped_at "type" payload;
  mret [("entry_type", PStr entry_type); ("payload_type", PStr payload_type); ("timestamp", dget "timestamp" entry);
        ("phase", dget "phase" payload); ("turn_id", dget "turn_id" payload); ("task_id", dget "task_id" payload);
        ("reason", dget "reason" payload); ("last_agent_message", dget "last_agent_message" payload);
        ("entry", PDict entry)].
Definition entry_with_text (role text : string) (base : pydict) : pydict :=
  dset "text" (PStr text) (dset "role" (PStr role) base).
Definition system_entry (text : string) (reason : pyval) (base : pydict) : pydict :=
  dset "reason" reason (entry_with_text "system" text base).
Definition payload_role (payload : pydict) : result string := role ← stripped_at "role" payload; mret (lower role).

Definition user_entry (entry base : pydict) : pydict := entry_with_text "user" (default "" (extract_user_message entry)) base.
Definition assistant_entry (entry base : pydict) : pydict := entry_with_text "assistant" (default "" (extract_message entry)) base.
Definition response_message_entry (entry base : pydict) (role : string) : option pydict :=
  if role =ˢ "user" then Some (user_entry entry base)
  else if role =ˢ "assistant" then Some (assistant_entry entry base)
  else None.
Definition event_message_entry (entry payload base : pydict) (payload_type : string) : result (option pydict) :=
  if payload_type =ˢ "user_message" then mret (Some (user_entry entry base))
  else if bool_decide (payload_type ∈ AGENT_MESSAGE_TYPES) then
    role ← payload_role payload;
    mret (Some (if role =ˢ "user" then user_entry entry base else assistant_entry entry base))
  else if payload_type =ˢ "task_complete" then
    text ← stripped_at "last_agent_message" payload; mret (Some (system_entry text (PStr "task_complete") base))
  else if payload_type =ˢ "turn_aborted" then
    text ← stripped_at "message" payload;
    mret (Some (system_entry text (py_or (dget "reason" payload) (PStr "turn_aborted")) base))
  else mret None.
Definition text_of (k : string) (d : pydict) : string := default "" (as_text (dget k d)).
Definition direct_entry (entry payload base : pydict) : result (option pydict) :=
  let entry_type := text_of "entry_type" base in
  let payload_type := text_of "payload_type" base in
  if (entry_type =ˢ "response_item") && (payload_type =ˢ "message") then
    role ← payload_role payload; mret (response_message_entry entry base role)
  else if entry_type ≠ˢ "event_msg" then mret None
  else event_message_entry entry payload base payload_type.
Definition fallback_entry (entry payload base : pydict) : result (option pydict) :=
  let user_text := strip (default "" (extract_user_message entry)) in
  if user_text ≠ˢ "" then mret (Some (entry_with_text "user" user_text base))
  else
    let assistant_text := strip (default "" (extract_message entry)) in
    if assistant_text ≠ˢ "" then
      role ← payload_role payload; mret (Some (entry_with_text (str_or (Some role) "assistant") assistant_text base))
    else mret None.
Definition extract_entry (entry : pydict) : result (option pydict) :=
  let payload := payload_dict entry in
  base ← base_entry entry payload;
  direct ← direct_entry entry payload base;
  match direct with Some e => mret (Some e) | None => fallback_entry entry payload base end.
Definition extract_event (entry : pydict) : result (option (string * string)) :=
  normalized ← extract_entry entry;
  match normalized with
  | None => mret None
  | Some e =>
      role ← stripped_at "role" e; text ← stripped_at "text" e;
      mret (if bool_decide (lower role ∈ ["user"; "assistant"]) && (text ≠ˢ "") then Some (lower role, text) else None)
  end.

(** ** Log files

    A file below the roots of the sessions, with what [stat], [open] and its
    first line say of it; [None] when the system call fails. *)
Record LogFile := mkLogFile {
  lf_path : string; lf_stat : option (Z * Q); lf_bytes : option bytes; lf_cwd : option string
}.
Record CodexLogReader := mkReader {
  rd_root : string;
  rd_preferred_log : option string;
  rd_session_id_filter : option string;
  rd_work_dir : option string;
  rd_follow_workspace_sessions : bool
}.
Definition with_preferred_log (p : option string) (r : CodexLogReader) : CodexLogReader :=
  mkReader (rd_root r) p (rd_session_id_filter r) (rd_work_dir r) (rd_follow_workspace_sessions r).
Definition file_at (files : list LogFile) (path : string) : option LogFile := List.find (λ f, lf_path f =ˢ path) files.
Definition exists_log (files : list LogFile) (path : string) : bool := is_some (file_at files path).
(** [root.glob('**/*.jsonl')], in the order of [files]. *)
Definition ends_with (suffix s : string) : bool :=
  let n := String.length s in let k := String.length suffix in
  (k <=? n)%nat && (String.substring (n - k) k s =ˢ suffix).
Definition below_root (root path : string) : bool := String.prefix (root +:+ "/") path && ends_with ".jsonl" path.

Definition follow_workspace_sessions (r : CodexLogReader) : bool := rd_follow_workspace_sessions r && truthy (rd_work_dir r).
Definition matches_session_filter (r : CodexLogReader) (path : string) : bool :=
  if negb (truthy (rd_session_id_filter r)) || follow_workspace_sessions r then true
  else str_contains (lower (default "" (rd_session_id_filter r))) (lower path).
Definition matches_work_dir (r : CodexLogReader) (f : LogFile) : bool :=
  if negb (truthy (rd_work_dir r)) then true
  else truthy (lf_cwd f) && bool_decide (lf_cwd f = rd_work_dir r).
Definition candidate_logs (r : CodexLogReader) (files : list LogFile) : list (string * Q) :=
  omap (λ f, if below_root (rd_root r) (lf_path f) && matches_session_filter r (lf_path f) && matches_work_dir r f
             then (λ s : Z * Q, (lf_path f, s.2)) <$> lf_stat f else None) files.
(** The last one with the greatest modification time. *)
Definition newer (best : option string * Q) (c : string * Q) : option string * Q :=
  if Qle_bool best.2 c.2 then (Some c.1, c.2) else best.
Definition scan_latest (r : CodexLogReader) (files : list LogFile) : option string :=
  (foldl newer (None, (-1)%Q) (candidate_logs r files)).1.

Definition preferred_is_bound (r : CodexLogReader) (files : list LogFile) : bool :=
  match rd_preferred_log r with
  | Some p => exists_log files p && truthy (rd_session_id_filter r) && negb (follow_workspace_sessions r)
  | None => false
  end.
Definition log_mtime (files : list LogFile) (path : string) : option Q := snd <$> (file_at files path ≫= lf_stat).
(** The log that is chosen, and the reader with it as its preferred one. *)
Definition select_preferred_or_latest (r : CodexLogReader) (files : list LogFile) (preferred : string) (latest : option string)
    : string * CodexLogReader :=
  match latest with
  | None => (preferred, r)
  | Some l =>
      if l =ˢ preferred then (preferred, r)
      else match log_mtime files preferred, log_mtime files l with
           | Some old, Some new => if Qle_bool new old then (preferred, r) else (l, with_preferred_log (Some l) r)
           | _, _ => (l, with_preferred_log (Some l) r)
           end
  end.
Definition latest_log (r : CodexLogReader) (files : list LogFile) : option string * CodexLogReader :=
  let scanned := match scan_latest r files with
                 | Some l => (Some l, with_preferred_log (Some l) r)
                 | None => (None, r)
                 end in
  match rd_preferred_log r with
  | Some p =>
      if preferred_is_bound r files then (Some p, r)
      else if exists_log files p
      then let '(l, r') := select_preferred_or_latest r files p (scan_latest r files) in (Some l, r')
      else scanned
  | None => scanned
  end.
Definition capture_state (r : CodexLogReader) (files : list LogFile) : rtdict * CodexLogReader :=
  let '(log, r) := latest_log r files in
  let offset := match log ≫= file_at files with
                | Some f => match lf_stat f, lf_bytes f with
                            | Some (size, _), _ => size
                            | None, Some b => Z.of_nat (length b)
                            | None, None => -1
                            end
                | None => -1
                end in
  ([("log_path", match log with Some p => RPath p | None => RNone end); ("offset", RInt offset)], r).

(** ** Reading on *)
Record CodexPollingCursor := mkPollCursor {
  pc_current_path : option string; pc_offset : Z; pc_rescan_interval : Q; pc_last_rescan : Q
}.
Definition state_payload (log_path : option string) (offset : Z) (last_rescan : Q) : rtdict :=
  [("log_path", match log_path with Some p => RPath p | None => RNone end); ("offset", RInt offset);
   ("last_rescan", RFloat last_rescan)].
Definition rescan_interval (timeout : Q) : Q :=
  let half := if Qle_bool timeout 0 then float64 (2 # 10) else (timeout / 2)%Q in
  let low := if Qle_bool (float64 (2 # 10)) half then half else float64 (2 # 10) in
  if Qle_bool low 2 then low else 2%Q.

(** The complete lines of what is left of a file. *)
Fixpoint line_break (b : bytes) : option (bytes * bytes) :=
  match b with
  | [] => None
  | c :: b' =>
      if bool_decide (c = LF) then Some ([], b')
      else match line_break b' with Some (l, rest) => Some (c :: l, rest) | None => None end
  end.

(** [json.loads], the bytes of a line as text, [float] of a text and [time.time]. *)
Class LogLib := { ll_json : string → option pyval; ll_decoded : bytes → string; ll_float : string → option Q; ll_time : nat → Q }.

Section reading.
Context `{LogLib} `{PathLib}.
Context (files : list LogFile).

(** The reader, and how often the clock was read. *)
Record reading := mkReading { rg_reader : CodexLogReader; rg_ticks : nat }.
Abbreviation M := (ST reading).
Definition now_s : M Q := λ s, (Ok (ll_time (rg_ticks s)), mkReading (rg_reader s) (S (rg_ticks s))).
Definition in_reader (f : CodexLogReader → CodexLogReader) : M unit := λ s, (Ok tt, mkReading (f (rg_reader s)) (rg_ticks s)).

Definition normalize_path (v : rtval) : result (option string) :=
  match v with
  | RPath p => mret (Some p)
  | RStr s => if s =ˢ "" then mret None else p ← expanded s; mret (Some p)
  | _ => mret None
  end.
Definition float_or (dflt : Q) (v : rtval) : Q :=
  match v with
  | RFloat q => q
  | RInt z => inject_Z z
  | RBool b => if b then 1%Q else 0%Q
  | RStr s => default dflt (ll_float s)
  | _ => dflt
  end.
Definition build_cursor (state : rtdict) (timeout : Q) : M CodexPollingCursor :=
  let offset := match od_lookup "offset" state with Some (RInt z) => z | Some (RBool b) => Z.b2z b | _ => -1 end in
  now ← now_s;
  let last_rescan := match od_lookup "last_rescan" state with Some v => float_or now v | None => now end in
  path ← st_lift (normalize_path (rt_get "log_path" state));
  mret (mkPollCursor path offset (rescan_interval timeout) last_rescan).

(** The first line from [offset] on that [extract] takes, and the end of the
    last complete line that was read. *)
Fixpoint read_matching {A} (extract : pydict → result (option A)) (fuel : nat) (b : bytes) (offset : Z) : result (option A * Z) :=
  match fuel with
  | O => mret (None, offset)
  | S fuel =>
      match line_break b with
      | None => mret (None, offset)
      | Some (l, rest) =>
          let offset := offset + Z.of_nat (length l) + 1 in
          let line := strip (ll_decoded l) in
          if line =ˢ "" then read_matching extract fuel rest offset
          else match ll_json line with
               | None => read_matching extract fuel rest offset
               | Some (PDict entry) =>
                   m ← extract entry;
                   match m with
                   | Some a => mret (Some a, offset)
                   | None => read_matching extract fuel rest offset
                   end
               | Some _ => Err (AttributeError "the entry has no attribute 'get'")
               end
      end
  end.
(** Each round reads at least one byte. *)
Definition read_matching_from_handle {A} (extract : pydict → result (option A)) (b : bytes) (offset : Z) : result (option A * Z) :=
  let rest := drop (Z.to_nat offset) b in read_matching extract (length rest) rest offset.

Definition ensure_log (current : option string) : M (option string) :=
  r ← st_gets rg_reader;
  let there := λ o : option string, match o with Some p => if exists_log files p then Some p else None | None => None end in
  match there (rd_preferred_log r), there current with
  | Some p, _ | None, Some p => mret (Some p)
  | None, None =>
      match scan_latest r files with
      | Some l => _ ← in_reader (with_preferred_log (Some l)); mret (Some l)
      | None => mret None
      end
  end.
(** [maybe_switch_logs]: whether another log is followed now. *)
Definition maybe_switch_logs (log_path : string) (c : CodexPollingCursor) : M (bool * CodexPollingCursor) :=
  now ← now_s;
  if negb (Qle_bool (pc_rescan_interval c) (now - pc_last_rescan c)) then mret (false, c)
  else
    r ← st_gets rg_reader;
    match scan_latest r files with
    | Some l =>
        if l ≠ˢ log_path then
          _ ← in_reader (with_preferred_log (Some l));
          now ← now_s; mret (true, mkPollCursor (Some l) 0 (pc_rescan_interval c) now)
        else now ← now_s; mret (false, mkPollCursor (pc_current_path c) (pc_offset c) (pc_rescan_interval c) now)
    | None => now ← now_s; mret (false, mkPollCursor (pc_current_path c) (pc_offset c) (pc_rescan_interval c) now)
    end.
Definition initialize_offset (size : option Z) (c : CodexPollingCursor) : CodexPollingCursor :=
  if 0 <=? pc_offset c then c
  else mkPollCursor (pc_current_path c) (match pc_current_path c with None => 0 | Some _ => default 0 size end)
         (pc_rescan_interval c) (pc_last_rescan c).
Definition moved_to (offset : Z) (c : CodexPollingCursor) : CodexPollingCursor :=
  mkPollCursor (pc_current_path c) offset (pc_rescan_interval c) (pc_last_rescan c).
(** [seek_to_offset]. *)
Definition seek_to_offset (size : option Z) (offset : Z) : Z :=
  match size with Some s => Z.min offset s | None => offset end.

(** [read_matching_since] with [block=False]. *)
Definition read_matching_since {A} (extract : pydict → result (option A)) (state : rtdict) : M (option A * rtdict) :=
  cursor ← build_cursor state 0;
  log ← ensure_log (pc_current_path cursor);
  match log with
  | None => mret (None, state_payload None 0 (pc_last_rescan cursor))
  | Some log_path =>
      let file := file_at files log_path in
      let size := fst <$> (file ≫= lf_stat) in
      let cursor := initialize_offset size cursor in
      match file ≫= lf_bytes with
      | None => mret (None, state_payload (Some log_path) (pc_offset cursor) (pc_last_rescan cursor))
      | Some content =>
          found ← st_lift (read_matching_from_handle extract content (seek_to_offset size (pc_offset cursor)));
          let cursor := moved_to found.2 cursor in
          match found.1 with
          | Some a => mret (Some a, state_payload (Some log_path) (pc_offset cursor) (pc_last_rescan cursor))
          | None =>
              switched ← maybe_switch_logs log_path cursor;
              let '(other, cursor) := switched in
              mret (None, state_payload (if other : bool then pc_current_path cursor else Some log_path) (pc_offset cursor)
                            (pc_last_rescan cursor))
          end
      end
  end.
Definition try_get_entries (state : rtdict) : M (list pydict * rtdict) :=
  r ← read_matching_since extract_entry state;
  mret (match r.1 with Some e => [e] | None => [] end, r.2).
(** [try_get_message]; the loop of [try_get_event] is left out. *)
Definition try_get_message (state : rtdict) : M (option string * rtdict) :=
  read_matching_since (λ e, mret (extract_message e)) state.
End reading.
