(* ===== verification/CodexExecution.v ===== *)
(** * The codex adapter

    [provider_backends/codex/execution.py] and [execution_runtime]: a job is
    sent to the pane of a codex session as a prompt that carries its id; the
    session log then shows the prompt, the messages of the agent and the end of
    its turn, which the poll turns into completion items. *)
From stdpp Require Import pretty.
From Stdlib Require Import QArith.
From S2P Require Import Prelude PyValue RuntimeValues Names CompletionModels ExecutionModels JobModels Detectors ExecutionService.
From S2P Require Import ActivePoll ProviderProtocol FakeProvider CodexLog.
Open Scope string_scope.
Open Scope list_scope.
Open Scope Z_scope.

(** ** Entries and replies *)
Definition assistant_signature (entry : pydict) : result string :=
  text ← stripped_at "text" entry;
  if text =ˢ "" then mret ""
  else
    timestamp ← stripped_at "timestamp" entry;
    phase ← stripped_at "phase" entry;
    mret (if timestamp =ˢ "" then ""
          else timestamp +:+ String zero (lower phase) +:+ String zero text).
Definition select_reply (candidates : list string) : string :=
  default "" (List.find (λ t, t ≠ˢ "") (strip <$> candidates)).
Definition clean_codex_reply_text (text req_id : string) : string :=
  if req_id =ˢ "" then text else strip_done_text text req_id.
Definition abort_status (reason : string) : string :=
  let lowered := lower (strip reason) in
  if existsb (λ token, str_contains token lowered) ["interrupt"; "cancel"; "abort"] then "cancelled" else "failed".
(** [Path(path).stem]. *)
Definition path_name (path : string) : string :=
  default "" (last (List.filter (λ s, s ≠ˢ "") (split_on "/" path))).
Definition path_stem (path : string) : string :=
  let name := path_name path in
  match split_on "." name with
  | [_] | [] => name
  | parts => let stem := join "." (removelast parts) in
             if (stem =ˢ "") || (last parts =ˢ Some "") then name else stem
  end.

(** ** The state of a poll *)
Record CodexPollState := mkPoll {
  po_request_anchor : string;
  po_next_seq : Z;
  po_anchor_seen : bool;
  po_bound_turn_id : string;
  po_bound_task_id : string;
  po_reply_buffer : string;
  po_last_agent_message : string;
  po_last_final_answer : string;
  po_last_assistant_message : string;
  po_last_assistant_signature : string;
  po_session_path : string;
  po_items : list CompletionItem;
  po_reached_terminal : bool
}.
Definition build_poll_state (p : ProviderSubmission) : result CodexPollState :=
  let state := ps_runtime_state p in
  anchor ← request_anchor_from_runtime_state state (ps_job_id p);
  seq ← rt_int_at "next_seq" 1 state;
  turn ← rt_text_at "bound_turn_id" state;
  task ← rt_text_at "bound_task_id" state;
  buffer ← rt_text_at "reply_buffer" state;
  agent_message ← rt_text_at "last_agent_message" state;
  final_answer ← rt_text_at "last_final_answer" state;
  assistant_message ← rt_text_at "last_assistant_message" state;
  signature ← rt_text_at "last_assistant_signature" state;
  path ← rt_text_at "session_path" state;
  mret (mkPoll anchor seq (rt_bool (rt_get "anchor_seen" state)) turn task buffer agent_message final_answer
          assistant_message signature path [] false).

(** [poll.items.append(...); poll.next_seq += 1]. *)
Definition append_item (item : CompletionItem) (s : CodexPollState) : CodexPollState :=
  mkPoll (po_request_anchor s) (po_next_seq s + 1) (po_anchor_seen s) (po_bound_turn_id s) (po_bound_task_id s)
    (po_reply_buffer s) (po_last_agent_message s) (po_last_final_answer s) (po_last_assistant_message s)
    (po_last_assistant_signature s) (po_session_path s) (po_items s ++ [item]) (po_reached_terminal s).
Definition emit (p : ProviderSubmission) (kind : CompletionItemKind) (now : string) (payload : pydict) (s : CodexPollState)
    : result CodexPollState :=
  item ← build_item p kind now (po_next_seq s) payload; mret (append_item item s).
Definition set_anchor_seen (s : CodexPollState) : CodexPollState :=
  mkPoll (po_request_anchor s) (po_next_seq s) true (po_bound_turn_id s) (po_bound_task_id s) (po_reply_buffer s)
    (po_last_agent_message s) (po_last_final_answer s) (po_last_assistant_message s) (po_last_assistant_signature s)
    (po_session_path s) (po_items s) (po_reached_terminal s).
Definition turn_ended (s : CodexPollState) : CodexPollState :=
  mkPoll (po_request_anchor s) (po_next_seq s) (po_anchor_seen s) (po_bound_turn_id s) (po_bound_task_id s)
    (po_reply_buffer s) (po_last_agent_message s) (po_last_final_answer s) (po_last_assistant_message s)
    (po_last_assistant_signature s) (po_session_path s) (po_items s) true.
Definition set_refs (turn task : string) (s : CodexPollState) : CodexPollState :=
  mkPoll (po_request_anchor s) (po_next_seq s) (po_anchor_seen s) turn task (po_reply_buffer s)
    (po_last_agent_message s) (po_last_final_answer s) (po_last_assistant_message s) (po_last_assistant_signature s)
    (po_session_path s) (po_items s) (po_reached_terminal s).
Definition set_signature (signature : string) (s : CodexPollState) : CodexPollState :=
  mkPoll (po_request_anchor s) (po_next_seq s) (po_anchor_seen s) (po_bound_turn_id s) (po_bound_task_id s)
    (po_reply_buffer s) (po_last_agent_message s) (po_last_final_answer s) (po_last_assistant_message s) signature
    (po_session_path s) (po_items s) (po_reached_terminal s).
Definition set_reply (buffer agent_message final_answer assistant_message : string) (s : CodexPollState) : CodexPollState :=
  mkPoll (po_request_anchor s) (po_next_seq s) (po_anchor_seen s) (po_bound_turn_id s) (po_bound_task_id s) buffer
    agent_message final_answer assistant_message (po_last_assistant_signature s)
    (po_session_path s) (po_items s) (po_reached_terminal s).
(** What a new session starts with. *)
Definition rotated_poll (path : string) (anchor_seen : bool) (s : CodexPollState) : CodexPollState :=
  mkPoll (po_request_anchor s) (po_next_seq s) anchor_seen "" "" "" "" "" "" "" path (po_items s) (po_reached_terminal s).

(** ** Handlers *)
Definition optional_text (k v : string) : pydict := if v =ˢ "" then [] else [(k, PStr v)].
Definition apply_session_rotation (p : ProviderSubmission) (new_path now : string) (s : CodexPollState)
    : result CodexPollState :=
  if (new_path =ˢ "") || (new_path =ˢ po_session_path s) then mret s
  else
    s ← emit p IK_session_rotate now
          [("session_path", PStr new_path); ("provider_session_id", PStr (path_stem new_path))] s;
    mret (rotated_poll new_path (rt_bool (rt_get "no_wrap" (ps_runtime_state p))) s).

Definition update_binding_refs (entry : pydict) (s : CodexPollState) : result CodexPollState :=
  turn ← stripped_at "turn_id" entry;
  task ← stripped_at "task_id" entry;
  mret (set_refs (str_or (Some turn) (po_bound_turn_id s)) (str_or (Some task) (po_bound_task_id s)) s).

Definition turn_ref (s : CodexPollState) : string := str_or (Some (po_bound_turn_id s)) (po_request_anchor s).
Definition binding_payload (s : CodexPollState) : pydict :=
  optional_text "turn_id" (turn_ref s) ++ optional_text "task_id" (po_bound_task_id s) ++
  optional_text "session_path" (po_session_path s).
Definition handle_user_entry (p : ProviderSubmission) (text now : string) (s : CodexPollState) : result CodexPollState :=
  if (po_request_anchor s ≠ˢ "") && str_contains (REQ_ID_PREFIX +:+ " " +:+ po_request_anchor s) text && negb (po_anchor_seen s)
  then
    s ← emit p IK_anchor_seen now
          ([("turn_id", PStr (turn_ref s))] ++ optional_text "task_id" (po_bound_task_id s) ++
           optional_text "session_path" (po_session_path s)) s;
    mret (set_anchor_seen s)
  else mret s.

(** Whether it is the message that came last. *)
Definition is_duplicate_assistant_entry (entry : pydict) (s : CodexPollState) : result (bool * CodexPollState) :=
  signature ← assistant_signature entry;
  mret (if signature =ˢ "" then (false, s)
        else if signature =ˢ po_last_assistant_signature s then (true, s)
        else (false, set_signature signature s)).
Definition append_reply_text (reply_buffer cleaned : string) : string :=
  if reply_buffer =ˢ "" then cleaned else strip (reply_buffer +:+ NL +:+ cleaned).
Definition assistant_payload (cleaned phase : string) (s : CodexPollState) : pydict :=
  [("text", PStr cleaned); ("merged_text", PStr (po_reply_buffer s))] ++
  optional_text "turn_id" (po_bound_turn_id s) ++ optional_text "task_id" (po_bound_task_id s) ++
  optional_text "phase" phase ++ optional_text "session_path" (po_session_path s).
Definition handle_assistant_entry (p : ProviderSubmission) (entry : pydict) (now : string) (s : CodexPollState)
    : result CodexPollState :=
  duplicate ← is_duplicate_assistant_entry entry s;
  let again := (duplicate : bool * CodexPollState).1 in let s := duplicate.2 in
  if again then mret s
  else
    text ← py_str_or_empty (dget "text" entry);
    let cleaned := strip (clean_codex_reply_text text (po_request_anchor s)) in
    if cleaned =ˢ "" then mret s
    else
      phase ← stripped_at "phase" entry;
      let phase := lower phase in
      let s := set_reply (append_reply_text (po_reply_buffer s) cleaned) (po_last_agent_message s)
                 (if phase =ˢ "final_answer" then cleaned else po_last_final_answer s) cleaned s in
      emit p IK_assistant_chunk now (assistant_payload cleaned phase s) s.

Definition selected_reply (s : CodexPollState) : string :=
  select_reply [po_last_agent_message s; po_last_final_answer s; po_last_assistant_message s; po_reply_buffer s].
Definition append_task_complete_item (p : ProviderSubmission) (entry : pydict) (now : string) (s : CodexPollState)
    : result CodexPollState :=
  text ← stripped_at "last_agent_message" entry;
  let s := if text =ˢ "" then s
           else set_reply (po_reply_buffer s) (strip (clean_codex_reply_text text (po_request_anchor s)))
                  (po_last_final_answer s) (po_last_assistant_message s) s in
  s ← emit p IK_turn_boundary now
        ([("reason", PStr "task_complete"); ("last_agent_message", PStr (selected_reply s))] ++ binding_payload s) s;
  mret (turn_ended s).
Definition append_turn_aborted_item (p : ProviderSubmission) (entry : pydict) (now : string) (s : CodexPollState)
    : result CodexPollState :=
  reason ← py_str (py_or (dget "reason" entry) (PStr "turn_aborted"));
  let reason := str_or (Some (strip reason)) "turn_aborted" in
  error_text ← stripped_at "text" entry;
  s ← emit p IK_turn_aborted now
        ([("reason", PStr reason); ("status", PStr (abort_status reason));
          ("last_agent_message", PStr (selected_reply s))] ++
         (if error_text =ˢ "" then [] else [("text", PStr error_text); ("error_message", PStr error_text)]) ++
         binding_payload s) s;
  mret (turn_ended s).
Definition terminal_payload_type (entry : pydict) : result string :=
  text ← py_str_or_empty (py_or (dget "payload_type" entry) (dget "entry_type" entry)); mret (lower (strip text)).
Definition handle_terminal_entry (p : ProviderSubmission) (entry : pydict) (now : string) (s : CodexPollState)
    : result CodexPollState :=
  kind ← terminal_payload_type entry;
  if kind =ˢ "task_complete" then append_task_complete_item p entry now s
  else if kind =ˢ "turn_aborted" then append_turn_aborted_item p entry now s
  else mret s.

Definition process_entry (p : ProviderSubmission) (now : string) (entry : pydict) (s : CodexPollState)
    : result CodexPollState :=
  s ← update_binding_refs entry s;
  role ← stripped_at "role" entry;
  let role := lower role in
  if role =ˢ "user" then text ← py_str_or_empty (dget "text" entry); handle_user_entry p text now s
  else if negb (po_anchor_seen s) then mret s
  else if role =ˢ "assistant" then handle_assistant_entry p entry now s
  else handle_terminal_entry p entry now s.
Fixpoint process_entry_batch (p : ProviderSubmission) (now : string) (entries : list pydict) (s : CodexPollState)
    : result CodexPollState :=
  match entries with
  | [] => mret s
  | entry :: rest =>
      s ← process_entry p now entry s;
      if po_reached_terminal s then mret s else process_entry_batch p now rest s
  end.

(** ** Equal runtime values

    [==] of dictionaries that hold paths: the order of the keys is not
    compared. *)
Definition rt_number (v : rtval) : option Q :=
  match v with
  | RBool b => Some (inject_Z (if b then 1 else 0))
  | RInt z => Some (inject_Z z)
  | RFloat q => Some q
  | _ => None
  end.
Fixpoint rt_eqb (v w : rtval) {struct v} : bool :=
  match rt_number v, rt_number w with
  | Some p, Some q => Qeq_bool p q
  | _, _ =>
      let all := fix all l m := match l, m with
        | [], [] => true
        | a :: l', b :: m' => rt_eqb a b && all l' m'
        | _, _ => false
        end in
      match v, w with
      | RNone, RNone => true
      | RStr s, RStr t | RPath s, RPath t | RObject s, RObject t => s =ˢ t
      | RBytes s, RBytes t => bool_decide (s = t)
      | RTuple l, RTuple m | RList l, RList m => all l m
      | RDict d, RDict e =>
          (length d =? length e)%nat
          && (fix entries d := match d with
              | [] => true
              | (k, a) :: d' => match od_lookup k e with Some b => rt_eqb a b && entries d' | None => false end
              end) d
      | _, _ => false
      end
  end.

(** ** The result of a poll *)
Definition dict_at (k : string) (state : rtdict) : result rtdict :=
  match rt_or (rt_get k state) (RDict []) with RDict d => mret d | _ => Err (IllTyped k) end.
Definition submission_after_poll (reply : string) (state : rtdict) (p : ProviderSubmission) : ProviderSubmission :=
  mkProviderSubmission (ps_job_id p) (ps_agent_name p) (ps_provider p) (ps_accepted_at p) (ps_ready_at p)
    (ps_source_kind p) reply (ps_status p) (ps_reason p) (ps_confidence p) (ps_diagnostics p) state.
Definition polled_state (state : rtdict) (s : CodexPollState) (runtime_state : rtdict) : rtdict :=
  od_update
    [ ("state", RDict state); ("next_seq", RInt (po_next_seq s)); ("anchor_seen", RBool (po_anchor_seen s));
      ("bound_turn_id", RStr (po_bound_turn_id s)); ("bound_task_id", RStr (po_bound_task_id s));
      ("reply_buffer", RStr (po_reply_buffer s)); ("last_agent_message", RStr (po_last_agent_message s));
      ("last_final_answer", RStr (po_last_final_answer s)); ("last_assistant_message", RStr (po_last_assistant_message s));
      ("last_assistant_signature", RStr (po_last_assistant_signature s)); ("session_path", RStr (po_session_path s)) ]
    runtime_state.
Definition polled_submission (p : ProviderSubmission) (state : rtdict) (s : CodexPollState) : ProviderSubmission :=
  submission_after_poll (match po_items s with [] => ps_reply p | _ => selected_reply s end)
    (polled_state state s (ps_runtime_state p)) p.
Definition finalize_poll_result (p : ProviderSubmission) (s : CodexPollState) (state : rtdict)
    : result (option ProviderPollResult) :=
  let prior_state := rt_or (rt_get "state" (ps_runtime_state p)) (RDict []) in
  prior_path ← rt_text_at "session_path" (ps_runtime_state p);
  let updated := polled_submission p state s in
  match po_items s with
  | [] => if negb (rt_eqb prior_state (RDict state)) || (prior_path ≠ˢ po_session_path s)
          then mret (Some (mkPollResult updated [] None)) else mret None
  | items => mret (Some (mkPollResult updated items None))
  end.

(** ** The adapter

    The readers are objects that keep their preferred log; the log files are
    those of one moment. *)
Record codex_world (X : Type) := mkCodexWorld {
  cw_readers : gmap string CodexLogReader;
  cw_made : nat;
  cw_ticks : nat;
  cw_files : list LogFile;
  cw_env : X
}.
Arguments mkCodexWorld {X}.
Arguments cw_readers {X}.
Arguments cw_made {X}.
Arguments cw_ticks {X}.
Arguments cw_files {X}.
Arguments cw_env {X}.
(** [load_project_session], the default session root, [normalize_work_dir] and
    [wait_for_runtime_ready]. *)
Class CodexEnv (X : Type) := {
  cx_load_project_session : string → option string → X → result (option ProviderSession) * X;
  cx_current_session_root : string;
  cx_normalize_work_dir : string → option string;
  cx_wait_for_runtime_ready : rtval → string → X → result unit * X
}.
Definition normalize_session_path (v : rtval) : PathLib → result string := λ lib,
  match v with
  | RPath p => @expanded lib p
  | RStr s => if strip s =ˢ "" then mret ""
              else match @expanded lib s with Ok p => mret p | Err _ => mret "" end
  | _ => mret ""
  end.

Section adapter.
Context {X : Type} `{PaneEnv X} `{CodexEnv X} `{LogLib} `{HP : PathLib}.
Abbreviation M := (ST (codex_world X)).

Definition in_x {A} (m : ST X A) : M A := λ w,
  let '(r, x) := m (cw_env w) in (r, mkCodexWorld (cw_readers w) (cw_made w) (cw_ticks w) (cw_files w) x).
Definition put_reader (ref : string) (r : CodexLogReader) (ticks : nat) (w : codex_world X) : codex_world X :=
  mkCodexWorld (<[ref := r]> (cw_readers w)) (cw_made w) ticks (cw_files w) (cw_env w).
(** A method of the reader object. *)
Definition on_reader {A} (reader : rtval) (m : list LogFile → ST reading A) : M A := λ w,
  match reader with
  | RObject ref =>
      match cw_readers w !! ref with
      | Some r => let '(a, s) := m (cw_files w) (mkReading r (cw_ticks w)) in (a, put_reader ref (rg_reader s) (rg_ticks s) w)
      | None => (Err (AttributeError "try_get_entries"), w)
      end
  | _ => (Err (AttributeError "try_get_entries"), w)
  end.
Definition read_entries (reader : rtval) (state : rtdict) : M (list pydict * rtdict) := on_reader reader (λ files, try_get_entries files state).
Definition state_session_path (state : rtdict) : result string := normalize_session_path (rt_get "log_path" state) HP.

Fixpoint poll_entry_batches (fuel : nat) (p : ProviderSubmission) (reader : rtval) (now : string) (state : rtdict)
    (s : CodexPollState) : M (rtdict * CodexPollState) :=
  match fuel with
  | O => mret (state, s)
  | S fuel =>
      batch ← read_entries reader state;
      let '(entries, state) := batch in
      path ← st_lift (state_session_path state);
      s ← st_lift (apply_session_rotation p path now s);
      match entries with
      | [] => mret (state, s)
      | _ =>
          s ← st_lift (process_entry_batch p now entries s);
          if po_reached_terminal s then mret (state, s) else poll_entry_batches fuel p reader now state s
      end
  end.
(** Each batch but the last is a line of the log. *)
Definition log_bytes (files : list LogFile) : nat := sum_list (length <$> omap lf_bytes files).
Definition poll_submission (p : ProviderSubmission) (now : string) : M (option ProviderPollResult) :=
  prepared ← in_x (prepare_active_poll p now);
  match prepared with
  | PollDone r => mret (Some r)
  | PollReady reader _ _ =>
      state ← st_lift (dict_at "state" (ps_runtime_state p));
      poll ← st_lift (build_poll_state p);
      files ← st_gets cw_files;
      r ← poll_entry_batches (S (log_bytes files)) p reader now state poll;
      let '(state, poll) := r in
      st_lift (finalize_poll_result p poll state)
  end.

Definition make_reader (r : CodexLogReader) : M rtval := λ w,
  let ref := "reader" +:+ pretty (cw_made w) in
  (Ok (RObject ref), mkCodexWorld (<[ref := r]> (cw_readers w)) (S (cw_made w)) (cw_ticks w) (cw_files w) (cw_env w)).
Definition reader_factory (session : ProviderSession) (preferred_log : option string) : M rtval :=
  log ← match preferred_log with
        | Some p => mret (Some p)
        | None => if se_path session =ˢ "" then mret None else p ← st_lift (expanded (se_path session)); mret (Some p)
        end;
  let work_dir := cx_normalize_work_dir (se_work_dir session) in
  make_reader (mkReader (default cx_current_session_root (se_root session)) log (or_none (se_id session)) work_dir
                 (se_follows session && truthy work_dir)).
Definition load_session (work_dir agent_name : string) : ST X (option ProviderSession) :=
  cx_load_project_session work_dir (or_none (lower (strip agent_name))).

Definition codex_start (provider : string) (job : JobRecord) (context : option ProviderRuntimeContext) (now : string)
    : M ProviderSubmission :=
  prepared ← in_x (prepare_active_start load_session job context provider SK_protocol_event_stream now "missing_codex_session");
  match prepared with
  | StartFailed p => mret p
  | StartReady work_dir session pane_id backend =>
      reader ← reader_factory session None;
      state ← on_reader reader (λ files s, let '(state, r) := capture_state (rg_reader s) files in
                                           (Ok state, mkReading r (rg_ticks s)));
      anchor ← st_lift (request_anchor_for_job (Some (jb_job_id job)));
      let no_wrap := no_wrap_requested (jb_provider_options job) in
      let body := me_body (jb_request job) in
      let prompt := if no_wrap then body else wrap_codex_turn_prompt body anchor in
      _ ← in_x (cx_wait_for_runtime_ready backend pane_id);
      _ ← in_x (send_prompt_to_runtime_target backend pane_id prompt);
      path ← st_lift (state_session_path state);
      mret (new_submission job provider now SK_protocol_event_stream
        [("provider", PStr provider); ("mode", PStr "active"); ("workspace_path", PStr work_dir)]
        [("mode", RStr "active"); ("reader", reader); ("state", RDict state); ("backend", backend);
         ("pane_id", RStr pane_id); ("request_anchor", RStr anchor); ("next_seq", RInt 1); ("anchor_seen", RBool no_wrap);
         ("bound_turn_id", RStr ""); ("bound_task_id", RStr ""); ("reply_buffer", RStr "");
         ("last_agent_message", RStr ""); ("last_final_answer", RStr ""); ("last_assistant_message", RStr "");
         ("last_assistant_signature", RStr ""); ("session_path", RStr path); ("workspace_path", RStr work_dir);
         ("no_wrap", RBool no_wrap)])
  end.

Definition preferred_log_path (state : rtdict) : result (option string) :=
  raw ← (if rt_bool (rt_get "session_path" state) then mret (rt_get "session_path" state)
         else inner ← dict_at "state" state; path ← state_session_path inner; mret (RStr path));
  path ← normalize_session_path raw HP;
  if path =ˢ "" then mret None
  else mret match expanded path with Ok p => Some p | Err _ => None end.
Definition codex_resume (job : JobRecord) (p : ProviderSubmission) (context : option ProviderRuntimeContext)
    : M (option ProviderSubmission) :=
  let state := ps_runtime_state p in
  work_dir ← in_x (active_work_dir context state);
  match work_dir with
  | None => mret None
  | Some dir =>
      prepared ← in_x (resume_prepared_session load_session (jb_agent_name job) dir);
      match prepared with
      | None => mret None
      | Some (session, pane_id, backend) =>
          preferred ← st_lift (preferred_log_path state);
          reader ← reader_factory session preferred;
          mret (Some (with_runtime_state (od_update
            [("reader", reader); ("backend", backend); ("pane_id", RStr pane_id); ("mode", RStr "active");
             ("session_path", rt_or (rt_get "session_path" state) (RStr (default "" preferred)));
             ("workspace_path", RStr dir)] state) p))
      end
  end.

Definition exported_keys : list string :=
  ["next_seq"; "anchor_seen"; "no_wrap"; "bound_turn_id"; "bound_task_id"; "reply_buffer"; "last_agent_message";
   "last_final_answer"; "last_assistant_message"; "last_assistant_signature"; "session_path"; "workspace_path"].
Definition export_runtime_state (p : ProviderSubmission) : result rtdict :=
  let state := ps_runtime_state p in
  anchor ← request_anchor_from_runtime_state state (ps_job_id p);
  mret ([("mode", rt_get "mode" state); ("state", rt_or (rt_get "state" state) (RDict [])); ("pane_id", rt_get "pane_id" state);
         ("request_anchor", RStr anchor)] ++ ((λ k, (k, rt_get k state)) <$> exported_keys)).

(** ** A reader for the session that is bound now *)
Definition path_text (v : rtval) : result string :=
  match v with
  | RNone => mret ""
  | RStr s | RPath s => mret match expanded s with Ok p => p | Err _ => strip s end
  | _ => text ← rt_text v; mret (strip text)
  end.
Definition submission_work_dir (p : ProviderSubmission) : result (option string) :=
  let raw := if rt_bool (rt_get "workspace_path" (ps_runtime_state p)) then rt_str (rt_get "workspace_path" (ps_runtime_state p))
             else py_str_or_empty (dget "workspace_path" (default [] (ps_diagnostics p))) in
  text ← raw;
  mret (if text =ˢ "" then None else match expanded text with Ok d => Some d | Err _ => None end).
Definition current_session_log (session : ProviderSession) : option string :=
  if strip (se_path session) =ˢ "" then None
  else match expanded (strip (se_path session)) with Ok p => Some p | Err _ => None end.
Definition reader_object (reader : rtval) (w : codex_world X) : option CodexLogReader :=
  match reader with RObject ref => cw_readers w !! ref | _ => None end.
Definition of_path (p : option string) : rtval := match p with Some p => RPath p | None => RNone end.
Definition refresh_reader (p : ProviderSubmission) : M ProviderSubmission :=
  let state := ps_runtime_state p in
  mode ← st_lift (rt_text_at "mode" state);
  if lower (strip mode) ≠ˢ "active" then mret p
  else
    work_dir ← st_lift (submission_work_dir p);
    match work_dir with
    | None => mret p
    | Some dir =>
        session ← in_x (load_session dir (ps_agent_name p));
        match session with
        | None => mret p
        | Some s =>
            files ← st_gets cw_files;
            match current_session_log s with
            | None => mret p
            | Some log =>
                if negb (exists_log files log) then mret p
                else
                  current ← st_lift (path_text (RPath log));
                  poll_state ← st_lift (dict_at "state" state);
                  polled ← st_lift (path_text (rt_get "log_path" poll_state));
                  reader ← st_gets (reader_object (rt_get "reader" state));
                  read ← st_lift (path_text (of_path (reader ≫= rd_preferred_log)));
                  let filter := strip (default "" (reader ≫= rd_session_id_filter)) in
                  let current_filter := strip (se_id s) in
                  if (current =ˢ polled) && (current =ˢ read) && ((current_filter =ˢ "") || (current_filter =ˢ filter))
                  then mret p
                  else
                    reader ← reader_factory s (Some log);
                    let updated := od_set "workspace_path" (RStr dir) (od_set "reader" reader state) in
                    mret (with_runtime_state
                      (if current =ˢ polled then updated
                       else od_set "state" (RDict (od_update [("log_path", RPath log); ("offset", RInt 0);
                                                              ("last_rescan", RFloat 0)] poll_state)) updated) p)
            end
        end
    end.
Definition codex_poll (p : ProviderSubmission) (now : string) : M (option ProviderPollResult) :=
  p ← refresh_reader p; poll_submission p now.

Definition CODEX_PROVIDER : string := "codex".
Definition codex_reliability : CompletionReliabilityPolicy :=
  mkReliability CODEX_PROVIDER 900 "protocol_log" (Some "pane-backed") CS_incomplete "completion_timeout" CC_degraded.
Definition codex_adapter : Adapter (codex_world X) := {|
  ad_provider := CODEX_PROVIDER;
  ad_start job context now := codex_start CODEX_PROVIDER job context now;
  ad_poll p now := codex_poll p now;
  ad_export_runtime_state := Some (λ p w, (match export_runtime_state p with Ok d => Ok (Some d) | Err e => Err e end, w));
  ad_resume := Some (λ job p context _ _, codex_resume job p context);
  ad_restore_diagnostics := None;
  ad_reliability_policy := Some codex_reliability
|}.
End adapter.
