(* ===== verification/CodexTheorems.v ===== *)
(** * The codex adapter: what is proved of it *)
From stdpp Require Import pretty.
From Stdlib Require Import QArith.
From S2P Require Import Prelude PyValue RuntimeValues Names CompletionModels ExecutionModels JobModels Detectors ExecutionService.
From S2P Require Import ActivePoll ProviderProtocol FakeProvider CodexLog CodexExecution.
Open Scope string_scope.
Open Scope list_scope.
Open Scope Z_scope.

(** ** Entries *)
(** [str] is defined on what the poll reads of the entry. *)
Definition read_keys : list string :=
  ["turn_id"; "task_id"; "role"; "text"; "timestamp"; "phase"; "payload_type"; "entry_type"; "last_agent_message"; "reason"].
Definition readable (e : pydict) : bool := forallb (λ k, is_ok (py_str (dget k e))) read_keys.
Definition text_or_nothing (r : result string) : string := match r with Ok t => t | Err _ => "" end.
Definition entry_role (e : pydict) : string := lower (text_or_nothing (stripped_at "role" e)).
Definition entry_text (e : pydict) : string := text_or_nothing (py_str_or_empty (dget "text" e)).
Definition entry_kind (e : pydict) : string := text_or_nothing (terminal_payload_type e).
(** The prompt of the request with the id [anchor]; the end of a turn. *)
Definition is_prompt (anchor : string) (e : pydict) : bool :=
  (entry_role e =ˢ "user") && str_contains (REQ_ID_PREFIX +:+ " " +:+ anchor) (entry_text e).
Definition is_event (e : pydict) : bool := (entry_role e ≠ˢ "user") && (entry_role e ≠ˢ "assistant").
Definition ends_the_turn (e : pydict) : bool :=
  is_event e && bool_decide (entry_kind e ∈ ["task_complete"; "turn_aborted"]).

Lemma readable_at k e : readable e = true → k ∈ read_keys → is_ok (py_str (dget k e)) = true.
Proof. unfold readable. rewrite forallb_forall. intros H Hk. by apply H, list_elem_of_In. Qed.
(** A closed member, or no member, of a closed list. *)
Ltac is_in := apply (bool_decide_eq_true_1 _); vm_compute; reflexivity.
Ltac not_in := apply (bool_decide_eq_true_1 _); vm_compute; reflexivity.
Ltac read_key := apply readable_at; [done|is_in].
Lemma stripped_reads k e : readable e = true → k ∈ read_keys → ∃ t, stripped_at k e = Ok t.
Proof.
  intros H Hk. destruct (str_or_empty_ok (dget k e)) as [t Ht]; [by apply readable_at|].
  exists (strip t). unfold stripped_at. by rewrite Ht.
Qed.
Lemma role_reads e : readable e = true → ∃ t, stripped_at "role" e = Ok t ∧ lower t = entry_role e.
Proof.
  intros H. destruct (stripped_reads "role" e H) as [t Ht]; [is_in|]. exists t.
  unfold entry_role. by rewrite Ht.
Qed.
Lemma text_reads e : readable e = true → py_str_or_empty (dget "text" e) = Ok (entry_text e).
Proof.
  intros H. destruct (str_or_empty_ok (dget "text" e)) as [t Ht]; [read_key|]. unfold entry_text. by rewrite Ht.
Qed.
Lemma kind_reads e : readable e = true → terminal_payload_type e = Ok (entry_kind e).
Proof.
  intros H. unfold entry_kind. assert (∃ t, terminal_payload_type e = Ok t) as [t ->]; [|done].
  unfold terminal_payload_type, py_or.
  destruct (str_or_empty_ok (if py_bool (dget "payload_type" e) then dget "payload_type" e else dget "entry_type" e)) as [t ->];
    [|by eexists]. destruct (py_bool _); read_key.
Qed.

(** ** Items *)
(** The header of the items of a submission is accepted. *)
Definition reportable (p : ProviderSubmission) (now : string) : bool :=
  (now ≠ˢ "") && (lower (strip (ps_provider p)) ≠ˢ "") && is_ok (normalize_agent_name (ps_agent_name p)) &&
  (strip (ps_job_id p) ≠ˢ "").
Record item_for (p : ProviderSubmission) (now : string) (kind : CompletionItemKind) (seq : Z) (payload : pydict)
    (i : CompletionItem) : Prop := {
  if_kind : it_kind i = kind;
  if_payload : it_payload i = payload;
  if_timestamp : it_timestamp i = now;
  if_seq : cu_event_seq (it_cursor i) = Some seq;
  if_req : it_req_id i = ps_job_id p
}.
Lemma build_item_ok p now kind seq payload :
  reportable p now = true → 0 ≤ seq → ∃ i, build_item p kind now seq payload = Ok i ∧ item_for p now kind seq payload i.
Proof.
  unfold reportable. rewrite !andb_true_iff. intros [[[H1 H2] H3] H4] Hs. unfold build_item.
  unfold cursor_post_init. cbn [cu_offset cu_line_no cu_event_seq negative raise_if].
  rewrite (proj2 (Z.ltb_ge seq 0)) by lia. cbn. unfold item_post_init. cbn.
  apply negb_true_iff in H1, H2, H4. rewrite H1, H2. cbn. destruct (normalize_agent_name (ps_agent_name p)); [|done].
  cbn. rewrite H4. cbn. eexists. split; [done|]. by split.
Qed.

Section turn.
Context (p : ProviderSubmission) (now : string) (Hp : reportable p now = true).

(** From [s] to [s'] the items [l] were appended. *)
Record advanced (s s' : CodexPollState) (l : list CompletionItem) : Prop := {
  av_items : po_items s' = po_items s ++ l;
  av_seq : po_next_seq s' = po_next_seq s + Z.of_nat (length l);
  av_numbered : numbered (po_next_seq s) l;
  av_anchor : po_request_anchor s' = po_request_anchor s
}.
Lemma numbered_app n l m : numbered n l → numbered (n + Z.of_nat (length l)) m → numbered n (l ++ m).
Proof.
  intros Hl Hm k i Hk. apply lookup_app_Some in Hk as [Hk|[Hle Hk]]; [by apply Hl|].
  rewrite (Hm _ _ Hk). f_equal. lia.
Qed.
Lemma advanced_nil s s' :
  po_items s' = po_items s → po_next_seq s' = po_next_seq s → po_request_anchor s' = po_request_anchor s →
  advanced s s' [].
Proof. intros K1 K2 K3. split; [by rewrite app_nil_r|cbn; lia|by intros [] ?|done]. Qed.
Lemma advanced_trans s1 s2 s3 l m : advanced s1 s2 l → advanced s2 s3 m → advanced s1 s3 (l ++ m).
Proof.
  intros [K1 K2 K3 K4] [K5 K6 K7 K8]. split.
  - by rewrite K5, K1, app_assoc.
  - rewrite K6, K2, length_app. lia.
  - apply numbered_app; [done|]. by rewrite <- K2.
  - congruence.
Qed.
Lemma emit_ok kind payload s :
  0 ≤ po_next_seq s →
  ∃ i, emit p kind now payload s = Ok (append_item i s) ∧ item_for p now kind (po_next_seq s) payload i ∧
       advanced s (append_item i s) [i].
Proof.
  intros Hs. destruct (build_item_ok p now kind (po_next_seq s) payload Hp Hs) as (i & Hi & Hf). exists i.
  unfold emit. rewrite Hi. split_and!; [done..|]. split; [done|done| |done].
  intros [|k] j Hj; [|done]. cbn in Hj. injection Hj as <-. rewrite (if_seq _ _ _ _ _ _ Hf). f_equal. lia.
Qed.

Lemma refs_ok e s : readable e = true → ∃ t k, update_binding_refs e s = Ok (set_refs t k s).
Proof.
  intros H. destruct (stripped_reads "turn_id" e H) as [t Ht]; [is_in|].
  destruct (stripped_reads "task_id" e H) as [k Hk]; [is_in|].
  unfold update_binding_refs. rewrite Ht. cbn. rewrite Hk. cbn. by eexists _, _.
Qed.
Lemma process_reads e s :
  readable e = true →
  ∃ t k, process_entry p now e s =
    let s := set_refs t k s in
    if entry_role e =ˢ "user" then handle_user_entry p (entry_text e) now s
    else if negb (po_anchor_seen s) then Ok s
    else if entry_role e =ˢ "assistant" then handle_assistant_entry p e now s
    else if entry_kind e =ˢ "task_complete" then append_task_complete_item p e now s
    else if entry_kind e =ˢ "turn_aborted" then append_turn_aborted_item p e now s else Ok s.
Proof.
  intros H. destruct (refs_ok e s H) as (t & k & Hr). exists t, k. unfold process_entry. rewrite Hr. cbn.
  destruct (role_reads e H) as (r & -> & Hl). cbn. rewrite Hl, (text_reads e H). cbn.
  unfold handle_terminal_entry. by rewrite (kind_reads e H).
Qed.

(** Before the prompt nothing is reported. *)
Lemma before_prompt e s :
  readable e = true → po_anchor_seen s = false → is_prompt (po_request_anchor s) e = false →
  ∃ s', process_entry p now e s = Ok s' ∧ advanced s s' [] ∧ po_anchor_seen s' = false ∧
        po_reached_terminal s' = po_reached_terminal s.
Proof.
  intros H Hs Hn. destruct (process_reads e s H) as (t & k & ->). cbn zeta. exists (set_refs t k s).
  split; [|by split; [apply advanced_nil|]]. unfold is_prompt in Hn. cbn [po_anchor_seen set_refs]. rewrite Hs. cbn [negb].
  destruct (entry_role e =ˢ "user"); [|done]. unfold handle_user_entry. cbn [po_request_anchor set_refs] in *.
  cbn in Hn. by rewrite Hn, andb_false_r.
Qed.
Lemma at_prompt e s :
  readable e = true → po_anchor_seen s = false → po_request_anchor s ≠ "" → is_prompt (po_request_anchor s) e = true →
  0 ≤ po_next_seq s →
  ∃ s' i, process_entry p now e s = Ok s' ∧ advanced s s' [i] ∧ it_kind i = IK_anchor_seen ∧ it_req_id i = ps_job_id p ∧
          po_anchor_seen s' = true ∧ po_reached_terminal s' = po_reached_terminal s.
Proof.
  intros H Hs Ha Hy Hq. destruct (process_reads e s H) as (t & k & ->). cbn zeta.
  unfold is_prompt in Hy. apply andb_true_iff in Hy as [-> Hy]. unfold handle_user_entry. cbn [po_request_anchor set_refs po_anchor_seen].
  rewrite Hy, Hs, (bool_decide_eq_false_2 _ Ha). cbn [andb negb].
  edestruct (emit_ok IK_anchor_seen) as (i & -> & Hi & Hv); [|eexists _, i; cbn; split_and!; [reflexivity|..]]; [done|..].
  - destruct Hv as [K1 K2 K3 K4]. by split.
  - by destruct Hi.
  - by destruct Hi.
  - done.
  - done.
Qed.

Lemma signature_ok e s :
  readable e = true →
  ∃ b g, is_duplicate_assistant_entry e s = Ok (b, g) ∧ (g = s ∨ ∃ x, g = set_signature x s).
Proof.
  intros H. assert (∃ x, assistant_signature e = Ok x) as [x Hx].
  { unfold assistant_signature. destruct (stripped_reads "text" e H) as [t ->]; [is_in|]. cbn.
    destruct (t =ˢ ""); [by eexists|]. destruct (stripped_reads "timestamp" e H) as [u ->]; [is_in|].
    destruct (stripped_reads "phase" e H) as [v ->]; [is_in|]. by eexists. }
  unfold is_duplicate_assistant_entry. rewrite Hx. cbn. destruct (x =ˢ ""); [by eexists _, _; split; [|left]|].
  destruct (x =ˢ po_last_assistant_signature s); eexists _, _; (split; [reflexivity|]); [by left|right; by exists x].
Qed.
Lemma at_message e s :
  readable e = true → 0 ≤ po_next_seq s →
  ∃ s' l, handle_assistant_entry p e now s = Ok s' ∧ advanced s s' l ∧
          Forall (λ i, it_kind i = IK_assistant_chunk ∧ it_req_id i = ps_job_id p) l ∧
          po_anchor_seen s' = po_anchor_seen s ∧ po_reached_terminal s' = po_reached_terminal s.
Proof.
  intros H Hq. unfold handle_assistant_entry. destruct (signature_ok e s H) as (b & g & -> & Hg). cbn [mbind result_bind fst snd].
  assert (advanced s g [] ∧ po_anchor_seen g = po_anchor_seen s ∧ po_reached_terminal g = po_reached_terminal s) as (Ha & K1 & K2)
    by (by destruct Hg as [->|[x ->]]; (split; [by apply advanced_nil|done])).
  destruct b; [by exists g, []|]. rewrite (text_reads e H). cbn [mbind result_bind].
  destruct (strip _ =ˢ ""); [by exists g, []|].
  destruct (stripped_reads "phase" e H) as [v ->]; [is_in|]. cbn [mbind result_bind].
  match goal with |- context[emit p IK_assistant_chunk now ?pl ?g'] =>
    destruct (emit_ok IK_assistant_chunk pl g') as (i & -> & Hi & Hv) end.
  { destruct Ha as [_ E _ _]. cbn in *. lia. }
  eexists _, [i]. split; [reflexivity|]. split_and!; [|by constructor; [destruct Hi|]|done|done].
  change [i] with ([] ++ [i]). eapply advanced_trans; [exact Ha|]. destruct Hv as [V1 V2 V3 V4]. by split.
Qed.
(** In the turn, until its end. *)
Lemma in_turn e s :
  readable e = true → po_anchor_seen s = true → ends_the_turn e = false → 0 ≤ po_next_seq s →
  ∃ s' l, process_entry p now e s = Ok s' ∧ advanced s s' l ∧
          Forall (λ i, it_kind i = IK_assistant_chunk ∧ it_req_id i = ps_job_id p) l ∧
          po_anchor_seen s' = true ∧ po_reached_terminal s' = po_reached_terminal s.
Proof.
  intros H Hs Hn Hq. destruct (process_reads e s H) as (t & k & ->). cbn zeta.
  assert (advanced s (set_refs t k s) []) as Ha by by apply advanced_nil.
  assert (∃ s' l, Ok (set_refs t k s) = Ok s' ∧ advanced s s' l ∧
    Forall (λ i, it_kind i = IK_assistant_chunk ∧ it_req_id i = ps_job_id p) l ∧
          po_anchor_seen s' = true ∧ po_reached_terminal s' = po_reached_terminal s) as Hsame.
  { by exists (set_refs t k s), []. }
  unfold ends_the_turn, is_event in Hn. destruct (entry_role e =ˢ "user").
  { unfold handle_user_entry. cbn [po_anchor_seen set_refs]. rewrite Hs. cbn [negb]. by rewrite andb_false_r. }
  cbn [po_anchor_seen set_refs]. rewrite Hs. cbn [negb andb] in *. destruct (entry_role e =ˢ "assistant").
  { destruct (at_message e (set_refs t k s) H Hq) as (s' & l & Hr & Hv & Hl & K1 & K2).
    exists s', l. split_and!; [done| |done|by rewrite K1|done].
    change l with ([] ++ l). by eapply advanced_trans. }
  cbn [negb andb] in Hn. rewrite bool_decide_eq_false, !elem_of_cons in Hn.
  rewrite !bool_decide_eq_false_2 by (intros ?; apply Hn; tauto). exact Hsame.
Qed.

Lemma dget_optional k key v d : k ≠ key → dget k (optional_text key v ++ d) = dget k d.
Proof.
  intros Hk. unfold optional_text. destruct (v =ˢ ""); [done|]. unfold dget. cbn. destruct (String.eqb_spec k key); [done|done].
Qed.
(** The reply of an agent that says [text] when its turn ends. *)
Definition final_text (anchor : string) (e : pydict) : string :=
  strip (clean_codex_reply_text (text_or_nothing (stripped_at "last_agent_message" e)) anchor).
Lemma at_end e s :
  readable e = true → po_anchor_seen s = true → is_event e = true → entry_kind e = "task_complete" → 0 ≤ po_next_seq s →
  ∃ s' i more, process_entry p now e s = Ok s' ∧ advanced s s' [i] ∧ po_reached_terminal s' = true ∧
    it_req_id i = ps_job_id p ∧
    it_kind i = IK_turn_boundary ∧ it_timestamp i = now ∧
    it_payload i = [("reason", PStr "task_complete"); ("last_agent_message", PStr (selected_reply s'))] ++ more ∧
    (∀ k, k ∉ ["turn_id"; "task_id"; "session_path"] → dget k more = PNone) ∧
    (final_text (po_request_anchor s) e ≠ "" → selected_reply s' = final_text (po_request_anchor s) e).
Proof.
  intros H Hs He Hk Hq. destruct (process_reads e s H) as (t & k & ->). cbn zeta.
  unfold is_event in He. apply andb_true_iff in He as [H1%negb_true_iff H2%negb_true_iff].
  rewrite H1, H2, Hk. cbn [po_anchor_seen set_refs]. rewrite Hs. cbn [negb].
  rewrite (bool_decide_eq_true_2 ("task_complete" = "task_complete") eq_refl).
  unfold append_task_complete_item.
  destruct (stripped_reads "last_agent_message" e H) as [m Hm]; [is_in|]. unfold final_text. rewrite Hm.
  cbn [mbind result_bind text_or_nothing].
  match goal with |- context[emit p IK_turn_boundary now (_ ++ binding_payload ?g) _] => set (g' := g) end.
  assert (advanced s g' [] ∧ po_request_anchor g' = po_request_anchor s) as [Ha Han]
    by (subst g'; destruct (m =ˢ ""); (split; [by apply advanced_nil|done])).
  destruct (emit_ok IK_turn_boundary ([("reason", PStr "task_complete"); ("last_agent_message", PStr (selected_reply g'))] ++
    binding_payload g') g') as (i & -> & Hi & Hv).
  { destruct Ha as [_ E _ _]. cbn in E. lia. }
  eexists _, i, (binding_payload g'). split; [reflexivity|]. split_and!; try by destruct Hi.
  - change [i] with ([] ++ [i]). eapply advanced_trans; [exact Ha|]. destruct Hv as [V1 V2 V3 V4]. by split.
  - intros k' Hk'. unfold binding_payload. rewrite !not_elem_of_cons in Hk'. destruct Hk' as (? & ? & ? & _).
    rewrite !dget_optional by done. by rewrite <- (app_nil_r (optional_text _ _)), dget_optional.
  - intros Hne. subst g'. destruct (m =ˢ "") eqn:Em.
    { apply bool_decide_eq_true in Em as ->. exfalso. apply Hne. unfold clean_codex_reply_text.
      by destruct (po_request_anchor s =ˢ ""). }
    unfold selected_reply, select_reply. cbn [po_last_agent_message append_item turn_ended set_reply set_refs fmap list_fmap List.find po_request_anchor].
    rewrite strip_idem, (bool_decide_eq_false_2 _ Hne). done.
Qed.

(** ** A batch of entries *)
Lemma batch_before pre rest s :
  Forall (λ e, readable e = true ∧ is_prompt (po_request_anchor s) e = false) pre →
  po_anchor_seen s = false → po_reached_terminal s = false →
  ∃ s', process_entry_batch p now (pre ++ rest) s = process_entry_batch p now rest s' ∧ advanced s s' [] ∧
        po_anchor_seen s' = false ∧ po_reached_terminal s' = false.
Proof.
  revert s. induction pre as [|e pre IH]; intros s Hf Hs Ht.
  { exists s. split_and!; [done|by apply advanced_nil|done..]. }
  apply Forall_cons in Hf as [[H Hn] Hf]. destruct (before_prompt e s H Hs Hn) as (s1 & Hr & Ha & K1 & K2).
  cbn [app process_entry_batch]. rewrite Hr. cbn [mbind result_bind]. rewrite K2, Ht.
  destruct (IH s1) as (s' & Hr' & Ha' & K3 & K4); [by destruct Ha as [_ _ _ ->]|done|congruence|].
  exists s'. split_and!; [done|exact (advanced_trans _ _ _ [] [] Ha Ha')|done..].
Qed.
Lemma batch_in_turn mid rest s :
  Forall (λ e, readable e = true ∧ ends_the_turn e = false) mid →
  po_anchor_seen s = true → po_reached_terminal s = false → 0 ≤ po_next_seq s →
  ∃ s' l, process_entry_batch p now (mid ++ rest) s = process_entry_batch p now rest s' ∧ advanced s s' l ∧
        Forall (λ i, it_kind i = IK_assistant_chunk ∧ it_req_id i = ps_job_id p) l ∧
        po_anchor_seen s' = true ∧ po_reached_terminal s' = false.
Proof.
  revert s. induction mid as [|e mid IH]; intros s Hf Hs Ht Hq.
  { exists s, []. split_and!; [done|by apply advanced_nil|done..]. }
  apply Forall_cons in Hf as [[H Hn] Hf]. destruct (in_turn e s H Hs Hn Hq) as (s1 & l & Hr & Ha & Hl & K1 & K2).
  cbn [app process_entry_batch]. rewrite Hr. cbn [mbind result_bind]. rewrite K2, Ht.
  destruct (IH s1) as (s' & l' & Hr' & Ha' & Hl' & K3 & K4); [done|done|congruence|by destruct Ha as [_ -> _ _]; lia|].
  exists s', (l ++ l'). split_and!; [done|exact (advanced_trans _ _ _ _ _ Ha Ha')|by apply Forall_app_2|done..].
Qed.

(** The entries of a request and its answer, after others. *)
Record codex_turn (anchor : string) (pre : list pydict) (prompt : pydict) (mid : list pydict) (done : pydict) : Prop := {
  ct_readable : Forall (λ e, readable e = true) (pre ++ prompt :: mid ++ [done]);
  ct_pre : Forall (λ e, is_prompt anchor e = false) pre;
  ct_prompt : is_prompt anchor prompt = true;
  ct_mid : Forall (λ e, ends_the_turn e = false) mid;
  ct_event : is_event done = true;
  ct_done : entry_kind done = "task_complete"
}.
Lemma turn_processed pre prompt mid e s :
  codex_turn (po_request_anchor s) pre prompt mid e → po_request_anchor s ≠ "" →
  po_anchor_seen s = false → po_reached_terminal s = false → 0 ≤ po_next_seq s →
  ∃ s' first chunks final more, process_entry_batch p now (pre ++ prompt :: mid ++ [e]) s = Ok s' ∧
    advanced s s' (first :: chunks ++ [final]) ∧ po_reached_terminal s' = true ∧
    Forall (λ i, it_req_id i = ps_job_id p) (first :: chunks ++ [final]) ∧
    it_kind first = IK_anchor_seen ∧ Forall (λ i, it_kind i = IK_assistant_chunk) chunks ∧ it_kind final = IK_turn_boundary ∧
    it_timestamp final = now ∧
    it_payload final = [("reason", PStr "task_complete"); ("last_agent_message", PStr (selected_reply s'))] ++ more ∧
    (∀ k, k ∉ ["turn_id"; "task_id"; "session_path"] → dget k more = PNone) ∧
    (final_text (po_request_anchor s) e ≠ "" → selected_reply s' = final_text (po_request_anchor s) e).
Proof.
  intros [Hr Hpre Hprompt Hmid Hev Hdone] Ha Hs Ht Hq.
  apply Forall_app in Hr as [Hr1 Hr]. apply Forall_cons in Hr as [Hr2 Hr]. apply Forall_app in Hr as [Hr3 Hr4].
  apply Forall_cons in Hr4 as [Hr4 _].
  destruct (batch_before pre (prompt :: mid ++ [e]) s) as (s1 & -> & A1 & K1 & T1); [|done..|].
  { apply Forall_and. by split. }
  assert (po_next_seq s1 = po_next_seq s) as Q1 by (destruct A1 as [_ E _ _]; cbn in E; lia).
  destruct (at_prompt prompt s1) as (s2 & i & R2 & A2 & I2 & J2 & K2 & T2); [done|done|by destruct A1 as [_ _ _ ->]..|lia|].
  cbn [process_entry_batch]. rewrite R2. cbn [mbind result_bind]. rewrite T2, T1.
  assert (po_next_seq s2 = po_next_seq s1 + 1) as Q2 by (destruct A2 as [_ E _ _]; cbn in E; lia).
  destruct (batch_in_turn mid [e] s2) as (s3 & l & -> & A3 & L3 & K3 & T3); [by apply Forall_and|done|congruence|lia|].
  assert (po_request_anchor s3 = po_request_anchor s) as An by (destruct A1, A2, A3; congruence).
  destruct (at_end e s3) as (s4 & f & more & R4 & A4 & T4 & J4 & I4 & N4 & P4 & M4 & F4); [done..| |].
  { destruct A3 as [_ E _ _]. lia. }
  cbn [process_entry_batch]. rewrite R4. cbn [mbind result_bind]. rewrite T4.
  exists s4, i, l, f, more. rewrite An in F4. apply Forall_and in L3 as [L3 J3]. split_and!; try done.
  - change (i :: l ++ [f]) with ([] ++ [i] ++ l ++ [f]). by repeat (eapply advanced_trans; [eassumption|]).
  - constructor; [done|]. apply Forall_app_2; [done|by constructor].
Qed.
End turn.

(** ** What the detector makes of the items *)
Section detector.
Context `{CompletionLib}.
Fixpoint ingest_all (items : list CompletionItem) : D unit :=
  match items with [] => mret tt | i :: rest => _ ← ingest i; ingest_all rest end.
(** Bound, for a provider whose turns are protocol events, the anchor seen or not. *)
Definition listening (seen : bool) (d : detector) : Prop :=
  is_Some (dt_request_ctx d) ∧ dt_family d = CF_protocol_turn ∧ st_anchor_seen (dt_state d) = seen.

Lemma ingest_reads i d seen :
  listening seen d →
  ∃ d0, ingest i d = protocol_turn_ingest i d0 ∧ is_Some (dt_request_ctx d0) ∧ dt_family d0 = CF_protocol_turn ∧
        dt_state d0 = consume_common_item i (dt_state d).
Proof.
  intros ([c Hc] & Hf & Hs). unfold ingest. eexists.
  split; [|split; [|split]]; cycle 1.
  4: { unfold require_bound. unfold mbind at 1, st_bind at 1. rewrite Hc. unfold mbind at 1, st_bind at 1. cbn [upd_state st_modify].
       rewrite st_gets_bind. cbn [dt_family set_state]. rewrite Hf. reflexivity. }
  - cbn. by rewrite Hc.
  - done.
  - done.
Qed.
Lemma common_anchor i s :
  it_kind i ≠ IK_session_rotate →
  st_anchor_seen (consume_common_item i s) = (if bool_decide (it_kind i = IK_anchor_seen) then true else st_anchor_seen s).
Proof.
  intros Hk. unfold consume_common_item. destruct (first_non_empty _ ["subagent_id"; _]), (first_non_empty _ ["turn_id"; _; _; _; _]);
    destruct (it_kind i); try done.
Qed.
Lemma pending_listening d b : listening b d → ∃ d', set_pending d = (Ok tt, d') ∧ listening b d'.
Proof. intros Hd. by eexists. Qed.
Lemma record_listening i text st f d b : listening b d → ∃ d', record_reply i text st f d = (Ok tt, d') ∧ listening b d'.
Proof.
  intros Hd. unfold record_reply. destruct (strip text =ˢ ""); [by exists d|].
  destruct f as [f|]; [destruct (f =ˢ "")|]; by eexists.
Qed.
Lemma ingest_chunk i d :
  listening true d → it_kind i = IK_assistant_chunk → ∃ d', ingest i d = (Ok tt, d') ∧ listening true d'.
Proof.
  intros Hd Hk. destruct (ingest_reads i d true Hd) as (d0 & -> & K1 & K2 & K3).
  assert (listening true d0) as Hd0.
  { split_and!; [done..|]. rewrite K3, common_anchor, Hk by by rewrite Hk. cbn. apply Hd. }
  unfold protocol_turn_ingest. rewrite Hk. unfold stream_reply.
  destruct (first_non_empty _ _) as [t|].
  - destruct (record_listening i t false None d0 true Hd0) as (d1 & Hr & Hd1). unfold mbind, st_bind. rewrite Hr.
    by apply pending_listening.
  - by apply pending_listening.
Qed.
Lemma ingest_anchor i d b :
  listening b d → it_kind i = IK_anchor_seen → ∃ d', ingest i d = (Ok tt, d') ∧ listening true d'.
Proof.
  intros Hd Hk. destruct (ingest_reads i d b Hd) as (d0 & -> & K1 & K2 & K3).
  unfold protocol_turn_ingest. rewrite Hk. apply pending_listening.
  split_and!; [done..|]. rewrite K3, common_anchor, Hk by by rewrite Hk. done.
Qed.
Lemma ingest_chunks l rest d :
  listening true d → Forall (λ i, it_kind i = IK_assistant_chunk) l →
  ∃ d', ingest_all (l ++ rest) d = ingest_all rest d' ∧ listening true d'.
Proof.
  revert d. induction l as [|i l IH]; intros d Hd Hl; [by exists d|]. apply Forall_cons in Hl as [Hi Hl].
  destruct (ingest_chunk i d Hd Hi) as (d1 & Hr & Hd1). cbn [app ingest_all]. unfold mbind, st_bind. rewrite Hr. by apply IH.
Qed.
Lemma ingest_boundary i d text more :
  listening true d → it_kind i = IK_turn_boundary →
  it_payload i = [("reason", PStr "task_complete"); ("last_agent_message", PStr text)] ++ more →
  (∀ k, k ∉ ["turn_id"; "task_id"; "session_path"] → dget k more = PNone) → strip text = text →
  ∃ d', ingest i d = (Ok tt, d') ∧ cd_terminal (dt_decision d') = true ∧ cd_status (dt_decision d') = CS_completed ∧
        cd_reason (dt_decision d') = Some "task_complete" ∧ cd_confidence (dt_decision d') = Some CC_exact ∧
        cd_anchor_seen (dt_decision d') = true ∧ cd_reply (dt_decision d') = text ∧
        cd_finished_at (dt_decision d') = Some (it_timestamp i).
Proof.
  intros Hd Hk Hp Hmore Htext. destruct (ingest_reads i d true Hd) as (d0 & -> & K1 & K2 & K3).
  assert (listening true d0) as Hd0.
  { split_and!; [done..|]. rewrite K3, common_anchor, Hk by by rewrite Hk. cbn. apply Hd. }
  assert (first_non_empty (it_payload i) ["last_agent_message"; "final_answer"; "reply"; "text"] =
    if text =ˢ "" then None else Some text) as Hf.
  { assert (∀ k, k ∉ ["reason"; "last_agent_message"; "turn_id"; "task_id"; "session_path"] →
      dget k (it_payload i) = PNone) as Hno.
    { intros k Hn. rewrite !not_elem_of_cons in Hn. destruct Hn as (N1 & N2 & N3 & N4 & N5 & _).
      rewrite Hp. unfold dget. cbn. rewrite (proj2 (String.eqb_neq _ _) N1), (proj2 (String.eqb_neq _ _) N2).
      apply Hmore. rewrite !not_elem_of_cons. auto using not_elem_of_nil. }
    cbn [first_non_empty]. assert (dget "last_agent_message" (it_payload i) = PStr text) as -> by by rewrite Hp.
    rewrite Htext. destruct (text =ˢ ""); [|done].
    by rewrite (Hno "final_answer"), (Hno "reply"), (Hno "text") by not_in. }
  unfold protocol_turn_ingest. rewrite Hk. unfold final_reply, first_or. rewrite Hf.
  assert (first_non_empty (it_payload i) ["reason"; "completion_reason"] = Some "task_complete") as -> by by rewrite Hp.
  destruct (text =ˢ "") eqn:Et.
  - apply bool_decide_eq_true in Et as ->. eexists. split; [reflexivity|]. cbn. split_and!; try done. apply Hd0.
  - destruct (record_listening i text true None d0 true Hd0) as (d1 & Hr & Hd1). unfold mbind, st_bind. rewrite Hr.
    eexists. split; [reflexivity|]. cbn. split_and!; try done. apply Hd1.
Qed.
End detector.

(** ** A turn and its answer *)
Lemma build_poll_fresh p s : build_poll_state p = Ok s → po_items s = [] ∧ po_reached_terminal s = false.
Proof. unfold build_poll_state. intros Hs. repeat (apply result_bind_Ok_inv in Hs as (? & _ & Hs)). by injection Hs as <-. Qed.
Lemma selected_strip s : strip (selected_reply s) = selected_reply s.
Proof.
  unfold selected_reply, select_reply. destruct (List.find _ _) as [t|] eqn:Hf; [|done]. apply find_some in Hf as [Hin _].
  apply in_map_iff in Hin as (x & <- & _). apply strip_idem.
Qed.


(** What the daemon sends is what the poll looks for. *)
Lemma str_contains_prefix s t : str_contains s (s +:+ t) = true.
Proof. pose proof (string_prefix_app s t) as Hp. revert Hp. generalize (s +:+ t). intros [|c u] Hp; cbn -[String.prefix]; by rewrite Hp. Qed.
Lemma sent_prompt_recognised anchor body e :
  entry_role e = "user" → entry_text e = wrap_codex_turn_prompt body anchor → is_prompt anchor e = true.
Proof.
  intros Hr Ht. unfold is_prompt. rewrite Hr, Ht. cbn [andb]. unfold wrap_codex_turn_prompt.
  assert (∀ rest, REQ_ID_PREFIX +:+ " " +:+ anchor +:+ rest = (REQ_ID_PREFIX +:+ " " +:+ anchor) +:+ rest) as -> by
    (intros rest; by rewrite !string_app_assoc). apply str_contains_prefix.
Qed.

Definition demo_p : ProviderSubmission :=
  mkProviderSubmission "job_1" "agent1" "codex" "t0" "t0" SK_protocol_event_stream "" CS_incomplete "in_progress" CC_observed
    (Some []) [("mode", RStr "active"); ("request_anchor", RStr "job_1"); ("next_seq", RInt 1)].
Definition demo_event (kind : string) (more : pydict) : pydict :=
  [("timestamp", PStr "t1"); ("type", PStr "event_msg"); ("payload", PDict (("type", PStr kind) :: more))].
(** What the log shows, as the reader extracts it. *)
Definition demo_entry (kind : string) (more : pydict) : pydict :=
  match extract_entry (demo_event kind more) with Ok (Some e) => e | _ => [] end.
Definition demo_prompt : pydict := demo_entry "user_message" [("message", PStr (wrap_codex_turn_prompt "hello" "job_1"))].
Definition demo_messages : list pydict :=
  [demo_entry "agent_message" [("message", PStr "working")]; demo_entry "agent_message" [("message", PStr "the answer")]].
Definition demo_complete : pydict := demo_entry "task_complete" [("last_agent_message", PStr ("the answer" +:+ NL +:+ "CCB_DONE: job_1"))].
Definition demo_poll : CodexPollState :=
  match build_poll_state demo_p with Ok s => s | Err _ => mkPoll "" 0 false "" "" "" "" "" "" "" "" [] false end.


(** ** One poll after another

    What a poll sees: the path of the log that is read, and an entry. *)
Inductive log_read := ReadPath (path : string) | ReadEntry (entry : pydict).
Fixpoint follow (p : ProviderSubmission) (now : string) (reads : list log_read) (s : CodexPollState) : result CodexPollState :=
  match reads with
  | [] => mret s
  | ReadPath path :: rest => s ← apply_session_rotation p path now s; follow p now rest s
  | ReadEntry e :: rest => s ← process_entry p now e s; if po_reached_terminal s then mret s else follow p now rest s
  end.
Definition with_items (items : list CompletionItem) (s : CodexPollState) : CodexPollState :=
  mkPoll (po_request_anchor s) (po_next_seq s) (po_anchor_seen s) (po_bound_turn_id s) (po_bound_task_id s)
    (po_reply_buffer s) (po_last_agent_message s) (po_last_final_answer s) (po_last_assistant_message s)
    (po_last_assistant_signature s) (po_session_path s) items (po_reached_terminal s).
Definition prepend (items : list CompletionItem) (r : result CodexPollState) : result CodexPollState :=
  s ← r; mret (with_items (items ++ po_items s) s).

(** The items that are there already make no difference. *)
Section prepended.
Context (p : ProviderSubmission) (now : string) (l : list CompletionItem).
Abbreviation more s := (with_items (l ++ po_items s) s).
Lemma emit_prepend kind payload s : emit p kind now payload (more s) = prepend l (emit p kind now payload s).
Proof.
  unfold emit, prepend. cbn [with_items po_next_seq]. destruct (build_item _ _ _ _ _); [|done].
  cbn. unfold append_item, with_items. cbn. by rewrite app_assoc.
Qed.
Lemma prepend_bind r (f : CodexPollState → result CodexPollState) :
  (∀ s, f (more s) = prepend l (f s)) → (prepend l r ≫= f) = prepend l (r ≫= f).
Proof. intros Hf. destruct r as [s|e]; [apply Hf|done]. Qed.
Lemma rotation_prepend path s : apply_session_rotation p path now (more s) = prepend l (apply_session_rotation p path now s).
Proof.
  unfold apply_session_rotation. cbn [with_items po_session_path]. destruct (_ || _); [done|].
  rewrite emit_prepend. by apply prepend_bind.
Qed.
Lemma user_prepend text s : handle_user_entry p text now (more s) = prepend l (handle_user_entry p text now s).
Proof.
  unfold handle_user_entry. cbn [with_items po_request_anchor po_anchor_seen]. destruct (_ && _); [|done].
  change (turn_ref (more s)) with (turn_ref s). rewrite emit_prepend. by apply prepend_bind.
Qed.
Lemma assistant_prepend e s : handle_assistant_entry p e now (more s) = prepend l (handle_assistant_entry p e now s).
Proof.
  unfold handle_assistant_entry, is_duplicate_assistant_entry. destruct (assistant_signature e) as [g|]; [|done].
  cbn [mbind result_bind mret result_ret]. cbn [with_items po_last_assistant_signature].
  destruct (g =ˢ ""); [|destruct (g =ˢ po_last_assistant_signature s); [done|]]; cbn [fst snd].
  all: destruct (py_str_or_empty (dget "text" e)); [|done]; cbn [mbind result_bind].
  all: cbn [with_items set_signature po_request_anchor]; destruct (strip _ =ˢ ""); [done|].
  all: destruct (stripped_at "phase" e); [|done]; cbn [mbind result_bind].
  all: match goal with |- emit _ _ _ _ ?g = prepend l (emit _ _ _ _ ?h) => change g with (more h) end.
  all: rewrite <- emit_prepend; reflexivity.
Qed.
Lemma complete_prepend e s : append_task_complete_item p e now (more s) = prepend l (append_task_complete_item p e now s).
Proof.
  unfold append_task_complete_item. destruct (stripped_at _ e) as [t|]; [|done]. cbn [mbind result_bind].
  destruct (t =ˢ ""); match goal with |- (emit _ _ _ _ ?g ≫= _) = prepend l (emit _ _ _ _ ?h ≫= _) => change g with (more h) end;
    rewrite <- prepend_bind by done; by rewrite <- emit_prepend.
Qed.
Lemma aborted_prepend e s : append_turn_aborted_item p e now (more s) = prepend l (append_turn_aborted_item p e now s).
Proof.
  unfold append_turn_aborted_item. destruct (py_str _) as [t|]; [|done]. cbn [mbind result_bind].
  destruct (stripped_at _ e) as [u|]; [|done]. cbn [mbind result_bind].
  rewrite <- prepend_bind by done. by rewrite <- emit_prepend.
Qed.
Lemma terminal_prepend e s : handle_terminal_entry p e now (more s) = prepend l (handle_terminal_entry p e now s).
Proof.
  unfold handle_terminal_entry. destruct (terminal_payload_type e) as [t|]; [|done]. cbn [mbind result_bind].
  destruct (t =ˢ _); [apply complete_prepend|]. destruct (t =ˢ _); [apply aborted_prepend|done].
Qed.
Lemma entry_prepend e s : process_entry p now e (more s) = prepend l (process_entry p now e s).
Proof.
  unfold process_entry, update_binding_refs. destruct (stripped_at "turn_id" e) as [t|]; [|done]. cbn [mbind result_bind].
  destruct (stripped_at "task_id" e) as [k|]; [|done]. cbn [mbind result_bind mret result_ret].
  cbn [with_items po_bound_turn_id po_bound_task_id].
  set (s0 := set_refs (str_or (Some t) (po_bound_turn_id s)) (str_or (Some k) (po_bound_task_id s)) s).
  change (set_refs _ _ (more s)) with (more s0). change (po_anchor_seen (more s0)) with (po_anchor_seen s0). clearbody s0.
  destruct (stripped_at "role" e) as [r|]; [|done]. cbn [mbind result_bind].
  destruct (lower r =ˢ "user"); [destruct (py_str_or_empty _); [apply user_prepend|done]|].
  destruct (negb _); [done|]. destruct (lower r =ˢ "assistant"); [apply assistant_prepend|apply terminal_prepend].
Qed.
Lemma follow_prepend reads s : follow p now reads (more s) = prepend l (follow p now reads s).
Proof.
  revert s. induction reads as [|[path|e] reads IH]; intros s; cbn [follow]; [done| |].
  - rewrite rotation_prepend. apply prepend_bind, IH.
  - rewrite entry_prepend. apply prepend_bind. intros s'. cbn [with_items po_reached_terminal].
    destruct (po_reached_terminal s'); [done|apply IH].
Qed.
End prepended.

(** Only the header of the submission is read, and whether its prompt is plain. *)
Section header.
Context (p q : ProviderSubmission) (now : string).
Record same_header : Prop := {
  sh_kind : ps_source_kind p = ps_source_kind q;
  sh_provider : ps_provider p = ps_provider q;
  sh_agent : ps_agent_name p = ps_agent_name q;
  sh_job : ps_job_id p = ps_job_id q;
  sh_no_wrap : rt_get "no_wrap" (ps_runtime_state p) = rt_get "no_wrap" (ps_runtime_state q)
}.
Context (Hpq : same_header).
Lemma emit_header kind payload s : emit p kind now payload s = emit q kind now payload s.
Proof using Hpq. destruct Hpq as [K1 K2 K3 K4 _]. unfold emit, build_item. by rewrite K1, K2, K3, K4. Qed.
Lemma entry_header e s : process_entry p now e s = process_entry q now e s.
Proof using Hpq.
  unfold process_entry, handle_user_entry, handle_assistant_entry, handle_terminal_entry, append_task_complete_item,
    append_turn_aborted_item.
  destruct (update_binding_refs e s) as [s0|]; [|done]. cbn [mbind result_bind].
  destruct (stripped_at "role" e) as [r|]; [|done]. cbn [mbind result_bind].
  destruct (lower r =ˢ "user"); [destruct (py_str_or_empty _); [cbn [mbind result_bind]; by rewrite emit_header|done]|].
  destruct (negb _); [done|]. destruct (lower r =ˢ "assistant").
  - destruct (is_duplicate_assistant_entry e s0) as [[b g]|]; [|done]. cbn [mbind result_bind fst snd]. destruct b; [done|].
    destruct (py_str_or_empty _); [|done]. cbn [mbind result_bind]. destruct (strip _ =ˢ ""); [done|].
    destruct (stripped_at "phase" e); [|done]. cbn [mbind result_bind]. by rewrite emit_header.
  - destruct (terminal_payload_type e) as [t|]; [|done]. cbn [mbind result_bind].
    destruct (t =ˢ _); [destruct (stripped_at _ e); [cbn [mbind result_bind]; by rewrite emit_header|done]|].
    destruct (t =ˢ _); [|done]. destruct (py_str _); [|done]. cbn [mbind result_bind].
    destruct (stripped_at _ e); [cbn [mbind result_bind]; by rewrite emit_header|done].
Qed.
Lemma follow_header reads s : follow p now reads s = follow q now reads s.
Proof using Hpq.
  revert s. induction reads as [|[path|e] reads IH]; intros s; cbn [follow]; [done| |].
  - unfold apply_session_rotation. rewrite (sh_no_wrap Hpq), emit_header. destruct (_ || _); [apply IH|].
    destruct (emit _ _ _ _ _); [apply IH|done].
  - rewrite entry_header. destruct (process_entry _ _ _ _) as [s'|]; [|done]. cbn [mbind result_bind].
    destruct (po_reached_terminal s'); [done|apply IH].
Qed.
End header.

(** The anchor stays. *)
Lemma emit_anchor p kind now payload s s' : emit p kind now payload s = Ok s' → po_request_anchor s' = po_request_anchor s.
Proof. unfold emit. destruct (build_item _ _ _ _ _); [|done]. by intros [= <-]. Qed.
Lemma duplicate_anchor e s r : is_duplicate_assistant_entry e s = Ok r → po_request_anchor r.2 = po_request_anchor s.
Proof.
  unfold is_duplicate_assistant_entry. intros H. apply result_bind_Ok_inv in H as (g & _ & H). injection H as <-.
  by destruct (g =ˢ ""), (g =ˢ po_last_assistant_signature s).
Qed.
Ltac anchor_kept :=
  repeat match goal with
  | H : (_ ≫= _) = Ok _ |- _ => apply result_bind_Ok_inv in H as (? & ? & H)
  | H : emit _ _ _ _ _ = Ok _ |- _ => apply emit_anchor in H; cbn in H
  | H : is_duplicate_assistant_entry _ _ = Ok _ |- _ => apply duplicate_anchor in H
  | H : mret _ = Ok _ |- _ => unfold mret, result_ret in H; injection H as <-
  | H : Ok _ = Ok _ |- _ => injection H as <-
  | H : (if ?b then _ else _) = Ok _ |- _ => destruct b
  end; cbn in *; try congruence.
Lemma terminal_anchor p e now s s' : handle_terminal_entry p e now s = Ok s' → po_request_anchor s' = po_request_anchor s.
Proof.
  unfold handle_terminal_entry, append_task_complete_item, append_turn_aborted_item. intros H.
  anchor_kept; destruct (_ =ˢ _) in *; cbn in *; congruence.
Qed.
Lemma entry_anchor p now e s s' : process_entry p now e s = Ok s' → po_request_anchor s' = po_request_anchor s.
Proof.
  unfold process_entry. intros (s0 & H0 & H)%result_bind_Ok_inv.
  assert (po_request_anchor s0 = po_request_anchor s) as <- by (unfold update_binding_refs in H0; anchor_kept; done). clear H0.
  apply result_bind_Ok_inv in H as (r & _ & H). destruct (lower r =ˢ "user").
  { unfold handle_user_entry in H. anchor_kept. }
  destruct (negb _); [by injection H as <-|]. destruct (lower r =ˢ "assistant"); [|by eapply terminal_anchor].
  unfold handle_assistant_entry in H. anchor_kept.
Qed.
Lemma follow_anchor p now reads s s' : follow p now reads s = Ok s' → po_request_anchor s' = po_request_anchor s.
Proof.
  revert s. induction reads as [|[path|e] reads IH]; intros s; cbn [follow]; intros H.
  - by injection H as <-.
  - apply result_bind_Ok_inv in H as (s1 & H1 & H). rewrite (IH _ H). unfold apply_session_rotation in H1. anchor_kept.
  - apply result_bind_Ok_inv in H as (s1 & H1 & H). apply entry_anchor in H1.
    destruct (po_reached_terminal s1); [by injection H as <-|]. by rewrite (IH _ H).
Qed.

(** ** The state between two polls *)
Lemma lookup_update_same {A} k (v : A) l d :
  NoDup l.*1 → (k, v) ∈ l → od_lookup k (od_update l d) = Some v.
Proof.
  unfold od_update. revert d. induction l as [|[k' v'] l IH]; intros d Hn Hin; [by apply elem_of_nil in Hin|].
  cbn in Hn. apply NoDup_cons in Hn as [Hk Hn]. cbn [foldl fst snd]. apply elem_of_cons in Hin as [[= <- <-]|Hin]; [|by apply IH].
  assert (∀ d, k ∉ l.*1 → od_lookup k (foldl (λ d kv, od_set kv.1 kv.2 d) d l) = od_lookup k d) as Hl.
  { clear. induction l as [|[k2 v2] l IH]; intros d Hk; [done|]. cbn in *. rewrite not_elem_of_cons in Hk. destruct Hk as [H1 H2].
    rewrite IH by done. by apply od_lookup_set_ne. }
  rewrite Hl by done. apply od_lookup_set.
Qed.
Lemma lookup_update_other {A} k (l d : list (string * A)) : k ∉ l.*1 → od_lookup k (od_update l d) = od_lookup k d.
Proof.
  unfold od_update. revert d. induction l as [|[k2 v2] l IH]; intros d Hk; [done|]. cbn in *.
  rewrite not_elem_of_cons in Hk. destruct Hk as [H1 H2]. rewrite IH by done. by apply od_lookup_set_ne.
Qed.
Lemma text_at_str k t d : rt_get k d = RStr t → rt_text_at k d = Ok t.
Proof. intros Hk. unfold rt_text_at, rt_text, rt_or. rewrite Hk. cbn. by destruct t. Qed.
Ltac listed := apply elem_of_cons; first [left; reflexivity | right; listed].
Section between.
Context (p : ProviderSubmission) (state : rtdict) (s : CodexPollState).
Abbreviation polled := (polled_submission p state s).

Lemma polled_get k v :
  (k, v) ∈ [ ("state", RDict state); ("next_seq", RInt (po_next_seq s)); ("anchor_seen", RBool (po_anchor_seen s));
      ("bound_turn_id", RStr (po_bound_turn_id s)); ("bound_task_id", RStr (po_bound_task_id s));
      ("reply_buffer", RStr (po_reply_buffer s)); ("last_agent_message", RStr (po_last_agent_message s));
      ("last_final_answer", RStr (po_last_final_answer s)); ("last_assistant_message", RStr (po_last_assistant_message s));
      ("last_assistant_signature", RStr (po_last_assistant_signature s)); ("session_path", RStr (po_session_path s)) ] →
  od_lookup k (ps_runtime_state polled) = Some v.
Proof.
  intros Hin. cbn [ps_runtime_state polled_submission submission_after_poll]. unfold polled_state. apply lookup_update_same; [|exact Hin].
  apply (bool_decide_eq_true_1 _). vm_compute. reflexivity.
Qed.
Lemma polled_get_other k :
  k ∉ ["state"; "next_seq"; "anchor_seen"; "bound_turn_id"; "bound_task_id"; "reply_buffer"; "last_agent_message";
       "last_final_answer"; "last_assistant_message"; "last_assistant_signature"; "session_path"] →
  rt_get k (ps_runtime_state polled) = rt_get k (ps_runtime_state p).
Proof. intros Hk. unfold rt_get. cbn [ps_runtime_state polled_submission submission_after_poll]. unfold polled_state. by rewrite lookup_update_other. Qed.
Lemma polled_header : same_header polled p.
Proof. split; [done..|]. apply polled_get_other. not_in. Qed.

(** The state of the next poll, also when it was exported and resumed. *)
Definition carried : CodexPollState :=
  mkPoll (po_request_anchor s) (po_next_seq s) (po_anchor_seen s) (po_bound_turn_id s) (po_bound_task_id s)
    (po_reply_buffer s) (po_last_agent_message s) (po_last_final_answer s) (po_last_assistant_message s)
    (po_last_assistant_signature s) (po_session_path s) [] false.
Lemma build_from q :
  request_anchor_from_runtime_state (ps_runtime_state q) (ps_job_id q) = Ok (po_request_anchor s) →
  (∀ k, k ∈ ["next_seq"; "anchor_seen"; "bound_turn_id"; "bound_task_id"; "reply_buffer"; "last_agent_message";
             "last_final_answer"; "last_assistant_message"; "last_assistant_signature"; "session_path"] →
        od_lookup k (ps_runtime_state q) = od_lookup k (ps_runtime_state polled)) →
  build_poll_state q = Ok carried.
Proof.
  intros Ha Hk. unfold build_poll_state. rewrite Ha. cbn [mbind result_bind]. unfold rt_int_at.
  rewrite (Hk "next_seq"), (polled_get "next_seq" (RInt (po_next_seq s))) by listed. cbn [rt_json py_int mbind result_bind].
  repeat match goal with |- context[rt_text_at ?k (ps_runtime_state q)] =>
    erewrite (text_at_str k); [|unfold rt_get; rewrite (Hk k) by listed; erewrite (polled_get k); [reflexivity|listed]];
    cbn [mbind result_bind] end.
  unfold rt_get. rewrite (Hk "anchor_seen"), (polled_get "anchor_seen" (RBool (po_anchor_seen s))) by listed.
  done.
Qed.
End between.

Lemma build_poll_anchor p s :
  build_poll_state p = Ok s → request_anchor_from_runtime_state (ps_runtime_state p) (ps_job_id p) = Ok (po_request_anchor s).
Proof.
  unfold build_poll_state. intros (a & -> & Hs)%result_bind_Ok_inv.
  repeat (apply result_bind_Ok_inv in Hs as (? & _ & Hs)). by injection Hs as <-.
Qed.
Lemma anchor_stripped state id a : request_anchor_from_runtime_state state id = Ok a → strip a = a.
Proof. unfold request_anchor_from_runtime_state. intros (t & _ & H)%result_bind_Ok_inv. injection H as <-. apply strip_idem. Qed.
Lemma anchor_stays p s now reads s1 state :
  build_poll_state p = Ok s → follow p now reads s = Ok s1 →
  request_anchor_from_runtime_state (ps_runtime_state (polled_submission p state s1)) (ps_job_id p) = Ok (po_request_anchor s1).
Proof.
  intros Hs Hf. rewrite (follow_anchor _ _ _ _ _ Hf), <- (build_poll_anchor _ _ Hs). unfold request_anchor_from_runtime_state.
  by rewrite !polled_get_other by not_in.
Qed.
Lemma exported_get p exported k :
  export_runtime_state p = Ok exported → k ∈ exported_keys → od_lookup k exported = Some (rt_get k (ps_runtime_state p)).
Proof.
  unfold export_runtime_state. intros (a & _ & H)%result_bind_Ok_inv Hk. injection H as <-.
  unfold exported_keys in Hk. rewrite !elem_of_cons in Hk.
  repeat destruct Hk as [->|Hk]; [reflexivity..|]. by apply elem_of_nil in Hk.
Qed.
Lemma exported_state p state s exported :
  request_anchor_from_runtime_state (ps_runtime_state (polled_submission p state s)) (ps_job_id p) = Ok (po_request_anchor s) →
  po_request_anchor s ≠ "" →
  export_runtime_state (polled_submission p state s) = Ok exported →
  build_poll_state (with_runtime_state exported (polled_submission p state s)) = Ok (carried s).
Proof.
  intros Ha Hne He. apply (build_from p state).
  - assert (rt_get "request_anchor" exported = RStr (po_request_anchor s)) as Hr.
    { unfold export_runtime_state in He. change (ps_job_id (polled_submission p state s)) with (ps_job_id p) in He.
      rewrite Ha in He. injection He as <-. reflexivity. }
    unfold request_anchor_from_runtime_state. cbn [ps_runtime_state with_runtime_state]. rewrite Hr. unfold rt_or at 1, rt_bool.
    rewrite (bool_decide_eq_false_2 _ Hne). cbn [negb]. unfold rt_text, rt_or, rt_bool. rewrite (bool_decide_eq_false_2 _ Hne).
    cbn. by rewrite (anchor_stripped _ _ _ Ha).
  - intros k Hk. cbn [ps_runtime_state with_runtime_state]. rewrite (exported_get _ _ k He).
    2:{ unfold exported_keys. rewrite !elem_of_cons in *. tauto. }
    unfold rt_get. rewrite !elem_of_cons in Hk.
    repeat destruct Hk as [->|Hk]; [erewrite polled_get; [reflexivity|listed]..|]. by apply elem_of_nil in Hk.
Qed.

(** C15: Polls add up.  A poll that follows the log as far as it goes leaves a
    submission from which the next poll goes on exactly where a single longer
    poll would be: it reports the items that the longer poll has more, raises
    what the longer poll raises, and ends in the same state, with nothing
    reported twice and nothing lost, whatever the entries are and however often
    the log is changed for another. The same holds when the daemon stopped in
    between and the submission was stored and resumed. *)
Theorem codex_polls_add_up p s now reads s1 state now' reads'
    (Hs : build_poll_state p = Ok s) (Hanchor : po_request_anchor s ≠ "")
    (Hr : follow p now reads s = Ok s1) (Ht : po_reached_terminal s1 = false) :
  let next := polled_submission p state s1 in
  ∃ fresh, build_poll_state next = Ok fresh ∧
    follow p now' reads' s1 = prepend (po_items s1) (follow next now' reads' fresh) ∧
    ∀ exported, export_runtime_state next = Ok exported →
      build_poll_state (with_runtime_state exported next) = Ok fresh.
Proof.
  intros next. pose proof (anchor_stays p s now reads s1 state Hs Hr) as Ha. exists (carried s1).
  split; [by apply (build_from p state)|]. split.
  - assert (s1 = with_items (po_items s1 ++ po_items (carried s1)) (carried s1)) as Hs1.
    { destruct s1. cbn in *. subst. unfold carried, with_items. cbn. by rewrite app_nil_r. }
    rewrite Hs1 at 1. rewrite follow_prepend. f_equal. symmetry. apply follow_header, polled_header.
  - intros exported He. apply exported_state; [done| |done]. by rewrite (follow_anchor _ _ _ _ _ Hr).
Qed.

(** The turn of the demonstration in two polls, the second one at another time. *)
Definition demo_reads : list log_read := ReadEntry demo_prompt :: (ReadEntry <$> demo_messages).
Definition demo_halfway : CodexPollState :=
  match follow demo_p "t2" demo_reads demo_poll with Ok s => s | Err _ => demo_poll end.
Lemma codex_polls_add_up_witness :
  let next := polled_submission demo_p [] demo_halfway in
  length (po_items demo_halfway) = 3%nat ∧
  ∃ fresh, build_poll_state next = Ok fresh ∧
    match follow next "t3" [ReadEntry demo_complete] fresh with
    | Ok s => length (po_items s) = 1%nat ∧ po_reached_terminal s = true
    | Err _ => False
    end.
Proof.
  intros next. split; [vm_compute; reflexivity|].
  destruct (codex_polls_add_up demo_p demo_poll "t2" demo_reads demo_halfway [] "t3" [ReadEntry demo_complete])
    as (fresh & H1 & H2 & _); [reflexivity|discriminate|vm_compute; reflexivity|vm_compute; reflexivity|].
  exists fresh. split; [exact H1|]. fold next in H2.
  assert (match follow demo_p "t3" [ReadEntry demo_complete] demo_halfway with
    | Ok s => length (po_items s) = 4%nat ∧ po_reached_terminal s = true | Err _ => False end) as Hlong
    by (vm_compute; split; reflexivity).
  rewrite H2 in Hlong. destruct (follow next "t3" [ReadEntry demo_complete] fresh) as [s|x]; [|exact Hlong].
  cbn in Hlong. destruct Hlong as [Hl Ht]. rewrite length_app in Hl.
  assert (length (po_items demo_halfway) = 3%nat) as H3 by (vm_compute; reflexivity).
  rewrite H3 in Hl. split; [lia|exact Ht].
Defined.
