(* ===== verification/CodexLogTheorems.v ===== *)
(** * Reading a codex log: every line once

    A poll of the codex adapter reads the complete lines of the session log from
    where the last poll stopped, and leaves an incomplete last line for the next
    one. *)
From stdpp Require Import pretty.
From Stdlib Require Import QArith.
From S2P Require Import Prelude PyValue RuntimeValues Names CompletionModels ExecutionModels JobModels Jsonl Detectors ExecutionService.
From S2P Require Import ActivePoll ProviderProtocol FakeProvider CodexLog CodexExecution CodexTheorems.
Open Scope string_scope.
Open Scope list_scope.
Open Scope Z_scope.

(** ** The entries of a log *)
Section entries.
Context `{LogLib}.

(** What a complete line says: an entry, nothing, or a value that is no entry. *)
Definition line_entry (l : bytes) : result (option pydict) :=
  let line := strip (ll_decoded l) in
  if line =ˢ "" then mret None
  else match ll_json line with
       | None => mret None
       | Some (PDict entry) => extract_entry entry
       | Some _ => Err (AttributeError "the entry has no attribute 'get'")
       end.
(** The complete lines, and the length of what they take. *)
Fixpoint complete_lines (b : bytes) : list bytes * bytes :=
  match b with
  | [] => ([], [])
  | c :: b' =>
      let '(ls, rest) := complete_lines b' in
      if bool_decide (c = LF) then ([] :: ls, rest)
      else match ls with [] => ([], c :: rest) | l :: ls' => ((c :: l) :: ls', rest) end
  end.
(** The entries with the ends of their lines, and the end of the last line. *)
Fixpoint entries_of (ls : list bytes) (offset : Z) : result (list (pydict * Z)) :=
  match ls with
  | [] => mret []
  | l :: rest =>
      let offset := offset + Z.of_nat (length l) + 1 in
      e ← line_entry l;
      es ← entries_of rest offset;
      mret match e with Some e => (e, offset) :: es | None => es end
  end.
Definition lines_end (ls : list bytes) (offset : Z) : Z := foldl (λ o l, o + Z.of_nat (length l) + 1) offset ls.
Definition log_entries (b : bytes) (offset : Z) : result (list (pydict * Z)) :=
  entries_of (complete_lines (drop (Z.to_nat offset) b)).1 offset.
Definition log_end (b : bytes) (offset : Z) : Z := lines_end (complete_lines (drop (Z.to_nat offset) b)).1 offset.

Lemma line_break_lines b :
  match line_break b with
  | None => (complete_lines b).1 = []
  | Some (l, rest) => (complete_lines b).1 = l :: (complete_lines rest).1 ∧ length b = (length l + 1 + length rest)%nat ∧ b = l ++ LF :: rest
  end.
Proof.
  induction b as [|c b IH]; cbn [line_break complete_lines]; [done|]. destruct (complete_lines b) as [ls more] eqn:E.
  case_bool_decide as Hc; [subst c; by rewrite E|]. destruct (line_break b) as [[l rest]|]; cbn in IH.
  - destruct IH as (-> & Hl & ->). cbn. split_and!; [done| |done]. cbn in Hl. rewrite length_app in *. cbn in *. lia.
  - by rewrite IH.
Qed.

(** What the reader finds is the first entry. *)
Lemma read_matching_first fuel b offset es :
  (length b <= fuel)%nat → entries_of (complete_lines b).1 offset = Ok es →
  read_matching extract_entry fuel b offset =
    Ok match es with
       | [] => (None, lines_end (complete_lines b).1 offset)
       | (e, o) :: _ => (Some e, o)
       end.
Proof.
  revert b offset es. induction fuel as [|fuel IH]; intros b offset es Hf He.
  { destruct b; [|cbn in Hf; lia]. cbn in He. injection He as <-. done. }
  cbn [read_matching]. pose proof (line_break_lines b) as Hb. destruct (line_break b) as [[l rest]|].
  - destruct Hb as (Hl & Hn & _). rewrite Hl in *. cbn [entries_of lines_end foldl] in *.
    set (o := offset + Z.of_nat (length l) + 1) in *.
    apply result_bind_Ok_inv in He as (m & Hm & He). apply result_bind_Ok_inv in He as (es' & He' & He). injection He as <-.
    assert (read_matching extract_entry fuel rest o = Ok match es' with [] => (None, lines_end (complete_lines rest).1 o) | (e, o) :: _ => (Some e, o) end)
      as Hrest by (apply IH; [lia|done]).
    unfold line_entry in Hm. destruct (strip (ll_decoded l) =ˢ ""); [injection Hm as <-; exact Hrest|].
    destruct (ll_json _) as [[]|]; try discriminate Hm; [|injection Hm as <-; exact Hrest].
    rewrite Hm. cbn [mbind result_bind]. destruct m; [done|exact Hrest].
  - rewrite Hb in He. rewrite Hb. injection He as <-. done.
Qed.

(** After the first entry the others follow. *)
Lemma lines_after b :
  match line_break b with
  | None => True
  | Some (l, rest) => drop (length l + 1) b = rest
  end.
Proof.
  pose proof (line_break_lines b) as Hb. destruct (line_break b) as [[l rest]|]; [|done]. destruct Hb as (_ & _ & ->).
  rewrite drop_app_ge by lia. replace (length l + 1 - length l)%nat with 1%nat by lia. done.
Qed.
Lemma entries_after n b offset e o es :
  (length b <= n)%nat → entries_of (complete_lines b).1 offset = Ok ((e, o) :: es) →
  offset < o <= offset + Z.of_nat (length b) ∧
  entries_of (complete_lines (drop (Z.to_nat (o - offset)) b)).1 o = Ok es ∧
  lines_end (complete_lines (drop (Z.to_nat (o - offset)) b)).1 o = lines_end (complete_lines b).1 offset.
Proof.
  revert b offset.
  induction n as [|n IH]; intros b offset Hle He.
  { destruct b; [|cbn in Hle; lia]. discriminate He. }
  pose proof (line_break_lines b) as Hb. pose proof (lines_after b) as Hd.
  destruct (line_break b) as [[l rest]|]; [|by rewrite Hb in He]. destruct Hb as (Hl & Hlen & _). rewrite Hl in *.
  cbn [entries_of lines_end foldl] in *. set (o1 := offset + Z.of_nat (length l) + 1) in *.
  apply result_bind_Ok_inv in He as (m & _ & He). apply result_bind_Ok_inv in He as (es' & He' & He). injection He as He.
  assert (Z.to_nat (o1 - offset) = length l + 1)%nat as Ho1 by (unfold o1; lia).
  destruct m as [e'|].
  - injection He as -> <- <-. split; [unfold o1; lia|]. rewrite Ho1, Hd. done.
  - subst es'. destruct (IH rest o1) as (K1 & K2 & K3); [lia|done|]. split; [unfold o1 in *; lia|].
    replace (Z.to_nat (o - offset)) with (length l + 1 + Z.to_nat (o - o1))%nat by lia.
    rewrite <- drop_drop, Hd. done.
Qed.
Lemma log_entries_after b offset e o es :
  0 <= offset → log_entries b offset = Ok ((e, o) :: es) →
  offset < o <= Z.max offset (Z.of_nat (length b)) ∧ log_entries b o = Ok es ∧ log_end b o = log_end b offset.
Proof.
  intros Ho He. unfold log_entries, log_end in *. destruct (entries_after _ _ _ _ _ _ (le_n _) He) as (K1 & K2 & K3).
  rewrite length_drop in K1. rewrite drop_drop in K2, K3.
  replace (Z.to_nat offset + Z.to_nat (o - offset))%nat with (Z.to_nat o) in * by lia. split_and!; [lia|lia|done|done].
Qed.

(** A log that grows. *)
Lemma complete_lines_app b more :
  (complete_lines (b ++ more)).1 = (complete_lines b).1 ++ (complete_lines ((complete_lines b).2 ++ more)).1.
Proof.
  induction b as [|c b IH]; [done|]. cbn [app complete_lines].
  destruct (complete_lines (b ++ more)) as [ls rest], (complete_lines b) as [ls0 rest0]. cbn [fst snd] in *. subst ls.
  case_bool_decide as Hc; [done|]. destruct ls0 as [|l0 ls0]; cbn [app fst snd]; [|done].
  cbn [complete_lines]. destruct (complete_lines (rest0 ++ more)) as [ls1 rest1]. rewrite bool_decide_eq_false_2 by done.
  by destruct ls1.
Qed.
Lemma complete_lines_rest b offset :
  lines_end (complete_lines b).1 offset = offset + Z.of_nat (length b) - Z.of_nat (length (complete_lines b).2) ∧
  drop (length b - length (complete_lines b).2) b = (complete_lines b).2.
Proof.
  assert (∀ n b offset, (length b <= n)%nat →
    lines_end (complete_lines b).1 offset = offset + Z.of_nat (length b) - Z.of_nat (length (complete_lines b).2) ∧
    ∃ front, b = front ++ (complete_lines b).2) as Hgen.
  { clear. induction n as [|n IH]; intros b offset Hn.
    { destruct b; [|cbn in Hn; lia]. split; [cbn; lia|by exists []]. }
    destruct b as [|c b]; [split; [cbn; lia|by exists []]|]. cbn [length] in Hn.
    cbn [complete_lines]. destruct (complete_lines b) as [ls rest] eqn:E.
    case_bool_decide as Hc.
    - subst c. cbn [fst snd lines_end foldl]. destruct (IH b (offset + Z.of_nat (length (@nil ascii)) + 1)) as [K1 [f K2]]; [lia|].
      rewrite E in K1, K2. cbn [fst snd] in K1, K2. unfold lines_end in K1. rewrite K1. split; [cbn; lia|]. exists (LF :: f). by rewrite K2 at 1.
    - destruct (IH b (offset + 1)) as [K1 [f K2]]; [lia|]. rewrite E in K1, K2. cbn [fst snd] in K1, K2.
      destruct ls as [|l ls]; cbn [fst snd lines_end foldl] in *.
      + split; [cbn; lia|]. exists []. destruct f as [|x f]; [by rewrite K2|].
        exfalso. rewrite K2 in K1. rewrite length_app in K1. cbn in K1. lia.
      + split; [|exists (c :: f); by rewrite K2 at 1]. unfold lines_end in K1.
        replace (offset + Z.of_nat (length (c :: l)) + 1) with (offset + 1 + Z.of_nat (length l) + 1) by (cbn [length]; lia).
        rewrite K1. cbn [length]. lia. }
  destruct (Hgen _ b offset (le_n _)) as [K1 [f K2]]. split; [done|]. clear K1 Hgen.
  revert K2. generalize (complete_lines b).2 as r. intros r ->. rewrite length_app, drop_app_ge by lia.
  by replace (length f + length r - length r - length f)%nat with 0%nat by lia.
Qed.
Lemma entries_of_app l1 l2 offset :
  entries_of (l1 ++ l2) offset =
    (es ← entries_of l1 offset; es' ← entries_of l2 (lines_end l1 offset); mret (es ++ es')).
Proof.
  revert offset. induction l1 as [|l l1 IH]; intros offset; cbn [app entries_of lines_end foldl].
  { cbn. by destruct (entries_of l2 offset). }
  destruct (line_entry l) as [m|]; [|done]. cbn [mbind result_bind]. rewrite IH.
  destruct (entries_of l1 _) as [es|]; [|done]. cbn [mbind result_bind]. unfold lines_end. cbn [mret result_ret].
  destruct (entries_of l2 _) as [es'|]; [|by destruct m]. by destruct m.
Qed.
Lemma log_entries_grow b more offset :
  0 <= offset <= Z.of_nat (length b) →
  log_entries (b ++ more) offset =
    (es ← log_entries b offset; es' ← log_entries (b ++ more) (log_end b offset); mret (es ++ es')) ∧
  offset <= log_end b offset <= Z.of_nat (length b).
Proof.
  intros Ho. unfold log_entries, log_end. set (d := drop (Z.to_nat offset) b).
  assert (drop (Z.to_nat offset) (b ++ more) = d ++ more) as Hd.
  { unfold d. by rewrite drop_app_le by lia. }
  destruct (complete_lines_rest d offset) as [He Hr].
  assert (length (complete_lines d).2 <= length d)%nat as Hle.
  { rewrite <- Hr at 1. rewrite length_drop. lia. }
  assert (length d = length b - Z.to_nat offset)%nat as Hld by (unfold d; by rewrite length_drop).
  split; [|rewrite He; lia].
  rewrite Hd, complete_lines_app, entries_of_app. f_equal.
  assert (drop (Z.to_nat (lines_end (complete_lines d).1 offset)) (b ++ more) = (complete_lines d).2 ++ more) as ->; [|done].
  rewrite He. replace (Z.to_nat (offset + Z.of_nat (length d) - Z.of_nat (length (complete_lines d).2)))
    with (Z.to_nat offset + (length d - length (complete_lines d).2))%nat by lia.
  rewrite <- drop_drop, Hd, drop_app_le by lia. by rewrite Hr.
Qed.
End entries.

(** ** One log, followed *)
Section steady.
Context `{LogLib} `{HP : PathLib}.
(** The log of the session, which no other log of the session is newer than. *)
Record follows_log (files : list LogFile) (r : CodexLogReader) (P : string) (b : bytes) : Prop := {
  fl_preferred : rd_preferred_log r = Some P;
  fl_file : ∃ f mtime, file_at files P = Some f ∧ lf_stat f = Some (Z.of_nat (length b), mtime) ∧ lf_bytes f = Some b;
  fl_latest : scan_latest r files = None ∨ scan_latest r files = Some P
}.
Definition at_offset (P : string) (o : Z) (state : rtdict) : Prop :=
  rt_get "log_path" state = RPath P ∧ od_lookup "offset" state = Some (RInt o).
Lemma state_payload_at P o lr : at_offset P o (state_payload (Some P) o lr).
Proof. by split. Qed.

Lemma no_switch files r P b c ticks :
  follows_log files r P b →
  ∃ lr ticks', maybe_switch_logs files P c (mkReading r ticks) =
    (Ok (false, mkPollCursor (pc_current_path c) (pc_offset c) (pc_rescan_interval c) lr), mkReading r ticks').
Proof.
  intros [_ _ Hl]. unfold maybe_switch_logs, now_s. unfold mbind at 1, st_bind at 1. cbn [rg_ticks rg_reader].
  destruct (negb (Qle_bool (pc_rescan_interval c) _)); [eexists (pc_last_rescan c), _; by destruct c|]. rewrite st_gets_bind. cbn [rg_reader].
  destruct Hl as [-> | ->]; [by eexists _, _|]. rewrite (bool_decide_eq_true_2 (P = P) eq_refl). by eexists _, _.
Qed.
Lemma try_read files r P b state o ticks es :
  follows_log files r P b → at_offset P o state → 0 <= o <= Z.of_nat (length b) → log_entries b o = Ok es →
  ∃ lr ticks', try_get_entries files state (mkReading r ticks) =
    (Ok (match es with [] => [] | (e, _) :: _ => [e] end,
         state_payload (Some P) (match es with [] => log_end b o | (_, o') :: _ => o' end) lr), mkReading r ticks').
Proof.
  intros Hf [Hp Ho] Hb He. pose proof Hf as [Hpref (f & mt & Hfile & Hstat & Hbytes) _].
  unfold try_get_entries, read_matching_since, build_cursor, now_s. rewrite Ho, Hp. cbn [normalize_path].
  unfold mbind, st_bind, st_lift, mret, st_ret, result_ret. cbn [rg_reader rg_ticks pc_current_path].
  unfold ensure_log, mbind, st_bind, st_gets, mret, st_ret. cbn [rg_reader].
  rewrite Hpref. unfold exists_log. rewrite Hfile. cbn [is_some rg_reader]. rewrite Hfile.
  cbn [option_bind mbind]. rewrite Hstat, Hbytes. cbn [fmap option_fmap option_map fst].
  unfold initialize_offset. cbn [pc_offset]. rewrite (proj2 (Z.leb_le 0 o)) by lia. cbn [pc_offset].
  unfold seek_to_offset. rewrite Z.min_l by lia. unfold read_matching_from_handle.
  rewrite (read_matching_first _ _ o es); [|done|exact He].
  destruct es as [|[e o'] es]; cbn [fst snd]; [|by eexists _, _].
  match goal with |- context[maybe_switch_logs files P ?c ?w] =>
    destruct (no_switch files r P b c (rg_ticks w) Hf) as (lr & t & Hs) end.
  cbn [rg_ticks] in Hs. rewrite Hs. by eexists _, _.
Qed.
End steady.

(** ** A poll of a session log *)
Section poll.
Context {X : Type} `{PaneEnv X} `{CodexEnv X} `{LogLib} `{HP : PathLib}.
Implicit Types w : codex_world X.

(** The entries one after the other, the path of the log before each of them
    and at the end; where the reading stops. *)
Fixpoint consume_entries (p : ProviderSubmission) (now P : string) (es : list (pydict * Z)) (end_ : Z) (s : CodexPollState)
    : result (Z * CodexPollState) :=
  s ← apply_session_rotation p P now s;
  match es with
  | [] => mret (end_, s)
  | (e, o) :: rest =>
      s ← process_entry p now e s;
      if po_reached_terminal s then mret (o, s) else consume_entries p now P rest end_ s
  end.
Definition reads_of (P : string) (es : list (pydict * Z)) : list log_read :=
  flat_map (λ e, [ReadPath P; ReadEntry e.1]) es ++ [ReadPath P].
Definition at_ticks (t : nat) w : codex_world X := mkCodexWorld (cw_readers w) (cw_made w) t (cw_files w) (cw_env w).

Lemma read_entries_at ref r P b state o es w :
  cw_readers w !! ref = Some r → follows_log (cw_files w) r P b → at_offset P o state → 0 <= o <= Z.of_nat (length b) →
  log_entries b o = Ok es →
  ∃ lr t, read_entries (RObject ref) state w =
    (Ok (match es with [] => [] | (e, _) :: _ => [e] end,
         state_payload (Some P) (match es with [] => log_end b o | (_, o') :: _ => o' end) lr), at_ticks t w).
Proof.
  intros Hr Hf Hs Ho He. unfold read_entries, on_reader. rewrite Hr.
  destruct (try_read (cw_files w) r P b state o (cw_ticks w) es Hf Hs Ho He) as (lr & t & ->). exists lr, t. f_equal.
  unfold put_reader, at_ticks. cbn [rg_reader rg_ticks]. by rewrite insert_id.
Qed.
Lemma poll_consumes p now ref r P b es o state s w :
  cw_readers w !! ref = Some r → follows_log (cw_files w) r P b → expanded P = Ok P →
  at_offset P o state → 0 <= o <= Z.of_nat (length b) → log_entries b o = Ok es →
  ∃ lr t, ∀ fuel, Z.of_nat (length b) - o < Z.of_nat fuel →
    poll_entry_batches fuel p (RObject ref) now state s w =
    (match consume_entries p now P es (log_end b o) s with
     | Ok (o', s') => Ok (state_payload (Some P) o' lr, s')
     | Err e => Err e
     end, at_ticks t w).
Proof.
  intros Hr Hf HX. revert o state s w Hr Hf. induction es as [|[e o'] es IH]; intros o state s w Hr Hf Hs Ho He.
  all: destruct (read_entries_at ref r P b state o _ w Hr Hf Hs Ho He) as (lr & t & Hread).
  all: assert (∀ o1, state_session_path (state_payload (Some P) o1 lr) = Ok P) as Hpath by (intros; exact HX).
  all: cbn [consume_entries].
  - exists lr, t. intros [|fuel] Hfuel; [lia|]. cbn [poll_entry_batches].
    unfold mbind at 1, st_bind at 1. rewrite Hread. unfold mbind at 1, st_bind at 1, st_lift at 1. rewrite Hpath.
    by destruct (apply_session_rotation p P now s).
  - destruct (log_entries_after b o e o' es) as (K1 & K2 & K3); [lia|done|].
    destruct (apply_session_rotation p P now s) as [s1|x] eqn:Erot;
      [destruct (process_entry p now e s1) as [s2|x] eqn:Eproc; [destruct (po_reached_terminal s2) eqn:Ht|]|].
    2: destruct (IH o' (state_payload (Some P) o' lr) s2 (at_ticks t w)) as (lr' & t' & Hrest);
         [done|done|apply state_payload_at|lia|done|]; exists lr', t'.
    1,3,4: exists lr, t.
    all: intros [|fuel] Hfuel; [lia|]; cbn [poll_entry_batches]; unfold mbind at 1, st_bind at 1; rewrite Hread;
      unfold mbind at 1, st_bind at 1, st_lift at 1; rewrite Hpath;
      unfold mbind at 1, st_bind at 1, st_lift at 1; rewrite Erot; try done;
      unfold mbind at 1, st_bind at 1, st_lift at 1; cbn [process_entry_batch mbind result_bind]; rewrite Eproc; try done;
      cbn [mbind result_bind]; rewrite Ht; cbn [mret result_ret]; rewrite Ht; try done.
    rewrite Hrest by lia. by rewrite K3.
Qed.

Lemma consume_follow p now P es end_ s :
  match consume_entries p now P es end_ s with
  | Ok (o, s') => follow p now (reads_of P es) s = Ok s' ∧ (po_reached_terminal s' = false → o = end_)
  | Err x => follow p now (reads_of P es) s = Err x
  end.
Proof.
  revert s. unfold reads_of. induction es as [|[e o] es IH]; intros s; cbn [flat_map app consume_entries follow].
  all: destruct (apply_session_rotation p P now s) as [s1|x]; [|done]; cbn [mbind result_bind fst].
  { done. }
  destruct (process_entry p now e s1) as [s2|x]; [|done]. cbn [mbind result_bind].
  destruct (po_reached_terminal s2) eqn:Ht; [|apply IH]. split; [done|]. by rewrite Ht.
Qed.
Lemma log_bytes_enough files P f b : file_at files P = Some f → lf_bytes f = Some b → (length b <= log_bytes files)%nat.
Proof.
  unfold file_at, log_bytes. intros [Hin _]%find_some Hb. induction files as [|g files IH]; [done|].
  cbn [omap list_omap]. destruct Hin as [->|Hin].
  - rewrite Hb. cbn. lia.
  - specialize (IH Hin). destruct (lf_bytes g); cbn; lia.
Qed.

(** C14: A log is read once.  A poll of a session log from the offset where the
    last poll stopped makes exactly the complete lines after the offset into
    entries, in order, up to the one that ends the turn; an incomplete last line
    waits. The loop ends, and its bound makes no difference. When the turn goes
    on, the offset it leaves is the end of the last complete line, and what the
    log shows from there, however it has grown, is what it shows from the
    earlier offset less the entries of this poll: none is read twice, and none
    is left out. *)
Theorem codex_log_is_read_once p now ref r P b o es state s w
    (Hreader : cw_readers w !! ref = Some r) (Hlog : follows_log (cw_files w) r P b) (Hpath : expanded P = Ok P)
    (Hstate : at_offset P o state) (Hoffset : 0 <= o <= Z.of_nat (length b))
    (Hentries : log_entries b o = Ok es) :
  ∃ outcome t,
    (∀ fuel, (log_bytes (cw_files w) < fuel)%nat →
      poll_entry_batches fuel p (RObject ref) now state s w = (outcome, at_ticks t w)) ∧
    match outcome with
    | Ok (state', s') =>
        follow p now (reads_of P es) s = Ok s' ∧
        (po_reached_terminal s' = false →
           at_offset P (log_end b o) state' ∧ o <= log_end b o <= Z.of_nat (length b) ∧
           ∀ more, log_entries (b ++ more) o = (es' ← log_entries (b ++ more) (log_end b o); mret (es ++ es')))
    | Err x => follow p now (reads_of P es) s = Err x
    end.
Proof.
  destruct (poll_consumes p now ref r P b es o state s w) as (lr & t & Hpoll); [done..|].
  pose proof Hlog as [_ (f & mt & Hfile & _ & Hbytes) _]. pose proof (log_bytes_enough _ _ _ _ Hfile Hbytes) as Hlen.
  pose proof (consume_follow p now P es (log_end b o) s) as Hc.
  destruct (log_entries_grow b [] o Hoffset) as [_ Hend].
  eexists _, t. split; [intros fuel Hfuel; apply Hpoll; lia|].
  destruct (consume_entries p now P es (log_end b o) s) as [[o' s']|x]; [|exact Hc].
  destruct Hc as [Hc Ho]. split; [exact Hc|]. intros Ht. rewrite (Ho Ht). split_and!; [apply state_payload_at|lia|lia|].
  intros more. destruct (log_entries_grow b more o Hoffset) as [-> _]. by rewrite Hentries.
Qed.
End poll.

(** ** A small log

    The prompt, one message, and the beginning of a further line. *)
Definition demo_log_lib : LogLib := {|
  ll_json := λ s, if s =ˢ "prompt" then Some (PDict (demo_event "user_message" [("message", PStr (wrap_codex_turn_prompt "hello" "job_1"))]))
                  else if s =ˢ "message" then Some (PDict (demo_event "agent_message" [("message", PStr "working")]))
                  else None;
  ll_decoded := String.string_of_list_ascii;
  ll_float := λ _, None;
  ll_time := λ _, 0%Q
|}.
Definition demo_paths : PathLib := λ s, Ok s.
Definition demo_panes : PaneEnv unit := {|
  pn_ensure_pane := λ _ x, (Ok (true, "%1"), x);
  pn_backend_for_session := λ _ x, (Ok None, x);
  pn_is_tmux_pane_alive := λ _, None;
  pn_is_alive := λ _, None;
  pn_send_text_to_pane := λ _, None;
  pn_send_text := λ _, None
|}.
Definition demo_codex_env : CodexEnv unit := {|
  cx_load_project_session := λ _ _ x, (Ok None, x);
  cx_current_session_root := "/s";
  cx_normalize_work_dir := Some;
  cx_wait_for_runtime_ready := λ _ _ x, (Ok tt, x)
|}.
Definition demo_log : bytes := String.list_ascii_of_string ("prompt" +:+ NL +:+ "message" +:+ NL +:+ "mess").
Definition demo_log_path : string := "/s/a.jsonl".
Definition demo_reader : CodexLogReader := mkReader "/s" (Some demo_log_path) None None false.
Definition demo_codex_world : codex_world unit :=
  mkCodexWorld {["reader0" := demo_reader]} 1 0
    [mkLogFile demo_log_path (Some (Z.of_nat (length demo_log), 0%Q)) (Some demo_log) None] tt.
Definition demo_log_state : rtdict := state_payload (Some demo_log_path) 0 0.
Definition demo_log_entries : list (pydict * Z) := match @log_entries demo_log_lib demo_log 0 with Ok es => es | Err _ => [] end.
Definition demo_log_poll : result (rtdict * CodexPollState) * codex_world unit :=
  @poll_entry_batches unit demo_log_lib demo_paths 100 demo_p (RObject "reader0") "t2" demo_log_state demo_poll demo_codex_world.

(** Two items and the change of the log; the last line waits. *)
Lemma codex_log_is_read_once_witness :
  match demo_log_poll.1 with
  | Ok (state', s') => it_kind <$> po_items s' = [IK_session_rotate; IK_anchor_seen; IK_assistant_chunk] ∧ at_offset demo_log_path 15 state'
  | Err _ => False
  end.
Proof.
  destruct (@codex_log_is_read_once unit demo_log_lib demo_paths demo_p "t2" "reader0" demo_reader demo_log_path demo_log
    0 demo_log_entries demo_log_state demo_poll demo_codex_world) as (outcome & t & Hfuel & Ho).
  - reflexivity.
  - split; [reflexivity| |right; vm_compute; reflexivity]. eexists _, _. split_and!; reflexivity.
  - reflexivity.
  - apply state_payload_at.
  - vm_compute. split; discriminate.
  - vm_compute. reflexivity.
  - specialize (Hfuel 100%nat). unfold demo_log_poll. rewrite Hfuel by (vm_compute; lia). cbn [fst].
    assert (match follow demo_p "t2" (reads_of demo_log_path demo_log_entries) demo_poll with
      | Ok s => it_kind <$> po_items s = [IK_session_rotate; IK_anchor_seen; IK_assistant_chunk] ∧ po_reached_terminal s = false
      | Err _ => False end) as Hf by (vm_compute; split; reflexivity).
    destruct outcome as [[state' s']|x].
    + destruct Ho as [Hs Ho]. rewrite Hs in Hf. destruct Hf as [Hk Ht]. split; [exact Hk|].
      destruct (Ho Ht) as [Ha _]. exact Ha.
    + rewrite Ho in Hf. destruct Hf.
Defined.
