(* ===== verification/ExecutionTheorems.v ===== *)
(** * The execution service across restarts, and its timeouts

    What a poll hands to the daemon is on disk before, so a daemon that stops
    while it works through an update gets exactly the rest after a restart; and
    a job whose adapter reports nothing ends when its time is over, not
    before. *)
From stdpp Require Import pretty.
From Stdlib Require Import QArith Sorted.
From S2P Require Import Prelude PyValue RuntimeValues CompletionModels ExecutionModels JobModels.
From S2P Require Import FaultInjection ExecutionService FakeProvider.
Open Scope string_scope.
Open Scope list_scope.
Open Scope Z_scope.

(** ** What the adapters promise

    The items and decisions of a poll were built by their constructors, the
    submission stays that of the job, and what is exported can be written and
    read back. *)
Definition reliability_key (k : string) : bool := String.prefix "reliability_" k.
Class AdapterLaws (X : Type) `{PathLib} `{ExecutionEnv X} := {
  state_inv : string → rtdict → Prop;
  law_set provider state k v :
    state_inv provider state → reliability_key k = true → storable v = true →
    state_inv provider (od_set k v state);
  law_reliability provider state :
    state_inv provider state →
    Forall (λ kv, storable kv.2 = true) (List.filter (λ kv, reliability_key kv.1) state);
  law_export p a exporter state x x' :
    registry_get exec_registry (ps_provider p) = Some a → ad_export_runtime_state a = Some exporter →
    state_inv (ps_provider p) (ps_runtime_state p) → exporter p x = (Ok (Some state), x') →
    storable (RDict state) = true;
  law_poll_result p a now r x x' :
    registry_get exec_registry (ps_provider p) = Some a →
    state_inv (ps_provider p) (ps_runtime_state p) → ad_poll a p now x = (Ok (Some r), x') →
    ps_job_id (pr_submission r) = ps_job_id p ∧ ps_provider (pr_submission r) = ps_provider p ∧
    state_inv (ps_provider p) (ps_runtime_state (pr_submission r)) ∧
    Forall item_ok (pr_items r) ∧ ∀ d, pr_decision r = Some d → decision_ok d
}.

(** ** Steps that leave the tables alone *)
Section untouched.
Context {X : Type} `{PathLib} `{ExecutionEnv X}.
Abbreviation M := (XM X).
Definition untouched {A} (m : M A) : Prop :=
  ∀ s, xs_active (m s).2 = xs_active s ∧ xs_replays (m s).2 = xs_replays s.
Lemma untouched_bind {A B} (m : M A) (f : A → M B) : untouched m → (∀ a, untouched (f a)) → untouched (m ≫= f).
Proof.
  intros Hm Hf s. unfold mbind, st_bind. specialize (Hm s). destruct (m s) as [[a|e] s1]; [|exact Hm].
  destruct Hm as [K1 K2], (Hf a s1) as [K3 K4]. cbn in K1, K2. split; congruence.
Qed.
Lemma untouched_ret {A} (a : A) : untouched (mret a : M A).
Proof. done. Qed.
Lemma untouched_lift {A} (r : result A) : untouched (st_lift r : M A).
Proof. done. Qed.
Lemma untouched_gets {A} (f : execution X → A) : untouched (st_gets f).
Proof. done. Qed.
Lemma untouched_world {A} (f : X → result A * X) : untouched (in_world f).
Proof. intros s. unfold in_world. by destruct (f _). Qed.
Lemma untouched_clock : untouched (exec_clock : M _).
Proof. done. Qed.
Lemma untouched_load id : untouched (store_load id : M _).
Proof. intros s. unfold store_load. by repeat case_match. Qed.
Lemma untouched_save P : untouched (store_save P : M _).
Proof. apply untouched_bind; done. Qed.
Lemma untouched_remove id : untouched (store_remove id : M _).
Proof. done. Qed.
End untouched.
Create HintDb untouched discriminated.
#[export] Hint Resolve untouched_ret untouched_lift untouched_gets untouched_world untouched_clock
  untouched_load untouched_save untouched_remove : untouched.
Ltac untouched_going :=
  repeat first [ solve [eauto with untouched nocore] | apply untouched_bind; [|intros ?] | progress case_match ].

Section persisting.
Context {X : Type} `{PathLib} `{ExecutionEnv X} `{CompletionLib} `{Environ}.
Abbreviation M := (XM X).
Lemma untouched_capability a p : untouched (execution_restore_capability a p : M _).
Proof. unfold execution_restore_capability. untouched_going. Qed.
Lemma untouched_exported a p : untouched (exported_state a p : M _).
Proof. unfold exported_state. untouched_going. Qed.
#[local] Hint Resolve untouched_capability untouched_exported : untouched.
Lemma untouched_persist id d l z : untouched (persist_submission id d l z : M _).
Proof. unfold persist_submission. untouched_going. Qed.
Lemma untouched_timeout id p a now : untouched (timeout_poll_result id p a now : M _).
Proof. unfold timeout_poll_result. untouched_going. Qed.
#[local] Hint Resolve untouched_timeout : untouched.
Lemma untouched_outcome id p a now : untouched (poll_outcome id p a now : M _).
Proof. unfold poll_outcome. untouched_going. Qed.
Lemma untouched_abandon j r c n : untouched (abandon_restore j r c n : M _).
Proof. unfold abandon_restore. untouched_going. Qed.
Lemma untouched_acknowledge_item i n : untouched (acknowledge_item i n : M _).
Proof. unfold acknowledge_item. untouched_going. Qed.
End persisting.
#[export] Hint Resolve untouched_capability untouched_exported untouched_persist untouched_timeout
  untouched_outcome untouched_abandon untouched_acknowledge_item : untouched.

(** ** What is on disk *)
Section disk.
Context {X : Type} `{AdapterLaws X} `{CompletionLib} `{Environ}.
Abbreviation M := (XM X).
Implicit Types s : execution X.

(** The file of the job holds [P], which will survive the next write. *)
Record saved (s : execution X) (P : PersistedExecutionState) : Prop := {
  sd_load : ∃ d, xs_files s !! pe_job_id P = Some d ∧ persisted_from_record d = Ok P;
  sd_good : persistable P;
  sd_form : stored_form P = P
}.
Lemma saved_load s P : saved s P → store_load (pe_job_id P) s = (Ok (Some P), s).
Proof. intros [(d & Hd & Hp) _ _]. unfold store_load. by rewrite Hd, Hp. Qed.

Lemma store_save_does s P : persistable P →
  ∃ d, store_save P s = (Ok tt, with_files (<[pe_job_id P := d]> (xs_files s)) s) ∧
    saved (with_files (<[pe_job_id P := d]> (xs_files s)) s) (stored_form P).
Proof.
  intros Hp. destruct (persisted_from_to P Hp) as (d & Hd & Hl). exists d. unfold store_save.
  rewrite Hd. split; [done|]. split; [|by apply stored_form_persistable|apply stored_form_idempotent].
  exists d. split; [|done]. cbn. apply lookup_insert_eq.
Qed.

(** A submission of the job that can be stored. *)
Definition submission_ok (job_id provider : string) (p : ProviderSubmission) : Prop :=
  ps_job_id p = job_id ∧ ps_provider p = provider ∧ state_inv provider (ps_runtime_state p).
Definition result_ok (job_id provider : string) (r : ProviderPollResult) : Prop :=
  submission_ok job_id provider (pr_submission r) ∧ Forall item_ok (pr_items r) ∧
  ∀ d, pr_decision r = Some d → decision_ok d.

Lemma storable_update d state :
  Forall (λ kv, kv.1 ≠ "__ccb_type__" ∧ storable kv.2 = true) d → storable (RDict state) = true →
  storable (RDict (od_update d state)) = true.
Proof.
  unfold od_update. intros Hd. revert state. induction Hd as [|[k v] d [Hk Hv] _ IH]; intros state Hs; [done|].
  cbn [foldl fst snd]. apply IH. by apply storable_set.
Qed.
Lemma storable_with_reliability provider state source :
  state_inv provider source → storable (RDict state) = true →
  storable (RDict (with_reliability_state state source)) = true.
Proof.
  intros Hi Hs. unfold with_reliability_state. pose proof (law_reliability _ _ Hi) as Hr. unfold reliability_key in Hr.
  assert (Forall (λ kv : string * rtval, kv.1 ≠ "__ccb_type__" ∧ storable kv.2 = true)
    (List.filter (λ kv, String.prefix "reliability_" kv.1) source)) as Hf.
  { rewrite !Forall_forall in *. intros kv Hkv. split; [|by apply Hr]. intros Hk.
    apply elem_of_filter_bool in Hkv as [_ Hkv]. by rewrite Hk in Hkv. }
  destruct (List.filter _ source) eqn:Hl; [done|]. by apply storable_update.
Qed.

(** What is written for an active submission. *)
Lemma persist_does job_id provider p decision items applied s s' :
  od_lookup job_id (xs_active s) = Some p → submission_ok job_id provider p →
  Forall item_ok items → (∀ d, decision = Some d → decision_ok d) →
  persist_submission job_id decision items applied s = (Ok tt, s') →
  xs_active s' = xs_active s ∧ xs_replays s' = xs_replays s ∧
  ∃ P, saved s' P ∧ pe_job_id P = job_id ∧ pe_provider P = provider ∧ pe_pending_items P = items ∧
    pe_pending_decision P = decision ∧ pe_applied_event_seqs P = sorted_seqs applied.
Proof.
  intros Ha (Hj & Hpr & Hi) Hit Hdec. unfold persist_submission. rewrite st_gets_bind, Ha.
  set (adapter := registry_get exec_registry (ps_provider p)).
  intros Hp. unfold mbind at 1, st_bind at 1 in Hp.
  destruct (execution_restore_capability _ _ s) as [[cap|e] s1] eqn:Hcap; [|done].
  pose proof (untouched_capability adapter (ps_provider p) s) as [K1 K2]. rewrite Hcap in K1, K2. cbn in K1, K2.
  unfold mbind at 1, st_bind at 1 in Hp.
  destruct (exported_state adapter p s1) as [[[state res]|e] s2] eqn:Hex; [|done].
  pose proof (untouched_exported adapter p s1) as [K3 K4]. rewrite Hex in K3, K4. cbn in K3, K4.
  assert (storable (RDict state) = true) as K5.
  { revert Hex. unfold exported_state. destruct (adapter ≫= _) as [exporter|] eqn:He; [|by intros [= <- <- <-]].
    unfold in_world, mbind, st_bind. destruct (exporter p (xs_world s1)) as [[[st|]|e] x] eqn:Hx;
      intros [= <- <- <-]; [|done].
    destruct adapter as [a|] eqn:Had; [|done]. cbn in He.
    eapply (law_export p a exporter); [exact Had|exact He|by rewrite Hpr|exact Hx]. }
  rewrite st_gets_bind in Hp. rewrite (st_bind_ok exec_clock _ _ _ _ eq_refl) in Hp. cbn [fst snd] in Hp.
  match type of Hp with store_save ?P ?s3 = _ => destruct (store_save_does s3 P) as (d & Hsave & Hsv);
    [|rewrite Hsave in Hp; injection Hp as <-] end.
  { split; cbn; [eapply storable_with_reliability; [exact Hi|exact K5]|exact Hdec|exact Hit]. }
  cbn. split_and!; [congruence|congruence|]. eexists. split; [exact Hsv|]. cbn -[sorted_seqs].
  split_and!; [done|done|done|done|]. apply sorted_seqs_id, sorted_seqs_sorted.
Qed.

(** ** What a poll comes to *)
Lemma progress_ok job_id provider r previous now r' :
  result_ok job_id provider r → apply_reliability_progress r previous now = Ok r' → result_ok job_id provider r'.
Proof.
  intros ((K1 & K2 & K3) & K4 & K5). unfold apply_reliability_progress.
  intros (b & _ & Hr)%result_bind_Ok_inv. destruct b; cbn [negb] in Hr; [|by injection Hr as <-].
  apply result_bind_Ok_inv in Hr as (o & Ho & Hr). destruct o as [q|]; [|by injection Hr as <-].
  unfold poll_result_post_init in Hr. inv_result. subst.
  unfold with_last_progress_at in Ho. apply result_bind_Ok_inv in Ho as (t & _ & Ho).
  case_bool_decide; [done|]. injection Ho as <-. split_and!; [|done|done]. split_and!; [done|done|].
  apply law_set; [exact K3|reflexivity|reflexivity].
Qed.

Lemma built_timeout_ok job_id provider p now t last policy r :
  submission_ok job_id provider p → build_timeout_result p now t last policy = Ok r → result_ok job_id provider r.
Proof.
  intros (K1 & K2 & K3). unfold build_timeout_result. intros (anchor & _ & Hr)%result_bind_Ok_inv.
  apply result_bind_Ok_inv in Hr as (d & Hd & Hr). unfold poll_result_post_init in Hr. inv_result. subst.
  split_and!; [split_and!; [done|done|]|constructor|].
  - unfold od_update. cbn [foldl ps_runtime_state fst snd].
    repeat (apply law_set; [|reflexivity|reflexivity]). exact K3.
  - intros d' Hd'. injection Hd' as <-. pose proof Hd as Hd'. unfold decision_post_init in Hd. inv_result. subst d.
    split; [by intros ?|exact Hd'].
Qed.

Lemma timeout_ok job_id provider id p a now s r s' :
  submission_ok job_id provider p → timeout_poll_result id p a now s = (Ok (Some r), s') →
  result_ok job_id provider r.
Proof.
  intros Hp. unfold timeout_poll_result. rewrite st_gets_bind. destruct (timeout_policy_for _ _ _) as [policy|]; [|done].
  destruct (Qle_bool _ _); [done|]. unfold mbind, st_bind, st_lift.
  destruct (last_progress_timestamp p) as [last|]; [|done]. destruct (negb _); [done|].
  destruct (build_timeout_result _ _ _ _ _) as [r'|] eqn:Hb; [|done]. intros [= <- <-]. by eapply built_timeout_ok.
Qed.

Lemma outcome_ok job_id provider id p a now s r s' :
  submission_ok job_id provider p → registry_get exec_registry (ps_provider p) = Some a →
  poll_outcome id p a now s = (Ok (Some r), s') → result_ok job_id provider r.
Proof.
  intros Hp Ha. unfold poll_outcome. unfold mbind at 1, st_bind at 1.
  destruct (in_world (ad_poll a p now) s) as [[[polled|]|e] s1] eqn:Hw; [|by apply timeout_ok|done].
  unfold in_world in Hw. destruct (ad_poll a p now (xs_world s)) as [o x] eqn:Hx. injection Hw as -> <-.
  destruct Hp as (K1 & K2 & K3). rewrite <- K2 in K3.
  destruct (law_poll_result _ _ _ _ _ _ Ha K3 Hx) as (K4 & K5 & K6 & K7).
  assert (result_ok job_id provider polled) as Hok.
  { split; [|exact K7]. split_and!; [congruence|congruence|by rewrite <- K2]. }
  unfold mbind, st_bind, st_lift. destruct (apply_reliability_progress _ _ _) as [r1|] eqn:Hr; [|done].
  pose proof (progress_ok _ _ _ _ _ _ Hok Hr) as Hok1. destruct (pr_decision r1); [by intros [= <- <-]|].
  destruct (timeout_poll_result _ _ _ _ _) as [[[r2|]|e] s2] eqn:Ht; [|by intros [= <- <-]|done].
  intros [= <- <-]. eapply timeout_ok; [|exact Ht]. apply Hok1.
Qed.

(** Write-ahead: the update is in the file of the job when it is handed over. *)
Lemma update_is_on_disk job_id p now s u s' :
  ps_job_id p = job_id → state_inv (ps_provider p) (ps_runtime_state p) →
  process_active_job job_id p now s = (Ok (Some u), s') →
  ∃ P, saved s' P ∧ pe_job_id P = job_id ∧ pe_provider P = ps_provider p ∧ pe_pending_items P = up_items u ∧
    pe_pending_decision P = terminal_pending_decision (up_decision u) ∧ pe_applied_event_seqs P = [].
Proof.
  intros Hj Hi. unfold process_active_job. destruct (registry_get _ _) as [a|] eqn:Ha; [|done].
  unfold mbind at 1, st_bind at 1.
  destruct (poll_outcome job_id p a now s) as [[[r|]|e] s1] eqn:Ho; [|done|done].
  destruct (outcome_ok job_id (ps_provider p) _ _ _ _ _ _ _ (conj Hj (conj eq_refl Hi)) Ha Ho) as (Hs & Hit & Hd).
  rewrite (st_bind_ok (set_active _ _) _ _ _ _ eq_refl). unfold mbind at 1, st_bind at 1.
  destruct (persist_submission _ _ _ _ _) as [[[]|e] s2] eqn:Hp; [|done].
  assert (∀ d, terminal_pending_decision (pr_decision r) = Some d → decision_ok d) as Hd'.
  { intros d Hx. apply Hd. unfold terminal_pending_decision in Hx. destruct (pr_decision r) as [x|]; [|done].
    by destruct (cd_terminal x). }
  eapply persist_does in Hp as (_ & _ & P & Hsv & K1 & K2 & K3 & K4 & K5);
    [|cbn; apply od_lookup_set|exact Hs|exact Hit|exact Hd'].
  destruct (negb _); [done|].
  assert (∀ (s3 : execution X), xs_files s3 = xs_files s2 → saved s3 P) as Hs3.
  { intros s3 Hf. destruct Hsv as [K6 K7 K8]. split; [|exact K7|exact K8]. by rewrite Hf. }
  destruct (is_some _); intros [= <- <-]; exists P; cbn [up_items up_decision];
    (split_and!; [by apply Hs3|done|done|done|done|done]).
Qed.
End disk.

(** ** Items that were applied, and those that were not *)
Section replay.
Context {X : Type} `{AdapterLaws X} `{CompletionLib} `{Environ}.
Abbreviation M := (XM X).
Implicit Types s : execution X.

(** The items of an update are acknowledged one after the other. *)
Fixpoint acknowledge_items (job_id : string) (items : list CompletionItem) : M unit :=
  match items with
  | [] => mret tt
  | i :: rest => acknowledge_item job_id (cu_event_seq (it_cursor i));; acknowledge_items job_id rest
  end.

(** [P] with the events [seqs] acknowledged, too. *)
Definition acknowledged (P P' : PersistedExecutionState) (seqs : list Z) : Prop :=
  pe_submission P' = pe_submission P ∧ pe_runtime_context P' = pe_runtime_context P ∧
  pe_resume_capable P' = pe_resume_capable P ∧ pe_pending_decision P' = pe_pending_decision P ∧
  pe_pending_items P' = pe_pending_items P ∧
  ∀ z, z ∈ pe_applied_event_seqs P' ↔ z ∈ seqs ∨ z ∈ pe_applied_event_seqs P.

Lemma acknowledge_item_does s P z : saved s P → pe_pending_items P ≠ [] →
  ∃ s' P', acknowledge_item (pe_job_id P) (Some z) s = (Ok tt, s') ∧ saved s' P' ∧ acknowledged P P' [z].
Proof.
  intros Hs Hne. unfold acknowledge_item. rewrite (st_bind_ok _ _ _ _ _ (saved_load _ _ Hs)).
  destruct (pe_pending_items P) as [|i l] eqn:Hit; [done|].
  rewrite (st_bind_ok exec_clock _ _ _ _ eq_refl). destruct Hs as [_ [G1 G2 G3] Hf].
  match goal with |- context [store_save ?P1 ?s1] => destruct (store_save_does s1 P1) as (d & Hsave & Hsv) end.
  { split; [exact G1|exact G2|]. cbn. by rewrite <- Hit. }
  eexists _, _. split; [exact Hsave|]. split; [exact Hsv|].
  pose proof (f_equal pe_submission Hf) as F1. pose proof (f_equal pe_runtime_context Hf) as F2.
  unfold stored_form in *. cbn -[sorted_seqs stored_submission insert_seq] in *.
  split_and!; [done|done|done|done|by rewrite Hit|].
  intros y. cbn -[sorted_seqs]. rewrite !sorted_seqs_elem, elem_of_cons. by rewrite list_elem_of_singleton.
Qed.

Definition seqs_of (items : list CompletionItem) : list (option Z) := (λ i, cu_event_seq (it_cursor i)) <$> items.

Lemma acknowledge_items_do items seqs s P : saved s P → pe_pending_items P ≠ [] → seqs_of items = Some <$> seqs →
  ∃ s' P', acknowledge_items (pe_job_id P) items s = (Ok tt, s') ∧ saved s' P' ∧ acknowledged P P' seqs.
Proof.
  revert seqs s P. induction items as [|i items IH]; intros [|z seqs] s P Hs Hne Hq; try done.
  { exists s, P. split_and!; [done|done|]. unfold acknowledged. split_and!; [done..|].
    intros z. split; [by right|]. by intros [?%elem_of_nil|]. }
  injection Hq as Hz Hq. cbn [acknowledge_items].
  destruct (acknowledge_item_does s P z Hs Hne) as (s1 & P1 & Ha & Hs1 & A1 & A2 & A3 & A4 & A5 & A6).
  rewrite Hz, (st_bind_ok _ _ _ _ _ Ha). rewrite <- A5 in Hne.
  destruct (IH seqs s1 P1 Hs1 Hne Hq) as (s2 & P2 & Hr & Hs2 & B1 & B2 & B3 & B4 & B5 & B6).
  assert (pe_job_id P1 = pe_job_id P) as Hj by (unfold pe_job_id; by rewrite A1). rewrite Hj in Hr.
  exists s2, P2. split_and!; [done|done|]. unfold acknowledged. split_and!; [congruence..|].
  intros y. rewrite B6, A6, list_elem_of_singleton, elem_of_cons. tauto.
Qed.

(** What is left of the items when the first [k] were acknowledged. *)
Lemma pending_after P items seqs k :
  pe_pending_items P = items → seqs_of items = Some <$> seqs → NoDup seqs → Forall (λ z, 0 < z) seqs →
  (∀ z, z ∈ pe_applied_event_seqs P ↔ z ∈ take k seqs) → filter_pending_items P = drop k items.
Proof.
  intros <- Hq Hnd Hpos Ha. unfold filter_pending_items.
  assert (∀ items seqs, seqs_of items = Some <$> seqs → NoDup seqs → Forall (λ z, 0 < z) seqs →
    ∀ k, (∀ z, z ∈ seqs → z ∈ pe_applied_event_seqs P ↔ z ∈ take k seqs) →
    List.filter (λ i, negb (bool_decide ((match cu_event_seq (it_cursor i) with
      Some z => if z =? 0 then -1 else z | None => -1 end) ∈ pe_applied_event_seqs P))) items = drop k items) as Hf.
  { clear. induction items as [|i items IH]; intros [|z seqs] Hq Hnd Hpos k Ha; try done; [by destruct k|].
    injection Hq as Hz Hq. apply NoDup_cons in Hnd as [Hnz Hnd]. apply Forall_cons in Hpos as [Hz0 Hpos].
    cbn [List.filter]. rewrite Hz. replace (z =? 0) with false by lia. destruct k as [|k].
    - rewrite bool_decide_eq_false_2; [|rewrite (Ha z (list_elem_of_here _ _)); apply not_elem_of_nil].
      cbn [negb]. cbn [drop]. f_equal. rewrite <- (drop_0 items). apply (IH seqs); [done..|].
      intros y Hy. rewrite (Ha y) by (by apply list_elem_of_further). done.
    - rewrite bool_decide_eq_true_2; [|rewrite (Ha z (list_elem_of_here _ _)); cbn; apply list_elem_of_here].
      cbn [negb drop]. apply (IH seqs); [done..|]. intros y Hy. rewrite (Ha y) by (by apply list_elem_of_further).
      cbn [take]. rewrite elem_of_cons. split; [intros [->|]; done|by right]. }
  destruct (pe_pending_items P) as [|i items] eqn:Hit; [by destruct k|].
  destruct (pe_applied_event_seqs P) as [|y applied] eqn:Hap.
  - destruct k as [|k]; [done|]. destruct seqs as [|z seqs]; [done|].
    specialize (Ha z). cbn in Ha. exfalso. apply (not_elem_of_nil z), Ha, list_elem_of_here.
  - apply (Hf (i :: items) seqs); [done..|]. intros z _. apply Ha.
Qed.

(** A new process over the files of the old one. *)
Definition stopped (ticks : nat) (world : X) (s : execution X) : execution X :=
  mkExecution [] ∅ [] (xs_files s) (xs_faults s) ticks world.

Definition keeps_replays {A} (m : M A) : Prop := ∀ s, xs_replays (m s).2 = xs_replays s.
Lemma keeps_replays_bind {A B} (m : M A) (f : A → M B) :
  keeps_replays m → (∀ a, keeps_replays (f a)) → keeps_replays (m ≫= f).
Proof.
  intros Hm Hf s. unfold mbind, st_bind. specialize (Hm s). destruct (m s) as [[a|e] s1]; [|exact Hm].
  rewrite (Hf a s1). exact Hm.
Qed.
Lemma untouched_keeps_replays {A} (m : M A) : untouched m → keeps_replays m.
Proof. intros Hm s. apply Hm. Qed.
Lemma set_active_keeps_replays id p : keeps_replays (set_active id p : M _).
Proof. done. Qed.
Lemma set_context_keeps_replays id c : keeps_replays (set_context id c : M _).
Proof. done. Qed.
Ltac keeping_replays :=
  repeat first
    [ apply set_active_keeps_replays | apply set_context_keeps_replays
    | solve [apply untouched_keeps_replays; eauto with untouched nocore]
    | apply keeps_replays_bind; [|intros ?] | progress case_match ].

Lemma restore_replays job context s P a :
  saved s P → pe_job_id P = jb_job_id job → pe_provider P = jb_provider job →
  registry_get exec_registry (jb_provider job) = Some a → xs_active s = [] → xs_replays s = [] →
  let pending := filter_pending_items P in
  xs_replays (restore_submission job context s).2 =
    (match pending with [] => [] | _ => [(jb_job_id job, (pending, pe_pending_decision P))] end) ∧
  (pending = [] → ∀ d, pe_pending_decision P = Some d →
     (restore_submission job context s).1 =
       Ok (mkRestored "terminal_pending" "terminal_decision_recovered" (pe_resume_capable P) 0 (Some d))).
Proof.
  intros Hs Hj Hp Ha Hact Hrep pending. unfold restore_submission. rewrite st_gets_bind, Hact. cbn [od_lookup].
  rewrite Ha. pose proof (saved_load _ _ Hs) as Hl. rewrite Hj in Hl. rewrite (st_bind_ok _ _ _ _ _ Hl), Hp.
  rewrite bool_decide_eq_true_2 by done. cbn [negb]. fold pending.
  assert (∃ s1, (match pending with [] => mret tt | _ => set_replay (jb_job_id job) (pending, pe_pending_decision P) end
    : M unit) s = (Ok tt, s1) ∧
    xs_replays s1 = match pending with [] => [] | _ => [(jb_job_id job, (pending, pe_pending_decision P))] end)
    as (s1 & Hs1 & <-).
  { destruct pending; eexists; (split; [reflexivity|]); [done|]. cbn. by rewrite Hrep. }
  rewrite (st_bind_ok _ _ _ _ _ Hs1).
  match goal with |- xs_replays (?m s1).2 = _ ∧ _ => assert (keeps_replays m) as Hm end.
  { destruct (pe_pending_decision P), pending; keeping_replays. }
  split; [apply Hm|]. intros Hnil d Hd. by rewrite Hnil, Hd.
Qed.
End replay.

(** ** A daemon that stops while it works through an update *)
Section stopping.
Context {X : Type} `{AdapterLaws X} `{CompletionLib} `{Environ}.
Implicit Types s : execution X.

Lemma saved_stopped s P ticks world : saved s P → saved (stopped ticks world s) P.
Proof. intros [K1 K2 K3]. by split. Qed.

(** A poll keeps the updates it has. *)
Lemma process_extends jobs replayed now updates s l s' :
  process_active_jobs jobs replayed now updates s = (Ok l, s') → ∃ rest, l = updates ++ rest.
Proof.
  revert updates s. induction jobs as [|[id p] jobs IH]; intros updates s; cbn [process_active_jobs].
  { intros [= <- <-]. exists []. by rewrite app_nil_r. }
  case_bool_decide; [apply IH|]. unfold mbind, st_bind. destruct (process_active_job _ _ _ s) as [[o|e] s1]; [|done].
  intros (rest & ->)%IH. exists (option_list o ++ rest). by rewrite app_assoc.
Qed.
Lemma poll_replays_first id items decision s l s' :
  xs_replays s = [(id, (items, decision))] → poll_updates s = (Ok l, s') →
  ∃ rest, l = mkUpdate id items decision :: rest.
Proof.
  intros Hr. unfold poll_updates. rewrite (st_bind_ok exec_clock _ _ _ _ eq_refl), st_gets_bind. cbn [with_ticks xs_replays].
  rewrite Hr. cbn [drain_replays]. unfold mbind, st_bind. cbn -[process_active_jobs should_keep_pending_replay].
  destruct (should_keep_pending_replay _ _ _); cbn -[process_active_jobs]; apply process_extends.
Qed.

(** C18: Nothing is lost when the daemon stops in the middle of an update.  An
    update that a poll handed over is on disk by then: when the items up to the
    [k]-th were acknowledged and a new process restores the job from the files,
    what is pending for it is exactly the other items with the terminal decision
    of the update, and the next poll hands those over first; when every item
    was acknowledged, the restore itself returns the terminal decision. *)
Theorem restart_replays_the_rest job p now s u s1 seqs k ticks world context
    (Hj : ps_job_id p = jb_job_id job) (Hp : ps_provider p = jb_provider job)
    (Hi : state_inv (ps_provider p) (ps_runtime_state p))
    (Hu : process_active_job (jb_job_id job) p now s = (Ok (Some u), s1))
    (Hq : seqs_of (up_items u) = Some <$> seqs) (Hnd : NoDup seqs) (Hpos : Forall (λ z, 0 < z) seqs) :
  ∃ s2, acknowledge_items (jb_job_id job) (take k (up_items u)) s1 = (Ok tt, s2) ∧
  let pending := drop k (up_items u) in
  let decision := terminal_pending_decision (up_decision u) in
  let '(r, s3) := restore_submission job context (stopped ticks world s2) in
  if bool_decide (pending = []) then
    xs_replays s3 = [] ∧
    ∀ d, decision = Some d →
      ∃ resumable, r = Ok (mkRestored "terminal_pending" "terminal_decision_recovered" resumable 0 (Some d))
  else
    xs_replays s3 = [(jb_job_id job, (pending, decision))] ∧
    ∀ updates s4, poll_updates s3 = (Ok updates, s4) →
      ∃ rest, updates = mkUpdate (jb_job_id job) pending decision :: rest.
Proof.
  destruct (update_is_on_disk _ _ _ _ _ _ Hj Hi Hu) as (P & Hs & K1 & K2 & K3 & K4 & K5).
  assert (∃ a, registry_get exec_registry (jb_provider job) = Some a) as [a Ha].
  { rewrite <- Hp. revert Hu. unfold process_active_job. destruct (registry_get _ _); [by eexists|done]. }
  assert (∃ s2 P2, acknowledge_items (jb_job_id job) (take k (up_items u)) s1 = (Ok tt, s2) ∧ saved s2 P2 ∧
    acknowledged P P2 (take k seqs)) 
    as (s2 & P2 & Hack & Hs2 & A1 & A2 & A3 & A4 & A5 & A6).
  { assert (seqs_of (take k (up_items u)) = Some <$> take k seqs) as Hqk.
    { unfold seqs_of in *. by rewrite fmap_take, Hq, <- fmap_take. }
    rewrite <- K1. destruct (up_items u) as [|i l] eqn:Hl.
    - rewrite take_nil in *. destruct (take k seqs) as [|z zs]; [|done]. exists s1, P.
      split; [done|]. split; [done|]. unfold acknowledged. split_and!; [done..|]. intros z. split; [by right|].
      by intros [?%elem_of_nil|].
    - apply acknowledge_items_do; [done|by rewrite K3|done]. }
  exists s2. split; [exact Hack|]. cbn zeta.
  assert (pe_job_id P2 = jb_job_id job) as Hj2 by (unfold pe_job_id in *; by rewrite A1).
  assert (pe_provider P2 = jb_provider job) as Hp2 by (unfold pe_provider in *; rewrite A1; congruence).
  destruct (restore_replays job context _ P2 a (saved_stopped _ _ ticks world Hs2) Hj2 Hp2 Ha eq_refl eq_refl) as [R1 R2].
  assert (filter_pending_items P2 = drop k (up_items u)) as Hpend.
  { apply (pending_after _ _ seqs); [congruence|done|done|done|]. intros z. rewrite A6, K5.
    split; [by intros [|?%elem_of_nil]|by left]. }
  rewrite Hpend, A4, K4 in R1, R2. destruct (restore_submission _ _ _) as [r s3]. cbn [fst snd] in R1, R2.
  destruct (drop k (up_items u)) as [|i l] eqn:Hd; case_bool_decide as Hnil; try done.
  - split; [exact R1|]. intros d Hdd. exists (pe_resume_capable P2). by apply R2.
  - split; [exact R1|]. intros updates s4. by apply poll_replays_first.
Qed.
End stopping.

(** ** Jobs that make no progress *)
Section timeouts.
Context {X : Type} `{PathLib} `{ExecutionEnv X} `{CompletionLib} `{Environ}.
Implicit Types s : execution X.

Lemma not_elapsed_at_once t timeout : Qle_bool timeout 0 = false → timeout_elapsed t t timeout = false.
Proof.
  intros Ht. unfold timeout_elapsed. case_bool_decide; [done|].
  destruct (parse_utc_timestamp t) as [[aware z]|]; [|done]. rewrite Z.sub_diag.
  change (float64 (0 # 1000000)) with 0%Q. unfold q_max0. rewrite Ht. rewrite Ht. apply andb_false_r.
Qed.

(** Progress is noted at the time of the poll. *)
Lemma progress_is_noted r p t r1 :
  strip t = t → t ≠ "" → has_reliability_progress r p = Ok true → apply_reliability_progress r p t = Ok r1 →
  last_progress_timestamp (pr_submission r1) = Ok t ∧ pr_decision r1 = pr_decision r ∧
  ps_provider (pr_submission r1) = ps_provider (pr_submission r).
Proof.
  intros Ht Hne Hp. unfold apply_reliability_progress. rewrite Hp, result_bind_ok. cbn [negb].
  intros (o & Ho & Hr)%result_bind_Ok_inv. unfold with_last_progress_at in Ho.
  apply result_bind_Ok_inv in Ho as (c & Hc & Ho). case_bool_decide as Hcur.
  - injection Ho as <-. injection Hr as <-. split_and!; [|done|done]. unfold last_progress_timestamp.
    rewrite Hc, result_bind_ok, Hcur. by rewrite bool_decide_eq_false_2.
  - injection Ho as <-. unfold poll_result_post_init in Hr. inv_result. subst r1. split_and!; [|done|done].
    unfold last_progress_timestamp, rt_text_at, rt_get. cbn [pr_submission with_runtime_state ps_runtime_state].
    rewrite od_lookup_set. assert (rt_text (RStr t) = Ok t) as Htext.
    { unfold rt_text, rt_or. cbn. by rewrite bool_decide_eq_false_2. }
    transitivity (rt_text (RStr t) ≫= λ value, mret (if strip value =ˢ "" then "" else strip value) : result string).
    2: { rewrite Htext, result_bind_ok, Ht. by rewrite bool_decide_eq_false_2. }
    cbn -[rt_text]. rewrite Htext. cbn. by rewrite Ht, bool_decide_eq_false_2.
Qed.

(** A fresh submission does not time out. *)
Lemma fresh_does_not_time_out job_id p a t s : last_progress_timestamp p = Ok t →
  timeout_poll_result job_id p a t s = (Ok None, s).
Proof.
  intros Hl. unfold timeout_poll_result. rewrite st_gets_bind. destruct (timeout_policy_for _ _ _) as [policy|]; [|done].
  destruct (Qle_bool _ _) eqn:Hq; [done|]. rewrite Hl. unfold st_lift, mbind, st_bind.
  by rewrite not_elapsed_at_once.
Qed.

Lemma progress_outcome job_id p a t s r x :
  strip t = t → t ≠ "" → ad_poll a p t (xs_world s) = (Ok (Some r), x) → pr_decision r = None →
  has_reliability_progress r p = Ok true →
  poll_outcome job_id p a t s =
    match apply_reliability_progress r p t with
    | Ok r1 => (Ok (Some r1), with_world x s)
    | Err e => (Err e, with_world x s)
    end.
Proof.
  intros Ht Hne Hx Hd Hp. unfold poll_outcome. unfold mbind at 1, st_bind at 1, in_world at 1. rewrite Hx.
  destruct (apply_reliability_progress r p t) as [r1|] eqn:Hr; [|done].
  destruct (progress_is_noted _ _ _ _ Ht Hne Hp Hr) as (L1 & L2 & _).
  unfold st_lift, mbind, st_bind. rewrite L2, Hd. by rewrite (fresh_does_not_time_out _ _ _ _ _ L1).
Qed.
Lemma silent_outcome job_id p a policy t last s x :
  ad_poll a p t (xs_world s) = (Ok None, x) → timeout_policy_for job_id a s = Some policy →
  Qle_bool (effective_no_terminal_timeout_s policy) 0 = false → last_progress_timestamp p = Ok last →
  poll_outcome job_id p a t s =
    (if timeout_elapsed last t (effective_no_terminal_timeout_s policy)
     then match build_timeout_result p t (effective_no_terminal_timeout_s policy) last policy with
          | Ok r => (Ok (Some r), with_world x s) | Err e => (Err e, with_world x s) end
     else (Ok None, with_world x s)).
Proof.
  intros Hx Hpol Hq Hl. unfold poll_outcome. unfold mbind at 1, st_bind at 1, in_world at 1. rewrite Hx.
  unfold timeout_poll_result. rewrite st_gets_bind.
  change (timeout_policy_for job_id a (with_world x s)) with (timeout_policy_for job_id a s). rewrite Hpol, Hq, Hl.
  unfold st_lift, mbind, st_bind. destruct (timeout_elapsed _ _ _); [|done]. cbn.
  by destruct (build_timeout_result _ _ _ _ _).
Qed.

End timeouts.

(** ** The scripted adapter keeps these promises *)
Section scripted.
Context `{PathLib} `{CompletionLib} `{JsonLib} (iso_plus : string → Q → result string).

Lemma emit_event_ok p at_ms kind payload l l' :
  Forall item_ok (lp_items l) → (∀ d, lp_decision l = Some d → decision_ok d) →
  emit_event iso_plus p at_ms kind payload l = Ok l' →
  Forall item_ok (lp_items l') ∧ ∀ d, lp_decision l' = Some d → decision_ok d.
Proof.
  intros Hl Hd. unfold emit_event. intros (t & _ & He)%result_bind_Ok_inv.
  destruct (materialize_payload _ _ _ _ _ _) as [pl b].
  apply result_bind_Ok_inv in He as (c & Hc & (i & Hi & He)%result_bind_Ok_inv).
  apply result_bind_Ok_inv in He as (d & Hdec & [= <-]). cbn.
  assert (cursor_post_init c = Ok c) as Hcc.
  { pose proof Hc as Hc'. unfold cursor_post_init in Hc. inv_result. by subst c. }
  split.
  - apply Forall_app. split; [done|]. constructor; [|constructor]. apply item_post_init_idempotent in Hi as [K1 K2].
    split; [rewrite K1; exact Hcc|exact K2].
  - case_bool_decide; [|by injection Hdec as <-]. apply result_bind_Ok_inv in Hdec as (y & Hy & [= <-]).
    intros y' [= <-]. unfold build_terminal_decision in Hy.
    apply result_bind_Ok_inv in Hy as (st & _ & (cf & _ & (re & _ & (dg & _ & (tu & _ & Hy)%result_bind_Ok_inv)
      %result_bind_Ok_inv)%result_bind_Ok_inv)%result_bind_Ok_inv).
    pose proof Hy as Hy'. unfold decision_post_init in Hy. inv_result. subst y.
    split; [by intros c' [= <-]|exact Hy'].
Qed.

Lemma emit_events_ok p elapsed events l l' :
  Forall item_ok (lp_items l) → (∀ d, lp_decision l = Some d → decision_ok d) →
  emit_events iso_plus p elapsed events l = Ok l' →
  Forall item_ok (lp_items l') ∧ ∀ d, lp_decision l' = Some d → decision_ok d.
Proof.
  revert l. induction events as [|raw events IH]; intros l Hl Hd Hr; [by injection Hr as <-|].
  cbn [emit_events] in Hr. apply result_bind_Ok_inv in Hr as (d & _ & Hr).
  apply result_bind_Ok_inv in Hr as (t & _ & Hr). destruct (elapsed <? t); [by injection Hr as <-|].
  apply result_bind_Ok_inv in Hr as (pl & _ & Hr).
  destruct (dget "kind" d); try exact (IH (skip_event l) Hl Hd Hr);
    (apply result_bind_Ok_inv in Hr as (k & _ & Hr); apply result_bind_Ok_inv in Hr as (l1 & Hl1 & Hr);
     destruct (emit_event_ok _ _ _ _ _ _ Hl Hd Hl1) as [K1 K2];
     case_bool_decide; [by injection Hr as <-|by eapply IH]).
Qed.

Lemma fake_poll_ok p now r : storable (RDict (ps_runtime_state p)) = true →
  fake_poll iso_plus p now = Ok (Some r) →
  ps_job_id (pr_submission r) = ps_job_id p ∧ ps_provider (pr_submission r) = ps_provider p ∧
  storable (RDict (ps_runtime_state (pr_submission r))) = true ∧
  Forall item_ok (pr_items r) ∧ ∀ d, pr_decision r = Some d → decision_ok d.
Proof.
  intros Hst (events & l & e & l1 & _ & Hi & Hd & _ & _ & Hl & ->)%fake_poll_inv. cbn. split; [done|]. split; [done|].
  split.
  - unfold loop_state. repeat (apply storable_set; [done|done|]). exact Hst.
  - eapply emit_events_ok; [| |exact Hl]; [by rewrite Hi|by rewrite Hd].
Qed.
End scripted.

(** The laws for a registry of scripted adapters. *)
#[program] Definition scripted_laws (X : Type) `{PathLib} `{CompletionLib} `{JsonLib} `{ExecutionEnv X} iso_plus
    (Hreg : ∀ provider a, registry_get exec_registry provider = Some a →
      ∃ f, a = @fake_adapter _ _ iso_plus X f) : AdapterLaws X := {|
  state_inv := λ _ state, storable (RDict state) = true
|}.
Next Obligation.
  intros X ? ? ? ? iso Hreg provider state k v Hs Hk Hv. cbn in *. apply storable_set; [|done|done].
  intros ->. by vm_compute in Hk.
Qed.
Next Obligation.
  intros X ? ? ? ? iso Hreg provider state Hs. cbn in *. apply storable_dict_all in Hs.
  rewrite Forall_forall in *. intros kv [Hkv _]%elem_of_filter_bool. by apply Hs.
Qed.
Next Obligation.
  intros X ? ? ? ? iso Hreg p a exporter state x x' Ha Hex Hi He. destruct (Hreg _ _ Ha) as [f ->].
  cbn in Hex. injection Hex as <-. cbn in He. injection He as <- <-. exact Hi.
Qed.
Next Obligation.
  intros X ? ? ? ? iso Hreg p a now r x x' Ha Hi He. destruct (Hreg _ _ Ha) as [f ->]. cbn in *.
  injection He as He <-. exact (fake_poll_ok iso _ _ _ Hi He).
Qed.

(** *** A daemon over the scripted provider *)
#[local] Instance script_paths : PathLib := λ s, Ok s.
#[local] Instance script_env : ExecutionEnv unit := {|
  exec_clock_at := λ _, "400000";
  exec_registry := [("fake", @fake_adapter script_lib script_json script_plus unit fake_provider)];
  exec_send_key := λ _, None;
  exec_iso_plus := script_plus
|}.
#[local] Instance script_environ : Environ := {| environ := λ _, None; float_text := λ _, None |}.
#[local] Existing Instance script_lib.
#[local] Existing Instance script_json.
Lemma script_registry provider a : registry_get exec_registry provider = Some a →
  ∃ f, a = @fake_adapter script_lib script_json script_plus unit f.
Proof.
  unfold registry_get. cbn [exec_registry script_env od_lookup].
  destruct (String.eqb _ _); [|done]. intros [= <-]. by eexists.
Qed.
#[local] Instance script_laws : AdapterLaws unit := scripted_laws unit script_plus script_registry.
Definition script_execution : execution unit :=
  mkExecution [("job_1", scripted_submission)] ∅ [] ∅ (mkFaultStore None 0 0) 0 tt.

(** The scripted job is done at once; the daemon stops after the first of its
    three items. *)
Lemma restart_replays_the_rest_witness :
  ∃ u s1, process_active_job "job_1" scripted_submission "300000" script_execution = (Ok (Some u), s1) ∧
    length (up_items u) = 3%nat ∧
    ∃ s2, acknowledge_items "job_1" (take 1 (up_items u)) s1 = (Ok tt, s2) ∧
    xs_replays (restore_submission scripted_job None (stopped 0 tt s2)).2 =
      [("job_1", (drop 1 (up_items u), up_decision u))] ∧
    cd_reply <$> up_decision u = Some "FAKE[agent1] hello".
Proof.
  destruct (process_active_job "job_1" scripted_submission "300000" script_execution) as [r s1] eqn:Hr.
  assert (match r with Ok (Some u) => (length (up_items u), seqs_of (up_items u), cd_terminal <$> up_decision u,
            cd_reply <$> up_decision u) | _ => (0%nat, [], None, None) end =
          (3%nat, Some <$> [1; 2; 3], Some true, Some "FAKE[agent1] hello")) as Hc.
  { transitivity (match (process_active_job "job_1" scripted_submission "300000" script_execution).1 with
      Ok (Some u) => (length (up_items u), seqs_of (up_items u), cd_terminal <$> up_decision u,
            cd_reply <$> up_decision u) | _ => (0%nat, [], None, None) end); [by rewrite Hr|vm_compute; reflexivity]. }
  destruct r as [[u|]|]; [|discriminate Hc..]. injection Hc as Hlen Hq Ht Hreply.
  exists u, s1. split; [reflexivity|]. split; [exact Hlen|].
  destruct (restart_replays_the_rest scripted_job scripted_submission "300000" script_execution u s1 [1; 2; 3] 1 0 tt None)
    as (s2 & Ha & Hres);
    [vm_compute; reflexivity|vm_compute; reflexivity|vm_compute; reflexivity|exact Hr|exact Hq
    |apply (bool_decide_unpack _); vm_compute; exact I|repeat constructor|].
  exists s2. split; [exact Ha|]. destruct (restore_submission _ _ _) as [res s3].
  destruct (up_items u) as [|i1 [|i2 items]]; [discriminate Hlen..|]. cbn [drop] in *.
  rewrite bool_decide_eq_false_2 in Hres by discriminate. destruct Hres as [Hres _]. split; [|exact Hreply].
  cbn [snd]. rewrite Hres. destruct (up_decision u) as [d|]; [|discriminate Ht]. cbn in Ht |- *. injection Ht as ->. reflexivity.
Defined.

(** The scripted job under a policy of 50 ms. *)
Definition short_policy : CompletionReliabilityPolicy :=
  mkReliability "fake" (5 # 100) "script" None CS_incomplete "no_terminal_timeout" CC_degraded.
Definition watched_adapter : Adapter unit :=
  let a := @fake_adapter script_lib script_json script_plus unit fake_provider in
  mkAdapter (ad_provider a) (ad_start a) (ad_poll a) (ad_export_runtime_state a) (ad_resume a)
    (ad_restore_diagnostics a) (Some short_policy).
Definition watched_env : ExecutionEnv unit := {|
  exec_clock_at := λ _, "400000";
  exec_registry := [("fake", watched_adapter)];
  exec_send_key := λ _, None;
  exec_iso_plus := script_plus
|}.
Definition watched_poll (p : ProviderSubmission) (t : string) (s : execution unit) :=
  @process_active_job unit script_paths watched_env script_lib script_environ "job_1" p t s.
