(* ===== verification/RetryPolicy.v ===== *)
(** * Automatic retries

    [ccbd/services/dispatcher_runtime/failure_policy.py] and
    [finalization_retry_runtime/]: which failures of a job are retried, how
    often, and the reply a caller gets when a failure is not retried. *)
From stdpp Require Import pretty.
From S2P Require Import Prelude PyValue Names CompletionModels TextArtifacts JobModels.
From S2P Require Import MailboxModels MailboxKernel MailboxSpec MailboxRefinement MailboxSystem.
From S2P Require Import BureauModels Bureau BureauTheorems.
Open Scope string_scope.
Open Scope list_scope.
Open Scope Z_scope.

(** ** Failures that are never retried *)
Definition NON_RETRYABLE_API_AUTH_CODES : list string :=
  ["unauthorized"; "authenticationerror"; "authenticationfailed"; "invalidapikey";
   "invalidauthtoken"; "invalidtoken"; "notauthenticated"; "notloggedin"; "loginrequired";
   "missingapikey"].
Definition NON_RETRYABLE_API_PERMISSION_CODES : list string :=
  ["permissiondenied"; "accessdenied"; "forbidden"; "notauthorized"].
Definition NON_RETRYABLE_API_BILLING_CODES : list string :=
  ["insufficientquota"; "quotaexceeded"; "paymentrequired"; "billinghardlimitreached";
   "billingnotactive"; "insufficientbalance"; "balanceexhausted"; "creditbalancetoolow"].
Definition NON_RETRYABLE_API_AUTH_MESSAGE_MARKERS : list string :=
  ["unauthorized"; "not logged in"; "login required"; "authentication failed"; "invalid api key";
   "invalid auth"; "invalid token"; "run codex login"; "run login"].
Definition NON_RETRYABLE_API_PERMISSION_MESSAGE_MARKERS : list string :=
  ["permission denied"; "access denied"; "forbidden"; "not authorized"].
Definition NON_RETRYABLE_API_BILLING_MESSAGE_MARKERS : list string :=
  ["insufficient quota"; "quota exceeded"; "payment required"; "insufficient balance"; "billing";
   "credit balance too low"].

(** [str(value or '').strip().lower()]. *)
Definition lowered_text (v : pyval) : result string := s ← py_str_or_empty v; mret (lower (strip s)).

Fixpoint string_filter (p : ascii → bool) (s : string) : string :=
  match s with
  | "" => ""
  | String c s' => if p c then String c (string_filter p s') else string_filter p s'
  end.

(** [sub in s]. *)
Definition contains (sub s : string) : bool :=
  match String.index 0 sub s with Some _ => true | None => false end.

Fixpoint mapM_result {A B} (f : A → result B) (l : list A) : result (list B) :=
  match l with
  | [] => mret []
  | a :: l' => b ← f a; bs ← mapM_result f l'; mret (b :: bs)
  end.

Definition normalized_error_token (v : pyval) : result string :=
  lowered ← lowered_text v; mret (string_filter is_alnum lowered).

Definition failure_message_text (d : CompletionDecision) : result string :=
  parts ← mapM_result (λ k, lowered_text (dget k (cd_diagnostics d)))
            ["error_message"; "fault_message"; "error"; "message"; "text"];
  mret (join " " (List.filter (λ s, s ≠ˢ "") parts)).

Definition nonretryable_api_failure_kind (d : CompletionDecision) : result (option string) :=
  if negb (bool_decide (cd_status d = CS_failed)) then mret None
  else
    tokens ← mapM_result normalized_error_token
      [of_opt_str (cd_reason d); dget "error_type" (cd_diagnostics d);
       dget "error_code" (cd_diagnostics d)];
    let among codes := List.existsb (λ t, (t ≠ˢ "") && bool_decide (t ∈ codes)) tokens in
    if among NON_RETRYABLE_API_AUTH_CODES then mret (Some "authentication")
    else if among NON_RETRYABLE_API_PERMISSION_CODES then mret (Some "permission")
    else if among NON_RETRYABLE_API_BILLING_CODES then mret (Some "billing")
    else
      message_text ← failure_message_text d;
      let marked markers := List.existsb (λ m, contains m message_text) markers in
      mret (if marked NON_RETRYABLE_API_AUTH_MESSAGE_MARKERS then Some "authentication"
            else if marked NON_RETRYABLE_API_PERMISSION_MESSAGE_MARKERS then Some "permission"
            else if marked NON_RETRYABLE_API_BILLING_MESSAGE_MARKERS then Some "billing"
            else None).

Definition is_nonretryable_api_failure (d : CompletionDecision) : result bool :=
  kind ← nonretryable_api_failure_kind d; mret (negb (bool_decide (kind = None))).

(** ** The retry policy of a message *)
Definition DEFAULT_RETRYABLE_REASONS : list string := ["api_error"; "transport_error"].
Definition DEFAULT_RETRYABLE_ERROR_TYPES : list string :=
  ["api_error"; "transport_error"; "provider_api_error"].
Definition DEFAULT_RETRYABLE_RUNTIME_REASONS : list string :=
  ["pane_dead"; "pane_unavailable"; "runtime_unavailable"; "backend_unavailable"].
Definition TIMEOUT_INSPECTION_REASONS : list string := ["timeout"].

(** [int(value)] when it does not raise [TypeError] or [ValueError], the only
    classes it raises. *)
Definition safe_int (v : pyval) (dflt : Z) : Z :=
  match py_int v with Ok z => z | Err _ => dflt end.

Fixpoint chars (s : string) : list pyval :=
  match s with "" => [] | String c s' => PStr (String c "") :: chars s' end.
(** The items a [for] loop over [v or ()] visits. *)
Definition py_iter_or_empty (v : pyval) : result (list pyval) :=
  if negb (py_bool v) then mret []
  else match v with
       | PList l => mret l
       | PStr s => mret (chars s)
       | PDict d => mret ((λ kv, PStr kv.1) <$> d)
       | _ => Err (TypeError "object is not iterable")
       end.

Definition configured_reasons (key : string) (defaults : list string) (retry_policy : pydict)
    : result (list string) :=
  items ← py_iter_or_empty (dget key retry_policy);
  texts ← mapM_result lowered_text items;
  let configured := List.filter (λ s, s ≠ˢ "") texts in
  mret match configured with [] => defaults | _ => configured end.
Definition retryable_reasons : pydict → result (list string) :=
  configured_reasons "retryable_reasons" DEFAULT_RETRYABLE_REASONS.
Definition retryable_runtime_reasons : pydict → result (list string) :=
  configured_reasons "retryable_runtime_reasons" DEFAULT_RETRYABLE_RUNTIME_REASONS.

Definition policy_bool (v : pyval) (dflt : bool) : result bool :=
  match v with
  | PNone => mret dflt
  | PBool b => mret b
  | _ =>
      text ← py_str v;
      let lowered := lower (strip text) in
      mret (if bool_decide (lowered ∈ ["1"; "true"; "yes"; "on"]) then true
            else if bool_decide (lowered ∈ ["0"; "false"; "no"; "off"]) then false
            else dflt)
  end.

Definition reason_text (d : CompletionDecision) : string :=
  lower (strip (default "" (cd_reason d))).

Definition is_retryable_failure (d : CompletionDecision) (retry_policy : pydict)
    (provider_supports_resume : bool) : result bool :=
  if negb (bool_decide (cd_status d = CS_failed)) then mret false
  else
    nonretryable ← is_nonretryable_api_failure d;
    if nonretryable : bool then mret false
    else
      reasons ← retryable_reasons retry_policy;
      if bool_decide (reason_text d ∈ reasons) then mret true
      else
        resume ← (if provider_supports_resume
                  then policy_bool (dget "retry_runtime_when_resume_supported" retry_policy) true
                  else mret false);
        runtime ← (if resume : bool then retryable_runtime_reasons retry_policy else mret []);
        if bool_decide (reason_text d ∈ runtime) then mret true
        else
          error_type ← lowered_text (dget "error_type" (cd_diagnostics d));
          mret (bool_decide (error_type ∈ DEFAULT_RETRYABLE_ERROR_TYPES)).

(** ** Plans *)
Record RetryableFailureContext := mkRetryContext {
  rc_message_id : string;
  rc_attempt_id : string;
  rc_attempt_number : Z;
  rc_max_attempts : Z;
  rc_reason : string
}.

Section plans.
(** [bool(provider_catalog.get(provider).supports_resume)], false when the
    catalog has no such provider. *)
Context (supports_resume : string → bool).

Definition retryable_failure_context (b : bureau) (job : JobRecord) (d : CompletionDecision)
    : result (option RetryableFailureContext) :=
  match attempt_latest_by_job b (jb_job_id job) with
  | None => mret None
  | Some attempt =>
      match message_latest b (at_message_id attempt) with
      | None => mret None
      | Some message =>
          let retry_policy := mr_retry_policy message in
          mode ← lowered_text (dget "mode" retry_policy);
          if mode ≠ˢ "auto" then mret None
          else
            retryable ← is_retryable_failure d retry_policy (supports_resume (jb_provider job));
            if negb retryable then mret None
            else mret (Some (mkRetryContext (at_message_id attempt) (at_attempt_id attempt)
                   (at_retry_index attempt + 1)
                   (Z.max (safe_int (dget "max_attempts" retry_policy) 1) 1)
                   (str_or (or_none (reason_text d)) "api_error")))
      end
  end.

(** An [AutomaticRetryPlan] has the fields of the context it copies. *)
Definition automatic_retry_plan (b : bureau) (job : JobRecord) (d : CompletionDecision)
    : result (option RetryableFailureContext) :=
  context ← retryable_failure_context b job d;
  mret match context with
       | Some c => if rc_max_attempts c <=? rc_attempt_number c then None else Some c
       | None => None
       end.
End plans.

(** ** The reply when a failure is final *)
Definition error_message (diagnostics : pydict) : result string :=
  text ← py_str_or_empty
           (py_or (dget "error_message" diagnostics)
              (py_or (dget "fault_message" diagnostics) (dget "error" diagnostics)));
  mret (strip text).

Definition append_detail (parts : list string) (key : string) (v : pyval) : result (list string) :=
  text ← py_str_or_empty v;
  mret (if strip text =ˢ "" then parts else parts ++ [key +:+ "=" +:+ strip text]).

Definition detail_parts (d : CompletionDecision) : result (list string) :=
  let diagnostics := cd_diagnostics d in
  parts ← append_detail [] "reason" (of_opt_str (cd_reason d));
  parts ← append_detail parts "error_type" (dget "error_type" diagnostics);
  parts ← append_detail parts "error_code" (dget "error_code" diagnostics);
  message ← error_message diagnostics;
  parts ← append_detail parts "error_message" (PStr message);
  append_detail parts "fault_rule_id" (dget "fault_rule_id" diagnostics).

Definition retry_failure_detail (d : CompletionDecision) : result string :=
  parts ← detail_parts d;
  mret (str_or (or_none (join ", " parts)) "reason=api_error").

(** [replace(decision, reply=..., diagnostics=...)]: the constructor runs. *)
Definition with_reply_and_diagnostics (d : CompletionDecision) (reply : string)
    (diagnostics : pydict) : result CompletionDecision :=
  decision_post_init
    (mkDecision (cd_terminal d) (cd_status d) (cd_reason d) (cd_confidence d) reply
       (cd_anchor_seen d) (cd_reply_started d) (cd_reply_stable d) (cd_provider_turn_ref d)
       (cd_source_cursor d) (cd_finished_at d) diagnostics).

Definition resend_hint : string :=
  "Execute this task locally or resend it to another healthy registered agent.".

Definition retry_failed_text (agent detail : string) (fault_drill runtime_failure : bool)
    (attempt_number max_attempts : Z) (scheduling_error : string) : string :=
  (if fault_drill
   then "Fault injection drill forced agent '" +:+ agent +:+ "' to fail on attempt "
   else if runtime_failure
   then "Delivery to agent '" +:+ agent +:+ "' hit a retryable runtime/pane failure on attempt "
   else "Delivery to agent '" +:+ agent +:+ "' hit a retryable provider/API error on attempt ")
  +:+ pretty attempt_number +:+ "/" +:+ pretty max_attempts +:+ " (" +:+ detail
  +:+ "), but automatic retry could not be scheduled (" +:+ scheduling_error +:+ "). "
  +:+ resend_hint.

Definition retry_exhausted_text (agent detail : string) (fault_drill runtime_failure : bool)
    (attempt_number : Z) : string :=
  let attempts := pretty attempt_number in
  if fault_drill
  then "Fault injection drill forced agent '" +:+ agent +:+ "' to fail after " +:+ attempts
       +:+ " attempts (" +:+ detail +:+ "). " +:+ resend_hint
  else if runtime_failure
  then "Delivery to agent '" +:+ agent +:+ "' failed after " +:+ attempts
       +:+ " attempts because its runtime/pane could not be recovered (" +:+ detail +:+ "). "
       +:+ resend_hint
  else "Delivery to agent '" +:+ agent +:+ "' failed after " +:+ attempts
       +:+ " attempts because the provider/API connection kept failing (" +:+ detail +:+ "). "
       +:+ resend_hint.

Definition with_retry_failure_reply (d : CompletionDecision) (job : JobRecord)
    (attempt_number max_attempts : Z) (scheduling_error : option string)
    : result CompletionDecision :=
  detail ← retry_failure_detail d;
  error_type ← lowered_text (dget "error_type" (cd_diagnostics d));
  let fault_drill := error_type =ˢ "fault_injection" in
  let runtime_failure := bool_decide (reason_text d ∈ DEFAULT_RETRYABLE_RUNTIME_REASONS) in
  let reply :=
    if truthy scheduling_error
    then retry_failed_text (jb_agent_name job) detail fault_drill runtime_failure attempt_number
           max_attempts (default "" scheduling_error)
    else retry_exhausted_text (jb_agent_name job) detail fault_drill runtime_failure
           attempt_number in
  with_reply_and_diagnostics d reply
    (dset "auto_retry"
       (PDict [ ("attempt_number", PInt attempt_number); ("max_attempts", PInt max_attempts);
                ("scheduling_error", of_opt_str scheduling_error) ])
       (cd_diagnostics d)).

Definition with_nonretryable_api_failure_reply (d : CompletionDecision) (job : JobRecord)
    : result CompletionDecision :=
  detail ← retry_failure_detail d;
  kind ← nonretryable_api_failure_kind d;
  let '(category, remediation) :=
    if bool_decide (kind = Some "authentication")
    then ("a non-retryable authentication/login error",
          "Fix the provider login/session before retrying locally or resending it.")
    else if bool_decide (kind = Some "permission")
    then ("a non-retryable permission/access error",
          "Fix the provider account permissions before retrying locally or resending it.")
    else ("a non-retryable quota/billing error",
          "Fix the provider billing/quota before retrying locally or resending it.") in
  with_reply_and_diagnostics d
    ("Delivery to agent '" +:+ jb_agent_name job +:+ "' failed because the provider/API reported "
     +:+ category +:+ " (" +:+ detail +:+ "). " +:+ remediation
     +:+ " You can also execute this task locally or resend it to another healthy registered agent.")
    (dset "auto_retry"
       (PDict [ ("nonretryable_api_failure", PBool true); ("classification", of_opt_str kind) ])
       (cd_diagnostics d)).

Definition should_render_timeout_inspection_reply (d : CompletionDecision) : bool :=
  bool_decide (cd_status d = CS_incomplete)
  && bool_decide (reason_text d ∈ TIMEOUT_INSPECTION_REASONS).

Definition with_timeout_inspection_reply (d : CompletionDecision) (job : JobRecord)
    : result CompletionDecision :=
  with_reply_and_diagnostics d
    ("Delivery to agent '" +:+ jb_agent_name job
     +:+ "' timed out before a confirmed terminal reply. "
     +:+ "The task may still be running in that agent session. Inspect job '" +:+ jb_job_id job
     +:+ "' in the agent pane or queue/trace views before deciding whether to continue or retry.")
    (dset "timeout_notice"
       (PDict [ ("job_id", PStr (jb_job_id job)); ("agent_name", PStr (jb_agent_name job));
                ("action", PStr "inspect_running_attempt") ])
       (cd_diagnostics d)).

(** ** When a failure is retried *)
Lemma is_retryable_failed d p r : is_retryable_failure d p r = Ok true → cd_status d = CS_failed.
Proof. unfold is_retryable_failure. by case_bool_decide. Qed.

(** The failures the policy written by [record_submission] retries. *)
Definition default_retryable (d : CompletionDecision) (resume : bool) (error_type : string) : Prop :=
  reason_text d ∈ DEFAULT_RETRYABLE_REASONS ∨
  (resume = true ∧ reason_text d ∈ ["pane_dead"; "pane_unavailable"]) ∨
  error_type ∈ DEFAULT_RETRYABLE_ERROR_TYPES.

Lemma default_policy_reasons : retryable_reasons default_retry_policy = Ok DEFAULT_RETRYABLE_REASONS.
Proof. by vm_compute. Qed.
Lemma default_policy_runtime_reasons :
  retryable_runtime_reasons default_retry_policy = Ok ["pane_dead"; "pane_unavailable"].
Proof. by vm_compute. Qed.

Lemma default_policy_retryable d resume error_type kind :
  cd_status d = CS_failed → nonretryable_api_failure_kind d = Ok kind →
  lowered_text (dget "error_type" (cd_diagnostics d)) = Ok error_type →
  is_retryable_failure d default_retry_policy resume =
  Ok (bool_decide (kind = None) && bool_decide (default_retryable d resume error_type)).
Proof.
  intros Hs Hk He. unfold is_retryable_failure, is_nonretryable_api_failure.
  rewrite Hs, bool_decide_eq_true_2, Hk by done. cbn [negb]. rewrite result_bind_ok.
  destruct kind as [kind|]; [done|]. unfold mret at 1, result_ret at 1.
  rewrite result_bind_ok, default_policy_reasons, result_bind_ok. cbn [negb bool_decide].
  rewrite (bool_decide_eq_true_2 (None = None)) by done. cbn [negb andb].
  unfold default_retryable. case_bool_decide as Hr.
  { rewrite bool_decide_eq_true_2; [done|by left]. }
  replace (if resume then policy_bool (dget "retry_runtime_when_resume_supported" default_retry_policy) true
           else mret false) with (Ok resume) by (by destruct resume).
  rewrite result_bind_ok. destruct resume.
  - rewrite default_policy_runtime_reasons, result_bind_ok. case_bool_decide as Hp.
    { rewrite bool_decide_eq_true_2; [done|by right; left]. }
    rewrite He, result_bind_ok. unfold mret, result_ret. f_equal. apply bool_decide_ext. tauto.
  - unfold mret at 1, result_ret at 1. rewrite result_bind_ok.
    rewrite (bool_decide_eq_false_2 (reason_text d ∈ [])) by apply not_elem_of_nil.
    rewrite He, result_bind_ok. unfold mret, result_ret. f_equal. apply bool_decide_ext.
    split; [tauto|]. by intros [?|[[? _]|?]].
Qed.

(** What is retried automatically.  For a message as a submission records
    it, the failure of a job is planned for a retry exactly when its decision is
    [failed], no authentication, permission or billing error is recognised in
    it, it has a retryable reason or error type (a dead or unavailable pane
    counts when the provider can resume), and fewer than three attempts were
    made; the plan then names the message, the attempt and its number. *)
Theorem default_retry_iff (supports_resume : string → bool) (b : bureau) (job : JobRecord)
    (d : CompletionDecision) (a : AttemptRecord) (m : MessageRecord) (kind : option string)
    (error_type : string)
    (Hattempt : attempt_latest_by_job b (jb_job_id job) = Some a)
    (Hmessage : message_latest b (at_message_id a) = Some m)
    (Hpolicy : mr_retry_policy m = default_retry_policy)
    (Hkind : nonretryable_api_failure_kind d = Ok kind)
    (Htype : lowered_text (dget "error_type" (cd_diagnostics d)) = Ok error_type) :
  ∃ plan, automatic_retry_plan supports_resume b job d = Ok plan ∧
    (is_Some plan ↔ cd_status d = CS_failed ∧ kind = None ∧
       default_retryable d (supports_resume (jb_provider job)) error_type ∧
       at_retry_index a + 1 < 3) ∧
    ∀ c, plan = Some c →
      rc_message_id c = at_message_id a ∧ rc_attempt_id c = at_attempt_id a ∧
      rc_attempt_number c = at_retry_index a + 1 ∧ rc_max_attempts c = 3.
Proof.
  unfold automatic_retry_plan, retryable_failure_context. rewrite Hattempt, Hmessage, Hpolicy.
  replace (lowered_text (dget "mode" default_retry_policy)) with (Ok "auto" : result string)
    by (by vm_compute).
  rewrite result_bind_ok. change ("auto" ≠ˢ "auto") with false. cbv iota.
  destruct (decide (cd_status d = CS_failed)) as [Hf|Hf].
  2: { unfold is_retryable_failure. rewrite (bool_decide_ne Hf). cbn. exists None.
       split; [done|]. split; [|done]. split; [by intros [??]|by intros [? _]]. }
  rewrite (default_policy_retryable d _ error_type kind Hf Hkind Htype), result_bind_ok.
  destruct kind as [kind|].
  { cbn. exists None. split; [done|]. split; [|done]. split; [by intros [??]|by intros (_ & [=] & _)]. }
  rewrite (bool_decide_eq_true_2 (None = None)) by done. cbn [andb].
  case_bool_decide as Hr; cbn [negb].
  2: { exists None. split; [done|]. split; [|done]. split; [by intros [??]|by intros (_ & _ & ? & _)]. }
  unfold mret at 1, result_ret at 1. rewrite result_bind_ok.
  cbn [rc_max_attempts rc_attempt_number].
  change (Z.max (safe_int (dget "max_attempts" default_retry_policy) 1) 1) with 3.
  destruct (3 <=? at_retry_index a + 1) eqn:E.
  - exists None. split; [done|]. split; [|done]. apply Z.leb_le in E.
    split; [by intros [??]|]. intros (_ & _ & _ & ?). lia.
  - eexists (Some _). split; [done|]. apply Z.leb_gt in E. split; [split; [|by eexists]|].
    + by repeat split.
    + by intros c [= <-].
Qed.

(** ** The number of attempts *)
Definition max_attempts_of (m : MessageRecord) : Z :=
  Z.max (safe_int (dget "max_attempts" (mr_retry_policy m)) 1) 1.

(** Every attempt in the log is one the policy of its message allows. *)
Definition within_budget (b : bureau) : Prop :=
  ∀ a m, a ∈ br_attempts b → message_latest b (at_message_id a) = Some m →
    0 <= at_retry_index a < max_attempts_of m.

Lemma max_index_fold p l acc :
  (∀ a, a ∈ l → p a = true → at_retry_index a <= acc) →
  foldl (λ latest a, if p a then Z.max latest (at_retry_index a) else latest) acc l = acc.
Proof.
  revert acc. induction l as [|x l IH]; intros acc Hle; [done|]. cbn [foldl].
  destruct (p x) eqn:E.
  - rewrite Z.max_l; [|apply Hle; [left|done]]. apply IH. intros a Ha. apply Hle. by right.
  - apply IH. intros a Ha. apply Hle. by right.
Qed.

Lemma max_index_attained p l acc a :
  a ∈ l → p a = true → acc <= at_retry_index a →
  (∀ x, x ∈ l → p x = true → at_retry_index x <= at_retry_index a) →
  foldl (λ latest a, if p a then Z.max latest (at_retry_index a) else latest) acc l
  = at_retry_index a.
Proof.
  revert acc. induction l as [|x l IH]; intros acc Hin Hp Hacc Hmax; [by apply elem_of_nil in Hin|].
  cbn [foldl]. apply elem_of_cons in Hin as [->|Hin].
  - rewrite Hp, Z.max_r by done. apply max_index_fold. intros y Hy. apply Hmax. by right.
  - apply IH; [done|done| |intros y Hy; apply Hmax; by right].
    destruct (p x) eqn:E; [|done]. apply Z.max_lub; [done|]. apply Hmax; [left|done].
Qed.

Section budget.
Context `{Clock} (Hclock : ∀ n, strip (clock_at n) ≠ "").
Context `{Uuids} (Huuid : Inj (=) (=) uuid_hex12).

Lemma plan_inv supports_resume b job d c :
  automatic_retry_plan supports_resume b job d = Ok (Some c) →
  ∃ a m, attempt_latest_by_job b (jb_job_id job) = Some a ∧
    message_latest b (at_message_id a) = Some m ∧ cd_status d = CS_failed ∧
    rc_message_id c = at_message_id a ∧ rc_attempt_number c = at_retry_index a + 1 ∧
    rc_max_attempts c = max_attempts_of m ∧ rc_attempt_number c < rc_max_attempts c.
Proof.
  unfold automatic_retry_plan, retryable_failure_context. intros Hp.
  apply result_bind_Ok_inv in Hp as (o & Ho & Hp).
  destruct (attempt_latest_by_job _ _) as [a|]; [|by inv_result; subst].
  destruct (message_latest _ _) as [m|] eqn:Hm; [|by inv_result; subst].
  apply result_bind_Ok_inv in Ho as (mode & _ & Ho).
  destruct (mode ≠ˢ "auto"); [by inv_result; subst|].
  apply result_bind_Ok_inv in Ho as (r & Hr & Ho). destruct r; cbn [negb] in Ho; inv_result; subst;
    [|done].
  cbn [rc_max_attempts rc_attempt_number] in Hp. destruct (_ <=? _) eqn:E; inv_result; [done|].
  apply Z.leb_gt in E. injection Hp as <-. exists a, m. split_and!; try done.
  by apply is_retryable_failed in Hr.
Qed.

(** Setting the state of a message keeps every message's retry policy. *)
Lemma set_message_state_policy mid st t b b' i m' :
  set_message_state mid st t b = (Ok tt, b') → message_latest b' i = Some m' →
  ∃ m, message_latest b i = Some m ∧ mr_retry_policy m' = mr_retry_policy m.
Proof.
  unfold set_message_state. rewrite st_gets_bind. destruct (message_latest b mid) as [m|] eqn:Hm.
  2: { intros [= <-]. by exists m'. }
  case_bool_decide; [intros [= <-]; by exists m'|]. unfold message_append, mbind, st_bind, st_lift.
  destruct (normalize_message_record _) as [m2|] eqn:Hn; [|done].
  assert (mr_message_id m2 = mr_message_id m ∧ mr_retry_policy m2 = mr_retry_policy m) as [Hi Hpol].
  { unfold normalize_message_record in Hn. inv_result. by subst m2. }
  intros [= <-]. unfold message_latest. cbn [br_messages]. rewrite find_last_snoc.
  case_bool_decide as E; [|by exists m'].
  intros [= <-]. exists m. split; [|done]. rewrite <- E, Hi.
  pose proof (find_last_Some _ _ _ Hm) as [_ ->%bool_decide_eq_true]. exact Hm.
Qed.

Lemma next_retry_index_does b mid name a :
  normalize_agent_name name = Ok name → a ∈ attempts_of_message b mid →
  at_agent_name a = name → 0 <= at_retry_index a →
  (∀ x, x ∈ attempts_of_message b mid → at_agent_name x = name → at_retry_index x <= at_retry_index a) →
  next_retry_index mid name b = (Ok (at_retry_index a + 1), b).
Proof.
  intros Hn Hin Hname H0' Hmax. unfold next_retry_index. rewrite (st_lift_bind _ _ _ _ Hn), st_gets_bind.
  unfold mret, st_ret.
  rewrite (max_index_attained (λ x, at_agent_name x =ˢ name) _ (-1) a); [done|done| |lia|].
  - by apply bool_decide_eq_true_2.
  - intros x Hx Hp%bool_decide_eq_true. by apply Hmax.
Qed.

(** C38: Automatic retries stay within the message's budget.  When a failed job
    is planned for a retry and its attempt is the agent's last for that message
    (the condition [retry_attempt] imposes), recording the retry succeeds, the
    new attempt carries the planned number as its index, and still no attempt of
    any message has an index of [max_attempts] or more, so an agent is tried at
    most [max_attempts] times. *)
Theorem automatic_retries_bounded (supports_resume : string → bool) (b : bureau)
    (job job' : JobRecord) (d : CompletionDecision) (c : RetryableFailureContext)
    (a : AttemptRecord) (t : string)
    (Hb : sound b) (Hbudget : within_budget b)
    (Hplan : automatic_retry_plan supports_resume b job d = Ok (Some c))
    (Ha : attempt_latest_by_job b (jb_job_id job) = Some a)
    (Hagent : at_agent_name a = jb_agent_name job') (Hjob : deliverable job')
    (Hlast : ∀ x, x ∈ attempts_of_message b (at_message_id a) →
               at_agent_name x = at_agent_name a → at_retry_index x <= at_retry_index a)
    (Ht : strip t ≠ "") :
  ∃ aid att b', record_retry_attempt (rc_message_id c) job' t b = (Ok aid, b') ∧
    br_attempts b' = br_attempts b ++ [att] ∧ at_attempt_id att = aid ∧
    at_retry_index att = rc_attempt_number c ∧ at_retry_index att < rc_max_attempts c ∧
    within_budget b'.
Proof.
  destruct (plan_inv _ _ _ _ _ Hplan) as (a' & m & Ha' & Hm & _ & Hmid & Hnum & Hmax & Hlt).
  rewrite Ha in Ha'. injection Ha' as <-.
  pose proof (find_last_Some _ _ _ Ha) as [Hin _].
  pose proof (proj1 (Forall_forall _ _) (proj2 (sd_logs _ Hb)) a Hin) as Hvalid.
  assert (at_message_id a ≠ "") as Hne.
  { unfold normalize_attempt_record, require_value in Hvalid. inv_result.
    match goal with Hm : (at_message_id a =ˢ "") = false |- _ => by apply bool_decide_eq_false in Hm end. }
  destruct (Hbudget a m Hin Hm) as [Hpos _].
  pose proof (owner_inv _ _ (proj1 Hjob)) as (_ & Hname & _).
  assert (next_retry_index (at_message_id a) (jb_agent_name job') b = (Ok (at_retry_index a + 1), b))
    as Hnext.
  { apply next_retry_index_does; [done| |done|done|by rewrite <- Hagent].
    apply list_elem_of_In, List.filter_In. split; [by apply list_elem_of_In|].
    by apply bool_decide_eq_true_2. }
  destruct (record_attempt_does Hclock Huuid b (at_message_id a) (at_retry_index a + 1) t job' Hb Hjob
    Hne ltac:(lia) Ht) as (aid & att & e & b1 & Hrec & Hb1 & Haid & _ & Hfor & _ & Hatts & Hmsgs & _).
  destruct (set_message_state_does (at_message_id a) MSt_queued t b1 (sd_logs _ Hb1))
    as (b2 & Hset & _ & Hatts2 & _ & _ & _).
  destruct Hfor as (Hamid & _ & _ & _ & Hidx & _).
  exists aid, att, b2. split_and!; [|by rewrite Hatts2|done|by rewrite Hidx|by rewrite Hidx, <- Hnum|].
  - unfold record_retry_attempt. rewrite Hmid, st_gets_bind, Hm. cbn [raise_if bool_decide].
    rewrite (bool_decide_ne (P := Some m = None)) by done.
    rewrite (st_lift_bind _ _ _ tt) by done. rewrite (st_bind_ok _ _ _ _ _ Hnext).
    by rewrite (st_bind_ok _ _ _ _ _ Hrec), (st_bind_ok _ _ _ _ _ Hset).
  - intros x mx Hx Hmx. destruct (set_message_state_policy _ _ _ _ _ _ _ Hset Hmx) as (m1 & Hm1 & Hp1).
    unfold message_latest in Hm1. rewrite Hmsgs in Hm1. fold (message_latest b (at_message_id x)) in Hm1.
    replace (max_attempts_of mx) with (max_attempts_of m1) by (unfold max_attempts_of; by rewrite Hp1).
    rewrite Hatts2, Hatts in Hx. apply elem_of_app in Hx as [Hx|Hx%list_elem_of_singleton].
    + by apply Hbudget.
    + subst x. rewrite Hamid, Hm in Hm1. injection Hm1 as <-. lia.
Qed.
End budget.

(** ** A failing provider *)
Definition demo_api_failure : CompletionDecision :=
  mkDecision true CS_failed (Some "api_error") (Some CC_degraded) "" false false false None None
    (Some "t2") [].
Definition demo_submitted : bureau := demo_run [demo_submit].
Definition demo_plan : RetryableFailureContext :=
  mkRetryContext (at_message_id demo_attempt) (at_attempt_id demo_attempt) 1 3 "api_error".

Lemma default_retry_iff_witness :
  ∃ plan, automatic_retry_plan (λ _, false) demo_submitted (demo_job JS_failed) demo_api_failure
          = Ok plan ∧ is_Some plan.
Proof.
  destruct (default_retry_iff (λ _, false) demo_submitted (demo_job JS_failed) demo_api_failure
    demo_attempt demo_message None "" ltac:(by vm_compute) ltac:(by vm_compute) ltac:(by vm_compute)
    ltac:(by vm_compute) ltac:(by vm_compute)) as (plan & Hp & Hiff & _).
  exists plan. split; [exact Hp|]. apply Hiff. split; [done|]. split; [done|].
  split; [|by vm_compute]. left. by left.
Defined.

Lemma demo_submitted_sound : @sound demo_bureau_clock demo_uuids demo_submitted.
Proof.
  exact (@run_bureau_sound demo_bureau_clock demo_bureau_clock_ok demo_uuids demo_uuids_inj demo_known
    [demo_submit] empty_bureau ltac:(by repeat constructor)
    (@empty_sound demo_bureau_clock demo_uuids)).
Qed.

Lemma demo_submitted_attempts : br_attempts demo_submitted = [demo_attempt].
Proof. by vm_compute. Qed.

Lemma automatic_retries_bounded_witness :
  ∃ aid att b', @record_retry_attempt demo_bureau_clock demo_uuids (rc_message_id demo_plan)
                  (demo_job JS_queued) "t3" demo_submitted = (Ok aid, b') ∧
    br_attempts b' = br_attempts demo_submitted ++ [att] ∧ at_attempt_id att = aid ∧
    at_retry_index att = 1 ∧ at_retry_index att < 3 ∧ within_budget b'.
Proof.
  apply (@automatic_retries_bounded demo_bureau_clock demo_bureau_clock_ok demo_uuids demo_uuids_inj
    (λ _, false) demo_submitted (demo_job JS_failed) (demo_job JS_queued) demo_api_failure demo_plan
    demo_attempt "t3").
  - exact demo_submitted_sound.
  - intros a m Ha Hm. rewrite demo_submitted_attempts in Ha. apply list_elem_of_singleton in Ha as ->.
    assert (message_latest demo_submitted (at_message_id demo_attempt) = Some demo_message) as Hd
      by (vm_compute; reflexivity).
    rewrite Hd in Hm. injection Hm as <-. change (0 <= 0 < 3). lia.
  - by vm_compute.
  - by vm_compute.
  - by vm_compute.
  - by repeat constructor.
  - intros x Hx _.
    assert (attempts_of_message demo_submitted (at_message_id demo_attempt) = [demo_attempt]) as Hd
      by (vm_compute; reflexivity).
    rewrite Hd in Hx. apply list_elem_of_singleton in Hx as ->. reflexivity.
  - done.
Defined.
