(* ===== verification/DispatcherState.v ===== *)
(** * The queues of the dispatcher

    [ccbd/services/dispatcher_runtime/state*.py]: which jobs wait for an agent,
    which job an agent works on, and how this state is rebuilt from the job
    logs when the daemon starts. *)
From S2P Require Import Prelude PyValue Names JobModels.
Open Scope string_scope.
Open Scope list_scope.

#[export] Instance TargetKind_eq_dec : EqDecision TargetKind.
Proof. solve_decision. Defined.
#[export] Program Instance TargetKind_countable : Countable TargetKind :=
  {| encode _ := 1%positive; decode _ := Some TK_agent |}.
Next Obligation. by intros []. Qed.

Definition TargetSlot : Type := TargetKind * string.
Definition pending_states (s : JobStatus) : bool := bool_decide (s ∈ [JS_accepted; JS_queued]).

(** ** [TargetQueue] *)
Definition queue_push (job_id : string) (items : list string) : list string := items ++ [job_id].
Definition queue_pop (items : list string) : option string * list string :=
  match items with [] => (None, []) | j :: rest => (Some j, rest) end.
(** [list.remove]: the first occurrence; whether there was one. *)
Fixpoint queue_remove (job_id : string) (items : list string) : bool * list string :=
  match items with
  | [] => (false, [])
  | j :: rest =>
      if j =ˢ job_id then (true, rest)
      else let '(found, rest') := queue_remove job_id rest in (found, j :: rest')
  end.

(** ** [DispatcherState] *)
Record dispatcher_state := mkDState {
  ds_queues : gmap TargetSlot (list string);
  ds_job_index : gmap string TargetSlot;
  ds_active_jobs : gmap TargetSlot string
}.

Definition ensure_queue (slot : TargetSlot) (s : dispatcher_state) : dispatcher_state :=
  match ds_queues s !! slot with
  | Some _ => s
  | None => mkDState (<[slot := []]> (ds_queues s)) (ds_job_index s) (ds_active_jobs s)
  end.
Definition queue_at (slot : TargetSlot) (s : dispatcher_state) : list string :=
  default [] (ds_queues s !! slot).
Definition put_queue (slot : TargetSlot) (items : list string) (s : dispatcher_state)
    : dispatcher_state :=
  mkDState (<[slot := items]> (ds_queues s)) (ds_job_index s) (ds_active_jobs s).

Definition new_dispatcher_state (agent_names : list string) : dispatcher_state :=
  foldl (λ s name, ensure_queue (TK_agent, name) s) (mkDState ∅ ∅ ∅) agent_names.

Definition active_job_for (slot : TargetSlot) (s : dispatcher_state) : option string :=
  ds_active_jobs s !! slot.
Definition mark_active_for (slot : TargetSlot) (job_id : string) (s : dispatcher_state)
    : dispatcher_state :=
  let s := ensure_queue slot s in
  mkDState (ds_queues s) (ds_job_index s) (<[slot := job_id]> (ds_active_jobs s)).
Definition clear_active_for (slot : TargetSlot) (job_id : option string) (s : dispatcher_state)
    : dispatcher_state :=
  match job_id with
  | Some j =>
      if bool_decide (active_job_for slot s = Some j)
      then mkDState (ds_queues s) (ds_job_index s) (delete slot (ds_active_jobs s))
      else s
  | None => mkDState (ds_queues s) (ds_job_index s) (delete slot (ds_active_jobs s))
  end.

Definition target_for_job (job_id : string) (s : dispatcher_state) : option TargetSlot :=
  ds_job_index s !! job_id.
Definition remember_job (job_id : string) (slot : TargetSlot) (s : dispatcher_state)
    : dispatcher_state :=
  ensure_queue slot (mkDState (ds_queues s) (<[job_id := slot]> (ds_job_index s)) (ds_active_jobs s)).
Definition job_slot (job : JobRecord) : TargetSlot := (jb_target_kind job, jb_target_name job).
Definition record_job (job : JobRecord) (s : dispatcher_state) : dispatcher_state :=
  remember_job (jb_job_id job) (job_slot job) s.

Definition queue_depth_for (slot : TargetSlot) (s : dispatcher_state) : nat :=
  length (queue_at slot s) + match active_job_for slot s with Some _ => 1 | None => 0 end.
Definition has_outstanding_for (slot : TargetSlot) (s : dispatcher_state) : bool :=
  negb (bool_decide (active_job_for slot s = None)) || negb (bool_decide (queue_at slot s = [])).
Definition enqueue_for (slot : TargetSlot) (job_id : string) (s : dispatcher_state)
    : dispatcher_state :=
  put_queue slot (queue_push job_id (queue_at slot s)) s.
Definition pop_next_for (slot : TargetSlot) (s : dispatcher_state)
    : option string * dispatcher_state :=
  let '(next, items) := queue_pop (queue_at slot s) in (next, put_queue slot items s).
Definition queued_items_for (slot : TargetSlot) (s : dispatcher_state) : list string :=
  queue_at slot s.
Definition remove_queued_for (slot : TargetSlot) (job_id : string) (s : dispatcher_state)
    : bool * dispatcher_state :=
  let '(found, items) := queue_remove job_id (queue_at slot s) in (found, put_queue slot items s).

(** ** Rebuilding from the job logs

    The first loop over the rows of an agent: the last row of each job, the
    jobs in the order of their first row, the index. *)
Definition rebuild_row (acc : gmap string JobRecord * list string * dispatcher_state)
    (record : JobRecord) : gmap string JobRecord * list string * dispatcher_state :=
  let '(latest_by_job, order, s) := acc in
  let id := jb_job_id record in
  (<[id := record]> latest_by_job,
   if bool_decide (is_Some (latest_by_job !! id)) then order else order ++ [id],
   remember_job id (job_slot record) s).

(** The second loop: the last running job is active, pending ones are queued. *)
Definition rebuild_job (latest_by_job : gmap string JobRecord) (s : dispatcher_state)
    (job_id : string) : dispatcher_state :=
  match latest_by_job !! job_id with
  | None => s
  | Some latest =>
      let slot := job_slot latest in
      if bool_decide (jb_status latest = JS_running)
      then mkDState (ds_queues s) (ds_job_index s) (<[slot := job_id]> (ds_active_jobs s))
      else if pending_states (jb_status latest) then enqueue_for slot job_id (ensure_queue slot s)
      else s
  end.

Definition rebuild_agent (list_agent : string → list JobRecord) (s : dispatcher_state)
    (agent_name : string) : dispatcher_state :=
  let '(latest_by_job, order, s) := foldl rebuild_row (∅, [], s) (list_agent agent_name) in
  foldl (rebuild_job latest_by_job) s order.

Definition rebuild (list_agent : string → list JobRecord) (agent_names : list string)
    (s : dispatcher_state) : dispatcher_state :=
  foldl (rebuild_agent list_agent) (mkDState ((λ _, []) <$> ds_queues s) ∅ ∅) agent_names.
