(* ===== verification/JobQueues.v ===== *)
(** * The queues and the job logs

    What the queues of the dispatcher should be, read off the job logs: the
    jobs of an agent whose last row is pending wait in the order they were
    accepted, the one whose last row is running is active.  [rebuild] of
    [DispatcherState] computes exactly this. *)
From S2P Require Import Prelude PyValue Names JobModels BureauModels Bureau DispatcherState.
Open Scope string_scope.
Open Scope list_scope.

(** ** The last row of each job *)
Section last_by.
Context {A : Type} (key : A → string).

Lemma put_last_keys x l :
  key <$> put_last key x l = if bool_decide (key x ∈ key <$> l) then key <$> l else (key <$> l) ++ [key x].
Proof.
  induction l as [|y l IH]; cbn [put_last]; [done|].
  destruct (decide (key y = key x)) as [E|E].
  - rewrite bool_decide_eq_true_2 by done. cbn. rewrite E, bool_decide_eq_true_2; [done|left].
  - rewrite bool_decide_eq_false_2 by done. cbn. rewrite IH.
    destruct (decide (key x ∈ key <$> l)) as [Hin|Hin].
    + rewrite !bool_decide_eq_true_2; [done|by right|done].
    + rewrite !bool_decide_eq_false_2; [done| |done]. intros [?|?]%elem_of_cons; congruence.
Qed.

Lemma put_last_fresh x l : key x ∉ key <$> l → put_last key x l = l ++ [x].
Proof.
  induction l as [|y l IH]; cbn [put_last]; [done|]. intros Hx.
  rewrite bool_decide_eq_false_2, IH; [done| |]; cbn in Hx;
    rewrite not_elem_of_cons in Hx; intuition congruence.
Qed.

Lemma put_last_replace x y l1 l2 :
  key x = key y → key x ∉ key <$> l1 → put_last key x (l1 ++ y :: l2) = l1 ++ x :: l2.
Proof.
  intros E. induction l1 as [|z l1 IH]; cbn [put_last app]; intros Hx.
  - by rewrite bool_decide_eq_true_2.
  - cbn in Hx. rewrite not_elem_of_cons in Hx. rewrite bool_decide_eq_false_2 by intuition congruence.
    by rewrite IH by intuition.
Qed.

Lemma last_by_snoc x l : last_by key (l ++ [x]) = put_last key x (last_by key l).
Proof. unfold last_by. by rewrite foldl_app. Qed.

Lemma last_by_keys l a : a ∈ key <$> last_by key l ↔ a ∈ key <$> l.
Proof.
  induction l as [|x l IH] using rev_ind; [done|]. rewrite last_by_snoc, put_last_keys, fmap_app.
  cbn. rewrite elem_of_app, list_elem_of_singleton, <- IH.
  case_bool_decide as E; [|by rewrite elem_of_app, list_elem_of_singleton].
  split; [by left|]. by intros [?| ->].
Qed.

Lemma last_by_nodup l : NoDup (key <$> last_by key l).
Proof.
  induction l as [|x l IH] using rev_ind; [constructor|]. rewrite last_by_snoc, put_last_keys.
  case_bool_decide as E; [done|]. apply NoDup_app. split_and!; [done| |apply NoDup_singleton].
  intros a Ha ->%list_elem_of_singleton. done.
Qed.

(** A list with distinct keys holds at most one element per key. *)
Lemma nodup_key_inj (l : list A) x y :
  NoDup (key <$> l) → x ∈ l → y ∈ l → key x = key y → x = y.
Proof.
  intros Hn (i & Hi)%list_elem_of_lookup (j & Hj)%list_elem_of_lookup E.
  assert (i = j) as ->; [|congruence].
  eapply (NoDup_lookup (key <$> l) i j (key x)); [done|..]; rewrite list_lookup_fmap.
  - by rewrite Hi.
  - by rewrite Hj, E.
Qed.

Lemma put_last_elem x y l : NoDup (key <$> l) →
  y ∈ put_last key x l ↔ y = x ∨ (y ∈ l ∧ key y ≠ key x).
Proof.
  induction l as [|z l IH]; cbn [put_last fmap list_fmap].
  - rewrite list_elem_of_singleton. intros _. split; [by left|]. intros [->|[Hy _]]; [done|]. by apply elem_of_nil in Hy.
  - intros [Hz Hn]%NoDup_cons. case_bool_decide as E.
    + rewrite !elem_of_cons. split.
      * intros [->|Hy]; [by left|]. right. split; [by right|]. intros E'. apply Hz.
        rewrite E, <- E'. by apply list_elem_of_fmap_2.
      * intros [->|[[->|Hy] Hne]]; [by left|done|by right].
    + rewrite !elem_of_cons, (IH Hn). split.
      * intros [->|[->|[Hy Hne]]]; auto.
      * intros [->|[[->|Hy] Hne]]; auto.
Qed.

Lemma last_by_find l a :
  find_last (λ x, key x =ˢ a) l = List.find (λ x, key x =ˢ a) (last_by key l).
Proof.
  induction l as [|x l IH] using rev_ind; [done|]. rewrite find_last_snoc, last_by_snoc.
  destruct (List.find _ (put_last key x _)) as [y|] eqn:Hf.
  - apply List.find_some in Hf as [Hin E%bool_decide_eq_true]. apply list_elem_of_In in Hin.
    apply put_last_elem in Hin; [|apply last_by_nodup]. destruct Hin as [->|[Hin Hne]].
    + by rewrite bool_decide_eq_true_2.
    + rewrite bool_decide_eq_false_2, IH by congruence.
      destruct (List.find _ (last_by key l)) as [z|] eqn:Hz.
      * apply List.find_some in Hz as [Hz Ez%bool_decide_eq_true]. apply list_elem_of_In in Hz.
        f_equal. eapply nodup_key_inj; [apply last_by_nodup|done..|congruence].
      * eapply List.find_none in Hz; [|by apply list_elem_of_In]. by rewrite bool_decide_eq_true_2 in Hz.
  - assert (∀ y, y ∈ put_last key x (last_by key l) → key y ≠ a) as Hall.
    { intros y Hy. eapply List.find_none in Hf; [|by apply list_elem_of_In].
      by apply bool_decide_eq_false_1 in Hf. }
    setoid_rewrite put_last_elem in Hall; [|apply last_by_nodup].
    rewrite bool_decide_eq_false_2 by (apply Hall; by left). rewrite IH.
    destruct (List.find _ (last_by key l)) as [z|] eqn:Hz; [|done]. exfalso.
    apply List.find_some in Hz as [Hz Ez%bool_decide_eq_true]. apply list_elem_of_In in Hz.
    pose proof (Hall x (or_introl eq_refl)). eapply Hall; [right; split; [done|congruence]|done].
Qed.

Lemma last_by_elem l x :
  x ∈ last_by key l ↔ find_last (λ y, key y =ˢ key x) l = Some x.
Proof.
  rewrite last_by_find. split.
  - intros Hx. destruct (List.find _ _) as [z|] eqn:Hz.
    + apply List.find_some in Hz as [Hz Ez%bool_decide_eq_true]. apply list_elem_of_In in Hz.
      f_equal. eapply nodup_key_inj; [apply last_by_nodup|done..].
    + eapply List.find_none in Hz; [|by apply list_elem_of_In]. by rewrite bool_decide_eq_true_2 in Hz.
  - intros [Hz _]%List.find_some. by apply list_elem_of_In.
Qed.
End last_by.

(** ** What the logs say *)
Definition latest_jobs : list JobRecord → list JobRecord := last_by jb_job_id.
Definition latest_job (rows : list JobRecord) (job_id : string) : option JobRecord :=
  find_last (λ j, jb_job_id j =ˢ job_id) rows.
Definition is_running (s : JobStatus) : bool := bool_decide (s = JS_running).
Definition ids_with (p : JobStatus → bool) (rows : list JobRecord) : list string :=
  jb_job_id <$> List.filter (λ j, p (jb_status j)) (latest_jobs rows).
Definition pending_ids : list JobRecord → list string := ids_with pending_states.
Definition running_ids : list JobRecord → list string := ids_with is_running.

Lemma list_filter_app {A} (p : A → bool) l k : List.filter p (l ++ k) = List.filter p l ++ List.filter p k.
Proof. apply List.filter_app. Qed.

Lemma latest_job_elem rows j : j ∈ latest_jobs rows ↔ latest_job rows (jb_job_id j) = Some j.
Proof. apply (last_by_elem jb_job_id). Qed.

Lemma latest_job_id rows id j : latest_job rows id = Some j → jb_job_id j = id ∧ j ∈ rows.
Proof. intros [Hin E%bool_decide_eq_true]%find_last_Some. done. Qed.

Lemma ids_with_elem p rows id :
  id ∈ ids_with p rows ↔ ∃ j, latest_job rows id = Some j ∧ p (jb_status j) = true.
Proof.
  unfold ids_with. rewrite list_elem_of_fmap. split.
  - intros (j & -> & Hj). rewrite list_elem_of_In, List.filter_In, <- list_elem_of_In in Hj.
    exists j. rewrite <- latest_job_elem. done.
  - intros (j & Hj & Hp). destruct (latest_job_id _ _ _ Hj) as [<- _]. exists j. split; [done|].
    rewrite list_elem_of_In, List.filter_In, <- list_elem_of_In, latest_job_elem. done.
Qed.

Lemma ids_with_nodup p rows : NoDup (ids_with p rows).
Proof.
  unfold ids_with. pose proof (last_by_nodup jb_job_id rows) as Hn. unfold latest_jobs.
  induction (last_by jb_job_id rows) as [|j l IH]; cbn; [constructor|].
  apply NoDup_cons in Hn as [Hj Hn]. destruct (p (jb_status j)); [|by apply IH].
  cbn. apply NoDup_cons. split; [|by apply IH]. rewrite list_elem_of_fmap. intros (k & E & Hk).
  apply Hj. rewrite E. apply list_elem_of_fmap_2.
  by rewrite list_elem_of_In, List.filter_In, <- list_elem_of_In in Hk; destruct Hk.
Qed.

(** A row of a new job, and a further row of a known one. *)
Lemma ids_with_new p rows j :
  latest_job rows (jb_job_id j) = None →
  ids_with p (rows ++ [j]) = ids_with p rows ++ (if p (jb_status j) then [jb_job_id j] else []).
Proof.
  intros Hn. unfold ids_with, latest_jobs. rewrite last_by_snoc, put_last_fresh.
  - rewrite list_filter_app. cbn. rewrite fmap_app. by destruct (p (jb_status j)).
  - rewrite last_by_keys, list_elem_of_fmap. intros (k & E & Hk).
    eapply find_last_None in Hn; [|done]. by rewrite bool_decide_eq_true_2 in Hn.
Qed.

Lemma latest_split rows c :
  latest_job rows (jb_job_id c) = Some c →
  ∃ l1 l2, latest_jobs rows = (l1 ++ c :: l2) ∧ (jb_job_id c ∉ jb_job_id <$> l1) ∧
           (jb_job_id c ∉ jb_job_id <$> l2).
Proof.
  intros Hc. apply latest_job_elem in Hc. pose proof (last_by_nodup jb_job_id rows) as Hn.
  fold (latest_jobs rows) in Hn. apply list_elem_of_split in Hc as (l1 & l2 & E). exists l1, l2.
  rewrite E, fmap_app in Hn. cbn in Hn. apply NoDup_app in Hn as (_ & H1 & [H2 _]%NoDup_cons).
  split_and!; [done| |done]. intros Hin. apply (H1 _ Hin). by left.
Qed.

Lemma ids_with_next p rows c j l1 l2 :
  latest_jobs rows = l1 ++ c :: l2 → jb_job_id c ∉ jb_job_id <$> l1 → jb_job_id j = jb_job_id c →
  latest_jobs (rows ++ [j]) = l1 ++ j :: l2 ∧
  ids_with p rows = (jb_job_id <$> List.filter (λ j, p (jb_status j)) l1) ++
    (if p (jb_status c) then [jb_job_id c] else []) ++
    (jb_job_id <$> List.filter (λ j, p (jb_status j)) l2) ∧
  ids_with p (rows ++ [j]) = (jb_job_id <$> List.filter (λ j, p (jb_status j)) l1) ++
    (if p (jb_status j) then [jb_job_id c] else []) ++
    (jb_job_id <$> List.filter (λ j, p (jb_status j)) l2).
Proof.
  intros E Hn Hid. assert (latest_jobs (rows ++ [j]) = l1 ++ j :: l2) as E'.
  { unfold latest_jobs. rewrite last_by_snoc. fold (latest_jobs rows). rewrite E.
    apply put_last_replace; [done|]. by rewrite Hid. }
  unfold ids_with. rewrite E', E, !list_filter_app, !fmap_app. cbn.
  split_and!; [done| |]; f_equal.
  - by destruct (p (jb_status c)).
  - rewrite <- Hid. by destruct (p (jb_status j)).
Qed.

(** A row that does not change the class of its job. *)
Lemma ids_with_same p rows c j :
  latest_job rows (jb_job_id j) = Some c → p (jb_status j) = p (jb_status c) →
  ids_with p (rows ++ [j]) = ids_with p rows.
Proof.
  intros Hc Hp. destruct (latest_job_id _ _ _ Hc) as [Hid _]. rewrite <- Hid in Hc.
  destruct (latest_split _ _ Hc) as (l1 & l2 & E & H1 & H2).
  destruct (ids_with_next p _ _ j _ _ E H1 (eq_sym Hid)) as (_ & -> & ->). by rewrite Hp.
Qed.

Definition remove_id (job_id : string) (l : list string) : list string :=
  List.filter (λ j, j ≠ˢ job_id) l.

Lemma remove_id_absent id l : id ∉ l → remove_id id l = l.
Proof.
  induction l as [|x l IH]; [done|]. cbn. intros [Hx Hl]%not_elem_of_cons.
  rewrite bool_decide_eq_false_2 by congruence. cbn. f_equal. by apply IH.
Qed.

Lemma remove_id_app id l k : remove_id id (l ++ k) = remove_id id l ++ remove_id id k.
Proof. apply list_filter_app. Qed.

Lemma filter_ids_absent (p : JobRecord → bool) id l :
  id ∉ jb_job_id <$> l → id ∉ jb_job_id <$> List.filter p l.
Proof.
  intros Hl Hn. apply Hl. apply list_elem_of_fmap in Hn as (j & -> & Hj).
  rewrite list_elem_of_In, List.filter_In, <- list_elem_of_In in Hj. destruct Hj.
  by apply list_elem_of_fmap_2.
Qed.

(** A row after which its job is not in the class any more. *)
Lemma ids_with_out p rows c j :
  latest_job rows (jb_job_id j) = Some c → p (jb_status j) = false →
  ids_with p (rows ++ [j]) = remove_id (jb_job_id j) (ids_with p rows).
Proof.
  intros Hc Hp. destruct (latest_job_id _ _ _ Hc) as [Hid _]. rewrite <- Hid in Hc |- *.
  destruct (latest_split _ _ Hc) as (l1 & l2 & E & H1 & H2).
  destruct (ids_with_next p _ _ j _ _ E H1 (eq_sym Hid)) as (_ & -> & ->). rewrite Hp.
  rewrite !remove_id_app.
  assert (remove_id (jb_job_id c) (if p (jb_status c) then [jb_job_id c] else []) = []) as ->.
  { destruct (p (jb_status c)); cbn; [by rewrite bool_decide_eq_true_2|done]. }
  by rewrite !remove_id_absent by (by apply filter_ids_absent).
Qed.

(** A row that brings its job into a class that was empty. *)
Lemma ids_with_only p rows c j :
  latest_job rows (jb_job_id j) = Some c → p (jb_status j) = true → ids_with p rows = [] →
  ids_with p (rows ++ [j]) = [jb_job_id j].
Proof.
  intros Hc Hp Hnil. destruct (latest_job_id _ _ _ Hc) as [Hid _]. rewrite <- Hid in Hc |- *.
  destruct (latest_split _ _ Hc) as (l1 & l2 & E & H1 & H2).
  destruct (ids_with_next p _ _ j _ _ E H1 (eq_sym Hid)) as (_ & E1 & ->). rewrite Hp.
  rewrite E1 in Hnil. apply app_eq_nil in Hnil as [-> [_ ->]%app_eq_nil]. done.
Qed.

Lemma latest_job_snoc rows j id :
  latest_job (rows ++ [j]) id = if jb_job_id j =ˢ id then Some j else latest_job rows id.
Proof. unfold latest_job. by rewrite find_last_snoc. Qed.

(** ** The queues *)
Lemma queue_remove_eq id l : NoDup l → (queue_remove id l).2 = remove_id id l.
Proof.
  induction l as [|x l IH]; cbn [queue_remove]; [done|]. intros [Hx Hn]%NoDup_cons.
  case_bool_decide as E; cbn.
  - subst. rewrite bool_decide_eq_true_2 by done. cbn. symmetry. by apply remove_id_absent.
  - rewrite bool_decide_eq_false_2 by done. destruct (queue_remove id l) as [f l'] eqn:Hq. cbn in *.
    by rewrite IH.
Qed.

(** The queues agree with the rows of an agent. *)
Definition slot_of (a : string) : TargetSlot := (TK_agent, a).
Definition agent_consistent (rows : list JobRecord) (a : string) (s : dispatcher_state) : Prop :=
  queue_at (slot_of a) s = pending_ids rows ∧
  running_ids rows = match active_job_for (slot_of a) s with Some j => [j] | None => [] end.

(** How a further row [t] of a job changes what the queues should be. *)
Section next_row.
Context (rows : list JobRecord) (a : string) (s s' : dispatcher_state) (c t : JobRecord).
Context (Hok : agent_consistent rows a s) (Hc : latest_job rows (jb_job_id t) = Some c).

Lemma same_status_consistent :
  jb_status t = jb_status c → queue_at (slot_of a) s' = queue_at (slot_of a) s →
  active_job_for (slot_of a) s' = active_job_for (slot_of a) s → agent_consistent (rows ++ [t]) a s'.
Proof.
  intros Hs Hq Ha. destruct Hok as [H1 H2]. split.
  - rewrite Hq, H1. unfold pending_ids. by erewrite ids_with_same by (done || by rewrite Hs).
  - rewrite Ha, <- H2. unfold running_ids. by erewrite ids_with_same by (done || by rewrite Hs).
Qed.

Lemma ended_consistent :
  pending_states (jb_status t) = false → is_running (jb_status t) = false →
  queue_at (slot_of a) s' = remove_id (jb_job_id t) (queue_at (slot_of a) s) →
  active_job_for (slot_of a) s' =
    (if bool_decide (active_job_for (slot_of a) s = Some (jb_job_id t)) then None
     else active_job_for (slot_of a) s) →
  agent_consistent (rows ++ [t]) a s'.
Proof.
  intros Hp Hr Hq Ha. destruct Hok as [H1 H2]. split.
  - rewrite Hq, H1. unfold pending_ids. by erewrite ids_with_out by done.
  - rewrite Ha. unfold running_ids in *. erewrite ids_with_out by done. rewrite H2.
    destruct (active_job_for (slot_of a) s) as [x|]; [|done]. cbn.
    destruct (decide (x = jb_job_id t)) as [->|Hne].
    + by rewrite !bool_decide_eq_true_2.
    + by rewrite !bool_decide_eq_false_2 by congruence.
Qed.

Lemma started_consistent :
  jb_status t = JS_running → active_job_for (slot_of a) s = None →
  queue_at (slot_of a) s' = remove_id (jb_job_id t) (queue_at (slot_of a) s) →
  active_job_for (slot_of a) s' = Some (jb_job_id t) → agent_consistent (rows ++ [t]) a s'.
Proof.
  intros Hr Hnone Hq Ha. destruct Hok as [H1 H2]. rewrite Hnone in H2. split.
  - rewrite Hq, H1. unfold pending_ids. erewrite ids_with_out; [done..|by rewrite Hr].
  - rewrite Ha. unfold running_ids in *. erewrite ids_with_only; [done|done|by rewrite Hr|done].
Qed.
End next_row.

(** A running job is not in the queue. *)
Lemma running_not_queued rows a s c :
  agent_consistent rows a s → latest_job rows (jb_job_id c) = Some c → pending_states (jb_status c) = false →
  remove_id (jb_job_id c) (queue_at (slot_of a) s) = queue_at (slot_of a) s.
Proof.
  intros [-> _] Hc Hp. apply remove_id_absent. intros (j & Hj & Hpj)%ids_with_elem. congruence.
Qed.

(** ** [rebuild] *)
Lemma queue_at_ensure slot slot' s : queue_at slot (ensure_queue slot' s) = queue_at slot s.
Proof.
  unfold ensure_queue, queue_at. destruct (ds_queues s !! slot') eqn:E; [done|]. cbn.
  destruct (decide (slot' = slot)) as [->|]; [by rewrite lookup_insert_eq, E|by rewrite lookup_insert_ne].
Qed.
Lemma active_ensure slot slot' s : active_job_for slot (ensure_queue slot' s) = active_job_for slot s.
Proof. unfold ensure_queue. by destruct (ds_queues s !! slot'). Qed.
Lemma queue_at_remember id slot slot' s : queue_at slot (remember_job id slot' s) = queue_at slot s.
Proof. unfold remember_job. by rewrite queue_at_ensure. Qed.
Lemma active_remember id slot slot' s : active_job_for slot (remember_job id slot' s) = active_job_for slot s.
Proof. unfold remember_job. by rewrite active_ensure. Qed.
Lemma index_remember id id' slot slot' s :
  target_for_job id (remember_job id' slot' s) = Some slot →
  target_for_job id s = Some slot ∨ (id = id' ∧ slot = slot').
Proof.
  unfold target_for_job, remember_job, ensure_queue. cbn.
  destruct (ds_queues s !! slot'); cbn; (destruct (decide (id = id')) as [->|Hne];
    [rewrite lookup_insert_eq; intros [= ->]; by right|rewrite lookup_insert_ne by done; by left]).
Qed.
Lemma queue_at_put slot slot' items s :
  queue_at slot (put_queue slot' items s) = if bool_decide (slot' = slot) then items else queue_at slot s.
Proof.
  unfold queue_at, put_queue. cbn. case_bool_decide as E.
  - by rewrite E, lookup_insert_eq.
  - by rewrite lookup_insert_ne.
Qed.

(** The first loop. *)
Lemma rebuild_rows rows s :
  let '(m, order, s') := foldl rebuild_row (∅, [], s) rows in
  (∀ id, m !! id = latest_job rows id) ∧ order = jb_job_id <$> latest_jobs rows ∧
  (∀ slot, queue_at slot s' = queue_at slot s) ∧ (∀ slot, active_job_for slot s' = active_job_for slot s).
Proof.
  induction rows as [|j rows IH] using rev_ind.
  - cbn. split_and!; [|done..]. intros id. by rewrite lookup_empty.
  - rewrite foldl_app. destruct (foldl rebuild_row _ rows) as [[m order] s'].
    destruct IH as (Hm & -> & Hq & Ha). cbn. split_and!.
    + intros id. rewrite latest_job_snoc. case_bool_decide as E.
      * by rewrite E, lookup_insert_eq.
      * by rewrite lookup_insert_ne.
    + unfold latest_jobs at 3. rewrite last_by_snoc, put_last_keys. rewrite Hm.
      assert (is_Some (latest_job rows (jb_job_id j)) ↔ jb_job_id j ∈ jb_job_id <$> latest_jobs rows)
        as Hiff.
      { rewrite list_elem_of_fmap. split.
        - intros [k Hk]. destruct (latest_job_id _ _ _ Hk) as [E _]. exists k. split; [done|].
          by rewrite latest_job_elem, E.
        - intros (k & E & Hk). rewrite E. exists k. by apply latest_job_elem. }
      by rewrite (bool_decide_ext _ _ Hiff).
    + intros slot. by rewrite queue_at_remember.
    + intros slot. by rewrite active_remember.
Qed.

Lemma job_slot_of j : job_slot j = slot_of (jb_target_name j).
Proof. unfold job_slot. by destruct (jb_target_kind j). Qed.

(** The second loop, over jobs of one agent. *)
Lemma rebuild_job_does m a j s :
  m !! jb_job_id j = Some j → jb_target_name j = a →
  let s' := rebuild_job m s (jb_job_id j) in
  queue_at (slot_of a) s' = queue_at (slot_of a) s ++
    (if pending_states (jb_status j) then [jb_job_id j] else []) ∧
  active_job_for (slot_of a) s' =
    (if is_running (jb_status j) then Some (jb_job_id j) else active_job_for (slot_of a) s) ∧
  ∀ b, b ≠ a → queue_at (slot_of b) s' = queue_at (slot_of b) s ∧
               active_job_for (slot_of b) s' = active_job_for (slot_of b) s.
Proof.
  intros Hm Ht s'. subst s'. unfold rebuild_job. rewrite Hm, job_slot_of, Ht. unfold is_running.
  assert (∀ b, b ≠ a → slot_of a ≠ slot_of b) as Hne by (intros b Hb [= E]; congruence).
  case_bool_decide as Er.
  - rewrite Er. cbn. rewrite app_nil_r. split_and!; [done|by rewrite lookup_insert_eq|].
    intros b Hb. unfold active_job_for. cbn. by rewrite lookup_insert_ne by auto.
  - destruct (pending_states (jb_status j)); [|by rewrite app_nil_r].
    unfold enqueue_for. rewrite !queue_at_put, bool_decide_eq_true_2, queue_at_ensure by done.
    split_and!; [done|by rewrite <- (active_ensure (slot_of a) (slot_of a) s)|]. intros b Hb.
    rewrite queue_at_put, bool_decide_eq_false_2, queue_at_ensure by auto.
    by rewrite <- (active_ensure (slot_of b) (slot_of a) s).
Qed.

Lemma last_cons_default {A} (x : A) l : last (x :: l) = Some (default x (last l)).
Proof. rewrite last_cons. by destruct (last l). Qed.

Lemma rebuild_jobs m a (jobs : list JobRecord) s :
  (∀ j, j ∈ jobs → m !! jb_job_id j = Some j ∧ jb_target_name j = a) →
  let s' := foldl (rebuild_job m) s (jb_job_id <$> jobs) in
  queue_at (slot_of a) s' = queue_at (slot_of a) s ++
    (jb_job_id <$> List.filter (λ j, pending_states (jb_status j)) jobs) ∧
  active_job_for (slot_of a) s' =
    match last (jb_job_id <$> List.filter (λ j, is_running (jb_status j)) jobs) with
    | Some j => Some j
    | None => active_job_for (slot_of a) s
    end ∧
  ∀ b, b ≠ a → queue_at (slot_of b) s' = queue_at (slot_of b) s ∧
               active_job_for (slot_of b) s' = active_job_for (slot_of b) s.
Proof.
  revert s. induction jobs as [|j jobs IH]; cbn [fmap list_fmap foldl]; intros s Hj.
  { cbn. split_and!; [by rewrite app_nil_r|done|done]. }
  destruct (Hj j) as [Hm Ht]; [left|].
  destruct (rebuild_job_does m a j s Hm Ht) as (Hq1 & Ha1 & Hb1).
  destruct (IH (rebuild_job m s (jb_job_id j))) as (Hq & Ha & Hb); [intros; apply Hj; by right|].
  cbn zeta. rewrite Hq, Ha, Hq1, Ha1, <- app_assoc. cbn [List.filter]. split_and!.
  - f_equal. by destruct (pending_states (jb_status j)).
  - destruct (is_running (jb_status j)); [|done]. cbn [fmap list_fmap]. rewrite last_cons_default.
    by destruct (last _).
  - intros b Hne. destruct (Hb b Hne) as [-> ->]. by apply Hb1.
Qed.

Lemma rebuild_agent_does list_agent a s :
  (∀ j, j ∈ list_agent a → jb_target_name j = a) →
  let s' := rebuild_agent list_agent s a in
  queue_at (slot_of a) s' = queue_at (slot_of a) s ++ pending_ids (list_agent a) ∧
  active_job_for (slot_of a) s' =
    match last (running_ids (list_agent a)) with
    | Some j => Some j
    | None => active_job_for (slot_of a) s
    end ∧
  ∀ b, b ≠ a → queue_at (slot_of b) s' = queue_at (slot_of b) s ∧
               active_job_for (slot_of b) s' = active_job_for (slot_of b) s.
Proof.
  intros Ht. unfold rebuild_agent. pose proof (rebuild_rows (list_agent a) s) as Hr.
  destruct (foldl rebuild_row (∅, [], s) (list_agent a)) as [[m order] s1].
  destruct Hr as (Hm & -> & Hq & Ha).
  destruct (rebuild_jobs m a (latest_jobs (list_agent a)) s1) as (Hq2 & Ha2 & Hb2).
  { intros j Hj%latest_job_elem. rewrite Hm. split; [done|]. by apply latest_job_id in Hj as [_ ?%Ht]. }
  cbn zeta. rewrite Hq2, Ha2, Hq, Ha. split_and!; [done|done|].
  intros b Hb. destruct (Hb2 b Hb) as [-> ->]. by rewrite Hq, Ha.
Qed.

(** The state [rebuild] starts from has empty queues and no active job. *)
Lemma rebuild_agents list_agent agents s :
  NoDup agents → (∀ a j, a ∈ agents → j ∈ list_agent a → jb_target_name j = a) →
  let s' := foldl (rebuild_agent list_agent) s agents in
  ∀ a, (a ∈ agents → queue_at (slot_of a) s = [] → active_job_for (slot_of a) s = None →
        queue_at (slot_of a) s' = pending_ids (list_agent a) ∧
        active_job_for (slot_of a) s' = last (running_ids (list_agent a))) ∧
       (a ∉ agents → queue_at (slot_of a) s' = queue_at (slot_of a) s ∧
                     active_job_for (slot_of a) s' = active_job_for (slot_of a) s).
Proof.
  intros Hn. revert s. induction Hn as [|b agents Hb Hn IH]; cbn [foldl]; intros s Ht a.
  { split; [by intros ?%elem_of_nil|done]. }
  destruct (rebuild_agent_does list_agent b s) as (Hq & Hact & Hoth); [intros; apply Ht; [left|done]|].
  destruct (IH (rebuild_agent list_agent s b)) with (a := a) as [Hin Hout];
    [intros; apply Ht; [by right|done]|]. split.
  - intros [->|Ha]%elem_of_cons Hq0 Ha0.
    + destruct (Hout Hb) as [-> ->]. rewrite Hq, Hact, Hq0, Ha0. split; [done|]. by destruct (last _).
    + assert (a ≠ b) as Hne by congruence. destruct (Hoth a Hne) as [E1 E2]. apply Hin; congruence.
  - intros [Hne Ha]%not_elem_of_cons. destruct (Hoth a Hne) as [E1 E2], (Hout Ha) as [-> ->]. done.
Qed.

(** What the dispatcher knows after a restart.  Whatever the job logs of the
    configured agents are (each log holding rows of its own agent) and whatever
    was in memory before, [rebuild] leaves for every agent exactly the queue of
    the jobs whose last row is accepted or queued, in the order in which they
    were first written, and as its active job the last of those whose last row
    is running. *)
Theorem rebuild_spec (list_agent : string → list JobRecord) (agents : list string)
    (s : dispatcher_state) (Hagents : NoDup agents)
    (Hlogs : ∀ a j, a ∈ agents → j ∈ list_agent a → jb_target_name j = a) (a : string)
    (Ha : a ∈ agents) :
  queue_at (slot_of a) (rebuild list_agent agents s) = pending_ids (list_agent a) ∧
  active_job_for (slot_of a) (rebuild list_agent agents s) = last (running_ids (list_agent a)).
Proof.
  apply rebuild_agents; [done..| |done]. unfold queue_at. cbn. rewrite lookup_fmap.
  by destruct (ds_queues s !! slot_of a).
Qed.

(** The index has an entry for the rows only. *)
Definition index_within (P : string → TargetSlot → Prop) (s : dispatcher_state) : Prop :=
  ∀ id slot, target_for_job id s = Some slot → P id slot.

Lemma rebuild_rows_index P rows acc :
  (∀ j, j ∈ rows → P (jb_job_id j) (job_slot j)) → index_within P acc.2 →
  index_within P (foldl rebuild_row acc rows).2.
Proof.
  revert acc. induction rows as [|j rows IH]; intros [[m order] s] Hj Hs; [done|]. cbn [foldl].
  apply IH; [intros; apply Hj; by right|]. intros id slot [Ht|[-> ->]]%index_remember; [by apply Hs|].
  apply Hj. left.
Qed.
Lemma rebuild_job_index m s id id' : target_for_job id (rebuild_job m s id') = target_for_job id s.
Proof.
  unfold rebuild_job. destruct (m !! id') as [j|]; [|done]. case_bool_decide; [done|].
  destruct (pending_states _); [|done]. unfold target_for_job, enqueue_for, ensure_queue. cbn.
  by destruct (ds_queues s !! job_slot j).
Qed.
Lemma rebuild_index P list_agent agents s :
  (∀ a j, a ∈ agents → j ∈ list_agent a → P (jb_job_id j) (job_slot j)) →
  index_within P (rebuild list_agent agents s).
Proof.
  assert (∀ s0, index_within P s0 → (∀ a j, a ∈ agents → j ∈ list_agent a → P (jb_job_id j) (job_slot j)) →
    index_within P (foldl (rebuild_agent list_agent) s0 agents)) as Hall.
  { induction agents as [|a agents IH]; intros s0 Hs Hj; [done|]. cbn [foldl]. apply IH.
    - unfold rebuild_agent. pose proof (rebuild_rows_index P (list_agent a) (∅, [], s0)) as Hr.
      destruct (foldl rebuild_row _ _) as [[m order] s1]. intros id slot Ht.
      apply (Hr (λ j Hin, Hj a j (list_elem_of_here _ _) Hin) Hs). cbn. revert Ht.
      clear. revert s1. induction order as [|x order IH]; intros s1; cbn [foldl]; [done|].
      intros Ht%IH. by rewrite rebuild_job_index in Ht.
    - intros b j Hb. apply Hj. by right. }
  apply Hall. intros id slot. unfold target_for_job. cbn. by rewrite lookup_empty.
Qed.

(** Four jobs: one ran and finished, one runs, one waits, one was cancelled. *)
Definition demo_row (id : string) (st : JobStatus) : JobRecord :=
  mkJob id None "agent1" "codex"
    (mkEnvelope "p" "agent1" "user" "hi" None None "ask" DS_single false [] None) st
    (if terminal_job_status st then Some [] else None) None "t" "t" None TK_agent "agent1" None [].
Definition demo_rows : list JobRecord :=
  [demo_row "a" JS_accepted; demo_row "b" JS_queued; demo_row "a" JS_running; demo_row "c" JS_queued;
   demo_row "a" JS_completed; demo_row "b" JS_running; demo_row "d" JS_queued; demo_row "d" JS_cancelled].
Definition demo_agents : list string := ["agent1"; "agent2"].
Definition demo_logs (a : string) : list JobRecord := if a =ˢ "agent1" then demo_rows else [].

Lemma rebuild_spec_witness :
  NoDup demo_agents ∧
  queue_at (slot_of "agent1") (rebuild demo_logs demo_agents (new_dispatcher_state demo_agents)) = ["c"].
Proof.
  assert (NoDup demo_agents) as Hn.
  { apply (bool_decide_eq_true_1 (NoDup demo_agents)). vm_compute. reflexivity. }
  split; [exact Hn|].
  refine (eq_trans (proj1 (rebuild_spec demo_logs demo_agents (new_dispatcher_state demo_agents) Hn _
                             "agent1" _)) _).
  - intros a j _ Hj. unfold demo_logs in Hj. destruct (bool_decide (a = "agent1")) eqn:E.
    + apply bool_decide_eq_true_1 in E. subst a.
      assert (Forall (λ j, jb_target_name j = "agent1") demo_rows) as Hf by (repeat constructor).
      rewrite Forall_forall in Hf. exact (Hf j Hj).
    + apply elem_of_nil in Hj. destruct Hj.
  - left.
  - vm_compute. reflexivity.
Defined.
