(* ===== verification/Dispatcher.v ===== *)
(** * The dispatcher: its state and its records

    [ccbd/services/dispatcher.py] and [dispatcher_runtime/records.py],
    [runtime_state.py], [context.py], [routing.py],
    [completion_runtime/snapshots.py], with [services/snapshot_writer.py]: what
    the operations of the dispatcher share.

    The dispatcher is modelled as [ccbd/app_runtime/service_graph.py] builds it:
    with a message bureau, a completion tracker, an execution service and a
    runtime service, reply delivery on completion, and execution only over an
    actionable runtime binding. *)
From Stdlib Require Import QArith.
From S2P Require Import Prelude PyValue Names AgentModels CompletionModels ExecutionModels Tracker TextArtifacts JobModels.
From S2P Require Import MailboxModels MailboxKernel BureauModels Bureau DispatcherState.
Open Scope string_scope.
Open Scope list_scope.
Open Scope Z_scope.

(** ** What the dispatcher is configured with *)
(** The fields of [AgentRuntime] the dispatcher reads. *)
Record AgentRuntime := mkRuntime {
  ar_agent_name : string;
  ar_state : AgentState;
  ar_pid : option Z;
  ar_runtime_ref : option string;
  ar_session_ref : option string;
  ar_workspace_path : option string;
  ar_project_id : string;
  ar_backend_type : string;
  ar_health : string;
  ar_binding_source : string;
  ar_pane_state : option string
}.

(** The project configuration and the provider catalog: [config.agents] in
    order, [resolve_completion_manifest], [supports_resume] of a provider,
    the two callback attributes of the configuration (numbers, when set), and the workspace path of
    an agent. *)
Class DispatcherConfig := {
  cfg_agents : list (string * AgentSpec);
  cfg_manifest : string → RuntimeMode → result CompletionManifest;
  cfg_supports_resume : string → bool;
  cfg_callback_timeout_s : option Q;
  cfg_max_callback_depth : option Z;
  cfg_workspace_path : string → result string
}.

(** The services around the dispatcher, over a state [E] of their own: the
    agent registry, the runtime service and the execution service.  Nothing is
    assumed about what they do or return. *)
Class Services (E : Type) := {
  reg_get : string → E → result (option AgentRuntime);
  reg_list_alive : E → result (list string);
  rt_patch_state : AgentRuntime → AgentState → nat → string → E → result unit * E;
  rt_ensure_ready : string → E → result (option AgentRuntime) * E;
  rt_refresh_binding : string → E → result (option AgentRuntime) * E;
  ex_start : JobRecord → option ProviderRuntimeContext → E → result (option ProviderSubmission) * E;
  ex_cancel : string → E → result unit * E;
  ex_finish : string → E → result unit * E;
  ex_acknowledge : string → E → result unit * E;
  ex_acknowledge_item : string → option Z → E → result unit * E;
  ex_restore : JobRecord → option ProviderRuntimeContext → E → result ExecutionRestoreResult * E;
  ex_poll : E → result (list ExecutionUpdate) * E;
  ex_pending_decision : string → E → option CompletionDecision;
  ex_is_live : string → E → bool
}.

(** ** State

    The job and event logs by agent, the submission log, the message bureau
    with the mailboxes, the text artifacts, the completion snapshots by job,
    the completion tracker, the queues, and the services. *)
Record dispatcher (E : Type) := mkDispatcher {
  dp_jobs : gmap string (list JobRecord);
  dp_events : gmap string (list JobEvent);
  dp_submissions : list SubmissionRecord;
  dp_bureau : bureau;
  dp_texts : text_store;
  dp_snapshots : gmap string CompletionSnapshot;
  dp_tracker : tracker_service;
  dp_state : dispatcher_state;
  dp_env : E
}.
Arguments mkDispatcher {E}.
Arguments dp_jobs {E}.
Arguments dp_events {E}.
Arguments dp_submissions {E}.
Arguments dp_bureau {E}.
Arguments dp_texts {E}.
Arguments dp_snapshots {E}.
Arguments dp_tracker {E}.
Arguments dp_state {E}.
Arguments dp_env {E}.

Section dispatcher.
Context {E : Type}.
Abbreviation disp := (dispatcher E).

Definition with_jobs (j : gmap string (list JobRecord)) (d : disp) : disp :=
  mkDispatcher j (dp_events d) (dp_submissions d) (dp_bureau d) (dp_texts d) (dp_snapshots d)
    (dp_tracker d) (dp_state d) (dp_env d).
Definition with_events (e : gmap string (list JobEvent)) (d : disp) : disp :=
  mkDispatcher (dp_jobs d) e (dp_submissions d) (dp_bureau d) (dp_texts d) (dp_snapshots d)
    (dp_tracker d) (dp_state d) (dp_env d).
Definition with_submissions (l : list SubmissionRecord) (d : disp) : disp :=
  mkDispatcher (dp_jobs d) (dp_events d) l (dp_bureau d) (dp_texts d) (dp_snapshots d)
    (dp_tracker d) (dp_state d) (dp_env d).
Definition with_bureau (b : bureau) (d : disp) : disp :=
  mkDispatcher (dp_jobs d) (dp_events d) (dp_submissions d) b (dp_texts d) (dp_snapshots d)
    (dp_tracker d) (dp_state d) (dp_env d).
Definition with_texts (t : text_store) (d : disp) : disp :=
  mkDispatcher (dp_jobs d) (dp_events d) (dp_submissions d) (dp_bureau d) t (dp_snapshots d)
    (dp_tracker d) (dp_state d) (dp_env d).
Definition with_snapshots (s : gmap string CompletionSnapshot) (d : disp) : disp :=
  mkDispatcher (dp_jobs d) (dp_events d) (dp_submissions d) (dp_bureau d) (dp_texts d) s
    (dp_tracker d) (dp_state d) (dp_env d).
Definition with_tracker (t : tracker_service) (d : disp) : disp :=
  mkDispatcher (dp_jobs d) (dp_events d) (dp_submissions d) (dp_bureau d) (dp_texts d)
    (dp_snapshots d) t (dp_state d) (dp_env d).
Definition with_queues (s : dispatcher_state) (d : disp) : disp :=
  mkDispatcher (dp_jobs d) (dp_events d) (dp_submissions d) (dp_bureau d) (dp_texts d)
    (dp_snapshots d) (dp_tracker d) s (dp_env d).
Definition with_env (e : E) (d : disp) : disp :=
  mkDispatcher (dp_jobs d) (dp_events d) (dp_submissions d) (dp_bureau d) (dp_texts d)
    (dp_snapshots d) (dp_tracker d) (dp_state d) e.
End dispatcher.

(** Computations on the dispatcher, and on one of its parts. *)
Abbreviation DM E := (ST (dispatcher E)).

Section lifts.
Context {E : Type}.

Definition in_bureau {A} (m : B A) : DM E A := λ d,
  let '(r, b) := m (dp_bureau d) in (r, with_bureau b d).
Definition in_mailbox {A} (m : K A) : DM E A := in_bureau (in_kernel m).
Definition in_texts {A} (m : TX A) : DM E A := λ d,
  let '(r, t) := m (dp_texts d) in (r, with_texts t d).
Definition in_tracker {A} (m : TS A) : DM E A := λ d,
  let '(r, t) := m (dp_tracker d) in (r, with_tracker t d).
Definition in_env {A} (m : E → result A * E) : DM E A := λ d,
  let '(r, e) := m (dp_env d) in (r, with_env e d).
Definition of_env {A} (m : E → result A) : DM E A := λ d, (m (dp_env d), d).
Definition of_queues {A} (f : dispatcher_state → A) : DM E A := st_gets (λ d, f (dp_state d)).
Definition on_queues (f : dispatcher_state → dispatcher_state) : DM E unit :=
  st_modify (λ d, with_queues (f (dp_state d)) d).
Definition of_bureau {A} (f : bureau → A) : DM E A := st_gets (λ d, f (dp_bureau d)).

Context `{Clock} `{Uuids}.
(** [dispatcher._clock()] is the clock of the mailbox kernel, [_new_id] draws
    from the same source as the bureau's. *)
Definition clock_now : DM E string := in_mailbox read_clock.
Definition draw_id (prefix : string) : DM E string := in_bureau (new_id prefix).
End lifts.

(** ** Job and event records *)
Section records.
Context {E : Type} `{Clock} `{Uuids} `{DispatcherConfig}.
Abbreviation M := (DM E).

Definition agent_names : list string := cfg_agents.*1.
Definition jobs_of (d : dispatcher E) (agent_name : string) : list JobRecord :=
  default [] (dp_jobs d !! agent_name).

(** A row as it is read back: an empty body artifact is none. *)
Definition stored_job (job : JobRecord) : JobRecord :=
  with_request (without_empty_artifact (jb_request job)) job.

Definition job_store_append (job : JobRecord) : M unit :=
  name ← st_lift (normalize_agent_name (jb_target_name job));
  st_modify (λ d, with_jobs (<[name := jobs_of d name ++ [stored_job job]]> (dp_jobs d)) d).
Definition list_agent_jobs (agent_name : string) : M (list JobRecord) :=
  name ← st_lift (normalize_agent_name agent_name); st_gets (λ d, jobs_of d name).
Definition get_latest_job (agent_name job_id : string) : M (option JobRecord) :=
  rows ← list_agent_jobs agent_name; mret (find_last (λ j, jb_job_id j =ˢ job_id) rows).

(** The loop over [config.agents] of [get_job]. *)
Fixpoint search_job (candidates : list string) (job_id : string) : M (option JobRecord) :=
  match candidates with
  | [] => mret None
  | candidate :: rest =>
      record ← get_latest_job candidate job_id;
      match record with
      | Some r => _ ← on_queues (remember_job job_id (TK_agent, candidate)); mret (Some r)
      | None => search_job rest job_id
      end
  end.
Definition get_job (job_id : string) : M (option JobRecord) :=
  target ← of_queues (target_for_job job_id);
  match target with
  | Some slot => get_latest_job slot.2 job_id
  | None => search_job agent_names job_id
  end.

Definition latest_for_agent (agent_name : string) : M (option JobRecord) :=
  rows ← list_agent_jobs agent_name; mret (last rows).

Definition append_job (job : JobRecord) : M unit :=
  _ ← job_store_append job;
  on_queues (record_job job).

Definition append_event (job : JobRecord) (event_type : string) (payload : pydict)
    (timestamp : string) : M unit :=
  event_id ← draw_id "evt";
  event ← st_lift (job_event_post_init (PStr (target_kind_value (jb_target_kind job)))
    (mkJobEvent event_id (jb_job_id job) (jb_agent_name job) event_type payload timestamp
       (jb_target_kind job) (jb_target_name job)));
  name ← st_lift (normalize_agent_name (je_target_name event));
  st_modify (λ d, with_events (<[name := default [] (dp_events d !! name) ++ [event]]> (dp_events d)) d).

(** [JobRecord(...)] and [replace(job, ...)]: the constructor runs. *)
Definition make_job (job : JobRecord) : result JobRecord :=
  job_post_init (PStr (target_kind_value (jb_target_kind job))) job.

Definition rebuild_dispatcher_state : M unit :=
  d ← st_gets (λ d, d);
  on_queues (rebuild (jobs_of d) agent_names).
End records.

(** ** Runtime state, routing and snapshots *)
Section routing.
Context {E : Type} `{Services E} `{Clock} `{Uuids} `{DispatcherConfig} `{CompletionLib}.
Abbreviation M := (DM E).

Definition agent_slot (agent_name : string) : TargetSlot := (TK_agent, agent_name).

Definition next_runtime_state (state : option AgentState) (active : option string)
    (current : AgentState) : AgentState :=
  let next := match state with
              | Some s => s
              | None =>
                  match active with
                  | Some _ => AG_busy
                  | None => if bool_decide (current = AG_busy) then AG_idle else current
                  end
              end in
  if bool_decide (next = AG_busy) && bool_decide (current = AG_stopped) then AG_idle else next.

Definition sync_runtime (agent_name : string) (state : option AgentState) : M unit :=
  runtime ← of_env (reg_get agent_name);
  match runtime with
  | None => mret tt
  | Some rt =>
      active ← of_queues (active_job_for (agent_slot agent_name));
      depth ← of_queues (queue_depth_for (agent_slot agent_name));
      now ← clock_now;
      in_env (rt_patch_state rt (next_runtime_state state active (ar_state rt)) depth now)
  end.

(** [registry.spec_for]. *)
Fixpoint spec_lookup (name : string) (agents : list (string * AgentSpec)) : option AgentSpec :=
  match agents with
  | [] => None
  | (n, spec) :: rest => if n =ˢ name then Some spec else spec_lookup name rest
  end.
Definition spec_for (agent_name : string) : result AgentSpec :=
  normalized ← normalize_agent_name agent_name;
  match spec_lookup normalized cfg_agents with
  | Some spec => mret spec
  | None => Err (KeyError ("unknown agent: " +:+ normalized))
  end.

Definition build_runtime_context (runtime : option AgentRuntime) : option ProviderRuntimeContext :=
  (λ rt, mkRuntimeContext (ar_agent_name rt) (ar_workspace_path rt) (Some (ar_backend_type rt))
           (ar_runtime_ref rt) (ar_session_ref rt) (ar_pid rt) (Some (ar_health rt))
           (Some (ar_binding_source rt))) <$> runtime.

Definition validate_sender (sender : string) : result unit :=
  let normalized := lower (strip sender) in
  if normalized =ˢ "" then Err (DispatchError "sender cannot be empty")
  else if bool_decide (normalized ∈ non_agent_actors)
  then raise_if (normalized =ˢ "cmd") (DispatchError ("unknown sender agent: " +:+ normalized))
  else
    agent_name ← normalize_agent_name normalized;
    raise_if (negb (bool_decide (agent_name ∈ agent_names)))
      (DispatchError ("unknown sender agent: " +:+ agent_name)).

Definition resolve_targets (request : MessageEnvelope) : M (list string) :=
  match me_delivery_scope request with
  | DS_single => _ ← st_lift (spec_for (me_to_agent request)); mret [me_to_agent request]
  | DS_broadcast =>
      alive ← of_env reg_list_alive;
      let from := me_from_actor request in
      mret (sorted_strings
              (if bool_decide (from ∈ non_agent_actors) then alive
               else List.filter (λ name, name ≠ˢ from) alive))
  end.

Fixpoint validate_targets_available (targets : list string) : M unit :=
  match targets with
  | [] => mret tt
  | agent_name :: rest =>
      spec ← st_lift (spec_for agent_name);
      outstanding ← of_queues (has_outstanding_for (agent_slot agent_name));
      _ ← st_lift (raise_if (bool_decide (as_queue_policy spec = QP_reject_when_busy) && outstanding)
                     (DispatchRejectedError ("agent " +:+ agent_name +:+ " rejects new work while busy")));
      validate_targets_available rest
  end.

Definition profile_family_for_job (job : JobRecord) : result CompletionFamily :=
  spec ← spec_for (jb_agent_name job);
  manifest ← cfg_manifest (as_provider spec) (as_runtime_mode spec);
  mret (mf_completion_family manifest).

(** *** [SnapshotWriter] *)
Definition reply_preview (reply : string) : string :=
  let text := strip reply in
  if (String.length text <=? 240)%nat then text else rstrip (take_chars 240 text) +:+ "...".

Definition load_snapshot (job_id : string) : M (option CompletionSnapshot) :=
  st_gets (λ d, dp_snapshots d !! job_id).
Definition write_completion (job_id agent_name : string) (family : CompletionFamily)
    (state : CompletionState) (decision : CompletionDecision) (updated_at : option string) : M unit :=
  timestamp ← match or_none (default "" updated_at) with
              | Some t => mret t
              | None => clock_now
              end;
  snapshot ← st_lift (snapshot_post_init
    (mkSnapshot job_id agent_name family state decision (reply_preview (cd_reply decision)) timestamp));
  st_modify (λ d, with_snapshots (<[sn_job_id snapshot := snapshot]> (dp_snapshots d)) d).

(** *** [apply_tracker_view]

    The time of the view: [None] when its decision points to a cursor that has
    none, and then no event is recorded. *)
Definition resolve_tracker_timestamp (tracked : CompletionTrackerView) (updated_at : option string)
    : M (option string) :=
  match updated_at with
  | Some t => mret (Some t)
  | None =>
      match cd_source_cursor (vw_decision tracked) with
      | Some cursor => mret (cu_updated_at cursor)
      | None => now ← clock_now; mret (Some now)
      end
  end.

Definition view_is_stale (prior : option CompletionSnapshot) (tracked : CompletionTrackerView) : bool :=
  match prior with
  | None => false
  | Some s =>
      (st_terminal (sn_state s) && negb (cd_terminal (vw_decision tracked)))
      || (bool_decide (sn_state s = vw_state tracked)
          && decision_eqb (sn_latest_decision s) (vw_decision tracked))
  end.

Definition apply_tracker_view (current : JobRecord) (tracked : CompletionTrackerView)
    (updated_at : option string) : M unit :=
  family ← st_lift (profile_family_for_job current);
  prior ← load_snapshot (jb_job_id current);
  if view_is_stale prior tracked then mret tt
  else
    timestamp ← resolve_tracker_timestamp tracked updated_at;
    _ ← write_completion (jb_job_id current) (jb_agent_name current) family (vw_state tracked)
          (vw_decision tracked) timestamp;
    match timestamp with
    | None => mret tt
    | Some t =>
        append_event current "completion_state_updated" (state_to_record (vw_state tracked)) t
    end.
End routing.
