(* ===== verification/Callbacks.v ===== *)
(** * Callbacks

    [ccbd/services/dispatcher_runtime/callbacks.py]: an agent that works on a
    task may delegate part of it with a callback; the edge between the two jobs,
    the chain of such edges, the continuation that is submitted when the child
    is done, and what happens when it never is.  Also [record_notice] of
    [message_bureau/facade_recording_terminal_replies.py], which spills long
    notices to the text artifacts. *)
From stdpp Require Import pretty.
From Stdlib Require Import QArith.
From S2P Require Import Prelude PyValue Names AgentModels CompletionModels ExecutionModels Tracker TextArtifacts JobModels.
From S2P Require Import MailboxModels MailboxKernel BureauModels Bureau RetryPolicy.
From S2P Require Import DispatcherState Dispatcher.
Open Scope string_scope.
Open Scope list_scope.
Open Scope Z_scope.

Definition CALLBACK_ROUTE_MODE : string := "callback".
Definition CALLBACK_CONTINUATION_MESSAGE_TYPE : string := "callback_continuation".
Definition DEFAULT_CALLBACK_TIMEOUT_S : Q := inject_Z (30 * 60).
Definition DEFAULT_MAX_CALLBACK_DEPTH : Z := 5.
Definition terminal_callback_state (s : CallbackEdgeState) : bool :=
  bool_decide (s ∈ [CE_continuation_submitted; CE_done; CE_failed; CE_timed_out]).

Definition request_callback_route (request : MessageEnvelope) : result bool :=
  mode ← lowered_text (dget "mode" (me_route_options request));
  mret (mode =ˢ CALLBACK_ROUTE_MODE).

Definition is_plain_ask (request : MessageEnvelope) : result bool :=
  if lower (strip (me_message_type request)) ≠ˢ "ask" then mret false
  else route ← request_callback_route request; mret (negb route).

(** ** Text of bodies and replies *)
Definition artifact_text (key : string) (artifact : pydict) : result string :=
  s ← py_str_or_empty (dget key artifact); mret (strip s).
(** The lines that name an artifact: [size] and [digest] when present. *)
Definition artifact_lines (artifact : pydict) : result (list string) :=
  path ← artifact_text "path" artifact;
  size ← artifact_text "bytes" artifact;
  digest ← artifact_text "sha256" artifact;
  mret (["path: " +:+ path] ++ (if size =ˢ "" then [] else ["bytes: " +:+ size])
        ++ (if digest =ˢ "" then [] else ["sha256: " +:+ digest])).

Definition guidance_marker : string := newline +:+ newline +:+ "CCB reply guidance:".
Definition strip_ccb_guidance (body : string) : string :=
  match String.index 0 guidance_marker body with
  | Some n => rstrip (take_chars n body)
  | None => body
  end.

Definition callback_body_summary (request : MessageEnvelope) : result string :=
  let body := strip_ccb_guidance (me_body request) in
  match me_body_artifact request with
  | None | Some [] => mret body
  | Some artifact =>
      lines ← artifact_lines artifact;
      mret (rstrip (join newline
              ([preview_text body 800%nat; ""; "Full original request artifact:"] ++ lines)))
  end.

Definition reply_summary (d : CompletionDecision) : result string :=
  match dget "reply_artifact" (cd_diagnostics d) with
  | PDict artifact =>
      lines ← artifact_lines artifact;
      mret (rstrip (join newline
              ([str_or (Some (cd_reply d)) "(reply body stored as artifact)"; "";
                "Full child reply artifact:"] ++ lines)))
  | _ => mret (cd_reply d)
  end.

Definition continuation_body (edge : CallbackEdgeRecord) (child_job : JobRecord)
    (d : CompletionDecision) : result string :=
  original ← py_str_or_empty (dget "parent_body" (ce_diagnostics edge));
  child_task ← py_str_or_empty (dget "child_body" (ce_diagnostics edge));
  child_reply ← reply_summary d;
  let original := rstrip original in
  let child_task := rstrip child_task in
  mret (join newline
    ([ "CCB callback continuation."; "";
       "Original caller: " +:+ ce_original_caller edge;
       "Parent job: " +:+ ce_parent_job_id edge;
       "Child job: " +:+ jb_job_id child_job;
       "Child agent: " +:+ jb_agent_name child_job;
       "Child status: " +:+ job_status_value (jb_status child_job) ]
     ++ (if original =ˢ "" then [] else [""; "Original task context:"; original])
     ++ (if child_task =ˢ "" then [] else [""; "Delegated child task:"; child_task])
     ++ [ ""; "Child result:"; str_or (Some child_reply) "(no reply body)"; "";
          "Continue the original task using the child result. Reply to the original caller with the final result." ])).

Definition callback_failure_reply (edge : CallbackEdgeRecord) (reason detail : string) : string :=
  "CCB callback failed for delegated task " +:+ ce_child_job_id edge
  +:+ " while continuing parent job " +:+ ce_parent_job_id edge +:+ ". Reason: " +:+ reason
  +:+ (if detail =ˢ "" then "" else ": " +:+ detail).

Definition callback_child_agent (edge : CallbackEdgeRecord) : result string :=
  lowered_text (dget "child_agent" (ce_diagnostics edge)).

(** ** The decision a stored reply stands for *)
Definition decision_from_reply (reply : option ReplyRecord) (child_job : option JobRecord)
    (fallback_finished_at : string) : result (option CompletionDecision) :=
  match reply, child_job ≫= (λ j, (λ t, (j, t)) <$> jb_terminal_decision j) with
  | Some r, Some (job, terminal) =>
      let status_text := job_status_value (jb_status job) in
      status ← enum_of_val "CompletionStatus" completion_status_value completion_statuses
        (py_or (dget "status" terminal) (PStr status_text));
      confidence ← confidence_of (py_or (dget "confidence" terminal) (PStr "degraded"));
      diagnostics ← dict_or_empty "diagnostics" (dget "diagnostics" terminal);
      let diagnostics :=
        match rr_reply_artifact r with
        | None | Some [] => diagnostics
        | Some artifact =>
            match dict_lookup "reply_artifact" diagnostics with
            | Some _ => diagnostics
            | None => dset "reply_artifact" (PDict artifact) diagnostics
            end
        end in
      reason ← opt_str "reason" (py_or (dget "reason" terminal) (PStr status_text));
      turn_ref ← opt_str "provider_turn_ref" (dget "provider_turn_ref" terminal);
      finished_at ← opt_str "finished_at"
        (py_or (dget "finished_at" terminal)
           (py_or (PStr (rr_finished_at r)) (PStr fallback_finished_at)));
      decision ← decision_post_init
        (mkDecision true status reason (Some confidence) (rr_reply r)
           (py_bool (dget "anchor_seen" terminal)) (py_bool (dget "reply_started" terminal))
           (py_bool (dget "reply_stable" terminal)) turn_ref None finished_at diagnostics);
      mret (Some decision)
  | _, _ => mret None
  end.

(** ** Edges *)
Definition edge_with_state (s : CallbackEdgeState) (reply_id status job_id message_id : option string)
    (updated_at : string) (diagnostics : pydict) (e : CallbackEdgeRecord) : CallbackEdgeRecord :=
  mkEdge (ce_edge_id e) (ce_parent_job_id e) (ce_parent_message_id e) (ce_parent_agent e)
    (ce_child_job_id e) (ce_child_message_id e) (ce_callback_target_agent e) (ce_original_caller e)
    (ce_original_task_id e) s reply_id status job_id message_id (ce_timeout_at e) (ce_created_at e)
    updated_at diagnostics.

(** [_callback_chain_for_parent]: the loop over the edges that lead to a
    message, with the ids it has seen.  Each round reads another edge, so the
    fuel given is one more than their number. *)
Fixpoint chain_loop (fuel : nat) (b : bureau) (seen : list string) (message_id : string)
    : list CallbackEdgeRecord :=
  match fuel with
  | O => []
  | S fuel =>
      if (message_id =ˢ "") || bool_decide (message_id ∈ seen) then []
      else match edge_for_child_message b message_id with
           | None => []
           | Some edge => edge :: chain_loop fuel b (message_id :: seen) (ce_parent_message_id edge)
           end
  end.
Definition callback_chain_for_parent (b : bureau) (parent_message_id : string)
    : list CallbackEdgeRecord :=
  chain_loop (S (length (br_edges b))) b [] parent_message_id.

Definition message_for_job (b : bureau) (job : JobRecord) : option MessageRecord :=
  attempt_latest_by_job b (jb_job_id job) ≫= λ a, message_latest b (at_message_id a).

(** Comparing a time with an offset and one without raises. *)
Definition callback_edge_expired `{CompletionLib} (edge : CallbackEdgeRecord) (now : string) : bool :=
  if negb (truthy (ce_timeout_at edge)) then false
  else match parse_utc_timestamp now, parse_utc_timestamp (default "" (ce_timeout_at edge)) with
       | Some (aware, t), Some (aware', t') => bool_decide (aware = aware') && (t' <=? t)
       | _, _ => false
       end.

Section callbacks.
Context {E : Type} `{Services E} `{Clock} `{Uuids} `{DispatcherConfig} `{CompletionLib} `{TextLib}.
(** [(parse_utc_timestamp(t) + timedelta(seconds=s)).isoformat()], or an
    exception; and the mailboxes the bureau knows. *)
Context (iso_plus : string → Q → result string) (known_mailboxes : gset string).
Abbreviation M := (DM E).

Definition callback_timeout_s : Q :=
  match cfg_callback_timeout_s with
  | None => DEFAULT_CALLBACK_TIMEOUT_S
  | Some q => if Qle_bool q 0 then 0%Q else q
  end.
Definition max_callback_depth : Z :=
  match cfg_max_callback_depth with
  | None => DEFAULT_MAX_CALLBACK_DEPTH
  | Some n => Z.max 1 n
  end.
Definition callback_timeout_at (accepted_at : string) : string :=
  match iso_plus accepted_at callback_timeout_s with Ok t => t | Err _ => accepted_at end.

Definition active_parent_job (actor : string) : M (option JobRecord) :=
  let normalized := lower (strip actor) in
  if (normalized =ˢ "") || bool_decide (normalized ∈ non_agent_actors) then mret None
  else if negb (bool_decide (normalized ∈ agent_names)) then mret None
  else
    parent_job_id ← of_queues (active_job_for (agent_slot normalized));
    match parent_job_id with
    | None => mret None
    | Some j => if j =ˢ "" then mret None else get_job j
    end.

Definition raise_dispatch {A} (msg : string) : M A := st_raise (DispatchError msg).

Definition validate_nested_ask_request (request : MessageEnvelope) : M unit :=
  plain ← st_lift (is_plain_ask request);
  if negb plain then mret tt
  else if me_silence_on_success request then mret tt
  else
    parent ← active_parent_job (me_from_actor request);
    match parent with
    | None => mret tt
    | Some _ => raise_dispatch
        "plain ask from an active CCB task requires --callback when the child result is needed, or --silence for independent fire-and-forget work"
    end.

Definition validate_callback_chain (parent : JobRecord) (child_agent : string) : M unit :=
  b ← of_bureau (λ b, b);
  match message_for_job b parent with
  | None => raise_dispatch "ask --callback could not resolve parent message"
  | Some parent_message =>
      let chain := callback_chain_for_parent b (mr_message_id parent_message) in
      _ ← st_lift (raise_if (max_callback_depth <? Z.of_nat (length chain) + 1)
             (DispatchError ("ask --callback exceeds max callback depth " +:+ pretty max_callback_depth)));
      children ← st_lift (mapM_result callback_child_agent chain);
      let actors := ((λ e, lower (strip (ce_parent_agent e))) <$> chain) ++ children
                    ++ [jb_agent_name parent] in
      st_lift (raise_if (bool_decide (lower (strip child_agent) ∈ actors))
                 (DispatchError "ask --callback cycle detected"))
  end.

Definition validate_callback_request (request : MessageEnvelope) : M unit :=
  route ← st_lift (request_callback_route request);
  if negb route then validate_nested_ask_request request
  else
    _ ← st_lift (raise_if (me_delivery_scope request ≠ˢ DS_single)
                   (DispatchError "ask --callback supports exactly one target agent"));
    parent ← active_parent_job (me_from_actor request);
    match parent with
    | None => raise_dispatch "ask --callback requires an active parent job for the sender"
    | Some p =>
        b ← of_bureau (λ b, b);
        _ ← st_lift (raise_if (is_none (message_for_job b p))
               (DispatchError "ask --callback could not resolve parent message"));
        _ ← st_lift (raise_if (negb (is_none (edge_for_parent_job b (jb_job_id p))))
               (DispatchError "ask --callback allows one outstanding callback per parent job"));
        validate_callback_chain p (me_to_agent request)
    end.

Definition optional_dict (d : option pydict) : pyval :=
  match d with Some (kv :: d') => PDict (kv :: d') | _ => PNone end.

Definition register_callback_edge (request : MessageEnvelope) (jobs : list JobRecord)
    (message_id accepted_at : string) : M unit :=
  _ ← validate_callback_request request;
  route ← st_lift (request_callback_route request);
  if negb route then mret tt
  else match jobs with
  | [child] =>
      parent ← active_parent_job (me_from_actor request);
      b ← of_bureau (λ b, b);
      match parent, parent ≫= message_for_job b with
      | Some p, Some parent_message =>
          edge_id ← draw_id "cb";
          parent_body ← st_lift (callback_body_summary (jb_request p));
          child_body ← st_lift (callback_body_summary (jb_request child));
          let task_id := if truthy (me_task_id (jb_request p)) then me_task_id (jb_request p)
                         else Some (mr_message_id parent_message) in
          let edge := mkEdge edge_id (jb_job_id p) (mr_message_id parent_message) (jb_agent_name p)
            (jb_job_id child) message_id (jb_agent_name p) (me_from_actor (jb_request p)) task_id
            CE_pending None None None None (Some (callback_timeout_at accepted_at)) accepted_at
            accepted_at
            [ ("route_mode", PStr CALLBACK_ROUTE_MODE); ("child_agent", PStr (jb_agent_name child));
              ("parent_body", PStr parent_body); ("child_body", PStr child_body);
              ("parent_body_artifact", optional_dict (me_body_artifact (jb_request p)));
              ("child_body_artifact", optional_dict (me_body_artifact (jb_request child))) ] in
          _ ← in_bureau (record_callback_edge edge);
          append_event child "callback_edge_created"
            [ ("edge_id", PStr edge_id); ("parent_job_id", PStr (jb_job_id p));
              ("parent_message_id", PStr (mr_message_id parent_message));
              ("callback_target_agent", PStr (jb_agent_name p));
              ("original_caller", PStr (me_from_actor (jb_request p))) ] accepted_at
      | _, _ => st_raise (RuntimeError "'NoneType' object has no attribute 'message_id'")
      end
  | _ => raise_dispatch "ask --callback supports exactly one target agent"
  end.

Definition delegated_parent_edge (b : bureau) (job : JobRecord) : option CallbackEdgeRecord :=
  edge_for_parent_job b (jb_job_id job).
Definition callback_child_edge (b : bureau) (job : JobRecord) : option CallbackEdgeRecord :=
  match edge_for_child_job b (jb_job_id job) with
  | Some e => Some e
  | None => message_for_job b job ≫= λ m, edge_for_child_message b (mr_message_id m)
  end.

(** ** Notices *)
Definition record_notice (job : JobRecord) (reply : string) (diagnostics : pydict)
    (finished_at : string) (terminal_status : ReplyTerminalStatus)
    (deliver_to_actor : option string) : M (option string) :=
  attempt ← of_bureau (λ b, attempt_latest_by_job b (jb_job_id job));
  match attempt with
  | None => mret None
  | Some a =>
      reply_id ← draw_id "rep";
      let payload := dsetdefault "status" (PStr (job_status_value (jb_status job))) diagnostics in
      let payload := dsetdefault "notice" (PBool true) payload in
      spilled ← in_texts (maybe_spill_text reply "notice-reply"
        (jb_job_id job +:+ "-" +:+ reply_id)
        ("CCB notice reply for job " +:+ jb_job_id job
         +:+ " is larger than 4 KiB and was stored as an artifact.")
        TEXT_ARTIFACT_SPILL_BYTES TEXT_ARTIFACT_TTL_S (Some finished_at));
      _ ← in_bureau (reply_append
        (mkReply reply_id (at_message_id a) (at_attempt_id a) (jb_agent_name job) terminal_status
           spilled.1 spilled.2 payload finished_at));
      let target := match deliver_to_actor with Some t => t | None => me_from_actor (jb_request job) end in
      _ ← match mailbox_actor known_mailboxes target with
          | Some caller => in_bureau (queue_reply_delivery caller (at_message_id a) (at_attempt_id a)
                             reply_id finished_at)
          | None => mret tt
          end;
      _ ← in_bureau (refresh_message_state (at_message_id a) finished_at);
      mret (Some reply_id)
  end.

(** ** Failing an edge *)
Definition record_callback_failure_notice (edge : CallbackEdgeRecord) (reason detail updated_at : string)
    : M unit :=
  parent_job ← get_job (ce_parent_job_id edge);
  match parent_job with
  | None => in_bureau (set_message_state (ce_parent_message_id edge) MSt_failed updated_at)
  | Some job =>
      _ ← record_notice job (callback_failure_reply edge reason detail)
        [ ("notice", PBool true); ("callback_edge_id", PStr (ce_edge_id edge));
          ("callback_failure", PBool true); ("reason", PStr reason); ("detail", PStr detail) ]
        updated_at RT_failed (Some (ce_original_caller edge));
      mret tt
  end.

Definition latest_edge (edge : CallbackEdgeRecord) : M CallbackEdgeRecord :=
  of_bureau (λ b, default edge (edge_get_latest b (ce_edge_id edge))).

Definition update_edge (edge : CallbackEdgeRecord) : M CallbackEdgeRecord :=
  _ ← in_bureau (edge_append edge); mret edge.

Definition fail_callback_edge (edge : CallbackEdgeRecord) (reason detail updated_at : string)
    (state : CallbackEdgeState) : M CallbackEdgeRecord :=
  latest ← latest_edge edge;
  if terminal_callback_state (ce_state latest) then mret latest
  else
    let status := if truthy (ce_child_status latest) then ce_child_status latest
                  else Some (edge_state_value state) in
    failed ← update_edge (edge_with_state state (ce_child_reply_id latest) status
      (ce_continuation_job_id latest) (ce_continuation_message_id latest) updated_at
      (dset "failure_detail" (PStr detail)
         (dset "failure_reason" (PStr reason) (ce_diagnostics latest))) latest);
    _ ← record_callback_failure_notice failed reason detail updated_at;
    mret failed.

Definition mark_callback_done (job : JobRecord) (finished_at : string) : M unit :=
  raw ← st_lift (py_str_or_empty (dget "callback_edge_id" (me_route_options (jb_request job))));
  if strip raw =ˢ "" then mret tt
  else
    edge ← of_bureau (λ b, edge_get_latest b (strip raw));
    match edge with
    | None => mret tt
    | Some e =>
        if bool_decide (ce_state e ∈ [CE_done; CE_failed; CE_timed_out]) then mret tt
        else
          _ ← update_edge (edge_with_state CE_done (ce_child_reply_id e) (ce_child_status e)
            (ce_continuation_job_id e) (ce_continuation_message_id e) finished_at
            (ce_diagnostics e) e);
          mret tt
    end.

Definition mark_parent_message_waiting (edge : CallbackEdgeRecord) (updated_at : string) : M unit :=
  if bool_decide (ce_state edge ∈ [CE_failed; CE_timed_out; CE_done]) then mret tt
  else in_bureau (set_message_state (ce_parent_message_id edge) MSt_running updated_at).

(** [replace(job, ...)] in the operations of the dispatcher. *)
Definition job_with (status : JobStatus) (terminal : option pydict) (cancel_at : option string)
    (updated_at : string) (job : JobRecord) : JobRecord :=
  mkJob (jb_job_id job) (jb_submission_id job) (jb_agent_name job) (jb_provider job) (jb_request job)
    status terminal cancel_at (jb_created_at job) updated_at (jb_workspace_path job)
    (jb_target_kind job) (jb_target_name job) (jb_provider_instance job) (jb_provider_options job).
Definition with_terminal (terminal : pydict) (job : JobRecord) : JobRecord :=
  job_with (jb_status job) (Some terminal) (jb_cancel_requested_at job) (jb_updated_at job) job.

Definition delegated_terminal_job (job : JobRecord) (edge : CallbackEdgeRecord) : result JobRecord :=
  let terminal := default [] (jb_terminal_decision job) in
  make_job (with_terminal
    (dset "callback_child_job_id" (PStr (ce_child_job_id edge))
       (dset "callback_edge_id" (PStr (ce_edge_id edge))
          (dset "suppress_reply" (PBool true) (dset "delegated" (PBool true) terminal)))) job).

Definition persist_delegated_terminal_job (job : JobRecord) (edge : CallbackEdgeRecord)
    (finished_at : string) : M JobRecord :=
  delegated ← st_lift (delegated_terminal_job job edge);
  _ ← append_job delegated;
  _ ← append_event delegated "job_delegated_callback"
    [ ("edge_id", PStr (ce_edge_id edge)); ("callback_child_job_id", PStr (ce_child_job_id edge));
      ("callback_target_agent", PStr (ce_callback_target_agent edge)) ] finished_at;
  mret delegated.

(** ** Continuations *)
Definition existing_continuation_job (edge : CallbackEdgeRecord) : M (option JobRecord) :=
  rows ← list_agent_jobs (ce_callback_target_agent edge);
  texts ← st_lift (mapM_result
    (λ j, s ← py_str_or_empty (dget "callback_edge_id" (me_route_options (jb_request j)));
          mret (strip s, j)) rows);
  mret (snd <$> find_last (λ p, p.1 =ˢ ce_edge_id edge) texts).

Definition latest_child_reply (b : bureau) (edge : CallbackEdgeRecord) : option ReplyRecord :=
  let by_message := find_last (λ r, negb (is_notice r)) (replies_of_message b (ce_child_message_id edge)) in
  if truthy (ce_child_reply_id edge)
  then match reply_latest b (default "" (ce_child_reply_id edge)) with
       | Some r => Some r
       | None => by_message
       end
  else by_message.

Definition job_for_reply (reply : option ReplyRecord) : M (option JobRecord) :=
  match reply with
  | None => mret None
  | Some r =>
      attempt ← of_bureau (λ b, attempt_latest b (rr_attempt_id r));
      match attempt with
      | None => mret None
      | Some a => get_job (at_job_id a)
      end
  end.

Definition continuation_request (edge : CallbackEdgeRecord) (child_job : JobRecord)
    (decision : CompletionDecision) : M MessageEnvelope :=
  body ← st_lift (continuation_body edge child_job decision);
  spilled ← in_texts (maybe_spill_text body "callback-continuation" (ce_edge_id edge)
    ("CCB callback continuation " +:+ ce_edge_id edge
     +:+ " is larger than 4 KiB and was stored as an artifact.")
    TEXT_ARTIFACT_SPILL_BYTES TEXT_ARTIFACT_TTL_S None);
  st_lift (envelope_post_init
    (mkEnvelope (me_project_id (jb_request child_job)) (ce_callback_target_agent edge)
       (ce_original_caller edge) spilled.1 (ce_original_task_id edge)
       (Some (ce_parent_message_id edge)) CALLBACK_CONTINUATION_MESSAGE_TYPE DS_single false
       [ ("mode", PStr "callback_continuation"); ("callback_edge_id", PStr (ce_edge_id edge));
         ("callback_parent_job_id", PStr (ce_parent_job_id edge));
         ("callback_child_job_id", PStr (ce_child_job_id edge));
         ("callback_child_message_id", PStr (ce_child_message_id edge)) ] spilled.2)).

Definition append_submission_job (submission_id : option string) (job_id updated_at : string) : M unit :=
  if negb (truthy submission_id) then mret tt
  else
    current ← st_gets (λ d, find_last (λ r, sb_submission_id r =ˢ default "" submission_id)
                              (dp_submissions d));
    match current with
    | None => mret tt
    | Some c =>
        let job_ids := if bool_decide (job_id ∈ sb_job_ids c) then sb_job_ids c
                       else sb_job_ids c ++ [job_id] in
        record ← st_lift (submission_post_init
          (mkSubmission (sb_submission_id c) (sb_project_id c) (sb_from_actor c) (sb_target_scope c)
             (sb_task_id c) job_ids (sb_created_at c) updated_at));
        st_modify (λ d, with_submissions (dp_submissions d ++ [record]) d)
    end.

Definition queued_event_type (status : JobStatus) : string :=
  if bool_decide (status = JS_accepted) then "job_accepted" else "job_queued".

(** A job that is new: its rows, its first event, its place in the queue. *)
Definition enqueue_new_job (job : JobRecord) (payload : pydict) (accepted_at : string) : M unit :=
  _ ← append_job job;
  _ ← append_event job (queued_event_type (jb_status job)) payload accepted_at;
  _ ← on_queues (enqueue_for (job_slot job) (jb_job_id job));
  sync_runtime (jb_agent_name job) None.

Definition pending_status (agent_name : string) : M JobStatus :=
  outstanding ← of_queues (has_outstanding_for (agent_slot agent_name));
  mret (if outstanding : bool then JS_queued else JS_accepted).

Definition submit_continuation_job (request : MessageEnvelope) (parent_message_id accepted_at : string)
    : M (string * string) :=
  let agent := me_to_agent request in
  _ ← st_lift (spec_for agent);
  _ ← validate_targets_available [agent];
  spec ← st_lift (spec_for agent);
  job_id ← draw_id "job";
  status ← pending_status agent;
  job ← st_lift (make_job
    (mkJob job_id None agent (as_provider spec) request status None None accepted_at accepted_at None
       TK_agent agent None []));
  _ ← enqueue_new_job job
        [("status", PStr (job_status_value status)); ("callback_continuation", PBool true)] accepted_at;
  _ ← in_bureau (record_retry_attempt parent_message_id job accepted_at);
  parent_message ← of_bureau (λ b, message_latest b parent_message_id);
  _ ← match parent_message with
      | Some m => append_submission_job (mr_submission_id m) (jb_job_id job) accepted_at
      | None => mret tt
      end;
  mret (jb_job_id job, parent_message_id).

Definition submit_callback_continuation (edge : CallbackEdgeRecord) (child_job : JobRecord)
    (child_reply_id : option string) (decision : CompletionDecision) (finished_at : string)
    : M CallbackEdgeRecord :=
  latest ← of_bureau (λ b, default edge (edge_for_child_job b (jb_job_id child_job)));
  if terminal_callback_state (ce_state latest) then mret latest
  else
    existing ← existing_continuation_job latest;
    let child_status := Some (job_status_value (jb_status child_job)) in
    match existing with
    | Some continuation =>
        persisted ← of_bureau (λ b, latest_child_reply b latest);
        let state := if terminal_job_status (jb_status continuation) then CE_done
                     else CE_continuation_submitted in
        let reply_id :=
          if truthy child_reply_id then child_reply_id
          else if truthy (ce_child_reply_id latest) then ce_child_reply_id latest
          else rr_reply_id <$> persisted in
        update_edge (edge_with_state state reply_id child_status (Some (jb_job_id continuation))
          (Some (ce_parent_message_id latest)) finished_at (ce_diagnostics latest) latest)
    | None =>
        updated ← update_edge (edge_with_state CE_child_completed child_reply_id child_status
          (ce_continuation_job_id latest) (ce_continuation_message_id latest) finished_at
          (ce_diagnostics latest) latest);
        submitted ← st_try
          (request ← continuation_request updated child_job decision;
           ids ← submit_continuation_job request (ce_parent_message_id updated) finished_at;
           mret (inl ids))
          (λ e, failed ← fail_callback_edge updated "callback_continuation_submit_failed"
                  (exn_text e) finished_at CE_failed;
                mret (inr failed));
        match submitted with
        | inr failed => mret failed
        | inl (job_id, message_id) =>
            final ← update_edge (edge_with_state CE_continuation_submitted (ce_child_reply_id updated)
              (ce_child_status updated) (Some job_id) (Some message_id) finished_at
              (ce_diagnostics updated) updated);
            _ ← append_event child_job "callback_continuation_submitted"
              [ ("edge_id", PStr (ce_edge_id final)); ("continuation_job_id", PStr job_id);
                ("continuation_message_id", PStr message_id);
                ("callback_target_agent", PStr (ce_callback_target_agent final)) ] finished_at;
            mret final
        end
    end.

(** ** Timeouts and repair *)
Fixpoint sweep_edges (now : string) (edges : list CallbackEdgeRecord) : M (list CallbackEdgeRecord) :=
  match edges with
  | [] => mret []
  | edge :: rest =>
      latest ← latest_edge edge;
      if terminal_callback_state (ce_state latest) || negb (callback_edge_expired latest now)
      then sweep_edges now rest
      else
        failed ← fail_callback_edge latest "callback_timeout"
          "callback child did not produce a continuation before timeout" now CE_timed_out;
        others ← sweep_edges now rest;
        mret (failed :: others)
  end.
Definition sweep_callback_timeouts : M (list CallbackEdgeRecord) :=
  edges ← of_bureau pending_callback_edges;
  match edges with
  | [] => mret []
  | _ => now ← clock_now; sweep_edges now edges
  end.

Definition repair_edge (edge : CallbackEdgeRecord) : M (option CallbackEdgeRecord) :=
  latest ← latest_edge edge;
  if terminal_callback_state (ce_state latest) then mret None
  else
    now ← clock_now;
    if callback_edge_expired latest now then mret None
    else if truthy (ce_continuation_job_id latest) then mret None
    else
      existing ← existing_continuation_job latest;
      reply ← of_bureau (λ b, latest_child_reply b latest);
      reply_job ← job_for_reply reply;
      match existing with
      | Some continuation =>
          let reply_id := if truthy (ce_child_reply_id latest) then ce_child_reply_id latest
                          else rr_reply_id <$> reply in
          let status := if truthy (ce_child_status latest) then ce_child_status latest
                        else (λ j, job_status_value (jb_status j)) <$> reply_job in
          repaired ← update_edge (edge_with_state CE_continuation_submitted reply_id status
            (Some (jb_job_id continuation)) (Some (ce_parent_message_id latest)) (ce_updated_at latest)
            (ce_diagnostics latest) latest);
          mret (Some repaired)
      | None =>
          child_job ← match reply_job with
                      | Some j => mret (Some j)
                      | None => get_job (ce_child_job_id latest)
                      end;
          decision ← st_lift (decision_from_reply reply child_job (ce_updated_at latest));
          match reply, child_job, decision with
          | Some r, Some child, Some x =>
              repaired ← submit_callback_continuation latest child (Some (rr_reply_id r)) x
                (str_or (Some (ce_updated_at latest)) (rr_finished_at r));
              mret (Some repaired)
          | _, _, _ => mret None
          end
      end.
Fixpoint repair_each (edges : list CallbackEdgeRecord) : M (list CallbackEdgeRecord) :=
  match edges with
  | [] => mret []
  | edge :: rest =>
      r ← repair_edge edge;
      others ← repair_each rest;
      mret (match r with Some e => e :: others | None => others end)
  end.
Definition repair_callback_edges : M (list CallbackEdgeRecord) :=
  expired ← sweep_callback_timeouts;
  edges ← of_bureau pending_callback_edges;
  repaired ← repair_each edges;
  mret (expired ++ repaired).
End callbacks.
