(* ===== verification/Submission.v ===== *)
(** * Submission

    [dispatcher_runtime/submission_models.py], [submission_recording.py] and
    [submission_service.py], the entry points of [lifecycle.py] and the
    receipts of [ccbd/api_models_runtime/receipts.py]: how a request becomes
    jobs in the queues and a message in the bureau, how a message is submitted
    again and how one attempt of it is retried. *)
From stdpp Require Import pretty.
From Stdlib Require Import QArith.
From S2P Require Import Prelude PyValue Names AgentModels CompletionModels ExecutionModels Tracker TextArtifacts JobModels.
From S2P Require Import MailboxModels MailboxKernel BureauModels Bureau RetryPolicy.
From S2P Require Import DispatcherState Dispatcher Callbacks.
Open Scope string_scope.
Open Scope list_scope.
Open Scope Z_scope.

(** ** Drafts, plans and receipts *)
Record JobDraft := mkDraft {
  dr_agent_name : string;
  dr_provider : string;
  dr_request : MessageEnvelope;
  dr_provider_options : pydict;
  dr_workspace_path : option string
}.
Record SubmissionPlan := mkPlan {
  pl_project_id : string;
  pl_from_actor : string;
  pl_request : MessageEnvelope;
  pl_task_id : option string;
  pl_drafts : list JobDraft;
  pl_submission_id : option string;
  pl_target_scope : option string;
  pl_origin_message_id : option string
}.
Record AcceptedJobReceipt := mkAccepted {
  ac_job_id : string;
  ac_agent_name : string;
  ac_status : JobStatus;
  ac_accepted_at : string
}.
Record SubmitReceipt := mkSubmit {
  su_accepted_at : string;
  su_jobs : list AcceptedJobReceipt;
  su_submission_id : option string
}.

Definition accepted_post_init (r : AcceptedJobReceipt) : result AcceptedJobReceipt :=
  _ ← raise_if (ac_job_id r =ˢ "") (ValueError "job_id cannot be empty");
  agent ← normalize_agent_name (ac_agent_name r);
  _ ← raise_if (negb (bool_decide (ac_status r ∈ [JS_accepted; JS_queued; JS_running])))
        (ValueError "accepted receipt status must be accepted, queued, or running");
  _ ← raise_if (ac_accepted_at r =ˢ "") (ValueError "accepted_at cannot be empty");
  mret (mkAccepted (ac_job_id r) agent (ac_status r) (ac_accepted_at r)).
Definition submit_post_init (r : SubmitReceipt) : result SubmitReceipt :=
  _ ← raise_if (su_accepted_at r =ˢ "") (ValueError "accepted_at cannot be empty");
  _ ← raise_if (match su_jobs r with [] => true | _ => false end) (ValueError "jobs cannot be empty");
  _ ← raise_if (is_none (su_submission_id r) && negb (length (su_jobs r) =? 1)%nat)
        (ValueError "single submit receipt requires exactly one job");
  mret r.

(** [MessageEnvelope(...)] with the [dict(...)] copies of options and artifact. *)
Definition envelope_for (source : MessageEnvelope) (to_agent from_actor body : string)
    (scope : DeliveryScope) : result MessageEnvelope :=
  envelope_post_init
    (mkEnvelope (me_project_id source) to_agent from_actor body (me_task_id source)
       (me_reply_to source) (me_message_type source) scope (me_silence_on_success source)
       (me_route_options source)
       (match me_body_artifact source with Some [] => None | x => x end)).
Definition message_for_agent (request : MessageEnvelope) (agent_name : string)
    : result MessageEnvelope :=
  envelope_for request agent_name (me_from_actor request) (me_body request) DS_single.

Section submission.
Context {E : Type} `{Services E} `{Clock} `{Uuids} `{DispatcherConfig} `{CompletionLib} `{TextLib}.
(** As in [Callbacks]; and the decoding of an artifact file. *)
Context (iso_plus : string → Q → result string) (decoded : list ascii → string).
Abbreviation M := (DM E).

(** ** Recording *)
Definition receipt_for_job (job : JobRecord) (status : JobStatus) (accepted_at : string)
    : result AcceptedJobReceipt :=
  accepted_post_init
    (mkAccepted (jb_job_id job) (target_or_agent (jb_target_name job) (jb_agent_name job)) status
       accepted_at).

Definition enqueue_submitted_job (job : JobRecord) (status : JobStatus) (accepted_at : string)
    : M AcceptedJobReceipt :=
  _ ← append_job job;
  _ ← append_event job (queued_event_type status) [("status", PStr (job_status_value status))]
        accepted_at;
  _ ← on_queues (enqueue_for (job_slot job) (jb_job_id job));
  _ ← sync_runtime (jb_agent_name job) None;
  st_lift (receipt_for_job job status accepted_at).

Definition build_job_record (draft : JobDraft) (job_id : string) (submission_id : option string)
    (accepted_at : string) : M (JobRecord * JobStatus) :=
  status ← pending_status (dr_agent_name draft);
  job ← st_lift (make_job
    (mkJob job_id submission_id (dr_agent_name draft) (dr_provider draft) (dr_request draft) status
       None None accepted_at accepted_at (dr_workspace_path draft) TK_agent (dr_agent_name draft) None
       (dr_provider_options draft)));
  mret (job, status).

(** One round of the loop of [_submit_plan]. *)
Definition submit_draft (submission_id : option string) (accepted_at : string) (draft : JobDraft)
    : M (AcceptedJobReceipt * JobRecord) :=
  job_id ← draw_id "job";
  built ← build_job_record draft job_id submission_id accepted_at;
  receipt ← enqueue_submitted_job built.1 built.2 accepted_at;
  mret (receipt, built.1).
Fixpoint submit_drafts (submission_id : option string) (accepted_at : string)
    (drafts : list JobDraft) : M (list (AcceptedJobReceipt * JobRecord)) :=
  match drafts with
  | [] => mret []
  | draft :: rest =>
      one ← submit_draft submission_id accepted_at draft;
      others ← submit_drafts submission_id accepted_at rest;
      mret (one :: others)
  end.

Definition submission_append (record : SubmissionRecord) : M unit :=
  record ← st_lift (submission_post_init record);
  st_modify (λ d, with_submissions (dp_submissions d ++ [record]) d).

Definition submit_plan (plan : SubmissionPlan) (accepted_at : string)
    : M (SubmitReceipt * option string) :=
  submitted ← submit_drafts (pl_submission_id plan) accepted_at (pl_drafts plan);
  let jobs := submitted.*2 in
  _ ← match pl_submission_id plan with
      | None => mret tt
      | Some id =>
          submission_append
            (mkSubmission id (pl_project_id plan) (pl_from_actor plan)
               (str_or (pl_target_scope plan) "all") (pl_task_id plan)
               (jb_job_id <$> jobs) accepted_at accepted_at)
      end;
  message_id ← in_bureau (record_submission (pl_request plan) jobs
                 (pl_submission_id plan) accepted_at (pl_origin_message_id plan));
  _ ← match message_id with
      | None => mret tt
      | Some id => register_callback_edge iso_plus (pl_request plan) jobs id accepted_at
      end;
  receipt ← st_lift (submit_post_init (mkSubmit accepted_at submitted.*1 (pl_submission_id plan)));
  mret (receipt, message_id).

(** ** Planning *)
Definition validate_request_body_artifact (request : MessageEnvelope) : M unit :=
  let oversize := should_spill_text (me_body request) TEXT_ARTIFACT_SPILL_BYTES in
  match me_body_artifact request with
  | None | Some [] =>
      if oversize
      then raise_dispatch "ask body exceeds 4 KiB and must be submitted with a CCB body artifact"
      else mret tt
  | artifact =>
      if oversize
      then raise_dispatch "ask body stub exceeds 4 KiB even though a body artifact is present"
      else
        checked ← st_gets (λ d, validate_text_artifact_ref decoded artifact (dp_texts d));
        match checked with
        | Ok _ => mret tt
        | Err e => raise_dispatch ("invalid ask body artifact: " +:+ exn_text e)
        end
  end.

Fixpoint drafts_for_agents (request : MessageEnvelope) (targets : list string)
    : result (list JobDraft) :=
  match targets with
  | [] => mret []
  | agent_name :: rest =>
      spec ← spec_for agent_name;
      message ← message_for_agent request agent_name;
      others ← drafts_for_agents request rest;
      mret (mkDraft agent_name (as_provider spec) message [] None :: others)
  end.

Definition submission_id_for (scope : DeliveryScope) : M (option string) :=
  match scope with
  | DS_broadcast => id ← draw_id "sub"; mret (Some id)
  | DS_single => mret None
  end.

Definition plan_for (request : MessageEnvelope) (targets : list string)
    (origin_message_id : option string) : M SubmissionPlan :=
  submission_id ← submission_id_for (me_delivery_scope request);
  drafts ← st_lift (drafts_for_agents request targets);
  mret (mkPlan (me_project_id request) (me_from_actor request) request (me_task_id request) drafts
          submission_id ((λ _, "all") <$> submission_id) origin_message_id).

Definition plan_agent_submission (request : MessageEnvelope) : M SubmissionPlan :=
  _ ← st_lift (validate_sender (me_from_actor request));
  _ ← validate_request_body_artifact request;
  _ ← validate_callback_request request;
  targets ← resolve_targets request;
  _ ← st_lift (raise_if (bool_decide (targets = []))
         (DispatchError "no eligible target agents are alive for this request"));
  _ ← validate_targets_available targets;
  plan_for request targets None.

Definition submit_jobs (request : MessageEnvelope) : M SubmitReceipt :=
  accepted_at ← clock_now;
  plan ← plan_agent_submission request;
  submitted ← submit_plan plan accepted_at;
  mret submitted.1.

(** ** Attempts by agent *)

(** [key(record) > key(current)] on (retry index, updated at, attempt id). *)
Definition attempt_newer (record current : AttemptRecord) : bool :=
  (at_retry_index current <? at_retry_index record)
  || (at_retry_index current =? at_retry_index record)
     && (str_gtb (at_updated_at record) (at_updated_at current)
         || (at_updated_at record =ˢ at_updated_at current)
            && str_gtb (at_attempt_id record) (at_attempt_id current)).
Definition latest_by_agent_step (acc : gmap string AttemptRecord) (record : AttemptRecord)
    : gmap string AttemptRecord :=
  match acc !! at_agent_name record with
  | Some current => if attempt_newer record current then <[at_agent_name record := record]> acc else acc
  | None => <[at_agent_name record := record]> acc
  end.
Definition latest_attempts_by_agent (b : bureau) (message_id : string) : gmap string AttemptRecord :=
  foldl latest_by_agent_step ∅ (latest_attempts_for_message b message_id).

Definition resolve_retry_attempt (target : string) : M AttemptRecord :=
  b ← of_bureau (λ b, b);
  match attempt_latest b target with
  | Some a => mret a
  | None => match attempt_latest_by_job b target with
            | Some a => mret a
            | None => raise_dispatch ("retry target not found: " +:+ target)
            end
  end.

(** ** Resubmission *)
Definition require_attempt_lineage (message_id : string) (target_agents : list string)
    : M (gmap string AttemptRecord) :=
  latest ← of_bureau (λ b, latest_attempts_by_agent b message_id);
  _ ← st_lift (raise_if (bool_decide (latest = ∅))
         (DispatchError ("message has no attempts to resubmit: " +:+ message_id)));
  let missing := List.filter (λ a, is_none (latest !! a)) target_agents in
  _ ← st_lift (raise_if (negb (bool_decide (missing = [])))
         (DispatchError ("message is missing attempt lineage for agents: " +:+ join ", " missing)));
  mret latest.

Definition ensure_no_active_attempts (latest : gmap string AttemptRecord) : result unit :=
  let active := sorted_strings
    (fst <$> List.filter (λ p, negb (terminal_attempt_state (at_attempt_state p.2))) (map_to_list latest)) in
  raise_if (negb (bool_decide (active = [])))
    (DispatchError ("message still has active attempts: " +:+ join ", " active)).

Fixpoint jobs_for_resubmission (latest : gmap string AttemptRecord) (target_agents : list string)
    : M (list JobRecord) :=
  match target_agents with
  | [] => mret []
  | agent_name :: rest =>
      _ ← st_lift (spec_for agent_name);
      attempt ← match latest !! agent_name with
                | Some a => mret a
                | None => st_raise (KeyError agent_name)
                end;
      job ← get_latest_job agent_name (at_job_id attempt);
      match job with
      | None => raise_dispatch ("job not found for attempt: " +:+ at_attempt_id attempt)
      | Some j => others ← jobs_for_resubmission latest rest; mret (j :: others)
      end
  end.

Definition resubmission_request (message : MessageRecord) (jobs : list JobRecord)
    : result MessageEnvelope :=
  match jobs, mr_target_agents message with
  | job :: _, target :: rest =>
      let scope := match rest with [] => DS_single | _ => DS_broadcast end in
      envelope_for (jb_request job)
        (match scope with DS_broadcast => "all" | DS_single => target end)
        (mr_from_actor message) (me_body (jb_request job)) scope
  | _, _ => Err (RuntimeError "IndexError")
  end.

Definition plan_message_resubmission (message_id : string) : M SubmissionPlan :=
  original ← of_bureau (λ b, message_latest b message_id);
  match original with
  | None => raise_dispatch ("message not found: " +:+ message_id)
  | Some message =>
      let targets := mr_target_agents message in
      latest ← require_attempt_lineage message_id targets;
      _ ← st_lift (ensure_no_active_attempts latest);
      jobs ← jobs_for_resubmission latest targets;
      request ← st_lift (resubmission_request message jobs);
      _ ← st_lift (validate_sender (me_from_actor request));
      _ ← validate_request_body_artifact request;
      _ ← validate_targets_available targets;
      plan_for request targets (Some message_id)
  end.

(** What [resubmit] and [retry] return. *)
Record ResubmitReceipt := mkResubmit {
  rs_accepted_at : string;
  rs_original_message_id : string;
  rs_message_id : option string;
  rs_submission_id : option string;
  rs_jobs : list AcceptedJobReceipt
}.
Definition resubmit_message (message_id : string) : M ResubmitReceipt :=
  accepted_at ← clock_now;
  plan ← plan_message_resubmission message_id;
  submitted ← submit_plan plan accepted_at;
  mret (mkResubmit accepted_at message_id submitted.2 (su_submission_id submitted.1)
          (su_jobs submitted.1)).

(** ** Retry *)
Definition should_retry_with_continue (job : JobRecord) : result bool :=
  if lower (strip (me_message_type (jb_request job))) ≠ˢ "ask" then mret false
  else
    mode ← lowered_text (dget "retry_delivery_mode" (jb_provider_options job));
    if mode =ˢ "continue" then mret true
    else
      let terminal := default [] (jb_terminal_decision job) in
      mret (py_bool (dget "anchor_seen" terminal) || py_bool (dget "reply_started" terminal)).

Definition retry_request_for_job (job : JobRecord) : result MessageEnvelope :=
  continue ← should_retry_with_continue job;
  if negb continue then mret (jb_request job)
  else
    let r := jb_request job in
    envelope_for r (me_to_agent r) (me_from_actor r) "continue" (me_delivery_scope r).

Definition retry_provider_options_for_job (job : JobRecord) : result pydict :=
  continue ← should_retry_with_continue job;
  let options :=
    if continue : bool
    then dset "retry_delivery_mode" (PStr "continue") (jb_provider_options job)
    else dpop "retry_delivery_mode" (jb_provider_options job) in
  mret (dset "retry_source_job_id" (PStr (jb_job_id job)) options).

Record RetryReceipt := mkRetry {
  rt_accepted_at : string;
  rt_target : string;
  rt_message_id : string;
  rt_original_attempt_id : string;
  rt_attempt_id : string;
  rt_job_id : string;
  rt_agent_name : string;
  rt_status : JobStatus
}.

(** The checks of [retry_attempt]: the attempt, its message and its job. *)
Definition retry_source (target : string) : M (AttemptRecord * MessageRecord * JobRecord) :=
  original ← resolve_retry_attempt target;
  let agent := at_agent_name original in
  _ ← st_lift (raise_if (negb (terminal_attempt_state (at_attempt_state original)))
         (DispatchError ("attempt is still active: " +:+ at_attempt_id original)));
  _ ← st_lift (raise_if (bool_decide (at_attempt_state original = AS_completed))
         (DispatchError ("retry is not allowed for completed attempts: " +:+ at_attempt_id original)));
  latest ← of_bureau (λ b, latest_attempts_by_agent b (at_message_id original));
  _ ← st_lift (match latest !! agent with
         | None => Err (DispatchError ("message is missing attempt lineage for agent: " +:+ agent))
         | Some a => raise_if (at_attempt_id a ≠ˢ at_attempt_id original)
                       (DispatchError ("retry requires latest attempt for agent: " +:+ agent))
         end);
  message ← of_bureau (λ b, message_latest b (at_message_id original));
  match message with
  | None => raise_dispatch ("message not found for attempt: " +:+ at_attempt_id original)
  | Some m =>
      _ ← st_lift (spec_for agent);
      _ ← validate_targets_available [agent];
      job ← get_latest_job agent (at_job_id original);
      match job with
      | None => raise_dispatch ("job not found for attempt: " +:+ at_attempt_id original)
      | Some j => mret (original, m, j)
      end
  end.

Definition retry_attempt (target : string) : M RetryReceipt :=
  accepted_at ← clock_now;
  source ← retry_source target;
  let '(original, message, job) := source in
  request ← st_lift (retry_request_for_job job);
  options ← st_lift (retry_provider_options_for_job job);
  job_id ← draw_id "job";
  built ← build_job_record
    (mkDraft (target_or_agent (jb_target_name job) (jb_agent_name job)) (jb_provider job) request
       options (jb_workspace_path job))
    job_id (mr_submission_id message) accepted_at;
  receipt ← enqueue_submitted_job built.1 built.2 accepted_at;
  attempt_id ← in_bureau (record_retry_attempt (at_message_id original) built.1
                            accepted_at);
  _ ← append_submission_job (mr_submission_id message) (jb_job_id built.1) accepted_at;
  mret (mkRetry accepted_at target (at_message_id original) (at_attempt_id original) attempt_id
          (ac_job_id receipt) (ac_agent_name receipt) (ac_status receipt)).
End submission.
