(* ===== verification/ReplyDelivery.v ===== *)
(** * Delivery of replies

    [dispatcher_runtime/reply_delivery_runtime/*]: a reply that heads the
    mailbox of an agent is handed to it as a job of its own; when that job ends
    the mailbox event is consumed, or offered again.

    [repair_reply_delivery_heads] ends jobs with [dispatcher.complete], which in
    turn prepares deliveries: the operations that reach it take it as an
    argument here, [Finalization] closes the recursion. *)
From stdpp Require Import pretty.
From Stdlib Require Import QArith.
From S2P Require Import Prelude PyValue RuntimeValues Names AgentModels CompletionModels ExecutionModels Tracker TextArtifacts JobModels.
From S2P Require Import MailboxModels MailboxKernel BureauModels Bureau RetryPolicy.
From S2P Require Import DispatcherState Dispatcher Callbacks Submission.
Open Scope string_scope.
Open Scope list_scope.
Open Scope Z_scope.

Definition REPLY_DELIVERY_MESSAGE_TYPE : string := "reply_delivery".
Definition REPLY_DELIVERY_PROVIDER_OPTION : string := "reply_delivery".
Definition REPLY_DELIVERY_INBOUND_EVENT_OPTION : string := "reply_delivery_inbound_event_id".
Definition REPLY_DELIVERY_REPLY_ID_OPTION : string := "reply_delivery_reply_id".

Definition is_reply_delivery_job (job : JobRecord) : bool :=
  (lower (strip (me_message_type (jb_request job))) =ˢ REPLY_DELIVERY_MESSAGE_TYPE)
  || py_bool (dget REPLY_DELIVERY_PROVIDER_OPTION (jb_provider_options job)).

(** [str(options.get(key) or '').strip() or None]. *)
Definition stripped_option (key : string) (job : JobRecord) : result (option string) :=
  text ← py_str_or_empty (dget key (jb_provider_options job));
  mret (or_none (strip text)).
Definition reply_delivery_inbound_event_id : JobRecord → result (option string) :=
  stripped_option REPLY_DELIVERY_INBOUND_EVENT_OPTION.
Definition reply_delivery_reply_id : JobRecord → result (option string) :=
  stripped_option REPLY_DELIVERY_REPLY_ID_OPTION.

(** ** Decisions *)

(** [d.update(other)]. *)
Definition dupdate (other d : pydict) : pydict := foldl (λ d kv, dset kv.1 kv.2 d) d other.

Definition reply_delivery_completed_decision (job : JobRecord) (finished_at : string)
    (provider_turn_ref : option string) (diagnostics : pydict) : result CompletionDecision :=
  decision_post_init
    (mkDecision true CS_completed (Some "reply_delivery_sent") (Some CC_observed) "" true false true
       (Some (str_or provider_turn_ref (jb_job_id job))) None (Some finished_at)
       (dupdate diagnostics [("reply_delivery", PBool true); ("delivery_status", PStr "sent")])).
Definition reply_delivery_failed_decision (job : JobRecord) (finished_at reason : string)
    (diagnostics : pydict) : result CompletionDecision :=
  decision_post_init
    (mkDecision true CS_incomplete (Some reason) (Some CC_degraded) "" false false false
       (Some (jb_job_id job)) None (Some finished_at)
       (dupdate diagnostics [("reply_delivery", PBool true)])).

(** ** Formatting *)

(** [round] to an integer: halves go to the even neighbour. *)
Definition round_half_even (q : Q) : Z :=
  let doubled := 2 * Qnum q in
  let den := Zpos (Qden q) in
  let low := Qnum q / den in
  match doubled ?= (2 * low + 1) * den with
  | Lt => low
  | Gt => low + 1
  | Eq => if Z.even low then low else low + 1
  end.

Definition is_heartbeat_notice (reply : ReplyRecord) : result bool :=
  kind ← lowered_text (dget "notice_kind" (rr_diagnostics reply)); mret (kind =ˢ "heartbeat").

Definition task_id_of (job : JobRecord) : string := strip (default "" (me_task_id (jb_request job))).

Definition reply_header (reply : ReplyRecord) (source_job : option JobRecord) : list string :=
  ["CCB_REPLY"; "from=" +:+ rr_agent_name reply; "reply=" +:+ rr_reply_id reply;
   "status=" +:+ reply_status_value (rr_terminal_status reply)]
  ++ match source_job with
     | None => []
     | Some job =>
         ("job=" +:+ jb_job_id job)
         :: (if task_id_of job =ˢ "" then [] else ["task=" +:+ task_id_of job])
     end.

Section formatting.
(** [float(text)], [None] when it raises. *)
Context (float_of_text : string → option Q).

Definition py_float (v : pyval) : option Q :=
  match v with PStr s => float_of_text s | _ => py_number v end.
Definition format_silence_seconds (value : pyval) : result string :=
  match py_float value with
  | Some q => mret (pretty (round_half_even q) +:+ "s")
  | None => py_str value
  end.

Definition heartbeat_job_id (diagnostics : pydict) (source_job : option JobRecord) : result string :=
  text ← py_str_or_empty (dget "job_id" diagnostics);
  mret (str_or (Some (strip text)) (default "" (jb_job_id <$> source_job))).
Definition field_unless_empty (prefix text : string) : string :=
  if text =ˢ "" then "" else prefix +:+ text.
Definition heartbeat_header (reply : ReplyRecord) (source_job : option JobRecord) : result string :=
  let diagnostics := rr_diagnostics reply in
  job_id ← heartbeat_job_id diagnostics source_job;
  progress ← py_str_or_empty (dget "last_progress_at" diagnostics);
  silence ← match dget "heartbeat_silence_seconds" diagnostics with
            | PNone => mret ""
            | v => s ← format_silence_seconds v; mret (" silent_for=" +:+ s)
            end;
  mret ("CCB_NOTICE kind=heartbeat from=" +:+ rr_agent_name reply +:+ " reply=" +:+ rr_reply_id reply
        +:+ field_unless_empty " job=" job_id
        +:+ field_unless_empty " task=" (default "" (task_id_of <$> source_job))
        +:+ field_unless_empty " last_progress=" (strip progress) +:+ silence).

Definition format_heartbeat_delivery_body (reply : ReplyRecord) (source_job : option JobRecord)
    : result string :=
  header ← heartbeat_header reply source_job;
  mret (rstrip (join newline
          [header; ""; str_or (Some (strip (rr_reply reply))) "(empty notice)"])).

Definition format_reply (reply : ReplyRecord) (source_job : option JobRecord) : result string :=
  heartbeat ← is_heartbeat_notice reply;
  if heartbeat : bool then format_heartbeat_delivery_body reply source_job
  else mret (rstrip (join newline
               [join " " (reply_header reply source_job); "";
                str_or (Some (rr_reply reply)) "(empty reply)"])).
End formatting.

Section delivery.
Context {E : Type} `{Services E} `{Clock} `{Uuids} `{DispatcherConfig} `{CompletionLib} `{TextLib}.
Context (float_of_text : string → option Q).
Abbreviation M := (DM E).

Definition source_job_for_reply (reply : ReplyRecord) : M (option JobRecord) :=
  attempt ← of_bureau (λ b, attempt_latest b (rr_attempt_id reply));
  match attempt with
  | None => mret None
  | Some a => get_job (at_job_id a)
  end.
Definition format_reply_delivery_body (reply : ReplyRecord) : M string :=
  source_job ← source_job_for_reply reply;
  st_lift (format_reply float_of_text reply source_job).

(** ** The head of a mailbox *)
Definition head_reply_event (agent_name : string) : M (option InboundEventRecord) :=
  head ← in_mailbox (head_pending_event agent_name);
  mret (head ≫= λ e, if bool_decide (ie_event_type e = ET_task_reply) then Some e else None).
Definition head_reply_id (head : InboundEventRecord) : option string :=
  reply_id_from_payload (ie_payload_ref head).

Definition rewrite_reply_head (current : InboundEventRecord) (reply_id : string)
    (delivery_job_id : option string) (status : InboundEventStatus) (updated_at : string)
    (clear_progress : bool) : M unit :=
  payload ← st_lift (compose_reply_payload reply_id delivery_job_id);
  _ ← in_mailbox (rewrite_head (ie_agent_name current) (ie_inbound_event_id current) (Some payload)
        status (Some updated_at) clear_progress);
  mret tt.

Definition reset_stale_reply_head (head : InboundEventRecord) (reply_id agent_name : string)
    : M (option InboundEventRecord) :=
  now ← clock_now;
  _ ← rewrite_reply_head head reply_id None ES_queued now true;
  head_reply_event agent_name.

Definition project_id_for_agent (agent_name : string) : M (option string) :=
  runtime ← of_env (reg_get agent_name);
  match runtime ≫= λ rt, or_none (ar_project_id rt) with
  | Some p => mret (Some p)
  | None =>
      latest ← latest_for_agent agent_name;
      mret (latest ≫= λ j, or_none (me_project_id (jb_request j)))
  end.

(** ** The end of a delivery *)
Definition resolve_reply_delivery_terminal (job : JobRecord) (finished_at : string) : M unit :=
  if negb (is_reply_delivery_job job) then mret tt
  else
    inbound_event_id ← st_lift (reply_delivery_inbound_event_id job);
    reply_id ← st_lift (reply_delivery_reply_id job);
    match inbound_event_id, reply_id with
    | Some event_id, Some reply =>
        current ← in_mailbox (get_latest (jb_agent_name job) event_id);
        match current with
        | None => mret tt
        | Some c =>
            let payload := [("inbound_event_id", PStr event_id); ("reply_id", PStr reply)] in
            if bool_decide (jb_status job = JS_completed)
            then
              _ ← in_mailbox (consume (jb_agent_name job) event_id (Some finished_at));
              append_event job "reply_delivery_consumed" payload finished_at
            else
              _ ← rewrite_reply_head c reply None ES_queued finished_at true;
              append_event job "reply_delivery_requeued"
                (payload ++ [("terminal_status", PStr (job_status_value (jb_status job)))]) finished_at
        end
    | _, _ => mret tt
    end.

(** ** Preparation

    [None]: nothing to deliver, or a delivery that is under way. *)
Definition resolve_existing_delivery_job (agent_name : string) (head : InboundEventRecord)
    (reply_id : string) : M (option InboundEventRecord) :=
  match delivery_job_id_from_payload (ie_payload_ref head) with
  | None => mret (Some head)
  | Some delivery_job_id =>
      current ← get_job delivery_job_id;
      match current with
      | None => reset_stale_reply_head head reply_id agent_name
      | Some job =>
          match jb_status job with
          | JS_accepted | JS_queued | JS_running => mret None
          | JS_completed =>
              _ ← resolve_reply_delivery_terminal job (jb_updated_at job); mret None
          | JS_failed | JS_incomplete | JS_cancelled =>
              reset_stale_reply_head head reply_id agent_name
          end
      end
  end.

Definition resolve_workspace_path (agent_name : string) (runtime : option AgentRuntime)
    : result string :=
  match runtime ≫= λ rt, ar_workspace_path rt ≫= or_none with
  | Some p => mret p
  | None => cfg_workspace_path agent_name
  end.

Definition append_reply_delivery_message (reply : ReplyRecord) (agent_name accepted_at provider
    job_id : string) : M unit :=
  message_id ← draw_id "msg";
  attempt_id ← draw_id "att";
  _ ← in_bureau (message_append
    (mkMessage message_id (Some (rr_message_id reply)) "system" "single" [agent_name]
       REPLY_DELIVERY_MESSAGE_TYPE [("mode", PStr "none"); ("expected_reply_count", PInt 0)]
       [("mode", PStr "manual")] 10 (Some ("reply:" +:+ rr_reply_id reply)) None accepted_at
       accepted_at MSt_queued));
  in_bureau (attempt_append
    (mkAttempt attempt_id message_id agent_name provider job_id 0 None accepted_at accepted_at
       AS_pending)).

Definition reply_delivery_options (event_id reply_id : string) : pydict :=
  [ ("no_wrap", PBool true); (REPLY_DELIVERY_PROVIDER_OPTION, PBool true);
    (REPLY_DELIVERY_INBOUND_EVENT_OPTION, PStr event_id);
    (REPLY_DELIVERY_REPLY_ID_OPTION, PStr reply_id) ].

Definition build_reply_delivery_job (agent_name : string) (head : InboundEventRecord)
    (reply : ReplyRecord) (accepted_at project_id : string) : M JobRecord :=
  spec ← st_lift (spec_for agent_name);
  runtime ← of_env (reg_get agent_name);
  workspace_path ← st_lift (resolve_workspace_path agent_name runtime);
  body ← format_reply_delivery_body reply;
  request ← st_lift (envelope_post_init
    (mkEnvelope project_id agent_name "system" body (Some ("reply:" +:+ rr_reply_id reply)) None
       REPLY_DELIVERY_MESSAGE_TYPE DS_single false [] None));
  job_id ← draw_id "job";
  built ← build_job_record
    (mkDraft agent_name (as_provider spec) request
       (reply_delivery_options (ie_inbound_event_id head) (rr_reply_id reply)) (Some workspace_path))
    job_id None accepted_at;
  _ ← enqueue_submitted_job built.1 built.2 accepted_at;
  _ ← append_reply_delivery_message reply agent_name accepted_at (as_provider spec) job_id;
  _ ← rewrite_reply_head head (rr_reply_id reply) (Some job_id) ES_queued accepted_at true;
  _ ← append_event built.1 "reply_delivery_scheduled"
    [ ("inbound_event_id", PStr (ie_inbound_event_id head)); ("reply_id", PStr (rr_reply_id reply)) ]
    accepted_at;
  mret built.1.

Definition prepare_agent_reply_delivery (agent_name : string) : M (option JobRecord) :=
  head ← head_reply_event agent_name;
  match head, head ≫= head_reply_id with
  | Some h, Some reply_id =>
      head ← resolve_existing_delivery_job agent_name h reply_id;
      match head with
      | None => mret None
      | Some h =>
          reply ← of_bureau (λ b, reply_latest b reply_id);
          match reply with
          | None => mret None
          | Some r =>
              accepted_at ← clock_now;
              project_id ← project_id_for_agent agent_name;
              match project_id with
              | None => mret None
              | Some p =>
                  job ← build_reply_delivery_job agent_name h r accepted_at p; mret (Some job)
              end
          end
      end
  | _, _ => mret None
  end.

(** [f] on each agent of the configuration, the results that are not [None]. *)
Fixpoint for_agents {A} (f : string → M (option A)) (agents : list string) : M (list A) :=
  match agents with
  | [] => mret []
  | agent :: rest =>
      r ← f agent;
      others ← for_agents f rest;
      mret (match r with Some a => a :: others | None => others end)
  end.

(** ** Repair *)
Definition repair_orphaned_lease (head : InboundEventRecord) (reply_id agent_name : string)
    : M (option InboundEventRecord) :=
  lease ← in_mailbox (lease_load agent_name);
  match lease with
  | Some l =>
      if bool_decide (dl_inbound_event_id l = ie_inbound_event_id head)
      then reset_stale_reply_head head reply_id agent_name
      else mret None
  | None => mret None
  end.

Section repair.
Context (complete : string → CompletionDecision → M JobRecord).

Definition complete_stale (head : InboundEventRecord) (reply_id : string) (job : JobRecord)
    : M (option (InboundEventRecord + JobRecord)) :=
  now ← clock_now;
  decision ← st_lift (reply_delivery_failed_decision job now "reply_delivery_stale_running_repaired"
    [ ("repair_kind", PStr "stale_running_delivery_job");
      ("head_inbound_event_id", PStr (ie_inbound_event_id head)); ("reply_id", PStr reply_id) ]);
  j ← complete (jb_job_id job) decision;
  mret (Some (inr j)).

(** What an agent's head was repaired to: the head offered again, or the job
    that was ended. *)
Definition repair_agent_reply_delivery_head (agent_name : string)
    : M (option (InboundEventRecord + JobRecord)) :=
  head ← head_reply_event agent_name;
  match head, head ≫= head_reply_id with
  | Some h, Some reply_id =>
      match delivery_job_id_from_payload (ie_payload_ref h) with
      | None => r ← repair_orphaned_lease h reply_id agent_name; mret (inl <$> r)
      | Some delivery_job_id =>
          current ← get_job delivery_job_id;
          match current with
          | None => r ← reset_stale_reply_head h reply_id agent_name; mret (inl <$> r)
          | Some job =>
              if negb (bool_decide (jb_status job = JS_running)) then mret None
              else
                pending ← st_gets (λ d, ex_pending_decision (jb_job_id job) (dp_env d));
                live ← st_gets (λ d, ex_is_live (jb_job_id job) (dp_env d));
                match pending with
                | Some decision =>
                    if cd_terminal decision
                    then (j ← complete (jb_job_id job) decision; mret (Some (inr j)))
                    else if live : bool then mret None
                    else complete_stale h reply_id job
                | None => if live : bool then mret None else complete_stale h reply_id job
                end
          end
      end
  | _, _ => mret None
  end.

Definition repair_reply_delivery_heads : M (list (InboundEventRecord + JobRecord)) :=
  for_agents repair_agent_reply_delivery_head agent_names.

Definition prepare_reply_deliveries : M (list JobRecord) :=
  _ ← repair_reply_delivery_heads;
  for_agents prepare_agent_reply_delivery agent_names.

(** ** After the start of a delivery *)
Definition delivery_mode (submission : option ProviderSubmission) : result string :=
  mode ← rt_text_at "mode" (default [] (ps_runtime_state <$> submission)); mret (lower (strip mode)).

Definition complete_reply_delivery_after_start (job : JobRecord) (started_at : string)
    (submission : option ProviderSubmission) : M JobRecord :=
  mode ← st_lift (delivery_mode submission);
  match submission with
  | Some s =>
      let state := ps_runtime_state s in
      if bool_decide (mode ∈ ["error"; "passive"])
      then
        reason ← st_lift (rt_text (rt_or (rt_get "reason" state) (RStr (ps_reason s))));
        error ← st_lift (rt_text_at "error" state);
        decision ← st_lift (reply_delivery_failed_decision job started_at
          "reply_delivery_transport_unavailable"
          [ ("submission_mode", PStr (str_or (Some mode) "missing"));
            ("submission_reason", PStr reason); ("submission_error", PStr error) ]);
        complete (jb_job_id job) decision
      else if rt_bool (rt_get "reply_delivery_complete_on_dispatch" state) then mret job
      else
        anchor ← st_lift (rt_str (rt_or (rt_get "request_anchor" state)
                   (rt_or (rt_get "pane_id" state) (RStr (ps_job_id s)))));
        decision ← st_lift (reply_delivery_completed_decision job started_at
          (Some (str_or (Some (strip anchor)) (jb_job_id job)))
          [ ("submission_mode", PStr (str_or (Some mode) "active"));
            ("provider", PStr (ps_provider s)) ]);
        complete (jb_job_id job) decision
  | None =>
      decision ← st_lift (reply_delivery_failed_decision job started_at
        "reply_delivery_transport_unavailable"
        [("submission_mode", PStr (str_or (Some mode) "missing"))]);
      complete (jb_job_id job) decision
  end.
End repair.

(** ** Claims *)
Definition claimable_reply_delivery_job_ids (agent_name : string) : M (list string) :=
  head ← head_reply_event agent_name;
  match head ≫= λ h, delivery_job_id_from_payload (ie_payload_ref h) with
  | None => mret []
  | Some job_id =>
      current ← get_job job_id;
      mret (match current with
            | Some job => if pending_states (jb_status job) then [job_id] else []
            | None => []
            end)
  end.

Definition claim_reply_delivery_start (job : JobRecord) (started_at : string) : M bool :=
  if negb (is_reply_delivery_job job) then mret true
  else
    inbound_event_id ← st_lift (reply_delivery_inbound_event_id job);
    match inbound_event_id with
    | None => mret false
    | Some event_id =>
        head ← head_reply_event (jb_agent_name job);
        match head with
        | Some h =>
            if bool_decide (ie_inbound_event_id h = event_id)
            then
              claimed ← in_mailbox (claim (jb_agent_name job) event_id (Some started_at));
              mret (negb (is_none claimed))
            else mret false
        | None => mret false
        end
    end.
End delivery.
