(* ===== verification/Finalization.v ===== *)
(** * The end of a job

    [dispatcher_runtime/finalization_runtime/*]: the decision that ends a job
    is merged with what was observed, stored and written to the logs; the
    attempt ends in the bureau; a failure is retried, a reply is delivered or a
    callback is continued; and the replies at the heads of the mailboxes are
    handed on. *)
From stdpp Require Import pretty.
From Stdlib Require Import QArith.
From S2P Require Import Prelude PyValue Names AgentModels CompletionModels ExecutionModels Tracker TextArtifacts JobModels.
From S2P Require Import MailboxModels MailboxKernel BureauModels Bureau RetryPolicy.
From S2P Require Import DispatcherState Dispatcher Callbacks Submission ReplyDelivery.
Open Scope string_scope.
Open Scope list_scope.
Open Scope Z_scope.

(** [JobStatus(decision.status.value)]. *)
Definition job_status_of_decision (s : CompletionStatus) : JobStatus :=
  match s with
  | CS_completed => JS_completed | CS_cancelled => JS_cancelled
  | CS_failed => JS_failed | CS_incomplete => JS_incomplete
  end.
(** [_TERMINAL_EVENT_BY_STATUS]. *)
Definition terminal_event_by_status (s : JobStatus) : string :=
  match s with
  | JS_completed => "job_completed" | JS_cancelled => "job_cancelled"
  | JS_failed => "job_failed" | _ => "job_incomplete"
  end.

(** How many jobs the logs show as running. *)
Definition running_job (rows : list JobRecord) (job_id : string) : bool :=
  match find_last (λ j, jb_job_id j =ˢ job_id) rows with
  | Some j => bool_decide (jb_status j = JS_running)
  | None => false
  end.
Definition running_rows (rows : list JobRecord) : list string :=
  List.filter (running_job rows) (jb_job_id <$> rows).
Definition running_jobs {E} (d : dispatcher E) : gset (string * string) :=
  list_to_set (map_to_list (dp_jobs d) ≫= λ p, pair p.1 <$> running_rows p.2).

Section finalization.
Context {E : Type} `{Services E} `{Clock} `{Uuids} `{DispatcherConfig} `{CompletionLib} `{TextLib}.
Context (iso_plus : string → Q → result string) (known_mailboxes : gset string)
  (float_of_text : string → option Q).
Abbreviation M := (DM E).

(** ** Storing the decision *)
Definition spill_terminal_reply_if_needed (current : JobRecord) (decision : CompletionDecision)
    (finished_at : string) : M CompletionDecision :=
  match dget "reply_artifact" (cd_diagnostics decision) with
  | PDict _ => mret decision
  | _ =>
      spilled ← in_texts (maybe_spill_text (cd_reply decision) "completion-reply" (jb_job_id current)
        ("CCB completion reply for job " +:+ jb_job_id current
         +:+ " is larger than 4 KiB and was stored as an artifact.")
        TEXT_ARTIFACT_SPILL_BYTES TEXT_ARTIFACT_TTL_S (Some finished_at));
      match spilled.2 with
      | None => mret decision
      | Some artifact =>
          st_lift (with_reply_and_diagnostics decision spilled.1
                     (dset "reply_artifact" (PDict artifact) (cd_diagnostics decision)))
      end
  end.

(** [write_completion] with the state a decision ends in. *)
Definition write_terminal_snapshot (current : JobRecord) (decision : CompletionDecision)
    (prior_snapshot : option CompletionSnapshot) (finished_at : string) : M unit :=
  family ← st_lift (profile_family_for_job current);
  write_completion (jb_job_id current) (jb_agent_name current) family
    (build_terminal_state decision (sn_state <$> prior_snapshot)) decision (Some finished_at).

Definition persist_terminal_completion (current : JobRecord) (decision : CompletionDecision)
    (finished_at : string) : M (JobRecord * CompletionDecision * option CompletionSnapshot) :=
  prior_snapshot ← load_snapshot (jb_job_id current);
  tracked ← in_tracker (Tracker.current (jb_job_id current));
  merged ← st_lift (merge_terminal_decision decision tracked prior_snapshot);
  terminal_decision ← spill_terminal_reply_if_needed current merged finished_at;
  _ ← in_tracker (finish (jb_job_id current));
  _ ← write_terminal_snapshot current terminal_decision prior_snapshot finished_at;
  _ ← append_event current "completion_terminal" (decision_to_record terminal_decision) finished_at;
  terminal ← st_lift (make_job
    (job_with (job_status_of_decision (cd_status terminal_decision))
       (Some (decision_to_record terminal_decision)) (jb_cancel_requested_at current) finished_at
       current));
  _ ← append_job terminal;
  _ ← append_event terminal (terminal_event_by_status (jb_status terminal))
        [("status", PStr (job_status_value (jb_status terminal)))] finished_at;
  _ ← on_queues (clear_active_for (job_slot current) (Some (jb_job_id current)));
  _ ← in_env (ex_finish (jb_job_id current));
  _ ← sync_runtime (jb_agent_name current) (Some AG_idle);
  mret (terminal, terminal_decision, prior_snapshot).

(** ** Retries *)
Definition retry_event_payload (c : RetryableFailureContext) : pydict :=
  [ ("message_id", PStr (rc_message_id c)); ("attempt_id", PStr (rc_attempt_id c));
    ("attempt_number", PInt (rc_attempt_number c)); ("max_attempts", PInt (rc_max_attempts c));
    ("reason", PStr (rc_reason c)) ].
Definition append_retry_scheduled_event (terminal : JobRecord) (c : RetryableFailureContext)
    (r : RetryReceipt) (finished_at : string) : M unit :=
  append_event terminal "job_retry_scheduled"
    [ ("message_id", PStr (rt_message_id r));
      ("original_attempt_id", PStr (rt_original_attempt_id r));
      ("attempt_id", PStr (rt_attempt_id r)); ("job_id", PStr (rt_job_id r));
      ("agent_name", PStr (rt_agent_name r)); ("attempt_number", PInt (rc_attempt_number c + 1));
      ("max_attempts", PInt (rc_max_attempts c)); ("reason", PStr (rc_reason c)) ]
    (str_or (Some (rt_accepted_at r)) finished_at).
Definition append_nonretryable_failure_event (terminal : JobRecord) (decision : CompletionDecision)
    (kind finished_at : string) : M unit :=
  error_code ← st_lift (py_str_or_empty (dget "error_code" (cd_diagnostics decision)));
  append_event terminal "job_retry_skipped_nonretryable"
    [ ("reason", PStr (str_or (Some (reason_text decision)) "api_error"));
      ("classification", PStr kind); ("error_code", of_opt_str (or_none (strip error_code))) ]
    finished_at.

(** Scheduled; or the decision to reply with, when it is another one. *)
Inductive retry_outcome :=
  | RetryScheduled
  | NoRetry (reply_decision : option CompletionDecision).

Definition schedule_automatic_retry (current terminal : JobRecord) (decision : CompletionDecision)
    (finished_at : string) : M retry_outcome :=
  plan ← of_bureau (λ b, automatic_retry_plan cfg_supports_resume b current decision);
  auto_retry ← st_lift plan;
  match auto_retry with
  | None => mret (NoRetry None)
  | Some c =>
      retried ← st_try (r ← retry_attempt (jb_job_id current); mret (inl r)) (λ e, mret (inr e));
      match retried with
      | inl r => _ ← append_retry_scheduled_event terminal c r finished_at; mret RetryScheduled
      | inr e =>
          reply_decision ← st_lift (with_retry_failure_reply decision terminal (rc_attempt_number c)
                             (rc_max_attempts c) (Some (exn_text e)));
          _ ← append_event terminal "job_retry_failed"
                (retry_event_payload c ++ [("error", PStr (exn_text e))]) finished_at;
          mret (NoRetry (Some reply_decision))
      end
  end.

Definition reply_decision_without_automatic_retry (current terminal : JobRecord)
    (decision : CompletionDecision) (finished_at : string) : M (option CompletionDecision) :=
  context ← of_bureau (λ b, retryable_failure_context cfg_supports_resume b current decision);
  retryable_failure ← st_lift context;
  match retryable_failure with
  | Some c =>
      reply_decision ← st_lift (with_retry_failure_reply decision terminal (rc_attempt_number c)
                         (rc_max_attempts c) None);
      _ ← append_event terminal "job_retry_exhausted" (retry_event_payload c) finished_at;
      mret (Some reply_decision)
  | None =>
      if should_render_timeout_inspection_reply decision
      then reply_decision ← st_lift (with_timeout_inspection_reply decision terminal);
           mret (Some reply_decision)
      else
        kind ← st_lift (nonretryable_api_failure_kind decision);
        match kind with
        | None => mret None
        | Some k =>
            reply_decision ← st_lift (with_nonretryable_api_failure_reply decision terminal);
            _ ← append_nonretryable_failure_event terminal decision k finished_at;
            mret (Some reply_decision)
        end
  end.

(** ** The bureau *)
Definition persist_reply_decision (current terminal : JobRecord) (reply_decision : CompletionDecision)
    (prior_snapshot : option CompletionSnapshot) (finished_at : string) : M JobRecord :=
  terminal ← st_lift (make_job (with_terminal (decision_to_record reply_decision) terminal));
  _ ← append_job terminal;
  _ ← write_terminal_snapshot current reply_decision prior_snapshot finished_at;
  mret terminal.

Definition job_with_unsilenced_reply (job : JobRecord) : result JobRecord :=
  let r := jb_request job in
  if negb (me_silence_on_success r) then mret job
  else
    request ← envelope_post_init
      (mkEnvelope (me_project_id r) (me_to_agent r) (me_from_actor r) (me_body r) (me_task_id r)
         (me_reply_to r) (me_message_type r) (me_delivery_scope r) false (me_route_options r)
         (me_body_artifact r));
    make_job (with_request request job).

Definition waiting_edge (edge : CallbackEdgeRecord) : bool :=
  negb (bool_decide (ce_state edge ∈ [CE_failed; CE_timed_out; CE_done])).

(** The reply of a job that is neither delegated nor retried. *)
Definition record_final_reply (terminal : JobRecord) (reply_decision : CompletionDecision)
    (finished_at : string) : M unit :=
  child_edge ← of_bureau (λ b, callback_child_edge b terminal);
  _ ← match child_edge with
      | Some edge =>
          unsilenced ← st_lift (job_with_unsilenced_reply terminal);
          reply_id ← in_bureau (record_reply known_mailboxes unsilenced reply_decision finished_at false);
          _ ← submit_callback_continuation known_mailboxes edge terminal reply_id reply_decision
                finished_at;
          mret tt
      | None =>
          _ ← in_bureau (record_reply known_mailboxes terminal reply_decision finished_at true); mret tt
      end;
  mark_callback_done terminal finished_at.

(** The terminal job as it is in the end, and whether a retry was scheduled. *)
Definition record_message_bureau_completion (current terminal : JobRecord)
    (decision : CompletionDecision) (finished_at : string)
    (prior_snapshot : option CompletionSnapshot) : M (JobRecord * bool) :=
  _ ← in_bureau (record_attempt_terminal terminal finished_at);
  if is_reply_delivery_job current then mret (terminal, false)
  else
    parent_edge ← of_bureau (λ b, delegated_parent_edge b terminal);
    match parent_edge ≫= λ e, if waiting_edge e then Some e else None with
    | Some edge =>
        delegated ← persist_delegated_terminal_job terminal edge finished_at;
        _ ← mark_parent_message_waiting edge finished_at;
        mret (delegated, false)
    | None =>
        outcome ← schedule_automatic_retry current terminal decision finished_at;
        match outcome with
        | RetryScheduled => mret (terminal, true)
        | NoRetry changed =>
            changed ← match changed with
                      | Some x => mret (Some x)
                      | None => reply_decision_without_automatic_retry current terminal decision
                                  finished_at
                      end;
            final ← match changed with
                    | None => mret (terminal, decision)
                    | Some x =>
                        spilled ← spill_terminal_reply_if_needed current x finished_at;
                        t ← persist_reply_decision current terminal spilled prior_snapshot finished_at;
                        mret (t, spilled)
                    end;
            _ ← record_final_reply final.1 final.2 finished_at;
            mret (final.1, false)
        end
    end.

(** ** [complete_job] *)

(** The part of [complete_job] after its early returns. *)
Definition complete_current (complete : string → CompletionDecision → M JobRecord)
    (current : JobRecord) (decision : CompletionDecision) : M JobRecord :=
  finished_at ← match cd_finished_at decision ≫= or_none with
                | Some t => mret t
                | None => clock_now
                end;
  persisted ← persist_terminal_completion current decision finished_at;
  let '(terminal, decision, prior_snapshot) := persisted in
  recorded ← record_message_bureau_completion current terminal decision finished_at prior_snapshot;
  let '(terminal, retry_scheduled) := recorded in
  _ ← resolve_reply_delivery_terminal terminal finished_at;
  if retry_scheduled : bool then mret terminal
  else _ ← prepare_reply_deliveries float_of_text complete; mret terminal.

Definition complete_body (complete : string → CompletionDecision → M JobRecord) (job_id : string)
    (decision : CompletionDecision) : M JobRecord :=
  if negb (cd_terminal decision)
  then raise_dispatch "complete requires a terminal completion decision"
  else
    current ← get_job job_id;
    match current with
    | None => raise_dispatch ("unknown job: " +:+ job_id)
    | Some current =>
        if terminal_job_status (jb_status current) then mret current
        else complete_current complete current decision
    end.

(** The recursion goes through [repair_reply_delivery_heads], which completes
    jobs that are running.  Each level ends one, so as many levels as jobs are
    running, and one more, are enough: [complete_terminates]. *)
Fixpoint complete_fuel (bottom : string → CompletionDecision → M JobRecord) (fuel : nat)
    : string → CompletionDecision → M JobRecord :=
  match fuel with
  | O => bottom
  | S fuel => complete_body (complete_fuel bottom fuel)
  end.
Definition recursion_error : string → CompletionDecision → M JobRecord :=
  λ _ _, st_raise (RuntimeError "maximum recursion depth exceeded").
Definition complete (job_id : string) (decision : CompletionDecision) : M JobRecord := λ d,
  complete_fuel recursion_error (S (S (size (running_jobs d)))) job_id decision d.
End finalization.
