(* ===== verification/Scheduling.v ===== *)
(** * Starting, polling, cancelling

    [dispatcher_runtime/lifecycle_start_runtime/*], [polling_service.py],
    [cancellation.py], [shutdown.py], [restore_runtime/execution.py], with
    [services/runtime_recovery_policy.py], and the operations of
    [services/dispatcher.py]: when the next job of an agent starts, what the
    updates of the execution service do to it, and the other ways it ends. *)
From stdpp Require Import pretty.
From Stdlib Require Import QArith.
From S2P Require Import Prelude PyValue Names AgentModels CompletionModels ExecutionModels Tracker TextArtifacts JobModels.
From S2P Require Import MailboxModels MailboxKernel BureauModels Bureau RetryPolicy.
From S2P Require Import DispatcherState Dispatcher Callbacks Submission ReplyDelivery Finalization.
Open Scope string_scope.
Open Scope list_scope.
Open Scope Z_scope.

(** ** Which agents may run *)
Definition HARD_BLOCKED_RUNTIME_HEALTHS : list string := ["session-missing"].
Definition RECOVERABLE_RUNTIME_HEALTHS : list string := ["pane-dead"; "pane-missing"].
Definition normalized_runtime_health (runtime : AgentRuntime) : string :=
  lower (strip (ar_health runtime)).
Definition RUNNABLE_AGENT_STATES : list AgentState := [AG_idle; AG_starting; AG_degraded].
Definition TEST_DOUBLE_PROVIDER_NAMES : list string :=
  ["fake"; "fake-codex"; "fake-claude"; "fake-gemini"; "fake-legacy"].

Inductive degraded_action := DA_blocked | DA_keep | DA_drop | DA_refresh.
Definition refresh_or_drop (a : degraded_action) : bool :=
  match a with DA_blocked | DA_drop => false | DA_keep | DA_refresh => true end.

(** The slot of an agent, with its runtime when it has one. *)
Record QueuedTargetSlot := mkSlot { qs_target_name : string; qs_runtime : option AgentRuntime }.

(** A job starts in a runtime that was found only when it is not stopped. *)
Definition stopped_or_failed (runtime : option AgentRuntime) : bool :=
  match runtime with
  | None => true
  | Some rt => bool_decide (ar_state rt ∈ [AG_stopped; AG_failed])
  end.
Definition runnable (runtime : AgentRuntime) : bool :=
  bool_decide (ar_state runtime ∈ RUNNABLE_AGENT_STATES).

(** [should_start_execution] of a dispatcher that requires an actionable
    runtime binding. *)
Definition should_start_execution (provider : string) (ctx : option ProviderRuntimeContext) : bool :=
  match ctx with
  | None => false
  | Some c =>
      bool_decide (lower (strip provider) ∈ TEST_DOUBLE_PROVIDER_NAMES)
      || bool_decide (lower (strip (default "" (px_backend_type c))) ∈ ["headless"; "pty-backed"])
      || contains ":" (strip (default "" (px_runtime_ref c)))
  end.

Definition restored (r : ExecutionRestoreResult) : bool :=
  bool_decide (er_status r ∈ ["restored"; "terminal_pending"; "replay_pending"]).

Record CancelReceipt := mkCancel { cl_job_id : string; cl_agent_name : string; cl_cancelled_at : string }.
Definition cancel_post_init (r : CancelReceipt) : result CancelReceipt :=
  _ ← raise_if (cl_job_id r =ˢ "") (ValueError "job_id cannot be empty");
  agent ← normalize_agent_name (cl_agent_name r);
  _ ← raise_if (cl_cancelled_at r =ˢ "") (ValueError "cancelled_at cannot be empty");
  mret (mkCancel (cl_job_id r) agent (cl_cancelled_at r)).

Section scheduling.
Context {E : Type} `{Services E} `{Clock} `{Uuids} `{DispatcherConfig} `{CompletionLib} `{TextLib}.
Context (iso_plus : string → Q → result string) (known_mailboxes : gset string)
  (float_of_text : string → option Q).
Abbreviation M := (DM E).
Abbreviation complete := (complete known_mailboxes float_of_text).

Definition provider_supports_resume (agent_name : string) : bool :=
  match spec_for agent_name with
  | Ok spec => cfg_supports_resume (as_provider spec)
  | Err _ => false
  end.
Definition can_attempt_runtime_recovery (runtime : AgentRuntime) : bool :=
  bool_decide (normalized_runtime_health runtime ∈ RECOVERABLE_RUNTIME_HEALTHS)
  && provider_supports_resume (ar_agent_name runtime).
Definition degraded_runtime_action (runtime : AgentRuntime) : degraded_action :=
  let health := normalized_runtime_health runtime in
  if bool_decide (health ∈ HARD_BLOCKED_RUNTIME_HEALTHS) then DA_blocked
  else if negb (bool_decide (health ∈ RECOVERABLE_RUNTIME_HEALTHS)) then DA_keep
  else if can_attempt_runtime_recovery runtime then DA_refresh else DA_drop.

(** [iter_runnable_agent_slots], at one agent. *)
Definition runnable_slot (agent_name : string) : M (option QueuedTargetSlot) :=
  active ← of_queues (active_job_for (agent_slot agent_name));
  depth ← of_queues (queue_depth_for (agent_slot agent_name));
  if negb (is_none active) || (depth =? 0)%nat then mret None
  else
    runtime ← of_env (reg_get agent_name);
    match runtime with
    | None => mret (Some (mkSlot agent_name None))
    | Some rt =>
        if stopped_or_failed runtime then mret (Some (mkSlot agent_name runtime))
        else if negb (runnable rt) then mret None
        else if bool_decide (ar_state rt = AG_degraded) && negb (refresh_or_drop (degraded_runtime_action rt))
        then mret None
        else mret (Some (mkSlot agent_name runtime))
    end.

Definition refreshed_slot (slot : QueuedTargetSlot) (refreshed : option AgentRuntime)
    : option QueuedTargetSlot :=
  match refreshed with
  | Some rt =>
      if negb (runnable rt) then None
      else if bool_decide (normalized_runtime_health rt ∈
                             HARD_BLOCKED_RUNTIME_HEALTHS ++ RECOVERABLE_RUNTIME_HEALTHS)
      then None
      else Some (mkSlot (qs_target_name slot) (Some rt))
  | None => None
  end.

Definition refresh_slot_runtime_for_start (slot : QueuedTargetSlot) : M (option QueuedTargetSlot) :=
  if stopped_or_failed (qs_runtime slot)
  then
    ensured ← st_try (in_env (rt_ensure_ready (qs_target_name slot)))
                (λ e, match e with
                      | AgentValidationError _ => mret None
                      | _ => st_raise e
                      end);
    mret match ensured with
         | Some rt => if runnable rt then Some (mkSlot (qs_target_name slot) ensured) else None
         | None => None
         end
  else match qs_runtime slot with
  | Some rt =>
      if negb (bool_decide (ar_state rt = AG_degraded)) then mret (Some slot)
      else match degraded_runtime_action rt with
           | DA_blocked | DA_drop => mret None
           | DA_keep => mret (Some slot)
           | DA_refresh =>
               refreshed ← st_try (in_env (rt_refresh_binding (ar_agent_name rt))) (λ _, mret None);
               mret (refreshed_slot slot refreshed)
           end
  | None => mret None
  end.

(** ** Starting a job *)

(** [CompletionTrackerService.start(job)]: the profile of the job's agent. *)
Definition start_tracker (job : JobRecord) (started_at : string) : M CompletionTrackerView :=
  spec ← match spec_lookup (jb_agent_name job) cfg_agents with
         | Some s => mret s
         | None => st_raise (KeyError (jb_agent_name job))
         end;
  manifest ← st_lift (cfg_manifest (as_provider spec) (as_runtime_mode spec));
  profile ← st_lift (build_completion_profile (as_provider spec) (as_runtime_mode spec) manifest);
  view ← in_tracker (start (jb_job_id job) (jb_agent_name job) (jb_provider job) profile started_at);
  match view with
  | Some v => mret v
  | None => st_raise (RuntimeError "'NoneType' object has no attribute 'state'")
  end.

Definition write_running_snapshot (running : JobRecord) (started_at : string) : M unit :=
  tracked ← start_tracker running started_at;
  family ← st_lift (profile_family_for_job running);
  write_completion (jb_job_id running) (jb_agent_name running) family (vw_state tracked)
    (vw_decision tracked) (Some started_at).

Definition start_running_job (current : JobRecord) (slot : QueuedTargetSlot)
    (started_at : option string) : M JobRecord :=
  started_at ← match started_at ≫= or_none with Some t => mret t | None => clock_now end;
  running ← st_lift (make_job
    (job_with JS_running (jb_terminal_decision current) (jb_cancel_requested_at current) started_at
       current));
  _ ← in_bureau (mark_attempt_started running started_at);
  _ ← append_job running;
  _ ← append_event running "job_started" [("status", PStr (job_status_value JS_running))] started_at;
  _ ← write_running_snapshot running started_at;
  let runtime_context := build_runtime_context (qs_runtime slot) in
  _ ← on_queues (mark_active_for (job_slot running) (jb_job_id running));
  _ ← sync_runtime (jb_agent_name running) (Some AG_busy);
  submission ← (if should_start_execution (jb_provider running) runtime_context
                then in_env (ex_start running runtime_context) else mret None);
  if is_reply_delivery_job running
  then complete_reply_delivery_after_start complete running started_at submission
  else mret running.

Definition remove_queued (agent_name job_id : string) : M unit :=
  on_queues (λ s, (remove_queued_for (agent_slot agent_name) job_id s).2).

(** The first candidate that starts. *)
Fixpoint claim_reply_delivery (slot : QueuedTargetSlot) (queued_ids candidates : list string)
    : M (option JobRecord) :=
  match candidates with
  | [] => mret None
  | candidate :: rest =>
      if negb (bool_decide (candidate ∈ queued_ids)) then claim_reply_delivery slot queued_ids rest
      else
        current ← get_job candidate;
        match current with
        | None =>
            _ ← remove_queued (qs_target_name slot) candidate;
            claim_reply_delivery slot queued_ids rest
        | Some job =>
            started_at ← clock_now;
            claimed ← claim_reply_delivery_start job started_at;
            if negb claimed then claim_reply_delivery slot queued_ids rest
            else
              _ ← remove_queued (qs_target_name slot) candidate;
              started ← start_running_job job slot (Some started_at);
              mret (Some started)
        end
  end.

Definition claim_request_job_id (slot : QueuedTargetSlot) (queued_ids : list string)
    : M (option string) :=
  candidates ← in_bureau (claimable_request_job_ids (qs_target_name slot));
  match List.filter (λ c, bool_decide (c ∈ queued_ids)) candidates with
  | [] => mret None
  | candidate :: _ => _ ← remove_queued (qs_target_name slot) candidate; mret (Some candidate)
  end.

Definition start_agent_mailbox_job (slot : QueuedTargetSlot) : M (option JobRecord) :=
  queued_ids ← of_queues (queued_items_for (agent_slot (qs_target_name slot)));
  candidates ← claimable_reply_delivery_job_ids (qs_target_name slot);
  delivered ← claim_reply_delivery slot queued_ids candidates;
  match delivered with
  | Some job => mret (Some job)
  | None =>
      job_id ← claim_request_job_id slot queued_ids;
      match job_id with
      | None => mret None
      | Some id =>
          current ← get_job id;
          match current with
          | None => mret None
          | Some job => started ← start_running_job job slot None; mret (Some started)
          end
      end
  end.

Definition start_next_queued_job (slot : QueuedTargetSlot) : M (option JobRecord) :=
  slot ← refresh_slot_runtime_for_start slot;
  match slot with
  | None => mret None
  | Some s => start_agent_mailbox_job s
  end.

Definition tick_agent (agent_name : string) : M (option JobRecord) :=
  slot ← runnable_slot agent_name;
  match slot with
  | None => mret None
  | Some s => start_next_queued_job s
  end.
Definition tick_jobs : M (list JobRecord) := for_agents tick_agent agent_names.

(** [JobDispatcher.tick], without the sweep of expired text artifacts. *)
Definition tick : M (list JobRecord) :=
  _ ← repair_callback_edges known_mailboxes;
  _ ← prepare_reply_deliveries float_of_text complete;
  tick_jobs.
End scheduling.
