(* ===== verification/Polling.v ===== *)
(** * Polling, cancelling, shutting down, restoring

    [dispatcher_runtime/polling_service.py], [cancellation.py], [shutdown.py]
    and [restore_runtime/execution.py]: the ways a job that was accepted ends. *)
From stdpp Require Import pretty.
From Stdlib Require Import QArith.
From S2P Require Import Prelude PyValue Names AgentModels CompletionModels ExecutionModels Tracker TextArtifacts JobModels.
From S2P Require Import MailboxModels MailboxKernel BureauModels Bureau RetryPolicy.
From S2P Require Import DispatcherState Dispatcher Callbacks Submission ReplyDelivery Finalization.
From S2P Require Import Scheduling.
Open Scope string_scope.
Open Scope list_scope.
Open Scope Z_scope.

Section polling.
Context {E : Type} `{Services E} `{Clock} `{Uuids} `{DispatcherConfig} `{CompletionLib} `{TextLib}.
Context (known_mailboxes : gset string) (float_of_text : string → option Q).
Abbreviation M := (DM E).
Abbreviation complete := (complete known_mailboxes float_of_text).

(** ** Polling *)
Definition ensure_tracked (current : JobRecord) : M unit :=
  tracked ← in_tracker (Tracker.current (jb_job_id current));
  match tracked with
  | Some _ => mret tt
  | None => _ ← start_tracker current (jb_updated_at current); mret tt
  end.

Fixpoint ingest_items (current : JobRecord) (job_id : string) (tracked : option CompletionTrackerView)
    (items : list CompletionItem) : M (option CompletionTrackerView) :=
  match items with
  | [] => mret tracked
  | item :: rest =>
      _ ← append_event current "completion_item" (item_to_record item) (it_timestamp item);
      _ ← in_env (ex_acknowledge_item job_id (cu_event_seq (it_cursor item)));
      view ← in_tracker (tracker_ingest job_id item);
      _ ← apply_tracker_view current view (Some (it_timestamp item));
      ingest_items current job_id (Some view) rest
  end.

Definition ingest_update_items (current : JobRecord) (update : ExecutionUpdate)
    : M (option CompletionTrackerView) :=
  known ← in_tracker (Tracker.current (up_job_id update));
  _ ← match known with
      | Some _ => mret tt
      | None => _ ← start_tracker current (jb_updated_at current); mret tt
      end;
  tracked ← ingest_items current (up_job_id update) None (up_items update);
  match tracked with
  | Some v => mret (Some v)
  | None => in_tracker (Tracker.current (up_job_id update))
  end.

Definition resolve_update_decision (update : ExecutionUpdate) (tracked : option CompletionTrackerView)
    : option CompletionDecision :=
  match up_decision update with
  | Some d => Some d
  | None => tracked ≫= λ v, if cd_terminal (vw_decision v) then Some (vw_decision v) else None
  end.

(** An update: the job it ended, with the id it came under. *)
Definition poll_update (update : ExecutionUpdate) : M (option (string * JobRecord)) :=
  current ← get_job (up_job_id update);
  match current with
  | Some job =>
      if terminal_job_status (jb_status job)
      then _ ← in_env (ex_finish (up_job_id update)); mret None
      else
        tracked ← ingest_update_items job update;
        match resolve_update_decision update tracked with
        | Some decision =>
            j ← complete (up_job_id update) decision; mret (Some (up_job_id update, j))
        | None => _ ← in_env (ex_acknowledge (up_job_id update)); mret None
        end
  | None => _ ← in_env (ex_finish (up_job_id update)); mret None
  end.
Fixpoint poll_updates (updates : list ExecutionUpdate) : M (list (string * JobRecord)) :=
  match updates with
  | [] => mret []
  | update :: rest =>
      r ← poll_update update;
      others ← poll_updates rest;
      mret (match r with Some c => c :: others | None => others end)
  end.

Fixpoint tick_views (completed : list (string * JobRecord)) (views : list CompletionTrackerView)
    : M (list (string * JobRecord)) :=
  match views with
  | [] => mret completed
  | tracked :: rest =>
      current ← get_job (vw_job_id tracked);
      match current with
      | Some job =>
          if terminal_job_status (jb_status job) || bool_decide (vw_job_id tracked ∈ completed.*1)
          then tick_views completed rest
          else
            _ ← apply_tracker_view job tracked None;
            if cd_terminal (vw_decision tracked)
            then (j ← complete (vw_job_id tracked) (vw_decision tracked);
                  tick_views (completed ++ [(vw_job_id tracked, j)]) rest)
            else tick_views completed rest
      | None => tick_views completed rest
      end
  end.

Definition poll_completion_updates : M (list JobRecord) :=
  updates ← in_env ex_poll;
  completed ← poll_updates updates;
  now ← clock_now;
  views ← in_tracker (tick_all now);
  completed ← tick_views completed views;
  mret completed.*2.

(** ** Cancelling *)

(** A decision that carries over what the last snapshot shows. *)
Definition decision_of_snapshot (status : CompletionStatus) (reason reply finished_at : string)
    (diagnostics : pydict) (snapshot : option CompletionSnapshot) (with_cursor : bool)
    : result CompletionDecision :=
  let state := sn_state <$> snapshot in
  decision_post_init
    (mkDecision true status (Some reason) (Some CC_degraded) reply
       (state_flag st_anchor_seen state) (state_flag st_reply_started state)
       (state_flag st_reply_stable state) (state_value st_provider_turn_ref state)
       (if with_cursor then state_value st_latest_cursor state else None)
       (Some finished_at) diagnostics).

Definition cancel_with_decision (current : JobRecord) (cancelled_at reply : string)
    (snapshot : option CompletionSnapshot) (record_reply_enabled : bool) : M CancelReceipt :=
  decision ← st_lift (decision_of_snapshot CS_cancelled "cancel_info" reply cancelled_at
               [("cancel_requested", PBool true)] snapshot true);
  decision ← spill_terminal_reply_if_needed current decision cancelled_at;
  _ ← in_tracker (finish (jb_job_id current));
  _ ← write_terminal_snapshot current decision snapshot cancelled_at;
  _ ← append_event current "completion_terminal" (decision_to_record decision) cancelled_at;
  terminal ← st_lift (make_job
    (job_with JS_cancelled (Some (decision_to_record decision)) (Some cancelled_at) cancelled_at
       current));
  _ ← append_job terminal;
  _ ← append_event terminal "job_cancelled" [("status", PStr (job_status_value JS_cancelled))]
        cancelled_at;
  _ ← sync_runtime (jb_agent_name current) (Some AG_idle);
  _ ← in_bureau (record_terminal known_mailboxes terminal decision cancelled_at true
                   record_reply_enabled);
  _ ← resolve_reply_delivery_terminal terminal cancelled_at;
  st_lift (cancel_post_init (mkCancel (jb_job_id terminal) (jb_agent_name terminal) cancelled_at)).

Definition cancel_job (job_id : string) (record_reply_enabled : bool) : M CancelReceipt :=
  current ← get_job job_id;
  match current with
  | None => raise_dispatch ("unknown job: " +:+ job_id)
  | Some current =>
      if bool_decide (jb_status current = JS_cancelled)
      then st_lift (cancel_post_init
             (mkCancel (jb_job_id current) (jb_agent_name current) (jb_updated_at current)))
      else if terminal_job_status (jb_status current)
      then raise_dispatch ("job is already terminal: " +:+ job_status_value (jb_status current))
      else
        cancelled_at ← clock_now;
        marked ← st_lift (make_job
          (job_with (jb_status current) (jb_terminal_decision current) (Some cancelled_at) cancelled_at
             current));
        _ ← append_job marked;
        _ ← append_event marked "job_cancel_requested"
              [("status", PStr (job_status_value (jb_status current)))] cancelled_at;
        _ ← on_queues (λ s, (remove_queued_for (job_slot current) job_id s).2);
        _ ← on_queues (clear_active_for (job_slot current) (Some job_id));
        _ ← in_env (ex_cancel job_id);
        snapshot ← load_snapshot job_id;
        cancel_with_decision marked cancelled_at
          (default "" ((λ s, cd_reply (sn_latest_decision s)) <$> snapshot)) snapshot
          record_reply_enabled
  end.

(** ** Shutting down *)
Definition SHUTDOWN_REPLY : string := "Project stopped before this request completed.".

Fixpoint all_rows (agents : list string) : M (list JobRecord) :=
  match agents with
  | [] => mret []
  | agent :: rest => rows ← list_agent_jobs agent; others ← all_rows rest; mret (rows ++ others)
  end.
Definition latest_nonterminal_job_ids : M (list string) :=
  rows ← all_rows agent_names;
  mret (jb_job_id <$>
          List.filter (λ j, negb (terminal_job_status (jb_status j))) (last_by jb_job_id rows)).

Definition terminate_job_for_shutdown (current : JobRecord) (shutdown_reason : string) (forced : bool)
    : M JobRecord :=
  finished_at ← clock_now;
  _ ← on_queues (λ s, (remove_queued_for (job_slot current) (jb_job_id current) s).2);
  _ ← on_queues (clear_active_for (job_slot current) (Some (jb_job_id current)));
  _ ← in_env (ex_cancel (jb_job_id current));
  snapshot ← load_snapshot (jb_job_id current);
  decision ← st_lift (decision_of_snapshot CS_incomplete "project_shutdown" SHUTDOWN_REPLY finished_at
    [ ("shutdown", PBool true); ("shutdown_reason", PStr shutdown_reason); ("forced", PBool forced) ]
    snapshot false);
  complete (jb_job_id current) decision.

Fixpoint terminate_each (shutdown_reason : string) (forced : bool) (job_ids : list string)
    : M (list JobRecord) :=
  match job_ids with
  | [] => mret []
  | job_id :: rest =>
      current ← get_job job_id;
      terminated ←
        match current with
        | None => mret None
        | Some job =>
            if terminal_job_status (jb_status job) then mret None
            else st_try (j ← terminate_job_for_shutdown job shutdown_reason forced; mret (Some j))
                   (λ _, mret None)
        end;
      others ← terminate_each shutdown_reason forced rest;
      mret (match terminated with Some j => j :: others | None => others end)
  end.
Definition terminate_nonterminal_jobs (shutdown_reason : string) (forced : bool) : M (list JobRecord) :=
  job_ids ← latest_nonterminal_job_ids;
  terminate_each shutdown_reason forced job_ids.

(** ** Restoring

    The jobs that were running when the daemon stopped.  [rebuild] marks active
    jobs in the order of the configuration, which is the order they are
    restored in. *)
Record RestoreEntry := mkEntry {
  re_job_id : string;
  re_agent_name : string;
  re_provider : string;
  re_status : string;
  re_reason : string;
  re_resume_capable : bool;
  re_pending_items_count : Z
}.
Definition restore_entry_post_init (e : RestoreEntry) : result RestoreEntry :=
  _ ← raise_if (strip (re_job_id e) =ˢ "") (ValueError "job_id cannot be empty");
  _ ← raise_if (strip (re_agent_name e) =ˢ "") (ValueError "agent_name cannot be empty");
  _ ← raise_if (strip (re_provider e) =ˢ "") (ValueError "provider cannot be empty");
  _ ← raise_if (strip (re_status e) =ˢ "") (ValueError "status cannot be empty");
  _ ← raise_if (strip (re_reason e) =ˢ "") (ValueError "reason cannot be empty");
  _ ← raise_if (re_pending_items_count e <? 0) (ValueError "pending_items_count cannot be negative");
  mret e.

Definition active_items (s : dispatcher_state) : list string :=
  omap (λ a, active_job_for (agent_slot a) s) agent_names.

Definition restore_entry (current : JobRecord) (r : ExecutionRestoreResult) : result RestoreEntry :=
  restore_entry_post_init
    (mkEntry (jb_job_id current) (jb_agent_name current) (jb_provider current) (er_status r)
       (er_reason r) (er_resume_capable r) (er_pending_items_count r)).

Definition complete_failed_restore (current : JobRecord) (r : ExecutionRestoreResult) : M JobRecord :=
  failed_at ← clock_now;
  let diagnostics := [ ("restore_status", PStr (er_status r)); ("restore_reason", PStr (er_reason r));
                       ("resume_capable", PBool (er_resume_capable r)) ] in
  _ ← append_event current "execution_restore_failed" diagnostics failed_at;
  decision ← st_lift (decision_post_init
    (mkDecision true CS_incomplete (Some "ccbd_restart_requires_resubmit") (Some CC_degraded) "" false
       false false None None (Some failed_at) diagnostics));
  complete (jb_job_id current) decision.

Definition restore_delivery (current : JobRecord) : M (JobRecord * RestoreEntry) :=
  now ← clock_now;
  decision ← st_lift (reply_delivery_failed_decision current now "reply_delivery_restart_requeued"
    [ ("restore_status", PStr "abandoned");
      ("restore_reason", PStr "reply_delivery_does_not_resume") ]);
  repaired ← complete (jb_job_id current) decision;
  entry ← st_lift (restore_entry_post_init
    (mkEntry (jb_job_id current) (jb_agent_name current) (jb_provider current) "abandoned"
       "reply_delivery_does_not_resume" false 0));
  mret (repaired, entry).

Definition restore_current_job (job_id : string) : M (option (JobRecord * RestoreEntry)) :=
  current ← get_job job_id;
  match current with
  | None => mret None
  | Some current =>
      if negb (bool_decide (jb_status current = JS_running)) then mret None
      else if is_reply_delivery_job current
      then r ← restore_delivery current; mret (Some r)
      else
        runtime ← of_env (reg_get (jb_agent_name current));
        r ← in_env (ex_restore current (build_runtime_context runtime));
        entry ← st_lift (restore_entry current r);
        result ←
          match (if er_status r =ˢ "terminal_pending" then er_decision r else None) with
          | Some decision =>
              _ ← ensure_tracked current;
              complete (jb_job_id current) decision
          | None =>
              if restored r
              then
                _ ← ensure_tracked current;
                _ ← sync_runtime (jb_agent_name current) (Some AG_busy);
                mret current
              else complete_failed_restore current r
          end;
        mret (Some (result, entry))
  end.
Fixpoint restore_each (job_ids : list string) : M (list (JobRecord * RestoreEntry)) :=
  match job_ids with
  | [] => mret []
  | job_id :: rest =>
      r ← restore_current_job job_id;
      others ← restore_each rest;
      mret (match r with Some x => x :: others | None => others end)
  end.
Definition restore_running_jobs : M (list (JobRecord * RestoreEntry)) :=
  _ ← clock_now;
  job_ids ← of_queues active_items;
  restore_each job_ids.
End polling.
