(* ===== verification/CommsRecover.v ===== *)
(** * Recovering a communication

    [dispatcher_runtime/comms_recover.py]: one command that looks at a job that
    came to nothing, or runs in a runtime that is gone, and cancels it, releases
    what it blocks and retries it, or hands its reply on again. *)
From stdpp Require Import pretty.
From Stdlib Require Import QArith.
From S2P Require Import Prelude PyValue Names AgentModels CompletionModels ExecutionModels Tracker TextArtifacts JobModels.
From S2P Require Import MailboxModels MailboxKernel BureauModels Bureau RetryPolicy.
From S2P Require Import DispatcherState Dispatcher Callbacks Submission ReplyDelivery Finalization Scheduling Polling.
Open Scope string_scope.
Open Scope list_scope.
Open Scope Z_scope.

Definition FAILED_TERMINAL_STATUSES : list JobStatus := [JS_cancelled; JS_failed; JS_incomplete].
Definition failed_terminal (j : JobRecord) : bool := bool_decide (jb_status j ∈ FAILED_TERMINAL_STATUSES).
Definition RECOVERABLE_RUNNING_STATES : list AgentState := [AG_degraded; AG_failed; AG_stopped].
Definition STALE_PANE_STATES : list string := ["dead"; "missing"; "lost"; "exited"].
Definition STALE_RUNTIME_HEALTHS : list string := RECOVERABLE_RUNTIME_HEALTHS ++ ["dead"; "failed"; "stopped"; "unhealthy"].
Definition RUNNING_RECOVERY_HINTS : list string :=
  ["provider_prompt_idle"; "provider_prompt_idle_stale"; "provider_prompt_input_stuck"; "job_running_stale"].

Record CommsRecoverTarget := mkRecoverTarget {
  ct_job_id : string; ct_reply_delivery_job_id : option string; ct_block_reason : option string
}.
Record CommsRecoverability := mkRecoverability {
  cy_recoverable : bool; cy_block_reason : option string; cy_target : option CommsRecoverTarget
}.
Definition not_recoverable : CommsRecoverability := mkRecoverability false None None.

Definition clean_running_hint_text (text : string) : option string :=
  if bool_decide (text ∈ RUNNING_RECOVERY_HINTS) then Some text else None.
Definition clean_running_hint (value : pyval) : result (option string) :=
  text ← py_str_or_empty value; mret (clean_running_hint_text (strip text)).
Definition clean_hint (value : option string) : option string := clean_running_hint_text (strip (default "" value)).
(** The payload is the id of the job, or says more. *)
Definition recover_target_from_payload (payload : string + pydict) : result CommsRecoverTarget :=
  target ← match payload with
    | inl text => mret (mkRecoverTarget (strip text) None None)
    | inr d =>
        job_id ← py_str_or_empty (py_or (dget "job_id" d) (py_or (dget "id" d) (dget "target" d)));
        delivery ← py_str_or_empty (dget "reply_delivery_job_id" d);
        hint ← clean_running_hint (dget "block_reason" d);
        mret (mkRecoverTarget (strip job_id) (or_none (strip delivery)) hint)
    end;
  _ ← raise_if (ct_job_id target =ˢ "") (ValueError "comms_recover requires job_id");
  mret target.

(** What a recovery did. [ca_noop_reason] is also set when a part failed after
    another one had its effect. *)
Record ReleasedEvent := mkReleased {
  re_agent_name : string; re_inbound_event_id : string; re_attempt_id : option string; re_status : InboundEventStatus
}.
Record CommsAudit := mkAudit {
  ca_job_id : string;
  ca_agent_name : string;
  ca_status : string;
  ca_block_reason : option string;
  ca_recoverable : bool;
  ca_cancelled_old : option CancelReceipt;
  ca_released_event : option ReleasedEvent;
  ca_retried_job : option (RetryReceipt + JobRecord);
  ca_next_started : list JobRecord;
  ca_noop_reason : option string;
  ca_latest_job_id : option string;
  ca_recoverability_after : option CommsRecoverability
}.
Definition audit_of (job : JobRecord) (r : CommsRecoverability) : CommsAudit :=
  mkAudit (jb_job_id job) (jb_agent_name job) "pending" (cy_block_reason r) (cy_recoverable r) None None None [] None None None.
Definition audit_noop (reason : string) (latest : option string) (a : CommsAudit) : CommsAudit :=
  mkAudit (ca_job_id a) (ca_agent_name a) (ca_status a) (ca_block_reason a) (ca_recoverable a) (ca_cancelled_old a)
    (ca_released_event a) (ca_retried_job a) (ca_next_started a) (Some reason) latest (ca_recoverability_after a).
Definition audit_status (status : string) (a : CommsAudit) : CommsAudit :=
  mkAudit (ca_job_id a) (ca_agent_name a) status (ca_block_reason a) (ca_recoverable a) (ca_cancelled_old a)
    (ca_released_event a) (ca_retried_job a) (ca_next_started a) (ca_noop_reason a) (ca_latest_job_id a) (ca_recoverability_after a).
Definition audit_block (reason : string) (a : CommsAudit) : CommsAudit :=
  mkAudit (ca_job_id a) (ca_agent_name a) (ca_status a) (Some reason) (ca_recoverable a) (ca_cancelled_old a)
    (ca_released_event a) (ca_retried_job a) (ca_next_started a) (ca_noop_reason a) (ca_latest_job_id a) (ca_recoverability_after a).
Definition audit_cancelled (c : CancelReceipt) (a : CommsAudit) : CommsAudit :=
  mkAudit (ca_job_id a) (ca_agent_name a) (ca_status a) (ca_block_reason a) (ca_recoverable a) (Some c)
    (ca_released_event a) (ca_retried_job a) (ca_next_started a) (ca_noop_reason a) (ca_latest_job_id a) (ca_recoverability_after a).
Definition audit_released (e : option ReleasedEvent) (a : CommsAudit) : CommsAudit :=
  mkAudit (ca_job_id a) (ca_agent_name a) (ca_status a) (ca_block_reason a) (ca_recoverable a) (ca_cancelled_old a)
    e (ca_retried_job a) (ca_next_started a) (ca_noop_reason a) (ca_latest_job_id a) (ca_recoverability_after a).
Definition audit_retried (r : option (RetryReceipt + JobRecord)) (a : CommsAudit) : CommsAudit :=
  mkAudit (ca_job_id a) (ca_agent_name a) (ca_status a) (ca_block_reason a) (ca_recoverable a) (ca_cancelled_old a)
    (ca_released_event a) r (ca_next_started a) (ca_noop_reason a) (ca_latest_job_id a) (ca_recoverability_after a).
Definition audit_started (l : list JobRecord) (a : CommsAudit) : CommsAudit :=
  mkAudit (ca_job_id a) (ca_agent_name a) (ca_status a) (ca_block_reason a) (ca_recoverable a) (ca_cancelled_old a)
    (ca_released_event a) (ca_retried_job a) l (ca_noop_reason a) (ca_latest_job_id a) (ca_recoverability_after a).
Definition audit_after (r : CommsRecoverability) (a : CommsAudit) : CommsAudit :=
  mkAudit (ca_job_id a) (ca_agent_name a) (ca_status a) (ca_block_reason a) (ca_recoverable a) (ca_cancelled_old a)
    (ca_released_event a) (ca_retried_job a) (ca_next_started a) (ca_noop_reason a) (ca_latest_job_id a) (Some r).
Definition is_set {A} (o : option A) : bool := match o with Some _ => true | None => false end.
Definition audit_changed (a : CommsAudit) : bool :=
  is_set (ca_cancelled_old a) || is_set (ca_released_event a) || is_set (ca_retried_job a) || negb (bool_decide (ca_next_started a = [])).

(** The attempt of a job, the latest of its message and agent, and the request in
    the mailbox. *)
Record Lineage := mkLineage {
  ln_attempt : AttemptRecord; ln_latest_attempt : option AttemptRecord; ln_inbound : option InboundEventRecord
}.
Definition latest_attempt_for_agent (b : bureau) (message_id agent_name : string) : option AttemptRecord :=
  last (List.filter (λ a, at_agent_name a =ˢ agent_name) (attempts_of_message b message_id)).
Definition is_latest_attempt (l : Lineage) : bool :=
  match ln_latest_attempt l with
  | None => false
  | Some latest => at_attempt_id latest =ˢ at_attempt_id (ln_attempt l)
  end.
Definition underscored (s : string) : string := string_map (λ c, if Ascii.eqb c "-" then "_"%char else c) s.

Section recover.
Context {E : Type} `{HServices : Services E} `{HClock : Clock} `{HUuids : Uuids} `{HConfig : DispatcherConfig} `{HLib : CompletionLib}
  `{HText : TextLib}.
Context (known_mailboxes : gset string) (float_of_text : string → option Q).
Abbreviation M := (DM E).
Abbreviation prepare := (prepare_reply_deliveries float_of_text (complete known_mailboxes float_of_text)).

Definition lineage_for_job (job : JobRecord) : M (option Lineage) :=
  attempt ← of_bureau (λ b, attempt_latest_by_job b (jb_job_id job));
  match attempt with
  | None => mret None
  | Some a =>
      latest ← of_bureau (λ b, latest_attempt_for_agent b (at_message_id a) (at_agent_name a));
      inbound ← in_mailbox (get_latest_for_attempt (at_agent_name a) (at_attempt_id a));
      mret (Some (mkLineage a latest inbound))
  end.
Definition can_retry_job (job : JobRecord) : M bool :=
  lineage ← lineage_for_job job;
  mret match lineage with
       | Some l => is_latest_attempt l && terminal_attempt_state (at_attempt_state (ln_attempt l)) &&
                   negb (bool_decide (at_attempt_state (ln_attempt l) = AS_completed))
       | None => false
       end.
Definition already_retried_job_id (job : JobRecord) : M (option string) :=
  lineage ← lineage_for_job job;
  mret match lineage with
       | Some (mkLineage a (Some latest) _) => if at_attempt_id latest =ˢ at_attempt_id a then None else Some (at_job_id latest)
       | _ => None
       end.
(** Why the runtime of a running job is taken to be gone. *)
Definition stale_runtime (rt : AgentRuntime) : option string :=
  let health := normalized_runtime_health rt in
  let pane_state := lower (strip (default "" (ar_pane_state rt))) in
  let stale := bool_decide (health ∈ STALE_RUNTIME_HEALTHS) in
  let unhealthy := str_or (Some (underscored health)) "runtime_unhealthy" in
  if bool_decide (ar_state rt ∈ RECOVERABLE_RUNNING_STATES) && stale then Some unhealthy
  else if bool_decide (ar_state rt = AG_stopped) then Some "runtime_stopped"
  else if bool_decide (ar_state rt = AG_failed) then Some "runtime_failed"
  else if bool_decide (pane_state ∈ STALE_PANE_STATES) then Some ("pane_" +:+ pane_state)
  else if stale then Some unhealthy
  else None.
Definition running_stale_reason (job : JobRecord) (running_hint : option string) : M (option string) :=
  match clean_hint running_hint with
  | Some hint => mret (Some hint)
  | None =>
      runtime ← of_env (reg_get (jb_agent_name job));
      mret match runtime with None => Some "runtime_missing" | Some rt => stale_runtime rt end
  end.
Definition comms_recoverability_for_job (job : JobRecord) (reply_delivery : option JobRecord) (running_hint : option string)
    : M CommsRecoverability :=
  delivery ← match reply_delivery with
             | Some r => if failed_terminal r then can_retry_job r else mret false
             | None => mret false
             end;
  match reply_delivery, delivery : bool with
  | Some r, true =>
      mret (mkRecoverability true (Some ("reply_delivery_" +:+ job_status_value (jb_status r)))
              (Some (mkRecoverTarget (jb_job_id job) (Some (jb_job_id r)) None)))
  | _, _ =>
      retriable ← (if failed_terminal job then can_retry_job job else mret false);
      if (retriable : bool)
      then mret (mkRecoverability true (Some ("job_" +:+ job_status_value (jb_status job)))
                   (Some (mkRecoverTarget (jb_job_id job) None None)))
      else if bool_decide (jb_status job = JS_running) then
        stale ← running_stale_reason job running_hint;
        mret match stale with
             | Some reason => mkRecoverability true (Some reason) (Some (mkRecoverTarget (jb_job_id job) None (Some reason)))
             | None => not_recoverable
             end
      else mret not_recoverable
  end.

(** ** The three recoveries *)
Definition already_retried (l : Lineage) (a : CommsAudit) : CommsAudit :=
  audit_noop "already_retried" (at_job_id <$> ln_latest_attempt l) a.
Definition overtaken (lineage : option Lineage) : option Lineage :=
  match lineage with Some l => if is_latest_attempt l then None else Some l | None => None end.
Definition release_lineage_head_if_blocking (job : JobRecord) : M (option ReleasedEvent) :=
  lineage ← lineage_for_job job;
  match lineage ≫= ln_inbound with
  | None => mret None
  | Some inbound =>
      if negb (bool_decide (ie_status inbound ∈ [ES_created; ES_queued; ES_delivering])) then mret None
      else if negb (bool_decide (ie_event_type inbound = ET_task_request)) then mret None
      else
        head ← in_mailbox (head_pending_event (ie_agent_name inbound));
        if negb (bool_decide (ie_inbound_event_id <$> head = Some (ie_inbound_event_id inbound))) then mret None
        else
          now ← clock_now;
          released ← in_mailbox (abandon (ie_agent_name inbound) (ie_inbound_event_id inbound) (Some now));
          mret ((λ e, mkReleased (ie_agent_name e) (ie_inbound_event_id e) (ie_attempt_id e) (ie_status e)) <$> released)
  end.
(** A retry, or the text of what kept it from happening. *)
Definition try_retry (target : string) (a : CommsAudit) : M CommsAudit :=
  st_try (receipt ← retry_attempt target; mret (audit_retried (Some (inl receipt)) a))
    (λ e, mret (audit_noop (exn_text e) (ca_latest_job_id a) a)).
Definition recover_terminal_retry (job : JobRecord) (a : CommsAudit) : M CommsAudit :=
  lineage ← lineage_for_job job;
  match overtaken lineage with
  | Some l => mret (already_retried l a)
  | None =>
      if bool_decide (jb_status job = JS_completed) then mret (audit_noop "already_completed" (ca_latest_job_id a) a)
      else
        released ← release_lineage_head_if_blocking job;
        try_retry (jb_job_id job) (audit_released released a)
  end.
Definition recover_stale_running (job : JobRecord) (a : CommsAudit) (running_hint : option string) : M CommsAudit :=
  stale ← running_stale_reason job running_hint;
  match stale with
  | None => mret (audit_noop "not_stale_running" (ca_latest_job_id a) a)
  | Some reason =>
      lineage ← lineage_for_job job;
      match overtaken lineage with
      | Some l => mret (already_retried l a)
      | None =>
          let a := audit_block reason a in
          cancelled ← st_try (receipt ← cancel_job known_mailboxes (jb_job_id job) false; mret (inr receipt)) (λ e, mret (inl e));
          match cancelled with
          | inl e => mret (audit_noop (exn_text e) (ca_latest_job_id a) a)
          | inr receipt => try_retry (jb_job_id job) (audit_cancelled receipt a)
          end
      end
  end.
Definition under_way (job : option JobRecord) : bool :=
  match job with Some j => bool_decide (jb_status j ∈ [JS_accepted; JS_queued; JS_running; JS_completed]) | None => false end.
Definition offer_reply_again (current : InboundEventRecord) (reply_id : string) (a : CommsAudit) : M CommsAudit :=
  now ← clock_now;
  _ ← rewrite_reply_head current reply_id None ES_queued now true;
  let a := audit_released (Some (mkReleased (ie_agent_name current) (ie_inbound_event_id current) (ie_attempt_id current) ES_queued)) a in
  created ← prepare;
  mret match created with j :: _ => audit_retried (Some (inr j)) a | [] => a end.
Definition recover_reply_delivery (job : option JobRecord) (a : CommsAudit) : M CommsAudit :=
  match job with
  | None => mret (audit_noop "reply_delivery_missing" (ca_latest_job_id a) a)
  | Some j =>
      if bool_decide (jb_status j = JS_completed) then mret (audit_noop "already_completed" (ca_latest_job_id a) a)
      else
        event ← st_lift (reply_delivery_inbound_event_id j);
        reply ← st_lift (reply_delivery_reply_id j);
        match event, reply with
        | Some event_id, Some reply_id =>
            current ← in_mailbox (get_latest (jb_agent_name j) event_id);
            match current with
            | None => mret (audit_noop "reply_event_missing" (ca_latest_job_id a) a)
            | Some c =>
                if bool_decide (ie_status c = ES_consumed) then mret (audit_noop "already_delivered" (ca_latest_job_id a) a)
                else
                  match delivery_job_id_from_payload (ie_payload_ref c) with
                  | Some other =>
                      if (other ≠ˢ "") && (other ≠ˢ jb_job_id j) then
                        latest ← get_job other;
                        if under_way latest then mret (audit_noop "already_retried" (Some other) a)
                        else offer_reply_again c reply_id a
                      else offer_reply_again c reply_id a
                  | None => offer_reply_again c reply_id a
                  end
            end
        | _, _ => mret (audit_noop "reply_delivery_metadata_missing" (ca_latest_job_id a) a)
        end
  end.

(** ** The command *)
Definition tick_after_recovery (a : CommsAudit) : M CommsAudit :=
  _ ← (if is_set (ca_retried_job a) then mret [] else prepare);
  started ← tick_jobs known_mailboxes float_of_text;
  mret (audit_started started a).
Definition job_or_none (job_id : option string) : M (option JobRecord) :=
  match job_id with Some i => if i =ˢ "" then mret None else get_job i | None => mret None end.
Definition retried_job_id (a : CommsAudit) : option string :=
  match ca_retried_job a with
  | Some (inl r) => Some (strip (rt_job_id r))
  | Some (inr j) => Some (strip (jb_job_id j))
  | None => None
  end.
Definition reply_delivery_after_recovery (a : CommsAudit) (original : option string) : M (option JobRecord) :=
  retried ← job_or_none (retried_job_id a);
  match retried with
  | Some j => if is_reply_delivery_job j then mret (Some j) else job_or_none original
  | None => job_or_none original
  end.
(** What there is to do about [source], done. *)
Definition recover_source (source : JobRecord) (reply_delivery : option JobRecord) (target : CommsRecoverTarget)
    (chosen : CommsRecoverTarget) (a : CommsAudit) : M CommsAudit :=
  if truthy (ct_reply_delivery_job_id chosen) then recover_reply_delivery reply_delivery a
  else if failed_terminal source then recover_terminal_retry source a
  else if bool_decide (jb_status source = JS_running) then recover_stale_running source a (ct_block_reason target)
  else mret (audit_noop "not_recoverable" (ca_latest_job_id a) a).
Definition finish_recovery (source : JobRecord) (target : CommsRecoverTarget) (a : CommsAudit) : M CommsAudit :=
  if truthy (ca_noop_reason a) && negb (audit_changed a) then mret (audit_status "noop" a)
  else
    a ← tick_after_recovery a;
    let a := audit_status (if audit_changed a then "recovered" else "noop") a in
    after ← get_job (jb_job_id source);
    delivery ← reply_delivery_after_recovery a (ct_reply_delivery_job_id target);
    rest ← comms_recoverability_for_job (default source after) delivery None;
    mret (audit_after rest a).
Definition comms_recover (payload : string + pydict) : M CommsAudit :=
  target ← st_lift (recover_target_from_payload payload);
  source ← get_job (ct_job_id target);
  match source with
  | None => raise_dispatch ("unknown comms job: " +:+ ct_job_id target)
  | Some source =>
      if is_reply_delivery_job source
      then raise_dispatch ("comms recovery requires source business job: " +:+ ct_job_id target)
      else
        reply_delivery ← job_or_none (ct_reply_delivery_job_id target);
        recoverability ← comms_recoverability_for_job source reply_delivery (ct_block_reason target);
        let a := audit_of source recoverability in
        match cy_target recoverability with
        | None =>
            latest ← already_retried_job_id source;
            match latest with
            | Some id => mret (audit_status "noop" (audit_noop "already_retried" (Some id) a))
            | None => mret (audit_status "noop" (audit_noop (str_or (cy_block_reason recoverability) "not_recoverable") None a))
            end
        | Some chosen =>
            a ← recover_source source reply_delivery target chosen a;
            finish_recovery source target a
        end
  end.
End recover.
