(* ===== verification/DispatcherFrame.v ===== *)
(** * What the operations of the dispatcher leave alone

    The invariant of the dispatcher, and the two ways an operation keeps it: a
    quiet operation touches neither the job logs nor the queues; any other one
    appends rows of jobs and moves them through the queues together. *)
From stdpp Require Import pretty.
From Stdlib Require Import QArith.
From S2P Require Import Prelude PyValue Names CompletionModels ExecutionModels Tracker TextArtifacts JobModels.
From S2P Require Import MailboxModels MailboxKernel BureauModels Bureau RetryPolicy.
From S2P Require Import DispatcherState JobQueues Dispatcher Callbacks Submission ReplyDelivery.
From S2P Require Import Finalization.
Open Scope string_scope.
Open Scope list_scope.
Open Scope nat_scope.

(** ** The life of a job

    [stage]: not there, pending, running, ended.  [moves starts o o']: how the
    status of a job may change; when [starts] is false no job starts. *)
Definition stage (o : option JobStatus) : nat :=
  match o with
  | None => 0
  | Some (JS_accepted | JS_queued) => 1
  | Some JS_running => 2
  | Some (JS_completed | JS_cancelled | JS_failed | JS_incomplete) => 3
  end.
Definition moves (starts : bool) (o o' : option JobStatus) : Prop :=
  stage o <= stage o' ∧ (stage o = 3 → o' = o) ∧ (starts = false → stage o' = 2 → o' = o).

Lemma moves_refl b o : moves b o o.
Proof. by split_and!. Qed.
Lemma moves_trans b o1 o2 o3 : moves b o1 o2 → moves b o2 o3 → moves b o1 o3.
Proof.
  intros (H1 & H2 & H3) (H4 & H5 & H6). split_and!; [lia| |].
  - intros E. rewrite (H2 E) in *. auto.
  - intros Hb E. specialize (H6 Hb E). subst o3. auto.
Qed.
Lemma moves_weaken b o o' : moves b o o' → moves true o o'.
Proof. by intros (H1 & H2 & _). Qed.

(** ** Jobs the services attend to

    [handled e id]: the execution service [e] may report on the job [id].  The
    laws are what the service promises: it handles the jobs it was given to
    start or to restore, and reports on no other. *)
Class Attends (E : Type) := { handled : E → string → Prop }.
(** [m] hands no further job to the services. *)
Definition env_calm {E} `{Attends E} {A} (m : E → result A * E) : Prop :=
  ∀ e id, handled (m e).2 id → handled e id.
Definition env_adds {E} `{Attends E} {A} (job_id : string) (m : E → result A * E) : Prop :=
  ∀ e id, handled (m e).2 id → handled e id ∨ id = job_id.
Class ServiceLaws (E : Type) `{Services E} `{Attends E} : Prop := {
  law_patch rt s n t : env_calm (rt_patch_state rt s n t);
  law_ensure a : env_calm (rt_ensure_ready a);
  law_refresh a : env_calm (rt_refresh_binding a);
  law_start j c : env_adds (jb_job_id j) (ex_start j c);
  law_restore j c : env_adds (jb_job_id j) (ex_restore j c);
  law_cancel i : env_calm (ex_cancel i);
  law_finish i : env_calm (ex_finish i);
  law_acknowledge i : env_calm (ex_acknowledge i);
  law_acknowledge_item i n : env_calm (ex_acknowledge_item i n);
  law_poll : env_calm ex_poll;
  law_reports e us : (ex_poll e).1 = Ok us → ∀ u, u ∈ us → handled e (up_job_id u)
}.

Section frame.
Context {E : Type} `{Attends E} `{Uuids} `{DispatcherConfig}.
Implicit Types d : dispatcher E.
Abbreviation M := (DM E).

Definition job_of d (a id : string) : option JobRecord := latest_job (jobs_of d a) id.
Definition status_of d (a id : string) : option JobStatus := jb_status <$> job_of d a id.
Definition uuids_drawn d : nat := br_uuids (dp_bureau d).
Definition job_uuid (n : nat) : string := "job_" +:+ uuid_hex12 n.

(** What a row in the log of the agent [a] is. *)
Record row_ok (n : nat) (a : string) (j : JobRecord) : Prop := {
  ro_name : normalize_agent_name a = Ok a;
  ro_target : jb_target_name j = a;
  ro_agent : jb_agent_name j = a;
  ro_id : ∃ k, k < n ∧ jb_job_id j = job_uuid k
}.
Definition logs_ok d : Prop := ∀ a j, j ∈ jobs_of d a → row_ok (uuids_drawn d) a j.

(** A job is in the log of one agent. *)
Definition unique_logs d : Prop :=
  ∀ a b id, is_Some (job_of d a id) → is_Some (job_of d b id) → a = b.
(** At most one job of an agent runs. *)
Definition single_running d : Prop := ∀ a, length (running_ids (jobs_of d a)) <= 1.
(** The queues of the configured agents agree with their logs. *)
Definition queues_ok d : Prop :=
  ∀ a, a ∈ agent_names → agent_consistent (jobs_of d a) a (dp_state d).

(** The index sends a job to the agent whose log has it. *)
Definition indexed d (id : string) (slot : TargetSlot) : Prop :=
  ∃ a, normalize_agent_name slot.2 = Ok a ∧ is_Some (job_of d a id).
Definition index_ok d : Prop :=
  ∀ id slot, target_for_job id (dp_state d) = Some slot → indexed d id slot.

(** The jobs that are tracked, or that the services handle, have started. *)
Definition attended d (id : string) : Prop :=
  is_Some (sv_trackers (dp_tracker d) !! id) ∨ handled (dp_env d) id.
Definition beyond d (id : string) : Prop := ∃ a, 2 <= stage (status_of d a id).
Definition attended_ok d : Prop := ∀ id, attended d id → beyond d id.

(** From [d] to [d'], jobs only moved on. *)
Definition evolves (starts : bool) d d' : Prop :=
  uuids_drawn d <= uuids_drawn d' ∧ ∀ a id, moves starts (status_of d a id) (status_of d' a id).

Lemma evolves_refl b d : evolves b d d.
Proof. split; [done|]. intros. apply moves_refl. Qed.
Lemma evolves_trans b d1 d2 d3 : evolves b d1 d2 → evolves b d2 d3 → evolves b d1 d3.
Proof. intros [K1 K2] [K3 K4]. split; [lia|]. intros. by eapply moves_trans. Qed.
Lemma evolves_weaken b d d' : evolves b d d' → evolves true d d'.
Proof. intros [K1 K2]. split; [done|]. intros. by eapply moves_weaken. Qed.

Lemma evolves_beyond b d d' id : evolves b d d' → beyond d id → beyond d' id.
Proof. intros [_ Hm] [a Ha]. exists a. destruct (Hm a id) as [K1 _]. lia. Qed.

(** The logs are well formed, the queues and the services agree with them if
    [q], and the state evolved from [d0]. *)
Record world (q starts : bool) d0 d : Prop := {
  wd_logs : logs_ok d;
  wd_single : single_running d;
  wd_unique : unique_logs d;
  wd_index : index_ok d;
  wd_queues : q = true → queues_ok d;
  wd_attended : q = true → attended_ok d;
  wd_evolves : evolves starts d0 d
}.

Lemma world_refl q b d :
  logs_ok d → single_running d → unique_logs d → index_ok d → (q = true → queues_ok d) → (q = true → attended_ok d) →
  world q b d d.
Proof. intros. split; [done..|apply evolves_refl]. Qed.
Lemma world_logs q b d0 d : world q b d0 d → world false b d0 d.
Proof. intros []. by split. Qed.
Lemma world_trans q b d0 d1 d : world q b d0 d1 → world q b d1 d → world q b d0 d.
Proof. intros [] []. split; [done..|by eapply evolves_trans]. Qed.
Lemma world_again q b d0 d : world q b d0 d → world q b d d.
Proof. intros []. by apply world_refl. Qed.

(** ** Quiet changes *)
(** The rows, the queues and the index are the same; attended to are at most the
    jobs from before and those of [X]. *)
Record same_upto (X : string → Prop) d d' : Prop := {
  sj_jobs a : jobs_of d' a = jobs_of d a;
  sj_queue a : queue_at (slot_of a) (dp_state d') = queue_at (slot_of a) (dp_state d);
  sj_active a : active_job_for (slot_of a) (dp_state d') = active_job_for (slot_of a) (dp_state d);
  sj_uuids : uuids_drawn d <= uuids_drawn d';
  sj_index id slot : target_for_job id (dp_state d') = Some slot →
    target_for_job id (dp_state d) = Some slot ∨ indexed d' id slot;
  sj_attended id : attended d' id → attended d id ∨ X id
}.
#[global] Arguments sj_jobs {X} d d'.
#[global] Arguments sj_queue {X} d d'.
#[global] Arguments sj_active {X} d d'.
#[global] Arguments sj_uuids {X} d d'.
#[global] Arguments sj_index {X} d d'.
#[global] Arguments sj_attended {X} d d'.
Definition no_job (id : string) : Prop := False.
Abbreviation same_jobs := (same_upto no_job).

Lemma same_jobs_job X d d' a id : same_upto X d d' → job_of d' a id = job_of d a id.
Proof. intros [Hj _ _ _ _]. unfold job_of. by rewrite Hj. Qed.
Lemma same_jobs_indexed X d d' id slot : same_upto X d d' → indexed d id slot → indexed d' id slot.
Proof. intros Hs (a & Ha & Hj). exists a. split; [done|]. by rewrite (same_jobs_job _ _ _ _ _ Hs). Qed.
(** All parts are the same. *)
Lemma same_jobs_eq d d' :
  dp_jobs d' = dp_jobs d → uuids_drawn d <= uuids_drawn d' → dp_state d' = dp_state d →
  (∀ id, attended d' id → attended d id) → same_jobs d d'.
Proof. intros K1 K2 K3 K4. split; intros; rewrite ?K3 in *; unfold jobs_of; rewrite ?K1; auto. Qed.
Lemma same_upto_refl X d : same_upto X d d.
Proof. split; auto. Qed.
Lemma same_upto_trans X d1 d2 d3 : same_upto X d1 d2 → same_upto X d2 d3 → same_upto X d1 d3.
Proof.
  intros S1 S2. split; intros.
  - by rewrite (sj_jobs _ _ S2), (sj_jobs _ _ S1).
  - by rewrite (sj_queue _ _ S2), (sj_queue _ _ S1).
  - by rewrite (sj_active _ _ S2), (sj_active _ _ S1).
  - pose proof (sj_uuids _ _ S1). pose proof (sj_uuids _ _ S2). lia.
  - destruct (sj_index _ _ S2 id slot) as [K1|K1]; [done| |by right].
    destruct (sj_index _ _ S1 id slot K1) as [K2|K2]; [by left|right].
    by eapply same_jobs_indexed.
  - destruct (sj_attended _ _ S2 id) as [K1|K1]; [done| |by right]. by apply (sj_attended _ _ S1).
Qed.
Lemma same_upto_weaken X Y d d' : (∀ id, X id → Y id) → same_upto X d d' → same_upto Y d d'.
Proof. intros Hxy []. split; [done..|]. intros id Ha. destruct (sj_attended0 id Ha); auto. Qed.
#[global] Instance same_jobs_preorder X : PreOrder (same_upto X).
Proof. split; [intros d; apply same_upto_refl|intros d1 d2 d3; apply same_upto_trans]. Qed.

Lemma row_ok_mono m n a j : m <= n → row_ok m a j → row_ok n a j.
Proof. intros Hmn [K1 K2 K3 (k & ? & ?)]. split; [done..|]. exists k. split; [lia|done]. Qed.

Lemma same_jobs_status X d d' a id : same_upto X d d' → status_of d' a id = status_of d a id.
Proof. intros Hs. unfold status_of. by rewrite (same_jobs_job _ _ _ _ _ Hs). Qed.
Lemma same_jobs_beyond X d d' id : same_upto X d d' → beyond d id → beyond d' id.
Proof. intros Hs [a Ha]. exists a. by rewrite (same_jobs_status _ _ _ _ _ Hs). Qed.
Lemma same_jobs_evolves X b d d' : same_upto X d d' → evolves b d d'.
Proof. intros Hs. split; [apply Hs|]. intros a id. rewrite (same_jobs_status _ _ _ _ _ Hs). apply moves_refl. Qed.
Lemma same_jobs_index X d d' : same_upto X d d' → index_ok d → index_ok d'.
Proof.
  intros Hs Hi id slot Ht. destruct (sj_index _ _ Hs _ _ Ht) as [Ht'|]; [|done].
  by eapply same_jobs_indexed, Hi.
Qed.
(** The jobs of [X] have started. *)
Lemma same_upto_world X q b d0 d d' :
  same_upto X d d' → (q = true → ∀ id, X id → beyond d id) → world q b d0 d → world q b d0 d'.
Proof.
  intros Hs Hx [Hl Hone Hu Hi Hqs Hat He]. split.
  - intros a j Hin. rewrite (sj_jobs _ _ Hs) in Hin. eapply row_ok_mono; [apply Hs|by apply Hl].
  - intros a. rewrite (sj_jobs _ _ Hs). apply Hone.
  - intros a a' id. rewrite !(same_jobs_job _ _ _ _ _ Hs). apply Hu.
  - by eapply same_jobs_index.
  - intros Hq a Hin. destruct (Hqs Hq a Hin) as [K1 K2].
    split; by rewrite (sj_jobs _ _ Hs), ?(sj_queue _ _ Hs), ?(sj_active _ _ Hs).
  - intros Hq id Ha. eapply same_jobs_beyond; [done|]. destruct (sj_attended _ _ Hs _ Ha); [by apply Hat|by apply Hx].
  - eapply evolves_trans; [done|by eapply same_jobs_evolves].
Qed.
Lemma same_jobs_world q b d0 d d' : same_jobs d d' → world q b d0 d → world q b d0 d'.
Proof. intros Hs. by apply (same_upto_world no_job). Qed.

Definition quiet {A} (m : M A) : Prop := ∀ d, same_jobs d (st_exec m d).

Lemma quiet_bind {A B} (m : M A) (f : A → M B) : quiet m → (∀ a, quiet (f a)) → quiet (m ≫= f).
Proof.
  intros Hm Hf d. specialize (Hm d). unfold st_exec, mbind, st_bind in *.
  destruct (m d) as [[a|e] d1]; [|done]. etrans; [exact Hm|exact (Hf a d1)].
Qed.
Lemma quiet_ret {A} (a : A) : quiet (mret a : M A).
Proof. by intros d. Qed.
Lemma quiet_lift {A} (r : result A) : quiet (st_lift r : M A).
Proof. by intros d. Qed.
Lemma quiet_raise {A} e : quiet (st_raise e : M A).
Proof. by intros d. Qed.
Lemma quiet_gets {A} (f : dispatcher E → A) : quiet (st_gets f).
Proof. by intros d. Qed.
Lemma quiet_try {A} (m : M A) h : quiet m → (∀ e, quiet (h e)) → quiet (st_try m h).
Proof.
  intros Hm Hh d. specialize (Hm d). unfold st_exec, st_try in *.
  destruct (m d) as [[a|e] d1]; [done|]. etrans; [exact Hm|exact (Hh e d1)].
Qed.

(** The same, but the job [id] may be attended to from now on. *)
Definition nearly (id : string) {A} (m : M A) : Prop := ∀ d, same_upto (λ i, i = id) d (st_exec m d).
Lemma nearly_quiet {A} id (m : M A) : quiet m → nearly id m.
Proof. intros Hm d. by eapply same_upto_weaken, Hm. Qed.
Lemma nearly_bind {A B} id (m : M A) (f : A → M B) :
  nearly id m → (∀ a, nearly id (f a)) → nearly id (m ≫= f).
Proof.
  intros Hm Hf d. specialize (Hm d). unfold st_exec, mbind, st_bind in *.
  destruct (m d) as [[a|e] d1]; [|done]. etrans; [exact Hm|exact (Hf a d1)].
Qed.

(** ** Triples

    What holds after [m] when it returns, and when it raises. *)
Definition triple {A} (P : dispatcher E → Prop) (m : M A) (Q : A → dispatcher E → Prop)
    (X : dispatcher E → Prop) : Prop :=
  ∀ d, P d → match m d with (Ok a, d') => Q a d' | (Err _, d') => X d' end.

Lemma triple_bind {A B} P (m : M A) Q X (f : A → M B) R :
  triple P m Q X → (∀ a, triple (Q a) (f a) R X) → triple P (m ≫= f) R X.
Proof.
  intros Hm Hf d Hd. specialize (Hm d Hd). unfold mbind, st_bind.
  destruct (m d) as [[a|e] d1]; [|done]. by apply Hf.
Qed.
Lemma triple_conseq {A} P P' (m : M A) (Q Q' : A → dispatcher E → Prop) (X X' : dispatcher E → Prop) :
  triple P m Q X → (∀ d, P' d → P d) → (∀ a d, Q a d → Q' a d) → (∀ d, X d → X' d) → triple P' m Q' X'.
Proof.
  intros Hm HP HQ HX d Hd. specialize (Hm d (HP d Hd)). destruct (m d) as [[a|e] d1]; auto.
Qed.
Lemma triple_try {A} P (m : M A) Q X X' h :
  triple P m Q X' → (∀ e, triple X' (h e) Q X) → triple P (st_try m h) Q X.
Proof.
  intros Hm Hh d Hd. specialize (Hm d Hd). unfold st_try. destruct (m d) as [[a|e] d1]; [done|].
  by apply Hh.
Qed.
Lemma triple_preserves {A} P (m : M A) : preserves P m → triple P m (λ _, P) P.
Proof. intros Hm d Hd. specialize (Hm d Hd). revert Hm. unfold st_exec. by destruct (m d) as [[a|e] d1]. Qed.
Lemma preserves_triple {A} P (m : M A) : triple P m (λ _, P) P → preserves P m.
Proof. intros Hm d Hd. specialize (Hm d Hd). revert Hm. unfold st_exec. by destruct (m d) as [[a|e] d1]. Qed.

(** A property that quiet changes keep. *)
Definition stable (P : dispatcher E → Prop) : Prop := ∀ d d', same_jobs d d' → P d → P d'.
Lemma world_stable q b d0 : stable (world q b d0).
Proof. intros d d'. apply same_jobs_world. Qed.

(** [P] holds also when the job [id] is attended to. *)
Definition stable_near (id : string) (P : dispatcher E → Prop) : Prop :=
  ∀ d d', same_upto (λ i, i = id) d d' → P d → P d'.
Lemma nearly_then {A B} P id (m : M A) (f : A → M B) R X :
  stable_near id P → (∀ d, P d → X d) → nearly id m → (∀ a, triple P (f a) R X) → triple P (m ≫= f) R X.
Proof.
  intros HP HX Hm Hf d Hd. pose proof (HP d _ (Hm d) Hd) as Hd1. unfold st_exec, mbind, st_bind in *.
  destruct (m d) as [[a|e] d1]; [by apply Hf|by apply HX].
Qed.

Lemma quiet_triple {A} P (m : M A) : stable P → quiet m → triple P m (λ _, P) P.
Proof. intros HP Hm. apply triple_preserves. intros d Hd. exact (HP d _ (Hm d) Hd). Qed.

(** A quiet first step of a computation. *)
Lemma quiet_then {A B} P (m : M A) (f : A → M B) R X :
  stable P → (∀ d, P d → X d) → quiet m → (∀ a, triple P (f a) R X) → triple P (m ≫= f) R X.
Proof.
  intros HP HX Hm Hf. apply (triple_bind P m (λ _, P)); [|done].
  exact (triple_conseq P P m _ _ P X (quiet_triple P m HP Hm) (λ d H, H) (λ a d H, H) HX).
Qed.
End frame.
Abbreviation same_jobs := (same_upto no_job).

(** ** Identifiers only grow *)
Definition grows {A} (m : B A) : Prop := ∀ b, br_uuids b <= br_uuids (st_exec m b).

Create HintDb grows discriminated.
Create HintDb quiet discriminated.

Section grows.
Context `{Clock} `{Uuids} (known : gset string).

Lemma grows_bind {A C} (m : B A) (f : A → B C) : grows m → (∀ a, grows (f a)) → grows (m ≫= f).
Proof.
  intros Hm Hf b. specialize (Hm b). unfold st_exec, mbind, st_bind in *.
  destruct (m b) as [[a|e] b1]; [|done]. etrans; [exact Hm|exact (Hf a b1)].
Qed.
Lemma grows_same {A} (m : B A) : (∀ b, br_uuids (st_exec m b) = br_uuids b) → grows m.
Proof. intros Hm b. by rewrite Hm. Qed.
Lemma grows_kernel {A} (m : K A) : grows (in_kernel m).
Proof. apply grows_same. intros b. unfold in_kernel, st_exec. by destruct (m (br_kernel b)). Qed.
Lemma grows_new_id prefix : grows (new_id prefix).
Proof. intros b. cbn. lia. Qed.
Lemma grows_ret {A} (a : A) : grows (mret a : B A).
Proof. by apply grows_same. Qed.
Lemma grows_lift {A} (r : result A) : grows (st_lift r : B A).
Proof. by apply grows_same. Qed.
Lemma grows_gets {A} (f : bureau → A) : grows (st_gets f).
Proof. by apply grows_same. Qed.
#[local] Hint Resolve grows_kernel grows_new_id grows_ret grows_lift grows_gets : grows.

Ltac grow :=
  repeat first
    [ solve [eauto with grows nocore]
    | apply grows_bind; [|intros ?]
    | by apply grows_same
    | progress case_match ].

Lemma grows_message_append m : grows (message_append m).
Proof. unfold message_append. grow. Qed.
Lemma grows_attempt_append m : grows (attempt_append m).
Proof. unfold attempt_append. grow. Qed.
Lemma grows_reply_append m : grows (reply_append m).
Proof. unfold reply_append. grow. Qed.
Lemma grows_edge_append m : grows (edge_append m).
Proof. unfold edge_append. grow. Qed.
#[local] Hint Resolve grows_message_append grows_attempt_append grows_reply_append grows_edge_append : grows.
Lemma grows_set_message_state i s t : grows (set_message_state i s t).
Proof. unfold set_message_state. grow. Qed.
#[local] Hint Resolve grows_set_message_state : grows.
Lemma grows_refresh i t : grows (refresh_message_state i t).
Proof. unfold refresh_message_state. grow. Qed.
#[local] Hint Resolve grows_refresh : grows.
Lemma grows_record_attempt i n t j : grows (record_attempt i n t j).
Proof. unfold record_attempt, queue_event. grow. Qed.
#[local] Hint Resolve grows_record_attempt : grows.
Lemma grows_record_attempts i t js : grows (record_attempts i t js).
Proof. induction js; cbn [record_attempts]; grow. Qed.
#[local] Hint Resolve grows_record_attempts : grows.
Lemma grows_record_submission r js s t o : grows (record_submission r js s t o).
Proof. unfold record_submission, resolve_origin_message_id. grow. Qed.
Lemma grows_record_retry i j t : grows (record_retry_attempt i j t).
Proof. unfold record_retry_attempt, next_retry_index. grow. Qed.
Lemma grows_claimable a : grows (claimable_request_job_ids a).
Proof. unfold claimable_request_job_ids. grow. Qed.
Lemma grows_queue_reply c m a r t : grows (queue_reply_delivery c m a r t).
Proof. unfold queue_reply_delivery, queue_event. grow. Qed.
#[local] Hint Resolve grows_queue_reply : grows.
Lemma grows_mark_started j t : grows (mark_attempt_started j t).
Proof. unfold mark_attempt_started, resolve_inbound_for_attempt_start, rebuild_summary. grow. Qed.
Lemma grows_attempt_terminal j t : grows (record_attempt_terminal j t).
Proof. unfold record_attempt_terminal, rebuild_summary. grow. Qed.
Lemma grows_record_reply j x t b : grows (record_reply known j x t b).
Proof. unfold record_reply. grow. Qed.
#[local] Hint Resolve grows_attempt_terminal grows_record_reply : grows.
Lemma grows_record_terminal j x t b c : grows (record_terminal known j x t b c).
Proof. unfold record_terminal. grow. Qed.
Lemma grows_record_edge e : grows (record_callback_edge e).
Proof. apply grows_edge_append. Qed.
End grows.
#[export] Hint Resolve grows_kernel grows_new_id grows_message_append grows_attempt_append
  grows_reply_append grows_edge_append grows_set_message_state grows_refresh grows_record_submission
  grows_record_retry grows_claimable grows_queue_reply grows_mark_started grows_attempt_terminal
  grows_record_reply grows_record_terminal grows_record_edge : grows.
