(* ===== verification/ExecutionLaws.v ===== *)
(** * The execution service keeps the promises made to the dispatcher

    The operations of [ExecutionService] as the services of the dispatcher, and
    the proof that they obey [ServiceLaws]: a job is handled when it is active
    or has a replay pending. *)
From stdpp Require Import pretty.
From Stdlib Require Import QArith.
From S2P Require Import Prelude PyValue RuntimeValues Names AgentModels CompletionModels ExecutionModels Tracker JobModels.
From S2P Require Import DispatcherState Dispatcher FaultInjection ExecutionService DispatcherFrame.
Open Scope string_scope.
Open Scope list_scope.
Open Scope nat_scope.

(** ** Which jobs the service lists *)
Definition lists_job {X} (s : execution X) (id : string) : Prop :=
  id ∈ (xs_active s).*1 ∨ id ∈ (xs_replays s).*1.

Lemma od_set_keys {A} k (v : A) d i : i ∈ (od_set k v d).*1 → i = k ∨ i ∈ d.*1.
Proof.
  induction d as [|[k' v'] d IH]; cbn [od_set fmap list_fmap fst].
  - rewrite elem_of_cons. tauto.
  - destruct (String.eqb_spec k k') as [<-|]; cbn [fmap list_fmap fst]; rewrite !elem_of_cons; [tauto|].
    intros [->|Hi]; [tauto|]. destruct (IH Hi); tauto.
Qed.
Lemma od_pop_keys {A} k (d : list (string * A)) i : i ∈ (od_pop k d).*1 → i ∈ d.*1.
Proof.
  intros (kv & -> & Hkv)%list_elem_of_fmap. apply elem_of_filter_bool in Hkv as [Hkv _]. by apply list_elem_of_fmap_2.
Qed.

Section adds.
Context {X : Type}.
Abbreviation M := (XM X).
(** [m] lists no job but those in [ids] that was not listed. *)
Definition adds {A} (ids : list string) (m : M A) : Prop :=
  ∀ s i, lists_job (m s).2 i → lists_job s i ∨ i ∈ ids.

Lemma adds_bind {A B} ids (m : M A) (f : A → M B) : adds ids m → (∀ a, adds ids (f a)) → adds ids (m ≫= f).
Proof.
  intros Hm Hf s i. unfold mbind, st_bind. specialize (Hm s i). destruct (m s) as [[a|e] s1]; [|exact Hm].
  intros Hi. destruct (Hf a s1 i Hi) as [H1|H1]; [by apply Hm|by right].
Qed.
(** The tables stay as they are. *)
Lemma adds_same {A} ids (m : M A) :
  (∀ s, xs_active (m s).2 = xs_active s ∧ xs_replays (m s).2 = xs_replays s) → adds ids m.
Proof. intros Hm s i. unfold lists_job. destruct (Hm s) as [-> ->]. by left. Qed.
Lemma adds_ret {A} ids (a : A) : adds ids (mret a : M A).
Proof. by apply adds_same. Qed.
Lemma adds_gets {A} ids (f : execution X → A) : adds ids (st_gets f).
Proof. by apply adds_same. Qed.
Lemma adds_lift {A} ids (r : result A) : adds ids (st_lift r : M A).
Proof. by apply adds_same. Qed.
Lemma adds_world {A} ids (f : X → result A * X) : adds ids (in_world f).
Proof. apply adds_same. intros s. unfold in_world. by destruct (f _). Qed.
Lemma adds_faults {A} ids (f : ST fault_store A) : adds ids (in_faults f : M A).
Proof. apply adds_same. intros s. unfold in_faults. by destruct (f _). Qed.
Lemma adds_set_active ids id p : id ∈ ids → adds ids (set_active id p : M unit).
Proof. intros Hid s i [Hi|Hi]; [|by left; right]. cbn in Hi. apply od_set_keys in Hi as [->|Hi]; [by right|by left; left]. Qed.
Lemma adds_set_replay ids id r : id ∈ ids → adds ids (set_replay id r : M unit).
Proof. intros Hid s i [Hi|Hi]; [by left; left|]. cbn in Hi. apply od_set_keys in Hi as [->|Hi]; [by right|by left; right]. Qed.
Lemma adds_pop_active ids id : adds ids (pop_active id : M unit).
Proof. intros s i [Hi|Hi]; [|by left; right]. cbn in Hi. apply od_pop_keys in Hi. by left; left. Qed.
Lemma adds_pop_replay ids id : adds ids (pop_replay id : M unit).
Proof. intros s i [Hi|Hi]; [by left; left|]. cbn in Hi. apply od_pop_keys in Hi. by left; right. Qed.
Lemma adds_set_context ids id c : adds ids (set_context id c : M unit).
Proof. by apply adds_same. Qed.
Lemma adds_pop_context ids id : adds ids (pop_context id : M unit).
Proof. by apply adds_same. Qed.
Lemma adds_store_remove ids id : adds ids (store_remove id : M unit).
Proof. by apply adds_same. Qed.
End adds.

Create HintDb adds discriminated.
#[export] Hint Resolve adds_ret adds_gets adds_lift adds_world adds_faults adds_pop_active adds_pop_replay
  adds_set_context adds_pop_context adds_store_remove : adds.
#[export] Hint Extern 1 (adds _ (set_active _ _)) => apply adds_set_active; solve [auto using list_elem_of_here] : adds.
#[export] Hint Extern 1 (adds _ (set_replay _ _)) => apply adds_set_replay; solve [auto using list_elem_of_here] : adds.
Ltac adds_going :=
  repeat first [ solve [eauto with adds nocore] | apply adds_bind; [|intros ?] | progress case_match ].

Section service.
Context {X : Type} `{PathLib} `{ExecutionEnv X} `{CompletionLib} `{Environ}.
Abbreviation M := (XM X).

Lemma adds_store_load ids id : adds ids (store_load id : M _).
Proof. apply adds_same. intros s. unfold store_load. by repeat case_match. Qed.
Lemma adds_store_save ids p : adds ids (store_save p : M _).
Proof. apply adds_bind; [apply adds_lift|intros d]. by apply adds_same. Qed.
Lemma adds_clock ids : adds ids (exec_clock : M _).
Proof. by apply adds_same. Qed.
#[local] Hint Resolve adds_store_load adds_store_save adds_clock : adds.
Lemma adds_capability ids a p : adds ids (execution_restore_capability a p : M _).
Proof. unfold execution_restore_capability. adds_going. Qed.
Lemma adds_exported ids a p : adds ids (exported_state a p : M _).
Proof. unfold exported_state. adds_going. Qed.
#[local] Hint Resolve adds_capability adds_exported : adds.
Lemma adds_persist ids id d l z : adds ids (persist_submission id d l z : M _).
Proof. unfold persist_submission. adds_going. Qed.
Lemma adds_keys ids send pane keys : adds ids (send_keys send pane keys : M _).
Proof.
  induction keys as [|k l IH]; [apply adds_ret|]. intros s i Hi. destruct (IH _ _ Hi) as [Hj|Hj]; [|by right].
  by apply (adds_world ids) in Hj.
Qed.
#[local] Hint Resolve adds_persist adds_keys : adds.
Lemma adds_interrupt ids p : adds ids (interrupt_active_submission p : M _).
Proof. unfold interrupt_active_submission, interrupt_and_clear_runtime_target. adds_going. Qed.
Lemma adds_timeout ids id p a now : adds ids (timeout_poll_result id p a now : M _).
Proof. unfold timeout_poll_result. adds_going. Qed.
#[local] Hint Resolve adds_interrupt adds_timeout : adds.
Lemma adds_abandon ids j r c n : adds ids (abandon_restore j r c n : M _).
Proof. unfold abandon_restore. adds_going. Qed.
#[local] Hint Resolve adds_abandon : adds.

Lemma start_adds j c : adds [jb_job_id j] (start j c : M _).
Proof. unfold start. adds_going. Qed.
Lemma restore_adds j c : adds [jb_job_id j] (restore_submission j c : M _).
Proof. unfold restore_submission. adds_going. Qed.
Lemma forget_adds i : adds [] (forget i : M _).
Proof. unfold forget. adds_going. Qed.
#[local] Hint Resolve forget_adds : adds.
Lemma cancel_adds i : adds [] (cancel i : M _).
Proof. unfold cancel. adds_going. Qed.
Lemma finish_adds i : adds [] (finish i : M _).
Proof. unfold finish. adds_going. Qed.
Lemma acknowledge_adds i : adds [] (acknowledge i : M _).
Proof. unfold acknowledge. adds_going. Qed.
Lemma acknowledge_item_adds i n : adds [] (acknowledge_item i n : M _).
Proof. unfold acknowledge_item. adds_going. Qed.

(** ** Polling *)
Lemma adds_more {A} ids ids' (m : M A) : ids ⊆ ids' → adds ids m → adds ids' m.
Proof. intros Hi Hm s i Hl. destruct (Hm s i Hl); [by left|right; by apply Hi]. Qed.
Lemma process_adds id p now : adds [id] (process_active_job id p now : M _).
Proof. unfold process_active_job, poll_outcome. adds_going. Qed.
Lemma process_jobs_adds jobs replayed now us : adds jobs.*1 (process_active_jobs jobs replayed now us : M _).
Proof.
  revert us. induction jobs as [|[id p] jobs IH]; intros us; cbn [process_active_jobs fmap list_fmap fst]; [apply adds_ret|].
  assert (∀ us, adds (id :: jobs.*1) (process_active_jobs jobs replayed now us : M _)) as Hr.
  { intros us'. eapply adds_more; [|apply IH]. intros i Hi. by apply list_elem_of_further. }
  case_match; [apply Hr|]. apply adds_bind; [|intros ?; apply Hr].
  eapply adds_more; [|apply process_adds]. intros i ->%list_elem_of_singleton. apply list_elem_of_here.
Qed.
Lemma drain_adds pending us : adds [] (drain_replays pending us : M _).
Proof.
  revert us. induction pending as [|[id [items d]] pending IH]; intros us; cbn [drain_replays]; [apply adds_ret|].
  adds_going; apply IH.
Qed.

(** What the updates are about. *)
Lemma process_reports id p now s r s' :
  (process_active_job id p now : M _) s = (Ok r, s') → ∀ u, r = Some u → up_job_id u = id.
Proof.
  unfold process_active_job. case_match; [|by intros [= <- <-]].
  unfold mbind, st_bind. destruct (poll_outcome _ _ _ _ s) as [[[o|]|e] s1]; [|by intros [= <- <-]|done].
  destruct (set_active _ _ s1) as [[[]|e] s2]; [|done].
  destruct (persist_submission _ _ _ _ _) as [[[]|e] s3]; [|done].
  destruct (negb _); [by intros [= <- <-]|]. destruct (is_some _); intros [= <- <-]; by intros u [= <-].
Qed.
Lemma process_jobs_report jobs replayed now us s us' s' :
  (process_active_jobs jobs replayed now us : M _) s = (Ok us', s') →
  ∀ u, u ∈ us' → u ∈ us ∨ up_job_id u ∈ jobs.*1.
Proof.
  revert us s. induction jobs as [|[id p] jobs IH]; intros us s; cbn [process_active_jobs fmap list_fmap fst].
  { intros [= <- <-] u Hu. by left. }
  case_match.
  - intros Hp u Hu. destruct (IH _ _ Hp u Hu); [by left|right; by apply list_elem_of_further].
  - unfold mbind, st_bind. destruct (process_active_job id p now s) as [[r|e] s1] eqn:Hr; [|done].
    intros Hp u Hu. destruct (IH _ _ Hp u Hu) as [[Hus|Hus]%elem_of_app|Hj]; [by left| |right; by apply list_elem_of_further].
    right. destruct r as [v|]; [|by apply elem_of_nil in Hus]. apply list_elem_of_singleton in Hus as ->.
    rewrite (process_reports _ _ _ _ _ _ Hr v eq_refl). apply list_elem_of_here.
Qed.
Lemma drain_does pending us s :
  ∃ us' s', (drain_replays pending us : M _) s = (Ok us', s') ∧ xs_active s' = xs_active s ∧
    us' = us ++ ((λ r, mkUpdate r.1 r.2.1 r.2.2) <$> pending) ∧
    (∀ i, i ∈ (xs_replays s').*1 → i ∈ (xs_replays s).*1).
Proof.
  revert us s. induction pending as [|[id [items d]] pending IH]; intros us s; cbn [drain_replays fmap list_fmap].
  { exists us, s. rewrite app_nil_r. done. }
  rewrite st_gets_bind.
  assert (∃ s1, (if should_keep_pending_replay id d s then mret tt else pop_replay id : M unit) s = (Ok tt, s1) ∧
    xs_active s1 = xs_active s ∧ (∀ i, i ∈ (xs_replays s1).*1 → i ∈ (xs_replays s).*1)) as (s1 & Hs1 & Ha & Hr).
  { destruct (should_keep_pending_replay id d s); eexists; (split; [reflexivity|]); [done|].
    split; [done|]. intros i Hi. cbn in Hi. by apply od_pop_keys in Hi. }
  rewrite (st_bind_ok _ _ _ _ _ Hs1). destruct (IH (us ++ [mkUpdate id items d]) s1) as (us' & s' & Hd & Ha' & Hu & Hr').
  exists us', s'. rewrite Hd, Ha', Ha, Hu, <- app_assoc. split_and!; [done|done|done|]. intros i Hi. by apply Hr, Hr'.
Qed.

Lemma poll_lists (s : execution X) :
  (∀ i, lists_job (poll_updates s).2 i → lists_job s i) ∧
  (∀ us, (poll_updates s).1 = Ok us → ∀ u, u ∈ us → lists_job s (up_job_id u)).
Proof.
  unfold poll_updates. rewrite (st_bind_ok exec_clock _ s _ _ eq_refl), st_gets_bind.
  set (s1 := with_ticks _ s). destruct (drain_does (xs_replays s1) [] s1) as (us & s2 & Hd & Ha & -> & Hr).
  rewrite (st_bind_ok _ _ _ _ _ Hd), st_gets_bind, Ha. change (xs_active s1) with (xs_active s).
  match goal with |- context [process_active_jobs ?j ?r ?n ?u] =>
    pose proof (process_jobs_adds j r n u s2) as Hadds; destruct (process_active_jobs j r n u s2) as [res s3] eqn:Hp end.
  cbn [fst snd] in *. split.
  - intros i Hi. destruct (Hadds i Hi) as [[Hj|Hj]|Hj]; [left; by rewrite Ha in Hj|right; by apply Hr|by left].
  - intros us' -> u Hu. destruct (process_jobs_report _ _ _ _ _ _ _ Hp u Hu) as [Hj|Hj]; [|by left].
    apply list_elem_of_fmap in Hj as (r & -> & Hj). right. exact (list_elem_of_fmap_2 fst _ _ Hj).
Qed.
End service.

(** ** The services of the dispatcher *)

(** The runtime service and the agent registry, on the state of the outside
    world. *)
Class RuntimeServices (X : Type) := {
  rs_get : string → X → result (option AgentRuntime);
  rs_list_alive : X → result (list string);
  rs_patch_state : AgentRuntime → AgentState → nat → string → X → result unit * X;
  rs_ensure_ready : string → X → result (option AgentRuntime) * X;
  rs_refresh_binding : string → X → result (option AgentRuntime) * X
}.

Section services.
Context {X : Type} `{PathLib} `{ExecutionEnv X} `{CompletionLib} `{Environ} `{RuntimeServices X}.

(** [_load_persisted_execution_state(job_id).pending_decision], and
    [_execution_job_is_live]. *)
Definition persisted_decision (job_id : string) (s : execution X) : option CompletionDecision :=
  match (store_load job_id s).1 with Ok (Some p) => pe_pending_decision p | _ => None end.
Definition execution_job_is_live (job_id : string) (s : execution X) : bool :=
  is_some (od_lookup job_id (xs_active s)) || is_some (od_lookup job_id (xs_replays s)).

#[export] Instance execution_services : Services (execution X) := {|
  reg_get a s := rs_get a (xs_world s);
  reg_list_alive s := rs_list_alive (xs_world s);
  rt_patch_state rt st n t := in_world (rs_patch_state rt st n t);
  rt_ensure_ready a := in_world (rs_ensure_ready a);
  rt_refresh_binding a := in_world (rs_refresh_binding a);
  ex_start := start;
  ex_cancel := cancel;
  ex_finish := finish;
  ex_acknowledge := acknowledge;
  ex_acknowledge_item := acknowledge_item;
  ex_restore := restore_submission;
  ex_poll := poll_updates;
  ex_pending_decision := persisted_decision;
  ex_is_live := execution_job_is_live
|}.
#[export] Instance execution_attends : Attends (execution X) := {| handled := lists_job |}.

Lemma calm_of {A} (m : XM X A) : adds [] m → env_calm m.
Proof. intros Hm s i Hi. destruct (Hm s i Hi) as [Hl|Hl]; [exact Hl|by apply elem_of_nil in Hl]. Qed.
Lemma adds_of {A} i (m : XM X A) : adds [i] m → env_adds i m.
Proof. intros Hm s j Hj. destruct (Hm s j Hj) as [Hl|Hl]; [by left|right; by apply list_elem_of_singleton]. Qed.

(** C23: The execution service keeps what the dispatcher relies on: it handles
    only jobs it was given to start or to restore, and its updates are about
    jobs it handles, whatever the adapters, the runtime service, the fault
    rules and the files do or contain.  So the theorems on the dispatcher hold
    for the daemon that runs this service. *)
Theorem execution_service_lawful : ServiceLaws (execution X).
Proof.
  split; intros; try (apply calm_of; apply adds_world).
  - apply adds_of, start_adds.
  - apply adds_of, restore_adds.
  - apply calm_of, cancel_adds.
  - apply calm_of, finish_adds.
  - apply calm_of, acknowledge_adds.
  - apply calm_of, acknowledge_item_adds.
  - intros s. apply poll_lists.
  - destruct (poll_lists e) as [_ Hr]. by eapply Hr.
Qed.
End services.
