(* ===== verification/DispatcherQuiet.v ===== *)
(** * The quiet operations of the dispatcher

    Everything that reads, records events and messages, or talks to the
    services leaves the job logs and the queues as they are. *)
From stdpp Require Import pretty.
From Stdlib Require Import QArith.
From S2P Require Import Prelude PyValue Names CompletionModels ExecutionModels Tracker TextArtifacts JobModels.
From S2P Require Import MailboxModels MailboxKernel BureauModels Bureau RetryPolicy.
From S2P Require Import DispatcherState JobQueues Dispatcher Callbacks Submission ReplyDelivery.
From S2P Require Import Finalization Scheduling Polling DispatcherFrame.
Open Scope string_scope.
Open Scope list_scope.
Open Scope nat_scope.

Ltac quietly :=
  repeat first
    [ solve [eauto with quiet grows nocore]
    | apply quiet_bind; [|intros ?]
    | apply quiet_try; [|intros ?]
    | apply quiet_ret | apply quiet_lift | apply quiet_raise | apply quiet_gets
    | progress case_match ].

(** ** Trackers

    Only [start] tracks a further job. *)
Definition tracks_less {A} (m : TS A) : Prop :=
  ∀ t id, is_Some (sv_trackers (st_exec m t) !! id) → is_Some (sv_trackers t !! id).

Section trackers.
Context `{CompletionLib}.

Lemma tracks_bind {A B} (m : TS A) (f : A → TS B) :
  tracks_less m → (∀ a, tracks_less (f a)) → tracks_less (m ≫= f).
Proof.
  intros Hm Hf t id. specialize (Hm t id). unfold st_exec, mbind, st_bind in *.
  destruct (m t) as [[a|e] t1]; [|done]. intros Ht. by apply Hm, (Hf a t1).
Qed.
Lemma tracks_same {A} (m : TS A) : (∀ t, sv_trackers (st_exec m t) = sv_trackers t) → tracks_less m.
Proof. intros Hm t id. by rewrite Hm. Qed.
Lemma tracks_require j : tracks_less (require_tracker j).
Proof. apply tracks_same. intros t. unfold st_exec, require_tracker. by case_match. Qed.
Lemma tracks_current j : tracks_less (Tracker.current j).
Proof. apply tracks_same. intros t. unfold st_exec, Tracker.current. by case_match. Qed.
Lemma tracks_finish j : tracks_less (finish j).
Proof.
  intros t id. cbn. destruct (decide (j = id)) as [->|Hne]; [by rewrite lookup_delete_eq; intros []|].
  by rewrite lookup_delete_ne.
Qed.
(** Changing a tracker that is there. *)
Lemma tracks_put j t x id :
  is_Some (sv_trackers t !! j) → is_Some (sv_trackers (put_tracker j x t) !! id) → is_Some (sv_trackers t !! id).
Proof.
  intros Hj. cbn. destruct (decide (j = id)) as [->|Hne]; [done|by rewrite lookup_insert_ne].
Qed.
Lemma tracks_on_detector j m : tracks_less (on_detector j m).
Proof.
  intros t id. unfold on_detector, require_tracker, st_exec, mbind, st_bind.
  destruct (sv_trackers t !! j) as [x|] eqn:Hx; [|done]. destruct (m (tk_detector x)) as [r d]. cbn.
  destruct r; apply (tracks_put j); by rewrite Hx.
Qed.
Lemma tracks_on_selector j f : tracks_less (on_selector j f).
Proof.
  intros t id. unfold on_selector, require_tracker, st_exec, mbind, st_bind.
  destruct (sv_trackers t !! j) as [x|] eqn:Hx; [|done]. cbn. apply (tracks_put j). by rewrite Hx.
Qed.
Ltac track :=
  repeat first
    [ apply tracks_require | apply tracks_current | apply tracks_on_detector | apply tracks_on_selector
    | apply tracks_bind; [|intros ?] | by apply tracks_same | progress case_match ].
Lemma tracks_tick j now : tracks_less (tracker_tick j now).
Proof. unfold tracker_tick, maybe_finalize_timeout, current_view. track. Qed.
Lemma tracks_ingest j i : tracks_less (tracker_ingest j i).
Proof. unfold tracker_ingest, current_view. track. Qed.
Lemma tracks_tick_each now l : tracks_less (tick_each now l).
Proof. pose proof tracks_tick. induction l; cbn [tick_each]; track; done. Qed.
Lemma tracks_tick_all now : tracks_less (tick_all now).
Proof. unfold tick_all. apply tracks_bind; [by apply tracks_same|intros l; apply tracks_tick_each]. Qed.

(** The views are of jobs that are tracked. *)
Lemma tick_view j now t v t' : tracker_tick j now t = (Ok v, t') → vw_job_id v = j ∧ is_Some (sv_trackers t !! j).
Proof.
  unfold tracker_tick, require_tracker. unfold mbind at 1, st_bind at 1.
  destruct (sv_trackers t !! j) as [x|]; [|done]. intros Hv. split; [|done].
  unfold mbind, st_bind in Hv. destruct (on_detector _ _ t) as [[u|e] t1]; [|done].
  destruct (maybe_finalize_timeout _ _ t1) as [[u'|e] t2]; [|done].
  unfold current_view, Tracker.current, mbind, st_bind, mret, st_ret in Hv.
  destruct (sv_trackers t2 !! j) as [y|]; [|done].
  destruct (view_of j y) as [w|e] eqn:Hw; [|done]. injection Hv as <- _.
  unfold view_of in Hw. inv_result. by subst.
Qed.
Lemma tick_each_views now l t vs t' :
  tick_each now l t = (Ok vs, t') → ∀ v, v ∈ vs → is_Some (sv_trackers t !! vw_job_id v).
Proof.
  revert t vs t'. induction l as [|j l IH]; intros t vs t'; cbn [tick_each]; unfold mbind, st_bind.
  - intros [= <- _] v []%elem_of_nil.
  - pose proof (tracks_tick j now t) as Hless. unfold st_exec in Hless.
    destruct (tracker_tick j now t) as [[w|e] t1] eqn:Hw; [|done].
    destruct (tick_each now l t1) as [[ws|e] t2] eqn:Hws; [|done]. intros [= <- <-] v [->|Hv]%elem_of_cons.
    + destruct (tick_view _ _ _ _ _ Hw) as [-> Hj]. exact Hj.
    + eapply Hless, IH; [exact Hws|done].
Qed.
End trackers.

Section quiet.
Context {E : Type} `{ServiceLaws E} `{Clock} `{Uuids} `{DispatcherConfig} `{CompletionLib} `{TextLib}.
Context (iso_plus : string → Q → result string) (known : gset string)
  (decoded : list ascii → string) (float_of_text : string → option Q).
Abbreviation M := (DM E).

(** ** The parts of the state *)
Lemma quiet_in_bureau {A} (m : B A) : grows m → quiet (in_bureau m : M A).
Proof.
  intros Hm d. specialize (Hm (dp_bureau d)). unfold st_exec, in_bureau in *.
  destruct (m (dp_bureau d)) as [r b]. by apply same_jobs_eq.
Qed.
Lemma quiet_in_mailbox {A} (m : K A) : quiet (in_mailbox m : M A).
Proof. apply quiet_in_bureau, grows_kernel. Qed.
Lemma quiet_in_texts {A} (m : TX A) : quiet (in_texts m : M A).
Proof. intros d. unfold st_exec, in_texts. destruct (m (dp_texts d)). by apply same_jobs_eq. Qed.
Lemma quiet_in_tracker {A} (m : TS A) : tracks_less m → quiet (in_tracker m : M A).
Proof.
  intros Hm d. specialize (Hm (dp_tracker d)). unfold st_exec, in_tracker in *.
  destruct (m (dp_tracker d)) as [r t]. apply same_jobs_eq; [done..|].
  intros id [Ht|Ht]; [left; by apply Hm|by right].
Qed.
Lemma quiet_in_env {A} (m : E → result A * E) : env_calm m → quiet (in_env m : M A).
Proof.
  intros Hm d. specialize (Hm (dp_env d)). unfold st_exec, in_env. destruct (m (dp_env d)) as [r e].
  apply same_jobs_eq; [done..|]. intros id [Ht|Ht]; [by left|right; by apply Hm].
Qed.
Lemma quiet_of_env {A} (m : E → result A) : quiet (of_env m : M A).
Proof. by intros d. Qed.
Lemma quiet_of_queues {A} (f : dispatcher_state → A) : quiet (of_queues f : M A).
Proof. by intros d. Qed.
Lemma quiet_of_bureau {A} (f : bureau → A) : quiet (of_bureau f : M A).
Proof. by intros d. Qed.
Lemma quiet_clock : quiet (clock_now : M string).
Proof. apply quiet_in_mailbox. Qed.
Lemma quiet_draw prefix : quiet (draw_id prefix : M string).
Proof. apply quiet_in_bureau, grows_new_id. Qed.
Lemma quiet_events f : quiet (st_modify (λ d, with_events (f d) d) : M unit).
Proof. intros d. by apply same_jobs_eq. Qed.
Lemma quiet_snapshots f : quiet (st_modify (λ d, with_snapshots (f d) d) : M unit).
Proof. intros d. by apply same_jobs_eq. Qed.
Lemma quiet_submissions f : quiet (st_modify (λ d, with_submissions (f d) d) : M unit).
Proof. intros d. by apply same_jobs_eq. Qed.
#[local] Hint Resolve law_patch law_ensure law_refresh law_cancel law_finish law_acknowledge
  law_acknowledge_item law_poll tracks_current tracks_finish tracks_ingest tracks_tick_all : quiet.
#[local] Hint Resolve quiet_in_bureau quiet_in_mailbox quiet_in_texts quiet_in_tracker quiet_in_env
  quiet_of_env quiet_of_queues quiet_of_bureau quiet_clock quiet_draw quiet_events
  quiet_snapshots quiet_submissions : quiet.

(** ** Records *)
Lemma quiet_list_jobs a : quiet (list_agent_jobs a : M _).
Proof. unfold list_agent_jobs. quietly. Qed.
Lemma quiet_latest_job a id : quiet (get_latest_job a id : M _).
Proof. unfold get_latest_job, list_agent_jobs. quietly. Qed.
#[local] Hint Resolve quiet_list_jobs quiet_latest_job : quiet.
(** Remembering where a job was found. *)
Lemma quiet_remember id slot (d : dispatcher E) :
  indexed d id slot → same_jobs d (with_queues (remember_job id slot (dp_state d)) d).
Proof.
  intros Hi. split; intros; [done|apply queue_at_remember|apply active_remember|done| |by left].
  match goal with Ht : target_for_job _ _ = _ |- _ => apply index_remember in Ht as [?|[-> ->]] end.
  - by left.
  - right. exact Hi.
Qed.
Lemma quiet_search l id : quiet (search_job l id : M _).
Proof.
  induction l as [|a l IH]; cbn [search_job]; [quietly|]. intros d.
  unfold st_exec, get_latest_job, list_agent_jobs, mbind, st_bind, st_lift, st_gets.
  destruct (normalize_agent_name a) as [n|e] eqn:Hn; [|reflexivity]. cbn.
  change (find_last _ _) with (job_of d n id). destruct (job_of d n id) as [j|] eqn:Hj; [|apply IH].
  cbn. apply quiet_remember. exists n. split; [done|]. by exists j.
Qed.
#[local] Hint Resolve quiet_search : quiet.
Lemma quiet_get_job id : quiet (get_job id : M _).
Proof. unfold get_job. quietly. Qed.
Lemma quiet_latest_for a : quiet (latest_for_agent a : M _).
Proof. unfold latest_for_agent. quietly. Qed.
Lemma quiet_append_event j ty p t : quiet (append_event j ty p t : M _).
Proof. unfold append_event. quietly. Qed.
Lemma quiet_sync a s : quiet (sync_runtime a s : M _).
Proof. unfold sync_runtime. quietly. Qed.
Lemma quiet_load_snapshot i : quiet (load_snapshot i : M _).
Proof. unfold load_snapshot. quietly. Qed.
Lemma quiet_write_completion i a f s x t : quiet (write_completion i a f s x t : M _).
Proof. unfold write_completion. quietly. Qed.
#[local] Hint Resolve quiet_get_job quiet_latest_for quiet_append_event quiet_sync quiet_load_snapshot
  quiet_write_completion : quiet.
Lemma quiet_apply_view j v t : quiet (apply_tracker_view j v t : M _).
Proof. unfold apply_tracker_view, resolve_tracker_timestamp. quietly. Qed.
Lemma quiet_resolve_targets r : quiet (resolve_targets r : M _).
Proof. unfold resolve_targets. quietly. Qed.
Lemma quiet_targets_available l : quiet (validate_targets_available l : M _).
Proof. induction l; cbn [validate_targets_available]; quietly. Qed.
#[local] Hint Resolve quiet_apply_view quiet_resolve_targets quiet_targets_available : quiet.

(** ** Callbacks *)
Lemma quiet_raise_dispatch {A} msg : quiet (raise_dispatch msg : M A).
Proof. apply quiet_raise. Qed.
Lemma quiet_active_parent a : quiet (active_parent_job a : M _).
Proof. unfold active_parent_job. quietly. Qed.
#[local] Hint Resolve quiet_raise_dispatch quiet_active_parent : quiet.
Lemma quiet_validate_chain p c : quiet (validate_callback_chain p c : M _).
Proof. unfold validate_callback_chain. quietly. Qed.
Lemma quiet_validate_nested r : quiet (validate_nested_ask_request r : M _).
Proof. unfold validate_nested_ask_request. quietly. Qed.
#[local] Hint Resolve quiet_validate_chain quiet_validate_nested : quiet.
Lemma quiet_validate_callback r : quiet (validate_callback_request r : M _).
Proof. unfold validate_callback_request. quietly. Qed.
#[local] Hint Resolve quiet_validate_callback : quiet.
Lemma quiet_register r js m t : quiet (register_callback_edge iso_plus r js m t : M _).
Proof. unfold register_callback_edge. quietly. Qed.
Lemma quiet_record_notice j r dg t s a : quiet (record_notice known j r dg t s a : M _).
Proof. unfold record_notice. quietly. Qed.
#[local] Hint Resolve quiet_register quiet_record_notice : quiet.
Lemma quiet_failure_notice e r x t : quiet (record_callback_failure_notice known e r x t : M _).
Proof. unfold record_callback_failure_notice. quietly. Qed.
Lemma quiet_latest_edge e : quiet (latest_edge e : M _).
Proof. unfold latest_edge. quietly. Qed.
Lemma quiet_update_edge e : quiet (update_edge e : M _).
Proof. unfold update_edge. quietly. Qed.
#[local] Hint Resolve quiet_failure_notice quiet_latest_edge quiet_update_edge : quiet.
Lemma quiet_fail_edge e r x t s : quiet (fail_callback_edge known e r x t s : M _).
Proof. unfold fail_callback_edge. quietly. Qed.
Lemma quiet_mark_done j t : quiet (mark_callback_done j t : M _).
Proof. unfold mark_callback_done. quietly. Qed.
Lemma quiet_mark_waiting e t : quiet (mark_parent_message_waiting e t : M _).
Proof. unfold mark_parent_message_waiting. quietly. Qed.
Lemma quiet_existing_continuation e : quiet (existing_continuation_job e : M _).
Proof. unfold existing_continuation_job. quietly. Qed.
Lemma quiet_job_for_reply r : quiet (job_for_reply r : M _).
Proof. unfold job_for_reply. quietly. Qed.
Lemma quiet_continuation_request e j x : quiet (continuation_request e j x : M _).
Proof. unfold continuation_request. quietly. Qed.
Lemma quiet_append_submission s j t : quiet (append_submission_job s j t : M _).
Proof. unfold append_submission_job. quietly. Qed.
Lemma quiet_pending_status a : quiet (pending_status a : M _).
Proof. unfold pending_status. quietly. Qed.
#[local] Hint Resolve quiet_fail_edge quiet_mark_done quiet_mark_waiting quiet_existing_continuation
  quiet_job_for_reply quiet_continuation_request quiet_append_submission quiet_pending_status : quiet.
Lemma quiet_sweep_edges now l : quiet (sweep_edges known now l : M _).
Proof. induction l; cbn [sweep_edges]; quietly. Qed.
#[local] Hint Resolve quiet_sweep_edges : quiet.
Lemma quiet_sweep : quiet (sweep_callback_timeouts known : M _).
Proof. unfold sweep_callback_timeouts. quietly. Qed.

(** ** Submission *)
Lemma quiet_body_artifact r : quiet (validate_request_body_artifact decoded r : M _).
Proof. unfold validate_request_body_artifact. quietly. Qed.
Lemma quiet_submission_append r : quiet (submission_append r : M _).
Proof. unfold submission_append. quietly. Qed.
Lemma quiet_submission_id s : quiet (submission_id_for s : M _).
Proof. unfold submission_id_for. quietly. Qed.
#[local] Hint Resolve quiet_body_artifact quiet_submission_append quiet_submission_id : quiet.
Lemma quiet_plan_for r l o : quiet (plan_for r l o : M _).
Proof. unfold plan_for. quietly. Qed.
#[local] Hint Resolve quiet_plan_for : quiet.
Lemma quiet_plan_submission r : quiet (plan_agent_submission decoded r : M _).
Proof. unfold plan_agent_submission. quietly. Qed.
Lemma quiet_jobs_for_resubmission m l : quiet (jobs_for_resubmission m l : M _).
Proof. induction l; cbn [jobs_for_resubmission]; quietly. Qed.
Lemma quiet_lineage i l : quiet (require_attempt_lineage i l : M _).
Proof. unfold require_attempt_lineage. quietly. Qed.
#[local] Hint Resolve quiet_jobs_for_resubmission quiet_lineage : quiet.
Lemma quiet_plan_resubmission i : quiet (plan_message_resubmission decoded i : M _).
Proof. unfold plan_message_resubmission. quietly. Qed.
Lemma quiet_resolve_retry t : quiet (resolve_retry_attempt t : M _).
Proof. unfold resolve_retry_attempt. quietly. Qed.
#[local] Hint Resolve quiet_resolve_retry : quiet.
Lemma quiet_retry_source t : quiet (retry_source t : M _).
Proof. unfold retry_source. quietly. Qed.
#[local] Hint Resolve quiet_retry_source : quiet.

(** ** Reply delivery *)
Lemma quiet_source_job r : quiet (source_job_for_reply r : M _).
Proof. unfold source_job_for_reply. quietly. Qed.
#[local] Hint Resolve quiet_source_job : quiet.
Lemma quiet_format_body r : quiet (format_reply_delivery_body float_of_text r : M _).
Proof. unfold format_reply_delivery_body. quietly. Qed.
Lemma quiet_head_reply a : quiet (head_reply_event a : M _).
Proof. unfold head_reply_event. quietly. Qed.
Lemma quiet_rewrite_head c r x s t b : quiet (rewrite_reply_head c r x s t b : M _).
Proof. unfold rewrite_reply_head. quietly. Qed.
#[local] Hint Resolve quiet_format_body quiet_head_reply quiet_rewrite_head : quiet.
Lemma quiet_reset_head h r a : quiet (reset_stale_reply_head h r a : M _).
Proof. unfold reset_stale_reply_head. quietly. Qed.
Lemma quiet_project_id a : quiet (project_id_for_agent a : M _).
Proof. unfold project_id_for_agent. quietly. Qed.
Lemma quiet_resolve_terminal j t : quiet (resolve_reply_delivery_terminal j t : M _).
Proof. unfold resolve_reply_delivery_terminal. quietly. Qed.
#[local] Hint Resolve quiet_reset_head quiet_project_id quiet_resolve_terminal : quiet.
Lemma quiet_existing_delivery a h r : quiet (resolve_existing_delivery_job a h r : M _).
Proof. unfold resolve_existing_delivery_job. quietly. Qed.
Lemma quiet_delivery_message r a t p j : quiet (append_reply_delivery_message r a t p j : M _).
Proof. unfold append_reply_delivery_message. quietly. Qed.
Lemma quiet_orphaned h r a : quiet (repair_orphaned_lease h r a : M _).
Proof. unfold repair_orphaned_lease. quietly. Qed.
Lemma quiet_claimable_delivery a : quiet (claimable_reply_delivery_job_ids a : M _).
Proof. unfold claimable_reply_delivery_job_ids. quietly. Qed.
Lemma quiet_claim_start j t : quiet (claim_reply_delivery_start j t : M _).
Proof. unfold claim_reply_delivery_start. quietly. Qed.

(** ** Ending and starting *)
Lemma quiet_spill j x t : quiet (spill_terminal_reply_if_needed j x t : M _).
Proof. unfold spill_terminal_reply_if_needed. quietly. Qed.
Lemma quiet_terminal_snapshot j x s t : quiet (write_terminal_snapshot j x s t : M _).
Proof. unfold write_terminal_snapshot. quietly. Qed.
Lemma quiet_retry_scheduled j c r t : quiet (append_retry_scheduled_event j c r t : M _).
Proof. unfold append_retry_scheduled_event. quietly. Qed.
Lemma quiet_nonretryable j x k t : quiet (append_nonretryable_failure_event j x k t : M _).
Proof. unfold append_nonretryable_failure_event. quietly. Qed.
#[local] Hint Resolve quiet_nonretryable : quiet.
Lemma quiet_without_retry j k x t : quiet (reply_decision_without_automatic_retry j k x t : M _).
Proof. unfold reply_decision_without_automatic_retry. quietly. Qed.
Lemma quiet_runnable a : quiet (runnable_slot a : M _).
Proof. unfold runnable_slot. quietly. Qed.
Lemma quiet_refresh_slot s : quiet (refresh_slot_runtime_for_start s : M _).
Proof. unfold refresh_slot_runtime_for_start. quietly. Qed.

(** *** Jobs that are attended to from now on *)
Lemma nearly_start_tracking j n p f t : nearly j (in_tracker (start j n p f t) : M _).
Proof.
  intros d. unfold st_exec, in_tracker. destruct (start j n p f t (dp_tracker d)) as [r s] eqn:Hs.
  split; try done; [by left|]. intros id [Ht|Ht]; [|by left; right].
  destruct (decide (id = j)) as [->|Hne]; [by right|left; left].
  enough (sv_trackers s !! id = sv_trackers (dp_tracker d) !! id) as <- by done.
  unfold start in Hs. rewrite st_gets_bind in Hs. unfold mbind, st_bind, st_lift in Hs.
  destruct (context_post_init _); [|by injection Hs as _ <-].
  destruct (cursor_post_init _); [|by injection Hs as _ <-]. cbn in Hs. unfold Tracker.current in Hs.
  revert Hs. case_match; intros [= _ <-]; cbn; by rewrite lookup_insert_ne.
Qed.
Lemma nearly_start_tracker j t : nearly (jb_job_id j) (start_tracker j t : M _).
Proof.
  unfold start_tracker.
  do 3 (apply nearly_bind; [apply nearly_quiet; quietly|intros ?]).
  apply nearly_bind; [apply nearly_start_tracking|intros ?]. apply nearly_quiet. quietly.
Qed.
Lemma nearly_running_snapshot j t : nearly (jb_job_id j) (write_running_snapshot j t : M _).
Proof.
  unfold write_running_snapshot. apply nearly_bind; [apply nearly_start_tracker|intros ?].
  apply nearly_quiet. quietly.
Qed.
Lemma nearly_in_env {A} j (m : E → result A * E) : env_adds j m → nearly j (in_env m : M A).
Proof.
  intros Hm d. specialize (Hm (dp_env d)). unfold st_exec, in_env. destruct (m (dp_env d)) as [r e].
  split; try done; [by left|]. intros id [Ht|Ht]; [by left; left|].
  destruct (Hm id Ht); [by left; right|by right].
Qed.

(** ** Polling *)
Lemma nearly_ensure_tracked j : nearly (jb_job_id j) (ensure_tracked j : M _).
Proof.
  unfold ensure_tracked. apply nearly_bind; [apply nearly_quiet; quietly|intros v].
  case_match; [apply nearly_quiet; quietly|]. apply nearly_bind; [apply nearly_start_tracker|intros ?].
  apply nearly_quiet. quietly.
Qed.
Lemma quiet_ingest_items j i v l : quiet (ingest_items j i v l : M _).
Proof. revert v. induction l; cbn [ingest_items]; intros; quietly. Qed.
#[local] Hint Resolve quiet_ingest_items : quiet.
Lemma nearly_ingest_update j u : nearly (jb_job_id j) (ingest_update_items j u : M _).
Proof.
  unfold ingest_update_items. apply nearly_bind; [apply nearly_quiet; quietly|intros v].
  apply nearly_bind; [|intros ?; apply nearly_quiet; quietly].
  case_match; [apply nearly_quiet; quietly|]. apply nearly_bind; [apply nearly_start_tracker|intros ?].
  apply nearly_quiet. quietly.
Qed.
End quiet.

#[export] Hint Resolve law_patch law_ensure law_refresh law_cancel law_finish law_acknowledge
  law_acknowledge_item law_poll tracks_current tracks_finish tracks_ingest tracks_tick_all : quiet.
#[export] Hint Resolve quiet_in_bureau quiet_in_mailbox quiet_in_texts quiet_in_tracker quiet_in_env
  quiet_of_env quiet_of_queues quiet_of_bureau quiet_clock quiet_draw quiet_list_jobs quiet_latest_job
  quiet_get_job quiet_latest_for quiet_append_event quiet_sync quiet_load_snapshot
  quiet_write_completion quiet_apply_view quiet_resolve_targets quiet_targets_available : quiet.
#[export] Hint Resolve quiet_raise_dispatch quiet_validate_callback quiet_register quiet_record_notice
  quiet_latest_edge quiet_update_edge quiet_fail_edge quiet_mark_done quiet_mark_waiting
  quiet_existing_continuation quiet_job_for_reply quiet_continuation_request quiet_append_submission
  quiet_pending_status quiet_sweep : quiet.
#[export] Hint Resolve quiet_submission_append quiet_plan_for quiet_plan_submission
  quiet_plan_resubmission quiet_retry_source quiet_format_body quiet_head_reply quiet_rewrite_head
  quiet_reset_head quiet_project_id quiet_resolve_terminal quiet_existing_delivery
  quiet_delivery_message quiet_orphaned quiet_claimable_delivery quiet_claim_start : quiet.
#[export] Hint Resolve quiet_spill quiet_terminal_snapshot quiet_retry_scheduled quiet_without_retry
  quiet_runnable quiet_refresh_slot quiet_ingest_items : quiet.
