(* ===== verification/DispatcherInvariant.v ===== *)
(** * How rows of jobs are written

    The places where the dispatcher appends a row of a job and moves the job
    through the queues, each as one step that keeps the invariant of
    [DispatcherFrame]: a new job, a job that ends, a further row of a job whose
    status stays. *)
From stdpp Require Import pretty.
From Stdlib Require Import QArith.
From S2P Require Import Prelude PyValue Names CompletionModels ExecutionModels Tracker TextArtifacts JobModels.
From S2P Require Import MailboxModels MailboxKernel BureauModels Bureau RetryPolicy.
From S2P Require Import DispatcherState JobQueues Dispatcher Callbacks Submission ReplyDelivery.
From S2P Require Import Finalization Scheduling Polling DispatcherFrame DispatcherQuiet.
Open Scope string_scope.
Open Scope list_scope.
Open Scope nat_scope.

Create HintDb keeps discriminated.

Section rows.
Context {E : Type} `{Attends E} `{Clock} `{Uuids} (Huuid : Inj (=) (=) uuid_hex12) `{DispatcherConfig}.
Implicit Types d : dispatcher E.
Abbreviation M := (DM E).

(** ** Operations that keep the invariant *)
Definition keeps {A} (q b : bool) (m : M A) : Prop :=
  ∀ d0, triple (world q b d0) m (λ _, world q b d0) (world q b d0).

Lemma keeps_at {A} q b d0 (m : M A) :
  keeps q b m → triple (world q b d0) m (λ _, world q b d0) (world q b d0).
Proof. intros Hm. apply Hm. Qed.
Lemma keeps_quiet {A} q b (m : M A) : quiet m → keeps q b m.
Proof. intros Hm d0. apply quiet_triple; [apply world_stable|done]. Qed.
Lemma keeps_bind {A B} q b (m : M A) (f : A → M B) :
  keeps q b m → (∀ a, keeps q b (f a)) → keeps q b (m ≫= f).
Proof. intros Hm Hf d0. eapply triple_bind; [apply Hm|]. intros a. apply Hf. Qed.
Lemma keeps_try {A} q b (m : M A) h : keeps q b m → (∀ e, keeps q b (h e)) → keeps q b (st_try m h).
Proof. intros Hm Hh d0. eapply triple_try; [apply Hm|]. intros e. apply Hh. Qed.

(** A job that has ended stays as it is. *)
Definition ended (a id : string) (s : JobStatus) d : Prop := status_of d a id = Some s.
Definition ends (s : JobStatus) : Prop := stage (Some s) = 3.

Lemma evolves_ended b d d' a id s : ends s → evolves b d d' → ended a id s d → ended a id s d'.
Proof.
  intros Hs [_ Hm] He. destruct (Hm a id) as (_ & K2 & _). unfold ended in *. rewrite He in *.
  by apply K2.
Qed.

Definition world_with (q b : bool) d0 a id s d : Prop := world q b d0 d ∧ ended a id s d.
Lemma keeps_ended {A} q b (m : M A) d0 a id s :
  keeps q b m → ends s →
  triple (world_with q b d0 a id s) m (λ _, world_with q b d0 a id s) (world_with q b d0 a id s).
Proof.
  intros Hm Hs d [Hw He]. specialize (Hm d d (world_again _ _ _ _ Hw)).
  destruct (m d) as [[x|e] d'].
  all: split; [by eapply world_trans|]; eapply evolves_ended; [done|apply Hm|done].
Qed.

(** ** What is known of a job *)
Definition known_job (j : JobRecord) d : Prop := job_of d (jb_target_name j) (jb_job_id j) = Some j.
Lemma known_stable j : stable (known_job j).
Proof. intros d d' Hs. unfold known_job. by rewrite (same_jobs_job _ _ _ _ _ Hs). Qed.
Lemma known_status j d : known_job j d → status_of d (jb_target_name j) (jb_job_id j) = Some (jb_status j).
Proof. intros Hk. unfold status_of. by rewrite Hk. Qed.

(** An id that was drawn and is not in any log. *)
Definition fresh_id (id : string) d : Prop :=
  (∃ k, k < uuids_drawn d ∧ id = job_uuid k) ∧ ∀ a, job_of d a id = None.
Lemma fresh_stable id : stable (fresh_id id).
Proof.
  intros d d' Hs [(k & Hk & ->) Hn]. split.
  - exists k. split; [|done]. pose proof (sj_uuids _ _ Hs). lia.
  - intros a. by rewrite (same_jobs_job _ _ _ _ _ Hs).
Qed.

Lemma stable_and P Q : stable P → stable Q → stable (λ d : dispatcher E, P d ∧ Q d).
Proof. intros HP HQ d d' Hs [? ?]. split; [by eapply HP|by eapply HQ]. Qed.

(** The result of a constructor. *)
Definition made (j : JobRecord) : Prop := ∃ k j0, job_post_init k j0 = Ok j.
Lemma make_job_made j0 j : make_job j0 = Ok j → made j.
Proof. intros Hj. by exists (PStr (target_kind_value (jb_target_kind j0))), j0. Qed.
Lemma make_job_same j0 j :
  make_job j0 = Ok j → jb_job_id j = jb_job_id j0 ∧ jb_status j = jb_status j0 ∧
  normalize_agent_name (target_or_agent (jb_target_name j0) (jb_agent_name j0)) = Ok (jb_target_name j).
Proof. unfold make_job, job_post_init. intros Hj. inv_result. by subst j. Qed.

Lemma made_facts j :
  made j → jb_job_id j ≠ "" ∧ jb_agent_name j = jb_target_name j ∧ jb_target_name j ≠ "" ∧
  normalize_agent_name (jb_target_name j) = Ok (jb_target_name j).
Proof.
  intros (k & j0 & Hj). unfold job_post_init in Hj. inv_result. subst j. cbn.
  match goal with Hn : normalize_agent_name _ = Ok _ |- _ =>
    pose proof (normalize_agent_name_inv _ _ Hn) as (_ & ? & _);
    pose proof (normalize_agent_name_idem' _ _ Hn) end.
  match goal with Hb : (jb_job_id _ =ˢ _) = false |- _ => apply bool_decide_eq_false_1 in Hb end.
  done.
Qed.

(** ** Appending a row *)
Record appended d d' (j : JobRecord) : Prop := {
  ad_rows : jobs_of d' (jb_target_name j) = jobs_of d (jb_target_name j) ++ [j];
  ad_other b : b ≠ jb_target_name j → jobs_of d' b = jobs_of d b;
  ad_uuids : uuids_drawn d <= uuids_drawn d';
  ad_index id slot : target_for_job id (dp_state d') = Some slot →
    target_for_job id (dp_state d) = Some slot ∨ indexed d' id slot;
  ad_attended id : attended d' id → attended d id ∨ id = jb_job_id j ∧ 2 <= stage (Some (jb_status j))
}.

Lemma appended_then d d1 d2 j : appended d d1 j → same_jobs d1 d2 → appended d d2 j.
Proof.
  intros [K1 K2 K3 K4 K5] Hs. split.
  - by rewrite (sj_jobs _ _ Hs).
  - intros. rewrite (sj_jobs _ _ Hs). auto.
  - pose proof (sj_uuids _ _ Hs). lia.
  - intros id slot Ht. destruct (sj_index _ _ Hs _ _ Ht) as [Ht1|]; [|by right].
    destruct (K4 _ _ Ht1) as [|]; [by left|right]. by eapply same_jobs_indexed.
  - intros id Hi. apply K5. by destruct (sj_attended _ _ Hs _ Hi).
Qed.
(** The job is attended to when its row says that it has started. *)
Lemma appended_near d d1 d2 j :
  appended d d1 j → 2 <= stage (Some (jb_status j)) → same_upto (λ i, i = jb_job_id j) d1 d2 → appended d d2 j.
Proof.
  intros Ha Hj Hs. pose proof Ha as [K1 K2 K3 K4 K5]. split.
  - by rewrite (sj_jobs _ _ Hs).
  - intros. rewrite (sj_jobs _ _ Hs). auto.
  - pose proof (sj_uuids _ _ Hs). lia.
  - intros id slot Ht. destruct (sj_index _ _ Hs _ _ Ht) as [Ht1|]; [|by right].
    destruct (K4 _ _ Ht1) as [|]; [by left|right]. by eapply same_jobs_indexed.
  - intros id Hi. destruct (sj_attended _ _ Hs _ Hi) as [|]; auto.
Qed.

Lemma appended_job d d' j id :
  appended d d' j →
  job_of d' (jb_target_name j) id = if jb_job_id j =ˢ id then Some j else job_of d (jb_target_name j) id.
Proof. intros [K1]. unfold job_of. by rewrite K1, latest_job_snoc. Qed.
Lemma appended_job_ne d d' j a id : appended d d' j → a ≠ jb_target_name j → job_of d' a id = job_of d a id.
Proof. intros [_ K2] Ha. unfold job_of. by rewrite K2. Qed.

Lemma appended_world q b d0 d d' j :
  world q b d0 d → appended d d' j → row_ok (uuids_drawn d') (jb_target_name j) j →
  (∀ a, a ≠ jb_target_name j → job_of d a (jb_job_id j) = None) →
  moves b (status_of d (jb_target_name j) (jb_job_id j)) (Some (jb_status j)) →
  length (running_ids (jobs_of d (jb_target_name j) ++ [j])) <= 1 →
  (q = true → queues_ok d') →
  world q b d0 d'.
Proof.
  intros [Hl Hsr Hu Hi _ Hat He] Ha Hrow Hone Hm Hlen Hq.
  assert (evolves b d d') as Hev.
  { split; [apply Ha|]. intros a id. unfold status_of in *.
    destruct (decide (a = jb_target_name j)) as [->|N];
      [|rewrite (appended_job_ne _ _ _ _ _ Ha N); apply moves_refl].
    rewrite (appended_job _ _ _ _ Ha). case_bool_decide as Eid; [by subst id|apply moves_refl]. }
  split; [| | | |done| |by eapply evolves_trans].
  - intros a r Hr. destruct (decide (a = jb_target_name j)) as [->|Hne].
    + rewrite (ad_rows _ _ _ Ha) in Hr. apply elem_of_app in Hr as [Hr| ->%list_elem_of_singleton]; [|done].
      eapply row_ok_mono; [apply Ha|by apply Hl].
    + rewrite (ad_other _ _ _ Ha) in Hr by done. eapply row_ok_mono; [apply Ha|by apply Hl].
  - intros a. destruct (decide (a = jb_target_name j)) as [->|Hne].
    + by rewrite (ad_rows _ _ _ Ha).
    + by rewrite (ad_other _ _ _ Ha).
  - intros a1 a2 id. destruct (decide (jb_job_id j = id)) as [<-|Hid].
    + intros K1 K2. destruct (decide (a1 = jb_target_name j)) as [->|N1];
        [|rewrite (appended_job_ne _ _ _ _ _ Ha N1), (Hone _ N1) in K1; by destruct K1].
      destruct (decide (a2 = jb_target_name j)) as [->|N2]; [done|].
      rewrite (appended_job_ne _ _ _ _ _ Ha N2), (Hone _ N2) in K2. by destruct K2.
    + assert (∀ a, job_of d' a id = job_of d a id) as Hsame.
      { intros a. destruct (decide (a = jb_target_name j)) as [->|N];
          [|by apply (appended_job_ne _ _ _ _ _ Ha)].
        by rewrite (appended_job _ _ _ _ Ha), bool_decide_eq_false_2. }
      rewrite !Hsame. apply Hu.
  - intros id slot Ht. destruct (ad_index _ _ _ Ha _ _ Ht) as [Ht'|]; [|done].
    destruct (Hi _ _ Ht') as (n & Hn & x & Hx). exists n. split; [done|].
    destruct (decide (n = jb_target_name j)) as [->|N].
    + rewrite (appended_job _ _ _ _ Ha). case_bool_decide; [done|by exists x].
    + rewrite (appended_job_ne _ _ _ _ _ Ha N). by exists x.
  - intros Hqt id Hid. destruct (ad_attended _ _ _ Ha _ Hid) as [Hd|[-> Hj]].
    + eapply evolves_beyond; [done|by apply Hat].
    + exists (jb_target_name j). unfold status_of.
      by rewrite (appended_job _ _ _ _ Ha), bool_decide_eq_true_2.
Qed.

Lemma append_job_does j d :
  made j →
  ∃ d', append_job j d = (Ok tt, d') ∧ appended d d' (stored_job j) ∧
        (∀ slot, queue_at slot (dp_state d') = queue_at slot (dp_state d)) ∧
        (∀ slot, active_job_for slot (dp_state d') = active_job_for slot (dp_state d)).
Proof.
  intros (_ & _ & _ & Hn)%made_facts. unfold append_job, job_store_append.
  eexists. split.
  { unfold mbind, st_bind, st_lift. rewrite Hn. reflexivity. }
  cbn. split_and!.
  - set (d' := with_queues _ _).
    assert (jobs_of d' (jb_target_name j) = jobs_of d (jb_target_name j) ++ [stored_job j]) as Hrows.
    { unfold jobs_of at 1. cbn. by rewrite lookup_insert_eq. }
    split; [exact Hrows| |done| |by left].
    + intros a Ha. unfold jobs_of. cbn. by rewrite lookup_insert_ne.
    + intros id slot [?|[-> ->]]%index_remember.
      * by left.
      * right. exists (jb_target_name j). split; [by rewrite job_slot_of|].
        unfold job_of. rewrite Hrows, latest_job_snoc, bool_decide_eq_true_2 by done. by eexists.
  - intros slot. apply queue_at_remember.
  - intros slot. apply active_remember.
Qed.

Lemma append_event_does j ty p t d :
  made j → ty ≠ "" → ∃ d', append_event j ty p t d = (Ok tt, d') ∧ same_jobs d d'.
Proof.
  intros (Hid & Ha & Ht & Hn)%made_facts Hty.
  assert (∃ d', append_event j ty p t d = (Ok tt, d')) as [d' Hd'].
  { unfold append_event, draw_id, in_bureau, new_id, mbind, st_bind, st_lift, job_event_post_init.
    apply bool_decide_ne in Hid, Hty, Ht. cbn -[target_kind_of normalize_agent_name].
    rewrite Hid, Hty, target_kind_of_value. unfold target_or_agent. rewrite Ht.
    cbn -[normalize_agent_name]. rewrite Hn. cbn -[normalize_agent_name].
    rewrite bool_decide_ne by done. cbn -[normalize_agent_name]. rewrite Hn. by eexists. }
  exists d'. split; [done|]. pose proof (quiet_append_event j ty p t d) as Hq.
  unfold st_exec in Hq. by rewrite Hd' in Hq.
Qed.

(** ** A new job *)
Lemma stored_same j :
  jb_job_id (stored_job j) = jb_job_id j ∧ jb_target_name (stored_job j) = jb_target_name j ∧
  jb_agent_name (stored_job j) = jb_agent_name j ∧ jb_status (stored_job j) = jb_status j.
Proof. done. Qed.

Lemma made_row_ok n j : made j → (∃ k, k < n ∧ jb_job_id j = job_uuid k) → row_ok n (jb_target_name j) (stored_job j).
Proof. intros (_ & Ha & _ & Hn)%made_facts Hid. by split. Qed.

Lemma world_agent q b d0 d a :
  world q b d0 d → q = true → a ∈ agent_names → agent_consistent (jobs_of d a) a (dp_state d).
Proof. intros [_ _ _ _ Hq] Hqt. by apply Hq. Qed.

Lemma pending_stage s : pending_states s = true → stage (Some s) = 1.
Proof. by destruct s. Qed.
Lemma moves_new b s : pending_states s = true → moves b None (Some s).
Proof. intros Hs%pending_stage. unfold moves. rewrite Hs. split_and!; [cbn; lia|done|lia]. Qed.
Lemma pending_not_running s : pending_states s = true → is_running s = false.
Proof. by destruct s. Qed.
Lemma ends_flags s : ends s → pending_states s = false ∧ is_running s = false.
Proof. by destruct s. Qed.

(** The queues of the other agents. *)
Lemma others_consistent q b d0 d d' j :
  world q b d0 d → appended d d' j →
  (q = true → ∀ a, a ∈ agent_names → a ≠ jb_target_name j →
     queue_at (slot_of a) (dp_state d') = queue_at (slot_of a) (dp_state d) ∧
     active_job_for (slot_of a) (dp_state d') = active_job_for (slot_of a) (dp_state d)) →
  (q = true → jb_target_name j ∈ agent_names →
     agent_consistent (jobs_of d (jb_target_name j) ++ [j]) (jb_target_name j) (dp_state d')) →
  q = true → queues_ok d'.
Proof.
  intros Hw Ha Hoth Hown Hq a Hin. destruct (decide (a = jb_target_name j)) as [->|Hne].
  - rewrite (ad_rows _ _ _ Ha). by apply Hown.
  - rewrite (ad_other _ _ _ Ha) by done. destruct (world_agent _ _ _ _ a Hw Hq Hin) as [K1 K2].
    destruct (Hoth Hq a Hin Hne) as [E1 E2].
    split; [by rewrite E1|by rewrite E2].
Qed.

Lemma slot_of_inj a c : slot_of a = slot_of c → a = c.
Proof. by intros [= ->]. Qed.

Lemma new_job_does q b d0 job ty p t d :
  made job → pending_states (jb_status job) = true → ty ≠ "" →
  world q b d0 d → fresh_id (jb_job_id job) d →
  ∃ d', (_ ← append_job job; _ ← append_event job ty p t;
         on_queues (enqueue_for (job_slot job) (jb_job_id job))) d = (Ok tt, d') ∧ world q b d0 d'.
Proof.
  intros Hj Hp Hty Hw [Hdrawn Hnone].
  destruct (append_job_does job d Hj) as (d1 & E1 & Ha & Hq1 & Hact1).
  destruct (append_event_does job ty p t d1 Hj Hty) as (d2 & E2 & Hs).
  eexists. split.
  { unfold mbind, st_bind. rewrite E1, E2. reflexivity. }
  assert (∀ c, queue_at (slot_of c) (enqueue_for (job_slot job) (jb_job_id job) (dp_state d2)) =
    queue_at (slot_of c) (dp_state d) ++ (if c =ˢ jb_target_name job then [jb_job_id job] else [])) as Hqueue.
  { intros c. unfold enqueue_for. rewrite job_slot_of, queue_at_put.
    rewrite !(sj_queue _ _ Hs), !Hq1. destruct (decide (slot_of (jb_target_name job) = slot_of c)) as [Es|Es].
    - rewrite bool_decide_eq_true_2 by done. apply slot_of_inj in Es as <-. by rewrite bool_decide_eq_true_2.
    - rewrite !bool_decide_eq_false_2, app_nil_r by congruence. done. }
  assert (∀ c, active_job_for (slot_of c) (enqueue_for (job_slot job) (jb_job_id job) (dp_state d2)) =
    active_job_for (slot_of c) (dp_state d)) as Hactive.
  { intros c. rewrite <- Hact1, <- (sj_active _ _ Hs). done. }
  set (d3 := with_queues _ d2).
  assert (appended d d3 (stored_job job)) as Ha3.
  { destruct (appended_then _ _ _ _ Ha Hs). by split. }
  apply (appended_world q b d0 d d3 (stored_job job)); [done|done| | | | |].
  - apply (made_row_ok _ job); [done|]. destruct Hdrawn as (k & Hk & Eid). exists k. split; [|done].
    pose proof (ad_uuids _ _ _ Ha3). lia.
  - intros. apply Hnone.
  - cbn. unfold status_of. rewrite Hnone. by apply moves_new.
  - unfold running_ids. rewrite ids_with_new by (apply Hnone). cbn.
    rewrite pending_not_running, app_nil_r by done. apply (wd_single _ _ _ _ Hw).
  - eapply others_consistent; [done|done| |].
    + intros _ a _ Hne. cbn in *. rewrite Hqueue, Hactive, bool_decide_eq_false_2, app_nil_r by done. done.
    + intros Hqt Hin. cbn in Hin |- *. destruct (world_agent _ _ _ _ _ Hw Hqt Hin) as [K1 K2].
      split.
      * rewrite Hqueue, bool_decide_eq_true_2, K1 by done. unfold pending_ids.
        rewrite ids_with_new by (apply Hnone). cbn. by rewrite Hp.
      * rewrite Hactive, <- K2. unfold running_ids. rewrite ids_with_new by (apply Hnone). cbn.
        by rewrite pending_not_running, app_nil_r.
Qed.

(** ** A further row

    [d1] is [d] with the job's place in the queues changed; then come quiet
    changes and the row [t]. *)
Lemma known_unique q b d0 d c a :
  world q b d0 d → known_job c d → a ≠ jb_target_name c → job_of d a (jb_job_id c) = None.
Proof.
  intros Hw Hc Hne. destruct (job_of d a (jb_job_id c)) as [x|] eqn:Hx; [|done].
  destruct Hne. eapply (wd_unique _ _ _ _ Hw); [by rewrite Hx|by rewrite Hc].
Qed.

Lemma known_drawn q b d0 d c :
  world q b d0 d → known_job c d → row_ok (uuids_drawn d) (jb_target_name c) c.
Proof. intros Hw [_ Hin]%latest_job_id. by apply (wd_logs _ _ _ _ Hw). Qed.

Lemma next_row_world q b d0 d d' c t :
  world q b d0 d → known_job c d → made t → jb_job_id t = jb_job_id c → jb_target_name t = jb_target_name c →
  appended d d' (stored_job t) → moves b (Some (jb_status c)) (Some (jb_status t)) →
  length (running_ids (jobs_of d (jb_target_name c) ++ [stored_job t])) <= 1 →
  (q = true → ∀ a, a ∈ agent_names → a ≠ jb_target_name c →
     queue_at (slot_of a) (dp_state d') = queue_at (slot_of a) (dp_state d) ∧
     active_job_for (slot_of a) (dp_state d') = active_job_for (slot_of a) (dp_state d)) →
  (q = true → jb_target_name c ∈ agent_names →
     agent_consistent (jobs_of d (jb_target_name c)) (jb_target_name c) (dp_state d) →
     agent_consistent (jobs_of d (jb_target_name c) ++ [stored_job t]) (jb_target_name c) (dp_state d')) →
  world q b d0 d' ∧ status_of d' (jb_target_name c) (jb_job_id c) = Some (jb_status t).
Proof.
  intros Hw Hc Ht Hid Htgt Ha Hm Hlen Hoth Hown. split.
  - apply (appended_world q b d0 d d' (stored_job t)); [done|done| | | |cbn; by rewrite Htgt|].
    + apply (made_row_ok _ t Ht). destruct (ro_id _ _ _ (known_drawn _ _ _ _ _ Hw Hc)) as (k & Hk & Ek).
      exists k. split; [|by rewrite Hid]. pose proof (ad_uuids _ _ _ Ha). lia.
    + cbn. rewrite Hid, Htgt. intros a Hne. by eapply known_unique.
    + cbn. rewrite Hid, Htgt, (known_status _ _ Hc). done.
    + eapply others_consistent; [done|done|cbn; by rewrite Htgt|]. cbn. rewrite Htgt.
      intros Hq Hin. apply Hown; [done..|]. by eapply world_agent.
  - unfold status_of. rewrite <- Htgt. pose proof (appended_job _ _ _ (jb_job_id c) Ha) as Hj. cbn in Hj.
    rewrite Hj, bool_decide_eq_true_2 by done. done.
Qed.

(** A row with the status the job has. *)
Lemma same_row_does q b d0 d c t :
  world q b d0 d → known_job c d → made t → jb_job_id t = jb_job_id c → jb_target_name t = jb_target_name c →
  jb_status t = jb_status c →
  ∃ d', append_job t d = (Ok tt, d') ∧ world q b d0 d' ∧
        status_of d' (jb_target_name c) (jb_job_id c) = Some (jb_status c).
Proof.
  intros Hw Hc Ht Hid Htgt Hs. destruct (append_job_does t d Ht) as (d' & E1 & Ha & Hq & Hact).
  exists d'. split; [done|]. rewrite <- Hs. eapply next_row_world; try done.
  - rewrite Hs. apply moves_refl.
  - unfold running_ids. erewrite ids_with_same; [apply (wd_single _ _ _ _ Hw)|cbn; rewrite Hid; exact Hc|].
    cbn. by rewrite Hs.
  - intros _ _ Hok. eapply same_status_consistent; [done|cbn; by rewrite Hid|done|by rewrite Hq|by rewrite Hact].
Qed.

(** *** The end of a job *)
Lemma moves_end b s s' : ends s' → stage (Some s) ≠ 3 → moves b (Some s) (Some s').
Proof. unfold ends. intros Hs Hn. unfold moves. rewrite Hs. split_and!; [|done|lia]. destruct s; cbn in *; lia. Qed.

(** The job [c] is out of the queue and not active. *)
Definition withdrawn (c : JobRecord) d d1 : Prop :=
  (∀ a, a ∈ agent_names → queue_at (slot_of a) (dp_state d1) =
        if a =ˢ jb_target_name c then remove_id (jb_job_id c) (queue_at (slot_of a) (dp_state d))
        else queue_at (slot_of a) (dp_state d)) ∧
  (∀ a, active_job_for (slot_of a) (dp_state d1) =
        if (a =ˢ jb_target_name c) && bool_decide (active_job_for (slot_of a) (dp_state d) = Some (jb_job_id c))
        then None else active_job_for (slot_of a) (dp_state d)).

Lemma withdrawn_then c d d1 d2 : withdrawn c d d1 → same_jobs d1 d2 → withdrawn c d d2.
Proof.
  intros [K1 K2] Hs. split; intros a; [intros; rewrite (sj_queue _ _ Hs); auto|by rewrite (sj_active _ _ Hs)].
Qed.

Lemma remove_id_length id l : length (remove_id id l) <= length l.
Proof. apply List.filter_length_le. Qed.
Lemma ended_single q b d0 d c t :
  world q b d0 d → known_job c d → jb_job_id t = jb_job_id c → ends (jb_status t) →
  length (running_ids (jobs_of d (jb_target_name c) ++ [stored_job t])) <= 1.
Proof.
  intros Hw Hc Hid Hs. destruct (ends_flags _ Hs) as [_ Hr]. unfold running_ids.
  erewrite ids_with_out; [|cbn; rewrite Hid; exact Hc|exact Hr].
  etrans; [apply remove_id_length|apply (wd_single _ _ _ _ Hw)].
Qed.

Lemma end_row_world q b d0 d d' c t :
  world q b d0 d → known_job c d → stage (Some (jb_status c)) ≠ 3 →
  made t → jb_job_id t = jb_job_id c → jb_target_name t = jb_target_name c → ends (jb_status t) →
  appended d d' (stored_job t) →
  (q = true → ∃ d1, withdrawn c d d1 ∧
     (∀ a, queue_at (slot_of a) (dp_state d') = queue_at (slot_of a) (dp_state d1)) ∧
     (∀ a, active_job_for (slot_of a) (dp_state d') = active_job_for (slot_of a) (dp_state d1))) →
  world q b d0 d' ∧ status_of d' (jb_target_name c) (jb_job_id c) = Some (jb_status t).
Proof.
  intros Hw Hc Hn Ht Hid Htgt Hs Ha Hwd. destruct q.
  - destruct (Hwd eq_refl) as (d1 & (K3 & K4) & Hq & Hact).
    eapply next_row_world; [exact Hw|done..|by apply moves_end|by eapply ended_single| |].
    + intros _ a Hin Hne. rewrite Hq, Hact, K3, K4, bool_decide_eq_false_2 by done. done.
    + intros _ Hin Hok. destruct (ends_flags _ Hs) as [Hp Hr].
      eapply ended_consistent; [done|cbn; rewrite Hid; exact Hc|done|done|..];
        change (jb_job_id (stored_job t)) with (jb_job_id t); rewrite Hid.
      * by rewrite Hq, K3, bool_decide_eq_true_2.
      * by rewrite Hact, K4, (bool_decide_eq_true_2 (jb_target_name c = jb_target_name c)).
  - eapply next_row_world; try done; [by apply moves_end|by eapply ended_single].
Qed.

Lemma index_clear id slot id' s : target_for_job id (clear_active_for slot id' s) = target_for_job id s.
Proof. unfold clear_active_for. by repeat case_match. Qed.
Lemma queue_at_clear slot slot' id s : queue_at slot (clear_active_for slot' id s) = queue_at slot s.
Proof. unfold clear_active_for. by repeat case_match. Qed.
Lemma active_clear a c id s :
  active_job_for (slot_of a) (clear_active_for (slot_of c) (Some id) s) =
  if (a =ˢ c) && bool_decide (active_job_for (slot_of a) s = Some id) then None
  else active_job_for (slot_of a) s.
Proof.
  unfold clear_active_for. destruct (decide (a = c)) as [->|Hne].
  - rewrite (bool_decide_eq_true_2 (c = c)) by done. cbn [andb].
    case_bool_decide; [|done]. unfold active_job_for. cbn. by rewrite lookup_delete_eq.
  - rewrite (bool_decide_eq_false_2 (a = c)) by done. cbn [andb].
    case_bool_decide; [|done]. unfold active_job_for. cbn.
    rewrite lookup_delete_ne; [done|]. intros ?%slot_of_inj. congruence.
Qed.
Lemma queue_at_remove a c id s :
  NoDup (queue_at (slot_of c) s) →
  queue_at (slot_of a) (remove_queued_for (slot_of c) id s).2 =
  if a =ˢ c then remove_id id (queue_at (slot_of a) s) else queue_at (slot_of a) s.
Proof.
  intros Hn. unfold remove_queued_for. pose proof (queue_remove_eq id _ Hn) as Hr.
  destruct (queue_remove id (queue_at (slot_of c) s)) as [f items]. cbn in *. subst items.
  rewrite queue_at_put. destruct (decide (a = c)) as [->|Hne].
  - by rewrite !bool_decide_eq_true_2.
  - rewrite !bool_decide_eq_false_2; [done|done|]. intros ?%slot_of_inj. congruence.
Qed.
Lemma queue_at_remove_ne a c id s :
  a ≠ c → queue_at (slot_of a) (remove_queued_for (slot_of c) id s).2 = queue_at (slot_of a) s.
Proof.
  intros Hne. unfold remove_queued_for. destruct (queue_remove _ _). cbn.
  rewrite queue_at_put, bool_decide_eq_false_2; [done|]. intros ?%slot_of_inj. congruence.
Qed.
Lemma active_remove slot slot' id s :
  active_job_for slot (remove_queued_for slot' id s).2 = active_job_for slot s.
Proof. unfold remove_queued_for. by destruct (queue_remove _ _). Qed.

Lemma world_queue_nodup q b d0 d a :
  world q b d0 d → q = true → a ∈ agent_names → NoDup (queue_at (slot_of a) (dp_state d)).
Proof. intros Hw Hq Ha. destruct (world_agent _ _ _ _ a Hw Hq Ha) as [-> _]. apply ids_with_nodup. Qed.

(** Taking a job out of the queue and off the agent. *)
Lemma withdraw_does b d0 d c :
  world true b d0 d →
  withdrawn c d (with_queues (clear_active_for (job_slot c) (Some (jb_job_id c))
                   (remove_queued_for (job_slot c) (jb_job_id c) (dp_state d)).2) d).
Proof.
  intros Hw. split; cbn [dp_state with_queues]; rewrite job_slot_of; intros a.
  - intros Ha. rewrite queue_at_clear. destruct (decide (a = jb_target_name c)) as [->|Hne].
    + apply queue_at_remove. by eapply world_queue_nodup.
    + rewrite bool_decide_eq_false_2 by done. by apply queue_at_remove_ne.
  - rewrite active_clear. by rewrite !active_remove.
Qed.
(** A running job only has to be taken off the agent. *)
Lemma withdraw_running b d0 d c :
  world true b d0 d → known_job c d → jb_status c = JS_running →
  withdrawn c d (with_queues (clear_active_for (job_slot c) (Some (jb_job_id c)) (dp_state d)) d).
Proof.
  intros Hw Hc Hr. split; cbn [dp_state with_queues]; rewrite job_slot_of; intros a.
  - intros Ha. rewrite queue_at_clear. case_bool_decide as Ea; [|done]. subst a. symmetry.
    eapply running_not_queued; [by eapply world_agent|exact Hc|by rewrite Hr].
  - by rewrite active_clear.
Qed.

Lemma end_running_does q b d0 d c t ty p tm :
  world q b d0 d → known_job c d → stage (Some (jb_status c)) ≠ 3 →
  (q = true → jb_status c = JS_running) →
  made t → jb_job_id t = jb_job_id c → jb_target_name t = jb_target_name c → ends (jb_status t) →
  ty ≠ "" →
  ∃ d', (_ ← append_job t; _ ← append_event t ty p tm;
         on_queues (clear_active_for (job_slot c) (Some (jb_job_id c)))) d = (Ok tt, d') ∧
        world q b d0 d' ∧ status_of d' (jb_target_name c) (jb_job_id c) = Some (jb_status t).
Proof.
  intros Hw Hc Hn Hrun Ht Hid Htgt Hs Hty.
  destruct (append_job_does t d Ht) as (d1 & E1 & Ha & Hq1 & Hact1).
  destruct (append_event_does t ty p tm d1 Ht Hty) as (d2 & E2 & Hsame).
  eexists. split; [unfold mbind, st_bind; rewrite E1, E2; reflexivity|].
  eapply (end_row_world q b d0 d); [done..| |].
  - destruct (appended_then _ _ _ _ Ha Hsame) as [K1 K2 K3 K4 K5]. split; [done..| |exact K5].
    intros id slot. cbn [dp_state with_queues]. rewrite index_clear. apply K4.
  - intros ->. eexists. split; [by eapply withdraw_running, Hrun|].
    cbn [dp_state with_queues]. split; intros a.
    + by rewrite !queue_at_clear, (sj_queue _ _ Hsame), Hq1.
    + by rewrite job_slot_of, !active_clear, !(sj_active _ _ Hsame), !Hact1.
Qed.
End rows.
