(* ===== verification/DispatcherOps.v ===== *)
(** * Every operation keeps the invariant

    Submission, retries, deliveries, continuations, the end and the start of
    jobs, cancelling, polling, shutting down and restoring, from the steps of
    [DispatcherInvariant]. *)
From stdpp Require Import pretty.
From Stdlib Require Import QArith.
From S2P Require Import Prelude PyValue Names CompletionModels ExecutionModels Tracker TextArtifacts JobModels.
From S2P Require Import MailboxModels MailboxKernel BureauModels Bureau RetryPolicy.
From S2P Require Import DispatcherState JobQueues Dispatcher Callbacks Submission ReplyDelivery.
From S2P Require Import Finalization Scheduling Polling DispatcherFrame DispatcherQuiet.
From S2P Require Import DispatcherInvariant.
Open Scope string_scope.
Open Scope list_scope.
Open Scope nat_scope.

Ltac keep_step :=
  first
    [ solve [eauto with keeps nocore]
    | apply keeps_quiet; solve [eauto with quiet grows nocore]
    | apply keeps_bind; [|intros ?]
    | apply keeps_try; [|intros ?]
    | apply keeps_quiet; first [apply quiet_ret | apply quiet_lift | apply quiet_raise | apply quiet_gets]
    | progress case_match ].
Ltac keep_going := repeat keep_step.

Section ops.
Context {E : Type} `{ServiceLaws E} `{Clock} `{Uuids} (Huuid : Inj (=) (=) uuid_hex12).
Context `{DispatcherConfig} `{CompletionLib} `{TextLib}.
Context (iso_plus : string → Q → result string) (known : gset string)
  (decoded : list ascii → string) (float_of_text : string → option Q).
Abbreviation M := (DM E).
Implicit Types d : dispatcher E.

Lemma seq3 {A} (m1 m2 m3 : M unit) (k : M A) d d' :
  (_ ← m1; _ ← m2; m3) d = (Ok tt, d') → (_ ← m1; _ ← m2; _ ← m3; k) d = k d'.
Proof.
  unfold mbind, st_bind. destruct (m1 d) as [[u|e] d1]; [|done].
  destruct (m2 d1) as [[u'|e] d2]; [|done]. by intros ->.
Qed.

(** ** New jobs *)
Section new.
Context (q b : bool).

Lemma draw_fresh d0 :
  triple (world q b d0) (draw_id "job" : M string)
    (λ id d, world q b d0 d ∧ fresh_id id d) (world q b d0).
Proof.
  intros d Hw. pose proof (quiet_draw (E := E) "job" d) as Hs. unfold st_exec in Hs.
  assert (draw_id "job" d = (Ok (job_uuid (uuids_drawn d)), (draw_id "job" d).2)) as Ed by done.
  rewrite Ed. split; [by eapply world_stable|]. split.
  - exists (uuids_drawn d). split; [|done].
    change (uuids_drawn (draw_id "job" d).2) with (S (uuids_drawn d)). lia.
  - intros a. rewrite (same_jobs_job _ _ _ _ _ Hs). destruct (job_of d a _) as [j|] eqn:Hj; [|done].
    apply latest_job_id in Hj as [Hid Hin]. destruct (ro_id _ _ _ (wd_logs _ _ _ _ Hw _ _ Hin)) as (k & Hk & Ek).
    rewrite Hid in Ek. apply (inj (String.append "job_")) in Ek. apply Huuid in Ek. lia.
Qed.

Lemma build_does (P : dispatcher E → Prop) draft id sid t :
  stable P →
  triple P (build_job_record draft id sid t : M _)
    (λ built d, P d ∧ made built.1 ∧ pending_states (jb_status built.1) = true ∧ jb_job_id built.1 = id) P.
Proof.
  intros HP d Hd. unfold build_job_record, pending_status, of_queues, st_gets, mbind, st_bind, st_lift. cbn.
  destruct (make_job _) as [j|e] eqn:Hj; [|done]. cbn. split; [done|].
  pose proof (make_job_same _ _ Hj) as (Hid & Hst & _). split; [by eapply make_job_made|].
  rewrite Hid, Hst. cbn. split; [by destruct (has_outstanding_for _ _)|done].
Qed.

Lemma queued_event_nonempty s : queued_event_type s ≠ "".
Proof. unfold queued_event_type. by case_bool_decide. Qed.

Lemma enqueue_keeps d0 job s t :
  made job → pending_states (jb_status job) = true →
  triple (λ d, world q b d0 d ∧ fresh_id (jb_job_id job) d) (enqueue_submitted_job job s t : M _)
    (λ _, world q b d0) (world q b d0).
Proof.
  intros Hj Hp d [Hw Hf].
  destruct (new_job_does q b d0 job (queued_event_type s) [("status", PStr (job_status_value s))] t d)
    as (d' & Ed & Hw'); [done|done|apply queued_event_nonempty|done|done|].
  unfold enqueue_submitted_job. rewrite (seq3 _ _ _ _ _ _ Ed).
  assert (keeps q b (_ ← sync_runtime (jb_agent_name job) None; st_lift (receipt_for_job job s t) : M _)) as Hk
    by keep_going.
  by apply Hk.
Qed.

(** The three steps that make a job, then whatever keeps the invariant. *)
Lemma spawn_keeps {A} draft sid t (k : string → JobRecord * JobStatus → AcceptedJobReceipt → M A) :
  (∀ id built r, keeps q b (k id built r)) →
  keeps q b (id ← draw_id "job"; built ← build_job_record draft id sid t;
             r ← enqueue_submitted_job built.1 built.2 t; k id built r).
Proof.
  intros Hk d0. eapply triple_bind; [apply draw_fresh|]. intros id.
  eapply triple_bind.
  { eapply triple_conseq; [apply (build_does (λ d, world q b d0 d ∧ fresh_id id d))|done|done|].
    - apply stable_and; [apply world_stable|apply fresh_stable].
    - by intros d []. }
  intros built. eapply triple_bind; [|intros r; apply Hk].
  intros d [Hwf (Hm & Hp & Hid)]. rewrite <- Hid in Hwf. by apply (enqueue_keeps d0 built.1 built.2 t Hm Hp).
Qed.

Ltac keep_spawning :=
  repeat lazymatch goal with
         | |- keeps _ _ (mbind _ (draw_id _)) => apply spawn_keeps; intros
         | _ => keep_step
         end.

Lemma submit_draft_keeps sid t draft : keeps q b (submit_draft sid t draft : M _).
Proof.
  apply (spawn_keeps draft sid t (λ _ built r, mret (r, built.1))).
  intros. apply keeps_quiet, quiet_ret.
Qed.
Lemma submit_drafts_keeps sid t l : keeps q b (submit_drafts sid t l : M _).
Proof.
  pose proof submit_draft_keeps. induction l; cbn [submit_drafts]; keep_going.
Qed.
Lemma submit_plan_keeps p t : keeps q b (submit_plan iso_plus p t : M _).
Proof. pose proof submit_drafts_keeps. unfold submit_plan. keep_going. Qed.
Lemma submit_jobs_keeps r : keeps q b (submit_jobs iso_plus decoded r : M _).
Proof. pose proof submit_plan_keeps. unfold submit_jobs. keep_going. Qed.
Lemma resubmit_keeps i : keeps q b (resubmit_message iso_plus decoded i : M _).
Proof. pose proof submit_plan_keeps. unfold resubmit_message. keep_going. Qed.
Lemma retry_keeps t : keeps q b (retry_attempt t : M _).
Proof. unfold retry_attempt. keep_spawning. Qed.

(** *** Continuations *)
Lemma pending_does (P : dispatcher E → Prop) a :
  triple P (pending_status a : M _) (λ s d, P d ∧ pending_states s = true) P.
Proof. intros d Hd. cbn. split; [done|]. by destruct (has_outstanding_for _ _). Qed.

Lemma enqueue_new_keeps d0 job p t :
  made job → pending_states (jb_status job) = true →
  triple (λ d, world q b d0 d ∧ fresh_id (jb_job_id job) d) (enqueue_new_job job p t : M _)
    (λ _, world q b d0) (world q b d0).
Proof.
  intros Hj Hp d [Hw Hf].
  destruct (new_job_does q b d0 job (queued_event_type (jb_status job)) p t d)
    as (d' & Ed & Hw'); [done|done|apply queued_event_nonempty|done|done|].
  unfold enqueue_new_job. rewrite (seq3 _ _ _ _ _ _ Ed).
  assert (keeps q b (sync_runtime (jb_agent_name job) None : M _)) as Hk by keep_going.
  by apply Hk.
Qed.

Lemma submit_continuation_keeps r p t : keeps q b (submit_continuation_job r p t : M _).
Proof.
  unfold submit_continuation_job. do 3 (apply keeps_bind; [keep_going|intros ?]). intros d0.
  eapply triple_bind; [apply draw_fresh|]. intros id.
  eapply triple_bind.
  { eapply triple_conseq; [apply (pending_does (λ d, world q b d0 d ∧ fresh_id id d))|done|done|].
    by intros d []. }
  intros st. intros d [Hwf Hst]. unfold mbind at 1, st_bind at 1, st_lift.
  destruct (make_job _) as [j|e] eqn:Hj; [|by destruct Hwf].
  pose proof (make_job_same _ _ Hj) as (Hid & Hs & _). cbn in Hid, Hs.
  revert d Hwf. apply (triple_bind _ _ (λ _, world q b d0)).
  - rewrite <- Hid. apply enqueue_new_keeps; [by eapply make_job_made|by rewrite Hs].
  - intros u. apply keeps_at. keep_going.
Qed.

Lemma submit_callback_keeps e j i x t : keeps q b (submit_callback_continuation known e j i x t : M _).
Proof. pose proof submit_continuation_keeps. unfold submit_callback_continuation. keep_going. Qed.

Lemma repair_edge_keeps e : keeps q b (repair_edge known e : M _).
Proof. pose proof submit_callback_keeps. unfold repair_edge. keep_going. Qed.
Lemma repair_each_keeps l : keeps q b (repair_each known l : M _).
Proof. pose proof repair_edge_keeps. induction l; cbn [repair_each]; keep_going. Qed.
Lemma repair_callbacks_keeps : keeps q b (repair_callback_edges known : M _).
Proof. pose proof repair_each_keeps. unfold repair_callback_edges. keep_going. Qed.

(** *** Deliveries *)
Lemma build_delivery_keeps a h r t p : keeps q b (build_reply_delivery_job float_of_text a h r t p : M _).
Proof. unfold build_reply_delivery_job. keep_spawning. Qed.
Lemma prepare_agent_keeps a : keeps q b (prepare_agent_reply_delivery float_of_text a : M _).
Proof. pose proof build_delivery_keeps. unfold prepare_agent_reply_delivery. keep_going. Qed.
Lemma for_agents_keeps {A} (f : string → M (option A)) l :
  (∀ a, keeps q b (f a)) → keeps q b (for_agents f l).
Proof. intros Hf. induction l; cbn [for_agents]; keep_going. Qed.
End new.

(** ** Jobs that end *)
Section ending.
Context (q b : bool).

(** What [get_job] returns is the last row of the job. *)
Lemma latest_known d0 a id :
  triple (world q b d0) (get_latest_job a id : M _)
    (λ r d, world q b d0 d ∧ match r with Some j => known_job j d ∧ jb_job_id j = id | None => True end)
    (world q b d0).
Proof.
  intros d Hw. unfold get_latest_job, list_agent_jobs, mbind, st_bind, st_lift, st_gets.
  destruct (normalize_agent_name a) as [n|e]; [|done]. split; [done|].
  change (find_last _ _) with (job_of d n id). destruct (job_of d n id) as [j|] eqn:Hj; [|done].
  pose proof (latest_job_id _ _ _ Hj) as [Hid Hin]. split; [|done]. unfold known_job.
  by rewrite (ro_target _ _ _ (wd_logs _ _ _ _ Hw _ _ Hin)), Hid.
Qed.

Lemma search_known d0 l id :
  triple (world q b d0) (search_job l id : M _)
    (λ r d, world q b d0 d ∧ match r with Some j => known_job j d ∧ jb_job_id j = id | None => True end)
    (world q b d0).
Proof.
  induction l as [|a l IH]; cbn [search_job]; [by intros d Hw|]. intros d Hw.
  pose proof (latest_known d0 a id d Hw) as Hl. revert Hl. unfold get_latest_job, list_agent_jobs.
  unfold mbind, st_bind, st_lift, st_gets.
  destruct (normalize_agent_name a) as [n|e] eqn:Hn; [|done]. cbn.
  change (find_last _ _) with (job_of d n id). destruct (job_of d n id) as [j|] eqn:Hj; [|by intros _; apply IH].
  intros (_ & Hk & Hid). cbn.
  assert (same_jobs d (with_queues (remember_job id (TK_agent, a) (dp_state d)) d)) as Hs.
  { apply quiet_remember. exists n. split; [done|]. by exists j. }
  split; [by eapply world_stable|]. split; [by eapply known_stable|done].
Qed.

Lemma get_known d0 id :
  triple (world q b d0) (get_job id : M _)
    (λ r d, world q b d0 d ∧ match r with Some j => known_job j d ∧ jb_job_id j = id | None => True end)
    (world q b d0).
Proof.
  unfold get_job. intros d Hw. unfold of_queues. rewrite st_gets_bind.
  destruct (target_for_job id (dp_state d)); [by apply latest_known|by apply search_known].
Qed.

(** [t] ends the job [c]. *)
Record terminal_of (c t : JobRecord) : Prop := {
  to_made : made t;
  to_id : jb_job_id t = jb_job_id c;
  to_target : jb_target_name t = jb_target_name c;
  to_ends : ends (jb_status t)
}.

Lemma make_job_next d0 d c j0 t :
  world q b d0 d → known_job c d → make_job j0 = Ok t →
  jb_target_name j0 = jb_target_name c → jb_agent_name j0 = jb_agent_name c → jb_job_id j0 = jb_job_id c →
  made t ∧ jb_job_id t = jb_job_id c ∧ jb_target_name t = jb_target_name c ∧ jb_status t = jb_status j0.
Proof.
  intros Hw Hc Hm Ht Ha Hid. pose proof (known_drawn _ _ _ _ _ Hw Hc) as [Hn _ Hag _].
  destruct (make_job_same _ _ Hm) as (E1 & E2 & E3). rewrite Ht, Ha, Hag, target_or_agent_same, Hn in E3.
  split_and!; [by eapply make_job_made|congruence|congruence|done].
Qed.

Lemma ends_of_decision s : ends (job_status_of_decision s).
Proof. by destruct s. Qed.
Lemma terminal_event_nonempty s : terminal_event_by_status s ≠ "".
Proof. by destruct s. Qed.

Definition knows d0 (c : JobRecord) (d : dispatcher E) : Prop := world q b d0 d ∧ known_job c d.
Lemma knows_stable d0 c : stable (knows d0 c).
Proof. apply stable_and; [apply world_stable|apply known_stable]. Qed.
Lemma knows_world d0 c d : knows d0 c d → world q b d0 d.
Proof. by intros []. Qed.

Lemma persist_terminal_does d0 c x fin :
  stage (Some (jb_status c)) ≠ 3 → (q = true → jb_status c = JS_running) →
  triple (knows d0 c) (persist_terminal_completion c x fin : M _)
    (λ r d, terminal_of c r.1.1 ∧ world_with q b d0 (jb_target_name c) (jb_job_id c) (jb_status r.1.1) d)
    (world q b d0).
Proof.
  intros Hn Hrun. unfold persist_terminal_completion.
  do 7 (apply quiet_then; [apply knows_stable|apply knows_world|eauto with quiet nocore; apply quiet_lift|intros ?]).
  intros d [Hw Hc]. unfold mbind at 1, st_bind at 1, st_lift.
  destruct (make_job _) as [t|e] eqn:Hm; [|done].
  destruct (make_job_next _ _ _ _ _ Hw Hc Hm) as (Ht & Hid & Htgt & Hs); [done..|]. cbn in Hs.
  destruct (end_running_does q b d0 d c t (terminal_event_by_status (jb_status t))
              [("status", PStr (job_status_value (jb_status t)))] fin) as (d' & Ed & Hw' & Hst);
    [done..|rewrite Hs; apply ends_of_decision|apply terminal_event_nonempty|].
  rewrite (seq3 _ _ _ _ _ _ Ed).
  match goal with |- match ?m d' with _ => _ end =>
    assert (triple (world_with q b d0 (jb_target_name c) (jb_job_id c) (jb_status t)) m
      (λ r d, terminal_of c r.1.1 ∧ world_with q b d0 (jb_target_name c) (jb_job_id c) (jb_status r.1.1) d)
      (world q b d0)) as Hk end.
  { eapply triple_bind; [|intros u1; eapply triple_bind; [|intros u2]].
    - eapply triple_conseq; [apply keeps_ended; [apply keeps_quiet; eauto with quiet nocore|]|done|done|by intros ? []].
      rewrite Hs. apply ends_of_decision.
    - eapply triple_conseq; [apply keeps_ended; [apply keeps_quiet; eauto with quiet nocore|]|done|done|by intros ? []].
      rewrite Hs. apply ends_of_decision.
    - intros d1 Hd1. split; [|done]. split; [done..|]. cbn. rewrite Hs. apply ends_of_decision. }
  by apply Hk.
Qed.
(** *** After the end: the job stays ended *)
Definition keeps_end {A} (a id : string) (s : JobStatus) (m : M A) : Prop :=
  ∀ d0, triple (world_with q b d0 a id s) m (λ _, world_with q b d0 a id s) (world_with q b d0 a id s).

Lemma keeps_end_of {A} a id s (m : M A) : ends s → keeps q b m → keeps_end a id s m.
Proof. intros Hs Hm d0. by apply keeps_ended. Qed.
Lemma keeps_end_bind {A B} a id s (m : M A) (f : A → M B) :
  keeps_end a id s m → (∀ x, keeps_end a id s (f x)) → keeps_end a id s (m ≫= f).
Proof. intros Hm Hf d0. eapply triple_bind; [apply Hm|]. intros x. apply Hf. Qed.

(** A further row of an ended job, with the same status. *)
Lemma append_keeps_end c t : terminal_of c t → keeps_end (jb_target_name c) (jb_job_id c) (jb_status t) (append_job t).
Proof.
  intros [Ht Hid Htgt Hs] d0 d [Hw He]. unfold ended, status_of in He.
  destruct (job_of d (jb_target_name c) (jb_job_id c)) as [r|] eqn:Hr; [|done]. cbn in He. injection He as He.
  pose proof (latest_job_id _ _ _ Hr) as [Hrid Hin].
  pose proof (ro_target _ _ _ (wd_logs _ _ _ _ Hw _ _ Hin)) as Hrt.
  destruct (same_row_does q b d0 d r t) as (d' & Ed & Hw' & Hst);
    [done|unfold known_job; by rewrite Hrid, Hrt|done|congruence|congruence|done|].
  rewrite Ed. split; [done|]. unfold ended. by rewrite <- Hrid, <- Hrt, Hst, He.
Qed.

Ltac keep_end_going Hs :=
  repeat first
    [ apply keeps_end_of; [exact Hs|]; solve [keep_going]
    | apply keeps_end_bind; [|intros ?]
    | progress case_match ].

Lemma terminal_remade c t j0 t' :
  terminal_of c t → make_job j0 = Ok t' → jb_job_id j0 = jb_job_id t →
  jb_target_name j0 = jb_target_name t → jb_agent_name j0 = jb_agent_name t → jb_status j0 = jb_status t →
  terminal_of c t' ∧ jb_status t' = jb_status t.
Proof.
  intros [Ht Hid Htgt Hs] Hm E1 E2 E3 E4. destruct (make_job_same _ _ Hm) as (K1 & K2 & K3).
  destruct (made_facts _ Ht) as (_ & Ha & _ & Hn).
  rewrite E2, E3, Ha, target_or_agent_same, Hn in K3. injection K3 as K3.
  assert (jb_status t' = jb_status t) as Es by congruence.
  split; [|done]. split; [by eapply make_job_made|congruence|congruence|by rewrite Es].
Qed.

Lemma lift_keeps_end {A B} a id s (r : result A) (f : A → M B) :
  (∀ x, r = Ok x → keeps_end a id s (f x)) → keeps_end a id s (st_lift r ≫= f).
Proof. intros Hf d0 d Hd. unfold mbind, st_bind, st_lift. destruct r as [x|e]; [by apply Hf|done]. Qed.

Lemma persist_delegated_keeps c t e fin :
  terminal_of c t → keeps_end (jb_target_name c) (jb_job_id c) (jb_status t) (persist_delegated_terminal_job t e fin).
Proof.
  intros Ht. unfold persist_delegated_terminal_job. apply lift_keeps_end. intros t' Hm.
  destruct (terminal_remade c t _ t' Ht Hm) as [Ht' Es]; [done..|].
  apply keeps_end_bind; [rewrite <- Es; by apply append_keeps_end|intros _].
  pose proof (to_ends _ _ Ht) as Hs. keep_end_going Hs.
Qed.

Lemma persist_reply_keeps c t x p fin cur :
  terminal_of c t → keeps_end (jb_target_name c) (jb_job_id c) (jb_status t) (persist_reply_decision cur t x p fin).
Proof.
  intros Ht. unfold persist_reply_decision. apply lift_keeps_end. intros t' Hm.
  destruct (terminal_remade c t _ t' Ht Hm) as [Ht' Es]; [done..|].
  apply keeps_end_bind; [rewrite <- Es; by apply append_keeps_end|intros _].
  pose proof (to_ends _ _ Ht) as Hs. keep_end_going Hs.
Qed.

Lemma schedule_keeps c t x fin : keeps q b (schedule_automatic_retry c t x fin : M _).
Proof. pose proof (retry_keeps q b). unfold schedule_automatic_retry. keep_going. Qed.
Lemma final_reply_keeps t x fin : keeps q b (record_final_reply known t x fin : M _).
Proof. pose proof (submit_callback_keeps q b). unfold record_final_reply. keep_going. Qed.

Lemma completion_recorded_keeps c t x fin p :
  terminal_of c t →
  keeps_end (jb_target_name c) (jb_job_id c) (jb_status t)
    (record_message_bureau_completion known c t x fin p).
Proof.
  intros Ht. pose proof (to_ends _ _ Ht) as Hs. unfold record_message_bureau_completion.
  apply keeps_end_bind; [keep_end_going Hs|intros _]. case_match; [keep_end_going Hs|].
  apply keeps_end_bind; [keep_end_going Hs|intros e]. case_match.
  { apply keeps_end_bind; [by apply persist_delegated_keeps|intros ?]. keep_end_going Hs. }
  apply keeps_end_bind; [apply keeps_end_of; [done|apply schedule_keeps]|intros [|changed]];
    [keep_end_going Hs|].
  apply keeps_end_bind; [keep_end_going Hs|intros changed'].
  apply keeps_end_bind; [|intros final].
  - destruct changed' as [x'|]; [|keep_end_going Hs].
    apply keeps_end_bind; [keep_end_going Hs|intros spilled].
    apply keeps_end_bind; [by apply persist_reply_keeps|intros ?]. keep_end_going Hs.
  - apply keeps_end_bind; [apply keeps_end_of; [done|apply final_reply_keeps]|intros ?]. keep_end_going Hs.
Qed.

(** *** [complete] *)

(** The job is not waiting to start. *)
Definition started (id : string) d : Prop := ∀ a, stage (status_of d a id) ≠ 1.
Lemma started_stable id : stable (started id).
Proof. intros d d' Hs Hst a. rewrite (same_jobs_status _ _ _ _ _ Hs). apply Hst. Qed.
Lemma known_started d0 d j :
  world q b d0 d → known_job j d → jb_status j = JS_running → started (jb_job_id j) d.
Proof.
  intros Hw Hj Hr a. destruct (decide (a = jb_target_name j)) as [->|Hne].
  - by rewrite (known_status _ _ Hj), Hr.
  - unfold status_of. by rewrite (known_unique _ _ _ _ _ _ Hw Hj Hne).
Qed.

Definition completes (complete : string → CompletionDecision → M JobRecord) : Prop :=
  ∀ id x d0, triple (λ d, world q b d0 d ∧ (q = true → started id d)) (complete id x)
               (λ _, world q b d0) (world q b d0).

Section with_complete.
Context (complete : string → CompletionDecision → M JobRecord) (Hcomplete : completes complete).

Lemma complete_known {A} d0 j x (k : JobRecord → M A) :
  jb_status j = JS_running → (∀ r, keeps q b (k r)) →
  triple (knows d0 j) (r ← complete (jb_job_id j) x; k r) (λ _, world q b d0) (world q b d0).
Proof.
  intros Hr Hk. eapply triple_bind; [|intros r; apply Hk].
  intros d [Hw Hj]. apply Hcomplete. split; [done|]. intros _. by eapply known_started.
Qed.

Lemma complete_stale_keeps d0 h r j :
  jb_status j = JS_running →
  triple (knows d0 j) (complete_stale complete h r j) (λ _, world q b d0) (world q b d0).
Proof.
  intros Hr. unfold complete_stale.
  do 2 (apply quiet_then; [apply knows_stable|apply knows_world|first [apply quiet_clock|apply quiet_lift]|intros ?]).
  apply complete_known; [done|]. intros. keep_going.
Qed.

Lemma repair_agent_keeps a : keeps q b (repair_agent_reply_delivery_head complete a).
Proof.
  unfold repair_agent_reply_delivery_head. apply keeps_bind; [keep_going|intros [h|]]; [|keep_going].
  cbn [mbind option_bind]. destruct (head_reply_id h) as [r|]; [|keep_going].
  destruct (delivery_job_id_from_payload _) as [i|]; [|keep_going]. intros d0.
  eapply triple_bind; [apply get_known|]. intros [j|]; [|by intros d [Hw _]; revert d Hw; apply keeps_at; keep_going].
  case_bool_decide as Hr; cbn [negb]; [|by intros d [Hw _]].
  assert (∀ m : M (option (InboundEventRecord + JobRecord)),
    triple (knows d0 j) m (λ _, world q b d0) (world q b d0) →
    triple (λ d, world q b d0 d ∧ known_job j d ∧ jb_job_id j = i) m (λ _, world q b d0) (world q b d0)) as Hweak.
  { intros m Hm d (K1 & K2 & _). by apply Hm. }
  apply Hweak.
  do 2 (apply quiet_then; [apply knows_stable|apply knows_world|apply quiet_gets|intros ?]).
  assert (triple (knows d0 j) (mret None : M (option (InboundEventRecord + JobRecord)))
            (λ _, world q b d0) (world q b d0)) as Hnone by (by intros d [Hw _]).
  pose proof (complete_stale_keeps d0 h r j Hr) as Hstale.
  repeat case_match; try done. apply complete_known; [done|]. intros. keep_going.
Qed.

Lemma prepare_keeps : keeps q b (prepare_reply_deliveries float_of_text complete).
Proof.
  unfold prepare_reply_deliveries, repair_reply_delivery_heads.
  apply keeps_bind; [apply for_agents_keeps, repair_agent_keeps|intros _].
  apply for_agents_keeps, prepare_agent_keeps.
Qed.

Lemma complete_current_keeps d0 c x :
  stage (Some (jb_status c)) ≠ 3 → (q = true → jb_status c = JS_running) →
  triple (knows d0 c) (complete_current known float_of_text complete c x)
    (λ _, world q b d0) (world q b d0).
Proof.
  intros Hn Hrun. unfold complete_current.
  apply quiet_then; [apply knows_stable|apply knows_world|case_match; [apply quiet_ret|apply quiet_clock]|].
  intros fin. eapply triple_bind; [by apply persist_terminal_does|]. intros [[t x'] p] d [Ht Hd].
  cbn [fst snd] in *. revert d Hd.
  apply (triple_bind _ _ (λ _, world q b d0)); [|intros [t' retry]; apply keeps_at].
  - eapply triple_conseq; [by apply completion_recorded_keeps|done|by intros ? ? []|by intros ? []].
  - pose proof prepare_keeps. keep_going.
Qed.

(** A running or ended job. *)
Lemma started_not_pending d0 id c d :
  world q b d0 d → known_job c d → jb_job_id c = id → (q = true → started id d) →
  terminal_job_status (jb_status c) = false →
  stage (Some (jb_status c)) ≠ 3 ∧ (q = true → jb_status c = JS_running).
Proof.
  intros Hw Hk Hid Hst Hterm. split; [by destruct (jb_status c)|]. intros Hq.
  specialize (Hst Hq (jb_target_name c)). rewrite <- Hid, (known_status _ _ Hk) in Hst.
  by destruct (jb_status c).
Qed.

Lemma complete_body_keeps : completes (complete_body known float_of_text complete).
Proof.
  intros id x d0. unfold complete_body. case_match; [by intros d [Hw _]|].
  apply (triple_bind _ _ (λ r d,
    (world q b d0 d ∧ match r with Some j => known_job j d ∧ jb_job_id j = id | None => True end) ∧
    (q = true → started id d))).
  { intros d [Hw Hst]. pose proof (get_known d0 id d Hw) as Hg. pose proof (quiet_get_job (E := E) id d) as Hs.
    unfold st_exec in Hs. revert Hg Hs. destruct (get_job id d) as [[r|e] d1]; [|done].
    intros Hg Hs. split; [done|]. intros Hq. exact (started_stable id d d1 Hs (Hst Hq)). }
  intros [c|]; [|by intros d [[Hw _] _]].
  destruct (terminal_job_status (jb_status c)) eqn:Hterm; [by intros d [[Hw _] _]|].
  intros d [[Hw [Hk Hid]] Hst].
  destruct (started_not_pending _ _ _ _ Hw Hk Hid Hst Hterm) as [Hn Hrun].
  by apply complete_current_keeps.
Qed.
End with_complete.

Lemma complete_fuel_keeps bottom n : completes bottom → completes (complete_fuel known float_of_text bottom n).
Proof. intros Hb. induction n; cbn [complete_fuel]; [done|by apply complete_body_keeps]. Qed.
Lemma complete_keeps : completes (complete known float_of_text).
Proof.
  intros id x d0 d Hd. unfold complete. apply complete_fuel_keeps; [|done].
  by intros id' x' d1 d' [Hw _].
Qed.
End ending.
End ops.
