(* ===== verification/DispatcherTermination.v ===== *)
(** * [complete_job] calls itself only finitely often

    Completing a job repairs the heads of the mailboxes, and that completes
    delivery jobs that are running.  Every level of the recursion ends a running
    job, so the fuel [complete] takes is never what stops it. *)
From stdpp Require Import pretty.
From Stdlib Require Import QArith.
From S2P Require Import Prelude PyValue Names CompletionModels ExecutionModels Tracker TextArtifacts JobModels.
From S2P Require Import MailboxModels MailboxKernel BureauModels Bureau RetryPolicy.
From S2P Require Import DispatcherState JobQueues Dispatcher Callbacks Submission ReplyDelivery.
From S2P Require Import Finalization Scheduling Polling DispatcherFrame DispatcherQuiet.
From S2P Require Import DispatcherInvariant DispatcherOps.
Open Scope string_scope.
Open Scope list_scope.
Open Scope nat_scope.

Section running.
Context {E : Type} `{Attends E} `{Uuids} `{DispatcherConfig}.
Implicit Types d : dispatcher E.

Lemma running_rows_elem rows id :
  id ∈ running_rows rows ↔ jb_status <$> latest_job rows id = Some JS_running.
Proof.
  unfold running_rows, running_job. rewrite elem_of_filter_bool.
  change (find_last _ rows) with (latest_job rows id). split.
  - intros [_ Hr]. destruct (latest_job rows id) as [j|]; [|done].
    apply bool_decide_eq_true in Hr. cbn. by rewrite Hr.
  - destruct (latest_job rows id) as [j|] eqn:Hj; [|done]. cbn. intros [= Hs].
    apply latest_job_id in Hj as [<- Hin]. split; [by apply list_elem_of_fmap_2|].
    by apply bool_decide_eq_true_2.
Qed.

Lemma running_jobs_elem d a id : (a, id) ∈ running_jobs d ↔ status_of d a id = Some JS_running.
Proof.
  unfold running_jobs, status_of, job_of, jobs_of. rewrite elem_of_list_to_set, list_elem_of_bind. split.
  - intros ([c rows] & Hin & Hrows). apply elem_of_map_to_list in Hrows. cbn in Hin.
    apply list_elem_of_fmap in Hin as (id' & [= <- <-] & Hid). rewrite Hrows. by apply running_rows_elem.
  - destruct (dp_jobs d !! a) as [rows|] eqn:Hrows; [|done]. cbn. intros Hid%running_rows_elem.
    exists (a, rows). split; [|by apply elem_of_map_to_list]. cbn.
    by apply list_elem_of_fmap_2.
Qed.

(** No job starts. *)
Lemma evolves_running d d' : evolves false d d' → running_jobs d' ⊆ running_jobs d.
Proof.
  intros [_ Hm] [a id]. rewrite !running_jobs_elem. intros Hr. destruct (Hm a id) as (_ & _ & K3).
  rewrite <- Hr. symmetry. apply K3; [done|by rewrite Hr].
Qed.
End running.

Section agree.
Context {E : Type} `{ServiceLaws E} `{Clock} `{Uuids} (Huuid : Inj (=) (=) uuid_hex12).
Context `{DispatcherConfig} `{CompletionLib} `{TextLib}.
Context (known : gset string) (float_of_text : string → option Q).
Abbreviation M := (DM E).
Implicit Types d : dispatcher E.

(** [m1] and [m2] do the same from the states of [P]. *)
Definition same_at {A} (P : dispatcher E → Prop) (m1 m2 : M A) : Prop := ∀ d, P d → m1 d = m2 d.

Lemma same_at_refl {A} P (m : M A) : same_at P m m.
Proof. done. Qed.
Lemma same_at_weaken {A} (P P' : dispatcher E → Prop) (m1 m2 : M A) :
  (∀ d, P d → P' d) → same_at P' m1 m2 → same_at P m1 m2.
Proof. intros HP Hs d Hd. by apply Hs, HP. Qed.
Lemma same_at_bind {A B} P Q X (m1 m2 : M A) (f1 f2 : A → M B) :
  same_at P m1 m2 → triple P m1 Q X → (∀ a, same_at (Q a) (f1 a) (f2 a)) →
  same_at P (m1 ≫= f1) (m2 ≫= f2).
Proof.
  intros Hs Hm Hf d Hd. specialize (Hm d Hd). unfold mbind, st_bind. rewrite <- (Hs d Hd).
  destruct (m1 d) as [[a|e] d1]; [|done]. by apply Hf.
Qed.

(** ** The states of the recursion *)

(** At most [k] jobs are running. *)
Definition within (k : nat) d : Prop := world false false d d ∧ size (running_jobs d) <= k.

Lemma within_world k d d' : within k d → world false false d d' → within k d'.
Proof.
  intros [_ Hk] Hw. split; [by eapply world_again|].
  pose proof (evolves_running _ _ (wd_evolves _ _ _ _ Hw)) as Hsub%subseteq_size. lia.
Qed.
Lemma within_keeps {A} k (m : M A) : keeps false false m → triple (within k) m (λ _, within k) (within k).
Proof.
  intros Hm d Hd. specialize (Hm d d (proj1 Hd)).
  destruct (m d) as [[a|e] d']; by eapply within_world.
Qed.

Definition running_in d (id : string) : Prop := ∃ a, status_of d a id = Some JS_running.
(** [f] and [g] do the same with the running jobs. *)
Definition agrees (k : nat) (f g : string → CompletionDecision → M JobRecord) : Prop :=
  ∀ id x d, within k d → running_in d id → f id x d = g id x d.

Section pair.
Context (k : nat) (f g : string → CompletionDecision → M JobRecord).
Context (Hf : completes false false f) (Hfg : agrees k f g).

Lemma f_keeps id x : keeps false false (f id x).
Proof. intros d0 d Hd. by apply (Hf id x d0 d). Qed.

Definition at_running (j : JobRecord) d : Prop := within k d ∧ running_in d (jb_job_id j).
Lemma at_running_stable j : stable (at_running j).
Proof.
  intros d d' Hs [Hw [a Ha]]. split.
  - eapply within_world; [done|]. apply (same_jobs_world _ _ _ d); [done|apply Hw].
  - exists a. by rewrite (same_jobs_status _ _ _ _ _ Hs).
Qed.
Lemma at_running_within j d : at_running j d → within k d.
Proof. by intros []. Qed.

(** A quiet step, then the same. *)
Lemma same_at_quiet {A B} j (m : M A) (f1 f2 : A → M B) :
  quiet m → (∀ a, same_at (at_running j) (f1 a) (f2 a)) → same_at (at_running j) (m ≫= f1) (m ≫= f2).
Proof.
  intros Hm Hs. eapply same_at_bind; [done|apply quiet_triple; [apply at_running_stable|done]|done].
Qed.

Lemma complete_same {A} j x (h : JobRecord → M A) :
  same_at (at_running j) (r ← f (jb_job_id j) x; h r) (r ← g (jb_job_id j) x; h r).
Proof.
  intros d [Hw Hr]. unfold mbind, st_bind. by rewrite (Hfg (jb_job_id j) x d Hw Hr).
Qed.
Lemma complete_stale_same h r j : same_at (at_running j) (complete_stale f h r j) (complete_stale g h r j).
Proof.
  unfold complete_stale. apply same_at_quiet; [apply quiet_clock|intros ?].
  apply same_at_quiet; [apply quiet_lift|intros ?]. apply complete_same.
Qed.

Lemma get_job_within id :
  triple (within k) (get_job id : M _)
    (λ r d, within k d ∧ match r with Some j => jb_status j = JS_running → at_running j d | None => True end)
    (within k).
Proof.
  intros d Hd. pose proof (get_known false false d id d (proj1 Hd)) as Hg. revert Hg.
  destruct (get_job id d) as [[r|e] d1]; [|by apply within_world].
  intros [Hw Hr]. pose proof (within_world _ _ _ Hd Hw) as Hw1. split; [done|].
  destruct r as [j|]; [|done]. destruct Hr as [Hk _]. intros Hs. split; [done|].
  exists (jb_target_name j). by rewrite (known_status _ _ Hk), Hs.
Qed.

Lemma repair_agent_same a :
  same_at (within k) (repair_agent_reply_delivery_head f a) (repair_agent_reply_delivery_head g a).
Proof.
  unfold repair_agent_reply_delivery_head.
  apply (same_at_bind _ (λ _, within k) (within k)); [done|apply within_keeps; keep_going|intros [h|]]; [|done].
  cbn [mbind option_bind]. destruct (head_reply_id h) as [r|]; [|done].
  destruct (delivery_job_id_from_payload _) as [i|]; [|done].
  eapply same_at_bind; [done|apply get_job_within|]. intros [j|]; [|done].
  case_bool_decide as Hr; cbn [negb]; [|done].
  eapply same_at_weaken; [intros d [_ Hd]; exact (Hd Hr)|].
  do 2 (apply same_at_quiet; [apply quiet_gets|intros ?]).
  pose proof (complete_stale_same h r j). repeat case_match; try done. apply complete_same.
Qed.

Lemma for_agents_same {A} (h1 h2 : string → M (option A)) l :
  (∀ a, keeps false false (h1 a)) → (∀ a, same_at (within k) (h1 a) (h2 a)) →
  same_at (within k) (for_agents h1 l) (for_agents h2 l).
Proof.
  intros Hk Hs. induction l as [|a l IH]; cbn [for_agents]; [done|].
  eapply same_at_bind; [apply Hs|by apply within_keeps|intros ?].
  eapply same_at_bind; [exact IH|by apply within_keeps, for_agents_keeps|done].
Qed.

Lemma prepare_same :
  same_at (within k) (prepare_reply_deliveries float_of_text f) (prepare_reply_deliveries float_of_text g).
Proof.
  unfold prepare_reply_deliveries, repair_reply_delivery_heads.
  eapply same_at_bind; [apply for_agents_same; [|exact repair_agent_same]|..|done].
  - intros a. by apply repair_agent_keeps.
  - apply within_keeps, for_agents_keeps. intros a. by apply repair_agent_keeps.
Qed.

(** Ending [c] leaves at most [k] jobs running. *)
Definition leaves (c : JobRecord) d : Prop :=
  known_job c d ∧ size (running_jobs d ∖ {[(jb_target_name c, jb_job_id c)]}) <= k.

Lemma leaves_ended d0 d c s :
  leaves c d0 → ends s → world_with false false d0 (jb_target_name c) (jb_job_id c) s d → within k d.
Proof.
  intros [_ Hk] Hs [Hw He]. split; [by eapply world_again|].
  assert (running_jobs d ⊆ running_jobs d0 ∖ {[(jb_target_name c, jb_job_id c)]}) as Hsub; [|apply subseteq_size in Hsub; lia].
  intros [a id] Hr. apply elem_of_difference. split.
  - by eapply evolves_running; [apply Hw|].
  - intros [= -> ->]%elem_of_singleton. apply running_jobs_elem in Hr. unfold ended in He.
    rewrite Hr in He. injection He as <-. by unfold ends in Hs.
Qed.

Lemma complete_current_same c x d :
  world false false d d → leaves c d → stage (Some (jb_status c)) ≠ 3 →
  complete_current known float_of_text f c x d = complete_current known float_of_text g c x d.
Proof.
  intros Hw Hl Hn. unfold complete_current.
  apply (same_at_bind (knows false false d c) (λ _, knows false false d c) (knows false false d c));
    [done| | |split; [done|apply Hl]].
  { apply quiet_triple; [apply knows_stable|]. case_match; [apply quiet_ret|apply quiet_clock]. }
  intros fin. eapply same_at_bind; [done|by apply persist_terminal_does|].
  intros [[t x'] p]. cbn [fst snd].
  intros d1 [Ht Hd1]. revert d1 Hd1.
  eapply same_at_bind; [done|by apply completion_recorded_keeps|]. intros [t' retry].
  eapply same_at_bind; [done|apply keeps_ended; [keep_going|apply Ht]|]. intros ?.
  destruct retry; [done|]. apply (same_at_weaken _ (within k)).
  - intros d2. by eapply leaves_ended, (to_ends _ _ Ht).
  - eapply same_at_bind; [apply prepare_same|by apply within_keeps, prepare_keeps|done].
Qed.

(** Completing [id] leaves at most [k] jobs running. *)
Definition leaves_id (id : string) d : Prop := ∀ c, known_job c d → jb_job_id c = id → leaves c d.

Lemma complete_body_same id x d :
  world false false d d → leaves_id id d →
  complete_body known float_of_text f id x d = complete_body known float_of_text g id x d.
Proof.
  intros Hw Hl. unfold complete_body. destruct (cd_terminal x); [|done]. cbn [negb].
  pose proof (get_known false false d id d Hw) as Hg. pose proof (quiet_get_job (E := E) id d) as Hs.
  unfold st_exec in Hs. unfold mbind, st_bind. revert Hg Hs.
  destruct (get_job id d) as [[[c|]|e] d1]; [|done|done]. intros [Hw1 [Hc Hid]] Hs.
  destruct (terminal_job_status (jb_status c)) eqn:Hterm; [done|].
  apply complete_current_same; [by eapply world_again| |by destruct (jb_status c)].
  assert (known_job c d) as Hc0.
  { unfold known_job in *. by rewrite (same_jobs_job _ _ _ _ _ Hs) in Hc. }
  split; [done|]. destruct (Hl c Hc0 Hid) as [_ Hk]. etrans; [|exact Hk].
  apply subseteq_size, difference_mono_r, evolves_running, Hw1.
Qed.
End pair.

(** ** Enough fuel *)
Lemma raises_keeps (bottom : string → CompletionDecision → M JobRecord) :
  (∀ id x, quiet (bottom id x)) → completes false false bottom.
Proof. intros Hb id x d0 d [Hw _]. by apply (keeps_quiet false false _ (Hb id x) d0). Qed.

Lemma leaves_size id d k : size (running_jobs d) <= k → leaves_id k id d.
Proof.
  intros Hk c Hc Hid. split; [done|]. etrans; [|exact Hk]. apply subseteq_size. apply subseteq_difference_l.
  reflexivity.
Qed.

Lemma running_leaves k id d : within (S k) d → running_in d id → leaves_id k id d.
Proof.
  intros [Hw Hk] [a Ha] c Hc <-. split; [done|].
  assert (a = jb_target_name c) as ->.
  { eapply (wd_unique _ _ _ _ Hw); [|by rewrite Hc]. revert Ha. unfold status_of.
    by destruct (job_of d a _). }
  rewrite size_difference; [rewrite size_singleton; lia|].
  intros p ->%elem_of_singleton. by apply running_jobs_elem.
Qed.
Lemma running_positive k id d : within k d → running_in d id → 0 < k.
Proof.
  intros [_ Hk] [a Ha%running_jobs_elem]. destruct k; [|lia].
  assert (running_jobs d ≡ ∅) as Hz by (apply size_empty_iff; lia). destruct (Hz (a, id)) as [K1 _]. by apply K1, elem_of_empty in Ha.
Qed.

Lemma complete_fuel_same k : ∀ bottom1 bottom2 n m id x d,
  completes false false bottom1 → k < n → k < m →
  world false false d d → leaves_id k id d →
  complete_fuel known float_of_text bottom1 n id x d = complete_fuel known float_of_text bottom2 m id x d.
Proof.
  induction k as [|k IH]; intros b1 b2 n m id x d Hb Hn Hm Hw Hl;
    destruct n as [|n]; [lia| |lia|]; (destruct m as [|m]; [lia|]); cbn [complete_fuel];
    (eapply complete_body_same; [by apply complete_fuel_keeps| |done|exact Hl]); intros i y d1 Hd1 Hr.
  - pose proof (running_positive _ _ _ Hd1 Hr). lia.
  - apply IH; [done|lia|lia|apply Hd1|by apply running_leaves].
Qed.

Lemma recursion_error_keeps : completes false false (recursion_error (E := E)).
Proof. apply raises_keeps. intros id x. apply quiet_raise. Qed.

Lemma complete_any_fuel bottom n id x d :
  logs_ok d → single_running d → unique_logs d → index_ok d → size (running_jobs d) < n →
  complete_fuel known float_of_text bottom n id x d = complete known float_of_text id x d.
Proof.
  intros Hl Hone Hu Hi Hn. unfold complete. symmetry. apply (complete_fuel_same (size (running_jobs d))); [|lia|lia|..].
  - apply recursion_error_keeps.
  - by apply world_refl.
  - by apply leaves_size.
Qed.

Lemma complete_recursion id x d :
  logs_ok d → single_running d → unique_logs d → index_ok d →
  complete known float_of_text id x d = complete_body known float_of_text (complete known float_of_text) id x d.
Proof.
  intros Hl Hone Hu Hi. set (n := S (size (running_jobs d))).
  change (complete known float_of_text id x d)
    with (complete_body known float_of_text (complete_fuel known float_of_text recursion_error n) id x d).
  apply (complete_body_same (size (running_jobs d))).
  - apply complete_fuel_keeps; [done|]. apply recursion_error_keeps.
  - intros i y d1 [Hw1 Hk] Hr. apply complete_any_fuel; [apply Hw1..|lia].
  - by apply world_refl.
  - by apply leaves_size.
Qed.
End agree.
