(* ===== verification/DispatcherStart.v ===== *)
(** * Starting jobs keeps the invariant

    A job leaves the queue before its row says it is running, so between the
    two the queues do not agree with the logs.  An operation that returns has
    closed the gap; one that raises may have left it open, and then only the
    logs are as they should be. *)
From stdpp Require Import pretty.
From Stdlib Require Import QArith.
From S2P Require Import Prelude PyValue Names CompletionModels ExecutionModels Tracker TextArtifacts JobModels.
From S2P Require Import MailboxModels MailboxKernel BureauModels Bureau RetryPolicy.
From S2P Require Import DispatcherState JobQueues Dispatcher Callbacks Submission ReplyDelivery.
From S2P Require Import Finalization Scheduling Polling DispatcherFrame DispatcherQuiet.
From S2P Require Import DispatcherInvariant DispatcherOps.
Open Scope string_scope.
Open Scope list_scope.
Open Scope nat_scope.

Section start.
Context {E : Type} `{ServiceLaws E} `{Clock} `{Uuids} (Huuid : Inj (=) (=) uuid_hex12).
Context `{DispatcherConfig} `{CompletionLib} `{TextLib}.
Context (known : gset string) (float_of_text : string → option Q).
Abbreviation M := (DM E).
Implicit Types d : dispatcher E.

(** What holds after [m]: everything when it returns, the logs when it raises. *)
Definition returns_ok {A} (P : dispatcher E → dispatcher E → Prop) (m : M A) : Prop :=
  ∀ d0, triple (P d0) m (λ _, world true true d0) (world false true d0).
Definition keeps_ok {A} (m : M A) : Prop := returns_ok (world true true) m.

Lemma keeps_ok_of {A} (m : M A) : keeps true true m → keeps_ok m.
Proof. intros Hm d0. eapply triple_conseq; [apply Hm|done|done|]. intros d. apply world_logs. Qed.
Lemma keeps_ok_bind {A B} (m : M A) (f : A → M B) :
  keeps_ok m → (∀ a, keeps_ok (f a)) → keeps_ok (m ≫= f).
Proof. intros Hm Hf d0. eapply triple_bind; [apply Hm|]. intros a. apply Hf. Qed.

(** ** Finding a job *)
Lemma latest_total a d id c :
  normalize_agent_name a = Ok (jb_target_name c) → job_of d (jb_target_name c) id = Some c →
  get_latest_job a id d = (Ok (Some c), d).
Proof.
  intros Hn Hc. unfold get_latest_job, list_agent_jobs, mbind, st_bind, st_lift, st_gets. rewrite Hn. cbn.
  by change (find_last _ _) with (job_of d (jb_target_name c) id); rewrite Hc.
Qed.

Lemma search_total l d id c :
  job_of d (jb_target_name c) id = Some c → unique_logs d → normalize_agent_name (jb_target_name c) = Ok (jb_target_name c) →
  jb_target_name c ∈ l → match search_job l id d with (Ok r, _) => r = Some c | (Err _, _) => True end.
Proof.
  intros Hc Hu Hn. induction l as [|a l IH]; [by intros []%elem_of_nil|]. intros Hin. cbn [search_job].
  unfold mbind at 1, st_bind at 1. destruct (get_latest_job a id d) as [[[r|]|e] d1] eqn:Hg; [| |done].
  - cbn. unfold get_latest_job, list_agent_jobs, mbind, st_bind, st_lift, st_gets in Hg.
    destruct (normalize_agent_name a) as [n|e]; [|done]. injection Hg as Hr _.
    change (job_of d n id = Some r) in Hr. f_equal.
    assert (n = jb_target_name c) as -> by (eapply Hu; [by rewrite Hr|by rewrite Hc]). congruence.
  - assert (d1 = d) as ->.
    { unfold get_latest_job, list_agent_jobs, mbind, st_bind, st_lift, st_gets in Hg.
      destruct (normalize_agent_name a); [|done]. by injection Hg as _ <-. }
    apply elem_of_cons in Hin as [<-|Hin]; [|by apply IH].
    by rewrite (latest_total _ _ _ _ Hn Hc) in Hg.
Qed.

Lemma get_job_total q b d0 d c :
  world q b d0 d → known_job c d → jb_target_name c ∈ agent_names →
  match get_job (jb_job_id c) d with (Ok r, _) => r = Some c | (Err _, _) => True end.
Proof.
  intros Hw Hc Hin. pose proof (ro_name _ _ _ (known_drawn _ _ _ _ _ Hw Hc)) as Hn.
  unfold get_job, of_queues. rewrite st_gets_bind.
  destruct (target_for_job (jb_job_id c) (dp_state d)) as [slot|] eqn:Ht.
  - destruct (wd_index _ _ _ _ Hw _ _ Ht) as (a & Ha & Hj).
    assert (a = jb_target_name c) as -> by (eapply (wd_unique _ _ _ _ Hw); [done|by rewrite Hc]).
    by rewrite (latest_total _ _ _ _ Ha Hc).
  - by apply search_total; [|apply Hw|..].
Qed.

(** A job in the queue of an agent is a pending job of its log. *)
Lemma queued_job b d0 d a id :
  world true b d0 d → a ∈ agent_names → id ∈ queue_at (slot_of a) (dp_state d) →
  ∃ c, known_job c d ∧ jb_job_id c = id ∧ jb_target_name c = a ∧ pending_states (jb_status c) = true.
Proof.
  intros Hw Ha Hin. destruct (world_agent _ _ _ _ _ Hw eq_refl Ha) as [Hq _]. rewrite Hq in Hin.
  apply ids_with_elem in Hin as (c & Hc & Hp). destruct (latest_job_id _ _ _ Hc) as [<- Hrow].
  pose proof (ro_target _ _ _ (wd_logs _ _ _ _ Hw _ _ Hrow)) as Ht. exists c.
  split_and!; [|done..]. unfold known_job. by rewrite Ht.
Qed.

(** ** A job that leaves the queue *)
Record leaving d0 (c : JobRecord) d1 d : Prop := {
  lv_world : world true true d0 d1;
  lv_known : known_job c d1;
  lv_pending : pending_states (jb_status c) = true;
  lv_agent : jb_target_name c ∈ agent_names;
  lv_idle : active_job_for (slot_of (jb_target_name c)) (dp_state d1) = None;
  lv_same : same_jobs (with_queues (remove_queued_for (slot_of (jb_target_name c)) (jb_job_id c) (dp_state d1)).2 d1) d
}.
Definition left_queue d0 c d : Prop := ∃ d1, leaving d0 c d1 d.

Lemma left_stable d0 c : stable (left_queue d0 c).
Proof. intros d d' Hs [d1 [K1 K2 K3 K4 K5 K6]]. exists d1. split; [done..|by etrans]. Qed.

Lemma removed_world d0 d s :
  world true true d0 d → (∀ id, target_for_job id s = target_for_job id (dp_state d)) →
  world false true d0 (with_queues s d).
Proof.
  intros [K1 Ks K2 K3 _ _ K5] Hi. split; [done|done|done| |done|done|exact K5].
  intros id slot. cbn. rewrite Hi. intros Ht. by destruct (K3 _ _ Ht) as (a & ? & ?); exists a.
Qed.
Lemma index_remove id slot id' s : target_for_job id (remove_queued_for slot id' s).2 = target_for_job id s.
Proof. unfold remove_queued_for. by destruct (queue_remove _ _). Qed.

Lemma left_world d0 c d : left_queue d0 c d → world false true d0 d.
Proof.
  intros [d1 []]. eapply same_jobs_world; [done|]. apply removed_world; [done|]. intros. apply index_remove.
Qed.
Lemma left_known d0 c d : left_queue d0 c d → known_job c d.
Proof.
  intros [d1 []]. eapply known_stable; [done|]. done.
Qed.

Lemma appended_before d d1 d2 j :
  (∀ a, jobs_of d1 a = jobs_of d a) → uuids_drawn d <= uuids_drawn d1 →
  (∀ id slot, target_for_job id (dp_state d1) = Some slot →
     target_for_job id (dp_state d) = Some slot ∨ indexed d1 id slot) →
  (∀ id, attended d1 id → attended d id) →
  appended d1 d2 j → appended d d2 j.
Proof.
  intros Hj Hu Hi Hat Ha. pose proof Ha as [K1 K2 K3 K4 K5]. split.
  - by rewrite K1, Hj.
  - intros. by rewrite K2, Hj.
  - lia.
  - intros id slot Ht. destruct (K4 _ _ Ht) as [Ht1|]; [|by right].
    destruct (Hi _ _ Ht1) as [|(a & Hn & x & Hx)]; [by left|right]. exists a. split; [done|].
    destruct (decide (a = jb_target_name j)) as [->|N].
    + rewrite (appended_job _ _ _ _ Ha). case_bool_decide; [done|by exists x].
    + rewrite (appended_job_ne _ _ _ _ _ Ha N). by exists x.
  - intros id Hid. destruct (K5 _ Hid); auto.
Qed.

(** ** The row is written *)
Record starting d0 (c t : JobRecord) d1 d : Prop := {
  sg_leaving : leaving d0 c d1 (with_queues (remove_queued_for (slot_of (jb_target_name c)) (jb_job_id c) (dp_state d1)).2 d1);
  sg_made : made t;
  sg_id : jb_job_id t = jb_job_id c;
  sg_target : jb_target_name t = jb_target_name c;
  sg_running : jb_status t = JS_running;
  sg_appended : appended d1 d (stored_job t);
  sg_queue a : queue_at (slot_of a) (dp_state d) =
    queue_at (slot_of a) (remove_queued_for (slot_of (jb_target_name c)) (jb_job_id c) (dp_state d1)).2;
  sg_active a : active_job_for (slot_of a) (dp_state d) = active_job_for (slot_of a) (dp_state d1)
}.
Definition row_started d0 c t d : Prop := ∃ d1, starting d0 c t d1 d.

Lemma started_row_stable d0 c t : stable (row_started d0 c t).
Proof.
  intros d d' Hs [d1 [K1 K2 K3 K4 K5 K6 K7 K8]]. exists d1. split; [done..| | |].
  - by eapply appended_then.
  - intros a. by rewrite (sj_queue _ _ Hs).
  - intros a. by rewrite (sj_active _ _ Hs).
Qed.

Lemma started_row_near d0 c t : stable_near (jb_job_id t) (row_started d0 c t).
Proof.
  intros d d' Hs [d1 [K1 K2 K3 K4 K5 K6 K7 K8]]. exists d1. split; [done..| | |].
  - eapply appended_near; [done| |exact Hs]. change (jb_status (stored_job t)) with (jb_status t). by rewrite K5.
  - intros a. by rewrite (sj_queue _ _ Hs).
  - intros a. by rewrite (sj_active _ _ Hs).
Qed.

Lemma moves_start s : pending_states s = true → moves true (Some s) (Some JS_running).
Proof. intros Hs%pending_stage. unfold moves. rewrite Hs. split_and!; [cbn; lia|lia|done]. Qed.

Lemma start_single d0 c t d1 d : starting d0 c t d1 d →
  length (running_ids (jobs_of d1 (jb_target_name c) ++ [stored_job t])) <= 1.
Proof.
  intros [[K1 K2 K3 K4 K5 _] M1 M2 M3 M4 _ _ _].
  destruct (world_agent _ _ _ _ _ K1 eq_refl K4) as [_ Hr]. rewrite K5 in Hr. unfold running_ids.
  erewrite ids_with_only; [done|cbn; rewrite M2; exact K2|cbn; by rewrite M4|exact Hr].
Qed.

Lemma row_world d0 c t d : row_started d0 c t d → world false true d0 d.
Proof.
  intros [d1 Hd]. pose proof (start_single _ _ _ _ _ Hd) as Hone. destruct Hd as [[] K2 K3 K4 K5 K6 _ _].
  eapply (next_row_world false true d0 d1 d c t); try done; [by eapply world_logs|].
  rewrite K5. by apply moves_start.
Qed.

Definition is_running_at d0 (c : JobRecord) d : Prop :=
  world true true d0 d ∧ status_of d (jb_target_name c) (jb_job_id c) = Some JS_running.
Lemma is_running_stable d0 c : stable (is_running_at d0 c).
Proof.
  apply stable_and; [apply world_stable|]. intros d d' Hs. by rewrite (same_jobs_status _ _ _ _ _ Hs).
Qed.
Lemma is_running_near d0 c : stable_near (jb_job_id c) (is_running_at d0 c).
Proof.
  intros d d' Hs [Hw Hr]. split; [|by rewrite (same_jobs_status _ _ _ _ _ Hs)].
  eapply same_upto_world; [done| |done]. intros _ id ->. exists (jb_target_name c). by rewrite Hr.
Qed.

Lemma active_mark a c id s :
  active_job_for (slot_of a) (mark_active_for (slot_of c) id s) =
  if a =ˢ c then Some id else active_job_for (slot_of a) s.
Proof.
  unfold mark_active_for, active_job_for. cbn. case_bool_decide as Ea.
  - by rewrite Ea, lookup_insert_eq.
  - rewrite lookup_insert_ne by (intros ?%slot_of_inj; congruence). apply (active_ensure (slot_of a)).
Qed.

(** Marking the job active closes the gap. *)
Lemma mark_active_does d0 c t d :
  row_started d0 c t d →
  is_running_at d0 c (with_queues (mark_active_for (job_slot t) (jb_job_id t) (dp_state d)) d).
Proof.
  intros [d1 Hd]. pose proof (start_single _ _ _ _ _ Hd) as Hone.
  destruct Hd as [[K1 K2 K3 K4 K5 _] M1 M2 M3 M4 M5 M6 M7]. unfold is_running_at. rewrite <- M4.
  set (s := mark_active_for _ _ _).
  assert (∀ a, queue_at (slot_of a) s = queue_at (slot_of a) (dp_state d)) as Hq.
  { intros a. unfold s, mark_active_for. change (queue_at (slot_of a) (ensure_queue (job_slot t) (dp_state d)) =
      queue_at (slot_of a) (dp_state d)). apply queue_at_ensure. }
  assert (∀ a, active_job_for (slot_of a) s =
    if a =ˢ jb_target_name c then Some (jb_job_id c) else active_job_for (slot_of a) (dp_state d1)) as Ha.
  { intros a. unfold s. rewrite job_slot_of, M3, M2, active_mark. by case_bool_decide. }
  eapply (next_row_world true true d0 d1 _ c t); try done.
  - destruct M5 as [A1 A2 A3 A4 A5]. split; [done..| |exact A5]. intros id slot. cbn. unfold s, mark_active_for.
    intros Ht. destruct (A4 id slot) as [|(x & Hx & Hj)]; [|by left|right; by exists x].
    revert Ht. unfold target_for_job. cbn. unfold ensure_queue. by destruct (ds_queues _ !! _).
  - rewrite M4. by apply moves_start.
  - intros _ a Hin Hne. cbn [dp_state with_queues]. rewrite Hq, Ha, M6, bool_decide_eq_false_2 by done. split; [|done].
    by apply queue_at_remove_ne.
  - intros _ Hin Hok. eapply started_consistent; [done|cbn; rewrite M2; exact K2|done|done| |].
    + cbn [dp_state with_queues]. change (jb_job_id (stored_job t)) with (jb_job_id t). rewrite M2, Hq, M6. rewrite queue_at_remove by (by eapply world_queue_nodup).
      by rewrite bool_decide_eq_true_2.
    + cbn [dp_state with_queues]. change (jb_job_id (stored_job t)) with (jb_job_id t). by rewrite Ha, bool_decide_eq_true_2, M2.
Qed.
(** ** [start_running_job] *)
Lemma append_starts d0 c t :
  made t → jb_job_id t = jb_job_id c → jb_target_name t = jb_target_name c → jb_status t = JS_running →
  triple (left_queue d0 c) (append_job t : M unit) (λ _, row_started d0 c t) (world false true d0).
Proof.
  intros Ht Hid Htgt Hr d [d1 Hl]. destruct (append_job_does t d Ht) as (d' & Ed & Ha & Hq & Hact).
  rewrite Ed. exists d1. pose proof Hl as [K1 K2 K3 K4 K5 K6]. split; try done.
  - eapply appended_before; [..|exact Ha].
    + intros a. by rewrite (sj_jobs _ _ K6).
    + apply (sj_uuids _ _ K6).
    + intros id slot Hi. destruct (sj_index _ _ K6 _ _ Hi) as [Hi'|]; [left|by right].
      revert Hi'. cbn. by rewrite index_remove.
    + intros id Hat. by destruct (sj_attended _ _ K6 _ Hat).
  - intros a. by rewrite Hq, (sj_queue _ _ K6).
  - intros a. rewrite Hact, (sj_active _ _ K6). cbn. apply active_remove.
Qed.

Lemma mark_active_running d0 c t :
  triple (row_started d0 c t) (on_queues (mark_active_for (job_slot t) (jb_job_id t)) : M unit)
    (λ _, is_running_at d0 c) (world false true d0).
Proof. intros d Hd. by apply mark_active_does. Qed.

Lemma running_started d0 c d : is_running_at d0 c d → started (jb_job_id c) d.
Proof.
  intros [Hw Hr] a. destruct (status_of d a (jb_job_id c)) as [s|] eqn:Hs; [|done].
  assert (a = jb_target_name c) as ->; [|by rewrite Hr in Hs; injection Hs as <-].
  apply (wd_unique _ _ _ _ Hw _ _ (jb_job_id c)); unfold status_of in *.
  - revert Hs. by destruct (job_of d a _).
  - revert Hr. by destruct (job_of d (jb_target_name c) _).
Qed.

Lemma complete_running d0 c x :
  triple (is_running_at d0 c) (complete known float_of_text (jb_job_id c) x)
    (λ _, world true true d0) (world false true d0).
Proof.
  intros d Hd. pose proof (complete_keeps Huuid known float_of_text true true (jb_job_id c) x d0 d) as Hc.
  eassert (world true true d0 d ∧ _) as Hpre by (split; [apply Hd|intros _; by eapply running_started]).
  specialize (Hc Hpre). destruct (complete _ _ _ _ d) as [[r|e] d']; [done|by eapply world_logs].
Qed.

Lemma after_start_does d0 c t at_ sub :
  jb_job_id t = jb_job_id c →
  triple (is_running_at d0 c) (complete_reply_delivery_after_start (complete known float_of_text) t at_ sub)
    (λ _, world true true d0) (world false true d0).
Proof.
  intros Hid. unfold complete_reply_delivery_after_start. rewrite Hid.
  assert (∀ d, is_running_at d0 c d → world false true d0 d) as Hx by (intros d [Hw _]; by eapply world_logs).
  repeat first
    [ apply complete_running
    | apply quiet_then; [apply is_running_stable|exact Hx|apply quiet_lift|intros ?]
    | (by intros d [Hw _])
    | progress case_match ].
Qed.

Lemma start_does d0 c slot st :
  triple (left_queue d0 c) (start_running_job known float_of_text c slot st)
    (λ _, world true true d0) (world false true d0).
Proof.
  unfold start_running_job.
  apply quiet_then; [apply left_stable|apply left_world|case_match; [apply quiet_ret|apply quiet_clock]|].
  intros at_ d Hd. unfold mbind at 1, st_bind at 1, st_lift.
  destruct (make_job _) as [t|e] eqn:Hm; [|by eapply left_world].
  destruct (make_job_next _ _ _ _ _ _ _ (left_world _ _ _ Hd) (left_known _ _ _ Hd) Hm)
    as (Ht & Hid & Htgt & Hs); [done..|]. cbn in Hs. clear Hm. revert d Hd.
  apply quiet_then; [apply left_stable|apply left_world|eauto with quiet grows nocore|intros ?].
  eapply triple_bind; [by apply append_starts|intros ?].
  apply quiet_then; [apply started_row_stable|intros ?; apply row_world|eauto with quiet nocore|intros ?].
  apply (nearly_then _ (jb_job_id t));
    [apply started_row_near|intros ?; apply row_world|apply nearly_running_snapshot|intros ?].
  eapply triple_bind; [apply mark_active_running|intros ?].
  assert (∀ d, is_running_at d0 c d → world false true d0 d) as Hx by (intros d [Hw _]; by eapply world_logs).
  apply quiet_then; [apply is_running_stable|exact Hx|eauto with quiet nocore|intros ?].
  apply (nearly_then _ (jb_job_id c)); [apply is_running_near|exact Hx| |intros ?].
  { case_match; [rewrite <- Hid; apply nearly_in_env, law_start|apply nearly_quiet, quiet_ret]. }
  case_match; [by apply after_start_does|by intros d [Hw _]].
Qed.

(** ** The queue of an agent *)
Section agent.
Context (a : string) (Ha : a ∈ agent_names) (ids : list string).

(** The agent is idle and its queue is [ids]. *)
Definition idle d0 d : Prop :=
  world true true d0 d ∧ queue_at (slot_of a) (dp_state d) = ids ∧
  active_job_for (slot_of a) (dp_state d) = None.
Lemma idle_stable d0 : stable (idle d0).
Proof.
  apply stable_and; [apply world_stable|]. intros d d' Hs [K1 K2].
  by rewrite (sj_queue _ _ Hs), (sj_active _ _ Hs).
Qed.
Lemma idle_world d0 d : idle d0 d → world true true d0 d.
Proof. by intros []. Qed.
Lemma idle_logs d0 d : idle d0 d → world false true d0 d.
Proof. intros [Hw _]. by eapply world_logs. Qed.

Definition idle_with d0 (c : JobRecord) d : Prop :=
  idle d0 d ∧ known_job c d ∧ jb_target_name c = a ∧ pending_states (jb_status c) = true.
Lemma idle_with_stable d0 c : stable (idle_with d0 c).
Proof.
  apply stable_and; [apply idle_stable|]. apply stable_and; [apply known_stable|by intros d d'].
Qed.
Lemma idle_with_logs d0 c d : idle_with d0 c d → world false true d0 d.
Proof. intros [Hi _]. by apply idle_logs. Qed.

Lemma idle_queued d0 d id :
  id ∈ ids → idle d0 d → ∃ c, jb_job_id c = id ∧ idle_with d0 c d.
Proof.
  intros Hin Hi. pose proof Hi as (Hw & Hq & _). rewrite <- Hq in Hin.
  destruct (queued_job _ _ _ _ _ Hw Ha Hin) as (c & Hc & Hid & Ht & Hp). by exists c.
Qed.

Lemma remove_leaves d0 c :
  triple (idle_with d0 c) (remove_queued a (jb_job_id c) : M unit) (λ _, left_queue d0 c) (world false true d0).
Proof.
  intros d ((Hw & Hq & Hact) & Hk & Ht & Hp). exists d. split; try done; rewrite ?Ht; try done.
Qed.

Lemma get_queued d0 id :
  id ∈ ids →
  triple (idle d0) (get_job id : M _) (λ r d, ∃ c, r = Some c ∧ jb_job_id c = id ∧ idle_with d0 c d)
    (world false true d0).
Proof.
  intros Hin d Hi. destruct (idle_queued _ _ _ Hin Hi) as (c & <- & Hw).
  pose proof Hw as (_ & Hk & Ht & _).
  pose proof (get_job_total true true d0 d c (idle_world _ _ Hi) Hk) as Hg.
  pose proof (quiet_get_job (E := E) (jb_job_id c) d) as Hs. unfold st_exec in Hs. revert Hg Hs.
  destruct (get_job (jb_job_id c) d) as [[r|e] d']; intros Hg Hs.
  - exists c. split_and!; [|done|by eapply idle_with_stable]. apply Hg. by rewrite Ht.
  - by eapply idle_logs, idle_stable.
Qed.

Lemma claim_delivery_does d0 slot l :
  qs_target_name slot = a →
  triple (idle d0) (claim_reply_delivery known float_of_text slot ids l)
    (λ r d, match r with Some _ => world true true d0 d | None => idle d0 d end) (world false true d0).
Proof.
  intros Hslot. induction l as [|id l IH]; cbn [claim_reply_delivery]; [by intros d Hd|].
  destruct (decide (id ∈ ids)) as [Hin|Hin];
    [rewrite bool_decide_eq_true_2 by done|rewrite bool_decide_eq_false_2 by done; exact IH].
  cbn [negb]. eapply triple_bind; [by apply get_queued|]. intros r d (c & -> & <- & Hi). revert d Hi.
  apply quiet_then; [apply idle_with_stable|apply idle_with_logs|apply quiet_clock|intros at_].
  apply quiet_then; [apply idle_with_stable|apply idle_with_logs|eauto with quiet nocore|intros [|]]; cbn [negb].
  - rewrite Hslot. eapply triple_bind; [apply remove_leaves|intros ?].
    eapply triple_bind; [apply start_does|]. by intros r d Hd.
  - intros d [Hi _]. by apply IH.
Qed.

Lemma claim_request_does d0 slot :
  qs_target_name slot = a →
  triple (idle d0) (claim_request_job_id slot ids : M _)
    (λ r d, match r with Some id => ∃ c, jb_job_id c = id ∧ left_queue d0 c d | None => world true true d0 d end)
    (world false true d0).
Proof.
  intros Hslot. unfold claim_request_job_id.
  apply quiet_then; [apply idle_stable|apply idle_logs|eauto with quiet grows nocore|intros l].
  destruct (List.filter _ l) as [|id rest] eqn:Hl; [intros d; apply idle_world|].
  assert (id ∈ ids) as Hin.
  { assert (id ∈ id :: rest) as Hid by left. rewrite <- Hl in Hid.
    apply list_elem_of_In, List.filter_In in Hid as [_ Hid]. by apply bool_decide_eq_true in Hid. }
  intros d Hi. destruct (idle_queued _ _ _ Hin Hi) as (c & <- & Hw). rewrite Hslot.
  exists c. split; [done|]. exact (remove_leaves d0 c d Hw).
Qed.

End agent.

Lemma get_left d0 c :
  triple (left_queue d0 c) (get_job (jb_job_id c) : M _) (λ r d, r = Some c ∧ left_queue d0 c d)
    (world false true d0).
Proof.
  intros d Hd. pose proof (get_job_total false true d0 d c (left_world _ _ _ Hd) (left_known _ _ _ Hd)) as Hg.
  pose proof (quiet_get_job (E := E) (jb_job_id c) d) as Hs. unfold st_exec in Hs. revert Hg Hs.
  destruct (get_job (jb_job_id c) d) as [[r|e] d']; intros Hg Hs.
  - split; [apply Hg; by destruct Hd as [d1 []]|by eapply left_stable].
  - by eapply left_world, left_stable.
Qed.

Lemma start_agent_does a slot d0 :
  a ∈ agent_names → qs_target_name slot = a →
  triple (λ d, world true true d0 d ∧ active_job_for (slot_of a) (dp_state d) = None)
    (start_agent_mailbox_job known float_of_text slot : M _) (λ _, world true true d0) (world false true d0).
Proof.
  intros Ha Hslot. unfold start_agent_mailbox_job, of_queues. intros d [Hw Hact]. rewrite st_gets_bind, Hslot.
  set (ids := queued_items_for (agent_slot a) (dp_state d)).
  assert (idle a ids d0 d) as Hi by done. clearbody ids. clear Hw Hact. revert d Hi.
  apply quiet_then; [apply idle_stable|apply idle_logs|eauto with quiet nocore|intros l].
  eapply triple_bind; [by apply claim_delivery_does|]. intros [r|]; [intros d Hd; exact Hd|].
  eapply triple_bind; [by apply claim_request_does|]. intros [id|]; [|intros d Hd; exact Hd].
  intros d (c & <- & Hl). revert d Hl. eapply triple_bind; [apply get_left|]. intros r d [-> Hl]. revert d Hl.
  eapply triple_bind; [apply start_does|]. by intros r d Hd.
Qed.

(** ** [tick] *)
Lemma runnable_does a d0 :
  triple (world true true d0) (runnable_slot a : M _)
    (λ r d, world true true d0 d ∧ match r with
            | Some s => qs_target_name s = a ∧ active_job_for (slot_of a) (dp_state d) = None
            | None => True
            end) (world false true d0).
Proof.
  intros d Hw. unfold runnable_slot, of_queues. rewrite !st_gets_bind.
  change (agent_slot a) with (slot_of a).
  destruct (active_job_for (slot_of a) (dp_state d)) eqn:Hact; [done|]. cbn [negb is_none orb].
  destruct (_ =? _)%nat; [done|]. unfold mbind, st_bind, of_env.
  destruct (reg_get a (dp_env d)) as [[rt|]|e]; [|done|by eapply world_logs].
  destruct (stopped_or_failed _); [done|]. destruct (negb _); [done|]. by destruct (_ && _).
Qed.

Lemma refreshed_target slot rt s : refreshed_slot slot rt = Some s → qs_target_name s = qs_target_name slot.
Proof. unfold refreshed_slot. repeat case_match; intros; by simplify_eq. Qed.

Lemma refresh_binding_does slot d :
  match refresh_slot_runtime_for_start slot d with
  | (Ok (Some s), _) => qs_target_name s = qs_target_name slot
  | _ => True
  end.
Proof.
  unfold refresh_slot_runtime_for_start. destruct (stopped_or_failed _).
  { unfold mbind, st_bind. destruct (st_try _ _ d) as [[[rt|]|e] d1]; [|done|done]. cbn. by destruct (runnable rt). }
  destruct (qs_runtime slot) as [rt|]; [|done]. destruct (negb _); [done|].
  destruct (degraded_runtime_action rt); [done|done|done|].
  unfold mbind, st_bind. destruct (st_try _ _ d) as [[r|e] d1]; [|done]. cbn.
  destruct (refreshed_slot slot r) eqn:Hr; [|done]. by eapply refreshed_target.
Qed.

Lemma start_next_does a slot d0 :
  a ∈ agent_names → qs_target_name slot = a →
  triple (λ d, world true true d0 d ∧ active_job_for (slot_of a) (dp_state d) = None)
    (start_next_queued_job known float_of_text slot : M _) (λ _, world true true d0) (world false true d0).
Proof.
  intros Ha Hslot. unfold start_next_queued_job.
  intros d Hd. pose proof (refresh_binding_does slot d) as Hr. pose proof (quiet_refresh_slot slot d) as Hs.
  unfold st_exec in Hs. unfold mbind, st_bind. revert Hr Hs.
  assert (stable (λ d, world true true d0 d ∧ active_job_for (slot_of a) (dp_state d) = None)) as Hst.
  { apply stable_and; [apply world_stable|]. intros d1 d2 K1. by rewrite (sj_active _ _ K1). }
  destruct (refresh_slot_runtime_for_start slot d) as [[[s|]|e] d']; intros Hr Hs.
  - apply start_agent_does with a; [done|congruence|by eapply Hst].
  - cbn. by eapply Hst.
  - by eapply world_logs, (Hst d).
Qed.

Lemma tick_agent_does a : a ∈ agent_names → keeps_ok (tick_agent known float_of_text a : M _).
Proof.
  intros Ha d0. unfold tick_agent. eapply triple_bind; [apply (runnable_does a)|]. intros [s|].
  - intros d (Hw & Ht & Hact). by apply (start_next_does a).
  - by intros d [Hw _].
Qed.

Lemma for_agents_ok {A} (f : string → M (option A)) l :
  (∀ a, a ∈ l → keeps_ok (f a)) → keeps_ok (for_agents f l).
Proof.
  induction l as [|a l IH]; intros Hf; cbn [for_agents].
  - apply keeps_ok_of, keeps_quiet, quiet_ret.
  - apply keeps_ok_bind; [apply Hf; by left|intros ?].
    apply keeps_ok_bind; [apply IH; intros; apply Hf; by right|intros ?].
    apply keeps_ok_of, keeps_quiet, quiet_ret.
Qed.

Lemma tick_does : keeps_ok (tick known float_of_text : M _).
Proof.
  unfold tick, tick_jobs.
  apply keeps_ok_bind; [by apply keeps_ok_of, repair_callbacks_keeps|intros _].
  apply keeps_ok_bind; [by apply keeps_ok_of, prepare_keeps, complete_keeps|intros _].
  apply for_agents_ok, tick_agent_does.
Qed.
End start.
