(* ===== verification/DispatcherCancel.v ===== *)
(** * Cancelling, polling, shutting down and restoring

    [cancel] keeps the queues in step with the logs when it returns; the other
    three keep the logs as they should be whatever the services report. *)
From stdpp Require Import pretty.
From Stdlib Require Import QArith.
From S2P Require Import Prelude PyValue Names CompletionModels ExecutionModels Tracker TextArtifacts JobModels.
From S2P Require Import MailboxModels MailboxKernel BureauModels Bureau RetryPolicy.
From S2P Require Import DispatcherState JobQueues Dispatcher Callbacks Submission ReplyDelivery.
From S2P Require Import Finalization Scheduling Polling DispatcherFrame DispatcherQuiet.
From S2P Require Import DispatcherInvariant DispatcherOps.
Open Scope string_scope.
Open Scope list_scope.
Open Scope nat_scope.

Section cancel.
Context {E : Type} `{ServiceLaws E} `{Clock} `{Uuids} (Huuid : Inj (=) (=) uuid_hex12).
Context `{DispatcherConfig} `{CompletionLib} `{TextLib}.
Context (known : gset string) (float_of_text : string → option Q).
Abbreviation M := (DM E).
Implicit Types d : dispatcher E.

(** ** Cancelling *)
Section job.
Context (q b : bool).

Definition off_queue (c : JobRecord) d : dispatcher E :=
  with_queues (clear_active_for (job_slot c) (Some (jb_job_id c))
    (remove_queued_for (job_slot c) (jb_job_id c) (dp_state d)).2) d.

(** [c] is out of the queues of [d1]; since then all was quiet. *)
Record cancelling d0 (c : JobRecord) d1 d : Prop := {
  cg_world : world q b d0 d1;
  cg_known : known_job c d1;
  cg_live : stage (Some (jb_status c)) ≠ 3;
  cg_same : same_jobs (off_queue c d1) d
}.
Definition being_cancelled d0 c d : Prop := ∃ d1, cancelling d0 c d1 d.

Lemma cancelled_stable d0 c : stable (being_cancelled d0 c).
Proof. intros d d' Hs [d1 []]. exists d1. split; [done..|by etrans]. Qed.

Lemma off_queue_index id c d :
  target_for_job id (dp_state (off_queue c d)) = target_for_job id (dp_state d).
Proof. cbn [off_queue with_queues dp_state]. unfold off_queue. cbn [with_queues dp_state]. rewrite index_clear. unfold remove_queued_for. by destruct (queue_remove _ _). Qed.

Lemma requeued_world d0 d s :
  world q b d0 d → (∀ id, target_for_job id s = target_for_job id (dp_state d)) →
  world false b d0 (with_queues s d).
Proof.
  intros [K1 Ks K2 K3 _ _ K5] Hi. split; [done|done|done| |done|done|exact K5].
  intros id slot. cbn. rewrite Hi. intros Ht. by destruct (K3 _ _ Ht) as (a & ? & ?); exists a.
Qed.
Lemma cancelled_world d0 c d : being_cancelled d0 c d → world false b d0 d.
Proof.
  intros [d1 []]. eapply same_jobs_world; [done|]. apply requeued_world; [done|].
  intros. apply off_queue_index.
Qed.
Lemma cancelled_known d0 c d : being_cancelled d0 c d → known_job c d.
Proof. intros [d1 []]. by eapply known_stable. Qed.

Lemma append_marked d0 c t :
  made t → jb_job_id t = jb_job_id c → jb_target_name t = jb_target_name c → jb_status t = jb_status c →
  triple (knows q b d0 c) (append_job t : M unit) (λ _, knows q b d0 (stored_job t)) (world false b d0).
Proof.
  intros Ht Hid Htgt Hs d [Hw Hc].
  destruct (same_row_does q b d0 d c t) as (d' & Ed & Hw' & _); [done..|]. rewrite Ed. split; [done|].
  destruct (append_job_does t d Ht) as (d2 & Ed2 & Ha & _). rewrite Ed in Ed2. injection Ed2 as <-.
  unfold known_job. pose proof (appended_job _ _ _ (jb_job_id t) Ha) as Hj. cbn in Hj |- *.
  by rewrite Hj, bool_decide_eq_true_2.
Qed.

Lemma append_cancelled d0 c t :
  made t → jb_job_id t = jb_job_id c → jb_target_name t = jb_target_name c → ends (jb_status t) →
  triple (being_cancelled d0 c) (append_job t : M unit) (λ _, world q b d0) (world false b d0).
Proof.
  intros Ht Hid Htgt Hs d [d1 [K1 K2 K3 K4]].
  destruct (append_job_does t d Ht) as (d' & Ed & Ha & Hq & Hact). rewrite Ed.
  eapply (end_row_world q b d0 d1 d' c t); try done.
  - destruct Ha as [A1 A2 A3 A4 A5]. split.
    + by rewrite A1, (sj_jobs _ _ K4).
    + intros. by rewrite A2, (sj_jobs _ _ K4).
    + pose proof (sj_uuids _ _ K4) as Hn. change (uuids_drawn d1 <= uuids_drawn d) in Hn. lia.
    + intros id slot Hi. destruct (A4 _ _ Hi) as [Hi1|]; [|by right].
      destruct (sj_index _ _ K4 _ _ Hi1) as [Hi2|(a & Hn & x & Hx)].
      * left. by rewrite off_queue_index in Hi2.
      * right. exists a. split; [done|]. unfold job_of in *.
        destruct (decide (a = jb_target_name (stored_job t))) as [->|N].
        -- rewrite A1, latest_job_snoc. case_bool_decide; [done|by exists x].
        -- rewrite A2 by done. by exists x.
    + intros id Hat. destruct (A5 _ Hat) as [Hd|]; [|by right]. left. by destruct (sj_attended _ _ K4 _ Hd).
  - intros ->. exists (off_queue c d1). split; [by eapply withdraw_does|].
    split; intros a; [by rewrite Hq, (sj_queue _ _ K4)|by rewrite Hact, (sj_active _ _ K4)].
Qed.

Lemma cancel_with_does d0 c c' at_ r s e :
  jb_job_id c' = jb_job_id c → jb_target_name c' = jb_target_name c → jb_agent_name c' = jb_agent_name c →
  triple (being_cancelled d0 c) (cancel_with_decision known c' at_ r s e : M _)
    (λ _, world q b d0) (world false b d0).
Proof.
  intros Hid Ht Hag. unfold cancel_with_decision.
  do 5 (apply quiet_then; [apply cancelled_stable|apply cancelled_world|eauto with quiet nocore; apply quiet_lift|intros ?]).
  intros d Hd. unfold mbind at 1, st_bind at 1, st_lift.
  destruct (make_job _) as [t|x] eqn:Hm; [|by eapply cancelled_world].
  destruct (make_job_next _ _ _ _ _ _ _ (cancelled_world _ _ _ Hd) (cancelled_known _ _ _ Hd) Hm)
    as (Hmade & Hi & Htgt & Hs); [done..|]. cbn in Hs. clear Hm. revert d Hd.
  eapply triple_bind; [apply append_cancelled; try done; by rewrite Hs|intros ?].
  eapply triple_conseq; [apply keeps_at; keep_going|done|done|]. intros d. apply world_logs.
Qed.

Lemma cancel_does id e d0 :
  triple (world q b d0) (cancel_job known id e : M _) (λ _, world q b d0) (world false b d0).
Proof.
  unfold cancel_job. eapply triple_bind; [eapply triple_conseq; [apply get_known|done|done|intros d; apply world_logs]|].
  intros [c|]; [|intros d [Hw _]; by eapply world_logs]. destruct (bool_decide (jb_status c = JS_cancelled)).
  { intros d [Hw _]. cbn. unfold st_lift. destruct (cancel_post_init _); [done|by eapply world_logs]. }
  destruct (terminal_job_status _) eqn:Hterm; [intros d [Hw _]; by eapply world_logs|].
  intros d (Hw & Hc & <-). assert (knows q b d0 c d) as Hk by done. clear Hw Hc. revert d Hk.
  apply quiet_then; [apply knows_stable|intros d [Hw _]; by eapply world_logs|apply quiet_clock|intros at_].
  intros d Hk. unfold mbind at 1, st_bind at 1, st_lift.
  destruct (make_job _) as [t|x] eqn:Hm; [|eapply world_logs; apply Hk].
  destruct (make_job_next _ _ _ _ _ _ _ (proj1 Hk) (proj2 Hk) Hm) as (Ht & Hid & Htgt & Hs); [done..|].
  cbn in Hs. clear Hm. revert d Hk.
  eapply triple_bind; [by apply append_marked|intros ?].
  apply quiet_then; [apply knows_stable|intros d [Hw _]; by eapply world_logs|apply quiet_append_event|intros ?].
  intros d [Hw Hk]. unfold on_queues. rewrite !st_modify_bind.
  assert (being_cancelled d0 (stored_job t)
    (off_queue (stored_job t) d)) as Hd.
  { exists d. split; try done. change (jb_status (stored_job t)) with (jb_status t). rewrite Hs.
    by destruct (jb_status c). }
  unfold off_queue in Hd. rewrite job_slot_of in Hd |- *.
  change (jb_target_name (stored_job t)) with (jb_target_name t) in Hd.
  change (jb_job_id (stored_job t)) with (jb_job_id t) in Hd. rewrite Hid, Htgt in Hd.
  match goal with |- match ?m ?d' with _ => _ end => set (rest := m); set (d1 := d') end.
  change (being_cancelled d0 (stored_job t) d1) in Hd. clearbody d1. revert d1 Hd. subst rest.
  apply quiet_then; [apply cancelled_stable|apply cancelled_world|apply quiet_in_env, law_cancel|intros ?].
  apply quiet_then; [apply cancelled_stable|apply cancelled_world|apply quiet_load_snapshot|intros ?].
  by apply cancel_with_does.
Qed.

(** ** Polling *)

(** The jobs of [ids] have started. *)
Definition reported (ids : list string) d : Prop := q = true → ∀ id, id ∈ ids → beyond d id.

Lemma reported_near ids : ∀ id, stable_near id (reported ids).
Proof. intros id d d' Hs Hr Hq i Hi. by eapply same_jobs_beyond, Hr. Qed.
Lemma reported_stable ids : stable (reported ids).
Proof. intros d d' Hs Hr Hq i Hi. by eapply same_jobs_beyond, Hr. Qed.
Lemma reported_evolves b' ids d d' : evolves b' d d' → reported ids d → reported ids d'.
Proof. intros He Hr Hq i Hi. by eapply evolves_beyond, Hr. Qed.

Definition world_reported d0 ids d : Prop := world q b d0 d ∧ reported ids d.
Lemma world_reported_stable d0 ids : stable (world_reported d0 ids).
Proof. apply stable_and; [apply world_stable|apply reported_stable]. Qed.
Lemma world_reported_near d0 ids id : id ∈ ids → stable_near id (world_reported d0 ids).
Proof.
  intros Hin d d' Hs [Hw Hr]. split; [|by eapply reported_near].
  eapply same_upto_world; [done| |done]. intros Hq i ->. by apply Hr.
Qed.

(** What keeps the invariant leaves the started jobs started. *)
Lemma reported_frame {A} (m : M A) ids ids' d0 :
  (∀ d0, triple (world_reported d0 ids) m (λ _, world q b d0) (world q b d0)) →
  triple (world_reported d0 (ids ++ ids')) m (λ _, world_reported d0 ids') (world q b d0).
Proof.
  intros Hm d [Hw Hr].
  assert (world_reported d ids d) as Hpre.
  { split; [by eapply world_again|]. intros Hq i Hi. apply Hr; [done|]. apply elem_of_app. by left. }
  specialize (Hm d d Hpre). destruct (m d) as [[a|e] d'].
  - split; [by eapply world_trans|]. eapply reported_evolves; [apply Hm|]. intros Hq i Hi.
    apply Hr; [done|]. apply elem_of_app. by right.
  - by eapply world_trans.
Qed.

Lemma beyond_started d0 id d : world q b d0 d → beyond d id → started id d.
Proof.
  intros Hw [a Ha] c. destruct (decide (c = a)) as [->|Hne]; [lia|].
  enough (status_of d c id = None) as -> by done. unfold status_of in *.
  destruct (job_of d c id) as [j|] eqn:Hc; [|done]. destruct Hne.
  apply (wd_unique _ _ _ _ Hw _ _ id); [by rewrite Hc|]. destruct (job_of d a id); [done|cbn in Ha; lia].
Qed.

Lemma complete_reported d0 id x :
  triple (world_reported d0 [id]) (complete known float_of_text id x) (λ _, world q b d0) (world q b d0).
Proof.
  intros d [Hw Hr]. apply (complete_keeps Huuid known float_of_text q b id x d0). split; [done|].
  intros Hq. eapply beyond_started; [done|]. apply Hr; [done|by left].
Qed.

Ltac weak := intros d [Hw _]; exact Hw.

Lemma poll_update_does u d0 :
  triple (world_reported d0 [up_job_id u]) (poll_update known float_of_text u : M _)
    (λ _, world q b d0) (world q b d0).
Proof.
  unfold poll_update. intros d [Hw Hr]. pose proof (get_known q b d0 (up_job_id u) d Hw) as Hg.
  pose proof (quiet_get_job (E := E) (up_job_id u) d) as Hs. unfold st_exec in Hs.
  unfold mbind at 1, st_bind at 1. revert Hg Hs.
  destruct (get_job (up_job_id u) d) as [[r|e] d1]; [|done]. intros [Hw1 Hj] Hs.
  assert (world_reported d0 [up_job_id u] d1) as Hd1.
  { split; [done|]. by eapply reported_stable. }
  clear d Hw Hr Hs Hw1. destruct r as [j|]; [|revert d1 Hd1 Hj; intros d1 [Hw _] _; revert d1 Hw; apply keeps_at; keep_going].
  destruct Hj as [_ Hid]. revert d1 Hd1. case_match.
  { intros d [Hw _]. revert d Hw. apply keeps_at. keep_going. }
  apply (nearly_then _ (jb_job_id j)); [|weak|apply nearly_ingest_update|intros v].
  { apply world_reported_near. rewrite Hid. by left. }
  case_match.
  - eapply triple_bind; [apply complete_reported|intros ?]. apply keeps_at. keep_going.
  - intros d [Hw _]. revert d Hw. apply keeps_at. keep_going.
Qed.

Lemma poll_updates_does us d0 :
  triple (world_reported d0 (up_job_id <$> us)) (poll_updates known float_of_text us : M _)
    (λ _, world q b d0) (world q b d0).
Proof.
  induction us as [|u us IH]; cbn [poll_updates]; [weak|].
  change (up_job_id <$> u :: us) with ([up_job_id u] ++ (up_job_id <$> us)). eapply triple_bind.
  { apply (reported_frame _ [up_job_id u] (up_job_id <$> us)). apply poll_update_does. }
  intros r. eapply triple_bind; [exact IH|intros ?]. apply keeps_at. keep_going.
Qed.

Lemma tick_views_does vs : ∀ done d0,
  triple (world_reported d0 (vw_job_id <$> vs)) (tick_views known float_of_text done vs : M _)
    (λ _, world q b d0) (world q b d0).
Proof.
  induction vs as [|v vs IH]; intros done d0; cbn [tick_views]; [weak|].
  assert (∀ k : M (list (string * JobRecord)),
    triple (world_reported d0 (vw_job_id <$> vs)) k (λ _, world q b d0) (world q b d0) →
    triple (world_reported d0 (vw_job_id v :: (vw_job_id <$> vs))) k (λ _, world q b d0) (world q b d0)) as Hskip.
  { intros k Hk d [Hw Hr]. apply Hk. split; [done|]. intros Hq i Hi. apply Hr; [done|by right]. }
  cbn [fmap list_fmap].
  apply quiet_then; [apply world_reported_stable|weak|eauto with quiet nocore|intros [j|]]; [|apply Hskip, IH].
  case_match; [apply Hskip, IH|].
  apply quiet_then; [apply world_reported_stable|weak|eauto with quiet nocore|intros ?].
  case_match; [|apply Hskip, IH].
  change (vw_job_id v :: (vw_job_id <$> vs)) with ([vw_job_id v] ++ (vw_job_id <$> vs)). eapply triple_bind.
  { apply (reported_frame _ [vw_job_id v] (vw_job_id <$> vs)). intros d1. apply complete_reported. }
  intros r. apply IH.
Qed.

(** What the services report and what is tracked are jobs that started. *)
Lemma poll_reports d0 :
  triple (world q b d0) (in_env ex_poll : M _)
    (λ us, world_reported d0 (up_job_id <$> us)) (world q b d0).
Proof.
  intros d Hw. pose proof (quiet_in_env ex_poll law_poll d) as Hs.
  pose proof (λ us, law_reports (dp_env d) us) as Hrep. unfold st_exec, in_env in *.
  destruct (ex_poll (dp_env d)) as [[us|e] e'] eqn:He; cbn in Hrep, Hs.
  - split; [by eapply world_stable|]. intros Hq id (u & -> & Hu)%list_elem_of_fmap.
    eapply same_jobs_beyond; [exact Hs|]. apply (wd_attended _ _ _ _ Hw Hq). right. by eapply Hrep.
  - by eapply world_stable.
Qed.
Lemma tick_all_reports d0 now :
  triple (world q b d0) (in_tracker (tick_all now) : M _)
    (λ vs, world_reported d0 (vw_job_id <$> vs)) (world q b d0).
Proof.
  intros d Hw. pose proof (quiet_in_tracker (E := E) (tick_all now) (tracks_tick_all now) d) as Hs.
  unfold st_exec, in_tracker in *.
  destruct (tick_all now (dp_tracker d)) as [[vs|e] t] eqn:Ht; cbn in Hs.
  - split; [by eapply world_stable|]. intros Hq id (v & -> & Hv)%list_elem_of_fmap.
    eapply same_jobs_beyond; [exact Hs|]. apply (wd_attended _ _ _ _ Hw Hq). left.
    unfold tick_all in Ht. rewrite st_gets_bind in Ht. by eapply tick_each_views.
  - by eapply world_stable.
Qed.

Lemma poll_does d0 :
  triple (world q b d0) (poll_completion_updates known float_of_text : M _)
    (λ _, world q b d0) (world q b d0).
Proof.
  unfold poll_completion_updates. eapply triple_bind; [apply poll_reports|intros us].
  eapply triple_bind; [apply poll_updates_does|intros ?].
  apply quiet_then; [apply world_stable|done|apply quiet_clock|intros now].
  eapply triple_bind; [apply tick_all_reports|intros vs].
  eapply triple_bind; [apply tick_views_does|intros ?]. apply keeps_at. keep_going.
Qed.

(** ** Restoring *)

(** The job [c] is running. *)
Definition runs d0 (c : JobRecord) d : Prop := knows q b d0 c d ∧ jb_status c = JS_running.
Lemma runs_stable d0 c : stable (runs d0 c).
Proof. apply stable_and; [apply knows_stable|by intros d d']. Qed.
Lemma runs_near d0 c : stable_near (jb_job_id c) (runs d0 c).
Proof.
  intros d d' Hs [[Hw Hc] Hr]. split; [|done]. split.
  - eapply same_upto_world; [done| |done]. intros _ i ->. exists (jb_target_name c).
    by rewrite (known_status _ _ Hc), Hr.
  - unfold known_job. by rewrite (same_jobs_job _ _ _ _ _ Hs).
Qed.
Ltac leave := intros d [[Hw _] _]; exact Hw.

Lemma runs_complete {A} d0 c x (k : JobRecord → M A) :
  (∀ r, keeps q b (k r)) →
  triple (runs d0 c) (r ← complete known float_of_text (jb_job_id c) x; k r) (λ _, world q b d0) (world q b d0).
Proof.
  intros Hk d [Hd Hr]. revert d Hd. apply complete_known; [|done|done]. by apply complete_keeps.
Qed.
Lemma runs_complete_last d0 c x :
  triple (runs d0 c) (complete known float_of_text (jb_job_id c) x) (λ _, world q b d0) (world q b d0).
Proof.
  intros d [[Hw Hc] Hr]. apply (complete_keeps Huuid known float_of_text q b _ x d0). split; [done|].
  intros _. by eapply known_started.
Qed.

Lemma restore_delivery_does d0 c :
  triple (runs d0 c) (restore_delivery known float_of_text c : M _) (λ _, world q b d0) (world q b d0).
Proof.
  unfold restore_delivery.
  apply quiet_then; [apply runs_stable|leave|apply quiet_clock|intros ?].
  apply quiet_then; [apply runs_stable|leave|apply quiet_lift|intros ?].
  apply runs_complete. intros r. keep_going.
Qed.
Lemma failed_restore_does d0 c r :
  triple (runs d0 c) (complete_failed_restore known float_of_text c r : M _) (λ _, world q b d0) (world q b d0).
Proof.
  unfold complete_failed_restore.
  do 3 (apply quiet_then; [apply runs_stable|leave|eauto with quiet nocore; apply quiet_lift|intros ?]).
  apply runs_complete_last.
Qed.

Lemma restore_current_does id d0 :
  triple (world q b d0) (restore_current_job known float_of_text id : M _) (λ _, world q b d0) (world q b d0).
Proof.
  unfold restore_current_job. eapply triple_bind; [apply get_known|]. intros [c|]; [|weak].
  case_bool_decide as Hrun; cbn [negb]; [|weak].
  intros d (Hw & Hc & _). assert (runs d0 c d) as Hd by done. clear Hw Hc. revert d Hd.
  destruct (is_reply_delivery_job c).
  { eapply triple_bind; [apply restore_delivery_does|intros ?]. apply keeps_at. keep_going. }
  apply quiet_then; [apply runs_stable|leave|apply quiet_of_env|intros rt].
  apply (nearly_then _ (jb_job_id c)); [apply runs_near|leave|apply nearly_in_env, law_restore|intros r].
  apply quiet_then; [apply runs_stable|leave|apply quiet_lift|intros entry].
  eapply triple_bind; [|intros ?; apply keeps_at; keep_going].
  destruct (if er_status r =ˢ _ then _ else _) as [x|].
  { apply (nearly_then _ (jb_job_id c)); [apply runs_near|leave|apply nearly_ensure_tracked|intros ?].
    apply runs_complete_last. }
  destruct (restored r); [|apply failed_restore_does].
  apply (nearly_then _ (jb_job_id c)); [apply runs_near|leave|apply nearly_ensure_tracked|intros ?].
  intros d [[Hw _] _]. revert d Hw. apply keeps_at. keep_going.
Qed.

Lemma restore_does d0 :
  triple (world q b d0) (restore_running_jobs known float_of_text : M _) (λ _, world q b d0) (world q b d0).
Proof.
  unfold restore_running_jobs. apply quiet_then; [apply world_stable|done|apply quiet_clock|intros ?].
  apply quiet_then; [apply world_stable|done|apply quiet_of_queues|intros ids].
  induction ids as [|id ids IH]; cbn [restore_each]; [by intros d Hw|].
  eapply triple_bind; [apply restore_current_does|intros ?].
  eapply triple_bind; [exact IH|intros ?]. apply keeps_at. keep_going.
Qed.
End job.

(** ** Shutting down: the logs *)
Lemma requeue_keeps b f :
  (∀ id s, target_for_job id (f s) = target_for_job id s) → keeps false b (on_queues f : M unit).
Proof. intros Hf d0 d Hw. cbn. apply (requeued_world false b d0 d); [done|]. intros id. apply Hf. Qed.
Lemma complete_logs b id x : keeps false b (complete known float_of_text id x).
Proof. intros d0 d Hw. by apply (complete_keeps Huuid known float_of_text false b id x d0 d). Qed.

Lemma shutdown_job_logs b j r f : keeps false b (terminate_job_for_shutdown known float_of_text j r f : M _).
Proof.
  unfold terminate_job_for_shutdown. pose proof (complete_logs b).
  apply keeps_bind; [keep_going|intros ?].
  apply keeps_bind; [apply requeue_keeps; intros id s; unfold remove_queued_for; by destruct (queue_remove _ _)|intros ?].
  apply keeps_bind; [apply requeue_keeps; intros; apply index_clear|intros ?]. keep_going.
Qed.
Lemma quiet_all_rows l : quiet (all_rows l : M _).
Proof. induction l; cbn [all_rows]; quietly. Qed.
Lemma shutdown_logs b r f : keeps false b (terminate_nonterminal_jobs known float_of_text r f : M _).
Proof.
  pose proof (shutdown_job_logs b). unfold terminate_nonterminal_jobs, latest_nonterminal_job_ids.
  apply keeps_bind; [apply keeps_quiet, quiet_bind; [apply quiet_all_rows|intros; apply quiet_ret]|].
  intros ids. induction ids as [|id ids IH]; cbn [terminate_each]; keep_going.
Qed.
End cancel.
