(* ===== verification/DispatcherRecover.v ===== *)
(** * Recovering a communication

    [comms_recover] on a job that does not run keeps the invariant of the
    dispatcher, like its other operations. *)
From stdpp Require Import pretty.
From Stdlib Require Import QArith.
From S2P Require Import Prelude PyValue Names AgentModels CompletionModels ExecutionModels Tracker TextArtifacts JobModels.
From S2P Require Import MailboxModels MailboxKernel BureauModels Bureau RetryPolicy.
From S2P Require Import DispatcherState JobQueues Dispatcher Callbacks Submission ReplyDelivery.
From S2P Require Import Finalization Scheduling Polling CommsRecover DispatcherFrame DispatcherQuiet.
From S2P Require Import DispatcherInvariant DispatcherOps DispatcherStart.
Open Scope string_scope.
Open Scope list_scope.
Open Scope nat_scope.

Section recovery.
Context {E : Type} `{ServiceLaws E} `{Clock} `{Uuids} (Huuid : Inj (=) (=) uuid_hex12).
Context `{DispatcherConfig} `{CompletionLib} `{TextLib}.
Context (known : gset string) (float_of_text : string → option Q).
Abbreviation M := (DM E).
Implicit Types d : dispatcher E.

(** ** The invariant *)
Lemma quiet_lineage_for_job j : quiet (lineage_for_job j : M _).
Proof. unfold lineage_for_job. quietly. Qed.
#[local] Hint Resolve quiet_lineage_for_job : quiet.
Lemma quiet_can_retry j : quiet (can_retry_job j : M _).
Proof. unfold can_retry_job. quietly. Qed.
Lemma quiet_already_retried j : quiet (already_retried_job_id j : M _).
Proof. unfold already_retried_job_id. quietly. Qed.
Lemma quiet_running_stale j h : quiet (running_stale_reason j h : M _).
Proof. unfold running_stale_reason. quietly. Qed.
Lemma quiet_job_or_none i : quiet (job_or_none i : M _).
Proof. unfold job_or_none. quietly. Qed.
#[local] Hint Resolve quiet_can_retry quiet_already_retried quiet_running_stale quiet_job_or_none : quiet.
Lemma quiet_recoverability j r h : quiet (comms_recoverability_for_job j r h : M _).
Proof. unfold comms_recoverability_for_job. quietly. Qed.
Lemma quiet_release j : quiet (release_lineage_head_if_blocking j : M _).
Proof. unfold release_lineage_head_if_blocking. quietly. Qed.
Lemma quiet_delivery_after a o : quiet (reply_delivery_after_recovery a o : M _).
Proof. unfold reply_delivery_after_recovery. quietly. Qed.
#[local] Hint Resolve quiet_recoverability quiet_release quiet_delivery_after : quiet.

Section keeps.
Context (q b : bool).
Lemma try_retry_keeps t a : keeps q b (try_retry t a : M _).
Proof. pose proof (retry_keeps Huuid q b). unfold try_retry. keep_going. Qed.
Lemma terminal_retry_keeps j a : keeps q b (recover_terminal_retry j a : M _).
Proof. pose proof try_retry_keeps. unfold recover_terminal_retry. keep_going. Qed.
Lemma offer_again_keeps c r a : keeps q b (offer_reply_again known float_of_text c r a : M _).
Proof.
  pose proof (prepare_keeps Huuid float_of_text q b _ (complete_keeps Huuid known float_of_text q b)).
  pose proof (quiet_rewrite_head (E := E)). unfold offer_reply_again. keep_going.
Qed.
Lemma recover_delivery_keeps j a : keeps q b (recover_reply_delivery known float_of_text j a : M _).
Proof. pose proof offer_again_keeps. unfold recover_reply_delivery. keep_going. Qed.
End keeps.

Lemma source_keeps source r t c a :
  jb_status source ≠ JS_running → keeps_ok (recover_source known float_of_text source r t c a : M _).
Proof.
  intros Hs. unfold recover_source. apply keeps_ok_of. rewrite (bool_decide_eq_false_2 _ Hs).
  repeat case_match; [apply recover_delivery_keeps|apply terminal_retry_keeps|keep_going].
Qed.
Lemma tick_after_keeps a : keeps_ok (tick_after_recovery known float_of_text a : M _).
Proof.
  unfold tick_after_recovery, tick_jobs. apply keeps_ok_bind.
  { case_match; [apply keeps_ok_of; keep_going|by apply keeps_ok_of, prepare_keeps, complete_keeps]. }
  intros _. apply keeps_ok_bind; [by apply for_agents_ok, tick_agent_does|intros ?]. apply keeps_ok_of. keep_going.
Qed.
Lemma finish_keeps source t a : keeps_ok (finish_recovery known float_of_text source t a : M _).
Proof.
  unfold finish_recovery. case_match; [apply keeps_ok_of; keep_going|].
  apply keeps_ok_bind; [apply tick_after_keeps|intros ?]. apply keeps_ok_of. keep_going.
Qed.

(** What the payload names is not a running job. *)
Definition at_rest (payload : string + pydict) d : Prop :=
  ∀ target j, recover_target_from_payload payload = Ok target →
    (get_job (ct_job_id target) d).1 = Ok (Some j) → jb_status j ≠ JS_running.
Lemma recover_does payload d0 :
  triple (λ d, world true true d0 d ∧ at_rest payload d) (comms_recover known float_of_text payload : M _)
    (λ _, world true true d0) (world false true d0).
Proof.
  intros d [Hw Hrest]. unfold comms_recover, at_rest in *. unfold mbind at 1, st_bind at 1, st_lift at 1.
  destruct (recover_target_from_payload payload) as [target|e]; [|by eapply world_logs].
  specialize (Hrest target). pose proof (quiet_get_job (ct_job_id target) d) as Hq.
  unfold mbind at 1, st_bind at 1. unfold st_exec in Hq.
  destruct (get_job _ d) as [[[source|]|e] d1]; cbn in Hq.
  2,3: by eapply world_logs, world_stable.
  specialize (Hrest source eq_refl eq_refl). assert (world true true d0 d1) as Hw1 by by eapply world_stable.
  clear Hw Hq. revert d1 Hw1. revert d0.
  match goal with |- ∀ d0 d1, _ → match ?m d1 with _ => _ end => change (keeps_ok m) end.
  case_match; [apply keeps_ok_of; keep_going|].
  apply keeps_ok_bind; [apply keeps_ok_of; keep_going|intros r].
  apply keeps_ok_bind; [apply keeps_ok_of; keep_going|intros rc].
  case_match; [|apply keeps_ok_of; keep_going].
  apply keeps_ok_bind; [by apply source_keeps|intros ?]. apply finish_keeps.
Qed.
End recovery.
