(* ===== verification/DispatcherTheorems.v ===== *)
(** * The dispatcher: runs, restarts and what holds in all of them

    The operations of [JobDispatcher] as steps of a daemon that may stop at any
    point and start again, and the theorems on every state such runs reach. *)
From stdpp Require Import pretty.
From Stdlib Require Import QArith.
From S2P Require Import Prelude PyValue RuntimeValues Names AgentModels CompletionModels ExecutionModels Tracker TextArtifacts JobModels.
From S2P Require Import MailboxModels MailboxKernel MailboxQueue MailboxSystem BureauModels Bureau RetryPolicy.
From S2P Require Import MailboxTheorems BureauTheorems.
From S2P Require Import DispatcherState JobQueues Dispatcher Callbacks Submission ReplyDelivery.
From S2P Require Import Finalization Scheduling Polling CommsRecover DispatcherFrame DispatcherQuiet.
From S2P Require Import DispatcherInvariant DispatcherOps DispatcherTermination.
From S2P Require Import DispatcherStart DispatcherCancel DispatcherRecover.
Open Scope string_scope.
Open Scope list_scope.
Open Scope nat_scope.

(** ** Runs *)
Section runs.
Context {E : Type} `{ServiceLaws E} `{Clock} `{Uuids} `{DispatcherConfig} `{CompletionLib} `{TextLib}.
Context (iso_plus : string → Q → result string) (known : gset string)
  (decoded : list ascii → string) (float_of_text : string → option Q).
Abbreviation M := (DM E).
Implicit Types d : dispatcher E.

(** The entry points of [JobDispatcher] that change its state.  [complete] is
    called by the job heartbeat, on jobs that run; [comms_recover] also recovers
    running jobs, by cancelling them first, and goes on when that fails: these
    recoveries are left out. *)
Inductive operation :=
  | DoSubmit (request : MessageEnvelope)
  | DoResubmit (message_id : string)
  | DoRetry (target : string)
  | DoTick
  | DoPoll
  | DoComplete (job_id : string) (decision : CompletionDecision)
  | DoCancel (job_id : string) (record_reply : bool)
  | DoAckReply (agent_name inbound_event_id : string) (started_at finished_at : option string)
  | DoRestore
  | DoRecover (payload : string + pydict)
  | DoShutdown (reason : string) (forced : bool).

Definition ignore {A} (m : M A) : M unit := _ ← m; mret tt.
Definition perform (o : operation) : M unit :=
  match o with
  | DoSubmit r => ignore (submit_jobs iso_plus decoded r)
  | DoResubmit i => ignore (resubmit_message iso_plus decoded i)
  | DoRetry t => ignore (retry_attempt t)
  | DoTick => ignore (tick known float_of_text)
  | DoPoll => ignore (poll_completion_updates known float_of_text)
  | DoComplete i x => ignore (complete known float_of_text i x)
  | DoCancel i r => ignore (cancel_job known i r)
  | DoAckReply a i s f => ignore (in_mailbox (ack_reply a i s f))
  | DoRestore => ignore (restore_running_jobs known float_of_text)
  | DoRecover p => ignore (comms_recover known float_of_text p)
  | DoShutdown r f => ignore (terminate_nonterminal_jobs known float_of_text r f)
  end.
Definition allowed (o : operation) d : Prop :=
  match o with DoComplete i _ => beyond d i | DoRecover p => at_rest p d | _ => True end.
(** After a shutdown the process ends. *)
Definition last_operation (o : operation) : bool :=
  match o with DoShutdown _ _ => true | _ => false end.

(** A new process over the files of the old one: nothing is tracked, the
    services handle no job yet, and the queues are rebuilt from the logs. *)
Definition restarted (timeout : Q) (e : E) d : dispatcher E :=
  (rebuild_dispatcher_state
     (with_env e (with_tracker (mkService timeout ∅ [])
        (with_queues (new_dispatcher_state agent_names) d)))).2.

(** Operations follow each other while they return; after one that raised, and
    after a shutdown, the process starts again. *)
Inductive reached (d0 : dispatcher E) : dispatcher E → Prop :=
  | reached_start : reached d0 d0
  | reached_op o d d' :
      reached d0 d → allowed o d → last_operation o = false → perform o d = (Ok tt, d') → reached d0 d'
  | reached_restart o d r d' timeout e :
      reached d0 d → allowed o d → perform o d = (r, d') → (∀ id, ¬ handled e id) →
      reached d0 (restarted timeout e d').

(** ** Every operation keeps the invariant *)
Context (Huuid : Inj (=) (=) uuid_hex12) (Hagents : NoDup agent_names).

Lemma ignore_does {A} (m : M A) P Q X :
  triple P m (λ _, Q) X → triple P (ignore m) (λ _, Q) X.
Proof. intros Hm. eapply triple_bind; [exact Hm|]. by intros a d Hd. Qed.

Lemma perform_does o d0 :
  triple (λ d, world true true d0 d ∧ allowed o d) (perform o)
    (λ _ d, world (negb (last_operation o)) true d0 d) (world false true d0).
Proof.
  assert (∀ A (m : M A), keeps true true m →
    triple (λ d, world true true d0 d ∧ True) (ignore m) (λ _ d, world true true d0 d) (world false true d0)) as Hk.
  { intros A m Hm. apply ignore_does. eapply triple_conseq; [apply (keeps_ok_of m Hm d0)|by intros d []|done|done]. }
  destruct o; cbn [perform allowed last_operation negb].
  - by apply Hk, submit_jobs_keeps.
  - by apply Hk, resubmit_keeps.
  - by apply Hk, retry_keeps.
  - apply ignore_does. eapply triple_conseq; [by apply tick_does|by intros d []|done|done].
  - apply Hk. intros d1. by apply poll_does.
  - apply ignore_does. intros d [Hw Hb].
    assert (world_reported true true d0 [job_id] d) as Hpre.
    { split; [done|]. intros _ i ->%list_elem_of_singleton. done. }
    pose proof (complete_reported Huuid known float_of_text true true d0 job_id decision d Hpre) as Hc.
    destruct (complete _ _ _ _ d) as [[j|e] d']; [done|by eapply world_logs].
  - apply ignore_does. eapply triple_conseq; [by apply cancel_does|by intros d []|done|done].
  - apply Hk. keep_going.
  - apply Hk. intros d1. by apply restore_does.
  - apply ignore_does. by apply recover_does.
  - apply ignore_does. eapply triple_conseq; [by apply shutdown_logs|by intros d [Hw%world_logs _]|done|done].
Qed.

(** ** Restarts *)
Lemma restarted_jobs timeout e d a : jobs_of (restarted timeout e d) a = jobs_of d a.
Proof. done. Qed.
Lemma restarted_state timeout e d :
  dp_state (restarted timeout e d) = rebuild (jobs_of d) agent_names (new_dispatcher_state agent_names).
Proof. done. Qed.

(** What [rebuild] makes of logs that are as they should be. *)
Lemma rebuilt_does d s :
  (∀ a j, a ∈ agent_names → j ∈ jobs_of d a → jb_target_name j = a) → ∀ a, a ∈ agent_names →
  queue_at (slot_of a) (rebuild (jobs_of d) agent_names s) = pending_ids (jobs_of d a) ∧
  active_job_for (slot_of a) (rebuild (jobs_of d) agent_names s) = last (running_ids (jobs_of d a)).
Proof.
  intros Ht a Ha. apply rebuild_agents; [done..| |done]. unfold queue_at. cbn -[lookup].
  rewrite lookup_fmap. by destruct (_ !! slot_of a).
Qed.
Lemma single_last {A} (l : list A) : length l <= 1 → l = match last l with Some x => [x] | None => [] end.
Proof. destruct l as [|x [|y l]]; cbn; [done|done|lia]. Qed.

Lemma rebuilt_consistent d s a :
  single_running d → (∀ a j, a ∈ agent_names → j ∈ jobs_of d a → jb_target_name j = a) → a ∈ agent_names →
  agent_consistent (jobs_of d a) a (rebuild (jobs_of d) agent_names s).
Proof.
  intros Hone Ht Ha. destruct (rebuilt_does d s Ht a Ha) as [Hq Hact]. split; [done|].
  rewrite Hact. apply single_last, Hone.
Qed.

Lemma restarted_world timeout e d0 d :
  world false true d0 d → (∀ id, ¬ handled e id) → world true true d0 (restarted timeout e d).
Proof.
  intros [Hl Hone Hu Hi _ _ He] Hfresh. split; [exact Hl|exact Hone|exact Hu| | | |exact He].
  - intros id slot Ht. rewrite restarted_state in Ht. revert id slot Ht.
    apply (rebuild_index (indexed d)). intros a j _ Hin. destruct (Hl a j Hin) as [Hn Htgt _ _].
    exists a. rewrite job_slot_of, Htgt. split; [done|]. unfold job_of, latest_job.
    destruct (find_last _ _) as [x|] eqn:Hx; [by exists x|]. eapply find_last_None in Hx; [|done].
    by rewrite bool_decide_eq_true_2 in Hx.
  - intros _ a Ha. rewrite restarted_jobs, restarted_state. apply rebuilt_consistent; [done| |done].
    intros b j _ Hin. apply (Hl b j Hin).
  - intros _ id [[x Hx]|Hh]; [by cbn in Hx|by destruct (Hfresh id)].
Qed.

Lemma reached_world d0 d : world true true d0 d0 → reached d0 d → world true true d0 d.
Proof.
  intros Hstart Hr. induction Hr as [|o d d' Hr IH Hal Hlast Hp|o d r d' timeout e Hr IH Hal Hp He]; [done|..].
  - pose proof (perform_does o d0 d (conj IH Hal)) as Hd. rewrite Hp, Hlast in Hd. exact Hd.
  - apply restarted_world; [|done]. pose proof (perform_does o d0 d (conj IH Hal)) as Hd. rewrite Hp in Hd.
    destruct r as [u|x]; [by eapply world_logs|done].
Qed.

Lemma reached_trans d0 d1 d2 : reached d0 d1 → reached d1 d2 → reached d0 d2.
Proof. intros Hd Hr. induction Hr; [done|by eapply reached_op|by eapply reached_restart]. Qed.

(** A sequence of operations, up to the first one that raises. *)
Fixpoint perform_all (ops : list operation) : M unit :=
  match ops with [] => mret tt | o :: l => perform o;; perform_all l end.
Definition ordinary (o : operation) : bool :=
  match o with DoComplete _ _ | DoRecover _ | DoShutdown _ _ => false | _ => true end.
Lemma perform_all_reached ops d0 d :
  forallb ordinary ops = true → (perform_all ops d).1 = Ok tt → reached d0 d →
  reached d0 (perform_all ops d).2.
Proof.
  revert d. induction ops as [|o l IH]; intros d Ho Hp Hd; [exact Hd|].
  apply andb_true_iff in Ho as [Ho Hl]. cbn [perform_all] in *. unfold mbind, st_bind in *.
  destruct (perform o d) as [[[]|x] d1] eqn:K1; [|done].
  apply IH; [done..|]. apply (reached_op d0 o d d1 Hd); [by destruct o..|exact K1].
Qed.

(** A dispatcher over an empty directory. *)
Definition empty_dispatcher (timeout : Q) (k : kernel) (e : E) : dispatcher E :=
  mkDispatcher ∅ ∅ [] (mkBureau k [] [] [] [] 0) (mkTextStore ∅ 0) ∅ (mkService timeout ∅ [])
    (new_dispatcher_state agent_names) e.

Lemma new_state agents s :
  (∀ a, queue_at (slot_of a) s = [] ∧ active_job_for (slot_of a) s = None) →
  (∀ id, target_for_job id s = None) →
  let s' := foldl (λ s name, ensure_queue (TK_agent, name) s) s agents in
  (∀ a, queue_at (slot_of a) s' = [] ∧ active_job_for (slot_of a) s' = None) ∧
  (∀ id, target_for_job id s' = None).
Proof.
  revert s. induction agents as [|b l IH]; intros s Hs Hi; cbn [foldl]; [done|]. apply IH.
  - intros a. by rewrite queue_at_ensure, active_ensure.
  - intros id. rewrite <- (Hi id). unfold ensure_queue. by destruct (ds_queues s !! _).
Qed.

Lemma empty_world timeout k e :
  (∀ id, ¬ handled e id) → world true true (empty_dispatcher timeout k e) (empty_dispatcher timeout k e).
Proof.
  intros He. destruct (new_state agent_names (mkDState ∅ ∅ ∅)) as [Hq Hi].
  { intros a. unfold queue_at, active_job_for. cbn -[lookup]. by rewrite !lookup_empty. }
  { intros id. unfold target_for_job. cbn -[lookup]. by rewrite lookup_empty. }
  assert (∀ a, jobs_of (empty_dispatcher timeout k e) a = []) as Hj.
  { intros a. unfold jobs_of. cbn -[lookup]. by rewrite lookup_empty. }
  apply world_refl.
  - intros a j. rewrite Hj. by intros ?%elem_of_nil.
  - intros a. rewrite Hj. cbn. lia.
  - intros a b id [j Hx]. unfold job_of in Hx. by rewrite Hj in Hx.
  - intros id slot Ht. cbn -[new_dispatcher_state] in Ht. unfold new_dispatcher_state in Ht. by rewrite Hi in Ht.
  - intros _ a Ha. rewrite Hj. destruct (Hq a) as [K1 K2]. split; [exact K1|].
    change (dp_state (empty_dispatcher timeout k e)) with (new_dispatcher_state agent_names).
    unfold new_dispatcher_state. by rewrite K2.
  - intros _ id [[x Hx]|Hh]; [by cbn in Hx|by destruct (He id)].
Qed.

(** ** The theorems

    The start is an empty directory and services that handle no job yet. *)
Context (timeout : Q) (k : kernel) (e : E) (He : ∀ id, ¬ handled e id).
Abbreviation daemon := (reached (empty_dispatcher timeout k e)).

Lemma daemon_world d : daemon d → world true true (empty_dispatcher timeout k e) d.
Proof. apply reached_world. by apply empty_world. Qed.


(** C17: Jobs only move on.  From any state of the daemon to any later one, also
    across restarts, a job that is there stays in the log of its agent, goes
    from pending to running to ended and never back, and the status in which it
    ended is final. *)
Theorem jobs_only_move_on d d' (Hd : daemon d) (Hd' : reached d d') a id s
    (Hs : status_of d a id = Some s) :
  ∃ s', status_of d' a id = Some s' ∧ stage (Some s) ≤ stage (Some s') ∧
        (terminal_job_status s = true → s' = s).
Proof.
  pose proof (reached_world d d' (world_again _ _ _ _ (daemon_world d Hd)) Hd') as Hw.
  destruct (wd_evolves _ _ _ _ Hw) as [_ Hm]. destruct (Hm a id) as (K1 & K2 & _). rewrite Hs in *.
  destruct (status_of d' a id) as [s'|]; [|destruct s; cbn in K1; lia]. exists s'.
  split_and!; [done|done|]. intros Ht. assert (stage (Some s) = 3) as Hend by (by destruct s).
  specialize (K2 Hend). congruence.
Qed.


(** C22: Completing a job ends.  [complete_job] can complete further jobs while it
    repairs the heads of the mailboxes, and those again.  In every state of the
    daemon the definition with fuel satisfies the equation of the code, with
    itself in the place of the recursive calls, and no larger amount of fuel,
    and no other bottom, makes a difference: the depth is bounded by the number
    of running jobs. *)
Theorem complete_terminates d (Hd : daemon d) id x :
  complete known float_of_text id x d =
    complete_body known float_of_text (complete known float_of_text) id x d ∧
  ∀ bottom n, size (running_jobs d) < n →
    complete_fuel known float_of_text bottom n id x d = complete known float_of_text id x d.
Proof.
  destruct (daemon_world d Hd) as [Hl Hone Hu Hi _ _ _].
  split; [by apply complete_recursion|]. intros bottom n Hn. by apply complete_any_fuel.
Qed.
End runs.

(** ** A daemon with two agents

    The execution service reports every job it was given as completed. *)
Definition demo_spec (name : string) : AgentSpec :=
  mkSpec name "codex" "." WM_inplace None RM_pane_backed RS_auto PM_manual QP_serial_per_agent None [] [] no_api
    default_provider_profile None [] None [].
Definition demo_agents_config : list (string * AgentSpec) :=
  [("agent1", demo_spec "agent1"); ("agent2", demo_spec "agent2")].
Definition demo_manifest : CompletionManifest :=
  mkManifest "codex" "pane-backed" CF_protocol_turn SK_protocol_event_stream true false true false true
    SF_final_message.
Definition demo_config : DispatcherConfig := {|
  cfg_agents := demo_agents_config;
  cfg_manifest := λ _ _, Ok demo_manifest;
  cfg_supports_resume := λ _, false;
  cfg_callback_timeout_s := None;
  cfg_max_callback_depth := None;
  cfg_workspace_path := λ a, Ok ("/w/" +:+ a)
|}.
Definition demo_runtime (a : string) : AgentRuntime :=
  mkRuntime a AG_idle None (Some "tmux:1") None None "p" "tmux" "healthy" "provider-session" None.
Definition demo_submission (j : JobRecord) : ProviderSubmission :=
  mkProviderSubmission (jb_job_id j) (jb_agent_name j) "codex" "t0" "t0" SK_protocol_event_stream ""
    CS_incomplete "in_progress" CC_observed None [].
Definition demo_services : Services (list string) := {|
  reg_get := λ a _, Ok (Some (demo_runtime a));
  reg_list_alive := λ _, Ok ["agent1"; "agent2"];
  rt_patch_state := λ _ _ _ _ e, (Ok tt, e);
  rt_ensure_ready := λ a e, (Ok (Some (demo_runtime a)), e);
  rt_refresh_binding := λ a e, (Ok (Some (demo_runtime a)), e);
  ex_start := λ j _ e, (Ok (Some (demo_submission j)), jb_job_id j :: e);
  ex_cancel := λ i e, (Ok tt, List.filter (λ j, j ≠ˢ i) e);
  ex_finish := λ i e, (Ok tt, List.filter (λ j, j ≠ˢ i) e);
  ex_acknowledge := λ _ e, (Ok tt, e);
  ex_acknowledge_item := λ _ _ e, (Ok tt, e);
  ex_restore := λ _ _ e, (Ok (mkRestored "abandoned" "gone" false 0 None), e);
  ex_poll := λ e, (Ok ((λ i, mkUpdate i [] (Some demo_answer)) <$> e), e);
  ex_pending_decision := λ _ _, None;
  ex_is_live := λ i e, bool_decide (i ∈ e)
|}.
Definition demo_attends : Attends (list string) := {| handled := λ e i, i ∈ e |}.
Lemma demo_laws : @ServiceLaws (list string) demo_services demo_attends.
Proof.
  assert (∀ i : string, @env_calm _ demo_attends unit (λ e, (Ok tt, List.filter (λ j, j ≠ˢ i) e))) as Hf.
  { intros i e j Hj. cbn in *. by apply elem_of_filter_bool in Hj as []. }
  assert (∀ A (r : result A), @env_calm _ demo_attends A (λ e, (r, e))) as Hs by (intros A r e j Hj; exact Hj).
  assert (∀ r e i, (@ex_poll _ demo_services e).1 = r → ∀ us, r = Ok us → ∀ u, u ∈ us → up_job_id u = i → i ∈ e)
    as Hp.
  { intros r e i <- us [= <-] u (x & -> & Hx)%list_elem_of_fmap <-. exact Hx. }
  split; intros; try apply Hf; try apply Hs.
  - intros e i Hi. cbn in *. apply elem_of_cons in Hi as [->|]; [by right|by left].
  - intros e i Hi. by left.
  - intros e i Hi. exact Hi.
  - by eapply Hp.
Qed.

Abbreviation demo_perform := (@perform (list string) demo_services demo_bureau_clock demo_uuids demo_config
  demo_sha demo_text_lib (λ t _, Ok t) demo_known (λ _, "") (λ _, None)).
Definition demo_start : dispatcher (list string) :=
  @empty_dispatcher (list string) demo_config 0 empty_kernel [].
Definition demo_request (body : string) : MessageEnvelope :=
  mkEnvelope "p" "agent1" "user" body None None "ask" DS_single false [] None.
(** Two requests for one agent, and then a tick. *)
Definition demo_operations : list operation :=
  [DoSubmit (demo_request "one"); DoSubmit (demo_request "two"); DoTick].
Definition demo_performed (ops : list operation) : result unit * dispatcher (list string) :=
  @perform_all (list string) demo_services demo_bureau_clock demo_uuids demo_config
  demo_sha demo_text_lib (λ t _, Ok t) demo_known (λ _, "") (λ _, None) ops demo_start.
Definition demo_state (ops : list operation) : dispatcher (list string) := (demo_performed ops).2.
Definition demo_then_poll : list operation := demo_operations ++ [DoPoll].

Lemma demo_handles_none (id : string) : ¬ @handled _ demo_attends [] id.
Proof. apply not_elem_of_nil. Qed.
Lemma demo_agents_distinct : NoDup (@agent_names demo_config).
Proof. apply (bool_decide_eq_true _). vm_compute. reflexivity. Qed.

Abbreviation demo_reaches := (@reached (list string) demo_services demo_attends demo_bureau_clock demo_uuids
  demo_config demo_sha demo_text_lib (λ t _, Ok t) demo_known (λ _, "") (λ _, None)).
Lemma demo_reached_state ops :
  forallb ordinary ops = true → (demo_performed ops).1 = Ok tt → demo_reaches demo_start (demo_state ops).
Proof. intros Ho Hp. apply perform_all_reached; [done..|]. constructor. Qed.
Lemma demo_tick_reached : demo_reaches demo_start (demo_state demo_operations).
Proof. apply demo_reached_state; vm_compute; reflexivity. Qed.
Lemma demo_poll_reached : demo_reaches (demo_state demo_operations) (demo_state demo_then_poll).
Proof.
  assert (demo_state demo_then_poll = (@perform_all (list string) demo_services demo_bureau_clock demo_uuids
    demo_config demo_sha demo_text_lib (λ t _, Ok t) demo_known (λ _, "") (λ _, None) [DoPoll]
    (demo_state demo_operations)).2) as -> by (vm_compute; reflexivity).
  apply perform_all_reached; [reflexivity|vm_compute; reflexivity|constructor].
Qed.


(** The poll ends the first job, and nothing brings it back. *)
Lemma jobs_only_move_on_witness :
  let d := demo_state demo_operations in
  let d' := demo_state demo_then_poll in
  status_of d "agent1" (@job_uuid demo_uuids 0) = Some JS_running ∧
  status_of d' "agent1" (@job_uuid demo_uuids 0) = Some JS_completed ∧
  ∃ s', status_of d' "agent1" (@job_uuid demo_uuids 0) = Some s' ∧ 2 <= stage (Some s').
Proof.
  intros d d'. split; [vm_compute; reflexivity|]. split; [vm_compute; reflexivity|].
  destruct (@jobs_only_move_on _ demo_services demo_attends demo_laws demo_bureau_clock demo_uuids demo_config
    demo_sha demo_text_lib (λ t _, Ok t) demo_known (λ _, "") (λ _, None) demo_uuids_inj demo_agents_distinct
    0 empty_kernel [] demo_handles_none d d' demo_tick_reached demo_poll_reached "agent1" (@job_uuid demo_uuids 0) JS_running)
    as (s' & Hs' & Hst & _); [vm_compute; reflexivity|].
  exists s'. split; [exact Hs'|exact Hst].
Defined.


Lemma complete_terminates_witness :
  let d := demo_state demo_operations in
  @complete_fuel (list string) demo_services demo_bureau_clock demo_uuids demo_config demo_sha demo_text_lib
    demo_known (λ _, None) (λ _ _, st_raise (RuntimeError "too deep")) 2 (@job_uuid demo_uuids 0) demo_answer d =
  @complete (list string) demo_services demo_bureau_clock demo_uuids demo_config demo_sha demo_text_lib
    demo_known (λ _, None) (@job_uuid demo_uuids 0) demo_answer d.
Proof.
  intros d.
  apply (@complete_terminates _ demo_services demo_attends demo_laws demo_bureau_clock demo_uuids demo_config
    demo_sha demo_text_lib (λ t _, Ok t) demo_known (λ _, "") (λ _, None) demo_uuids_inj demo_agents_distinct
    0 empty_kernel [] demo_handles_none d demo_tick_reached). vm_compute. lia.
Defined.
