(* ===== verification/RecoverTheorems.v ===== *)
(** * Recoveries are not repeated

    [comms_recover] on a job whose attempt was already followed by another one
    does nothing. *)
From stdpp Require Import pretty.
From Stdlib Require Import QArith.
From S2P Require Import Prelude PyValue Names AgentModels CompletionModels ExecutionModels Tracker TextArtifacts JobModels.
From S2P Require Import MailboxModels MailboxKernel BureauModels Bureau RetryPolicy BureauTheorems.
From S2P Require Import DispatcherState JobQueues Dispatcher Callbacks Submission ReplyDelivery.
From S2P Require Import Finalization Scheduling Polling CommsRecover DispatcherFrame DispatcherTheorems.
Open Scope string_scope.
Open Scope list_scope.
Open Scope nat_scope.

Section recovery.
Context {E : Type} `{Services E} `{Clock} `{Uuids} `{DispatcherConfig} `{CompletionLib} `{TextLib}.
Context (known : gset string) (float_of_text : string → option Q).
Abbreviation M := (DM E).
Implicit Types d : dispatcher E.

(** ** What was recovered is not recovered again *)
(** The index of the jobs apart, nothing changed. *)
Definition untouched d d' : Prop :=
  d' = with_queues (dp_state d') d ∧
  ∀ slot, queue_at slot (dp_state d') = queue_at slot (dp_state d) ∧
          active_job_for slot (dp_state d') = active_job_for slot (dp_state d).

Lemma untouched_refl d : untouched d d.
Proof. split; [by destruct d|done]. Qed.
Lemma search_untouched l id d : untouched d (st_exec (search_job l id) d).
Proof.
  unfold st_exec. induction l as [|c l IH]; cbn [search_job]; [apply untouched_refl|].
  unfold mbind, st_bind, get_latest_job, list_agent_jobs, mbind, st_bind, st_lift, st_gets.
  destruct (normalize_agent_name c); [|apply untouched_refl]. cbn. destruct (find_last _ _); [|exact IH].
  split; [done|]. intros slot. cbn. unfold remember_job. by rewrite queue_at_ensure, active_ensure.
Qed.
Lemma get_job_untouched id d : untouched d (st_exec (get_job id) d).
Proof.
  unfold get_job, of_queues, st_exec. rewrite st_gets_bind. destruct (target_for_job _ _) as [slot|].
  - unfold get_latest_job, list_agent_jobs, mbind, st_bind, st_lift, st_gets.
    destruct (normalize_agent_name _); apply untouched_refl.
  - apply search_untouched.
Qed.

(** The lineage is read from the records. *)
Definition lineage_of (j : JobRecord) d : result (option Lineage) := (lineage_for_job j d).1.
Lemma lineage_reads j d : lineage_for_job j d = (lineage_of j d, d).
Proof.
  unfold lineage_of, lineage_for_job, of_bureau. rewrite !st_gets_bind.
  destruct (attempt_latest_by_job _ _) as [a|]; [|done]. rewrite !st_gets_bind.
  unfold in_mailbox, in_bureau, in_kernel, get_latest_for_attempt, owner, mbind, st_bind, st_lift, st_gets.
  destruct d as [? ? ? []]; cbn. by destruct (normalize_mailbox_owner_name _).
Qed.
Lemma lineage_queues j s d : lineage_of j (with_queues s d) = lineage_of j d.
Proof.
  unfold lineage_of, lineage_for_job, of_bureau. rewrite !st_gets_bind. cbn.
  destruct (attempt_latest_by_job _ _) as [a|]; [|done]. rewrite !st_gets_bind. cbn.
  unfold in_mailbox, in_bureau, in_kernel, get_latest_for_attempt, owner, mbind, st_bind, st_lift, st_gets.
  cbn. by destruct (normalize_mailbox_owner_name _).
Qed.
Lemma bind_reads {A B} (m : M A) (f : A → M B) r d :
  m d = (r, d) → (m ≫= f) d = match r with Ok a => f a d | Err e => (Err e, d) end.
Proof. unfold mbind, st_bind. intros ->. by destruct r. Qed.
Lemma stale_reads j h d :
  ∃ r, running_stale_reason j h d = (r, d) ∧
       match r with Ok _ => True | Err e => reg_get (jb_agent_name j) (dp_env d) = Err e end.
Proof.
  unfold running_stale_reason. destruct (clean_hint h) as [x|]; [by exists (Ok (Some x))|].
  unfold mbind, st_bind, of_env. destruct (reg_get _ _) as [[rt|]|e]; by eexists.
Qed.

(** The attempt of the job, and a later one of the same message and agent. *)
Definition followed (source : JobRecord) (latest : AttemptRecord) d : Prop :=
  ∃ attempt inbound,
    lineage_of source d = Ok (Some (mkLineage attempt (Some latest) inbound)) ∧
    at_attempt_id latest ≠ at_attempt_id attempt.
Definition refused (latest : AttemptRecord) (a : CommsAudit) : Prop :=
  ca_status a = "noop" ∧ ca_noop_reason a = Some "already_retried" ∧ ca_latest_job_id a = Some (at_job_id latest) ∧
  audit_changed a = false.

Lemma followed_overtaken source latest d :
  followed source latest d →
  ∃ l, lineage_for_job source d = (Ok (Some l), d) ∧ ln_latest_attempt l = Some latest ∧
       (at_attempt_id latest =ˢ at_attempt_id (ln_attempt l)) = false.
Proof.
  intros (a & i & Hl & Ho). exists (mkLineage a (Some latest) i). rewrite lineage_reads, Hl.
  split_and!; [done..|]. cbn. by apply bool_decide_eq_false_2.
Qed.
Lemma followed_not_latest l latest :
  ln_latest_attempt l = Some latest → (at_attempt_id latest =ˢ at_attempt_id (ln_attempt l)) = false →
  is_latest_attempt l = false.
Proof. intros Hl Ho. unfold is_latest_attempt. by rewrite Hl, Ho. Qed.

Lemma followed_recoverability source latest h d :
  followed source latest d →
  ∃ r, comms_recoverability_for_job source None h d = (r, d) ∧
       match r with
       | Ok c => c = not_recoverable ∨
                 jb_status source = JS_running ∧
                 ∃ x, running_stale_reason source h d = (Ok (Some x), d) ∧
                      c = mkRecoverability true (Some x) (Some (mkRecoverTarget (jb_job_id source) None (Some x)))
       | Err e => jb_status source = JS_running ∧ reg_get (jb_agent_name source) (dp_env d) = Err e
       end.
Proof.
  intros (l & Hl & Hlat & Ho)%followed_overtaken. unfold comms_recoverability_for_job. rewrite (bind_reads _ _ (Ok false) d eq_refl).
  rewrite (bind_reads _ _ (Ok false) d).
  2:{ destruct (failed_terminal source); [|done]. unfold can_retry_job. rewrite (bind_reads _ _ _ _ Hl).
      by rewrite (followed_not_latest _ _ Hlat Ho). }
  cbv beta iota. destruct (bool_decide_reflect (jb_status source = JS_running)) as [Hr|Hr];
    [|by exists (Ok not_recoverable); split; [|left]].
  destruct (stale_reads source h d) as (r & Hs & He). rewrite (bind_reads _ _ _ _ Hs).
  destruct r as [[x|]|e]; eexists; (split; [reflexivity|]); cbn; eauto 6.
Qed.
Lemma running_not_failed : bool_decide (JS_running ∈ FAILED_TERMINAL_STATUSES) = false.
Proof. reflexivity. Qed.
Lemma overtaken_running source latest h x a d :
  followed source latest d → running_stale_reason source h d = (Ok (Some x), d) →
  recover_stale_running known source a h d = (Ok (audit_noop "already_retried" (Some (at_job_id latest)) a), d).
Proof.
  intros (l & Hl & Hlat & Ho)%followed_overtaken Hs. unfold recover_stale_running.
  rewrite (bind_reads _ _ _ _ Hs), (bind_reads _ _ _ _ Hl). unfold overtaken.
  rewrite (followed_not_latest _ _ Hlat Ho). unfold already_retried. by rewrite Hlat.
Qed.

(** C20: A recovery is not repeated.  When the attempt of a job is no longer the
    latest one of its message for its agent - an earlier recovery, or anything
    else, retried it - a request to recover the job leaves the job logs, the
    bureau, the services and the queues as they are, and answers that there was
    nothing to do, with the id of the job that works on the message now. Only the
    registry of the runtimes can keep it from answering, of a running job. *)
Theorem a_recovery_is_not_repeated payload target source latest d d1
    (Htarget : recover_target_from_payload payload = Ok target)
    (Hdelivery : ct_reply_delivery_job_id target = None)
    (Hsource : get_job (ct_job_id target) d = (Ok (Some source), d1))
    (Hbusiness : is_reply_delivery_job source = false)
    (Hfollowed : followed source latest d) :
  untouched d (comms_recover known float_of_text payload d).2 ∧
  match (comms_recover known float_of_text payload d).1 with
  | Ok a => refused latest a
  | Err e => jb_status source = JS_running ∧ reg_get (jb_agent_name source) (dp_env d) = Err e
  end.
Proof.
  pose proof (get_job_untouched (ct_job_id target) d) as Hu. unfold st_exec in Hu. rewrite Hsource in Hu. cbn in Hu.
  assert (followed source latest d1) as Hf1.
  { destruct Hu as [-> _]. unfold followed. by rewrite lineage_queues. }
  assert (dp_env d1 = dp_env d) as He by by destruct Hu as [-> _].
  enough (∃ r, comms_recover known float_of_text payload d = (r, d1) ∧ match r with
    | Ok a => refused latest a
    | Err e => jb_status source = JS_running ∧ reg_get (jb_agent_name source) (dp_env d1) = Err e end) as (r & -> & Hr).
  { split; [exact Hu|]. by rewrite <- He. }
  unfold comms_recover. rewrite (bind_reads (st_lift _) _ (Ok target) d) by (unfold st_lift; by rewrite Htarget).
  unfold mbind at 1, st_bind at 1. rewrite Hsource, Hbusiness, Hdelivery.
  rewrite (bind_reads (job_or_none None) _ (Ok None) d1 eq_refl).
  destruct (followed_recoverability source latest (ct_block_reason target) d1 Hf1) as (r & Hr & Hc).
  rewrite (bind_reads _ _ _ _ Hr). destruct r as [c|e]; [|by exists (Err e)].
  destruct Hc as [->|(Hrun & x & Hs & ->)].
  - destruct (followed_overtaken _ _ _ Hf1) as (l & Hl & Hlat & Ho). cbn [cy_target not_recoverable].
    rewrite (bind_reads _ _ (Ok (Some (at_job_id latest))) d1); [by eexists|].
    unfold already_retried_job_id. rewrite (bind_reads _ _ _ _ Hl). destruct l; cbn in *. by rewrite Hlat, Ho.
  - cbn [cy_target]. unfold recover_source, failed_terminal. cbn [ct_reply_delivery_job_id truthy].
    rewrite Hrun, (bool_decide_eq_true_2 (JS_running = JS_running) eq_refl), running_not_failed.
    rewrite (bind_reads _ _ _ _ (overtaken_running _ _ _ _ _ _ Hf1 Hs)).
    by exists (Ok (audit_status "noop" (audit_noop "already_retried" (Some (at_job_id latest)) (audit_of source
      (mkRecoverability true (Some x) (Some (mkRecoverTarget (jb_job_id source) None (Some x)))))))).
Qed.
End recovery.

(** ** A recovery, twice

    The first request of the demonstration runs and is cancelled; recovering it
    retries it, and recovering it once more does nothing. *)
Abbreviation demo_recover := (@comms_recover (list string) demo_services demo_bureau_clock demo_uuids demo_config
  demo_sha demo_text_lib demo_known (λ _, None)).
Definition demo_job : string := @job_uuid demo_uuids 0.
Definition demo_cancelled : dispatcher (list string) := demo_state (demo_operations ++ [DoCancel demo_job true]).
Definition demo_recovered : result CommsAudit * dispatcher (list string) := demo_recover (inl demo_job) demo_cancelled.

Definition demo_found : option JobRecord :=
  match (@get_job (list string) demo_config demo_job demo_recovered.2).1 with Ok found => found | Err _ => None end.
Definition demo_lineage : option Lineage :=
  match demo_found with
  | Some j => match lineage_of j demo_recovered.2 with Ok l => l | Err _ => None end
  | None => None
  end.
Lemma demo_recovered_is_followed :
  match demo_found, demo_lineage with
  | Some j, Some (mkLineage attempt (Some latest) inbound) =>
      @get_job _ demo_config (ct_job_id (mkRecoverTarget demo_job None None)) demo_recovered.2 = (Ok (Some j), demo_recovered.2) ∧
      is_reply_delivery_job j = false ∧ jb_status j = JS_cancelled ∧
      followed j latest demo_recovered.2 ∧ at_job_id latest = @job_uuid demo_uuids 15
  | _, _ => False
  end.
Proof.
  assert (match demo_found, demo_lineage with
    | Some j, Some l => lineage_of j demo_recovered.2 = Ok (Some l)
    | _, _ => False end) as Hl by (vm_compute; reflexivity).
  assert (match demo_lineage with
    | Some (mkLineage a (Some l) _) => bool_decide (at_attempt_id l = at_attempt_id a) | _ => true end = false) as Ho
    by (vm_compute; reflexivity).
  assert (match demo_found, demo_lineage with
  | Some j, Some (mkLineage attempt (Some latest) inbound) =>
      @get_job _ demo_config (ct_job_id (mkRecoverTarget demo_job None None)) demo_recovered.2 = (Ok (Some j), demo_recovered.2) ∧
      is_reply_delivery_job j = false ∧ jb_status j = JS_cancelled ∧ at_job_id latest = @job_uuid demo_uuids 15
  | _, _ => False
  end) as Hr by (vm_compute; split_and!; reflexivity).
  destruct demo_found as [j|]; [|done]. destruct demo_lineage as [[a [l|] i]|]; [|done..].
  destruct Hr as (? & ? & ? & ?). split_and!; [done..| |done].
  exists a, i. split; [exact Hl|exact (bool_decide_eq_false_1 _ Ho)].
Qed.

(** The job that works on the message now is named. *)
Lemma a_recovery_is_not_repeated_witness :
  let d := demo_recovered.2 in
  ∃ latest, at_job_id latest = @job_uuid demo_uuids 15 ∧
    untouched d (demo_recover (inl demo_job) d).2 ∧
    match (demo_recover (inl demo_job) d).1 with Ok a => refused latest a | Err _ => False end.
Proof.
  pose proof demo_recovered_is_followed as Hd. destruct demo_found as [j|]; [|done].
  destruct demo_lineage as [[a [l|] i]|]; [|done..]. destruct Hd as (Hg & Hb & Hs & Hf & Hl).
  exists l. split; [exact Hl|].
  destruct (@a_recovery_is_not_repeated _ demo_services demo_bureau_clock demo_uuids demo_config demo_sha
    demo_text_lib demo_known (λ _, None) (inl demo_job) (mkRecoverTarget demo_job None None) j l _ _ eq_refl eq_refl
    Hg Hb Hf) as [Hu Hr].
  split; [exact Hu|]. destruct (demo_recover _ _).1 as [x|e]; [exact Hr|].
  destruct Hr as [Hr _]. rewrite Hs in Hr. discriminate Hr.
Defined.
